(* ===== verification/_CoqProject ===== *)
-Q . S2P
Prelude.v
JsMap.v
JsNumber.v
JsString.v
Varint.v
Utf8.v
Binary.v
ProtoCodec.v
ProtoMessages.v
ProtoLaws.v
ProtoTx.v
ProtoConnection.v
ProtoClient.v
ProtoTheorems.v
JsJson.v
Hex.v
MerkleTree.v
MerkleSpec.v
MerkleRefine.v
OnChainCommitment.v
MerkleProofs.v
ToyHash.v
MerkleTheorems.v
Datum.v
Tendermint.v
ToyLucid.v
OnChainProto.v
StateRoot.v
PacketHelpers.v
StateRootFacts.v
StateRootTheorems.v
TreeRebuild.v
TreeServices.v
TreeServicesTheorems.v
EscrowShard.v
EscrowShardTheorems.v
Voucher.v
VoucherTheorems.v
Redeemers.v
ProofMessages.v
PacketDenom.v
PacketOps.v
TxRunner.v
TxBuilder.v
ChannelLifecycle.v
PacketOpsTheorems.v
PacketOpsWitnesses.v
TxRunnerTheorems.v
OnChainDatum.v
OnChainChannel.v
MessageValidate.v
ChannelOps.v
ConnectionOps.v
TxAssembly.v
OnChainConnection.v
OnChainHostState.v
OnChainTransfer.v
OnChainClient.v
TxAssemblyTheorems.v
EscrowTxTheorems.v
TxThreadTheorems.v
TxAssemblyWitnesses.v
ChannelOpsFacts.v
ConnectionOpsTheorems.v
ChannelOpsTheorems.v
ChannelHandlers.v
ClientOps.v
ClientOpsTheorems.v
ChannelHandlersTheorems.v
ConnectionHandlers.v
TraceRegistry.v
OnChainRegistry.v
Submission.v
SubmissionTheorems.v
Runtime.v
RuntimeTheorems.v
HandshakeWitnesses.v
ClientWitnesses.v
OnChainDatumTheorems.v
TraceRegistryTheorems.v
