(* ===== verification/Prelude.v ===== *)
(** * A verification development of the Cardano IBC Gateway

    The program relays IBC packets between Cardano and Cosmos chains.  The Gateway
    (src/cardano/gateway, TypeScript) answers gRPC requests: for a message it reads the
    chain's UTxOs, computes the next datums, the next root of its ICS-23 commitment tree
    with the witnesses of the change, and the redeemers, and returns an unsigned
    transaction.  The on-chain validators (src/cardano/onchain, Aiken) accept the
    transaction when they can recompute the same datums, the same root and the same proof
    redeemer.  So the Gateway's correctness is agreement: with the validators it builds
    for, with its own tree, and with the counterparty that decodes its protobuf.

    ** Parts and files

    _Language._  Prelude (errors, the result monad and the state monad [M S], inversion
    tactics, byte and text conversions), JsMap (insertion-ordered maps and sets), JsNumber
    (32-bit operators), JsString (text functions, BigInt), JsJson (JSON), Hex (hex.ts).

    _Protobuf._  Varint, Utf8 and Binary translate proto-types/src/varint.ts, utf8.ts and
    binary.ts: the reader, the writer with its operation list and fork stack, at the widths
    of JavaScript's bit operators, with the lemmas that relate them to LEB128, decimal
    text and UTF-16.  ProtoCodec is the class
    [Message] (what a generated message file provides) with its law [MessageOk];
    ProtoMessages, ProtoTx, ProtoConnection and ProtoClient are the generated messages (ibc/core/*/v1, cosmos/ics23,
    ibc/cardano/v1, ibc/applications/transfer), ProtoLaws their laws, ProtoTheorems the
    properties.

    _Commitment tree._  MerkleTree is ics23-merkle-tree.ts; MerkleSpec a dense tree of
    depth 64 as a function of the stored map; MerkleRefine and MerkleProofs relate the two;
    OnChainCommitment is the validator's replay (ibc_state_commitment.ak).  ToyHash is a
    concrete hash for the witnesses.

    _Datums and roots._  Datum holds the datum types and their Plutus encoders
    (shared/types), with the Lucid serializer as the interface [Lucid]; ToyLucid is an
    instance.  StateRoot is ibc-state-root.ts (every computeRootWith... function with its
    speculative clone and commit closure); StateRootFacts and
    StateRootTheorems show that each yields a root the validator replays.
    TreeRebuild is the rebuild from chain; TreeServices the pending updates, the persisted
    cache and the startup (shared/services).

    _Packets._  PacketHelpers (sequence.ts, packet-keys.ts, commitment.ts and the like),
    PacketDenom (denoms, authentication tokens, module ports), EscrowShard, Voucher,
    Redeemers, PacketOps (tx/packet.service.ts: receive, acknowledge, time out, send,
    prune), TxBuilder (the send flow of packages/cardano-ibc-tx-builder).  ChannelLifecycle
    is the channel's transition system, the abstract specification of the packet
    operations.  OnChainDatum is the validator's datum transitions.

    _Handshake._  OnChainProto and OnChainChannel are the validator's protobuf encoders,
    identifier checks, datum transitions and proof expectations; ProofMessages is
    ics23-proof-serialization.ts and merkle-proof.ts; MessageValidate is
    channel.validate.ts and packet.validate.ts; ChannelOps the builders and
    ChannelHandlers the request handlers of tx/channel.service.ts.  ProtoConnection holds
    the connection messages, ConnectionOps the message checks and builders and
    ConnectionHandlers the handlers of tx/connection.service.ts; OnChainConnection is the
    validator's side of the connection handshake, OnChainHostState the rules of the
    HostState datum (host_state.ak, host_state_stt.ak) as a transition system.

    _Light clients._  ProtoClient holds the client messages (ibc/lightclients/tendermint,
    tendermint/types, ibc/core/client); Tendermint the header, commit and validator types
    of shared/types with their checks, the conversions from and to protobuf and the client
    redeemers (header.ts, misbehaviour.ts, client-message.ts, client-redeemer.ts);
    ClientOps the message checks, builders and handlers of tx/client.service.ts and the
    heartbeat of tx/host-state-heartbeat.service.ts.  OnChainClient is the light client
    the validators run (ics-007-tendermint-client, spending_client.ak,
    minting_client_stt.ak, the client replays of host_state_stt.ak), with the life of a
    client as the relation [client_chain], and the handshake checks that read a client's
    status (minting_channel_stt.ak, chan_open_ack.ak, spending_connection.ak); hashing and signatures are the interface
    [TmCrypto].  ClientOpsTheorems relates the two sides.

    _Transactions._  TxAssembly translates the assemblers of lucid.service.ts: a transaction
    is the list of calls made on Lucid's builder, from which inputs, outputs and minted
    assets are read.  OnChainTransfer is the validators' view of such a transaction: values,
    escrow shards, payouts and refunds, the HostState thread, module continuations.  TxAssemblyTheorems,
    EscrowTxTheorems and TxThreadTheorems relate the two for any completion by Lucid (wallet
    inputs, change, lovelace added to outputs: [completed]).

    _Transaction runner._  TxRunner is tx-operation-runner.service.ts with the wallet
    scopes of lucid.service.ts and tx-events.service.ts, as a labelled transition function
    over any number of concurrent handlers; a label carries what the awaited call returned.

    _Submission._  Submission is tx/submission.service.ts: retries, confirmation, the
    finalisation of the pending tree update and the events of the response, over the tree
    with its database and the two registries ([sstate]).  SubmissionTheorems holds its
    properties and an evaluated submission.

    _Browser runtime._  Runtime holds the copies of the tree, the packet root, the rebuild
    and the escrow shard lookup that packages/cardano-ibc-tx-builder-runtime carries
    (ics23MerkleTree.ts, ibcStateRoot.ts, transferEscrowShard.ts), under the source's names;
    RuntimeTheorems compares them with the Gateway's by a simulation ([agree]).

    _Trace registry._  TraceRegistry is query/services/denom-trace.service.ts with its codec
    shared/types/trace-registry.ts: lookups, capacity checks, insertion plans, statistics.
    OnChainRegistry is the validator (trace_registry.ak, validators/trace_registry.ak) with
    Plutus' [serialiseData] and the identifier policy (minting_identifier.ak), on a ledger
    of unspent outputs whose steps are the transactions the scripts accept, and the
    invariant of that ledger.  TraceRegistryTheorems relates the two and holds a concrete
    registry.

    Files named ...Facts and ...Theorems hold a component's lemmas and properties, files
    named ...Witnesses concrete instances.

    ** State and effects

    A function that may throw is a [result]; a method that also changes an object or a
    module variable is an [M S], which keeps the state reached at the throw.  The canonical
    tree with its alignment flag is [gstate].  Code outside the repository is an interface
    (a class without axioms): hashes ([Sha256], [Blake2b], [Sha3]), Lucid's serializer
    ([Lucid]), the chain as the provider shows it ([ChainView], [PacketEnv], [SendEnv],
    [Ledger], [HistoryView], [RegistryEnv]), the node, the history and
    the transaction library at submission ([SubmissionEnv]), what can be read of an exception ([ErrorView]), the deployment ([Deployment],
    [ChannelDeployment], [EscrowEnv], [AssemblyConfig]), gzip and
    JSON ([TreeCodec]).  What a theorem needs of them is a class of laws ([Sha256Ok],
    [Sha256Std], [LucidOk], [LucidReads], [LucidCanonical], [TreeCodecOk], [EscrowCodecOk],
    [ModuleCodecOk], [ProviderOk]), with toy instances in the witnesses.
    Integers are [Z] with their wrap-around written out; a JavaScript string is its UTF-8
    bytes.

    ** What the theorems show

    - Tree: the cached tree is the dense tree of the stored map; the siblings it returns
      make the validator's replay accept exactly the update; proofs it serves, decoded from
      their protobuf bytes, verify; the verifier is sound up to a hash collision; an update
      accepted on chain changes one leaf.
    - Roots: every root computation is speculative and replayable; a rebuild is all or
      nothing and restores each channel's datum; startup ends aligned or throws.
    - Packets: every builder takes one guarded step of the channel's transition system,
      carries the datum stepped to, and its witnesses replay the changed keys from the root
      on chain to the new one; along every run the maps stay within the validator's bound, a
      packet is received once per proof height and resolved once; the validator's datum
      check accepts the steps on unordered channels and rejects removals on ordered ones.
    - Handshake: a handler of open ack, open confirm or close confirm that returns has run a
      transaction whose datum, redeemers, callback and proof (protobuf bytes included) are
      those the scripts recompute; the operation policy accepts an open ack exactly over an
      open connection that supports the ordering and an active client, and never a confirm;
      the minting policy accepts an open init exactly when its message is well formed and
      the ordering and the client pass; open try never carries the proof the validator asks
      for.  For connections, open init and open ack are accepted under stated conditions and
      replayed to the new root, open try and open confirm never are, and a retried open ack
      registers the first attempt's tree update.
    - Transactions: every packet transaction conserves every asset but lovelace, up to what
      the wallet pays; a receive that releases escrow passes the value checks of the
      transfer validator, a refund exactly when the refunded address does not pay for it, a
      deposit exactly when the bridge is not shutting down, for existing and new shards
      alike; the HostState and the connection or channel are
      continued in exactly one output with the updated datum; module UTxOs are continued
      exactly, except for the datum of an acknowledged module.
    - Light clients: the datum of an update, the frozen datum of a misbehaviour and the
      datum of a creation are those the validators expect, with the exceptions stated
      exactly (a kept state that expires at the very start of the validity interval, what
      the message check leaves open); the witnesses replay every key of the change to the
      new root.  Along every life of a client, from any creation the mint validator accepts,
      its consensus states stay ordered, bounded and headed by the latest height, each with
      its processed time and height, and a frozen client accepts nothing.  A verified header
      was signed by more than two thirds of its validator set.  The Gateway turns away
      adjacent headers and long chain identifiers the validator accepts.  A heartbeat passes
      the validator's rule.
    - HostState: along every chain of accepted transactions the version, the sequences, the
      ports and the shutdown flag are what the history of redeemers says.
    - Protobuf: the codecs of the IBC state write protobuf's wire image and read it back;
      the decoders end on every input.
    - Submission: the tree follows the chain.  What a returned submission committed is a
      registered update whose root the confirmed transaction carries; from a packet's
      builder through the registry to the aligned tree with the channel's next datum the
      chain is closed; retries are bounded and waits are what the refusal says, up to the
      timer's range; finalising two transactions in the wrong order sets the tree back.
    - Browser runtime: the same roots and siblings for a packet, the same tree after a
      rebuild, the same escrow shard as the Gateway for an asset in canonical spelling.
    - Trace registry: whatever transactions the ledger accepts, no mapping is lost and a
      hash has one mapping over all shards; the Gateway's lookups are exact; the
      transactions of its append and rollover plans pass the scripts, up to the capacity
      check, where the size the Gateway measures is smaller than the script's: just below
      the limit an append is planned that no script accepts and no rollover is possible.
    - Runner: the completion lock is exclusive and first come, first served; every handler
      gets its result; a transaction is completed with its own wallet when no builder
      selects one meanwhile, and may be completed with another's otherwise.

    ** Bounds and fuel

    The tree has depth 64, as in the code.  Loops without a structural argument carry fuel
    equal to what they consume: decode loops the number of bytes plus one, [skipType] twice
    the buffer plus three (groups nest), packed fields the bytes plus one, varint writers
    the number of 7-bit groups of their width, [remove_all] the length; the growth simulation's
    search for a denomination of a bucket, endless in the code, carries its fuel as an
    argument; [OutOfFuel] marks
    exhaustion and decoders_terminate shows it does not occur.  Texts are read back below
    16384 UTF-16 units; the on-chain length encoder is compared below 16384 bytes, which
    covers every identifier.  Voting powers are added as JavaScript doubles, with rounding
    above 2^53 written out ([to_double]); a client keeps at most 300 consensus states, the
    code's bound.

    ** Not modelled

    Balancing and fees (Lucid), the look-up of UTxOs (Kupo calls) and the estimate of a
    transaction's execution units: calls into libraries and services, whose answers are
    interfaces.  The gRPC query services and the history database: reads and formatting
    without state of their own; the proofs they serve are modelled in ProofMessages.  The
    route planner and the registry package's browser client: search over a provider's
    answers, beside the bridge's state; the voucher half of the registry package is
    modelled.  On the registry's ledger only what its scripts depend on is kept: fees,
    other scripts and other tokens' balances are not.  The browser's Lucid adapter and HTTP client, deployment scripts, logging;
    fromJSON, fromPartial and the amino forms of the protobuf messages.  The validators'
    hashing of headers and validator sets and their signature check ([TmCrypto]). *)

(** * Prelude *)

From stdpp Require Export base list strings numbers option pretty.
From Stdlib Require Export Init.Byte Strings.Byte.
From Stdlib Require Import NArith ZArith Lia.

#[export] Set Default Goal Selector "!".

(** ** Errors and the two effect monads

    TypeScript code throws; a thrown value is either a plain [Error] or one of
    the gRPC exceptions of [exception/grpc_exceptions.ts].  A function without
    state is modelled in [result]; a method that mutates an object (or a module
    variable) is modelled in [M S], which keeps the state reached when the
    exception was thrown, exactly as a JavaScript [throw] does.  [OutOfFuel] is not
    thrown by the code: it marks a loop of the model that was cut off, and the
    theorems that use such a loop show that it does not occur. *)

Inductive error :=
| JsError (msg : string)
| GrpcInvalidArgument (msg : string)
| GrpcFailedPrecondition (msg : string)
| GrpcNotFound (msg : string)
| GrpcInternal (msg : string)
| OutOfFuel.

#[export] Instance error_eq_dec : EqDecision error.
Proof. solve_decision. Defined.

(** [error.message] *)
Definition error_message (e : error) : string :=
  match e with
  | JsError m | GrpcInvalidArgument m | GrpcFailedPrecondition m | GrpcNotFound m | GrpcInternal m => m
  | OutOfFuel => ""
  end.

(** [`${error}`] of an [Error]. *)
Definition error_to_string (e : error) : string := "Error: " +:+ error_message e.

Inductive result (A : Type) :=
| Ok (a : A)
| Err (e : error).
Arguments Ok {_} _.
Arguments Err {_} _.

#[export] Instance result_eq_dec `{EqDecision A} : EqDecision (result A).
Proof. solve_decision. Defined.

#[export] Instance result_ret : MRet result := fun A a => Ok a.
#[export] Instance result_bind : MBind result :=
  fun A B f m => match m with Ok a => f a | Err e => Err e end.
#[export] Instance result_fmap : FMap result :=
  fun A B f m => match m with Ok a => Ok (f a) | Err e => Err e end.

Lemma Ok_inj {A} (a b : A) : Ok a = Ok b -> a = b.
Proof. congruence. Qed.

Definition throw {A} (msg : string) : result A := Err (JsError msg).

Definition is_ok {A} (r : result A) : bool :=
  match r with Ok _ => true | Err _ => false end.

(** Left-to-right traversal that stops at the first exception, as a [for]
    loop whose body throws does. *)
Fixpoint mapR {A B} (f : A -> result B) (l : list A) : result (list B) :=
  match l with
  | [] => Ok []
  | x :: l' => y ← f x; ys ← mapR f l'; Ok (y :: ys)
  end.

Fixpoint foldR {A B} (f : A -> B -> result A) (a : A) (l : list B) : result A :=
  match l with
  | [] => Ok a
  | x :: l' => a' ← f a x; foldR f a' l'
  end.

(** The state-and-exception monad. *)
Definition M (S A : Type) : Type := S -> result A * S.

#[export] Instance M_ret {S} : MRet (M S) := fun A a s => (Ok a, s).
#[export] Instance M_bind {S} : MBind (M S) :=
  fun A B f m s => match m s with
                   | (Ok a, s') => f a s'
                   | (Err e, s') => (Err e, s')
                   end.

Definition gets {S A} (f : S -> A) : M S A := fun s => (Ok (f s), s).
Definition modify {S} (f : S -> S) : M S unit := fun s => (Ok tt, f s).
Definition raise {S A} (e : error) : M S A := fun s => (Err e, s).
Definition liftR {S A} (r : result A) : M S A := fun s => (r, s).

(** A method call on an object held in a local variable: the object's final
    state is returned next to the result; an exception abandons the local. *)
Definition on_local {S T A} (t : T) (m : M T A) : M S (A * T) :=
  fun s => match m t with
           | (Ok a, t') => (Ok (a, t'), s)
           | (Err e, _) => (Err e, s)
           end.

(** [try { m } catch (error) { handler }]; assignments made before the throw stay. *)
Definition try_catch {S A} (m : M S A) (handler : error -> M S A) : M S A :=
  fun s => match m s with
           | (Ok a, s') => (Ok a, s')
           | (Err e, s') => handler e s'
           end.

Fixpoint mapM_ {S A B} (f : A -> M S B) (l : list A) : M S (list B) :=
  match l with
  | [] => mret []
  | x :: l' => y ← f x; ys ← mapM_ f l'; mret (y :: ys)
  end.

(** ** Inversion lemmas for the monads *)

Lemma bind_ok {A B} (f : A -> result B) (m : result A) b :
  (m ≫= f) = Ok b -> exists a, m = Ok a /\ f a = Ok b.
Proof. destruct m; cbn; [eauto | discriminate]. Qed.

Lemma M_bind_ok {S A B} (f : A -> M S B) (m : M S A) s b s' :
  (m ≫= f) s = (Ok b, s') ->
  exists a s1, m s = (Ok a, s1) /\ f a s1 = (Ok b, s').
Proof.
  unfold mbind, M_bind. destruct (m s) as [[a|e] s1]; intros H; [eauto | discriminate].
Qed.

Lemma mret_ok {S A} (a b : A) (s s' : S) : (mret a : M S A) s = (Ok b, s') -> b = a /\ s' = s.
Proof. unfold mret, M_ret. intros H. split; congruence. Qed.

Lemma modify_ok {S} (f : S -> S) u (s s' : S) : modify f s = (Ok u, s') -> s' = f s.
Proof. unfold modify. congruence. Qed.

Lemma gets_ok {S A} (f : S -> A) a (s s' : S) : gets f s = (Ok a, s') -> a = f s /\ s' = s.
Proof. unfold gets. intros H. split; congruence. Qed.

Lemma liftR_ok {S A} (r : result A) a (s s' : S) : liftR r s = (Ok a, s') -> r = Ok a /\ s' = s.
Proof. unfold liftR. intros H. split; congruence. Qed.

Lemma on_local_ok {S T A} (t : T) (m : M T A) (s s' : S) a t' :
  on_local t m s = (Ok (a, t'), s') -> m t = (Ok a, t') /\ s' = s.
Proof.
  unfold on_local. destruct (m t) as [[?|?] ?]; intros [= <- <- <-]; auto.
Qed.

Lemma mapR_ok_forall2 {A B} (f : A -> result B) l ys :
  mapR f l = Ok ys <-> Forall2 (fun x y => f x = Ok y) l ys.
Proof.
  split.
  - revert ys. induction l as [|x l IH]; cbn; intros ys H.
    + injection H as <-. constructor.
    + destruct (f x) eqn:E; cbn in H; [|discriminate].
      destruct (mapR f l) eqn:E'; cbn in H; [|discriminate].
      injection H as <-. constructor; auto.
  - induction 1 as [|x y l ys Hx _ IH]; cbn; [done|]. rewrite Hx. cbn. by rewrite IH.
Qed.

Lemma mapR_ok_length {A B} (f : A -> result B) l ys : mapR f l = Ok ys -> length ys = length l.
Proof. intros H%mapR_ok_forall2. symmetry. by eapply Forall2_length. Qed.

Lemma mapR_app {A B} (f : A -> result B) l1 l2 :
  mapR f (l1 ++ l2) = (y1 ← mapR f l1; y2 ← mapR f l2; Ok (y1 ++ y2)).
Proof.
  induction l1 as [|x l1 IH]; cbn; [by destruct (mapR f l2)|].
  destruct (f x); cbn; [|done]. rewrite IH. destruct (mapR f l1); cbn; [|done]. by destruct (mapR f l2).
Qed.

Lemma foldR_app {A B} (f : A -> B -> result A) a l1 l2 :
  foldR f a (l1 ++ l2) = (a' ← foldR f a l1; foldR f a' l2).
Proof. revert a. induction l1 as [|x l1 IH]; intros a; cbn; [done|]. destruct (f a x); cbn; [apply IH|done]. Qed.

(** Take a successful monadic computation in [H] apart, step by step. *)
Ltac inv_bind H :=
  repeat match type of H with
  | mbind _ _ = Ok _ =>
      let a := fresh "a" in let E := fresh "E" in
      apply bind_ok in H as (a & E & H)
  | mbind _ _ _ = (Ok _, _) =>
      let a := fresh "a" in let s := fresh "s" in let E := fresh "E" in
      apply M_bind_ok in H as (a & s & E & H)
  end.

(** Resolve the primitive step in [H], substituting its results. *)
Ltac inv_ret H :=
  lazymatch type of H with
  | mret _ _ = (Ok _, _) => apply mret_ok in H as [-> ->]
  | modify _ _ = (Ok _, _) => apply modify_ok in H as ->
  | gets _ _ = (Ok _, _) => apply gets_ok in H as [-> ->]
  | liftR _ _ = (Ok _, _) => apply liftR_ok in H as [H ->]
  end.

(** ** Bytes and byte strings *)

Abbreviation bytes := (list byte).

#[export] Instance byte_eq_dec : EqDecision byte := Byte.byte_eq_dec.

Definition byte_of_N (n : N) : byte := default x00 (Byte.of_N (n mod 256)).

Lemma to_of_N n : Byte.to_N (byte_of_N n) = (n mod 256)%N.
Proof.
  unfold byte_of_N. destruct (Byte.of_N (n mod 256)) as [b|] eqn:E; cbn.
  - by apply Byte.to_of_N.
  - apply Byte.of_N_None_iff in E. pose proof (N.mod_lt n 256). lia.
Qed.

Lemma byte_to_N_lt b : (Byte.to_N b < 256)%N.
Proof. pose proof (Byte.to_N_bounded b). lia. Qed.

Lemma byte_of_to_N b : byte_of_N (Byte.to_N b) = b.
Proof. unfold byte_of_N. rewrite N.mod_small by apply byte_to_N_lt. by rewrite Byte.of_to_N. Qed.

Lemma byte_to_N_inj a b : Byte.to_N a = Byte.to_N b -> a = b.
Proof. intros H. rewrite <- (byte_of_to_N a), <- (byte_of_to_N b). by rewrite H. Qed.

(** A text is represented by the bytes of its UTF-8 encoding, so
    [Buffer.from(s, 'utf8')] is a change of type. *)
Definition utf8 (s : string) : bytes := String.list_byte_of_string s.
Definition text (b : bytes) : string := String.string_of_list_byte b.

Lemma text_utf8 s : text (utf8 s) = s.
Proof. apply String.string_of_list_byte_of_string. Qed.
Lemma utf8_text b : utf8 (text b) = b.
Proof. apply String.list_byte_of_string_of_list_byte. Qed.
Lemma utf8_inj s t : utf8 s = utf8 t -> s = t.
Proof. intros H. rewrite <- (text_utf8 s), <- (text_utf8 t). by rewrite H. Qed.

(** ** Big-endian numbers *)

Definition be_to_N (b : bytes) : N :=
  fold_left (fun acc x => acc * 256 + Byte.to_N x)%N b 0%N.

Fixpoint be_of_N (len : nat) (n : N) : bytes :=
  match len with
  | O => []
  | S len' => be_of_N len' (n / 256) ++ [byte_of_N n]
  end.

Lemma length_be_of_N len n : length (be_of_N len n) = len.
Proof. revert n. induction len as [|len IH]; intros n; cbn; [done|]. rewrite length_app, IH. cbn. lia. Qed.

Lemma be_to_N_snoc b x : be_to_N (b ++ [x]) = (be_to_N b * 256 + Byte.to_N x)%N.
Proof. unfold be_to_N. by rewrite fold_left_app. Qed.

Lemma be_to_of_N len n : be_to_N (be_of_N len n) = (n mod 256 ^ N.of_nat len)%N.
Proof.
  revert n. induction len as [|len IH]; intros n.
  - change (256 ^ N.of_nat 0)%N with 1%N. by rewrite N.mod_1_r.
  - cbn [be_of_N]. rewrite be_to_N_snoc, IH, to_of_N.
    rewrite Nat2N.inj_succ, N.pow_succ_r', N.Div0.mod_mul_r. lia.
Qed.

Lemma be_to_N_bound b : (be_to_N b < 256 ^ N.of_nat (length b))%N.
Proof.
  induction b as [|x b IH] using rev_ind; [done|].
  rewrite be_to_N_snoc, length_app, Nat.add_1_r, Nat2N.inj_succ, N.pow_succ_r'.
  pose proof (byte_to_N_lt x). lia.
Qed.

Lemma be_of_to_N b : be_of_N (length b) (be_to_N b) = b.
Proof.
  induction b as [|x b IH] using rev_ind; [done|].
  rewrite length_app, Nat.add_1_r. cbn [be_of_N]. rewrite be_to_N_snoc.
  pose proof (byte_to_N_lt x).
  rewrite N.div_add_l, N.div_small, N.add_0_r, IH by lia. f_equal. f_equal.
  apply byte_to_N_inj. rewrite to_of_N, N.add_comm, N.Div0.mod_add, N.mod_small; lia.
Qed.

(** ** Generic list facts *)

Lemma app_inj_length_l {A} (a b c d : list A) :
  length a = length c -> a ++ b = c ++ d -> a = c /\ b = d.
Proof. intros Hl H. by apply app_inj_1. Qed.

Lemma app_inj_length_r {A} (a b c d : list A) :
  length b = length d -> a ++ b = c ++ d -> a = c /\ b = d.
Proof. intros Hl H. by apply app_inj_2. Qed.

Create HintDb gateway.
#[export] Hint Resolve length_be_of_N byte_to_N_lt : gateway.
