(* ===== verification/JsMap.v ===== *)
(** * JavaScript [Map] and [Set]

    Every stateful component of the Gateway keeps its data in ES [Map]s.  A
    [Map] is an insertion-ordered finite map: [set] on a present key keeps the
    key's position, [set] on a fresh key appends, [delete] removes, and
    iteration follows the order.  The model is the list of entries; the
    representation invariant is that no key occurs twice. *)

From S2P Require Import Prelude.

Section jsmap.
Context {K V : Type} {HK : EqDecision K}.

Definition jsmap : Type := list (K * V).

Fixpoint map_get (m : jsmap) (k : K) : option V :=
  match m with
  | [] => None
  | (k', v) :: m' => if decide (k' = k) then Some v else map_get m' k
  end.

Definition map_has (m : jsmap) (k : K) : bool := bool_decide (is_Some (map_get m k)).

Fixpoint map_set (m : jsmap) (k : K) (v : V) : jsmap :=
  match m with
  | [] => [(k, v)]
  | (k', v') :: m' => if decide (k' = k) then (k', v) :: m' else (k', v') :: map_set m' k v
  end.

Fixpoint map_delete (m : jsmap) (k : K) : jsmap :=
  match m with
  | [] => []
  | (k', v') :: m' => if decide (k' = k) then m' else (k', v') :: map_delete m' k
  end.

Definition map_keys (m : jsmap) : list K := m.*1.
Definition map_size (m : jsmap) : nat := length m.

(** [new Map(entries)]: later entries overwrite earlier ones in place. *)
Definition map_of_entries (l : list (K * V)) : jsmap :=
  fold_left (fun m kv => map_set m kv.1 kv.2) l [].

Definition map_wf (m : jsmap) : Prop := NoDup (map_keys m).

Lemma map_get_set_eq m k v : map_get (map_set m k v) k = Some v.
Proof. induction m as [|[k' v'] m IH]; cbn; repeat (case_decide; cbn); congruence. Qed.

Lemma map_get_set_ne m k k' v : k <> k' -> map_get (map_set m k v) k' = map_get m k'.
Proof.
  intros Hne. induction m as [|[j w] m IH]; cbn; repeat (case_decide; cbn; subst); congruence.
Qed.

Lemma map_get_set m k k' v :
  map_get (map_set m k v) k' = if decide (k = k') then Some v else map_get m k'.
Proof. case_decide; subst; [apply map_get_set_eq | by apply map_get_set_ne]. Qed.

Lemma map_get_In m k v : map_get m k = Some v -> (k, v) ∈ m.
Proof.
  induction m as [|[k' v'] m IH]; cbn; [discriminate|].
  case_decide; subst; intros; simplify_eq; [left | right; auto].
Qed.

Lemma map_get_None m k : map_get m k = None <-> k ∉ map_keys m.
Proof.
  induction m as [|[k' v'] m IH]; cbn.
  - split; [intros _ H; by apply elem_of_nil in H | done].
  - rewrite not_elem_of_cons. case_decide; subst; split; try done.
    + tauto.
    + intros H'. split; [congruence | by apply IH].
    + intros [_ H']. by apply IH.
Qed.

Lemma map_get_is_Some m k : is_Some (map_get m k) <-> k ∈ map_keys m.
Proof.
  destruct (map_get m k) eqn:E.
  - apply map_get_In in E. split; [intros _ | by eauto].
    apply list_elem_of_fmap. by exists (k, v).
  - apply map_get_None in E. split; [intros [? ?]; done | tauto].
Qed.

Lemma map_In_get m k v : map_wf m -> (k, v) ∈ m -> map_get m k = Some v.
Proof.
  unfold map_wf, map_keys. induction m as [|[k' v'] m IH]; intros Hwf Hin.
  - by apply elem_of_nil in Hin.
  - cbn in *. apply NoDup_cons in Hwf as [Hk Hwf].
    apply elem_of_cons in Hin as [[= -> ->]|Hin]; [by rewrite decide_True|].
    case_decide; [|auto]. subst. exfalso. apply Hk, list_elem_of_fmap. by exists (k, v).
Qed.

Lemma map_keys_set_in m k v : k ∈ map_keys m -> map_keys (map_set m k v) = map_keys m.
Proof.
  unfold map_keys. induction m as [|[k' v'] m IH]; cbn; intros H.
  - by apply elem_of_nil in H.
  - case_decide; cbn; [done|]. apply elem_of_cons in H as [->|H]; [done|]. by rewrite IH.
Qed.

Lemma map_keys_set_fresh m k v : k ∉ map_keys m -> map_keys (map_set m k v) = map_keys m ++ [k].
Proof.
  unfold map_keys. induction m as [|[k' v'] m IH]; cbn; intros H; [done|].
  apply not_elem_of_cons in H as [Hne H]. rewrite decide_False by congruence. cbn. by rewrite IH.
Qed.

Lemma map_set_fresh m k v : k ∉ map_keys m -> map_set m k v = m ++ [(k, v)].
Proof.
  induction m as [|[k' v'] m IH]; cbn; [done|]. intros [Hne Hk]%not_elem_of_cons.
  rewrite decide_False by done. by rewrite IH.
Qed.

Lemma elem_of_map_keys_set m k v j :
  j ∈ map_keys (map_set m k v) <-> j = k \/ j ∈ map_keys m.
Proof.
  rewrite <- !map_get_is_Some, map_get_set. case_decide; subst; split; eauto.
  intros [->|?]; done.
Qed.

Lemma map_wf_nil : map_wf [].
Proof. constructor. Qed.

Lemma map_wf_set m k v : map_wf m -> map_wf (map_set m k v).
Proof.
  unfold map_wf. intros Hwf. destruct (decide (k ∈ map_keys m)) as [Hin|Hni].
  - by rewrite map_keys_set_in.
  - rewrite map_keys_set_fresh by done. apply NoDup_app. repeat split; [done| |].
    + intros x Hx ->%list_elem_of_singleton. done.
    + apply NoDup_singleton.
Qed.

Lemma map_get_delete_ne m k k' : k <> k' -> map_get (map_delete m k) k' = map_get m k'.
Proof.
  intros Hne. induction m as [|[j w] m IH]; cbn; repeat (case_decide; cbn; subst); congruence.
Qed.

Lemma map_get_delete_eq m k : map_wf m -> map_get (map_delete m k) k = None.
Proof.
  unfold map_wf. induction m as [|[k' v'] m IH]; cbn; intros Hwf; [done|].
  apply NoDup_cons in Hwf as [Hk Hwf]. case_decide; subst; [by apply map_get_None|].
  cbn. rewrite decide_False by done. auto.
Qed.

Lemma elem_of_map_delete m k kv : kv ∈ map_delete m k -> kv ∈ m.
Proof.
  induction m as [|[k' v'] m IH]; cbn; [done|]. case_decide; [by right|].
  intros [->|Hin]%elem_of_cons; [left | right; auto].
Qed.

Lemma map_wf_delete m k : map_wf m -> map_wf (map_delete m k).
Proof.
  unfold map_wf, map_keys. induction m as [|[k' v'] m IH]; cbn; intros Hwf; [done|].
  apply NoDup_cons in Hwf as [Hk Hwf]. case_decide; [done|]. cbn. apply NoDup_cons. split; [|auto].
  intros ([j w] & -> & Hin)%list_elem_of_fmap. apply Hk, list_elem_of_fmap.
  exists (j, w). split; [done|]. by apply elem_of_map_delete in Hin.
Qed.

Lemma map_get_delete m k k' : map_wf m ->
  map_get (map_delete m k) k' = if decide (k = k') then None else map_get m k'.
Proof. intros. case_decide; subst; [by apply map_get_delete_eq | by apply map_get_delete_ne]. Qed.

Lemma map_wf_of_entries l : map_wf (map_of_entries l).
Proof.
  unfold map_of_entries. enough (forall m, map_wf m ->
    map_wf (fold_left (fun m kv => map_set m kv.1 kv.2) l m)) as Hgen by apply Hgen, map_wf_nil.
  induction l as [|kv l IH]; cbn; intros m Hm; [done|]. by apply IH, map_wf_set.
Qed.

End jsmap.

Arguments jsmap : clear implicits.

(** [Set]: an insertion-ordered list without duplicates. *)
Section jsset.
Context {A : Type} {HA : EqDecision A}.

Definition set_add (s : list A) (x : A) : list A := if decide (x ∈ s) then s else s ++ [x].

Lemma elem_of_set_add s x y : y ∈ set_add s x <-> y ∈ s \/ y = x.
Proof.
  unfold set_add. case_decide; [split; [by left | intros [?| ->]; done]|]. by rewrite elem_of_app, list_elem_of_singleton.
Qed.

Lemma NoDup_set_add s x : NoDup s -> NoDup (set_add s x).
Proof.
  unfold set_add. intros Hs. case_decide; [done|]. apply NoDup_app. repeat split; [done| |].
  - intros y Hy ->%list_elem_of_singleton. done.
  - apply NoDup_singleton.
Qed.

Definition set_of_list (l : list A) : list A := fold_left set_add l [].

Lemma elem_of_set_of_list l x : x ∈ set_of_list l <-> x ∈ l.
Proof.
  unfold set_of_list. enough (forall s, x ∈ fold_left set_add l s <-> x ∈ s \/ x ∈ l) as ->.
  { split; [intros [?%elem_of_nil|?]; done | by right]. }
  induction l as [|y l IH]; intros s; cbn.
  - split; [by left | intros [?|?%elem_of_nil]; done].
  - rewrite IH, elem_of_set_add, elem_of_cons. tauto.
Qed.

Lemma NoDup_set_of_list l : NoDup (set_of_list l).
Proof.
  unfold set_of_list. enough (forall s, NoDup s -> NoDup (fold_left set_add l s)) as Hgen
    by apply Hgen, NoDup_nil_2.
  induction l as [|y l IH]; cbn; intros s Hs; [done|]. by apply IH, NoDup_set_add.
Qed.

End jsset.

#[export] Hint Resolve map_wf_nil map_wf_set map_wf_delete map_wf_of_entries : gateway.
