(* ===== verification/JsNumber.v ===== *)
(** * 32-bit operations on JavaScript numbers

    A JavaScript number that holds an integer is a [Z]; the bitwise operators convert
    their operands to 32 bits and give a signed ([|], [&], [^], [<<], [>>]) or an
    unsigned ([>>>]) 32-bit result.  Shift distances in the modelled code are
    constants between 0 and 31. *)

From Stdlib Require Import ZArith Lia.
From S2P Require Import Prelude.

#[local] Open Scope Z_scope.

(** ToUint32 and ToInt32. *)
Definition u32 (x : Z) : Z := x mod 2 ^ 32.
Definition i32 (x : Z) : Z := (x + 2 ^ 31) mod 2 ^ 32 - 2 ^ 31.

Definition js_or (a b : Z) : Z := i32 (Z.lor a b).
Definition js_and (a b : Z) : Z := i32 (Z.land a b).
Definition js_xor (a b : Z) : Z := i32 (Z.lxor a b).
Definition js_not (a : Z) : Z := i32 (Z.lnot a).
Definition js_shl (a n : Z) : Z := i32 (Z.shiftl a n).
Definition js_sar (a n : Z) : Z := Z.shiftr (i32 a) n.
Definition js_shr (a n : Z) : Z := Z.shiftr (u32 a) n.

Declare Scope js_scope.
Delimit Scope js_scope with js.
Notation "a .| b" := (js_or a b) (at level 50, left associativity) : js_scope.
Notation "a .& b" := (js_and a b) (at level 40, left associativity) : js_scope.
Notation "a .^ b" := (js_xor a b) (at level 45, left associativity) : js_scope.
Notation "a .<< n" := (js_shl a n) (at level 38, left associativity) : js_scope.
Notation "a .>> n" := (js_sar a n) (at level 38, left associativity) : js_scope.
Notation "a .>>> n" := (js_shr a n) (at level 38, left associativity) : js_scope.

(** ** Ranges *)

Lemma u32_range x : 0 <= u32 x < 2 ^ 32.
Proof. apply Z.mod_pos_bound. lia. Qed.

Lemma i32_range x : - 2 ^ 31 <= i32 x < 2 ^ 31.
Proof. unfold i32. pose proof (Z.mod_pos_bound (x + 2 ^ 31) (2 ^ 32)). lia. Qed.

Lemma u32_small x : 0 <= x < 2 ^ 32 -> u32 x = x.
Proof. apply Z.mod_small. Qed.

Lemma i32_small x : - 2 ^ 31 <= x < 2 ^ 31 -> i32 x = x.
Proof. intros H. unfold i32. rewrite Z.mod_small; lia. Qed.

Lemma u32_i32 x : u32 (i32 x) = u32 x.
Proof.
  unfold u32, i32. rewrite Zminus_mod_idemp_l. f_equal. lia.
Qed.

Lemma i32_u32 x : i32 (u32 x) = i32 x.
Proof. unfold i32, u32. by rewrite Zplus_mod_idemp_l. Qed.

Lemma u32_u32 x : u32 (u32 x) = u32 x.
Proof. apply u32_small, u32_range. Qed.

Lemma i32_i32 x : i32 (i32 x) = i32 x.
Proof. apply i32_small, i32_range. Qed.

(** Two signed words with the same bits are equal. *)
Lemma i32_eq a b : u32 a = u32 b -> i32 a = i32 b.
Proof. intros H. rewrite <- (i32_u32 a), <- (i32_u32 b). by rewrite H. Qed.

(** ** The operators on the unsigned image *)

Lemma mod_land x y : Z.land x y mod 2 ^ 32 = Z.land (x mod 2 ^ 32) (y mod 2 ^ 32).
Proof.
  apply Z.bits_inj'. intros n Hn. rewrite Z.land_spec. destruct (Z.lt_ge_cases n 32).
  - rewrite !Z.mod_pow2_bits_low by done. by rewrite Z.land_spec.
  - rewrite !Z.mod_pow2_bits_high by lia. done.
Qed.

Lemma mod_lor x y : Z.lor x y mod 2 ^ 32 = Z.lor (x mod 2 ^ 32) (y mod 2 ^ 32).
Proof.
  apply Z.bits_inj'. intros n Hn. rewrite Z.lor_spec. destruct (Z.lt_ge_cases n 32).
  - rewrite !Z.mod_pow2_bits_low by done. by rewrite Z.lor_spec.
  - rewrite !Z.mod_pow2_bits_high by lia. done.
Qed.

Lemma mod_lxor x y : Z.lxor x y mod 2 ^ 32 = Z.lxor (x mod 2 ^ 32) (y mod 2 ^ 32).
Proof.
  apply Z.bits_inj'. intros n Hn. rewrite Z.lxor_spec. destruct (Z.lt_ge_cases n 32).
  - rewrite !Z.mod_pow2_bits_low by done. by rewrite Z.lxor_spec.
  - rewrite !Z.mod_pow2_bits_high by lia. done.
Qed.

Lemma u32_or a b : u32 (js_or a b) = Z.lor (u32 a) (u32 b).
Proof. unfold js_or. rewrite u32_i32. apply mod_lor. Qed.
Lemma u32_and a b : u32 (js_and a b) = Z.land (u32 a) (u32 b).
Proof. unfold js_and. rewrite u32_i32. apply mod_land. Qed.
Lemma u32_xor a b : u32 (js_xor a b) = Z.lxor (u32 a) (u32 b).
Proof. unfold js_xor. rewrite u32_i32. apply mod_lxor. Qed.
Lemma u32_shl a n : 0 <= n -> u32 (js_shl a n) = u32 (u32 a * 2 ^ n).
Proof.
  intros Hn. unfold js_shl. rewrite u32_i32, Z.shiftl_mul_pow2 by done.
  unfold u32. by rewrite Zmult_mod_idemp_l.
Qed.

(** [x & (2^n - 1)] keeps the low bits. *)
Lemma land_ones_mod x n : 0 <= n -> Z.land x (2 ^ n - 1) = x mod 2 ^ n.
Proof. intros Hn. rewrite <- Z.land_ones by done. f_equal. rewrite Z.ones_equiv. lia. Qed.

Lemma js_and_ones x n : 0 <= n < 32 -> js_and x (2 ^ n - 1) = x mod 2 ^ n.
Proof.
  intros Hn. unfold js_and. rewrite land_ones_mod by lia. apply i32_small.
  pose proof (Z.mod_pos_bound x (2 ^ n)) as Hb. pose proof (Z.pow_pos_nonneg 2 n).
  pose proof (Z.pow_le_mono_r 2 n 31). lia.
Qed.

Lemma js_shr_small x n : 0 <= x < 2 ^ 32 -> 0 <= n -> js_shr x n = x / 2 ^ n.
Proof. intros Hx Hn. unfold js_shr. rewrite u32_small by done. by apply Z.shiftr_div_pow2. Qed.

Lemma js_shr_0 x : js_shr x 0 = u32 x.
Proof. unfold js_shr. apply Z.shiftr_0_r. Qed.

Lemma js_or_0 x : js_or x 0 = i32 x.
Proof. unfold js_or. by rewrite Z.lor_0_r. Qed.

(** Disjoint bits are added. *)
Lemma lor_low_high a b n : 0 <= n -> 0 <= a < 2 ^ n -> Z.lor a (b * 2 ^ n) = a + b * 2 ^ n.
Proof.
  intros Hn Ha. rewrite <- Z.shiftl_mul_pow2 by done. symmetry. apply Z.add_nocarry_lor.
  apply Z.bits_inj'. intros i Hi. rewrite Z.land_spec, Z.bits_0. destruct (Z.lt_ge_cases i n).
  - rewrite Z.shiftl_spec_low by done. apply andb_false_r.
  - destruct (Z.eq_dec a 0) as [->|]; [by rewrite Z.bits_0|].
    rewrite Z.bits_above_log2; [done|lia|]. apply Z.lt_le_trans with n; [|done]. apply Z.log2_lt_pow2; lia.
Qed.

(** One more group of [k] bits of [x]. *)
Lemma mod_group x m k : 0 <= m -> 0 <= k ->
  x mod 2 ^ m + (x / 2 ^ m) mod 2 ^ k * 2 ^ m = x mod 2 ^ (m + k).
Proof.
  intros Hm Hk. rewrite Z.pow_add_r by done. pose proof (Z.pow_pos_nonneg 2 m). pose proof (Z.pow_pos_nonneg 2 k).
  rewrite Z.rem_mul_r by lia. lia.
Qed.
