(* ===== verification/JsString.v ===== *)
(** * Strings and numeric text

    The parts of ECMAScript's [String] and [BigInt] the Gateway uses: [split],
    [join], [startsWith], [trim], [toLowerCase], the pattern [/^\d+$/], [BigInt(text)]
    (StringToBigInt) and [parseInt(text, 16)].  Texts are the bytes of their UTF-8
    encoding; positions and lengths agree with JavaScript's UTF-16 ones on ASCII
    texts, which is what identifiers, hex strings and denominations are. *)

From Stdlib Require Import Strings.Ascii.
From S2P Require Import Prelude.

Lemma utf8_app a b : utf8 (a +:+ b) = utf8 a ++ utf8 b.
Proof.
  unfold utf8, String.list_byte_of_string. induction a as [|c a IH]; [done|].
  change (String c a +:+ b) with (String c (a +:+ b)). cbn [String.list_ascii_of_string map]. by rewrite IH.
Qed.

Lemma text_app a b : text (a ++ b) = text a +:+ text b.
Proof. apply utf8_inj. by rewrite utf8_app, !utf8_text. Qed.

Definition str_length (s : string) : nat := length (utf8 s).
Definition slice_from (n : nat) (s : string) : string := text (drop n (utf8 s)).
Definition slice (a b : nat) (s : string) : string := text (take (b - a) (drop a (utf8 s))).

Definition nl : string := text [x0a].
(** A text between double quotes. *)
Definition quoted (s : string) : string := text [x22] +:+ s +:+ text [x22].

(** ** Characters *)

Definition is_digit (b : byte) : bool := (0x30 <=? Byte.to_N b)%N && (Byte.to_N b <=? 0x39)%N.
Definition digit_value (b : byte) : N := (Byte.to_N b - 0x30)%N.

Definition hex_value (b : byte) : option N :=
  let n := Byte.to_N b in
  if is_digit b then Some (n - 0x30)%N
  else if ((0x61 <=? n) && (n <=? 0x66))%N then Some (n - 0x61 + 10)%N
  else if ((0x41 <=? n) && (n <=? 0x46))%N then Some (n - 0x41 + 10)%N
  else None.

Definition lower_byte (b : byte) : byte :=
  let n := Byte.to_N b in if ((0x41 <=? n) && (n <=? 0x5a))%N then byte_of_N (n + 32) else b.
Definition toLowerCase (s : string) : string := text (map lower_byte (utf8 s)).

(** [/^\d+$/.test(s)] *)
Definition is_digits (s : string) : bool :=
  match utf8 s with [] => false | l => forallb is_digit l end.

(** ** Trimming: WhiteSpace and LineTerminator code points as UTF-8 *)

Definition white_space : list bytes :=
  [ [x20]; [x09]; [x0a]; [x0b]; [x0c]; [x0d]; [xc2; xa0]; [xef; xbb; xbf]; [xe1; x9a; x80];
    [xe2; x80; x80]; [xe2; x80; x81]; [xe2; x80; x82]; [xe2; x80; x83]; [xe2; x80; x84];
    [xe2; x80; x85]; [xe2; x80; x86]; [xe2; x80; x87]; [xe2; x80; x88]; [xe2; x80; x89];
    [xe2; x80; x8a]; [xe2; x80; xa8]; [xe2; x80; xa9]; [xe2; x80; xaf]; [xe2; x81; x9f];
    [xe3; x80; x80] ].

Fixpoint strip_prefix (p l : bytes) : option bytes :=
  match p, l with
  | [], _ => Some l
  | x :: p', y :: l' => if decide (x = y) then strip_prefix p' l' else None
  | _, [] => None
  end.

Definition strip_any (ws : list bytes) (l : bytes) : option bytes :=
  fold_left (fun acc w => match acc with Some r => Some r | None => strip_prefix w l end) ws None.

Fixpoint strip_all (fuel : nat) (ws : list bytes) (l : bytes) : bytes :=
  match fuel with
  | O => l
  | S fuel' => match strip_any ws l with Some r => strip_all fuel' ws r | None => l end
  end.

(** Each step removes at least one byte, so [length l] steps are enough. *)
Definition trim_bytes (l : bytes) : bytes :=
  let l1 := strip_all (length l) white_space l in
  reverse (strip_all (length l1) (map reverse white_space) (reverse l1)).
Definition trim (s : string) : string := text (trim_bytes (utf8 s)).

(** ** [split] on one ASCII character, [join] *)

Fixpoint split_go (c : byte) (cur : bytes) (l : bytes) : list bytes :=
  match l with
  | [] => [reverse cur]
  | x :: l' => if decide (x = c) then reverse cur :: split_go c [] l' else split_go c (x :: cur) l'
  end.
Definition split (c : byte) (s : string) : list string := map text (split_go c [] (utf8 s)).

Fixpoint join (sep : string) (l : list string) : string :=
  match l with
  | [] => ""
  | [x] => x
  | x :: l' => x +:+ sep +:+ join sep l'
  end.

Definition startsWith (p s : string) : bool := String.prefix p s.

(** ** Numbers *)

Definition digit_step (base : N) (acc : option N) (b : byte) : option N :=
  a ← acc; d ← hex_value b; if (d <? base)%N then Some (a * base + d)%N else None.
Definition parse_digits (base : N) (l : bytes) : option N := fold_left (digit_step base) l (Some 0%N).

(** At least one digit. *)
Definition parse_literal (base : N) (l : bytes) : option Z :=
  match l with [] => None | _ => Z.of_N <$> parse_digits base l end.

(** StringToBigInt; [None] is the [SyntaxError] of [BigInt(text)]. *)
Definition bigint_of_string (s : string) : option Z :=
  match trim_bytes (utf8 s) with
  | [] => Some 0%Z
  | x30 :: (x78 | x58) :: l => parse_literal 16 l
  | x30 :: (x6f | x4f) :: l => parse_literal 8 l
  | x30 :: (x62 | x42) :: l => parse_literal 2 l
  | x2d :: l => Z.opp <$> parse_literal 10 l
  | x2b :: l => parse_literal 10 l
  | l => parse_literal 10 l
  end.

Definition BigInt (s : string) : result Z :=
  match bigint_of_string s with
  | Some z => Ok z
  | None => throw ("Cannot convert " +:+ s +:+ " to a BigInt")
  end.

(** ** Lemmas *)

Lemma digit_char_facts x : (x < 10)%N ->
  is_digit (Ascii.byte_of_ascii (pretty_N_char x)) = true /\
  hex_value (Ascii.byte_of_ascii (pretty_N_char x)) = Some x /\
  Forall (fun w => head w <> Some (Ascii.byte_of_ascii (pretty_N_char x))) white_space.
Proof.
  intros Hx. assert (x = 0 \/ x = 1 \/ x = 2 \/ x = 3 \/ x = 4 \/ x = 5 \/ x = 6 \/ x = 7 \/ x = 8 \/ x = 9)%N
    as Hcases by lia.
  destruct Hcases as [->|[->|[->|[->|[->|[->|[->|[->|[->| ->]]]]]]]]];
    (split; [reflexivity | split; [reflexivity |]]; apply (bool_decide_eq_true_1 _); vm_compute; reflexivity).
Qed.

Lemma utf8_cons c s : utf8 (String c s) = Ascii.byte_of_ascii c :: utf8 s.
Proof. done. Qed.

(** The decimal digits of a positive number, most significant first. *)
Lemma pretty_go_digits x s :
  forallb is_digit (utf8 (pretty_N_go x s)) = forallb is_digit (utf8 s).
Proof.
  revert s. induction (N.lt_wf_0 x) as [x _ IH]. intros s.
  destruct (decide (x = 0%N)) as [->|Hx]; [by rewrite pretty_N_go_0|].
  rewrite pretty_N_go_step, IH by (try apply N.div_lt; lia). rewrite utf8_cons. cbn [forallb].
  by rewrite (proj1 (digit_char_facts _ (N.mod_lt x 10 ltac:(done)))).
Qed.

Lemma digit_step_ok base acc b d :
  hex_value b = Some d -> (d < base)%N -> digit_step base (Some acc) b = Some (acc * base + d)%N.
Proof. intros Hv Hd. cbn. rewrite Hv. cbn. by apply N.ltb_lt in Hd as ->. Qed.

Lemma pretty_go_value x s :
  parse_digits 10 (utf8 (pretty_N_go x s)) = fold_left (digit_step 10) (utf8 s) (Some x).
Proof.
  unfold parse_digits. revert s. induction (N.lt_wf_0 x) as [x _ IH]. intros s.
  destruct (decide (x = 0%N)) as [->|Hx]; [by rewrite pretty_N_go_0|].
  rewrite pretty_N_go_step, IH by (try apply N.div_lt; lia). rewrite utf8_cons. cbn [fold_left].
  assert (x `mod` 10 < 10)%N as Hm by by apply N.mod_lt.
  rewrite (digit_step_ok _ _ _ (x `mod` 10)%N); [|by apply digit_char_facts | done].
  f_equal. f_equal. rewrite N.mul_comm. symmetry. by apply N.div_mod.
Qed.

Lemma pretty_N_digits (n : N) : is_digits (pretty n) = true.
Proof.
  unfold is_digits, pretty, pretty_N. case_decide as Hn; [reflexivity|].
  pose proof (pretty_go_digits n "") as Hd. rewrite pretty_N_go_step in * by lia.
  destruct (utf8 _) as [|b l] eqn:E; [|exact Hd].
  exfalso. pose proof (pretty_go_value (n `div` 10)%N (String (pretty_N_char (n `mod` 10)) "")) as Hv.
  rewrite E, utf8_cons in Hv. cbn [fold_left utf8] in Hv.
  rewrite (digit_step_ok _ _ _ (n `mod` 10)%N) in Hv;
    [|by apply digit_char_facts, N.mod_lt | by apply N.mod_lt].
  cbn in Hv. injection Hv as Hv. pose proof (N.div_mod n 10 ltac:(done)). lia.
Qed.

Lemma parse_pretty_N (n : N) : parse_literal 10 (utf8 (pretty n)) = Some (Z.of_N n).
Proof.
  pose proof (pretty_N_digits n) as Hd. unfold is_digits in Hd. unfold parse_literal.
  destruct (utf8 (pretty n)) as [|b l] eqn:E; [done|]. rewrite <- E. clear.
  unfold pretty, pretty_N. case_decide as Hn; [by subst|]. by rewrite pretty_go_value.
Qed.

(** Printable ASCII without the space is never trimmed. *)
Definition is_solid (b : byte) : bool := (0x21 <=? Byte.to_N b)%N && (Byte.to_N b <=? 0x7e)%N.

Lemma strip_any_none ws b l :
  Forall (fun w => exists x w', w = x :: w' /\ x <> b) ws -> strip_any ws (b :: l) = None.
Proof.
  unfold strip_any. intros H. induction H as [|w ws (x & w' & -> & Hne) _ IH]; [done|].
  cbn [fold_left strip_prefix]. by rewrite decide_False.
Qed.

Lemma strip_all_solid fuel ws b l :
  Forall (fun w => match w with [] => False | x :: _ => is_solid x = false end) ws -> is_solid b = true ->
  strip_all fuel ws (b :: l) = b :: l.
Proof.
  intros Hws Hb. destruct fuel as [|fuel]; [done|]. cbn [strip_all].
  rewrite strip_any_none; [done|]. eapply Forall_impl; [exact Hws|]. intros [|x w]; [done|].
  intros Hx. exists x, w. split; [done|]. intros ->. congruence.
Qed.

Lemma trim_solid l : forallb is_solid l = true -> trim_bytes l = l.
Proof.
  intros Hl. unfold trim_bytes. assert (strip_all (length l) white_space l = l) as ->.
  { destruct l as [|b l']; [done|]. cbn in Hl. apply andb_true_iff in Hl as [Hb _].
    apply strip_all_solid; [|done]. by repeat constructor. }
  cbv zeta. rewrite <- (reverse_involutive l) at 3. f_equal.
  destruct (reverse l) as [|b l'] eqn:E; [by destruct (length l)|].
  apply strip_all_solid; [by repeat constructor|].
  rewrite forallb_forall in Hl. apply Hl, list_elem_of_In, elem_of_reverse. rewrite E. by left.
Qed.

Lemma strip_any_ext ws w l r : In w ws -> strip_prefix w l = Some r -> strip_any ws l <> None.
Proof.
  unfold strip_any. assert (forall ws x, fold_left (fun acc w => match acc with Some r => Some r | None => strip_prefix w l end)
    ws (Some x) = Some x) as Hs by (intros ws'; by induction ws').
  induction ws as [|w' ws IH]; [done|]. intros [->|Hin] E; cbn [fold_left].
  - by rewrite E, Hs.
  - destruct (strip_prefix w' l); [by rewrite Hs|]. by apply IH.
Qed.

Lemma strip_any_inv ws l r : strip_any ws l = Some r -> exists w, In w ws /\ strip_prefix w l = Some r.
Proof.
  unfold strip_any. assert (forall ws x, fold_left (fun acc w => match acc with Some r => Some r | None => strip_prefix w l end)
    ws (Some x) = Some x) as Hs by (intros ws'; by induction ws').
  induction ws as [|w ws IH]; [done|]. cbn [fold_left]. destruct (strip_prefix w l) as [r'|] eqn:E.
  - rewrite Hs. intros [= ->]. exists w. split; [by left|done].
  - intros H. destruct (IH H) as (w' & Hw & E'). exists w'. split; [by right|done].
Qed.

Lemma strip_prefix_app w l r : strip_prefix w l = Some r <-> l = w ++ r.
Proof.
  revert l. induction w as [|x w IH]; intros l; cbn; [split; congruence|].
  destruct l as [|y l]; [done|]. case_decide as Hx.
  - subst. rewrite IH. cbn. split; congruence.
  - split; [done|]. intros [= -> ->]. done.
Qed.

(** Stripping ends where nothing can be stripped. *)
Lemma strip_all_done fuel ws l :
  Forall (fun w => w <> []) ws -> (length l <= fuel)%nat -> strip_any ws (strip_all fuel ws l) = None.
Proof.
  intros Hws. rewrite Forall_forall in Hws. revert l. induction fuel as [|fuel IH]; intros l Hl; cbn [strip_all].
  - destruct l; [|cbn in Hl; lia]. destruct (strip_any ws []) as [r|] eqn:E; [|done].
    apply strip_any_inv in E as (w & Hw & E). apply list_elem_of_In, Hws in Hw. by destruct w.
  - destruct (strip_any ws l) as [r|] eqn:E; [|done]. apply IH.
    apply strip_any_inv in E as (w & Hw & ->%strip_prefix_app). apply list_elem_of_In, Hws in Hw.
    rewrite length_app in Hl. destruct w; [done|]. cbn in Hl. lia.
Qed.

Lemma strip_all_idle fuel ws l : strip_any ws l = None -> strip_all fuel ws l = l.
Proof. intros E. destruct fuel; [done|]. cbn. by rewrite E. Qed.

Lemma strip_all_suffix fuel ws l : exists p, l = p ++ strip_all fuel ws l.
Proof.
  revert l. induction fuel as [|fuel IH]; intros l; [by exists []|]. cbn [strip_all].
  destruct (strip_any ws l) as [r|] eqn:E; [|by exists []].
  apply strip_any_inv in E as (w & _ & ->%strip_prefix_app). destruct (IH r) as [p Hp].
  exists (w ++ p). rewrite <- app_assoc. by f_equal.
Qed.

(** Trimming twice is trimming once. *)
Lemma trim_bytes_idem l : trim_bytes (trim_bytes l) = trim_bytes l.
Proof.
  set (l1 := strip_all (length l) white_space l).
  set (l2 := strip_all (length l1) (map reverse white_space) (reverse l1)).
  change (trim_bytes l) with (reverse l2).
  assert (strip_any white_space l1 = None) as H1 by (apply strip_all_done; [by repeat constructor|done]).
  assert (strip_any (map reverse white_space) l2 = None) as H2.
  { apply strip_all_done; [by repeat constructor|]. by rewrite length_reverse. }
  destruct (strip_all_suffix (length l1) (map reverse white_space) (reverse l1)) as [p Hp]. fold l2 in Hp.
  assert (strip_any white_space (reverse l2) = None) as H3.
  { destruct (strip_any white_space (reverse l2)) as [r|] eqn:E; [|done].
    apply strip_any_inv in E as (w & Hw & E%strip_prefix_app). exfalso.
    apply (f_equal reverse) in Hp. rewrite reverse_involutive, reverse_app, E, <- app_assoc in Hp.
    by apply (strip_any_ext white_space w l1 (r ++ reverse p) Hw); [apply strip_prefix_app|]. }
  unfold trim_bytes. rewrite (strip_all_idle _ _ _ H3). cbv zeta. rewrite reverse_involutive.
  by rewrite (strip_all_idle _ _ _ H2).
Qed.

Lemma trim_idem s : trim (trim s) = trim s.
Proof. unfold trim. by rewrite utf8_text, trim_bytes_idem. Qed.

Lemma trim_digits l : forallb is_digit l = true -> trim_bytes l = l.
Proof.
  intros Hl. apply trim_solid. rewrite forallb_forall in Hl |- *. intros x Hx. specialize (Hl x Hx).
  clear -Hl. by destruct x.
Qed.

Lemma bigint_of_digits s : is_digits s = true -> bigint_of_string s = parse_literal 10 (utf8 s).
Proof.
  unfold is_digits, bigint_of_string. destruct (utf8 s) as [|b l] eqn:E; [done|]. intros Hd.
  rewrite trim_digits by done. cbn in Hd. apply andb_true_iff in Hd as [Hb Hl].
  destruct b; try discriminate Hb; try reflexivity.
  destruct l as [|c l]; [reflexivity|]. cbn in Hl. apply andb_true_iff in Hl as [Hc _].
  by destruct c.
Qed.

Lemma BigInt_pretty_N (n : N) : BigInt (pretty n) = Ok (Z.of_N n).
Proof. unfold BigInt. by rewrite bigint_of_digits, parse_pretty_N by apply pretty_N_digits. Qed.

Lemma pretty_Z_of_N (n : N) : pretty (Z.of_N n) = pretty n.
Proof. by destruct n. Qed.

Lemma BigInt_pretty (z : Z) : (0 <= z)%Z -> BigInt (pretty z) = Ok z.
Proof. intros Hz. rewrite <- (Z2N.id z) by done. by rewrite pretty_Z_of_N, BigInt_pretty_N. Qed.

Lemma pretty_Z_digits (z : Z) : (0 <= z)%Z -> is_digits (pretty z) = true.
Proof. intros Hz. rewrite <- (Z2N.id z) by done. rewrite pretty_Z_of_N. apply pretty_N_digits. Qed.

(** What a digit string denotes is never negative. *)
Lemma parse_literal_nonneg base l z : parse_literal base l = Some z -> (0 <= z)%Z.
Proof.
  unfold parse_literal. destruct l; [done|]. destruct (parse_digits _ _); cbn; [|done].
  intros [= <-]. lia.
Qed.

(** ** Splitting *)

Lemma split_go_none c cur l : c ∉ l -> split_go c cur l = [reverse cur ++ l].
Proof.
  revert cur. induction l as [|x l IH]; intros cur Hc; cbn; [by rewrite app_nil_r|].
  apply not_elem_of_cons in Hc as [Hne Hc]. rewrite decide_False by done.
  rewrite IH by done. by rewrite reverse_cons, <- (assoc_L (++)).
Qed.

Lemma split_go_app c cur a b :
  c ∉ a -> split_go c cur (a ++ c :: b) = (reverse cur ++ a) :: split_go c [] b.
Proof.
  revert cur. induction a as [|x a IH]; intros cur Hc; cbn [app split_go].
  - rewrite decide_True by done. by rewrite app_nil_r.
  - apply not_elem_of_cons in Hc as [Hne Hc]. rewrite decide_False by done.
    rewrite IH by done. by rewrite reverse_cons, <- (assoc_L (++)).
Qed.

Lemma split_none c s : c ∉ utf8 s -> split c s = [s].
Proof. intros Hc. unfold split. rewrite split_go_none by done. cbn [map]. f_equal. apply text_utf8. Qed.

Lemma split_app c a b :
  c ∉ utf8 a -> split c (a +:+ text [c] +:+ b) = a :: split c b.
Proof.
  intros Hc. unfold split. rewrite !utf8_app, utf8_text. cbn [app].
  rewrite split_go_app by done. cbn [map]. f_equal. apply text_utf8.
Qed.

Lemma digits_no_char c s : is_digits s = true -> is_digit c = false -> c ∉ utf8 s.
Proof.
  unfold is_digits. destruct (utf8 s) as [|b l]; [done|]. rewrite forallb_forall. intros Hd Hc Hin.
  rewrite list_elem_of_In in Hin. apply Hd in Hin. congruence.
Qed.

(** The part after the last separator is determined. *)
Lemma last_segment_inj (c : byte) (a b x y : bytes) :
  c ∉ x -> c ∉ y -> a ++ c :: x = b ++ c :: y -> a = b /\ x = y.
Proof.
  revert b. induction a as [|u a IH]; intros [|w b] Hx Hy; cbn; intros H.
  - by injection H as ->.
  - injection H as -> ->. exfalso. apply Hx. by apply elem_of_app; right; left.
  - injection H as -> <-. exfalso. apply Hy. by apply elem_of_app; right; left.
  - injection H as -> H. by destruct (IH b Hx Hy H) as [-> ->].
Qed.
