(* ===== verification/Varint.v ===== *)
(** * Variable-length integers ([proto-types/src/varint.ts])

    The reading functions run on a [BinaryReader] ([this] in the source): its buffer,
    position and length.  An element read outside the buffer is [undefined], which
    the bit operators take as 0.  The functions that write into a buffer at a
    position are given by the bytes they store there. *)

From Stdlib Require Import ZArith Lia.
From S2P Require Import Prelude JsNumber JsString.

#[local] Open Scope Z_scope.
#[local] Open Scope js_scope.

Definition byte_of_Z (z : Z) : byte := byte_of_N (Z.to_N (z mod 256)).
Definition byte_to_Z (b : byte) : Z := Z.of_N (Byte.to_N b).

(** ** Reading *)

Record BinaryReader := MkReader { r_buf : bytes; r_pos : Z; r_len : Z }.

Definition set_pos (p : Z) (r : BinaryReader) : BinaryReader := MkReader (r_buf r) p (r_len r).

Definition byte_at (buf : bytes) (pos : Z) : Z := from_option byte_to_Z 0 (buf !! Z.to_nat pos).

(** [this.buf[this.pos++]] *)
Definition next_byte : M BinaryReader Z :=
  b ← gets (fun r => byte_at (r_buf r) (r_pos r));
  modify (fun r => set_pos (r_pos r + 1) r) ;;
  mret b.

Definition assertBounds : M BinaryReader unit :=
  past ← gets (fun r => r_len r <? r_pos r);
  if past : bool then raise (JsError "premature EOF") else mret tt.

(** The [for] loops of [varint64read]; the flag tells whether the last byte was read. *)
Fixpoint varint_groups (shifts : list Z) (bits : Z) : M BinaryReader (Z * bool) :=
  match shifts with
  | [] => mret (bits, false)
  | shift :: rest =>
      b ← next_byte;
      let bits := bits .| (b .& 0x7f) .<< shift in
      if decide (b .& 0x80 = 0) then assertBounds ;; mret (bits, true) else varint_groups rest bits
  end.

Definition varint64read : M BinaryReader (Z * Z) :=
  '(lowBits, last) ← varint_groups [0; 7; 14; 21] 0;
  if last : bool then mret (lowBits, 0) else
  middleByte ← next_byte;
  let lowBits := lowBits .| (middleByte .& 0x0f) .<< 28 in
  let highBits := (middleByte .& 0x70) .>> 4 in
  if decide (middleByte .& 0x80 = 0) then assertBounds ;; mret (lowBits, highBits) else
  '(highBits, last) ← varint_groups [3; 10; 17; 24; 31] highBits;
  if last : bool then mret (lowBits, highBits) else raise (JsError "invalid varint").

(** The bytes after the fifth are read and dropped. *)
Fixpoint varint32_rest (n : nat) (b : Z) : M BinaryReader Z :=
  match n with
  | O => mret b
  | S n' => if decide (b .& 0x80 = 0) then mret b else b' ← next_byte; varint32_rest n' b'
  end.

Definition varint32read : M BinaryReader Z :=
  '(result, last) ← varint_groups [0; 7; 14; 21] 0;
  if last : bool then mret result else
  b ← next_byte;
  let result := result .| (b .& 0x0f) .<< 28 in
  b ← varint32_rest 5 b;
  if decide (b .& 0x80 = 0) then assertBounds ;; mret (result .>>> 0)
  else raise (JsError "invalid varint").

Definition readUInt32_low (buf : bytes) (pos : Z) : Z :=
  byte_at buf pos .| byte_at buf (pos + 1) .<< 8 .| byte_at buf (pos + 2) .<< 16.

(** [undefined * 0x1000000] is [NaN]. *)
Definition readUInt32 (buf : bytes) (pos : Z) : option Z :=
  match buf !! Z.to_nat (pos + 3) with
  | Some b => Some (readUInt32_low buf pos + byte_to_Z b * 0x1000000)
  | None => None
  end.

Definition readInt32 (buf : bytes) (pos : Z) : Z := readUInt32_low buf pos + byte_at buf (pos + 3) .<< 24.

(** ** Writing *)

Fixpoint write_groups (shifts : list Z) (x hi : Z) : bytes * bool :=
  match shifts with
  | [] => ([], false)
  | i :: rest =>
      let shift := x .>>> i in
      let hasNext := negb (bool_decide (shift .>>> 7 = 0) && bool_decide (hi = 0)) in
      let byte := byte_of_Z ((if hasNext then shift .| 0x80 else shift) .& 0xff) in
      if hasNext then let '(l, last) := write_groups rest x hi in (byte :: l, last) else ([byte], true)
  end.

Definition varint64write (lo hi : Z) : bytes :=
  let '(low, last) := write_groups [0; 7; 14; 21] lo hi in
  if last : bool then low else
  let splitBits := (lo .>>> 28) .& 0x0f .| (hi .& 0x07) .<< 4 in
  let hasMoreBits := negb (bool_decide (hi .>> 3 = 0)) in
  let middle := byte_of_Z ((if hasMoreBits then splitBits .| 0x80 else splitBits) .& 0xff) in
  if negb hasMoreBits then low ++ [middle] else
  let '(high, last) := write_groups [3; 10; 17; 24] hi 0 in
  if last : bool then low ++ [middle] ++ high
  else low ++ [middle] ++ high ++ [byte_of_Z ((hi .>>> 31) .& 0x01)].

(** Five rounds are enough for a 32-bit value, four after the first. *)
Fixpoint shift_out (fuel : nat) (value : Z) : bytes :=
  match fuel with
  | O => []
  | S fuel' =>
      if 0x7f <? value then byte_of_Z ((value .& 0x7f) .| 0x80) :: shift_out fuel' (value .>>> 7)
      else [byte_of_Z value]
  end.

Fixpoint negative_groups (n : nat) (value : Z) : bytes :=
  match n with O => [byte_of_Z 1] | S n' => byte_of_Z ((value .& 127) .| 128) :: negative_groups n' (value .>> 7) end.

Definition varint32write (value : Z) : bytes :=
  if 0 <=? value then shift_out 5 value else negative_groups 9 value.

Definition writeVarint32 (val : Z) : bytes := shift_out 5 val.

Fixpoint write_high (fuel : nat) (lo hi : Z) : bytes :=
  match fuel with
  | O => []
  | S fuel' =>
      if decide (hi = 0) then shift_out 5 lo
      else byte_of_Z ((lo .& 127) .| 128) :: write_high fuel' ((lo .>>> 7 .| hi .<< 25) .>>> 0) (hi .>>> 7)
  end.

(** The high word is shifted out after at most five rounds. *)
Definition writeVarint64 (lo hi : Z) : bytes := write_high 6 (lo .>>> 0) (hi .>>> 0).

Definition writeFixed32 (val : Z) : bytes :=
  [byte_of_Z (val .& 255); byte_of_Z (val .>>> 8 .& 255); byte_of_Z (val .>>> 16 .& 255); byte_of_Z (val .>>> 24)].

Definition writeByte (val : Z) : bytes := [byte_of_Z (val .& 255)].

Definition int64Length (lo hi : Z) : Z :=
  let unsignedLo := lo .>>> 0 in
  let unsignedHi := hi .>>> 0 in
  let part0 := unsignedLo in
  let part1 := (unsignedLo .>>> 28 .| unsignedHi .<< 4) .>>> 0 in
  let part2 := unsignedHi .>>> 24 in
  if decide (part2 = 0) then
    if decide (part1 = 0) then
      if part0 <? 16384 then if part0 <? 128 then 1 else 2 else if part0 <? 2097152 then 3 else 4
    else if part1 <? 16384 then if part1 <? 128 then 5 else 6 else if part1 <? 2097152 then 7 else 8
  else if part2 <? 128 then 9 else 10.

(** ** Zig-zag *)

Definition zzEncode (lo hi : Z) : Z * Z :=
  let mask := hi .>> 31 in
  let hi' := ((hi .<< 1 .| lo .>>> 31) .^ mask) .>>> 0 in
  ((lo .<< 1 .^ mask) .>>> 0, hi').

Definition zzDecode (lo hi : Z) : Z * Z :=
  let mask := - (lo .& 1) in
  (((lo .>>> 1 .| hi .<< 31) .^ mask) .>>> 0, (hi .>>> 1 .^ mask) .>>> 0).

(** ** Decimal text *)

Definition toUnsigned (lo hi : Z) : Z * Z := (lo .>>> 0, hi .>>> 0).
Definition newBits (lo hi : Z) : Z * Z := (lo .| 0, hi .| 0).

(** [~x + 1] on a non-zero low word, a carry into the high word on zero. *)
Definition negate (lowBits highBits : Z) : Z * Z :=
  let highBits := js_not highBits in
  if decide (lowBits = 0) then newBits lowBits (highBits + 1) else newBits (js_not lowBits + 1) highBits.

(** [Number(text)] on a text of digits; every other text is [NaN] here. *)
Definition Number (s : bytes) : option Z := Z.of_N <$> parse_digits 10 s.

(** [dec.slice(-begin, -end)] *)
Definition slice_end (s : bytes) (b e : nat) : bytes :=
  let n := length s in take ((n - e) - (n - b)) (drop (n - b) s).

(** [lowBits] is [None] when it has become [NaN].  The products stay below 2^53. *)
Definition add1e6digit (dec : bytes) (st : option Z * Z) (b e : nat) : option Z * Z :=
  let '(lowBits, highBits) := st in
  let highBits := highBits * 1000000 in
  match lowBits, Number (slice_end dec b e) with
  | Some lowBits, Some digit1e6 =>
      let lowBits := lowBits * 1000000 + digit1e6 in
      if 0x100000000 <=? lowBits
      then (Some (lowBits mod 0x100000000), highBits + i32 (lowBits / 0x100000000))
      else (Some lowBits, highBits)
  | _, _ => (None, highBits)
  end.

Definition int64FromString (dec : string) : Z * Z :=
  let '(minus, dec) := match utf8 dec with x2d :: l => (true, l) | l => (false, l) end in
  let st := add1e6digit dec (Some 0, 0) 24 18 in
  let st := add1e6digit dec st 18 12 in
  let st := add1e6digit dec st 12 6 in
  let '(lowBits, highBits) := add1e6digit dec st 6 0 in
  let lowBits := default 0 lowBits in
  if minus : bool then negate lowBits highBits else newBits lowBits highBits.

Definition decimalFrom1e7WithLeadingZeros (digit1e7 : Z) : string :=
  let partial := pretty digit1e7 in slice_from (str_length partial) "0000000" +:+ partial.

(** The quotients are exact: the digits are below 2^48 and the base is 10^7. *)
Definition uInt64ToString (lo hi : Z) : string :=
  let '(lo, hi) := toUnsigned lo hi in
  if hi <=? 0x1fffff then pretty (0x100000000 * hi + lo) else
  let low := lo .& 0xffffff in
  let mid := (lo .>>> 24 .| hi .<< 8) .& 0xffffff in
  let high := hi .>> 16 .& 0xffff in
  let digitA := low + mid * 6777216 + high * 6710656 in
  let digitB := mid + high * 8147497 in
  let digitC := high * 2 in
  let base := 10000000 in
  let '(digitA, digitB) := if base <=? digitA then (digitA mod base, digitB + digitA / base) else (digitA, digitB) in
  let '(digitB, digitC) := if base <=? digitB then (digitB mod base, digitC + digitB / base) else (digitB, digitC) in
  pretty digitC +:+ decimalFrom1e7WithLeadingZeros digitB +:+ decimalFrom1e7WithLeadingZeros digitA.

Definition int64ToString (lo hi : Z) : string :=
  let '(lo, hi) := newBits lo hi in
  if decide (hi .& 0x80000000 = 0) then uInt64ToString lo hi
  else let '(lo, hi) := negate lo hi in "-" +:+ uInt64ToString lo hi.

(** ** Varints against LEB128

    The reference is the little-endian base-128 encoding [leb128]: every writing
    function produces it, every reading function reads it back, and [int64Length]
    is its length.  Decimal text is related to the two 32-bit words of an integer. *)

#[local] Open Scope Z_scope.
#[local] Open Scope js_scope.

(** Evaluate the powers of 128 with a literal exponent. *)
Ltac pow_norm :=
  repeat match goal with
  | |- context [128 ^ Z.of_nat ?k] => let v := eval vm_compute in (128 ^ Z.of_nat k) in change (128 ^ Z.of_nat k) with v
  | H : context [128 ^ Z.of_nat ?k] |- _ =>
      let v := eval vm_compute in (128 ^ Z.of_nat k) in
      lazymatch v with Zpos _ => change (128 ^ Z.of_nat k) with v in H end
  end.

(** A quotient by a positive literal stays in range. *)
Ltac div_range :=
  solve [lia | split; [apply Z.div_pos; lia | apply Z.div_lt_upper_bound; lia]].

(** ** The reference encoding *)

Fixpoint leb128 (fuel : nat) (n : Z) : bytes :=
  match fuel with
  | O => []
  | S fuel' => if n <? 128 then [byte_of_Z n] else byte_of_Z (n mod 128 + 128) :: leb128 fuel' (n / 128)
  end.
(** Ten groups hold every 64-bit value. *)
Definition varint (n : Z) : bytes := leb128 10 n.

Definition word64 (lo hi : Z) : Z := u32 hi * 2 ^ 32 + u32 lo.

Lemma byte_to_of_Z z : byte_to_Z (byte_of_Z z) = z mod 256.
Proof.
  unfold byte_to_Z, byte_of_Z. rewrite to_of_N.
  pose proof (Z.mod_pos_bound z 256). rewrite N2Z.inj_mod, Z2N.id by lia. by rewrite Z.mod_mod.
Qed.

Lemma byte_of_to_Z b : byte_of_Z (byte_to_Z b) = b.
Proof.
  unfold byte_to_Z, byte_of_Z. pose proof (byte_to_N_lt b).
  rewrite Z.mod_small, N2Z.id by lia. apply byte_of_to_N.
Qed.

Lemma byte_to_Z_range b : 0 <= byte_to_Z b < 256.
Proof. unfold byte_to_Z. pose proof (byte_to_N_lt b). lia. Qed.

Lemma byte_of_Z_mod z : byte_of_Z (z mod 256) = byte_of_Z z.
Proof. unfold byte_of_Z. by rewrite Z.mod_mod. Qed.

Lemma leb128_more f k n : (0 < f)%nat -> 0 <= n < 128 ^ Z.of_nat f -> leb128 (f + k) n = leb128 f n.
Proof.
  revert n. induction f as [|f IH]; intros n Hf Hn; [lia|]. cbn [Nat.add leb128].
  destruct (Z.ltb_spec n 128) as [Hs|Hs]; [done|]. f_equal.
  rewrite Nat2Z.inj_succ, Z.pow_succ_r in Hn by lia. apply IH.
  - destruct f; [pow_norm; lia|lia].
  - div_range.
Qed.

Lemma length_leb128 f n k :
  0 <= n < 128 ^ Z.of_nat (S k) -> (k = 0%nat \/ 128 ^ Z.of_nat k <= n) -> (k < f)%nat -> length (leb128 f n) = S k.
Proof.
  revert n k. induction f as [|f IH]; intros n k Hn Hk Hf; [lia|]. cbn [leb128].
  destruct (Z.ltb_spec n 128) as [Hs|Hs].
  - destruct k as [|k]; [done|]. destruct Hk as [?|Hk]; [done|].
    rewrite Nat2Z.inj_succ, Z.pow_succ_r in Hk by lia. pose proof (Z.pow_pos_nonneg 128 (Z.of_nat k)). lia.
  - destruct k as [|k]; [pow_norm; lia|]. cbn [length]. f_equal. destruct Hk as [?|Hk]; [done|].
    rewrite !Nat2Z.inj_succ, !Z.pow_succ_r in Hn by lia. rewrite Nat2Z.inj_succ, Z.pow_succ_r in Hk by lia.
    apply IH; [|right|lia].
    + rewrite Nat2Z.inj_succ, Z.pow_succ_r by lia. div_range.
    + apply Z.div_le_lower_bound; lia.
Qed.

(** ** Writing *)

Lemma group_byte v : js_or (js_and v 127) 128 = v mod 128 + 128.
Proof.
  change 127 with (2 ^ 7 - 1) at 1. rewrite js_and_ones by lia. change (2 ^ 7) with 128.
  pose proof (Z.mod_pos_bound v 128). unfold js_or.
  change 128 with (1 * 2 ^ 7) at 2. rewrite lor_low_high by (try change (2 ^ 7) with 128; lia).
  apply i32_small. lia.
Qed.

Lemma shift_out_spec f v : 0 <= v < 2 ^ 32 -> shift_out f v = leb128 f v.
Proof.
  revert v. induction f as [|f IH]; intros v Hv; [done|]. cbn [shift_out leb128].
  destruct (Z.ltb_spec 127 v); destruct (Z.ltb_spec v 128); try lia; [|done].
  rewrite group_byte, js_shr_small by lia. f_equal. apply IH. change (2 ^ 7) with 128.
  div_range.
Qed.

Lemma writeVarint32_spec v : 0 <= v < 2 ^ 32 -> writeVarint32 v = varint v.
Proof.
  intros Hv. unfold writeVarint32, varint. rewrite shift_out_spec by done. symmetry.
  apply (leb128_more 5 5); [lia|]. pow_norm. lia.
Qed.

(** One round of [writeVarint64]: seven bits move from the high to the low word. *)
Lemma shift_words lo hi : 0 <= lo < 2 ^ 32 -> 0 <= hi < 2 ^ 32 ->
  (lo .>>> 7 .| hi .<< 25) .>>> 0 = lo / 128 + (hi mod 128) * 2 ^ 25.
Proof.
  intros Hlo Hhi. rewrite js_shr_0, u32_or, js_shr_small, u32_shl, (u32_small hi), (u32_small (lo / 2 ^ 7)) by div_range.
  change (2 ^ 7) with 128. assert (u32 (hi * 2 ^ 25) = (hi mod 128) * 2 ^ 25) as ->.
  { unfold u32. change (2 ^ 32) with (128 * 2 ^ 25). by rewrite Z.mul_mod_distr_r by lia. }
  apply lor_low_high; [lia|]. div_range.
Qed.

Lemma write_high_spec f lo hi : 0 <= lo < 2 ^ 32 -> 0 <= hi < 2 ^ 32 -> hi < 128 ^ Z.of_nat f ->
  write_high (S f) lo hi = leb128 (f + 5) (hi * 2 ^ 32 + lo).
Proof.
  revert lo hi. induction f as [|f IH]; intros lo hi Hlo Hhi Hf.
  - pow_norm. assert (hi = 0) as -> by lia. cbn [write_high]. rewrite decide_True by done. by rewrite shift_out_spec.
  - cbn [write_high]. case_decide as H0.
    + subst hi. rewrite shift_out_spec by done. symmetry. rewrite Z.mul_0_l, Z.add_0_l.
      rewrite Nat.add_comm. apply leb128_more; [lia|]. pow_norm. lia.
    + cbn [Nat.add leb128]. destruct (Z.ltb_spec (hi * 2 ^ 32 + lo) 128); [lia|].
      rewrite group_byte, shift_words, js_shr_small by done. change (2 ^ 7) with 128.
      assert ((hi * 2 ^ 32 + lo) mod 128 = lo mod 128) as ->.
      { replace (hi * 2 ^ 32 + lo) with (lo + (hi * 2 ^ 25) * 128) by lia. by rewrite Z.mod_add. }
      assert ((hi * 2 ^ 32 + lo) / 128 = hi / 128 * 2 ^ 32 + (lo / 128 + hi mod 128 * 2 ^ 25)) as ->.
      { replace (hi * 2 ^ 32 + lo) with (lo + (hi * 2 ^ 25) * 128) by lia. rewrite Z.div_add by done.
        pose proof (Z.div_mod hi 128). lia. }
      f_equal. rewrite Nat2Z.inj_succ, Z.pow_succ_r in Hf by lia.
      pose proof (Z.mod_pos_bound hi 128). pose proof (Z.div_mod lo 128). pose proof (Z.mod_pos_bound lo 128).
      apply (IH (lo / 128 + hi mod 128 * 2 ^ 25) (hi / 128)).
      * split; [lia|]. assert (lo / 128 < 2 ^ 25) by (apply Z.div_lt_upper_bound; lia). lia.
      * div_range.
      * apply Z.div_lt_upper_bound; lia.
Qed.

Lemma word64_range lo hi : 0 <= word64 lo hi < 2 ^ 64.
Proof. unfold word64. pose proof (u32_range lo). pose proof (u32_range hi). lia. Qed.

Lemma writeVarint64_spec lo hi : writeVarint64 lo hi = varint (word64 lo hi).
Proof.
  unfold writeVarint64, varint, word64. rewrite !js_shr_0.
  pose proof (u32_range lo). pose proof (u32_range hi). apply (write_high_spec 5); try done.
  change (128 ^ Z.of_nat 5) with 34359738368. lia.
Qed.

Lemma div_word_small lo hi k : 0 <= k <= 32 -> 0 <= lo < 2 ^ 32 -> (hi * 2 ^ 32 + lo) / 2 ^ k = hi * 2 ^ (32 - k) + lo / 2 ^ k.
Proof.
  intros Hk Hlo. pose proof (Z.pow_pos_nonneg 2 k).
  replace (2 ^ 32) with (2 ^ (32 - k) * 2 ^ k) by (rewrite <- Z.pow_add_r by lia; f_equal; lia).
  rewrite Z.mul_assoc, Z.add_comm, Z.div_add by lia. lia.
Qed.

Lemma int64Length_spec lo hi : int64Length lo hi = Z.of_nat (length (varint (word64 lo hi))).
Proof.
  unfold int64Length, word64. rewrite !js_shr_0. pose proof (u32_range lo) as Hl. pose proof (u32_range hi) as Hh.
  set (l := u32 lo) in *. set (h := u32 hi) in *. clearbody l h. clear lo hi.
  assert (u32 (l .>>> 28 .| h .<< 4) = l / 2 ^ 28 + (h mod 2 ^ 28) * 2 ^ 4) as ->.
  { rewrite u32_or, js_shr_small, u32_shl, (u32_small h), (u32_small (l / 2 ^ 28)) by div_range.
    assert (u32 (h * 2 ^ 4) = (h mod 2 ^ 28) * 2 ^ 4) as ->.
    { unfold u32. change (2 ^ 32) with (2 ^ 28 * 2 ^ 4). by rewrite Z.mul_mod_distr_r by lia. }
    apply lor_low_high; [lia|]. div_range. }
  rewrite (js_shr_small h 24) by lia.
  assert (h / 2 ^ 24 = 0 -> h < 2 ^ 24) as H24 by (intros H; apply Z.div_small_iff in H; lia).
  pose proof (Z.div_mod h (2 ^ 24)). pose proof (Z.mod_pos_bound h (2 ^ 24)).
  pose proof (Z.div_mod l (2 ^ 28)). pose proof (Z.mod_pos_bound l (2 ^ 28)).
  assert (h < 2 ^ 24 -> h mod 2 ^ 28 = h) as Hm by (intros; apply Z.mod_small; lia).
  assert (forall k, (k = 0%nat \/ 128 ^ Z.of_nat k <= h * 2 ^ 32 + l) -> h * 2 ^ 32 + l < 128 ^ Z.of_nat (S k) ->
    (k < 10)%nat -> Z.of_nat (length (varint (h * 2 ^ 32 + l))) = Z.of_nat (S k)) as Hlen.
  { intros k Hk1 Hk2 Hk3. f_equal. apply length_leb128; [lia|done|done]. }
  repeat case_decide; repeat case_match; symmetry;
    repeat match goal with H : (_ <? _) = true |- _ => apply Z.ltb_lt in H | H : (_ <? _) = false |- _ => apply Z.ltb_ge in H end.
  1: apply (Hlen 0%nat); [by left|pow_norm; lia|lia].
  all: match goal with |- _ = ?n => let k := eval vm_compute in (Z.to_nat (n - 1)) in apply (Hlen k) end;
    [right; pow_norm; lia|pow_norm; lia|lia].
Qed.

(** ** Reading *)

(** The computation consumes exactly the bytes [b], wherever they stand, and returns [a]. *)
Definition reads {A} (m : M BinaryReader A) (b : bytes) (a : A) : Prop :=
  forall pre post, let buf := pre ++ b ++ post in let len := Z.of_nat (length buf) in
    m (MkReader buf (Z.of_nat (length pre)) len) = (Ok a, MkReader buf (Z.of_nat (length pre + length b)) len).

Lemma reads_ret {A} (a : A) : reads (mret a) [] a.
Proof. intros pre post. cbn [length]. by rewrite Nat.add_0_r. Qed.

Lemma reads_bind {A B} (m : M BinaryReader A) (f : A -> M BinaryReader B) b1 b2 a c :
  reads m b1 a -> reads (f a) b2 c -> reads (m ≫= f) (b1 ++ b2) c.
Proof.
  intros H1 H2 pre post. cbv zeta. unfold mbind, M_bind.
  specialize (H1 pre (b2 ++ post)). cbv zeta in H1. rewrite <- app_assoc. rewrite H1.
  specialize (H2 (pre ++ b1) post). cbv zeta in H2. rewrite <- app_assoc in H2. rewrite length_app in H2. rewrite H2.
  do 2 f_equal. rewrite length_app. lia.
Qed.

Lemma reads_bind' {A B} (m : M BinaryReader A) (f : A -> M BinaryReader B) b b1 b2 a c :
  b = b1 ++ b2 -> reads m b1 a -> reads (f a) b2 c -> reads (m ≫= f) b c.
Proof. intros ->. apply reads_bind. Qed.

Lemma reads_next b : reads next_byte [b] (byte_to_Z b).
Proof.
  intros pre post. unfold next_byte, mbind, M_bind, gets, modify, mret, M_ret, set_pos, byte_at. cbn.
  rewrite Nat2Z.id, lookup_app_r, Nat.sub_diag by done. cbn. do 2 f_equal. lia.
Qed.

Lemma reads_assert : reads assertBounds [] tt.
Proof.
  intros pre post. unfold assertBounds, mbind, M_bind, gets. cbn.
  destruct (Z.ltb_spec (Z.of_nat (length (pre ++ post))) (Z.of_nat (length pre))) as [H|H].
  - rewrite length_app in H. lia.
  - cbn. by rewrite Nat.add_0_r.
Qed.

Lemma reads_assert_then {A} (a : A) : reads (assertBounds ;; mret a) [] a.
Proof. apply (reads_bind' _ _ _ [] [] tt); [done|apply reads_assert|apply reads_ret]. Qed.

Lemma land_pow2 x n : 0 <= n -> Z.land x (2 ^ n) = (x / 2 ^ n) mod 2 * 2 ^ n.
Proof.
  intros Hn. apply Z.bits_inj'. intros i Hi. rewrite Z.land_spec, Z.pow2_bits_eqb by done.
  rewrite <- Z.shiftl_mul_pow2 by done. destruct (Z.lt_ge_cases i n).
  - rewrite Z.shiftl_spec_low by done. destruct (Z.eqb_spec n i); [lia|apply andb_false_r].
  - rewrite Z.shiftl_spec by done. change 2 with (2 ^ 1) at 2. destruct (Z.eqb_spec n i) as [<-|].
    + rewrite Z.sub_diag, Z.mod_pow2_bits_low, Z.div_pow2_bits by lia. by rewrite andb_true_r, Z.add_0_l.
    + rewrite Z.mod_pow2_bits_high by lia. apply andb_false_r.
Qed.

(** The parts of a group byte. *)
Lemma low_bits d c : 0 <= d < 128 -> (c = 0 \/ c = 1) ->
  let b := byte_to_Z (byte_of_Z (d + c * 128)) in
  b .& 0x7f = d /\ (b .& 0x80 = 0 <-> c = 0).
Proof.
  intros Hd Hc. cbv zeta. rewrite byte_to_of_Z, Z.mod_small by lia.
  split.
  - change 127 with (2 ^ 7 - 1). rewrite js_and_ones by lia. change (2 ^ 7) with 128.
    rewrite Z.mod_add by done. apply Z.mod_small. lia.
  - unfold js_and. change 128 with (2 ^ 7) at 2. rewrite land_pow2 by lia. change (2 ^ 7) with 128.
    rewrite Z.div_add, Z.div_small by lia. destruct Hc as [-> | ->]; vm_compute; split; congruence.
Qed.

(** Adding a group above the bits read so far. *)
Lemma or_group bits d s : 0 <= s <= 31 -> 0 <= d -> 0 <= u32 bits < 2 ^ s -> bits .| d .<< s = i32 (u32 bits + d * 2 ^ s).
Proof.
  intros Hs Hd Hb. unfold js_or. apply i32_eq. unfold u32 at 1. rewrite mod_lor.
  fold (u32 bits). fold (u32 (d .<< s)). rewrite u32_shl by lia.
  assert (u32 (u32 d * 2 ^ s) = (d mod 2 ^ (32 - s)) * 2 ^ s) as ->.
  { unfold u32. rewrite Zmult_mod_idemp_l.
    replace (2 ^ 32) with (2 ^ (32 - s) * 2 ^ s) by (rewrite <- Z.pow_add_r by lia; f_equal; lia).
    pose proof (Z.pow_pos_nonneg 2 s). pose proof (Z.pow_pos_nonneg 2 (32 - s)). by rewrite Z.mul_mod_distr_r by lia. }
  rewrite lor_low_high by lia. unfold u32 at 2.
  rewrite <- (Z.mod_small (u32 bits + d mod 2 ^ (32 - s) * 2 ^ s) (2 ^ 32)).
  - rewrite <- (Zplus_mod_idemp_r (d * 2 ^ s)). f_equal. f_equal.
    replace (2 ^ 32) with (2 ^ (32 - s) * 2 ^ s) by (rewrite <- Z.pow_add_r by lia; f_equal; lia).
    pose proof (Z.pow_pos_nonneg 2 s). pose proof (Z.pow_pos_nonneg 2 (32 - s)). by rewrite Z.mul_mod_distr_r by lia.
  - pose proof (Z.pow_pos_nonneg 2 s). pose proof (Z.pow_pos_nonneg 2 (32 - s)).
    pose proof (Z.mod_pos_bound d (2 ^ (32 - s))).
    assert (2 ^ 32 = 2 ^ (32 - s) * 2 ^ s) by (rewrite <- Z.pow_add_r by lia; f_equal; lia). nia.
Qed.

Fixpoint steps7 (k : nat) (s : Z) : list Z := match k with O => [] | S k' => s :: steps7 k' (s + 7) end.

Lemma leb128_head f n : 0 <= n -> exists c, (c = 0 /\ n < 128 \/ c = 1 /\ 128 <= n) /\
  leb128 (S f) n = byte_of_Z (n mod 128 + c * 128) :: (if n <? 128 then [] else leb128 f (n / 128)).
Proof.
  intros Hn. cbn [leb128]. destruct (Z.ltb_spec n 128) as [H|H].
  - exists 0. split; [lia|]. by rewrite Z.mul_0_l, Z.add_0_r, Z.mod_small by lia.
  - exists 1. split; [lia|]. by rewrite Z.mul_1_l.
Qed.

Lemma group_bits bits d s : 0 <= s -> 0 <= d < 128 -> 0 <= u32 bits < 2 ^ s -> s + 7 <= 31 ->
  u32 (i32 (u32 bits + d * 2 ^ s)) = u32 bits + d * 2 ^ s /\ 0 <= u32 bits + d * 2 ^ s < 2 ^ (s + 7).
Proof.
  intros Hs Hd Hb Hs'. assert (0 <= u32 bits + d * 2 ^ s < 2 ^ (s + 7)) as Hr.
  { rewrite Z.pow_add_r by lia. change (2 ^ 7) with 128. pose proof (Z.pow_pos_nonneg 2 s). nia. }
  split; [|done]. rewrite u32_i32. apply u32_small. pose proof (Z.pow_le_mono_r 2 (s + 7) 31). lia.
Qed.

(** A varint that ends within the groups. *)
Lemma groups_end k f s bits n :
  (0 < k <= f)%nat -> 0 <= s -> s + 7 * Z.of_nat (k - 1) <= 31 -> 0 <= u32 bits < 2 ^ s -> 0 <= n < 128 ^ Z.of_nat k ->
  reads (varint_groups (steps7 k s) bits) (leb128 f n) (i32 (u32 bits + n * 2 ^ s), true).
Proof.
  revert f s bits n. induction k as [|k IH]; intros f s bits n Hk Hs Hs' Hb Hn; [lia|].
  destruct f as [|f]; [lia|]. destruct (leb128_head f n) as (c & Hc & ->); [lia|].
  pose proof (Z.mod_pos_bound n 128). destruct (low_bits (n mod 128) c) as [Hlow Hlast]; [lia|lia|].
  cbn [steps7 varint_groups]. eapply (reads_bind' _ _ _ [_] _); [done|apply reads_next|]. cbv beta.
  rewrite Hlow, or_group by lia. destruct Hc as [[-> Hsm] | [-> Hbig]].
  - rewrite decide_True by (by apply Hlast). destruct (Z.ltb_spec n 128); [|lia].
    rewrite Z.mod_small by lia. apply reads_assert_then.
  - rewrite decide_False by (rewrite Hlast; lia). destruct (Z.ltb_spec n 128); [lia|].
    rewrite Nat2Z.inj_succ, Z.pow_succ_r in Hn by lia.
    destruct k as [|k]; [pow_norm; lia|].
    destruct (group_bits bits (n mod 128) s) as [Hu Hr]; [lia..|].
    replace (u32 bits + n * 2 ^ s)
      with (u32 (i32 (u32 bits + n mod 128 * 2 ^ s)) + n / 128 * 2 ^ (s + 7)).
    2: { rewrite Hu, Z.pow_add_r by lia. change (2 ^ 7) with 128. pose proof (Z.div_mod n 128). nia. }
    apply IH; [lia|lia|lia|by rewrite Hu|]. div_range.
Qed.

(** A longer varint: the groups read its first [k] bytes. *)
Lemma groups_cut k f s bits n :
  0 <= s -> s + 7 * Z.of_nat k <= 31 -> 0 <= u32 bits < 2 ^ s -> i32 bits = bits -> 128 ^ Z.of_nat k <= n ->
  exists b, leb128 (k + f) n = b ++ leb128 f (n / 128 ^ Z.of_nat k) /\
    reads (varint_groups (steps7 k s) bits) b (i32 (u32 bits + n mod 128 ^ Z.of_nat k * 2 ^ s), false).
Proof.
  revert s bits n. induction k as [|k IH]; intros s bits n Hs Hs' Hb Hi Hn.
  - exists []. split; [pow_norm; by rewrite Z.div_1_r|]. pow_norm. rewrite Z.mod_1_r, Z.mul_0_l, Z.add_0_r, i32_u32, Hi.
    apply reads_ret.
  - rewrite Nat2Z.inj_succ, Z.pow_succ_r in Hn by lia. pose proof (Z.pow_pos_nonneg 128 (Z.of_nat k)).
    pose proof (Z.mod_pos_bound n 128). destruct (group_bits bits (n mod 128) s) as [Hu Hr]; [lia..|].
    destruct (IH (s + 7) (i32 (u32 bits + n mod 128 * 2 ^ s)) (n / 128)) as (b & Eb & Hrd); [lia|lia| |apply i32_i32| |].
    { by rewrite Hu. } { apply Z.div_le_lower_bound; lia. }
    destruct (leb128_head (k + f) n) as (c & [[-> ?]|[-> _]] & E); [lia|lia|].
    exists (byte_of_Z (n mod 128 + 1 * 128) :: b). split.
    + change (S k + f)%nat with (S (k + f)). rewrite E. destruct (Z.ltb_spec n 128); [lia|]. cbn [app]. f_equal. rewrite Eb. f_equal.
      rewrite Nat2Z.inj_succ, Z.pow_succ_r by lia. by rewrite Z.div_div by lia.
    + cbn [steps7 varint_groups]. eapply (reads_bind' _ _ _ [_] b); [done|apply reads_next|]. cbv beta.
      destruct (low_bits (n mod 128) 1) as [Hlow Hlast]; [lia|lia|].
      rewrite Hlow, or_group by lia. rewrite decide_False by (rewrite Hlast; lia).
      replace (u32 bits + n mod 128 ^ Z.of_nat (S k) * 2 ^ s)
        with (u32 (i32 (u32 bits + n mod 128 * 2 ^ s)) + (n / 128) mod 128 ^ Z.of_nat k * 2 ^ (s + 7)); [done|].
      rewrite Hu, Nat2Z.inj_succ, Z.pow_succ_r, Z.pow_add_r, Z.rem_mul_r by lia. change (2 ^ 7) with 128. lia.
Qed.

Lemma groups4 f n : 0 <= n -> 128 ^ 4 <= n ->
  exists b, leb128 (4 + f) n = b ++ leb128 f (n / 2 ^ 28) /\
    reads (varint_groups [0; 7; 14; 21] 0) b (n mod 2 ^ 28, false).
Proof.
  intros Hn Hb. destruct (groups_cut 4 f 0 0 n) as (b & Eb & Hr); [done..|].
  exists b. split; [done|]. change (128 ^ Z.of_nat 4) with (2 ^ 28) in Hr.
  assert (i32 (u32 0 + n mod 2 ^ 28 * 2 ^ 0) = n mod 2 ^ 28) as E; [|by rewrite E in Hr].
  change (u32 0) with 0. rewrite Z.mul_1_r, Z.add_0_l. apply i32_small. pose proof (Z.mod_pos_bound n (2 ^ 28)). lia.
Qed.

(** The middle byte: four bits of the low word, three of the high word. *)
Lemma middle_parts m c : 0 <= m -> (c = 0 \/ c = 1) ->
  let b := byte_to_Z (byte_of_Z (m mod 128 + c * 128)) in
  b .& 0x0f = m mod 16 /\ (b .& 0x70) .>> 4 = m / 16 mod 8.
Proof.
  intros Hm Hc. cbv zeta. pose proof (Z.mod_pos_bound m 128). rewrite byte_to_of_Z, Z.mod_small by lia. split.
  - change 15 with (2 ^ 4 - 1). rewrite js_and_ones by lia. change (2 ^ 4) with 16.
    replace (m mod 128 + c * 128) with (m + (c * 8 - m / 128 * 8) * 16) by (pose proof (Z.div_mod m 128); lia).
    apply Z.mod_add. done.
  - unfold js_and, js_sar. rewrite i32_i32.
    assert (Z.land (m mod 128 + c * 128) 112 = (m / 16 mod 8) * 16) as ->.
    { change 112 with (Z.land 127 (-16)). rewrite Z.land_assoc. change 127 with (2 ^ 7 - 1). rewrite land_ones_mod by lia.
      change (2 ^ 7) with 128. rewrite Z.mod_add, Z.mod_mod by lia.
      apply Z.bits_inj'. intros i Hi. rewrite Z.land_spec. change 16 with (2 ^ 4) at 2.
      rewrite <- Z.shiftl_mul_pow2 by lia. change (-16) with (Z.shiftl (-1) 4).
      change 128 with (2 ^ 7). change 8 with (2 ^ 3).
      destruct (Z.lt_ge_cases i 4); [rewrite !Z.shiftl_spec_low by done; apply andb_false_r|].
      rewrite !Z.shiftl_spec, Z.bits_m1, andb_true_r by lia. destruct (Z.lt_ge_cases i 7).
      - rewrite !Z.mod_pow2_bits_low by lia. change 16 with (2 ^ 4). rewrite Z.div_pow2_bits by lia. f_equal. lia.
      - by rewrite !Z.mod_pow2_bits_high by lia. }
    pose proof (Z.mod_pos_bound (m / 16) 8). rewrite i32_small by lia.
    rewrite Z.shiftr_div_pow2 by lia. change (2 ^ 4) with 16. apply Z.div_mul. done.
Qed.

Lemma low_word n : 0 <= n -> n mod 2 ^ 28 .| (n / 2 ^ 28 mod 16) .<< 28 = i32 n.
Proof.
  intros Hn. pose proof (Z.mod_pos_bound n (2 ^ 28)). pose proof (Z.mod_pos_bound (n / 2 ^ 28) 16).
  rewrite or_group; [|lia|lia|rewrite u32_small; lia]. rewrite u32_small by lia. apply i32_eq.
  change 16 with (2 ^ 4). rewrite mod_group by lia. apply u32_u32.
Qed.

(** [varint64read] reads every 64-bit varint as its two signed words. *)
Lemma varint64read_spec n : 0 <= n < 2 ^ 64 -> reads varint64read (varint n) (i32 n, i32 (n / 2 ^ 32)).
Proof.
  intros Hn. unfold varint64read, varint. destruct (Z.lt_ge_cases n (2 ^ 28)) as [Hs|Hb].
  - replace (n / 2 ^ 32) with 0 by (symmetry; apply Z.div_small; lia). change (i32 0) with 0.
    eapply (reads_bind' _ _ _ _ []); [by rewrite app_nil_r| |].
    + apply (groups_end 4 10 0 0 n); [lia|lia|lia|change (u32 0) with 0; lia|]. pow_norm. lia.
    + cbn. rewrite Z.mul_1_r. apply reads_ret.
  - destruct (groups4 6 n) as (b & Eb & Hr); [lia|pow_norm; lia|]. change (leb128 (4 + 6)) with (leb128 10) in Eb.
    rewrite Eb. eapply reads_bind; [exact Hr|]. cbn [fst snd]. set (m := n / 2 ^ 28).
    assert (0 <= m < 2 ^ 36) as Hm by (subst m; div_range).
    destruct (leb128_head 5 m) as (c & Hc & ->); [lia|].
    eapply (reads_bind' _ _ _ [_] _); [done|apply reads_next|]. cbv beta.
    destruct (middle_parts m c) as [-> ->]; [lia|lia|].
    pose proof (Z.mod_pos_bound m 128). destruct (low_bits (m mod 128) c) as [_ Hlast]; [lia|lia|].
    subst m. rewrite low_word by lia. set (m := n / 2 ^ 28) in *.
    assert (m / 16 = n / 2 ^ 32) as Hhi by (subst m; change 16 with (2 ^ 4); by rewrite Z.div_div by lia).
    destruct Hc as [[-> Hsm]|[-> Hbig]].
    + rewrite decide_True by (by apply Hlast). destruct (Z.ltb_spec m 128); [|lia].
      assert (m / 16 mod 8 = i32 (n / 2 ^ 32)) as ->; [|apply reads_assert_then].
      assert (0 <= m / 16 < 8) by div_range. rewrite Z.mod_small by lia. rewrite <- Hhi. symmetry. apply i32_small. lia.
    + rewrite decide_False by (rewrite Hlast; lia). destruct (Z.ltb_spec m 128); [lia|].
      eapply (reads_bind' _ _ _ _ []); [by rewrite app_nil_r| |].
      * pose proof (Z.mod_pos_bound (m / 16) 8). apply (groups_end 5 5 3 (m / 16 mod 8) (m / 128)); [lia|lia|lia| |].
        { rewrite u32_small; lia. } { pow_norm. div_range. }
      * cbn [fst snd]. pose proof (Z.mod_pos_bound (m / 16) 8). rewrite u32_small by lia.
        replace (m / 16 mod 8 + m / 128 * 2 ^ 3) with (n / 2 ^ 32); [apply reads_ret|].
        rewrite <- Hhi. change 128 with (16 * 8). rewrite <- Z.div_div by lia. pose proof (Z.div_mod (m / 16) 8). lia.
Qed.

Lemma rest_spec k f x b : (0 < k <= f)%nat -> 0 <= x < 128 ^ Z.of_nat k -> b .& 0x80 <> 0 ->
  exists b', reads (varint32_rest k b) (leb128 f x) b' /\ b' .& 0x80 = 0.
Proof.
  revert f x b. induction k as [|k IH]; intros f x b Hk Hx Hb; [lia|]. destruct f as [|f]; [lia|].
  destruct (leb128_head f x) as (c & Hc & ->); [lia|]. pose proof (Z.mod_pos_bound x 128).
  destruct (low_bits (x mod 128) c) as [_ Hlast]; [lia|lia|]. cbn [varint32_rest]. rewrite decide_False by done.
  destruct Hc as [[-> Hsm]|[-> Hbig]].
  - destruct (Z.ltb_spec x 128); [|lia]. eexists. split; [|by apply Hlast].
    eapply (reads_bind' _ _ _ [_] []); [done|apply reads_next|]. destruct k; cbn [varint32_rest]; [apply reads_ret|].
    rewrite decide_True by (by apply Hlast). apply reads_ret.
  - destruct (Z.ltb_spec x 128); [lia|]. rewrite Nat2Z.inj_succ, Z.pow_succ_r in Hx by lia.
    destruct (IH f (x / 128) (byte_to_Z (byte_of_Z (x mod 128 + 1 * 128)))) as (b' & Hr & Hb').
    + destruct k; [pow_norm; lia|lia].
    + div_range.
    + rewrite Hlast. lia.
    + exists b'. split; [|done]. eapply (reads_bind' _ _ _ [_] _); [done|apply reads_next|done].
Qed.

(** [varint32read] reads a 64-bit varint as its low word. *)
Lemma varint32read_spec n : 0 <= n < 2 ^ 64 -> reads varint32read (varint n) (u32 n).
Proof.
  intros Hn. unfold varint32read, varint. destruct (Z.lt_ge_cases n (2 ^ 28)) as [Hs|Hb].
  - eapply (reads_bind' _ _ _ _ []); [by rewrite app_nil_r| |].
    + apply (groups_end 4 10 0 0 n); [lia|lia|lia|change (u32 0) with 0; lia|]. pow_norm. lia.
    + cbn [fst snd]. change (u32 0) with 0. rewrite Z.mul_1_r, Z.add_0_l, i32_small, u32_small by lia. apply reads_ret.
  - destruct (groups4 6 n) as (b & Eb & Hr); [lia|pow_norm; lia|]. change (leb128 (4 + 6)) with (leb128 10) in Eb.
    rewrite Eb. eapply reads_bind; [exact Hr|]. cbn [fst snd]. set (m := n / 2 ^ 28).
    assert (0 <= m < 2 ^ 36) as Hm by (subst m; div_range).
    destruct (leb128_head 5 m) as (c & Hc & ->); [lia|].
    eapply (reads_bind' _ _ _ [_] _); [done|apply reads_next|]. cbv beta.
    destruct (middle_parts m c) as [-> _]; [lia|lia|].
    pose proof (Z.mod_pos_bound m 128). destruct (low_bits (m mod 128) c) as [_ Hlast]; [lia|lia|].
    subst m. rewrite low_word by lia. set (m := n / 2 ^ 28) in *.
    rewrite js_shr_0, u32_i32. set (b0 := byte_to_Z _) in *.
    assert (exists b', reads (varint32_rest 5 b0) (if m <? 128 then [] else leb128 5 (m / 128)) b' /\ b' .& 0x80 = 0)
      as (b' & Hrest & Hb').
    { destruct Hc as [[-> Hsm]|[-> Hbig]].
      - destruct (Z.ltb_spec m 128); [|lia]. exists b0. split; [|by apply Hlast]. cbn [varint32_rest].
        rewrite decide_True by (by apply Hlast). apply reads_ret.
      - destruct (Z.ltb_spec m 128); [lia|]. apply rest_spec; [lia|pow_norm; div_range|rewrite Hlast; lia]. }
    eapply (reads_bind' _ _ _ _ []); [by rewrite app_nil_r|exact Hrest|]. cbv beta.
    rewrite decide_True by done. apply reads_assert_then.
Qed.

(** ** The loop writers of [varint.ts] against the shifting writers

    [varint64write] and [varint32write] cut a value into groups with separate loops for
    the low word, the middle group and the high word; [writeVarint64] shifts both words
    until nothing is left.  Both write the LEB128 reference image. *)

#[local] Open Scope Z_scope.
#[local] Open Scope js_scope.

Lemma js_shr_div x i : 0 <= i -> x .>>> i = u32 x / 2 ^ i.
Proof. intros Hi. unfold js_shr. by apply Z.shiftr_div_pow2. Qed.

Lemma or_bit7 s : Z.lor s 128 mod 2 ^ 8 = s mod 128 + 128.
Proof.
  pose proof (Z.mod_pos_bound s 128). change (s mod 128 + 128) with (s mod 2 ^ 7 + 1 * 2 ^ 7).
  rewrite <- lor_low_high by (change (2 ^ 7) with 128; lia).
  apply Z.bits_inj'. intros n Hn. rewrite Z.lor_spec. change 128 with (1 * 2 ^ 7). destruct (Z.lt_ge_cases n 7).
  - rewrite !Z.mod_pow2_bits_low, Z.lor_spec by lia. done.
  - rewrite (Z.mod_pow2_bits_high s) by lia. destruct (Z.lt_ge_cases n 8).
    + rewrite Z.mod_pow2_bits_low, Z.lor_spec by lia. assert (n = 7) as -> by lia. by rewrite orb_true_r.
    + rewrite Z.mod_pow2_bits_high by lia. rewrite Z.mul_1_l, Z.pow2_bits_false by lia. done.
Qed.

Lemma i32_mod_256 x : i32 x mod 256 = x mod 256.
Proof.
  assert (forall y, u32 y mod 256 = y mod 256) as H.
  { intros y. unfold u32. rewrite (Z.mod_mod_divide y (2 ^ 32) 256); [done|]. by exists (2 ^ 24). }
  by rewrite <- (H (i32 x)), u32_i32, H.
Qed.

Lemma js_and_255 x : x .& 0xff = x mod 256.
Proof. change 0xff with (2 ^ 8 - 1). by rewrite js_and_ones by lia. Qed.

Lemma more_byte s : byte_of_Z ((s .| 0x80) .& 0xff) = byte_of_Z (s mod 128 + 128).
Proof. rewrite js_and_255. unfold js_or. rewrite i32_mod_256. change 256 with (2 ^ 8). by rewrite or_bit7. Qed.

Lemma last_byte s : byte_of_Z (s .& 0xff) = byte_of_Z s.
Proof. rewrite js_and_255. apply byte_of_Z_mod. Qed.

(** The groups [i], [i + 7], ... of [x], with [hi] above the word. *)
Lemma write_groups_spec k i x hi hiN f :
  0 <= i -> i + 7 * Z.of_nat k <= 32 -> 0 <= hiN -> (hi = 0 <-> hiN = 0) ->
  let n := hiN * 2 ^ (32 - i) + u32 x / 2 ^ i in
  match write_groups (steps7 k i) x hi with
  | (l, true) => leb128 (k + f) n = l
  | (l, false) => leb128 (k + f) n = l ++ leb128 f (n / 128 ^ Z.of_nat k)
  end.
Proof.
  revert i. induction k as [|k IH]; intros i Hi Hk Hh Hz; cbv zeta.
  - cbn. by rewrite Z.div_1_r.
  - cbn [steps7 write_groups Nat.add]. specialize (IH (i + 7) ltac:(lia) ltac:(lia) Hh Hz). cbv zeta in IH.
    pose proof (u32_range x) as Hx. rewrite (js_shr_div x i) by lia.
    assert (0 <= u32 x / 2 ^ i < 2 ^ 32) as Hs.
    { pose proof (Z.pow_pos_nonneg 2 i). split; [apply Z.div_pos; lia|]. apply Z.div_lt_upper_bound; nia. }
    rewrite (js_shr_small (u32 x / 2 ^ i)) by (done || lia). change (2 ^ 7) with 128.
    set (n := hiN * 2 ^ (32 - i) + u32 x / 2 ^ i).
    assert (2 ^ (32 - i) = 2 ^ (32 - (i + 7)) * 128) as Hp.
    { change 128 with (2 ^ 7). rewrite <- Z.pow_add_r by lia. f_equal. lia. }
    assert (n mod 128 = (u32 x / 2 ^ i) mod 128) as Hm.
    { unfold n. rewrite Hp, Z.mul_assoc, Z.add_comm. by rewrite Z.mod_add. }
    assert (n / 128 = hiN * 2 ^ (32 - (i + 7)) + u32 x / 2 ^ (i + 7)) as Hd.
    { unfold n. rewrite Hp, Z.mul_assoc, Z.add_comm, Z.div_add by done. rewrite Z.div_div by lia.
      rewrite (Z.pow_add_r 2 i 7) by lia. change (2 ^ 7) with 128. lia. }
    assert (0 <= n) as Hn by (unfold n; pose proof (Z.pow_pos_nonneg 2 (32 - i)); nia).
    assert (bool_decide (u32 x / 2 ^ i / 128 = 0) && bool_decide (hi = 0) = (n <? 128)) as Hlast.
    { apply eq_true_iff_eq. rewrite andb_true_iff, !bool_decide_eq_true, Z.ltb_lt, Hz. split.
      - intros [H1 H2]. apply Z.div_small_iff in H1; [|done]. unfold n. rewrite H2. lia.
      - intros H. assert (n / 128 = 0) as H0 by (apply Z.div_small; lia). rewrite Hd in H0.
        assert (0 <= u32 x / 2 ^ (i + 7)) by (apply Z.div_pos; [lia|apply Z.pow_pos_nonneg; lia]).
        pose proof (Z.pow_pos_nonneg 2 (32 - (i + 7)) ltac:(lia) ltac:(lia)).
        split; [|nia]. rewrite Z.div_div by (try apply Z.pow_nonzero; lia).
        change (2 ^ i * 128) with (2 ^ i * 2 ^ 7). rewrite <- Z.pow_add_r by lia. nia. }
    rewrite Hlast. cbn [leb128]. destruct (Z.ltb_spec n 128) as [Hlt|Hge]; cbn [negb].
    + rewrite last_byte. do 2 f_equal. rewrite <- (Z.mod_small n 128) by lia. rewrite Hm. apply Z.mod_small.
      split; [lia|]. unfold n in Hlt. pose proof (Z.pow_pos_nonneg 2 (32 - i)). nia.
    + rewrite more_byte, <- Hm, Hd. rewrite Nat2Z.inj_succ, Z.pow_succ_r, <- Z.div_div, Hd by (try apply Z.pow_pos_nonneg; lia).
      destruct (write_groups (steps7 k (i + 7)) x hi) as [l []]; by rewrite IH.
Qed.

Lemma split_bits lo hi : (lo .>>> 28) .& 0x0f .| (hi .& 0x07) .<< 4 = u32 lo / 2 ^ 28 + (u32 hi mod 8) * 16.
Proof.
  pose proof (u32_range lo). rewrite js_shr_div by lia. change 0x0f with (2 ^ 4 - 1). change 0x07 with (2 ^ 3 - 1).
  rewrite !js_and_ones by lia. rewrite (Z.mod_small (u32 lo / 2 ^ 28)) by div_range.
  assert (hi mod 2 ^ 3 = u32 hi mod 8) as ->.
  { unfold u32. rewrite (Z.mod_mod_divide hi (2 ^ 32) 8); [done|]. by exists (2 ^ 29). }
  pose proof (Z.mod_pos_bound (u32 hi) 8). assert (0 <= u32 lo / 2 ^ 28 < 16) by div_range.
  unfold js_shl. rewrite Z.shiftl_mul_pow2 by lia. change (2 ^ 4) with 16. rewrite (i32_small (u32 hi mod 8 * 16)) by lia.
  unfold js_or. change 16 with (2 ^ 4) at 1. rewrite lor_low_high by lia. apply i32_small. lia.
Qed.

Lemma varint64write_spec lo hi : - 2 ^ 31 <= hi < 2 ^ 31 -> varint64write lo hi = varint (word64 lo hi).
Proof.
  intros Hhi. pose proof (u32_range lo) as Hl. pose proof (u32_range hi) as Hh.
  assert (hi = 0 <-> u32 hi = 0) as Hz.
  { split; [by intros ->|]. intros H. rewrite <- (i32_small hi Hhi), <- i32_u32, H. done. }
  unfold varint64write, varint. change [0; 7; 14; 21] with (steps7 4 0).
  pose proof (write_groups_spec 4 0 lo hi (u32 hi) 6 ltac:(lia) ltac:(lia) ltac:(lia) Hz) as Hlow. cbv zeta in Hlow.
  change (2 ^ 0) with 1 in Hlow. rewrite Z.div_1_r in Hlow. change (4 + 6)%nat with 10%nat in Hlow. change (u32 hi * 2 ^ (32 - 0) + u32 lo) with (word64 lo hi) in Hlow.
  destruct (write_groups (steps7 4 0) lo hi) as [low []]; [by rewrite Hlow|]. rewrite Hlow. clear Hlow.
  change (128 ^ Z.of_nat 4) with (2 ^ 28). unfold word64. rewrite div_word_small by lia. change (2 ^ (32 - 28)) with 16.
  rewrite split_bits. set (m := u32 hi * 16 + u32 lo / 2 ^ 28). assert (0 <= u32 lo / 2 ^ 28 < 16) as Hq by div_range.
  assert (u32 lo / 2 ^ 28 + u32 hi mod 8 * 16 = m mod 128) as ->.
  { pose proof (Z.div_mod (u32 hi) 8 ltac:(lia)) as Hdm. pose proof (Z.mod_pos_bound (u32 hi) 8 ltac:(lia)).
    apply (Z.mod_unique _ _ (u32 hi / 8)); [left; lia|]. unfold m. lia. }
  assert (m / 128 = u32 hi / 8) as Hm.
  { pose proof (Z.div_mod (u32 hi) 8 ltac:(lia)) as Hdm. pose proof (Z.mod_pos_bound (u32 hi) 8 ltac:(lia)).
    symmetry. apply (Z.div_unique_pos m 128 _ (u32 lo / 2 ^ 28 + u32 hi mod 8 * 16)); unfold m; lia. }
  assert (bool_decide (hi .>> 3 = 0) = (m <? 128)) as ->.
  { unfold js_sar. rewrite i32_small, Z.shiftr_div_pow2 by lia. change (2 ^ 3) with 8.
    apply eq_true_iff_eq. rewrite bool_decide_eq_true, Z.ltb_lt. unfold u32 in *. split.
    - intros H%Z.div_small_iff; [|lia]. assert (0 <= hi < 8) by lia. unfold m. rewrite Z.mod_small by lia. lia.
    - intros H. assert (hi mod 2 ^ 32 < 8) as Hs by lia. destruct (Z.lt_ge_cases hi 0) as [Hneg|].
      + rewrite <- (Z.mod_add hi 1) in Hs by lia. rewrite Z.mod_small in Hs; lia.
      + rewrite Z.mod_small in Hs by lia. apply Z.div_small. lia. }
  change (leb128 6 m) with (if m <? 128 then [byte_of_Z m] else byte_of_Z (m mod 128 + 128) :: leb128 5 (m / 128)).
  destruct (Z.ltb_spec m 128) as [Hs|Hs]; cbn [negb].
  - rewrite last_byte, Z.mod_small by lia. done.
  - rewrite more_byte, Z.mod_mod by lia. rewrite Hm.
    pose proof (write_groups_spec 4 3 hi 0 0 1 ltac:(lia) ltac:(lia) ltac:(lia) ltac:(done)) as Hhigh. cbv zeta in Hhigh.
    change (2 ^ 3) with 8 in Hhigh. rewrite Z.mul_0_l, Z.add_0_l in Hhigh. change (4 + 1)%nat with 5%nat in Hhigh.
    change [3; 10; 17; 24] with (steps7 4 3). destruct (write_groups (steps7 4 3) hi 0) as [high []]; rewrite Hhigh; [done|].
    do 2 f_equal. cbn [app]. f_equal. f_equal. change (128 ^ Z.of_nat 4) with (2 ^ 28). rewrite Z.div_div by lia.
    change (8 * 2 ^ 28) with (2 ^ 31). rewrite js_shr_div by lia. assert (0 <= u32 hi / 2 ^ 31 < 2) by div_range.
    cbn [leb128]. destruct (Z.ltb_spec (u32 hi / 2 ^ 31) 128); [|lia]. change 0x01 with (2 ^ 1 - 1).
    rewrite js_and_ones, Z.mod_small by (try change (2 ^ 1) with 2; lia). done.
Qed.

Lemma negative_groups_spec n v : - 2 ^ 31 <= v < 0 -> - 128 ^ Z.of_nat n <= v ->
  negative_groups n v = leb128 (S n) (v + 2 * 128 ^ Z.of_nat n).
Proof.
  revert v. induction n as [|n IH]; intros v Hv Hb.
  - pow_norm. assert (v = -1) as -> by lia. done.
  - rewrite Nat2Z.inj_succ, Z.pow_succ_r in Hb |- * by lia. pose proof (Z.pow_pos_nonneg 128 (Z.of_nat n)).
    cbn [negative_groups]. rewrite group_byte. unfold js_sar. rewrite i32_small, Z.shiftr_div_pow2 by lia. change (2 ^ 7) with 128.
    assert (- 2 ^ 31 <= v / 128 < 0) by (split; [apply Z.div_le_lower_bound; lia|apply Z.div_lt_upper_bound; lia]).
    rewrite IH by (try done; apply Z.div_le_lower_bound; lia).
    replace (v + 2 * (128 * 128 ^ Z.of_nat n)) with (v + (2 * 128 ^ Z.of_nat n) * 128) by lia.
    remember (S n) as k. cbn [leb128]. destruct (Z.ltb_spec (v + 2 * 128 ^ Z.of_nat n * 128) 128); [lia|].
    by rewrite Z.mod_add, Z.div_add by lia.
Qed.

(** A negative 32-bit value is written as its 64-bit two's complement. *)
Lemma varint32write_spec v : - 2 ^ 31 <= v < 2 ^ 31 -> varint32write v = varint (v mod 2 ^ 64).
Proof.
  intros Hv. unfold varint32write. destruct (Z.leb_spec 0 v).
  - rewrite Z.mod_small by lia. apply writeVarint32_spec. lia.
  - rewrite negative_groups_spec by (pow_norm; lia). unfold varint. f_equal. pow_norm.
    rewrite <- (Z.mod_add v 1) by lia. rewrite Z.mod_small; lia.
Qed.

(** ** Decimal text of 64-bit integers

    [int64FromString], [uInt64ToString] and [int64ToString] against the usual
    decimal numerals. *)

#[local] Open Scope Z_scope.

(** ** Values of digit strings *)

Definition digits_value (l : bytes) : Z := default 0 (Number l).
Definition all_digits (l : bytes) : Prop := forallb is_digit l = true.

Lemma digit_step_digit acc b : is_digit b = true ->
  digit_step 10 (Some acc) b = Some (acc * 10 + digit_value b)%N /\ (digit_value b < 10)%N.
Proof. intros H. by destruct b. Qed.

Lemma parse_digits_from l : all_digits l -> exists y, (y < 10 ^ N.of_nat (length l))%N /\
  forall acc, fold_left (digit_step 10) l (Some acc) = Some (acc * 10 ^ N.of_nat (length l) + y)%N.
Proof.
  induction l as [|b l IH]; intros Hl.
  - exists 0%N. split; [done|]. intros acc. cbn. f_equal. lia.
  - unfold all_digits in Hl. cbn [forallb] in Hl. apply andb_true_iff in Hl as [Hb Hl].
    destruct (IH Hl) as (y & Hy & E). exists (digit_value b * 10 ^ N.of_nat (length l) + y)%N.
    destruct (digit_step_digit 0 b Hb) as [_ Hd]. cbn [length fold_left]. rewrite Nat2N.inj_succ, N.pow_succ_r'.
    split; [nia|]. intros acc. destruct (digit_step_digit acc b Hb) as [-> _]. rewrite E. f_equal. lia.
Qed.

Lemma parse_digits_app a b : all_digits (a ++ b) -> exists x y,
  parse_digits 10 a = Some x /\ parse_digits 10 b = Some y /\
  parse_digits 10 (a ++ b) = Some (x * 10 ^ N.of_nat (length b) + y)%N /\ (y < 10 ^ N.of_nat (length b))%N.
Proof.
  unfold all_digits. rewrite forallb_app, andb_true_iff. intros [Ha Hb]. unfold parse_digits.
  destruct (parse_digits_from a Ha) as (x & _ & Ex). destruct (parse_digits_from b Hb) as (y & Hy & Ey).
  exists x, y. by rewrite fold_left_app, Ex, !Ey, !N.mul_0_l, !N.add_0_l.
Qed.

Lemma digits_value_app a b : all_digits (a ++ b) ->
  digits_value (a ++ b) = digits_value a * 10 ^ Z.of_nat (length b) + digits_value b /\
  0 <= digits_value b < 10 ^ Z.of_nat (length b) /\ Number b = Some (digits_value b).
Proof.
  intros H. destruct (parse_digits_app a b H) as (x & y & Ex & Ey & Exy & Hy).
  unfold digits_value, Number. rewrite Ex, Ey, Exy. cbn. split_and!; [|lia| |done].
  - rewrite N2Z.inj_add, N2Z.inj_mul, N2Z.inj_pow, nat_N_Z. done.
  - rewrite <- nat_N_Z. change 10 with (Z.of_N 10). rewrite <- N2Z.inj_pow. lia.
Qed.

(** All but the last [k] digits. *)
Definition but_last (k : nat) (l : bytes) : bytes := take (length l - k) l.

Lemma slice_end_step l k : all_digits l ->
  digits_value (but_last k l) = digits_value (but_last (k + 6) l) * 1000000 + digits_value (slice_end l (k + 6) k) /\
  0 <= digits_value (slice_end l (k + 6) k) < 1000000 /\ Number (slice_end l (k + 6) k) = Some (digits_value (slice_end l (k + 6) k)).
Proof.
  intros Hl. unfold but_last, slice_end.
  assert (take (length l - k) l = take (length l - (k + 6)) l ++
    take (length l - k - (length l - (k + 6))) (drop (length l - (k + 6)) l)) as E.
  { rewrite <- (take_drop (length l - (k + 6)) (take (length l - k) l)) at 1. rewrite take_take, Nat.min_l by lia. f_equal.
    by rewrite skipn_firstn_comm. }
  assert (all_digits (take (length l - k) l)) as Hd.
  { unfold all_digits in *. rewrite <- (take_drop (length l - k) l), forallb_app, andb_true_iff in Hl. apply Hl. }
  rewrite E in Hd. destruct (digits_value_app _ _ Hd) as (Hv & Hr & HN). rewrite E. rewrite Hv. clear Hv E Hd.
  set (tl := take _ (drop _ _)) in *. destruct (decide (k + 6 <= length l)%nat) as [Hk|Hk].
  - assert (length tl = 6%nat) as Ht by (subst tl; rewrite length_take, length_drop; lia).
    rewrite Ht in *. change (10 ^ Z.of_nat 6) with 1000000 in *. done.
  - replace (length l - (k + 6))%nat with 0%nat by lia. cbn [take]. change (digits_value []) with 0.
    rewrite !Z.mul_0_l. split_and!; [done|lia| |done].
    assert (10 ^ Z.of_nat (length tl) <= 10 ^ 6); [|lia]. apply Z.pow_le_mono_r; [lia|].
    subst tl. rewrite length_take, length_drop. lia.
Qed.

(** One step keeps [lowBits + highBits * 2^32] equal to the digits read. *)
Lemma add1e6digit_spec l k lo hi : all_digits l -> 0 <= lo < 2 ^ 32 -> hi * 2 ^ 32 + lo = digits_value (but_last (k + 6) l) ->
  exists lo' hi', add1e6digit l (Some lo, hi) (k + 6) k = (Some lo', hi') /\ 0 <= lo' < 2 ^ 32 /\
    hi' * 2 ^ 32 + lo' = digits_value (but_last k l).
Proof.
  intros Hl Hlo Hv. destruct (slice_end_step l k Hl) as (E & Hr & HN). unfold add1e6digit. rewrite HN.
  set (d := digits_value (slice_end _ _ _)) in *. change 4294967296 with (2 ^ 32).
  destruct (Z.leb_spec (2 ^ 32) (lo * 1000000 + d)).
  - eexists _, _. split; [done|]. split; [apply Z.mod_pos_bound; lia|].
    rewrite i32_small. 2: { assert (0 <= (lo * 1000000 + d) / 2 ^ 32 < 2 ^ 31) by div_range. lia. }
    pose proof (Z.div_mod (lo * 1000000 + d) (2 ^ 32)). lia.
  - eexists _, _. split; [done|]. split; [lia|]. lia.
Qed.

(** ** Parsing *)

Lemma pretty_neg (z : Z) : z < 0 -> pretty z = "-" +:+ pretty (- z).
Proof. intros Hz. destruct z as [|p|p]; [lia|lia|done]. Qed.

Lemma nat_digits (z : Z) : 0 <= z -> all_digits (utf8 (pretty z)) /\ Number (utf8 (pretty z)) = Some z.
Proof.
  intros Hz. rewrite <- (Z2N.id z) by done. rewrite pretty_Z_of_N. pose proof (pretty_N_digits (Z.to_N z)) as Hd.
  pose proof (parse_pretty_N (Z.to_N z)) as Hp. unfold is_digits in Hd. unfold parse_literal in Hp. unfold Number, all_digits.
  by destruct (utf8 (pretty (Z.to_N z))).
Qed.

(** ** Numerals, one digit at a time *)

Definition digit_byte (d : N) : byte := Ascii.byte_of_ascii (pretty_N_char d).

Lemma pretty_go_app x s : utf8 (pretty_N_go x s) = utf8 (pretty_N_go x "") ++ utf8 s.
Proof.
  revert s. induction (N.lt_wf_0 x) as [x _ IH]. intros s.
  destruct (decide (x = 0%N)) as [->|Hx]; [by rewrite !pretty_N_go_0|].
  rewrite !(pretty_N_go_step x) by lia.
  assert (x / 10 < x)%N as Hlt by (apply N.div_lt; lia).
  rewrite (IH _ Hlt), (IH _ Hlt (String _ "")), !utf8_cons, <- app_assoc. done.
Qed.

Definition numeral (n : N) : bytes := utf8 (pretty n).

Lemma numeral_small n : (n < 10)%N -> numeral n = [digit_byte n].
Proof.
  intros Hn. unfold numeral, pretty, pretty_N. case_decide as H0; [by subst|].
  rewrite pretty_N_go_step by lia. rewrite N.div_small, pretty_N_go_0, N.mod_small by lia. done.
Qed.

Lemma numeral_step c d : (0 < c)%N -> (d < 10)%N -> numeral (c * 10 + d) = numeral c ++ [digit_byte d].
Proof.
  intros Hc Hd. unfold numeral, pretty, pretty_N. rewrite !decide_False by lia.
  rewrite pretty_N_go_step by lia.
  rewrite N.add_comm, N.div_add, N.div_small, N.add_0_l, N.Div0.mod_add, N.mod_small by lia. by rewrite pretty_go_app.
Qed.

Lemma numeral_length n k : (n < 10 ^ N.of_nat (S k))%N -> (length (numeral n) <= S k)%nat.
Proof.
  revert n. induction k as [|k IH]; intros n Hn.
  - rewrite numeral_small by (change (10 ^ N.of_nat 1)%N with 10%N in Hn; lia). done.
  - destruct (decide (n < 10)%N); [rewrite numeral_small by done; cbn; lia|].
    rewrite Nat2N.inj_succ, N.pow_succ_r' in Hn.
    rewrite (N.div_mod n 10) by done. rewrite (N.mul_comm 10), numeral_step.
    + rewrite length_app. cbn [length]. specialize (IH (n / 10)%N). assert (n / 10 < 10 ^ N.of_nat (S k))%N as H
        by (apply N.Div0.div_lt_upper_bound; lia). specialize (IH H). lia.
    + assert (1 <= n / 10)%N by (apply N.div_le_lower_bound; lia). lia.
    + by apply N.mod_lt.
Qed.

(** [k] digits with leading zeros. *)
Fixpoint padded (k : nat) (n : N) : bytes :=
  match k with O => [] | S k' => padded k' (n / 10) ++ [digit_byte (n mod 10)] end.

Lemma padded_0 k : padded k 0 = replicate k x30.
Proof.
  induction k as [|k IH]; [done|]. cbn [padded]. change (0 / 10)%N with 0%N. rewrite IH.
  change [digit_byte (0 mod 10)] with (replicate 1 x30). rewrite <- replicate_add. f_equal. lia.
Qed.

Lemma numeral_padded k c n : (0 < c)%N -> (n < 10 ^ N.of_nat k)%N ->
  numeral (c * 10 ^ N.of_nat k + n) = numeral c ++ padded k n.
Proof.
  intros Hc. revert n. induction k as [|k IH]; intros n Hn.
  - change (10 ^ N.of_nat 0)%N with 1%N in *. assert (n = 0%N) as -> by lia.
    rewrite N.mul_1_r, N.add_0_r. cbn. by rewrite app_nil_r.
  - rewrite Nat2N.inj_succ, N.pow_succ_r' in *. cbn [padded]. rewrite app_assoc, <- IH.
    + assert (c * (10 * 10 ^ N.of_nat k) + n = (c * 10 ^ N.of_nat k + n / 10) * 10 + n mod 10)%N as ->
        by (pose proof (N.div_mod n 10 ltac:(done)); lia).
      apply numeral_step; [|by apply N.mod_lt]. apply N.add_pos_l, N.mul_pos_pos; [done|].
      apply N.neq_0_lt_0. by apply N.pow_nonzero.
    + apply N.Div0.div_lt_upper_bound. lia.
Qed.

Lemma zeros_numeral k n : (n < 10 ^ N.of_nat (S k))%N ->
  drop (length (numeral n)) (replicate (S k) x30) ++ numeral n = padded (S k) n.
Proof.
  revert n. induction k as [|k IH]; intros n Hn.
  - change (10 ^ N.of_nat 1)%N with 10%N in Hn. rewrite numeral_small by lia. cbn.
    by rewrite N.mod_small by lia.
  - destruct (decide (n < 10)%N) as [Hs|Hs].
    + rewrite numeral_small by done. change (padded (S (S k)) n) with (padded (S k) (n / 10) ++ [digit_byte (n mod 10)]).
      by rewrite N.div_small, N.mod_small, padded_0 by lia.
    + rewrite Nat2N.inj_succ, N.pow_succ_r' in Hn.
      assert (numeral n = numeral (n / 10) ++ [digit_byte (n mod 10)]) as ->.
      { rewrite (N.div_mod n 10) at 1 by done. rewrite (N.mul_comm 10). apply numeral_step; [|by apply N.mod_lt].
        assert (1 <= n / 10)%N by (apply N.div_le_lower_bound; lia). lia. }
      rewrite length_app. change (length [digit_byte (n mod 10)]) with 1%nat. rewrite Nat.add_1_r.
      change (replicate (S (S k)) x30) with (x30 :: replicate (S k) x30). cbn [drop].
      rewrite app_assoc, IH by (apply N.Div0.div_lt_upper_bound; lia). done.
Qed.

Lemma numeral_Z (z : Z) : 0 <= z -> utf8 (pretty z) = numeral (Z.to_N z).
Proof. intros Hz. rewrite <- (Z2N.id z) at 1 by done. by rewrite pretty_Z_of_N. Qed.

(** ** Text to words and back *)

Lemma int64FromString_abs (z : Z) (minus : bool) : 0 <= z < 10 ^ 24 ->
  exists lo hi, 0 <= lo < 2 ^ 32 /\ hi * 2 ^ 32 + lo = z /\
    int64FromString ((if minus then "-" else "") +:+ pretty z) =
    if minus then negate lo hi else newBits lo hi.
Proof.
  intros Hz. destruct (nat_digits z) as [Hd HN]; [lia|]. set (l := utf8 (pretty z)) in *.
  assert (length l <= 24)%nat as Hlen.
  { subst l. rewrite numeral_Z by lia. apply numeral_length. change (10 ^ N.of_nat 24)%N with (Z.to_N (10 ^ 24)). lia. }
  assert (digits_value (but_last 0 l) = z) as Hz0.
  { unfold but_last, digits_value. rewrite Nat.sub_0_r, take_ge by done. by rewrite HN. }
  assert (0 * 2 ^ 32 + 0 = digits_value (but_last (18 + 6) l)) as H24.
  { unfold but_last. by replace (length l - (18 + 6))%nat with 0%nat by lia. }
  destruct (add1e6digit_spec l 18 0 0 Hd ltac:(lia) H24) as (lo1 & hi1 & E1 & Hr1 & Hv1).
  destruct (add1e6digit_spec l 12 lo1 hi1 Hd Hr1 Hv1) as (lo2 & hi2 & E2 & Hr2 & Hv2).
  destruct (add1e6digit_spec l 6 lo2 hi2 Hd Hr2 Hv2) as (lo3 & hi3 & E3 & Hr3 & Hv3).
  destruct (add1e6digit_spec l 0 lo3 hi3 Hd Hr3 Hv3) as (lo & hi & E4 & Hr4 & Hv4).
  exists lo, hi. split; [done|]. split; [by rewrite <- Hz0|]. unfold int64FromString. rewrite utf8_app. fold l.
  assert (match utf8 (if minus then "-" else "") ++ l with x2d :: l' => (true, l') | l' => (false, l') end = (minus, l)) as ->.
  { destruct minus; [done|]. cbn. destruct l as [|b l']; [done|]. unfold all_digits in Hd. cbn in Hd.
    destruct b; try done. }
  cbn [Nat.add] in E1, E2, E3, E4. by rewrite E1, E2, E3, E4.
Qed.

(** The two signed words of an integer, negative or not, from its decimal text. *)
Lemma int64FromString_pretty (z : Z) : Z.abs z < 10 ^ 24 -> int64FromString (pretty z) = (i32 z, i32 (z / 2 ^ 32)).
Proof.
  intros Hz. destruct (Z.lt_ge_cases z 0) as [Hneg|Hpos].
  - destruct (int64FromString_abs (- z) true) as (lo & hi & Hlo & Hv & E); [lia|]. rewrite pretty_neg by done.
    rewrite E. unfold negate, newBits. rewrite !js_or_0. unfold js_not, Z.lnot, Z.pred.
    assert (z = (- hi - 1) * 2 ^ 32 + (2 ^ 32 - lo)) as Hz' by lia.
    case_decide as H0.
    + subst lo. assert (z / 2 ^ 32 = - hi) as ->.
      { replace z with (- hi * 2 ^ 32) by lia. by apply Z.div_mul. }
      f_equal; apply i32_eq; unfold u32.
      * replace z with (0 + - hi * 2 ^ 32) by lia. by rewrite Z.mod_add.
      * fold (u32 (i32 (- hi + -1) + 1)). fold (u32 (- hi)).
        unfold u32. rewrite <- Zplus_mod_idemp_l. fold (u32 (i32 (- hi + -1))). rewrite u32_i32.
        unfold u32. rewrite Zplus_mod_idemp_l. f_equal. lia.
    + assert (z / 2 ^ 32 = - hi - 1) as ->.
      { rewrite Hz', Z.add_comm, Z.div_add by lia. rewrite (Z.div_small (2 ^ 32 - lo)) by lia. lia. }
      f_equal; apply i32_eq; unfold u32.
      * rewrite <- Zplus_mod_idemp_l. fold (u32 (i32 (- lo + -1))). rewrite u32_i32.
        unfold u32. rewrite Zplus_mod_idemp_l. replace (- lo + -1 + 1) with (z + hi * 2 ^ 32) by lia. by rewrite Z.mod_add.
      * fold (u32 (i32 (- hi + -1))). rewrite u32_i32. unfold u32. f_equal; lia.
  - destruct (int64FromString_abs z false) as (lo & hi & Hlo & Hv & E); [lia|]. change ("" +:+ pretty z) with (pretty z) in E. rewrite E.
    unfold newBits. rewrite !js_or_0. subst z. rewrite (Z.add_comm _ lo), Z.div_add, Z.div_small, Z.add_0_l by lia. f_equal.
    apply i32_eq. unfold u32. by rewrite Z.mod_add.
Qed.

Lemma padded_text (z : Z) : 0 <= z < 10 ^ 7 -> utf8 (decimalFrom1e7WithLeadingZeros z) = padded 7 (Z.to_N z).
Proof.
  intros Hz. unfold decimalFrom1e7WithLeadingZeros, slice_from, str_length. rewrite utf8_app, utf8_text, numeral_Z by lia.
  apply (zeros_numeral 6). change (10 ^ N.of_nat 7)%N with (Z.to_N (10 ^ 7)). lia.
Qed.

(** The three base-10^7 digits, carries applied. *)
Lemma three_digits (n a b c : Z) : 0 <= a -> 0 <= b -> 0 <= c -> a + b * 10 ^ 7 + c * 10 ^ 14 = n -> 10 ^ 14 <= n ->
  let base := 10000000 in
  (let '(a, b) := if base <=? a then (a mod base, b + a / base) else (a, b) in
   let '(b, c) := if base <=? b then (b mod base, c + b / base) else (b, c) in
   pretty c +:+ decimalFrom1e7WithLeadingZeros b +:+ decimalFrom1e7WithLeadingZeros a) = pretty n.
Proof.
  intros Ha Hb Hc Hn Hbig. cbv zeta. change 10000000 with (10 ^ 7).
  assert (exists a' b', (if 10 ^ 7 <=? a then (a mod 10 ^ 7, b + a / 10 ^ 7) else (a, b)) = (a', b') /\
    0 <= a' < 10 ^ 7 /\ 0 <= b' /\ a' + b' * 10 ^ 7 = a + b * 10 ^ 7) as (a' & b' & -> & Ha' & Hb' & Hab).
  { destruct (Z.leb_spec (10 ^ 7) a); eexists _, _; (split; [done|]); pose proof (Z.div_mod a (10 ^ 7));
      pose proof (Z.mod_pos_bound a (10 ^ 7)); pose proof (Z.div_pos a (10 ^ 7)); lia. }
  assert (exists b'' c', (if 10 ^ 7 <=? b' then (b' mod 10 ^ 7, c + b' / 10 ^ 7) else (b', c)) = (b'', c') /\
    0 <= b'' < 10 ^ 7 /\ 0 <= c' /\ b'' + c' * 10 ^ 7 = b' + c * 10 ^ 7) as (b'' & c' & -> & Hb'' & Hc' & Hbc).
  { destruct (Z.leb_spec (10 ^ 7) b'); eexists _, _; (split; [done|]); pose proof (Z.div_mod b' (10 ^ 7));
      pose proof (Z.mod_pos_bound b' (10 ^ 7)); pose proof (Z.div_pos b' (10 ^ 7)); lia. }
  assert (n = (c' * 10 ^ 7 + b'') * 10 ^ 7 + a') as -> by lia. assert (0 < c') as Hpos by lia.
  apply utf8_inj. rewrite !utf8_app, !padded_text, !numeral_Z by lia.
  rewrite app_assoc.
  assert (forall c a, 0 < c -> 0 <= a < 10 ^ 7 -> numeral (Z.to_N c) ++ padded 7 (Z.to_N a) = numeral (Z.to_N (c * 10 ^ 7 + a))) as Hp.
  { intros c0 a0 Hc0 Ha0. rewrite <- numeral_padded by (change (10 ^ N.of_nat 7)%N with (Z.to_N (10 ^ 7)); lia). f_equal.
    change (10 ^ N.of_nat 7)%N with (Z.to_N (10 ^ 7)). lia. }
  by rewrite !Hp by lia.
Qed.

(** The three parts of a word pair: 24, 24 and 16 bits. *)
Lemma word_parts lo hi : 0 <= lo < 2 ^ 32 -> 0 <= hi < 2 ^ 32 ->
  let n := hi * 2 ^ 32 + lo in
  js_and lo 0xffffff = n mod 2 ^ 24 /\
  js_and (js_or (js_shr lo 24) (js_shl hi 8)) 0xffffff = n / 2 ^ 24 mod 2 ^ 24 /\
  js_and (js_sar hi 16) 0xffff = n / 2 ^ 48.
Proof.
  intros Hlo Hhi n. split_and!.
  - change 0xffffff with (2 ^ 24 - 1). rewrite js_and_ones by lia. subst n.
    replace (hi * 2 ^ 32 + lo) with (lo + hi * 2 ^ 8 * 2 ^ 24) by lia. by rewrite Z.mod_add.
  - change 0xffffff with (2 ^ 24 - 1). rewrite js_and_ones by lia.
    rewrite js_shr_small by lia.
    assert (0 <= lo / 2 ^ 24 < 2 ^ 8) as Hq by div_range.
    rewrite or_group; [|lia|lia|rewrite u32_small; lia]. rewrite u32_small by lia.
    assert (n / 2 ^ 24 = lo / 2 ^ 24 + hi * 2 ^ 8) as ->.
    { subst n. replace (hi * 2 ^ 32 + lo) with (lo + hi * 2 ^ 8 * 2 ^ 24) by lia. by rewrite Z.div_add. }
    set (x := lo / 2 ^ 24 + hi * 2 ^ 8). pose proof (u32_i32 x) as H. unfold u32 in H.
    rewrite <- (Z.mod_mod_divide (i32 x) (2 ^ 32) (2 ^ 24)), H, Z.mod_mod_divide; [done|by exists (2 ^ 8)..].
  - change 0xffff with (2 ^ 16 - 1). rewrite js_and_ones by lia. unfold js_sar. rewrite Z.shiftr_div_pow2 by lia.
    assert (n / 2 ^ 48 = hi / 2 ^ 16) as ->.
    { subst n. change (2 ^ 48) with (2 ^ 32 * 2 ^ 16). rewrite <- Z.div_div by lia.
      rewrite Z.add_comm, Z.div_add, (Z.div_small lo) by lia. done. }
    assert (exists k, i32 hi = hi + k * 2 ^ 16 * 2 ^ 16) as [k ->].
    { exists (i32 hi / 2 ^ 32 - hi / 2 ^ 32). pose proof (u32_i32 hi) as H. unfold u32 in H.
      pose proof (Z.div_mod (i32 hi) (2 ^ 32)). pose proof (Z.div_mod hi (2 ^ 32)). lia. }
    rewrite Z.div_add, Z.mod_add, Z.mod_small by div_range. done.
Qed.

Lemma uInt64ToString_spec lo hi : uInt64ToString lo hi = pretty (word64 lo hi).
Proof.
  unfold uInt64ToString, toUnsigned, word64. rewrite !js_shr_0.
  pose proof (u32_range lo) as Hl. pose proof (u32_range hi) as Hh. set (l := u32 lo) in *. set (h := u32 hi) in *.
  destruct (Z.leb_spec h 0x1fffff); [f_equal; lia|].
  destruct (word_parts l h Hl Hh) as (-> & -> & ->). set (n := h * 2 ^ 32 + l) in *.
  assert (2 ^ 53 <= n < 2 ^ 64) as Hn by lia.
  pose proof (Z.mod_pos_bound n (2 ^ 24)). pose proof (Z.mod_pos_bound (n / 2 ^ 24) (2 ^ 24)).
  assert (0 <= n / 2 ^ 48) by (apply Z.div_pos; lia).
  apply three_digits; [lia|lia|lia| |lia].
  pose proof (Z.div_mod n (2 ^ 24)). pose proof (Z.div_mod (n / 2 ^ 24) (2 ^ 24)).
  replace (n / 2 ^ 48) with (n / 2 ^ 24 / 2 ^ 24) by (rewrite Z.div_div by lia; done). lia.
Qed.

(** The signed value of two words. *)
Definition int64_value (lo hi : Z) : Z := i32 hi * 2 ^ 32 + u32 lo.

Lemma int64ToString_spec lo hi : int64ToString lo hi = pretty (int64_value lo hi).
Proof.
  unfold int64ToString, newBits, int64_value. rewrite !js_or_0.
  pose proof (u32_range lo) as Hl. pose proof (i32_range hi) as Hh.
  assert (js_and (i32 hi) 0x80000000 = i32 ((i32 hi / 2 ^ 31) mod 2 * 2 ^ 31)) as Hs
    by (unfold js_and; by rewrite <- (land_pow2 (i32 hi) 31)).
  destruct (Z.lt_ge_cases (i32 hi) 0) as [Hneg|Hpos].
  - assert (i32 hi / 2 ^ 31 = -1) as Hq.
    { symmetry. apply (Z.div_unique_pos (i32 hi) (2 ^ 31) (-1) (i32 hi + 2 ^ 31)); lia. }
    rewrite Hq in Hs. change (i32 (-1 mod 2 * 2 ^ 31)) with (- 2 ^ 31) in Hs. rewrite decide_False by lia.
    unfold negate, newBits. rewrite !js_or_0. set (v := i32 hi * 2 ^ 32 + u32 lo).
    rewrite (pretty_neg v) by (subst v; lia). f_equal.
    assert (u32 (js_not (i32 hi)) = - i32 hi - 1) as Hnot.
    { unfold js_not. rewrite u32_i32. unfold Z.lnot, Z.pred. apply u32_small. lia. }
    assert ((i32 lo = 0 <-> u32 lo = 0)) as H0.
    { split; intros H.
      - rewrite <- u32_i32, H. done.
      - rewrite <- i32_u32, H. done. }
    case_decide as Hlo; rewrite uInt64ToString_spec; f_equal; unfold word64; rewrite !u32_i32.
    + apply H0 in Hlo. subst v. rewrite Hlo.
      assert (u32 (js_not (i32 hi) + 1) = - i32 hi) as ->; [|f_equal; lia].
      unfold u32. rewrite <- Zplus_mod_idemp_l. fold (u32 (js_not (i32 hi))). rewrite Hnot.
      replace (- i32 hi - 1 + 1) with (- i32 hi) by lia. apply Z.mod_small. lia.
    + rewrite Hnot. assert (u32 (js_not (i32 lo) + 1) = 2 ^ 32 - u32 lo) as ->; [|subst v; f_equal; lia].
      assert (u32 lo <> 0) as Hne by (by rewrite <- H0).
      unfold u32 at 1. rewrite <- Zplus_mod_idemp_l. fold (u32 (js_not (i32 lo))). unfold js_not. rewrite u32_i32.
      unfold Z.lnot, Z.pred. unfold u32 at 1. rewrite Zplus_mod_idemp_l.
      replace (- i32 lo + -1 + 1) with (0 - i32 lo) by lia. rewrite <- Zminus_mod_idemp_r. fold (u32 (i32 lo)).
      rewrite u32_i32. replace (0 - u32 lo) with (2 ^ 32 - u32 lo + -1 * 2 ^ 32) by lia. rewrite Z.mod_add by lia.
      apply Z.mod_small. lia.
  - assert (i32 hi / 2 ^ 31 = 0) as Hq by (apply Z.div_small; lia). rewrite Hq in Hs.
    rewrite decide_True by (by rewrite Hs). rewrite uInt64ToString_spec. unfold word64. rewrite !u32_i32. f_equal. f_equal.
    f_equal. rewrite <- u32_i32. apply u32_small. lia.
Qed.

(** ** [BigInt] of a numeral *)

Lemma BigInt_pretty_Z (z : Z) : BigInt (pretty z) = Ok z.
Proof.
  destruct (Z.lt_ge_cases z 0) as [Hneg|Hpos]; [|by apply BigInt_pretty].
  rewrite pretty_neg by done. destruct (nat_digits (- z)) as [Hd HN]; [lia|].
  unfold BigInt, bigint_of_string. rewrite utf8_app.
  set (l := utf8 (pretty (- z))) in *.
  assert (trim_bytes (utf8 "-" ++ l) = utf8 "-" ++ l) as ->.
  { apply trim_solid. rewrite forallb_app. cbn. unfold all_digits in Hd. rewrite forallb_forall in Hd |- *.
    intros x Hx. specialize (Hd x Hx). clear -Hd. revert Hd. by destruct x. }
  change (utf8 "-" ++ l) with (x2d :: l). cbn [parse_literal]. unfold parse_literal.
  assert (l <> []) as Hl.
  { pose proof (pretty_Z_digits (- z) ltac:(lia)) as H. unfold is_digits in H. fold l in H. by destruct l. }
  destruct l as [|b l']; [done|]. unfold Number in HN. rewrite HN. cbn. do 2 f_equal. lia.
Qed.
