(* ===== verification/Utf8.v ===== *)
(** * UTF-8 text ([proto-types/src/utf8.ts])

    Here a JavaScript string is the list of its UTF-16 code units, as [charCodeAt]
    and [fromCharCode] see it.  A code unit or byte read past the end is [NaN] or
    [undefined], 0 under the bit operators. *)

From Stdlib Require Import ZArith Lia.
From S2P Require Import Prelude JsNumber JsString Varint.

#[local] Open Scope Z_scope.
#[local] Open Scope js_scope.

Definition is_high (c : Z) : bool := bool_decide (c .& 0xfc00 = 0xd800).
Definition is_low (c : Z) : bool := bool_decide (c .& 0xfc00 = 0xdc00).

Fixpoint utf8Length (str : list Z) : Z :=
  match str with
  | [] => 0
  | c :: rest =>
      if c <? 128 then 1 + utf8Length rest else
      if c <? 2048 then 2 + utf8Length rest else
      match rest with
      | c2 :: rest' => if is_high c && is_low c2 then 4 + utf8Length rest' else 3 + utf8Length rest
      | [] => 3
      end
  end.

(** Two, three and four byte forms. *)
Definition write2 (c1 : Z) : bytes := [byte_of_Z (c1 .>> 6 .| 192); byte_of_Z (c1 .& 63 .| 128)].
Definition write3 (c1 : Z) : bytes :=
  [byte_of_Z (c1 .>> 12 .| 224); byte_of_Z (c1 .>> 6 .& 63 .| 128); byte_of_Z (c1 .& 63 .| 128)].
Definition write4 (c1 c2 : Z) : bytes :=
  let c := 0x10000 + (c1 .& 0x03ff) .<< 10 + c2 .& 0x03ff in
  [byte_of_Z (c .>> 18 .| 240); byte_of_Z (c .>> 12 .& 63 .| 128); byte_of_Z (c .>> 6 .& 63 .| 128);
   byte_of_Z (c .& 63 .| 128)].

Fixpoint utf8Write (str : list Z) : bytes :=
  match str with
  | [] => []
  | c1 :: rest =>
      if c1 <? 128 then byte_of_Z c1 :: utf8Write rest else
      if c1 <? 2048 then write2 c1 ++ utf8Write rest else
      match rest with
      | c2 :: rest' => if is_high c1 && is_low c2 then write4 c1 c2 ++ utf8Write rest' else write3 c1 ++ utf8Write rest
      | [] => write3 c1
      end
  end.

(** [buffer[start++]] on the bytes that are left. *)
Definition take_byte (l : bytes) : Z * bytes := match l with [] => (0, []) | b :: r => (byte_to_Z b, r) end.

(** One round of the loop of [utf8Read]: the code units it stores and the bytes left. *)
Definition read_char (t : Z) (l : bytes) : list Z * bytes :=
  if t <? 128 then ([t], l) else
  if (191 <? t) && (t <? 224) then
    let '(b1, l) := take_byte l in ([(t .& 31) .<< 6 .| b1 .& 63], l) else
  if (239 <? t) && (t <? 365) then
    let '(b1, l) := take_byte l in let '(b2, l) := take_byte l in let '(b3, l) := take_byte l in
    let t := ((t .& 7) .<< 18 .| (b1 .& 63) .<< 12 .| (b2 .& 63) .<< 6 .| b3 .& 63) - 0x10000 in
    ([0xd800 + t .>> 10; 0xdc00 + t .& 1023], l)
  else
    let '(b1, l) := take_byte l in let '(b2, l) := take_byte l in
    ([(t .& 15) .<< 12 .| (b1 .& 63) .<< 6 .| b2 .& 63], l).

(** The array [chunk], filled up to [i], and the texts already put aside. *)
Record ReadState := MkReadState { rs_chunk : list Z; rs_i : nat; rs_parts : list Z }.

(** [chunk[i++] = u] *)
Definition chunk_push (st : ReadState) (u : Z) : ReadState :=
  let chunk := rs_chunk st in
  let i := rs_i st in
  MkReadState (if (i <? length chunk)%nat then <[i := u]> chunk else chunk ++ [u]) (S i) (rs_parts st).

(** [String.fromCharCode(...chunk)] spreads the whole array. *)
Definition chunk_flush (st : ReadState) : ReadState :=
  if 8191 <? Z.of_nat (rs_i st) then MkReadState (rs_chunk st) 0 (rs_parts st ++ rs_chunk st) else st.

(** Every round takes a byte, so the number of bytes bounds the rounds. *)
Fixpoint read_loop (fuel : nat) (l : bytes) (st : ReadState) : ReadState :=
  match fuel, l with
  | S fuel', b :: l' =>
      let '(us, rest) := read_char (byte_to_Z b) l' in
      read_loop fuel' rest (chunk_flush (fold_left chunk_push us st))
  | _, _ => st
  end.

Definition utf8Read (buffer : bytes) : list Z :=
  if (length buffer <? 1)%nat then [] else
  let st := read_loop (length buffer) buffer (MkReadState [] 0 []) in
  if decide (rs_i st = 0%nat) then rs_parts st else rs_parts st ++ take (rs_i st) (rs_chunk st).

(** ** Texts as code units

    Elsewhere a text is the bytes of its UTF-8 form; these are the two views. *)

Fixpoint decode_units (fuel : nat) (l : bytes) : list Z :=
  match fuel, l with
  | S fuel', b :: l' => let '(us, rest) := read_char (byte_to_Z b) l' in us ++ decode_units fuel' rest
  | _, _ => []
  end.
Definition code_units (s : string) : list Z := decode_units (length (utf8 s)) (utf8 s).
Definition of_units (u : list Z) : string := text (utf8Write u).

(** ** Code units *)

Definition unit_ok (c : Z) : Prop := 0 <= c < 0x10000.

(** ** UTF-8: lengths, round trip, and where the reader goes wrong *)

#[local] Open Scope Z_scope.
#[local] Open Scope js_scope.

(** Strings of code units by their characters: single units and surrogate pairs. *)
Lemma units_ind (P : list Z -> Prop) :
  P [] ->
  (forall c rest, P rest -> (c < 2048 \/ match rest with [] => True | c2 :: _ => is_high c && is_low c2 = false end) -> P (c :: rest)) ->
  (forall c1 c2 rest, P rest -> 2048 <= c1 -> is_high c1 && is_low c2 = true -> P (c1 :: c2 :: rest)) ->
  forall str, P str.
Proof.
  intros H0 H1 H2 str. remember (length str) as n eqn:En. revert str En.
  induction n as [n IH] using lt_wf_ind. intros str ->.
  destruct str as [|c rest]; [done|]. destruct (Z.lt_ge_cases c 2048) as [Hc|Hc].
  - apply H1; [by eapply IH; [|done]; cbn; lia|by left].
  - destruct rest as [|c2 rest]; [apply H1; [done|by right]|].
    destruct (is_high c && is_low c2) eqn:E.
    + apply H2; [|done|done]. by eapply IH; [|done]; cbn; lia.
    + apply H1; [|by right]. by eapply IH; [|done]; cbn; lia.
Qed.

(** [utf8Length] is the number of bytes [utf8Write] stores, lone surrogates included. *)
Lemma utf8Length_write str : Z.of_nat (length (utf8Write str)) = utf8Length str.
Proof.
  induction str as [|c rest IH Hc|c1 c2 rest IH Hc Hp] using units_ind; [done| |].
  - cbn [utf8Write utf8Length]. destruct (Z.ltb_spec c 128); [cbn [length]; lia|].
    destruct (Z.ltb_spec c 2048); [rewrite length_app; cbn [write2 length]; lia|].
    destruct rest as [|c2 rest]; [done|]. destruct Hc as [Hc|Hc]; [lia|]. rewrite Hc, length_app. cbn [write3 length]. lia.
  - cbn [utf8Write utf8Length]. destruct (Z.ltb_spec c1 128); [lia|]. destruct (Z.ltb_spec c1 2048); [lia|].
    rewrite Hp, length_app. unfold write4. cbn [length]. lia.
Qed.

(** ** Bits of a character *)

Lemma land_range c a b : 0 <= a <= b -> Z.land c (2 ^ b - 2 ^ a) = c mod 2 ^ b - c mod 2 ^ a.
Proof.
  intros Hab. assert (c mod 2 ^ b - c mod 2 ^ a = Z.shiftl (Z.shiftr (c mod 2 ^ b) a) a) as ->.
  { rewrite Z.shiftl_mul_pow2, Z.shiftr_div_pow2 by lia. pose proof (Z.pow_pos_nonneg 2 a).
    pose proof (Z.div_mod (c mod 2 ^ b) (2 ^ a)).
    rewrite Z.mod_mod_divide in H0; [lia|]. exists (2 ^ (b - a)). rewrite <- Z.pow_add_r by lia. f_equal. lia. }
  assert (2 ^ b - 2 ^ a = Z.shiftl (Z.ones (b - a)) a) as ->.
  { rewrite Z.shiftl_mul_pow2, Z.ones_equiv by lia. rewrite Z.mul_pred_l, <- Z.pow_add_r by lia. do 2 f_equal. lia. }
  apply Z.bits_inj'. intros i Hi. rewrite Z.land_spec. destruct (Z.lt_ge_cases i a).
  - rewrite !Z.shiftl_spec_low by done. apply andb_false_r.
  - rewrite !Z.shiftl_spec, Z.shiftr_spec, Z.testbit_ones_nonneg by lia.
    replace (i - a + a) with i by lia. destruct (Z.lt_ge_cases i b).
    + rewrite Z.mod_pow2_bits_low by done. destruct (Z.ltb_spec (i - a) (b - a)); [apply andb_true_r|lia].
    + rewrite Z.mod_pow2_bits_high by lia. destruct (Z.ltb_spec (i - a) (b - a)); [lia|apply andb_false_r].
Qed.

Lemma surrogate_bits c : unit_ok c -> c .& 0xfc00 = c - c mod 1024.
Proof.
  intros Hc. unfold unit_ok in Hc. unfold js_and. change 0xfc00 with (2 ^ 16 - 2 ^ 10). rewrite land_range by lia.
  change (2 ^ 16) with 0x10000. change (2 ^ 10) with 1024. rewrite (Z.mod_small c) by lia.
  pose proof (Z.mod_pos_bound c 1024). apply i32_small. pose proof (Z.mod_le c 1024). lia.
Qed.

Lemma js_sar_small x n : 0 <= x < 2 ^ 31 -> 0 <= n -> x .>> n = x / 2 ^ n.
Proof. intros Hx Hn. unfold js_sar. rewrite i32_small by lia. by apply Z.shiftr_div_pow2. Qed.

(** Disjoint bits below 2^31 are added. *)
Lemma js_or_add a b n : 0 <= n <= 31 -> 0 <= a < 2 ^ n -> 0 <= b -> b * 2 ^ n + a < 2 ^ 31 ->
  a .| b * 2 ^ n = a + b * 2 ^ n /\ b * 2 ^ n .| a = a + b * 2 ^ n.
Proof.
  intros Hn Ha Hb Hr. pose proof (Z.pow_pos_nonneg 2 n). unfold js_or. rewrite (Z.lor_comm (b * 2 ^ n)), lor_low_high by lia.
  split; apply i32_small; nia.
Qed.

Lemma js_shl_small x n : 0 <= n -> 0 <= x -> x * 2 ^ n < 2 ^ 31 -> x .<< n = x * 2 ^ n.
Proof.
  intros Hn Hx Hr. unfold js_shl. rewrite Z.shiftl_mul_pow2 by lia. apply i32_small.
  pose proof (Z.pow_pos_nonneg 2 n). nia.
Qed.

(** A continuation byte carries six bits. *)
Definition cont (x : Z) : byte := byte_of_Z (x mod 64 + 128).

Lemma cont_byte x : byte_of_Z (x .& 63 .| 128) = cont x.
Proof.
  unfold cont. f_equal. change 63 with (2 ^ 6 - 1). rewrite js_and_ones by lia. change (2 ^ 6) with 64.
  pose proof (Z.mod_pos_bound x 64). unfold js_or. change 128 with (2 * 2 ^ 6) at 1. rewrite lor_low_high by lia.
  apply i32_small. lia.
Qed.

Lemma cont_bits x : byte_to_Z (cont x) .& 63 = x mod 64.
Proof.
  unfold cont. pose proof (Z.mod_pos_bound x 64). rewrite byte_to_of_Z, Z.mod_small by lia.
  change 63 with (2 ^ 6 - 1). rewrite js_and_ones by lia. change (2 ^ 6) with 64.
  replace (x mod 64 + 128) with (x mod 64 + 2 * 64) by lia. rewrite Z.mod_add, Z.mod_mod by lia. done.
Qed.

(** A leading byte: marker above [n] payload bits. *)
Lemma lead_byte x m n : 0 <= n <= 7 -> 0 <= x < 2 ^ n -> 0 <= m -> m * 2 ^ n + x < 256 -> byte_of_Z (x .| m * 2 ^ n) = byte_of_Z (m * 2 ^ n + x).
Proof. intros Hn Hx Hm Hr. f_equal. destruct (js_or_add x m n); lia. Qed.

Lemma lead_bits x m n : 0 <= n <= 7 -> 0 <= x < 2 ^ n -> 0 <= m -> m * 2 ^ n + x < 256 ->
  byte_to_Z (byte_of_Z (m * 2 ^ n + x)) = m * 2 ^ n + x /\ (m * 2 ^ n + x) .& (2 ^ n - 1) = x.
Proof.
  intros Hn Hx Hm Hr. pose proof (Z.pow_pos_nonneg 2 n). rewrite byte_to_of_Z, Z.mod_small by nia. split; [done|].
  rewrite js_and_ones by lia. rewrite Z.add_comm, Z.mod_add by lia. by apply Z.mod_small.
Qed.

(** The bytes [bs] of one character are read as the units [us]. *)
Definition reads_char (bs : bytes) (us : list Z) : Prop :=
  exists b bs', bs = b :: bs' /\ forall l, read_char (byte_to_Z b) (bs' ++ l) = (us, l).

Lemma read_write1 c : 0 <= c < 128 -> reads_char [byte_of_Z c] [c].
Proof.
  intros Hc. exists (byte_of_Z c), []. split; [done|]. intros l. unfold read_char.
  rewrite byte_to_of_Z, Z.mod_small by lia. destruct (Z.ltb_spec c 128); [done|lia].
Qed.

Lemma read_write2 c : 128 <= c < 2048 -> reads_char (write2 c) [c].
Proof.
  intros Hc. assert (2 <= c / 64 < 32) as Hq by (split; [apply Z.div_le_lower_bound; lia|apply Z.div_lt_upper_bound; lia]).
  unfold write2. rewrite cont_byte, js_sar_small by lia. change (2 ^ 6) with 64.
  change 192 with (6 * 2 ^ 5). rewrite lead_byte by lia.
  eexists _, _. split; [done|]. intros l.
  destruct (lead_bits (c / 64) 6 5) as [-> Hb]; [lia..|]. unfold read_char, take_byte. cbn [app].
  destruct (Z.ltb_spec (6 * 2 ^ 5 + c / 64) 128); [lia|].
  destruct (Z.ltb_spec 191 (6 * 2 ^ 5 + c / 64)); [|lia]. destruct (Z.ltb_spec (6 * 2 ^ 5 + c / 64) 224); [|lia]. cbn [andb].
  change 31 with (2 ^ 5 - 1). rewrite Hb, cont_bits, js_shl_small by lia.
  pose proof (Z.mod_pos_bound c 64). destruct (js_or_add (c mod 64) (c / 64) 6) as [_ ->]; [lia..|].
  pose proof (Z.div_mod c 64). do 2 f_equal. lia.
Qed.

Lemma read_write3 c : 2048 <= c < 0x10000 -> reads_char (write3 c) [c].
Proof.
  intros Hc. assert (0 <= c / 4096 < 16) as Hq by div_range.
  unfold write3. rewrite !cont_byte, !js_sar_small by lia. change (2 ^ 6) with 64. change (2 ^ 12) with 4096.
  change 224 with (14 * 2 ^ 4). rewrite lead_byte by lia.
  eexists _, _. split; [done|]. intros l.
  destruct (lead_bits (c / 4096) 14 4) as [-> Hb]; [lia..|]. unfold read_char, take_byte. cbn [app].
  destruct (Z.ltb_spec (14 * 2 ^ 4 + c / 4096) 128); [lia|]. destruct (Z.ltb_spec (14 * 2 ^ 4 + c / 4096) 224); [lia|].
  destruct (Z.ltb_spec 239 (14 * 2 ^ 4 + c / 4096)); [lia|]. rewrite andb_false_r. cbn [andb].
  change 15 with (2 ^ 4 - 1). rewrite Hb, !cont_bits.
  pose proof (Z.mod_pos_bound c 64). pose proof (Z.mod_pos_bound (c / 64) 64).
  rewrite !js_shl_small by lia.
  replace (c / 4096 * 2 ^ 12) with (c / 4096 * 2 ^ 6 * 2 ^ 6) by lia.
  assert (c / 4096 * 2 ^ 6 * 2 ^ 6 .| (c / 64 mod 64) * 2 ^ 6 = (c / 64) * 2 ^ 6) as ->.
  { replace (c / 4096 * 2 ^ 6 * 2 ^ 6) with (c / 4096 * 2 ^ 12) by lia.
    destruct (js_or_add ((c / 64 mod 64) * 2 ^ 6) (c / 4096) 12) as [_ ->]; [lia..|].
    replace (c / 4096) with (c / 64 / 64) by (by rewrite Z.div_div by lia). pose proof (Z.div_mod (c / 64) 64). lia. }
  assert (0 <= c / 64 < 1024) by div_range.
  destruct (js_or_add (c mod 64) (c / 64) 6) as [_ ->]; [lia..|].
  pose proof (Z.div_mod c 64). do 2 f_equal. lia.
Qed.

(** Six more bits on the right. *)
Lemma or_six a b : 0 <= a < 2 ^ 24 -> 0 <= b < 64 -> a * 2 ^ 6 .| b = a * 64 + b.
Proof. intros Ha Hb. destruct (js_or_add b a 6) as [_ ->]; lia. Qed.

Lemma read_write4 c1 c2 : unit_ok c1 -> unit_ok c2 -> is_high c1 && is_low c2 = true -> reads_char (write4 c1 c2) [c1; c2].
Proof.
  intros Hc1 Hc2 [H1 H2]%andb_true_iff. unfold is_high, is_low in H1, H2.
  apply bool_decide_eq_true in H1, H2. rewrite surrogate_bits in H1, H2 by done.
  pose proof (Z.mod_pos_bound c1 1024). pose proof (Z.mod_pos_bound c2 1024). set (h := c1 mod 1024) in *. set (w := c2 mod 1024) in *.
  unfold write4. change 0x03ff with (2 ^ 10 - 1). rewrite !js_and_ones by lia. change (2 ^ 10) with 1024. fold h w.
  rewrite js_shl_small by lia. cbv zeta. set (c := 0x10000 + h * 2 ^ 10 + w).
  assert (0x10000 <= c < 0x110000) as Hc by lia.
  assert (0 <= c / 2 ^ 18 < 8) as Hq by div_range.
  rewrite !cont_byte, !js_sar_small by lia. change 240 with (30 * 2 ^ 3). rewrite lead_byte by (assert (c / 2 ^ 18 < 5) by (apply Z.div_lt_upper_bound; lia); lia).
  eexists _, _. split; [done|]. intros l.
  assert (c / 2 ^ 18 < 5) as Hq5 by (apply Z.div_lt_upper_bound; lia).
  destruct (lead_bits (c / 2 ^ 18) 30 3) as [-> Hb]; [lia..|]. unfold read_char, take_byte. cbn [app].
  destruct (Z.ltb_spec (30 * 2 ^ 3 + c / 2 ^ 18) 128); [lia|]. destruct (Z.ltb_spec (30 * 2 ^ 3 + c / 2 ^ 18) 224); [lia|].
  rewrite andb_false_r. destruct (Z.ltb_spec 239 (30 * 2 ^ 3 + c / 2 ^ 18)); [|lia].
  destruct (Z.ltb_spec (30 * 2 ^ 3 + c / 2 ^ 18) 365); [|lia]. cbn [andb].
  change 7 with (2 ^ 3 - 1). rewrite Hb, !cont_bits.
  pose proof (Z.mod_pos_bound c 64). pose proof (Z.mod_pos_bound (c / 2 ^ 6) 64). pose proof (Z.mod_pos_bound (c / 2 ^ 12) 64).
  rewrite !js_shl_small by lia.
  assert (c / 2 ^ 18 * 2 ^ 18 .| (c / 2 ^ 12 mod 64) * 2 ^ 12 = c / 2 ^ 12 * 2 ^ 6 * 2 ^ 6) as ->.
  { destruct (js_or_add ((c / 2 ^ 12 mod 64) * 2 ^ 12) (c / 2 ^ 18) 18) as [_ ->]; [lia..|].
    replace (c / 2 ^ 18) with (c / 2 ^ 12 / 64) by (by rewrite Z.div_div by lia). pose proof (Z.div_mod (c / 2 ^ 12) 64). lia. }
  assert (0 <= c / 2 ^ 12 < 2 ^ 9) by div_range. assert (0 <= c / 2 ^ 6 < 2 ^ 15) by div_range.
  assert (c / 2 ^ 12 * 2 ^ 6 * 2 ^ 6 .| (c / 2 ^ 6 mod 64) * 2 ^ 6 = c / 2 ^ 6 * 2 ^ 6) as ->.
  { replace (c / 2 ^ 12 * 2 ^ 6 * 2 ^ 6) with (c / 2 ^ 12 * 2 ^ 12) by lia.
    destruct (js_or_add ((c / 2 ^ 6 mod 64) * 2 ^ 6) (c / 2 ^ 12) 12) as [_ ->]; [lia..|].
    replace (c / 2 ^ 12) with (c / 2 ^ 6 / 64) by (by rewrite Z.div_div by lia). pose proof (Z.div_mod (c / 2 ^ 6) 64). lia. }
  rewrite or_six by lia. change (2 ^ 6) with 64.
  assert (c / 64 * 64 + c mod 64 - 65536 = h * 1024 + w) as -> by (pose proof (Z.div_mod c 64); lia).
  change 1023 with (2 ^ 10 - 1). rewrite js_and_ones, js_sar_small by lia. change (2 ^ 10) with 1024.
  assert ((h * 1024 + w) / 1024 = h) as -> by (rewrite Z.add_comm, Z.div_add, Z.div_small by lia; lia).
  assert ((h * 1024 + w) mod 1024 = w) as -> by (rewrite Z.add_comm, Z.mod_add, Z.mod_small by lia; lia).
  f_equal. f_equal; [lia|]. f_equal. lia.
Qed.

(** ** Round trip *)

(** A written string is a sequence of characters. *)
Lemma write_chars str : Forall unit_ok str -> str = [] /\ utf8Write str = [] \/
  exists us rest bs, str = us ++ rest /\ us <> [] /\ reads_char bs us /\ utf8Write str = bs ++ utf8Write rest /\ (length us <= 2)%nat.
Proof.
  intros Hok. destruct str as [|c rest]; [by left|]. right. apply Forall_cons in Hok as [Hc Hok]. unfold unit_ok in Hc.
  cbn [utf8Write]. destruct (Z.ltb_spec c 128).
  { exists [c], rest, [byte_of_Z c]. split_and!; [done|done|apply read_write1; lia|done|cbn; lia]. }
  destruct (Z.ltb_spec c 2048).
  { exists [c], rest, (write2 c). split_and!; [done|done|apply read_write2; lia|done|cbn; lia]. }
  destruct rest as [|c2 rest].
  { exists [c], [], (write3 c). split_and!; [done|done|apply read_write3; lia|by rewrite app_nil_r|cbn; lia]. }
  destruct (is_high c && is_low c2) eqn:E.
  - apply Forall_cons in Hok as [Hc2 _]. exists [c; c2], rest, (write4 c c2). split_and!; [done|done|by apply (read_write4 c c2 Hc Hc2 E)|done|cbn; lia].
  - exists [c], (c2 :: rest), (write3 c). split_and!; [done|done|apply read_write3; lia|done|cbn; lia].
Qed.

(** What the characters decode to, without the chunking. *)
Lemma decode_units_write str fuel : Forall unit_ok str -> (length (utf8Write str) <= fuel)%nat -> decode_units fuel (utf8Write str) = str.
Proof.
  remember (length str) as n eqn:En. revert str fuel En. induction n as [n IH] using lt_wf_ind. intros str fuel -> Hok Hf.
  destruct (write_chars str Hok) as [[-> ->]|(us & rest & bs & -> & Hne & (b & bs' & -> & Hr) & E & _)]; [by destruct fuel|].
  rewrite E in Hf |- *. destruct fuel as [|fuel]; [cbn in Hf; lia|]. cbn [app decode_units]. rewrite Hr. f_equal.
  apply Forall_app in Hok as [_ Hok]. rewrite length_app in IH. eapply IH; [|done|done|].
  - destruct us; [done|]. cbn. lia.
  - cbn in Hf. rewrite length_app in Hf. lia.
Qed.

Lemma code_units_of str : Forall unit_ok str -> code_units (of_units str) = str.
Proof. intros H. unfold code_units, of_units. rewrite utf8_text. by apply decode_units_write. Qed.

(** The first [i] entries of the array are the units since the last flush; behind
    them there may be units of an earlier round. *)
Definition filled (st : ReadState) : list Z := take (rs_i st) (rs_chunk st).
Definition chunk_ok (st : ReadState) : Prop := (rs_i st <= length (rs_chunk st))%nat.

Lemma push_filled us st : chunk_ok st -> let st' := fold_left chunk_push us st in
  chunk_ok st' /\ filled st' = filled st ++ us /\ rs_i st' = (rs_i st + length us)%nat /\ rs_parts st' = rs_parts st /\
  length (rs_chunk st') = (length (rs_chunk st) `max` (rs_i st + length us))%nat.
Proof.
  unfold chunk_ok, filled. revert st. induction us as [|u us IH]; intros [ch i ps] Hf; cbn [rs_i rs_chunk rs_parts] in *.
  - cbn. rewrite app_nil_r, Nat.add_0_r. split_and!; [done..|lia].
  - cbn [fold_left]. set (st1 := chunk_push _ u).
    assert ((rs_i st1 <= length (rs_chunk st1))%nat /\ take (rs_i st1) (rs_chunk st1) = take i ch ++ [u] /\
      rs_i st1 = S i /\ rs_parts st1 = ps /\ length (rs_chunk st1) = (length ch `max` S i)%nat) as (H1 & H2 & H3 & H4 & H5).
    { subst st1. unfold chunk_push. cbn [rs_i rs_chunk rs_parts]. destruct (Nat.ltb_spec i (length ch)) as [Hi|Hi].
      - rewrite length_insert. split_and!; [lia| |done|done|lia].
        rewrite (take_S_r _ _ u) by (by apply list_lookup_insert_eq). by rewrite take_insert_ge by lia.
      - assert (i = length ch) as -> by lia. rewrite length_app, !take_ge by (rewrite ?length_app; cbn; lia).
        split_and!; [cbn; lia|done|done|done|cbn; lia]. }
    destruct (IH st1 H1) as (G1 & G2 & G3 & G4 & G5). split_and!.
    + exact G1.
    + by rewrite G2, H2, <- app_assoc.
    + rewrite G3, H3. cbn. lia.
    + by rewrite G4.
    + rewrite G5, H5, H3. cbn. lia.
Qed.

(** No flush happens before 8192 units have been stored. *)
Lemma read_loop_prefix str l : Forall unit_ok str -> forall fuel st, chunk_ok st -> (length (utf8Write str ++ l) <= fuel)%nat ->
  Z.of_nat (rs_i st + length str) <= 8191 -> exists fuel' st', read_loop fuel (utf8Write str ++ l) st = read_loop fuel' l st' /\
  (length l <= fuel')%nat /\ chunk_ok st' /\ filled st' = filled st ++ str /\ rs_i st' = (rs_i st + length str)%nat /\
  rs_parts st' = rs_parts st /\ length (rs_chunk st') = (length (rs_chunk st) `max` (rs_i st + length str))%nat.
Proof.
  remember (length str) as n eqn:En. revert str En. induction n as [n IH] using lt_wf_ind. intros str -> Hok fuel st Hf Hfu Hlen.
  destruct (write_chars str Hok) as [[-> ->]|(us & rest & bs & -> & Hne & (b & bs' & -> & Hr) & E & _)].
  { exists fuel, st. cbn. rewrite app_nil_r, Nat.add_0_r. unfold chunk_ok in *. split_and!; [done..|lia]. }
  rewrite E in Hfu |- *. cbn in Hfu. rewrite !length_app in Hfu. destruct fuel as [|fuel]; [lia|].
  cbn [app read_loop]. rewrite <- (app_assoc bs'), Hr.
  destruct (push_filled us st Hf) as (H1 & H2 & H3 & H4 & H5). rewrite length_app in Hlen.
  unfold chunk_flush. rewrite H3, (proj2 (Z.ltb_ge 8191 _)) by lia. apply Forall_app in Hok as [_ Hok].
  destruct (IH (length rest)) with (str := rest) (fuel := fuel) (st := fold_left chunk_push us st)
    as (fuel' & st' & G0 & G1 & G2 & G3 & G4 & G5 & G6);
    [rewrite length_app; destruct us; [done|cbn; lia]|done|done|done|rewrite length_app; lia|lia|].
  exists fuel', st'. rewrite G0, G3, G4, G5, G6, H2, H3, H4, H5, length_app. split_and!; [done|done|done|by rewrite <- app_assoc|lia|done|lia].
Qed.

Definition read_result (st : ReadState) : list Z := rs_parts st ++ filled st.

(** From an empty array, fewer than 16384 units are read back exactly: at most one
    flush happens, and the array it empties is full of fresh units. *)
Lemma read_loop_once str : Forall unit_ok str -> forall fuel ch, (length (utf8Write str) <= fuel)%nat ->
  Z.of_nat (length ch) <= 8191 -> Z.of_nat (length ch + length str) < 16384 ->
  read_result (read_loop fuel (utf8Write str) (MkReadState ch (length ch) [])) = ch ++ str.
Proof.
  remember (length str) as n eqn:En. revert str En. induction n as [n IH] using lt_wf_ind. intros str -> Hok fuel ch Hfu Hch Hlen.
  destruct (write_chars str Hok) as [[-> ->]|(us & rest & bs & -> & Hne & (b & bs' & -> & Hr) & E & Hus)].
  { rewrite app_nil_r. unfold read_result, filled. destruct fuel; cbn; by rewrite firstn_all. }
  rewrite E in Hfu |- *. destruct fuel as [|fuel]; [cbn in Hfu; lia|]. cbn [app read_loop]. rewrite Hr.
  destruct (push_filled us (MkReadState ch (length ch) [])) as (H1 & H2 & H3 & H4 & H5); [unfold chunk_ok; cbn; lia|].
  cbn [rs_i rs_chunk rs_parts] in H3, H4, H5. rewrite Nat.max_r in H5 by lia. rewrite length_app in Hlen.
  apply Forall_app in Hok as [_ Hok]. cbn in Hfu. rewrite length_app in Hfu.
  destruct (fold_left chunk_push us (MkReadState ch (length ch) [])) as [ch1 i1 ps1]. unfold filled in H2.
  cbn in H2, H3, H4, H5. rewrite firstn_all, take_ge in H2 by lia. subst ch1 i1 ps1.
  unfold chunk_flush. cbn [rs_i rs_chunk rs_parts]. destruct (Z.ltb_spec 8191 (Z.of_nat (length ch + length us))) as [Hl|Hl].
  - destruct (read_loop_prefix rest [] Hok fuel (MkReadState (ch ++ us) 0 ([] ++ ch ++ us)))
      as (fuel' & st' & G0 & _ & _ & G1 & _ & G3 & _); [unfold chunk_ok; cbn; lia|rewrite app_nil_r; lia|cbn; lia|].
    rewrite app_nil_r in G0. rewrite G0. assert (read_loop fuel' [] st' = st') as -> by (by destruct fuel').
    unfold read_result. rewrite G1, G3. cbn. by rewrite <- app_assoc.
  - rewrite <- length_app. rewrite (IH (length rest));
      [by rewrite <- app_assoc|rewrite length_app; destruct us; [done|cbn; lia]|done|done|lia|rewrite length_app; lia|rewrite length_app; lia].
Qed.

Lemma utf8Read_result b : utf8Read b = read_result (read_loop (length b) b (MkReadState [] 0 [])).
Proof.
  unfold utf8Read, read_result, filled. destruct (Nat.ltb_spec (length b) 1) as [H|H]; [by destruct b; [|cbn in H; lia]|].
  case_decide as Hi; [|done]. rewrite Hi. cbn. by rewrite app_nil_r.
Qed.

Lemma utf8Read_write str : Forall unit_ok str -> Z.of_nat (length str) < 16384 -> utf8Read (utf8Write str) = str.
Proof. intros Hok Hl. rewrite utf8Read_result. apply (read_loop_once str Hok _ []); cbn; lia. Qed.

Lemma utf8Write_ascii c k rest : 0 <= c < 128 -> utf8Write (replicate k c ++ rest) = utf8Write (replicate k c) ++ utf8Write rest.
Proof.
  intros Hc. induction k as [|k IH]; [done|]. cbn [replicate app utf8Write]. destruct (Z.ltb_spec c 128); [|lia].
  cbn [app]. by rewrite IH.
Qed.

Lemma utf8Write_grin rest : utf8Write ([0xd83d; 0xde00] ++ rest) = write4 0xd83d 0xde00 ++ utf8Write rest.
Proof. done. Qed.

(** 8191 letters, a character outside the basic plane, and 8192 letters. *)
Definition crossing_text : list Z := replicate (Z.to_nat 8191) 97 ++ [0xd83d; 0xde00] ++ replicate (Z.to_nat 8192) 98.

Lemma utf8Read_crossing_length : Z.of_nat (length (utf8Read (utf8Write crossing_text))) = 16386.
Proof.
  unfold crossing_text. rewrite utf8Write_ascii by lia.
  assert (utf8Write ([0xd83d; 0xde00] ++ replicate (Z.to_nat 8192) 98) =
    write4 0xd83d 0xde00 ++ utf8Write (replicate (Z.to_nat 8191) 98) ++ [byte_of_Z 98]) as ->.
  { rewrite utf8Write_grin. apply f_equal.
    replace (Z.to_nat 8192) with (Z.to_nat 8191 + 1)%nat by lia. rewrite replicate_add. by apply utf8Write_ascii. }
  rewrite utf8Read_result. set (b3 := utf8Write (replicate (Z.to_nat 8191) 98) ++ [byte_of_Z 98]).
  destruct (read_loop_prefix (replicate (Z.to_nat 8191) 97) (write4 0xd83d 0xde00 ++ b3)) with (st := MkReadState [] 0 [])
    (fuel := length (utf8Write (replicate (Z.to_nat 8191) 97) ++ write4 0xd83d 0xde00 ++ b3))
    as (f1 & st1 & -> & Hf1 & Hc1 & Hf & Hi1 & Hp1 & Hl1).
  { apply Forall_replicate. unfold unit_ok. lia. } { by unfold chunk_ok. } { done. } { cbn [rs_i]. rewrite length_replicate. lia. }
  rewrite length_replicate in Hi1, Hl1. cbn [rs_i rs_chunk rs_parts length] in Hi1, Hl1, Hp1.
  destruct (read_write4 0xd83d 0xde00) as (b & bs' & Ew & Hr); [by unfold unit_ok|by unfold unit_ok|done|].
  rewrite Ew in Hf1 |- *. destruct f1 as [|f1]; [cbn in Hf1; lia|]. cbn in Hf1. rewrite length_app in Hf1. cbn [app read_loop]. rewrite Hr.
  destruct (push_filled [0xd83d; 0xde00] st1 Hc1) as (_ & _ & Hi2 & Hp2 & Hl2). set (st2 := fold_left _ _ st1) in *.
  cbn [length] in Hi2, Hl2. unfold chunk_flush at 1. destruct (Z.ltb_spec 8191 (Z.of_nat (rs_i st2))); [|lia].
  subst b3. destruct (read_loop_prefix (replicate (Z.to_nat 8191) 98) [byte_of_Z 98]) with
    (st := MkReadState (rs_chunk st2) 0 (rs_parts st2 ++ rs_chunk st2)) (fuel := f1)
    as (f3 & st3 & -> & Hf3 & Hc3 & _ & Hi3 & Hp3 & Hl3).
  { apply Forall_replicate. unfold unit_ok. lia. } { unfold chunk_ok. cbn. lia. } { lia. } { cbn [rs_i]. rewrite length_replicate. lia. }
  rewrite length_replicate in Hi3, Hl3. cbn [rs_i rs_chunk rs_parts length] in Hi3, Hl3, Hp3.
  destruct (read_write1 98) as (b1 & bs1 & E1 & Hr1); [lia|]. injection E1 as <- <-.
  destruct f3 as [|f3]; [cbn in Hf3; lia|]. cbn [read_loop]. specialize (Hr1 []). cbn [app] in Hr1. rewrite Hr1.
  destruct (push_filled [98] st3 Hc3) as (_ & _ & Hi4 & Hp4 & Hl4). set (st4 := fold_left _ [98] st3) in *. cbn [length] in Hi4, Hl4.
  unfold chunk_flush. destruct (Z.ltb_spec 8191 (Z.of_nat (rs_i st4))); [|lia].
  assert (read_loop f3 [] (MkReadState (rs_chunk st4) 0 (rs_parts st4 ++ rs_chunk st4)) =
    MkReadState (rs_chunk st4) 0 (rs_parts st4 ++ rs_chunk st4)) as -> by (by destruct f3).
  unfold read_result, filled. cbn [rs_parts rs_i rs_chunk take]. rewrite app_nil_r, Hp4, Hp3, Hp2, Hp1, !length_app. cbn [length]. lia.
Qed.
