(* ===== verification/Binary.v ===== *)
(** * The protobuf reader and writer ([proto-types/src/binary.ts])

    The writer collects operations and lays them out when it is finished; [fork] and
    [ldelim] bracket a nested message whose length is only known at its end.  The
    linked list of operations between [head] and [tail] is a list here. *)

From Stdlib Require Import ZArith Lia.
From S2P Require Import Prelude JsNumber JsString Varint Utf8.

#[local] Open Scope Z_scope.
#[local] Open Scope js_scope.

(** ** Reader *)

Definition new_reader (buf : bytes) : BinaryReader := MkReader buf 0 (Z.of_nat (length buf)).

Definition indexOutOfRange (r : BinaryReader) (writeLength : option Z) : error :=
  JsError ("index out of range: " +:+ pretty (r_pos r) +:+ " + " +:+
           pretty (match writeLength with None | Some 0 => 1 | Some n => n end) +:+ " > " +:+ pretty (r_len r)).

Definition r_uint32 : M BinaryReader Z := varint32read.

Definition r_tag : M BinaryReader (Z * Z * Z) :=
  tag ← r_uint32;
  let fieldNo := tag .>>> 3 in
  let wireType := tag .& 7 in
  if (fieldNo <=? 0) || (wireType <? 0) || (5 <? wireType) then
    raise (JsError ("illegal tag: field no " +:+ pretty fieldNo +:+ " wire type " +:+ pretty wireType))
  else mret (fieldNo, wireType, tag).

(** [skip(length)] *)
Definition skip_n (length : Z) : M BinaryReader unit :=
  r ← gets (fun r => r);
  if r_len r <? r_pos r + length then raise (indexOutOfRange r (Some length))
  else modify (fun r => set_pos (r_pos r + length) r).

(** [skip()]: over a varint; each round needs a byte of the buffer. *)
Fixpoint skip_varint (fuel : nat) : M BinaryReader unit :=
  match fuel with
  | O => raise OutOfFuel
  | S fuel' =>
      r ← gets (fun r => r);
      if r_len r <=? r_pos r then raise (indexOutOfRange r None)
      else b ← next_byte; if decide (b .& 128 = 0) then mret tt else skip_varint fuel'
  end.

(** A group is skipped field by field up to its end tag. *)
Fixpoint skipType_go (fuel : nat) (wireType : Z) : M BinaryReader unit :=
  match fuel with
  | O => raise OutOfFuel
  | S fuel' =>
      match wireType with
      | 0 => n ← gets (fun r => S (length (r_buf r))); skip_varint n
      | 1 => skip_n 8
      | 2 => n ← r_uint32; skip_n n
      | 3 => skip_group fuel'
      | 5 => skip_n 4
      | _ => pos ← gets r_pos;
             raise (JsError ("invalid wire type " +:+ pretty wireType +:+ " at offset " +:+ pretty pos))
      end
  end
with skip_group (fuel : nat) : M BinaryReader unit :=
  match fuel with
  | O => raise OutOfFuel
  | S fuel' =>
      tag ← r_uint32;
      let wireType := tag .& 7 in
      if decide (wireType = 4) then mret tt else skipType_go fuel' wireType ;; skip_group fuel'
  end.

(** Two calls per byte left are enough. *)
Definition skipType (wireType : Z) : M BinaryReader unit :=
  fuel ← gets (fun r => (2 * length (r_buf r) + 3)%nat);
  skipType_go fuel wireType.

Definition r_int32 : M BinaryReader Z := v ← r_uint32; mret (v .| 0).
Definition r_sint32 : M BinaryReader Z :=
  num ← r_uint32; mret (if decide (num mod 2 = 1) then - ((num + 1) / 2) else num / 2).
Definition r_fixed32 : M BinaryReader (option Z) :=
  v ← gets (fun r => readUInt32 (r_buf r) (r_pos r)); modify (fun r => set_pos (r_pos r + 4) r) ;; mret v.
Definition r_sfixed32 : M BinaryReader Z :=
  v ← gets (fun r => readInt32 (r_buf r) (r_pos r)); modify (fun r => set_pos (r_pos r + 4) r) ;; mret v.
Definition r_int64 : M BinaryReader Z := '(lo, hi) ← varint64read; liftR (BigInt (int64ToString lo hi)).
Definition r_uint64 : M BinaryReader Z := '(lo, hi) ← varint64read; liftR (BigInt (uInt64ToString lo hi)).
Definition r_sint64 : M BinaryReader Z :=
  '(lo, hi) ← varint64read; let '(lo, hi) := zzDecode lo hi in liftR (BigInt (int64ToString lo hi)).
Definition r_fixed64 : M BinaryReader Z := lo ← r_sfixed32; hi ← r_sfixed32; liftR (BigInt (uInt64ToString lo hi)).
Definition r_sfixed64 : M BinaryReader Z := lo ← r_sfixed32; hi ← r_sfixed32; liftR (BigInt (int64ToString lo hi)).
Definition r_bool : M BinaryReader bool :=
  '(lo, hi) ← varint64read; mret (negb (bool_decide (lo = 0) && bool_decide (hi = 0))).

Definition r_bytes : M BinaryReader bytes :=
  len ← r_uint32;
  start ← gets r_pos;
  modify (fun r => set_pos (r_pos r + len) r) ;;
  assertBounds ;;
  gets (fun r => take (Z.to_nat len) (drop (Z.to_nat start) (r_buf r))).

Definition r_string : M BinaryReader string := b ← r_bytes; mret (of_units (utf8Read b)).

(** ** Writer *)

Inductive OpFn :=
| OpVarint32 (val : Z)
| OpVarint64 (lo hi : Z)
| OpFixed32 (val : Z)
| OpByte (val : Z)
| OpBytes (val : bytes)
| OpUtf8 (val : list Z).

Record Op := MkOp { op_fn : OpFn; op_len : Z }.

(** What [fn(val, buf, pos)] stores from [pos] on. *)
Definition op_bytes (fn : OpFn) : bytes :=
  match fn with
  | OpVarint32 val => writeVarint32 val
  | OpVarint64 lo hi => writeVarint64 lo hi
  | OpFixed32 val => writeFixed32 val
  | OpByte val => writeByte val
  | OpBytes val => val
  | OpUtf8 val => utf8Write val
  end.

Record BinaryWriter := MkWriter { w_len : Z; w_ops : list Op; w_states : list (list Op * Z) }.

Definition create : BinaryWriter := MkWriter 0 [] [].

Definition push_op (fn : OpFn) (len : Z) (w : BinaryWriter) : BinaryWriter :=
  MkWriter (w_len w + len) (w_ops w ++ [MkOp fn len]) (w_states w).

(** Bytes stored outside the buffer are dropped. *)
Definition finish_step (st : bytes * Z) (op : Op) : bytes * Z :=
  (list_inserts (Z.to_nat st.2) (op_bytes (op_fn op)) st.1, st.2 + op_len op).
Definition finish (w : BinaryWriter) : bytes :=
  (fold_left finish_step (w_ops w) (replicate (Z.to_nat (w_len w)) x00, 0)).1.

Definition fork (w : BinaryWriter) : BinaryWriter := MkWriter 0 [] ((w_ops w, w_len w) :: w_states w).

Definition reset (w : BinaryWriter) : BinaryWriter :=
  match w_states w with
  | (ops, len) :: next => MkWriter len ops next
  | [] => MkWriter 0 [] []
  end.

Definition uint32_length (value : Z) : Z :=
  if value <? 128 then 1 else if value <? 16384 then 2 else if value <? 2097152 then 3
  else if value <? 268435456 then 4 else 5.

Definition w_uint32 (value : Z) (w : BinaryWriter) : BinaryWriter :=
  let value := value .>>> 0 in push_op (OpVarint32 value) (uint32_length value) w.

Definition ldelim (w : BinaryWriter) : BinaryWriter :=
  let w' := w_uint32 (w_len w) (reset w) in
  if decide (w_len w = 0) then w' else MkWriter (w_len w' + w_len w) (w_ops w' ++ w_ops w) (w_states w').

Definition w_tag (fieldNo type : Z) (w : BinaryWriter) : BinaryWriter := w_uint32 ((fieldNo .<< 3 .| type) .>>> 0) w.

Definition w_int32 (value : Z) (w : BinaryWriter) : BinaryWriter :=
  if value <? 0 then let '(lo, hi) := int64FromString (pretty value) in push_op (OpVarint64 lo hi) 10 w
  else w_uint32 value w.

Definition w_sint32 (value : Z) (w : BinaryWriter) : BinaryWriter := w_uint32 ((value .<< 1 .^ value .>> 31) .>>> 0) w.

Definition w_int64 (value : Z) (w : BinaryWriter) : BinaryWriter :=
  let '(lo, hi) := int64FromString (pretty value) in push_op (OpVarint64 lo hi) (int64Length lo hi) w.
Definition w_uint64 (value : Z) (w : BinaryWriter) : BinaryWriter := w_int64 value w.

Definition w_sint64 (value : Z) (w : BinaryWriter) : BinaryWriter :=
  let '(lo, hi) := int64FromString (pretty value) in
  let '(lo, hi) := zzEncode lo hi in push_op (OpVarint64 lo hi) (int64Length lo hi) w.

Definition w_fixed64 (value : Z) (w : BinaryWriter) : BinaryWriter :=
  let '(lo, hi) := int64FromString (pretty value) in push_op (OpFixed32 hi) 4 (push_op (OpFixed32 lo) 4 w).
Definition w_fixed32 (value : Z) (w : BinaryWriter) : BinaryWriter := push_op (OpFixed32 (value .>>> 0)) 4 w.

Definition w_bool (value : bool) (w : BinaryWriter) : BinaryWriter := push_op (OpByte (if value then 1 else 0)) 1 w.

Definition w_bytes (value : bytes) (w : BinaryWriter) : BinaryWriter :=
  let len := Z.of_nat (length value) .>>> 0 in
  if decide (len = 0) then push_op (OpByte 0) 1 w else push_op (OpBytes value) len (w_uint32 len w).

Definition w_string (value : string) (w : BinaryWriter) : BinaryWriter :=
  let len := utf8Length (code_units value) in
  if decide (len = 0) then push_op (OpByte 0) 1 w else push_op (OpUtf8 (code_units value)) len (w_uint32 len w).

(** ** Message loops

    Every generated [decode] has this loop: it reads a tag, and a field's [case] or
    [skipType], while the position is below [end].  [field] is the [switch] on the
    tag; [None] is its default case. *)

Section decode.
Context {A : Type} (field : Z -> A -> option (M BinaryReader A)).

Fixpoint decode_loop (fuel : nat) (endp : Z) (message : A) : M BinaryReader A :=
  match fuel with
  | O => raise OutOfFuel
  | S fuel' =>
      pos ← gets r_pos;
      if endp <=? pos then mret message else
      tag ← r_uint32;
      message' ← match field tag message with
                 | Some m => m
                 | None => skipType (tag .& 7) ;; mret message
                 end;
      decode_loop fuel' endp message'
  end.

(** [decode(reader, length)]: a nested message. *)
Definition decode_nested (base : A) (length : Z) : M BinaryReader A :=
  r ← gets (fun r => r);
  decode_loop (S (List.length (r_buf r))) (r_pos r + length) base.

(** [decode(bytes)] *)
Definition decode_bytes (base : A) (input : bytes) : result A :=
  (decode_loop (S (length input)) (Z.of_nat (length input)) base (new_reader input)).1.
End decode.

(** ** Reader and writer against the wire format

    [emits f b]: the method [f] appends the bytes [b] to what the writer will lay
    out.  [reads m b a] (from Varint): the method [m] consumes exactly [b] and
    returns [a].  A field is written and read correctly when both hold of the same
    bytes. *)

#[local] Open Scope Z_scope.
#[local] Open Scope js_scope.

(** ** Writer *)

Definition op_ok (op : Op) : Prop := op_len op = Z.of_nat (length (op_bytes (op_fn op))).
Definition ops_image (ops : list Op) : bytes := ops ≫= (fun op => op_bytes (op_fn op)).
Definition ops_ok (ops : list Op) (len : Z) : Prop := Forall op_ok ops /\ len = Z.of_nat (length (ops_image ops)).

Definition image (w : BinaryWriter) : bytes := ops_image (w_ops w).
Definition writer_ok (w : BinaryWriter) : Prop := ops_ok (w_ops w) (w_len w) /\ Forall (fun s => ops_ok s.1 s.2) (w_states w).

Definition emits (f : BinaryWriter -> BinaryWriter) (b : bytes) : Prop :=
  forall w, writer_ok w -> writer_ok (f w) /\ image (f w) = image w ++ b /\ w_states (f w) = w_states w.

Lemma ops_image_app a b : ops_image (a ++ b) = ops_image a ++ ops_image b.
Proof. apply bind_app. Qed.

Lemma create_ok : writer_ok create.
Proof. by repeat split; constructor. Qed.

(** Laying out the operations concatenates their bytes. *)
Lemma finish_go ops a z : Forall op_ok ops -> length z = length (ops_image ops) ->
  fold_left finish_step ops (a ++ z, Z.of_nat (length a)) = (a ++ ops_image ops, Z.of_nat (length (a ++ ops_image ops))).
Proof.
  revert a z. induction ops as [|op ops IH]; intros a z Hok Hz; cbn [fold_left].
  - cbn in Hz. apply nil_length_inv in Hz as ->. cbn. by rewrite app_nil_r.
  - apply Forall_cons in Hok as [Ho Hok]. unfold finish_step at 2. cbn [fst snd]. rewrite Ho.
    change (ops_image (op :: ops)) with (op_bytes (op_fn op) ++ ops_image ops) in Hz |- *.
    set (b := op_bytes (op_fn op)) in *. rewrite length_app in Hz.
    assert (list_inserts (Z.to_nat (Z.of_nat (length a))) b (a ++ z) = (a ++ b) ++ drop (length b) z) as ->.
    { rewrite Nat2Z.id. rewrite <- (take_drop (length b) z) at 1. rewrite <- app_assoc.
      rewrite <- (Nat.add_0_r (length a)), list_inserts_app_r. f_equal.
      rewrite list_inserts_0_r by (rewrite length_take; lia). done. }
    assert (Z.of_nat (length a) + Z.of_nat (length b) = Z.of_nat (length (a ++ b))) as -> by (rewrite length_app; lia).
    rewrite IH by (try done; rewrite length_drop; lia). by rewrite <- app_assoc.
Qed.

Lemma finish_image w : writer_ok w -> finish w = image w.
Proof.
  intros [[Hok Hl] _]. unfold finish, image. rewrite Hl, Nat2Z.id.
  pose proof (finish_go (w_ops w) [] (replicate (length (ops_image (w_ops w))) x00) Hok) as E.
  rewrite length_replicate in E. exact (f_equal fst (E eq_refl)).
Qed.

Lemma emits_finish f b : emits f b -> finish (f create) = b.
Proof. intros H. destruct (H create create_ok) as (Hok & Hi & _). rewrite finish_image by done. by rewrite Hi. Qed.

Lemma emits_id : emits (fun w => w) [].
Proof. intros w Hw. by rewrite app_nil_r. Qed.

Lemma emits_comp f g a b : emits f a -> emits g b -> emits (fun w => g (f w)) (a ++ b).
Proof.
  intros Hf Hg w Hw. destruct (Hf w Hw) as (H1 & H2 & H3). destruct (Hg (f w) H1) as (G1 & G2 & G3).
  split_and!; [done| |congruence]. by rewrite G2, H2, app_assoc.
Qed.

Lemma emits_push fn len : len = Z.of_nat (length (op_bytes fn)) -> emits (push_op fn len) (op_bytes fn).
Proof.
  intros Hl w [[Hok Hlen] Hst]. unfold push_op, writer_ok, image, ops_ok. cbn [w_len w_ops w_states].
  rewrite ops_image_app. assert (ops_image [MkOp fn len] = op_bytes fn) as -> by (cbn; by rewrite app_nil_r).
  split_and!; [|rewrite length_app; lia|done|done|done]. apply Forall_app. split; [done|]. by constructor.
Qed.

Lemma uint32_length_spec v : 0 <= v < 2 ^ 32 -> uint32_length v = Z.of_nat (length (writeVarint32 v)).
Proof.
  intros Hv. rewrite writeVarint32_spec by done. unfold uint32_length.
  assert (forall k, (k = 0%nat \/ 128 ^ Z.of_nat k <= v) -> v < 128 ^ Z.of_nat (S k) -> (k < 10)%nat ->
    Z.of_nat (length (varint v)) = Z.of_nat (S k)) as Hlen
    by (intros k ? ? ?; f_equal; apply length_leb128; [lia|done|done]).
  repeat case_match; symmetry;
    repeat match goal with H : (_ <? _) = true |- _ => apply Z.ltb_lt in H | H : (_ <? _) = false |- _ => apply Z.ltb_ge in H end.
  1: apply (Hlen 0%nat); [by left|pow_norm; lia|lia].
  all: match goal with |- _ = ?n => let k := eval vm_compute in (Z.to_nat (n - 1)) in apply (Hlen k) end;
    [right; pow_norm; lia|pow_norm; lia|lia].
Qed.

Lemma emits_uint32 v : emits (w_uint32 v) (varint (u32 v)).
Proof.
  unfold w_uint32. rewrite js_shr_0. pose proof (u32_range v). rewrite <- writeVarint32_spec by done.
  apply (emits_push (OpVarint32 (u32 v))). by apply uint32_length_spec.
Qed.

Lemma emits_uint32_small v : 0 <= v < 2 ^ 32 -> emits (w_uint32 v) (varint v).
Proof. intros Hv. pose proof (emits_uint32 v) as H. by rewrite u32_small in H. Qed.

Lemma emits_varint64 lo hi : emits (push_op (OpVarint64 lo hi) (int64Length lo hi)) (varint (word64 lo hi)).
Proof.
  rewrite <- writeVarint64_spec. apply (emits_push (OpVarint64 lo hi)). cbn [op_bytes].
  by rewrite writeVarint64_spec, int64Length_spec.
Qed.

(** 64-bit two's complement. *)
Definition u64 (v : Z) : Z := v mod 2 ^ 64.

Lemma word64_split v : word64 (i32 v) (i32 (v / 2 ^ 32)) = u64 v.
Proof.
  unfold word64, u64. rewrite !u32_i32. unfold u32. change (2 ^ 64) with (2 ^ (32 + 32)). rewrite <- mod_group by lia. lia.
Qed.

Lemma emits_int64 v : Z.abs v < 10 ^ 24 -> emits (w_int64 v) (varint (u64 v)).
Proof.
  intros Hv. unfold w_int64. rewrite int64FromString_pretty, <- word64_split by done. apply emits_varint64.
Qed.

(** A negative 32-bit value takes ten bytes. *)
Lemma emits_int32 v : - 2 ^ 31 <= v < 2 ^ 31 -> emits (w_int32 v) (varint (u64 v)).
Proof.
  intros Hv. unfold w_int32. destruct (Z.ltb_spec v 0) as [Hn|Hp].
  - rewrite int64FromString_pretty by lia.
    assert (10 = int64Length (i32 v) (i32 (v / 2 ^ 32))) as ->; [|rewrite <- word64_split; apply emits_varint64].
    rewrite int64Length_spec, word64_split. symmetry. unfold varint. rewrite (length_leb128 10 (u64 v) 9); [done| | |lia].
    + pow_norm. pose proof (Z.mod_pos_bound v (2 ^ 64)). unfold u64. lia.
    + right. pow_norm. unfold u64. replace v with (v + 2 ^ 64 + -1 * 2 ^ 64) by lia. rewrite Z.mod_add, Z.mod_small; lia.
  - unfold u64. rewrite Z.mod_small by lia. apply emits_uint32_small. lia.
Qed.

Lemma emits_bool v : emits (w_bool v) [if v : bool then x01 else x00].
Proof. unfold w_bool. destruct v; [exact (emits_push (OpByte 1) 1 eq_refl)|exact (emits_push (OpByte 0) 1 eq_refl)]. Qed.

Lemma varint_0 : varint 0 = [x00].
Proof. done. Qed.

Definition short (b : bytes) : Prop := Z.of_nat (length b) < 2 ^ 32.

Lemma emits_bytes b : short b -> emits (w_bytes b) (varint (Z.of_nat (length b)) ++ b).
Proof.
  intros Hb. unfold short in Hb. unfold w_bytes. rewrite js_shr_0, u32_small by lia. case_decide as H0.
  - destruct b; [|cbn in H0; lia]. exact (emits_push (OpByte 0) 1 eq_refl).
  - apply (emits_comp (w_uint32 _) (push_op (OpBytes b) _)); [apply emits_uint32_small; lia|]. by apply (emits_push (OpBytes b)).
Qed.

(** A text of JavaScript: the UTF-8 form of a sequence of code units the reader
    gives back. *)
Definition js_string (s : string) : Prop :=
  exists u, s = of_units u /\ Forall unit_ok u /\ Z.of_nat (length u) < 16384.

Lemma js_string_units s : js_string s -> utf8Write (code_units s) = utf8 s /\ of_units (utf8Read (utf8 s)) = s.
Proof.
  intros (u & -> & Hu & Hl). rewrite code_units_of by done. unfold of_units at 1. rewrite utf8_text. split; [done|].
  unfold of_units at 2. rewrite utf8_text. by rewrite utf8Read_write.
Qed.

Lemma emits_string s : js_string s -> short (utf8 s) -> emits (w_string s) (varint (Z.of_nat (str_length s)) ++ utf8 s).
Proof.
  intros Hs Hb. destruct (js_string_units s Hs) as [Hu _]. unfold short in Hb. unfold str_length.
  unfold w_string. rewrite <- utf8Length_write, Hu. case_decide as H0.
  - destruct (utf8 s); [|cbn in H0; lia]. exact (emits_push (OpByte 0) 1 eq_refl).
  - apply (emits_comp (w_uint32 _) (push_op (OpUtf8 _) _)); [apply emits_uint32_small; lia|].
    pose proof (emits_push (OpUtf8 (code_units s)) (Z.of_nat (length (utf8 s)))) as H. cbn [op_bytes] in H.
    rewrite Hu in H. by apply H.
Qed.

(** The bracket of a nested message. *)
Lemma emits_nested f b : emits f b -> short b -> emits (fun w => ldelim (f (fork w))) (varint (Z.of_nat (length b)) ++ b).
Proof.
  intros Hf Hb w [Hw Hst]. unfold short in Hb.
  destruct (Hf (fork w)) as ([[Hok Hlen] _] & Hi & Hs).
  { split; [split; [constructor|done]|]. cbn [fork w_states]. by constructor. }
  unfold image in Hi. cbn [fork w_ops ops_image app] in Hi. change (ops_image []) with (@nil byte) in Hi. cbn [app] in Hi.
  rewrite Hi in Hlen. unfold ldelim, reset. rewrite Hs. cbn [fork w_states]. rewrite Hlen.
  destruct (emits_uint32 (Z.of_nat (length b)) (MkWriter (w_len w) (w_ops w) (w_states w))) as ([[Hok' Hlen'] Hst'] & Hi' & Hs');
    [by split|]. rewrite u32_small in Hi' by lia. set (w' := w_uint32 _ _) in *. unfold image in Hi'. cbn [w_ops w_states] in Hi', Hs'.
  case_decide as H0.
  - destruct b; [|cbn in H0; lia]. split_and!; [by split|unfold image; by rewrite Hi', app_nil_r|done].
  - unfold writer_ok, image, ops_ok. cbn [w_len w_ops w_states]. rewrite ops_image_app, Hi, Hi'.
    split_and!; [|rewrite Hlen', Hi', !length_app; lia|by rewrite Hs'| |done].
    + apply Forall_app. by split.
    + by rewrite app_assoc.
Qed.

(** ** Reader *)

Lemma reads_uint32 v : 0 <= v < 2 ^ 32 -> reads r_uint32 (varint v) v.
Proof. intros Hv. pose proof (varint32read_spec v ltac:(lia)) as H. by rewrite u32_small in H. Qed.

Lemma u64_range v : 0 <= u64 v < 2 ^ 64.
Proof. apply Z.mod_pos_bound. lia. Qed.

Lemma reads_map {A B} (m : M BinaryReader A) (f : A -> M BinaryReader B) b a c :
  reads m b a -> reads (f a) [] c -> reads (m ≫= f) b c.
Proof. intros H1 H2. eapply (reads_bind' _ _ _ b []); [by rewrite app_nil_r|done|done]. Qed.

Lemma reads_int32 v : - 2 ^ 31 <= v < 2 ^ 31 -> reads r_int32 (varint (u64 v)) v.
Proof.
  intros Hv. eapply reads_map; [apply varint32read_spec, u64_range|]. rewrite js_or_0, i32_u32.
  assert (i32 (u64 v) = v) as ->; [|apply reads_ret]. rewrite <- (i32_small v) at 2 by done. apply i32_eq. unfold u32, u64.
  rewrite Z.mod_mod_divide; [done|by exists (2 ^ 32)].
Qed.

Lemma reads_lift {A} (r : result A) a : r = Ok a -> reads (liftR r) [] a.
Proof. intros ->. apply reads_ret. Qed.

(** [varint64read] on the words of [v]. *)
Lemma reads_words v : reads varint64read (varint (u64 v)) (i32 v, i32 (v / 2 ^ 32)).
Proof.
  pose proof (varint64read_spec (u64 v) (u64_range v)) as H.
  assert (i32 (u64 v) = i32 v) as E1.
  { apply i32_eq. unfold u32, u64. rewrite Z.mod_mod_divide; [done|by exists (2 ^ 32)]. }
  assert (i32 (u64 v / 2 ^ 32) = i32 (v / 2 ^ 32)) as E2.
  { apply i32_eq. unfold u32, u64. change (2 ^ 64) with (2 ^ 32 * 2 ^ 32). rewrite Z.rem_mul_r by lia.
    rewrite (Z.mul_comm (2 ^ 32)), Z.div_add, Z.div_small, Z.add_0_l, Z.mod_mod by (try apply Z.mod_pos_bound; lia). done. }
  by rewrite E1, E2 in H.
Qed.

Lemma reads_uint64 v : reads r_uint64 (varint (u64 v)) (u64 v).
Proof.
  eapply reads_map; [apply reads_words|]. cbn [fst snd]. apply reads_lift.
  by rewrite uInt64ToString_spec, word64_split, BigInt_pretty_Z.
Qed.

Lemma reads_int64 v : - 2 ^ 63 <= v < 2 ^ 63 -> reads r_int64 (varint (u64 v)) v.
Proof.
  intros Hv. eapply reads_map; [apply reads_words|]. cbn [fst snd]. apply reads_lift.
  rewrite int64ToString_spec, BigInt_pretty_Z. f_equal. unfold int64_value. rewrite i32_i32, u32_i32.
  assert (- 2 ^ 31 <= v / 2 ^ 32 < 2 ^ 31) as Hq.
  { split; [apply Z.div_le_lower_bound; lia|apply Z.div_lt_upper_bound; lia]. }
  rewrite i32_small by done. unfold u32. pose proof (Z.div_mod v (2 ^ 32)). lia.
Qed.

Lemma reads_bool v : reads r_bool [if v : bool then x01 else x00] v.
Proof.
  destruct v.
  - eapply reads_map; [exact (reads_words 1)|]. apply reads_ret.
  - eapply reads_map; [exact (reads_words 0)|]. apply reads_ret.
Qed.

Lemma reads_bytes b : short b -> reads r_bytes (varint (Z.of_nat (length b)) ++ b) b.
Proof.
  intros Hb. unfold short in Hb. eapply reads_bind; [apply reads_uint32; lia|].
  intros pre post. cbv zeta. unfold mbind, M_bind, gets, modify, set_pos, assertBounds. cbn.
  unfold mbind, M_bind, gets. cbn. rewrite !length_app.
  destruct (Z.ltb_spec (Z.of_nat (length pre + (length b + length post))) (Z.of_nat (length pre) + Z.of_nat (length b))); [lia|].
  cbn. rewrite !Nat2Z.id, drop_app_length, take_app_length. do 2 f_equal. lia.
Qed.

Lemma reads_string s : js_string s -> short (utf8 s) -> reads r_string (varint (Z.of_nat (str_length s)) ++ utf8 s) s.
Proof.
  intros Hs Hb. eapply reads_map; [by apply reads_bytes|]. cbv beta. destruct (js_string_units s Hs) as [_ E].
  rewrite E. apply reads_ret.
Qed.

(** ** Message loops *)

Section fields.
Context {A : Type} (field : Z -> A -> option (M BinaryReader A)).

(** One round of the loop. *)
Definition step_reads (b : bytes) (m m' : A) : Prop :=
  b <> [] /\
  reads (tag ← r_uint32;
         match field tag m with Some mm => mm | None => skipType (tag .& 7) ;; mret m end) b m'.

(** The bytes [b] are a sequence of rounds that takes the message from [m] to [m']. *)
Inductive fields_read : bytes -> A -> A -> Prop :=
| fields_nil m : fields_read [] m m
| fields_cons b1 b2 m m1 m2 : step_reads b1 m m1 -> fields_read b2 m1 m2 -> fields_read (b1 ++ b2) m m2.

Lemma fields_app b1 b2 m m1 m2 : fields_read b1 m m1 -> fields_read b2 m1 m2 -> fields_read (b1 ++ b2) m m2.
Proof.
  intros H. revert b2 m2. induction H as [m|c1 c2 m m1 m' Hs Hr IH]; intros b2 m2 H2; [done|].
  rewrite <- app_assoc. econstructor; [exact Hs|by apply IH].
Qed.

Lemma fields_one b m m' : step_reads b m m' -> fields_read b m m'.
Proof. intros H. rewrite <- (app_nil_r b). econstructor; [exact H|constructor]. Qed.

Lemma fields_opt (c : bool) b m m' : (c = true -> fields_read b m m') -> (c = false -> m' = m) -> fields_read (if c then b else []) m m'.
Proof. destruct c; [auto|]. intros _ H. rewrite H by done. constructor. Qed.

Lemma varint_nonempty n : varint n <> [].
Proof. unfold varint. cbn [leb128]. by destruct (n <? 128). Qed.

(** A tag and its payload. *)
Lemma step_field tag payload mm m m' : 0 <= tag < 2 ^ 32 -> field tag m = Some mm -> reads mm payload m' ->
  step_reads (varint tag ++ payload) m m'.
Proof.
  intros Ht Hf Hr. split; [intros [H _]%app_nil; by apply (varint_nonempty tag)|].
  eapply reads_bind; [by apply reads_uint32|]. cbv beta. by rewrite Hf.
Qed.

Lemma decode_loop_reads b m m' : fields_read b m m' -> forall fuel pre post, (length b < fuel)%nat ->
  let buf := pre ++ b ++ post in let len := Z.of_nat (length buf) in
  decode_loop field fuel (Z.of_nat (length pre + length b)) m (MkReader buf (Z.of_nat (length pre)) len) =
  (Ok m', MkReader buf (Z.of_nat (length pre + length b)) len).
Proof.
  induction 1 as [m|b1 b2 m m1 m2 [Hne Hs] _ IH]; intros fuel pre post Hf; cbv zeta.
  - destruct fuel as [|fuel]; [cbn in Hf; lia|]. cbn [decode_loop]. unfold mbind, M_bind, gets. cbn [r_pos length].
    rewrite Nat.add_0_r. by rewrite Z.leb_refl.
  - destruct fuel as [|fuel]; [lia|]. rewrite length_app in Hf.
    assert (0 < length b1)%nat as Hb1 by (destruct b1; [done|cbn; lia]).
    cbn [decode_loop]. unfold mbind at 1, M_bind at 1, gets at 1. cbn [r_pos].
    destruct (Z.leb_spec (Z.of_nat (length pre + length (b1 ++ b2))) (Z.of_nat (length pre))) as [Hl|Hl]; [rewrite length_app in Hl; lia|].
    specialize (Hs pre (b2 ++ post)). cbv zeta in Hs. rewrite <- app_assoc.
    unfold mbind, M_bind in Hs |- *. destruct (r_uint32 _) as [[tag|e] r] eqn:E1; [|discriminate Hs].
    rewrite Hs. specialize (IH fuel (pre ++ b1) post ltac:(lia)). cbv zeta in IH.
    rewrite !length_app in IH |- *. rewrite <- !app_assoc in IH.
    replace (length pre + (length b1 + length b2))%nat with (length pre + length b1 + length b2)%nat by lia.
    replace (length pre + length b1 + (length b2 + length post))%nat with (length pre + (length b1 + (length b2 + length post)))%nat in IH by lia.
    rewrite IH. done.
Qed.

Lemma reads_nested base b m' : fields_read b base m' -> reads (decode_nested field base (Z.of_nat (length b))) b m'.
Proof.
  intros H pre post. cbv zeta. unfold decode_nested. unfold mbind at 1, M_bind at 1, gets at 1. cbn [r_buf r_pos].
  rewrite <- Nat2Z.inj_add. apply (decode_loop_reads b base m' H). rewrite !length_app. lia.
Qed.

Lemma decode_bytes_reads base b m' : fields_read b base m' -> decode_bytes field base b = Ok m'.
Proof.
  intros H. unfold decode_bytes, new_reader.
  pose proof (decode_loop_reads b base m' H (S (length b)) [] [] ltac:(lia)) as E. cbv zeta in E. cbn [app length] in E.
  rewrite app_nil_r in E. exact (f_equal fst E).
Qed.
End fields.

(** ** Progress and termination *)

Definition reader_ok (r : BinaryReader) : Prop := 0 <= r_pos r <= r_len r /\ r_len r = Z.of_nat (length (r_buf r)).

(** From a position inside the buffer, the method either fails with an error of the
    code or moves on by at least [k] bytes inside the same buffer. *)
Definition moves {A} (k : Z) (m : M BinaryReader A) : Prop := forall r, reader_ok r ->
  match m r with
  | (Ok _, r') => reader_ok r' /\ r_buf r' = r_buf r /\ r_pos r + k <= r_pos r'
  | (Err e, _) => e <> OutOfFuel
  end.

Lemma moves_ret {A} (a : A) : moves 0 (mret a).
Proof. intros r Hr. cbn. split_and!; [done|done|lia]. Qed.

Lemma moves_raise {A} e k : e <> OutOfFuel -> moves k (raise e : M BinaryReader A).
Proof. by intros He r Hr. Qed.

Lemma moves_bind {A B} (m : M BinaryReader A) (f : A -> M BinaryReader B) j k :
  moves j m -> (forall a, moves k (f a)) -> moves (j + k) (m ≫= f).
Proof.
  intros Hm Hf r Hr. specialize (Hm r Hr). unfold mbind, M_bind. destruct (m r) as [[a|e] r1]; [|done].
  destruct Hm as (H1 & H2 & H3). specialize (Hf a r1 H1). destruct (f a r1) as [[b|e] r2]; [|done].
  destruct Hf as (G1 & G2 & G3). split_and!; [done|congruence|lia].
Qed.

Lemma moves_weaken {A} (m : M BinaryReader A) j k : moves j m -> k <= j -> moves k m.
Proof.
  intros H Hk r Hr. specialize (H r Hr). destruct (m r) as [[a|e] r1]; [|done]. destruct H as (H1 & H2 & H3). split_and!; [done|done|lia].
Qed.

Lemma moves_gets {A} (f : BinaryReader -> A) : moves 0 (gets f).
Proof. intros r Hr. cbn. split_and!; [done|done|lia]. Qed.

Lemma moves_lift {A} (x : result A) : x <> Err OutOfFuel -> moves 0 (liftR x).
Proof. intros H r Hr. unfold liftR. destruct x as [a|e]; [split_and!; [done|done|lia]|congruence]. Qed.

(** The position may run past the end until [assertBounds] looks at it. *)
Definition runs {A} (k : Z) (m : M BinaryReader A) : Prop := forall r, 0 <= r_pos r ->
  match m r with
  | (Ok _, r') => r_buf r' = r_buf r /\ r_len r' = r_len r /\ r_pos r + k <= r_pos r'
  | (Err e, _) => e <> OutOfFuel
  end.

Lemma runs_bind {A B} (m : M BinaryReader A) (f : A -> M BinaryReader B) j k :
  0 <= j -> runs j m -> (forall a, runs k (f a)) -> runs (j + k) (m ≫= f).
Proof.
  intros Hj Hm Hf r Hr. specialize (Hm r Hr). unfold mbind, M_bind. destruct (m r) as [[a|e] r1]; [|done].
  destruct Hm as (H1 & H2 & H3). specialize (Hf a r1 ltac:(lia)). destruct (f a r1) as [[b|e] r2]; [|done].
  destruct Hf as (G1 & G2 & G3). split_and!; [congruence|congruence|lia].
Qed.

Lemma runs_weaken {A} (m : M BinaryReader A) j k : runs j m -> k <= j -> runs k m.
Proof.
  intros H Hk r Hr. specialize (H r Hr). destruct (m r) as [[a|e] r1]; [|done]. destruct H as (H1 & H2 & H3). split_and!; [done|done|lia].
Qed.

Lemma runs_next : runs 1 next_byte.
Proof.
  intros r Hr. unfold next_byte, mbind, M_bind, gets, modify, mret, M_ret, set_pos. cbn [r_buf r_len r_pos].
  split_and!; [done|done|lia].
Qed.

Lemma runs_ret {A} (a : A) : runs 0 (mret a).
Proof. intros r Hr. cbn. split_and!; [done|done|lia]. Qed.

Lemma runs_assert : runs 0 assertBounds.
Proof. intros r Hr. unfold assertBounds, mbind, M_bind, gets. destruct (r_len r <? r_pos r); cbn; [done|]. split_and!; [done|done|lia]. Qed.

Lemma runs_groups shifts bits : shifts <> [] -> runs 1 (varint_groups shifts bits).
Proof.
  revert bits. induction shifts as [|s l IH]; intros bits Hne; [done|]. cbn [varint_groups].
  change 1 with (1 + 0). apply runs_bind; [lia|apply runs_next|]. intros b. cbv zeta. case_decide.
  - change 0 with (0 + 0). apply runs_bind; [lia|apply runs_assert|intros; apply runs_ret].
  - destruct l as [|s' l]; [apply runs_ret|]. eapply runs_weaken; [by apply IH|lia].
Qed.

(** A result that is only returned after [assertBounds] leaves the position inside. *)
Lemma runs_moves {A} (m : M BinaryReader A) k : runs k m ->
  (forall r a r', m r = (Ok a, r') -> r_pos r' <= r_len r') -> 0 <= k -> moves k m.
Proof.
  intros Hr Hb Hk r [Hp Hl]. specialize (Hr r ltac:(lia)). destruct (m r) as [[a|e] r'] eqn:E; [|done].
  destruct Hr as (H1 & H2 & H3). specialize (Hb r a r' E). split_and!; [|done|lia]. split; [lia|congruence].
Qed.

Lemma varint_groups_bound shifts bits r x r' : varint_groups shifts bits r = (Ok (x, true), r') -> r_pos r' <= r_len r'.
Proof.
  revert bits r. induction shifts as [|s l IH]; intros bits r H; cbn [varint_groups] in H; [discriminate H|].
  apply M_bind_ok in H as (b & r1 & _ & H). cbv zeta in H. case_decide.
  - apply M_bind_ok in H as (u & r2 & Ha & H). apply mret_ok in H as [_ ->].
    unfold assertBounds, mbind, M_bind, gets in Ha. destruct (Z.ltb_spec (r_len r1) (r_pos r1)); [discriminate Ha|].
    cbn in Ha. injection Ha as _ <-. lia.
  - by apply IH in H.
Qed.

Lemma assert_bound r u r' : assertBounds r = (Ok u, r') -> r' = r /\ r_pos r <= r_len r.
Proof.
  unfold assertBounds, mbind, M_bind, gets. destruct (Z.ltb_spec (r_len r) (r_pos r)); [discriminate|]. intros [= _ <-]. split; [done|lia].
Qed.

Lemma runs_rest n b : runs 0 (varint32_rest n b).
Proof.
  revert b. induction n as [|n IH]; intros b; [apply runs_ret|]. cbn [varint32_rest]. case_decide; [apply runs_ret|].
  eapply (runs_weaken _ (1 + 0)); [apply runs_bind; [lia|apply runs_next|intros; apply IH]|lia].
Qed.

Lemma runs_raise {A} e k : e <> OutOfFuel -> runs k (raise e : M BinaryReader A).
Proof. by intros He r Hr. Qed.

Lemma runs_assert_ret {A} (a : A) : runs 0 (assertBounds ;; mret a).
Proof. change 0 with (0 + 0). apply runs_bind; [lia|apply runs_assert|intros; apply runs_ret]. Qed.

Lemma assert_ret_bound {A} (a : A) r x r' : (assertBounds ;; mret a) r = (Ok x, r') -> r_pos r' <= r_len r'.
Proof. intros (u & r1 & Ha & H)%M_bind_ok. apply mret_ok in H as [_ ->]. by apply assert_bound in Ha as [-> ?]. Qed.

Lemma moves_varint32 : moves 1 varint32read.
Proof.
  apply runs_moves; [| |lia].
  - unfold varint32read. change 1 with (1 + 0). apply runs_bind; [lia|by apply runs_groups|]. intros [x []]; [apply runs_ret|].
    eapply (runs_weaken _ (1 + (0 + 0))); [|lia]. apply runs_bind; [lia|apply runs_next|]. intros b. cbv zeta.
    apply runs_bind; [lia|apply runs_rest|]. intros b'. case_decide; [apply runs_assert_ret|by apply runs_raise].
  - intros r a r' H. unfold varint32read in H. apply M_bind_ok in H as ([x [|]] & r1 & Hg & H).
    + apply mret_ok in H as [_ ->]. by apply varint_groups_bound in Hg.
    + apply M_bind_ok in H as (b & r2 & _ & H). cbv zeta in H. apply M_bind_ok in H as (b' & r3 & _ & H).
      case_decide; [by apply assert_ret_bound in H|discriminate H].
Qed.

Lemma moves_varint64 : moves 1 varint64read.
Proof.
  apply runs_moves; [| |lia].
  - unfold varint64read. change 1 with (1 + 0). apply runs_bind; [lia|by apply runs_groups|]. intros [x []]; [apply runs_ret|].
    eapply (runs_weaken _ (1 + 0)); [|lia]. apply runs_bind; [lia|apply runs_next|]. intros b. cbv zeta.
    case_decide; [apply runs_assert_ret|]. eapply (runs_weaken _ (1 + 0)); [|lia]. apply runs_bind; [lia|by apply runs_groups|].
    intros [y []]; [apply runs_ret|by apply runs_raise].
  - intros r a r' H. unfold varint64read in H. apply M_bind_ok in H as ([x [|]] & r1 & Hg & H).
    + apply mret_ok in H as [_ ->]. by apply varint_groups_bound in Hg.
    + apply M_bind_ok in H as (b & r2 & _ & H). cbv zeta in H. case_decide; [by apply assert_ret_bound in H|].
      apply M_bind_ok in H as ([y [|]] & r3 & Hg' & H); [|discriminate H].
      apply mret_ok in H as [_ ->]. by apply varint_groups_bound in Hg'.
Qed.

Lemma groups_nonneg k s bits r x last r' : 0 <= s -> s + 7 * Z.of_nat k <= 31 -> 0 <= bits < 2 ^ s ->
  varint_groups (steps7 k s) bits r = (Ok (x, last), r') -> 0 <= x.
Proof.
  revert s bits r. induction k as [|k IH]; intros s bits r Hs Hk Hb H; cbn [steps7 varint_groups] in H.
  { apply mret_ok in H as [[= -> _] _]. lia. }
  apply M_bind_ok in H as (b & r1 & _ & H). cbv zeta in H.
  assert (0 <= b .& 0x7f < 128) as Hd.
  { change 0x7f with (2 ^ 7 - 1). rewrite js_and_ones by lia. apply Z.mod_pos_bound. lia. }
  pose proof (Z.pow_le_mono_r 2 s 31 ltac:(lia) ltac:(lia)).
  assert (u32 bits = bits) as Hu by (apply u32_small; lia).
  rewrite or_group in H by (rewrite ?Hu; lia). destruct (group_bits bits (b .& 0x7f) s) as [Hg Hr]; [lia|lia|lia|lia|].
  assert (i32 (u32 bits + (b .& 0x7f) * 2 ^ s) = u32 bits + (b .& 0x7f) * 2 ^ s) as Hi.
  { apply i32_small. pose proof (Z.pow_le_mono_r 2 (s + 7) 31). lia. }
  rewrite Hi in H. case_decide.
  - apply M_bind_ok in H as (u & r2 & _ & H). apply mret_ok in H as [[= -> _] _]. lia.
  - apply IH in H; [done|lia|lia|lia].
Qed.

Lemma varint32_nonneg r a r' : varint32read r = (Ok a, r') -> 0 <= a.
Proof.
  intros H. unfold varint32read in H. apply M_bind_ok in H as ([x last] & r1 & Hg & H). destruct last.
  - apply mret_ok in H as [-> _]. by apply (groups_nonneg 4 0 0) in Hg.
  - apply M_bind_ok in H as (b & r2 & _ & H). cbv zeta in H. apply M_bind_ok in H as (b' & r3 & _ & H).
    case_decide; [|discriminate H]. apply M_bind_ok in H as (u & r4 & _ & H). apply mret_ok in H as [-> _].
    rewrite js_shr_0. apply u32_range.
Qed.

Lemma moves_skip_n n : 0 <= n -> moves n (skip_n n).
Proof.
  intros Hn r [Hp Hl]. unfold skip_n, mbind, M_bind, gets. destruct (Z.ltb_spec (r_len r) (r_pos r + n)); [done|].
  unfold modify, set_pos, reader_ok. cbn [r_buf r_len r_pos]. split_and!; [lia|lia|done|done|lia].
Qed.

(** The length read before a field is not negative. *)
Lemma moves_uint32_bind {A} (f : Z -> M BinaryReader A) k : (forall n, 0 <= n -> moves k (f n)) -> moves (1 + k) (r_uint32 ≫= f).
Proof.
  intros Hf r Hr. pose proof (moves_varint32 r Hr) as Hm. unfold mbind, M_bind, r_uint32.
  destruct (varint32read r) as [[a|e] r1] eqn:E; [|done]. apply varint32_nonneg in E.
  destruct Hm as (H1 & H2 & H3). specialize (Hf a E r1 H1). destruct (f a r1) as [[b|e] r2]; [|done].
  destruct Hf as (G1 & G2 & G3). split_and!; [done|congruence|lia].
Qed.

Lemma moves_skip_varint fuel r : reader_ok r -> (Z.to_nat (r_len r - r_pos r) < fuel)%nat ->
  match skip_varint fuel r with
  | (Ok _, r') => reader_ok r' /\ r_buf r' = r_buf r /\ r_pos r + 1 <= r_pos r'
  | (Err e, _) => e <> OutOfFuel
  end.
Proof.
  revert r. induction fuel as [|fuel IH]; intros r [Hp Hl] Hf; [lia|]. cbn [skip_varint].
  unfold mbind at 1, M_bind at 1, gets at 1. destruct (Z.leb_spec (r_len r) (r_pos r)); [done|].
  unfold next_byte, mbind, M_bind, gets, modify, mret, M_ret, set_pos. cbn [r_buf r_len r_pos].
  set (r1 := MkReader _ _ _). assert (reader_ok r1) as Hr1 by (split; cbn [r_pos r_len r_buf r1]; [lia|done]).
  case_decide; [subst r1; cbn [r_buf r_pos]; split_and!; [done|done|lia]|].
  specialize (IH r1 Hr1 ltac:(cbn [r_len r_pos r1]; lia)). destruct (skip_varint fuel r1) as [[u|e] r2]; [|done].
  destruct IH as (G1 & G2 & G3). cbn [r_buf r_pos r1] in G2, G3. split_and!; [done|done|lia].
Qed.

Definition room (r : BinaryReader) : nat := Z.to_nat (r_len r - r_pos r).

Lemma room_moves r r' : reader_ok r -> reader_ok r' -> r_buf r' = r_buf r -> r_pos r + 1 <= r_pos r' -> (room r' < room r)%nat.
Proof. intros [? ?] [? ?] Hb Hp. unfold room. rewrite Hb in *. lia. Qed.

(** Skipping a field ends within the fuel, groups included. *)
Lemma skip_moves fuel :
  (forall wireType r, reader_ok r -> (2 * room r + 2 <= fuel)%nat ->
     match skipType_go fuel wireType r with
     | (Ok _, r') => reader_ok r' /\ r_buf r' = r_buf r /\ r_pos r + 1 <= r_pos r' | (Err e, _) => e <> OutOfFuel end) /\
  (forall r, reader_ok r -> (2 * room r + 1 <= fuel)%nat ->
     match skip_group fuel r with
     | (Ok _, r') => reader_ok r' /\ r_buf r' = r_buf r /\ r_pos r + 1 <= r_pos r' | (Err e, _) => e <> OutOfFuel end).
Proof.
  induction fuel as [|fuel [IH1 IH2]]; [split; intros; lia|]. split.
  - intros wireType r Hr Hf. cbn [skipType_go].
    assert (moves 1 (pos ← gets r_pos; raise (JsError ("invalid wire type " +:+ pretty wireType +:+ " at offset " +:+ pretty pos)) : M BinaryReader unit))
      as Hbad by (change 1 with (0 + 1); apply moves_bind; [apply moves_gets|intros; by apply moves_raise]).
    assert (moves 1 (n ← r_uint32; skip_n n)) as Hlen.
    { change 1 with (1 + 0). apply moves_uint32_bind. intros n Hn. by eapply moves_weaken; [apply moves_skip_n|]. }
    pose proof (moves_weaken _ 8 1 (moves_skip_n 8 ltac:(lia)) ltac:(lia)) as H8.
    pose proof (moves_weaken _ 4 1 (moves_skip_n 4 ltac:(lia)) ltac:(lia)) as H4.
    destruct wireType as [|[[[p|p|]|[p|p|]|]|[p|p|]|]|p]; try exact (Hbad r Hr);
      [|exact (H4 r Hr)|apply IH2; [done|lia]|exact (Hlen r Hr)|exact (H8 r Hr)].
    unfold mbind, M_bind, gets. apply moves_skip_varint; [done|]. destruct Hr as [? Hl]. lia.
  - intros r Hr Hf. cbn [skip_group]. unfold mbind at 1, M_bind at 1, r_uint32. pose proof (moves_varint32 r Hr) as Hm.
    destruct (varint32read r) as [[tag|e] r1]; [|done]. destruct Hm as (H1 & H2 & H3). pose proof (room_moves r r1 Hr H1 H2 H3).
    cbv zeta. case_decide; [done|]. unfold mbind, M_bind. specialize (IH1 (tag .& 7) r1 H1 ltac:(lia)).
    destruct (skipType_go fuel _ r1) as [[u|e] r2]; [|done]. destruct IH1 as (G1 & G2 & G3).
    pose proof (room_moves r1 r2 H1 G1 G2 G3). specialize (IH2 r2 G1 ltac:(lia)).
    destruct (skip_group fuel r2) as [[u'|e] r3]; [|done]. destruct IH2 as (F1 & F2 & F3). split_and!; [done|congruence|lia].
Qed.

Lemma moves_skipType wireType : moves 1 (skipType wireType).
Proof.
  intros r Hr. unfold skipType, mbind, M_bind, gets. apply (proj1 (skip_moves _)); [done|].
  destruct Hr as [? Hl]. unfold room. lia.
Qed.

Lemma moves_int32 : moves 1 r_int32.
Proof. change 1 with (1 + 0). apply moves_bind; [apply moves_varint32|intros; apply moves_ret]. Qed.

Lemma moves_uint64 : moves 1 r_uint64.
Proof.
  change 1 with (1 + 0). apply moves_bind; [apply moves_varint64|]. intros [lo hi]. apply moves_lift.
  by rewrite uInt64ToString_spec, BigInt_pretty_Z.
Qed.

Lemma moves_int64 : moves 1 r_int64.
Proof.
  change 1 with (1 + 0). apply moves_bind; [apply moves_varint64|]. intros [lo hi]. apply moves_lift.
  by rewrite int64ToString_spec, BigInt_pretty_Z.
Qed.

Lemma moves_bool : moves 1 r_bool.
Proof. change 1 with (1 + 0). apply moves_bind; [apply moves_varint64|]. intros [lo hi]. apply moves_ret. Qed.

Lemma moves_bytes : moves 1 r_bytes.
Proof.
  unfold r_bytes. change 1 with (1 + 0). apply moves_uint32_bind. intros len Hlen r [Hp Hl].
  unfold mbind, M_bind, gets, modify, set_pos, assertBounds. cbn [r_buf r_len r_pos].
  unfold mbind, M_bind, gets. cbn [r_buf r_len r_pos].
  destruct (Z.ltb_spec (r_len r) (r_pos r + len)); [done|]. cbn [mret M_ret]. unfold mret, M_ret, reader_ok. cbn [r_buf r_len r_pos].
  split_and!; [lia|lia|done|done|lia].
Qed.

Lemma moves_string : moves 1 r_string.
Proof. change 1 with (1 + 0). apply moves_bind; [apply moves_bytes|intros; apply moves_ret]. Qed.

(** The loop of a message ends: every round takes at least the byte of its tag. *)
Definition fields_move {A} (field : Z -> A -> option (M BinaryReader A)) : Prop :=
  forall n m mm, field n m = Some mm -> moves 0 mm.

Lemma decode_loop_moves {A} (field : Z -> A -> option (M BinaryReader A)) : fields_move field ->
  forall fuel endp m r, reader_ok r -> (room r < fuel)%nat ->
  match decode_loop field fuel endp m r with
  | (Ok _, r') => reader_ok r' /\ r_buf r' = r_buf r /\ r_pos r <= r_pos r'
  | (Err e, _) => e <> OutOfFuel
  end.
Proof.
  intros Hf fuel endp. induction fuel as [|fuel IH]; intros m r Hr Hfu; [lia|]. cbn [decode_loop].
  unfold mbind at 1, M_bind at 1, gets at 1. destruct (Z.leb_spec endp (r_pos r)); [cbn; split_and!; [done|done|lia]|].
  unfold mbind at 1, M_bind at 1, r_uint32. pose proof (moves_varint32 r Hr) as Hm.
  destruct (varint32read r) as [[tag|e] r1]; [|done]. destruct Hm as (H1 & H2 & H3). pose proof (room_moves r r1 Hr H1 H2 H3).
  unfold mbind at 1, M_bind at 1.
  set (step := match field tag m with Some mm => mm | None => _ end).
  assert (moves 0 step) as Hstep.
  { subst step. destruct (field tag m) as [mm|] eqn:E; [by apply Hf in E|].
    eapply (moves_weaken _ (1 + 0)); [|lia]. apply moves_bind; [apply moves_skipType|intros; apply moves_ret]. }
  specialize (Hstep r1 H1). destruct (step r1) as [[m'|e] r2]; [|done].
  destruct Hstep as (G1 & G2 & G3). assert (room r2 <= room r1)%nat by (unfold room; destruct H1, G1; rewrite G2 in *; lia).
  specialize (IH m' r2 G1 ltac:(lia)). destruct (decode_loop field fuel endp m' r2) as [[x|e] r3]; [|done].
  destruct IH as (F1 & F2 & F3). split_and!; [done|congruence|lia].
Qed.

Lemma moves_nested {A} (field : Z -> A -> option (M BinaryReader A)) base n : fields_move field -> moves 0 (decode_nested field base n).
Proof.
  intros Hf r Hr. unfold decode_nested, mbind, M_bind, gets.
  assert (room r < S (length (r_buf r)))%nat as Hroom by (destruct Hr as [? Hl]; unfold room; lia).
  pose proof (decode_loop_moves field Hf (S (length (r_buf r))) (r_pos r + n) base r Hr Hroom) as H.
  destruct (decode_loop _ _ _ _ _) as [[x|e] r']; [|done]. destruct H as (? & ? & ?). split_and!; [done|done|lia].
Qed.

Lemma moves_nested_field {A} (field : Z -> A -> option (M BinaryReader A)) base {B} (f : A -> B) : fields_move field ->
  moves 0 (n ← r_uint32; x ← decode_nested field base n; mret (f x)).
Proof.
  intros Hf. eapply (moves_weaken _ (1 + (0 + 0))); [|lia]. apply moves_bind; [apply moves_varint32|]. intros n.
  apply moves_bind; [by apply moves_nested|intros; apply moves_ret].
Qed.

Lemma moves_field {A B} (m : M BinaryReader A) (f : A -> B) : moves 1 m -> moves 0 (x ← m; mret (f x)).
Proof. intros H. eapply (moves_weaken _ (1 + 0)); [|lia]. apply moves_bind; [done|intros; apply moves_ret]. Qed.

Lemma decode_bytes_ends {A} (field : Z -> A -> option (M BinaryReader A)) base input :
  fields_move field -> decode_bytes field base input <> Err OutOfFuel.
Proof.
  intros Hf. unfold decode_bytes. assert (reader_ok (new_reader input)) as Hr by (split; cbn; [lia|done]).
  pose proof (decode_loop_moves field Hf (S (length input)) (Z.of_nat (length input)) base (new_reader input) Hr) as H.
  assert (room (new_reader input) < S (length input))%nat as Hroom by (unfold room, new_reader; cbn [r_len r_pos]; lia).
  specialize (H Hroom). destruct (decode_loop _ _ _ _ _) as [[x|e] r']; cbn; congruence.
Qed.
