(* ===== verification/ProtoCodec.v ===== *)
(** * Generated message codecs

    The generated [encode] functions write each field behind a test for its default
    value; the generated [decode] functions read a field's value and assign it.  This
    file has those field idioms, the wire image they stand for, and the interface
    [Message] with its laws [MessageOk]: what one message promises to the message
    that nests it. *)

From Stdlib Require Import ZArith Lia.
From S2P Require Import Prelude JsString JsNumber Varint Utf8 Binary.

#[local] Open Scope Z_scope.

(** ** Field idioms of [encode] *)

(** [if (message.f !== 0) writer.uint32(tag).int32(message.f)] *)
Definition field_int32 (tag v : Z) (w : BinaryWriter) : BinaryWriter :=
  if decide (v = 0) then w else w_int32 v (w_uint32 tag w).
(** [if (message.f !== BigInt(0)) writer.uint32(tag).uint64(message.f)] *)
Definition field_uint64 (tag v : Z) (w : BinaryWriter) : BinaryWriter :=
  if decide (v = 0) then w else w_uint64 v (w_uint32 tag w).
Definition field_int64 (tag v : Z) (w : BinaryWriter) : BinaryWriter :=
  if decide (v = 0) then w else w_int64 v (w_uint32 tag w).
Definition field_bool (tag : Z) (v : bool) (w : BinaryWriter) : BinaryWriter :=
  if v then w_bool v (w_uint32 tag w) else w.
Definition field_string (tag : Z) (v : string) (w : BinaryWriter) : BinaryWriter :=
  if decide (v = "") then w else w_string v (w_uint32 tag w).
Definition field_bytes (tag : Z) (v : bytes) (w : BinaryWriter) : BinaryWriter :=
  if decide (length v = 0%nat) then w else w_bytes v (w_uint32 tag w).
(** [X.encode(v, writer.uint32(tag).fork()).ldelim()] *)
Definition field_message {A} (encodeMessage : A -> BinaryWriter -> BinaryWriter) (tag : Z) (v : A) (w : BinaryWriter) : BinaryWriter :=
  ldelim (encodeMessage v (fork (w_uint32 tag w))).
(** [if (message.f !== undefined) ...] *)
Definition field_opt {A} (f : Z -> A -> BinaryWriter -> BinaryWriter) (tag : Z) (v : option A) (w : BinaryWriter) : BinaryWriter :=
  match v with Some x => f tag x w | None => w end.
(** [for (const v of message.f) ...] *)
Definition field_repeated {A} (f : Z -> A -> BinaryWriter -> BinaryWriter) (tag : Z) (l : list A) (w : BinaryWriter) : BinaryWriter :=
  fold_left (fun w v => f tag v w) l w.
Definition write_string (tag : Z) (v : string) (w : BinaryWriter) : BinaryWriter := w_string v (w_uint32 tag w).
Definition write_bytes (tag : Z) (v : bytes) (w : BinaryWriter) : BinaryWriter := w_bytes v (w_uint32 tag w).

(** A packed repeated field is written even when it is empty. *)
Definition write_ints (l : list Z) (w : BinaryWriter) : BinaryWriter := fold_left (fun w v => w_int32 v w) l w.
Definition field_packed (tag : Z) (l : list Z) (w : BinaryWriter) : BinaryWriter := ldelim (write_ints l (fork (w_uint32 tag w))).

(** The statements of an [encode], in order. *)
Definition write_fields (fs : list (BinaryWriter -> BinaryWriter)) (w : BinaryWriter) : BinaryWriter := fold_left (fun w f => f w) fs w.

(** [while (reader.pos < end2) push(reader.int32())] *)
Fixpoint packed_loop (fuel : nat) (end2 : Z) (acc : list Z) : M BinaryReader (list Z) :=
  match fuel with
  | O => raise OutOfFuel
  | S fuel' =>
      pos ← gets r_pos;
      if end2 <=? pos then mret acc else v ← r_int32; packed_loop fuel' end2 (acc ++ [v])
  end.
Definition r_packed (acc : list Z) : M BinaryReader (list Z) :=
  n ← r_uint32;
  r ← gets (fun r => r);
  packed_loop (S (length (r_buf r))) (n + r_pos r) acc.

(** ** Messages *)

Class Message (A : Type) := {
  base_message : A;
  encode_to : A -> BinaryWriter -> BinaryWriter;
  field_case : Z -> A -> option (M BinaryReader A);
}.

(** [X.encode(message).finish()] and [X.decode(bytes)] *)
Definition encodeMessage {A} `{Message A} (m : A) : bytes := finish (encode_to m create).
Definition decodeMessage {A} `{Message A} (b : bytes) : result A := decode_bytes field_case base_message b.
(** [X.decode(reader, reader.uint32())] *)
Definition r_message {A} `{Message A} : M BinaryReader A := n ← r_uint32; decode_nested field_case base_message n.

(** ** The wire image *)

Definition wire_int (tag v : Z) : bytes := if decide (v = 0) then [] else varint tag ++ varint (u64 v).
Definition wire_bool (tag : Z) (v : bool) : bytes := if v then varint tag ++ [x01] else [].
Definition wire_delimited (tag : Z) (b : bytes) : bytes := varint tag ++ varint (Z.of_nat (length b)) ++ b.
Definition wire_bytes (tag : Z) (b : bytes) : bytes := if decide (length b = 0%nat) then [] else wire_delimited tag b.
Definition wire_string (tag : Z) (s : string) : bytes := if decide (s = "") then [] else wire_delimited tag (utf8 s).
Definition wire_opt {A} (f : Z -> A -> bytes) (tag : Z) (v : option A) : bytes := match v with Some x => f tag x | None => [] end.
Definition wire_repeated {A} (f : Z -> A -> bytes) (tag : Z) (l : list A) : bytes := l ≫= f tag.

Definition wire_packed (tag : Z) (l : list Z) : bytes := wire_delimited tag (l ≫= fun v => varint (u64 v)).

(** What a message promises: on messages within the field ranges, [encode] writes
    the wire image, [decode] reads it back, and [decode] ends on every input. *)
Class MessageOk (A : Type) `{Message A} := {
  valid : A -> Prop;
  wire : A -> bytes;
  encode_wire m : valid m -> short (wire m) -> emits (encode_to m) (wire m);
  decode_wire m : valid m -> short (wire m) -> fields_read field_case (wire m) base_message m;
  decode_moves : fields_move field_case;
}.

#[global] Arguments valid : simpl never.
#[global] Arguments wire : simpl never.

Definition wire_message {A} `{MessageOk A} (tag : Z) (v : A) : bytes := wire_delimited tag (wire v).
Definition wire_text (tag : Z) (s : string) : bytes := wire_delimited tag (utf8 s).

Lemma decode_encode {A} `{MessageOk A} (m : A) : valid m -> short (wire m) -> decodeMessage (encodeMessage m) = Ok m.
Proof.
  intros Hv Hs. unfold decodeMessage, encodeMessage. rewrite (emits_finish _ _ (encode_wire m Hv Hs)).
  apply decode_bytes_reads. by apply decode_wire.
Qed.

Lemma encode_is_wire {A} `{MessageOk A} (m : A) : valid m -> short (wire m) -> encodeMessage m = wire m.
Proof. intros Hv Hs. apply emits_finish. by apply encode_wire. Qed.

Lemma decode_ends {A} `{MessageOk A} (b : bytes) : decodeMessage b <> Err OutOfFuel.
Proof. apply decode_bytes_ends, decode_moves. Qed.

(** ** Field laws: writing *)

Definition tag_ok (tag : Z) : Prop := 0 <= tag < 2 ^ 32.
Definition int32_ok (v : Z) : Prop := - 2 ^ 31 <= v < 2 ^ 31.
Definition uint64_ok (v : Z) : Prop := 0 <= v < 2 ^ 64.
Definition int64_ok (v : Z) : Prop := - 2 ^ 63 <= v < 2 ^ 63.

Lemma short_app a b : short (a ++ b) -> short a /\ short b.
Proof. unfold short. rewrite length_app. lia. Qed.

Lemma emits_tag tag : tag_ok tag -> emits (w_uint32 tag) (varint tag).
Proof. apply emits_uint32_small. Qed.

Lemma emits_tagged tag f b : tag_ok tag -> emits f b -> emits (fun w => f (w_uint32 tag w)) (varint tag ++ b).
Proof. intros Ht Hf. apply (emits_comp (w_uint32 tag) f); [by apply emits_tag|done]. Qed.

Lemma emits_field_int32 tag v : tag_ok tag -> int32_ok v -> emits (field_int32 tag v) (wire_int tag v).
Proof.
  intros Ht Hv. unfold field_int32, wire_int. case_decide; [apply emits_id|]. apply emits_tagged; [done|]. by apply emits_int32.
Qed.

Lemma emits_field_uint64 tag v : tag_ok tag -> uint64_ok v -> emits (field_uint64 tag v) (wire_int tag v).
Proof.
  intros Ht Hv. unfold uint64_ok in Hv. unfold field_uint64, wire_int. case_decide; [apply emits_id|]. apply emits_tagged; [done|].
  apply emits_int64. lia.
Qed.

Lemma emits_field_int64 tag v : tag_ok tag -> int64_ok v -> emits (field_int64 tag v) (wire_int tag v).
Proof.
  intros Ht Hv. unfold int64_ok in Hv. unfold field_int64, wire_int. case_decide; [apply emits_id|]. apply emits_tagged; [done|].
  apply emits_int64. lia.
Qed.

Lemma emits_field_bool tag v : tag_ok tag -> emits (field_bool tag v) (wire_bool tag v).
Proof. intros Ht. unfold field_bool, wire_bool. destruct v; [|apply emits_id]. apply emits_tagged; [done|]. apply emits_bool. Qed.

Lemma emits_write_string tag s : tag_ok tag -> js_string s -> short (wire_delimited tag (utf8 s)) ->
  emits (write_string tag s) (wire_delimited tag (utf8 s)).
Proof.
  intros Ht Hs Hb. apply emits_tagged; [done|]. apply emits_string; [done|]. by apply short_app in Hb as [_ [_ Hb]%short_app].
Qed.

Lemma emits_write_bytes tag b : tag_ok tag -> short (wire_delimited tag b) -> emits (write_bytes tag b) (wire_delimited tag b).
Proof. intros Ht Hb. apply emits_tagged; [done|]. apply emits_bytes. by apply short_app in Hb as [_ [_ Hb]%short_app]. Qed.

Lemma emits_field_string tag s : tag_ok tag -> js_string s -> short (wire_string tag s) -> emits (field_string tag s) (wire_string tag s).
Proof. intros Ht Hs Hb. unfold field_string, wire_string in *. case_decide; [apply emits_id|]. by apply emits_write_string. Qed.

Lemma emits_field_bytes tag b : tag_ok tag -> short (wire_bytes tag b) -> emits (field_bytes tag b) (wire_bytes tag b).
Proof. intros Ht Hb. unfold field_bytes, wire_bytes in *. case_decide; [apply emits_id|]. by apply emits_write_bytes. Qed.

Lemma emits_field_message {A} `{MessageOk A} tag (v : A) : tag_ok tag -> valid v -> short (wire_message tag v) ->
  emits (field_message encode_to tag v) (wire_message tag v).
Proof.
  intros Ht Hv Hb. apply short_app in Hb as [_ [_ Hb]%short_app].
  apply (emits_tagged tag (fun w => ldelim (encode_to v (fork w)))); [done|]. apply emits_nested; [by apply encode_wire|done].
Qed.

Lemma emits_opt {A} (f : Z -> A -> BinaryWriter -> BinaryWriter) (g : Z -> A -> bytes) (P : A -> Prop) tag v :
  (forall x, P x -> short (g tag x) -> emits (f tag x) (g tag x)) -> from_option P True v -> short (wire_opt g tag v) ->
  emits (field_opt f tag v) (wire_opt g tag v).
Proof. intros Hf Hv Hb. destruct v as [x|]; [by apply Hf|apply emits_id]. Qed.

Lemma emits_repeated {A} (f : Z -> A -> BinaryWriter -> BinaryWriter) (g : Z -> A -> bytes) (P : A -> Prop) tag l :
  (forall x, P x -> short (g tag x) -> emits (f tag x) (g tag x)) -> Forall P l -> short (wire_repeated g tag l) ->
  emits (field_repeated f tag l) (wire_repeated g tag l).
Proof.
  intros Hf Hl. unfold field_repeated, wire_repeated. induction Hl as [|x l Hx Hl IH]; intros Hb; [apply emits_id|].
  cbn in Hb |- *. apply short_app in Hb as [Hb1 Hb2].
  apply (emits_comp (f tag x) (fun w => fold_left (fun w v => f tag v w) l w)); [by apply Hf|by apply IH].
Qed.

Lemma emits_opt_message {A} `{MessageOk A} tag (v : option A) : tag_ok tag -> from_option valid True v ->
  short (wire_opt wire_message tag v) -> emits (field_opt (field_message encode_to) tag v) (wire_opt wire_message tag v).
Proof. intros Ht. apply emits_opt. intros x. by apply emits_field_message. Qed.
Lemma emits_opt_bytes tag v : tag_ok tag -> short (wire_opt wire_delimited tag v) -> emits (field_opt write_bytes tag v) (wire_opt wire_delimited tag v).
Proof. intros Ht. apply (emits_opt _ _ (fun _ => True)); [intros x _; by apply emits_write_bytes|by destruct v]. Qed.
Lemma emits_opt_string tag v : tag_ok tag -> from_option js_string True v -> short (wire_opt wire_text tag v) ->
  emits (field_opt write_string tag v) (wire_opt wire_text tag v).
Proof. intros Ht. apply emits_opt. intros x. by apply emits_write_string. Qed.
Lemma emits_rep_message {A} `{MessageOk A} tag (l : list A) : tag_ok tag -> Forall valid l ->
  short (wire_repeated wire_message tag l) -> emits (field_repeated (field_message encode_to) tag l) (wire_repeated wire_message tag l).
Proof. intros Ht. apply emits_repeated. intros x. by apply emits_field_message. Qed.
Lemma emits_rep_string tag l : tag_ok tag -> Forall js_string l -> short (wire_repeated wire_text tag l) ->
  emits (field_repeated write_string tag l) (wire_repeated wire_text tag l).
Proof. intros Ht. apply emits_repeated. intros x. by apply emits_write_string. Qed.

Lemma emits_field_packed tag l : tag_ok tag -> Forall int32_ok l -> short (wire_packed tag l) -> emits (field_packed tag l) (wire_packed tag l).
Proof.
  intros Ht Hl Hb. apply short_app in Hb as [_ [_ Hb]%short_app].
  apply (emits_tagged tag (fun w => ldelim (write_ints l (fork w)))); [done|]. apply emits_nested; [|done]. clear Hb.
  induction Hl as [|x l Hx Hl IH]; [apply emits_id|]. cbn.
  apply (emits_comp (w_int32 x) (write_ints l)); [by apply emits_int32|done].
Qed.

(** The statements of an [encode] one after the other. *)
Lemma emits_fields fs bs : Forall2 (fun f b => short b -> emits f b) fs bs -> short (concat bs) -> emits (write_fields fs) (concat bs).
Proof.
  induction 1 as [|f b fs bs Hf _ IH]; intros Hs; [apply emits_id|]. cbn in Hs |- *. apply short_app in Hs as [H1 H2].
  apply (emits_comp f (write_fields fs)); auto.
Qed.

(** ** Field laws: reading *)

Section reading.
Context {A : Type} (field : Z -> A -> option (M BinaryReader A)).

(** A field is read and assigned. *)
Lemma reads_set {B} (rd : M BinaryReader B) (mk : B -> A) tag payload m v : tag_ok tag ->
  field tag m = Some (x ← rd; mret (mk x)) -> reads rd payload v ->
  fields_read field (varint tag ++ payload) m (mk v).
Proof.
  intros Ht Hf Hr. apply fields_one. eapply step_field; [done|exact Hf|]. eapply reads_map; [exact Hr|]. apply reads_ret.
Qed.

Lemma fields_int32 (mk : Z -> A) tag v : tag_ok tag -> int32_ok v ->
  field tag (mk 0) = Some (x ← r_int32; mret (mk x)) -> fields_read field (wire_int tag v) (mk 0) (mk v).
Proof.
  intros Ht Hv Hf. unfold wire_int. case_decide as H0; [subst; constructor|]. eapply reads_set; [done|exact Hf|]. by apply reads_int32.
Qed.

Lemma fields_uint64 (mk : Z -> A) tag v : tag_ok tag -> uint64_ok v ->
  field tag (mk 0) = Some (x ← r_uint64; mret (mk x)) -> fields_read field (wire_int tag v) (mk 0) (mk v).
Proof.
  intros Ht Hv Hf. unfold wire_int. case_decide as H0; [subst; constructor|]. eapply reads_set; [done|exact Hf|].
  pose proof (reads_uint64 v) as H. assert (u64 v = v) as E by (by apply Z.mod_small). by rewrite E in H |- *.
Qed.

Lemma fields_int64 (mk : Z -> A) tag v : tag_ok tag -> int64_ok v ->
  field tag (mk 0) = Some (x ← r_int64; mret (mk x)) -> fields_read field (wire_int tag v) (mk 0) (mk v).
Proof.
  intros Ht Hv Hf. unfold wire_int. case_decide as H0; [subst; constructor|]. eapply reads_set; [done|exact Hf|]. by apply reads_int64.
Qed.

Lemma fields_bool (mk : bool -> A) tag v : tag_ok tag ->
  field tag (mk false) = Some (x ← r_bool; mret (mk x)) -> fields_read field (wire_bool tag v) (mk false) (mk v).
Proof.
  intros Ht Hf. unfold wire_bool. destruct v; [|constructor]. eapply reads_set; [done|exact Hf|]. exact (reads_bool true).
Qed.

Lemma reads_delimited_bytes tag b : short (wire_delimited tag b) -> reads r_bytes (varint (Z.of_nat (length b)) ++ b) b.
Proof. intros [_ [_ Hb]%short_app]%short_app. by apply reads_bytes. Qed.

Lemma reads_delimited_string tag s : js_string s -> short (wire_delimited tag (utf8 s)) ->
  reads r_string (varint (Z.of_nat (length (utf8 s))) ++ utf8 s) s.
Proof. intros Hs [_ [_ Hb]%short_app]%short_app. by apply reads_string. Qed.

Lemma reads_delimited_message {B} `{MessageOk B} tag (v : B) : valid v -> short (wire_message tag v) ->
  reads r_message (varint (Z.of_nat (length (wire v))) ++ wire v) v.
Proof.
  intros Hv [_ [_ Hb]%short_app]%short_app. unfold r_message. eapply reads_bind; [apply reads_uint32; unfold short in Hb; lia|].
  apply reads_nested. by apply decode_wire.
Qed.

Lemma fields_bytes (mk : bytes -> A) tag v : tag_ok tag -> short (wire_bytes tag v) ->
  field tag (mk []) = Some (x ← r_bytes; mret (mk x)) -> fields_read field (wire_bytes tag v) (mk []) (mk v).
Proof.
  intros Ht Hb Hf. unfold wire_bytes in *. case_decide as H0; [apply nil_length_inv in H0 as ->; constructor|].
  eapply reads_set; [done|exact Hf|]. by eapply reads_delimited_bytes.
Qed.

Lemma fields_string (mk : string -> A) tag v : tag_ok tag -> js_string v -> short (wire_string tag v) ->
  field tag (mk "") = Some (x ← r_string; mret (mk x)) -> fields_read field (wire_string tag v) (mk "") (mk v).
Proof.
  intros Ht Hs Hb Hf. unfold wire_string in *. case_decide as H0; [subst; constructor|].
  eapply reads_set; [done|exact Hf|]. by eapply reads_delimited_string.
Qed.

Lemma fields_message {B} `{MessageOk B} (mk : B -> A) tag m v : tag_ok tag -> valid v -> short (wire_message tag v) ->
  field tag m = Some (x ← r_message; mret (mk x)) -> fields_read field (wire_message tag v) m (mk v).
Proof. intros Ht Hv Hb Hf. eapply reads_set; [done|exact Hf|]. by eapply reads_delimited_message. Qed.

(** Optional fields; [mk] is the message as a function of the field. *)
Lemma fields_opt_message {B} `{MessageOk B} (mk : option B -> A) tag v : tag_ok tag -> from_option valid True v ->
  short (wire_opt wire_message tag v) -> field tag (mk None) = Some (x ← r_message; mret (mk (Some x))) ->
  fields_read field (wire_opt wire_message tag v) (mk None) (mk v).
Proof.
  intros Ht Hv Hb Hf. destruct v as [x|]; [|constructor]. by apply (fields_message (fun x => mk (Some x))).
Qed.

Lemma fields_opt_bytes (mk : option bytes -> A) tag v : tag_ok tag -> short (wire_opt wire_delimited tag v) ->
  field tag (mk None) = Some (x ← r_bytes; mret (mk (Some x))) -> fields_read field (wire_opt wire_delimited tag v) (mk None) (mk v).
Proof.
  intros Ht Hb Hf. destruct v as [x|]; [|constructor].
  apply (reads_set r_bytes (fun x => mk (Some x))); [done|done|]. by eapply reads_delimited_bytes.
Qed.

Lemma fields_opt_string (mk : option string -> A) tag v : tag_ok tag -> from_option js_string True v -> short (wire_opt wire_text tag v) ->
  field tag (mk None) = Some (x ← r_string; mret (mk (Some x))) -> fields_read field (wire_opt wire_text tag v) (mk None) (mk v).
Proof.
  intros Ht Hs Hb Hf. destruct v as [x|]; [|constructor].
  apply (reads_set r_string (fun x => mk (Some x))); [done|done|]. by eapply reads_delimited_string.
Qed.

Lemma packed_reads l : Forall int32_ok l -> forall fuel acc pre post, (length (l ≫= fun v => varint (u64 v)) < fuel)%nat ->
  let b := l ≫= (fun v => varint (u64 v)) in let buf := pre ++ b ++ post in let len := Z.of_nat (length buf) in
  packed_loop fuel (Z.of_nat (length pre + length b)) acc (MkReader buf (Z.of_nat (length pre)) len) =
  (Ok (acc ++ l), MkReader buf (Z.of_nat (length pre + length b)) len).
Proof.
  induction 1 as [|v l Hv Hl IH]; intros fuel acc pre post Hf; cbv zeta; (destruct fuel as [|fuel]; [lia|]);
    cbn [packed_loop]; unfold mbind at 1, M_bind at 1, gets at 1; cbn [r_pos].
  - cbn. rewrite Nat.add_0_r, Z.leb_refl, app_nil_r. done.
  - cbn [mbind list_bind] in Hf |- *. set (b := l ≫= fun v => varint (u64 v)) in *.
    assert (0 < length (varint (u64 v)))%nat as Hp by (pose proof (varint_nonempty (u64 v)); destruct (varint (u64 v)); [done|cbn; lia]).
    rewrite length_app in Hf.
    destruct (Z.leb_spec (Z.of_nat (length pre + length (varint (u64 v) ++ b))) (Z.of_nat (length pre))) as [Hz|Hz]; [rewrite length_app in Hz; lia|].
    pose proof (reads_int32 v Hv pre (b ++ post)) as Hr. cbv zeta in Hr. rewrite <- app_assoc. unfold mbind, M_bind. rewrite Hr.
    specialize (IH fuel (acc ++ [v]) (pre ++ varint (u64 v)) post ltac:(lia)). cbv zeta in IH. fold b in IH.
    rewrite !length_app in IH |- *. rewrite <- !app_assoc in IH.
    replace (length pre + (length (varint (u64 v)) + length b))%nat with (length pre + length (varint (u64 v)) + length b)%nat by lia.
    replace (length pre + length (varint (u64 v)) + (length b + length post))%nat
      with (length pre + (length (varint (u64 v)) + (length b + length post)))%nat in IH by lia. exact IH.
Qed.

Lemma fields_packed (mk : list Z -> A) tag l : tag_ok tag -> Forall int32_ok l -> short (wire_packed tag l) ->
  field tag (mk []) = Some (x ← r_packed []; mret (mk x)) -> fields_read field (wire_packed tag l) (mk []) (mk l).
Proof.
  intros Ht Hl Hb Hf. eapply reads_set; [done|exact Hf|]. apply short_app in Hb as [_ [_ Hb]%short_app].
  unfold r_packed. eapply reads_bind; [apply reads_uint32; unfold short in Hb; lia|].
  intros pre post. pose proof (packed_reads l Hl) as H. set (b := l ≫= fun v => varint (u64 v)) in *. clearbody b.
  cbv zeta. unfold mbind, M_bind, gets. cbn [r_buf r_pos]. rewrite Z.add_comm, <- Nat2Z.inj_add.
  apply H. rewrite !length_app. lia.
Qed.

(** Repeated fields are pushed in order. *)
Lemma fields_repeated {B} (g : Z -> B -> bytes) (P : B -> Prop) (mk : list B -> A) tag l :
  (forall acc x, P x -> short (g tag x) -> fields_read field (g tag x) (mk acc) (mk (acc ++ [x]))) ->
  Forall P l -> short (wire_repeated g tag l) -> fields_read field (wire_repeated g tag l) (mk []) (mk l).
Proof.
  intros Hf Hl. assert (forall acc, short (wire_repeated g tag l) -> fields_read field (wire_repeated g tag l) (mk acc) (mk (acc ++ l))) as H.
  { unfold wire_repeated. induction Hl as [|x l Hx Hl IH]; intros acc Hb; [rewrite app_nil_r; constructor|].
    cbn in Hb |- *. apply short_app in Hb as [Hb1 Hb2]. eapply fields_app; [by apply Hf|].
    specialize (IH (acc ++ [x]) Hb2). by rewrite <- app_assoc in IH. }
  intros Hb. exact (H [] Hb).
Qed.

Lemma fields_rep_message {B} `{MessageOk B} (mk : list B -> A) tag l : tag_ok tag -> Forall valid l ->
  short (wire_repeated wire_message tag l) -> (forall acc, field tag (mk acc) = Some (x ← r_message; mret (mk (acc ++ [x])))) ->
  fields_read field (wire_repeated wire_message tag l) (mk []) (mk l).
Proof.
  intros Ht Hl Hb Hf. apply (fields_repeated wire_message valid); [|done|done].
  intros acc x Hx Hs. by apply (fields_message (fun x => mk (acc ++ [x]))).
Qed.

Lemma fields_rep_string (mk : list string -> A) tag l : tag_ok tag -> Forall js_string l ->
  short (wire_repeated wire_text tag l) -> (forall acc, field tag (mk acc) = Some (x ← r_string; mret (mk (acc ++ [x])))) ->
  fields_read field (wire_repeated wire_text tag l) (mk []) (mk l).
Proof.
  intros Ht Hl Hb Hf. apply (fields_repeated wire_text js_string); [|done|done].
  intros acc x Hx Hs. apply (reads_set r_string (fun x => mk (acc ++ [x]))); [done|done|]. by eapply reads_delimited_string.
Qed.
End reading.

Lemma moves_message {A} `{MessageOk A} : moves 1 r_message.
Proof.
  change 1 with (1 + 0). unfold r_message. apply moves_bind; [apply moves_varint32|]. intros n. apply moves_nested, decode_moves.
Qed.

Lemma packed_moves fuel end2 acc r : reader_ok r -> (room r < fuel)%nat ->
  match packed_loop fuel end2 acc r with
  | (Ok _, r') => reader_ok r' /\ r_buf r' = r_buf r /\ r_pos r <= r_pos r'
  | (Err e, _) => e <> OutOfFuel
  end.
Proof.
  revert acc r. induction fuel as [|fuel IH]; intros acc r Hr Hf; [lia|]. cbn [packed_loop].
  unfold mbind at 1, M_bind at 1, gets at 1. destruct (Z.leb_spec end2 (r_pos r)); [cbn; split_and!; [done|done|lia]|].
  unfold mbind at 1, M_bind at 1. pose proof (moves_int32 r Hr) as Hm. destruct (r_int32 r) as [[v|e] r1]; [|done].
  destruct Hm as (H1 & H2 & H3). pose proof (room_moves r r1 Hr H1 H2 H3). specialize (IH (acc ++ [v]) r1 H1 ltac:(lia)).
  destruct (packed_loop fuel end2 (acc ++ [v]) r1) as [[x|e] r2]; [|done]. destruct IH as (G1 & G2 & G3). split_and!; [done|congruence|lia].
Qed.

Lemma moves_packed acc : moves 1 (r_packed acc).
Proof.
  change 1 with (1 + 0). unfold r_packed. apply moves_bind; [apply moves_varint32|]. intros n r Hr. unfold mbind, M_bind, gets.
  assert (room r < S (length (r_buf r)))%nat as Hroom by (destruct Hr as [? Hl]; unfold room; lia).
  pose proof (packed_moves _ (n + r_pos r) acc r Hr Hroom) as H. destruct (packed_loop _ _ _ _) as [[x|e] r']; [|done].
  destruct H as (? & ? & ?). split_and!; [done|done|lia].
Qed.

#[global] Arguments base_message : simpl never.
#[global] Arguments field_case : simpl never.
#[global] Arguments wire_int : simpl never.
#[global] Arguments wire_bool : simpl never.
#[global] Arguments wire_string : simpl never.
#[global] Arguments wire_bytes : simpl never.
#[global] Arguments wire_text : simpl never.
#[global] Arguments wire_message : simpl never.
#[global] Arguments wire_opt : simpl never.
#[global] Arguments wire_repeated : simpl never.
#[global] Arguments wire_packed : simpl never.

Create HintDb proto.
#[export] Hint Resolve moves_int32 moves_uint64 moves_int64 moves_bool moves_bytes moves_string moves_packed moves_field : proto.
#[export] Hint Extern 1 (moves 1 r_message) => apply moves_message : proto.

#[export] Hint Resolve emits_field_int32 emits_field_uint64 emits_field_int64 emits_field_bool emits_field_string emits_field_bytes
  emits_field_message emits_opt_message emits_opt_bytes emits_opt_string emits_rep_message emits_rep_string emits_field_packed : proto.
#[export] Hint Extern 1 (tag_ok _) => unfold tag_ok; lia : proto.

(** [encode_wire] of a message: the fields one by one, from the validity of each. *)
Ltac message_encodes :=
  intros m Hv Hs; cbn in Hv; destruct_and? Hv; apply emits_fields; [|exact Hs];
  repeat (apply List.Forall2_cons; [intros ?; auto with proto|]); apply List.Forall2_nil.

(** The next field is read by lemma [L] into the message as a function of it. *)
Tactic Notation "field_step" uconstr(L) := eapply fields_app; [apply L; auto with proto; reflexivity|].

(** Every case of the [switch] [c] of a [decode] reads its value and assigns it. *)
Tactic Notation "field_moves" constr(c) :=
  intros tag m mm H; change (c tag m = Some mm) in H; destruct m; unfold c in H; cbn beta iota in H;
  destruct (js_shr tag 3) as [|p|p]; try discriminate H;
  do 5 (try (destruct p as [p|p|]; try discriminate H));
  try case_decide; simplify_eq; auto with proto.
