(* ===== verification/ProtoMessages.v ===== *)
(** * The generated IBC messages ([proto-types/src/ibc/core], [proto-types/src/cosmos/ics23])

    For each message its record, its [encode] and the [switch] of its [decode].  Enum
    values are the numbers on the wire.  Numbers, texts and byte strings have the
    defaults of [createBase...]. *)

From Stdlib Require Import ZArith.
From S2P Require Import Prelude JsString JsNumber Varint Utf8 Binary ProtoCodec.

#[local] Open Scope Z_scope.
#[local] Open Scope js_scope.

(** ** [ibc/core/client/v1/client.ts] *)

Record PHeight := MkPHeight { ph_revision_number : Z; ph_revision_height : Z }.
Definition PHeight_encode (m : PHeight) : BinaryWriter -> BinaryWriter := write_fields
  [field_uint64 8 (ph_revision_number m); field_uint64 16 (ph_revision_height m)].
Definition PHeight_case (tag : Z) (m : PHeight) : option (M BinaryReader PHeight) :=
  match tag .>>> 3 with
  | 1 => Some (v ← r_uint64; mret (MkPHeight v (ph_revision_height m)))
  | 2 => Some (v ← r_uint64; mret (MkPHeight (ph_revision_number m) v))
  | _ => None
  end.
#[export] Instance PHeight_message : Message PHeight :=
  {| base_message := MkPHeight 0 0; encode_to := PHeight_encode; field_case := PHeight_case |}.

(** ** [ibc/core/channel/v1/channel.ts] *)

Record PCounterparty := MkPCounterparty { pc_port_id : string; pc_channel_id : string }.
Definition PCounterparty_encode (m : PCounterparty) : BinaryWriter -> BinaryWriter := write_fields
  [field_string 10 (pc_port_id m); field_string 18 (pc_channel_id m)].
Definition PCounterparty_case (tag : Z) (m : PCounterparty) : option (M BinaryReader PCounterparty) :=
  match tag .>>> 3 with
  | 1 => Some (v ← r_string; mret (MkPCounterparty v (pc_channel_id m)))
  | 2 => Some (v ← r_string; mret (MkPCounterparty (pc_port_id m) v))
  | _ => None
  end.
#[export] Instance PCounterparty_message : Message PCounterparty :=
  {| base_message := MkPCounterparty "" ""; encode_to := PCounterparty_encode; field_case := PCounterparty_case |}.

Record PChannel := MkPChannel {
  pch_state : Z; pch_ordering : Z; pch_counterparty : PCounterparty; pch_connection_hops : list string; pch_version : string;
}.
Definition PChannel_encode (m : PChannel) : BinaryWriter -> BinaryWriter := write_fields
  [field_int32 8 (pch_state m); field_int32 16 (pch_ordering m); field_message encode_to 26 (pch_counterparty m);
   field_repeated write_string 34 (pch_connection_hops m); field_string 42 (pch_version m)].
Definition PChannel_case (tag : Z) (m : PChannel) : option (M BinaryReader PChannel) :=
  let '(MkPChannel s o c h ver) := m in
  match tag .>>> 3 with
  | 1 => Some (v ← r_int32; mret (MkPChannel v o c h ver))
  | 2 => Some (v ← r_int32; mret (MkPChannel s v c h ver))
  | 3 => Some (v ← r_message; mret (MkPChannel s o v h ver))
  | 4 => Some (v ← r_string; mret (MkPChannel s o c (h ++ [v]) ver))
  | 5 => Some (v ← r_string; mret (MkPChannel s o c h v))
  | _ => None
  end.
#[export] Instance PChannel_message : Message PChannel :=
  {| base_message := MkPChannel 0 0 base_message [] ""; encode_to := PChannel_encode; field_case := PChannel_case |}.

Record PPacket := MkPPacket {
  ppk_sequence : Z; ppk_source_port : string; ppk_source_channel : string; ppk_destination_port : string;
  ppk_destination_channel : string; ppk_data : bytes; ppk_timeout_height : PHeight; ppk_timeout_timestamp : Z;
}.
Definition PPacket_encode (m : PPacket) : BinaryWriter -> BinaryWriter := write_fields
  [field_uint64 8 (ppk_sequence m); field_string 18 (ppk_source_port m); field_string 26 (ppk_source_channel m);
   field_string 34 (ppk_destination_port m); field_string 42 (ppk_destination_channel m); field_bytes 50 (ppk_data m);
   field_message encode_to 58 (ppk_timeout_height m); field_uint64 64 (ppk_timeout_timestamp m)].
Definition PPacket_case (tag : Z) (m : PPacket) : option (M BinaryReader PPacket) :=
  let '(MkPPacket n sp sc dp dc d h t) := m in
  match tag .>>> 3 with
  | 1 => Some (v ← r_uint64; mret (MkPPacket v sp sc dp dc d h t))
  | 2 => Some (v ← r_string; mret (MkPPacket n v sc dp dc d h t))
  | 3 => Some (v ← r_string; mret (MkPPacket n sp v dp dc d h t))
  | 4 => Some (v ← r_string; mret (MkPPacket n sp sc v dc d h t))
  | 5 => Some (v ← r_string; mret (MkPPacket n sp sc dp v d h t))
  | 6 => Some (v ← r_bytes; mret (MkPPacket n sp sc dp dc v h t))
  | 7 => Some (v ← r_message; mret (MkPPacket n sp sc dp dc d v t))
  | 8 => Some (v ← r_uint64; mret (MkPPacket n sp sc dp dc d h v))
  | _ => None
  end.
#[export] Instance PPacket_message : Message PPacket :=
  {| base_message := MkPPacket 0 "" "" "" "" [] base_message 0; encode_to := PPacket_encode; field_case := PPacket_case |}.

Record PAcknowledgement := MkPAcknowledgement { pa_result : option bytes; pa_error : option string }.
Definition PAcknowledgement_encode (m : PAcknowledgement) : BinaryWriter -> BinaryWriter := write_fields
  [field_opt write_bytes 170 (pa_result m); field_opt write_string 178 (pa_error m)].
Definition PAcknowledgement_case (tag : Z) (m : PAcknowledgement) : option (M BinaryReader PAcknowledgement) :=
  match tag .>>> 3 with
  | 21 => Some (v ← r_bytes; mret (MkPAcknowledgement (Some v) (pa_error m)))
  | 22 => Some (v ← r_string; mret (MkPAcknowledgement (pa_result m) (Some v)))
  | _ => None
  end.
#[export] Instance PAcknowledgement_message : Message PAcknowledgement :=
  {| base_message := MkPAcknowledgement None None; encode_to := PAcknowledgement_encode; field_case := PAcknowledgement_case |}.

(** ** [ibc/core/commitment/v1/commitment.ts] *)

Record PMerkleRoot := MkPMerkleRoot { pr_hash : bytes }.
Definition PMerkleRoot_encode (m : PMerkleRoot) : BinaryWriter -> BinaryWriter := write_fields [field_bytes 10 (pr_hash m)].
Definition PMerkleRoot_case (tag : Z) (m : PMerkleRoot) : option (M BinaryReader PMerkleRoot) :=
  match tag .>>> 3 with 1 => Some (v ← r_bytes; mret (MkPMerkleRoot v)) | _ => None end.
#[export] Instance PMerkleRoot_message : Message PMerkleRoot :=
  {| base_message := MkPMerkleRoot []; encode_to := PMerkleRoot_encode; field_case := PMerkleRoot_case |}.

Record PMerklePrefix := MkPMerklePrefix { px_key_prefix : bytes }.
Definition PMerklePrefix_encode (m : PMerklePrefix) : BinaryWriter -> BinaryWriter := write_fields [field_bytes 10 (px_key_prefix m)].
Definition PMerklePrefix_case (tag : Z) (m : PMerklePrefix) : option (M BinaryReader PMerklePrefix) :=
  match tag .>>> 3 with 1 => Some (v ← r_bytes; mret (MkPMerklePrefix v)) | _ => None end.
#[export] Instance PMerklePrefix_message : Message PMerklePrefix :=
  {| base_message := MkPMerklePrefix []; encode_to := PMerklePrefix_encode; field_case := PMerklePrefix_case |}.

(** ** [ibc/core/connection/v1/connection.ts] *)

Record PVersion := MkPVersion { pv_identifier : string; pv_features : list string }.
Definition PVersion_encode (m : PVersion) : BinaryWriter -> BinaryWriter := write_fields
  [field_string 10 (pv_identifier m); field_repeated write_string 18 (pv_features m)].
Definition PVersion_case (tag : Z) (m : PVersion) : option (M BinaryReader PVersion) :=
  match tag .>>> 3 with
  | 1 => Some (v ← r_string; mret (MkPVersion v (pv_features m)))
  | 2 => Some (v ← r_string; mret (MkPVersion (pv_identifier m) (pv_features m ++ [v])))
  | _ => None
  end.
#[export] Instance PVersion_message : Message PVersion :=
  {| base_message := MkPVersion "" []; encode_to := PVersion_encode; field_case := PVersion_case |}.

Record PConnCounterparty := MkPConnCounterparty { pcc_client_id : string; pcc_connection_id : string; pcc_prefix : PMerklePrefix }.
Definition PConnCounterparty_encode (m : PConnCounterparty) : BinaryWriter -> BinaryWriter := write_fields
  [field_string 10 (pcc_client_id m); field_string 18 (pcc_connection_id m); field_message encode_to 26 (pcc_prefix m)].
Definition PConnCounterparty_case (tag : Z) (m : PConnCounterparty) : option (M BinaryReader PConnCounterparty) :=
  match tag .>>> 3 with
  | 1 => Some (v ← r_string; mret (MkPConnCounterparty v (pcc_connection_id m) (pcc_prefix m)))
  | 2 => Some (v ← r_string; mret (MkPConnCounterparty (pcc_client_id m) v (pcc_prefix m)))
  | 3 => Some (v ← r_message; mret (MkPConnCounterparty (pcc_client_id m) (pcc_connection_id m) v))
  | _ => None
  end.
#[export] Instance PConnCounterparty_message : Message PConnCounterparty :=
  {| base_message := MkPConnCounterparty "" "" base_message; encode_to := PConnCounterparty_encode;
     field_case := PConnCounterparty_case |}.

Record PConnectionEnd := MkPConnectionEnd {
  pce_client_id : string; pce_versions : list PVersion; pce_state : Z; pce_counterparty : PConnCounterparty; pce_delay_period : Z;
}.
Definition PConnectionEnd_encode (m : PConnectionEnd) : BinaryWriter -> BinaryWriter := write_fields
  [field_string 10 (pce_client_id m); field_repeated (field_message encode_to) 18 (pce_versions m); field_int32 24 (pce_state m);
   field_message encode_to 34 (pce_counterparty m); field_uint64 40 (pce_delay_period m)].
Definition PConnectionEnd_case (tag : Z) (m : PConnectionEnd) : option (M BinaryReader PConnectionEnd) :=
  let '(MkPConnectionEnd ci vs s cp dp) := m in
  match tag .>>> 3 with
  | 1 => Some (v ← r_string; mret (MkPConnectionEnd v vs s cp dp))
  | 2 => Some (v ← r_message; mret (MkPConnectionEnd ci (vs ++ [v]) s cp dp))
  | 3 => Some (v ← r_int32; mret (MkPConnectionEnd ci vs v cp dp))
  | 4 => Some (v ← r_message; mret (MkPConnectionEnd ci vs s v dp))
  | 5 => Some (v ← r_uint64; mret (MkPConnectionEnd ci vs s cp v))
  | _ => None
  end.
#[export] Instance PConnectionEnd_message : Message PConnectionEnd :=
  {| base_message := MkPConnectionEnd "" [] 0 base_message 0; encode_to := PConnectionEnd_encode; field_case := PConnectionEnd_case |}.

(** ** [cosmos/ics23/v1/proofs.ts] *)

Record PLeafOp := MkPLeafOp { pl_hash : Z; pl_prehash_key : Z; pl_prehash_value : Z; pl_length : Z; pl_prefix : bytes }.
Definition PLeafOp_encode (m : PLeafOp) : BinaryWriter -> BinaryWriter := write_fields
  [field_int32 8 (pl_hash m); field_int32 16 (pl_prehash_key m); field_int32 24 (pl_prehash_value m);
   field_int32 32 (pl_length m); field_bytes 42 (pl_prefix m)].
Definition PLeafOp_case (tag : Z) (m : PLeafOp) : option (M BinaryReader PLeafOp) :=
  let '(MkPLeafOp h pk pv l p) := m in
  match tag .>>> 3 with
  | 1 => Some (v ← r_int32; mret (MkPLeafOp v pk pv l p))
  | 2 => Some (v ← r_int32; mret (MkPLeafOp h v pv l p))
  | 3 => Some (v ← r_int32; mret (MkPLeafOp h pk v l p))
  | 4 => Some (v ← r_int32; mret (MkPLeafOp h pk pv v p))
  | 5 => Some (v ← r_bytes; mret (MkPLeafOp h pk pv l v))
  | _ => None
  end.
#[export] Instance PLeafOp_message : Message PLeafOp :=
  {| base_message := MkPLeafOp 0 0 0 0 []; encode_to := PLeafOp_encode; field_case := PLeafOp_case |}.

Record PInnerOp := MkPInnerOp { pi_hash : Z; pi_prefix : bytes; pi_suffix : bytes }.
Definition PInnerOp_encode (m : PInnerOp) : BinaryWriter -> BinaryWriter := write_fields
  [field_int32 8 (pi_hash m); field_bytes 18 (pi_prefix m); field_bytes 26 (pi_suffix m)].
Definition PInnerOp_case (tag : Z) (m : PInnerOp) : option (M BinaryReader PInnerOp) :=
  match tag .>>> 3 with
  | 1 => Some (v ← r_int32; mret (MkPInnerOp v (pi_prefix m) (pi_suffix m)))
  | 2 => Some (v ← r_bytes; mret (MkPInnerOp (pi_hash m) v (pi_suffix m)))
  | 3 => Some (v ← r_bytes; mret (MkPInnerOp (pi_hash m) (pi_prefix m) v))
  | _ => None
  end.
#[export] Instance PInnerOp_message : Message PInnerOp :=
  {| base_message := MkPInnerOp 0 [] []; encode_to := PInnerOp_encode; field_case := PInnerOp_case |}.

Record PExistenceProof := MkPExistenceProof { pe_key : bytes; pe_value : bytes; pe_leaf : option PLeafOp; pe_path : list PInnerOp }.
Definition PExistenceProof_encode (m : PExistenceProof) : BinaryWriter -> BinaryWriter := write_fields
  [field_bytes 10 (pe_key m); field_bytes 18 (pe_value m); field_opt (field_message encode_to) 26 (pe_leaf m);
   field_repeated (field_message encode_to) 34 (pe_path m)].
Definition PExistenceProof_case (tag : Z) (m : PExistenceProof) : option (M BinaryReader PExistenceProof) :=
  let '(MkPExistenceProof k val lf p) := m in
  match tag .>>> 3 with
  | 1 => Some (v ← r_bytes; mret (MkPExistenceProof v val lf p))
  | 2 => Some (v ← r_bytes; mret (MkPExistenceProof k v lf p))
  | 3 => Some (v ← r_message; mret (MkPExistenceProof k val (Some v) p))
  | 4 => Some (v ← r_message; mret (MkPExistenceProof k val lf (p ++ [v])))
  | _ => None
  end.
#[export] Instance PExistenceProof_message : Message PExistenceProof :=
  {| base_message := MkPExistenceProof [] [] None []; encode_to := PExistenceProof_encode; field_case := PExistenceProof_case |}.

Record PNonExistenceProof := MkPNonExistenceProof { pn_key : bytes; pn_left : option PExistenceProof; pn_right : option PExistenceProof }.
Definition PNonExistenceProof_encode (m : PNonExistenceProof) : BinaryWriter -> BinaryWriter := write_fields
  [field_bytes 10 (pn_key m); field_opt (field_message encode_to) 18 (pn_left m); field_opt (field_message encode_to) 26 (pn_right m)].
Definition PNonExistenceProof_case (tag : Z) (m : PNonExistenceProof) : option (M BinaryReader PNonExistenceProof) :=
  match tag .>>> 3 with
  | 1 => Some (v ← r_bytes; mret (MkPNonExistenceProof v (pn_left m) (pn_right m)))
  | 2 => Some (v ← r_message; mret (MkPNonExistenceProof (pn_key m) (Some v) (pn_right m)))
  | 3 => Some (v ← r_message; mret (MkPNonExistenceProof (pn_key m) (pn_left m) (Some v)))
  | _ => None
  end.
#[export] Instance PNonExistenceProof_message : Message PNonExistenceProof :=
  {| base_message := MkPNonExistenceProof [] None None; encode_to := PNonExistenceProof_encode; field_case := PNonExistenceProof_case |}.

Record PBatchEntry := MkPBatchEntry { pb_exist : option PExistenceProof; pb_nonexist : option PNonExistenceProof }.
Definition PBatchEntry_encode (m : PBatchEntry) : BinaryWriter -> BinaryWriter := write_fields
  [field_opt (field_message encode_to) 10 (pb_exist m); field_opt (field_message encode_to) 18 (pb_nonexist m)].
Definition PBatchEntry_case (tag : Z) (m : PBatchEntry) : option (M BinaryReader PBatchEntry) :=
  match tag .>>> 3 with
  | 1 => Some (v ← r_message; mret (MkPBatchEntry (Some v) (pb_nonexist m)))
  | 2 => Some (v ← r_message; mret (MkPBatchEntry (pb_exist m) (Some v)))
  | _ => None
  end.
#[export] Instance PBatchEntry_message : Message PBatchEntry :=
  {| base_message := MkPBatchEntry None None; encode_to := PBatchEntry_encode; field_case := PBatchEntry_case |}.

Record PBatchProof := MkPBatchProof { pb_entries : list PBatchEntry }.
Definition PBatchProof_encode (m : PBatchProof) : BinaryWriter -> BinaryWriter := write_fields
  [field_repeated (field_message encode_to) 10 (pb_entries m)].
Definition PBatchProof_case (tag : Z) (m : PBatchProof) : option (M BinaryReader PBatchProof) :=
  match tag .>>> 3 with 1 => Some (v ← r_message; mret (MkPBatchProof (pb_entries m ++ [v]))) | _ => None end.
#[export] Instance PBatchProof_message : Message PBatchProof :=
  {| base_message := MkPBatchProof []; encode_to := PBatchProof_encode; field_case := PBatchProof_case |}.

(** The path is packed; [decode] also accepts single values. *)
Record PCompressedExistenceProof := MkPCompressedExistenceProof {
  pk_key : bytes; pk_value : bytes; pk_leaf : option PLeafOp; pk_path : list Z;
}.
Definition PCompressedExistenceProof_encode (m : PCompressedExistenceProof) : BinaryWriter -> BinaryWriter := write_fields
  [field_bytes 10 (pk_key m); field_bytes 18 (pk_value m); field_opt (field_message encode_to) 26 (pk_leaf m);
   field_packed 34 (pk_path m)].
Definition PCompressedExistenceProof_case (tag : Z) (m : PCompressedExistenceProof) : option (M BinaryReader PCompressedExistenceProof) :=
  let '(MkPCompressedExistenceProof k val lf p) := m in
  match tag .>>> 3 with
  | 1 => Some (v ← r_bytes; mret (MkPCompressedExistenceProof v val lf p))
  | 2 => Some (v ← r_bytes; mret (MkPCompressedExistenceProof k v lf p))
  | 3 => Some (v ← r_message; mret (MkPCompressedExistenceProof k val (Some v) p))
  | 4 => if decide (tag .& 7 = 2) then Some (v ← r_packed p; mret (MkPCompressedExistenceProof k val lf v))
         else Some (v ← r_int32; mret (MkPCompressedExistenceProof k val lf (p ++ [v])))
  | _ => None
  end.
#[export] Instance PCompressedExistenceProof_message : Message PCompressedExistenceProof :=
  {| base_message := MkPCompressedExistenceProof [] [] None []; encode_to := PCompressedExistenceProof_encode;
     field_case := PCompressedExistenceProof_case |}.

Record PCompressedNonExistenceProof := MkPCompressedNonExistenceProof {
  pq_key : bytes; pq_left : option PCompressedExistenceProof; pq_right : option PCompressedExistenceProof;
}.
Definition PCompressedNonExistenceProof_encode (m : PCompressedNonExistenceProof) : BinaryWriter -> BinaryWriter := write_fields
  [field_bytes 10 (pq_key m); field_opt (field_message encode_to) 18 (pq_left m); field_opt (field_message encode_to) 26 (pq_right m)].
Definition PCompressedNonExistenceProof_case (tag : Z) (m : PCompressedNonExistenceProof)
  : option (M BinaryReader PCompressedNonExistenceProof) :=
  match tag .>>> 3 with
  | 1 => Some (v ← r_bytes; mret (MkPCompressedNonExistenceProof v (pq_left m) (pq_right m)))
  | 2 => Some (v ← r_message; mret (MkPCompressedNonExistenceProof (pq_key m) (Some v) (pq_right m)))
  | 3 => Some (v ← r_message; mret (MkPCompressedNonExistenceProof (pq_key m) (pq_left m) (Some v)))
  | _ => None
  end.
#[export] Instance PCompressedNonExistenceProof_message : Message PCompressedNonExistenceProof :=
  {| base_message := MkPCompressedNonExistenceProof [] None None; encode_to := PCompressedNonExistenceProof_encode;
     field_case := PCompressedNonExistenceProof_case |}.

Record PCompressedBatchEntry := MkPCompressedBatchEntry {
  pcb_exist : option PCompressedExistenceProof; pcb_nonexist : option PCompressedNonExistenceProof;
}.
Definition PCompressedBatchEntry_encode (m : PCompressedBatchEntry) : BinaryWriter -> BinaryWriter := write_fields
  [field_opt (field_message encode_to) 10 (pcb_exist m); field_opt (field_message encode_to) 18 (pcb_nonexist m)].
Definition PCompressedBatchEntry_case (tag : Z) (m : PCompressedBatchEntry) : option (M BinaryReader PCompressedBatchEntry) :=
  match tag .>>> 3 with
  | 1 => Some (v ← r_message; mret (MkPCompressedBatchEntry (Some v) (pcb_nonexist m)))
  | 2 => Some (v ← r_message; mret (MkPCompressedBatchEntry (pcb_exist m) (Some v)))
  | _ => None
  end.
#[export] Instance PCompressedBatchEntry_message : Message PCompressedBatchEntry :=
  {| base_message := MkPCompressedBatchEntry None None; encode_to := PCompressedBatchEntry_encode;
     field_case := PCompressedBatchEntry_case |}.

Record PCompressedBatchProof := MkPCompressedBatchProof { pcb_entries : list PCompressedBatchEntry; pcb_lookup_inners : list PInnerOp }.
Definition PCompressedBatchProof_encode (m : PCompressedBatchProof) : BinaryWriter -> BinaryWriter := write_fields
  [field_repeated (field_message encode_to) 10 (pcb_entries m); field_repeated (field_message encode_to) 18 (pcb_lookup_inners m)].
Definition PCompressedBatchProof_case (tag : Z) (m : PCompressedBatchProof) : option (M BinaryReader PCompressedBatchProof) :=
  match tag .>>> 3 with
  | 1 => Some (v ← r_message; mret (MkPCompressedBatchProof (pcb_entries m ++ [v]) (pcb_lookup_inners m)))
  | 2 => Some (v ← r_message; mret (MkPCompressedBatchProof (pcb_entries m) (pcb_lookup_inners m ++ [v])))
  | _ => None
  end.
#[export] Instance PCompressedBatchProof_message : Message PCompressedBatchProof :=
  {| base_message := MkPCompressedBatchProof [] []; encode_to := PCompressedBatchProof_encode;
     field_case := PCompressedBatchProof_case |}.

Record PCommitmentProof := MkPCommitmentProof {
  pm_exist : option PExistenceProof; pm_nonexist : option PNonExistenceProof; pm_batch : option PBatchProof;
  pm_compressed : option PCompressedBatchProof;
}.
Definition PCommitmentProof_encode (m : PCommitmentProof) : BinaryWriter -> BinaryWriter := write_fields
  [field_opt (field_message encode_to) 10 (pm_exist m); field_opt (field_message encode_to) 18 (pm_nonexist m);
   field_opt (field_message encode_to) 26 (pm_batch m); field_opt (field_message encode_to) 34 (pm_compressed m)].
Definition PCommitmentProof_case (tag : Z) (m : PCommitmentProof) : option (M BinaryReader PCommitmentProof) :=
  let '(MkPCommitmentProof e n b c) := m in
  match tag .>>> 3 with
  | 1 => Some (v ← r_message; mret (MkPCommitmentProof (Some v) n b c))
  | 2 => Some (v ← r_message; mret (MkPCommitmentProof e (Some v) b c))
  | 3 => Some (v ← r_message; mret (MkPCommitmentProof e n (Some v) c))
  | 4 => Some (v ← r_message; mret (MkPCommitmentProof e n b (Some v)))
  | _ => None
  end.
#[export] Instance PCommitmentProof_message : Message PCommitmentProof :=
  {| base_message := MkPCommitmentProof None None None None; encode_to := PCommitmentProof_encode; field_case := PCommitmentProof_case |}.

Record PMerkleProof := MkPMerkleProof { pm_proofs : list PCommitmentProof }.
Definition PMerkleProof_encode (m : PMerkleProof) : BinaryWriter -> BinaryWriter := write_fields
  [field_repeated (field_message encode_to) 10 (pm_proofs m)].
Definition PMerkleProof_case (tag : Z) (m : PMerkleProof) : option (M BinaryReader PMerkleProof) :=
  match tag .>>> 3 with 1 => Some (v ← r_message; mret (MkPMerkleProof (pm_proofs m ++ [v]))) | _ => None end.
#[export] Instance PMerkleProof_message : Message PMerkleProof :=
  {| base_message := MkPMerkleProof []; encode_to := PMerkleProof_encode; field_case := PMerkleProof_case |}.
