(* ===== verification/ProtoLaws.v ===== *)
(** * The laws of the generated IBC messages

    For each message its field ranges ([valid]), its wire image ([wire], the protobuf
    encoding written as a list of fields) and the [MessageOk] laws: [encode] writes the
    image, [decode] reads it back, [decode] ends on every input. *)

From Stdlib Require Import ZArith Lia.
From S2P Require Import Prelude JsString JsNumber Varint Utf8 Binary ProtoCodec ProtoMessages.

#[local] Open Scope Z_scope.

(** The message is read field by field, each field a function of the ones after it. *)
Ltac read_fields m := intros m Hv Hs; cbn in Hv; destruct_and? Hv; cbn [concat] in Hs;
  repeat match goal with H : short (_ ++ _) |- _ => apply short_app in H as [? ?] end.

#[export] Instance PHeight_ok : MessageOk PHeight.
Proof.
  refine {|
    valid m := uint64_ok (ph_revision_number m) /\ uint64_ok (ph_revision_height m);
    wire m := concat [wire_int 8 (ph_revision_number m); wire_int 16 (ph_revision_height m)] |}.
  - message_encodes.
  - read_fields m. destruct m as [n h]; cbn in *.
    field_step (fields_uint64 _ (fun x => MkPHeight x 0)).
    field_step (fields_uint64 _ (fun x => MkPHeight n x)). constructor.
  - field_moves PHeight_case.
Defined.

#[export] Instance PCounterparty_ok : MessageOk PCounterparty.
Proof.
  refine {|
    valid m := js_string (pc_port_id m) /\ js_string (pc_channel_id m);
    wire m := concat [wire_string 10 (pc_port_id m); wire_string 18 (pc_channel_id m)] |}.
  - message_encodes.
  - read_fields m. destruct m as [p c]; cbn in *.
    field_step (fields_string _ (fun x => MkPCounterparty x "")).
    field_step (fields_string _ (fun x => MkPCounterparty p x)). constructor.
  - field_moves PCounterparty_case.
Defined.

#[export] Instance PChannel_ok : MessageOk PChannel.
Proof.
  refine {|
    valid m := int32_ok (pch_state m) /\ int32_ok (pch_ordering m) /\ valid (pch_counterparty m) /\
      Forall js_string (pch_connection_hops m) /\ js_string (pch_version m);
    wire m := concat [wire_int 8 (pch_state m); wire_int 16 (pch_ordering m); wire_message 26 (pch_counterparty m);
      wire_repeated wire_text 34 (pch_connection_hops m); wire_string 42 (pch_version m)] |}.
  - message_encodes.
  - read_fields m. destruct m as [s o c h v]; cbn in *.
    field_step (fields_int32 _ (fun x => MkPChannel x 0 base_message [] "")).
    field_step (fields_int32 _ (fun x => MkPChannel s x base_message [] "")).
    field_step (fields_message _ (fun x => MkPChannel s o x [] "")).
    field_step (fields_rep_string _ (fun x => MkPChannel s o c x "")).
    field_step (fields_string _ (fun x => MkPChannel s o c h x)). constructor.
  - field_moves PChannel_case.
Defined.

#[export] Instance PPacket_ok : MessageOk PPacket.
Proof.
  refine {|
    valid m := uint64_ok (ppk_sequence m) /\ js_string (ppk_source_port m) /\ js_string (ppk_source_channel m) /\
      js_string (ppk_destination_port m) /\ js_string (ppk_destination_channel m) /\ valid (ppk_timeout_height m) /\
      uint64_ok (ppk_timeout_timestamp m);
    wire m := concat [wire_int 8 (ppk_sequence m); wire_string 18 (ppk_source_port m); wire_string 26 (ppk_source_channel m);
      wire_string 34 (ppk_destination_port m); wire_string 42 (ppk_destination_channel m); wire_bytes 50 (ppk_data m);
      wire_message 58 (ppk_timeout_height m); wire_int 64 (ppk_timeout_timestamp m)] |}.
  - message_encodes.
  - read_fields m. destruct m as [s sp sc dp dc d th tt]; cbn in *.
    field_step (fields_uint64 _ (fun x => MkPPacket x "" "" "" "" [] base_message 0)).
    field_step (fields_string _ (fun x => MkPPacket s x "" "" "" [] base_message 0)).
    field_step (fields_string _ (fun x => MkPPacket s sp x "" "" [] base_message 0)).
    field_step (fields_string _ (fun x => MkPPacket s sp sc x "" [] base_message 0)).
    field_step (fields_string _ (fun x => MkPPacket s sp sc dp x [] base_message 0)).
    field_step (fields_bytes _ (fun x => MkPPacket s sp sc dp dc x base_message 0)).
    field_step (fields_message _ (fun x => MkPPacket s sp sc dp dc d x 0)).
    field_step (fields_uint64 _ (fun x => MkPPacket s sp sc dp dc d th x)). constructor.
  - field_moves PPacket_case.
Defined.

#[export] Instance PAcknowledgement_ok : MessageOk PAcknowledgement.
Proof.
  refine {|
    valid m := from_option js_string True (pa_error m);
    wire m := concat [wire_opt wire_delimited 170 (pa_result m); wire_opt wire_text 178 (pa_error m)] |}.
  - message_encodes.
  - read_fields m. destruct m as [r e]; cbn in *.
    field_step (fields_opt_bytes _ (fun x => MkPAcknowledgement x None)).
    field_step (fields_opt_string _ (fun x => MkPAcknowledgement r x)). constructor.
  - field_moves PAcknowledgement_case.
Defined.

#[export] Instance PMerkleRoot_ok : MessageOk PMerkleRoot.
Proof.
  refine {|
    valid _ := True;
    wire m := concat [wire_bytes 10 (pr_hash m)] |}.
  - message_encodes.
  - read_fields m. destruct m as [h]; cbn in *.
    field_step (fields_bytes _ (fun x => MkPMerkleRoot x)). constructor.
  - field_moves PMerkleRoot_case.
Defined.

#[export] Instance PMerklePrefix_ok : MessageOk PMerklePrefix.
Proof.
  refine {|
    valid _ := True;
    wire m := concat [wire_bytes 10 (px_key_prefix m)] |}.
  - message_encodes.
  - read_fields m. destruct m as [kp]; cbn in *.
    field_step (fields_bytes _ (fun x => MkPMerklePrefix x)). constructor.
  - field_moves PMerklePrefix_case.
Defined.

#[export] Instance PVersion_ok : MessageOk PVersion.
Proof.
  refine {|
    valid m := js_string (pv_identifier m) /\ Forall js_string (pv_features m);
    wire m := concat [wire_string 10 (pv_identifier m); wire_repeated wire_text 18 (pv_features m)] |}.
  - message_encodes.
  - read_fields m. destruct m as [i f]; cbn in *.
    field_step (fields_string _ (fun x => MkPVersion x [])).
    field_step (fields_rep_string _ (fun x => MkPVersion i x)). constructor.
  - field_moves PVersion_case.
Defined.

#[export] Instance PConnCounterparty_ok : MessageOk PConnCounterparty.
Proof.
  refine {|
    valid m := js_string (pcc_client_id m) /\ js_string (pcc_connection_id m) /\ valid (pcc_prefix m);
    wire m := concat [wire_string 10 (pcc_client_id m); wire_string 18 (pcc_connection_id m); wire_message 26 (pcc_prefix m)] |}.
  - message_encodes.
  - read_fields m. destruct m as [ci ci' p]; cbn in *.
    field_step (fields_string _ (fun x => MkPConnCounterparty x "" base_message)).
    field_step (fields_string _ (fun x => MkPConnCounterparty ci x base_message)).
    field_step (fields_message _ (fun x => MkPConnCounterparty ci ci' x)). constructor.
  - field_moves PConnCounterparty_case.
Defined.

#[export] Instance PConnectionEnd_ok : MessageOk PConnectionEnd.
Proof.
  refine {|
    valid m := js_string (pce_client_id m) /\ Forall valid (pce_versions m) /\ int32_ok (pce_state m) /\
      valid (pce_counterparty m) /\ uint64_ok (pce_delay_period m);
    wire m := concat [wire_string 10 (pce_client_id m); wire_repeated wire_message 18 (pce_versions m); wire_int 24 (pce_state m);
      wire_message 34 (pce_counterparty m); wire_int 40 (pce_delay_period m)] |}.
  - message_encodes.
  - read_fields m. destruct m as [ci v s c dp]; cbn in *.
    field_step (fields_string _ (fun x => MkPConnectionEnd x [] 0 base_message 0)).
    field_step (fields_rep_message _ (fun x => MkPConnectionEnd ci x 0 base_message 0)).
    field_step (fields_int32 _ (fun x => MkPConnectionEnd ci v x base_message 0)).
    field_step (fields_message _ (fun x => MkPConnectionEnd ci v s x 0)).
    field_step (fields_uint64 _ (fun x => MkPConnectionEnd ci v s c x)). constructor.
  - field_moves PConnectionEnd_case.
Defined.

#[export] Instance PLeafOp_ok : MessageOk PLeafOp.
Proof.
  refine {|
    valid m := int32_ok (pl_hash m) /\ int32_ok (pl_prehash_key m) /\ int32_ok (pl_prehash_value m) /\ int32_ok (pl_length m);
    wire m := concat [wire_int 8 (pl_hash m); wire_int 16 (pl_prehash_key m); wire_int 24 (pl_prehash_value m);
      wire_int 32 (pl_length m); wire_bytes 42 (pl_prefix m)] |}.
  - message_encodes.
  - read_fields m. destruct m as [h pk pv l p]; cbn in *.
    field_step (fields_int32 _ (fun x => MkPLeafOp x 0 0 0 [])).
    field_step (fields_int32 _ (fun x => MkPLeafOp h x 0 0 [])).
    field_step (fields_int32 _ (fun x => MkPLeafOp h pk x 0 [])).
    field_step (fields_int32 _ (fun x => MkPLeafOp h pk pv x [])).
    field_step (fields_bytes _ (fun x => MkPLeafOp h pk pv l x)). constructor.
  - field_moves PLeafOp_case.
Defined.

#[export] Instance PInnerOp_ok : MessageOk PInnerOp.
Proof.
  refine {|
    valid m := int32_ok (pi_hash m);
    wire m := concat [wire_int 8 (pi_hash m); wire_bytes 18 (pi_prefix m); wire_bytes 26 (pi_suffix m)] |}.
  - message_encodes.
  - read_fields m. destruct m as [h p s]; cbn in *.
    field_step (fields_int32 _ (fun x => MkPInnerOp x [] [])).
    field_step (fields_bytes _ (fun x => MkPInnerOp h x [])).
    field_step (fields_bytes _ (fun x => MkPInnerOp h p x)). constructor.
  - field_moves PInnerOp_case.
Defined.

#[export] Instance PExistenceProof_ok : MessageOk PExistenceProof.
Proof.
  refine {|
    valid m := from_option valid True (pe_leaf m) /\ Forall valid (pe_path m);
    wire m := concat [wire_bytes 10 (pe_key m); wire_bytes 18 (pe_value m); wire_opt wire_message 26 (pe_leaf m);
      wire_repeated wire_message 34 (pe_path m)] |}.
  - message_encodes.
  - read_fields m. destruct m as [k v l p]; cbn in *.
    field_step (fields_bytes _ (fun x => MkPExistenceProof x [] None [])).
    field_step (fields_bytes _ (fun x => MkPExistenceProof k x None [])).
    field_step (fields_opt_message _ (fun x => MkPExistenceProof k v x [])).
    field_step (fields_rep_message _ (fun x => MkPExistenceProof k v l x)). constructor.
  - field_moves PExistenceProof_case.
Defined.

#[export] Instance PNonExistenceProof_ok : MessageOk PNonExistenceProof.
Proof.
  refine {|
    valid m := from_option valid True (pn_left m) /\ from_option valid True (pn_right m);
    wire m := concat [wire_bytes 10 (pn_key m); wire_opt wire_message 18 (pn_left m); wire_opt wire_message 26 (pn_right m)] |}.
  - message_encodes.
  - read_fields m. destruct m as [k l r]; cbn in *.
    field_step (fields_bytes _ (fun x => MkPNonExistenceProof x None None)).
    field_step (fields_opt_message _ (fun x => MkPNonExistenceProof k x None)).
    field_step (fields_opt_message _ (fun x => MkPNonExistenceProof k l x)). constructor.
  - field_moves PNonExistenceProof_case.
Defined.

#[export] Instance PBatchEntry_ok : MessageOk PBatchEntry.
Proof.
  refine {|
    valid m := from_option valid True (pb_exist m) /\ from_option valid True (pb_nonexist m);
    wire m := concat [wire_opt wire_message 10 (pb_exist m); wire_opt wire_message 18 (pb_nonexist m)] |}.
  - message_encodes.
  - read_fields m. destruct m as [e n]; cbn in *.
    field_step (fields_opt_message _ (fun x => MkPBatchEntry x None)).
    field_step (fields_opt_message _ (fun x => MkPBatchEntry e x)). constructor.
  - field_moves PBatchEntry_case.
Defined.

#[export] Instance PBatchProof_ok : MessageOk PBatchProof.
Proof.
  refine {|
    valid m := Forall valid (pb_entries m);
    wire m := concat [wire_repeated wire_message 10 (pb_entries m)] |}.
  - message_encodes.
  - read_fields m. destruct m as [e]; cbn in *.
    field_step (fields_rep_message _ (fun x => MkPBatchProof x)). constructor.
  - field_moves PBatchProof_case.
Defined.

#[export] Instance PCompressedExistenceProof_ok : MessageOk PCompressedExistenceProof.
Proof.
  refine {|
    valid m := from_option valid True (pk_leaf m) /\ Forall int32_ok (pk_path m);
    wire m := concat [wire_bytes 10 (pk_key m); wire_bytes 18 (pk_value m); wire_opt wire_message 26 (pk_leaf m);
      wire_packed 34 (pk_path m)] |}.
  - message_encodes.
  - read_fields m. destruct m as [k v l p]; cbn in *.
    field_step (fields_bytes _ (fun x => MkPCompressedExistenceProof x [] None [])).
    field_step (fields_bytes _ (fun x => MkPCompressedExistenceProof k x None [])).
    field_step (fields_opt_message _ (fun x => MkPCompressedExistenceProof k v x [])).
    field_step (fields_packed _ (fun x => MkPCompressedExistenceProof k v l x)). constructor.
  - field_moves PCompressedExistenceProof_case.
Defined.

#[export] Instance PCompressedNonExistenceProof_ok : MessageOk PCompressedNonExistenceProof.
Proof.
  refine {|
    valid m := from_option valid True (pq_left m) /\ from_option valid True (pq_right m);
    wire m := concat [wire_bytes 10 (pq_key m); wire_opt wire_message 18 (pq_left m); wire_opt wire_message 26 (pq_right m)] |}.
  - message_encodes.
  - read_fields m. destruct m as [k l r]; cbn in *.
    field_step (fields_bytes _ (fun x => MkPCompressedNonExistenceProof x None None)).
    field_step (fields_opt_message _ (fun x => MkPCompressedNonExistenceProof k x None)).
    field_step (fields_opt_message _ (fun x => MkPCompressedNonExistenceProof k l x)). constructor.
  - field_moves PCompressedNonExistenceProof_case.
Defined.

#[export] Instance PCompressedBatchEntry_ok : MessageOk PCompressedBatchEntry.
Proof.
  refine {|
    valid m := from_option valid True (pcb_exist m) /\ from_option valid True (pcb_nonexist m);
    wire m := concat [wire_opt wire_message 10 (pcb_exist m); wire_opt wire_message 18 (pcb_nonexist m)] |}.
  - message_encodes.
  - read_fields m. destruct m as [e n]; cbn in *.
    field_step (fields_opt_message _ (fun x => MkPCompressedBatchEntry x None)).
    field_step (fields_opt_message _ (fun x => MkPCompressedBatchEntry e x)). constructor.
  - field_moves PCompressedBatchEntry_case.
Defined.

#[export] Instance PCompressedBatchProof_ok : MessageOk PCompressedBatchProof.
Proof.
  refine {|
    valid m := Forall valid (pcb_entries m) /\ Forall valid (pcb_lookup_inners m);
    wire m := concat [wire_repeated wire_message 10 (pcb_entries m); wire_repeated wire_message 18 (pcb_lookup_inners m)] |}.
  - message_encodes.
  - read_fields m. destruct m as [e li]; cbn in *.
    field_step (fields_rep_message _ (fun x => MkPCompressedBatchProof x [])).
    field_step (fields_rep_message _ (fun x => MkPCompressedBatchProof e x)). constructor.
  - field_moves PCompressedBatchProof_case.
Defined.

#[export] Instance PCommitmentProof_ok : MessageOk PCommitmentProof.
Proof.
  refine {|
    valid m := from_option valid True (pm_exist m) /\ from_option valid True (pm_nonexist m) /\
      from_option valid True (pm_batch m) /\ from_option valid True (pm_compressed m);
    wire m := concat [wire_opt wire_message 10 (pm_exist m); wire_opt wire_message 18 (pm_nonexist m);
      wire_opt wire_message 26 (pm_batch m); wire_opt wire_message 34 (pm_compressed m)] |}.
  - message_encodes.
  - read_fields m. destruct m as [e n b c]; cbn in *.
    field_step (fields_opt_message _ (fun x => MkPCommitmentProof x None None None)).
    field_step (fields_opt_message _ (fun x => MkPCommitmentProof e x None None)).
    field_step (fields_opt_message _ (fun x => MkPCommitmentProof e n x None)).
    field_step (fields_opt_message _ (fun x => MkPCommitmentProof e n b x)). constructor.
  - field_moves PCommitmentProof_case.
Defined.

#[export] Instance PMerkleProof_ok : MessageOk PMerkleProof.
Proof.
  refine {|
    valid m := Forall valid (pm_proofs m);
    wire m := concat [wire_repeated wire_message 10 (pm_proofs m)] |}.
  - message_encodes.
  - read_fields m. destruct m as [p]; cbn in *.
    field_step (fields_rep_message _ (fun x => MkPMerkleProof x)). constructor.
  - field_moves PMerkleProof_case.
Defined.
