(* ===== verification/ProtoTx.v ===== *)
(** * The transaction messages ([proto-types/src/ibc/core/channel/v1/tx.ts])

    The requests of the channel and packet services, in the same form as
    [ProtoMessages], with their laws. *)

From Stdlib Require Import ZArith Lia.
From S2P Require Import Prelude JsString JsNumber Varint Utf8 Binary ProtoCodec ProtoMessages ProtoLaws.

#[local] Open Scope Z_scope.
#[local] Open Scope js_scope.

(** ** [cosmos/base/v1beta1/coin.ts] *)

Record PCoin := MkPCoin {
  pco_denom : string; pco_amount : string;
}.
Definition PCoin_encode (m : PCoin) : BinaryWriter -> BinaryWriter := write_fields
  [field_string 10 (pco_denom m); field_string 18 (pco_amount m)].
Definition PCoin_case (tag : Z) (m : PCoin) : option (M BinaryReader PCoin) :=
  let '(MkPCoin d a) := m in
  match tag .>>> 3 with
  | 1 => Some (v ← r_string; mret (MkPCoin v a))
  | 2 => Some (v ← r_string; mret (MkPCoin d v))
  | _ => None
  end.
#[export] Instance PCoin_message : Message PCoin :=
  {| base_message := MkPCoin "" ""; encode_to := PCoin_encode;
     field_case := PCoin_case |}.

(** ** [ibc/core/channel/v1/tx.ts] *)

Record PMsgChannelOpenInit := MkPMsgChannelOpenInit {
  oi_port_id : string; oi_channel : PChannel; oi_signer : string;
}.
Definition PMsgChannelOpenInit_encode (m : PMsgChannelOpenInit) : BinaryWriter -> BinaryWriter := write_fields
  [field_string 10 (oi_port_id m); field_message encode_to 18 (oi_channel m); field_string 26 (oi_signer m)].
Definition PMsgChannelOpenInit_case (tag : Z) (m : PMsgChannelOpenInit) : option (M BinaryReader PMsgChannelOpenInit) :=
  let '(MkPMsgChannelOpenInit pi0 c s) := m in
  match tag .>>> 3 with
  | 1 => Some (v ← r_string; mret (MkPMsgChannelOpenInit v c s))
  | 2 => Some (v ← r_message; mret (MkPMsgChannelOpenInit pi0 v s))
  | 3 => Some (v ← r_string; mret (MkPMsgChannelOpenInit pi0 c v))
  | _ => None
  end.
#[export] Instance PMsgChannelOpenInit_message : Message PMsgChannelOpenInit :=
  {| base_message := MkPMsgChannelOpenInit "" base_message ""; encode_to := PMsgChannelOpenInit_encode;
     field_case := PMsgChannelOpenInit_case |}.

Record PMsgChannelOpenTry := MkPMsgChannelOpenTry {
  ot_port_id : string; ot_previous_channel_id : string; ot_channel : PChannel; ot_counterparty_version : string;
  ot_proof_init : bytes; ot_proof_height : PHeight; ot_signer : string;
}.
Definition PMsgChannelOpenTry_encode (m : PMsgChannelOpenTry) : BinaryWriter -> BinaryWriter := write_fields
  [field_string 10 (ot_port_id m); field_string 18 (ot_previous_channel_id m);
   field_message encode_to 26 (ot_channel m); field_string 34 (ot_counterparty_version m);
   field_bytes 42 (ot_proof_init m); field_message encode_to 50 (ot_proof_height m); field_string 58 (ot_signer m)].
Definition PMsgChannelOpenTry_case (tag : Z) (m : PMsgChannelOpenTry) : option (M BinaryReader PMsgChannelOpenTry) :=
  let '(MkPMsgChannelOpenTry pi0 pci c cv pi02 ph s) := m in
  match tag .>>> 3 with
  | 1 => Some (v ← r_string; mret (MkPMsgChannelOpenTry v pci c cv pi02 ph s))
  | 2 => Some (v ← r_string; mret (MkPMsgChannelOpenTry pi0 v c cv pi02 ph s))
  | 3 => Some (v ← r_message; mret (MkPMsgChannelOpenTry pi0 pci v cv pi02 ph s))
  | 4 => Some (v ← r_string; mret (MkPMsgChannelOpenTry pi0 pci c v pi02 ph s))
  | 5 => Some (v ← r_bytes; mret (MkPMsgChannelOpenTry pi0 pci c cv v ph s))
  | 6 => Some (v ← r_message; mret (MkPMsgChannelOpenTry pi0 pci c cv pi02 v s))
  | 7 => Some (v ← r_string; mret (MkPMsgChannelOpenTry pi0 pci c cv pi02 ph v))
  | _ => None
  end.
#[export] Instance PMsgChannelOpenTry_message : Message PMsgChannelOpenTry :=
  {| base_message := MkPMsgChannelOpenTry "" "" base_message "" [] base_message ""; encode_to := PMsgChannelOpenTry_encode;
     field_case := PMsgChannelOpenTry_case |}.

Record PMsgChannelOpenAck := MkPMsgChannelOpenAck {
  oa_port_id : string; oa_channel_id : string; oa_counterparty_channel_id : string; oa_counterparty_version : string;
  oa_proof_try : bytes; oa_proof_height : PHeight; oa_signer : string;
}.
Definition PMsgChannelOpenAck_encode (m : PMsgChannelOpenAck) : BinaryWriter -> BinaryWriter := write_fields
  [field_string 10 (oa_port_id m); field_string 18 (oa_channel_id m); field_string 26 (oa_counterparty_channel_id m);
   field_string 34 (oa_counterparty_version m); field_bytes 42 (oa_proof_try m);
   field_message encode_to 50 (oa_proof_height m); field_string 58 (oa_signer m)].
Definition PMsgChannelOpenAck_case (tag : Z) (m : PMsgChannelOpenAck) : option (M BinaryReader PMsgChannelOpenAck) :=
  let '(MkPMsgChannelOpenAck pi0 ci cci cv pt ph s) := m in
  match tag .>>> 3 with
  | 1 => Some (v ← r_string; mret (MkPMsgChannelOpenAck v ci cci cv pt ph s))
  | 2 => Some (v ← r_string; mret (MkPMsgChannelOpenAck pi0 v cci cv pt ph s))
  | 3 => Some (v ← r_string; mret (MkPMsgChannelOpenAck pi0 ci v cv pt ph s))
  | 4 => Some (v ← r_string; mret (MkPMsgChannelOpenAck pi0 ci cci v pt ph s))
  | 5 => Some (v ← r_bytes; mret (MkPMsgChannelOpenAck pi0 ci cci cv v ph s))
  | 6 => Some (v ← r_message; mret (MkPMsgChannelOpenAck pi0 ci cci cv pt v s))
  | 7 => Some (v ← r_string; mret (MkPMsgChannelOpenAck pi0 ci cci cv pt ph v))
  | _ => None
  end.
#[export] Instance PMsgChannelOpenAck_message : Message PMsgChannelOpenAck :=
  {| base_message := MkPMsgChannelOpenAck "" "" "" "" [] base_message ""; encode_to := PMsgChannelOpenAck_encode;
     field_case := PMsgChannelOpenAck_case |}.

Record PMsgChannelOpenConfirm := MkPMsgChannelOpenConfirm {
  oc_port_id : string; oc_channel_id : string; oc_proof_ack : bytes; oc_proof_height : PHeight; oc_signer : string;
}.
Definition PMsgChannelOpenConfirm_encode (m : PMsgChannelOpenConfirm) : BinaryWriter -> BinaryWriter := write_fields
  [field_string 10 (oc_port_id m); field_string 18 (oc_channel_id m); field_bytes 26 (oc_proof_ack m);
   field_message encode_to 34 (oc_proof_height m); field_string 42 (oc_signer m)].
Definition PMsgChannelOpenConfirm_case (tag : Z) (m : PMsgChannelOpenConfirm) : option (M BinaryReader PMsgChannelOpenConfirm) :=
  let '(MkPMsgChannelOpenConfirm pi0 ci pa ph s) := m in
  match tag .>>> 3 with
  | 1 => Some (v ← r_string; mret (MkPMsgChannelOpenConfirm v ci pa ph s))
  | 2 => Some (v ← r_string; mret (MkPMsgChannelOpenConfirm pi0 v pa ph s))
  | 3 => Some (v ← r_bytes; mret (MkPMsgChannelOpenConfirm pi0 ci v ph s))
  | 4 => Some (v ← r_message; mret (MkPMsgChannelOpenConfirm pi0 ci pa v s))
  | 5 => Some (v ← r_string; mret (MkPMsgChannelOpenConfirm pi0 ci pa ph v))
  | _ => None
  end.
#[export] Instance PMsgChannelOpenConfirm_message : Message PMsgChannelOpenConfirm :=
  {| base_message := MkPMsgChannelOpenConfirm "" "" [] base_message ""; encode_to := PMsgChannelOpenConfirm_encode;
     field_case := PMsgChannelOpenConfirm_case |}.

Record PMsgChannelCloseInit := MkPMsgChannelCloseInit {
  cli_port_id : string; cli_channel_id : string; cli_signer : string;
}.
Definition PMsgChannelCloseInit_encode (m : PMsgChannelCloseInit) : BinaryWriter -> BinaryWriter := write_fields
  [field_string 10 (cli_port_id m); field_string 18 (cli_channel_id m); field_string 26 (cli_signer m)].
Definition PMsgChannelCloseInit_case (tag : Z) (m : PMsgChannelCloseInit) : option (M BinaryReader PMsgChannelCloseInit) :=
  let '(MkPMsgChannelCloseInit pi0 ci s) := m in
  match tag .>>> 3 with
  | 1 => Some (v ← r_string; mret (MkPMsgChannelCloseInit v ci s))
  | 2 => Some (v ← r_string; mret (MkPMsgChannelCloseInit pi0 v s))
  | 3 => Some (v ← r_string; mret (MkPMsgChannelCloseInit pi0 ci v))
  | _ => None
  end.
#[export] Instance PMsgChannelCloseInit_message : Message PMsgChannelCloseInit :=
  {| base_message := MkPMsgChannelCloseInit "" "" ""; encode_to := PMsgChannelCloseInit_encode;
     field_case := PMsgChannelCloseInit_case |}.

Record PMsgChannelCloseConfirm := MkPMsgChannelCloseConfirm {
  clc_port_id : string; clc_channel_id : string; clc_proof_init : bytes; clc_proof_height : PHeight;
  clc_signer : string;
}.
Definition PMsgChannelCloseConfirm_encode (m : PMsgChannelCloseConfirm) : BinaryWriter -> BinaryWriter := write_fields
  [field_string 10 (clc_port_id m); field_string 18 (clc_channel_id m); field_bytes 26 (clc_proof_init m);
   field_message encode_to 34 (clc_proof_height m); field_string 42 (clc_signer m)].
Definition PMsgChannelCloseConfirm_case (tag : Z) (m : PMsgChannelCloseConfirm) : option (M BinaryReader PMsgChannelCloseConfirm) :=
  let '(MkPMsgChannelCloseConfirm pi0 ci pi02 ph s) := m in
  match tag .>>> 3 with
  | 1 => Some (v ← r_string; mret (MkPMsgChannelCloseConfirm v ci pi02 ph s))
  | 2 => Some (v ← r_string; mret (MkPMsgChannelCloseConfirm pi0 v pi02 ph s))
  | 3 => Some (v ← r_bytes; mret (MkPMsgChannelCloseConfirm pi0 ci v ph s))
  | 4 => Some (v ← r_message; mret (MkPMsgChannelCloseConfirm pi0 ci pi02 v s))
  | 5 => Some (v ← r_string; mret (MkPMsgChannelCloseConfirm pi0 ci pi02 ph v))
  | _ => None
  end.
#[export] Instance PMsgChannelCloseConfirm_message : Message PMsgChannelCloseConfirm :=
  {| base_message := MkPMsgChannelCloseConfirm "" "" [] base_message ""; encode_to := PMsgChannelCloseConfirm_encode;
     field_case := PMsgChannelCloseConfirm_case |}.

Record PMsgRecvPacket := MkPMsgRecvPacket {
  mr_packet : PPacket; mr_proof_commitment : bytes; mr_proof_height : PHeight; mr_signer : string;
}.
Definition PMsgRecvPacket_encode (m : PMsgRecvPacket) : BinaryWriter -> BinaryWriter := write_fields
  [field_message encode_to 10 (mr_packet m); field_bytes 18 (mr_proof_commitment m);
   field_message encode_to 26 (mr_proof_height m); field_string 34 (mr_signer m)].
Definition PMsgRecvPacket_case (tag : Z) (m : PMsgRecvPacket) : option (M BinaryReader PMsgRecvPacket) :=
  let '(MkPMsgRecvPacket p pc ph s) := m in
  match tag .>>> 3 with
  | 1 => Some (v ← r_message; mret (MkPMsgRecvPacket v pc ph s))
  | 2 => Some (v ← r_bytes; mret (MkPMsgRecvPacket p v ph s))
  | 3 => Some (v ← r_message; mret (MkPMsgRecvPacket p pc v s))
  | 4 => Some (v ← r_string; mret (MkPMsgRecvPacket p pc ph v))
  | _ => None
  end.
#[export] Instance PMsgRecvPacket_message : Message PMsgRecvPacket :=
  {| base_message := MkPMsgRecvPacket base_message [] base_message ""; encode_to := PMsgRecvPacket_encode;
     field_case := PMsgRecvPacket_case |}.

Record PMsgTimeout := MkPMsgTimeout {
  mt_packet : PPacket; mt_proof_unreceived : bytes; mt_proof_height : PHeight; mt_next_sequence_recv : Z;
  mt_signer : string;
}.
Definition PMsgTimeout_encode (m : PMsgTimeout) : BinaryWriter -> BinaryWriter := write_fields
  [field_message encode_to 10 (mt_packet m); field_bytes 18 (mt_proof_unreceived m);
   field_message encode_to 26 (mt_proof_height m); field_uint64 32 (mt_next_sequence_recv m);
   field_string 42 (mt_signer m)].
Definition PMsgTimeout_case (tag : Z) (m : PMsgTimeout) : option (M BinaryReader PMsgTimeout) :=
  let '(MkPMsgTimeout p pu ph nsr s) := m in
  match tag .>>> 3 with
  | 1 => Some (v ← r_message; mret (MkPMsgTimeout v pu ph nsr s))
  | 2 => Some (v ← r_bytes; mret (MkPMsgTimeout p v ph nsr s))
  | 3 => Some (v ← r_message; mret (MkPMsgTimeout p pu v nsr s))
  | 4 => Some (v ← r_uint64; mret (MkPMsgTimeout p pu ph v s))
  | 5 => Some (v ← r_string; mret (MkPMsgTimeout p pu ph nsr v))
  | _ => None
  end.
#[export] Instance PMsgTimeout_message : Message PMsgTimeout :=
  {| base_message := MkPMsgTimeout base_message [] base_message 0 ""; encode_to := PMsgTimeout_encode;
     field_case := PMsgTimeout_case |}.

Record PMsgTimeoutOnClose := MkPMsgTimeoutOnClose {
  mtc_packet : PPacket; mtc_proof_unreceived : bytes; mtc_proof_close : bytes; mtc_proof_height : PHeight;
  mtc_next_sequence_recv : Z; mtc_signer : string;
}.
Definition PMsgTimeoutOnClose_encode (m : PMsgTimeoutOnClose) : BinaryWriter -> BinaryWriter := write_fields
  [field_message encode_to 10 (mtc_packet m); field_bytes 18 (mtc_proof_unreceived m);
   field_bytes 26 (mtc_proof_close m); field_message encode_to 34 (mtc_proof_height m);
   field_uint64 40 (mtc_next_sequence_recv m); field_string 50 (mtc_signer m)].
Definition PMsgTimeoutOnClose_case (tag : Z) (m : PMsgTimeoutOnClose) : option (M BinaryReader PMsgTimeoutOnClose) :=
  let '(MkPMsgTimeoutOnClose p pu pc ph nsr s) := m in
  match tag .>>> 3 with
  | 1 => Some (v ← r_message; mret (MkPMsgTimeoutOnClose v pu pc ph nsr s))
  | 2 => Some (v ← r_bytes; mret (MkPMsgTimeoutOnClose p v pc ph nsr s))
  | 3 => Some (v ← r_bytes; mret (MkPMsgTimeoutOnClose p pu v ph nsr s))
  | 4 => Some (v ← r_message; mret (MkPMsgTimeoutOnClose p pu pc v nsr s))
  | 5 => Some (v ← r_uint64; mret (MkPMsgTimeoutOnClose p pu pc ph v s))
  | 6 => Some (v ← r_string; mret (MkPMsgTimeoutOnClose p pu pc ph nsr v))
  | _ => None
  end.
#[export] Instance PMsgTimeoutOnClose_message : Message PMsgTimeoutOnClose :=
  {| base_message := MkPMsgTimeoutOnClose base_message [] [] base_message 0 ""; encode_to := PMsgTimeoutOnClose_encode;
     field_case := PMsgTimeoutOnClose_case |}.

Record PMsgAcknowledgement := MkPMsgAcknowledgement {
  ma_packet : PPacket; ma_acknowledgement : bytes; ma_proof_acked : bytes; ma_proof_height : PHeight;
  ma_signer : string;
}.
Definition PMsgAcknowledgement_encode (m : PMsgAcknowledgement) : BinaryWriter -> BinaryWriter := write_fields
  [field_message encode_to 10 (ma_packet m); field_bytes 18 (ma_acknowledgement m); field_bytes 26 (ma_proof_acked m);
   field_message encode_to 34 (ma_proof_height m); field_string 42 (ma_signer m)].
Definition PMsgAcknowledgement_case (tag : Z) (m : PMsgAcknowledgement) : option (M BinaryReader PMsgAcknowledgement) :=
  let '(MkPMsgAcknowledgement p a pa ph s) := m in
  match tag .>>> 3 with
  | 1 => Some (v ← r_message; mret (MkPMsgAcknowledgement v a pa ph s))
  | 2 => Some (v ← r_bytes; mret (MkPMsgAcknowledgement p v pa ph s))
  | 3 => Some (v ← r_bytes; mret (MkPMsgAcknowledgement p a v ph s))
  | 4 => Some (v ← r_message; mret (MkPMsgAcknowledgement p a pa v s))
  | 5 => Some (v ← r_string; mret (MkPMsgAcknowledgement p a pa ph v))
  | _ => None
  end.
#[export] Instance PMsgAcknowledgement_message : Message PMsgAcknowledgement :=
  {| base_message := MkPMsgAcknowledgement base_message [] [] base_message ""; encode_to := PMsgAcknowledgement_encode;
     field_case := PMsgAcknowledgement_case |}.

Record PMsgTransfer := MkPMsgTransfer {
  mx_source_port : string; mx_source_channel : string; mx_token : PCoin; mx_sender : string; mx_receiver : string;
  mx_timeout_height : option PHeight; mx_timeout_timestamp : Z; mx_memo : string; mx_signer : string;
}.
Definition PMsgTransfer_encode (m : PMsgTransfer) : BinaryWriter -> BinaryWriter := write_fields
  [field_string 10 (mx_source_port m); field_string 18 (mx_source_channel m); field_message encode_to 26 (mx_token m);
   field_string 34 (mx_sender m); field_string 42 (mx_receiver m);
   field_opt (field_message encode_to) 50 (mx_timeout_height m); field_uint64 56 (mx_timeout_timestamp m);
   field_string 66 (mx_memo m); field_string 74 (mx_signer m)].
Definition PMsgTransfer_case (tag : Z) (m : PMsgTransfer) : option (M BinaryReader PMsgTransfer) :=
  let '(MkPMsgTransfer sp sc t s r th tt0 m0 s2) := m in
  match tag .>>> 3 with
  | 1 => Some (v ← r_string; mret (MkPMsgTransfer v sc t s r th tt0 m0 s2))
  | 2 => Some (v ← r_string; mret (MkPMsgTransfer sp v t s r th tt0 m0 s2))
  | 3 => Some (v ← r_message; mret (MkPMsgTransfer sp sc v s r th tt0 m0 s2))
  | 4 => Some (v ← r_string; mret (MkPMsgTransfer sp sc t v r th tt0 m0 s2))
  | 5 => Some (v ← r_string; mret (MkPMsgTransfer sp sc t s v th tt0 m0 s2))
  | 6 => Some (v ← r_message; mret (MkPMsgTransfer sp sc t s r (Some v) tt0 m0 s2))
  | 7 => Some (v ← r_uint64; mret (MkPMsgTransfer sp sc t s r th v m0 s2))
  | 8 => Some (v ← r_string; mret (MkPMsgTransfer sp sc t s r th tt0 v s2))
  | 9 => Some (v ← r_string; mret (MkPMsgTransfer sp sc t s r th tt0 m0 v))
  | _ => None
  end.
#[export] Instance PMsgTransfer_message : Message PMsgTransfer :=
  {| base_message := MkPMsgTransfer "" "" base_message "" "" None 0 "" ""; encode_to := PMsgTransfer_encode;
     field_case := PMsgTransfer_case |}.

(** ** [ibc/cardano/v1/tx.ts] *)

Record PMsgPrunePacketHistory := MkPMsgPrunePacketHistory {
  mp_signer : string; mp_port_id : string; mp_channel_id : string; mp_sequence : Z;
  mp_proof_commitment_absence : bytes; mp_proof_height : option PHeight;
}.
Definition PMsgPrunePacketHistory_encode (m : PMsgPrunePacketHistory) : BinaryWriter -> BinaryWriter := write_fields
  [field_string 10 (mp_signer m); field_string 18 (mp_port_id m); field_string 26 (mp_channel_id m);
   field_uint64 32 (mp_sequence m); field_bytes 42 (mp_proof_commitment_absence m);
   field_opt (field_message encode_to) 50 (mp_proof_height m)].
Definition PMsgPrunePacketHistory_case (tag : Z) (m : PMsgPrunePacketHistory) : option (M BinaryReader PMsgPrunePacketHistory) :=
  let '(MkPMsgPrunePacketHistory s pi0 ci s2 pca ph) := m in
  match tag .>>> 3 with
  | 1 => Some (v ← r_string; mret (MkPMsgPrunePacketHistory v pi0 ci s2 pca ph))
  | 2 => Some (v ← r_string; mret (MkPMsgPrunePacketHistory s v ci s2 pca ph))
  | 3 => Some (v ← r_string; mret (MkPMsgPrunePacketHistory s pi0 v s2 pca ph))
  | 4 => Some (v ← r_uint64; mret (MkPMsgPrunePacketHistory s pi0 ci v pca ph))
  | 5 => Some (v ← r_bytes; mret (MkPMsgPrunePacketHistory s pi0 ci s2 v ph))
  | 6 => Some (v ← r_message; mret (MkPMsgPrunePacketHistory s pi0 ci s2 pca (Some v)))
  | _ => None
  end.
#[export] Instance PMsgPrunePacketHistory_message : Message PMsgPrunePacketHistory :=
  {| base_message := MkPMsgPrunePacketHistory "" "" "" 0 [] None; encode_to := PMsgPrunePacketHistory_encode;
     field_case := PMsgPrunePacketHistory_case |}.

(** ** Laws *)

#[export] Instance PCoin_ok : MessageOk PCoin.
Proof.
  refine {|
    valid m := js_string (pco_denom m) /\ js_string (pco_amount m);
    wire m := concat [wire_string 10 (pco_denom m); wire_string 18 (pco_amount m)] |}.
  - message_encodes.
  - read_fields m. destruct m as [d a]; cbn in *.
    field_step (fields_string _ (fun x => MkPCoin x "")).
    field_step (fields_string _ (fun x => MkPCoin d x)). constructor.
  - field_moves PCoin_case.
Defined.

#[export] Instance PMsgChannelOpenInit_ok : MessageOk PMsgChannelOpenInit.
Proof.
  refine {|
    valid m := js_string (oi_port_id m) /\ valid (oi_channel m) /\ js_string (oi_signer m);
    wire m := concat [wire_string 10 (oi_port_id m); wire_message 18 (oi_channel m); wire_string 26 (oi_signer m)] |}.
  - message_encodes.
  - read_fields m. destruct m as [pi0 c s]; cbn in *.
    field_step (fields_string _ (fun x => MkPMsgChannelOpenInit x base_message "")).
    field_step (fields_message _ (fun x => MkPMsgChannelOpenInit pi0 x "")).
    field_step (fields_string _ (fun x => MkPMsgChannelOpenInit pi0 c x)). constructor.
  - field_moves PMsgChannelOpenInit_case.
Defined.

#[export] Instance PMsgChannelOpenTry_ok : MessageOk PMsgChannelOpenTry.
Proof.
  refine {|
    valid m := js_string (ot_port_id m) /\ js_string (ot_previous_channel_id m) /\ valid (ot_channel m) /\
      js_string (ot_counterparty_version m) /\ valid (ot_proof_height m) /\ js_string (ot_signer m);
    wire m := concat [wire_string 10 (ot_port_id m); wire_string 18 (ot_previous_channel_id m); wire_message 26 (ot_channel m);
      wire_string 34 (ot_counterparty_version m); wire_bytes 42 (ot_proof_init m);
      wire_message 50 (ot_proof_height m); wire_string 58 (ot_signer m)] |}.
  - message_encodes.
  - read_fields m. destruct m as [pi0 pci c cv pi02 ph s]; cbn in *.
    field_step (fields_string _ (fun x => MkPMsgChannelOpenTry x "" base_message "" [] base_message "")).
    field_step (fields_string _ (fun x => MkPMsgChannelOpenTry pi0 x base_message "" [] base_message "")).
    field_step (fields_message _ (fun x => MkPMsgChannelOpenTry pi0 pci x "" [] base_message "")).
    field_step (fields_string _ (fun x => MkPMsgChannelOpenTry pi0 pci c x [] base_message "")).
    field_step (fields_bytes _ (fun x => MkPMsgChannelOpenTry pi0 pci c cv x base_message "")).
    field_step (fields_message _ (fun x => MkPMsgChannelOpenTry pi0 pci c cv pi02 x "")).
    field_step (fields_string _ (fun x => MkPMsgChannelOpenTry pi0 pci c cv pi02 ph x)). constructor.
  - field_moves PMsgChannelOpenTry_case.
Defined.

#[export] Instance PMsgChannelOpenAck_ok : MessageOk PMsgChannelOpenAck.
Proof.
  refine {|
    valid m := js_string (oa_port_id m) /\ js_string (oa_channel_id m) /\ js_string (oa_counterparty_channel_id m) /\
      js_string (oa_counterparty_version m) /\ valid (oa_proof_height m) /\ js_string (oa_signer m);
    wire m := concat [wire_string 10 (oa_port_id m); wire_string 18 (oa_channel_id m); wire_string 26 (oa_counterparty_channel_id m);
      wire_string 34 (oa_counterparty_version m); wire_bytes 42 (oa_proof_try m); wire_message 50 (oa_proof_height m);
      wire_string 58 (oa_signer m)] |}.
  - message_encodes.
  - read_fields m. destruct m as [pi0 ci cci cv pt ph s]; cbn in *.
    field_step (fields_string _ (fun x => MkPMsgChannelOpenAck x "" "" "" [] base_message "")).
    field_step (fields_string _ (fun x => MkPMsgChannelOpenAck pi0 x "" "" [] base_message "")).
    field_step (fields_string _ (fun x => MkPMsgChannelOpenAck pi0 ci x "" [] base_message "")).
    field_step (fields_string _ (fun x => MkPMsgChannelOpenAck pi0 ci cci x [] base_message "")).
    field_step (fields_bytes _ (fun x => MkPMsgChannelOpenAck pi0 ci cci cv x base_message "")).
    field_step (fields_message _ (fun x => MkPMsgChannelOpenAck pi0 ci cci cv pt x "")).
    field_step (fields_string _ (fun x => MkPMsgChannelOpenAck pi0 ci cci cv pt ph x)). constructor.
  - field_moves PMsgChannelOpenAck_case.
Defined.

#[export] Instance PMsgChannelOpenConfirm_ok : MessageOk PMsgChannelOpenConfirm.
Proof.
  refine {|
    valid m := js_string (oc_port_id m) /\ js_string (oc_channel_id m) /\ valid (oc_proof_height m) /\ js_string (oc_signer m);
    wire m := concat [wire_string 10 (oc_port_id m); wire_string 18 (oc_channel_id m); wire_bytes 26 (oc_proof_ack m);
      wire_message 34 (oc_proof_height m); wire_string 42 (oc_signer m)] |}.
  - message_encodes.
  - read_fields m. destruct m as [pi0 ci pa ph s]; cbn in *.
    field_step (fields_string _ (fun x => MkPMsgChannelOpenConfirm x "" [] base_message "")).
    field_step (fields_string _ (fun x => MkPMsgChannelOpenConfirm pi0 x [] base_message "")).
    field_step (fields_bytes _ (fun x => MkPMsgChannelOpenConfirm pi0 ci x base_message "")).
    field_step (fields_message _ (fun x => MkPMsgChannelOpenConfirm pi0 ci pa x "")).
    field_step (fields_string _ (fun x => MkPMsgChannelOpenConfirm pi0 ci pa ph x)). constructor.
  - field_moves PMsgChannelOpenConfirm_case.
Defined.

#[export] Instance PMsgChannelCloseInit_ok : MessageOk PMsgChannelCloseInit.
Proof.
  refine {|
    valid m := js_string (cli_port_id m) /\ js_string (cli_channel_id m) /\ js_string (cli_signer m);
    wire m := concat [wire_string 10 (cli_port_id m); wire_string 18 (cli_channel_id m); wire_string 26 (cli_signer m)] |}.
  - message_encodes.
  - read_fields m. destruct m as [pi0 ci s]; cbn in *.
    field_step (fields_string _ (fun x => MkPMsgChannelCloseInit x "" "")).
    field_step (fields_string _ (fun x => MkPMsgChannelCloseInit pi0 x "")).
    field_step (fields_string _ (fun x => MkPMsgChannelCloseInit pi0 ci x)). constructor.
  - field_moves PMsgChannelCloseInit_case.
Defined.

#[export] Instance PMsgChannelCloseConfirm_ok : MessageOk PMsgChannelCloseConfirm.
Proof.
  refine {|
    valid m := js_string (clc_port_id m) /\ js_string (clc_channel_id m) /\ valid (clc_proof_height m) /\
      js_string (clc_signer m);
    wire m := concat [wire_string 10 (clc_port_id m); wire_string 18 (clc_channel_id m); wire_bytes 26 (clc_proof_init m);
      wire_message 34 (clc_proof_height m); wire_string 42 (clc_signer m)] |}.
  - message_encodes.
  - read_fields m. destruct m as [pi0 ci pi02 ph s]; cbn in *.
    field_step (fields_string _ (fun x => MkPMsgChannelCloseConfirm x "" [] base_message "")).
    field_step (fields_string _ (fun x => MkPMsgChannelCloseConfirm pi0 x [] base_message "")).
    field_step (fields_bytes _ (fun x => MkPMsgChannelCloseConfirm pi0 ci x base_message "")).
    field_step (fields_message _ (fun x => MkPMsgChannelCloseConfirm pi0 ci pi02 x "")).
    field_step (fields_string _ (fun x => MkPMsgChannelCloseConfirm pi0 ci pi02 ph x)). constructor.
  - field_moves PMsgChannelCloseConfirm_case.
Defined.

#[export] Instance PMsgRecvPacket_ok : MessageOk PMsgRecvPacket.
Proof.
  refine {|
    valid m := valid (mr_packet m) /\ valid (mr_proof_height m) /\ js_string (mr_signer m);
    wire m := concat [wire_message 10 (mr_packet m); wire_bytes 18 (mr_proof_commitment m); wire_message 26 (mr_proof_height m);
      wire_string 34 (mr_signer m)] |}.
  - message_encodes.
  - read_fields m. destruct m as [p pc ph s]; cbn in *.
    field_step (fields_message _ (fun x => MkPMsgRecvPacket x [] base_message "")).
    field_step (fields_bytes _ (fun x => MkPMsgRecvPacket p x base_message "")).
    field_step (fields_message _ (fun x => MkPMsgRecvPacket p pc x "")).
    field_step (fields_string _ (fun x => MkPMsgRecvPacket p pc ph x)). constructor.
  - field_moves PMsgRecvPacket_case.
Defined.

#[export] Instance PMsgTimeout_ok : MessageOk PMsgTimeout.
Proof.
  refine {|
    valid m := valid (mt_packet m) /\ valid (mt_proof_height m) /\ uint64_ok (mt_next_sequence_recv m) /\
      js_string (mt_signer m);
    wire m := concat [wire_message 10 (mt_packet m); wire_bytes 18 (mt_proof_unreceived m); wire_message 26 (mt_proof_height m);
      wire_int 32 (mt_next_sequence_recv m); wire_string 42 (mt_signer m)] |}.
  - message_encodes.
  - read_fields m. destruct m as [p pu ph nsr s]; cbn in *.
    field_step (fields_message _ (fun x => MkPMsgTimeout x [] base_message 0 "")).
    field_step (fields_bytes _ (fun x => MkPMsgTimeout p x base_message 0 "")).
    field_step (fields_message _ (fun x => MkPMsgTimeout p pu x 0 "")).
    field_step (fields_uint64 _ (fun x => MkPMsgTimeout p pu ph x "")).
    field_step (fields_string _ (fun x => MkPMsgTimeout p pu ph nsr x)). constructor.
  - field_moves PMsgTimeout_case.
Defined.

#[export] Instance PMsgTimeoutOnClose_ok : MessageOk PMsgTimeoutOnClose.
Proof.
  refine {|
    valid m := valid (mtc_packet m) /\ valid (mtc_proof_height m) /\ uint64_ok (mtc_next_sequence_recv m) /\
      js_string (mtc_signer m);
    wire m := concat [wire_message 10 (mtc_packet m); wire_bytes 18 (mtc_proof_unreceived m); wire_bytes 26 (mtc_proof_close m);
      wire_message 34 (mtc_proof_height m); wire_int 40 (mtc_next_sequence_recv m); wire_string 50 (mtc_signer m)] |}.
  - message_encodes.
  - read_fields m. destruct m as [p pu pc ph nsr s]; cbn in *.
    field_step (fields_message _ (fun x => MkPMsgTimeoutOnClose x [] [] base_message 0 "")).
    field_step (fields_bytes _ (fun x => MkPMsgTimeoutOnClose p x [] base_message 0 "")).
    field_step (fields_bytes _ (fun x => MkPMsgTimeoutOnClose p pu x base_message 0 "")).
    field_step (fields_message _ (fun x => MkPMsgTimeoutOnClose p pu pc x 0 "")).
    field_step (fields_uint64 _ (fun x => MkPMsgTimeoutOnClose p pu pc ph x "")).
    field_step (fields_string _ (fun x => MkPMsgTimeoutOnClose p pu pc ph nsr x)). constructor.
  - field_moves PMsgTimeoutOnClose_case.
Defined.

#[export] Instance PMsgAcknowledgement_ok : MessageOk PMsgAcknowledgement.
Proof.
  refine {|
    valid m := valid (ma_packet m) /\ valid (ma_proof_height m) /\ js_string (ma_signer m);
    wire m := concat [wire_message 10 (ma_packet m); wire_bytes 18 (ma_acknowledgement m); wire_bytes 26 (ma_proof_acked m);
      wire_message 34 (ma_proof_height m); wire_string 42 (ma_signer m)] |}.
  - message_encodes.
  - read_fields m. destruct m as [p a pa ph s]; cbn in *.
    field_step (fields_message _ (fun x => MkPMsgAcknowledgement x [] [] base_message "")).
    field_step (fields_bytes _ (fun x => MkPMsgAcknowledgement p x [] base_message "")).
    field_step (fields_bytes _ (fun x => MkPMsgAcknowledgement p a x base_message "")).
    field_step (fields_message _ (fun x => MkPMsgAcknowledgement p a pa x "")).
    field_step (fields_string _ (fun x => MkPMsgAcknowledgement p a pa ph x)). constructor.
  - field_moves PMsgAcknowledgement_case.
Defined.

#[export] Instance PMsgTransfer_ok : MessageOk PMsgTransfer.
Proof.
  refine {|
    valid m := js_string (mx_source_port m) /\ js_string (mx_source_channel m) /\ valid (mx_token m) /\
      js_string (mx_sender m) /\ js_string (mx_receiver m) /\ from_option valid True (mx_timeout_height m) /\
      uint64_ok (mx_timeout_timestamp m) /\ js_string (mx_memo m) /\ js_string (mx_signer m);
    wire m := concat [wire_string 10 (mx_source_port m); wire_string 18 (mx_source_channel m); wire_message 26 (mx_token m);
      wire_string 34 (mx_sender m); wire_string 42 (mx_receiver m); wire_opt wire_message 50 (mx_timeout_height m);
      wire_int 56 (mx_timeout_timestamp m); wire_string 66 (mx_memo m); wire_string 74 (mx_signer m)] |}.
  - message_encodes.
  - read_fields m. destruct m as [sp sc t s r th tt0 m0 s2]; cbn in *.
    field_step (fields_string _ (fun x => MkPMsgTransfer x "" base_message "" "" None 0 "" "")).
    field_step (fields_string _ (fun x => MkPMsgTransfer sp x base_message "" "" None 0 "" "")).
    field_step (fields_message _ (fun x => MkPMsgTransfer sp sc x "" "" None 0 "" "")).
    field_step (fields_string _ (fun x => MkPMsgTransfer sp sc t x "" None 0 "" "")).
    field_step (fields_string _ (fun x => MkPMsgTransfer sp sc t s x None 0 "" "")).
    field_step (fields_opt_message _ (fun x => MkPMsgTransfer sp sc t s r x 0 "" "")).
    field_step (fields_uint64 _ (fun x => MkPMsgTransfer sp sc t s r th x "" "")).
    field_step (fields_string _ (fun x => MkPMsgTransfer sp sc t s r th tt0 x "")).
    field_step (fields_string _ (fun x => MkPMsgTransfer sp sc t s r th tt0 m0 x)). constructor.
  - field_moves PMsgTransfer_case.
Defined.

#[export] Instance PMsgPrunePacketHistory_ok : MessageOk PMsgPrunePacketHistory.
Proof.
  refine {|
    valid m := js_string (mp_signer m) /\ js_string (mp_port_id m) /\ js_string (mp_channel_id m) /\
      uint64_ok (mp_sequence m) /\ from_option valid True (mp_proof_height m);
    wire m := concat [wire_string 10 (mp_signer m); wire_string 18 (mp_port_id m); wire_string 26 (mp_channel_id m);
      wire_int 32 (mp_sequence m); wire_bytes 42 (mp_proof_commitment_absence m);
      wire_opt wire_message 50 (mp_proof_height m)] |}.
  - message_encodes.
  - read_fields m. destruct m as [s pi0 ci s2 pca ph]; cbn in *.
    field_step (fields_string _ (fun x => MkPMsgPrunePacketHistory x "" "" 0 [] None)).
    field_step (fields_string _ (fun x => MkPMsgPrunePacketHistory s x "" 0 [] None)).
    field_step (fields_string _ (fun x => MkPMsgPrunePacketHistory s pi0 x 0 [] None)).
    field_step (fields_uint64 _ (fun x => MkPMsgPrunePacketHistory s pi0 ci x [] None)).
    field_step (fields_bytes _ (fun x => MkPMsgPrunePacketHistory s pi0 ci s2 x None)).
    field_step (fields_opt_message _ (fun x => MkPMsgPrunePacketHistory s pi0 ci s2 pca x)). constructor.
  - field_moves PMsgPrunePacketHistory_case.
Defined.
