(* ===== verification/ProtoConnection.v ===== *)
(** * The connection messages ([proto-types/src/ibc/core/connection/v1/tx.ts])

    The requests and responses of the connection service and [google.protobuf.Any],
    in the form of [ProtoMessages], with their laws. *)

From Stdlib Require Import ZArith Lia.
From S2P Require Import Prelude JsString JsNumber Varint Utf8 Binary ProtoCodec ProtoMessages ProtoLaws.

#[local] Open Scope Z_scope.
#[local] Open Scope js_scope.

(** ** [google/protobuf/any.ts] *)

Record PAny := MkPAny {
  any_type_url : string; any_value : bytes;
}.
Definition PAny_encode (m : PAny) : BinaryWriter -> BinaryWriter := write_fields
  [field_string 10 (any_type_url m); field_bytes 18 (any_value m)].
Definition PAny_case (tag : Z) (m : PAny) : option (M BinaryReader PAny) :=
  let '(MkPAny tu v0) := m in
  match tag .>>> 3 with
  | 1 => Some (v ← r_string; mret (MkPAny v v0))
  | 2 => Some (v ← r_bytes; mret (MkPAny tu v))
  | _ => None
  end.
#[export] Instance PAny_message : Message PAny :=
  {| base_message := MkPAny "" []; encode_to := PAny_encode;
     field_case := PAny_case |}.

(** ** [ibc/core/connection/v1/tx.ts] *)

Record PMsgConnectionOpenInit := MkPMsgConnectionOpenInit {
  ci_client_id : string; ci_counterparty : PConnCounterparty; ci_version : option PVersion; ci_delay_period : Z;
  ci_signer : string;
}.
Definition PMsgConnectionOpenInit_encode (m : PMsgConnectionOpenInit) : BinaryWriter -> BinaryWriter := write_fields
  [field_string 10 (ci_client_id m); field_message encode_to 18 (ci_counterparty m);
   field_opt (field_message encode_to) 26 (ci_version m); field_uint64 32 (ci_delay_period m);
   field_string 42 (ci_signer m)].
Definition PMsgConnectionOpenInit_case (tag : Z) (m : PMsgConnectionOpenInit) : option (M BinaryReader PMsgConnectionOpenInit) :=
  let '(MkPMsgConnectionOpenInit ci c v0 dp s) := m in
  match tag .>>> 3 with
  | 1 => Some (v ← r_string; mret (MkPMsgConnectionOpenInit v c v0 dp s))
  | 2 => Some (v ← r_message; mret (MkPMsgConnectionOpenInit ci v v0 dp s))
  | 3 => Some (v ← r_message; mret (MkPMsgConnectionOpenInit ci c (Some v) dp s))
  | 4 => Some (v ← r_uint64; mret (MkPMsgConnectionOpenInit ci c v0 v s))
  | 5 => Some (v ← r_string; mret (MkPMsgConnectionOpenInit ci c v0 dp v))
  | _ => None
  end.
#[export] Instance PMsgConnectionOpenInit_message : Message PMsgConnectionOpenInit :=
  {| base_message := MkPMsgConnectionOpenInit "" base_message None 0 ""; encode_to := PMsgConnectionOpenInit_encode;
     field_case := PMsgConnectionOpenInit_case |}.

Record PMsgConnectionOpenInitResponse := MkPMsgConnectionOpenInitResponse {
  cir_unsigned_tx : option PAny;
}.
Definition PMsgConnectionOpenInitResponse_encode (m : PMsgConnectionOpenInitResponse) : BinaryWriter -> BinaryWriter := write_fields
  [field_opt (field_message encode_to) 10 (cir_unsigned_tx m)].
Definition PMsgConnectionOpenInitResponse_case (tag : Z) (m : PMsgConnectionOpenInitResponse) : option (M BinaryReader PMsgConnectionOpenInitResponse) :=
  let '(MkPMsgConnectionOpenInitResponse ut) := m in
  match tag .>>> 3 with
  | 1 => Some (v ← r_message; mret (MkPMsgConnectionOpenInitResponse (Some v)))
  | _ => None
  end.
#[export] Instance PMsgConnectionOpenInitResponse_message : Message PMsgConnectionOpenInitResponse :=
  {| base_message := MkPMsgConnectionOpenInitResponse None; encode_to := PMsgConnectionOpenInitResponse_encode;
     field_case := PMsgConnectionOpenInitResponse_case |}.

Record PMsgConnectionOpenTry := MkPMsgConnectionOpenTry {
  cy_client_id : string; cy_previous_connection_id : string; cy_client_state : option PAny;
  cy_counterparty : PConnCounterparty; cy_delay_period : Z; cy_counterparty_versions : list PVersion;
  cy_proof_height : PHeight; cy_proof_init : bytes; cy_proof_client : bytes; cy_proof_consensus : bytes;
  cy_consensus_height : PHeight; cy_signer : string; cy_host_consensus_state_proof : bytes;
}.
Definition PMsgConnectionOpenTry_encode (m : PMsgConnectionOpenTry) : BinaryWriter -> BinaryWriter := write_fields
  [field_string 10 (cy_client_id m); field_string 18 (cy_previous_connection_id m);
   field_opt (field_message encode_to) 26 (cy_client_state m); field_message encode_to 34 (cy_counterparty m);
   field_uint64 40 (cy_delay_period m); field_repeated (field_message encode_to) 50 (cy_counterparty_versions m);
   field_message encode_to 58 (cy_proof_height m); field_bytes 66 (cy_proof_init m);
   field_bytes 74 (cy_proof_client m); field_bytes 82 (cy_proof_consensus m);
   field_message encode_to 90 (cy_consensus_height m); field_string 98 (cy_signer m);
   field_bytes 106 (cy_host_consensus_state_proof m)].
Definition PMsgConnectionOpenTry_case (tag : Z) (m : PMsgConnectionOpenTry) : option (M BinaryReader PMsgConnectionOpenTry) :=
  let '(MkPMsgConnectionOpenTry ci pci cs c dp cv ph pi0 pc pc2 ch s hcsp) := m in
  match tag .>>> 3 with
  | 1 => Some (v ← r_string; mret (MkPMsgConnectionOpenTry v pci cs c dp cv ph pi0 pc pc2 ch s hcsp))
  | 2 => Some (v ← r_string; mret (MkPMsgConnectionOpenTry ci v cs c dp cv ph pi0 pc pc2 ch s hcsp))
  | 3 => Some (v ← r_message; mret (MkPMsgConnectionOpenTry ci pci (Some v) c dp cv ph pi0 pc pc2 ch s hcsp))
  | 4 => Some (v ← r_message; mret (MkPMsgConnectionOpenTry ci pci cs v dp cv ph pi0 pc pc2 ch s hcsp))
  | 5 => Some (v ← r_uint64; mret (MkPMsgConnectionOpenTry ci pci cs c v cv ph pi0 pc pc2 ch s hcsp))
  | 6 => Some (v ← r_message; mret (MkPMsgConnectionOpenTry ci pci cs c dp (cv ++ [v]) ph pi0 pc pc2 ch s hcsp))
  | 7 => Some (v ← r_message; mret (MkPMsgConnectionOpenTry ci pci cs c dp cv v pi0 pc pc2 ch s hcsp))
  | 8 => Some (v ← r_bytes; mret (MkPMsgConnectionOpenTry ci pci cs c dp cv ph v pc pc2 ch s hcsp))
  | 9 => Some (v ← r_bytes; mret (MkPMsgConnectionOpenTry ci pci cs c dp cv ph pi0 v pc2 ch s hcsp))
  | 10 => Some (v ← r_bytes; mret (MkPMsgConnectionOpenTry ci pci cs c dp cv ph pi0 pc v ch s hcsp))
  | 11 => Some (v ← r_message; mret (MkPMsgConnectionOpenTry ci pci cs c dp cv ph pi0 pc pc2 v s hcsp))
  | 12 => Some (v ← r_string; mret (MkPMsgConnectionOpenTry ci pci cs c dp cv ph pi0 pc pc2 ch v hcsp))
  | 13 => Some (v ← r_bytes; mret (MkPMsgConnectionOpenTry ci pci cs c dp cv ph pi0 pc pc2 ch s v))
  | _ => None
  end.
#[export] Instance PMsgConnectionOpenTry_message : Message PMsgConnectionOpenTry :=
  {| base_message := MkPMsgConnectionOpenTry "" "" None base_message 0 [] base_message [] [] [] base_message "" []; encode_to := PMsgConnectionOpenTry_encode;
     field_case := PMsgConnectionOpenTry_case |}.

Record PMsgConnectionOpenTryResponse := MkPMsgConnectionOpenTryResponse {
  cyr_unsigned_tx : option PAny;
}.
Definition PMsgConnectionOpenTryResponse_encode (m : PMsgConnectionOpenTryResponse) : BinaryWriter -> BinaryWriter := write_fields
  [field_opt (field_message encode_to) 10 (cyr_unsigned_tx m)].
Definition PMsgConnectionOpenTryResponse_case (tag : Z) (m : PMsgConnectionOpenTryResponse) : option (M BinaryReader PMsgConnectionOpenTryResponse) :=
  let '(MkPMsgConnectionOpenTryResponse ut) := m in
  match tag .>>> 3 with
  | 1 => Some (v ← r_message; mret (MkPMsgConnectionOpenTryResponse (Some v)))
  | _ => None
  end.
#[export] Instance PMsgConnectionOpenTryResponse_message : Message PMsgConnectionOpenTryResponse :=
  {| base_message := MkPMsgConnectionOpenTryResponse None; encode_to := PMsgConnectionOpenTryResponse_encode;
     field_case := PMsgConnectionOpenTryResponse_case |}.

Record PMsgConnectionOpenAck := MkPMsgConnectionOpenAck {
  ck_connection_id : string; ck_counterparty_connection_id : string; ck_version : option PVersion;
  ck_client_state : option PAny; ck_proof_height : PHeight; ck_proof_try : bytes; ck_proof_client : bytes;
  ck_proof_consensus : bytes; ck_consensus_height : PHeight; ck_signer : string; ck_host_consensus_state_proof : bytes;
}.
Definition PMsgConnectionOpenAck_encode (m : PMsgConnectionOpenAck) : BinaryWriter -> BinaryWriter := write_fields
  [field_string 10 (ck_connection_id m); field_string 18 (ck_counterparty_connection_id m);
   field_opt (field_message encode_to) 26 (ck_version m); field_opt (field_message encode_to) 34 (ck_client_state m);
   field_message encode_to 42 (ck_proof_height m); field_bytes 50 (ck_proof_try m);
   field_bytes 58 (ck_proof_client m); field_bytes 66 (ck_proof_consensus m);
   field_message encode_to 74 (ck_consensus_height m); field_string 82 (ck_signer m);
   field_bytes 90 (ck_host_consensus_state_proof m)].
Definition PMsgConnectionOpenAck_case (tag : Z) (m : PMsgConnectionOpenAck) : option (M BinaryReader PMsgConnectionOpenAck) :=
  let '(MkPMsgConnectionOpenAck ci cci v0 cs ph pt pc pc2 ch s hcsp) := m in
  match tag .>>> 3 with
  | 1 => Some (v ← r_string; mret (MkPMsgConnectionOpenAck v cci v0 cs ph pt pc pc2 ch s hcsp))
  | 2 => Some (v ← r_string; mret (MkPMsgConnectionOpenAck ci v v0 cs ph pt pc pc2 ch s hcsp))
  | 3 => Some (v ← r_message; mret (MkPMsgConnectionOpenAck ci cci (Some v) cs ph pt pc pc2 ch s hcsp))
  | 4 => Some (v ← r_message; mret (MkPMsgConnectionOpenAck ci cci v0 (Some v) ph pt pc pc2 ch s hcsp))
  | 5 => Some (v ← r_message; mret (MkPMsgConnectionOpenAck ci cci v0 cs v pt pc pc2 ch s hcsp))
  | 6 => Some (v ← r_bytes; mret (MkPMsgConnectionOpenAck ci cci v0 cs ph v pc pc2 ch s hcsp))
  | 7 => Some (v ← r_bytes; mret (MkPMsgConnectionOpenAck ci cci v0 cs ph pt v pc2 ch s hcsp))
  | 8 => Some (v ← r_bytes; mret (MkPMsgConnectionOpenAck ci cci v0 cs ph pt pc v ch s hcsp))
  | 9 => Some (v ← r_message; mret (MkPMsgConnectionOpenAck ci cci v0 cs ph pt pc pc2 v s hcsp))
  | 10 => Some (v ← r_string; mret (MkPMsgConnectionOpenAck ci cci v0 cs ph pt pc pc2 ch v hcsp))
  | 11 => Some (v ← r_bytes; mret (MkPMsgConnectionOpenAck ci cci v0 cs ph pt pc pc2 ch s v))
  | _ => None
  end.
#[export] Instance PMsgConnectionOpenAck_message : Message PMsgConnectionOpenAck :=
  {| base_message := MkPMsgConnectionOpenAck "" "" None None base_message [] [] [] base_message "" []; encode_to := PMsgConnectionOpenAck_encode;
     field_case := PMsgConnectionOpenAck_case |}.

Record PMsgConnectionOpenAckResponse := MkPMsgConnectionOpenAckResponse {
  ckr_unsigned_tx : option PAny;
}.
Definition PMsgConnectionOpenAckResponse_encode (m : PMsgConnectionOpenAckResponse) : BinaryWriter -> BinaryWriter := write_fields
  [field_opt (field_message encode_to) 10 (ckr_unsigned_tx m)].
Definition PMsgConnectionOpenAckResponse_case (tag : Z) (m : PMsgConnectionOpenAckResponse) : option (M BinaryReader PMsgConnectionOpenAckResponse) :=
  let '(MkPMsgConnectionOpenAckResponse ut) := m in
  match tag .>>> 3 with
  | 1 => Some (v ← r_message; mret (MkPMsgConnectionOpenAckResponse (Some v)))
  | _ => None
  end.
#[export] Instance PMsgConnectionOpenAckResponse_message : Message PMsgConnectionOpenAckResponse :=
  {| base_message := MkPMsgConnectionOpenAckResponse None; encode_to := PMsgConnectionOpenAckResponse_encode;
     field_case := PMsgConnectionOpenAckResponse_case |}.

Record PMsgConnectionOpenConfirm := MkPMsgConnectionOpenConfirm {
  cf_connection_id : string; cf_proof_ack : bytes; cf_proof_height : PHeight; cf_signer : string;
}.
Definition PMsgConnectionOpenConfirm_encode (m : PMsgConnectionOpenConfirm) : BinaryWriter -> BinaryWriter := write_fields
  [field_string 10 (cf_connection_id m); field_bytes 18 (cf_proof_ack m);
   field_message encode_to 26 (cf_proof_height m); field_string 34 (cf_signer m)].
Definition PMsgConnectionOpenConfirm_case (tag : Z) (m : PMsgConnectionOpenConfirm) : option (M BinaryReader PMsgConnectionOpenConfirm) :=
  let '(MkPMsgConnectionOpenConfirm ci pa ph s) := m in
  match tag .>>> 3 with
  | 1 => Some (v ← r_string; mret (MkPMsgConnectionOpenConfirm v pa ph s))
  | 2 => Some (v ← r_bytes; mret (MkPMsgConnectionOpenConfirm ci v ph s))
  | 3 => Some (v ← r_message; mret (MkPMsgConnectionOpenConfirm ci pa v s))
  | 4 => Some (v ← r_string; mret (MkPMsgConnectionOpenConfirm ci pa ph v))
  | _ => None
  end.
#[export] Instance PMsgConnectionOpenConfirm_message : Message PMsgConnectionOpenConfirm :=
  {| base_message := MkPMsgConnectionOpenConfirm "" [] base_message ""; encode_to := PMsgConnectionOpenConfirm_encode;
     field_case := PMsgConnectionOpenConfirm_case |}.

Record PMsgConnectionOpenConfirmResponse := MkPMsgConnectionOpenConfirmResponse {
  cfr_unsigned_tx : option PAny;
}.
Definition PMsgConnectionOpenConfirmResponse_encode (m : PMsgConnectionOpenConfirmResponse) : BinaryWriter -> BinaryWriter := write_fields
  [field_opt (field_message encode_to) 10 (cfr_unsigned_tx m)].
Definition PMsgConnectionOpenConfirmResponse_case (tag : Z) (m : PMsgConnectionOpenConfirmResponse) : option (M BinaryReader PMsgConnectionOpenConfirmResponse) :=
  let '(MkPMsgConnectionOpenConfirmResponse ut) := m in
  match tag .>>> 3 with
  | 1 => Some (v ← r_message; mret (MkPMsgConnectionOpenConfirmResponse (Some v)))
  | _ => None
  end.
#[export] Instance PMsgConnectionOpenConfirmResponse_message : Message PMsgConnectionOpenConfirmResponse :=
  {| base_message := MkPMsgConnectionOpenConfirmResponse None; encode_to := PMsgConnectionOpenConfirmResponse_encode;
     field_case := PMsgConnectionOpenConfirmResponse_case |}.

(** ** Laws *)

#[export] Instance PAny_ok : MessageOk PAny.
Proof.
  refine {|
    valid m := js_string (any_type_url m);
    wire m := concat [wire_string 10 (any_type_url m); wire_bytes 18 (any_value m)] |}.
  - message_encodes.
  - read_fields m. destruct m as [tu v0]; cbn in *.
    field_step (fields_string _ (fun x => MkPAny x [])).
    field_step (fields_bytes _ (fun x => MkPAny tu x)). constructor.
  - field_moves PAny_case.
Defined.

#[export] Instance PMsgConnectionOpenInit_ok : MessageOk PMsgConnectionOpenInit.
Proof.
  refine {|
    valid m := js_string (ci_client_id m) /\ valid (ci_counterparty m) /\ from_option valid True (ci_version m) /\
      uint64_ok (ci_delay_period m) /\ js_string (ci_signer m);
    wire m := concat [wire_string 10 (ci_client_id m); wire_message 18 (ci_counterparty m); wire_opt wire_message 26 (ci_version m);
      wire_int 32 (ci_delay_period m); wire_string 42 (ci_signer m)] |}.
  - message_encodes.
  - read_fields m. destruct m as [ci c v0 dp s]; cbn in *.
    field_step (fields_string _ (fun x => MkPMsgConnectionOpenInit x base_message None 0 "")).
    field_step (fields_message _ (fun x => MkPMsgConnectionOpenInit ci x None 0 "")).
    field_step (fields_opt_message _ (fun x => MkPMsgConnectionOpenInit ci c x 0 "")).
    field_step (fields_uint64 _ (fun x => MkPMsgConnectionOpenInit ci c v0 x "")).
    field_step (fields_string _ (fun x => MkPMsgConnectionOpenInit ci c v0 dp x)). constructor.
  - field_moves PMsgConnectionOpenInit_case.
Defined.

#[export] Instance PMsgConnectionOpenInitResponse_ok : MessageOk PMsgConnectionOpenInitResponse.
Proof.
  refine {|
    valid m := from_option valid True (cir_unsigned_tx m);
    wire m := concat [wire_opt wire_message 10 (cir_unsigned_tx m)] |}.
  - message_encodes.
  - read_fields m. destruct m as [ut]; cbn in *.
    field_step (fields_opt_message _ (fun x => MkPMsgConnectionOpenInitResponse x)). constructor.
  - field_moves PMsgConnectionOpenInitResponse_case.
Defined.

#[export] Instance PMsgConnectionOpenTry_ok : MessageOk PMsgConnectionOpenTry.
Proof.
  refine {|
    valid m := js_string (cy_client_id m) /\ js_string (cy_previous_connection_id m) /\
      from_option valid True (cy_client_state m) /\ valid (cy_counterparty m) /\ uint64_ok (cy_delay_period m) /\
      Forall valid (cy_counterparty_versions m) /\ valid (cy_proof_height m) /\ valid (cy_consensus_height m) /\
      js_string (cy_signer m);
    wire m := concat [wire_string 10 (cy_client_id m); wire_string 18 (cy_previous_connection_id m);
      wire_opt wire_message 26 (cy_client_state m); wire_message 34 (cy_counterparty m);
      wire_int 40 (cy_delay_period m); wire_repeated wire_message 50 (cy_counterparty_versions m);
      wire_message 58 (cy_proof_height m); wire_bytes 66 (cy_proof_init m); wire_bytes 74 (cy_proof_client m);
      wire_bytes 82 (cy_proof_consensus m); wire_message 90 (cy_consensus_height m); wire_string 98 (cy_signer m);
      wire_bytes 106 (cy_host_consensus_state_proof m)] |}.
  - message_encodes.
  - read_fields m. destruct m as [ci pci cs c dp cv ph pi0 pc pc2 ch s hcsp]; cbn in *.
    field_step (fields_string _ (fun x => MkPMsgConnectionOpenTry x "" None base_message 0 [] base_message [] [] [] base_message "" [])).
    field_step (fields_string _ (fun x => MkPMsgConnectionOpenTry ci x None base_message 0 [] base_message [] [] [] base_message "" [])).
    field_step (fields_opt_message _ (fun x => MkPMsgConnectionOpenTry ci pci x base_message 0 [] base_message [] [] [] base_message "" [])).
    field_step (fields_message _ (fun x => MkPMsgConnectionOpenTry ci pci cs x 0 [] base_message [] [] [] base_message "" [])).
    field_step (fields_uint64 _ (fun x => MkPMsgConnectionOpenTry ci pci cs c x [] base_message [] [] [] base_message "" [])).
    field_step (fields_rep_message _ (fun x => MkPMsgConnectionOpenTry ci pci cs c dp x base_message [] [] [] base_message "" [])).
    field_step (fields_message _ (fun x => MkPMsgConnectionOpenTry ci pci cs c dp cv x [] [] [] base_message "" [])).
    field_step (fields_bytes _ (fun x => MkPMsgConnectionOpenTry ci pci cs c dp cv ph x [] [] base_message "" [])).
    field_step (fields_bytes _ (fun x => MkPMsgConnectionOpenTry ci pci cs c dp cv ph pi0 x [] base_message "" [])).
    field_step (fields_bytes _ (fun x => MkPMsgConnectionOpenTry ci pci cs c dp cv ph pi0 pc x base_message "" [])).
    field_step (fields_message _ (fun x => MkPMsgConnectionOpenTry ci pci cs c dp cv ph pi0 pc pc2 x "" [])).
    field_step (fields_string _ (fun x => MkPMsgConnectionOpenTry ci pci cs c dp cv ph pi0 pc pc2 ch x [])).
    field_step (fields_bytes _ (fun x => MkPMsgConnectionOpenTry ci pci cs c dp cv ph pi0 pc pc2 ch s x)). constructor.
  - field_moves PMsgConnectionOpenTry_case.
Defined.

#[export] Instance PMsgConnectionOpenTryResponse_ok : MessageOk PMsgConnectionOpenTryResponse.
Proof.
  refine {|
    valid m := from_option valid True (cyr_unsigned_tx m);
    wire m := concat [wire_opt wire_message 10 (cyr_unsigned_tx m)] |}.
  - message_encodes.
  - read_fields m. destruct m as [ut]; cbn in *.
    field_step (fields_opt_message _ (fun x => MkPMsgConnectionOpenTryResponse x)). constructor.
  - field_moves PMsgConnectionOpenTryResponse_case.
Defined.

#[export] Instance PMsgConnectionOpenAck_ok : MessageOk PMsgConnectionOpenAck.
Proof.
  refine {|
    valid m := js_string (ck_connection_id m) /\ js_string (ck_counterparty_connection_id m) /\
      from_option valid True (ck_version m) /\ from_option valid True (ck_client_state m) /\
      valid (ck_proof_height m) /\ valid (ck_consensus_height m) /\ js_string (ck_signer m);
    wire m := concat [wire_string 10 (ck_connection_id m); wire_string 18 (ck_counterparty_connection_id m);
      wire_opt wire_message 26 (ck_version m); wire_opt wire_message 34 (ck_client_state m);
      wire_message 42 (ck_proof_height m); wire_bytes 50 (ck_proof_try m); wire_bytes 58 (ck_proof_client m);
      wire_bytes 66 (ck_proof_consensus m); wire_message 74 (ck_consensus_height m); wire_string 82 (ck_signer m);
      wire_bytes 90 (ck_host_consensus_state_proof m)] |}.
  - message_encodes.
  - read_fields m. destruct m as [ci cci v0 cs ph pt pc pc2 ch s hcsp]; cbn in *.
    field_step (fields_string _ (fun x => MkPMsgConnectionOpenAck x "" None None base_message [] [] [] base_message "" [])).
    field_step (fields_string _ (fun x => MkPMsgConnectionOpenAck ci x None None base_message [] [] [] base_message "" [])).
    field_step (fields_opt_message _ (fun x => MkPMsgConnectionOpenAck ci cci x None base_message [] [] [] base_message "" [])).
    field_step (fields_opt_message _ (fun x => MkPMsgConnectionOpenAck ci cci v0 x base_message [] [] [] base_message "" [])).
    field_step (fields_message _ (fun x => MkPMsgConnectionOpenAck ci cci v0 cs x [] [] [] base_message "" [])).
    field_step (fields_bytes _ (fun x => MkPMsgConnectionOpenAck ci cci v0 cs ph x [] [] base_message "" [])).
    field_step (fields_bytes _ (fun x => MkPMsgConnectionOpenAck ci cci v0 cs ph pt x [] base_message "" [])).
    field_step (fields_bytes _ (fun x => MkPMsgConnectionOpenAck ci cci v0 cs ph pt pc x base_message "" [])).
    field_step (fields_message _ (fun x => MkPMsgConnectionOpenAck ci cci v0 cs ph pt pc pc2 x "" [])).
    field_step (fields_string _ (fun x => MkPMsgConnectionOpenAck ci cci v0 cs ph pt pc pc2 ch x [])).
    field_step (fields_bytes _ (fun x => MkPMsgConnectionOpenAck ci cci v0 cs ph pt pc pc2 ch s x)). constructor.
  - field_moves PMsgConnectionOpenAck_case.
Defined.

#[export] Instance PMsgConnectionOpenAckResponse_ok : MessageOk PMsgConnectionOpenAckResponse.
Proof.
  refine {|
    valid m := from_option valid True (ckr_unsigned_tx m);
    wire m := concat [wire_opt wire_message 10 (ckr_unsigned_tx m)] |}.
  - message_encodes.
  - read_fields m. destruct m as [ut]; cbn in *.
    field_step (fields_opt_message _ (fun x => MkPMsgConnectionOpenAckResponse x)). constructor.
  - field_moves PMsgConnectionOpenAckResponse_case.
Defined.

#[export] Instance PMsgConnectionOpenConfirm_ok : MessageOk PMsgConnectionOpenConfirm.
Proof.
  refine {|
    valid m := js_string (cf_connection_id m) /\ valid (cf_proof_height m) /\ js_string (cf_signer m);
    wire m := concat [wire_string 10 (cf_connection_id m); wire_bytes 18 (cf_proof_ack m); wire_message 26 (cf_proof_height m);
      wire_string 34 (cf_signer m)] |}.
  - message_encodes.
  - read_fields m. destruct m as [ci pa ph s]; cbn in *.
    field_step (fields_string _ (fun x => MkPMsgConnectionOpenConfirm x [] base_message "")).
    field_step (fields_bytes _ (fun x => MkPMsgConnectionOpenConfirm ci x base_message "")).
    field_step (fields_message _ (fun x => MkPMsgConnectionOpenConfirm ci pa x "")).
    field_step (fields_string _ (fun x => MkPMsgConnectionOpenConfirm ci pa ph x)). constructor.
  - field_moves PMsgConnectionOpenConfirm_case.
Defined.

#[export] Instance PMsgConnectionOpenConfirmResponse_ok : MessageOk PMsgConnectionOpenConfirmResponse.
Proof.
  refine {|
    valid m := from_option valid True (cfr_unsigned_tx m);
    wire m := concat [wire_opt wire_message 10 (cfr_unsigned_tx m)] |}.
  - message_encodes.
  - read_fields m. destruct m as [ut]; cbn in *.
    field_step (fields_opt_message _ (fun x => MkPMsgConnectionOpenConfirmResponse x)). constructor.
  - field_moves PMsgConnectionOpenConfirmResponse_case.
Defined.
