(* ===== verification/ProtoClient.v ===== *)
(** * The client messages ([ibc/core/client/v1/tx.ts], [ibc/lightclients/tendermint/v1])

    The requests of the client service, the Tendermint client and consensus states,
    headers and misbehaviour with the messages they nest ([tendermint/types],
    [google/protobuf]), in the form of [ProtoMessages], with their laws. *)

From Stdlib Require Import ZArith Lia.
From S2P Require Import Prelude JsString JsNumber Varint Utf8 Binary ProtoCodec ProtoMessages ProtoLaws ProtoConnection.

#[local] Open Scope Z_scope.
#[local] Open Scope js_scope.

(** ** Unsigned 32-bit fields *)

(** [if (message.f !== 0) writer.uint32(tag).uint32(message.f)] *)
Definition field_uint32 (tag v : Z) (w : BinaryWriter) : BinaryWriter := if decide (v = 0) then w else w_uint32 v (w_uint32 tag w).
Definition uint32_ok (v : Z) : Prop := 0 <= v < 2 ^ 32.

Lemma u64_uint32 v : uint32_ok v -> u64 v = v.
Proof. intros Hv. unfold uint32_ok in Hv. apply Z.mod_small. lia. Qed.
Lemma emits_field_uint32 tag v : tag_ok tag -> uint32_ok v -> emits (field_uint32 tag v) (wire_int tag v).
Proof.
  intros Ht Hv. unfold field_uint32, wire_int. case_decide; [apply emits_id|]. rewrite u64_uint32 by done.
  apply emits_tagged; [done|]. by apply emits_uint32_small.
Qed.
Lemma fields_uint32 {A} field (mk : Z -> A) tag v : tag_ok tag -> uint32_ok v ->
  field tag (mk 0) = Some (x ← r_uint32; mret (mk x)) -> fields_read field (wire_int tag v) (mk 0) (mk v).
Proof.
  intros Ht Hv Hf. unfold wire_int. case_decide as H0; [subst; constructor|]. eapply reads_set; [done|exact Hf|].
  rewrite u64_uint32 by done. by apply reads_uint32.
Qed.
#[local] Hint Resolve emits_field_uint32 moves_varint32 : proto.
#[local] Hint Extern 1 (moves 1 r_uint32) => exact moves_varint32 : proto.

(** ** [google/protobuf/duration.ts] *)

Record PDuration := MkPDuration {
  du_seconds : Z; du_nanos : Z;
}.
Definition PDuration_encode (m : PDuration) : BinaryWriter -> BinaryWriter := write_fields
  [field_int64 8 (du_seconds m); field_int32 16 (du_nanos m)].
Definition PDuration_case (tag : Z) (m : PDuration) : option (M BinaryReader PDuration) :=
  let '(MkPDuration s n) := m in
  match tag .>>> 3 with
  | 1 => Some (v ← r_int64; mret (MkPDuration v n))
  | 2 => Some (v ← r_int32; mret (MkPDuration s v))
  | _ => None
  end.
#[export] Instance PDuration_message : Message PDuration :=
  {| base_message := MkPDuration 0 0; encode_to := PDuration_encode;
     field_case := PDuration_case |}.

(** ** [google/protobuf/timestamp.ts] *)

Record PTimestamp := MkPTimestamp {
  ts_seconds : Z; ts_nanos : Z;
}.
Definition PTimestamp_encode (m : PTimestamp) : BinaryWriter -> BinaryWriter := write_fields
  [field_int64 8 (ts_seconds m); field_int32 16 (ts_nanos m)].
Definition PTimestamp_case (tag : Z) (m : PTimestamp) : option (M BinaryReader PTimestamp) :=
  let '(MkPTimestamp s n) := m in
  match tag .>>> 3 with
  | 1 => Some (v ← r_int64; mret (MkPTimestamp v n))
  | 2 => Some (v ← r_int32; mret (MkPTimestamp s v))
  | _ => None
  end.
#[export] Instance PTimestamp_message : Message PTimestamp :=
  {| base_message := MkPTimestamp 0 0; encode_to := PTimestamp_encode;
     field_case := PTimestamp_case |}.

(** ** [tendermint/version/types.ts] *)

Record PConsensus := MkPConsensus {
  pcv_block : Z; pcv_app : Z;
}.
Definition PConsensus_encode (m : PConsensus) : BinaryWriter -> BinaryWriter := write_fields
  [field_uint64 8 (pcv_block m); field_uint64 16 (pcv_app m)].
Definition PConsensus_case (tag : Z) (m : PConsensus) : option (M BinaryReader PConsensus) :=
  let '(MkPConsensus b a) := m in
  match tag .>>> 3 with
  | 1 => Some (v ← r_uint64; mret (MkPConsensus v a))
  | 2 => Some (v ← r_uint64; mret (MkPConsensus b v))
  | _ => None
  end.
#[export] Instance PConsensus_message : Message PConsensus :=
  {| base_message := MkPConsensus 0 0; encode_to := PConsensus_encode;
     field_case := PConsensus_case |}.

(** ** [tendermint/crypto/keys.ts] *)

Record PPublicKey := MkPPublicKey {
  pk_ed25519 : option bytes; pk_secp256k1 : option bytes;
}.
Definition PPublicKey_encode (m : PPublicKey) : BinaryWriter -> BinaryWriter := write_fields
  [field_opt write_bytes 10 (pk_ed25519 m); field_opt write_bytes 18 (pk_secp256k1 m)].
Definition PPublicKey_case (tag : Z) (m : PPublicKey) : option (M BinaryReader PPublicKey) :=
  let '(MkPPublicKey e s) := m in
  match tag .>>> 3 with
  | 1 => Some (v ← r_bytes; mret (MkPPublicKey (Some v) s))
  | 2 => Some (v ← r_bytes; mret (MkPPublicKey e (Some v)))
  | _ => None
  end.
#[export] Instance PPublicKey_message : Message PPublicKey :=
  {| base_message := MkPPublicKey None None; encode_to := PPublicKey_encode;
     field_case := PPublicKey_case |}.

(** ** [tendermint/types/types.ts] *)

Record PPartSetHeader := MkPPartSetHeader {
  psh_total : Z; psh_hash : bytes;
}.
Definition PPartSetHeader_encode (m : PPartSetHeader) : BinaryWriter -> BinaryWriter := write_fields
  [field_uint32 8 (psh_total m); field_bytes 18 (psh_hash m)].
Definition PPartSetHeader_case (tag : Z) (m : PPartSetHeader) : option (M BinaryReader PPartSetHeader) :=
  let '(MkPPartSetHeader t h) := m in
  match tag .>>> 3 with
  | 1 => Some (v ← r_uint32; mret (MkPPartSetHeader v h))
  | 2 => Some (v ← r_bytes; mret (MkPPartSetHeader t v))
  | _ => None
  end.
#[export] Instance PPartSetHeader_message : Message PPartSetHeader :=
  {| base_message := MkPPartSetHeader 0 []; encode_to := PPartSetHeader_encode;
     field_case := PPartSetHeader_case |}.

Record PBlockID := MkPBlockID {
  bid_hash : bytes; bid_part_set_header : PPartSetHeader;
}.
Definition PBlockID_encode (m : PBlockID) : BinaryWriter -> BinaryWriter := write_fields
  [field_bytes 10 (bid_hash m); field_message encode_to 18 (bid_part_set_header m)].
Definition PBlockID_case (tag : Z) (m : PBlockID) : option (M BinaryReader PBlockID) :=
  let '(MkPBlockID h psh) := m in
  match tag .>>> 3 with
  | 1 => Some (v ← r_bytes; mret (MkPBlockID v psh))
  | 2 => Some (v ← r_message; mret (MkPBlockID h v))
  | _ => None
  end.
#[export] Instance PBlockID_message : Message PBlockID :=
  {| base_message := MkPBlockID [] base_message; encode_to := PBlockID_encode;
     field_case := PBlockID_case |}.

Record PTmHeader := MkPTmHeader {
  tmh_version : PConsensus; tmh_chain_id : string; tmh_height : Z; tmh_time : PTimestamp;
  tmh_last_block_id : PBlockID; tmh_last_commit_hash : bytes; tmh_data_hash : bytes; tmh_validators_hash : bytes;
  tmh_next_validators_hash : bytes; tmh_consensus_hash : bytes; tmh_app_hash : bytes; tmh_last_results_hash : bytes;
  tmh_evidence_hash : bytes; tmh_proposer_address : bytes;
}.
Definition PTmHeader_encode (m : PTmHeader) : BinaryWriter -> BinaryWriter := write_fields
  [field_message encode_to 10 (tmh_version m); field_string 18 (tmh_chain_id m); field_int64 24 (tmh_height m);
   field_message encode_to 34 (tmh_time m); field_message encode_to 42 (tmh_last_block_id m);
   field_bytes 50 (tmh_last_commit_hash m); field_bytes 58 (tmh_data_hash m); field_bytes 66 (tmh_validators_hash m);
   field_bytes 74 (tmh_next_validators_hash m); field_bytes 82 (tmh_consensus_hash m);
   field_bytes 90 (tmh_app_hash m); field_bytes 98 (tmh_last_results_hash m); field_bytes 106 (tmh_evidence_hash m);
   field_bytes 114 (tmh_proposer_address m)].
Definition PTmHeader_case (tag : Z) (m : PTmHeader) : option (M BinaryReader PTmHeader) :=
  let '(MkPTmHeader v0 ci h t lbi lch dh vh nvh ch ah lrh eh pa) := m in
  match tag .>>> 3 with
  | 1 => Some (v ← r_message; mret (MkPTmHeader v ci h t lbi lch dh vh nvh ch ah lrh eh pa))
  | 2 => Some (v ← r_string; mret (MkPTmHeader v0 v h t lbi lch dh vh nvh ch ah lrh eh pa))
  | 3 => Some (v ← r_int64; mret (MkPTmHeader v0 ci v t lbi lch dh vh nvh ch ah lrh eh pa))
  | 4 => Some (v ← r_message; mret (MkPTmHeader v0 ci h v lbi lch dh vh nvh ch ah lrh eh pa))
  | 5 => Some (v ← r_message; mret (MkPTmHeader v0 ci h t v lch dh vh nvh ch ah lrh eh pa))
  | 6 => Some (v ← r_bytes; mret (MkPTmHeader v0 ci h t lbi v dh vh nvh ch ah lrh eh pa))
  | 7 => Some (v ← r_bytes; mret (MkPTmHeader v0 ci h t lbi lch v vh nvh ch ah lrh eh pa))
  | 8 => Some (v ← r_bytes; mret (MkPTmHeader v0 ci h t lbi lch dh v nvh ch ah lrh eh pa))
  | 9 => Some (v ← r_bytes; mret (MkPTmHeader v0 ci h t lbi lch dh vh v ch ah lrh eh pa))
  | 10 => Some (v ← r_bytes; mret (MkPTmHeader v0 ci h t lbi lch dh vh nvh v ah lrh eh pa))
  | 11 => Some (v ← r_bytes; mret (MkPTmHeader v0 ci h t lbi lch dh vh nvh ch v lrh eh pa))
  | 12 => Some (v ← r_bytes; mret (MkPTmHeader v0 ci h t lbi lch dh vh nvh ch ah v eh pa))
  | 13 => Some (v ← r_bytes; mret (MkPTmHeader v0 ci h t lbi lch dh vh nvh ch ah lrh v pa))
  | 14 => Some (v ← r_bytes; mret (MkPTmHeader v0 ci h t lbi lch dh vh nvh ch ah lrh eh v))
  | _ => None
  end.
#[export] Instance PTmHeader_message : Message PTmHeader :=
  {| base_message := MkPTmHeader base_message "" 0 base_message base_message [] [] [] [] [] [] [] [] []; encode_to := PTmHeader_encode;
     field_case := PTmHeader_case |}.

Record PCommitSig := MkPCommitSig {
  csg_block_id_flag : Z; csg_validator_address : bytes; csg_timestamp : PTimestamp; csg_signature : bytes;
}.
Definition PCommitSig_encode (m : PCommitSig) : BinaryWriter -> BinaryWriter := write_fields
  [field_int32 8 (csg_block_id_flag m); field_bytes 18 (csg_validator_address m);
   field_message encode_to 26 (csg_timestamp m); field_bytes 34 (csg_signature m)].
Definition PCommitSig_case (tag : Z) (m : PCommitSig) : option (M BinaryReader PCommitSig) :=
  let '(MkPCommitSig bif va t s) := m in
  match tag .>>> 3 with
  | 1 => Some (v ← r_int32; mret (MkPCommitSig v va t s))
  | 2 => Some (v ← r_bytes; mret (MkPCommitSig bif v t s))
  | 3 => Some (v ← r_message; mret (MkPCommitSig bif va v s))
  | 4 => Some (v ← r_bytes; mret (MkPCommitSig bif va t v))
  | _ => None
  end.
#[export] Instance PCommitSig_message : Message PCommitSig :=
  {| base_message := MkPCommitSig 0 [] base_message []; encode_to := PCommitSig_encode;
     field_case := PCommitSig_case |}.

Record PCommit := MkPCommit {
  cmt_height : Z; cmt_round : Z; cmt_block_id : PBlockID; cmt_signatures : list PCommitSig;
}.
Definition PCommit_encode (m : PCommit) : BinaryWriter -> BinaryWriter := write_fields
  [field_int64 8 (cmt_height m); field_int32 16 (cmt_round m); field_message encode_to 26 (cmt_block_id m);
   field_repeated (field_message encode_to) 34 (cmt_signatures m)].
Definition PCommit_case (tag : Z) (m : PCommit) : option (M BinaryReader PCommit) :=
  let '(MkPCommit h r bi s) := m in
  match tag .>>> 3 with
  | 1 => Some (v ← r_int64; mret (MkPCommit v r bi s))
  | 2 => Some (v ← r_int32; mret (MkPCommit h v bi s))
  | 3 => Some (v ← r_message; mret (MkPCommit h r v s))
  | 4 => Some (v ← r_message; mret (MkPCommit h r bi (s ++ [v])))
  | _ => None
  end.
#[export] Instance PCommit_message : Message PCommit :=
  {| base_message := MkPCommit 0 0 base_message []; encode_to := PCommit_encode;
     field_case := PCommit_case |}.

Record PSignedHeader := MkPSignedHeader {
  sgh_header : option PTmHeader; sgh_commit : option PCommit;
}.
Definition PSignedHeader_encode (m : PSignedHeader) : BinaryWriter -> BinaryWriter := write_fields
  [field_opt (field_message encode_to) 10 (sgh_header m); field_opt (field_message encode_to) 18 (sgh_commit m)].
Definition PSignedHeader_case (tag : Z) (m : PSignedHeader) : option (M BinaryReader PSignedHeader) :=
  let '(MkPSignedHeader h c) := m in
  match tag .>>> 3 with
  | 1 => Some (v ← r_message; mret (MkPSignedHeader (Some v) c))
  | 2 => Some (v ← r_message; mret (MkPSignedHeader h (Some v)))
  | _ => None
  end.
#[export] Instance PSignedHeader_message : Message PSignedHeader :=
  {| base_message := MkPSignedHeader None None; encode_to := PSignedHeader_encode;
     field_case := PSignedHeader_case |}.

(** ** [tendermint/types/validator.ts] *)

Record PValidator := MkPValidator {
  vld_address : bytes; vld_pub_key : PPublicKey; vld_voting_power : Z; vld_proposer_priority : Z;
}.
Definition PValidator_encode (m : PValidator) : BinaryWriter -> BinaryWriter := write_fields
  [field_bytes 10 (vld_address m); field_message encode_to 18 (vld_pub_key m); field_int64 24 (vld_voting_power m);
   field_int64 32 (vld_proposer_priority m)].
Definition PValidator_case (tag : Z) (m : PValidator) : option (M BinaryReader PValidator) :=
  let '(MkPValidator a pk vp pp) := m in
  match tag .>>> 3 with
  | 1 => Some (v ← r_bytes; mret (MkPValidator v pk vp pp))
  | 2 => Some (v ← r_message; mret (MkPValidator a v vp pp))
  | 3 => Some (v ← r_int64; mret (MkPValidator a pk v pp))
  | 4 => Some (v ← r_int64; mret (MkPValidator a pk vp v))
  | _ => None
  end.
#[export] Instance PValidator_message : Message PValidator :=
  {| base_message := MkPValidator [] base_message 0 0; encode_to := PValidator_encode;
     field_case := PValidator_case |}.

Record PValidatorSet := MkPValidatorSet {
  vls_validators : list PValidator; vls_proposer : option PValidator; vls_total_voting_power : Z;
}.
Definition PValidatorSet_encode (m : PValidatorSet) : BinaryWriter -> BinaryWriter := write_fields
  [field_repeated (field_message encode_to) 10 (vls_validators m);
   field_opt (field_message encode_to) 18 (vls_proposer m); field_int64 24 (vls_total_voting_power m)].
Definition PValidatorSet_case (tag : Z) (m : PValidatorSet) : option (M BinaryReader PValidatorSet) :=
  let '(MkPValidatorSet v0 p tvp) := m in
  match tag .>>> 3 with
  | 1 => Some (v ← r_message; mret (MkPValidatorSet (v0 ++ [v]) p tvp))
  | 2 => Some (v ← r_message; mret (MkPValidatorSet v0 (Some v) tvp))
  | 3 => Some (v ← r_int64; mret (MkPValidatorSet v0 p v))
  | _ => None
  end.
#[export] Instance PValidatorSet_message : Message PValidatorSet :=
  {| base_message := MkPValidatorSet [] None 0; encode_to := PValidatorSet_encode;
     field_case := PValidatorSet_case |}.

(** ** [cosmos/ics23/v1/proofs.ts] *)

Record PInnerSpec := MkPInnerSpec {
  isp_child_order : list Z; isp_child_size : Z; isp_min_prefix_length : Z; isp_max_prefix_length : Z;
  isp_empty_child : bytes; isp_hash : Z;
}.
Definition PInnerSpec_encode (m : PInnerSpec) : BinaryWriter -> BinaryWriter := write_fields
  [field_packed 10 (isp_child_order m); field_int32 16 (isp_child_size m); field_int32 24 (isp_min_prefix_length m);
   field_int32 32 (isp_max_prefix_length m); field_bytes 42 (isp_empty_child m); field_int32 48 (isp_hash m)].
Definition PInnerSpec_case (tag : Z) (m : PInnerSpec) : option (M BinaryReader PInnerSpec) :=
  let '(MkPInnerSpec co cs mpl mpl2 ec h) := m in
  match tag .>>> 3 with
  | 1 => if decide (tag .& 7 = 2) then Some (v ← r_packed co; mret (MkPInnerSpec v cs mpl mpl2 ec h))
         else Some (v ← r_int32; mret (MkPInnerSpec (co ++ [v]) cs mpl mpl2 ec h))
  | 2 => Some (v ← r_int32; mret (MkPInnerSpec co v mpl mpl2 ec h))
  | 3 => Some (v ← r_int32; mret (MkPInnerSpec co cs v mpl2 ec h))
  | 4 => Some (v ← r_int32; mret (MkPInnerSpec co cs mpl v ec h))
  | 5 => Some (v ← r_bytes; mret (MkPInnerSpec co cs mpl mpl2 v h))
  | 6 => Some (v ← r_int32; mret (MkPInnerSpec co cs mpl mpl2 ec v))
  | _ => None
  end.
#[export] Instance PInnerSpec_message : Message PInnerSpec :=
  {| base_message := MkPInnerSpec [] 0 0 0 [] 0; encode_to := PInnerSpec_encode;
     field_case := PInnerSpec_case |}.

Record PProofSpec := MkPProofSpec {
  psp_leaf_spec : option PLeafOp; psp_inner_spec : option PInnerSpec; psp_max_depth : Z; psp_min_depth : Z;
}.
Definition PProofSpec_encode (m : PProofSpec) : BinaryWriter -> BinaryWriter := write_fields
  [field_opt (field_message encode_to) 10 (psp_leaf_spec m);
   field_opt (field_message encode_to) 18 (psp_inner_spec m); field_int32 24 (psp_max_depth m);
   field_int32 32 (psp_min_depth m)].
Definition PProofSpec_case (tag : Z) (m : PProofSpec) : option (M BinaryReader PProofSpec) :=
  let '(MkPProofSpec ls is0 md md2) := m in
  match tag .>>> 3 with
  | 1 => Some (v ← r_message; mret (MkPProofSpec (Some v) is0 md md2))
  | 2 => Some (v ← r_message; mret (MkPProofSpec ls (Some v) md md2))
  | 3 => Some (v ← r_int32; mret (MkPProofSpec ls is0 v md2))
  | 4 => Some (v ← r_int32; mret (MkPProofSpec ls is0 md v))
  | _ => None
  end.
#[export] Instance PProofSpec_message : Message PProofSpec :=
  {| base_message := MkPProofSpec None None 0 0; encode_to := PProofSpec_encode;
     field_case := PProofSpec_case |}.

(** ** [ibc/lightclients/tendermint/v1/tendermint.ts] *)

Record PFraction := MkPFraction {
  fr_numerator : Z; fr_denominator : Z;
}.
Definition PFraction_encode (m : PFraction) : BinaryWriter -> BinaryWriter := write_fields
  [field_uint64 8 (fr_numerator m); field_uint64 16 (fr_denominator m)].
Definition PFraction_case (tag : Z) (m : PFraction) : option (M BinaryReader PFraction) :=
  let '(MkPFraction n d) := m in
  match tag .>>> 3 with
  | 1 => Some (v ← r_uint64; mret (MkPFraction v d))
  | 2 => Some (v ← r_uint64; mret (MkPFraction n v))
  | _ => None
  end.
#[export] Instance PFraction_message : Message PFraction :=
  {| base_message := MkPFraction 0 0; encode_to := PFraction_encode;
     field_case := PFraction_case |}.

Record PClientState := MkPClientState {
  pcs_chain_id : string; pcs_trust_level : PFraction; pcs_trusting_period : PDuration;
  pcs_unbonding_period : PDuration; pcs_max_clock_drift : PDuration; pcs_frozen_height : PHeight;
  pcs_latest_height : PHeight; pcs_proof_specs : list PProofSpec; pcs_upgrade_path : list string;
  pcs_allow_update_after_expiry : bool; pcs_allow_update_after_misbehaviour : bool;
}.
Definition PClientState_encode (m : PClientState) : BinaryWriter -> BinaryWriter := write_fields
  [field_string 10 (pcs_chain_id m); field_message encode_to 18 (pcs_trust_level m);
   field_message encode_to 26 (pcs_trusting_period m); field_message encode_to 34 (pcs_unbonding_period m);
   field_message encode_to 42 (pcs_max_clock_drift m); field_message encode_to 50 (pcs_frozen_height m);
   field_message encode_to 58 (pcs_latest_height m); field_repeated (field_message encode_to) 66 (pcs_proof_specs m);
   field_repeated write_string 74 (pcs_upgrade_path m); field_bool 80 (pcs_allow_update_after_expiry m);
   field_bool 88 (pcs_allow_update_after_misbehaviour m)].
Definition PClientState_case (tag : Z) (m : PClientState) : option (M BinaryReader PClientState) :=
  let '(MkPClientState ci tl tp up mcd fh lh ps up2 auae auam) := m in
  match tag .>>> 3 with
  | 1 => Some (v ← r_string; mret (MkPClientState v tl tp up mcd fh lh ps up2 auae auam))
  | 2 => Some (v ← r_message; mret (MkPClientState ci v tp up mcd fh lh ps up2 auae auam))
  | 3 => Some (v ← r_message; mret (MkPClientState ci tl v up mcd fh lh ps up2 auae auam))
  | 4 => Some (v ← r_message; mret (MkPClientState ci tl tp v mcd fh lh ps up2 auae auam))
  | 5 => Some (v ← r_message; mret (MkPClientState ci tl tp up v fh lh ps up2 auae auam))
  | 6 => Some (v ← r_message; mret (MkPClientState ci tl tp up mcd v lh ps up2 auae auam))
  | 7 => Some (v ← r_message; mret (MkPClientState ci tl tp up mcd fh v ps up2 auae auam))
  | 8 => Some (v ← r_message; mret (MkPClientState ci tl tp up mcd fh lh (ps ++ [v]) up2 auae auam))
  | 9 => Some (v ← r_string; mret (MkPClientState ci tl tp up mcd fh lh ps (up2 ++ [v]) auae auam))
  | 10 => Some (v ← r_bool; mret (MkPClientState ci tl tp up mcd fh lh ps up2 v auam))
  | 11 => Some (v ← r_bool; mret (MkPClientState ci tl tp up mcd fh lh ps up2 auae v))
  | _ => None
  end.
#[export] Instance PClientState_message : Message PClientState :=
  {| base_message := MkPClientState "" base_message base_message base_message base_message base_message base_message [] [] false false; encode_to := PClientState_encode;
     field_case := PClientState_case |}.

Record PConsensusState := MkPConsensusState {
  pco_timestamp : PTimestamp; pco_root : PMerkleRoot; pco_next_validators_hash : bytes;
}.
Definition PConsensusState_encode (m : PConsensusState) : BinaryWriter -> BinaryWriter := write_fields
  [field_message encode_to 10 (pco_timestamp m); field_message encode_to 18 (pco_root m);
   field_bytes 26 (pco_next_validators_hash m)].
Definition PConsensusState_case (tag : Z) (m : PConsensusState) : option (M BinaryReader PConsensusState) :=
  let '(MkPConsensusState t r nvh) := m in
  match tag .>>> 3 with
  | 1 => Some (v ← r_message; mret (MkPConsensusState v r nvh))
  | 2 => Some (v ← r_message; mret (MkPConsensusState t v nvh))
  | 3 => Some (v ← r_bytes; mret (MkPConsensusState t r v))
  | _ => None
  end.
#[export] Instance PConsensusState_message : Message PConsensusState :=
  {| base_message := MkPConsensusState base_message base_message []; encode_to := PConsensusState_encode;
     field_case := PConsensusState_case |}.

Record PLcHeader := MkPLcHeader {
  lch_signed_header : option PSignedHeader; lch_validator_set : option PValidatorSet; lch_trusted_height : PHeight;
  lch_trusted_validators : option PValidatorSet;
}.
Definition PLcHeader_encode (m : PLcHeader) : BinaryWriter -> BinaryWriter := write_fields
  [field_opt (field_message encode_to) 10 (lch_signed_header m);
   field_opt (field_message encode_to) 18 (lch_validator_set m); field_message encode_to 26 (lch_trusted_height m);
   field_opt (field_message encode_to) 34 (lch_trusted_validators m)].
Definition PLcHeader_case (tag : Z) (m : PLcHeader) : option (M BinaryReader PLcHeader) :=
  let '(MkPLcHeader sh vs th tv) := m in
  match tag .>>> 3 with
  | 1 => Some (v ← r_message; mret (MkPLcHeader (Some v) vs th tv))
  | 2 => Some (v ← r_message; mret (MkPLcHeader sh (Some v) th tv))
  | 3 => Some (v ← r_message; mret (MkPLcHeader sh vs v tv))
  | 4 => Some (v ← r_message; mret (MkPLcHeader sh vs th (Some v)))
  | _ => None
  end.
#[export] Instance PLcHeader_message : Message PLcHeader :=
  {| base_message := MkPLcHeader None None base_message None; encode_to := PLcHeader_encode;
     field_case := PLcHeader_case |}.

Record PMisbehaviour := MkPMisbehaviour {
  mis_client_id : string; mis_header1 : option PLcHeader; mis_header2 : option PLcHeader;
}.
Definition PMisbehaviour_encode (m : PMisbehaviour) : BinaryWriter -> BinaryWriter := write_fields
  [field_string 10 (mis_client_id m); field_opt (field_message encode_to) 18 (mis_header1 m);
   field_opt (field_message encode_to) 26 (mis_header2 m)].
Definition PMisbehaviour_case (tag : Z) (m : PMisbehaviour) : option (M BinaryReader PMisbehaviour) :=
  let '(MkPMisbehaviour ci h h2) := m in
  match tag .>>> 3 with
  | 1 => Some (v ← r_string; mret (MkPMisbehaviour v h h2))
  | 2 => Some (v ← r_message; mret (MkPMisbehaviour ci (Some v) h2))
  | 3 => Some (v ← r_message; mret (MkPMisbehaviour ci h (Some v)))
  | _ => None
  end.
#[export] Instance PMisbehaviour_message : Message PMisbehaviour :=
  {| base_message := MkPMisbehaviour "" None None; encode_to := PMisbehaviour_encode;
     field_case := PMisbehaviour_case |}.

(** ** [ibc/core/client/v1/tx.ts] *)

Record PMsgCreateClient := MkPMsgCreateClient {
  mcc_client_state : option PAny; mcc_consensus_state : option PAny; mcc_signer : string;
}.
Definition PMsgCreateClient_encode (m : PMsgCreateClient) : BinaryWriter -> BinaryWriter := write_fields
  [field_opt (field_message encode_to) 10 (mcc_client_state m);
   field_opt (field_message encode_to) 18 (mcc_consensus_state m); field_string 26 (mcc_signer m)].
Definition PMsgCreateClient_case (tag : Z) (m : PMsgCreateClient) : option (M BinaryReader PMsgCreateClient) :=
  let '(MkPMsgCreateClient cs cs2 s) := m in
  match tag .>>> 3 with
  | 1 => Some (v ← r_message; mret (MkPMsgCreateClient (Some v) cs2 s))
  | 2 => Some (v ← r_message; mret (MkPMsgCreateClient cs (Some v) s))
  | 3 => Some (v ← r_string; mret (MkPMsgCreateClient cs cs2 v))
  | _ => None
  end.
#[export] Instance PMsgCreateClient_message : Message PMsgCreateClient :=
  {| base_message := MkPMsgCreateClient None None ""; encode_to := PMsgCreateClient_encode;
     field_case := PMsgCreateClient_case |}.

Record PMsgCreateClientResponse := MkPMsgCreateClientResponse {
  mcr_unsigned_tx : option PAny; mcr_client_id : string;
}.
Definition PMsgCreateClientResponse_encode (m : PMsgCreateClientResponse) : BinaryWriter -> BinaryWriter := write_fields
  [field_opt (field_message encode_to) 10 (mcr_unsigned_tx m); field_string 18 (mcr_client_id m)].
Definition PMsgCreateClientResponse_case (tag : Z) (m : PMsgCreateClientResponse) : option (M BinaryReader PMsgCreateClientResponse) :=
  let '(MkPMsgCreateClientResponse ut ci) := m in
  match tag .>>> 3 with
  | 1 => Some (v ← r_message; mret (MkPMsgCreateClientResponse (Some v) ci))
  | 2 => Some (v ← r_string; mret (MkPMsgCreateClientResponse ut v))
  | _ => None
  end.
#[export] Instance PMsgCreateClientResponse_message : Message PMsgCreateClientResponse :=
  {| base_message := MkPMsgCreateClientResponse None ""; encode_to := PMsgCreateClientResponse_encode;
     field_case := PMsgCreateClientResponse_case |}.

Record PMsgUpdateClient := MkPMsgUpdateClient {
  muc_client_id : string; muc_client_message : option PAny; muc_signer : string;
}.
Definition PMsgUpdateClient_encode (m : PMsgUpdateClient) : BinaryWriter -> BinaryWriter := write_fields
  [field_string 10 (muc_client_id m); field_opt (field_message encode_to) 18 (muc_client_message m);
   field_string 26 (muc_signer m)].
Definition PMsgUpdateClient_case (tag : Z) (m : PMsgUpdateClient) : option (M BinaryReader PMsgUpdateClient) :=
  let '(MkPMsgUpdateClient ci cm s) := m in
  match tag .>>> 3 with
  | 1 => Some (v ← r_string; mret (MkPMsgUpdateClient v cm s))
  | 2 => Some (v ← r_message; mret (MkPMsgUpdateClient ci (Some v) s))
  | 3 => Some (v ← r_string; mret (MkPMsgUpdateClient ci cm v))
  | _ => None
  end.
#[export] Instance PMsgUpdateClient_message : Message PMsgUpdateClient :=
  {| base_message := MkPMsgUpdateClient "" None ""; encode_to := PMsgUpdateClient_encode;
     field_case := PMsgUpdateClient_case |}.

Record PMsgUpdateClientResponse := MkPMsgUpdateClientResponse {
  mur_unsigned_tx : option PAny;
}.
Definition PMsgUpdateClientResponse_encode (m : PMsgUpdateClientResponse) : BinaryWriter -> BinaryWriter := write_fields
  [field_opt (field_message encode_to) 10 (mur_unsigned_tx m)].
Definition PMsgUpdateClientResponse_case (tag : Z) (m : PMsgUpdateClientResponse) : option (M BinaryReader PMsgUpdateClientResponse) :=
  let '(MkPMsgUpdateClientResponse ut) := m in
  match tag .>>> 3 with
  | 1 => Some (v ← r_message; mret (MkPMsgUpdateClientResponse (Some v)))
  | _ => None
  end.
#[export] Instance PMsgUpdateClientResponse_message : Message PMsgUpdateClientResponse :=
  {| base_message := MkPMsgUpdateClientResponse None; encode_to := PMsgUpdateClientResponse_encode;
     field_case := PMsgUpdateClientResponse_case |}.

(** ** Laws *)

#[export] Instance PDuration_ok : MessageOk PDuration.
Proof.
  refine {|
    valid m := int64_ok (du_seconds m) /\ int32_ok (du_nanos m);
    wire m := concat [wire_int 8 (du_seconds m); wire_int 16 (du_nanos m)] |}.
  - message_encodes.
  - read_fields m. destruct m as [s n]; cbn in *.
    field_step (fields_int64 _ (fun x => MkPDuration x 0)).
    field_step (fields_int32 _ (fun x => MkPDuration s x)). constructor.
  - field_moves PDuration_case.
Defined.

#[export] Instance PTimestamp_ok : MessageOk PTimestamp.
Proof.
  refine {|
    valid m := int64_ok (ts_seconds m) /\ int32_ok (ts_nanos m);
    wire m := concat [wire_int 8 (ts_seconds m); wire_int 16 (ts_nanos m)] |}.
  - message_encodes.
  - read_fields m. destruct m as [s n]; cbn in *.
    field_step (fields_int64 _ (fun x => MkPTimestamp x 0)).
    field_step (fields_int32 _ (fun x => MkPTimestamp s x)). constructor.
  - field_moves PTimestamp_case.
Defined.

#[export] Instance PConsensus_ok : MessageOk PConsensus.
Proof.
  refine {|
    valid m := uint64_ok (pcv_block m) /\ uint64_ok (pcv_app m);
    wire m := concat [wire_int 8 (pcv_block m); wire_int 16 (pcv_app m)] |}.
  - message_encodes.
  - read_fields m. destruct m as [b a]; cbn in *.
    field_step (fields_uint64 _ (fun x => MkPConsensus x 0)).
    field_step (fields_uint64 _ (fun x => MkPConsensus b x)). constructor.
  - field_moves PConsensus_case.
Defined.

#[export] Instance PPublicKey_ok : MessageOk PPublicKey.
Proof.
  refine {|
    valid _ := True;
    wire m := concat [wire_opt wire_delimited 10 (pk_ed25519 m); wire_opt wire_delimited 18 (pk_secp256k1 m)] |}.
  - message_encodes.
  - read_fields m. destruct m as [e s]; cbn in *.
    field_step (fields_opt_bytes _ (fun x => MkPPublicKey x None)).
    field_step (fields_opt_bytes _ (fun x => MkPPublicKey e x)). constructor.
  - field_moves PPublicKey_case.
Defined.

#[export] Instance PPartSetHeader_ok : MessageOk PPartSetHeader.
Proof.
  refine {|
    valid m := uint32_ok (psh_total m);
    wire m := concat [wire_int 8 (psh_total m); wire_bytes 18 (psh_hash m)] |}.
  - message_encodes.
  - read_fields m. destruct m as [t h]; cbn in *.
    field_step (fields_uint32 _ (fun x => MkPPartSetHeader x [])).
    field_step (fields_bytes _ (fun x => MkPPartSetHeader t x)). constructor.
  - field_moves PPartSetHeader_case.
Defined.

#[export] Instance PBlockID_ok : MessageOk PBlockID.
Proof.
  refine {|
    valid m := valid (bid_part_set_header m);
    wire m := concat [wire_bytes 10 (bid_hash m); wire_message 18 (bid_part_set_header m)] |}.
  - message_encodes.
  - read_fields m. destruct m as [h psh]; cbn in *.
    field_step (fields_bytes _ (fun x => MkPBlockID x base_message)).
    field_step (fields_message _ (fun x => MkPBlockID h x)). constructor.
  - field_moves PBlockID_case.
Defined.

#[export] Instance PTmHeader_ok : MessageOk PTmHeader.
Proof.
  refine {|
    valid m := valid (tmh_version m) /\ js_string (tmh_chain_id m) /\ int64_ok (tmh_height m) /\ valid (tmh_time m) /\
      valid (tmh_last_block_id m);
    wire m := concat [wire_message 10 (tmh_version m); wire_string 18 (tmh_chain_id m); wire_int 24 (tmh_height m);
      wire_message 34 (tmh_time m); wire_message 42 (tmh_last_block_id m); wire_bytes 50 (tmh_last_commit_hash m);
      wire_bytes 58 (tmh_data_hash m); wire_bytes 66 (tmh_validators_hash m);
      wire_bytes 74 (tmh_next_validators_hash m); wire_bytes 82 (tmh_consensus_hash m);
      wire_bytes 90 (tmh_app_hash m); wire_bytes 98 (tmh_last_results_hash m); wire_bytes 106 (tmh_evidence_hash m);
      wire_bytes 114 (tmh_proposer_address m)] |}.
  - message_encodes.
  - read_fields m. destruct m as [v0 ci h t lbi lch dh vh nvh ch ah lrh eh pa]; cbn in *.
    field_step (fields_message _ (fun x => MkPTmHeader x "" 0 base_message base_message [] [] [] [] [] [] [] [] [])).
    field_step (fields_string _ (fun x => MkPTmHeader v0 x 0 base_message base_message [] [] [] [] [] [] [] [] [])).
    field_step (fields_int64 _ (fun x => MkPTmHeader v0 ci x base_message base_message [] [] [] [] [] [] [] [] [])).
    field_step (fields_message _ (fun x => MkPTmHeader v0 ci h x base_message [] [] [] [] [] [] [] [] [])).
    field_step (fields_message _ (fun x => MkPTmHeader v0 ci h t x [] [] [] [] [] [] [] [] [])).
    field_step (fields_bytes _ (fun x => MkPTmHeader v0 ci h t lbi x [] [] [] [] [] [] [] [])).
    field_step (fields_bytes _ (fun x => MkPTmHeader v0 ci h t lbi lch x [] [] [] [] [] [] [])).
    field_step (fields_bytes _ (fun x => MkPTmHeader v0 ci h t lbi lch dh x [] [] [] [] [] [])).
    field_step (fields_bytes _ (fun x => MkPTmHeader v0 ci h t lbi lch dh vh x [] [] [] [] [])).
    field_step (fields_bytes _ (fun x => MkPTmHeader v0 ci h t lbi lch dh vh nvh x [] [] [] [])).
    field_step (fields_bytes _ (fun x => MkPTmHeader v0 ci h t lbi lch dh vh nvh ch x [] [] [])).
    field_step (fields_bytes _ (fun x => MkPTmHeader v0 ci h t lbi lch dh vh nvh ch ah x [] [])).
    field_step (fields_bytes _ (fun x => MkPTmHeader v0 ci h t lbi lch dh vh nvh ch ah lrh x [])).
    field_step (fields_bytes _ (fun x => MkPTmHeader v0 ci h t lbi lch dh vh nvh ch ah lrh eh x)). constructor.
  - field_moves PTmHeader_case.
Defined.

#[export] Instance PCommitSig_ok : MessageOk PCommitSig.
Proof.
  refine {|
    valid m := int32_ok (csg_block_id_flag m) /\ valid (csg_timestamp m);
    wire m := concat [wire_int 8 (csg_block_id_flag m); wire_bytes 18 (csg_validator_address m); wire_message 26 (csg_timestamp m);
      wire_bytes 34 (csg_signature m)] |}.
  - message_encodes.
  - read_fields m. destruct m as [bif va t s]; cbn in *.
    field_step (fields_int32 _ (fun x => MkPCommitSig x [] base_message [])).
    field_step (fields_bytes _ (fun x => MkPCommitSig bif x base_message [])).
    field_step (fields_message _ (fun x => MkPCommitSig bif va x [])).
    field_step (fields_bytes _ (fun x => MkPCommitSig bif va t x)). constructor.
  - field_moves PCommitSig_case.
Defined.

#[export] Instance PCommit_ok : MessageOk PCommit.
Proof.
  refine {|
    valid m := int64_ok (cmt_height m) /\ int32_ok (cmt_round m) /\ valid (cmt_block_id m) /\ Forall valid (cmt_signatures m);
    wire m := concat [wire_int 8 (cmt_height m); wire_int 16 (cmt_round m); wire_message 26 (cmt_block_id m);
      wire_repeated wire_message 34 (cmt_signatures m)] |}.
  - message_encodes.
  - read_fields m. destruct m as [h r bi s]; cbn in *.
    field_step (fields_int64 _ (fun x => MkPCommit x 0 base_message [])).
    field_step (fields_int32 _ (fun x => MkPCommit h x base_message [])).
    field_step (fields_message _ (fun x => MkPCommit h r x [])).
    field_step (fields_rep_message _ (fun x => MkPCommit h r bi x)). constructor.
  - field_moves PCommit_case.
Defined.

#[export] Instance PSignedHeader_ok : MessageOk PSignedHeader.
Proof.
  refine {|
    valid m := from_option valid True (sgh_header m) /\ from_option valid True (sgh_commit m);
    wire m := concat [wire_opt wire_message 10 (sgh_header m); wire_opt wire_message 18 (sgh_commit m)] |}.
  - message_encodes.
  - read_fields m. destruct m as [h c]; cbn in *.
    field_step (fields_opt_message _ (fun x => MkPSignedHeader x None)).
    field_step (fields_opt_message _ (fun x => MkPSignedHeader h x)). constructor.
  - field_moves PSignedHeader_case.
Defined.

#[export] Instance PValidator_ok : MessageOk PValidator.
Proof.
  refine {|
    valid m := valid (vld_pub_key m) /\ int64_ok (vld_voting_power m) /\ int64_ok (vld_proposer_priority m);
    wire m := concat [wire_bytes 10 (vld_address m); wire_message 18 (vld_pub_key m); wire_int 24 (vld_voting_power m);
      wire_int 32 (vld_proposer_priority m)] |}.
  - message_encodes.
  - read_fields m. destruct m as [a pk vp pp]; cbn in *.
    field_step (fields_bytes _ (fun x => MkPValidator x base_message 0 0)).
    field_step (fields_message _ (fun x => MkPValidator a x 0 0)).
    field_step (fields_int64 _ (fun x => MkPValidator a pk x 0)).
    field_step (fields_int64 _ (fun x => MkPValidator a pk vp x)). constructor.
  - field_moves PValidator_case.
Defined.

#[export] Instance PValidatorSet_ok : MessageOk PValidatorSet.
Proof.
  refine {|
    valid m := Forall valid (vls_validators m) /\ from_option valid True (vls_proposer m) /\
      int64_ok (vls_total_voting_power m);
    wire m := concat [wire_repeated wire_message 10 (vls_validators m); wire_opt wire_message 18 (vls_proposer m);
      wire_int 24 (vls_total_voting_power m)] |}.
  - message_encodes.
  - read_fields m. destruct m as [v0 p tvp]; cbn in *.
    field_step (fields_rep_message _ (fun x => MkPValidatorSet x None 0)).
    field_step (fields_opt_message _ (fun x => MkPValidatorSet v0 x 0)).
    field_step (fields_int64 _ (fun x => MkPValidatorSet v0 p x)). constructor.
  - field_moves PValidatorSet_case.
Defined.

#[export] Instance PInnerSpec_ok : MessageOk PInnerSpec.
Proof.
  refine {|
    valid m := Forall int32_ok (isp_child_order m) /\ int32_ok (isp_child_size m) /\ int32_ok (isp_min_prefix_length m) /\
      int32_ok (isp_max_prefix_length m) /\ int32_ok (isp_hash m);
    wire m := concat [wire_packed 10 (isp_child_order m); wire_int 16 (isp_child_size m); wire_int 24 (isp_min_prefix_length m);
      wire_int 32 (isp_max_prefix_length m); wire_bytes 42 (isp_empty_child m); wire_int 48 (isp_hash m)] |}.
  - message_encodes.
  - read_fields m. destruct m as [co cs mpl mpl2 ec h]; cbn in *.
    field_step (fields_packed _ (fun x => MkPInnerSpec x 0 0 0 [] 0)).
    field_step (fields_int32 _ (fun x => MkPInnerSpec co x 0 0 [] 0)).
    field_step (fields_int32 _ (fun x => MkPInnerSpec co cs x 0 [] 0)).
    field_step (fields_int32 _ (fun x => MkPInnerSpec co cs mpl x [] 0)).
    field_step (fields_bytes _ (fun x => MkPInnerSpec co cs mpl mpl2 x 0)).
    field_step (fields_int32 _ (fun x => MkPInnerSpec co cs mpl mpl2 ec x)). constructor.
  - field_moves PInnerSpec_case.
Defined.

#[export] Instance PProofSpec_ok : MessageOk PProofSpec.
Proof.
  refine {|
    valid m := from_option valid True (psp_leaf_spec m) /\ from_option valid True (psp_inner_spec m) /\
      int32_ok (psp_max_depth m) /\ int32_ok (psp_min_depth m);
    wire m := concat [wire_opt wire_message 10 (psp_leaf_spec m); wire_opt wire_message 18 (psp_inner_spec m);
      wire_int 24 (psp_max_depth m); wire_int 32 (psp_min_depth m)] |}.
  - message_encodes.
  - read_fields m. destruct m as [ls is0 md md2]; cbn in *.
    field_step (fields_opt_message _ (fun x => MkPProofSpec x None 0 0)).
    field_step (fields_opt_message _ (fun x => MkPProofSpec ls x 0 0)).
    field_step (fields_int32 _ (fun x => MkPProofSpec ls is0 x 0)).
    field_step (fields_int32 _ (fun x => MkPProofSpec ls is0 md x)). constructor.
  - field_moves PProofSpec_case.
Defined.

#[export] Instance PFraction_ok : MessageOk PFraction.
Proof.
  refine {|
    valid m := uint64_ok (fr_numerator m) /\ uint64_ok (fr_denominator m);
    wire m := concat [wire_int 8 (fr_numerator m); wire_int 16 (fr_denominator m)] |}.
  - message_encodes.
  - read_fields m. destruct m as [n d]; cbn in *.
    field_step (fields_uint64 _ (fun x => MkPFraction x 0)).
    field_step (fields_uint64 _ (fun x => MkPFraction n x)). constructor.
  - field_moves PFraction_case.
Defined.

#[export] Instance PClientState_ok : MessageOk PClientState.
Proof.
  refine {|
    valid m := js_string (pcs_chain_id m) /\ valid (pcs_trust_level m) /\ valid (pcs_trusting_period m) /\
      valid (pcs_unbonding_period m) /\ valid (pcs_max_clock_drift m) /\ valid (pcs_frozen_height m) /\
      valid (pcs_latest_height m) /\ Forall valid (pcs_proof_specs m) /\ Forall js_string (pcs_upgrade_path m);
    wire m := concat [wire_string 10 (pcs_chain_id m); wire_message 18 (pcs_trust_level m); wire_message 26 (pcs_trusting_period m);
      wire_message 34 (pcs_unbonding_period m); wire_message 42 (pcs_max_clock_drift m);
      wire_message 50 (pcs_frozen_height m); wire_message 58 (pcs_latest_height m);
      wire_repeated wire_message 66 (pcs_proof_specs m); wire_repeated wire_text 74 (pcs_upgrade_path m);
      wire_bool 80 (pcs_allow_update_after_expiry m); wire_bool 88 (pcs_allow_update_after_misbehaviour m)] |}.
  - message_encodes.
  - read_fields m. destruct m as [ci tl tp up mcd fh lh ps up2 auae auam]; cbn in *.
    field_step (fields_string _ (fun x => MkPClientState x base_message base_message base_message base_message base_message base_message [] [] false false)).
    field_step (fields_message _ (fun x => MkPClientState ci x base_message base_message base_message base_message base_message [] [] false false)).
    field_step (fields_message _ (fun x => MkPClientState ci tl x base_message base_message base_message base_message [] [] false false)).
    field_step (fields_message _ (fun x => MkPClientState ci tl tp x base_message base_message base_message [] [] false false)).
    field_step (fields_message _ (fun x => MkPClientState ci tl tp up x base_message base_message [] [] false false)).
    field_step (fields_message _ (fun x => MkPClientState ci tl tp up mcd x base_message [] [] false false)).
    field_step (fields_message _ (fun x => MkPClientState ci tl tp up mcd fh x [] [] false false)).
    field_step (fields_rep_message _ (fun x => MkPClientState ci tl tp up mcd fh lh x [] false false)).
    field_step (fields_rep_string _ (fun x => MkPClientState ci tl tp up mcd fh lh ps x false false)).
    field_step (fields_bool _ (fun x => MkPClientState ci tl tp up mcd fh lh ps up2 x false)).
    field_step (fields_bool _ (fun x => MkPClientState ci tl tp up mcd fh lh ps up2 auae x)). constructor.
  - field_moves PClientState_case.
Defined.

#[export] Instance PConsensusState_ok : MessageOk PConsensusState.
Proof.
  refine {|
    valid m := valid (pco_timestamp m) /\ valid (pco_root m);
    wire m := concat [wire_message 10 (pco_timestamp m); wire_message 18 (pco_root m); wire_bytes 26 (pco_next_validators_hash m)] |}.
  - message_encodes.
  - read_fields m. destruct m as [t r nvh]; cbn in *.
    field_step (fields_message _ (fun x => MkPConsensusState x base_message [])).
    field_step (fields_message _ (fun x => MkPConsensusState t x [])).
    field_step (fields_bytes _ (fun x => MkPConsensusState t r x)). constructor.
  - field_moves PConsensusState_case.
Defined.

#[export] Instance PLcHeader_ok : MessageOk PLcHeader.
Proof.
  refine {|
    valid m := from_option valid True (lch_signed_header m) /\ from_option valid True (lch_validator_set m) /\
      valid (lch_trusted_height m) /\ from_option valid True (lch_trusted_validators m);
    wire m := concat [wire_opt wire_message 10 (lch_signed_header m); wire_opt wire_message 18 (lch_validator_set m);
      wire_message 26 (lch_trusted_height m); wire_opt wire_message 34 (lch_trusted_validators m)] |}.
  - message_encodes.
  - read_fields m. destruct m as [sh vs th tv]; cbn in *.
    field_step (fields_opt_message _ (fun x => MkPLcHeader x None base_message None)).
    field_step (fields_opt_message _ (fun x => MkPLcHeader sh x base_message None)).
    field_step (fields_message _ (fun x => MkPLcHeader sh vs x None)).
    field_step (fields_opt_message _ (fun x => MkPLcHeader sh vs th x)). constructor.
  - field_moves PLcHeader_case.
Defined.

#[export] Instance PMisbehaviour_ok : MessageOk PMisbehaviour.
Proof.
  refine {|
    valid m := js_string (mis_client_id m) /\ from_option valid True (mis_header1 m) /\ from_option valid True (mis_header2 m);
    wire m := concat [wire_string 10 (mis_client_id m); wire_opt wire_message 18 (mis_header1 m);
      wire_opt wire_message 26 (mis_header2 m)] |}.
  - message_encodes.
  - read_fields m. destruct m as [ci h h2]; cbn in *.
    field_step (fields_string _ (fun x => MkPMisbehaviour x None None)).
    field_step (fields_opt_message _ (fun x => MkPMisbehaviour ci x None)).
    field_step (fields_opt_message _ (fun x => MkPMisbehaviour ci h x)). constructor.
  - field_moves PMisbehaviour_case.
Defined.

#[export] Instance PMsgCreateClient_ok : MessageOk PMsgCreateClient.
Proof.
  refine {|
    valid m := from_option valid True (mcc_client_state m) /\ from_option valid True (mcc_consensus_state m) /\
      js_string (mcc_signer m);
    wire m := concat [wire_opt wire_message 10 (mcc_client_state m); wire_opt wire_message 18 (mcc_consensus_state m);
      wire_string 26 (mcc_signer m)] |}.
  - message_encodes.
  - read_fields m. destruct m as [cs cs2 s]; cbn in *.
    field_step (fields_opt_message _ (fun x => MkPMsgCreateClient x None "")).
    field_step (fields_opt_message _ (fun x => MkPMsgCreateClient cs x "")).
    field_step (fields_string _ (fun x => MkPMsgCreateClient cs cs2 x)). constructor.
  - field_moves PMsgCreateClient_case.
Defined.

#[export] Instance PMsgCreateClientResponse_ok : MessageOk PMsgCreateClientResponse.
Proof.
  refine {|
    valid m := from_option valid True (mcr_unsigned_tx m) /\ js_string (mcr_client_id m);
    wire m := concat [wire_opt wire_message 10 (mcr_unsigned_tx m); wire_string 18 (mcr_client_id m)] |}.
  - message_encodes.
  - read_fields m. destruct m as [ut ci]; cbn in *.
    field_step (fields_opt_message _ (fun x => MkPMsgCreateClientResponse x "")).
    field_step (fields_string _ (fun x => MkPMsgCreateClientResponse ut x)). constructor.
  - field_moves PMsgCreateClientResponse_case.
Defined.

#[export] Instance PMsgUpdateClient_ok : MessageOk PMsgUpdateClient.
Proof.
  refine {|
    valid m := js_string (muc_client_id m) /\ from_option valid True (muc_client_message m) /\ js_string (muc_signer m);
    wire m := concat [wire_string 10 (muc_client_id m); wire_opt wire_message 18 (muc_client_message m); wire_string 26 (muc_signer m)] |}.
  - message_encodes.
  - read_fields m. destruct m as [ci cm s]; cbn in *.
    field_step (fields_string _ (fun x => MkPMsgUpdateClient x None "")).
    field_step (fields_opt_message _ (fun x => MkPMsgUpdateClient ci x "")).
    field_step (fields_string _ (fun x => MkPMsgUpdateClient ci cm x)). constructor.
  - field_moves PMsgUpdateClient_case.
Defined.

#[export] Instance PMsgUpdateClientResponse_ok : MessageOk PMsgUpdateClientResponse.
Proof.
  refine {|
    valid m := from_option valid True (mur_unsigned_tx m);
    wire m := concat [wire_opt wire_message 10 (mur_unsigned_tx m)] |}.
  - message_encodes.
  - read_fields m. destruct m as [ut]; cbn in *.
    field_step (fields_opt_message _ (fun x => MkPMsgUpdateClientResponse x)). constructor.
  - field_moves PMsgUpdateClientResponse_case.
Defined.
