(* ===== verification/ProtoTheorems.v ===== *)
(** * Properties of the protobuf layer

    Claims about the varint writers, the 64-bit fields, the text reader, and the
    generated messages the gateway exchanges: channel ends, connection ends, packets,
    acknowledgements and Merkle proofs. *)

From Stdlib Require Import ZArith Lia.
From S2P Require Import Prelude JsString JsNumber Varint Utf8 Binary ProtoCodec ProtoMessages ProtoLaws.

#[local] Open Scope Z_scope.

Lemma reads_alone {A} (m : M BinaryReader A) b a : reads m b a -> (m (new_reader b)).1 = Ok a.
Proof.
  intros H. specialize (H [] []). cbv zeta in H. rewrite app_nil_r in H. unfold new_reader. cbn [app length] in H.
  change (Z.of_nat 0) with 0 in H. by rewrite H.
Qed.

Lemma length_varint_bounds n : 1 <= Z.of_nat (length (varint n)) <= 10.
Proof.
  assert (forall f x, (length (leb128 f x) <= f)%nat) as H.
  { induction f as [|f IH]; intros x; cbn [leb128 length]; [lia|]. destruct (x <? 128); cbn [length]; [lia|].
    specialize (IH (x / 128)). lia. }
  specialize (H 10%nat n). fold (varint n) in H. pose proof (varint_nonempty n). destruct (varint n); [done|]. cbn in *. lia.
Qed.

(** The group-by-group writers and the shifting writers of [varint.ts]
    produce the same bytes: [varint64write] on every pair of words with a signed high
    word, and [varint32write] on every signed 32-bit value against what
    [BinaryWriter.int32] lays out. *)
Lemma varint_writers_agree :
  (forall lo hi, - 2 ^ 31 <= hi < 2 ^ 31 -> varint64write lo hi = writeVarint64 lo hi) /\
  (forall v, int32_ok v -> varint32write v = finish (w_int32 v create)).
Proof.
  split.
  - intros lo hi H. by rewrite varint64write_spec, writeVarint64_spec.
  - intros v H. rewrite varint32write_spec by done. by rewrite (emits_finish _ _ (emits_int32 v H)).
Qed.

(** A 64-bit varint takes between 1 and 10 bytes and [int64Length] reserves
    exactly that many; a [uint64] field outside the 64-bit range is not rejected: the
    writer stores it modulo 2^64, and that is what the reader gives back. *)
Lemma uint64_fields_wrap (v : Z) : Z.abs v < 10 ^ 24 ->
  (forall lo hi, int64Length lo hi = Z.of_nat (length (writeVarint64 lo hi)) /\ 1 <= int64Length lo hi <= 10) /\
  finish (w_uint64 v create) = varint (v mod 2 ^ 64) /\
  (r_uint64 (new_reader (finish (w_uint64 v create)))).1 = Ok (v mod 2 ^ 64).
Proof.
  intros Hv. split; [|].
  - intros lo hi. rewrite int64Length_spec, writeVarint64_spec. split; [done|]. apply length_varint_bounds.
  - assert (finish (w_uint64 v create) = varint (u64 v)) as E by apply (emits_finish _ _ (emits_int64 v Hv)).
    split; [exact E|]. rewrite E. apply reads_alone. apply (reads_uint64 v).
Qed.

(** Encoding writes the wire image and decoding it gives the message back. *)
Definition roundtrips (A : Type) `{MessageOk A} : Prop := forall m : A, valid m -> short (wire m) ->
  encodeMessage m = wire m /\ decodeMessage (encodeMessage m) = Ok m.

Lemma message_roundtrips A `{MessageOk A} : roundtrips A.
Proof. intros m Hv Hs. split; [by apply encode_is_wire|by apply decode_encode]. Qed.

(** C32 (roundtrip): the generated codecs of the messages that carry IBC state (channel
    ends, connection ends, packets, acknowledgements, Merkle proofs) write the protobuf
    wire image, and decoding what was encoded gives the message back, for every message
    whose numbers are in range and whose texts are JavaScript strings below the chunk
    limit of the text reader. *)
Theorem ibc_messages_roundtrip :
  roundtrips PChannel /\ roundtrips PConnectionEnd /\ roundtrips PPacket /\ roundtrips PAcknowledgement /\
  roundtrips PMerkleProof.
Proof. split_and!; apply message_roundtrips. Qed.

(** [decode] ends: it returns a message or throws. *)
Definition terminates (A : Type) `{Message A} : Prop := forall b : bytes,
  (exists m : A, decodeMessage b = Ok m) \/ (exists e, decodeMessage (A := A) b = Err e /\ e <> OutOfFuel).

Lemma message_terminates A `{MessageOk A} : terminates A.
Proof.
  intros b. pose proof (decode_ends (A := A) b) as He. destruct (decodeMessage b) as [m|e]; [eauto|right].
  exists e. split; [done|]. congruence.
Qed.

(** C33 (termination): on every byte string, however malformed, the decoders end with a
    message or an exception: each round of a decode loop, of a packed field and of a
    skipped group takes at least one byte. *)
Theorem decoders_terminate :
  terminates PChannel /\ terminates PConnectionEnd /\ terminates PPacket /\ terminates PAcknowledgement /\
  terminates PMerkleProof.
Proof. split_and!; exact (message_terminates _). Qed.

(** The text reader does not give back every text: the 16385-unit text of
    8191 letters, one astral character and 8192 letters is read as 16386 units, because a
    flush passes the whole chunk array to [String.fromCharCode] although only its first
    units are new; below 16384 units every text is read back. *)
Lemma utf8Read_repeats_a_stale_unit :
  (forall str, Forall unit_ok str -> Z.of_nat (length str) < 16384 -> utf8Read (utf8Write str) = str) /\
  Z.of_nat (length crossing_text) = 16385 /\ Z.of_nat (length (utf8Read (utf8Write crossing_text))) = 16386.
Proof. split_and!; [apply utf8Read_write|done|apply utf8Read_crossing_length]. Qed.

(** ** Witnesses *)

Definition ascii_string (s : string) : bool :=
  forallb (fun b => byte_to_Z b <? 128) (utf8 s) && (Z.of_nat (length (utf8 s)) <? 16384).

Lemma ascii_js_string s : ascii_string s = true -> js_string s.
Proof.
  unfold ascii_string. intros [Ha Hl]%andb_prop. apply Z.ltb_lt in Hl. exists (byte_to_Z <$> utf8 s).
  assert (utf8Write (byte_to_Z <$> utf8 s) = utf8 s /\ Forall unit_ok (byte_to_Z <$> utf8 s)) as [E Hu].
  { clear Hl. induction (utf8 s) as [|b l IH]; [done|]. cbn in Ha. apply andb_prop in Ha as [Hb Ha]. destruct (IH Ha) as [E Hu].
    assert (byte_to_Z b < 128) as Hb' by (by apply Z.ltb_lt). pose proof (byte_to_Z_range b). split.
    - cbn [fmap list_fmap utf8Write]. rewrite Hb. cbn [app]. by rewrite byte_of_to_Z; f_equal.
    - constructor; [unfold unit_ok; lia|done]. }
  split_and!; [unfold of_units; by rewrite E, text_utf8|done|]. by rewrite length_fmap.
Qed.

Definition demo_channel : PChannel :=
  MkPChannel 3 1 (MkPCounterparty "transfer" "channel-7") ["connection-0"; "connection-12"] "ics20-1".

Lemma ibc_messages_roundtrip_witness : decodeMessage (encodeMessage demo_channel) = Ok demo_channel.
Proof.
  destruct ibc_messages_roundtrip as [H _]. apply (H demo_channel).
  - split_and!; [by vm_compute..|repeat split; by apply ascii_js_string| |by apply ascii_js_string].
    repeat constructor; by apply ascii_js_string.
  - vm_compute. reflexivity.
Defined.
