(* ===== verification/JsJson.v ===== *)
(** * JSON

    [JSON.parse] and the part of [JSON.stringify] the Gateway uses (objects of
    strings).  Numbers keep their literal text: the code never computes with
    them.  A [\u] escape that is a lone surrogate has no UTF-8 form and becomes
    U+FFFD, which is what [Buffer.from(text, 'utf8')] makes of it. *)

From S2P Require Import Prelude JsMap JsString.

Inductive json :=
| JNull
| JBool (b : bool)
| JNumber (literal : string)
| JString (s : string)
| JArray (items : list json)
| JObject (fields : list (string * json)).

(** ** Printing *)

Definition hex4 (n : N) : bytes :=
  let digit k := byte_of_N (let d := N.land (N.shiftr n (4 * k)) 15 in if (d <? 10)%N then d + 0x30 else d + 0x57)%N in
  [digit 3; digit 2; digit 1; digit 0]%N.

Definition escape_byte (b : byte) : bytes :=
  match b with
  | x22 => [x5c; x22]
  | x5c => [x5c; x5c]
  | x08 => [x5c; x62]
  | x0c => [x5c; x66]
  | x0a => [x5c; x6e]
  | x0d => [x5c; x72]
  | x09 => [x5c; x74]
  | _ => if (Byte.to_N b <? 0x20)%N then [x5c; x75] ++ hex4 (Byte.to_N b) else [b]
  end.

Definition quote (s : string) : bytes := [x22] ++ (utf8 s ≫= escape_byte) ++ [x22].

Fixpoint print_fields (fs : list (string * string)) : bytes :=
  match fs with
  | [] => []
  | [(k, v)] => quote k ++ [x3a] ++ quote v
  | (k, v) :: fs' => quote k ++ [x3a] ++ quote v ++ [x2c] ++ print_fields fs'
  end.

(** [JSON.stringify] of an object whose values are strings. *)
Definition stringify_object (fs : list (string * string)) : string := text ([x7b] ++ print_fields fs ++ [x7d]).

(** ** Parsing *)

Definition json_error : error := JsError "Unexpected token in JSON".

Fixpoint skip_ws (l : bytes) : bytes :=
  match l with
  | (x20 | x09 | x0a | x0d) :: l' => skip_ws l'
  | _ => l
  end.

Fixpoint span_digits (l : bytes) : bytes * bytes :=
  match l with
  | b :: l' => if is_digit b then let '(d, r) := span_digits l' in (b :: d, r) else ([], l)
  | [] => ([], [])
  end.

Definition parse_hex4 (l : bytes) : option (N * bytes) :=
  match l with
  | a :: b :: c :: d :: l' =>
      x ← hex_value a; y ← hex_value b; z ← hex_value c; w ← hex_value d;
      Some (((x * 16 + y) * 16 + z) * 16 + w, l')%N
  | _ => None
  end.

(** UTF-8 of a code point below 0x110000. *)
Definition utf8_of_code (c : N) : bytes :=
  if (c <? 0x80)%N then [byte_of_N c]
  else if (c <? 0x800)%N then [byte_of_N (0xc0 + N.shiftr c 6); byte_of_N (0x80 + N.land c 63)]
  else if (c <? 0x10000)%N then
    [byte_of_N (0xe0 + N.shiftr c 12); byte_of_N (0x80 + N.land (N.shiftr c 6) 63); byte_of_N (0x80 + N.land c 63)]
  else [byte_of_N (0xf0 + N.shiftr c 18); byte_of_N (0x80 + N.land (N.shiftr c 12) 63);
        byte_of_N (0x80 + N.land (N.shiftr c 6) 63); byte_of_N (0x80 + N.land c 63)]%N.

Definition is_high (c : N) : bool := ((0xd800 <=? c) && (c <=? 0xdbff))%N.
Definition is_low (c : N) : bool := ((0xdc00 <=? c) && (c <=? 0xdfff))%N.

(** After [\u]: one code unit, or a surrogate pair. *)
Definition parse_unicode (l : bytes) : option (bytes * bytes) :=
  '(c, l1) ← parse_hex4 l;
  if is_high c then
    match l1 with
    | x5c :: x75 :: l2 =>
        match parse_hex4 l2 with
        | Some (d, l3) =>
            if is_low d then Some (utf8_of_code (0x10000 + (c - 0xd800) * 0x400 + (d - 0xdc00))%N, l3)
            else Some ([xef; xbf; xbd], l1)
        | None => None
        end
    | _ => Some ([xef; xbf; xbd], l1)
    end
  else if is_low c then Some ([xef; xbf; xbd], l1)
  else Some (utf8_of_code c, l1).

Definition parse_escape (l : bytes) : option (bytes * bytes) :=
  match l with
  | x22 :: l' => Some ([x22], l')
  | x5c :: l' => Some ([x5c], l')
  | x2f :: l' => Some ([x2f], l')
  | x62 :: l' => Some ([x08], l')
  | x66 :: l' => Some ([x0c], l')
  | x6e :: l' => Some ([x0a], l')
  | x72 :: l' => Some ([x0d], l')
  | x74 :: l' => Some ([x09], l')
  | x75 :: l' => parse_unicode l'
  | _ => None
  end.

(** The characters up to the closing quote.  Every step consumes a byte, so the
    length of the input is enough fuel. *)
Fixpoint parse_chars (fuel : nat) (l : bytes) : option (bytes * bytes) :=
  match fuel, l with
  | S fuel', x22 :: l' => Some ([], l')
  | S fuel', x5c :: l' =>
      '(c, l1) ← parse_escape l'; '(cs, l2) ← parse_chars fuel' l1; Some (c ++ cs, l2)
  | S fuel', b :: l' =>
      if (Byte.to_N b <? 0x20)%N then None
      else '(cs, l2) ← parse_chars fuel' l'; Some (b :: cs, l2)
  | _, _ => None
  end.

Definition parse_string (l : bytes) : option (string * bytes) :=
  '(cs, l') ← parse_chars (length l) l; Some (text cs, l').

Definition parse_int_part (l : bytes) : option (bytes * bytes) :=
  match span_digits l with
  | ([], _) => None
  | (x30 :: _ :: _, _) => None
  | (ds, r) => Some (ds, r)
  end.

Definition parse_fraction (l : bytes) : option (bytes * bytes) :=
  match l with
  | x2e :: l' => match span_digits l' with ([], _) => None | (ds, r) => Some (x2e :: ds, r) end
  | _ => Some ([], l)
  end.

Definition parse_exponent (l : bytes) : option (bytes * bytes) :=
  match l with
  | ((x65 | x45) as e) :: l' =>
      let '(sign, l1) := match l' with ((x2b | x2d) as s) :: r => ([s], r) | _ => ([], l') end in
      match span_digits l1 with ([], _) => None | (ds, r) => Some (e :: sign ++ ds, r) end
  | _ => Some ([], l)
  end.

Definition parse_number (l : bytes) : option (json * bytes) :=
  let '(sign, l0) := match l with x2d :: r => ([x2d], r) | _ => ([], l) end in
  '(i, l1) ← parse_int_part l0;
  '(f, l2) ← parse_fraction l1;
  '(e, l3) ← parse_exponent l2;
  Some (JNumber (text (sign ++ i ++ f ++ e)), l3).

(** One value; nested values use one unit of fuel each, and every nested value
    consumes at least one byte. *)
Fixpoint parse_value (fuel : nat) (l : bytes) {struct fuel} : option (json * bytes) :=
  match fuel with
  | O => None
  | S fuel' =>
      match skip_ws l with
      | x22 :: l' => '(s, r) ← parse_string l'; Some (JString s, r)
      | x7b :: l' =>
          match skip_ws l' with
          | x7d :: r => Some (JObject [], r)
          | _ => '(fs, r) ← parse_members fuel' l' []; Some (JObject fs, r)
          end
      | x5b :: l' =>
          match skip_ws l' with
          | x5d :: r => Some (JArray [], r)
          | _ => '(vs, r) ← parse_items fuel' l'; Some (JArray vs, r)
          end
      | x74 :: x72 :: x75 :: x65 :: r => Some (JBool true, r)
      | x66 :: x61 :: x6c :: x73 :: x65 :: r => Some (JBool false, r)
      | x6e :: x75 :: x6c :: x6c :: r => Some (JNull, r)
      | l0 => parse_number l0
      end
  end
with parse_members (fuel : nat) (l : bytes) (acc : jsmap string json) {struct fuel}
  : option (jsmap string json * bytes) :=
  match fuel with
  | O => None
  | S fuel' =>
      match skip_ws l with
      | x22 :: l' =>
          '(k, l1) ← parse_string l';
          match skip_ws l1 with
          | x3a :: l2 =>
              '(v, l3) ← parse_value fuel' l2;
              match skip_ws l3 with
              | x2c :: l4 => parse_members fuel' l4 (map_set acc k v)
              | x7d :: r => Some (map_set acc k v, r)
              | _ => None
              end
          | _ => None
          end
      | _ => None
      end
  end
with parse_items (fuel : nat) (l : bytes) {struct fuel} : option (list json * bytes) :=
  match fuel with
  | O => None
  | S fuel' =>
      '(v, l1) ← parse_value fuel' l;
      match skip_ws l1 with
      | x2c :: l2 => '(vs, r) ← parse_items fuel' l2; Some (v :: vs, r)
      | x5d :: r => Some ([v], r)
      | _ => None
      end
  end.

Definition JSON_parse (s : string) : result json :=
  match parse_value (S (2 * length (utf8 s))) (utf8 s) with
  | Some (v, r) => match skip_ws r with [] => Ok v | _ => Err json_error end
  | None => Err json_error
  end.

(** ** What is printed parses back *)

Lemma parse_chars_step b fuel l :
  parse_chars (S fuel) (escape_byte b ++ l) = ('(cs, r) ← parse_chars fuel l; Some (b :: cs, r)).
Proof. destruct b; reflexivity. Qed.

Lemma parse_chars_ok s fuel r : (length s < fuel)%nat ->
  parse_chars fuel ((s ≫= escape_byte) ++ x22 :: r) = Some (s, r).
Proof.
  revert fuel. induction s as [|b s IH]; intros fuel Hf; (destruct fuel as [|fuel]; [lia|]); [done|].
  change ((b :: s) ≫= escape_byte) with (escape_byte b ++ (s ≫= escape_byte)).
  rewrite <- (assoc_L (++)), parse_chars_step, IH by (cbn in Hf; lia). done.
Qed.

Lemma length_escape s : (length s <= length (s ≫= escape_byte))%nat.
Proof.
  induction s as [|b s IH]; [done|].
  change ((b :: s) ≫= escape_byte) with (escape_byte b ++ (s ≫= escape_byte)). rewrite length_app.
  assert (1 <= length (escape_byte b))%nat by (destruct b; cbn; lia). cbn [length]. lia.
Qed.

Lemma parse_string_ok s r : parse_string ((utf8 s ≫= escape_byte) ++ x22 :: r) = Some (s, r).
Proof.
  unfold parse_string. rewrite parse_chars_ok; [cbn; by rewrite text_utf8|].
  rewrite length_app. cbn [length]. pose proof (length_escape (utf8 s)). lia.
Qed.

Definition json_fields (fs : list (string * string)) : list (string * json) :=
  map (fun kv => (kv.1, JString kv.2)) fs.

Definition set_fields (acc : jsmap string json) (fs : list (string * string)) : jsmap string json :=
  fold_left (fun m kv => map_set m kv.1 kv.2) (json_fields fs) acc.

Lemma quote_app s l : quote s ++ l = x22 :: (utf8 s ≫= escape_byte) ++ x22 :: l.
Proof. unfold quote. cbn [app]. by rewrite <- (assoc_L (++)). Qed.

Lemma parse_value_string fuel s r :
  parse_value (S fuel) (quote s ++ r) = Some (JString s, r).
Proof. rewrite quote_app. cbn [parse_value skip_ws]. by rewrite parse_string_ok. Qed.

Lemma parse_member_ok fuel k v l acc :
  parse_members (S (S fuel)) (quote k ++ [x3a] ++ quote v ++ l) acc =
  match skip_ws l with
  | x2c :: l4 => parse_members (S fuel) l4 (map_set acc k (JString v))
  | x7d :: r => Some (map_set acc k (JString v), r)
  | _ => None
  end.
Proof.
  rewrite quote_app. cbn [app]. remember (S fuel) as f eqn:Hf. cbn [parse_members skip_ws].
  rewrite parse_string_ok. cbn [mbind option_bind]. cbn [skip_ws]. subst f.
  rewrite parse_value_string. reflexivity.
Qed.

Lemma parse_members_ok fs fuel acc r :
  fs <> [] -> (length fs < fuel)%nat ->
  parse_members fuel (print_fields fs ++ x7d :: r) acc = Some (set_fields acc fs, r).
Proof.
  revert fuel acc. induction fs as [|[k v] fs IH]; intros fuel acc Hne Hf; [done|].
  destruct fuel as [|[|fuel]]; [cbn in Hf; lia..|].
  destruct fs as [|kv fs].
  - cbn [print_fields]. rewrite <- !(assoc_L (++)), parse_member_ok. reflexivity.
  - cbn [print_fields] in *. destruct kv as [k' v'].
    rewrite <- !(assoc_L (++)), parse_member_ok. cbn [app skip_ws].
    rewrite IH by (cbn [length] in *; first [done | lia]). reflexivity.
Qed.

Lemma length_print_fields fs : (length fs <= length (print_fields fs))%nat.
Proof.
  induction fs as [|[k v] fs IH]; [done|]. destruct fs as [|kv fs].
  - cbn [print_fields]. rewrite !length_app. cbn [length]. lia.
  - change (print_fields ((k, v) :: kv :: fs)) with (quote k ++ [x3a] ++ quote v ++ [x2c] ++ print_fields (kv :: fs)).
    rewrite !length_app. cbn [length] in *. lia.
Qed.

Lemma JSON_parse_stringify fs :
  JSON_parse (stringify_object fs) = Ok (JObject (set_fields [] fs)).
Proof.
  unfold JSON_parse, stringify_object. rewrite utf8_text. cbn [app].
  remember (2 * length (x7b :: print_fields fs ++ [x7d]))%nat as n eqn:Hn.
  assert (length fs + 2 <= n)%nat as Hlen.
  { subst n. cbn [length]. rewrite length_app. pose proof (length_print_fields fs). cbn [length]. lia. }
  cbn [parse_value skip_ws].
  destruct fs as [|[k v] fs]; [reflexivity|].
  assert (exists l, print_fields ((k, v) :: fs) ++ [x7d] = x22 :: l) as [l Hl].
  { destruct fs as [|kv fs]; cbn [print_fields]; unfold quote; cbn [app]; by eexists. }
  rewrite Hl. cbn [skip_ws]. rewrite <- Hl. rewrite parse_members_ok by first [done | cbn [length] in *; lia]. reflexivity.
Qed.

Lemma set_fields_fresh fs : NoDup fs.*1 -> set_fields [] fs = json_fields fs.
Proof.
  unfold set_fields. intros Hnd.
  assert (forall acc, NoDup (map_keys acc ++ fs.*1) ->
    fold_left (fun m kv => map_set m kv.1 kv.2) (json_fields fs) acc = acc ++ json_fields fs) as H; [|by apply H].
  clear Hnd. induction fs as [|[k v] fs IH]; intros acc Hnd; cbn; [by rewrite app_nil_r|].
  cbn in Hnd. assert (map_set acc k (JString v) = acc ++ [(k, JString v)]) as ->.
  { apply map_set_fresh. apply NoDup_app in Hnd as (_ & Hd & _). intros Hin. by eapply Hd; [exact Hin | left]. }
  rewrite IH; [by rewrite <- (assoc_L (++))|]. unfold map_keys. rewrite fmap_app, <- (assoc_L (++)). done.
Qed.
