(* ===== verification/Hex.v ===== *)
(** * Hexadecimal and UTF-8 codecs ([shared/helpers/hex.ts], Node [Buffer])

    [encode]/[decode] are the Gateway's own codec, written over typed arrays;
    [hex_encode]/[hex_decode_prefix] are Node's [buf.toString('hex')] and
    [Buffer.from(s, 'hex')], which stops at the first malformed pair instead of
    throwing.  [utf8_decode] is [buf.toString('utf8')]: ill-formed sequences
    become U+FFFD (the WHATWG decoder's maximal-subpart rule). *)

From S2P Require Import Prelude JsString.

(** ** The hex alphabet *)

Definition hexTable : bytes := utf8 "0123456789abcdef".

Definition hexDigit (n : N) : byte := default x30 (hexTable !! N.to_nat n).

Definition errInvalidByte (b : byte) : error :=
  JsError ("encoding/hex: invalid byte: " +:+ text [b]).
Definition errLength : error := JsError "encoding/hex: odd length hex string".

Definition fromHexChar (b : byte) : result N :=
  let c := Byte.to_N b in
  if (48 <=? c)%N && (c <=? 57)%N then Ok (c - 48)%N
  else if (97 <=? c)%N && (c <=? 102)%N then Ok (c - 97 + 10)%N
  else if (65 <=? c)%N && (c <=? 70)%N then Ok (c - 65 + 10)%N
  else Err (errInvalidByte b).

(** ** [encode]

    The source loops to [dst.length], twice the input length.  For [i] past the
    end of [src] the read is [undefined] (0 after [>>]) and both writes fall
    outside the typed array, where they are dropped — which is what stdpp's
    list insertion does out of range. *)
Definition encode_step (src dst : bytes) (i : nat) : bytes :=
  let v := Byte.to_N (default x00 (src !! i)) in
  <[(i * 2 + 1)%nat := hexDigit (N.land v 15)]> (<[(i * 2)%nat := hexDigit (N.shiftr v 4)]> dst).

Definition encode (src : bytes) : bytes :=
  let dst := replicate (length src * 2) x00 in
  fold_left (encode_step src) (seq 0 (length dst)) dst.

Definition encodeToString (src : bytes) : string := text (encode src).
Definition toHex (b : bytes) : string := encodeToString b.

(** ** [decode] *)
Definition decode_step (src dst : bytes) (i : nat) : result bytes :=
  a ← fromHexChar (default x00 (src !! (i * 2)%nat));
  b ← fromHexChar (default x00 (src !! (i * 2 + 1)%nat));
  Ok (<[i := byte_of_N (N.lor (N.shiftl a 4) b)]> dst).

Definition decode (src : bytes) : result bytes :=
  let dst := replicate (Nat.div2 (length src)) x00 in
  dst' ← foldR (decode_step src) dst (seq 0 (length dst));
  if Nat.odd (length src) then
    _ ← fromHexChar (default x00 (src !! (length dst * 2)%nat));
    Err errLength
  else Ok dst'.

Definition fromHex (hex : string) : result bytes :=
  if decide (hex = "") then Ok [] else decode (utf8 hex).

(** ** Node's codec *)
Definition hex_byte (b : byte) : bytes :=
  [hexDigit (N.shiftr (Byte.to_N b) 4); hexDigit (N.land (Byte.to_N b) 15)].

Definition hex_encode (b : bytes) : string := text (b ≫= hex_byte).

Fixpoint hex_decode_go (l : bytes) : bytes :=
  match l with
  | a :: b :: l' =>
      match fromHexChar a, fromHexChar b with
      | Ok x, Ok y => byte_of_N (N.lor (N.shiftl x 4) y) :: hex_decode_go l'
      | _, _ => []
      end
  | _ => []
  end.

Definition hex_decode_prefix (s : string) : bytes := hex_decode_go (utf8 s).

(** ** [buf.toString('utf8')] *)
Definition replacement : bytes := [xef; xbf; xbd].

(** What the decoder awaits inside a multi-byte sequence. *)
Record u8state := U8 { u8_seen : bytes; u8_needed : nat; u8_lower : N; u8_upper : N }.

Definition u8_start (b : byte) : bytes * option u8state :=
  let c := Byte.to_N b in
  if (c <=? 0x7f)%N then ([b], None)
  else if (0xc2 <=? c)%N && (c <=? 0xdf)%N then ([], Some (U8 [b] 1 0x80 0xbf))
  else if (0xe0 <=? c)%N && (c <=? 0xef)%N then
    ([], Some (U8 [b] 2 (if (c =? 0xe0)%N then 0xa0 else 0x80)
                        (if (c =? 0xed)%N then 0x9f else 0xbf))%N)
  else if (0xf0 <=? c)%N && (c <=? 0xf4)%N then
    ([], Some (U8 [b] 3 (if (c =? 0xf0)%N then 0x90 else 0x80)
                        (if (c =? 0xf4)%N then 0x8f else 0xbf))%N)
  else (replacement, None).

Fixpoint u8_go (st : option u8state) (l : bytes) : bytes :=
  match l with
  | [] => match st with None => [] | Some _ => replacement end
  | b :: l' =>
      match st with
      | None => let '(out, st') := u8_start b in out ++ u8_go st' l'
      | Some (U8 seen needed lo hi) =>
          let c := Byte.to_N b in
          if (lo <=? c)%N && (c <=? hi)%N then
            match needed with
            | S (S n) => u8_go (Some (U8 (seen ++ [b]) (S n) 0x80 0xbf)) l'
            | _ => (seen ++ [b]) ++ u8_go None l'
            end
          else let '(out, st') := u8_start b in replacement ++ out ++ u8_go st' l'
      end
  end.

Definition utf8_decode (b : bytes) : string := text (u8_go None b).

(** ** The text helpers *)

(** [new TextDecoder().decode]: as [utf8_decode], after dropping a byte order mark. *)
Definition text_decode (b : bytes) : string :=
  utf8_decode (match b with xef :: xbb :: xbf :: b' => b' | _ => b end).

Definition toText (hex : string) : result string := b ← decode (utf8 hex); Ok (text_decode b).
Definition fromText (s : string) : string := toHex (utf8 s).

(** [parseInt(chunk, 16)] as the byte [Buffer.from] stores: [NaN] is 0. *)
Fixpoint hex_digits_prefix (acc : option N) (l : bytes) : option N :=
  match l with
  | b :: l' => match hex_value b with
               | Some d => hex_digits_prefix (Some (default 0 acc * 16 + d)%N) l'
               | None => acc
               end
  | [] => acc
  end.

Definition parseInt16_byte (chunk : bytes) : byte :=
  let l := strip_all (length chunk) white_space chunk in
  let '(neg, l) := match l with x2d :: r => (true, r) | x2b :: r => (false, r) | _ => (false, l) end in
  let l := match l with x30 :: (x78 | x58) :: r => r | _ => l end in
  let v := default 0%N (hex_digits_prefix None l) in
  byte_of_N (if neg : bool then 256 - v mod 256 else v)%N.

Fixpoint hexToBytes_go (l : bytes) : bytes :=
  match l with
  | a :: b :: l' => parseInt16_byte [a; b] :: hexToBytes_go l'
  | [a] => [parseInt16_byte [a]]
  | [] => []
  end.
Definition hexToBytes (hex : string) : bytes := hexToBytes_go (utf8 hex).

Definition convertHex2String (hexStr : string) : string :=
  if decide (hexStr = "") then "" else utf8_decode (hexToBytes hexStr).
Definition convertString2Hex (str : string) : string :=
  if decide (str = "") then "" else hex_encode (utf8 str).

Definition is_ascii (b : byte) : bool := (Byte.to_N b <=? 0x7f)%N.
Definition ascii_text (s : string) : bool := forallb is_ascii (utf8 s).

(** ** Facts *)

Lemma fromHexChar_digit n : (n < 16)%N -> fromHexChar (hexDigit n) = Ok n.
Proof.
  intros H. destruct n as [|p]; [done|].
  do 4 (destruct p as [p|p|]; try (cbn; done); try lia).
Qed.

Lemma nibbles_join b :
  byte_of_N (N.lor (N.shiftl (N.shiftr (Byte.to_N b) 4) 4) (N.land (Byte.to_N b) 15)) = b.
Proof. by destruct b. Qed.

Lemma high_nibble_lt b : (N.shiftr (Byte.to_N b) 4 < 16)%N.
Proof. by destruct b. Qed.
Lemma low_nibble_lt b : (N.land (Byte.to_N b) 15 < 16)%N.
Proof. by destruct b. Qed.
#[export] Hint Resolve high_nibble_lt low_nibble_lt : gateway.

Lemma hex_decode_go_encode b : hex_decode_go (b ≫= hex_byte) = b.
Proof.
  induction b as [|x b IH]; [done|].
  change ((x :: b) ≫= hex_byte) with (hex_byte x ++ (b ≫= hex_byte)).
  unfold hex_byte at 1. cbn [app hex_decode_go].
  rewrite !fromHexChar_digit by auto with gateway. by rewrite nibbles_join, IH.
Qed.

Lemma hex_decode_encode b : hex_decode_prefix (hex_encode b) = b.
Proof. unfold hex_decode_prefix, hex_encode. by rewrite utf8_text, hex_decode_go_encode. Qed.

#[export] Instance hex_encode_inj : Inj (=) (=) hex_encode.
Proof. intros a b H. rewrite <- (hex_decode_encode a), <- (hex_decode_encode b). by rewrite H. Qed.

Lemma length_hex_bytes b : length (b ≫= hex_byte) = (length b * 2)%nat.
Proof. induction b as [|x b IH]; cbn in *; [done|]. lia. Qed.

(** The typed-array loop of [encode] computes the reference encoding. *)
Lemma encode_loop_prefix src k : (k <= length src)%nat ->
  fold_left (encode_step src) (seq 0 k) (replicate (length src * 2) x00) =
  (take k src ≫= hex_byte) ++ replicate ((length src - k) * 2) x00.
Proof.
  induction k as [|k IH]; intros Hk.
  - cbn. by rewrite Nat.sub_0_r.
  - rewrite seq_S, fold_left_app. cbn [fold_left]. rewrite IH by lia.
    destruct (src !! k) as [v|] eqn:Ev; [|apply lookup_ge_None in Ev; lia].
    unfold encode_step. rewrite Nat.add_0_l, Ev. cbn [default].
    rewrite (take_S_r _ _ _ Ev), bind_app.
    replace ((length src - k) * 2)%nat with (S (S ((length src - S k) * 2))) by lia.
    assert (Hlen : length (take k src ≫= hex_byte) = (k * 2)%nat).
    { rewrite length_hex_bytes, length_take. lia. }
    cbn [replicate]. rewrite <- Hlen at 2. rewrite insert_app_r_alt by lia.
    rewrite Nat.sub_diag. cbn [insert list_insert].
    rewrite insert_app_r_alt by lia.
    replace (k * 2 + 1 - length (take k src ≫= hex_byte))%nat with 1%nat by lia.
    cbn. by rewrite <- app_assoc.
Qed.

Lemma encode_loop_tail src l dst :
  Forall (fun i => length src <= i)%nat l -> length dst = (length src * 2)%nat ->
  fold_left (encode_step src) l dst = dst.
Proof.
  intros Hl Hd. induction Hl as [|i l Hi _ IH]; cbn; [done|].
  unfold encode_step at 2. rewrite (list_insert_ge dst), list_insert_ge by lia. done.
Qed.

Lemma encode_correct src : encode src = src ≫= hex_byte.
Proof.
  unfold encode. rewrite length_replicate.
  replace (length src * 2)%nat with (length src + length src)%nat at 1 by lia.
  rewrite seq_app, fold_left_app, encode_loop_prefix by lia.
  rewrite take_ge, Nat.sub_diag, app_nil_r by lia.
  apply encode_loop_tail; [|apply length_hex_bytes].
  apply Forall_forall. intros i Hi%elem_of_seq. lia.
Qed.

Lemma toHex_hex_encode b : toHex b = hex_encode b.
Proof. unfold toHex, encodeToString, hex_encode. by rewrite encode_correct. Qed.

(** ASCII text survives [toString('utf8')] unchanged. *)
Lemma u8_go_ascii b : forallb is_ascii b = true -> u8_go None b = b.
Proof.
  induction b as [|x b IH]; [done|]. cbn [forallb]. intros [Hx Hb]%andb_true_iff.
  unfold is_ascii in Hx. cbn [u8_go]. unfold u8_start. rewrite Hx. cbn. by rewrite IH.
Qed.

Lemma utf8_decode_ascii s : ascii_text s = true -> utf8_decode (utf8 s) = s.
Proof. unfold ascii_text, utf8_decode. intros H. by rewrite u8_go_ascii, text_utf8. Qed.

(** ** The decoding loop *)

Fixpoint pairs (l : bytes) : list (byte * byte) :=
  match l with a :: b :: l' => (a, b) :: pairs l' | _ => [] end.

Definition decode_pair (ab : byte * byte) : result byte :=
  a ← fromHexChar ab.1; b ← fromHexChar ab.2; Ok (byte_of_N (N.lor (N.shiftl a 4) b)).

Lemma pairs_lookup l i :
  pairs l !! i = (a ← l !! (i * 2)%nat; b ← l !! (i * 2 + 1)%nat; Some (a, b)).
Proof.
  revert l i. fix IH 1. intros [|a [|b l]] i.
  - done.
  - by destruct i.
  - destruct i as [|i]; [done|]. cbn [pairs]. cbn [lookup list_lookup]. rewrite IH. done.
Qed.

Lemma length_pairs l : length (pairs l) = Nat.div2 (length l).
Proof. revert l. fix IH 1. intros [|a [|b l]]; cbn; [done..|]. by rewrite IH. Qed.

Lemma decode_loop src k : (k <= length (pairs src))%nat ->
  foldR (decode_step src) (replicate (length (pairs src)) x00) (seq 0 k) =
  (fun d => d ++ replicate (length (pairs src) - k) x00) <$> mapR decode_pair (take k (pairs src)).
Proof.
  induction k as [|k IH]; intros Hk; [cbn; by rewrite Nat.sub_0_r|].
  rewrite seq_S, foldR_app, IH by lia. clear IH.
  destruct (pairs src !! k) as [[a b]|] eqn:Ek; [|apply lookup_ge_None in Ek; lia].
  rewrite (take_S_r _ _ _ Ek), mapR_app.
  destruct (mapR decode_pair (take k (pairs src))) as [d|e] eqn:Ed; [|done].
  apply mapR_ok_length in Ed. rewrite length_take in Ed.
  rewrite pairs_lookup in Ek. cbn [fmap result_fmap mbind result_bind foldR]. unfold decode_step, decode_pair.
  rewrite Nat.add_0_l. destruct (src !! (k * 2)%nat) as [a'|]; [|done]. cbn in Ek.
  destruct (src !! (k * 2 + 1)%nat) as [b'|]; [|done]. injection Ek as -> ->. cbn.
  destruct (fromHexChar a) as [x|]; [|done]. cbn. destruct (fromHexChar b) as [y|]; [|done]. cbn.
  rewrite insert_app_r_alt by lia. replace (k - length d)%nat with 0%nat by lia.
  replace (length (pairs src) - k)%nat with (S (length (pairs src) - S k)) by lia. cbn.
  by rewrite <- app_assoc.
Qed.

Lemma decode_spec src :
  decode src = (d ← mapR decode_pair (pairs src);
                if Nat.odd (length src) then
                  _ ← fromHexChar (default x00 (src !! (length (pairs src) * 2)%nat)); Err errLength
                else Ok d).
Proof.
  unfold decode. rewrite length_replicate, <- length_pairs, decode_loop by done.
  rewrite take_ge, Nat.sub_diag by done. destruct (mapR decode_pair (pairs src)) as [d|e]; [|done].
  cbn. by rewrite app_nil_r.
Qed.

Lemma decode_pair_hex x :
  decode_pair (hexDigit (N.shiftr (Byte.to_N x) 4), hexDigit (N.land (Byte.to_N x) 15)) = Ok x.
Proof. unfold decode_pair. cbn [fst snd]. rewrite !fromHexChar_digit by auto with gateway. cbn. by rewrite nibbles_join. Qed.

Lemma pairs_hex b : mapR decode_pair (pairs (b ≫= hex_byte)) = Ok b.
Proof.
  induction b as [|x b IH]; [done|].
  change ((x :: b) ≫= hex_byte) with (hex_byte x ++ (b ≫= hex_byte)). unfold hex_byte at 1.
  cbn [app pairs mapR]. rewrite decode_pair_hex. cbn [mbind result_bind]. by rewrite IH.
Qed.

Lemma decode_hex b : decode (b ≫= hex_byte) = Ok b.
Proof.
  rewrite decode_spec, pairs_hex. cbn. rewrite length_hex_bytes, Nat.mul_comm, Nat.odd_mul. done.
Qed.

(** What decodes re-encodes to the same digits in lower case. *)
Lemma decode_pair_lower a b x : decode_pair (a, b) = Ok x -> hex_byte x = [lower_byte a; lower_byte b].
Proof.
  assert (forall c n, fromHexChar c = Ok n -> (n < 16)%N /\ hexDigit n = lower_byte c) as Hc.
  { intros c n. destruct c; cbn; intros [= <-]; done. }
  unfold decode_pair. cbn [fst snd]. intros H. inv_bind H. injection H as <-.
  apply Hc in E as [Ha <-]. apply Hc in E0 as [Hb <-].
  assert (a0 = 0 \/ a0 = 1 \/ a0 = 2 \/ a0 = 3 \/ a0 = 4 \/ a0 = 5 \/ a0 = 6 \/ a0 = 7 \/ a0 = 8 \/ a0 = 9 \/ a0 = 10
    \/ a0 = 11 \/ a0 = 12 \/ a0 = 13 \/ a0 = 14 \/ a0 = 15)%N as Ca by lia.
  assert (a1 = 0 \/ a1 = 1 \/ a1 = 2 \/ a1 = 3 \/ a1 = 4 \/ a1 = 5 \/ a1 = 6 \/ a1 = 7 \/ a1 = 8 \/ a1 = 9 \/ a1 = 10
    \/ a1 = 11 \/ a1 = 12 \/ a1 = 13 \/ a1 = 14 \/ a1 = 15)%N as Cb by lia.
  clear -Ca Cb. repeat destruct Ca as [->|Ca]; subst; repeat destruct Cb as [->|Cb]; subst; reflexivity.
Qed.

Lemma decode_lower src b : decode src = Ok b -> b ≫= hex_byte = map lower_byte src.
Proof.
  rewrite decode_spec. intros H. inv_bind H. destruct (Nat.odd (length src)) eqn:Eo; [by inv_bind H|].
  injection H as ->. revert b E. revert src Eo. fix IH 1. intros [|x [|y src]] Eo b E.
  - by injection E as <-.
  - done.
  - cbn [pairs mapR] in E. inv_bind E. injection E as <-. apply decode_pair_lower in E0.
    cbn [map]. rewrite <- (IH src) with (b := a0) by done.
    change ((a :: a0) ≫= hex_byte) with (hex_byte a ++ (a0 ≫= hex_byte)). by rewrite E0.
Qed.

Lemma hexToBytes_encode b : hexToBytes (hex_encode b) = b.
Proof.
  unfold hexToBytes, hex_encode. rewrite utf8_text. induction b as [|x b IH]; [done|].
  change ((x :: b) ≫= hex_byte) with (hex_byte x ++ (b ≫= hex_byte)). unfold hex_byte at 1.
  cbn [app hexToBytes_go]. rewrite IH. f_equal. clear. by destruct x.
Qed.

Lemma fromHex_toHex b : fromHex (toHex b) = Ok b.
Proof.
  unfold fromHex. rewrite toHex_hex_encode. case_decide as Hb.
  - destruct b as [|x b]; [done|]. by apply (f_equal utf8) in Hb.
  - unfold hex_encode. by rewrite utf8_text, decode_hex.
Qed.

Lemma hex_text_roundtrip s : ascii_text s = true -> convertHex2String (convertString2Hex s) = s.
Proof.
  intros Hs. unfold convertHex2String, convertString2Hex. destruct (decide (s = "")) as [->|Hne]; [done|].
  rewrite decide_False; [by rewrite hexToBytes_encode, utf8_decode_ascii|].
  intros E. apply (f_equal hexToBytes) in E. rewrite hexToBytes_encode in E. by apply (utf8_inj s "") in E.
Qed.

(** The Gateway's hex codec is a retraction on all byte strings,
    whatever decodes re-encodes to the same digits in lower case, and both text
    helpers round-trip every ASCII text. *)
Lemma hex_codec_roundtrip :
  (forall b, fromHex (toHex b) = Ok b) /\
  (forall s b, fromHex s = Ok b -> toHex b = toLowerCase s) /\
  (forall s, ascii_text s = true ->
     toText (fromText s) = Ok s /\ convertHex2String (convertString2Hex s) = s).
Proof.
  split_and!.
  - apply fromHex_toHex.
  - intros s b. unfold fromHex, toLowerCase. case_decide as Hs; [intros [= <-]; by subst|].
    intros H%decode_lower. rewrite toHex_hex_encode. unfold hex_encode. by rewrite H.
  - intros s Hs. split.
    + unfold toText, fromText. rewrite toHex_hex_encode. unfold hex_encode.
      rewrite utf8_text, decode_hex. cbn [mbind result_bind]. f_equal. unfold text_decode.
      rewrite <- (utf8_decode_ascii s Hs) at 2. f_equal.
      unfold ascii_text in Hs. destruct (utf8 s) as [|c l]; [done|]. by destruct c.
    + by apply hex_text_roundtrip.
Qed.
