(* ===== verification/MerkleTree.v ===== *)
(** * The commitment tree ([shared/helpers/ics23-merkle-tree.ts])

    A fixed-depth (64) binary Merkle tree keyed by the first 64 bits of
    [sha256(key)], computed sparsely: every level is a [Map] that only holds the
    non-empty nodes.  [sha256] is the third-party package [js-sha256]; it is the
    interface [Sha256] below, and the only fact the component needs about it for
    its functional properties is the digest length ([Sha256Ok]). *)

From S2P Require Import Prelude JsMap Hex.

(** ** The hash interface *)

Class Sha256 := sha256 : bytes -> bytes.

Class Sha256Ok {SHA : Sha256} : Prop := {
  sha256_length b : length (sha256 b) = 32%nat;
}.

(** One level of the sparse tree: its non-empty nodes by index. *)
Abbreviation level := (jsmap N bytes).

Section merkle.
Context `{SHA : Sha256}.

Definition MERKLE_DEPTH_BITS : nat := 64.
Definition HASH_SIZE_BYTES : nat := 32.
Definition EMPTY_HASH : bytes := replicate HASH_SIZE_BYTES x00.

Definition keyHash (key : string) : bytes := sha256 (utf8 key).

Definition leafHash (key : string) (value : bytes) : bytes :=
  if decide (value = []) then EMPTY_HASH
  else
    let valueHash := sha256 value in
    sha256 ([x00] ++ keyHash key ++ valueHash).

Definition innerHash (left right : bytes) : bytes :=
  if decide (left = EMPTY_HASH /\ right = EMPTY_HASH) then EMPTY_HASH
  else sha256 ([x01] ++ left ++ right).

(** [BigInt('0x' + first8.toString('hex'))] is the big-endian number. *)
Definition keyIndex64 (key : string) : N := be_to_N (take 8 (keyHash key)).

(** ** Proof objects *)

Record ICS23InnerOp := InnerOp { op_hash : Z; op_prefix : bytes; op_suffix : bytes }.

Record ICS23LeafOp := LeafOp {
  leaf_hash : Z; leaf_prehash_key : Z; leaf_prehash_value : Z; leaf_length : Z; leaf_prefix : bytes
}.

Record ICS23ExistenceProof := ExistenceProof {
  ep_key : bytes; ep_value : bytes; ep_leaf : ICS23LeafOp; ep_path : list ICS23InnerOp
}.

Record ICS23NonExistenceProof := NonExistenceProof {
  np_key : bytes; np_left : option ICS23ExistenceProof; np_right : option ICS23ExistenceProof
}.

(** ** The tree object

    [nodesByHeight] is [null] until the first rebuild; [dirty] marks the cached
    levels as stale. *)

Record ICS23MerkleTree := MkTree {
  leaves : jsmap string bytes;
  root : bytes;
  dirty : bool;
  nodesByHeight : option (list level);
}.

Definition new_tree : ICS23MerkleTree := MkTree [] EMPTY_HASH true None.

Definition clone (t : ICS23MerkleTree) : ICS23MerkleTree :=
  MkTree (fold_left (fun m kv => map_set m kv.1 kv.2) (leaves t) []) EMPTY_HASH true None.

Definition set_leaves (m : jsmap string bytes) (t : ICS23MerkleTree) : ICS23MerkleTree :=
  MkTree m (root t) true (nodesByHeight t).

Definition tree_set (key : string) (value : bytes) (t : ICS23MerkleTree) : ICS23MerkleTree :=
  if decide (value = []) then set_leaves (map_delete (leaves t) key) t
  else set_leaves (map_set (leaves t) key value) t.

Definition tree_set_hex (key : string) (value : string) (t : ICS23MerkleTree) : ICS23MerkleTree :=
  tree_set key (hex_decode_prefix value) t.

Definition tree_get (key : string) (t : ICS23MerkleTree) : option bytes := map_get (leaves t) key.

Definition tree_delete (key : string) (t : ICS23MerkleTree) : ICS23MerkleTree :=
  set_leaves (map_delete (leaves t) key) t.

Definition tree_size (t : ICS23MerkleTree) : nat := map_size (leaves t).
Definition tree_getKeys (t : ICS23MerkleTree) : list string := map_keys (leaves t).

(** ** Rebuilding the levels *)

(** [map.get(i) ?? EMPTY_HASH] *)
Definition node_at (m : level) (i : N) : bytes := default EMPTY_HASH (map_get m i).

Definition collision_error (index : N) (previousKey key : string) : error :=
  JsError ("Merkle key collision at index " +:+ pretty index +:+ ": '" +:+
           previousKey +:+ "' and '" +:+ key +:+ "'").

(** One iteration of the leaf loop.  The source tests [previousKey &&
    previousKey !== key]: the empty string is falsy. *)
Definition rebuild_leaf (st : jsmap N string * level) (kv : string * bytes)
  : result (jsmap N string * level) :=
  let '(indexToKey, m) := st in
  let '(key, value) := kv in
  let index := keyIndex64 key in
  let continue_ :=
    let h := leafHash key value in
    Ok (map_set indexToKey index key, if decide (h = EMPTY_HASH) then m else map_set m index h) in
  match map_get indexToKey index with
  | Some previousKey =>
      if decide (previousKey <> "" /\ previousKey <> key)
      then Err (collision_error index previousKey key)
      else continue_
  | None => continue_
  end.

Definition rebuild_leaves (ls : jsmap string bytes) : result level :=
  snd <$> foldR rebuild_leaf ([], []) ls.

Definition parents_of (childMap : level) : list N :=
  set_of_list (map (fun i => N.shiftr i 1) (map_keys childMap)).

Definition rebuild_parent (childMap parentMap : level) (parentIndex : N) : level :=
  let leftIndex := N.shiftl parentIndex 1 in
  let rightIndex := (leftIndex + 1)%N in
  let left := node_at childMap leftIndex in
  let right := node_at childMap rightIndex in
  let p := innerHash left right in
  if decide (p = EMPTY_HASH) then parentMap else map_set parentMap parentIndex p.

Definition rebuild_level (childMap : level) : level :=
  fold_left (rebuild_parent childMap) (parents_of childMap) [].

(** Levels [0 .. n] above (and including) [m]. *)
Fixpoint rebuild_levels (n : nat) (m : level) : list level :=
  match n with
  | O => [m]
  | S n' => m :: rebuild_levels n' (rebuild_level m)
  end.

Definition level_at (ns : list level) (h : nat) : level := default [] (ns !! h).

Definition rebuild (t : ICS23MerkleTree) : result ICS23MerkleTree :=
  m0 ← rebuild_leaves (leaves t);
  let ns := rebuild_levels MERKLE_DEPTH_BITS m0 in
  Ok (MkTree (leaves t) (node_at (level_at ns MERKLE_DEPTH_BITS) 0) false (Some ns)).

Definition ensureRebuilt : M ICS23MerkleTree unit := fun t =>
  if negb (dirty t) && bool_decide (is_Some (nodesByHeight t)) then (Ok tt, t)
  else match rebuild t with
       | Ok t' => (Ok tt, t')
       | Err e => (Err e, t)
       end.

Definition getRoot : M ICS23MerkleTree string :=
  ensureRebuilt ;; gets (fun t => hex_encode (root t)).

(** ** Siblings and proofs *)

Fixpoint siblings_from (ns : list level) (height : nat) (fuel : nat) (index : N) : list bytes :=
  match fuel with
  | O => []
  | S fuel' =>
      let siblingIndex := N.lxor index 1 in
      node_at (level_at ns height) siblingIndex
        :: siblings_from ns (S height) fuel' (N.shiftr index 1)
  end.

Definition getSiblings (key : string) : M ICS23MerkleTree (list bytes) :=
  ensureRebuilt ;;
  gets (fun t => siblings_from (default [] (nodesByHeight t)) 0 MERKLE_DEPTH_BITS (keyIndex64 key)).

Fixpoint path_of (index : N) (siblings : list bytes) : list ICS23InnerOp :=
  match siblings with
  | [] => []
  | siblingHash :: rest =>
      let isLeftChild := (N.land index 1 =? 0)%N in
      (if isLeftChild then InnerOp 1 [x01] siblingHash
       else InnerOp 1 ([x01] ++ siblingHash) [])
        :: path_of (N.shiftr index 1) rest
  end.

Definition default_leaf_op : ICS23LeafOp := LeafOp 1 0 0 0 [].

Definition generateProof (key : string) : M ICS23MerkleTree ICS23ExistenceProof :=
  t ← gets (fun t => t);
  if decide (tree_size t = 0%nat) then raise (JsError "Cannot generate proof: tree is empty")
  else match map_get (leaves t) key with
       | None => raise (JsError ("Cannot generate proof: key '" +:+ key +:+ "' not found in tree"))
       | Some value =>
           siblings ← getSiblings key;
           mret (ExistenceProof (utf8 key) value default_leaf_op
                   (path_of (keyIndex64 key) siblings))
       end.

Definition generateNonExistenceProof (key : string) : M ICS23MerkleTree ICS23NonExistenceProof :=
  t ← gets (fun t => t);
  if map_has (leaves t) key then
    raise (JsError ("Cannot generate non-existence proof: key '" +:+ key +:+ "' exists in tree"))
  else if decide (tree_size t = 0%nat) then
    raise (JsError "Cannot generate non-existence proof: tree is empty")
  else
    siblings ← getSiblings key;
    let emptyValueProof :=
      ExistenceProof (utf8 key) [] default_leaf_op (path_of (keyIndex64 key) siblings) in
    mret (NonExistenceProof (utf8 key) (Some emptyValueProof) None).

Definition verify_step (currentHash : bytes) (op : ICS23InnerOp) : bytes :=
  if decide (op_suffix op <> []) then innerHash currentHash (op_suffix op)
  else
    let leftSibling := drop 1 (op_prefix op) in
    innerHash leftSibling currentHash.

Definition verifyProof (proof : ICS23ExistenceProof) : M ICS23MerkleTree bool :=
  ensureRebuilt ;;
  let proofKey := utf8_decode (ep_key proof) in
  let currentHash := fold_left verify_step (ep_path proof) (leafHash proofKey (ep_value proof)) in
  gets (fun t => bool_decide (currentHash = root t)).

(** ** JSON image *)

Record TreeJSON := MkTreeJSON { json_leaves : jsmap string string; json_root : option string }.

Definition toJSON : M ICS23MerkleTree TreeJSON :=
  t ← gets (fun t => t);
  let ls := fold_left (fun m kv => map_set m kv.1 (hex_encode kv.2)) (leaves t) [] in
  r ← getRoot;
  mret (MkTreeJSON ls (Some r)).

Definition fromJSON (data : TreeJSON) : ICS23MerkleTree :=
  fold_left (fun t kv => tree_set kv.1 (hex_decode_prefix kv.2) t) (json_leaves data) new_tree.

End merkle.

Arguments ICS23MerkleTree : clear implicits.
