(* ===== verification/MerkleSpec.v ===== *)
(** * The commitment tree: abstract specification and refinement

    The abstract tree is the dense binary tree of depth 64 over a leaf
    assignment [f : N -> bytes]: [node f h i] is the hash of the node at height
    [h] and index [i].  The theorems show that the sparse, cached computation of
    [MerkleTree] implements it. *)

From S2P Require Import Prelude JsMap Hex MerkleTree.

Section spec.
Context `{SHA : Sha256}.

Fixpoint node (f : N -> bytes) (h : nat) (i : N) : bytes :=
  match h with
  | O => f i
  | S h' => innerHash (node f h' (2 * i)) (node f h' (2 * i + 1))
  end.

(** The leaf committed at index [i]. *)
Definition leaf_of (ls : jsmap string bytes) (i : N) : bytes :=
  match list_find (fun kv => keyIndex64 kv.1 = i) ls with
  | Some (_, (k, v)) => leafHash k v
  | None => EMPTY_HASH
  end.

Definition spec_root (ls : jsmap string bytes) : bytes := node (leaf_of ls) MERKLE_DEPTH_BITS 0.

(** No two keys share the 64-bit index. *)
Definition index_free (ls : jsmap string bytes) : Prop := NoDup (keyIndex64 <$> map_keys ls).

(** The hash obtained by walking from [cur] at index [i] along [sibs]. *)
Fixpoint climb (i : N) (cur : bytes) (sibs : list bytes) : bytes :=
  match sibs with
  | [] => cur
  | s :: rest =>
      climb (N.div2 i) (if N.even i then innerHash cur s else innerHash s cur) rest
  end.

Definition sibling (i : N) : N := if N.even i then (i + 1)%N else (i - 1)%N.

Fixpoint spec_siblings (f : N -> bytes) (h n : nat) (i : N) : list bytes :=
  match n with
  | O => []
  | S n' => node f h (sibling i) :: spec_siblings f (S h) n' (N.div2 i)
  end.

(** ** Index arithmetic *)

Lemma even_div2 i : N.even i = true -> (2 * N.div2 i)%N = i.
Proof. destruct i as [|[]]; done. Qed.
Lemma odd_div2 i : N.even i = false -> (2 * N.div2 i + 1)%N = i.
Proof. destruct i as [|[]]; done. Qed.
Lemma lxor_1 i : N.lxor i 1 = sibling i.
Proof. destruct i as [|[]]; done. Qed.
Lemma land_1_even i : (N.land i 1 =? 0)%N = N.even i.
Proof. destruct i as [|[]]; done. Qed.
Lemma shiftr_1 i : N.shiftr i 1 = N.div2 i.
Proof. by destruct i as [|[]]. Qed.
Lemma shiftl_1 i : N.shiftl i 1 = (2 * i)%N.
Proof. by destruct i as [|[]]. Qed.
Lemma div2_2 i : N.div2 (2 * i) = i.
Proof. by destruct i. Qed.
Lemma div2_2_1 i : N.div2 (2 * i + 1) = i.
Proof. by destruct i. Qed.
Lemma sibling_ne i : sibling i <> i.
Proof. unfold sibling. destruct (N.even i) eqn:E; [lia|]. pose proof (odd_div2 _ E). lia. Qed.
Lemma div2_sibling i : N.div2 (sibling i) = N.div2 i.
Proof.
  unfold sibling. destruct (N.even i) eqn:E.
  - rewrite <- (even_div2 _ E) at 1. by rewrite div2_2_1.
  - rewrite <- (odd_div2 _ E) at 1. by rewrite N.add_sub, div2_2.
Qed.
Lemma shiftr_succ_div2 i n : N.shiftr i (N.of_nat (S n)) = N.div2 (N.shiftr i (N.of_nat n)).
Proof. by rewrite Nat2N.inj_succ, N.shiftr_succ_r. Qed.
Lemma shiftr_div2_succ i n : N.shiftr (N.div2 i) (N.of_nat n) = N.shiftr i (N.of_nat (S n)).
Proof.
  rewrite <- shiftr_1, N.shiftr_shiftr. f_equal. lia.
Qed.

(** ** The abstract tree *)

Lemma node_ext f g h i : (forall j, f j = g j) -> node f h i = node g h i.
Proof. intros Hfg. revert i. induction h as [|h IH]; intros i; cbn; [done|]. by rewrite !IH. Qed.

Lemma node_shift f h i :
  node (fun j => innerHash (f (2 * j)%N) (f (2 * j + 1)%N)) h i = node f (S h) i.
Proof.
  revert i. induction h as [|h IH]; intros i; [done|].
  cbn [node] in *. by rewrite !IH.
Qed.

(** Changing the leaf [i0] only changes the ancestors of [i0]. *)
Lemma node_frame f g i0 h j :
  (forall i, i <> i0 -> f i = g i) -> j <> N.shiftr i0 (N.of_nat h) -> node f h j = node g h j.
Proof.
  intros Hfg. revert j. induction h as [|h IH]; intros j Hj; cbn; [by apply Hfg|].
  rewrite shiftr_succ_div2 in Hj.
  rewrite !IH; [done| |]; intros E; apply Hj; rewrite <- E; [by rewrite div2_2_1 | by rewrite div2_2].
Qed.

Lemma climb_step f h i :
  (if N.even i then innerHash (node f h i) (node f h (sibling i))
   else innerHash (node f h (sibling i)) (node f h i)) = node f (S h) (N.div2 i).
Proof.
  unfold sibling. cbn [node]. destruct (N.even i) eqn:E.
  - by rewrite even_div2.
  - rewrite (odd_div2 _ E). do 2 f_equal. pose proof (odd_div2 _ E). lia.
Qed.

Lemma climb_siblings f h n i :
  climb i (node f h i) (spec_siblings f h n i) = node f (h + n) (N.shiftr i (N.of_nat n)).
Proof.
  revert h i. induction n as [|n IH]; intros h i; cbn [spec_siblings climb].
  - by rewrite Nat.add_0_r.
  - rewrite climb_step, IH, shiftr_div2_succ. by rewrite Nat.add_succ_r.
Qed.

Lemma spec_siblings_frame f g i0 h n :
  (forall i, i <> i0 -> f i = g i) ->
  spec_siblings f h n (N.shiftr i0 (N.of_nat h)) = spec_siblings g h n (N.shiftr i0 (N.of_nat h)).
Proof.
  intros Hfg. revert h. induction n as [|n IH]; intros h; cbn [spec_siblings]; [done|].
  rewrite (node_frame f g i0) by (done || apply sibling_ne).
  by rewrite <- shiftr_succ_div2, IH.
Qed.

Lemma length_spec_siblings f h n i : length (spec_siblings f h n i) = n.
Proof. revert h i. induction n as [|n IH]; intros; cbn; auto. Qed.

(** ** Digest lengths *)

Lemma length_EMPTY_HASH : length EMPTY_HASH = 32%nat.
Proof. reflexivity. Qed.

Lemma length_innerHash `{!Sha256Ok} l r : length (innerHash l r) = 32%nat.
Proof. unfold innerHash. case_decide; [done | apply sha256_length]. Qed.

Lemma length_leafHash `{!Sha256Ok} k v : length (leafHash k v) = 32%nat.
Proof. unfold leafHash. case_decide; [done | apply sha256_length]. Qed.

Lemma length_leaf_of `{!Sha256Ok} ls i : length (leaf_of ls i) = 32%nat.
Proof. unfold leaf_of. destruct (list_find _ _) as [[? [? ?]]|]; [apply length_leafHash | done]. Qed.

Lemma length_node `{!Sha256Ok} f h i :
  (forall j, length (f j) = 32%nat) -> length (node f h i) = 32%nat.
Proof. intros Hf. destruct h; cbn; [apply Hf | apply length_innerHash]. Qed.

Lemma keyIndex64_bound `{!Sha256Ok} key : (keyIndex64 key < 2 ^ 64)%N.
Proof.
  unfold keyIndex64, keyHash. pose proof (be_to_N_bound (take 8 (sha256 (utf8 key)))) as Hb.
  rewrite length_take, sha256_length in Hb. exact Hb.
Qed.

Lemma keyIndex64_top `{!Sha256Ok} key : N.shiftr (keyIndex64 key) (N.of_nat MERKLE_DEPTH_BITS) = 0%N.
Proof. rewrite N.shiftr_div_pow2. apply N.div_small, keyIndex64_bound. Qed.

(** ** Characterisation of the leaf assignment *)

Lemma leaf_of_in ls k v :
  index_free ls -> (k, v) ∈ ls -> leaf_of ls (keyIndex64 k) = leafHash k v.
Proof.
  unfold index_free, leaf_of, map_keys. intros Hnd Hin.
  destruct (list_find _ ls) as [[n [k' v']]|] eqn:E.
  - apply list_find_Some in E as (Hn & Hk & _). cbn in Hk.
    apply list_elem_of_lookup in Hin as [m Hm].
    assert (n = m) as ->.
    { eapply NoDup_lookup; [exact Hnd | |];
        rewrite <- list_fmap_compose, list_lookup_fmap, ?Hn, ?Hm; cbn; by rewrite ?Hk. }
    by simplify_eq.
  - apply list_find_None in E. rewrite Forall_forall in E. exfalso. by apply (E (k, v) Hin).
Qed.

Lemma leaf_of_absent ls i :
  (forall k, k ∈ map_keys ls -> keyIndex64 k <> i) -> leaf_of ls i = EMPTY_HASH.
Proof.
  intros Hno. unfold leaf_of. destruct (list_find _ ls) as [[n [k v]]|] eqn:E; [|done].
  apply list_find_Some in E as (Hn & Hk & _). exfalso. eapply Hno; [|exact Hk].
  apply list_elem_of_fmap. exists (k, v). split; [done|]. by eapply list_elem_of_lookup_2.
Qed.

Lemma leaf_of_get ls k :
  map_wf ls -> index_free ls -> (forall k', k' ∈ map_keys ls -> keyIndex64 k' = keyIndex64 k -> k' = k) ->
  leaf_of ls (keyIndex64 k) = leafHash k (default [] (map_get ls k)).
Proof.
  intros Hwf Hif Hk. destruct (map_get ls k) as [v|] eqn:E.
  - apply map_get_In in E. by apply leaf_of_in.
  - apply map_get_None in E. rewrite leaf_of_absent; [done|].
    intros k' Hk' Heq. by rewrite (Hk _ Hk' Heq) in Hk'.
Qed.

Lemma index_free_inj ls k k' :
  index_free ls -> k ∈ map_keys ls -> k' ∈ map_keys ls -> keyIndex64 k = keyIndex64 k' -> k = k'.
Proof.
  unfold index_free. intros Hnd Hk Hk' E.
  apply list_elem_of_lookup in Hk as [n Hn]. apply list_elem_of_lookup in Hk' as [m Hm].
  assert (n = m) as ->; [|by simplify_eq].
  eapply NoDup_lookup; [exact Hnd | |]; rewrite list_lookup_fmap, ?Hn, ?Hm; cbn; by rewrite ?E.
Qed.

End spec.

(** Conversion must never unfold the dense tree: it has [2^64] leaves. *)
#[global] Strategy 1000 [node climb spec_siblings].

#[export] Hint Resolve length_EMPTY_HASH length_innerHash length_leafHash length_leaf_of
  length_node length_spec_siblings keyIndex64_bound : gateway.
