(* ===== verification/MerkleRefine.v ===== *)
(** * The commitment tree: the sparse computation refines the specification

    Representation invariant [tree_wf], its preservation by every operation, and
    the functional specification of [ensureRebuilt], [getRoot], [getSiblings] and
    the proof generators in terms of the dense tree of [MerkleSpec]. *)

From S2P Require Import Prelude JsMap Hex MerkleTree MerkleSpec.

Section refine.
Context `{SHA : Sha256}.

(** ** The leaf level *)

Lemma foldR_snoc {A B} (f : A -> B -> result A) a l x :
  foldR f a (l ++ [x]) = (foldR f a l ≫= fun a' => f a' x).
Proof.
  revert a. induction l as [|y l IH]; intros a; cbn.
  - by destruct (f a x).
  - destruct (f a y) as [a'|e]; cbn; [apply IH | done].
Qed.

Lemma leaf_of_snoc ls k v i :
  (forall k', k' ∈ map_keys ls -> keyIndex64 k' <> keyIndex64 k) ->
  leaf_of (ls ++ [(k, v)]) i = if decide (i = keyIndex64 k) then leafHash k v else leaf_of ls i.
Proof.
  intros Hfresh. unfold leaf_of. case_decide as Hi.
  - subst i.
    assert (list_find (fun kv : string * bytes => keyIndex64 kv.1 = keyIndex64 k) ls = None) as Hnone.
    { apply list_find_None, Forall_forall. intros [k' v'] Hin Heq. apply (Hfresh k'); [|done].
      apply list_elem_of_fmap. by exists (k', v'). }
    rewrite list_find_app_r by done. cbn. by rewrite decide_True.
  - destruct (list_find _ ls) as [[n [k' v']]|] eqn:E.
    + by erewrite list_find_app_l by exact E.
    + rewrite list_find_app_r by done. cbn. by rewrite decide_False.
Qed.

Definition index_known (itk : jsmap N string) (ls : jsmap string bytes) : Prop :=
  forall i, is_Some (map_get itk i) <-> exists k, k ∈ map_keys ls /\ keyIndex64 k = i.

Lemma map_keys_snoc (ls : jsmap string bytes) k v : map_keys (ls ++ [(k, v)]) = map_keys ls ++ [k].
Proof. unfold map_keys. by rewrite fmap_app. Qed.

Lemma index_free_snoc ls k v :
  index_free (ls ++ [(k, v)]) <->
  index_free ls /\ (forall k', k' ∈ map_keys ls -> keyIndex64 k' <> keyIndex64 k).
Proof.
  unfold index_free. rewrite map_keys_snoc, fmap_app, NoDup_app. cbn. split.
  - intros (H1 & H2 & _). split; [done|]. intros k' Hk' Heq. apply (H2 (keyIndex64 k')).
    + apply list_elem_of_fmap. by exists k'.
    + rewrite Heq. left.
  - intros [H1 H2]. split_and!; [done| |apply NoDup_singleton].
    intros i (k' & -> & Hk')%list_elem_of_fmap Hi%list_elem_of_singleton. by apply (H2 k').
Qed.

Lemma node_at_set (m : level) j h i :
  node_at (map_set m j h) i = if decide (j = i) then h else node_at m i.
Proof. unfold node_at. rewrite map_get_set. by case_decide. Qed.

Lemma index_known_snoc itk ls k v :
  index_known itk ls -> index_known (map_set itk (keyIndex64 k) k) (ls ++ [(k, v)]).
Proof.
  intros Hk i. rewrite map_get_set, map_keys_snoc. case_decide as Hi; subst.
  - split; [|by eauto]. intros _. exists k. split; [apply elem_of_app; right; left | done].
  - rewrite (Hk i). split; intros (k' & Hin & <-).
    + exists k'. split; [by apply elem_of_app; left | done].
    + apply elem_of_app in Hin as [Hin|Hin%list_elem_of_singleton]; [by eauto|by subst].
Qed.

Lemma rebuild_leaves_fold ls :
  index_free ls ->
  exists itk m, foldR rebuild_leaf ([], []) ls = Ok (itk, m) /\ index_known itk ls /\
    forall i, node_at m i = leaf_of ls i.
Proof.
  induction ls as [|[k v] ls IH] using rev_ind; intros Hif.
  - exists [], []. split_and!; [done| |done]. intros i. split; [intros [? ?]; done|].
    intros (k & Hk & _). by apply elem_of_nil in Hk.
  - apply index_free_snoc in Hif as [Hif Hfresh].
    destruct (IH Hif) as (itk & m & Hf & Hk & Hm). rewrite foldR_snoc, Hf.
    cbn [mbind result_bind]. unfold rebuild_leaf.
    destruct (map_get itk (keyIndex64 k)) as [pk|] eqn:E.
    { exfalso. destruct (proj1 (Hk (keyIndex64 k)) (ex_intro _ pk E)) as (k' & Hin & Heq).
      by apply (Hfresh k'). }
    do 2 eexists. split; [reflexivity|]. split; [by apply index_known_snoc|].
    intros i. rewrite leaf_of_snoc by done.
    assert (node_at m (keyIndex64 k) = EMPTY_HASH) as Hempty.
    { rewrite Hm. by apply leaf_of_absent. }
    destruct (decide (leafHash k v = EMPTY_HASH)) as [He|He];
      destruct (decide (i = keyIndex64 k)) as [->|Hi]; rewrite ?node_at_set.
    + by rewrite Hempty.
    + apply Hm.
    + by rewrite decide_True.
    + by rewrite decide_False by congruence.
Qed.

Lemma rebuild_leaves_ok ls :
  index_free ls ->
  exists m, rebuild_leaves ls = Ok m /\ forall i, node_at m i = leaf_of ls i.
Proof.
  intros (itk & m & Hf & _ & Hm)%rebuild_leaves_fold. exists m. unfold rebuild_leaves. by rewrite Hf.
Qed.

(** A rebuild that does not throw proves the indices distinct (for trees
    without the empty key, whose collisions the falsy test would miss). *)
Lemma rebuild_leaves_fold_inv ls itk m :
  "" ∉ map_keys ls -> map_wf ls -> foldR rebuild_leaf ([], []) ls = Ok (itk, m) ->
  index_free ls /\ (forall k, k ∈ map_keys ls -> map_get itk (keyIndex64 k) = Some k).
Proof.
  revert itk m. induction ls as [|[k v] ls IH] using rev_ind; intros itk m Hne Hwf Hf.
  - split; [constructor|]. intros k Hk. by apply elem_of_nil in Hk.
  - rewrite foldR_snoc in Hf. apply bind_ok in Hf as ([itk0 m0] & Hf0 & Hf).
    rewrite map_keys_snoc in Hne. unfold map_wf in Hwf. rewrite map_keys_snoc in Hwf.
    apply NoDup_app in Hwf as (Hwf & Hdisj & _).
    destruct (IH _ _ ltac:(intros H; apply Hne, elem_of_app; by left) Hwf Hf0) as [Hif Hget].
    assert (forall k', k' ∈ map_keys ls -> keyIndex64 k' <> keyIndex64 k) as Hfresh.
    { intros k' Hk' Heq. cbn in Hf. rewrite <- Heq, (Hget _ Hk') in Hf.
      rewrite decide_True in Hf; [done|]. split.
      - intros ->. apply Hne, elem_of_app. by left.
      - intros ->. apply (Hdisj k Hk'). left. }
    split; [by apply index_free_snoc|].
    assert (itk = map_set itk0 (keyIndex64 k) k) as ->.
    { cbn in Hf. repeat case_match; by simplify_eq. }
    intros k' Hk'. rewrite map_keys_snoc in Hk'. rewrite map_get_set.
    apply elem_of_app in Hk' as [Hk'|Hk'%list_elem_of_singleton]; [|subst; by rewrite decide_True].
    rewrite decide_False by (intros E; by apply (Hfresh k')). by apply Hget.
Qed.

Lemma rebuild_leaves_inv ls m :
  "" ∉ map_keys ls -> map_wf ls -> rebuild_leaves ls = Ok m -> index_free ls.
Proof.
  unfold rebuild_leaves. intros Hne Hwf H. destruct (foldR _ _ _) as [[itk m']|] eqn:E; [|done].
  by eapply rebuild_leaves_fold_inv.
Qed.

(** ** The inner levels *)

Lemma innerHash_empty : innerHash EMPTY_HASH EMPTY_HASH = EMPTY_HASH.
Proof. unfold innerHash. by rewrite decide_True. Qed.

Definition inner_at (c : level) (i : N) : bytes :=
  innerHash (node_at c (2 * i)) (node_at c (2 * i + 1)).

Lemma rebuild_parent_at c pm p i :
  (node_at pm p = EMPTY_HASH \/ node_at pm p = inner_at c p) ->
  node_at (rebuild_parent c pm p) i = if decide (p = i) then inner_at c i else node_at pm i.
Proof.
  intros Hp. unfold rebuild_parent. rewrite shiftl_1. fold (inner_at c p).
  case_decide as He; case_decide as Hi; subst; rewrite ?node_at_set, ?decide_True by done;
    try done; [destruct Hp; congruence | by rewrite decide_False].
Qed.

Lemma rebuild_parents_at c ps pm i :
  (forall j, node_at pm j = EMPTY_HASH \/ node_at pm j = inner_at c j) ->
  node_at (fold_left (rebuild_parent c) ps pm) i =
  if decide (i ∈ ps) then inner_at c i else node_at pm i.
Proof.
  revert pm. induction ps as [|p ps IH]; intros pm Hpm; cbn [fold_left].
  - rewrite decide_False; [done|]. by intros ?%elem_of_nil.
  - rewrite IH.
    + rewrite rebuild_parent_at by apply Hpm. destruct (decide (i ∈ p :: ps)) as [Hin|Hni].
      * apply elem_of_cons in Hin as [->|Hin]; [|by rewrite decide_True].
        rewrite (decide_True _ _ (eq_refl p)). by case_decide.
      * apply not_elem_of_cons in Hni as [? ?]. by rewrite !decide_False by congruence.
    + intros j. rewrite !rebuild_parent_at by apply Hpm.
      destruct (decide (p = j)); [right; reflexivity | apply Hpm].
Qed.

Lemma rebuild_level_at c i : node_at (rebuild_level c) i = inner_at c i.
Proof.
  unfold rebuild_level. rewrite rebuild_parents_at by (by left). case_decide as Hi; [done|].
  unfold parents_of in Hi. rewrite elem_of_set_of_list in Hi.
  assert (forall j, N.div2 j = i -> node_at c j = EMPTY_HASH) as Hc.
  { intros j Hj. unfold node_at. destruct (map_get c j) eqn:E; [|done]. exfalso. apply Hi.
    apply list_elem_of_fmap. exists j. split; [by rewrite shiftr_1|]. apply map_get_is_Some. by eauto. }
  unfold inner_at. rewrite !Hc by (apply div2_2 || apply div2_2_1). by rewrite innerHash_empty.
Qed.

Lemma rebuild_levels_at n m h i :
  (h <= n)%nat -> node_at (level_at (rebuild_levels n m) h) i = node (node_at m) h i.
Proof.
  revert n m. induction h as [|h IH]; intros n m Hh; [by destruct n|].
  destruct n as [|n]; [lia|]. cbn [rebuild_levels].
  change (level_at (m :: ?l) (S h)) with (level_at l h). rewrite IH by lia.
  rewrite <- node_shift. apply node_ext, rebuild_level_at.
Qed.

(** ** The representation invariant *)

Record tree_wf (t : ICS23MerkleTree) : Prop := {
  wf_keys : map_wf (leaves t);
  wf_values : Forall (fun kv => kv.2 <> []) (leaves t);
  wf_cache : dirty t = false -> forall ns, nodesByHeight t = Some ns ->
    exists m0, rebuild_leaves (leaves t) = Ok m0 /\ ns = rebuild_levels MERKLE_DEPTH_BITS m0 /\
      root t = node_at (level_at ns MERKLE_DEPTH_BITS) 0;
}.

Lemma wf_value t k v : tree_wf t -> tree_get k t = Some v -> v <> [].
Proof.
  intros Hwf Hg%map_get_In. pose proof (wf_values _ Hwf) as H. rewrite Forall_forall in H.
  by apply (H (k, v)).
Qed.

Lemma tree_wf_new : tree_wf new_tree.
Proof. split; cbn; [apply map_wf_nil | constructor | done]. Qed.

Lemma Forall_map_set (P : string * bytes -> Prop) m k v :
  Forall P m -> P (k, v) -> Forall P (map_set m k v).
Proof.
  intros Hm Hkv. induction Hm as [|[k' v'] m Hx Hm IH]; cbn; [by constructor|].
  case_decide; subst; by constructor.
Qed.

Lemma Forall_map_delete (P : string * bytes -> Prop) m k : Forall P m -> Forall P (map_delete m k).
Proof.
  rewrite !Forall_forall. intros Hm x Hx. by eapply Hm, elem_of_map_delete.
Qed.

Lemma tree_wf_set k v t : tree_wf t -> tree_wf (tree_set k v t).
Proof.
  intros [Hk Hv Hc]. unfold tree_set. case_decide; split; cbn; auto with gateway; try done.
  - by apply Forall_map_delete.
  - by apply Forall_map_set.
Qed.

Lemma tree_wf_delete k t : tree_wf t -> tree_wf (tree_delete k t).
Proof. intros [Hk Hv Hc]. split; cbn; auto with gateway; [by apply Forall_map_delete | done]. Qed.

Lemma fold_set_fresh (l m : jsmap string bytes) :
  NoDup (map_keys (m ++ l)) -> fold_left (fun m kv => map_set m kv.1 kv.2) l m = m ++ l.
Proof.
  revert m. induction l as [|[k v] l IH]; intros m Hnd; cbn; [by rewrite app_nil_r|].
  assert (map_set m k v = m ++ [(k, v)]) as ->.
  { assert (k ∉ map_keys m) as Hk.
    { unfold map_keys in Hnd. rewrite fmap_app in Hnd. apply NoDup_app in Hnd as (_ & Hd & _).
      intros Hin. apply (Hd _ Hin). left. }
    clear -Hk. induction m as [|[k' v'] m IH]; cbn; [done|].
    apply not_elem_of_cons in Hk as [Hne Hk]. cbn in Hne. rewrite decide_False by congruence.
    by rewrite IH. }
  rewrite IH, <- app_assoc; [done|]. by rewrite <- app_assoc.
Qed.

(** [clone] copies the leaves, in order. *)
Lemma clone_leaves t : map_wf (leaves t) -> leaves (clone t) = leaves t.
Proof. intros Hwf. cbn. by rewrite fold_set_fresh. Qed.

Lemma tree_wf_clone t : tree_wf t -> tree_wf (clone t).
Proof. intros [Hk Hv Hc]. split; [by rewrite clone_leaves | by rewrite clone_leaves | done]. Qed.

Lemma tree_get_set k v k' t : tree_wf t ->
  default [] (tree_get k' (tree_set k v t)) = if decide (k = k') then v else default [] (tree_get k' t).
Proof.
  intros [Hk _ _]. unfold tree_get, tree_set. repeat case_decide; subst; cbn;
    rewrite ?map_get_set, ?map_get_delete, ?decide_True, ?decide_False by done; done.
Qed.

(** ** [ensureRebuilt] *)

Definition tree_synced (t : ICS23MerkleTree) (ns : list level) : Prop :=
  nodesByHeight t = Some ns /\ dirty t = false /\ root t = spec_root (leaves t) /\
  forall h i, (h <= MERKLE_DEPTH_BITS)%nat ->
    node_at (level_at ns h) i = node (leaf_of (leaves t)) h i.

(** What the freshly computed levels contain, for any depth. *)
Lemma levels_spec n ls m0 :
  index_free ls -> rebuild_leaves ls = Ok m0 ->
  forall h i, (h <= n)%nat -> node_at (level_at (rebuild_levels n m0) h) i = node (leaf_of ls) h i.
Proof.
  intros Hif Hm0 h i Hh. destruct (rebuild_leaves_ok _ Hif) as (m & Hm & Hat).
  rewrite Hm0 in Hm. injection Hm as <-. rewrite rebuild_levels_at by done. by apply node_ext.
Qed.

Lemma synced_intro t ns m0 :
  index_free (leaves t) -> rebuild_leaves (leaves t) = Ok m0 ->
  ns = rebuild_levels MERKLE_DEPTH_BITS m0 ->
  nodesByHeight t = Some ns -> dirty t = false ->
  root t = node_at (level_at ns MERKLE_DEPTH_BITS) 0 ->
  tree_synced t ns.
Proof.
  intros Hif Hm0 -> Hn Hd Hr. pose proof (levels_spec MERKLE_DEPTH_BITS _ _ Hif Hm0) as Hl.
  split; [exact Hn|]. split; [exact Hd|]. split; [|exact Hl].
  rewrite Hr. exact (Hl _ _ (le_n _)).
Qed.

Lemma tree_wf_rebuilt t m0 :
  tree_wf t -> rebuild_leaves (leaves t) = Ok m0 ->
  tree_wf (MkTree (leaves t)
    (node_at (level_at (rebuild_levels MERKLE_DEPTH_BITS m0) MERKLE_DEPTH_BITS) 0)
    false (Some (rebuild_levels MERKLE_DEPTH_BITS m0))).
Proof.
  intros [Hk Hv _] Hm0. split; cbn [leaves root dirty nodesByHeight]; [done|done|].
  intros _ ns [= <-]. exists m0. by split_and!.
Qed.

Lemma rebuild_spec t :
  tree_wf t -> index_free (leaves t) ->
  exists t' ns, rebuild t = Ok t' /\ leaves t' = leaves t /\ tree_wf t' /\ tree_synced t' ns.
Proof.
  intros Hwf Hif. destruct (rebuild_leaves_ok _ Hif) as (m0 & Hm0 & _).
  unfold rebuild. rewrite Hm0. cbn [mbind result_bind].
  do 2 eexists. split_and!; [reflexivity|reflexivity|exact (tree_wf_rebuilt _ _ Hwf Hm0)|].
  eapply synced_intro; [exact Hif|exact Hm0|reflexivity..].
Qed.

Lemma ensureRebuilt_spec t :
  tree_wf t -> index_free (leaves t) ->
  exists t' ns, ensureRebuilt t = (Ok tt, t') /\ leaves t' = leaves t /\ tree_wf t' /\ tree_synced t' ns.
Proof.
  intros Hwf Hif. unfold ensureRebuilt. destruct (dirty t) eqn:Hd; cbn [negb andb].
  2: destruct (nodesByHeight t) as [ns|] eqn:Hn.
  2: { destruct (wf_cache _ Hwf Hd _ Hn) as (m0 & Hm0 & Hns & Hr).
       exists t, ns. rewrite bool_decide_eq_true_2 by eauto.
       split_and!; [reflexivity|reflexivity|exact Hwf|]. by eapply synced_intro. }
  2: rewrite bool_decide_eq_false_2 by (by intros [? ?]).
  all: destruct (rebuild_spec t Hwf Hif) as (t' & ns & -> & ?); by exists t', ns.
Qed.

Lemma ensureRebuilt_ok t t' :
  tree_wf t -> "" ∉ map_keys (leaves t) -> ensureRebuilt t = (Ok tt, t') -> index_free (leaves t).
Proof.
  intros Hwf Hne. unfold ensureRebuilt. destruct (_ && _) eqn:Ec.
  - intros _. apply andb_true_iff in Ec as [Hd%negb_true_iff [ns Hn]%bool_decide_eq_true].
    destruct (wf_cache _ Hwf Hd _ Hn) as (m0 & Hm0 & _). by eapply rebuild_leaves_inv, Hm0; [|apply Hwf].
  - unfold rebuild. destruct (rebuild_leaves (leaves t)) as [m0|] eqn:Hm0; cbn [mbind result_bind]; [|done].
    intros _. by eapply rebuild_leaves_inv, Hm0; [|apply Hwf].
Qed.

(** ** [getRoot] and [getSiblings] *)

Lemma getRoot_spec t :
  tree_wf t -> index_free (leaves t) ->
  exists t', getRoot t = (Ok (hex_encode (spec_root (leaves t))), t') /\
    leaves t' = leaves t /\ tree_wf t'.
Proof.
  intros Hwf Hif. destruct (ensureRebuilt_spec t Hwf Hif) as (t' & ns & Hr & Hl & Hwf' & Hs).
  exists t'. unfold getRoot, mbind, M_bind, gets. rewrite Hr. split_and!; [|done|done].
  destruct Hs as (_ & _ & -> & _). by rewrite Hl.
Qed.

Lemma siblings_from_spec f ns h n i :
  (forall k j, (k <= MERKLE_DEPTH_BITS)%nat -> node_at (level_at ns k) j = node f k j) ->
  (h + n <= S MERKLE_DEPTH_BITS)%nat -> siblings_from ns h n i = spec_siblings f h n i.
Proof.
  intros Hns. revert h i. induction n as [|n IH]; intros h i Hh; cbn; [done|].
  rewrite lxor_1, shiftr_1, Hns, IH by lia. done.
Qed.

Definition tree_siblings (ls : jsmap string bytes) (key : string) : list bytes :=
  spec_siblings (leaf_of ls) 0 MERKLE_DEPTH_BITS (keyIndex64 key).

Lemma getSiblings_spec t key :
  tree_wf t -> index_free (leaves t) ->
  exists t', getSiblings key t = (Ok (tree_siblings (leaves t) key), t') /\
    leaves t' = leaves t /\ tree_wf t'.
Proof.
  intros Hwf Hif. destruct (ensureRebuilt_spec t Hwf Hif) as (t' & ns & Hr & Hl & Hwf' & Hs).
  exists t'. unfold getSiblings, mbind, M_bind, gets. rewrite Hr. split_and!; [|done|done].
  destruct Hs as (-> & _ & _ & Hat). cbn [default]. do 2 f_equal.
  rewrite <- Hl. apply siblings_from_spec; [done | cbn; lia].
Qed.

(** Methods that read the tree only touch its cache. *)
Lemma ensureRebuilt_leaves t r t' : ensureRebuilt t = (r, t') -> leaves t' = leaves t.
Proof.
  unfold ensureRebuilt. case_match; [by intros [= <- <-]|].
  unfold rebuild. destruct (rebuild_leaves _); cbn [mbind result_bind]; by intros [= <- <-].
Qed.

Lemma ensureRebuilt_wf t r t' : tree_wf t -> ensureRebuilt t = (r, t') -> tree_wf t'.
Proof.
  intros Hwf. unfold ensureRebuilt. case_match; [by intros [= <- <-]|].
  unfold rebuild. destruct (rebuild_leaves _) as [m0|] eqn:E; cbn [mbind result_bind];
    intros [= <- <-]; [by apply tree_wf_rebuilt | done].
Qed.

End refine.

#[export] Hint Resolve tree_wf_new tree_wf_set tree_wf_delete tree_wf_clone : gateway.
