(* ===== verification/OnChainCommitment.v ===== *)
(** * The validator's view of the root ([ibc_state_commitment.ak])

    The on-chain [host_state_stt] validator never sees the tree.  It replays one
    key update at a time with [apply_update], from the sibling hashes the Gateway
    supplies.  The model is the validator's own code (an [expect] that fails is
    [None]); the lemmas connect it with the abstract tree of [MerkleSpec] in both
    directions:
    - [apply_update_complete]: the Gateway's siblings are accepted;
    - [apply_update_sound]: whatever is accepted is the Gateway's update, unless
      SHA-256 collides on the inputs hashed along the two paths. *)

From S2P Require Import Prelude JsMap Hex MerkleTree MerkleSpec MerkleRefine.

(** The literal [empty_value_hash] of the validator. *)
Definition empty_value_hash : bytes :=
  hex_decode_prefix "e3b0c44298fc1c149afbf4c8996fb92427ae41e4649b934ca495991b7852b855".

(** What the two implementations share about SHA-256: the digest length and the
    digest of the empty string. *)
Class Sha256Std {SHA : Sha256} : Prop := {
  sha256_std_ok :: Sha256Ok;
  sha256_nil : sha256 [] = empty_value_hash;
}.

Section onchain.
Context `{SHA : Sha256}.

Definition merkle_depth_bits : nat := 64.
Definition hash_size_bytes : nat := 32.

Definition ak_leaf_hash (key_hash value_hash : bytes) : option bytes :=
  if decide (length key_hash = hash_size_bytes /\ length value_hash = hash_size_bytes) then
    if decide (value_hash = empty_value_hash) then Some EMPTY_HASH
    else Some (sha256 (([x00] ++ key_hash) ++ value_hash))
  else None.

Definition ak_inner_hash (left right : bytes) : option bytes :=
  if decide (length left = hash_size_bytes /\ length right = hash_size_bytes) then
    if decide (left = EMPTY_HASH /\ right = EMPTY_HASH) then Some EMPTY_HASH
    else Some (sha256 (([x01] ++ left) ++ right))
  else None.

(** [bits.shr(byte, n) % 2] with [shr a n = a / 2^n]. *)
Definition bit_at (hash : bytes) (bit_index : nat) : N :=
  let byte_index := (7 - bit_index / 8)%nat in
  let bit_in_byte := (bit_index mod 8)%nat in
  let byte := Byte.to_N (default x00 (hash !! byte_index)) in
  ((byte / 2 ^ N.of_nat bit_in_byte) mod 2)%N.

Fixpoint compute_root_go (key_hash current : bytes) (siblings : list bytes) (depth : nat)
  : option bytes :=
  match siblings with
  | [] => if decide (depth = merkle_depth_bits) then Some current else None
  | sibling :: rest =>
      if decide (depth = merkle_depth_bits) then None
      else if decide (length sibling = hash_size_bytes) then
        next ← (if (bit_at key_hash depth =? 0)%N then ak_inner_hash current sibling
                else ak_inner_hash sibling current);
        compute_root_go key_hash next rest (S depth)
      else None
  end.

Definition compute_root (key leaf : bytes) (siblings : list bytes) : option bytes :=
  if decide (length leaf = hash_size_bytes) then
    compute_root_go (sha256 key) leaf siblings 0
  else None.

Definition apply_update (old_root key old_value new_value : bytes) (siblings : list bytes)
  : option bytes :=
  if decide (length old_root = hash_size_bytes) then
    let key_hash := sha256 key in
    old_leaf ← ak_leaf_hash key_hash (sha256 old_value);
    computed_old_root ← compute_root key old_leaf siblings;
    if decide (computed_old_root = old_root) then
      new_leaf ← ak_leaf_hash key_hash (sha256 new_value);
      compute_root key new_leaf siblings
    else None
  else None.

(** A redeemer carries one witness per touched key, in the order in which the
    validator replays them. *)
Record key_update := KeyUpdate {
  ku_key : string; ku_old : bytes; ku_new : bytes; ku_siblings : list bytes
}.

Fixpoint apply_updates (root : bytes) (us : list key_update) : option bytes :=
  match us with
  | [] => Some root
  | u :: us' =>
      root' ← apply_update root (utf8 (ku_key u)) (ku_old u) (ku_new u) (ku_siblings u);
      apply_updates root' us'
  end.

(** ** Direction bits *)

Lemma testbit_be b d :
  (d < 8 * length b)%nat ->
  N.testbit (be_to_N b) (N.of_nat d) =
  N.testbit (Byte.to_N (default x00 (b !! (length b - 1 - d / 8)%nat))) (N.of_nat (d mod 8)).
Proof.
  revert d. induction b as [|x b IH] using rev_ind; intros d Hd; [cbn in Hd; lia|].
  rewrite length_app in *. cbn [length] in *. rewrite be_to_N_snoc.
  pose proof (byte_to_N_lt x) as Hx.
  assert (forall n, N.testbit (be_to_N b * 256 + Byte.to_N x) n =
    if decide (n < 8)%N then N.testbit (Byte.to_N x) n else N.testbit (be_to_N b) (n - 8)) as Hbit.
  { intros n. change 256%N with (2 ^ 8)%N. case_decide as Hn.
    - rewrite <- (N.mod_pow2_bits_low _ 8 n), N.add_comm, N.Div0.mod_add by lia.
      by rewrite N.mod_pow2_bits_low.
    - replace n with (n - 8 + 8)%N at 1 by lia. rewrite <- N.div_pow2_bits.
      rewrite N.div_add_l by done. by rewrite (N.div_small (Byte.to_N x)), N.add_0_r. }
  rewrite Hbit. case_decide as H8.
  - rewrite (Nat.div_small d 8), (Nat.mod_small d 8) by lia.
    rewrite lookup_app_r by lia. by replace (length b + 1 - 1 - 0 - length b)%nat with 0%nat by lia.
  - assert (d / 8 = S ((d - 8) / 8))%nat as Hdiv.
    { replace d with (d - 8 + 1 * 8)%nat at 1 by lia. rewrite Nat.div_add by lia. lia. }
    assert (d mod 8 = (d - 8) mod 8)%nat as ->.
    { replace d with (d - 8 + 1 * 8)%nat at 1 by lia. by rewrite Nat.Div0.mod_add. }
    replace (N.of_nat d - 8)%N with (N.of_nat (d - 8)) by lia.
    rewrite IH by lia. pose proof (Nat.Div0.div_lt_upper_bound (d - 8) 8 (length b)).
    rewrite lookup_app_l by lia. rewrite Hdiv. do 4 f_equal. lia.
Qed.

Lemma bit_at_even `{!Sha256Ok} key d :
  (d < 64)%nat ->
  (bit_at (keyHash key) d =? 0)%N = N.even (N.shiftr (keyIndex64 key) (N.of_nat d)).
Proof.
  intros Hd. unfold bit_at, keyIndex64.
  pose proof (sha256_length (utf8 key)) as Hlen. fold (keyHash key) in Hlen.
  assert (length (take 8 (keyHash key)) = 8%nat) as Ht by (rewrite length_take; lia).
  assert (d / 8 < 8)%nat as Hq by (apply Nat.Div0.div_lt_upper_bound; lia).
  rewrite <- N.negb_odd, <- N.bit0_odd, N.shiftr_spec', N.add_0_l, testbit_be by lia.
  rewrite Ht, lookup_take_lt by lia. replace (8 - 1 - d / 8)%nat with (7 - d / 8)%nat by lia.
  rewrite <- N.bit0_mod. rewrite N.div_pow2_bits, N.add_0_l.
  by destruct (N.testbit _ _).
Qed.

(** ** The validator's walk is [climb] *)

Lemma ak_inner_hash_spec l r :
  length l = 32%nat -> length r = 32%nat -> ak_inner_hash l r = Some (innerHash l r).
Proof.
  intros Hl Hr. unfold ak_inner_hash, innerHash. rewrite decide_True by done.
  rewrite <- app_assoc. by case_decide.
Qed.

Lemma ak_inner_hash_Some l r x :
  ak_inner_hash l r = Some x -> length l = 32%nat /\ length r = 32%nat /\ x = innerHash l r.
Proof.
  intros H. destruct (decide (length l = 32%nat /\ length r = 32%nat)) as [[Hl Hr]|Hn].
  - rewrite ak_inner_hash_spec in H by done. by simplify_eq.
  - unfold ak_inner_hash in H. by rewrite decide_False in H.
Qed.

Definition digests (l : list bytes) : Prop := Forall (fun s => length s = 32%nat) l.

Lemma compute_root_go_climb `{!Sha256Ok} key cur sibs d r :
  length cur = 32%nat ->
  compute_root_go (keyHash key) cur sibs d = Some r <->
  digests sibs /\ (d + length sibs = 64)%nat /\
  r = climb (N.shiftr (keyIndex64 key) (N.of_nat d)) cur sibs.
Proof.
  unfold digests. revert cur d. induction sibs as [|s sibs IH]; intros cur d Hcur; cbn [compute_root_go climb length].
  - case_decide as Hd; unfold merkle_depth_bits in Hd; split.
    + intros [= <-]. split_and!; [constructor | lia | done].
    + by intros (_ & _ & ->).
    + done.
    + intros (_ & ? & _). lia.
  - rewrite <- shiftr_succ_div2. unfold merkle_depth_bits, hash_size_bytes.
    case_decide as Hd; [split; [done | intros (_ & ? & _); lia]|].
    case_decide as Hs; [|split; [done | intros (Hds & _); by inversion Hds]].
    destruct (decide (d < 64)%nat) as [Hlt|Hge].
    2: { split; [|intros (_ & ? & _); lia]. intros Hgo.
         destruct (if (_ =? 0)%N then _ else _) as [nx|] eqn:En; [|done]. cbn in Hgo.
         apply IH in Hgo as (_ & ? & _); [lia|].
         case_match; apply ak_inner_hash_Some in En as (_ & _ & ->); auto with gateway. }
    rewrite bit_at_even, !ak_inner_hash_spec by done.
    destruct (N.even _); cbn; (rewrite IH by auto with gateway); rewrite Forall_cons;
      (split; [intros (Hds & Hl & Hr) | intros ([_ Hds] & Hl & Hr)]; split_and!; (done || lia)).
Qed.

Lemma compute_root_climb `{!Sha256Ok} key leaf sibs r :
  compute_root (utf8 key) leaf sibs = Some r <->
  length leaf = 32%nat /\ digests sibs /\ length sibs = MERKLE_DEPTH_BITS /\
  r = climb (keyIndex64 key) leaf sibs.
Proof.
  unfold compute_root. change (sha256 (utf8 key)) with (keyHash key).
  case_decide as Hl; unfold hash_size_bytes in Hl.
  - rewrite compute_root_go_climb by done. cbn. tauto.
  - split; [done | by intros (? & _)].
Qed.

(** A stored value whose digest is the empty digest would be committed as
    absent by the validator; the Gateway's [leafHash] tests for emptiness. *)
Definition value_ok (v : bytes) : Prop := v <> [] -> sha256 v <> sha256 [].

Lemma ak_leaf_hash_spec `{!Sha256Std} key v :
  value_ok v -> ak_leaf_hash (sha256 (utf8 key)) (sha256 v) = Some (leafHash key v).
Proof.
  intros Hv. unfold ak_leaf_hash, leafHash, keyHash. rewrite decide_True by (by rewrite !sha256_length).
  rewrite <- sha256_nil. destruct (decide (v = [])) as [->|Hne].
  - by rewrite decide_True.
  - rewrite decide_False by auto. by rewrite <- app_assoc.
Qed.

(** ** Updating one key of the tree *)

Definition key_free (ls : jsmap string bytes) (key : string) : Prop :=
  forall k, k ∈ map_keys ls -> keyIndex64 k = keyIndex64 key -> k = key.

Lemma tree_set_keys key v t k :
  k ∈ map_keys (leaves (tree_set key v t)) -> k = key \/ k ∈ map_keys (leaves t).
Proof.
  unfold tree_set. case_decide; cbn [leaves set_leaves]; [|by rewrite elem_of_map_keys_set].
  unfold map_keys. intros (kv & -> & Hin)%list_elem_of_fmap. right.
  apply list_elem_of_fmap. exists kv. split; [done|]. by eapply elem_of_map_delete.
Qed.

Lemma index_free_intro ls :
  map_wf ls ->
  (forall k k', k ∈ map_keys ls -> k' ∈ map_keys ls -> keyIndex64 k = keyIndex64 k' -> k = k') ->
  index_free ls.
Proof. intros Hwf Hinj. by apply NoDup_fmap_2_strong. Qed.

Lemma index_free_set key v t :
  tree_wf t -> index_free (leaves t) -> key_free (leaves t) key ->
  index_free (leaves (tree_set key v t)).
Proof.
  intros Hwf Hif Hkf. apply index_free_intro; [apply tree_wf_set, Hwf|].
  intros k k' [->|Hk]%tree_set_keys [->|Hk']%tree_set_keys Heq; [done| | |].
  - symmetry. by apply Hkf.
  - by apply Hkf.
  - by apply (index_free_inj (leaves t)).
Qed.

Lemma leaf_of_key t key :
  tree_wf t -> index_free (leaves t) -> key_free (leaves t) key ->
  leaf_of (leaves t) (keyIndex64 key) = leafHash key (default [] (tree_get key t)).
Proof. intros Hwf Hif Hkf. apply leaf_of_get; [apply Hwf | done | done]. Qed.

Lemma leaf_of_set_ne key v t i :
  tree_wf t -> index_free (leaves t) -> key_free (leaves t) key -> i <> keyIndex64 key ->
  leaf_of (leaves (tree_set key v t)) i = leaf_of (leaves t) i.
Proof.
  intros Hwf Hif Hkf Hi. pose proof (index_free_set _ v _ Hwf Hif Hkf) as Hif'.
  destruct (list_find (fun k => keyIndex64 k = i) (map_keys (leaves t))) as [[n k]|] eqn:E.
  - apply list_find_Some in E as (Hk%list_elem_of_lookup_2 & <- & _).
    assert (key_free (leaves t) k) as Hk1 by (intros k' Hk' Heq; by apply (index_free_inj (leaves t))).
    assert (key_free (leaves (tree_set key v t)) k) as Hk2.
    { intros k' [->|Hk']%tree_set_keys Heq; [exfalso; congruence | by apply Hk1]. }
    rewrite !leaf_of_key by eauto using tree_wf_set.
    rewrite tree_get_set by done. by rewrite decide_False by (intros ->; done).
  - apply list_find_None in E. rewrite Forall_forall in E.
    rewrite !leaf_of_absent; [done| |].
    + intros k Hk. by apply E.
    + intros k [->|Hk]%tree_set_keys; [congruence | by apply E].
Qed.

Lemma key_free_set key v t :
  tree_wf t -> key_free (leaves t) key -> key_free (leaves (tree_set key v t)) key.
Proof. intros Hwf Hkf k [->|Hk]%tree_set_keys Heq; [done | by apply Hkf]. Qed.

Lemma spec_root_climb `{!Sha256Ok} ls key :
  spec_root ls = climb (keyIndex64 key) (leaf_of ls (keyIndex64 key)) (tree_siblings ls key).
Proof.
  unfold tree_siblings, spec_root. change (leaf_of ls (keyIndex64 key)) with (node (leaf_of ls) 0 (keyIndex64 key)).
  by rewrite climb_siblings, keyIndex64_top.
Qed.

Lemma tree_siblings_set key v t :
  tree_wf t -> index_free (leaves t) -> key_free (leaves t) key ->
  tree_siblings (leaves (tree_set key v t)) key = tree_siblings (leaves t) key.
Proof.
  intros Hwf Hif Hkf. unfold tree_siblings.
  rewrite <- (N.shiftr_0_r (keyIndex64 key)). change 0%N with (N.of_nat 0).
  apply spec_siblings_frame. intros i Hi. by apply leaf_of_set_ne.
Qed.

(** The new root is the climb of the new leaf along the old siblings. *)
Lemma spec_root_set `{!Sha256Ok} key v t :
  tree_wf t -> index_free (leaves t) -> key_free (leaves t) key ->
  spec_root (leaves (tree_set key v t)) =
  climb (keyIndex64 key) (leafHash key v) (tree_siblings (leaves t) key).
Proof.
  intros Hwf Hif Hkf. rewrite (spec_root_climb _ key), tree_siblings_set by assumption.
  rewrite leaf_of_key; [| by apply tree_wf_set | by apply index_free_set | by apply key_free_set].
  rewrite tree_get_set, decide_True by trivial. reflexivity.
Qed.

Lemma digests_spec_siblings `{!Sha256Ok} f h n i :
  (forall j, length (f j) = 32%nat) -> digests (spec_siblings f h n i).
Proof.
  intros Hf. revert h i. induction n as [|n IH]; intros h i; constructor; [by apply length_node | apply IH].
Qed.

Lemma digests_tree_siblings `{!Sha256Ok} ls key : digests (tree_siblings ls key).
Proof. apply digests_spec_siblings. intros j. apply length_leaf_of. Qed.

Lemma length_spec_root `{!Sha256Ok} ls : length (spec_root ls) = 32%nat.
Proof. apply length_node. intros j. apply length_leaf_of. Qed.

Lemma compute_root_tree `{!Sha256Ok} ls key leaf :
  length leaf = 32%nat ->
  compute_root (utf8 key) leaf (tree_siblings ls key) =
  Some (climb (keyIndex64 key) leaf (tree_siblings ls key)).
Proof.
  intros Hl. apply compute_root_climb. split_and!; [done | apply digests_tree_siblings | | done].
  apply length_spec_siblings.
Qed.

(** The validator accepts the Gateway's witness and computes the Gateway's root. *)
Lemma apply_update_tree `{!Sha256Std} key v t :
  tree_wf t -> index_free (leaves t) -> key_free (leaves t) key ->
  value_ok (default [] (tree_get key t)) -> value_ok v ->
  apply_update (spec_root (leaves t)) (utf8 key) (default [] (tree_get key t)) v
    (tree_siblings (leaves t) key) = Some (spec_root (leaves (tree_set key v t))).
Proof.
  intros Hwf Hif Hkf Hold Hnew. unfold apply_update.
  rewrite decide_True by apply length_spec_root.
  rewrite !ak_leaf_hash_spec by done. cbn [mbind option_bind].
  rewrite !compute_root_tree by apply length_leafHash. cbn [mbind option_bind].
  rewrite decide_True; [by rewrite spec_root_set|].
  by rewrite (spec_root_climb (leaves t) key), leaf_of_key.
Qed.

(** ** Soundness: accepted witnesses are the tree's

    SHA-256 cannot be injective; what the protocol relies on is that the inputs
    it actually hashes do not collide (and do not hash to the reserved all-zero
    digest).  [binding Q] says so for a finite list of inputs. *)

Definition binding (Q : list bytes) : Prop :=
  Forall (fun x => sha256 x <> EMPTY_HASH /\ Forall (fun y => sha256 x = sha256 y -> x = y) Q) Q.

Lemma binding_inj Q x y : binding Q -> x ∈ Q -> y ∈ Q -> sha256 x = sha256 y -> x = y.
Proof.
  unfold binding. rewrite Forall_forall. intros HQ Hx Hy. destruct (HQ x Hx) as [_ Hxy].
  rewrite Forall_forall in Hxy. by apply Hxy.
Qed.

Lemma binding_nz Q x : binding Q -> x ∈ Q -> sha256 x <> EMPTY_HASH.
Proof. unfold binding. rewrite Forall_forall. intros HQ Hx. by destruct (HQ x Hx). Qed.

Lemma binding_sub Q Q' : (forall x, x ∈ Q' -> x ∈ Q) -> binding Q -> binding Q'.
Proof.
  intros Hsub HQ. unfold binding. rewrite Forall_forall. intros x Hx. split.
  - by apply (binding_nz Q); auto.
  - rewrite Forall_forall. intros y Hy. apply (binding_inj Q); auto.
Qed.

Definition inner_query (l r : bytes) : bytes := [x01] ++ l ++ r.
Definition leaf_query (key : string) (v : bytes) : bytes := [x00] ++ keyHash key ++ sha256 v.

(** The inputs hashed while climbing. *)
Fixpoint climb_queries (i : N) (cur : bytes) (sibs : list bytes) : list bytes :=
  match sibs with
  | [] => []
  | s :: rest =>
      let l := if N.even i then cur else s in
      let r := if N.even i then s else cur in
      inner_query l r :: climb_queries (N.div2 i) (innerHash l r) rest
  end.

(** The inputs hashed to check value [v] under [key] with witness [sibs]. *)
Definition witness_queries (key : string) (v : bytes) (sibs : list bytes) : list bytes :=
  v :: leaf_query key v :: climb_queries (keyIndex64 key) (leafHash key v) sibs.

Lemma innerHash_inj Q l r l' r' :
  binding Q -> inner_query l r ∈ Q -> inner_query l' r' ∈ Q -> length l = length l' ->
  innerHash l r = innerHash l' r' -> l = l' /\ r = r'.
Proof.
  intros HQ Hq Hq' Hlen. unfold innerHash.
  change ([x01] ++ l ++ r) with (inner_query l r). change ([x01] ++ l' ++ r') with (inner_query l' r').
  case_decide as H1; case_decide as H2.
  - intros _. destruct H1, H2. by subst.
  - intros E. by destruct (binding_nz _ _ HQ Hq').
  - intros E. by destruct (binding_nz _ _ HQ Hq).
  - intros E%(binding_inj Q); [|done..]. injection E as E. by apply app_inj_length_l.
Qed.

Lemma leafHash_inj Q key v v' :
  binding Q -> v ∈ Q -> v' ∈ Q -> leaf_query key v ∈ Q -> leaf_query key v' ∈ Q ->
  leafHash key v = leafHash key v' -> v = v'.
Proof.
  intros HQ Hv Hv' Hq Hq'. unfold leafHash.
  change ([x00] ++ keyHash key ++ sha256 ?x) with (leaf_query key x).
  case_decide as H1; case_decide as H2; subst; [done| | |].
  - intros E. by destruct (binding_nz _ _ HQ Hq').
  - intros E. by destruct (binding_nz _ _ HQ Hq).
  - intros E%(binding_inj Q); [|done..]. apply (binding_inj Q); [done..|].
    unfold leaf_query in E. by simplify_list_eq.
Qed.

Lemma climb_inj `{!Sha256Ok} Q i cur cur' sibs sibs' :
  binding Q ->
  (forall x, x ∈ climb_queries i cur sibs -> x ∈ Q) ->
  (forall x, x ∈ climb_queries i cur' sibs' -> x ∈ Q) ->
  digests sibs -> digests sibs' -> length cur = 32%nat -> length cur' = 32%nat ->
  length sibs = length sibs' -> climb i cur sibs = climb i cur' sibs' -> cur = cur' /\ sibs = sibs'.
Proof.
  intros HQ. revert i cur cur' sibs'.
  induction sibs as [|s sibs IH]; intros i cur cur' [|s' sibs'] Hs Hs' Hd Hd' Hc Hc' Hl; try done.
  cbn [climb climb_queries] in *. inversion Hd as [|? ? Hls Hd1]; inversion Hd' as [|? ? Hls' Hd1'].
  assert (forall (x y : bytes), (if N.even i then innerHash x y else innerHash y x) =
    innerHash (if N.even i then x else y) (if N.even i then y else x)) as Hsw
    by (intros; by destruct (N.even i)).
  rewrite !Hsw. intros Hclimb.
  destruct (IH _ _ _ sibs' ltac:(intros ??; apply Hs; by right) ltac:(intros ??; apply Hs'; by right)
    Hd1 Hd1' (length_innerHash _ _) (length_innerHash _ _) ltac:(cbn in Hl; lia) Hclimb) as [E ->].
  apply (innerHash_inj Q) in E as [E1 E2];
    [|done | apply Hs; left | apply Hs'; left | destruct (N.even i); congruence].
  destruct (N.even i); by subst.
Qed.

(** Whatever old value and witness the validator accepts for [key] are the
    tree's, and the root it computes is the root of the updated tree. *)
Lemma apply_update_tree_inv `{!Sha256Std} t key old new sibs r' :
  tree_wf t -> index_free (leaves t) -> key_free (leaves t) key ->
  value_ok (default [] (tree_get key t)) -> value_ok old -> value_ok new ->
  binding (witness_queries key old sibs ++
           witness_queries key (default [] (tree_get key t)) (tree_siblings (leaves t) key)) ->
  apply_update (spec_root (leaves t)) (utf8 key) old new sibs = Some r' ->
  old = default [] (tree_get key t) /\ sibs = tree_siblings (leaves t) key /\
  r' = spec_root (leaves (tree_set key new t)).
Proof.
  intros Hwf Hif Hkf Hcur Hold Hnew HQ Hup.
  enough (old = default [] (tree_get key t) /\ sibs = tree_siblings (leaves t) key) as [-> ->].
  { split_and!; [reflexivity..|]. rewrite apply_update_tree in Hup by assumption. congruence. }
  revert Hup. unfold apply_update. case_decide; [|done]. rewrite !ak_leaf_hash_spec by assumption.
  cbn [mbind option_bind]. destruct (compute_root _ (leafHash key old) sibs) as [r|] eqn:Er;
    cbn [mbind option_bind]; [|intros [=]].
  case_decide as Hr; [|intros [=]]. intros _.
  apply compute_root_climb in Er as (_ & Hd & Hl & ->).
  rewrite (spec_root_climb _ key), leaf_of_key in Hr by assumption.
  eapply climb_inj in Hr as [Hleaf ->]; [| exact HQ | | | exact Hd | apply digests_tree_siblings |
    apply length_leafHash | apply length_leafHash | by rewrite Hl; symmetry; apply length_spec_siblings ].
  - split; [|reflexivity]. eapply leafHash_inj; [exact HQ |..| exact Hleaf]; unfold witness_queries; rewrite elem_of_app, !elem_of_cons; auto.
  - intros x Hx. apply elem_of_app. left. by do 2 right.
  - intros x Hx. apply elem_of_app. right. by do 2 right.
Qed.

(** A witness under which two values of a key give the same root shows them equal. *)
Lemma apply_update_fixed `{!Sha256Std} key old new sibs root :
  value_ok old -> value_ok new -> binding (witness_queries key old sibs ++ witness_queries key new sibs) ->
  apply_update root (utf8 key) old new sibs = Some root -> old = new.
Proof.
  intros Hold Hnew HQ. unfold apply_update. case_decide; [|done]. rewrite !ak_leaf_hash_spec by assumption. cbn [mbind option_bind].
  destruct (compute_root _ (leafHash key old) sibs) as [r|] eqn:Er; cbn [mbind option_bind]; [|done].
  case_decide as Hr; [|done]. intros En. apply compute_root_climb in Er as (_ & Hd & _ & ->). apply compute_root_climb in En as (_ & _ & _ & E).
  rewrite <- Hr in E. eapply climb_inj in E as [E _]; [|exact HQ| | |exact Hd|exact Hd|apply length_leafHash|apply length_leafHash|done].
  - eapply leafHash_inj; [exact HQ|..|exact E]; unfold witness_queries; rewrite elem_of_app, !elem_of_cons; auto.
  - intros x Hx. apply elem_of_app. left. by do 2 right.
  - intros x Hx. apply elem_of_app. right. by do 2 right.
Qed.

End onchain.
