(* ===== verification/MerkleProofs.v ===== *)
(** * Membership proofs

    [verifyProof] takes its directions from the proof itself, not from the key.
    Completeness: every proof the tree generates verifies.  Soundness: a proof of
    a non-empty value that verifies — whatever its path looks like — shows that
    the tree maps the key to that value, as long as SHA-256 does not collide on
    the inputs hashed by the tree and by the proof. *)

From S2P Require Import Prelude JsMap Hex MerkleTree MerkleSpec MerkleRefine OnChainCommitment.

Section proofs.
Context `{SHA : Sha256}.

(** ** Completeness *)

Lemma verify_path_climb i cur sibs :
  Forall (fun s => s <> []) sibs -> fold_left verify_step (path_of i sibs) cur = climb i cur sibs.
Proof.
  intros Hs. revert i cur. induction Hs as [|s sibs Hne _ IH]; intros i cur; [done|].
  cbn [path_of fold_left climb]. rewrite land_1_even, shiftr_1, IH.
  unfold verify_step. destruct (N.even i); cbn [op_suffix op_prefix].
  - by rewrite decide_True.
  - by rewrite decide_False by auto.
Qed.

Lemma tree_siblings_nonempty `{!Sha256Ok} ls key : Forall (fun s => s <> []) (tree_siblings ls key).
Proof.
  eapply Forall_impl; [apply digests_tree_siblings|]. intros s Hs ->. cbn in Hs. lia.
Qed.

(** Verifying a path generated for [key] with claimed value [v]. *)
Lemma verifyProof_generated `{!Sha256Ok} t key v :
  tree_wf t -> index_free (leaves t) -> utf8_decode (utf8 key) = key ->
  exists t', verifyProof (ExistenceProof (utf8 key) v default_leaf_op
      (path_of (keyIndex64 key) (tree_siblings (leaves t) key))) t =
    (Ok (bool_decide (climb (keyIndex64 key) (leafHash key v) (tree_siblings (leaves t) key)
                      = spec_root (leaves t))), t') /\
    leaves t' = leaves t /\ tree_wf t'.
Proof.
  intros Hwf Hif Htext. destruct (ensureRebuilt_spec t Hwf Hif) as (t' & ns & Hr & Hl & Hwf' & Hs).
  exists t'. split_and!; [|assumption..]. unfold verifyProof, mbind, M_bind, gets. rewrite Hr.
  cbn [ep_key ep_value ep_path]. rewrite Htext, verify_path_climb by apply tree_siblings_nonempty.
  destruct Hs as (_ & _ & -> & _). by rewrite Hl.
Qed.

(** ** Soundness *)

(** The hash inputs of a proof: its key, value, leaf and inner nodes. *)
Definition op_left (cur : bytes) (op : ICS23InnerOp) : bytes :=
  if decide (op_suffix op <> []) then cur else drop 1 (op_prefix op).
Definition op_right (cur : bytes) (op : ICS23InnerOp) : bytes :=
  if decide (op_suffix op <> []) then op_suffix op else cur.

Lemma verify_step_inner cur op : verify_step cur op = innerHash (op_left cur op) (op_right cur op).
Proof. unfold verify_step, op_left, op_right. by case_decide. Qed.

Fixpoint path_queries (cur : bytes) (path : list ICS23InnerOp) : list bytes :=
  match path with
  | [] => []
  | op :: rest =>
      inner_query (op_left cur op) (op_right cur op) :: path_queries (verify_step cur op) rest
  end.

Definition proof_queries (p : ICS23ExistenceProof) : list bytes :=
  let key := utf8_decode (ep_key p) in
  utf8 key :: ep_value p :: leaf_query key (ep_value p)
    :: path_queries (leafHash key (ep_value p)) (ep_path p).

(** The hash inputs of a rebuilt tree: leaves, and the parents of each level. *)
Definition level_queries (child parent : level) : list bytes :=
  map (fun i => inner_query (node_at child (2 * i)) (node_at child (2 * i + 1))) (map_keys parent).

Definition tree_queries (t : ICS23MerkleTree) : list bytes :=
  (leaves t ≫= fun kv => [utf8 kv.1; kv.2; leaf_query kv.1 kv.2]) ++
  (seq 0 MERKLE_DEPTH_BITS ≫= fun h =>
     let ns := default [] (nodesByHeight t) in level_queries (level_at ns h) (level_at ns (S h))).

Lemma path_queries_snoc cur path op :
  path_queries cur (path ++ [op]) =
  path_queries cur path ++
    [inner_query (op_left (fold_left verify_step path cur) op)
                 (op_right (fold_left verify_step path cur) op)].
Proof. revert cur. induction path as [|o path IH]; intros cur; cbn; [done|]. by rewrite IH. Qed.

Lemma innerHash_zero Q l r :
  binding Q -> inner_query l r ∈ Q -> innerHash l r = EMPTY_HASH -> l = EMPTY_HASH /\ r = EMPTY_HASH.
Proof.
  intros HQ Hq. unfold innerHash. case_decide; [done|]. intros E. by destruct (binding_nz _ _ HQ Hq).
Qed.

(** A path that ends in the empty hash started from it. *)
Lemma path_zero Q cur path :
  binding Q -> (forall x, x ∈ path_queries cur path -> x ∈ Q) ->
  fold_left verify_step path cur = EMPTY_HASH -> cur = EMPTY_HASH.
Proof.
  intros HQ. induction path as [|op path IH] using rev_ind; intros Hin; [done|].
  rewrite path_queries_snoc in Hin. rewrite fold_left_app. cbn [fold_left].
  rewrite verify_step_inner. intros [Hl Hr]%(innerHash_zero Q); [|done|].
  - apply IH; [intros x Hx; apply Hin, elem_of_app; by left|].
    unfold op_left, op_right in Hl, Hr. by case_decide.
  - apply Hin, elem_of_app. right. left.
Qed.

(** Leaves and inner nodes are hashed in separate domains. *)
Lemma leaf_inner_disjoint Q key v l r :
  binding Q -> v <> [] -> leaf_query key v ∈ Q ->
  (innerHash l r <> EMPTY_HASH -> inner_query l r ∈ Q) -> leafHash key v <> innerHash l r.
Proof.
  intros HQ Hv Hq Hi. unfold leafHash. rewrite decide_False by done.
  change ([x00] ++ keyHash key ++ sha256 v) with (leaf_query key v). intros E.
  assert (innerHash l r <> EMPTY_HASH) as Hnz by (rewrite <- E; by apply (binding_nz Q)).
  specialize (Hi Hnz). revert E Hnz. unfold innerHash. case_decide; [done|]. intros E _.
  by apply (binding_inj Q) in E.
Qed.

Section sound.
Context `{!Sha256Ok} (Q : list bytes) (HQ : binding Q) (ls : jsmap string bytes).
Context (key : string) (v : bytes) (Hv : v <> []).
Hypothesis Hkey_q : utf8 key ∈ Q.
Hypothesis Hv_q : v ∈ Q.
Hypothesis Hleaf_q : leaf_query key v ∈ Q.
Hypothesis Hleaves_q : forall k w, (k, w) ∈ ls ->
  utf8 k ∈ Q /\ w ∈ Q /\ leaf_query k w ∈ Q /\ w <> [].
Hypothesis Hinner_q : forall h i, (h < MERKLE_DEPTH_BITS)%nat -> node (leaf_of ls) (S h) i <> EMPTY_HASH ->
  inner_query (node (leaf_of ls) h (2 * i)) (node (leaf_of ls) h (2 * i + 1)) ∈ Q.

Lemma leafHash_nz : leafHash key v <> EMPTY_HASH.
Proof. unfold leafHash. rewrite decide_False by done. by apply (binding_nz Q). Qed.

Lemma leaf_found i : leafHash key v = leaf_of ls i -> (key, v) ∈ ls.
Proof.
  unfold leaf_of. destruct (list_find _ ls) as [[n [k w]]|] eqn:E.
  2: { intros E'. by destruct leafHash_nz. }
  apply list_find_Some in E as (Hn%list_elem_of_lookup_2 & _ & _).
  destruct (Hleaves_q _ _ Hn) as (Hk & Hw & Hl & Hne).
  unfold leafHash. rewrite !decide_False by done.
  change ([x00] ++ keyHash ?a ++ sha256 ?b) with (leaf_query a b).
  intros E%(binding_inj Q); [|done..]. unfold leaf_query in E. injection E as E.
  unfold keyHash in E. apply app_inj_length_l in E as [Ek Ew]; [|by rewrite !sha256_length].
  apply (binding_inj Q) in Ek; [|done..]. apply (binding_inj Q) in Ew; [|done..].
  apply utf8_inj in Ek. by subst.
Qed.

Lemma path_reaches_leaf path top i :
  (top <= MERKLE_DEPTH_BITS)%nat ->
  (forall x, x ∈ path_queries (leafHash key v) path -> x ∈ Q) ->
  fold_left verify_step path (leafHash key v) = node (leaf_of ls) top i -> (key, v) ∈ ls.
Proof.
  revert top i. induction path as [|op path IH] using rev_ind; intros top i HH Hin E.
  - cbn [fold_left] in E. destruct top as [|h]; [by apply leaf_found in E|].
    exfalso. cbn [node] in E. revert E.
    apply (leaf_inner_disjoint Q); [done..|]. intros Hnz. apply Hinner_q; [lia | exact Hnz].
  - rewrite path_queries_snoc in Hin. rewrite fold_left_app in E. cbn [fold_left] in E.
    rewrite verify_step_inner in E.
    assert (forall x, x ∈ path_queries (leafHash key v) path -> x ∈ Q) as Hin'
      by (intros x Hx; apply Hin, elem_of_app; by left).
    assert (fold_left verify_step path (leafHash key v) <> EMPTY_HASH) as Hnz
      by (intros Ez; by apply leafHash_nz, (path_zero Q _ path)).
    set (cur := fold_left verify_step path (leafHash key v)) in *.
    assert (inner_query (op_left cur op) (op_right cur op) ∈ Q) as Hq
      by (apply Hin, elem_of_app; right; left).
    assert (innerHash (op_left cur op) (op_right cur op) <> EMPTY_HASH) as Hnz'.
    { intros [Hl Hr]%(innerHash_zero Q); [|done..]. unfold op_left, op_right in Hl, Hr. by case_decide. }
    destruct top as [|h].
    + exfalso. cbn [node] in E. unfold leaf_of in E.
      destruct (list_find _ ls) as [[n [k w]]|] eqn:Ef; [|done].
      apply list_find_Some in Ef as (Hn%list_elem_of_lookup_2 & _ & _).
      destruct (Hleaves_q _ _ Hn) as (Hk & Hw & Hl & Hne). symmetry in E. revert E.
      by apply (leaf_inner_disjoint Q).
    + assert (inner_query (node (leaf_of ls) h (2 * i)) (node (leaf_of ls) h (2 * i + 1)) ∈ Q) as Hq'
        by (apply Hinner_q; [lia | by rewrite <- E]).
      cbn [node] in E. unfold innerHash in E. cbn in Hnz'.
      assert (op_left cur op ++ op_right cur op =
              node (leaf_of ls) h (2 * i) ++ node (leaf_of ls) h (2 * i + 1)) as Hcat.
      { unfold innerHash in Hnz'. case_decide; [done|].
        destruct (decide (_ /\ _)) in E; [by destruct (binding_nz _ _ HQ Hq)|].
        apply (binding_inj Q) in E; [|done..]. by injection E. }
      assert (length cur = 32%nat) as Hcur.
      { unfold cur. destruct path as [|o path'] using rev_ind; [apply length_leafHash|].
        rewrite fold_left_app. cbn [fold_left]. rewrite verify_step_inner. apply length_innerHash. }
      unfold op_left, op_right in Hcat. case_decide.
      * apply app_inj_length_l in Hcat as [Hc _];
          [|rewrite Hcur; symmetry; apply length_node; intros; apply length_leaf_of].
        by apply (IH h (2 * i)%N); [lia | |].
      * apply app_inj_length_r in Hcat as [_ Hc];
          [|rewrite Hcur; symmetry; apply length_node; intros; apply length_leaf_of].
        by apply (IH h (2 * i + 1)%N); [lia | |].
Qed.

End sound.

(** The queries of a rebuilt tree cover its leaves and its non-empty nodes. *)
Lemma tree_queries_leaf t k w :
  (k, w) ∈ leaves t -> utf8 k ∈ tree_queries t /\ w ∈ tree_queries t /\ leaf_query k w ∈ tree_queries t.
Proof.
  intros Hin. assert (forall x, x ∈ [utf8 k; w; leaf_query k w] -> x ∈ tree_queries t) as Hx.
  { intros x Hx. apply elem_of_app. left. apply list_elem_of_bind. by exists (k, w). }
  split_and!; apply Hx; rewrite !elem_of_cons; auto.
Qed.

Lemma tree_queries_inner t ns h i :
  tree_synced t ns -> (h < MERKLE_DEPTH_BITS)%nat -> node (leaf_of (leaves t)) (S h) i <> EMPTY_HASH ->
  inner_query (node (leaf_of (leaves t)) h (2 * i)) (node (leaf_of (leaves t)) h (2 * i + 1))
    ∈ tree_queries t.
Proof.
  intros (Hns & _ & _ & Hat) Hh Hnz. apply elem_of_app. right. apply list_elem_of_bind. exists h.
  split; [|apply elem_of_seq; lia]. rewrite Hns. cbn [default]. apply list_elem_of_fmap. exists i.
  split; [by rewrite !Hat by lia|]. rewrite <- Hat in Hnz by lia. unfold node_at in Hnz.
  destruct (map_get (level_at ns (S h)) i) eqn:E; [|done]. apply map_get_is_Some. by eauto.
Qed.

Lemma verifyProof_true t p t' :
  verifyProof p t = (Ok true, t') ->
  ensureRebuilt t = (Ok tt, t') /\
  fold_left verify_step (ep_path p) (leafHash (utf8_decode (ep_key p)) (ep_value p)) = root t'.
Proof.
  unfold verifyProof, mbind, M_bind, gets. destruct (ensureRebuilt t) as [[[]|e] t1]; intros E; [|done].
  injection E as E <-. apply bool_decide_eq_true in E. done.
Qed.

(** C31 (safety): [verifyProof] is sound for membership although it takes its
    left/right directions and its depth from the proof: if any proof object of a
    non-empty value verifies, the tree stores exactly that value under that key,
    unless SHA-256 collides on the inputs hashed by the proof and the tree. *)
Theorem verifyProof_sound `{!Sha256Ok} t p t' :
  tree_wf t -> index_free (leaves t) -> verifyProof p t = (Ok true, t') -> ep_value p <> [] ->
  binding (proof_queries p ++ tree_queries t') ->
  tree_get (utf8_decode (ep_key p)) t = Some (ep_value p).
Proof.
  intros Hwf Hif (Hr & Hfold)%verifyProof_true Hv HQ.
  destruct (ensureRebuilt_spec t Hwf Hif) as (t1 & ns & Hr' & Hl & Hwf' & Hs).
  rewrite Hr in Hr'. injection Hr' as <-.
  apply map_In_get; [apply Hwf|]. rewrite <- Hl.
  assert (forall x, x ∈ proof_queries p -> x ∈ proof_queries p ++ tree_queries t') as Hp
    by (intros; apply elem_of_app; by left).
  pose proof Hs as (_ & _ & Hroot & _). unfold spec_root in Hroot. rewrite Hroot in Hfold.
  eapply path_reaches_leaf; [exact HQ | exact Hv | | | | | | apply le_n | | exact Hfold].
  - apply Hp. left.
  - apply Hp. right. left.
  - apply Hp. do 2 right. left.
  - intros k w Hin. destruct (tree_queries_leaf _ _ _ Hin) as (? & ? & ?).
    split_and!; try (apply elem_of_app; by right).
    pose proof (wf_values _ Hwf') as Hvs. rewrite Forall_forall in Hvs. by apply (Hvs (k, w)).
  - intros h i Hh Hnz. apply elem_of_app. right. by eapply tree_queries_inner.
  - intros x Hx. apply Hp. by do 3 right.
Qed.

End proofs.
