(* ===== verification/ToyHash.v ===== *)
(** * A concrete digest for the witnesses

    The theorems are stated for every function that satisfies the SHA-256
    interface.  [toy_digest] is a small function with the documented digest
    length and empty digest, cheap enough to evaluate; the witnesses instantiate
    the interface with it. *)

From S2P Require Import Prelude JsMap Hex MerkleTree MerkleSpec MerkleRefine OnChainCommitment.

Definition toy_fold (b : bytes) : N :=
  fold_left (fun acc x => N.land (33 * acc + Byte.to_N x + 1) 0xffffffffffffffff)%N b 5381%N.

Definition toy_digest (b : bytes) : bytes :=
  match b with
  | [] => empty_value_hash
  | _ => be_of_N 8 (toy_fold b) ++ replicate 24 x01
  end.

#[export] Instance toy_sha256 : Sha256 | 10 := toy_digest.

#[export] Instance toy_sha256_ok : Sha256Ok (SHA := toy_sha256).
Proof.
  constructor. intros [|x b]; [reflexivity|]. unfold sha256, toy_sha256, toy_digest.
  rewrite length_app, length_be_of_N. reflexivity.
Qed.

#[export] Instance toy_sha256_std : Sha256Std (SHA := toy_sha256).
Proof. constructor; [exact toy_sha256_ok | reflexivity]. Qed.

(** A small tree used by the witnesses. *)
Definition toy_tree : ICS23MerkleTree :=
  tree_set "ports/transfer" [x02] (tree_set "clients/07-tendermint-0/clientState" [x01] new_tree).

Lemma toy_tree_wf : tree_wf toy_tree.
Proof. unfold toy_tree. auto with gateway. Qed.

(** [index_free] and [key_free] of a concrete tree are decided by evaluation. *)
Definition index_freeb `{Sha256} (ls : jsmap string bytes) : bool :=
  bool_decide (NoDup (keyIndex64 <$> map_keys ls)).

Lemma index_freeb_ok `{Sha256} ls : index_freeb ls = true -> index_free ls.
Proof. by intros ?%bool_decide_eq_true. Qed.

Definition key_freeb `{Sha256} (ls : jsmap string bytes) (key : string) : bool :=
  forallb (fun k => negb (N.eqb (keyIndex64 k) (keyIndex64 key)) || bool_decide (k = key)) (map_keys ls).

Lemma key_freeb_ok `{Sha256} ls key : key_freeb ls key = true -> key_free ls key.
Proof.
  unfold key_freeb. rewrite forallb_forall. intros Hall k Hk Heq.
  specialize (Hall k (proj1 (list_elem_of_In _ _) Hk)). rewrite Heq, N.eqb_refl in Hall.
  by apply bool_decide_eq_true in Hall.
Qed.

Definition bindingb `{Sha256} (Q : list bytes) : bool :=
  let digests := map (fun x => (x, sha256 x)) Q in
  forallb (fun xd => negb (bool_decide (xd.2 = EMPTY_HASH)) &&
    forallb (fun ye => negb (bool_decide (xd.2 = ye.2)) || bool_decide (xd.1 = ye.1)) digests) digests.

Lemma bindingb_ok `{Sha256} Q : bindingb Q = true -> binding Q.
Proof.
  unfold bindingb, binding. rewrite forallb_forall, Forall_forall. intros Hall x Hx.
  specialize (Hall (x, sha256 x) (proj1 (list_elem_of_In _ _) (list_elem_of_fmap_2 _ _ _ Hx))).
  apply andb_true_iff in Hall as [Hz%negb_true_iff%bool_decide_eq_false Hall].
  rewrite forallb_forall in Hall. split; [done|]. rewrite Forall_forall. intros y Hy E.
  specialize (Hall (y, sha256 y) (proj1 (list_elem_of_In _ _) (list_elem_of_fmap_2 _ _ _ Hy))).
  cbn in Hall. apply orb_true_iff in Hall as [Hne%negb_true_iff%bool_decide_eq_false|Heq%bool_decide_eq_true];
    done.
Qed.
