(* ===== verification/MerkleTheorems.v ===== *)
(** * Properties of the commitment tree and of the validator's replay

    The statements are about the operations of [MerkleTree] as the Gateway calls
    them (with their cache and their exceptions) and about the validator's
    [apply_update]; the proofs combine the refinement lemmas of [MerkleRefine],
    [OnChainCommitment] and [MerkleProofs].  Each property with a hypothesis is
    followed by a witness that evaluates it with [toy_digest]. *)

From S2P Require Import Prelude JsMap Hex MerkleTree MerkleSpec MerkleRefine OnChainCommitment MerkleProofs ToyHash.

(** ** Histories of operations *)

Inductive tree_op :=
| OpSet (key : string) (value : bytes)
| OpDelete (key : string)
| OpClone
| OpGetRoot
| OpGetSiblings (key : string).

Section histories.
Context `{SHA : Sha256}.

Definition run_op (t : ICS23MerkleTree) (op : tree_op) : ICS23MerkleTree :=
  match op with
  | OpSet k v => tree_set k v t
  | OpDelete k => tree_delete k t
  | OpClone => clone t
  | OpGetRoot => (getRoot t).2
  | OpGetSiblings k => (getSiblings k t).2
  end.

(** The abstract store: the empty value stands for absence. *)
Definition spec_op (s : string -> bytes) (op : tree_op) : string -> bytes :=
  match op with
  | OpSet k v => fun k' => if decide (k = k') then v else s k'
  | OpDelete k => fun k' => if decide (k = k') then [] else s k'
  | _ => s
  end.

Definition tree_value (t : ICS23MerkleTree) (k : string) : bytes := default [] (tree_get k t).

Lemma ensure_then_state {A} (f : ICS23MerkleTree -> A) t :
  ((ensureRebuilt ;; gets f) t).2 = (ensureRebuilt t).2.
Proof. unfold mbind, M_bind, gets. by destruct (ensureRebuilt t) as [[[]|] ?]. Qed.

Lemma ensureRebuilt_state t :
  tree_wf t -> tree_wf (ensureRebuilt t).2 /\ leaves (ensureRebuilt t).2 = leaves t.
Proof.
  intros Hwf. destruct (ensureRebuilt t) as [r t'] eqn:E. cbn. split.
  - by eapply ensureRebuilt_wf.
  - by eapply ensureRebuilt_leaves.
Qed.

Lemma run_op_spec t op :
  tree_wf t -> tree_wf (run_op t op) /\ forall k, tree_value (run_op t op) k = spec_op (tree_value t) op k.
Proof.
  intros Hwf. destruct op; cbn [run_op spec_op]; unfold getRoot, getSiblings; rewrite ?ensure_then_state.
  - split; [by apply tree_wf_set|]. intros k. by apply tree_get_set.
  - split; [by apply tree_wf_delete|]. intros k. unfold tree_value, tree_get, tree_delete, set_leaves.
    cbn [leaves]. rewrite map_get_delete by apply Hwf. by case_decide.
  - split; [by apply tree_wf_clone|]. intros k. unfold tree_value, tree_get.
    by rewrite clone_leaves by apply Hwf.
  - destruct (ensureRebuilt_state t Hwf) as [Hwf' Hl]. split; [done|]. intros k.
    unfold tree_value, tree_get. by rewrite Hl.
  - destruct (ensureRebuilt_state t Hwf) as [Hwf' Hl]. split; [done|]. intros k.
    unfold tree_value, tree_get. by rewrite Hl.
Qed.

Lemma spec_op_ext s s' op : (forall k, s k = s' k) -> forall k, spec_op s op k = spec_op s' op k.
Proof. intros H k. destruct op; cbn; try case_decide; done. Qed.

Lemma spec_ops_ext ops s s' :
  (forall k, s k = s' k) -> forall k, fold_left spec_op ops s k = fold_left spec_op ops s' k.
Proof.
  revert s s'. induction ops as [|op ops IH]; intros s s' Hs; cbn; [done|].
  apply IH. by apply spec_op_ext.
Qed.

Lemma run_ops_spec ops t :
  tree_wf t -> tree_wf (fold_left run_op ops t) /\
  forall k, tree_value (fold_left run_op ops t) k = fold_left spec_op ops (tree_value t) k.
Proof.
  revert t. induction ops as [|op ops IH]; intros t Hwf; cbn; [done|].
  destruct (run_op_spec t op Hwf) as [Hwf' Hv]. destruct (IH _ Hwf') as [Hwf'' Hv'].
  split; [done|]. intros k. rewrite Hv'. by apply spec_ops_ext.
Qed.

(** ** Equal contents, equal roots *)

Lemma tree_value_get t k v : tree_wf t -> v <> [] -> tree_value t k = v -> tree_get k t = Some v.
Proof. unfold tree_value. destruct (tree_get k t); cbn; intros; congruence. Qed.

Lemma tree_value_keys t k : tree_wf t -> k ∈ map_keys (leaves t) <-> tree_value t k <> [].
Proof.
  intros Hwf. rewrite <- map_get_is_Some. change (map_get (leaves t) k) with (tree_get k t).
  unfold tree_value. destruct (tree_get k t) eqn:E; cbn.
  - split; [intros _; by eapply wf_value | by eauto].
  - split; [by intros [? ?] | done].
Qed.

Lemma same_values_index_free t1 t2 :
  tree_wf t1 -> tree_wf t2 -> (forall k, tree_value t1 k = tree_value t2 k) ->
  index_free (leaves t1) -> index_free (leaves t2).
Proof.
  intros Hwf1 Hwf2 Hv Hif. apply index_free_intro; [apply Hwf2|]. intros k k' Hk Hk'.
  apply (index_free_inj (leaves t1)); [done|..]; rewrite tree_value_keys, Hv by done;
    by apply tree_value_keys.
Qed.

Lemma same_values_leaf t1 t2 i :
  tree_wf t1 -> tree_wf t2 -> (forall k, tree_value t1 k = tree_value t2 k) ->
  index_free (leaves t1) -> leaf_of (leaves t1) i = leaf_of (leaves t2) i.
Proof.
  intros Hwf1 Hwf2 Hv Hif1. pose proof (same_values_index_free _ _ Hwf1 Hwf2 Hv Hif1) as Hif2.
  assert (forall k, k ∈ map_keys (leaves t1) <-> k ∈ map_keys (leaves t2)) as Hkeys
    by (intros k; by rewrite !tree_value_keys, Hv by done).
  destruct (list_find (fun k => keyIndex64 k = i) (map_keys (leaves t1))) as [[n k]|] eqn:E.
  - apply list_find_Some in E as (Hk%list_elem_of_lookup_2 & <- & _).
    rewrite !leaf_of_key; [by fold (tree_value t1 k) (tree_value t2 k); rewrite Hv | try done..];
      intros k' Hk' Heq; [apply (index_free_inj (leaves t2)) | apply (index_free_inj (leaves t1))];
      try done; by apply Hkeys.
  - apply list_find_None in E. rewrite Forall_forall in E.
    rewrite !leaf_of_absent; [done|..]; intros k Hk; apply E; [by apply Hkeys | done].
Qed.

Lemma same_values_root t1 t2 :
  tree_wf t1 -> tree_wf t2 -> (forall k, tree_value t1 k = tree_value t2 k) ->
  index_free (leaves t1) -> spec_root (leaves t1) = spec_root (leaves t2).
Proof. intros. unfold spec_root. apply node_ext. intros i. by apply same_values_leaf. Qed.

End histories.

(** ** Properties *)

Section properties.
Context `{SHA : Sha256}.

(** After any history of writes, deletions, clones and cached
    reads, the object satisfies its representation invariant and holds exactly
    the abstract store obtained by replaying the writes, with the empty value as
    absence.  In particular reads (which fill the cache) never change contents. *)
Lemma tree_history_refines_store ops :
  tree_wf (fold_left run_op ops new_tree) /\
  forall k, tree_value (fold_left run_op ops new_tree) k = fold_left spec_op ops (fun _ => []) k.
Proof.
  destruct (run_ops_spec ops new_tree tree_wf_new) as [Hwf Hv]. split; [done|].
  intros k. rewrite Hv. by apply spec_ops_ext.
Qed.

(** Roots are deterministic.  Two histories, however ordered
    and however interleaved with cached reads, that produce the same key/value
    contents produce the same root, and neither call throws when the 64-bit
    indices of the stored keys are distinct. *)
Lemma getRoot_deterministic ops1 ops2 :
  (forall k, fold_left spec_op ops1 (fun _ => []) k = fold_left spec_op ops2 (fun _ => []) k) ->
  index_free (leaves (fold_left run_op ops1 new_tree)) ->
  exists r, (getRoot (fold_left run_op ops1 new_tree)).1 = Ok r /\
            (getRoot (fold_left run_op ops2 new_tree)).1 = Ok r.
Proof.
  intros Hops Hif.
  destruct (run_ops_spec ops1 new_tree tree_wf_new) as [Hwf1 Hv1].
  destruct (run_ops_spec ops2 new_tree tree_wf_new) as [Hwf2 Hv2].
  assert (forall k, tree_value (fold_left run_op ops1 new_tree) k =
                    tree_value (fold_left run_op ops2 new_tree) k) as Hv.
  { intros k. rewrite Hv1, Hv2. apply Hops. }
  destruct (getRoot_spec _ Hwf1 Hif) as (t1 & -> & _).
  destruct (getRoot_spec _ Hwf2 (same_values_index_free _ _ Hwf1 Hwf2 Hv Hif)) as (t2 & -> & _).
  eexists. split; [reflexivity|]. cbn [fst]. by rewrite (same_values_root _ _ Hwf1 Hwf2 Hv Hif).
Qed.

(** The sparse, level-by-level computation with its cache
    returns the root of the dense 2^64-leaf Merkle tree, as 64 hex digits. *)
Lemma getRoot_refines_dense_tree `{!Sha256Ok} t :
  tree_wf t -> index_free (leaves t) ->
  exists r t', getRoot t = (Ok (hex_encode r), t') /\
    r = node (leaf_of (leaves t)) MERKLE_DEPTH_BITS 0 /\ length r = HASH_SIZE_BYTES /\
    leaves t' = leaves t /\ tree_wf t'.
Proof.
  intros Hwf Hif. destruct (getRoot_spec t Hwf Hif) as (t' & Hr & Hl & Hwf').
  exists (spec_root (leaves t)), t'. split_and!; [exact Hr | reflexivity | apply length_spec_root | done..].
Qed.

(** [getRoot] throws exactly when two stored keys share their 64-bit
    index, and then the object is left as it was; stored keys are non-empty
    texts (IBC paths), since the source's collision test is blind to the key "". *)
Lemma getRoot_throws_iff_collision t :
  tree_wf t -> "" ∉ map_keys (leaves t) ->
  (is_ok (getRoot t).1 = true <-> index_free (leaves t)) /\
  (is_ok (getRoot t).1 = false -> (getRoot t).2 = t).
Proof.
  intros Hwf Hne. split; [split|].
  - intros Hok. unfold getRoot, mbind, M_bind, gets in Hok.
    destruct (ensureRebuilt t) as [[[]|] t'] eqn:E; [|done]. by eapply ensureRebuilt_ok.
  - intros Hif. by destruct (getRoot_spec t Hwf Hif) as (t' & -> & _).
  - unfold getRoot, mbind, M_bind, gets, ensureRebuilt. destruct (_ && _); [done|].
    by destruct (rebuild t).
Qed.

(** The update witness works.  For the siblings [getSiblings]
    returns, the validator's [apply_update] accepts the step from the current
    root with the currently stored value and computes precisely the root
    [getRoot] returns after [set]; the empty new value is a deletion. *)
Lemma getSiblings_replayed_by_validator `{!Sha256Std} t key v :
  tree_wf t -> index_free (leaves t) -> key_free (leaves t) key ->
  value_ok (tree_value t key) -> value_ok v ->
  exists sibs t1 r r',
    getSiblings key t = (Ok sibs, t1) /\ length sibs = MERKLE_DEPTH_BITS /\
    (getRoot t).1 = Ok (hex_encode r) /\ (getRoot (tree_set key v t1)).1 = Ok (hex_encode r') /\
    apply_update r (utf8 key) (tree_value t key) v sibs = Some r'.
Proof.
  intros Hwf Hif Hkf Hold Hnew.
  destruct (getSiblings_spec t key Hwf Hif) as (t1 & Hs & Hl & Hwf1).
  destruct (getRoot_spec t Hwf Hif) as (t2 & Hr & _).
  assert (index_free (leaves (tree_set key v t1))) as Hif1
    by (apply index_free_set; rewrite ?Hl; done).
  destruct (getRoot_spec _ (tree_wf_set key v _ Hwf1) Hif1) as (t3 & Hr' & _).
  exists (tree_siblings (leaves t) key), t1, (spec_root (leaves t)), (spec_root (leaves (tree_set key v t1))).
  rewrite Hr, Hr'. split_and!; [done | apply length_spec_siblings | done | done |].
  assert (leaves (tree_set key v t1) = leaves (tree_set key v t)) as ->
    by (unfold tree_set; case_decide; cbn [leaves set_leaves]; by rewrite Hl).
  by apply apply_update_tree.
Qed.

(** C35 (safety): no arbitrary roots.  If the validator accepts any update of
    [key] starting from the tree's root — with any claimed old value and any
    sibling list — then the old value and the siblings are the tree's own and
    the accepted new root is the root of the tree with [key] set to the new
    value, unless SHA-256 collides on the inputs of the two paths. *)
Theorem apply_update_sound `{!Sha256Std} t key old new sibs r' tsibs t1 :
  tree_wf t -> index_free (leaves t) -> key_free (leaves t) key ->
  value_ok (tree_value t key) -> value_ok old -> value_ok new ->
  getSiblings key t = (Ok tsibs, t1) ->
  binding (witness_queries key old sibs ++ witness_queries key (tree_value t key) tsibs) ->
  apply_update (spec_root (leaves t)) (utf8 key) old new sibs = Some r' ->
  old = tree_value t key /\ sibs = tsibs /\
  (getRoot (tree_set key new t)).1 = Ok (hex_encode r').
Proof.
  intros Hwf Hif Hkf Hcur Hold Hnew Hs HQ Hup.
  destruct (getSiblings_spec t key Hwf Hif) as (t1' & Hs' & _). rewrite Hs in Hs'. injection Hs' as -> ->.
  apply apply_update_tree_inv in Hup as (-> & -> & ->); try assumption.
  destruct (getRoot_spec _ (tree_wf_set key new _ Hwf) (index_free_set _ new _ Hwf Hif Hkf)) as (t3 & -> & _).
  done.
Qed.

(** The proof the tree generates for a key: the siblings of its path. *)
Definition path_proof (key : string) (v : bytes) (sibs : list bytes) : ICS23ExistenceProof :=
  ExistenceProof (utf8 key) v default_leaf_op (path_of (keyIndex64 key) sibs).

Definition path_siblings (sibs : list bytes) : Prop := length sibs = MERKLE_DEPTH_BITS /\ Forall (fun s => length s = 32%nat) sibs.

Lemma path_siblings_tree `{!Sha256Ok} ls key : path_siblings (tree_siblings ls key).
Proof. split; [apply length_spec_siblings|apply digests_tree_siblings]. Qed.

(** Every membership proof the tree generates for a stored key verifies against the
    tree, and generation does not throw. *)
Lemma generateProof_verifies `{!Sha256Ok} t key v :
  tree_wf t -> index_free (leaves t) -> utf8_decode (utf8 key) = key -> tree_get key t = Some v ->
  exists sibs t1 t2, generateProof key t = (Ok (path_proof key v sibs), t1) /\ path_siblings sibs /\
    verifyProof (path_proof key v sibs) t1 = (Ok true, t2).
Proof.
  intros Hwf Hif Htext Hget. destruct (getSiblings_spec t key Hwf Hif) as (t1 & Hs & Hl & Hwf1).
  assert (key_free (leaves t) key) as Hkf.
  { intros k Hk Heq. apply (index_free_inj (leaves t)); [done..| |done].
    apply map_get_is_Some. unfold tree_get in Hget. by rewrite Hget. }
  destruct (verifyProof_generated t1 key v Hwf1 ltac:(by rewrite Hl) Htext) as (t2 & Hv & _).
  rewrite Hl in Hv. exists (tree_siblings (leaves t) key), t1, t2. split_and!.
  - unfold generateProof, mbind, M_bind, gets. unfold tree_size, map_size, tree_get in *.
    destruct (leaves t) as [|kv ls] eqn:El; [done|]. rewrite decide_False by done.
    rewrite <- El in *. rewrite Hget, Hs. reflexivity.
  - apply path_siblings_tree.
  - unfold path_proof. rewrite Hv. do 2 f_equal. apply bool_decide_eq_true.
    rewrite (spec_root_climb (leaves t) key), leaf_of_key, Hget by assumption. reflexivity.
Qed.

(** The non-membership proof of a missing key (the path of the key with the empty
    value) verifies, provided no stored key occupies the missing key's index. *)
Lemma generateNonExistenceProof_verifies `{!Sha256Ok} t key :
  tree_wf t -> index_free (leaves t) -> key_free (leaves t) key ->
  utf8_decode (utf8 key) = key -> tree_get key t = None -> tree_size t <> 0%nat ->
  exists sibs t1 t2, generateNonExistenceProof key t =
      (Ok (NonExistenceProof (utf8 key) (Some (path_proof key [] sibs)) None), t1) /\ path_siblings sibs /\
    verifyProof (path_proof key [] sibs) t1 = (Ok true, t2).
Proof.
  intros Hwf Hif Hkf Htext Hget Hsize. destruct (getSiblings_spec t key Hwf Hif) as (t1 & Hs & Hl & Hwf1).
  destruct (verifyProof_generated t1 key [] Hwf1 ltac:(by rewrite Hl) Htext) as (t2 & Hv & _).
  rewrite Hl in Hv. exists (tree_siblings (leaves t) key), t1, t2. split_and!.
  - unfold generateNonExistenceProof, mbind, M_bind, gets, map_has. unfold tree_get in Hget.
    rewrite Hget, bool_decide_eq_false_2 by (by intros [? ?]). rewrite decide_False by done.
    rewrite Hs. reflexivity.
  - apply path_siblings_tree.
  - unfold path_proof. rewrite Hv. do 2 f_equal. apply bool_decide_eq_true.
    rewrite (spec_root_climb (leaves t) key), leaf_of_key, Hget by assumption. reflexivity.
Qed.

End properties.

(** ** Witnesses *)

Definition ops_ab : list tree_op := [OpSet "a" [x01]; OpSet "b" [x02]].
Definition ops_ba : list tree_op := [OpSet "b" [x07]; OpGetRoot; OpSet "a" [x01]; OpSet "b" [x02]].

Definition toy_key : string := "connections/connection-0".

(** The siblings of the toy tree, evaluated. *)
Definition toy_siblings : list bytes :=
  Eval vm_compute in match (getSiblings toy_key toy_tree).1 with Ok s => s | Err _ => [] end.
Definition toy_synced : ICS23MerkleTree := Eval vm_compute in (getSiblings toy_key toy_tree).2.
Definition toy_root : bytes := Eval vm_compute in root (ensureRebuilt toy_tree).2.
Definition toy_root' : bytes :=
  Eval vm_compute in default [] (apply_update toy_root (utf8 toy_key) [] [x09] toy_siblings).

Lemma toy_root_spec : toy_root = spec_root (leaves toy_tree).
Proof.
  destruct (getRoot_spec toy_tree toy_tree_wf) as (t' & Hr & _).
  - apply index_freeb_ok. vm_compute. reflexivity.
  - apply (inj hex_encode). apply Ok_inj. apply (f_equal fst) in Hr. cbn [fst] in Hr.
    rewrite <- Hr. vm_compute. reflexivity.
Qed.

Lemma apply_update_sound_witness :
  [] = tree_value toy_tree toy_key /\ toy_siblings = toy_siblings /\
  (getRoot (tree_set toy_key [x09] toy_tree)).1 = Ok (hex_encode toy_root').
Proof.
  apply (apply_update_sound toy_tree toy_key [] [x09] toy_siblings toy_root' toy_siblings toy_synced
    toy_tree_wf).
  - apply index_freeb_ok. vm_compute. reflexivity.
  - apply key_freeb_ok. vm_compute. reflexivity.
  - intros H. exfalso. apply H. vm_compute. reflexivity.
  - intros H. by exfalso.
  - intros _ H. vm_compute in H. discriminate.
  - vm_compute. reflexivity.
  - apply bindingb_ok. vm_compute. reflexivity.
  - rewrite <- toy_root_spec. vm_compute. reflexivity.
Defined.

Definition toy_proof : ICS23ExistenceProof :=
  Eval vm_compute in match (generateProof "ports/transfer" toy_tree).1 with
                     | Ok p => p | Err _ => ExistenceProof [] [] default_leaf_op [] end.

