(* ===== verification/Datum.v ===== *)
(** * On-chain datums ([shared/types/*-datum.ts])

    The datum types of the IBC state machine and their Plutus encodings.  Lucid
    ([Data.to]/[Data.from] with a schema) and CML (hand-built [PlutusData]) are
    third-party; they are the interface [Lucid].  What the repository writes is
    the translation of each datum into Plutus data: an object is constructor 0
    with its fields in schema order, an enum literal is the constructor of its
    position, a [Map] keeps its insertion order. *)

From S2P Require Import Prelude JsMap Hex.

(** ** Plutus data and the Lucid interface *)

Inductive pdata :=
| PConstr (index : Z) (fields : list pdata)
| PMap (entries : list (pdata * pdata))
| PList (items : list pdata)
| PInt (z : Z)
| PBytes (hex : string)
| PUndefined.

(** [PUndefined] is an [undefined] where the schema expects a value; [Data.to] throws
    on it.  [Data_to]: ([canonical] is Lucid's option) a typed value already arranged as Plutus data, to CBOR hex; it
    throws when a byte string is not hexadecimal.  [CML_to_cbor_hex]: the same
    data built through CML, which never throws. *)
Class Lucid := {
  Data_to (canonical : bool) : pdata -> result string;
  Data_from : string -> result pdata;
  CML_to_cbor_hex : pdata -> string;
}.

(** CBOR never encodes an item as zero bytes. *)
Class LucidOk {L : Lucid} : Prop := {
  Data_to_nonempty c d h : Data_to c d = Ok h -> hex_decode_prefix h <> [];
}.

(** ** Types *)

Record Height := MkHeight { revisionNumber : Z; revisionHeight : Z }.
Record AuthToken := MkAuthToken { policyId : string; token_name : string }.

Inductive ChannelState := Uninitialized | Init | TryOpen | Open | Close.
Inductive Order := OrderNone | Unordered | Ordered.

Record ChannelCounterparty := MkChannelCounterparty { cc_port_id : string; cc_channel_id : string }.

Record Channel := MkChannel {
  ch_state : ChannelState;
  ch_ordering : Order;
  ch_counterparty : ChannelCounterparty;
  ch_connection_hops : list string;
  ch_version : string;
}.

#[export] Instance Height_eq_dec : EqDecision Height.
Proof. solve_decision. Defined.
#[export] Instance AuthToken_eq_dec : EqDecision AuthToken.
Proof. solve_decision. Defined.
#[export] Instance ChannelState_eq_dec : EqDecision ChannelState.
Proof. solve_decision. Defined.
#[export] Instance Order_eq_dec : EqDecision Order.
Proof. solve_decision. Defined.
#[export] Instance ChannelCounterparty_eq_dec : EqDecision ChannelCounterparty.
Proof. solve_decision. Defined.
#[export] Instance Channel_eq_dec : EqDecision Channel.
Proof. solve_decision. Defined.

(** A channel end as the code holds it: an object with an identity, compared by
    reference with [===] in [computeRootWithHandlePacketUpdate]. *)
Record ChannelObj := MkChannelObj { obj_ref : nat; obj_val : Channel }.

Record ChannelDatumState := MkChannelDatumState {
  channel : ChannelObj;
  next_sequence_send : Z;
  next_sequence_recv : Z;
  next_sequence_ack : Z;
  packet_commitment : jsmap Z string;
  packet_receipt : jsmap Z string;
  packet_acknowledgement : jsmap Z string;
  minimum_receive_proof_height : Height;
  maximum_receive_proof_height : Height;
}.

Record ChannelDatum := MkChannelDatum {
  cd_state : ChannelDatumState; cd_port : string; cd_token : AuthToken
}.

Inductive ConnectionState := ConnUninitialized | ConnInit | ConnTryOpen | ConnOpen.
Record Version := MkVersion { identifier : string; features : list string }.
Record Counterparty := MkCounterparty {
  cp_client_id : string; cp_connection_id : string; cp_key_prefix : string
}.
Record ConnectionEnd := MkConnectionEnd {
  conn_client_id : string;
  conn_versions : list Version;
  conn_state : ConnectionState;
  conn_counterparty : Counterparty;
  conn_delay_period : Z;
}.
Record ConnectionDatum := MkConnectionDatum { cnd_state : ConnectionEnd; cnd_token : AuthToken }.

#[export] Instance ConnectionState_eq_dec : EqDecision ConnectionState.
Proof. solve_decision. Defined.
#[export] Instance Version_eq_dec : EqDecision Version.
Proof. solve_decision. Defined.
#[export] Instance Counterparty_eq_dec : EqDecision Counterparty.
Proof. solve_decision. Defined.

Record LeafSpec := MkLeafSpec {
  ls_hash : Z; ls_prehash_key : Z; ls_prehash_value : Z; ls_length : Z; ls_prefix : string
}.
Record InnerSpec := MkInnerSpec {
  is_child_order : list Z; is_child_size : Z; is_min_prefix_length : Z; is_max_prefix_length : Z;
  is_empty_child : string; is_hash : Z
}.
Record ProofSpec := MkProofSpec {
  leaf_spec : LeafSpec; inner_spec : InnerSpec; max_depth : Z; min_depth : Z;
  prehash_key_before_comparison : bool
}.
Record ClientState := MkClientState {
  chainId : string;
  trustLevel : Z * Z;
  trustingPeriod : Z;
  unbondingPeriod : Z;
  maxClockDrift : Z;
  frozenHeight : Height;
  latestHeight : Height;
  proofSpecs : list ProofSpec;
}.
Record ConsensusState := MkConsensusState {
  cs_timestamp : Z; cs_next_validators_hash : string; cs_root_hash : string
}.
(** The height-keyed maps are keyed by objects: no two entries share a key. *)
Record ClientDatumState := MkClientDatumState {
  clientState : ClientState;
  consensusStates : list (Height * ConsensusState);
  processedTimes : list (Height * Z);
  processedHeights : list (Height * Z);
}.
Record ClientDatum := MkClientDatum { cld_state : ClientDatumState; cld_token : AuthToken }.

Record ModuleRegistration := MkModuleRegistration {
  module_script_hash : string; port_token : AuthToken; module_token : AuthToken
}.
Inductive Shutdown := Active | ShuttingDown (initiated_at grace_period_end : Z).
Record HostState := MkHostState {
  version : Z;
  ibc_state_root : string;
  next_client_sequence : Z;
  next_connection_sequence : Z;
  next_channel_sequence : Z;
  bound_port : jsmap string ModuleRegistration;
  last_update_time : Z;
}.
Record HostStateDatum := MkHostStateDatum {
  hs_state : HostState; nft_policy : string; deployer : string; shutdown : Shutdown
}.

(** ** Schema translation *)

Definition p_object (fields : list pdata) : pdata := PConstr 0 fields.
Definition p_enum (i : Z) : pdata := PConstr i [].
Definition p_bool (b : bool) : pdata := PConstr (if b then 1 else 0) [].

Definition height_data (h : Height) : pdata :=
  p_object [PInt (revisionNumber h); PInt (revisionHeight h)].
Definition auth_token_data (t : AuthToken) : pdata :=
  p_object [PBytes (policyId t); PBytes (token_name t)].

Definition channelStateIndex (s : ChannelState) : Z :=
  match s with Uninitialized => 0 | Init => 1 | TryOpen => 2 | Open => 3 | Close => 4 end.
Definition channelOrderIndex (o : Order) : Z :=
  match o with OrderNone => 0 | Unordered => 1 | Ordered => 2 end.

Definition channel_data (c : Channel) : pdata :=
  p_object
    [ p_enum (channelStateIndex (ch_state c));
      p_enum (channelOrderIndex (ch_ordering c));
      p_object [PBytes (cc_port_id (ch_counterparty c)); PBytes (cc_channel_id (ch_counterparty c))];
      PList (PBytes <$> ch_connection_hops c);
      PBytes (ch_version c) ].

Definition seq_map_data (m : jsmap Z string) : pdata :=
  PMap (map (fun kv => (PInt kv.1, PBytes kv.2)) m).

Definition channel_datum_data (d : ChannelDatum) : pdata :=
  let st := cd_state d in
  p_object
    [ p_object
        [ channel_data (obj_val (channel st));
          PInt (next_sequence_send st); PInt (next_sequence_recv st); PInt (next_sequence_ack st);
          seq_map_data (packet_commitment st);
          seq_map_data (packet_receipt st);
          seq_map_data (packet_acknowledgement st);
          height_data (minimum_receive_proof_height st);
          height_data (maximum_receive_proof_height st) ];
      PBytes (cd_port d);
      auth_token_data (cd_token d) ].

Definition connStateIndex (s : ConnectionState) : Z :=
  match s with ConnUninitialized => 0 | ConnInit => 1 | ConnTryOpen => 2 | ConnOpen => 3 end.

Definition version_data (v : Version) : pdata :=
  p_object [PBytes (identifier v); PList (PBytes <$> features v)].

Definition connection_end_data (c : ConnectionEnd) : pdata :=
  let cp := conn_counterparty c in
  p_object
    [ PBytes (conn_client_id c);
      PList (version_data <$> conn_versions c);
      p_enum (connStateIndex (conn_state c));
      p_object [PBytes (cp_client_id cp); PBytes (cp_connection_id cp);
                p_object [PBytes (cp_key_prefix cp)]];
      PInt (conn_delay_period c) ].

Definition proof_spec_data (p : ProofSpec) : pdata :=
  let l := leaf_spec p in let i := inner_spec p in
  p_object
    [ p_object [PInt (ls_hash l); PInt (ls_prehash_key l); PInt (ls_prehash_value l);
                PInt (ls_length l); PBytes (ls_prefix l)];
      p_object [PList (PInt <$> is_child_order i); PInt (is_child_size i);
                PInt (is_min_prefix_length i); PInt (is_max_prefix_length i);
                PBytes (is_empty_child i); PInt (is_hash i)];
      PInt (max_depth p); PInt (min_depth p); p_bool (prehash_key_before_comparison p) ].

Definition client_state_data (c : ClientState) : pdata :=
  p_object
    [ PBytes (chainId c);
      p_object [PInt (trustLevel c).1; PInt (trustLevel c).2];
      PInt (trustingPeriod c); PInt (unbondingPeriod c); PInt (maxClockDrift c);
      height_data (frozenHeight c); height_data (latestHeight c);
      PList (proof_spec_data <$> proofSpecs c) ].

Definition consensus_state_data (c : ConsensusState) : pdata :=
  p_object [PInt (cs_timestamp c); PBytes (cs_next_validators_hash c); p_object [PBytes (cs_root_hash c)]].

Definition height_map_data {A} (f : A -> pdata) (l : list (Height * A)) : pdata :=
  PMap (map (fun kv => (height_data kv.1, f kv.2)) l).

Definition client_datum_data (d : ClientDatum) : pdata :=
  let st := cld_state d in
  p_object
    [ p_object
        [ client_state_data (clientState st);
          height_map_data consensus_state_data (consensusStates st);
          height_map_data PInt (processedTimes st);
          height_map_data PInt (processedHeights st) ];
      auth_token_data (cld_token d) ].

Definition module_registration_data (r : ModuleRegistration) : pdata :=
  p_object [PBytes (module_script_hash r); auth_token_data (port_token r); auth_token_data (module_token r)].

Definition shutdown_data (s : Shutdown) : pdata :=
  match s with
  | Active => PConstr 0 []
  | ShuttingDown a b => PConstr 1 [PInt a; PInt b]
  end.

Definition host_state_datum_data (d : HostStateDatum) : pdata :=
  let st := hs_state d in
  p_object
    [ p_object
        [ PInt (version st); PBytes (ibc_state_root st); PInt (next_client_sequence st);
          PInt (next_connection_sequence st); PInt (next_channel_sequence st);
          PMap (map (fun kv => (PBytes kv.1, module_registration_data kv.2)) (bound_port st));
          PInt (last_update_time st) ];
      PBytes (nft_policy d); PBytes (deployer d); shutdown_data (shutdown d) ].

(** ** Encoders *)
Section encoders.
Context `{L : Lucid}.

Definition encodeChannelEndValue (c : Channel) : result string := Data_to false (channel_data c).
Definition encodeChannelDatum (d : ChannelDatum) : string := CML_to_cbor_hex (channel_datum_data d).
Definition encodeConnectionEndValue (c : ConnectionEnd) : result string := Data_to false (connection_end_data c).
Definition encodeConnectionDatum (d : ConnectionDatum) : result string :=
  Data_to true (p_object [connection_end_data (cnd_state d); auth_token_data (cnd_token d)]).
Definition encodeClientStateValue (c : ClientState) : result string := Data_to false (client_state_data c).
Definition encodeConsensusStateValue (c : ConsensusState) : result string :=
  Data_to false (consensus_state_data c).
Definition encodeClientDatum (d : ClientDatum) : string := CML_to_cbor_hex (client_datum_data d).
Definition encodeModuleRegistration (r : ModuleRegistration) : result string :=
  Data_to false (module_registration_data r).
Definition encodeHostStateDatum (d : HostStateDatum) : result string := Data_to true (host_state_datum_data d).

(** [Data.to(bytesHex, Data.Bytes())] and [Data.to(n, Data.Integer())]. *)
Definition encodeBytesValue (hex : string) : result string := Data_to false (PBytes hex).
Definition encodeIntegerValue (n : Z) : result string := Data_to false (PInt n).

End encoders.
