(* ===== verification/Tendermint.v ===== *)
(** * Tendermint headers and misbehaviour ([shared/types/header.ts], [types/cometbft], [types/misbehaviour])

    The header of a client message as the Gateway converts it from protobuf, the checks
    it makes of a header and of a misbehaviour before it builds a transaction, and the
    redeemer it puts the message in ([types/client-redeemer.ts]).  Byte fields are hex. *)

From Stdlib Require Import ZArith Lia.
From S2P Require Import Prelude JsMap JsString JsNumber Utf8 ProtoCodec ProtoMessages ProtoConnection ProtoClient Hex Datum.

#[local] Open Scope Z_scope.

(** ** Data *)

Record PartSetHeader := MkPartSetHeader { ps_total : Z; ps_hash : string }.
Record BlockID := MkBlockID { bi_hash : string; bi_partSetHeader : PartSetHeader }.
Record CommitSig := MkCommitSig { sig_block_id_flag : Z; sig_validator_address : string; sig_timestamp : Z; sig_signature : string }.
Record Commit := MkCommit { cm_height : Z; cm_round : Z; cm_blockId : BlockID; cm_signatures : list CommitSig }.
Record TmHeader := MkTmHeader {
  hd_version : Z * Z; hd_chainId : string; hd_height : Z; hd_time : Z; hd_lastBlockId : BlockID; hd_lastCommitHash : string;
  hd_dataHash : string; hd_validatorsHash : string; hd_nextValidatorsHash : string; hd_consensusHash : string; hd_appHash : string;
  hd_lastResultsHash : string; hd_evidenceHash : string; hd_proposerAddress : string;
}.
Record SignedHeader := MkSignedHeader { sh_header : TmHeader; sh_commit : Commit }.
(** A validator without a key of either kind has the key [null]. *)
Record Validator := MkValidator { va_address : string; va_pubkey : option string; va_votingPower : Z; va_proposerPriority : Z }.
Record ValidatorSet := MkValidatorSet { vs_validators : list Validator; vs_proposer : Validator; vs_totalVotingPower : Z }.
Record Header := MkHeader {
  signedHeader : SignedHeader; validatorSet : ValidatorSet; trustedHeight : Height; trustedValidators : ValidatorSet;
}.
Record Misbehaviour := MkMisbehaviour { mb_client_id : string; mb_header1 : Header; mb_header2 : Header }.
Inductive ClientMessage := HeaderCase (header : Header) | MisbehaviourCase (misbehaviour : Misbehaviour).

Definition header_height (h : Header) : Z := hd_height (sh_header (signedHeader h)).
Definition header_time (h : Header) : Z := hd_time (sh_header (signedHeader h)).

(** ** Numbers ([helpers/number.ts]) *)

Definition MAX_SAFE_INTEGER : Z := 2 ^ 53 - 1.

(** [Number(z)]: the nearest double of an integer, ties to even. *)
Definition to_double (z : Z) : Z :=
  let e := Z.log2 (Z.abs z) - 52 in
  if e <=? 0 then z else
  let q := Z.abs z / 2 ^ e in let r := Z.abs z mod 2 ^ e in
  let up := (2 ^ e <? 2 * r) || ((2 * r =? 2 ^ e) && Z.odd q) in
  Z.sgn z * ((if up then q + 1 else q) * 2 ^ e).

(** The sum and whether it overflowed. *)
Definition safeAdd (a b : Z) : Z * bool :=
  if (0 <? b) && (to_double (MAX_SAFE_INTEGER - b) <? a) then (-1, true)
  else if (b <? 0) && (a <? to_double (- MAX_SAFE_INTEGER - b)) then (-1, true)
  else (to_double (a + b), false).

Definition safeAddClip (a b : Z) : Z :=
  let '(sum, overflow) := safeAdd a b in
  if overflow : bool then (if b <? 0 then - MAX_SAFE_INTEGER else MAX_SAFE_INTEGER) else sum.

(** [Number.MAX_SAFE_INTEGER / 8] is 1125899906842623.875: an integer exceeds it from [2 ^ 50] on. *)
Definition exceeds_max_total_voting_power (sum : Z) : bool := 2 ^ 50 <=? sum.

Fixpoint sum_voting_power (powers : list Z) (sum : Z) : result Z :=
  match powers with
  | [] => Ok sum
  | p :: rest =>
      let sum := safeAddClip sum (to_double p) in
      if exceeds_max_total_voting_power sum then
        Err (GrpcInvalidArgument ("Total voting power exceeds maximum: 1125899906842623.9, calculated: " +:+ pretty sum))
      else sum_voting_power rest sum
  end.

(** ** From protobuf ([initializeHeader]) *)

Definition EPOCH_DIFF_BTW_GO_JS : Z := 62135596800000000000.
Definition nanoseconds (t : PTimestamp) : Z := ts_seconds t * 10 ^ 9 + ts_nanos t.

Definition of_undefined {A} (name : string) (o : option A) : result A :=
  match o with Some a => Ok a | None => throw ("Cannot read properties of undefined (reading '" +:+ name +:+ "')") end.

Definition block_id_of (b : PBlockID) : BlockID :=
  MkBlockID (toHex (bid_hash b)) (MkPartSetHeader (psh_total (bid_part_set_header b)) (toHex (psh_hash (bid_part_set_header b)))).

Definition tm_header_of (h : PTmHeader) : TmHeader :=
  MkTmHeader (pcv_block (tmh_version h), pcv_app (tmh_version h)) (toHex (utf8 (tmh_chain_id h))) (tmh_height h) (nanoseconds (tmh_time h))
    (block_id_of (tmh_last_block_id h)) (toHex (tmh_last_commit_hash h)) (toHex (tmh_data_hash h)) (toHex (tmh_validators_hash h))
    (toHex (tmh_next_validators_hash h)) (toHex (tmh_consensus_hash h)) (toHex (tmh_app_hash h)) (toHex (tmh_last_results_hash h))
    (toHex (tmh_evidence_hash h)) (toHex (tmh_proposer_address h)).

(** Go's zero time is no time. *)
Definition commit_sig_of (s : PCommitSig) : CommitSig :=
  let t := nanoseconds (csg_timestamp s) in
  MkCommitSig (csg_block_id_flag s) (toHex (csg_validator_address s)) (if (t <? 0) && (0 - t =? EPOCH_DIFF_BTW_GO_JS) then 0 else t)
    (toHex (csg_signature s)).

Definition commit_of (c : PCommit) : Commit :=
  MkCommit (cmt_height c) (cmt_round c) (block_id_of (cmt_block_id c)) (commit_sig_of <$> cmt_signatures c).

(** [toBytes(pub_key.ed25519) || toBytes(pub_key.secp256k1)] *)
Definition pubkey_of (k : PPublicKey) : option string :=
  match toHex <$> pk_ed25519 k with Some "" | None => toHex <$> pk_secp256k1 k | ed => ed end.

Definition validator_of (v : PValidator) : Validator :=
  MkValidator (toHex (vld_address v)) (pubkey_of (vld_pub_key v)) (vld_voting_power v) (vld_proposer_priority v).

Definition getTotalVotingPowerFromTendermint (vp : PValidatorSet) : result Z := sum_voting_power (vld_voting_power <$> vls_validators vp) 0.

Definition validator_set_of (vp : option PValidatorSet) : result ValidatorSet :=
  vp ← of_undefined "validators" vp;
  proposer ← of_undefined "address" (vls_proposer vp);
  total ← getTotalVotingPowerFromTendermint vp;
  Ok (MkValidatorSet (validator_of <$> vls_validators vp) (validator_of proposer) total).

Definition initializeHeader (headerMsg : PLcHeader) : result Header :=
  sh ← of_undefined "header" (lch_signed_header headerMsg);
  h ← of_undefined "version" (sgh_header sh);
  c ← of_undefined "height" (sgh_commit sh);
  vals ← validator_set_of (lch_validator_set headerMsg);
  trusted ← validator_set_of (lch_trusted_validators headerMsg);
  Ok (MkHeader (MkSignedHeader (tm_header_of h) (commit_of c)) vals
        (MkHeight (ph_revision_number (lch_trusted_height headerMsg)) (ph_revision_height (lch_trusted_height headerMsg))) trusted).

Definition decodeHeader (value : bytes) : result PLcHeader :=
  match decodeMessage value with
  | Ok m => Ok m
  | Err e => Err (GrpcInvalidArgument ("Error decoding header: " +:+ error_to_string e))
  end.

Definition initializeMisbehaviour (m : PMisbehaviour) : result Misbehaviour :=
  m1 ← of_undefined "signed_header" (mis_header1 m);
  h1 ← initializeHeader m1;
  m2 ← of_undefined "signed_header" (mis_header2 m);
  h2 ← initializeHeader m2;
  Ok (MkMisbehaviour (mis_client_id m) h1 h2).

Definition decodeMisBehaviour (value : bytes) : result PMisbehaviour :=
  match decodeMessage value with
  | Ok m => Ok m
  | Err e => Err (GrpcInvalidArgument ("Error decoding header: " +:+ error_to_string e))
  end.

(** ** Back to protobuf ([convertHeaderToTendermint]) *)

(** The enumeration's tag of a flag; [UNRECOGNIZED] for a number that is none. *)
Definition toTendermintBlockIdFlag (flag : Z) : Z := if (0 <=? flag) && (flag <=? 3) then flag else -1.

Definition timestamp_to (t : Z) : PTimestamp := MkPTimestamp (Z.quot t (10 ^ 9)) (Z.rem t (10 ^ 9)).

Definition block_id_to (b : BlockID) : result PBlockID :=
  h ← fromHex (bi_hash b); p ← fromHex (ps_hash (bi_partSetHeader b)); Ok (MkPBlockID h (MkPPartSetHeader (ps_total (bi_partSetHeader b)) p)).

Definition tm_header_to (h : TmHeader) : result PTmHeader :=
  chain ← fromHex (hd_chainId h);
  last ← block_id_to (hd_lastBlockId h);
  lc ← fromHex (hd_lastCommitHash h); da ← fromHex (hd_dataHash h); va ← fromHex (hd_validatorsHash h); nv ← fromHex (hd_nextValidatorsHash h);
  co ← fromHex (hd_consensusHash h); ap ← fromHex (hd_appHash h); lr ← fromHex (hd_lastResultsHash h); ev ← fromHex (hd_evidenceHash h);
  pr ← fromHex (hd_proposerAddress h);
  Ok (MkPTmHeader (MkPConsensus (hd_version h).1 (hd_version h).2) (utf8_decode chain) (hd_height h) (timestamp_to (hd_time h)) last lc da va nv co ap lr ev pr).

(** [hex ? fromHex(hex) : new Uint8Array()] *)
Definition hex_or_empty (hex : string) : result bytes := if bool_decide (hex = "") then Ok [] else fromHex hex.

Definition commit_sig_to (s : CommitSig) : result PCommitSig :=
  a ← hex_or_empty (sig_validator_address s); g ← hex_or_empty (sig_signature s);
  Ok (MkPCommitSig (toTendermintBlockIdFlag (sig_block_id_flag s)) a (timestamp_to (sig_timestamp s)) g).

Definition commit_to (c : Commit) : result PCommit :=
  b ← block_id_to (cm_blockId c); sigs ← mapR commit_sig_to (cm_signatures c); Ok (MkPCommit (cm_height c) (cm_round c) b sigs).

(** Every key becomes an Ed25519 key; [fromHex(null)] has no bytes. *)
Definition validator_to (v : Validator) : result PValidator :=
  a ← fromHex (va_address v);
  k ← match va_pubkey v with Some k => fromHex k | None => Ok [] end;
  Ok (MkPValidator a (MkPPublicKey (Some k) None) (va_votingPower v) (va_proposerPriority v)).

Definition validator_set_to (s : ValidatorSet) : result PValidatorSet :=
  vs ← mapR validator_to (vs_validators s); p ← validator_to (vs_proposer s); Ok (MkPValidatorSet vs (Some p) (vs_totalVotingPower s)).

Definition convertHeaderToTendermint (h : Header) : result PLcHeader :=
  tm ← tm_header_to (sh_header (signedHeader h)); c ← commit_to (sh_commit (signedHeader h));
  vs ← validator_set_to (validatorSet h); ts ← validator_set_to (trustedValidators h);
  Ok (MkPLcHeader (Some (MkPSignedHeader (Some tm) (Some c))) (Some vs)
        (MkPHeight (revisionNumber (trustedHeight h)) (revisionHeight (trustedHeight h))) (Some ts)).

(** ** Basic validation ([types/cometbft]) *)

Definition CRYPTO_ADDRESS_SIZE : nat := 20.
Definition MAX_SIGNATURE_SIZE : nat := 64.
Definition MAX_CHAIN_ID_LENGTH : nat := 50.
Definition TM_HASH_SIZE : nat := 32.

Definition invalid {A} (s : string) : result A := Err (GrpcInvalidArgument s).

Definition validator_validateBasic (v : Validator) : result unit :=
  if bool_decide (va_pubkey v = None \/ va_pubkey v = Some "") then invalid "validator does not have a public key"
  else if va_votingPower v <? 0 then invalid "validator has negative voting power"
  else if bool_decide (str_length (va_address v) <> 2 * CRYPTO_ADDRESS_SIZE)%nat then
    invalid ("validator address is the wrong size: " +:+ va_address v)
  else Ok tt.

Fixpoint each {A} (f : A -> result unit) (l : list A) : result unit :=
  match l with [] => Ok tt | a :: l' => f a ≫= fun _ => each f l' end.

Definition validator_set_validateBasic (vals : ValidatorSet) : result unit :=
  _ ← each validator_validateBasic (vs_validators vals); validator_validateBasic (vs_proposer vals).

(** The total is computed again. *)
Definition validatorSetFromProto (vp : ValidatorSet) : result ValidatorSet :=
  total ← sum_voting_power (va_votingPower <$> vs_validators vp) 0;
  let vals := MkValidatorSet (vs_validators vp) (vs_proposer vp) total in
  _ ← validator_set_validateBasic vals; Ok vals.

(** A byte count of a hex text, as the messages print it. *)
Definition half_length (s : string) : string :=
  let n := Z.of_nat (str_length s) in pretty (n / 2) +:+ (if Z.odd n then ".5" else "").

(** The length compared with [MAX_CHAIN_ID_LENGTH] is that of the hex text. *)
Definition header_validateBasic (h : TmHeader) : result unit :=
  if bool_decide (MAX_CHAIN_ID_LENGTH < str_length (hd_chainId h))%nat then
    invalid ("chainID is too long; got: " +:+ pretty (str_length (hd_chainId h)) +:+ ", max: " +:+ pretty MAX_CHAIN_ID_LENGTH)
  else if hd_height h <? 0 then invalid "negative Height"
  else if bool_decide (hd_nextValidatorsHash h <> "" /\ str_length (hd_nextValidatorsHash h) <> 2 * TM_HASH_SIZE)%nat then
    invalid ("expected size to be " +:+ pretty TM_HASH_SIZE +:+ " bytes, got " +:+ half_length (hd_nextValidatorsHash h) +:+ " bytes")
  else Ok tt.

Definition BLOCKID_FLAG_ABSENT : Z := 1.
Definition BLOCKID_FLAG_COMMIT : Z := 2.
Definition BLOCKID_FLAG_NIL : Z := 3.

Definition validateCommitSigBasic (cs : CommitSig) : result unit :=
  let flag := sig_block_id_flag cs in
  if bool_decide (flag ∉ [BLOCKID_FLAG_ABSENT; BLOCKID_FLAG_COMMIT; BLOCKID_FLAG_NIL]) then invalid ("unknown BlockIDFlag: " +:+ pretty flag)
  else if flag =? BLOCKID_FLAG_ABSENT then
    if bool_decide (sig_validator_address cs <> "") then invalid "validator address is present"
    else if negb (sig_timestamp cs =? 0) && negb (0 - sig_timestamp cs =? EPOCH_DIFF_BTW_GO_JS) then invalid "time is present"
    else if bool_decide (sig_signature cs <> "") then invalid "signature is present"
    else Ok tt
  else if bool_decide (str_length (sig_validator_address cs) <> 2 * CRYPTO_ADDRESS_SIZE)%nat then
    invalid ("expected ValidatorAddress size to be " +:+ pretty CRYPTO_ADDRESS_SIZE +:+ " bytes, got " +:+
             half_length (sig_validator_address cs) +:+ " bytes")
  else if bool_decide (sig_signature cs = "") then invalid "signature is missing"
  else if bool_decide (2 * MAX_SIGNATURE_SIZE < str_length (sig_signature cs))%nat then
    invalid ("signature is too big (max: " +:+ pretty MAX_SIGNATURE_SIZE +:+ ")")
  else Ok tt.

Definition isZeroBlockId (b : BlockID) : bool :=
  bool_decide (bi_hash b = "") && (ps_total (bi_partSetHeader b) =? 0) && bool_decide (ps_hash (bi_partSetHeader b) = "").

Definition commit_validateBasic (c : Commit) : result unit :=
  if cm_height c <? 0 then invalid "negative Height"
  else if cm_round c <? 0 then invalid "negative Round"
  else if 1 <=? cm_height c then
    if isZeroBlockId (cm_blockId c) then invalid "commit cannot be for nil block"
    else if bool_decide (cm_signatures c = []) then invalid "no signatures in commit"
    else each validateCommitSigBasic (cm_signatures c)
  else Ok tt.

Definition signed_header_validateBasic (sh : SignedHeader) (chainID : string) : result unit :=
  let h := sh_header sh in let c := sh_commit sh in
  _ ← header_validateBasic h;
  _ ← commit_validateBasic c;
  if bool_decide (hd_chainId h <> chainID) then invalid ("header belongs to another chain " +:+ hd_chainId h +:+ ", not " +:+ chainID)
  else if bool_decide (cm_height c <> hd_height h) then
    invalid ("header and commit height mismatch: " +:+ pretty (cm_height c) +:+ " vs " +:+ pretty (hd_height h))
  else Ok tt.

(** ** Header verification ([verifyHeader]) *)

(** What the checks read of the trusted header, made up from the consensus state. *)
Record TrustedHeader := MkTrustedHeader { tr_chainId : string; tr_height : Z; tr_time : Z; tr_nextValidatorsHash : string }.

Definition headerExpired (h : TrustedHeader) (trustingPeriod now : Z) : bool := tr_time h + trustingPeriod <? now.

Definition verifyNewHeaderAndVals (untrusted : SignedHeader) (trusted : TrustedHeader) (now maxClockDrift : Z) : result unit :=
  let h := sh_header untrusted in
  _ ← signed_header_validateBasic untrusted (tr_chainId trusted);
  if hd_height h <=? tr_height trusted then
    invalid ("expected new header height " +:+ pretty (hd_height h) +:+ " to be greater than old header height " +:+ pretty (tr_height trusted))
  else if hd_time h <=? tr_time trusted then
    invalid ("expected new header time " +:+ pretty (hd_time h) +:+ " to be after old header time " +:+ pretty (tr_time trusted))
  else if now + maxClockDrift <? hd_time h then
    invalid ("new header has a time from the future " +:+ pretty (hd_time h) +:+ " (now: " +:+ pretty now +:+ "; max clock drift: " +:+
             pretty maxClockDrift +:+ "ms)")
  else Ok tt.

Definition verifyNonAdjacent (trusted : TrustedHeader) (untrusted : SignedHeader) (trustingPeriod now maxClockDrift : Z) : result bool :=
  if hd_height (sh_header untrusted) =? tr_height trusted + 1 then invalid "headers must be non adjacent in height"
  else if headerExpired trusted trustingPeriod now then
    invalid ("old header has expired at " +:+ pretty (tr_time trusted + trustingPeriod) +:+ " (now: " +:+ pretty now +:+ ")")
  else _ ← verifyNewHeaderAndVals untrusted trusted now maxClockDrift; Ok true.

(** Returns [false] when every check passed. *)
Definition verifyAdjacent (trusted : TrustedHeader) (untrusted : SignedHeader) (now maxClockDrift : Z) : result bool :=
  if negb (hd_height (sh_header untrusted) =? tr_height trusted + 1) then invalid "headers must be adjacent in height"
  else
    _ ← verifyNewHeaderAndVals untrusted trusted now maxClockDrift;
    if bool_decide (hd_validatorsHash (sh_header untrusted) <> tr_nextValidatorsHash trusted) then
      invalid ("expected old header next validators (" +:+ hd_validatorsHash (sh_header untrusted) +:+ ") to match those from new header (" +:+
               tr_nextValidatorsHash trusted +:+ ")")
    else Ok false.

Definition verify (trusted : TrustedHeader) (untrusted : SignedHeader) (trustingPeriod now maxClockDrift : Z) : result bool :=
  if negb (hd_height (sh_header untrusted) =? tr_height trusted + 1) then verifyNonAdjacent trusted untrusted trustingPeriod now maxClockDrift
  else verifyAdjacent trusted untrusted now maxClockDrift.

(** [entries.find(([heightK]) => height === heightK.revisionHeight)] *)
Definition consensus_at_height (l : list (Height * ConsensusState)) (height : Z) : option (Height * ConsensusState) :=
  List.find (fun kv => height =? revisionHeight kv.1) l.

Definition checkTrustedHeader (h : Header) : result unit := _ ← validatorSetFromProto (trustedValidators h); Ok tt.

Definition verifyHeader (msg : Header) (d : ClientDatum) : result bool :=
  let cs := clientState (cld_state d) in
  let now := header_time msg in
  let height := revisionHeight (trustedHeight msg) in
  match consensus_at_height (consensusStates (cld_state d)) height with
  | None => invalid ("could not get trusted consensus state for Header at TrustedHeight: " +:+ pretty height)
  | Some (_, consState) =>
      _ ← checkTrustedHeader msg;
      _ ← validatorSetFromProto (trustedValidators msg);
      _ ← validatorSetFromProto (validatorSet msg);
      if header_height msg <=? height then
        invalid ("header height ≤ consensus state height (" +:+ pretty (header_height msg) +:+ " ≤ " +:+ pretty height +:+ ")")
      else
        ok ← verify (MkTrustedHeader (chainId cs) height (cs_timestamp consState) (cs_next_validators_hash consState)) (signedHeader msg)
               (trustingPeriod cs) now (maxClockDrift cs);
        if ok : bool then Ok true else invalid "failed to verify header"
  end.

(** ** Misbehaviour *)

Definition validateBasicMisbehaviour (m : Misbehaviour) : result unit :=
  let h1 := mb_header1 m in let h2 := mb_header2 m in
  if revisionHeight (trustedHeight h1) =? 0 then invalid "misbehaviour header1 trusted height must be non-zero"
  else if revisionHeight (trustedHeight h2) =? 0 then invalid "misbehaviour header2 trusted height must be non-zero"
  else if bool_decide (hd_chainId (sh_header (signedHeader h1)) <> hd_chainId (sh_header (signedHeader h2))) then
    invalid "misbehaviour headers must use the same chain id"
  else if header_height h1 <? header_height h2 then invalid "misbehaviour header1 height must be greater than or equal to header2"
  else Ok tt.

Definition checkMisbehaviourHeader (cs : ClientState) (consState : ConsensusState) (h : Header) (currentTimestamp : Z) : result unit :=
  _ ← validatorSetFromProto (trustedValidators h);
  _ ← checkTrustedHeader h;
  let age := currentTimestamp - cs_timestamp consState in
  if trustingPeriod cs <=? age then
    invalid ("current timestamp minus the latest consensus state timestamp is greater than or equal to the trusting period (" +:+
             pretty age +:+ " >= " +:+ pretty (trustingPeriod cs) +:+ ")")
  else Ok tt.

Definition trusted_state (n : string) (d : ClientDatum) (h : Header) : result ConsensusState :=
  let height := revisionHeight (trustedHeight h) in
  match consensus_at_height (consensusStates (cld_state d)) height with
  | Some (_, c) => Ok c
  | None => invalid ("could not get trusted consensus state from clientStore for " +:+ n +:+ " at TrustedHeight: " +:+ pretty height)
  end.

Definition verifyMisbehaviour (m : Misbehaviour) (d : ClientDatum) : result bool :=
  _ ← validateBasicMisbehaviour m;
  c1 ← trusted_state "Header1" d (mb_header1 m);
  c2 ← trusted_state "Header2" d (mb_header2 m);
  let cs := clientState (cld_state d) in
  _ ← checkMisbehaviourHeader cs c1 (mb_header1 m) (header_time (mb_header1 m));
  _ ← checkMisbehaviourHeader cs c2 (mb_header2 m) (header_time (mb_header2 m));
  Ok true.

Definition getConsensusStateFromTmHeader (h : TmHeader) : ConsensusState :=
  MkConsensusState (hd_time h) (hd_nextValidatorsHash h) (hd_appHash h).

(** [list.findIndex(([key]) => key.revisionHeight === height)], -1 when there is none *)
Fixpoint find_index (l : list (Height * ConsensusState)) (height : Z) : Z :=
  match l with
  | [] => -1
  | kv :: l' => if revisionHeight kv.1 =? height then 0 else let i := find_index l' height in if i <? 0 then -1 else i + 1
  end.
Definition state_at (l : list (Height * ConsensusState)) (i : Z) : option ConsensusState :=
  if i <? 0 then None else snd <$> l !! Z.to_nat i.

Definition getPreviousConsensusState (l : list (Height * ConsensusState)) (height : Z) : option ConsensusState :=
  match consensus_at_height l height with
  | None => None
  | Some _ => let i := find_index l height in if 0 <? i then state_at l (i - 1) else None
  end.
Definition getNextConsensusState (l : list (Height * ConsensusState)) (height : Z) : option ConsensusState :=
  match consensus_at_height l height with
  | None => None
  | Some _ => let i := find_index l height in if i <? Z.of_nat (length l) - 1 then state_at l (i + 1) else None
  end.

#[export] Instance ConsensusState_eq_dec : EqDecision ConsensusState.
Proof. solve_decision. Defined.

(** A header against the stored consensus states. *)
Definition header_conflicts (h : Header) (l : list (Height * ConsensusState)) : bool :=
  let consState := getConsensusStateFromTmHeader (sh_header (signedHeader h)) in
  match consensus_at_height l (header_height h) with
  | Some (_, existing) => negb (bool_decide (existing = consState))
  | None =>
      from_option (fun p => cs_timestamp consState <? cs_timestamp p) false (getPreviousConsensusState l (header_height h)) ||
      from_option (fun n => cs_timestamp n <? cs_timestamp consState) false (getNextConsensusState l (header_height h))
  end.

(** Two headers against each other. *)
Definition headers_conflict (m : Misbehaviour) : bool :=
  let h1 := mb_header1 m in let h2 := mb_header2 m in
  if header_height h1 =? header_height h2 then
    negb (bool_decide (bi_hash (cm_blockId (sh_commit (signedHeader h1))) = bi_hash (cm_blockId (sh_commit (signedHeader h2)))))
  else if header_height h2 <? header_height h1 then header_time h1 <=? header_time h2
  else header_time h2 <=? header_time h1.

(** ** Client messages ([types/msgs/client-message.ts]) *)

Definition TENDERMINT_HEADER_TYPE_URL : string := "/ibc.lightclients.tendermint.v1.Header".
Definition TENDERMINT_MISBEHAVIOUR_TYPE_URL : string := "/ibc.lightclients.tendermint.v1.Misbehaviour".

Definition header_of_any (a : PAny) : result Header := m ← decodeHeader (any_value a); initializeHeader m.
Definition misbehaviour_of_any (a : PAny) : result Misbehaviour := m ← decodeMisBehaviour (any_value a); initializeMisbehaviour m.

Definition verifyClientMessage (a : PAny) (d : ClientDatum) : result bool :=
  if bool_decide (any_type_url a = TENDERMINT_HEADER_TYPE_URL) then h ← header_of_any a; verifyHeader h d
  else if bool_decide (any_type_url a = TENDERMINT_MISBEHAVIOUR_TYPE_URL) then m ← misbehaviour_of_any a; verifyMisbehaviour m d
  else Ok false.

Definition checkForMisbehaviour (a : PAny) (d : ClientDatum) : result bool :=
  if bool_decide (any_type_url a = TENDERMINT_HEADER_TYPE_URL) then h ← header_of_any a; Ok (header_conflicts h (consensusStates (cld_state d)))
  else if bool_decide (any_type_url a = TENDERMINT_MISBEHAVIOUR_TYPE_URL) then m ← misbehaviour_of_any a; Ok (headers_conflict m)
  else Ok false.

(** [null] for another type. *)
Definition getClientMessageFromTendermint (a : PAny) : result (option ClientMessage) :=
  if bool_decide (any_type_url a = TENDERMINT_HEADER_TYPE_URL) then
    m ← decodeMessage (A := PLcHeader) (any_value a); h ← initializeHeader m; Ok (Some (HeaderCase h))
  else if bool_decide (any_type_url a = TENDERMINT_MISBEHAVIOUR_TYPE_URL) then
    m ← decodeMessage (A := PMisbehaviour) (any_value a); x ← initializeMisbehaviour m; Ok (Some (MisbehaviourCase x))
  else Ok None.

(** ** Redeemers ([types/client-redeemer.ts]) *)

Definition block_id_data (b : BlockID) : pdata :=
  p_object [PBytes (bi_hash b); p_object [PInt (ps_total (bi_partSetHeader b)); PBytes (ps_hash (bi_partSetHeader b))]].
Definition commit_sig_data (s : CommitSig) : pdata :=
  p_object [PInt (sig_block_id_flag s); PBytes (sig_validator_address s); PInt (sig_timestamp s); PBytes (sig_signature s)].
Definition commit_data (c : Commit) : pdata :=
  p_object [PInt (cm_height c); PInt (cm_round c); block_id_data (cm_blockId c); PList (commit_sig_data <$> cm_signatures c)].
Definition tm_header_data (h : TmHeader) : pdata :=
  p_object
    [ p_object [PInt (hd_version h).1; PInt (hd_version h).2]; PBytes (hd_chainId h); PInt (hd_height h); PInt (hd_time h);
      block_id_data (hd_lastBlockId h); PBytes (hd_lastCommitHash h); PBytes (hd_dataHash h); PBytes (hd_validatorsHash h);
      PBytes (hd_nextValidatorsHash h); PBytes (hd_consensusHash h); PBytes (hd_appHash h); PBytes (hd_lastResultsHash h);
      PBytes (hd_evidenceHash h); PBytes (hd_proposerAddress h) ].

(** The schema asks for bytes: a validator without a key cannot be serialised. *)
Definition validator_data (v : Validator) : result pdata :=
  match va_pubkey v with
  | Some k => Ok (p_object [PBytes (va_address v); PBytes k; PInt (va_votingPower v); PInt (va_proposerPriority v)])
  | None => throw "null is not a byte string"
  end.
Fixpoint validators_data (l : list Validator) : result (list pdata) :=
  match l with [] => Ok [] | v :: l' => d ← validator_data v; ds ← validators_data l'; Ok (d :: ds) end.
Definition validator_set_data (s : ValidatorSet) : result pdata :=
  vs ← validators_data (vs_validators s); p ← validator_data (vs_proposer s); Ok (p_object [PList vs; p; PInt (vs_totalVotingPower s)]).
Definition header_data (h : Header) : result pdata :=
  vs ← validator_set_data (validatorSet h);
  ts ← validator_set_data (trustedValidators h);
  Ok (p_object [p_object [tm_header_data (sh_header (signedHeader h)); commit_data (sh_commit (signedHeader h))]; vs;
                height_data (trustedHeight h); ts]).
Definition client_message_data (m : ClientMessage) : result pdata :=
  match m with
  | HeaderCase h => d ← header_data h; Ok (PConstr 0 [d])
  | MisbehaviourCase x =>
      d1 ← header_data (mb_header1 x); d2 ← header_data (mb_header2 x); Ok (PConstr 1 [p_object [PBytes (mb_client_id x); d1; d2]])
  end.

Inductive SpendClientRedeemer := SpendOther | SpendUpdateClient (msg : ClientMessage).

Definition spend_client_data (r : SpendClientRedeemer) : result pdata :=
  match r with
  | SpendUpdateClient m => d ← client_message_data m; Ok (PConstr 0 [d])
  | SpendOther => Ok (p_enum 1)
  end.

Section encoders.
Context `{L : Lucid}.
Definition encodeSpendClientRedeemer (r : SpendClientRedeemer) : result string := d ← spend_client_data r; Data_to true d.
Definition encodeMintClientRedeemer : result string := Data_to true (p_enum 0).
End encoders.
