(* ===== verification/ToyLucid.v ===== *)
(** * A concrete serialiser for the witnesses

    The theorems are stated for every implementation of the [Lucid] interface.
    [toy_encode] is a small length-prefixed encoder of Plutus data; like the real
    one it refuses a byte string that is not hexadecimal and never encodes an
    item as zero bytes. *)

From S2P Require Import Prelude JsMap Hex Datum.

Definition toy_len (b : bytes) : bytes := be_of_N 2 (N.of_nat (length b)) ++ b.

Fixpoint toy_encode (d : pdata) : result bytes :=
  match d with
  | PInt z => Ok (x02 :: be_of_N 8 (Z.to_N z))
  | PBytes h =>
      let b := hex_decode_prefix h in
      if decide (String.length h = 2 * length b)%nat then Ok (x40 :: toy_len b)
      else throw "Failed to serialize bytes"
  | PUndefined => throw "Could not serialize the data: undefined"
  | PConstr i ds =>
      bs ← (fix go l := match l with [] => Ok [] | x :: l' => a ← toy_encode x; b ← go l'; Ok (a ++ b) end) ds;
      Ok (xd8 :: byte_of_N (Z.to_N i) :: toy_len bs)
  | PList ds =>
      bs ← (fix go l := match l with [] => Ok [] | x :: l' => a ← toy_encode x; b ← go l'; Ok (a ++ b) end) ds;
      Ok (x80 :: toy_len bs)
  | PMap es =>
      bs ← (fix go l := match l with
                        | [] => Ok []
                        | (k, v) :: l' => a ← toy_encode k; b ← toy_encode v; c ← go l'; Ok (a ++ b ++ c)
                        end) es;
      Ok (xa0 :: toy_len bs)
  end.

(** The decoder: one item and what follows it.  Every call consumes a byte, so the
    number of bytes is enough fuel. *)
Fixpoint toy_decode (fuel : nat) (l : bytes) {struct fuel} : option (pdata * bytes) :=
  match fuel with
  | O => None
  | S fuel' =>
      let many := (fix many n l := match n, l with
                                   | _, [] => Some []
                                   | O, _ => None
                                   | S n', _ => '(x, r) ← toy_decode fuel' l; xs ← many n' r; Some (x :: xs)
                                   end) in
      let framed l := let n := N.to_nat (be_to_N (take 2 l)) in (take n (drop 2 l), drop n (drop 2 l)) in
      match l with
      | x02 :: r => Some (PInt (Z.of_N (be_to_N (take 8 r))), drop 8 r)
      | x40 :: r => let '(b, r) := framed r in Some (PBytes (hex_encode b), r)
      | xd8 :: i :: r => let '(b, r) := framed r in xs ← many (length b) b; Some (PConstr (Z.of_N (Byte.to_N i)) xs, r)
      | x80 :: r => let '(b, r) := framed r in xs ← many (length b) b; Some (PList xs, r)
      | xa0 :: r =>
          let '(b, r) := framed r in xs ← many (length b) b;
          Some (PMap ((fix pairs l := match l with k :: v :: l' => (k, v) :: pairs l' | _ => [] end) xs), r)
      | _ => None
      end
  end.

#[export] Instance toy_lucid : Lucid | 10 := {
  Data_to _ d := hex_encode <$> toy_encode d;
  Data_from h := let b := hex_decode_prefix h in
    match toy_decode (length b) b with Some (d, []) => Ok d | _ => throw "Invalid data" end;
  CML_to_cbor_hex d := match toy_encode d with Ok b => hex_encode b | Err _ => "" end;
}.

Lemma toy_encode_nonempty d b : toy_encode d = Ok b -> b <> [].
Proof.
  destruct d; cbn [toy_encode]; intros H; inv_bind H; try (by injection H as <-); [|done].
  case_decide; [by injection H as <- | done].
Qed.

#[export] Instance toy_lucid_ok : LucidOk (L := toy_lucid).
Proof.
  constructor. cbn [Data_to toy_lucid]. intros _ d h. destruct (toy_encode d) as [b|e] eqn:E; cbn; [|done].
  intros [= <-]. rewrite hex_decode_encode. by eapply toy_encode_nonempty.
Qed.
