(* ===== verification/OnChainProto.v ===== *)
(** * The validator's protobuf encoders ([cometbft/protos/channel_pb.ak], [connection_pb.ak])

    The on-chain proof checks serialise the counterparty's channel or connection end
    themselves and compare the bytes with the ones the transaction claims.  These are
    their encoders ([ibc/utils/bytes.ak]), over byte arrays; the lemmas show that they
    write the same wire image as the generated TypeScript encoders. *)

From Stdlib Require Import ZArith Lia.
From S2P Require Import Prelude JsString JsNumber Varint Utf8 Binary ProtoCodec ProtoMessages ProtoLaws Datum.

#[local] Open Scope Z_scope.

(** ** [ibc/utils/bytes.ak] *)

(** [push(bytes, byte)] puts a byte in front. *)
Definition push (b : bytes) (x : Z) : bytes := byte_of_Z x :: b.

Definition continuation_byte (v : Z) : Z := v mod 128 + 128.

(** [encode_varint_n (S k)] is [encode_varint_<k + 1>]. *)
Fixpoint encode_varint_n (n : nat) (v : Z) : bytes :=
  match n with
  | O => []
  | S O => push [] v
  | S n' => push (encode_varint_n n' (v / 128)) (continuation_byte v)
  end.

Definition encode_varint (v : Z) : bytes :=
  if v <? 128 then encode_varint_n 1 v else if v <? 16384 then encode_varint_n 2 v
  else if v <? 2097152 then encode_varint_n 3 v else if v <? 268435456 then encode_varint_n 4 v
  else if v <? 34359738368 then encode_varint_n 5 v else if v <? 4398046511104 then encode_varint_n 6 v
  else if v <? 562949953421312 then encode_varint_n 7 v else if v <? 72057594037927936 then encode_varint_n 8 v
  else if v <? 9223372036854775808 then encode_varint_n 9 v else encode_varint_n 10 v.

Definition encode_length_varint (v : Z) : bytes := if v <? 128 then encode_varint_n 1 v else encode_varint_n 2 v.

Definition sov (x : Z) : Z :=
  if x <? 0 then 10 else if x <? 128 then 1 else if x <? 16384 then 2 else if x <? 2097152 then 3
  else if x <? 268435456 then 4 else if x <? 34359738368 then 5 else if x <? 4398046511104 then 6
  else if x <? 562949953421312 then 7 else if x <? 72057594037927936 then 8 else if x <? 9223372036854775808 then 9 else 10.
Definition sov_length (x : Z) : Z := if x <? 128 then 1 else 2.

Definition blen (b : bytes) : Z := Z.of_nat (length b).

Definition size_and_concat (a b : Z * bytes) : Z * bytes :=
  if decide (b.1 = 0) then (a.1, a.2 ++ b.2) else (a.1 + sov_length b.1 + b.1 + 1, a.2 ++ b.2).
Definition add_and_concat (a b : Z * bytes) : Z * bytes := (a.1 + b.1, a.2 ++ b.2).
Definition nest_record (a : Z * bytes) (identifier : Z) : Z * bytes :=
  (sov_length a.1 + a.1 + 1, push (encode_length_varint a.1 ++ a.2) identifier).
Definition encode_int (int identifier : Z) : Z * bytes :=
  if decide (int = 0) then (0, []) else (sov (int mod 2 ^ 64) + 1, push (encode_varint (int mod 2 ^ 64)) identifier).
Definition encode_bytearray (bz1 : bytes) (identifier : Z) : Z * bytes :=
  if decide (blen bz1 = 0) then (0, []) else (blen bz1, push (encode_length_varint (blen bz1) ++ bz1) identifier).

(** ** [channel_pb.ak] *)

Record pb_channel := MkPbChannel {
  pb_state : ChannelState; pb_ordering : Order; pb_port_id : bytes; pb_channel_id : bytes;
  pb_connection_hops : list bytes; pb_version : bytes; pb_upgrade_sequence : Z;
}.

Definition state_to_int32 (s : ChannelState) : Z := match s with Uninitialized => 0 | Init => 1 | TryOpen => 2 | Open => 3 | Close => 4 end.
Definition order_to_int32 (o : Order) : Z := match o with OrderNone => 0 | Unordered => 1 | Ordered => 2 end.

Definition marshal_for_counterparty (port_id channel_id : bytes) : Z * bytes :=
  size_and_concat (size_and_concat (0, []) (encode_bytearray port_id 0xa)) (encode_bytearray channel_id 0x12).

Definition marshal_hop (acc : Z * bytes) (connection_hop : bytes) : Z * bytes :=
  let l := blen connection_hop in
  (acc.1 + sov l + l + 1, acc.2 ++ push (encode_length_varint l ++ connection_hop) 0x22).

Definition marshal_for_channel (c : pb_channel) : Z * bytes :=
  add_and_concat
    (size_and_concat
      (add_and_concat
        (add_and_concat
          (add_and_concat
            (add_and_concat (0, []) (encode_int (state_to_int32 (pb_state c)) 0x8))
            (encode_int (order_to_int32 (pb_ordering c)) 0x10))
          (nest_record (marshal_for_counterparty (pb_port_id c) (pb_channel_id c)) 0x1a))
        (fold_left marshal_hop (pb_connection_hops c) (0, [])))
      (encode_bytearray (pb_version c) 0x2a))
    (encode_int (pb_upgrade_sequence c) 0x30).

(** ** [connection_pb.ak] and [commitment_pb.ak] *)

Record pb_connection := MkPbConnection {
  pbn_client_id : bytes; pbn_versions : list (bytes * list bytes); pbn_state : ConnectionState;
  pbn_counterparty : bytes * bytes * bytes; pbn_delay_period : Z;
}.

Definition conn_state_to_int32 (s : ConnectionState) : Z :=
  match s with ConnUninitialized => 0 | ConnInit => 1 | ConnTryOpen => 2 | ConnOpen => 3 end.

Definition marshal_feature (acc : Z * bytes) (feature : bytes) : Z * bytes :=
  let l := blen feature in
  (acc.1 + sov_length l + l + 1, acc.2 ++ push (encode_length_varint l ++ feature) 0x12).
Definition marshal_for_version (v : bytes * list bytes) : Z * bytes :=
  add_and_concat (size_and_concat (0, []) (encode_bytearray v.1 0xa)) (fold_left marshal_feature v.2 (0, [])).

Definition marshal_for_merkle_prefix (key_prefix : bytes) : Z * bytes :=
  size_and_concat (0, []) (encode_bytearray key_prefix 0xa).
Definition marshal_for_conn_counterparty (cp : bytes * bytes * bytes) : Z * bytes :=
  let '(client_id, connection_id, prefix) := cp in
  add_and_concat
    (size_and_concat (size_and_concat (0, []) (encode_bytearray client_id 0xa)) (encode_bytearray connection_id 0x12))
    (let '(size, bz1) := marshal_for_merkle_prefix prefix in
     (sov_length size + size + 1, push (encode_length_varint size ++ bz1) 0x1a)).

Definition marshal_conn_version (bz1 : bytes) (v : bytes * list bytes) : bytes :=
  let '(size, bz2) := marshal_for_version v in bz1 ++ push (encode_length_varint size ++ bz2) 0x12.

Definition marshal_for_connection_end (c : pb_connection) : bytes :=
  [] ++ (encode_bytearray (pbn_client_id c) 0xa).2
  ++ fold_left marshal_conn_version (pbn_versions c) []
  ++ (let int_state := conn_state_to_int32 (pbn_state c) in
      if decide (int_state = 0) then [] else push (encode_varint int_state) 0x18)
  ++ (let '(size, bz) := marshal_for_conn_counterparty (pbn_counterparty c) in push (encode_length_varint size ++ bz) 0x22)
  ++ (if decide (pbn_delay_period c = 0) then [] else push (encode_varint (pbn_delay_period c)) 0x28).

(** ** Against the wire image *)

Lemma encode_varint_n_leb128 n v : 0 <= v < 128 ^ Z.of_nat n -> (n = 1%nat \/ 128 ^ Z.of_nat (n - 1) <= v) ->
  encode_varint_n n v = leb128 n v.
Proof.
  revert v. induction n as [|[|n] IH]; intros v Hv Hn; [done| |].
  - cbn. pow_norm. destruct (Z.ltb_spec v 128); [done|lia].
  - destruct Hn as [|Hn]; [lia|]. change (S (S n) - 1)%nat with (S n) in Hn.
    assert (128 <= 128 ^ Z.of_nat (S n)) by (rewrite Nat2Z.inj_succ, Z.pow_succ_r by lia; pose proof (Z.pow_pos_nonneg 128 (Z.of_nat n)); lia).
    change (push (encode_varint_n (S n) (v / 128)) (continuation_byte v) = leb128 (S (S n)) v).
    remember (S n) as k. cbn [leb128]. destruct (Z.ltb_spec v 128); [lia|].
    unfold push, continuation_byte. f_equal. rewrite (Nat2Z.inj_succ k), Z.pow_succ_r in Hv by lia. apply IH.
    + div_range.
    + destruct n as [|n]; [left; lia|right]. subst k. replace (S (S n) - 1)%nat with (S n) by lia.
      rewrite (Nat2Z.inj_succ (S n)), Z.pow_succ_r in Hn by lia. apply Z.div_le_lower_bound; lia.
Qed.

Lemma encode_varint_n_varint n v : (0 < n <= 10)%nat -> 0 <= v < 128 ^ Z.of_nat n -> (n = 1%nat \/ 128 ^ Z.of_nat (n - 1) <= v) ->
  encode_varint_n n v = varint v.
Proof.
  intros Hn Hv Hm. rewrite encode_varint_n_leb128 by done. unfold varint. symmetry.
  replace 10%nat with (n + (10 - n))%nat by lia. apply leb128_more; [lia|done].
Qed.

Ltac varint_cases :=
  repeat match goal with |- context [?a <? ?b] => destruct (Z.ltb_spec a b) end; try lia.

Lemma encode_varint_spec v : 0 <= v < 2 ^ 64 -> encode_varint v = varint v.
Proof.
  intros Hv. unfold encode_varint. varint_cases.
  all: match goal with |- encode_varint_n ?n _ = _ => apply (encode_varint_n_varint n); [lia|pow_norm; lia|first [by left|right; pow_norm; lia]] end.
Qed.

(** Lengths that [encode_length_varint] accepts. *)
Definition small (l : Z) : Prop := 0 <= l < 16384.

Lemma encode_length_spec l : small l -> encode_length_varint l = varint l.
Proof.
  intros Hl. unfold small in Hl. unfold encode_length_varint. varint_cases.
  all: match goal with |- encode_varint_n ?n _ = _ => apply (encode_varint_n_varint n); [lia|pow_norm; lia|first [by left|right; pow_norm; lia]] end.
Qed.

Lemma length_varint_at n v : (0 < n <= 10)%nat -> 0 <= v < 128 ^ Z.of_nat n -> (n = 1%nat \/ 128 ^ Z.of_nat (n - 1) <= v) ->
  blen (varint v) = Z.of_nat n.
Proof.
  intros Hn Hv Hm. unfold blen. f_equal. destruct n as [|k]; [lia|]. apply (length_leb128 10 v k); [lia| |lia].
  destruct Hm as [Hm|Hm]; [left; lia|right]. by replace (S k - 1)%nat with k in Hm by lia.
Qed.

Lemma sov_spec v : 0 <= v < 2 ^ 64 -> sov v = blen (varint v).
Proof.
  intros Hv. unfold sov. varint_cases; symmetry.
  all: match goal with |- _ = ?n => let k := eval vm_compute in (Z.to_nat n) in apply (length_varint_at k) end;
    [lia|pow_norm; lia|first [by left|right; pow_norm; lia]].
Qed.
Lemma sov_length_spec l : small l -> sov_length l = blen (varint l).
Proof. intros Hl. unfold small in Hl. rewrite <- sov_spec by lia. unfold sov_length, sov. varint_cases. Qed.

Lemma varint_tag tag : 0 <= tag < 128 -> varint tag = [byte_of_Z tag].
Proof. intros H. unfold varint. cbn [leb128]. destruct (Z.ltb_spec tag 128); [done|lia]. Qed.

Lemma push_tag b tag : 0 <= tag < 128 -> push b tag = varint tag ++ b.
Proof. intros H. unfold push. by rewrite varint_tag. Qed.

Definition small_bytes (b : bytes) : Prop := small (blen b).

(** A pair carries the length of its bytes. *)
Definition sized (p : Z * bytes) (b : bytes) : Prop := p = (blen b, b).

Lemma blen_app a b : blen (a ++ b) = blen a + blen b.
Proof. unfold blen. rewrite length_app. lia. Qed.

Lemma sized_nil : sized (0, []) [].
Proof. done. Qed.

Lemma sized_bytes p a b tag : sized p a -> small_bytes b -> 0 <= tag < 128 ->
  sized (size_and_concat p (encode_bytearray b tag)) (a ++ wire_bytes tag b).
Proof.
  intros -> Hb Ht. unfold small_bytes in Hb. unfold size_and_concat, encode_bytearray, wire_bytes, sized.
  assert (blen b = 0 <-> length b = 0%nat) as Hz by (unfold blen; lia).
  destruct (decide (blen b = 0)) as [E|E]; cbn [fst snd].
  - rewrite decide_True by done. rewrite decide_True by (by apply Hz). by rewrite app_nil_r.
  - rewrite decide_False by done. rewrite decide_False by (by rewrite <- Hz). unfold wire_delimited.
    rewrite push_tag, encode_length_spec, sov_length_spec by done. f_equal.
    rewrite !blen_app, (varint_tag tag) by done. unfold blen in *. cbn [length]. lia.
Qed.

Lemma sized_int p a v tag : sized p a -> 0 <= tag < 128 -> sized (add_and_concat p (encode_int v tag)) (a ++ wire_int tag v).
Proof.
  intros -> Ht. unfold add_and_concat, encode_int, wire_int, sized. destruct (decide (v = 0)); cbn [fst snd].
  - rewrite app_nil_r. f_equal. lia.
  - fold (u64 v). pose proof (u64_range v) as Hu. rewrite push_tag, encode_varint_spec, sov_spec by done. f_equal.
    rewrite !blen_app, (varint_tag tag) by done. unfold blen. cbn [length]. lia.
Qed.

Lemma sized_add p a q b : sized p a -> sized q b -> sized (add_and_concat p q) (a ++ b).
Proof. intros -> ->. unfold sized, add_and_concat. cbn. by rewrite blen_app. Qed.

Lemma sized_delimited tag b l : 0 <= tag < 128 -> small_bytes b -> l = sov_length (blen b) + blen b + 1 ->
  sized (l, push (encode_length_varint (blen b) ++ b) tag) (wire_delimited tag b).
Proof.
  intros Ht Hb ->. unfold small_bytes in Hb. unfold sized, wire_delimited.
  rewrite push_tag, encode_length_spec, sov_length_spec by done. f_equal. rewrite !blen_app, (varint_tag tag) by done.
  unfold blen. cbn [length]. lia.
Qed.

Lemma delimited_bytes tag b : 0 <= tag < 128 -> small_bytes b -> push (encode_length_varint (blen b) ++ b) tag = wire_delimited tag b.
Proof. intros Ht Hb. exact (f_equal snd (sized_delimited tag b _ Ht Hb eq_refl)). Qed.

Lemma sized_nest tag p b : 0 <= tag < 128 -> small_bytes b -> sized p b -> sized (nest_record p tag) (wire_delimited tag b).
Proof. intros Ht Hb ->. unfold nest_record. cbn [fst snd]. by apply sized_delimited. Qed.

Lemma blen_delimited tag b : 0 <= tag < 128 -> small_bytes b -> blen (wire_delimited tag b) <= blen b + 3.
Proof.
  intros Ht Hb. unfold wire_delimited. rewrite !blen_app, (varint_tag tag) by done. fold (blen b).
  rewrite <- (sov_length_spec (blen b)) by done. unfold sov_length. change (blen [byte_of_Z tag]) with 1. destruct (_ <? _); lia.
Qed.
Lemma blen_wire_bytes tag b : 0 <= tag < 128 -> small_bytes b -> blen (wire_bytes tag b) <= blen b + 3.
Proof. intros Ht Hb. unfold wire_bytes. case_decide; [unfold blen; cbn; lia|by apply blen_delimited]. Qed.

(** The list loops. *)
Lemma sized_loop (f : Z * bytes -> bytes -> Z * bytes) tag l : 0 <= tag < 128 -> Forall small_bytes l ->
  (forall p b, small_bytes b -> exists n, f p b = add_and_concat p (n, push (encode_length_varint (blen b) ++ b) tag) /\
    n = sov_length (blen b) + blen b + 1) ->
  forall p a, sized p a -> sized (fold_left f l p) (a ++ wire_repeated wire_text tag (text <$> l)).
Proof.
  intros Ht Hl Hf. induction Hl as [|b l Hb Hl IH]; intros p a Hp; [by rewrite app_nil_r|].
  cbn [fold_left]. destruct (Hf p b Hb) as (n & -> & Hn). unfold wire_repeated. cbn [fmap list_fmap mbind list_bind].
  rewrite app_assoc. apply IH. apply sized_add; [done|]. unfold wire_text. rewrite utf8_text. by apply sized_delimited.
Qed.

Lemma wire_string_text tag b : wire_string tag (text b) = wire_bytes tag b.
Proof.
  unfold wire_string, wire_bytes. rewrite utf8_text. destruct b as [|x b]; [done|].
  rewrite decide_False; [done|]. intros H%(f_equal utf8). by rewrite utf8_text in H.
Qed.

Definition proto_channel (c : pb_channel) : PChannel :=
  MkPChannel (state_to_int32 (pb_state c)) (order_to_int32 (pb_ordering c))
    (MkPCounterparty (text (pb_port_id c)) (text (pb_channel_id c))) (text <$> pb_connection_hops c) (text (pb_version c)).

Definition small_channel (c : pb_channel) : Prop :=
  blen (pb_port_id c) + blen (pb_channel_id c) < 16000 /\ Forall small_bytes (pb_connection_hops c) /\
  small_bytes (pb_version c) /\ pb_upgrade_sequence c = 0.

Lemma marshal_for_channel_wire c : small_channel c -> (marshal_for_channel c).2 = wire (proto_channel c).
Proof.
  destruct c as [s o p ci h v u]. intros (Hc & Hh & Hv & Hu). cbn in Hc, Hh, Hv, Hu. subst u.
  assert (0 <= blen p /\ 0 <= blen ci) as [] by (unfold blen; lia).
  assert (sized (marshal_for_counterparty p ci) (wire_bytes 10 p ++ wire_bytes 18 ci)) as Hcp.
  { unfold marshal_for_counterparty. rewrite <- (app_nil_l (wire_bytes 10 p)).
    repeat apply sized_bytes; try apply sized_nil; try lia; unfold small_bytes, small; lia. }
  assert (small_bytes (wire_bytes 10 p ++ wire_bytes 18 ci)) as Hsm.
  { pose proof (blen_wire_bytes 10 p) as H1. pose proof (blen_wire_bytes 18 ci) as H2. unfold small_bytes, small in *.
    rewrite blen_app. unfold blen in *. lia. }
  enough (sized (marshal_for_channel (MkPbChannel s o p ci h v 0)) (wire (proto_channel (MkPbChannel s o p ci h v 0)))) as -> by done.
  unfold wire; cbn [PChannel_ok concat proto_channel pch_state pch_ordering pch_counterparty pch_connection_hops pch_version
    pb_state pb_ordering pb_port_id pb_channel_id pb_connection_hops pb_version].
  rewrite app_nil_r, wire_string_text, !app_assoc. unfold marshal_for_channel.
  cbn [pb_state pb_ordering pb_port_id pb_channel_id pb_connection_hops pb_version pb_upgrade_sequence].
  rewrite <- (app_nil_r (_ ++ wire_bytes 42 v)). apply sized_add; [|done].
  apply sized_bytes; [|done|lia]. apply sized_add.
  - apply sized_add.
    + rewrite <- (app_nil_l (wire_int 8 _)). repeat apply sized_int; try apply sized_nil; lia.
    + unfold wire_message, wire; cbn [PCounterparty_ok concat pc_port_id pc_channel_id]. rewrite app_nil_r, !wire_string_text.
      apply sized_nest; [lia|done|done].
  - rewrite <- (app_nil_l (wire_repeated _ _ _)). apply (sized_loop marshal_hop); [lia|done| |apply sized_nil].
    intros q b Hb. exists (sov (blen b) + blen b + 1). unfold small_bytes, small in Hb.
    split; [unfold add_and_concat, marshal_hop; cbn [fst snd]; f_equal; lia|].
    assert (sov (blen b) = sov_length (blen b)) as ->; [|lia]. unfold sov, sov_length. varint_cases.
Qed.

Definition proto_version (v : bytes * list bytes) : PVersion := MkPVersion (text v.1) (text <$> v.2).
Definition proto_connection (c : pb_connection) : PConnectionEnd :=
  let '(client_id, connection_id, prefix) := pbn_counterparty c in
  MkPConnectionEnd (text (pbn_client_id c)) (proto_version <$> pbn_versions c) (conn_state_to_int32 (pbn_state c))
    (MkPConnCounterparty (text client_id) (text connection_id) (MkPMerklePrefix prefix)) (pbn_delay_period c).

Definition small_version (v : bytes * list bytes) : Prop :=
  small_bytes v.1 /\ Forall small_bytes v.2 /\ small_bytes (wire (proto_version v)).
Definition small_connection (c : pb_connection) : Prop :=
  let '(client_id, connection_id, prefix) := pbn_counterparty c in
  small_bytes (pbn_client_id c) /\ Forall small_version (pbn_versions c) /\
  blen client_id + blen connection_id + blen prefix < 16000 /\ uint64_ok (pbn_delay_period c).

Lemma marshal_for_version_sized v : small_version v -> sized (marshal_for_version v) (wire (proto_version v)).
Proof.
  destruct v as [i fs]. intros (Hi & Hf & _). cbn in Hi, Hf. unfold wire; cbn [PVersion_ok concat proto_version pv_identifier pv_features].
  rewrite app_nil_r, wire_string_text. unfold marshal_for_version. cbn [fst snd]. apply sized_add.
  - rewrite <- (app_nil_l (wire_bytes _ _)). apply sized_bytes; [apply sized_nil|done|lia].
  - rewrite <- (app_nil_l (wire_repeated _ _ _)). apply (sized_loop marshal_feature); [lia|done| |apply sized_nil].
    intros q b Hb. exists (sov_length (blen b) + blen b + 1). split; [|done].
    unfold add_and_concat, marshal_feature. cbn [fst snd]. f_equal. lia.
Qed.

Lemma marshal_versions_wire vs acc : Forall small_version vs ->
  fold_left marshal_conn_version vs acc = acc ++ wire_repeated wire_message 18 (proto_version <$> vs).
Proof.
  intros Hv. revert acc. induction Hv as [|v vs Hv Hvs IH]; intros acc; [by rewrite app_nil_r|].
  cbn [fold_left]. rewrite IH. unfold wire_repeated. cbn [fmap list_fmap mbind list_bind]. rewrite app_assoc. f_equal.
  unfold marshal_conn_version. rewrite (marshal_for_version_sized v Hv). f_equal.
  destruct Hv as (_ & _ & Hs). by apply delimited_bytes.
Qed.

Lemma marshal_conn_counterparty_sized ci ni pr : blen ci + blen ni + blen pr < 16000 ->
  let w := wire (MkPConnCounterparty (text ci) (text ni) (MkPMerklePrefix pr)) in
  sized (marshal_for_conn_counterparty (ci, ni, pr)) w /\ small_bytes w.
Proof.
  intros Hc. assert (0 <= blen ci /\ 0 <= blen ni /\ 0 <= blen pr) as (? & ? & ?) by (unfold blen; lia).
  assert (small_bytes ci /\ small_bytes ni /\ small_bytes pr) as (Hci & Hni & Hpr) by (unfold small_bytes, small; lia).
  pose proof (blen_wire_bytes 10 pr ltac:(lia) Hpr) as Hp1. pose proof (blen_wire_bytes 10 ci ltac:(lia) Hci) as Hp2.
  pose proof (blen_wire_bytes 18 ni ltac:(lia) Hni) as Hp3.
  assert (small_bytes (wire_bytes 10 pr)) as Hsp by (unfold small_bytes, small in *; unfold blen in *; lia).
  pose proof (blen_delimited 26 (wire_bytes 10 pr) ltac:(lia) Hsp) as Hp4.
  cbv zeta. unfold wire; cbn [PConnCounterparty_ok concat pcc_client_id pcc_connection_id pcc_prefix].
  rewrite app_nil_r, !wire_string_text, app_assoc. unfold wire_message, wire; cbn [PMerklePrefix_ok concat px_key_prefix].
  rewrite app_nil_r. split; [|unfold small_bytes, small in *; rewrite !blen_app; unfold blen in *; lia].
  unfold marshal_for_conn_counterparty. apply sized_add.
  - rewrite <- (app_nil_l (wire_bytes 10 _)). repeat apply sized_bytes; (done || lia || apply sized_nil).
  - assert (sized (marshal_for_merkle_prefix pr) (wire_bytes 10 pr)) as ->.
    { unfold marshal_for_merkle_prefix. rewrite <- (app_nil_l (wire_bytes _ _)). apply sized_bytes; [apply sized_nil|done|lia]. }
    by apply sized_delimited.
Qed.

Lemma marshal_for_connection_wire c : small_connection c -> marshal_for_connection_end c = wire (proto_connection c).
Proof.
  destruct c as [ci vs s [[cc cn] pr] d]. intros (Hci & Hvs & Hcp & Hd). cbn in Hci, Hvs, Hcp, Hd.
  destruct (marshal_conn_counterparty_sized cc cn pr Hcp) as [Hm Hs]. cbv zeta in Hm, Hs.
  unfold marshal_for_connection_end. cbn [pbn_client_id pbn_versions pbn_state pbn_counterparty pbn_delay_period app].
  unfold wire at 1; cbn [PConnectionEnd_ok concat proto_connection pce_client_id pce_versions pce_state pce_counterparty pce_delay_period
    pbn_client_id pbn_versions pbn_state pbn_counterparty pbn_delay_period].
  rewrite app_nil_r, wire_string_text, Hm, marshal_versions_wire by done. cbn [app].
  f_equal; [|f_equal; f_equal; [|f_equal]].
  - unfold encode_bytearray, wire_bytes, wire_delimited. unfold small_bytes in Hci.
    destruct (decide (blen ci = 0)); destruct (decide (length ci = 0%nat)); try (unfold blen in *; lia); [done|].
    cbn [snd]. by rewrite push_tag, encode_length_spec by (done || lia).
  - unfold wire_int. destruct s; cbn [conn_state_to_int32]; reflexivity.
  - by apply delimited_bytes.
  - unfold wire_int. case_decide; [done|]. unfold uint64_ok in Hd. unfold u64. rewrite (Z.mod_small d) by done.
    by rewrite push_tag, encode_varint_spec by (done || lia).
Qed.
