(* ===== verification/StateRoot.v ===== *)
(** * State-root computation ([shared/helpers/ibc-state-root.ts])

    The module variable [currentTree] is the canonical tree.  Every
    [computeRootWith...] function works on a clone, returns the new root, the
    per-key sibling witnesses the validator replays, and a [commit] closure that
    installs the clone.  The module state is [gstate]; a closure that only runs
    [currentTree = speculativeTree] is represented by the tree it captured. *)

From S2P Require Import Prelude JsMap Hex MerkleTree Datum.

Record gstate := MkGState {
  currentTree : ICS23MerkleTree;
  servicesReady : bool;
}.

Definition set_tree (t : ICS23MerkleTree) (s : gstate) : gstate := MkGState t (servicesReady s).

Section stateroot.
Context `{SHA : Sha256} `{L : Lucid}.

(** A method call on [currentTree]. *)
Definition on_current {A} (m : M ICS23MerkleTree A) : M gstate A :=
  fun s => let '(r, t) := m (currentTree s) in (r, set_tree t s).

Definition initTreeServices : M gstate unit := modify (fun s => MkGState (currentTree s) true).

Definition zero_root : string := text (replicate 64 x30).

Definition sub16 (s : string) : string := text (take 16 (utf8 s)).

Definition out_of_sync (rootHash currentRoot : string) : error :=
  JsError ("Tree out of sync with on-chain state. Expected root " +:+ sub16 rootHash +:+
           "..., but in-memory root is " +:+ sub16 currentRoot +:+ "...").

Definition getClonedTreeFromRoot (rootHash : string) : M gstate ICS23MerkleTree :=
  if decide (rootHash = zero_root) then mret new_tree
  else
    currentRoot ← on_current getRoot;
    if decide (currentRoot = rootHash) then gets (fun s => clone (currentTree s))
    else raise (out_of_sync rootHash currentRoot).

Definition isTreeAligned (onChainRoot : string) : M gstate bool :=
  r ← on_current getRoot; mret (bool_decide (r = onChainRoot)).

Definition getCurrentTree : M gstate ICS23MerkleTree := gets currentTree.
Definition setCurrentTree (t : ICS23MerkleTree) : M gstate unit := modify (set_tree t).
Definition getCurrentRoot : M gstate string := on_current getRoot.
Definition resetTreeState : M gstate unit := modify (set_tree new_tree).

(** ** Results *)

(** The common part of every result; the closure [commit] is the tree it
    installs. *)
Record StateRootResult (W : Type) := MkResult {
  newRoot : string; witness : W; commitTree : ICS23MerkleTree
}.
Arguments MkResult {_} _ _ _.
Arguments newRoot {_} _.
Arguments witness {_} _.
Arguments commitTree {_} _.

Definition commit {W} (r : StateRootResult W) : M gstate unit := modify (set_tree (commitTree r)).

(** Run a program on the speculative tree, then [getRoot], then package. *)
Definition speculate {W} (oldRoot : string) (body : M ICS23MerkleTree W) : M gstate (StateRootResult W) :=
  tree ← getClonedTreeFromRoot oldRoot;
  '((w, newRoot), speculativeTree) ←
    on_local tree (w ← body; r ← getRoot; mret (w, r));
  mret (MkResult newRoot w speculativeTree).

(** [speculativeTree.getSiblings(path).map((h) => h.toString('hex'))], then
    [speculativeTree.set(path, value)]. *)
Definition update_key (path : string) (value : bytes) : M ICS23MerkleTree (list string) :=
  siblings ← getSiblings path;
  modify (tree_set path value) ;;
  mret (hex_encode <$> siblings).

(** ** ICS-24 paths *)
Definition clientStatePath (clientId : string) : string := "clients/" +:+ clientId +:+ "/clientState".
Definition consensusStatePath (clientId height : string) : string :=
  "clients/" +:+ clientId +:+ "/consensusStates/" +:+ height.
Definition connectionPath (connectionId : string) : string := "connections/" +:+ connectionId.
Definition portPath (portId : string) : string := "ports/" +:+ portId.
Definition channel_suffix (portId channelId : string) : string :=
  "/ports/" +:+ portId +:+ "/channels/" +:+ channelId.
Definition channelEndPath (p c : string) : string := "channelEnds" +:+ channel_suffix p c.
Definition nextSequenceSendPath (p c : string) : string := "nextSequenceSend" +:+ channel_suffix p c.
Definition nextSequenceRecvPath (p c : string) : string := "nextSequenceRecv" +:+ channel_suffix p c.
Definition nextSequenceAckPath (p c : string) : string := "nextSequenceAck" +:+ channel_suffix p c.
Definition sequence_suffix (p c : string) (sequence : Z) : string :=
  channel_suffix p c +:+ "/sequences/" +:+ pretty sequence.
Definition commitmentPath (p c : string) (n : Z) : string := "commitments" +:+ sequence_suffix p c n.
Definition receiptPath (p c : string) (n : Z) : string := "receipts" +:+ sequence_suffix p c n.
Definition ackPath (p c : string) (n : Z) : string := "acks" +:+ sequence_suffix p c n.

(** ** Clients.  Heights arrive as [string | number | bigint] and are used only
    through [String(height)]; the argument is that string. *)

(** The untyped variants serialise with [serializeValue]; the argument is the
    resulting buffer. *)
Definition computeRootWithClientUpdate (oldRoot clientId : string) (clientValue : bytes)
    (consensus : option (string * bytes)) : M gstate (StateRootResult unit) :=
  speculate oldRoot (
    modify (tree_set (clientStatePath clientId) clientValue) ;;
    match consensus with
    | Some (heightStr, consensusValue) =>
        modify (tree_set (consensusStatePath clientId heightStr) consensusValue)
    | None => mret tt
    end).

Record CreateClientW := MkCreateClientW {
  cc_clientStateSiblings : list string; cc_consensusStateSiblings : list string
}.

Definition computeRootWithCreateClientUpdate (oldRoot clientId : string)
    (clientStateValue consensusStateValue : bytes) (consensusHeight : string)
  : M gstate (StateRootResult CreateClientW) :=
  speculate oldRoot (
    clientStateSiblings ← update_key (clientStatePath clientId) clientStateValue;
    consensusStateSiblings ← update_key (consensusStatePath clientId consensusHeight) consensusStateValue;
    mret (MkCreateClientW clientStateSiblings consensusStateSiblings)).

Record UpdateClientW := MkUpdateClientW {
  uc_clientStateSiblings : list string;
  uc_consensusStateSiblings : list string;
  uc_removedConsensusStateSiblings : list (list string);
}.

Definition expects (what path : string) : error :=
  JsError ("UpdateClient root update expects existing " +:+ what +:+ " at '" +:+ path +:+
           "', but it was not found in the tree").

Definition remove_consensus (clientId heightStr : string) : M ICS23MerkleTree (list string) :=
  let consensusPath := consensusStatePath clientId heightStr in
  present ← gets (tree_get consensusPath);
  match present with
  | None => raise (expects "consensusState" consensusPath)
  | Some _ => update_key consensusPath []
  end.

Definition computeRootWithUpdateClientUpdate (oldRoot clientId : string) (newClientStateValue : bytes)
    (removedConsensusHeights : list string) (addedConsensusState : option (string * bytes))
  : M gstate (StateRootResult UpdateClientW) :=
  speculate oldRoot (
    let clientPath := clientStatePath clientId in
    present ← gets (tree_get clientPath);
    match present with
    | None => raise (expects "clientState" clientPath)
    | Some _ =>
        clientStateSiblings ← update_key clientPath newClientStateValue;
        removed ← mapM_ (remove_consensus clientId) removedConsensusHeights;
        consensusStateSiblings ←
          match addedConsensusState with
          | None => mret []
          | Some (heightStr, value) =>
              let consensusPath := consensusStatePath clientId heightStr in
              old ← gets (tree_get consensusPath);
              match old with
              | Some _ => raise (JsError ("UpdateClient root update expects no consensusState at '" +:+
                                   consensusPath +:+ "' before insertion, but one already exists"))
              | None => update_key consensusPath value
              end
          end;
        mret (MkUpdateClientW clientStateSiblings consensusStateSiblings removed)
    end).

(** ** Connections, ports and channel handshakes *)

Definition computeRootWithCreateConnectionUpdate (oldRoot connectionId : string) (connectionValue : bytes)
  : M gstate (StateRootResult (list string)) :=
  speculate oldRoot (update_key (connectionPath connectionId) connectionValue).

Definition computeRootWithConnectionUpdate (oldRoot connectionId : string) (value : bytes)
  : M gstate (StateRootResult unit) :=
  speculate oldRoot (modify (tree_set (connectionPath connectionId) value)).

Definition computeRootWithPortBind (oldRoot portId : string) (portValue : bytes)
  : M gstate (StateRootResult (list string)) :=
  speculate oldRoot (update_key (portPath portId) portValue).

Record CreateChannelW := MkCreateChannelW {
  cw_channelSiblings : list string;
  cw_nextSequenceSendSiblings : list string;
  cw_nextSequenceRecvSiblings : list string;
  cw_nextSequenceAckSiblings : list string;
}.

Definition computeRootWithCreateChannelUpdate (oldRoot portId channelId : string)
    (channelValue nextSequenceSendValue nextSequenceRecvValue nextSequenceAckValue : bytes)
  : M gstate (StateRootResult CreateChannelW) :=
  speculate oldRoot (
    channelSiblings ← update_key (channelEndPath portId channelId) channelValue;
    sendSiblings ← update_key (nextSequenceSendPath portId channelId) nextSequenceSendValue;
    recvSiblings ← update_key (nextSequenceRecvPath portId channelId) nextSequenceRecvValue;
    ackSiblings ← update_key (nextSequenceAckPath portId channelId) nextSequenceAckValue;
    mret (MkCreateChannelW channelSiblings sendSiblings recvSiblings ackSiblings)).

Definition computeRootWithUpdateChannelUpdate (oldRoot portId channelId : string) (channelValue : bytes)
  : M gstate (StateRootResult (list string)) :=
  speculate oldRoot (update_key (channelEndPath portId channelId) channelValue).

(** [channelState?.port_id || 'transfer'] *)
Definition computeRootWithChannelUpdate (oldRoot channelId : string) (port_id : option string) (value : bytes)
  : M gstate (StateRootResult unit) :=
  let portId := match port_id with Some p => if decide (p = "") then "transfer" else p | None => "transfer" end in
  speculate oldRoot (modify (tree_set (channelEndPath portId channelId) value)).

(** ** Packets *)

Record HandlePacketW := MkHandlePacketW {
  hp_channelSiblings : list string;
  hp_nextSequenceSendSiblings : list string;
  hp_nextSequenceRecvSiblings : list string;
  hp_nextSequenceAckSiblings : list string;
  hp_packetCommitmentSiblings : list string;
  hp_packetReceiptSiblings : list string;
  hp_packetAcknowledgementSiblings : list string;
}.

(** An update guarded by "the field changed"; its value is encoded first. *)
Definition update_if (changed : bool) (path : string) (value : result string)
  : M ICS23MerkleTree (list string) :=
  if changed then v ← liftR value; update_key path (hex_decode_prefix v) else mret [].

(** Entries of [a] whose key is not in [b]. *)
Definition entries_not_in (a b : jsmap Z string) : list (Z * string) :=
  filter (fun kv => map_has b kv.1 = false) a.

Definition counts (inserted removed : list (Z * string)) : string :=
  pretty (length inserted) +:+ " insertions and " +:+ pretty (length removed) +:+ " deletions".

Definition handle_packet_commitments (p c : string) (input output : jsmap Z string)
  : M ICS23MerkleTree (list string) :=
  let inserted := entries_not_in output input in
  let removed := entries_not_in input output in
  match inserted with
  | (sequence, commitmentBytes) :: _ =>
      if decide (length removed <> 0%nat \/ length inserted <> 1%nat) then
        raise (JsError ("HandlePacket root update expects exactly one commitment insertion and no deletions; got "
                        +:+ counts inserted removed))
      else
        newValue ← liftR (encodeBytesValue commitmentBytes);
        update_key (commitmentPath p c sequence) (hex_decode_prefix newValue)
  | [] =>
      match removed with
      | (sequence, _) :: _ =>
          if decide (length removed <> 1%nat) then
            raise (JsError ("HandlePacket root update expects exactly one commitment deletion; got "
                            +:+ pretty (length removed)))
          else update_key (commitmentPath p c sequence) []
      | [] => mret []
      end
  end.

Definition handle_packet_inserts (what : string) (path : Z -> string) (input output : jsmap Z string)
  : M ICS23MerkleTree (list string) :=
  let inserted := entries_not_in output input in
  let removed := entries_not_in input output in
  match inserted with
  | (sequence, valueBytes) :: _ =>
      if decide (length removed <> 0%nat \/ length inserted <> 1%nat) then
        raise (JsError ("HandlePacket root update expects " +:+ what +:+
                        "s to only ever insert a single entry; got " +:+ counts inserted removed))
      else
        newValue ← liftR (encodeBytesValue valueBytes);
        update_key (path sequence) (hex_decode_prefix newValue)
  | [] =>
      match removed with
      | _ :: _ => raise (JsError ("HandlePacket root update does not allow " +:+ what +:+ " deletions"))
      | [] => mret []
      end
  end.

Definition handle_packet_body (p c : string) (input output : ChannelDatumState)
  : M ICS23MerkleTree HandlePacketW :=
  channelSiblings ←
    update_if (negb (obj_ref (channel input) =? obj_ref (channel output))%nat)
      (channelEndPath p c) (encodeChannelEndValue (obj_val (channel output)));
  sendSiblings ←
    update_if (negb (next_sequence_send input =? next_sequence_send output)%Z)
      (nextSequenceSendPath p c) (encodeIntegerValue (next_sequence_send output));
  recvSiblings ←
    update_if (negb (next_sequence_recv input =? next_sequence_recv output)%Z)
      (nextSequenceRecvPath p c) (encodeIntegerValue (next_sequence_recv output));
  ackSiblings ←
    update_if (negb (next_sequence_ack input =? next_sequence_ack output)%Z)
      (nextSequenceAckPath p c) (encodeIntegerValue (next_sequence_ack output));
  commitmentSiblings ← handle_packet_commitments p c (packet_commitment input) (packet_commitment output);
  receiptSiblings ←
    handle_packet_inserts "receipt" (receiptPath p c) (packet_receipt input) (packet_receipt output);
  acknowledgementSiblings ←
    handle_packet_inserts "acknowledgement" (ackPath p c)
      (packet_acknowledgement input) (packet_acknowledgement output);
  mret (MkHandlePacketW channelSiblings sendSiblings recvSiblings ackSiblings
          commitmentSiblings receiptSiblings acknowledgementSiblings).

Definition computeRootWithHandlePacketUpdate (oldRoot portId channelId : string)
    (inputChannelDatum outputChannelDatum : ChannelDatum) : M gstate (StateRootResult HandlePacketW) :=
  speculate oldRoot
    (handle_packet_body portId channelId (cd_state inputChannelDatum) (cd_state outputChannelDatum)).

Record PruneW := MkPruneW { pr_receiptSiblings : list string; pr_acknowledgementSiblings : list string }.

Definition computeRootWithPrunePacketHistoryUpdate (oldRoot portId channelId : string) (sequence : Z)
  : M gstate (StateRootResult PruneW) :=
  speculate oldRoot (
    let rPath := receiptPath portId channelId sequence in
    let aPath := ackPath portId channelId sequence in
    r ← gets (tree_get rPath);
    a ← gets (tree_get aPath);
    match r, a with
    | None, _ => raise (JsError ("PrunePacketHistory expects an existing receipt at '" +:+ rPath +:+ "'"))
    | _, None => raise (JsError ("PrunePacketHistory expects an existing acknowledgement at '" +:+ aPath +:+ "'"))
    | Some _, Some _ =>
        receiptSiblings ← update_key rPath [];
        acknowledgementSiblings ← update_key aPath [];
        mret (MkPruneW receiptSiblings acknowledgementSiblings)
    end).

End stateroot.

Arguments MkResult {_} _ _ _.
Arguments newRoot {_} _.
Arguments witness {_} _.
Arguments commitTree {_} _.
