(* ===== verification/PacketHelpers.v ===== *)
(** * Packet helpers

    [shared/helpers/sequence.ts], [helper.ts], [packet-history-height.ts],
    [verify.ts], [packet-keys.ts], [commitment.ts], [acknowledgement.ts],
    [tx/helper/height.validate.ts] and the capacity checks of
    [tx/helper/packet.validate.ts]. *)

From S2P Require Import Prelude JsMap JsString JsJson Hex MerkleTree OnChainCommitment ToyHash Datum StateRoot.

(** ** Identifiers ([sequence.ts]) *)

(** [fragments.pop()]: the last fragment and the ones before it. *)
Definition pop (l : list string) : string * list string :=
  match reverse l with x :: r => (x, reverse r) | [] => ("", []) end.

Definition parseClientSequence (clientId : string) : result string :=
  let fragments := split x2d clientId in
  if decide (length fragments < 2)%nat then throw "Invalid client id format" else
  let '(sequence, rest) := pop fragments in
  if decide (join "-" rest = "") then throw "Invalid client id format" else
  if is_digits sequence then Ok sequence else throw "Invalid client id format".

Definition parse_prefixed (prefix lengthError prefixError id : string) : result Z :=
  let fragments := split x2d id in
  if decide (length fragments <> 2%nat) then throw lengthError else
  let '(sequence, rest) := pop fragments in
  if decide (join "" rest <> prefix) then throw prefixError else BigInt sequence.

Definition parseConnectionSequence : string -> result Z :=
  parse_prefixed "connection" "Invalid connection id format" "Invalid connection id format".
Definition parseChannelSequence : string -> result Z :=
  parse_prefixed "channel" "Invalid connection id format" "Invalid channel id format".

(** ** Maps ([helper.ts]).  A [Map] has no duplicate keys, so copying one is the
    identity. *)

(** [Number(bigint)]: rounding to 53 significant bits, ties to even. *)
Definition number_of_bigint (z : Z) : Z :=
  let n := Z.abs_N z in
  let b := N.log2 n in
  if (b <? 53)%N then z else
  let sh := (b - 52)%N in
  let q := N.shiftr n sh in
  let r := N.land n (N.ones sh) in
  let half := N.shiftl 1 (sh - 1) in
  let q' := if (half <? r)%N || ((half =? r)%N && N.odd q) then (q + 1)%N else q in
  (Z.sgn z * Z.of_N (N.shiftl q' sh))%Z.

(** [Array.prototype.sort] is stable. *)
Fixpoint insert_sorted {V} (kv : Z * V) (l : list (Z * V)) : list (Z * V) :=
  match l with
  | [] => [kv]
  | kv' :: l' => if (number_of_bigint kv.1 <=? number_of_bigint kv'.1)%Z then kv :: l else kv' :: insert_sorted kv l'
  end.
Definition sortByNumberKey {V} (m : jsmap Z V) : jsmap Z V := foldr insert_sorted [] m.

Definition insertSortMapWithNumberKey {V} (inputMap : jsmap Z V) (newKey : Z) (newValue : V) : jsmap Z V :=
  sortByNumberKey (map_set inputMap newKey newValue).

Definition deleteSortMap {V} (sortedMap : jsmap Z V) (keyToDelete : Z) : jsmap Z V :=
  match list_find (fun kv => kv.1 = keyToDelete) sortedMap with
  | Some (index, _) => map_of_entries (delete index sortedMap)
  | None => map_of_entries sortedMap
  end.

Definition deleteKeySortMap {V} (inputMap : jsmap Z V) (deleteKey : Z) : jsmap Z V := map_delete inputMap deleteKey.

Definition prependToMap {V} (m : jsmap Z V) (key : Z) (val : V) : jsmap Z V :=
  fold_left (fun acc kv => map_set acc kv.1 kv.2) m [(key, val)].

Definition getDenomPrefix (portId channelId : string) : string := portId +:+ "/" +:+ channelId +:+ "/".

(** Only the fields that are present and not empty, in alphabetical order. *)
Definition stringifyIcs20PacketData (denom amount sender receiver memo : option string) : string :=
  let field name o := match o with Some v => if decide (v = "") then [] else [(name, v)] | None => [] end in
  stringify_object (field "amount" amount ++ field "denom" denom ++ field "memo" memo ++
                    field "receiver" receiver ++ field "sender" sender).

(** ** Heights *)

Definition isHeightAtLeast (candidate floor : Height) : bool :=
  (revisionNumber floor <? revisionNumber candidate)%Z ||
  ((revisionNumber candidate =? revisionNumber floor)%Z && (revisionHeight floor <=? revisionHeight candidate)%Z).

Definition maximumHeight (left right : Height) : Height := if isHeightAtLeast left right then left else right.

Definition same_height (a b : Height) : bool :=
  (revisionNumber a =? revisionNumber b)%Z && (revisionHeight a =? revisionHeight b)%Z.

Definition isValidProofHeight (heights : list Height) (proofHeight : Height) : bool :=
  existsb (fun height => same_height height proofHeight) heights.

Definition MAX_EXPECTED_TIME_PER_BLOCK : Z := 4000000000.

(** BigInt division truncates. *)
Definition getBlockDelay (timeDelay : Z) : Z :=
  let expectedTimePerBlock := MAX_EXPECTED_TIME_PER_BLOCK in
  if (timeDelay <=? 0)%Z then 0 else
  if (expectedTimePerBlock <=? 0)%Z then 0 else
  let quotient := Z.quot timeDelay expectedTimePerBlock in
  let remainder := Z.rem timeDelay expectedTimePerBlock in
  if (remainder =? 0)%Z then quotient else quotient + 1.

Definition getProcessedHeight (processedTimeNs : Z) : Z :=
  if (MAX_EXPECTED_TIME_PER_BLOCK <=? 0)%Z then 0 else Z.quot processedTimeNs MAX_EXPECTED_TIME_PER_BLOCK.

Fixpoint getHeightMapValue {A} (m : list (Height * A)) (height : Height) : option A :=
  match m with
  | [] => None
  | (key, value) :: m' => if same_height key height then Some value else getHeightMapValue m' height
  end.

(** ** ICS-24 packet paths ([packet-keys.ts], [channel.ts]) *)

Definition channelPathForPacket (portId channelId : string) : string :=
  "ports" +:+ "/" +:+ portId +:+ "/" +:+ "channels" +:+ "/" +:+ channelId.
Definition packetReceiptPath (portId channelId : string) (sequence : Z) : string :=
  "receipts" +:+ "/" +:+ channelPathForPacket portId channelId +:+ "/" +:+ "sequences" +:+ "/" +:+ pretty sequence.
Definition packetCommitmentPath (portId channelId : string) (sequence : Z) : string :=
  "commitments" +:+ "/" +:+ channelPathForPacket portId channelId +:+ "/" +:+ "sequences" +:+ "/" +:+ pretty sequence.
Definition packetAcknowledgementPath (portId channelId : string) (sequence : Z) : string :=
  "acks" +:+ "/" +:+ channelPathForPacket portId channelId +:+ "/" +:+ "sequences" +:+ "/" +:+ pretty sequence.

(** ** Packets *)

Record Packet := MkPacket {
  sequence : Z;
  source_port : string;
  source_channel : string;
  destination_port : string;
  destination_channel : string;
  data : string;
  timeout_height : Height;
  timeout_timestamp : Z;
}.

Inductive AcknowledgementResponse :=
| AcknowledgementResult (result : string)
| AcknowledgementError (err : string).

(** [view.setBigUint64(0, i)]: modulo 2^64, big endian. *)
Definition uint64ToBigEndian (i : Z) : bytes := be_of_N 8 (Z.to_N (i mod 2 ^ 64)).

Section hashing.
Context `{SHA : Sha256}.

(** [crypto.createHash('sha256').update(fromHex(data)).digest('hex')] *)
Definition hashSHA256 (dataHex : string) : result string :=
  b ← fromHex dataHex; Ok (hex_encode (sha256 b)).

Definition commitPacket (packet : Packet) : result string :=
  let buf := uint64ToBigEndian (timeout_timestamp packet) ++
             uint64ToBigEndian (revisionNumber (timeout_height packet)) ++
             uint64ToBigEndian (revisionHeight (timeout_height packet)) in
  dataHash ← hashSHA256 (data packet);
  hashSHA256 (toHex buf +:+ dataHash).

Definition extractAcknowledgementValue (response : AcknowledgementResponse) : string * string :=
  match response with
  | AcknowledgementResult result => ("result", convertHex2String result)
  | AcknowledgementError err => ("error", convertHex2String err)
  end.

Definition acknowledgementJsonFromResponse (response : AcknowledgementResponse) : string :=
  stringify_object [extractAcknowledgementValue response].
Definition acknowledgementBytesFromResponse (response : AcknowledgementResponse) : bytes :=
  utf8 (acknowledgementJsonFromResponse response).
Definition acknowledgementHexFromResponse (response : AcknowledgementResponse) : string :=
  toHex (acknowledgementBytesFromResponse response).
Definition acknowledgementCommitmentFromResponse (response : AcknowledgementResponse) : result string :=
  hashSHA256 (convertString2Hex (acknowledgementJsonFromResponse response)).

End hashing.

(** ** Packet-state capacity ([packet.validate.ts]) *)

Definition MAX_PACKET_ENTRIES_PER_CHANNEL : nat := 64.

Definition packetCapacityExhausted (d : ChannelDatum) : error :=
  GrpcFailedPrecondition ("Channel " +:+ cd_port d +:+ " retained packet state capacity of 64 is exhausted").

Definition packetEntryCount (d : ChannelDatum) : nat :=
  map_size (packet_commitment (cd_state d)) + map_size (packet_receipt (cd_state d)) +
  map_size (packet_acknowledgement (cd_state d)).

Definition validateRecvPacketHistoryCapacity (d : ChannelDatum) : result unit :=
  let insertedEntries := if decide (ch_ordering (obj_val (channel (cd_state d))) = Unordered) then 2%nat else 1%nat in
  if decide (MAX_PACKET_ENTRIES_PER_CHANNEL < packetEntryCount d + insertedEntries)%nat
  then Err (packetCapacityExhausted d) else Ok tt.

Definition validateSendPacketCommitmentCapacity (d : ChannelDatum) : result unit :=
  if decide (MAX_PACKET_ENTRIES_PER_CHANNEL <= packetEntryCount d)%nat
  then Err (packetCapacityExhausted d) else Ok tt.

(** ** Packet helpers: laws *)

(** ** Maps *)

Lemma insert_sorted_perm {V} kv (l : list (Z * V)) : insert_sorted kv l ≡ₚ kv :: l.
Proof.
  induction l as [|kv' l IH]; cbn; [done|]. destruct (_ <=? _)%Z; [done|].
  rewrite IH. apply Permutation_swap.
Qed.

Lemma sortByNumberKey_perm {V} (m : jsmap Z V) : sortByNumberKey m ≡ₚ m.
Proof.
  unfold sortByNumberKey. induction m as [|kv m IH]; cbn; [done|]. by rewrite insert_sorted_perm, IH.
Qed.

Lemma map_wf_perm {V} (m m' : jsmap Z V) : m ≡ₚ m' -> map_wf m -> map_wf m'.
Proof. unfold map_wf, map_keys. by intros ->. Qed.

Lemma map_get_perm {V} (m m' : jsmap Z V) k : map_wf m -> m ≡ₚ m' -> map_get m k = map_get m' k.
Proof.
  intros Hwf Hp. pose proof (map_wf_perm _ _ Hp Hwf) as Hwf'.
  destruct (map_get m k) as [v|] eqn:E; symmetry.
  - apply map_In_get; [done|]. rewrite <- Hp. by apply map_get_In.
  - apply map_get_None. apply map_get_None in E. unfold map_keys in *. by rewrite <- Hp.
Qed.

Lemma insertSortMap_wf {V} (m : jsmap Z V) k v : map_wf m -> map_wf (insertSortMapWithNumberKey m k v).
Proof.
  intros Hwf. unfold insertSortMapWithNumberKey.
  eapply map_wf_perm; [symmetry; apply sortByNumberKey_perm | by apply map_wf_set].
Qed.

Lemma insertSortMap_get {V} (m : jsmap Z V) k v k' : map_wf m ->
  map_get (insertSortMapWithNumberKey m k v) k' = if decide (k = k') then Some v else map_get m k'.
Proof.
  intros Hwf. unfold insertSortMapWithNumberKey.
  rewrite (map_get_perm _ (map_set m k v)); [apply map_get_set | | apply sortByNumberKey_perm].
  eapply map_wf_perm; [symmetry; apply sortByNumberKey_perm | by apply map_wf_set].
Qed.

Lemma map_size_set_fresh {V} (m : jsmap Z V) k v : map_get m k = None -> map_size (map_set m k v) = S (map_size m).
Proof.
  intros H%map_get_None. unfold map_size. rewrite map_set_fresh by done. rewrite length_app. cbn. lia.
Qed.

Lemma insertSortMap_size {V} (m : jsmap Z V) k v :
  map_get m k = None -> map_size (insertSortMapWithNumberKey m k v) = S (map_size m).
Proof.
  intros H. unfold insertSortMapWithNumberKey, map_size. rewrite (sortByNumberKey_perm (map_set m k v)).
  by apply map_size_set_fresh.
Qed.

Lemma insertSortMap_size_le {V} (m : jsmap Z V) k v :
  (map_size (insertSortMapWithNumberKey m k v) <= S (map_size m))%nat.
Proof.
  unfold insertSortMapWithNumberKey, map_size. rewrite (sortByNumberKey_perm (map_set m k v)).
  induction m as [|[k' v'] m IH]; cbn; [lia|]. case_decide; cbn; lia.
Qed.

Lemma map_delete_size {V} (m : jsmap Z V) k : (map_size (map_delete m k) <= map_size m)%nat.
Proof. unfold map_size. induction m as [|[k' v'] m IH]; cbn; [lia|]. case_decide; cbn; lia. Qed.

Lemma map_of_entries_wf_id {K V} `{EqDecision K} (m : jsmap K V) : map_wf m -> map_of_entries m = m.
Proof.
  unfold map_of_entries. intros Hwf.
  assert (forall acc, NoDup (map_keys (acc ++ m)) ->
    fold_left (fun m kv => map_set m kv.1 kv.2) m acc = acc ++ m) as H; [|by apply H].
  clear Hwf. induction m as [|[k v] m IH]; intros acc Hnd; cbn; [by rewrite app_nil_r|].
  rewrite map_set_fresh.
  - rewrite IH; rewrite <- (assoc_L (++)); done.
  - unfold map_keys in Hnd. rewrite fmap_app in Hnd. apply NoDup_app in Hnd as (_ & Hd & _).
    intros Hin. by eapply Hd; [exact Hin | left].
Qed.

Lemma deleteSortMap_delete {V} (m : jsmap Z V) k : map_wf m -> deleteSortMap m k = map_delete m k.
Proof.
  intros Hwf. unfold deleteSortMap.
  assert (match list_find (fun kv => kv.1 = k) m with Some (i, _) => delete i m | None => m end = map_delete m k)
    as Hd.
  { clear Hwf. induction m as [|[k' v'] m IH]; cbn; [done|].
    repeat case_decide; cbn in *; try done; try congruence.
    rewrite <- IH. by destruct (list_find _ m) as [[i kv]|]. }
  destruct (list_find _ m) as [[i kv]|].
  - rewrite Hd. by apply map_of_entries_wf_id, map_wf_delete.
  - by rewrite map_of_entries_wf_id.
Qed.

Lemma prependToMap_fresh {V} (m : jsmap Z V) k v :
  map_wf m -> map_get m k = None -> prependToMap m k v = (k, v) :: m.
Proof.
  intros Hwf Hk%map_get_None. unfold prependToMap.
  assert (forall acc, NoDup (map_keys (acc ++ m)) ->
    fold_left (fun m kv => map_set m kv.1 kv.2) m acc = acc ++ m) as H.
  { clear Hwf Hk. induction m as [|[k' v'] m IH]; intros acc Hnd; cbn; [by rewrite app_nil_r|].
    rewrite map_set_fresh.
    - rewrite IH; rewrite <- (assoc_L (++)); done.
    - unfold map_keys in Hnd. rewrite fmap_app in Hnd. apply NoDup_app in Hnd as (_ & Hd & _).
      intros Hin. by eapply Hd; [exact Hin | left]. }
  apply (H [(k, v)]). cbn. by constructor.
Qed.

(** ** Heights form a total order *)

Lemma height_at_least_refl h : isHeightAtLeast h h = true.
Proof. unfold isHeightAtLeast. rewrite Z.eqb_refl, Z.leb_refl. by rewrite orb_true_r. Qed.

Lemma height_at_least_spec a b :
  isHeightAtLeast a b = true <->
  (revisionNumber b < revisionNumber a \/
   (revisionNumber a = revisionNumber b /\ revisionHeight b <= revisionHeight a))%Z.
Proof.
  unfold isHeightAtLeast. rewrite orb_true_iff, andb_true_iff, Z.ltb_lt, Z.eqb_eq, Z.leb_le. tauto.
Qed.

Lemma height_at_least_trans a b c :
  isHeightAtLeast a b = true -> isHeightAtLeast b c = true -> isHeightAtLeast a c = true.
Proof. rewrite !height_at_least_spec. lia. Qed.

Lemma maximumHeight_ge a b :
  isHeightAtLeast (maximumHeight a b) a = true /\ isHeightAtLeast (maximumHeight a b) b = true.
Proof.
  unfold maximumHeight. destruct (isHeightAtLeast a b) eqn:E.
  - split; [apply height_at_least_refl | done].
  - split; [|apply height_at_least_refl]. apply not_true_iff_false in E.
    rewrite height_at_least_spec in *. lia.
Qed.

Lemma maximumHeight_or a b : maximumHeight a b = a \/ maximumHeight a b = b.
Proof. unfold maximumHeight. destruct (isHeightAtLeast a b); auto. Qed.

Lemma same_height_eq a b : same_height a b = true <-> a = b.
Proof.
  unfold same_height. rewrite andb_true_iff, !Z.eqb_eq. destruct a, b; cbn. split; [intros []; congruence|].
  by intros [= -> ->].
Qed.

(** ** Delays *)

(** [getBlockDelay] is the ceiling of the time delay divided by
    the block time: the least number of blocks whose total expected time covers
    the delay, and 0 for delays that are not positive. *)
Lemma getBlockDelay_ceiling d :
  let n := getBlockDelay d in
  (0 <= n /\ d <= n * MAX_EXPECTED_TIME_PER_BLOCK /\
   forall m, 0 <= m -> d <= m * MAX_EXPECTED_TIME_PER_BLOCK -> n <= m)%Z.
Proof.
  unfold getBlockDelay. change (MAX_EXPECTED_TIME_PER_BLOCK) with 4000000000%Z. cbn zeta.
  destruct (Z.leb_spec d 0); [split_and!; intros; lia|]. cbn [Z.leb Z.compare].
  pose proof (Z.quot_rem' d 4000000000) as Hq. pose proof (Z.rem_bound_pos d 4000000000).
  destruct (Z.eqb_spec (Z.rem d 4000000000) 0); cbn zeta; split_and!; intros; lia.
Qed.

(** ** Identifiers *)

Lemma parse_prefixed_ok prefix e1 e2 n :
  x2d ∉ utf8 prefix -> (0 <= n)%Z -> parse_prefixed prefix e1 e2 (prefix +:+ "-" +:+ pretty n) = Ok n.
Proof.
  intros Hp Hn. unfold parse_prefixed. change "-" with (text [x2d]).
  rewrite split_app by done.
  rewrite split_none by (by apply digits_no_char; [apply pretty_Z_digits|]).
  rewrite decide_False by (cbn; lia). cbn. rewrite decide_False by (intros H; by apply H).
  by apply BigInt_pretty.
Qed.

(** The identifier parsers invert the identifier formats, for
    every unsigned sequence. *)
Lemma identifiers_roundtrip n :
  (0 <= n)%Z ->
  parseConnectionSequence ("connection-" +:+ pretty n) = Ok n /\
  parseChannelSequence ("channel-" +:+ pretty n) = Ok n /\
  parseClientSequence ("07-tendermint-" +:+ pretty n) = Ok (pretty n).
Proof.
  intros Hn. split_and!.
  - apply (parse_prefixed_ok "connection"); [|done]. apply (bool_decide_eq_false_1 _). vm_compute. reflexivity.
  - apply (parse_prefixed_ok "channel"); [|done]. apply (bool_decide_eq_false_1 _). vm_compute. reflexivity.
  - unfold parseClientSequence.
    change ("07-tendermint-" +:+ pretty n) with ("07" +:+ text [x2d] +:+ "tendermint" +:+ text [x2d] +:+ pretty n).
    rewrite split_app by (apply (bool_decide_eq_false_1 _); vm_compute; reflexivity).
    rewrite split_app by (apply (bool_decide_eq_false_1 _); vm_compute; reflexivity).
    rewrite split_none by (by apply digits_no_char; [apply pretty_Z_digits|]).
    rewrite decide_False by (cbn; lia). cbn. by rewrite pretty_Z_digits.
Qed.

(** The parsers also accept texts that are not identifiers. *)
Example lenient_connection_ids :
  parseConnectionSequence "connection-" = Ok 0%Z /\ parseConnectionSequence "connection-0x10" = Ok 16%Z.
Proof. split; vm_compute; reflexivity. Qed.

(** The packet paths used for proofs are the keys under which
    the state-root computation stores the packet. *)
Lemma packet_paths_agree p c n :
  packetCommitmentPath p c n = commitmentPath p c n /\
  packetReceiptPath p c n = receiptPath p c n /\
  packetAcknowledgementPath p c n = ackPath p c n.
Proof.
  unfold packetCommitmentPath, packetReceiptPath, packetAcknowledgementPath, commitmentPath, receiptPath, ackPath,
    channelPathForPacket, sequence_suffix, channel_suffix.
  assert (forall a b : string, a = b <-> utf8 a = utf8 b) as Hx by (intros a b; split; [congruence | apply utf8_inj]).
  split_and!; apply Hx; rewrite !utf8_app; cbn [app]; rewrite <- ?(assoc_L (++)); reflexivity.
Qed.

(** ** The packet commitment *)

Section commitment.
Context `{SHA : Sha256} `{SOK : !Sha256Ok}.

(** The bytes whose digest is the commitment. *)
Definition commit_preimage (p : Packet) (dataBytes : bytes) : bytes :=
  (uint64ToBigEndian (timeout_timestamp p) ++ uint64ToBigEndian (revisionNumber (timeout_height p)) ++
   uint64ToBigEndian (revisionHeight (timeout_height p))) ++ sha256 dataBytes.

Lemma hashSHA256_hex b : hashSHA256 (hex_encode b) = Ok (hex_encode (sha256 b)).
Proof. unfold hashSHA256. by rewrite <- (toHex_hex_encode b), fromHex_toHex. Qed.

Lemma hex_encode_app a b : hex_encode (a ++ b) = hex_encode a +:+ hex_encode b.
Proof. unfold hex_encode. by rewrite bind_app, text_app. Qed.

Lemma commitPacket_preimage p h :
  commitPacket p = Ok h ->
  exists d, fromHex (data p) = Ok d /\ h = hex_encode (sha256 (commit_preimage p d)).
Proof.
  unfold commitPacket. cbv zeta. intros H. inv_bind H. unfold hashSHA256 in E. inv_bind E. injection E as <-.
  rewrite toHex_hex_encode, <- hex_encode_app, hashSHA256_hex in H. injection H as <-. by exists a0.
Qed.

Lemma length_uint64 i : length (uint64ToBigEndian i) = 8%nat.
Proof. apply length_be_of_N. Qed.

Lemma uint64_inj i j : (0 <= i < 2 ^ 64)%Z -> (0 <= j < 2 ^ 64)%Z -> uint64ToBigEndian i = uint64ToBigEndian j -> i = j.
Proof.
  intros Hi Hj E. apply (f_equal be_to_N) in E. unfold uint64ToBigEndian in E. rewrite !be_to_of_N in E.
  rewrite !Z.mod_small in E by done. change (256 ^ N.of_nat 8)%N with 18446744073709551616%N in E.
  rewrite !N.mod_small in E; lia.
Qed.

(** Timestamp and height in the range of the protocol's uint64 fields. *)
Definition timeout_in_range (p : Packet) : Prop :=
  (0 <= timeout_timestamp p < 2 ^ 64 /\ 0 <= revisionNumber (timeout_height p) < 2 ^ 64 /\
   0 <= revisionHeight (timeout_height p) < 2 ^ 64)%Z.

(** C30 (safety): [commitPacket] binds the packet's timeout and data: two packets
    with the same commitment have the same timeout timestamp, timeout height and
    data bytes, unless SHA-256 collides on the two data strings or on the two
    framed preimages. *)
Theorem commitPacket_binding p q dp dq h :
  timeout_in_range p -> timeout_in_range q ->
  fromHex (data p) = Ok dp -> fromHex (data q) = Ok dq ->
  commitPacket p = Ok h -> commitPacket q = Ok h ->
  (sha256 dp = sha256 dq -> dp = dq) ->
  (sha256 (commit_preimage p dp) = sha256 (commit_preimage q dq) -> commit_preimage p dp = commit_preimage q dq) ->
  timeout_timestamp p = timeout_timestamp q /\ timeout_height p = timeout_height q /\ dp = dq.
Proof.
  intros (T1 & N1 & H1) (T2 & N2 & H2) Hdp Hdq Hp Hq Hcol1 Hcol2.
  apply commitPacket_preimage in Hp as (d1 & E1 & ->). rewrite Hdp in E1. injection E1 as <-.
  apply commitPacket_preimage in Hq as (d2 & E2 & E3). rewrite Hdq in E2. injection E2 as <-.
  apply (inj hex_encode), Hcol2 in E3. unfold commit_preimage in E3.
  apply app_inj_length_r in E3 as [E3 Hd%Hcol1]; [|by rewrite !sha256_length].
  apply app_inj_length_l in E3 as [Ht E3]; [|by rewrite !length_uint64].
  apply app_inj_length_l in E3 as [Hn Hh]; [|by rewrite !length_uint64].
  apply uint64_inj in Ht; [|done..]. apply uint64_inj in Hn; [|done..]. apply uint64_inj in Hh; [|done..].
  split_and!; [done | | done]. destruct (timeout_height p), (timeout_height q); cbn in *. congruence.
Qed.

End commitment.

Definition toy_packet (data : string) (timestamp : Z) : Packet :=
  MkPacket 1 "7472" "6330" "7472" "6331" data (MkHeight 0 9) timestamp.
