(* ===== verification/StateRootFacts.v ===== *)
(** * State-root computation: replay lemmas

    Every [computeRootWith...] function is a list of key updates on a clone.
    [run_updates] is that list; the main lemma shows that the sibling lists it
    returns make the validator's [apply_updates] walk from the old root to the
    new one. *)

From S2P Require Import Prelude JsMap Hex MerkleTree MerkleSpec MerkleRefine OnChainCommitment MerkleTheorems Datum StateRoot.

Section facts.
Context `{SHA : Sha256}.

(** Trees the Gateway keeps: well formed, no empty key, and no stored value
    whose digest is the digest of the empty string. *)
Record tree_ok (t : ICS23MerkleTree) : Prop := {
  ok_wf : tree_wf t;
  ok_keys : "" ∉ map_keys (leaves t);
  ok_values : forall k, value_ok (tree_value t k);
}.

Lemma value_ok_nil : value_ok [].
Proof. by intros ?. Qed.

Lemma tree_ok_new : tree_ok new_tree.
Proof. split; [apply tree_wf_new | by intros ?%elem_of_nil | intros k; apply value_ok_nil]. Qed.

Lemma tree_value_set t k v k' : tree_wf t ->
  tree_value (tree_set k v t) k' = if decide (k = k') then v else tree_value t k'.
Proof. apply tree_get_set. Qed.

Lemma tree_ok_set t k v : tree_ok t -> k <> "" -> value_ok v -> tree_ok (tree_set k v t).
Proof.
  intros [Hwf Hk Hv] Hne Hok. split; [by apply tree_wf_set| |].
  - intros [E|E]%tree_set_keys; congruence.
  - intros k'. rewrite tree_value_set by done. by case_decide.
Qed.

Lemma tree_value_leaves t t' k : leaves t = leaves t' -> tree_value t k = tree_value t' k.
Proof. unfold tree_value, tree_get. by intros ->. Qed.

Lemma tree_ok_leaves t t' : tree_ok t -> tree_wf t' -> leaves t' = leaves t -> tree_ok t'.
Proof.
  intros [Hwf Hk Hv] Hwf' Hl. split; [done | by rewrite Hl |].
  intros k. by rewrite (tree_value_leaves t' t).
Qed.

Lemma leaves_set t t' k v : leaves t = leaves t' -> leaves (tree_set k v t) = leaves (tree_set k v t').
Proof. unfold tree_set. intros E. case_decide; cbn [leaves set_leaves]; by rewrite E. Qed.

(** ** One update *)

Lemma getSiblings_ok t key sibs t' :
  tree_ok t -> getSiblings key t = (Ok sibs, t') ->
  index_free (leaves t) /\ sibs = tree_siblings (leaves t) key /\ leaves t' = leaves t /\ tree_ok t'.
Proof.
  intros Hok Hs. assert (index_free (leaves t)) as Hif.
  { unfold getSiblings, mbind, M_bind, gets in Hs. destruct (ensureRebuilt t) as [[[]|] t1] eqn:E; [|done].
    eapply ensureRebuilt_ok; [apply Hok | apply Hok | exact E]. }
  destruct (getSiblings_spec t key (ok_wf _ Hok) Hif) as (t1 & Hs' & Hl & Hwf).
  rewrite Hs in Hs'. injection Hs' as -> ->. split_and!; [done|done|done|]. by eapply tree_ok_leaves.
Qed.

Lemma getRoot_ok t r t' :
  tree_ok t -> getRoot t = (Ok r, t') ->
  index_free (leaves t) /\ r = hex_encode (spec_root (leaves t)) /\ leaves t' = leaves t /\ tree_ok t'.
Proof.
  intros Hok Hr. assert (index_free (leaves t)) as Hif.
  { unfold getRoot, mbind, M_bind, gets in Hr. destruct (ensureRebuilt t) as [[[]|] t1] eqn:E; [|done].
    eapply ensureRebuilt_ok; [apply Hok | apply Hok | exact E]. }
  destruct (getRoot_spec t (ok_wf _ Hok) Hif) as (t1 & Hr' & Hl & Hwf).
  rewrite Hr in Hr'. injection Hr' as -> ->. split_and!; [done|done|done|]. by eapply tree_ok_leaves.
Qed.

Lemma update_key_ok t key v sibs t' :
  tree_ok t -> key <> "" -> value_ok v -> update_key key v t = (Ok sibs, t') ->
  index_free (leaves t) /\ sibs = hex_encode <$> tree_siblings (leaves t) key /\
  leaves t' = leaves (tree_set key v t) /\ tree_ok t'.
Proof.
  intros Hok Hne Hv H. unfold update_key in H. inv_bind H.
  apply getSiblings_ok in E as (Hif & -> & Hl & Hok1); [|done].
  inv_ret E0. inv_ret H.
  split_and!; [done|done|by apply leaves_set|by apply tree_ok_set].
Qed.

Lemma key_free_after_set t key v :
  tree_wf t -> v <> [] -> index_free (leaves (tree_set key v t)) -> key_free (leaves t) key.
Proof.
  intros Hwf Hv Hif k Hk Heq. unfold tree_set in Hif. rewrite decide_False in Hif by done.
  cbn [leaves set_leaves] in Hif.
  apply (index_free_inj _ _ _ Hif); [..|done]; apply elem_of_map_keys_set; auto.
Qed.

Lemma key_free_present t key :
  index_free (leaves t) -> key ∈ map_keys (leaves t) -> key_free (leaves t) key.
Proof. intros Hif Hin k Hk Heq. by apply (index_free_inj (leaves t)). Qed.

(** ** A list of updates *)

Fixpoint run_updates (us : list (string * bytes)) : M ICS23MerkleTree (list (list string)) :=
  match us with
  | [] => mret []
  | (k, v) :: us' => s ← update_key k v; ss ← run_updates us'; mret (s :: ss)
  end.

(** The witnesses the validator replays: the old value is the stored one. *)
Fixpoint updates_of (t : ICS23MerkleTree) (us : list (string * bytes)) (ss : list (list string))
  : list key_update :=
  match us, ss with
  | (k, v) :: us', s :: ss' =>
      KeyUpdate k (tree_value t k) v (hex_decode_prefix <$> s) :: updates_of (tree_set k v t) us' ss'
  | _, _ => []
  end.

Fixpoint set_all (us : list (string * bytes)) (t : ICS23MerkleTree) : ICS23MerkleTree :=
  match us with
  | [] => t
  | (k, v) :: us' => set_all us' (tree_set k v t)
  end.

(** A deletion is only replayable when the key is there. *)
Fixpoint deletions_present (t : ICS23MerkleTree) (us : list (string * bytes)) : Prop :=
  match us with
  | [] => True
  | (k, v) :: us' => (v = [] -> tree_value t k <> []) /\ deletions_present (tree_set k v t) us'
  end.

Definition updates_ok (us : list (string * bytes)) : Prop :=
  Forall (fun u => u.1 <> "" /\ value_ok u.2) us.

Lemma updates_of_leaves t t' us ss : leaves t = leaves t' -> updates_of t us ss = updates_of t' us ss.
Proof.
  revert t t' ss. induction us as [|[k v] us IH]; intros t t' [|s ss] E; cbn; [done..|].
  rewrite (tree_value_leaves t t') by done. f_equal. apply IH. by apply leaves_set.
Qed.

Lemma deletions_present_leaves t t' us :
  leaves t = leaves t' -> deletions_present t us -> deletions_present t' us.
Proof.
  revert t t'. induction us as [|[k v] us IH]; intros t t' E; cbn; [done|].
  rewrite (tree_value_leaves t t') by done. intros [? ?]. split; [done|].
  eapply IH; [|done]. by apply leaves_set.
Qed.

Lemma set_all_leaves us t t' : leaves t = leaves t' -> leaves (set_all us t) = leaves (set_all us t').
Proof.
  revert t t'. induction us as [|[k v] us IH]; intros t t' E; cbn; [done|]. apply IH. by apply leaves_set.
Qed.

Lemma unhex_hex (l : list bytes) : hex_decode_prefix <$> (hex_encode <$> l) = l.
Proof.
  rewrite <- list_fmap_compose. transitivity (id <$> l); [|apply list_fmap_id].
  apply list_fmap_ext. intros _ x _. apply hex_decode_encode.
Qed.

Lemma run_updates_ok us t ss t' :
  tree_ok t -> updates_ok us -> run_updates us t = (Ok ss, t') ->
  leaves t' = leaves (set_all us t) /\ tree_ok t' /\ length ss = length us.
Proof.
  revert t ss. induction us as [|[k v] us IH]; intros t ss Hok Hus H; cbn [run_updates] in H.
  - inv_ret H. done.
  - inversion Hus as [|? ? [Hk Hv] Hus']; subst. cbn [fst snd] in Hk, Hv. inv_bind H. inv_ret H.
    apply update_key_ok in E as (_ & _ & Hl & Hok1); [|done..].
    apply IH in E0 as (Hl' & Hok' & Hlen); [|done..]. cbn.
    split_and!; [|done|by rewrite Hlen]. rewrite Hl'. by apply set_all_leaves.
Qed.

Lemma run_updates_replay `{!Sha256Std} us t ss t' :
  tree_ok t -> updates_ok us -> run_updates us t = (Ok ss, t') ->
  index_free (leaves t') -> deletions_present t us ->
  apply_updates (spec_root (leaves t)) (updates_of t us ss) = Some (spec_root (leaves t')).
Proof.
  revert t ss. induction us as [|[k v] us IH]; intros t ss Hok Hus Hrun Hif' Hdel; cbn [run_updates] in Hrun.
  - inv_ret Hrun. done.
  - inversion Hus as [|? ? [Hk Hv] Hus']; subst. cbn [fst snd] in Hk, Hv. inv_bind Hrun. inv_ret Hrun.
    destruct Hdel as [Hd Hdel].
    destruct (update_key_ok _ _ _ _ _ Hok Hk Hv E) as (Hif & -> & Hl & Hok1).
    assert (index_free (leaves s)) as Hif1.
    { destruct us as [|[k2 v2] us2]; cbn [run_updates] in E0.
      - by inv_ret E0.
      - inv_bind E0. inversion Hus' as [|? ? [Hk2 Hv2] _]; subst. by eapply update_key_ok in E1 as (? & _). }
    assert (key_free (leaves t) k) as Hkf.
    { destruct (decide (v = [])) as [->|Hne].
      - apply key_free_present; [done|]. apply tree_value_keys; [apply Hok | by apply Hd].
      - eapply key_free_after_set; [apply Hok | done | by rewrite <- Hl]. }
    cbn [updates_of apply_updates ku_key ku_old ku_new ku_siblings]. rewrite unhex_hex.
    rewrite apply_update_tree; [|apply Hok|done|done|apply Hok|done]. cbn [mbind option_bind].
    rewrite <- Hl, (updates_of_leaves _ s) by done.
    apply IH; try done. by eapply deletions_present_leaves; [symmetry; exact Hl|].
Qed.

End facts.

(** ** State-root computation: what each operation does

    [root_transition] is the contract of a successful computation: the
    validator's replay accepts the returned witnesses from the old root to the
    new root, the canonical tree has not moved, and [commit] installs a tree
    with that root and with exactly the announced updates. *)

Section replay.
Context `{SHA : Sha256} `{L : Lucid}.

Definition state_ok (s : gstate) : Prop := tree_ok (currentTree s).

(** The tree a computation starts from. *)
Definition base_tree (s : gstate) (oldRoot : string) : ICS23MerkleTree :=
  if decide (oldRoot = zero_root) then new_tree else currentTree s.

(** Contents of the canonical tree and module flags; caches may differ. *)
Definition same_contents (s s' : gstate) : Prop :=
  leaves (currentTree s') = leaves (currentTree s) /\ servicesReady s' = servicesReady s.

Lemma same_contents_refl s : same_contents s s.
Proof. done. Qed.

Record root_transition {W} (s : gstate) (oldRoot : string) (us : list (string * bytes))
    (ss : list (list string)) (res : StateRootResult W) (s' : gstate) : Prop := {
  rt_old : hex_decode_prefix oldRoot = spec_root (leaves (base_tree s oldRoot));
  rt_replay : apply_updates (hex_decode_prefix oldRoot) (updates_of (base_tree s oldRoot) us ss)
              = Some (hex_decode_prefix (newRoot res));
  rt_same : same_contents s s' /\ state_ok s';
  rt_tree : leaves (commitTree res) = leaves (set_all us (base_tree s oldRoot)) /\ tree_ok (commitTree res);
  rt_commit : forall s1, (getCurrentRoot (commit res s1).2).1 = Ok (newRoot res);
}.

(** ** The empty root *)

Lemma node_empty h i : node (fun _ => EMPTY_HASH) h i = EMPTY_HASH.
Proof. revert i. induction h as [|h IH]; intros i; cbn [node]; [done|]. by rewrite !IH, innerHash_empty. Qed.

Lemma spec_root_nil : spec_root [] = EMPTY_HASH.
Proof. unfold spec_root. rewrite (node_ext _ (fun _ => EMPTY_HASH)) by done. apply node_empty. Qed.

Lemma zero_root_bytes : hex_decode_prefix zero_root = EMPTY_HASH.
Proof. vm_compute. reflexivity. Qed.

(** ** Obtaining the speculative tree *)

Lemma on_current_ok {A} (m : M ICS23MerkleTree A) s a s' :
  on_current m s = (Ok a, s') -> exists t, m (currentTree s) = (Ok a, t) /\ s' = set_tree t s.
Proof. unfold on_current. destruct (m (currentTree s)) as [r t]. intros H. exists t. split; congruence. Qed.

Lemma on_current_getRoot s r s' :
  on_current getRoot s = (r, s') -> same_contents s s' /\ (state_ok s -> state_ok s').
Proof.
  unfold on_current. destruct (getRoot (currentTree s)) as [r0 t] eqn:E. intros H.
  assert (s' = set_tree t s) as -> by congruence.
  assert (t = (ensureRebuilt (currentTree s)).2) as ->.
  { unfold getRoot in E. apply (f_equal snd) in E. rewrite ensure_then_state in E. done. }
  destruct (ensureRebuilt (currentTree s)) as [r1 t1] eqn:E1. cbn [snd].
  pose proof (ensureRebuilt_leaves _ _ _ E1) as Hl. split; [done|]. intros Hok.
  eapply tree_ok_leaves; [exact Hok | | exact Hl]. eapply ensureRebuilt_wf; [apply Hok | exact E1].
Qed.

(** The computations never move the canonical tree, also when they throw. *)
Lemma getClonedTreeFromRoot_pure oldRoot s :
  same_contents s (getClonedTreeFromRoot oldRoot s).2 /\
  (state_ok s -> state_ok (getClonedTreeFromRoot oldRoot s).2).
Proof.
  unfold getClonedTreeFromRoot. case_decide; [done|].
  unfold mbind, M_bind. destruct (on_current getRoot s) as [[r|e] s1] eqn:E;
    apply on_current_getRoot in E; [|done]. by case_decide.
Qed.

Lemma speculate_pure {W} oldRoot (body : M ICS23MerkleTree W) s :
  same_contents s (speculate oldRoot body s).2 /\ (state_ok s -> state_ok (speculate oldRoot body s).2).
Proof.
  unfold speculate. pose proof (getClonedTreeFromRoot_pure oldRoot s) as Hp.
  unfold mbind, M_bind, on_local.
  destruct (getClonedTreeFromRoot oldRoot s) as [[t|e] s1]; [|done].
  destruct (body t) as [[w|e] t1]; [|done]. by destruct (getRoot t1) as [[r|e] t2].
Qed.

Lemma getClonedTreeFromRoot_ok oldRoot s t s' :
  state_ok s -> getClonedTreeFromRoot oldRoot s = (Ok t, s') ->
  leaves t = leaves (base_tree s oldRoot) /\ tree_ok t /\
  hex_decode_prefix oldRoot = spec_root (leaves t).
Proof.
  intros Hok. unfold getClonedTreeFromRoot, base_tree. case_decide as Hz.
  - intros H. inv_ret H. split_and!; [done | apply tree_ok_new |].
    rewrite Hz, zero_root_bytes. symmetry. apply spec_root_nil.
  - intros H. inv_bind H. apply on_current_ok in E as (t1 & Hr & ->).
    apply getRoot_ok in Hr as (Hif & -> & Hl & Hok1); [|done].
    case_decide as Heq; [|done]. inv_ret H. cbn [currentTree set_tree].
    rewrite clone_leaves by apply Hok1. rewrite Hl, <- Heq, hex_decode_encode. split_and!; [done| |done].
    eapply tree_ok_leaves; [exact Hok | apply tree_wf_clone, Hok1 |].
    by rewrite clone_leaves by apply Hok1.
Qed.

Lemma speculate_ok {W} oldRoot (body : M ICS23MerkleTree W) s res s' :
  speculate oldRoot body s = (Ok res, s') ->
  exists t s1 t1, getClonedTreeFromRoot oldRoot s = (Ok t, s1) /\
    body t = (Ok (witness res), t1) /\ getRoot t1 = (Ok (newRoot res), commitTree res).
Proof.
  unfold speculate. intros H. inv_bind H. destruct a0 as [[w r] t2]. inv_ret H.
  apply on_local_ok in E0 as [Hb ->]. inv_bind Hb.
  exists a, s0, s1. cbn [witness newRoot commitTree].
  apply mret_ok in Hb as [Hb ->]. injection Hb as -> ->. done.
Qed.

(** ** The generic transition *)

Lemma speculate_transition `{!Sha256Std} {W} oldRoot (body : M ICS23MerkleTree W) s res s'
    (us : list (string * bytes)) (ss : list (list string)) :
  state_ok s -> speculate oldRoot body s = (Ok res, s') ->
  updates_ok us ->
  (forall t t1, tree_ok t -> leaves t = leaves (base_tree s oldRoot) -> body t = (Ok (witness res), t1) ->
     run_updates us t = (Ok ss, t1) /\ deletions_present t us) ->
  root_transition s oldRoot us ss res s'.
Proof.
  intros Hok Hsp Hus Hbody.
  pose proof (speculate_pure oldRoot body s) as [Hsame Hok']. rewrite Hsp in Hsame, Hok'. cbn [snd] in *.
  apply speculate_ok in Hsp as (t & s1 & t1 & Hc & Hb & Hr).
  apply getClonedTreeFromRoot_ok in Hc as (Hl & Htok & Hroot); [|done].
  destruct (Hbody _ _ Htok Hl Hb) as [Hrun Hdel].
  destruct (run_updates_ok _ _ _ _ Htok Hus Hrun) as (Hl1 & Hok1 & _).
  destruct (getRoot_ok _ _ _ Hok1 Hr) as (Hif1 & Hnew & Hl2 & Hok2).
  split.
  - by rewrite Hroot, Hl.
  - rewrite Hnew, hex_decode_encode, Hroot, <- (updates_of_leaves t) by done.
    by apply run_updates_replay.
  - split; [done | by apply Hok'].
  - split; [|done]. rewrite Hl2, Hl1. by apply set_all_leaves.
  - intros s2. unfold commit, modify, getCurrentRoot, on_current. cbn [snd currentTree set_tree].
    destruct (getRoot_spec (commitTree res) (ok_wf _ Hok2) ltac:(by rewrite Hl2)) as (t3 & -> & _).
    cbn [fst]. by rewrite Hl2, Hnew.
Qed.

(** ** Unfolding bodies into updates *)

Lemma run_updates_1 k v s t t' : update_key k v t = (Ok s, t') -> run_updates [(k, v)] t = (Ok [s], t').
Proof. intros H. cbn [run_updates]. unfold mbind, M_bind. by rewrite H. Qed.

Lemma run_updates_cons k v s us ss t t1 t' :
  update_key k v t = (Ok s, t1) -> run_updates us t1 = (Ok ss, t') ->
  run_updates ((k, v) :: us) t = (Ok (s :: ss), t').
Proof. intros H1 H2. cbn [run_updates]. unfold mbind, M_bind. by rewrite H1, H2. Qed.

Lemma run_updates_app us1 us2 ss1 ss2 t t1 t2 :
  run_updates us1 t = (Ok ss1, t1) -> run_updates us2 t1 = (Ok ss2, t2) ->
  run_updates (us1 ++ us2) t = (Ok (ss1 ++ ss2), t2).
Proof.
  revert t ss1. induction us1 as [|[k v] us1 IH]; intros t ss1 H1 H2; cbn [run_updates app] in *.
  - by inv_ret H1.
  - inv_bind H1. inv_ret H1. eapply (run_updates_cons k v); [exact E|]. by eapply IH.
Qed.

Lemma deletions_present_app us1 us2 t :
  deletions_present t us1 -> deletions_present (set_all us1 t) us2 -> deletions_present t (us1 ++ us2).
Proof.
  revert t. induction us1 as [|[k v] us1 IH]; intros t H1 H2; cbn in *; [done|].
  destruct H1. split; [done|]. by apply IH.
Qed.

Lemma deletions_present_values us t :
  Forall (fun u => u.2 <> []) us -> deletions_present t us.
Proof.
  intros H. revert t. induction H as [|[k v] us Hv _ IH]; intros t; cbn; [done|]. split; [done | apply IH].
Qed.

Lemma update_key_tree_ok t k v s t' :
  tree_ok t -> k <> "" -> value_ok v -> update_key k v t = (Ok s, t') -> tree_ok t'.
Proof. intros. by eapply update_key_ok. Qed.

End replay.
