(* ===== verification/StateRootTheorems.v ===== *)
(** * State-root computation: properties of the operations *)

From S2P Require Import Prelude JsMap Hex MerkleTree MerkleSpec MerkleRefine OnChainCommitment ToyHash MerkleTheorems Datum ToyLucid StateRoot StateRootFacts.

Section bodies.
Context `{SHA : Sha256} `{L : Lucid}.

Lemma tree_get_value_present t k v : tree_ok t -> tree_get k t = Some v -> tree_value t k <> [].
Proof.
  intros Hok Hg. unfold tree_value. rewrite Hg. cbn. by eapply wf_value; [apply Hok|].
Qed.

(** The deletion loop of UpdateClient. *)
Definition removals (clientId : string) (heights : list string) : list (string * bytes) :=
  map (fun h => (consensusStatePath clientId h, [])) heights.

Lemma updates_ok_removals clientId hs : updates_ok (removals clientId hs).
Proof.
  apply Forall_forall. intros u (h & -> & _)%list_elem_of_fmap. split; [done | apply value_ok_nil].
Qed.

Lemma remove_loop clientId hs t ss t' :
  tree_ok t -> mapM_ (remove_consensus clientId) hs t = (Ok ss, t') ->
  run_updates (removals clientId hs) t = (Ok ss, t') /\ deletions_present t (removals clientId hs).
Proof.
  revert t ss. induction hs as [|h hs IH]; intros t ss Hok H; cbn [mapM_] in H.
  - by inv_ret H.
  - inv_bind H. inv_ret H. unfold remove_consensus in E. inv_bind E. inv_ret E1.
    destruct (tree_get _ t) as [v|] eqn:Eg; [|discriminate].
    assert (consensusStatePath clientId h <> "") as Hne by done.
    destruct (update_key_ok _ _ _ _ _ Hok Hne value_ok_nil E) as (_ & _ & Hl & Hok1).
    destruct (IH _ _ Hok1 E0) as [Hrun Hdel]. split.
    + by eapply (run_updates_cons (consensusStatePath clientId h)).
    + cbn. split; [intros _; by eapply tree_get_value_present|]. by eapply deletions_present_leaves.
Qed.

(** The optional updates of HandlePacket. *)
Definition opt_update (o : option (string * bytes)) : M ICS23MerkleTree (list string) :=
  match o with Some (k, v) => update_key k v | None => mret [] end.

Definition opt_list {A B} (o : option A) (b : B) : list B := match o with Some _ => [b] | None => [] end.

Lemma opt_update_run o t s t' :
  opt_update o t = (Ok s, t') -> run_updates (option_list o) t = (Ok (opt_list o s), t').
Proof. destruct o as [[k v]|]; cbn; [apply run_updates_1 | intros H; by inv_ret H]. Qed.

(** Which key an insertion/deletion diff touches, or why it is refused. *)
Definition field_update (changed : bool) (path : string) (value : result string)
  : result (option (string * bytes)) :=
  if changed then v ← value; Ok (Some (path, hex_decode_prefix v)) else Ok None.

Definition insert_update (path : Z -> string) (input output : jsmap Z string)
  : option (result (option (string * bytes))) :=
  match entries_not_in output input, entries_not_in input output with
  | [(n, b)], [] => Some (v ← encodeBytesValue b; Ok (Some (path n, hex_decode_prefix v)))
  | [], [] => Some (Ok None)
  | _, _ => None
  end.

Definition commitment_update (p c : string) (input output : jsmap Z string)
  : option (result (option (string * bytes))) :=
  match entries_not_in output input, entries_not_in input output with
  | [], [(n, _)] => Some (Ok (Some (commitmentPath p c n, [])))
  | _, _ => insert_update (commitmentPath p c) input output
  end.

Lemma update_if_ok changed path value t s t' :
  update_if changed path value t = (Ok s, t') ->
  exists o, field_update changed path value = Ok o /\ opt_update o t = (Ok s, t').
Proof.
  unfold update_if, field_update. destruct changed; [|intros H; exists None; done].
  intros H. inv_bind H. inv_ret E. subst. eexists. split; [reflexivity | exact H].
Qed.

Lemma handle_packet_inserts_ok what path input output t s t' :
  handle_packet_inserts what path input output t = (Ok s, t') ->
  exists o, insert_update path input output = Some (Ok o) /\ opt_update o t = (Ok s, t').
Proof.
  unfold handle_packet_inserts, insert_update.
  destruct (entries_not_in output input) as [|[n b] ins]; destruct (entries_not_in input output) as [|r rem]; try done.
  - intros H. by exists None.
  - case_decide as Hd; [done|]. destruct ins as [|? ?]; [|cbn in Hd; lia].
    intros H. inv_bind H. inv_ret E. rewrite E. by eexists.
Qed.

Lemma handle_packet_commitments_ok p c input output t s t' :
  handle_packet_commitments p c input output t = (Ok s, t') ->
  exists o, commitment_update p c input output = Some (Ok o) /\ opt_update o t = (Ok s, t').
Proof.
  unfold handle_packet_commitments, commitment_update, insert_update.
  destruct (entries_not_in output input) as [|[n b] ins]; destruct (entries_not_in input output) as [|[m w] rem]; try done.
  - intros H. by exists None.
  - case_decide as Hd; [done|]. destruct rem as [|? ?]; [|cbn in Hd; lia]. intros H. by eexists.
  - case_decide as Hd; [done|]. destruct ins as [|? ?]; [|cbn in Hd; lia].
    intros H. inv_bind H. inv_ret E. rewrite E. by eexists.
Qed.

(** The seven optional updates, in the validator's order. *)
Record packet_updates := MkPU {
  pu_channel : option (string * bytes); pu_send : option (string * bytes);
  pu_recv : option (string * bytes); pu_ack : option (string * bytes);
  pu_commitment : option (string * bytes); pu_receipt : option (string * bytes);
  pu_acknowledgement : option (string * bytes);
}.

Definition packet_updates_of (p c : string) (i o : ChannelDatumState) (u : packet_updates) : Prop :=
  field_update (negb (obj_ref (channel i) =? obj_ref (channel o))%nat) (channelEndPath p c)
    (encodeChannelEndValue (obj_val (channel o))) = Ok (pu_channel u) /\
  field_update (negb (next_sequence_send i =? next_sequence_send o)%Z) (nextSequenceSendPath p c)
    (encodeIntegerValue (next_sequence_send o)) = Ok (pu_send u) /\
  field_update (negb (next_sequence_recv i =? next_sequence_recv o)%Z) (nextSequenceRecvPath p c)
    (encodeIntegerValue (next_sequence_recv o)) = Ok (pu_recv u) /\
  field_update (negb (next_sequence_ack i =? next_sequence_ack o)%Z) (nextSequenceAckPath p c)
    (encodeIntegerValue (next_sequence_ack o)) = Ok (pu_ack u) /\
  commitment_update p c (packet_commitment i) (packet_commitment o) = Some (Ok (pu_commitment u)) /\
  insert_update (receiptPath p c) (packet_receipt i) (packet_receipt o) = Some (Ok (pu_receipt u)) /\
  insert_update (ackPath p c) (packet_acknowledgement i) (packet_acknowledgement o)
    = Some (Ok (pu_acknowledgement u)).

Definition pu_list (u : packet_updates) : list (string * bytes) :=
  option_list (pu_channel u) ++ option_list (pu_send u) ++ option_list (pu_recv u) ++
  option_list (pu_ack u) ++ option_list (pu_commitment u) ++ option_list (pu_receipt u) ++
  option_list (pu_acknowledgement u).

Definition pu_siblings (u : packet_updates) (w : HandlePacketW) : list (list string) :=
  opt_list (pu_channel u) (hp_channelSiblings w) ++
  opt_list (pu_send u) (hp_nextSequenceSendSiblings w) ++
  opt_list (pu_recv u) (hp_nextSequenceRecvSiblings w) ++
  opt_list (pu_ack u) (hp_nextSequenceAckSiblings w) ++
  opt_list (pu_commitment u) (hp_packetCommitmentSiblings w) ++
  opt_list (pu_receipt u) (hp_packetReceiptSiblings w) ++
  opt_list (pu_acknowledgement u) (hp_packetAcknowledgementSiblings w).

Lemma handle_packet_body_run p c i o t w t' :
  handle_packet_body p c i o t = (Ok w, t') ->
  exists u, packet_updates_of p c i o u /\ run_updates (pu_list u) t = (Ok (pu_siblings u w), t').
Proof.
  unfold handle_packet_body. intros H. inv_bind H. inv_ret H.
  apply update_if_ok in E as (o1 & F1 & R1). apply update_if_ok in E0 as (o2 & F2 & R2).
  apply update_if_ok in E1 as (o3 & F3 & R3). apply update_if_ok in E2 as (o4 & F4 & R4).
  apply handle_packet_commitments_ok in E3 as (o5 & F5 & R5).
  apply handle_packet_inserts_ok in E4 as (o6 & F6 & R6).
  apply handle_packet_inserts_ok in E5 as (o7 & F7 & R7).
  exists (MkPU o1 o2 o3 o4 o5 o6 o7). split; [by split_and!|].
  unfold pu_list, pu_siblings. cbn.
  repeat (eapply run_updates_app; [apply opt_update_run; eassumption|]).
  by apply opt_update_run.
Qed.

(** ** Which updates a packet diff produces *)

(** The ICS-24 store an IBC path belongs to. *)
Definition path_kind (path : string) : nat :=
  if String.prefix "channelEnds/" path then 0
  else if String.prefix "nextSequenceSend/" path then 1
  else if String.prefix "nextSequenceRecv/" path then 2
  else if String.prefix "nextSequenceAck/" path then 3
  else if String.prefix "commitments/" path then 4
  else if String.prefix "receipts/" path then 5
  else if String.prefix "acks/" path then 6 else 7.

Definition of_kind (n : nat) (o : option (string * bytes)) : Prop :=
  match o with Some (k, _) => path_kind k = n | None => True end.

Definition nonempty_value (o : option (string * bytes)) : Prop :=
  match o with Some (_, v) => v <> [] | None => True end.

Lemma field_update_shape changed path value o :
  field_update changed path value = Ok o ->
  (changed = true /\ exists h, value = Ok h /\ o = Some (path, hex_decode_prefix h)) \/
  (changed = false /\ o = None).
Proof.
  unfold field_update. destruct changed; [|intros [= <-]; by right].
  destruct value as [h|e]; cbn; [|done]. intros [= <-]. left. by eauto.
Qed.

Lemma insert_update_shape path input output o :
  insert_update path input output = Some (Ok o) ->
  (exists n b h, entries_not_in output input = [(n, b)] /\ entries_not_in input output = [] /\
     encodeBytesValue b = Ok h /\ o = Some (path n, hex_decode_prefix h)) \/
  (entries_not_in output input = [] /\ entries_not_in input output = [] /\ o = None).
Proof.
  unfold insert_update. destruct (entries_not_in output input) as [|[n b] [|]];
    destruct (entries_not_in input output); try done.
  - intros [= <-]. by right.
  - destruct (encodeBytesValue b) as [h|e] eqn:E; cbn; [|done]. intros [= <-]. left. by eauto 10.
Qed.

Lemma commitment_update_shape p c input output o :
  commitment_update p c input output = Some (Ok o) ->
  (insert_update (commitmentPath p c) input output = Some (Ok o)) \/
  (exists n b, entries_not_in output input = [] /\ entries_not_in input output = [(n, b)] /\
     o = Some (commitmentPath p c n, [])).
Proof.
  unfold commitment_update. destruct (entries_not_in output input) as [|[n b] ins] eqn:E1;
    destruct (entries_not_in input output) as [|[m w] [|]] eqn:E2; try (intros H; by left).
  intros [= <-]. right. by eauto.
Qed.

Lemma insert_update_kind n path input output o :
  (forall m, path_kind (path m) = n) -> insert_update path input output = Some (Ok o) -> of_kind n o.
Proof. intros Hk [(m & b & h & _ & _ & _ & ->)|(_ & _ & ->)]%insert_update_shape; cbn; auto. Qed.

Lemma insert_update_nonempty `{!LucidOk} path input output o :
  insert_update path input output = Some (Ok o) -> nonempty_value o.
Proof.
  intros [(m & b & h & _ & _ & He & ->)|(_ & _ & ->)]%insert_update_shape; cbn; [|done].
  by eapply Data_to_nonempty.
Qed.

Record pu_kinds (u : packet_updates) : Prop := {
  pk_channel : of_kind 0 (pu_channel u);
  pk_send : of_kind 1 (pu_send u);
  pk_recv : of_kind 2 (pu_recv u);
  pk_ack : of_kind 3 (pu_ack u);
  pk_commitment : of_kind 4 (pu_commitment u);
  pk_receipt : of_kind 5 (pu_receipt u);
  pk_acknowledgement : of_kind 6 (pu_acknowledgement u);
}.

Lemma packet_updates_kinds p c i o u : packet_updates_of p c i o u -> pu_kinds u.
Proof.
  assert (forall ch path v n o', path_kind path = n -> field_update ch path v = Ok o' -> of_kind n o') as Hf.
  { intros ch path v n o' Hk [(_ & h & _ & ->)|[_ ->]]%field_update_shape; done. }
  intros (H1 & H2 & H3 & H4 & H5 & H6 & H7). split.
  - by eapply Hf, H1.
  - by eapply Hf, H2.
  - by eapply Hf, H3.
  - by eapply Hf, H4.
  - apply commitment_update_shape in H5 as [H5|(n & b & _ & _ & ->)]; [|done].
    by eapply (insert_update_kind 4), H5.
  - by eapply (insert_update_kind 5), H6.
  - by eapply (insert_update_kind 6), H7.
Qed.

(** ** Reading a tree after a list of updates *)

Lemma tree_wf_set_all us t : tree_wf t -> tree_wf (set_all us t).
Proof. revert t. induction us as [|[k v] us IH]; intros t Hwf; cbn; [done|]. by apply IH, tree_wf_set. Qed.

Lemma set_all_app us1 us2 t : set_all (us1 ++ us2) t = set_all us2 (set_all us1 t).
Proof. revert t. induction us1 as [|[k v] us1 IH]; intros t; cbn; [done | apply IH]. Qed.

Lemma value_after_opt o t k :
  tree_wf t -> tree_value (set_all (option_list o) t) k =
  match o with Some (k', v) => if decide (k' = k) then v else tree_value t k | None => tree_value t k end.
Proof. intros Hwf. destruct o as [[k' v]|]; cbn; [by apply tree_value_set | done]. Qed.

Lemma value_after_opt_other n o t k :
  tree_wf t -> of_kind n o -> path_kind k <> n -> tree_value (set_all (option_list o) t) k = tree_value t k.
Proof.
  intros Hwf Ho Hk. rewrite value_after_opt by done. destruct o as [[k' v]|]; [|done].
  case_decide; [|done]. by subst.
Qed.

(** The update of [k]'s own store decides the value at [k]. *)
Definition pu_nth (u : packet_updates) (n : nat) : option (string * bytes) :=
  match n with
  | 0 => pu_channel u | 1 => pu_send u | 2 => pu_recv u | 3 => pu_ack u
  | 4 => pu_commitment u | 5 => pu_receipt u | 6 => pu_acknowledgement u | _ => None
  end.

Lemma pu_value u t k :
  tree_wf t -> pu_kinds u ->
  tree_value (set_all (pu_list u) t) k =
  match pu_nth u (path_kind k) with
  | Some (k', v) => if decide (k' = k) then v else tree_value t k
  | None => tree_value t k
  end.
Proof.
  intros Hwf [K0 K1 K2 K3 K4 K5 K6]. unfold pu_list. rewrite !set_all_app.
  assert (forall us (x : ICS23MerkleTree), tree_wf x -> tree_wf (set_all us x)) as W by apply tree_wf_set_all.
  destruct (path_kind k) as [|[|[|[|[|[|[|n]]]]]]] eqn:Ek; cbn [pu_nth];
    repeat match goal with
    | H : of_kind ?m ?o |- context [tree_value (set_all (option_list ?o) ?x) k] =>
        first [ rewrite (value_after_opt_other m o x k) by (auto 10; congruence)
              | rewrite (value_after_opt o x k) by auto 10 ]
    end; try done; destruct (_ : option (string * bytes)) as [[? ?]|] in |- *; done.
Qed.

End bodies.

(** ** State-root computation: the contracts of the [computeRootWith...] functions

    Each successful computation is a [root_transition]: the validator's replay of
    the returned witnesses leads from the old root to the new one. *)

(** Every update of a literal list has a non-empty path and an admissible value. *)
Ltac by_updates_ok := repeat first [ apply Forall_nil_2 | apply Forall_cons_2; [by split|] ].

Section claims.
Context `{SHA : Sha256} `{L : Lucid} `{STD : !Sha256Std}.

Lemma updates_ok_cons k v us : k <> "" -> value_ok v -> updates_ok us -> updates_ok ((k, v) :: us).
Proof. by constructor. Qed.

(** A successful [computeRootWithCreateClientUpdate] returns two
    sibling lists with which the validator replays "client state, then consensus
    state" from the old root to the returned root; the canonical tree is
    unchanged and [commit] installs a tree with that root and those two keys. *)
Lemma createClient_transition s oldRoot clientId cs cons height res s' :
  state_ok s -> cs <> [] -> cons <> [] -> value_ok cs -> value_ok cons ->
  computeRootWithCreateClientUpdate oldRoot clientId cs cons height s = (Ok res, s') ->
  root_transition s oldRoot
    [(clientStatePath clientId, cs); (consensusStatePath clientId height, cons)]
    [cc_clientStateSiblings (witness res); cc_consensusStateSiblings (witness res)] res s'.
Proof.
  intros Hok Hcs Hcons Hv1 Hv2 H. eapply speculate_transition; [done | exact H | |].
  - by_updates_ok.
  - intros t t1 _ _ Hb. inv_bind Hb. apply mret_ok in Hb as [-> ->]. split.
    + eapply run_updates_cons; [exact E | by apply run_updates_1].
    + apply deletions_present_values. by repeat constructor.
Qed.

Definition added_updates (clientId : string) (added : option (string * bytes)) : list (string * bytes) :=
  match added with Some (h, v) => [(consensusStatePath clientId h, v)] | None => [] end.

(** A successful [computeRootWithUpdateClientUpdate] returns the
    siblings with which the validator replays the new client state, then the
    deletion of every expired consensus state in order, then the insertion of
    the added consensus state. *)
Lemma updateClient_transition s oldRoot clientId cs removed added res s' :
  state_ok s -> cs <> [] -> value_ok cs ->
  (forall h v, added = Some (h, v) -> v <> [] /\ value_ok v) ->
  computeRootWithUpdateClientUpdate oldRoot clientId cs removed added s = (Ok res, s') ->
  root_transition s oldRoot
    ((clientStatePath clientId, cs) :: removals clientId removed ++ added_updates clientId added)
    (uc_clientStateSiblings (witness res) :: uc_removedConsensusStateSiblings (witness res) ++
     opt_list added (uc_consensusStateSiblings (witness res))) res s'.
Proof.
  intros Hok Hcs Hv Hadd H. eapply speculate_transition; [done | exact H | |].
  - apply updates_ok_cons; [done..|]. apply Forall_app. split; [apply updates_ok_removals|].
    destruct added as [[h v]|]; [|constructor]. destruct (Hadd h v eq_refl). by repeat constructor.
  - intros t t1 Hokt _ Hb. cbv zeta in Hb. inv_bind Hb. inv_ret E. destruct (tree_get _ t) as [old|] eqn:Eg; [|discriminate].
    inv_bind Hb. apply mret_ok in Hb as [-> ->].
    cbn [uc_clientStateSiblings uc_consensusStateSiblings uc_removedConsensusStateSiblings].
    assert (clientStatePath clientId <> "") as Hp by done.
    destruct (update_key_ok _ _ _ _ _ Hokt Hp Hv E) as (_ & _ & Hl & Hok0).
    destruct (remove_loop _ _ _ _ _ Hok0 E0) as [Hrun Hdel]. split.
    + eapply run_updates_cons; [exact E|]. eapply run_updates_app; [exact Hrun|].
      destruct added as [[h v]|]; cbn [added_updates opt_list].
      * cbv zeta in E1. inv_bind E1. inv_ret E2. revert E1. case_match; [done|]. apply run_updates_1.
      * by inv_ret E1.
    + cbn [deletions_present]. split; [done|]. apply deletions_present_app.
      * by eapply deletions_present_leaves.
      * apply deletions_present_values. destruct added as [[h v]|]; [|constructor].
        destruct (Hadd h v eq_refl). by repeat constructor.
Qed.

(** The three computations that set one key. *)
Definition single_key (oldRoot path : string) (value : bytes)
    (f : M gstate (StateRootResult (list string))) : Prop :=
  f = speculate oldRoot (update_key path value).

Lemma single_key_transition s oldRoot path value f res s' :
  single_key oldRoot path value f -> path <> "" -> state_ok s -> value <> [] -> value_ok value ->
  f s = (Ok res, s') -> root_transition s oldRoot [(path, value)] [witness res] res s'.
Proof.
  intros -> Hp Hok Hne Hv H. eapply speculate_transition; [done | exact H | by repeat constructor|].
  intros t t1 _ _ Hb. split; [by apply run_updates_1|]. apply deletions_present_values. by repeat constructor.
Qed.

(** The connection-, port- and channel-end computations set
    exactly one key and return the siblings with which the validator replays
    it. *)
Lemma handshake_transitions s oldRoot value res s' :
  state_ok s -> value <> [] -> value_ok value ->
  (forall connectionId,
     computeRootWithCreateConnectionUpdate oldRoot connectionId value s = (Ok res, s') ->
     root_transition s oldRoot [(connectionPath connectionId, value)] [witness res] res s') /\
  (forall portId,
     computeRootWithPortBind oldRoot portId value s = (Ok res, s') ->
     root_transition s oldRoot [(portPath portId, value)] [witness res] res s') /\
  (forall portId channelId,
     computeRootWithUpdateChannelUpdate oldRoot portId channelId value s = (Ok res, s') ->
     root_transition s oldRoot [(channelEndPath portId channelId, value)] [witness res] res s').
Proof.
  intros Hok Hne Hv. split_and!; intros *; by eapply single_key_transition.
Qed.

(** A successful [computeRootWithCreateChannelUpdate] sets the
    channel end and its three sequence counters, with siblings in the
    validator's replay order. *)
Lemma createChannel_transition s oldRoot p c v1 v2 v3 v4 res s' :
  state_ok s -> Forall (fun v => v <> [] /\ value_ok v) [v1; v2; v3; v4] ->
  computeRootWithCreateChannelUpdate oldRoot p c v1 v2 v3 v4 s = (Ok res, s') ->
  root_transition s oldRoot
    [(channelEndPath p c, v1); (nextSequenceSendPath p c, v2);
     (nextSequenceRecvPath p c, v3); (nextSequenceAckPath p c, v4)]
    [cw_channelSiblings (witness res); cw_nextSequenceSendSiblings (witness res);
     cw_nextSequenceRecvSiblings (witness res); cw_nextSequenceAckSiblings (witness res)] res s'.
Proof.
  rewrite !Forall_cons. intros Hok ([? ?] & [? ?] & [? ?] & [? ?] & _) Hrun.
  eapply speculate_transition; [done | exact Hrun | by_updates_ok |].
  intros t t1 _ _ Hb. inv_bind Hb. apply mret_ok in Hb as [-> ->]. split.
  - by repeat (eapply run_updates_cons; [eassumption|]).
  - apply deletions_present_values. by repeat constructor.
Qed.

(** ** Packets *)

Lemma packet_updates_of_inj p c i o u u' :
  packet_updates_of p c i o u -> packet_updates_of p c i o u' -> u = u'.
Proof.
  intros (A1 & A2 & A3 & A4 & A5 & A6 & A7) (B1 & B2 & B3 & B4 & B5 & B6 & B7).
  destruct u, u'; cbn in *. f_equal; congruence.
Qed.

Lemma of_kind_nonempty n o : (n < 7)%nat -> of_kind n o -> Forall (fun x : string * bytes => x.1 <> "") (option_list o).
Proof.
  intros Hn. destruct o as [[k v]|]; cbn; [|constructor]. intros Hk. repeat constructor; cbn.
  intros ->. change (path_kind "") with 7%nat in Hk. lia.
Qed.

Lemma pu_paths u : pu_kinds u -> Forall (fun x : string * bytes => x.1 <> "") (pu_list u).
Proof.
  intros [K0 K1 K2 K3 K4 K5 K6]. unfold pu_list. rewrite !Forall_app.
  split_and!; by (eapply of_kind_nonempty; [|eassumption]; lia).
Qed.

Lemma nonempty_values o : nonempty_value o -> Forall (fun x : string * bytes => x.2 <> []) (option_list o).
Proof. destruct o as [[k v]|]; cbn; [by repeat constructor | constructor]. Qed.

Lemma field_update_nonempty changed path value o :
  (forall h, value = Ok h -> hex_decode_prefix h <> []) ->
  field_update changed path value = Ok o -> nonempty_value o.
Proof. intros Hv [(_ & h & Hh & ->)|[_ ->]]%field_update_shape; cbn; auto. Qed.

(** The commitment update that deletes, deletes a commitment of the input. *)
Lemma commitment_update_deletes `{LOK : !LucidOk} p c input output k v :
  commitment_update p c input output = Some (Ok (Some (k, v))) -> v = [] ->
  exists n, map_has input n = true /\ k = commitmentPath p c n.
Proof.
  intros [Hi|(n & b & _ & Hrem & Ho)]%commitment_update_shape Hv.
  - by apply insert_update_nonempty in Hi.
  - injection Ho as -> ->. exists n. split; [|done].
    assert ((n, b) ∈ entries_not_in input output) as Hin by (rewrite Hrem; by left).
    apply list_elem_of_filter in Hin as [_ Hin].
    apply bool_decide_eq_true, map_get_is_Some. by apply (list_elem_of_fmap_2 fst) in Hin.
Qed.

Lemma packet_deletions_present `{LOK : !LucidOk} p c i o u t :
  tree_wf t -> packet_updates_of p c i o u ->
  (forall n, map_has (packet_commitment i) n = true -> tree_value t (commitmentPath p c n) <> []) ->
  deletions_present t (pu_list u).
Proof.
  intros Hwf Hu Hstored. pose proof (packet_updates_kinds _ _ _ _ _ Hu) as [K0 K1 K2 K3 K4 K5 K6].
  destruct Hu as (H1 & H2 & H3 & H4 & H5 & H6 & H7). unfold pu_list.
  apply field_update_nonempty in H1, H2, H3, H4; try (intros ?; apply Data_to_nonempty).
  apply insert_update_nonempty in H6, H7.
  repeat (apply deletions_present_app; [by apply deletions_present_values, nonempty_values|]).
  apply deletions_present_app; [|apply deletions_present_values, Forall_app; by split; apply nonempty_values].
  destruct (pu_commitment u) as [[k v]|] eqn:Eu; cbn [option_list deletions_present]; [|done].
  split; [|done]. intros Hv. destruct (commitment_update_deletes _ _ _ _ _ _ H5 Hv) as (n & Hn & ->).
  repeat match goal with
  | H : of_kind ?m ?o |- context [tree_value (set_all (option_list ?o) ?x) ?k] =>
      rewrite (value_after_opt_other m o x k) by (done || by repeat apply tree_wf_set_all)
  end.
  by apply Hstored.
Qed.

Lemma handlePacket_replays `{LOK : !LucidOk} s oldRoot p c i o res s' :
  state_ok s ->
  (forall n, map_has (packet_commitment (cd_state i)) n = true ->
     tree_value (base_tree s oldRoot) (commitmentPath p c n) <> []) ->
  computeRootWithHandlePacketUpdate oldRoot p c i o s = (Ok res, s') ->
  exists u, packet_updates_of p c (cd_state i) (cd_state o) u /\
    (Forall (fun x => value_ok x.2) (pu_list u) ->
     root_transition s oldRoot (pu_list u) (pu_siblings u (witness res)) res s').
Proof.
  intros Hok Hstored H. pose proof (speculate_ok _ _ _ _ _ H) as (t0 & s1 & t1 & _ & Hb & _).
  apply handle_packet_body_run in Hb as (u & Hu & _). exists u. split; [done|]. intros Hvals.
  eapply speculate_transition; [done | exact H | |].
  - apply Forall_and. split; [|done]. by eapply pu_paths, packet_updates_kinds.
  - intros t t2 Hokt Hl Hb. apply handle_packet_body_run in Hb as (u' & Hu' & Hrun).
    rewrite (packet_updates_of_inj _ _ _ _ _ _ Hu Hu') in *. split; [done|].
    eapply packet_deletions_present; [apply Hokt | exact Hu' |].
    intros n Hn. rewrite (tree_value_leaves _ _ _ Hl). by apply Hstored.
Qed.

(** A successful [computeRootWithHandlePacketUpdate] is the
    transition of exactly the keys in which the two channel datums differ, in the
    validator's order (channel end, send, receive and acknowledgement counters,
    commitment, receipt, acknowledgement), provided that every commitment of the
    input datum is in the tree. *)
Lemma handlePacket_transition `{LOK : !LucidOk} s oldRoot p c i o res s' :
  state_ok s ->
  (forall n, map_has (packet_commitment (cd_state i)) n = true ->
     tree_value (base_tree s oldRoot) (commitmentPath p c n) <> []) ->
  computeRootWithHandlePacketUpdate oldRoot p c i o s = (Ok res, s') ->
  exists u, packet_updates_of p c (cd_state i) (cd_state o) u /\
    (Forall (fun x => value_ok x.2) (pu_list u) ->
     root_transition s oldRoot (pu_list u) (pu_siblings u (witness res)) res s').
Proof. apply handlePacket_replays. Qed.

Lemma prunePacketHistory_replays s oldRoot p c n res s' :
  state_ok s ->
  computeRootWithPrunePacketHistoryUpdate oldRoot p c n s = (Ok res, s') ->
  root_transition s oldRoot [(receiptPath p c n, []); (ackPath p c n, [])]
    [pr_receiptSiblings (witness res); pr_acknowledgementSiblings (witness res)] res s'.
Proof.
  intros Hok H. eapply speculate_transition; [done | exact H | |].
  - repeat apply Forall_cons_2; try apply Forall_nil_2; (split; [done | apply value_ok_nil]).
  - intros t t1 Hokt _ Hb. cbv zeta in Hb. inv_bind Hb. inv_ret E. inv_ret E0.
    destruct (tree_get (receiptPath p c n) t) eqn:Er; [|discriminate].
    destruct (tree_get (ackPath p c n) t) eqn:Ea; [|discriminate].
    inv_bind Hb. apply mret_ok in Hb as [-> ->]. split.
    + eapply run_updates_cons; [exact E | by apply run_updates_1].
    + cbn [deletions_present]. split_and!; [| |done]; intros _.
      * by eapply tree_get_value_present.
      * rewrite tree_value_set by apply Hokt. rewrite decide_False by done.
        by eapply tree_get_value_present.
Qed.

(** A successful [computeRootWithPrunePacketHistoryUpdate]
    deletes the receipt and the acknowledgement of one sequence, both of which
    were stored, in the validator's order. *)
Lemma prunePacketHistory_transition s oldRoot p c n res s' :
  state_ok s ->
  computeRootWithPrunePacketHistoryUpdate oldRoot p c n s = (Ok res, s') ->
  root_transition s oldRoot [(receiptPath p c n, []); (ackPath p c n, [])]
    [pr_receiptSiblings (witness res); pr_acknowledgementSiblings (witness res)] res s'.
Proof. apply prunePacketHistory_replays. Qed.

(** No computation touches the canonical tree: whether it returns or
    throws, the stored keys and values are those from before the call. *)
Lemma computations_are_speculative s oldRoot a b v1 v2 v3 v4 h (hs : list string) x (n : Z) i o :
  same_contents s (computeRootWithClientUpdate oldRoot a v1 x s).2 /\
  same_contents s (computeRootWithCreateClientUpdate oldRoot a v1 v2 h s).2 /\
  same_contents s (computeRootWithUpdateClientUpdate oldRoot a v1 hs x s).2 /\
  same_contents s (computeRootWithCreateConnectionUpdate oldRoot a v1 s).2 /\
  same_contents s (computeRootWithConnectionUpdate oldRoot a v1 s).2 /\
  same_contents s (computeRootWithPortBind oldRoot a v1 s).2 /\
  same_contents s (computeRootWithCreateChannelUpdate oldRoot a b v1 v2 v3 v4 s).2 /\
  same_contents s (computeRootWithUpdateChannelUpdate oldRoot a b v1 s).2 /\
  same_contents s (computeRootWithChannelUpdate oldRoot a (Some b) v1 s).2 /\
  same_contents s (computeRootWithHandlePacketUpdate oldRoot a b i o s).2 /\
  same_contents s (computeRootWithPrunePacketHistoryUpdate oldRoot a b n s).2.
Proof. split_and!; apply speculate_pure. Qed.

(** ** The tree tracks the channel datum *)

Lemma entries_not_in_elem a b n v : (n, v) ∈ entries_not_in a b <-> (n, v) ∈ a /\ map_get b n = None.
Proof.
  unfold entries_not_in. rewrite list_elem_of_filter. unfold map_has. cbn.
  rewrite bool_decide_eq_false, <- eq_None_not_Some. tauto.
Qed.

Lemma in_map_get (m : jsmap Z string) n v : (n, v) ∈ m -> map_get m n <> None.
Proof. intros Hin. rewrite map_get_None. intros H. apply H. by apply (list_elem_of_fmap_2 fst) in Hin. Qed.

(** What the tree holds at [k] after an optional update. *)
Definition value_with (o : option (string * bytes)) (t : ICS23MerkleTree) (k : string) : bytes :=
  match o with
  | Some (k', v) => if decide (k' = k) then v else tree_value t k
  | None => tree_value t k
  end.

Definition is_encoding (value : result string) (b : bytes) : Prop :=
  exists h, value = Ok h /\ b = hex_decode_prefix h.

(** [f n] is the stored encoding of entry [n] of [m], or nothing. *)
Definition tracks (m : jsmap Z string) (f : Z -> bytes) : Prop :=
  forall n, match map_get m n with Some b => is_encoding (encodeBytesValue b) (f n) | None => f n = [] end.

Record channel_committed (t : ICS23MerkleTree) (p c : string) (d : ChannelDatumState) : Prop := {
  com_channel : is_encoding (encodeChannelEndValue (obj_val (channel d))) (tree_value t (channelEndPath p c));
  com_send : is_encoding (encodeIntegerValue (next_sequence_send d)) (tree_value t (nextSequenceSendPath p c));
  com_recv : is_encoding (encodeIntegerValue (next_sequence_recv d)) (tree_value t (nextSequenceRecvPath p c));
  com_ack : is_encoding (encodeIntegerValue (next_sequence_ack d)) (tree_value t (nextSequenceAckPath p c));
  com_commitment : tracks (packet_commitment d) (fun n => tree_value t (commitmentPath p c n));
  com_receipt : tracks (packet_receipt d) (fun n => tree_value t (receiptPath p c n));
  com_acknowledgement : tracks (packet_acknowledgement d) (fun n => tree_value t (ackPath p c n));
}.

(** A datum update keeps the value of every sequence it keeps. *)
Definition keeps_values (a b : jsmap Z string) : Prop :=
  forall n v v', map_get a n = Some v -> map_get b n = Some v' -> v = v'.

Lemma field_tracks (changed : bool) path old new o t :
  field_update changed path new = Ok o -> is_encoding old (tree_value t path) ->
  (changed = false -> old = new) -> is_encoding new (value_with o t path).
Proof.
  intros [(_ & h & -> & ->)|[-> ->]]%field_update_shape Hold Heq; cbn.
  - rewrite decide_True by done. by exists h.
  - by rewrite <- Heq.
Qed.

Lemma insert_tracks path `{!Inj (=) (=) path} input output o t :
  insert_update path input output = Some (Ok o) -> keeps_values input output ->
  tracks input (fun n => tree_value t (path n)) -> tracks output (fun n => value_with o t (path n)).
Proof.
  intros Hs%insert_update_shape Hkeep Hin n. specialize (Hin n).
  assert (forall b, map_get input n = Some b -> map_get output n <> None) as Hno.
  { intros b Hb Hn. assert ((n, b) ∈ entries_not_in input output) as Hx
      by (apply entries_not_in_elem; split; [by apply map_get_In | done]).
    destruct Hs as [(? & ? & ? & _ & E & _)|(_ & E & _)]; rewrite E in Hx; by apply elem_of_nil in Hx. }
  destruct Hs as [(m & b & h & Hins & _ & Hh & ->)|(Hins & _ & ->)]; cbn [value_with].
  - assert ((m, b) ∈ output /\ map_get input m = None) as [Hm Hmi]
      by (apply entries_not_in_elem; rewrite Hins; by left).
    destruct (decide (m = n)) as [->|Hne].
    + rewrite decide_True by done. destruct (map_get output n) as [b'|] eqn:En; [|by apply in_map_get in Hm].
      assert ((n, b') ∈ entries_not_in output input) as Hx
        by (apply entries_not_in_elem; split; [by apply map_get_In | done]).
      rewrite Hins in Hx. apply list_elem_of_singleton in Hx as [= ->]. by exists h.
    + rewrite decide_False by (intros ?; by apply Hne, (inj path)).
      destruct (map_get output n) as [b'|] eqn:En; destruct (map_get input n) as [b0|] eqn:Ei.
      * by rewrite <- (Hkeep _ _ _ Ei En).
      * assert ((n, b') ∈ entries_not_in output input) as Hx
          by (apply entries_not_in_elem; split; [by apply map_get_In | done]).
        rewrite Hins in Hx. apply list_elem_of_singleton in Hx as [= -> ->]. done.
      * by destruct (Hno b0).
      * done.
  - destruct (map_get output n) as [b'|] eqn:En; destruct (map_get input n) as [b0|] eqn:Ei.
    + by rewrite <- (Hkeep _ _ _ Ei En).
    + assert ((n, b') ∈ entries_not_in output input) as Hx
        by (apply entries_not_in_elem; split; [by apply map_get_In | done]).
      rewrite Hins in Hx. by apply elem_of_nil in Hx.
    + by destruct (Hno b0).
    + done.
Qed.

Lemma commitment_tracks p c `{!Inj (=) (=) (commitmentPath p c)} input output o t :
  commitment_update p c input output = Some (Ok o) -> keeps_values input output ->
  tracks input (fun n => tree_value t (commitmentPath p c n)) ->
  tracks output (fun n => value_with o t (commitmentPath p c n)).
Proof.
  intros [Hi|(m & b & Hins & Hrem & ->)]%commitment_update_shape Hkeep Hin; [by eapply insert_tracks|].
  intros n. specialize (Hin n). cbn [value_with].
  assert ((m, b) ∈ input /\ map_get output m = None) as [Hm Hmo]
    by (apply entries_not_in_elem; rewrite Hrem; by left).
  destruct (decide (m = n)) as [->|Hne].
  - rewrite decide_True by done. by rewrite Hmo.
  - rewrite decide_False by (intros ?; by apply Hne, (inj (commitmentPath p c))).
    destruct (map_get output n) as [b'|] eqn:En; destruct (map_get input n) as [b0|] eqn:Ei.
    + by rewrite <- (Hkeep _ _ _ Ei En).
    + assert ((n, b') ∈ entries_not_in output input) as Hx
        by (apply entries_not_in_elem; split; [by apply map_get_In | done]).
      rewrite Hins in Hx. by apply elem_of_nil in Hx.
    + assert ((n, b0) ∈ entries_not_in input output) as Hx
        by (apply entries_not_in_elem; split; [by apply map_get_In | done]).
      rewrite Hrem in Hx. by apply list_elem_of_singleton in Hx as [= -> ->].
    + done.
Qed.

#[global] Instance sequence_suffix_inj p c : Inj (=) (=) (sequence_suffix p c).
Proof. intros n m E. unfold sequence_suffix in E. by repeat apply (inj _) in E. Qed.
#[global] Instance commitmentPath_inj p c : Inj (=) (=) (commitmentPath p c).
Proof. intros n m E. by apply (inj (String.append "commitments")), (inj (sequence_suffix p c)) in E. Qed.
#[global] Instance receiptPath_inj p c : Inj (=) (=) (receiptPath p c).
Proof. intros n m E. by apply (inj (String.append "receipts")), (inj (sequence_suffix p c)) in E. Qed.
#[global] Instance ackPath_inj p c : Inj (=) (=) (ackPath p c).
Proof. intros n m E. by apply (inj (String.append "acks")), (inj (sequence_suffix p c)) in E. Qed.

Lemma committed_after p c i o u t :
  tree_wf t -> packet_updates_of p c i o u -> channel_committed t p c i ->
  (obj_ref (channel i) = obj_ref (channel o) -> obj_val (channel i) = obj_val (channel o)) ->
  keeps_values (packet_commitment i) (packet_commitment o) ->
  keeps_values (packet_receipt i) (packet_receipt o) ->
  keeps_values (packet_acknowledgement i) (packet_acknowledgement o) ->
  channel_committed (set_all (pu_list u) t) p c o.
Proof.
  intros Hwf Hu [C1 C2 C3 C4 C5 C6 C7] Hobj K1 K2 K3.
  pose proof (fun k => pu_value u t k Hwf (packet_updates_kinds _ _ _ _ _ Hu)) as Hval.
  destruct Hu as (H1 & H2 & H3 & H4 & H5 & H6 & H7).
  split; [rewrite Hval; eapply field_tracks; [eassumption..|]| rewrite Hval; eapply field_tracks; [eassumption..|]
    | rewrite Hval; eapply field_tracks; [eassumption..|] | rewrite Hval; eapply field_tracks; [eassumption..|] | | | ].
  - intros E%negb_false_iff%Nat.eqb_eq. by rewrite Hobj.
  - intros E%negb_false_iff%Z.eqb_eq. by rewrite E.
  - intros E%negb_false_iff%Z.eqb_eq. by rewrite E.
  - intros E%negb_false_iff%Z.eqb_eq. by rewrite E.
  - intros n. rewrite Hval. by apply (commitment_tracks p c _ _ _ _ H5).
  - intros n. rewrite Hval. by apply (insert_tracks _ _ _ _ _ H6).
  - intros n. rewrite Hval. by apply (insert_tracks _ _ _ _ _ H7).
Qed.

Lemma channel_committed_leaves t t' p c d :
  leaves t = leaves t' -> channel_committed t p c d -> channel_committed t' p c d.
Proof.
  intros E [C1 C2 C3 C4 C5 C6 C7].
  assert (forall k, tree_value t' k = tree_value t k) as Hv by (intros k; by apply tree_value_leaves).
  split; try (by rewrite Hv); intros n; rewrite Hv; [apply C5 | apply C6 | apply C7].
Qed.

Lemma handlePacket_tracks `{LOK : !LucidOk} s oldRoot p c i o res s' :
  state_ok s ->
  channel_committed (base_tree s oldRoot) p c (cd_state i) ->
  (obj_ref (channel (cd_state i)) = obj_ref (channel (cd_state o)) ->
   obj_val (channel (cd_state i)) = obj_val (channel (cd_state o))) ->
  keeps_values (packet_commitment (cd_state i)) (packet_commitment (cd_state o)) ->
  keeps_values (packet_receipt (cd_state i)) (packet_receipt (cd_state o)) ->
  keeps_values (packet_acknowledgement (cd_state i)) (packet_acknowledgement (cd_state o)) ->
  (forall u, packet_updates_of p c (cd_state i) (cd_state o) u ->
     Forall (fun x => value_ok x.2) (pu_list u)) ->
  computeRootWithHandlePacketUpdate oldRoot p c i o s = (Ok res, s') ->
  channel_committed (commitTree res) p c (cd_state o).
Proof.
  intros Hok Hcom Hobj K1 K2 K3 Hvals H.
  pose proof (speculate_ok _ _ _ _ _ H) as (t & s1 & t1 & Hc & Hb & Hr).
  apply getClonedTreeFromRoot_ok in Hc as (Hl & Hokt & _); [|done].
  apply handle_packet_body_run in Hb as (u & Hu & Hrun).
  assert (updates_ok (pu_list u)) as Hus
    by (apply Forall_and; split; [by eapply pu_paths, packet_updates_kinds | by apply Hvals]).
  destruct (run_updates_ok _ _ _ _ Hokt Hus Hrun) as (Hl1 & Hok1 & _).
  destruct (getRoot_ok _ _ _ Hok1 Hr) as (_ & _ & Hl2 & _).
  eapply (channel_committed_leaves (set_all (pu_list u) t)); [by rewrite Hl2|].
  eapply committed_after; try done; [apply Hokt|]. by eapply channel_committed_leaves.
Qed.

(** If the tree holds a channel's datum (its end, counters, and
    exactly its commitments, receipts and acknowledgements), then after a
    successful [computeRootWithHandlePacketUpdate] the tree that [commit]
    installs holds exactly the output datum. *)
Lemma handlePacket_tracks_datum `{LOK : !LucidOk} s oldRoot p c i o res s' :
  state_ok s ->
  channel_committed (base_tree s oldRoot) p c (cd_state i) ->
  (obj_ref (channel (cd_state i)) = obj_ref (channel (cd_state o)) ->
   obj_val (channel (cd_state i)) = obj_val (channel (cd_state o))) ->
  keeps_values (packet_commitment (cd_state i)) (packet_commitment (cd_state o)) ->
  keeps_values (packet_receipt (cd_state i)) (packet_receipt (cd_state o)) ->
  keeps_values (packet_acknowledgement (cd_state i)) (packet_acknowledgement (cd_state o)) ->
  (forall u, packet_updates_of p c (cd_state i) (cd_state o) u ->
     Forall (fun x => value_ok x.2) (pu_list u)) ->
  computeRootWithHandlePacketUpdate oldRoot p c i o s = (Ok res, s') ->
  channel_committed (commitTree res) p c (cd_state o).
Proof. apply handlePacket_tracks. Qed.

End claims.

(** ** State-root computation: evaluated instances

    Every contract of [StateRootTheorems] applied to a concrete module state with
    one client and one channel, evaluated with the toy digest and serialiser. *)

Lemma ok_exists {S A} (f : M S A) (s : S) :
  is_ok (f s).1 = true -> exists a s', f s = (Ok a, s').
Proof. destruct (f s) as [[a|e] s']; [eauto | done]. Qed.

Ltac by_value_ok := let H := fresh in intros _ H; vm_compute in H; discriminate.

Definition toy_channel : Channel :=
  MkChannel Open Unordered (MkChannelCounterparty "7472" "6330") ["6331"] "69".

Definition toy_input : ChannelDatum :=
  MkChannelDatum
    (MkChannelDatumState (MkChannelObj 0 toy_channel) 2 1 1 [(1%Z, "aa01")] [] []
       (MkHeight 0 0) (MkHeight 0 0)) "7472" (MkAuthToken "aa" "bb").

(** An acknowledgement arrived: the commitment goes away. *)
Definition toy_acknowledged : ChannelDatum :=
  MkChannelDatum
    (MkChannelDatumState (MkChannelObj 0 toy_channel) 2 1 1 [] [] []
       (MkHeight 0 0) (MkHeight 0 0)) "7472" (MkAuthToken "aa" "bb").

(** A packet arrived: receive counter, receipt and acknowledgement. *)
Definition toy_received : ChannelDatum :=
  MkChannelDatum
    (MkChannelDatumState (MkChannelObj 0 toy_channel) 2 2 1 [(1%Z, "aa01")] [(1%Z, "")] [(1%Z, "bb02")]
       (MkHeight 0 0) (MkHeight 0 0)) "7472" (MkAuthToken "aa" "bb").

Definition bytes_of (r : result string) : bytes := match r with Ok h => hex_decode_prefix h | Err _ => [] end.

Definition toy_contents : list (string * bytes) :=
  let d := cd_state toy_input in
  [ (clientStatePath "07-tendermint-0", [x01]);
    (consensusStatePath "07-tendermint-0" "0/5", [x02]);
    (channelEndPath "tr" "c0", bytes_of (encodeChannelEndValue toy_channel));
    (nextSequenceSendPath "tr" "c0", bytes_of (encodeIntegerValue 2));
    (nextSequenceRecvPath "tr" "c0", bytes_of (encodeIntegerValue 1));
    (nextSequenceAckPath "tr" "c0", bytes_of (encodeIntegerValue 1));
    (commitmentPath "tr" "c0" 1, bytes_of (encodeBytesValue "aa01")) ].

Definition toy_chan_tree : ICS23MerkleTree := set_all toy_contents new_tree.
Definition toy_state : gstate := MkGState toy_chan_tree true.
Definition toy_old : string :=
  Eval vm_compute in match (getRoot toy_chan_tree).1 with Ok r => r | Err _ => "" end.

Lemma tree_ok_set_all us t : tree_ok t -> updates_ok us -> tree_ok (set_all us t).
Proof.
  intros Hok Hus. revert t Hok. induction Hus as [|[k v] us [Hk Hv] _ IH]; intros t Hok; cbn; [done|].
  by apply IH, tree_ok_set.
Qed.

Lemma toy_state_ok : state_ok toy_state.
Proof.
  apply tree_ok_set_all; [apply tree_ok_new|].
  repeat first [apply Forall_nil_2 | apply Forall_cons_2; [split; [done | by_value_ok]|]].
Qed.

(** The updates of the two packet diffs. *)
Definition toy_ack_updates : packet_updates :=
  MkPU None None None None (Some (commitmentPath "tr" "c0" 1, [])) None None.
Definition toy_recv_updates : packet_updates :=
  MkPU None None (Some (nextSequenceRecvPath "tr" "c0", bytes_of (encodeIntegerValue 2))) None None
    (Some (receiptPath "tr" "c0" 1, bytes_of (encodeBytesValue "")))
    (Some (ackPath "tr" "c0" 1, bytes_of (encodeBytesValue "bb02"))).

Lemma toy_ack_updates_of :
  packet_updates_of "tr" "c0" (cd_state toy_input) (cd_state toy_acknowledged) toy_ack_updates.
Proof. unfold packet_updates_of. split_and!; vm_compute; reflexivity. Qed.
Lemma toy_recv_updates_of :
  packet_updates_of "tr" "c0" (cd_state toy_input) (cd_state toy_received) toy_recv_updates.
Proof. unfold packet_updates_of. split_and!; vm_compute; reflexivity. Qed.

Lemma toy_input_committed : channel_committed (base_tree toy_state toy_old) "tr" "c0" (cd_state toy_input).
Proof.
  assert (forall n, tree_value (base_tree toy_state toy_old) (commitmentPath "tr" "c0" n) <> [] ->
            n = 1%Z) as Hc.
  { intros n. unfold tree_value. destruct (tree_get _ _) as [v|] eqn:E; [intros _ | done].
    unfold tree_get in E. apply map_get_In, (list_elem_of_fmap_2 fst) in E.
    assert (fst <$> leaves (base_tree toy_state toy_old) = fst <$> toy_contents) as Hk by (vm_compute; reflexivity).
    rewrite Hk in E. cbn -[commitmentPath] in E. rewrite !elem_of_cons in E.
    destruct E as [E|[E|[E|[E|[E|[E|[E|E]]]]]]]; try discriminate E; [|by apply elem_of_nil in E].
    by apply (inj (commitmentPath "tr" "c0")) in E. }
  split; try (eexists; split; vm_compute; reflexivity).
  - intros n. destruct (decide (n = 1%Z)) as [->|Hn]; [eexists; split; vm_compute; reflexivity|].
    cbn [packet_commitment cd_state toy_input map_get]. rewrite decide_False by done. cbn [map_get].
    destruct (decide (tree_value (base_tree toy_state toy_old) (commitmentPath "tr" "c0" n) = [])); [done|].
    by exfalso; eapply Hn, Hc.
Qed.

(** A tree with a receipt and an acknowledgement. *)
Definition toy_history : gstate :=
  MkGState (set_all [(receiptPath "tr" "c0" 1, [x01]); (ackPath "tr" "c0" 1, [x02])] new_tree) true.
Definition toy_history_root : string :=
  Eval vm_compute in match (getRoot (currentTree toy_history)).1 with Ok r => r | Err _ => "" end.
