(* ===== verification/TreeRebuild.v ===== *)
(** * Rebuilding the tree from the chain

    [rebuildTreeFromChain] and [alignTreeWithChain] of [ibc-state-root.ts].  The
    UTxOs come from Kupo and are decoded by Lucid; both are the interface
    [ChainView].  The rebuilt tree replaces the canonical one only after its root
    equals the root committed in the HostState UTxO. *)

From S2P Require Import Prelude JsMap JsString Hex MerkleTree Datum StateRoot.

(** A UTxO: its out-ref, its assets in insertion order and its inline datum (hex). *)
Record UTxO := MkUTxO {
  txHash : string; outputIndex : Z; assets : jsmap string Z; datum : option string
}.

Class ChainView := {
  findUtxoAtHostStateNFT : result (option UTxO);
  queryAllClientUtxos : result (list UTxO);
  queryAllConnectionUtxos : result (list UTxO);
  queryAllChannelUtxos : result (list UTxO);
  decode_host_state : string -> result HostStateDatum;
  decode_client : string -> result ClientDatum;
  decode_connection : string -> result ConnectionDatum;
  decode_channel : string -> result ChannelDatum;
}.

(** [utxo.datum], absent when undefined or empty. *)
Definition datum_of (u : UTxO) : option string :=
  match datum u with Some d => if decide (d = "") then None else Some d | None => None end.

(** [Object.keys(assets).find((unit) => unit !== 'lovelace')] *)
Definition first_unit (u : UTxO) : option string :=
  list_find (fun k => k <> "lovelace") (map_keys (assets u)) ≫= fun ix => Some ix.2.

(** The sequence postfix of an authentication token: the unit is the policy id
    (56 digits), the token name's 48-digit prefix, then the sequence as text. *)
Definition token_postfix (unit : string) : string :=
  utf8_decode (hex_decode_prefix (slice_from 48 (slice_from 56 unit))).

Section rebuild.
Context `{SHA : Sha256} `{L : Lucid} `{CV : ChainView}.

(** [tree.set(path, Buffer.from(value, 'hex'))] *)
Definition set_encoded (path : string) (value : result string) (tree : ICS23MerkleTree)
  : result ICS23MerkleTree :=
  v ← value; Ok (tree_set path (hex_decode_prefix v) tree).

Definition add_port (tree : ICS23MerkleTree) (entry : string * ModuleRegistration)
  : result ICS23MerkleTree :=
  set_encoded (portPath (convertHex2String entry.1)) (encodeModuleRegistration entry.2) tree.

Definition add_consensus (clientId : string) (tree : ICS23MerkleTree) (entry : Height * ConsensusState)
  : result ICS23MerkleTree :=
  set_encoded (consensusStatePath clientId (pretty (revisionHeight entry.1)))
    (encodeConsensusStateValue entry.2) tree.

Definition add_client (tree : ICS23MerkleTree) (u : UTxO) : result ICS23MerkleTree :=
  match datum_of u with
  | None => Ok tree
  | Some d =>
      clientDatum ← decode_client d;
      match first_unit u with
      | None => Ok tree
      | Some clientUnit =>
          if decide (str_length clientUnit < 56 + 48 + 2)%nat then Ok tree else
          clientSequence ← BigInt (token_postfix clientUnit);
          let clientId := "07-tendermint-" +:+ pretty clientSequence in
          tree ← set_encoded (clientStatePath clientId)
                   (encodeClientStateValue (clientState (cld_state clientDatum))) tree;
          foldR (add_consensus clientId) tree (consensusStates (cld_state clientDatum))
      end
  end.

(** The checks the connection and channel loops share: the sequence of the
    UTxO's token, when it has one. *)
Definition token_sequence (u : UTxO) : option string :=
  match first_unit u with
  | None => None
  | Some unit =>
      if decide (str_length unit <= 56)%nat then None else
      if decide (str_length (slice_from 56 unit) < 48 + 2)%nat then None else
      let sequence := token_postfix unit in
      if is_digits sequence then Some sequence else None
  end.

Definition add_connection (tree : ICS23MerkleTree) (u : UTxO) : result ICS23MerkleTree :=
  match datum_of u with
  | None => Ok tree
  | Some d =>
      connectionDatum ← decode_connection d;
      match token_sequence u with
      | None => Ok tree
      | Some sequence =>
          set_encoded (connectionPath ("connection-" +:+ sequence))
            (encodeConnectionEndValue (cnd_state connectionDatum)) tree
      end
  end.

Definition channel_port (d : ChannelDatum) : string :=
  if decide (cd_port d = "") then "transfer" else utf8_decode (hex_decode_prefix (cd_port d)).

Definition add_sequence (path : Z -> string) (tree : ICS23MerkleTree) (entry : Z * string)
  : result ICS23MerkleTree :=
  set_encoded (path entry.1) (encodeBytesValue entry.2) tree.

Definition add_channel_state (p c : string) (d : ChannelDatumState) (tree : ICS23MerkleTree)
  : result ICS23MerkleTree :=
  tree ← set_encoded (channelEndPath p c) (encodeChannelEndValue (obj_val (channel d))) tree;
  tree ← set_encoded (nextSequenceSendPath p c) (encodeIntegerValue (next_sequence_send d)) tree;
  tree ← set_encoded (nextSequenceRecvPath p c) (encodeIntegerValue (next_sequence_recv d)) tree;
  tree ← set_encoded (nextSequenceAckPath p c) (encodeIntegerValue (next_sequence_ack d)) tree;
  tree ← foldR (add_sequence (commitmentPath p c)) tree (packet_commitment d);
  tree ← foldR (add_sequence (receiptPath p c)) tree (packet_receipt d);
  foldR (add_sequence (ackPath p c)) tree (packet_acknowledgement d).

Definition add_channel (tree : ICS23MerkleTree) (u : UTxO) : result ICS23MerkleTree :=
  match datum_of u with
  | None => Ok tree
  | Some dt =>
      channelDatum ← decode_channel dt;
      match token_sequence u with
      | None => Ok tree
      | Some sequence =>
          add_channel_state (channel_port channelDatum) ("channel-" +:+ sequence) (cd_state channelDatum) tree
      end
  end.

(** The body of the [try] block up to the root check. *)
Definition collect_tree (host : HostState) : result ICS23MerkleTree :=
  tree ← foldR add_port new_tree (bound_port host);
  clientUtxos ← queryAllClientUtxos;
  tree ← foldR add_client tree clientUtxos;
  connectionUtxos ← queryAllConnectionUtxos;
  tree ← foldR add_connection tree connectionUtxos;
  channelUtxos ← queryAllChannelUtxos;
  foldR add_channel tree channelUtxos.

Definition root_mismatch (expected computed : string) : error :=
  JsError ("Tree rebuild FAILED: Root mismatch!" +:+ nl +:+ "  Expected: " +:+ expected +:+ nl +:+
           "  Computed: " +:+ computed +:+ nl +:+
           "This indicates stale Kupo data or datum decoding error.").

Definition rebuildTreeFromChain : M gstate (ICS23MerkleTree * string) :=
  hostStateUtxo ← liftR findUtxoAtHostStateNFT;
  match hostStateUtxo ≫= datum_of with
  | None => raise (JsError "HostState UTXO has no datum - STT architecture integrity compromised")
  | Some d =>
      hostStateDatum ← liftR (decode_host_state d);
      let expectedRoot := ibc_state_root (hs_state hostStateDatum) in
      try_catch (
        tree ← liftR (collect_tree (hs_state hostStateDatum));
        '(computedRoot, tree) ← on_local tree getRoot;
        if decide (computedRoot = expectedRoot) then
          modify (set_tree tree) ;; mret (tree, computedRoot)
        else raise (root_mismatch expectedRoot computedRoot))
      (fun error => raise (JsError ("Tree rebuild failed: " +:+ error_message error)))
  end.

Definition alignTreeWithChain : M gstate string :=
  ready ← gets servicesReady;
  if ready : bool then result ← rebuildTreeFromChain; mret result.2
  else raise (JsError "Tree services not initialized. Call initTreeServices() on Gateway startup.").

End rebuild.
