(* ===== verification/TreeServices.v ===== *)
(** * Tree services ([shared/services/])

    [IbcTreePendingUpdatesService] (updates waiting for their transaction to be
    confirmed), [IbcTreeCacheService] (the persisted tree) and [TreeInitService]
    (startup).  The database is a table with an availability flag; the payload
    codec [gzip (JSON.stringify ...)] is the interface [TreeCodec]. *)

From S2P Require Import Prelude JsMap JsString Hex MerkleTree Datum StateRoot TreeRebuild.

(** ** Pending updates *)

(** The closure [commit] is the tree it installs, if it installs one. *)
Record PendingTreeUpdate := MkPendingUpdate { expectedNewRoot : string; pendingTree : option ICS23MerkleTree }.
Definition MkPending (root : string) (tree : ICS23MerkleTree) : PendingTreeUpdate := MkPendingUpdate root (Some tree).

Abbreviation pending := (jsmap string PendingTreeUpdate).

Definition register (txHash : string) (update : PendingTreeUpdate) : M pending unit :=
  if decide (txHash = "") then mret tt
  else modify (fun p => map_set p (toLowerCase txHash) update).

Definition take_update (txHash : string) : M pending (option PendingTreeUpdate) :=
  if decide (txHash = "") then mret None
  else
    let key := toLowerCase txHash in
    update ← gets (fun p => map_get p key);
    match update with
    | Some u => modify (fun p => map_delete p key) ;; mret (Some u)
    | None => mret None
    end.

Fixpoint find_root (root : string) (p : pending) : option (string * PendingTreeUpdate) :=
  match p with
  | [] => None
  | (key, update) :: p' => if decide (expectedNewRoot update = root) then Some (key, update) else find_root root p'
  end.

Definition takeByExpectedRoot (root : string) : M pending (option PendingTreeUpdate) :=
  if decide (root = "") then mret None
  else
    found ← gets (find_root root);
    match found with
    | Some (key, update) => modify (fun p => map_delete p key) ;; mret (Some update)
    | None => mret None
    end.

(** ** The persisted tree *)

Definition CURRENT_IBC_TREE_CACHE_ID : string := "current".
Definition ibcTreeCacheIdForRoot (root : string) : string := "root:" +:+ toLowerCase root.
Definition ibcTreeCacheIdForHeight (height : Z) : string := "height:" +:+ pretty height.

Class TreeCodec := {
  pack : TreeJSON -> bytes;
  unpack : bytes -> result TreeJSON;
}.

(** gzip and JSON both round-trip an object of strings. *)
Class TreeCodecOk {TC : TreeCodec} : Prop := { unpack_pack j : unpack (pack j) = Ok j }.

Record cache_db := MkDb { db_available : bool; cache_rows : jsmap string (string * bytes) }.

Definition db_error : error := JsError "Connection terminated".

Definition query {A} (f : jsmap string (string * bytes) -> A * jsmap string (string * bytes)) : M cache_db A :=
  fun db => if db_available db
            then let '(a, rows) := f (cache_rows db) in (Ok a, MkDb true rows)
            else (Err db_error, db).

Section cache.
Context `{SHA : Sha256} `{TC : TreeCodec}.

(** [CREATE TABLE IF NOT EXISTS] on the existing table. *)
Definition ensureSchema : M cache_db unit := query (fun rows => (tt, rows)).

(** The [try] block: decode, rebuild, check against the stored root. *)
Definition decode_row (row : string * bytes) : option (ICS23MerkleTree * string) :=
  match unpack row.2 with
  | Err _ => None
  | Ok parsed =>
      match getRoot (fromJSON parsed) with
      | (Err _, _) => None
      | (Ok computedRoot, tree) => if decide (row.1 = computedRoot) then Some (tree, computedRoot) else None
      end
  end.

Definition load (id : string) : M cache_db (option (ICS23MerkleTree * string)) :=
  row ← query (fun rows => (map_get rows id, rows));
  mret (row ≫= decode_row).

(** A call of a tree method, and of a database query, in a method that has both. *)
Definition on_tree {A} (m : M ICS23MerkleTree A) : M (ICS23MerkleTree * cache_db) A :=
  fun s => let '(r, t) := m s.1 in (r, (t, s.2)).
Definition on_db {A} (m : M cache_db A) : M (ICS23MerkleTree * cache_db) A :=
  fun s => let '(r, d) := m s.2 in (r, (s.1, d)).

Definition save (id : string) : M (ICS23MerkleTree * cache_db) string :=
  root ← on_tree getRoot;
  json ← on_tree toJSON;
  on_db (query (fun rows => (tt, map_set rows id (root, pack json)))) ;;
  mret root.

Definition saveAliases (ids : list string) : M (ICS23MerkleTree * cache_db) string :=
  let uniqueIds := set_of_list (filter (fun id => id <> "" /\ trim id <> "") ids) in
  root ← on_tree getRoot;
  roots ← mapM_ save uniqueIds;
  mret (List.last roots root).

End cache.

(** ** Startup *)

Record node_state := MkNode { ns_tree : gstate; ns_db : cache_db }.

Definition on_g {A} (m : M gstate A) : M node_state A :=
  fun s => let '(r, g) := m (ns_tree s) in (r, MkNode g (ns_db s)).
Definition on_cache {A} (m : M cache_db A) : M node_state A :=
  fun s => let '(r, d) := m (ns_db s) in (r, MkNode (ns_tree s) d).
(** A call that reads the canonical tree object and writes the database. *)
Definition on_current_db {A} (m : M (ICS23MerkleTree * cache_db) A) : M node_state A :=
  fun s => let '(r, (t, d)) := m (currentTree (ns_tree s), ns_db s) in
           (r, MkNode (set_tree t (ns_tree s)) d).

Section init.
Context `{SHA : Sha256} `{L : Lucid} `{CV : ChainView} `{TC : TreeCodec}.

(** The root committed on chain, for the cached tree. *)
Definition onChainRoot_for_cache : result string :=
  hostStateUtxo ← findUtxoAtHostStateNFT;
  match hostStateUtxo ≫= datum_of with
  | None => throw "HostState UTXO has no datum - cannot verify cached tree"
  | Some d => hostStateDatum ← decode_host_state d; Ok (ibc_state_root (hs_state hostStateDatum))
  end.

(** Whether startup finished with the cached tree. *)
Definition hydrate_from_cache : M node_state bool :=
  on_cache ensureSchema ;;
  cached ← on_cache (load CURRENT_IBC_TREE_CACHE_ID);
  match cached with
  | None => mret false
  | Some (tree, root) =>
      onChainRoot ← liftR onChainRoot_for_cache;
      if decide (onChainRoot = root) then on_g (setCurrentTree tree) ;; mret true else mret false
  end.

Definition onModuleInit (cacheEnabled : bool) : M node_state unit :=
  on_g initTreeServices ;;
  try_catch (
    hydrated ← (if cacheEnabled then hydrate_from_cache else mret false);
    if hydrated : bool then mret tt else
    '(tree, root) ← on_g rebuildTreeFromChain;
    if cacheEnabled then
      try_catch
        (on_current_db (saveAliases [CURRENT_IBC_TREE_CACHE_ID; ibcTreeCacheIdForRoot root]) ;; mret tt)
        (fun _ => mret tt)
    else mret tt)
  (fun error => raise (JsError ("Tree initialization failed: " +:+ error_message error))).

End init.
