(* ===== verification/TreeServicesTheorems.v ===== *)
(** * Rebuilding the tree: all or nothing, and what the rebuilt tree holds *)

From S2P Require Import Prelude JsMap JsString Hex MerkleTree MerkleSpec MerkleRefine OnChainCommitment ToyHash MerkleTheorems Datum ToyLucid StateRoot StateRootFacts StateRootTheorems TreeRebuild TreeServices.

Section facts.
Context `{SHA : Sha256}.

(** [t'] is [t] after setting keys that satisfy [P]. *)
Definition writes (P : string -> Prop) (t t' : ICS23MerkleTree) : Prop :=
  exists us, Forall (fun x => P x.1) us /\ t' = set_all us t.

Lemma writes_refl P t : writes P t t.
Proof. by exists []. Qed.

Lemma writes_trans P t1 t2 t3 : writes P t1 t2 -> writes P t2 t3 -> writes P t1 t3.
Proof.
  intros (us & Hus & ->) (vs & Hvs & ->). exists (us ++ vs).
  by rewrite Forall_app, set_all_app.
Qed.

Lemma writes_impl (P Q : string -> Prop) t t' : (forall k, P k -> Q k) -> writes P t t' -> writes Q t t'.
Proof. intros HPQ (us & Hus & ->). exists us. split; [|done]. by eapply Forall_impl; [exact Hus | intros x; apply HPQ]. Qed.

Lemma writes_foldR {A} (P : string -> Prop) (f : ICS23MerkleTree -> A -> result ICS23MerkleTree) l t t' :
  (forall t x t', x ∈ l -> f t x = Ok t' -> writes P t t') -> foldR f t l = Ok t' -> writes P t t'.
Proof.
  revert t. induction l as [|x l IH]; intros t Hf H; cbn in H; [injection H as <-; apply writes_refl|].
  inv_bind H. eapply writes_trans; [eapply Hf; [by left | exact E]|].
  apply IH; [|done]. intros; eapply Hf; [by right | done].
Qed.

Lemma writes_wf P t t' : tree_wf t -> writes P t t' -> tree_wf t'.
Proof. intros Hwf (us & _ & ->). by apply tree_wf_set_all. Qed.

Lemma writes_value P t t' k : tree_wf t -> ~ P k -> writes P t t' -> tree_value t' k = tree_value t k.
Proof.
  intros Hwf HP (us & Hus & ->). revert t Hwf.
  induction Hus as [|[k' v] us Hk' _ IH]; intros t Hwf; cbn; [done|].
  rewrite IH by by apply tree_wf_set. rewrite tree_value_set by done. rewrite decide_False; [done|].
  intros ->. by apply HP.
Qed.

(** A tree without an empty key: what the root check needs. *)
Definition tree_sane (t : ICS23MerkleTree) : Prop := tree_wf t /\ "" ∉ map_keys (leaves t).

Lemma tree_sane_new : tree_sane new_tree.
Proof. split; [apply tree_wf_new | by intros ?%elem_of_nil]. Qed.

Lemma writes_sane (P : string -> Prop) t t' : ~ P "" -> tree_sane t -> writes P t t' -> tree_sane t'.
Proof.
  intros HP Hs (us & Hus & ->). revert t Hs.
  induction Hus as [|[k v] us Hk _ IH]; intros t [Hwf Hne]; cbn; [done|]. apply IH.
  split; [by apply tree_wf_set|]. intros [E|E]%tree_set_keys; [|done]. cbn in Hk. by subst.
Qed.

Lemma getRoot_sane t r t' :
  tree_sane t -> getRoot t = (Ok r, t') ->
  leaves t' = leaves t /\ tree_sane t' /\ (getRoot t').1 = Ok r.
Proof.
  intros [Hwf Hne] Hr. assert (index_free (leaves t)) as Hif.
  { unfold getRoot, mbind, M_bind, gets in Hr. destruct (ensureRebuilt t) as [[[]|] t1] eqn:E; [|done].
    by eapply ensureRebuilt_ok. }
  destruct (getRoot_spec t Hwf Hif) as (t1 & Hr1 & Hl & Hwf').
  rewrite Hr in Hr1. injection Hr1 as -> ->. split; [done|].
  split; [split; [done | by rewrite Hl]|].
  destruct (getRoot_spec t1 Hwf' ltac:(by rewrite Hl)) as (t2 & -> & _). cbn [fst]. by rewrite Hl.
Qed.

End facts.

Section rebuild.
Context `{SHA : Sha256} `{L : Lucid} `{CV : ChainView}.

Lemma set_encoded_ok path value t t' :
  set_encoded path value t = Ok t' ->
  exists h, value = Ok h /\ t' = tree_set path (hex_decode_prefix h) t.
Proof. unfold set_encoded. intros H. inv_bind H. injection H as <-. by eexists. Qed.

Lemma set_encoded_writes (P : string -> Prop) path value t t' :
  P path -> set_encoded path value t = Ok t' -> writes P t t'.
Proof.
  intros HP (h & _ & ->)%set_encoded_ok. exists [(path, hex_decode_prefix h)]. by repeat constructor.
Qed.

(** ** Which keys each loop sets *)

Definition other_key (k : string) : Prop := k <> "" /\ path_kind k = 7%nat.

Definition channel_key (c k : string) : Prop :=
  exists p, k = channelEndPath p c \/ k = nextSequenceSendPath p c \/ k = nextSequenceRecvPath p c \/
    k = nextSequenceAckPath p c \/
    exists n, k = commitmentPath p c n \/ k = receiptPath p c n \/ k = ackPath p c n.

Lemma add_port_writes t x t' : add_port t x = Ok t' -> writes other_key t t'.
Proof. intros H. by eapply set_encoded_writes; [|exact H]. Qed.

Lemma add_client_writes t u t' : add_client t u = Ok t' -> writes other_key t t'.
Proof.
  unfold add_client. destruct (datum_of u); [|intros [= <-]; apply writes_refl].
  intros H. inv_bind H. destruct (first_unit u); [|injection H as <-; apply writes_refl].
  case_decide; [injection H as <-; apply writes_refl|]. inv_bind H.
  eapply writes_trans; [by eapply set_encoded_writes; [|exact E1]|].
  eapply writes_foldR; [|exact H]. intros t1 x t2 _ Hx. by eapply set_encoded_writes; [|exact Hx].
Qed.

Lemma add_connection_writes t u t' : add_connection t u = Ok t' -> writes other_key t t'.
Proof.
  unfold add_connection. destruct (datum_of u); [|intros [= <-]; apply writes_refl].
  intros H. inv_bind H. destruct (token_sequence u); [|injection H as <-; apply writes_refl].
  by eapply set_encoded_writes; [|exact H].
Qed.

Lemma add_channel_state_writes p c d t t' : add_channel_state p c d t = Ok t' -> writes (channel_key c) t t'.
Proof.
  assert (forall (path : Z -> string) m t t', (forall n, channel_key c (path n)) ->
    foldR (add_sequence path) t m = Ok t' -> writes (channel_key c) t t') as Hfold.
  { intros path m t1 t2 Hp. apply writes_foldR. intros t3 x t4 _ Hx. by eapply set_encoded_writes; [|exact Hx]. }
  unfold add_channel_state. intros H. inv_bind H.
  eapply writes_trans; [eapply set_encoded_writes; [|exact E]; exists p; tauto|].
  eapply writes_trans; [eapply set_encoded_writes; [|exact E0]; exists p; tauto|].
  eapply writes_trans; [eapply set_encoded_writes; [|exact E1]; exists p; tauto|].
  eapply writes_trans; [eapply set_encoded_writes; [|exact E2]; exists p; tauto|].
  eapply writes_trans; [eapply Hfold, E3; intros n; exists p; naive_solver|].
  eapply writes_trans; [eapply Hfold, E4; intros n; exists p; naive_solver|].
  eapply Hfold, H; intros n; exists p; naive_solver.
Qed.

Lemma add_channel_writes t u t' :
  add_channel t u = Ok t' ->
  writes (fun k => exists q, token_sequence u = Some q /\ channel_key ("channel-" +:+ q) k) t t'.
Proof.
  unfold add_channel. destruct (datum_of u); [|intros [= <-]; apply writes_refl].
  intros H. inv_bind H. destruct (token_sequence u) as [q|]; [|injection H as <-; apply writes_refl].
  apply add_channel_state_writes in H. eapply writes_impl; [|exact H]. by eauto.
Qed.

Lemma channel_key_nonempty c : ~ channel_key c "".
Proof. intros (p & H). destruct H as [H|[H|[H|[H|(n & H)]]]]; [discriminate H..|]. by destruct H as [H|[H|H]]. Qed.

(** ** A tree assembled from sane writes *)

Lemma collect_tree_writes host t : collect_tree host = Ok t -> writes (fun k => k <> "") new_tree t.
Proof.
  unfold collect_tree. intros H. inv_bind H.
  assert (forall k, other_key k -> k <> "") as Ho by (by intros k [? _]).
  eapply writes_trans; [eapply writes_impl; [exact Ho|]; eapply writes_foldR, E; intros; by eapply add_port_writes|].
  eapply writes_trans; [eapply writes_impl; [exact Ho|]; eapply writes_foldR, E1; intros; by eapply add_client_writes|].
  eapply writes_trans; [eapply writes_impl; [exact Ho|]; eapply writes_foldR, E3; intros; by eapply add_connection_writes|].
  eapply writes_foldR, H. intros t1 u t2 _ Hu%add_channel_writes. eapply writes_impl; [|exact Hu].
  cbn. intros k (q & _ & Hk) ->. by eapply channel_key_nonempty.
Qed.

Lemma collect_tree_sane host t : collect_tree host = Ok t -> tree_sane t.
Proof. intros Hw%collect_tree_writes. by eapply writes_sane; [|apply tree_sane_new | exact Hw]; intros []. Qed.

Lemma rebuild_ok s t r s' :
  rebuildTreeFromChain s = (Ok (t, r), s') ->
  exists u d hd t0,
    findUtxoAtHostStateNFT = Ok (Some u) /\ datum_of u = Some d /\ decode_host_state d = Ok hd /\
    collect_tree (hs_state hd) = Ok t0 /\ getRoot t0 = (Ok r, t) /\
    r = ibc_state_root (hs_state hd) /\ s' = set_tree t s.
Proof.
  unfold rebuildTreeFromChain. intros H. inv_bind H. inv_ret E.
  destruct a as [u|]; cbn [mbind option_bind] in H; [|discriminate].
  destruct (datum_of u) as [d|] eqn:Ed; [|discriminate]. inv_bind H. inv_ret E0.
  unfold try_catch in H.
  match type of H with context [match ?m with _ => _ end] => destruct m as [[[t1 r1]|e] s1] eqn:Eb end;
    [|discriminate]. injection H as -> -> ->.
  inv_bind Eb. inv_ret E1. destruct a1 as [r0 t0]. apply on_local_ok in E2 as [Hr ->].
  case_decide as Hroot; [|discriminate]. inv_bind Eb. inv_ret E2.
  apply mret_ok in Eb as [Eb ->]. injection Eb as -> ->.
  exists u, d, a, a0. by split_and!.
Qed.

Lemma rebuild_err s e s' : rebuildTreeFromChain s = (Err e, s') -> s' = s.
Proof.
  unfold rebuildTreeFromChain, mbind, M_bind, liftR, try_catch, on_local, modify.
  repeat (case_match; simplify_eq; try done); unfold raise in *; congruence.
Qed.

(** [rebuildTreeFromChain] is all-or-nothing.  If it throws, for
    whatever reason, the module state is untouched.  If it returns, the root is
    the one committed in the HostState UTxO, the canonical tree is the rebuilt
    one, and from then on [isTreeAligned] accepts that root and computations that
    start from it obtain a tree. *)
Lemma rebuild_all_or_nothing s :
  match rebuildTreeFromChain s with
  | (Ok (t, r), s') =>
      (exists u d hd, findUtxoAtHostStateNFT = Ok (Some u) /\ datum_of u = Some d /\
         decode_host_state d = Ok hd /\ ibc_state_root (hs_state hd) = r) /\
      s' = set_tree t s /\
      (isTreeAligned r s').1 = Ok true /\ is_ok (getClonedTreeFromRoot r s').1 = true
  | (Err _, s') => s' = s
  end.
Proof.
  destruct (rebuildTreeFromChain s) as [[[t r]|e] s'] eqn:E; [|by eapply rebuild_err].
  apply rebuild_ok in E as (u & d & hd & t0 & H1 & H2 & H3 & Hc & Hr & -> & ->).
  destruct (getRoot_sane _ _ _ (collect_tree_sane _ _ Hc) Hr) as (_ & _ & Hagain).
  set (r := ibc_state_root (hs_state hd)) in *. split; [by exists u, d, hd|]. split; [done|].
  assert ((on_current getRoot (set_tree t s)).1 = Ok r) as Hcur.
  { unfold on_current. cbn [currentTree set_tree]. by destruct (getRoot t) as [? ?]. }
  destruct (on_current getRoot (set_tree t s)) as [r1 s1] eqn:Ec. cbn [fst] in Hcur. subst r1. split.
  - unfold isTreeAligned, mbind, M_bind. rewrite Ec. cbn. by rewrite bool_decide_eq_true_2.
  - unfold getClonedTreeFromRoot. case_decide; [done|]. unfold mbind, M_bind. rewrite Ec.
    by rewrite decide_True.
Qed.

(** ** What the rebuilt tree holds about a channel *)

Definition no_slash (s : string) : Prop := x2f ∉ utf8 s.

Lemma no_slash_dec s : bool_decide (x2f ∈ utf8 s) = false -> no_slash s.
Proof. apply bool_decide_eq_false_1. Qed.

Lemma no_slash_app a b : no_slash a -> no_slash b -> no_slash (a +:+ b).
Proof. unfold no_slash. rewrite utf8_app, elem_of_app. tauto. Qed.

Lemma no_slash_digits s : is_digits s = true -> no_slash s.
Proof. intros Hd. by apply digits_no_char. Qed.

Lemma pretty_no_slash (z : Z) : no_slash (pretty z).
Proof.
  destruct z as [|q|q]; [by apply no_slash_dec | apply no_slash_digits, (pretty_N_digits (N.pos q)) |].
  change (pretty (Z.neg q)) with ("-" +:+ pretty (N.pos q)).
  apply no_slash_app; [by apply no_slash_dec | apply no_slash_digits, pretty_N_digits].
Qed.

Lemma channel_suffix_inj (pre : string) p c p' c' : no_slash c -> no_slash c' ->
  pre +:+ channel_suffix p c = pre +:+ channel_suffix p' c' -> c = c'.
Proof.
  intros Hc Hc' E. apply (inj (String.append pre)) in E. apply (f_equal utf8) in E. unfold channel_suffix in E.
  rewrite !utf8_app in E. change (utf8 "/channels/") with (utf8 "/channels" ++ [x2f]) in E.
  rewrite <- !(assoc_L (++)), !(assoc_L (++) (utf8 "/ports/")), !(assoc_L (++) _ (utf8 "/channels")) in E.
  cbn [app] in E. apply last_segment_inj in E as [_ E]; [|done..]. by apply utf8_inj.
Qed.

Lemma sequence_suffix_channel (pre : string) p c n p' c' n' : no_slash c -> no_slash c' ->
  pre +:+ sequence_suffix p c n = pre +:+ sequence_suffix p' c' n' -> c = c'.
Proof.
  intros Hc Hc' E. apply (inj (String.append pre)) in E. apply (f_equal utf8) in E. unfold sequence_suffix in E.
  rewrite !utf8_app in E. change (utf8 "/sequences/") with (utf8 "/sequences" ++ [x2f]) in E.
  rewrite <- !(assoc_L (++)), !(assoc_L (++) _ (utf8 "/sequences")) in E. cbn [app] in E.
  apply last_segment_inj in E as [E _]; [|apply pretty_no_slash..].
  apply app_inj_2 in E as [E _]; [|done]. apply utf8_inj in E.
  by eapply (channel_suffix_inj "").
Qed.

Lemma channel_key_inj c c' k : no_slash c -> no_slash c' -> channel_key c k -> channel_key c' k -> c = c'.
Proof.
  intros Hc Hc' (p & H) (p' & H').
  destruct H as [->|[->|[->|[->|(n & [->|[->| ->]])]]]];
    destruct H' as [E|[E|[E|[E|(n' & [E|[E|E]])]]]];
    first [ discriminate E
          | eapply channel_suffix_inj; [done|done|exact E]
          | eapply sequence_suffix_channel; [done|done|exact E] ].
Qed.

Lemma token_channel_no_slash u q : token_sequence u = Some q -> no_slash ("channel-" +:+ q).
Proof.
  unfold token_sequence. destruct (first_unit u); [|done]. repeat case_decide; try done.
  destruct (is_digits _) eqn:Ed; [|done]. intros [= <-].
  apply no_slash_app; [by apply no_slash_dec | by apply no_slash_digits].
Qed.

(** One packet map written to the tree. *)
Lemma add_sequences_tracks path `{!Inj (=) (=) path} m t t' :
  tree_wf t -> map_wf m -> foldR (add_sequence path) t m = Ok t' ->
  tree_wf t' /\
  (forall k, (forall n, k <> path n) -> tree_value t' k = tree_value t k) /\
  (forall n, match map_get m n with
             | Some b => is_encoding (encodeBytesValue b) (tree_value t' (path n))
             | None => tree_value t' (path n) = tree_value t (path n)
             end).
Proof.
  intros Hwf Hm. revert t Hwf. induction m as [|[n b] m IH]; intros t Hwf H; cbn in H; [by injection H as <-|].
  inv_bind H. apply set_encoded_ok in E as (h & Hh & ->). cbn [fst snd] in Hh.
  apply NoDup_cons in Hm as [Hn Hm].
  destruct (IH Hm _ (tree_wf_set _ _ _ Hwf) H) as (Hwf' & Hother & Hin). split; [done|]. split.
  - intros k Hk. rewrite Hother, tree_value_set, decide_False by (done || by intros ?; eapply Hk). done.
  - intros n'. cbn [map_get]. specialize (Hin n'). case_decide as Hd.
    + subst n'. destruct (map_get m n) eqn:Eg; [exfalso; apply Hn, map_get_is_Some; by eexists|].
      rewrite tree_value_set, decide_True in Hin by done. by exists h.
    + destruct (map_get m n') eqn:Eg; [done|].
      rewrite tree_value_set, decide_False in Hin by (done || by intros ?%(inj path)). done.
Qed.

Lemma add_channel_state_committed p c d t t' :
  tree_wf t -> (forall k, channel_key c k -> tree_value t k = []) ->
  map_wf (packet_commitment d) -> map_wf (packet_receipt d) -> map_wf (packet_acknowledgement d) ->
  add_channel_state p c d t = Ok t' -> channel_committed t' p c d.
Proof.
  intros Hwf Hfresh W1 W2 W3 H. unfold add_channel_state in H. inv_bind H.
  apply set_encoded_ok in E as (h1 & Hh1 & ->). apply set_encoded_ok in E0 as (h2 & Hh2 & ->).
  apply set_encoded_ok in E1 as (h3 & Hh3 & ->). apply set_encoded_ok in E2 as (h4 & Hh4 & ->).
  apply add_sequences_tracks in E3 as (V1 & O1 & I1); [|apply _ | by repeat apply tree_wf_set | done].
  apply add_sequences_tracks in E4 as (V2 & O2 & I2); [|apply _ | done..].
  apply add_sequences_tracks in H as (V3 & O3 & I3); [|apply _ | done..].
  assert (forall k, (forall n, k <> commitmentPath p c n) -> (forall n, k <> receiptPath p c n) ->
    (forall n, k <> ackPath p c n) -> tree_value t' k = tree_value _ k) as Hk
    by (intros k Ha Hb Hc; rewrite O3, O2, O1 by done; reflexivity).
  assert (forall n, channel_key c (commitmentPath p c n)) as K1 by (intros n; exists p; naive_solver).
  assert (forall n, channel_key c (receiptPath p c n)) as K2 by (intros n; exists p; naive_solver).
  assert (forall n, channel_key c (ackPath p c n)) as K3 by (intros n; exists p; naive_solver).
  split.
  - rewrite Hk by done. exists h1. split; [done|].
    rewrite !tree_value_set by (by repeat apply tree_wf_set). repeat rewrite decide_False by done. by rewrite decide_True by done.
  - rewrite Hk by done. exists h2. split; [done|].
    rewrite !tree_value_set by (by repeat apply tree_wf_set). repeat rewrite decide_False by done. by rewrite decide_True by done.
  - rewrite Hk by done. exists h3. split; [done|].
    rewrite !tree_value_set by (by repeat apply tree_wf_set). repeat rewrite decide_False by done. by rewrite decide_True by done.
  - rewrite Hk by done. exists h4. split; [done|].
    rewrite !tree_value_set by (by repeat apply tree_wf_set). by rewrite decide_True by done.
  - intros n. rewrite O3, O2 by done. specialize (I1 n). destruct (map_get _ n); [done|].
    rewrite I1. rewrite !tree_value_set by (by repeat apply tree_wf_set). repeat rewrite decide_False by done. by apply Hfresh.
  - intros n. rewrite O3 by done. specialize (I2 n). destruct (map_get _ n); [done|].
    rewrite I2, O1 by done. rewrite !tree_value_set by (by repeat apply tree_wf_set). repeat rewrite decide_False by done. by apply Hfresh.
  - intros n. specialize (I3 n). destruct (map_get _ n); [done|].
    rewrite I3, O2, O1 by done. rewrite !tree_value_set by (by repeat apply tree_wf_set). repeat rewrite decide_False by done. by apply Hfresh.
Qed.

Lemma channel_committed_frame t t' p c d :
  (forall k, channel_key c k -> tree_value t' k = tree_value t k) ->
  channel_committed t p c d -> channel_committed t' p c d.
Proof.
  intros Hv [C1 C2 C3 C4 C5 C6 C7].
  assert (forall n, channel_key c (commitmentPath p c n)) as K1 by (intros n; exists p; naive_solver).
  assert (forall n, channel_key c (receiptPath p c n)) as K2 by (intros n; exists p; naive_solver).
  assert (forall n, channel_key c (ackPath p c n)) as K3 by (intros n; exists p; naive_solver).
  split; try (rewrite Hv; [done | exists p; tauto]); intros n; rewrite Hv by done;
    [apply C5 | apply C6 | apply C7].
Qed.

(** Channel UTxOs with other sequences leave a channel's keys alone. *)
Lemma add_channels_foreign q us t t' k :
  tree_wf t -> q ∉ omap token_sequence us -> no_slash ("channel-" +:+ q) ->
  foldR add_channel t us = Ok t' -> channel_key ("channel-" +:+ q) k ->
  tree_value t' k = tree_value t k /\ tree_wf t'.
Proof.
  intros Hwf Hq Hns H Hk.
  assert (writes (fun k => exists u q', u ∈ us /\ token_sequence u = Some q' /\ channel_key ("channel-" +:+ q') k) t t')
    as Hw.
  { eapply writes_foldR; [|exact H]. intros t1 u t2 Hu Ha%add_channel_writes.
    eapply writes_impl; [|exact Ha]. cbn. intros k' (q' & Hq' & Hk'). by exists u, q'. }
  split; [|by eapply writes_wf]. eapply writes_value; [done| |exact Hw].
  intros (u & q' & Hu & Hq' & Hk'). apply Hq. apply list_elem_of_omap. exists u. split; [done|].
  rewrite Hq'. f_equal. apply (inj (String.append "channel-")).
  by eapply channel_key_inj; [by eapply token_channel_no_slash | done | exact Hk' | exact Hk].
Qed.

Lemma other_key_channel c k : channel_key c k -> ~ other_key k.
Proof.
  intros (p & H) [_ Hk].
  destruct H as [->|[->|[->|[->|(n & [->|[->| ->]])]]]]; discriminate Hk.
Qed.

(** C36 (functional): a successful rebuild restores every channel: for each channel
    UTxO with an authentication token, the rebuilt tree holds exactly that
    channel's datum (end, counters, commitments, receipts, acknowledgements),
    provided that no other channel UTxO carries the same sequence. *)
Theorem rebuild_restores_channels us u dt d q s t r s' :
  queryAllChannelUtxos = Ok us -> NoDup (omap token_sequence us) -> u ∈ us ->
  datum_of u = Some dt -> decode_channel dt = Ok d -> token_sequence u = Some q ->
  map_wf (packet_commitment (cd_state d)) -> map_wf (packet_receipt (cd_state d)) ->
  map_wf (packet_acknowledgement (cd_state d)) ->
  rebuildTreeFromChain s = (Ok (t, r), s') ->
  channel_committed (currentTree s') (channel_port d) ("channel-" +:+ q) (cd_state d).
Proof.
  intros Hus Hnd Hu Hdt Hd Hq W1 W2 W3 H.
  apply rebuild_ok in H as (hu & hd & hs & t0 & _ & _ & _ & Hc & Hr & _ & ->). cbn [currentTree set_tree].
  destruct (getRoot_sane _ _ _ (collect_tree_sane _ _ Hc) Hr) as (Hl & _ & _).
  apply (channel_committed_leaves t0); [done|]. clear Hr Hl.
  unfold collect_tree in Hc. inv_bind Hc. rewrite Hus in E4. injection E4 as <-.
  assert (writes other_key new_tree a3) as Hw.
  { eapply writes_trans; [eapply writes_foldR, E; intros; by eapply add_port_writes|].
    eapply writes_trans; [eapply writes_foldR, E1; intros; by eapply add_client_writes|].
    eapply writes_foldR, E3; intros; by eapply add_connection_writes. }
  apply list_elem_of_split in Hu as (us1 & us2 & ->). rewrite foldR_app in Hc. inv_bind Hc. cbn in Hc. inv_bind Hc.
  rewrite omap_app in Hnd. cbn in Hnd. rewrite Hq in Hnd.
  apply NoDup_app in Hnd as (_ & H1 & [H2 _]%NoDup_cons).
  assert (q ∉ omap token_sequence us1) as H1' by (intros Hin; eapply H1; [exact Hin | by left]).
  pose proof (token_channel_no_slash _ _ Hq) as Hns.
  assert (tree_wf a3) as Hwf3 by (eapply writes_wf, Hw; apply tree_wf_new).
  assert (forall k, channel_key ("channel-" +:+ q) k -> tree_value a4 k = []) as Hfresh.
  { intros k Hk. destruct (add_channels_foreign _ _ _ _ _ Hwf3 H1' Hns E4 Hk) as [-> _].
    by rewrite (writes_value _ _ _ _ tree_wf_new (other_key_channel _ _ Hk) Hw). }
  assert (tree_wf a4) as Hwf4.
  { destruct (add_channels_foreign _ _ _ _ (channelEndPath "" ("channel-" +:+ q)) Hwf3 H1' Hns E4) as [_ ?]; [|done].
    exists "". by left. }
  unfold add_channel in E5. rewrite Hdt in E5. inv_bind E5. rewrite Hd in E6. injection E6 as <-. rewrite Hq in E5.
  pose proof (writes_wf _ _ _ Hwf4 (add_channel_state_writes _ _ _ _ _ E5)) as Hwf5.
  eapply channel_committed_frame; [|by eapply add_channel_state_committed; [exact Hwf4 | exact Hfresh | | | | exact E5]].
  intros k Hk. by eapply (add_channels_foreign q us2 a5 t0 k Hwf5 H2 Hns Hc Hk).
Qed.

End rebuild.

(** ** Tree services: no update is handed out twice, the cache round-trips,
    startup ends aligned with the chain *)

(** ** Pending updates *)

Inductive pending_op :=
| OpRegister (txHash : string) (u : PendingTreeUpdate)
| OpTake (txHash : string)
| OpTakeByRoot (root : string).

(** The update a call hands out, and the state it leaves. *)
Definition run_pending (op : pending_op) (p : pending) : list PendingTreeUpdate * pending :=
  match op with
  | OpRegister tx u => ([], (register tx u p).2)
  | OpTake tx => match take_update tx p with (Ok (Some u), p') => ([u], p') | (_, p') => ([], p') end
  | OpTakeByRoot r => match takeByExpectedRoot r p with (Ok (Some u), p') => ([u], p') | (_, p') => ([], p') end
  end.

Fixpoint run_pendings (ops : list pending_op) (p : pending) : list PendingTreeUpdate * pending :=
  match ops with
  | [] => ([], p)
  | op :: ops' => let '(out, p1) := run_pending op p in
                  let '(outs, p2) := run_pendings ops' p1 in (out ++ outs, p2)
  end.

Definition registered (ops : list pending_op) : list PendingTreeUpdate :=
  omap (fun op => match op with OpRegister _ u => Some u | _ => None end) ops.

Lemma values_set (p : pending) k u : (map_set p k u).*2 ⊆+ u :: p.*2.
Proof.
  induction p as [|[k' v] p IH]; cbn; [done|]. case_decide; cbn.
  - apply submseteq_skip, submseteq_cons. done.
  - rewrite Permutation_swap. by apply submseteq_skip.
Qed.

Lemma values_delete (p : pending) k u : map_get p k = Some u -> u :: (map_delete p k).*2 ≡ₚ p.*2.
Proof.
  induction p as [|[k' v] p IH]; cbn; [done|]. case_decide as Hk; cbn.
  - by intros [= ->].
  - intros H. rewrite Permutation_swap. by rewrite (IH H).
Qed.

Lemma find_root_spec root (p : pending) :
  match find_root root p with
  | Some (k, u) => expectedNewRoot u = root /\ (map_wf p -> map_get p k = Some u)
  | None => Forall (fun ku => expectedNewRoot ku.2 <> root) p
  end.
Proof.
  induction p as [|[k u] p IH]; cbn; [done|]. case_decide as Hr; cbn.
  - split; [done|]. intros _. by rewrite decide_True.
  - destruct (find_root root p) as [[k' u']|] eqn:E; [|by constructor].
    destruct IH as [Hroot Hget]. split; [done|]. intros [Hk Hwf]%NoDup_cons.
    rewrite decide_False; [by apply Hget|]. intros ->. apply Hk, map_get_is_Some. eexists. by apply Hget.
Qed.

Lemma run_pending_step op (p : pending) : map_wf p ->
  let '(out, p') := run_pending op p in
  map_wf p' /\ out ++ p'.*2 ⊆+ registered [op] ++ p.*2.
Proof.
  intros Hwf. destruct op as [tx u|tx|r]; cbn.
  - unfold register. case_decide; cbn; [split; [done | by apply submseteq_cons]|].
    split; [by apply map_wf_set | apply values_set].
  - unfold take_update. case_decide; cbn; [done|]. unfold mbind, M_bind. cbn.
    destruct (map_get p (toLowerCase tx)) as [u|] eqn:Eg; cbn; [|done].
    split; [by apply map_wf_delete|]. by rewrite (values_delete _ _ _ Eg).
  - unfold takeByExpectedRoot. case_decide; cbn; [done|]. unfold mbind, M_bind. cbn.
    pose proof (find_root_spec r p) as Hf.
    destruct (find_root r p) as [[k u]|]; cbn; [|done]. destruct Hf as [_ Hg].
    split; [by apply map_wf_delete|]. by rewrite (values_delete _ _ _ (Hg Hwf)).
Qed.

(** No pending tree update is committed twice.  Over any sequence of
    [register], [take] and [takeByExpectedRoot] calls, the updates handed out
    together with those still pending are, counted with multiplicity, among the
    ones registered (or pending at the start). *)
Lemma pending_updates_handed_out_once ops (p : pending) :
  map_wf p ->
  let '(out, p') := run_pendings ops p in
  map_wf p' /\ out ++ p'.*2 ⊆+ registered ops ++ p.*2.
Proof.
  revert p. induction ops as [|op ops IH]; intros p Hwf; cbn; [done|].
  pose proof (run_pending_step op p Hwf) as Hs. destruct (run_pending op p) as [out p1].
  destruct Hs as [Hwf1 Hs]. specialize (IH p1 Hwf1). destruct (run_pendings ops p1) as [outs p2].
  destruct IH as [Hwf2 IH]. split; [done|].
  rewrite <- (assoc_L (++)). etrans; [apply submseteq_app; [reflexivity | exact IH]|].
  rewrite (assoc (++)), (comm (++) out), <- (assoc (++)).
  etrans; [apply submseteq_app; [reflexivity | exact Hs]|].
  rewrite (assoc (++)). apply submseteq_app; [|done].
  destruct op; cbn [registered omap list_omap]; rewrite ?app_nil_r; try done. by rewrite (comm (++)).
Qed.

(** [take] finds a registered update under its hash in any letter
    case and [takeByExpectedRoot] finds one by its root, whenever there is one;
    both remove exactly the entry they return. *)
Lemma pending_lookup (p : pending) tx tx' root u :
  map_wf p -> tx <> "" -> tx' <> "" -> toLowerCase tx = toLowerCase tx' ->
  take_update tx' (register tx u p).2
    = (Ok (Some u), map_delete (map_set p (toLowerCase tx) u) (toLowerCase tx)) /\
  (root <> "" -> (exists k v, map_get p k = Some v /\ expectedNewRoot v = root) ->
   exists k v, takeByExpectedRoot root p = (Ok (Some v), map_delete p k) /\
     map_get p k = Some v /\ expectedNewRoot v = root).
Proof.
  intros Hwf Htx Htx' Hlow. split.
  - unfold register, take_update. rewrite !decide_False by done. cbn. unfold mbind, M_bind. cbn.
    by rewrite <- Hlow, map_get_set_eq.
  - intros Hr (k & v & Hg & Hv). unfold takeByExpectedRoot. rewrite decide_False by done.
    unfold mbind, M_bind. cbn. pose proof (find_root_spec root p) as Hf.
    destruct (find_root root p) as [[k' u']|] eqn:E; cbn.
    + destruct Hf as [Hroot Hget]. exists k', u'. split_and!; [done | by apply Hget | done].
    + rewrite Forall_forall in Hf. apply map_get_In in Hg. by destruct (Hf _ Hg).
Qed.

Lemma pending_lookup_witness :
  take_update "ab" (register "AB" (MkPending "r1" new_tree) [("cd", MkPending "r2" new_tree)]).2
    = (Ok (Some (MkPending "r1" new_tree)),
       map_delete (map_set [("cd", MkPending "r2" new_tree)] (toLowerCase "AB") (MkPending "r1" new_tree))
         (toLowerCase "AB")) /\
  exists k v, takeByExpectedRoot "r2" [("cd", MkPending "r2" new_tree)]
      = (Ok (Some v), map_delete [("cd", MkPending "r2" new_tree)] k) /\
    map_get [("cd", MkPending "r2" new_tree)] k = Some v /\ expectedNewRoot v = "r2".
Proof.
  split.
  - apply (pending_lookup [("cd", MkPending "r2" new_tree)] "AB" "ab" "r2" (MkPending "r1" new_tree));
      [apply (bool_decide_eq_true_1 _); vm_compute; reflexivity | done | done | vm_compute; reflexivity].
  - apply (pending_lookup [("cd", MkPending "r2" new_tree)] "AB" "ab" "r2" (MkPending "r1" new_tree));
      [apply (bool_decide_eq_true_1 _); vm_compute; reflexivity | done | done | vm_compute; reflexivity | done |].
    exists "cd", (MkPending "r2" new_tree). split; vm_compute; reflexivity.
Defined.

(** ** The persisted tree *)

Section cache.
Context `{SHA : Sha256} `{TC : TreeCodec}.

Lemma ensureRebuilt_again t t' : ensureRebuilt t = (Ok tt, t') -> ensureRebuilt t' = (Ok tt, t').
Proof.
  unfold ensureRebuilt at 1. destruct (_ && _) eqn:Ec.
  - intros [= <-]. unfold ensureRebuilt. by rewrite Ec.
  - unfold rebuild. destruct (rebuild_leaves (leaves t)) as [m0|e]; cbn [mbind result_bind]; [|done].
    intros H. apply (f_equal snd) in H. cbn [snd] in H. subst t'.
    unfold ensureRebuilt. cbn [dirty nodesByHeight negb andb].
    rewrite bool_decide_eq_true_2; [reflexivity | by eexists].
Qed.

Lemma getRoot_again t r t' : getRoot t = (Ok r, t') -> getRoot t' = (Ok r, t').
Proof.
  unfold getRoot, mbind, M_bind, gets. destruct (ensureRebuilt t) as [[[]|e] t1] eqn:E; [|done].
  intros H. injection H as <- <-. by rewrite (ensureRebuilt_again _ _ E).
Qed.

Lemma fromJSON_leaves_go l t0 :
  NoDup (map_keys (leaves t0 ++ l)) -> Forall (fun kv => kv.2 <> []) l ->
  leaves (fold_left (fun t kv => tree_set kv.1 (hex_decode_prefix kv.2) t)
            (map (fun kv => (kv.1, hex_encode kv.2)) l) t0) = leaves t0 ++ l.
Proof.
  intros Hnd Hv. revert t0 Hnd. induction Hv as [|[k v] l Hv _ IH]; intros t0 Hnd;
    cbn [map fold_left fst snd]; [by rewrite app_nil_r|].
  rewrite hex_decode_encode. assert (leaves (tree_set k v t0) = leaves t0 ++ [(k, v)]) as Hl.
  { unfold tree_set. rewrite decide_False by done. cbn. apply map_set_fresh. intros Hin.
    unfold map_keys in Hnd. rewrite fmap_app in Hnd. apply NoDup_app in Hnd as (_ & Hd & _).
    by eapply Hd; [exact Hin | left]. }
  rewrite IH; rewrite Hl; rewrite <- (assoc_L (++)); done.
Qed.

Lemma toJSON_leaves_go l (m : jsmap string string) :
  NoDup (map_keys m ++ map_keys l) ->
  fold_left (fun m kv => map_set m kv.1 (hex_encode kv.2)) l m = m ++ map (fun kv => (kv.1, hex_encode kv.2)) l.
Proof.
  revert m. induction l as [|[k v] l IH]; intros m Hnd; cbn in *; [by rewrite app_nil_r|].
  rewrite map_set_fresh.
  - rewrite IH; [by rewrite <- (assoc_L (++))|]. unfold map_keys. rewrite fmap_app, <- (assoc_L (++)). done.
  - apply NoDup_app in Hnd as (_ & Hd & _). intros Hin. by eapply Hd; [exact Hin | left].
Qed.

(** What [load] returns has the root stored with it, whatever the row holds. *)
Lemma load_sound id db t r db' :
  load id db = (Ok (Some (t, r)), db') -> db' = db /\ getRoot t = (Ok r, t).
Proof.
  unfold load, query, mbind, M_bind. destruct db as [[|] rows]; cbn; [|done].
  destruct (map_get rows id) as [[root gz]|]; cbn; [|done]. unfold decode_row. cbn [fst snd].
  destruct (unpack gz) as [j|]; [|done]. destruct (getRoot (fromJSON j)) as [[r0|] t0] eqn:E; [|done].
  case_decide as Hd; [|done]. intros H. injection H as -> -> <-. split; [done|]. by eapply getRoot_again.
Qed.

(** With the database available, [save] followed by [load] under
    the same identifier returns a tree with the same contents and the same root,
    and [load] never returns a tree whose root is not the stored one. *)
Lemma cache_roundtrip `{OKC : !TreeCodecOk} id t db :
  tree_wf t -> index_free (leaves t) -> db_available db = true ->
  exists r t1 db' t2,
    save id (t, db) = (Ok r, (t1, db')) /\ leaves t1 = leaves t /\
    load id db' = (Ok (Some (t2, r)), db') /\ leaves t2 = leaves t /\ getRoot t2 = (Ok r, t2).
Proof.
  intros Hwf Hif Hup. destruct (getRoot_spec t Hwf Hif) as (t1 & Hr & Hl & Hwf1).
  remember (hex_encode (spec_root (leaves t))) as r eqn:Hreq.
  pose proof (getRoot_again _ _ _ Hr) as Hr1.
  set (j := MkTreeJSON (map (fun kv => (kv.1, hex_encode kv.2)) (leaves t)) (Some r)).
  assert (toJSON t1 = (Ok j, t1)) as Hj.
  { unfold toJSON, mbind, M_bind, gets. rewrite Hr1. cbn. unfold j.
    rewrite toJSON_leaves_go by apply Hwf1. by rewrite Hl. }
  assert (leaves (fromJSON j) = leaves t) as Hfj.
  { unfold fromJSON, j. cbn [json_leaves]. rewrite fromJSON_leaves_go; [done | apply Hwf |].
    apply Forall_forall. intros [k v] Hin. eapply wf_value; [apply Hwf|]. apply map_In_get; [apply Hwf | exact Hin]. }
  assert (tree_wf (fromJSON j)) as Hwfj.
  { unfold fromJSON. generalize (json_leaves j). intros l.
    assert (forall x, tree_wf x -> tree_wf (fold_left (fun t kv => tree_set kv.1 (hex_decode_prefix kv.2) t) l x)) as W.
    { induction l as [|kv l IH]; intros x Hx; cbn; [done|]. by apply IH, tree_wf_set. }
    apply W, tree_wf_new. }
  destruct (getRoot_spec (fromJSON j) Hwfj ltac:(by rewrite Hfj)) as (t2 & Hr2 & Hl2 & _).
  rewrite Hfj, <- Hreq in Hr2.
  exists r, t1, (MkDb true (map_set (cache_rows db) id (r, pack j))), t2. split_and!.
  - unfold save, mbind, M_bind, on_tree, on_db, query. cbn [fst snd]. rewrite Hr. cbn [fst snd].
    rewrite Hj. cbn [fst snd]. by rewrite Hup.
  - done.
  - unfold load, query, mbind, M_bind. cbn. rewrite map_get_set_eq. cbn. unfold decode_row. cbn [fst snd].
    rewrite unpack_pack, Hr2. by rewrite decide_True.
  - by rewrite Hl2.
  - by eapply getRoot_again.
Qed.

End cache.

(** ** Startup *)

Section init.
Context `{SHA : Sha256} `{L : Lucid} `{CV : ChainView} `{TC : TreeCodec}.

(** [r] is the root committed in the HostState UTxO. *)
Definition committed_root (r : string) : Prop :=
  exists u d hd, findUtxoAtHostStateNFT = Ok (Some u) /\ datum_of u = Some d /\
    decode_host_state d = Ok hd /\ ibc_state_root (hs_state hd) = r.

(** Saving a tree whose cache is fresh leaves the object as it was. *)
Lemma save_tree id r t db : getRoot t = (Ok r, t) -> (save id (t, db)).2.1 = t.
Proof.
  intros Hr. unfold save, mbind, M_bind, on_tree. cbn [fst snd]. rewrite Hr. cbn [fst snd].
  unfold toJSON, mbind, M_bind, gets. rewrite Hr. cbn [fst snd mret M_ret].
  unfold on_db, query. cbn [fst snd]. by destruct (db_available db).
Qed.

Lemma save_all_tree ids r t db : getRoot t = (Ok r, t) -> (mapM_ save ids (t, db)).2.1 = t.
Proof.
  intros Hr. revert db. induction ids as [|id ids IH]; intros db; cbn [mapM_]; [done|].
  unfold mbind, M_bind. pose proof (save_tree id r t db Hr) as Hs.
  destruct (save id (t, db)) as [[x|e] [t1 db1]]; cbn [fst snd] in Hs; subst t1; [|done].
  specialize (IH db1). by destruct (mapM_ save ids (t, db1)) as [[xs|e] [t2 db2]].
Qed.

Lemma saveAliases_tree ids r t db : getRoot t = (Ok r, t) -> (saveAliases ids (t, db)).2.1 = t.
Proof.
  intros Hr. unfold saveAliases, mbind, M_bind, on_tree. cbn [fst snd]. rewrite Hr.
  pose proof (save_all_tree (set_of_list (filter (fun id => id <> "" /\ trim id <> "") ids)) r t db Hr) as Hs.
  by destruct (mapM_ save _ (t, db)) as [[xs|e] [t2 db2]].
Qed.

Lemma aligned_now r g : getRoot (currentTree g) = (Ok r, currentTree g) -> (isTreeAligned r g).1 = Ok true.
Proof.
  intros Hr. unfold isTreeAligned, mbind, M_bind, on_current. rewrite Hr. cbn.
  by rewrite bool_decide_eq_true_2.
Qed.

Lemma onChainRoot_committed r : onChainRoot_for_cache = Ok r -> committed_root r.
Proof.
  unfold onChainRoot_for_cache. intros H. inv_bind H. destruct a as [u|]; [|done]. cbn in H.
  destruct (datum_of u) as [d|] eqn:Ed; [|done]. inv_bind H. injection H as <-. by exists u, d, a.
Qed.

Lemma on_cache_tree {A} (m : M cache_db A) s : ns_tree (on_cache m s).2 = ns_tree s.
Proof. unfold on_cache. by destruct (m (ns_db s)). Qed.

Lemma hydrate_spec s :
  match hydrate_from_cache s with
  | (Ok true, s') => servicesReady (ns_tree s') = servicesReady (ns_tree s) /\
      exists r, committed_root r /\ getRoot (currentTree (ns_tree s')) = (Ok r, currentTree (ns_tree s'))
  | (_, s') => ns_tree s' = ns_tree s
  end.
Proof.
  unfold hydrate_from_cache, mbind, M_bind.
  pose proof (on_cache_tree ensureSchema s) as H1. destruct (on_cache ensureSchema s) as [[[]|e] s1]; [|done].
  cbn [snd] in H1. pose proof (on_cache_tree (load CURRENT_IBC_TREE_CACHE_ID) s1) as H2.
  destruct (on_cache (load CURRENT_IBC_TREE_CACHE_ID) s1) as [[[[t r]|]|e] s2] eqn:El; cbn [snd] in H2;
    [|cbn; congruence..].
  assert (getRoot t = (Ok r, t)) as Hr.
  { unfold on_cache in El. destruct (load CURRENT_IBC_TREE_CACHE_ID (ns_db s1)) as [[x|e] d] eqn:E; [|done].
    injection El as -> _. by apply load_sound in E as [_ ?]. }
  unfold liftR. destruct onChainRoot_for_cache as [r'|e] eqn:Ec; [|cbn; congruence].
  case_decide as Hd; [|cbn; congruence]. subst r'. cbn. split; [by rewrite H2, H1|].
  exists r. split; [by apply onChainRoot_committed | done].
Qed.

Lemma rebuildTree_outcome g :
  match rebuildTreeFromChain g with
  | (Ok (t, r), g') => committed_root r /\ g' = set_tree t g /\ getRoot t = (Ok r, t)
  | (Err _, g') => g' = g
  end.
Proof.
  destruct (rebuildTreeFromChain g) as [[[t r]|e] g'] eqn:E; [|by eapply rebuild_err].
  apply rebuild_ok in E as (u & d & hd & t0 & H1 & H2 & H3 & _ & Hr & -> & ->).
  split_and!; [by exists u, d, hd | done | by eapply getRoot_again].
Qed.

(** Startup.  If [onModuleInit] returns, with or without the
    persisted cache and whatever the cache holds, the tree services are ready and
    the canonical tree's root is the root committed on chain.  If it throws, the
    error is the initialisation error and the canonical tree is the one from
    before. *)
Lemma onModuleInit_aligned cacheEnabled s :
  match onModuleInit cacheEnabled s with
  | (Ok _, s') => servicesReady (ns_tree s') = true /\
      exists r, committed_root r /\ (isTreeAligned r (ns_tree s')).1 = Ok true
  | (Err e, s') => currentTree (ns_tree s') = currentTree (ns_tree s) /\
      exists m, e = JsError ("Tree initialization failed: " +:+ m)
  end.
Proof.
  unfold onModuleInit, mbind, M_bind. cbn [on_g initTreeServices modify ns_tree ns_db].
  set (s0 := MkNode _ _). unfold try_catch at 1.
  pose proof (hydrate_spec s0) as Hh.
  destruct ((if cacheEnabled then hydrate_from_cache else mret false) s0) as [[hyd|e] s1] eqn:Eh.
  - destruct hyd.
    + destruct cacheEnabled; [|done]. rewrite Eh in Hh. destruct Hh as (Hready & r & Hc & Hr). cbn.
      split; [by rewrite Hready|]. exists r. split; [done | by apply aligned_now].
    + assert (ns_tree s1 = ns_tree s0) as Hs1.
      { destruct cacheEnabled; [by rewrite Eh in Hh | by injection Eh as <-]. }
      unfold on_g at 1. rewrite Hs1. pose proof (rebuildTree_outcome (ns_tree s0)) as Hrb.
      destruct (rebuildTreeFromChain (ns_tree s0)) as [[[t r]|e] g']; [|subst g'; cbn; by eauto].
      destruct Hrb as (Hc & -> & Hr). destruct cacheEnabled.
      * unfold try_catch, on_current_db. cbn [ns_tree ns_db currentTree set_tree].
        pose proof (saveAliases_tree [CURRENT_IBC_TREE_CACHE_ID; ibcTreeCacheIdForRoot r] r t (ns_db s1) Hr) as Hsv.
        destruct (saveAliases _ (t, ns_db s1)) as [[x|e] [t2 db2]]; cbn [snd fst] in Hsv; subst t2; cbn;
          (split; [done|]; exists r; split; [done | by apply aligned_now]).
      * cbn. split; [done|]. exists r. split; [done | by apply aligned_now].
  - assert (ns_tree s1 = ns_tree s0) as Hs1.
    { destruct cacheEnabled; [by rewrite Eh in Hh | done]. }
    cbn. rewrite Hs1. by eauto.
Qed.

End init.

(** ** Rebuild and cache: evaluated instances *)

(** ** A payload codec: unary lengths, a flag byte before each entry *)

Definition toy_str (s : string) : bytes := replicate (length (utf8 s)) x01 ++ x00 :: utf8 s.

Fixpoint toy_unary (l : bytes) : nat * bytes :=
  match l with x01 :: l' => let '(n, r) := toy_unary l' in (S n, r) | _ :: l' => (0%nat, l') | [] => (0%nat, []) end.
Definition toy_read (l : bytes) : string * bytes :=
  let '(n, r) := toy_unary l in (text (take n r), drop n r).

Definition toy_pack (j : TreeJSON) : bytes :=
  match json_root j with Some r => x01 :: toy_str r | None => [x00] end ++
  (json_leaves j ≫= fun kv => x01 :: toy_str kv.1 ++ toy_str kv.2).

Fixpoint toy_entries (fuel : nat) (l : bytes) : list (string * string) :=
  match fuel, l with
  | S fuel', _ :: l' => let '(k, l1) := toy_read l' in let '(v, l2) := toy_read l1 in (k, v) :: toy_entries fuel' l2
  | _, _ => []
  end.

Definition toy_unpack (b : bytes) : result TreeJSON :=
  match b with
  | x01 :: l => let '(r, l') := toy_read l in Ok (MkTreeJSON (toy_entries (length l') l') (Some r))
  | _ :: l => Ok (MkTreeJSON (toy_entries (length l) l) None)
  | [] => throw "unexpected end of file"
  end.

#[export] Instance toy_codec : TreeCodec | 10 := { pack := toy_pack; unpack := toy_unpack }.

Lemma toy_read_str s l : toy_read (toy_str s ++ l) = (s, l).
Proof.
  unfold toy_str, toy_read. assert (forall n r, toy_unary (replicate n x01 ++ x00 :: r) = (n, r)) as H.
  { intros n r. induction n as [|n IH]; [done|]. cbn. by rewrite IH. }
  rewrite <- (assoc_L (++)). cbn [app]. rewrite H, take_app_length, drop_app_length. by rewrite text_utf8.
Qed.

Lemma toy_entries_ok es fuel :
  (length (es ≫= fun kv => x01 :: toy_str kv.1 ++ toy_str kv.2) <= fuel)%nat ->
  toy_entries fuel (es ≫= fun kv => x01 :: toy_str kv.1 ++ toy_str kv.2) = es.
Proof.
  revert fuel. induction es as [|[k v] es IH]; intros fuel Hf; [by destruct fuel|].
  cbn [mbind list_bind fst snd] in *. destruct fuel as [|fuel]; [cbn in Hf; lia|].
  cbn [app toy_entries]. rewrite <- (assoc_L (++) (toy_str k)).
  rewrite toy_read_str. cbv beta iota. rewrite toy_read_str. f_equal. apply IH.
  cbn [app length] in Hf. rewrite length_app in Hf. lia.
Qed.

#[export] Instance toy_codec_ok : TreeCodecOk (TC := toy_codec).
Proof.
  constructor. intros [es o]. change (toy_unpack (toy_pack (MkTreeJSON es o)) = Ok (MkTreeJSON es o)).
  unfold toy_unpack, toy_pack. cbn [json_root json_leaves].
  destruct o as [r|]; cbn [app]; [rewrite toy_read_str|]; by rewrite toy_entries_ok by done.
Qed.

(** ** A chain with one channel *)

Definition toy_unit : string :=
  text (replicate 104 x61) +:+ hex_encode (utf8 "0").
Definition toy_channel_utxo : UTxO := MkUTxO "aa" 0 [("lovelace", 2000000%Z); (toy_unit, 1%Z)] (Some "d0").

Definition toy_view (root : string) : ChainView := {|
  findUtxoAtHostStateNFT := Ok (Some (MkUTxO "bb" 0 [] (Some "d1")));
  queryAllClientUtxos := Ok [];
  queryAllConnectionUtxos := Ok [];
  queryAllChannelUtxos := Ok [toy_channel_utxo];
  decode_host_state _ :=
    Ok (MkHostStateDatum (MkHostState 1 root 0 0 1 [] 0) "" "" Active);
  decode_client _ := throw "no client";
  decode_connection _ := throw "no connection";
  decode_channel _ := Ok toy_input;
|}.

Definition toy_view_root : string :=
  Eval vm_compute in
    match collect_tree (CV := toy_view "") (MkHostState 1 "" 0 0 1 [] 0) with
    | Ok t => match (getRoot t).1 with Ok r => r | Err _ => "" end
    | Err _ => ""
    end.

Lemma rebuild_restores_channels_witness :
  exists t r s',
    rebuildTreeFromChain (CV := toy_view toy_view_root) toy_state = (Ok (t, r), s') /\
    channel_committed (currentTree s') (channel_port toy_input) ("channel-" +:+ "0") (cd_state toy_input).
Proof.
  destruct (ok_exists (rebuildTreeFromChain (CV := toy_view toy_view_root)) toy_state)
    as ([t r] & s' & E); [vm_compute; reflexivity|].
  exists t, r, s'. split; [exact E|].
  apply (rebuild_restores_channels (CV := toy_view toy_view_root)
    [toy_channel_utxo] toy_channel_utxo "d0" toy_input "0" toy_state t r s').
  - reflexivity.
  - apply (bool_decide_eq_true_1 _). vm_compute. reflexivity.
  - by left.
  - reflexivity.
  - reflexivity.
  - vm_compute. reflexivity.
  - apply (bool_decide_eq_true_1 _). vm_compute. reflexivity.
  - apply map_wf_nil.
  - apply map_wf_nil.
  - exact E.
Defined.
