(* ===== verification/EscrowShard.v ===== *)
(** * Transfer escrow shards

    [shared/helpers/transfer-escrow-shard.ts] (token names and registry keys) and
    [findTransferEscrowShard] of [tx/packet.service.ts], which scans the transfer
    module's address, checks every shard holder against the registry commitment
    and returns either the existing shard or the witness for registering it. *)

From S2P Require Import Prelude JsMap JsString Hex MerkleTree Datum StateRoot TreeRebuild.

(** BLAKE2b with a 28-byte digest, from [@noble/hashes]. *)
Class Blake2b := blake2b224 : bytes -> bytes.
Class Blake2bOk {BL : Blake2b} : Prop := { blake2b224_length b : length (blake2b224 b) = 28%nat }.

Definition is_hex_byte (b : byte) : bool := bool_decide (is_Some (hex_value b)).
(** [/^[0-9a-fA-F]*$/], [/^[0-9a-fA-F]+$/] and the lower-case [/^[0-9a-f]+$/]. *)
Definition all_hex (s : string) : bool := forallb is_hex_byte (utf8 s).
Definition is_hex_text (s : string) : bool := negb (bool_decide (s = "")) && all_hex s.
Definition is_lower_hex_text (s : string) : bool := is_hex_text s && bool_decide (toLowerCase s = s).

Definition TRANSFER_ESCROW_SHARD_DOMAIN : string := "cardano-ibc/transfer-escrow-shard/v1".
Definition TRANSFER_ESCROW_SHARD_REGISTRY_PREFIX : string := "escrowShards/".
Definition TRANSFER_ESCROW_SHARD_REGISTERED_VALUE : bytes := [x01].
Definition UINT32_MAX : N := 0xffffffff.

Definition decodeHexBytes (value label : string) : result bytes :=
  if Nat.odd (str_length value) || negb (all_hex value)
  then throw (label +:+ " must be an even-length hexadecimal string")
  else Ok (hex_decode_prefix value).

Definition uint32BigEndian (value : N) : result bytes :=
  if (UINT32_MAX <? value)%N then throw ("Escrow shard framing length " +:+ pretty value +:+ " exceeds uint32")
  else Ok (be_of_N 4 value).

Section shard.
Context `{BL : Blake2b}.

(** [Buffer.from(blake2b(fromHex(data), { dkLen: 28 })).toString('hex')] *)
Definition hashBlake2b224 (dataHex : string) : result string :=
  b ← fromHex dataHex; Ok (hex_encode (blake2b224 b)).

Definition shard_preimage (channelBytes denomBytes : bytes) : result bytes :=
  channelLength ← uint32BigEndian (N.of_nat (length channelBytes));
  denomLength ← uint32BigEndian (N.of_nat (length denomBytes));
  Ok (utf8 TRANSFER_ESCROW_SHARD_DOMAIN ++ [x00] ++ channelLength ++ channelBytes ++ denomLength ++ denomBytes).

Definition transferEscrowShardTokenName (channelId packetDenom : string) : result string :=
  channelBytes ← decodeHexBytes channelId "channelId";
  denomBytes ← decodeHexBytes packetDenom "packetDenom";
  preimage ← shard_preimage channelBytes denomBytes;
  hashBlake2b224 (hex_encode preimage).

Definition transferEscrowShardRegistryKey (shardTokenName : string) : result string :=
  if decide (str_length shardTokenName = 56%nat /\ all_hex shardTokenName = true)
  then Ok (TRANSFER_ESCROW_SHARD_REGISTRY_PREFIX +:+ toLowerCase shardTokenName)
  else throw "Escrow shard token name must be a 28-byte hexadecimal string".

Definition escrowDenomTokenFromPacketDenom (packetDenomHex : string) : result string :=
  packetDenomBytes ← decodeHexBytes packetDenomHex "packet denom datum";
  let packetDenom := utf8_decode packetDenomBytes in
  if decide (utf8 packetDenom <> packetDenomBytes) then
    throw "Escrow shard packet denom is not canonical UTF-8" else
  if Nat.odd (str_length packetDenom) || negb (is_hex_text packetDenom) then
    throw "Escrow shard packet denom must contain a hexadecimal asset unit" else
  let decodedUnit := hex_decode_prefix packetDenom in
  if decide (utf8_decode decodedUnit = "lovelace" /\ decodedUnit = utf8 "lovelace") then Ok "lovelace" else
  if decide (str_length packetDenom < 56 \/ 120 < str_length packetDenom)%nat then
    throw "Escrow shard packet denom does not encode a canonical Cardano asset unit"
  else Ok (hex_encode decodedUnit).

(** ** The scan *)

Record TransferEscrowDatum := MkTransferEscrowDatum { channel_id : string; denom : string }.

(** What the scan uses of the deployment, of the UTxO provider and of the datum
    codec. *)
Class EscrowEnv := {
  transferModuleAddress : string;
  transferModuleIdentifier : string;
  shardPolicyId : string;
  findUtxoAt : string -> result (list UTxO);
  decode_transferModule : string -> result string;
  encode_transferModule : string -> result string;
  decode_transferEscrow : string -> result TransferEscrowDatum;
  encode_transferEscrow : TransferEscrowDatum -> result string;
}.

Definition toUtxoRef (u : UTxO) : string := txHash u +:+ "#" +:+ pretty (outputIndex u).

Definition zero_root64 : string := text (replicate 64 x30).

Inductive TransferEscrowShardLookup :=
| ShardExisting (utxo : UTxO) (encodedDatum shardTokenUnit : string) (transferModuleUtxo : UTxO)
    (registrySiblings : list string)
| ShardMissing (encodedDatum shardTokenUnit : string) (transferModuleUtxo : UTxO)
    (registrySiblings : list string) (encodedUpdatedTransferModuleDatum : string).

Context `{SHA : Sha256} `{EV : EscrowEnv}.

(** [utxo.assets?.[unit] ?? 0n] *)
Definition quantity (u : UTxO) (unit : string) : Z := default 0%Z (map_get (assets u) unit).

Definition encodeTransferEscrowDatum (channelId packetDenom : string) : result string :=
  encode_transferEscrow (MkTransferEscrowDatum channelId packetDenom).

Definition getTransferEscrowShardTokenUnit (channelId packetDenom : string) : result string :=
  name ← transferEscrowShardTokenName channelId packetDenom; Ok (shardPolicyId +:+ name).

Definition escrowShardHasCanonicalAssets (u : UTxO) (denomToken shardTokenUnit : string) : bool :=
  (quantity u shardTokenUnit =? 1)%Z &&
  forallb (fun unit => bool_decide (unit = "lovelace" \/ unit = denomToken \/ unit = shardTokenUnit))
    (map_keys (assets u)).

Definition getTransferModuleRootFromAddressScan (utxos : list UTxO) : result UTxO :=
  let holders := filter (fun u => map_has (assets u) transferModuleIdentifier = true) utxos in
  let failure := Err (GrpcFailedPrecondition
    ("Expected one canonical transfer-module registry root at the transfer module address, found " +:+
     pretty (length holders))) in
  match holders with
  | [u] => if (quantity u transferModuleIdentifier =? 1)%Z then Ok u else failure
  | _ => failure
  end.

Fixpoint check_duplicates (seen : list string) (utxos : list UTxO) : result unit :=
  match utxos with
  | [] => Ok tt
  | u :: utxos' =>
      if decide (toUtxoRef u ∈ seen) then
        Err (GrpcFailedPrecondition ("Transfer module address scan returned duplicate output " +:+ toUtxoRef u))
      else check_duplicates (toUtxoRef u :: seen) utxos'
  end.

(** [try { return tree.getRoot() } catch ...] *)
Definition getTransferEscrowRegistryRoot (tree : ICS23MerkleTree) : result (string * ICS23MerkleTree) :=
  match getRoot tree with
  | (Ok r, t) => Ok (r, t)
  | (Err e, _) => Err (GrpcFailedPrecondition
      ("Transfer escrow shard registry Merkle path collision: " +:+ error_to_string e))
  end.

(** Rewrap any exception as the failed precondition of a [catch]. *)
Definition catch_precondition {A} (msg : string) (r : result A) : result A :=
  match r with Ok a => Ok a | Err e => Err (GrpcFailedPrecondition (msg +:+ error_to_string e)) end.

Definition committed_registry_root (moduleUtxo : UTxO) : result string :=
  onChainRoot ←
    match datum_of moduleUtxo with
    | None => Ok zero_root64
    | Some d => catch_precondition "Malformed transfer-module registry datum: " (decode_transferModule d)
    end;
  if decide (str_length onChainRoot = 64%nat /\ is_lower_hex_text onChainRoot = true) then Ok onChainRoot
  else Err (GrpcFailedPrecondition
    "Transfer-module escrow shard registry root must be 32 lowercase hexadecimal bytes").

(** One iteration of the shard loop over the tree and the canonical-shard map. *)
Definition scan_utxo (st : ICS23MerkleTree * jsmap string UTxO) (u : UTxO)
  : result (ICS23MerkleTree * jsmap string UTxO) :=
  let '(tree, canonicalShards) := st in
  match filter (fun kv => startsWith shardPolicyId kv.1 = true) (assets u) with
  | [] => Ok st
  | [(candidateUnit, candidateQuantity)] =>
      match datum_of u with
      | Some d =>
          if decide (str_length candidateUnit <> str_length shardPolicyId + 56)%nat then
            Err (GrpcFailedPrecondition ("Malformed escrow shard holder " +:+ toUtxoRef u)) else
          if negb (is_lower_hex_text candidateUnit) then
            Err (GrpcFailedPrecondition ("Malformed escrow shard holder " +:+ toUtxoRef u)) else
          if negb (candidateQuantity =? 1)%Z then
            Err (GrpcFailedPrecondition ("Malformed escrow shard holder " +:+ toUtxoRef u)) else
          if map_has canonicalShards candidateUnit then
            Err (GrpcFailedPrecondition ("Duplicate escrow shard holders found for " +:+ candidateUnit)) else
          '(sd, canonicalDenomToken) ←
            catch_precondition ("Malformed escrow shard datum at " +:+ toUtxoRef u +:+ ": ")
              (sd ← decode_transferEscrow d; tok ← escrowDenomTokenFromPacketDenom (denom sd); Ok (sd, tok));
          canonicalTokenName ← transferEscrowShardTokenName (channel_id sd) (denom sd);
          let canonicalUnit := shardPolicyId +:+ canonicalTokenName in
          canonicalDatum ← encodeTransferEscrowDatum (channel_id sd) (denom sd);
          if decide (candidateUnit = canonicalUnit /\ d = canonicalDatum /\
                     escrowShardHasCanonicalAssets u canonicalDenomToken canonicalUnit = true) then
            registryKey ← transferEscrowShardRegistryKey canonicalTokenName;
            Ok (tree_set registryKey TRANSFER_ESCROW_SHARD_REGISTERED_VALUE tree,
                map_set canonicalShards canonicalUnit u)
          else Err (GrpcFailedPrecondition ("Non-canonical escrow shard holder " +:+ toUtxoRef u))
      | None => Err (GrpcFailedPrecondition ("Malformed escrow shard holder " +:+ toUtxoRef u))
      end
  | _ => Err (GrpcFailedPrecondition
      ("Malformed escrow shard holder " +:+ toUtxoRef u +:+ ": expected one shard-policy asset"))
  end.

Definition findTransferEscrowShard (channelId packetDenom denomToken : string) (requiredAmount : option Z)
  : result TransferEscrowShardLookup :=
  encodedDatum ← encodeTransferEscrowDatum channelId packetDenom;
  shardTokenUnit ← getTransferEscrowShardTokenUnit channelId packetDenom;
  canonicalRequestedDenom ← escrowDenomTokenFromPacketDenom packetDenom;
  if decide (toLowerCase (trim denomToken) <> canonicalRequestedDenom) then
    Err (GrpcInvalidArgument ("Requested asset " +:+ denomToken +:+ " does not match escrow shard denom " +:+
                              canonicalRequestedDenom)) else
  if decide (~ (str_length shardPolicyId = 56%nat /\ is_lower_hex_text shardPolicyId = true)) then
    Err (GrpcFailedPrecondition
      "Transfer escrow shard policy id must be a 28-byte lowercase hexadecimal string") else
  addressUtxos ← findUtxoAt transferModuleAddress;
  _ ← check_duplicates [] addressUtxos;
  transferModuleUtxo ← getTransferModuleRootFromAddressScan addressUtxos;
  onChainRoot ← committed_registry_root transferModuleUtxo;
  '(tree, canonicalShards) ← foldR scan_utxo (new_tree, []) addressUtxos;
  '(reconstructedRoot, tree) ← getTransferEscrowRegistryRoot tree;
  if decide (reconstructedRoot <> onChainRoot) then
    Err (GrpcFailedPrecondition ("Transfer escrow shard registry root mismatch: datum=" +:+ onChainRoot +:+
                                 ", reconstructed=" +:+ reconstructedRoot)) else
  let shardTokenName := slice_from (str_length shardPolicyId) shardTokenUnit in
  registryKey ← transferEscrowShardRegistryKey shardTokenName;
  siblings ← (getSiblings registryKey tree).1;
  let registrySiblings := hex_encode <$> siblings in
  let tree := (getSiblings registryKey tree).2 in
  match map_get canonicalShards shardTokenUnit with
  | Some existingUtxo =>
      if decide (datum existingUtxo <> Some encodedDatum) then
        Err (GrpcFailedPrecondition ("Escrow shard " +:+ shardTokenUnit +:+
                                     " does not match the requested channel and denom")) else
      if match requiredAmount with
         | Some required => (quantity existingUtxo canonicalRequestedDenom <? required)%Z
         | None => false
         end
      then Err (GrpcInvalidArgument ("Insufficient escrowed amount for " +:+ canonicalRequestedDenom))
      else Ok (ShardExisting existingUtxo encodedDatum shardTokenUnit transferModuleUtxo registrySiblings)
  | None =>
      let updatedTree := tree_set registryKey TRANSFER_ESCROW_SHARD_REGISTERED_VALUE (clone tree) in
      '(updatedRoot, _) ← getTransferEscrowRegistryRoot updatedTree;
      encodedUpdated ← encode_transferModule updatedRoot;
      Ok (ShardMissing encodedDatum shardTokenUnit transferModuleUtxo registrySiblings encodedUpdated)
  end.

End shard.
