(* ===== verification/EscrowShardTheorems.v ===== *)
(** * Transfer escrow shards: the scan is authoritative *)

From Stdlib Require Import Strings.Ascii.
From S2P Require Import Prelude JsMap JsString Hex MerkleTree MerkleSpec MerkleRefine OnChainCommitment ToyHash MerkleTheorems Datum StateRoot StateRootFacts StateRootTheorems TreeRebuild TreeServicesTheorems EscrowShard.

Section names.
Context `{BL : Blake2b}.

Lemma uint32_inj a b x : uint32BigEndian a = Ok x -> uint32BigEndian b = Ok x -> a = b.
Proof.
  unfold uint32BigEndian, UINT32_MAX. destruct (N.ltb_spec 4294967295 a); [done|].
  destruct (N.ltb_spec 4294967295 b); [done|]. intros H1 H2.
  assert (be_of_N 4 a = be_of_N 4 b) as E by congruence. apply (f_equal be_to_N) in E. rewrite !be_to_of_N in E.
  change (256 ^ N.of_nat 4)%N with 4294967296%N in E. rewrite !N.mod_small in E; lia.
Qed.

Lemma uint32_length a x : uint32BigEndian a = Ok x -> length x = 4%nat.
Proof. unfold uint32BigEndian. destruct (_ <? _)%N; [done|]. by intros [= <-]. Qed.

(** The framing is injective: lengths separate the two variable parts. *)
Lemma shard_preimage_inj c d c' d' x :
  shard_preimage c d = Ok x -> shard_preimage c' d' = Ok x -> c = c' /\ d = d'.
Proof.
  unfold shard_preimage. intros H H'. inv_bind H. inv_bind H'. apply Ok_inj in H, H'. subst x.
  apply app_inj_length_l in H' as [_ H']; [|done]. apply (app_inj_length_l [x00] _ [x00]) in H' as [_ H']; [|done].
  pose proof (uint32_length _ _ E) as L1. pose proof (uint32_length _ _ E1) as L2.
  apply app_inj_length_l in H' as [Hl H']; [|congruence]. subst a1.
  pose proof (uint32_inj _ _ _ E E1) as Hc%Nat2N.inj.
  apply app_inj_length_l in H' as [<- H']; [|by rewrite Hc].
  apply app_inj_length_l in H' as [_ <-]; [done|].
  rewrite (uint32_length _ _ E0). by rewrite (uint32_length _ _ E2).
Qed.

(** An escrow shard's token name binds its channel and denomination:
    two (channel, denom) pairs with the same token name are the same bytes,
    unless BLAKE2b-224 collides on their framed preimages.  The length framing
    rules out shifting bytes between the channel and the denomination. *)
Lemma shardTokenName_binding channelId packetDenom channelId' packetDenom' name c d c' d' :
  decodeHexBytes channelId "channelId" = Ok c -> decodeHexBytes packetDenom "packetDenom" = Ok d ->
  decodeHexBytes channelId' "channelId" = Ok c' -> decodeHexBytes packetDenom' "packetDenom" = Ok d' ->
  transferEscrowShardTokenName channelId packetDenom = Ok name ->
  transferEscrowShardTokenName channelId' packetDenom' = Ok name ->
  (forall x y, shard_preimage c d = Ok x -> shard_preimage c' d' = Ok y -> blake2b224 x = blake2b224 y -> x = y) ->
  c = c' /\ d = d'.
Proof.
  intros Hc Hd Hc' Hd' H H' Hcol. unfold transferEscrowShardTokenName in H, H'.
  rewrite Hc, Hd in H. rewrite Hc', Hd' in H'. cbn [mbind result_bind] in H, H'.
  destruct (shard_preimage c d) as [x|] eqn:Ex; [|done]. destruct (shard_preimage c' d') as [y|] eqn:Ey; [|done].
  cbn [mbind result_bind] in H, H'. unfold hashBlake2b224 in H, H'.
  rewrite <- toHex_hex_encode, fromHex_toHex in H. rewrite <- toHex_hex_encode, fromHex_toHex in H'.
  cbn in H, H'. injection H as <-. injection H' as H'. apply (inj hex_encode) in H'.
  pose proof (Hcol _ _ eq_refl eq_refl (eq_sym H')) as ->.
  exact (shard_preimage_inj _ _ _ _ _ Ex Ey).
Qed.

End names.

(** A toy BLAKE2b for the witnesses. *)
#[export] Instance toy_blake2b : Blake2b | 10 := fun b => be_of_N 8 (toy_fold b) ++ replicate 20 x01.
#[export] Instance toy_blake2b_ok : Blake2bOk (BL := toy_blake2b).
Proof.
  constructor. intros b. unfold blake2b224, toy_blake2b. rewrite length_app, length_be_of_N. reflexivity.
Qed.

Section scan.
Context `{SHA : Sha256} `{BL : Blake2b} `{EV : EscrowEnv}.

(** A UTxO that holds its shard token the canonical way. *)
Definition canonical_holder (u : UTxO) (unit : string) : Prop :=
  exists sd name tok d,
    datum_of u = Some d /\ decode_transferEscrow d = Ok sd /\
    escrowDenomTokenFromPacketDenom (denom sd) = Ok tok /\
    transferEscrowShardTokenName (channel_id sd) (denom sd) = Ok name /\
    encodeTransferEscrowDatum (channel_id sd) (denom sd) = Ok d /\
    unit = shardPolicyId +:+ name /\ escrowShardHasCanonicalAssets u tok unit = true.

Record scan_inv (processed : list UTxO) (st : ICS23MerkleTree * jsmap string UTxO) : Prop := {
  si_tree : tree_sane st.1;
  si_ok : forall unit u, map_get st.2 unit = Some u -> u ∈ processed /\ canonical_holder u unit;
  si_all : forall u unit, u ∈ processed -> unit ∈ map_keys (assets u) -> startsWith shardPolicyId unit = true ->
    map_get st.2 unit = Some u;
  si_values : forall k, tree_value st.1 k = [] \/ tree_value st.1 k = [x01];
  si_keys : forall k, tree_value st.1 k <> [] ->
    exists name u, map_get st.2 (shardPolicyId +:+ name) = Some u /\
      transferEscrowShardRegistryKey name = Ok k /\ toLowerCase (shardPolicyId +:+ name) = shardPolicyId +:+ name;
}.

Lemma filter_singleton_only (u : UTxO) unit cand q :
  filter (fun kv => startsWith shardPolicyId kv.1 = true) (assets u) = [(cand, q)] ->
  unit ∈ map_keys (assets u) -> startsWith shardPolicyId unit = true -> unit = cand.
Proof.
  intros Hf ((k & z) & -> & Hin)%list_elem_of_fmap Hp.
  assert ((k, z) ∈ filter (fun kv => startsWith shardPolicyId kv.1 = true) (assets u)) as H
    by by apply list_elem_of_filter.
  rewrite Hf in H. by apply list_elem_of_singleton in H as [= -> ->].
Qed.

Lemma catch_precondition_ok {A} msg (r : result A) a : catch_precondition msg r = Ok a -> r = Ok a.
Proof. by destruct r. Qed.

Lemma registry_key_nonempty name k : transferEscrowShardRegistryKey name = Ok k -> k <> "".
Proof. unfold transferEscrowShardRegistryKey. case_decide; [|done]. by intros [= <-]. Qed.

Lemma scan_utxo_inv processed st u st' :
  scan_inv processed st -> scan_utxo st u = Ok st' -> scan_inv (processed ++ [u]) st'.
Proof.
  intros [Hs Hok Hall Hvals Hkeys] H. destruct st as [tree shards]. cbn [fst snd] in *. unfold scan_utxo in H.
  destruct (filter _ (assets u)) as [|[cand q] [|]] eqn:Ef; [| |done].
  - injection H as <-. split; cbn [fst snd]; try done.
    + intros unit u' Hg. destruct (Hok _ _ Hg). split; [apply elem_of_app; by left | done].
    + intros u' unit [Hu|Hu]%elem_of_app Hk Hp; [by apply Hall|]. apply list_elem_of_singleton in Hu as ->.
      apply list_elem_of_fmap in Hk as ((k & z) & -> & Hin).
      assert ((k, z) ∈ filter (fun kv => startsWith shardPolicyId kv.1 = true) (assets u)) as Hx
        by by apply list_elem_of_filter.
      rewrite Ef in Hx. by apply elem_of_nil in Hx.
  - destruct (datum_of u) as [d|] eqn:Ed; [|done]. case_decide; [done|].
    destruct (negb (is_lower_hex_text cand)) eqn:Elow; [done|]. destruct (negb (q =? 1)%Z); [done|].
    destruct (map_has shards cand) eqn:Eh; [done|]. inv_bind H. destruct a as [sd tok].
    apply catch_precondition_ok in E. inv_bind E. injection E as -> ->. inv_bind H.
    case_decide as Hcan; [|done]. destruct Hcan as (-> & -> & Hassets). inv_bind H. injection H as <-.
    apply bool_decide_eq_false, eq_None_not_Some in Eh.
    assert (canonical_holder u (shardPolicyId +:+ a)) as Hcan by (by exists sd, a, tok, a0).
    apply negb_false_iff, andb_true_iff in Elow as [_ Hlow%bool_decide_eq_true].
    pose proof (registry_key_nonempty _ _ E3) as Hne. split; cbn [fst snd].
    + destruct Hs as [Hwf Hemp]. split; [by apply tree_wf_set|]. by intros [E'|E']%tree_set_keys.
    + intros unit u'. rewrite map_get_set. case_decide as Hd.
      * intros [= <-]. subst unit. split; [apply elem_of_app; right; by left | done].
      * intros Hg. destruct (Hok _ _ Hg). split; [apply elem_of_app; by left | done].
    + intros u' unit [Hu|Hu]%elem_of_app Hk Hp.
      * rewrite map_get_set_ne; [by apply Hall|]. intros <-. rewrite (Hall _ _ Hu Hk Hp) in Eh. done.
      * apply list_elem_of_singleton in Hu as ->.
        rewrite (filter_singleton_only _ _ _ _ Ef Hk Hp). apply map_get_set_eq.
    + intros k. rewrite tree_value_set by apply Hs. case_decide; [by right | apply Hvals].
    + intros k. rewrite tree_value_set by apply Hs. case_decide as Hd.
      * intros _. subst k. exists a, u. split_and!; [apply map_get_set_eq | done | done].
      * intros Hv. destruct (Hkeys _ Hv) as (name & u' & Hg & Hk & Hl). exists name, u'.
        split_and!; [|done|done]. rewrite map_get_set_ne; [done|]. intros E'. rewrite E' in Eh. congruence.
Qed.

Lemma scan_all_inv us st : foldR scan_utxo (new_tree, []) us = Ok st -> scan_inv us st.
Proof.
  revert st. induction us as [|u us IH] using rev_ind; intros st H.
  - injection H as <-. split; cbn [fst snd]; try done; [apply tree_sane_new | |].
    + intros u unit Hu. by apply elem_of_nil in Hu.
    + by left.
  - rewrite foldR_app in H. inv_bind H. cbn in H. inv_bind H. injection H as <-.
    eapply scan_utxo_inv; [by apply IH | done].
Qed.

(** What a successful lookup went through. *)
Lemma findTransferEscrowShard_inv channelId packetDenom denomToken required res :
  findTransferEscrowShard channelId packetDenom denomToken required = Ok res ->
  exists encodedDatum unit name tok utxos moduleUtxo root tree0 tree shards key sibs t1,
    encodeTransferEscrowDatum channelId packetDenom = Ok encodedDatum /\
    transferEscrowShardTokenName channelId packetDenom = Ok name /\ unit = shardPolicyId +:+ name /\
    escrowDenomTokenFromPacketDenom packetDenom = Ok tok /\
    findUtxoAt transferModuleAddress = Ok utxos /\
    getTransferModuleRootFromAddressScan utxos = Ok moduleUtxo /\
    committed_registry_root moduleUtxo = Ok root /\
    scan_inv utxos (tree0, shards) /\ getRoot tree0 = (Ok root, tree) /\
    transferEscrowShardRegistryKey name = Ok key /\ getSiblings key tree = (Ok sibs, t1) /\
    match map_get shards unit with
    | Some u => datum u = Some encodedDatum /\
        (forall n, required = Some n -> (n <= quantity u tok)%Z) /\
        res = ShardExisting u encodedDatum unit moduleUtxo (hex_encode <$> sibs)
    | None => exists root' enc t2,
        getRoot (tree_set key [x01] (clone t1)) = (Ok root', t2) /\ encode_transferModule root' = Ok enc /\
        res = ShardMissing encodedDatum unit moduleUtxo (hex_encode <$> sibs) enc
    end.
Proof.
  unfold findTransferEscrowShard, getTransferEscrowShardTokenUnit. intros H. inv_bind H.
  destruct (transferEscrowShardTokenName channelId packetDenom) as [name|] eqn:En; [|done].
  cbn [mbind result_bind] in E0. injection E0 as <-.
  case_decide; [done|]. case_decide; [done|]. inv_bind H. destruct a5 as [tree0 shards].
  apply scan_all_inv in E5. unfold getTransferEscrowRegistryRoot in H.
  destruct (getRoot tree0) as [[root|] tree] eqn:Er; [|done]. cbn [mbind result_bind] in H.
  case_decide as Hroot; [done|]. subst a4.
  assert (slice_from (str_length shardPolicyId) (shardPolicyId +:+ name) = name) as Hslice.
  { unfold slice_from, str_length. by rewrite utf8_app, drop_app_length, text_utf8. }
  rewrite Hslice in H. destruct (transferEscrowShardRegistryKey name) as [key|] eqn:Ek; [|done].
  cbn [mbind result_bind] in H.
  destruct (getSiblings key tree) as [[sibs|] t1] eqn:Es; cbn [fst snd mbind result_bind] in H; [|done].
  exists a, (shardPolicyId +:+ name), name, a1, a0, a3, root, tree0, tree, shards, key, sibs, t1.
  split_and!; try done. destruct (map_get shards (shardPolicyId +:+ name)) as [u|] eqn:Eg.
  - case_decide as Hd; [done|].
    destruct (match required with Some n => _ | None => false end) eqn:Ereq; [done|]. apply Ok_inj in H as <-.
    split_and!; [done | | done]. intros n ->. by apply Z.ltb_ge in Ereq.
  - destruct (getRoot (tree_set key _ (clone t1))) as [[root'|] t2] eqn:Er2; [|done].
    cbn [mbind result_bind] in H. inv_bind H. apply Ok_inj in H as <-. by exists root', a4, t2.
Qed.

Lemma prefix_app a b : String.prefix a (a +:+ b) = true.
Proof.
  induction a as [|c a IH]; [by destruct b|]. change (String c a +:+ b) with (String c (a +:+ b)).
  cbn [String.prefix]. by destruct (Ascii.ascii_dec c c).
Qed.

Lemma toLowerCase_app a b : toLowerCase (a +:+ b) = toLowerCase a +:+ toLowerCase b.
Proof. unfold toLowerCase. by rewrite utf8_app, map_app, text_app. Qed.

Lemma toLowerCase_hex b : toLowerCase (hex_encode b) = hex_encode b.
Proof.
  unfold toLowerCase, hex_encode. rewrite utf8_text. f_equal. induction b as [|x b IH]; [done|].
  change ((x :: b) ≫= hex_byte) with (hex_byte x ++ (b ≫= hex_byte)). rewrite map_app, IH. f_equal. by destruct x.
Qed.

Lemma tokenName_lower c d name : transferEscrowShardTokenName c d = Ok name -> toLowerCase name = name.
Proof.
  unfold transferEscrowShardTokenName, hashBlake2b224. intros H. inv_bind H. apply Ok_inj in H as <-.
  apply toLowerCase_hex.
Qed.

Lemma lower_tail (p n : string) : toLowerCase (p +:+ n) = p +:+ n -> toLowerCase n = n.
Proof.
  rewrite toLowerCase_app. intros E. apply (f_equal utf8) in E. rewrite !utf8_app in E.
  apply app_inj_length_l in E as [_ E]; [by apply utf8_inj|].
  unfold toLowerCase. rewrite utf8_text. by rewrite length_map.
Qed.

(** The escrow shard the lookup returns is the one the request is
    about: it is at the transfer module's address, holds exactly one unit of the
    shard token of that channel and denomination, carries the canonical datum
    and at least the required amount, and no other UTxO at the address holds
    that token. *)
Lemma escrowShard_existing_sound channelId packetDenom denomToken required u enc unit m sibs :
  findTransferEscrowShard channelId packetDenom denomToken required = Ok (ShardExisting u enc unit m sibs) ->
  exists utxos name tok,
    findUtxoAt transferModuleAddress = Ok utxos /\ u ∈ utxos /\
    transferEscrowShardTokenName channelId packetDenom = Ok name /\ unit = shardPolicyId +:+ name /\
    quantity u unit = 1%Z /\
    encodeTransferEscrowDatum channelId packetDenom = Ok enc /\ datum u = Some enc /\
    escrowDenomTokenFromPacketDenom packetDenom = Ok tok /\
    (forall n, required = Some n -> (n <= quantity u tok)%Z) /\
    (forall u', u' ∈ utxos -> unit ∈ map_keys (assets u') -> u' = u).
Proof.
  intros (encd & unit' & name & tok & utxos & mu & root & t0 & t & shards & key & ss & t1 &
    H1 & H2 & -> & H3 & H4 & _ & _ & [Hs Hok Hall _ _] & _ & _ & _ & H)%findTransferEscrowShard_inv.
  cbn [fst snd] in *. destruct (map_get shards (shardPolicyId +:+ name)) as [u'|] eqn:Eg;
    [|destruct H as (? & ? & ? & _ & _ & ?); done].
  destruct H as (Hd & Hreq & [= -> -> -> -> ->]). destruct (Hok _ _ Eg) as [Hu Hcan].
  exists utxos, name, tok. split_and!; try done.
  - destruct Hcan as (sd & n & tk & d & _ & _ & _ & _ & _ & _ & Ha).
    apply andb_true_iff in Ha as [Hq%Z.eqb_eq _]. done.
  - intros u'0 Hu' Hk. assert (Some u'0 = Some u') as [= ->]; [|done].
    rewrite <- Eg. symmetry. apply Hall; [done..|]. apply prefix_app.
Qed.

(** When the lookup reports the shard as missing, no UTxO at the
    address holds its token, and the returned siblings make the validator's
    replay accept the registration of the shard's key from the committed registry
    root to the root encoded in the returned datum. *)
Lemma escrowShard_missing_registers `{STD : !Sha256Std} channelId packetDenom denomToken required enc unit m sibs enc' :
  findTransferEscrowShard channelId packetDenom denomToken required = Ok (ShardMissing enc unit m sibs enc') ->
  value_ok TRANSFER_ESCROW_SHARD_REGISTERED_VALUE ->
  exists utxos key root root',
    findUtxoAt transferModuleAddress = Ok utxos /\ (forall u, u ∈ utxos -> unit ∉ map_keys (assets u)) /\
    committed_registry_root m = Ok root /\ encode_transferModule root' = Ok enc' /\
    apply_update (hex_decode_prefix root) (utf8 key) [] TRANSFER_ESCROW_SHARD_REGISTERED_VALUE
      (hex_decode_prefix <$> sibs) = Some (hex_decode_prefix root') /\
    key = TRANSFER_ESCROW_SHARD_REGISTRY_PREFIX +:+ toLowerCase (slice_from (str_length shardPolicyId) unit).
Proof.
  intros (encd & unit' & name & tok & utxos & mu & root & t0 & t & shards & key & ss & t1 &
    H1 & H2 & -> & H3 & H4 & _ & H6 & [Hs Hok Hall Hvals Hkeys] & Hroot & Hkey & Hsib & H)%findTransferEscrowShard_inv Hv1.
  cbn [fst snd] in *. destruct (map_get shards (shardPolicyId +:+ name)) as [u'|] eqn:Eg;
    [destruct H as (_ & _ & ?); done|].
  destruct H as (root' & e & t2 & Hroot' & Henc & [= -> -> -> -> ->]).
  exists utxos, key, root, root'. split; [done|]. split.
  { intros u Hu Hin. rewrite (Hall _ _ Hu Hin) in Eg; [done | apply prefix_app]. }
  split; [done|]. split; [done|]. split; cycle 1.
  { unfold slice_from, str_length. rewrite utf8_app, drop_app_length, text_utf8.
    unfold transferEscrowShardRegistryKey in Hkey. case_decide; [|done]. by apply Ok_inj in Hkey. }
  assert (tree_value t0 key = []) as Hold.
  { destruct (decide (tree_value t0 key = [])) as [|Hne]; [done|exfalso].
    destruct (Hkeys _ Hne) as (name' & u & Hg & Hk' & Hl%lower_tail).
    unfold transferEscrowShardRegistryKey in Hkey, Hk'. case_decide; [|done]. case_decide; [|done].
    apply Ok_inj in Hkey, Hk'. rewrite <- Hkey, Hl, (tokenName_lower _ _ _ H2) in Hk'.
    apply (inj (String.append TRANSFER_ESCROW_SHARD_REGISTRY_PREFIX)) in Hk'. subst name'. congruence. }
  assert (tree_ok t0) as Hok0.
  { destruct Hs as [Hwf Hne]. split; [done | done |]. intros k. destruct (Hvals k) as [-> | ->];
      [apply value_ok_nil | exact Hv1]. }
  destruct (getRoot_ok _ _ _ Hok0 Hroot) as (Hif & -> & Hl & Hok1).
  destruct (getSiblings_ok _ _ _ _ Hok1 Hsib) as (_ & -> & Hl1 & Hok2).
  assert (tree_ok (tree_set key [x01] (clone t1))) as Hok3.
  { apply tree_ok_set; [|by eapply registry_key_nonempty | exact Hv1].
    eapply tree_ok_leaves; [exact Hok2 | apply tree_wf_clone, Hok2 | apply clone_leaves, Hok2]. }
  destruct (getRoot_ok _ _ _ Hok3 Hroot') as (Hif3 & -> & _ & _).
  assert (leaves (tree_set key [x01] (clone t1)) = leaves (tree_set key [x01] t0)) as Hlv.
  { apply leaves_set. rewrite clone_leaves by apply Hok2. congruence. }
  rewrite !hex_decode_encode, unhex_hex, Hlv, Hl. rewrite Hlv in Hif3.
  pose proof (apply_update_tree key [x01] t0 (ok_wf _ Hok0) Hif) as Hap.
  change (default [] (tree_get key t0)) with (tree_value t0 key) in Hap. rewrite Hold in Hap.
  apply Hap; [|apply value_ok_nil | exact Hv1].
  eapply key_free_after_set; [apply Hok0 | | exact Hif3]. done.
Qed.

End scan.

(** ** Evaluated instances: a module address with and without the shard *)

Definition toy_policy : string := text (replicate 56 x61).
Definition toy_denom_hex : string := Eval vm_compute in hex_encode (utf8 (hex_encode (utf8 "lovelace"))).
Definition toy_shard_name : string :=
  Eval vm_compute in match transferEscrowShardTokenName "6330" toy_denom_hex with Ok n => n | Err _ => "" end.
Definition toy_shard_unit : string := Eval vm_compute in toy_policy +:+ toy_shard_name.
Definition toy_registry_root : string :=
  Eval vm_compute in match (getRoot (tree_set ("escrowShards/" +:+ toy_shard_name) [x01] new_tree)).1 with
                     | Ok r => r | Err _ => "" end.

Definition toy_module_utxo : UTxO := MkUTxO "01" 0 [("mod", 1%Z)] (Some "rr").
Definition toy_shard_utxo : UTxO :=
  MkUTxO "02" 0 [("lovelace", 500%Z); (toy_shard_unit, 1%Z)] (Some "dd").

Definition toy_env (root : string) (utxos : list UTxO) : EscrowEnv := {|
  transferModuleAddress := "addr"; transferModuleIdentifier := "mod"; shardPolicyId := toy_policy;
  findUtxoAt _ := Ok utxos;
  decode_transferModule _ := Ok root; encode_transferModule r := Ok r;
  decode_transferEscrow _ := Ok (MkTransferEscrowDatum "6330" toy_denom_hex);
  encode_transferEscrow _ := Ok "dd";
|}.

