(* ===== verification/Voucher.v ===== *)
(** * Voucher names, denom traces and CIP-68 metadata

    [packages/cardano-ibc-trace-registry/src/voucher.ts], which the packet
    service uses to name the vouchers it mints: the token names derived from a
    denom trace, the split of a trace into hop path and base denom, and the
    metadata datum with its decoder. *)

From S2P Require Import Prelude JsMap JsString Hex MerkleTree Datum PacketHelpers TreeRebuild EscrowShard.

(** ** Token names *)

Definition CIP67_REFERENCE_NFT_LABEL_HEX : string := "000643b0".
Definition CIP67_FT_LABEL_HEX : string := "0014df10".
Definition VOUCHER_DENOM_HASH_HEX_LENGTH : nat := 56.
Definition LABELED_VOUCHER_TOKEN_NAME_HEX_LENGTH : nat := 64.
Definition VOUCHER_METADATA_VERSION : Z := 1.

Inductive VoucherLabelKind := ft | reference_nft.
#[export] Instance VoucherLabelKind_eq_dec : EqDecision VoucherLabelKind.
Proof. solve_decision. Defined.
Record ParsedVoucherAssetName := MkParsedVoucherAssetName { kind : VoucherLabelKind; voucherDenomHash : string }.

Definition normalizeVoucherDenomHash (hash : string) : result string :=
  let normalized := toLowerCase (trim hash) in
  if decide (str_length normalized = VOUCHER_DENOM_HASH_HEX_LENGTH /\ all_hex normalized = true) then Ok normalized
  else throw ("Invalid voucher denom hash: expected " +:+ pretty VOUCHER_DENOM_HASH_HEX_LENGTH +:+
              " hex characters, received " +:+ hash).

Definition buildVoucherUserTokenNameFromDenomHash (hash : string) : result string :=
  n ← normalizeVoucherDenomHash hash; Ok (CIP67_FT_LABEL_HEX +:+ n).
Definition buildVoucherReferenceTokenNameFromDenomHash (hash : string) : result string :=
  n ← normalizeVoucherDenomHash hash; Ok (CIP67_REFERENCE_NFT_LABEL_HEX +:+ n).
Definition buildVoucherAssetId (policyId tokenName : string) : string :=
  toLowerCase policyId +:+ toLowerCase tokenName.
Definition deriveVoucherReferenceAssetId (policyId hash : string) : result string :=
  n ← buildVoucherReferenceTokenNameFromDenomHash hash; Ok (buildVoucherAssetId policyId n).

Definition parseVoucherAssetName (assetNameHex : string) : option ParsedVoucherAssetName :=
  let normalized := toLowerCase (trim assetNameHex) in
  if decide (str_length normalized <> LABELED_VOUCHER_TOKEN_NAME_HEX_LENGTH) then None else
  if negb (is_hex_text normalized) then None else
  let label := slice 0 8 normalized in
  let hash := slice_from 8 normalized in
  if decide (label = CIP67_FT_LABEL_HEX) then Some (MkParsedVoucherAssetName ft hash) else
  if decide (label = CIP67_REFERENCE_NFT_LABEL_HEX) then Some (MkParsedVoucherAssetName reference_nft hash)
  else None.

Definition expectVoucherAssetName (assetNameHex : string) : result ParsedVoucherAssetName :=
  match parseVoucherAssetName assetNameHex with
  | Some p => Ok p
  | None => throw ("Invalid CIP-67 voucher asset name: expected 32-byte (333) or (100) labeled asset name, received "
                   +:+ assetNameHex)
  end.
Definition isVoucherAssetName (assetNameHex : string) : bool :=
  bool_decide (is_Some (parseVoucherAssetName assetNameHex)).
Definition isVoucherUserTokenName (assetNameHex : string) : bool :=
  bool_decide (kind <$> parseVoucherAssetName assetNameHex = Some ft).
Definition isVoucherReferenceTokenName (assetNameHex : string) : bool :=
  bool_decide (kind <$> parseVoucherAssetName assetNameHex = Some reference_nft).

(** ** Denom traces *)

Record DenomTraceParts := MkDenomTraceParts { path : string; baseDenom : string }.

Definition looksLikePortId (segment : string) : bool := (0 <? str_length segment)%nat.

(** [/^channel-\d+$/] *)
Definition is_channel_segment (segment : string) : bool :=
  startsWith "channel-" segment && is_digits (slice_from 8 segment).

(** The [while] loop: the number of leading segments that form hops. *)
Fixpoint hop_segments (segments : list string) : nat :=
  match segments with
  | maybePortId :: maybeChannelId :: rest =>
      if looksLikePortId maybePortId && is_channel_segment maybeChannelId then S (S (hop_segments rest)) else 0
  | _ => 0
  end.

Definition splitFullDenomTrace (fullDenomPath : string) : result DenomTraceParts :=
  let normalized := trim fullDenomPath in
  if decide (normalized = "") then throw "Denom trace cannot be empty" else
  let segments := split x2f normalized in
  if existsb (fun segment => (str_length segment =? 0)%nat) segments then
    throw ("Denom trace contains empty path segments: " +:+ fullDenomPath) else
  let cursor := hop_segments segments in
  match drop cursor segments with
  | [] => throw ("Denom trace is missing base denomination: " +:+ fullDenomPath)
  | baseSegments => Ok (MkDenomTraceParts (join "/" (take cursor segments)) (join "/" baseSegments))
  end.

Record VoucherPresentation := MkVoucherPresentation {
  displayName : string; displaySymbol : string; displayDescription : string
}.

(** [split('/').filter(Boolean).at(-1) ?? trimmed] *)
Definition deriveVoucherCanonicalLabel (base : string) : string :=
  let trimmedBaseDenom := trim base in
  if decide (trimmedBaseDenom = "") then "IBC" else
  default trimmedBaseDenom (last (filter (fun s => s <> "") (split x2f trimmedBaseDenom))).

Definition deriveVoucherPresentation (fullDenom base : string) : VoucherPresentation :=
  MkVoucherPresentation (if decide (trim fullDenom = "") then "IBC" else trim fullDenom)
    (deriveVoucherCanonicalLabel base) ("IBC voucher for " +:+ fullDenom).

(** ** Metadata *)

Record VoucherExtra := MkVoucherExtra {
  vx_path : string; vx_baseDenom : string; vx_fullDenom : string; vx_voucherTokenName : string;
  vx_voucherPolicyId : string; vx_ibcDenomHash : string; vx_traceVersion : Z;
}.
(** [decimals] is an integer: [BigInt] throws on any other number. *)
Record Cip68VoucherMetadata := MkCip68VoucherMetadata {
  vm_name : string; vm_description : string; vm_ticker : string;
  vm_decimals : option Z; vm_url : option string; vm_logo : option string;
  vm_version : Z; vm_extra : VoucherExtra;
}.

Record BuildVoucherMetadataParams := MkBuildVoucherMetadataParams {
  mp_path : string; mp_baseDenom : string; mp_fullDenom : string; mp_voucherTokenName : string;
  mp_voucherPolicyId : string; mp_ibcDenomHash : string;
}.

Definition buildVoucherCip68Metadata (params : BuildVoucherMetadataParams) : Cip68VoucherMetadata :=
  let presentation := deriveVoucherPresentation (mp_fullDenom params) (mp_baseDenom params) in
  {| vm_name := displaySymbol presentation;
     vm_description := displayDescription presentation;
     vm_ticker := displaySymbol presentation;
     vm_decimals := None; vm_url := None; vm_logo := None;
     vm_version := VOUCHER_METADATA_VERSION;
     vm_extra := {| vx_path := mp_path params; vx_baseDenom := mp_baseDenom params;
                    vx_fullDenom := mp_fullDenom params; vx_voucherTokenName := mp_voucherTokenName params;
                    vx_voucherPolicyId := mp_voucherPolicyId params; vx_ibcDenomHash := mp_ibcDenomHash params;
                    vx_traceVersion := VOUCHER_METADATA_VERSION |} |}.

Definition toDataKey (value : string) : pdata := PBytes (hex_encode (utf8 value)).
Definition toDataBytes (value : string) : pdata := PBytes (hex_encode (utf8 value)).

(** [if (value) map.set(key, bytes(value))] *)
Definition text_entry (key : string) (value : option string) : list (pdata * pdata) :=
  match value with
  | Some v => if decide (v = "") then [] else [(toDataKey key, toDataBytes v)]
  | None => []
  end.

Definition metadata_map (m : Cip68VoucherMetadata) : list (pdata * pdata) :=
  [(toDataKey "name", toDataBytes (vm_name m)); (toDataKey "description", toDataBytes (vm_description m))] ++
  text_entry "ticker" (Some (vm_ticker m)) ++
  match vm_decimals m with Some z => [(toDataKey "decimals", PInt z)] | None => [] end ++
  text_entry "url" (vm_url m) ++ text_entry "logo" (vm_logo m).

Definition extra_map (x : VoucherExtra) : list (pdata * pdata) :=
  [(toDataKey "path", toDataBytes (vx_path x));
   (toDataKey "baseDenom", toDataBytes (vx_baseDenom x));
   (toDataKey "fullDenom", toDataBytes (vx_fullDenom x));
   (toDataKey "voucherTokenName", toDataBytes (vx_voucherTokenName x));
   (toDataKey "voucherPolicyId", toDataBytes (vx_voucherPolicyId x));
   (toDataKey "ibcDenomHash", toDataBytes (vx_ibcDenomHash x));
   (toDataKey "traceVersion", PInt (vx_traceVersion x))].

Definition metadata_data (m : Cip68VoucherMetadata) : pdata :=
  PConstr 0 [PMap (metadata_map m); PInt (vm_version m); PMap (extra_map (vm_extra m))].

Definition fromHexUtf8 (value : string) : string := utf8_decode (hex_decode_prefix value).

Definition expectMetadataConstr (value : pdata) (expectedIndex : Z) : result (list pdata) :=
  match value with
  | PConstr index fields =>
      if (index =? expectedIndex)%Z then Ok fields
      else throw ("Unexpected CIP-68 voucher metadata constructor index " +:+ pretty index +:+ ", expected " +:+
                  pretty expectedIndex)
  | _ => throw "Expected CIP-68 voucher metadata constructor data"
  end.

(** One iteration of the entry loop; a [Map]'s entries are pairs, an array's
    items must be two-element arrays. *)
Definition add_entry (normalized : jsmap string pdata) (entry : pdata * pdata) : result (jsmap string pdata) :=
  match entry.1 with
  | PBytes key => Ok (map_set normalized (fromHexUtf8 key) entry.2)
  | _ => throw "Invalid CIP-68 voucher metadata map key"
  end.
Definition add_item (normalized : jsmap string pdata) (item : pdata) : result (jsmap string pdata) :=
  match item with
  | PList [k; v] => add_entry normalized (k, v)
  | _ => throw "Invalid CIP-68 voucher metadata map entry"
  end.
Definition toEntriesMap (value : option pdata) : result (jsmap string pdata) :=
  match value with
  | Some (PMap entries) => foldR add_entry [] entries
  | Some (PList items) => foldR add_item [] items
  | _ => throw "Expected CIP-68 voucher metadata map"
  end.

Definition decodeRequiredBytes (m : jsmap string pdata) (key : string) : result string :=
  match map_get m key with
  | Some (PBytes value) => Ok (fromHexUtf8 value)
  | _ => throw ("Missing required CIP-68 voucher metadata field " +:+ quoted key)
  end.
(** [Number(value)] for magnitudes below 2^1024. *)
Definition decodeRequiredInteger (m : jsmap string pdata) (key : string) : result Z :=
  match map_get m key with
  | Some (PInt value) => Ok (number_of_bigint value)
  | _ => throw ("Missing required CIP-68 voucher metadata integer " +:+ quoted key)
  end.
Definition decodeOptionalInteger (m : jsmap string pdata) (key : string) : result (option Z) :=
  match map_get m key with
  | None => Ok None
  | Some (PInt value) => Ok (Some (number_of_bigint value))
  | Some _ => throw ("Invalid CIP-68 voucher metadata integer " +:+ quoted key)
  end.
Definition uri_part (key : string) (part : pdata) : result string :=
  match part with
  | PBytes value => Ok (fromHexUtf8 value)
  | _ => throw ("Invalid CIP-68 voucher metadata URI part for " +:+ quoted key)
  end.
Definition decodeOptionalUri (m : jsmap string pdata) (key : string) : result (option string) :=
  match map_get m key with
  | None => Ok None
  | Some (PBytes value) => Ok (Some (fromHexUtf8 value))
  | Some (PList items) => parts ← mapR (uri_part key) items; Ok (Some (join "" parts))
  | Some _ => throw ("Invalid CIP-68 voucher metadata URI " +:+ quoted key)
  end.

Definition decode_extra (m : jsmap string pdata) : result VoucherExtra :=
  p ← decodeRequiredBytes m "path";
  b ← decodeRequiredBytes m "baseDenom";
  f ← decodeRequiredBytes m "fullDenom";
  t ← decodeRequiredBytes m "voucherTokenName";
  i ← decodeRequiredBytes m "voucherPolicyId";
  h ← decodeRequiredBytes m "ibcDenomHash";
  v ← decodeRequiredInteger m "traceVersion";
  Ok (MkVoucherExtra p b f t i h v).

Definition decode_metadata (metadataMap extraMap : jsmap string pdata) (versionRaw : Z) : result Cip68VoucherMetadata :=
  name ← decodeRequiredBytes metadataMap "name";
  description ← decodeRequiredBytes metadataMap "description";
  ticker ← decodeRequiredBytes metadataMap "ticker";
  decimals ← decodeOptionalInteger metadataMap "decimals";
  url ← decodeOptionalUri metadataMap "url";
  logo ← decodeOptionalUri metadataMap "logo";
  extra ← decode_extra extraMap;
  Ok (MkCip68VoucherMetadata name description ticker decimals url logo (number_of_bigint versionRaw) extra).

Section codec.
Context `{L : Lucid} `{BL : Blake2b} `{SHA : Sha256}.

Definition buildVoucherDenomHashFromFullDenom (fullDenom : string) : string :=
  toLowerCase (hex_encode (blake2b224 (utf8 fullDenom))).
Definition buildIbcDenomHashFromFullDenom (fullDenom : string) : string :=
  toLowerCase (hex_encode (sha256 (utf8 fullDenom))).
Definition buildVoucherUserTokenNameFromFullDenom (fullDenom : string) : result string :=
  buildVoucherUserTokenNameFromDenomHash (buildVoucherDenomHashFromFullDenom fullDenom).
Definition buildVoucherReferenceTokenNameFromFullDenom (fullDenom : string) : result string :=
  buildVoucherReferenceTokenNameFromDenomHash (buildVoucherDenomHashFromFullDenom fullDenom).

Definition encodeVoucherCip68MetadataDatum (m : Cip68VoucherMetadata) : result string :=
  Data_to true (metadata_data m).

Definition decodeVoucherCip68MetadataDatum (encodedDatum : string) : result Cip68VoucherMetadata :=
  decoded ← Data_from encodedDatum;
  fields ← expectMetadataConstr decoded 0;
  metadataMap ← toEntriesMap (fields !! 0%nat);
  extraMap ← toEntriesMap (fields !! 2%nat);
  match fields !! 1%nat with
  | Some (PInt versionRaw) => decode_metadata metadataMap extraMap versionRaw
  | _ => throw "Invalid CIP-68 voucher metadata version"
  end.

Definition decodeVerifiedVoucherCip68MetadataDatum (encodedDatum : string) (params : BuildVoucherMetadataParams)
  : result Cip68VoucherMetadata :=
  let expected := buildVoucherCip68Metadata params in
  expectedEncodedDatum ← encodeVoucherCip68MetadataDatum expected;
  if decide (expectedEncodedDatum <> encodedDatum) then
    throw "Voucher metadata datum does not match the canonical voucher metadata"
  else Ok expected.

End codec.
