(* ===== verification/VoucherTheorems.v ===== *)
(** * Properties of voucher names, denom traces and voucher metadata *)

From S2P Require Import Prelude JsMap JsString Hex MerkleTree Datum PacketHelpers TreeRebuild EscrowShard Voucher EscrowShardTheorems ToyLucid.

(** ** Token names *)

Lemma hex_bytes_solid b : forallb is_solid (b ≫= hex_byte) = true.
Proof.
  induction b as [|x b IH]; [done|]. change ((x :: b) ≫= hex_byte) with (hex_byte x ++ (b ≫= hex_byte)).
  rewrite forallb_app, IH, andb_true_r. by destruct x.
Qed.

Lemma hex_bytes_all_hex b : forallb is_hex_byte (b ≫= hex_byte) = true.
Proof.
  induction b as [|x b IH]; [done|]. change ((x :: b) ≫= hex_byte) with (hex_byte x ++ (b ≫= hex_byte)).
  rewrite forallb_app, IH, andb_true_r. by destruct x.
Qed.

Lemma trim_solid_text s : forallb is_solid (utf8 s) = true -> trim s = s.
Proof. intros H. unfold trim. by rewrite trim_solid, text_utf8. Qed.

Lemma normalize_hash_hex b :
  length b = 28%nat -> normalizeVoucherDenomHash (hex_encode b) = Ok (hex_encode b).
Proof.
  intros Hb. unfold normalizeVoucherDenomHash.
  rewrite trim_solid_text, toLowerCase_hex by (unfold hex_encode; rewrite utf8_text; apply hex_bytes_solid).
  cbv zeta. rewrite decide_True; [done|]. unfold str_length, all_hex, hex_encode. rewrite utf8_text.
  rewrite length_hex_bytes, Hb. split; [done|]. apply hex_bytes_all_hex.
Qed.

Lemma parse_labelled label b :
  length b = 28%nat -> str_length label = 8%nat -> forallb is_hex_byte (utf8 label) = true ->
  forallb is_solid (utf8 label) = true -> toLowerCase label = label ->
  parseVoucherAssetName (label +:+ hex_encode b) =
    (if decide (label = CIP67_FT_LABEL_HEX) then Some (MkParsedVoucherAssetName ft (hex_encode b))
     else if decide (label = CIP67_REFERENCE_NFT_LABEL_HEX)
          then Some (MkParsedVoucherAssetName reference_nft (hex_encode b)) else None).
Proof.
  intros Hb Hl Hx Hs Hlow. unfold str_length in Hl. unfold parseVoucherAssetName.
  rewrite trim_solid_text, toLowerCase_app, Hlow, toLowerCase_hex.
  2:{ rewrite utf8_app, forallb_app, Hs. unfold hex_encode. rewrite utf8_text. apply hex_bytes_solid. }
  cbv zeta. rewrite decide_False.
  2:{ unfold str_length. rewrite utf8_app, length_app, Hl. unfold hex_encode.
      rewrite utf8_text, length_hex_bytes, Hb. auto. }
  assert (is_hex_text (label +:+ hex_encode b) = true) as ->.
  { unfold is_hex_text, all_hex. rewrite andb_true_iff, negb_true_iff, bool_decide_eq_false. split.
    - intros E. apply (f_equal utf8) in E. rewrite utf8_app in E. by destruct (utf8 label).
    - rewrite utf8_app, forallb_app, Hx. unfold hex_encode. rewrite utf8_text. apply hex_bytes_all_hex. }
  cbn [negb]. assert (slice 0 8 (label +:+ hex_encode b) = label) as ->.
  { unfold slice. rewrite utf8_app. rewrite drop_0, take_app_length' by lia. apply text_utf8. }
  assert (slice_from 8 (label +:+ hex_encode b) = hex_encode b) as ->; [|done].
  unfold slice_from. rewrite utf8_app, drop_app_length' by lia. apply text_utf8.
Qed.

Section names.
Context `{BL : Blake2b} `{BOK : !Blake2bOk}.

Lemma denom_hash_hex d : buildVoucherDenomHashFromFullDenom d = hex_encode (blake2b224 (utf8 d)).
Proof. unfold buildVoucherDenomHashFromFullDenom. apply toLowerCase_hex. Qed.

Lemma user_token_name_hex d :
  buildVoucherUserTokenNameFromDenomHash (buildVoucherDenomHashFromFullDenom d) =
  Ok (CIP67_FT_LABEL_HEX +:+ hex_encode (blake2b224 (utf8 d))).
Proof.
  unfold buildVoucherUserTokenNameFromDenomHash. by rewrite denom_hash_hex, normalize_hash_hex by apply blake2b224_length.
Qed.

(** Every denom trace has a user token name and a reference token
    name; both are recognised with their own label and carry the trace's hash, so
    the two are never confused, and two traces with the same user token name have
    the same BLAKE2b digest. *)
Lemma voucher_token_names (d : string) :
  exists user ref,
    buildVoucherUserTokenNameFromFullDenom d = Ok user /\
    buildVoucherReferenceTokenNameFromFullDenom d = Ok ref /\
    parseVoucherAssetName user = Some (MkParsedVoucherAssetName ft (buildVoucherDenomHashFromFullDenom d)) /\
    parseVoucherAssetName ref =
      Some (MkParsedVoucherAssetName reference_nft (buildVoucherDenomHashFromFullDenom d)) /\
    isVoucherUserTokenName ref = false /\ isVoucherReferenceTokenName user = false /\
    (forall d', buildVoucherUserTokenNameFromFullDenom d' = Ok user ->
       blake2b224 (utf8 d') = blake2b224 (utf8 d)).
Proof.
  pose proof (blake2b224_length (utf8 d)) as Hd.
  assert (forall d, buildVoucherUserTokenNameFromFullDenom d =
    Ok (CIP67_FT_LABEL_HEX +:+ hex_encode (blake2b224 (utf8 d)))) as Hu by apply user_token_name_hex.
  assert (parseVoucherAssetName (CIP67_REFERENCE_NFT_LABEL_HEX +:+ hex_encode (blake2b224 (utf8 d))) =
    Some (MkParsedVoucherAssetName reference_nft (hex_encode (blake2b224 (utf8 d))))) as Er
    by (rewrite parse_labelled; done).
  assert (parseVoucherAssetName (CIP67_FT_LABEL_HEX +:+ hex_encode (blake2b224 (utf8 d))) =
    Some (MkParsedVoucherAssetName ft (hex_encode (blake2b224 (utf8 d))))) as Ef
    by (rewrite parse_labelled; done).
  eexists _, _. split; [apply Hu|]. split.
  { unfold buildVoucherReferenceTokenNameFromFullDenom, buildVoucherReferenceTokenNameFromDenomHash.
    by rewrite denom_hash_hex, normalize_hash_hex by done. }
  unfold isVoucherUserTokenName, isVoucherReferenceTokenName.
  rewrite Er, Ef, denom_hash_hex. split_and!; [done..|].
  intros d' H. rewrite Hu in H. apply Ok_inj in H. apply (f_equal utf8) in H. rewrite !utf8_app in H.
  apply app_inv_head, utf8_inj in H. apply (f_equal hex_decode_prefix) in H. by rewrite !hex_decode_encode in H.
Qed.

End names.

(** ** Denom traces *)

Lemma split_go_nonempty c cur l : split_go c cur l <> [].
Proof. revert cur. induction l as [|x l IH]; intros cur; cbn; [done|]. by destruct (decide (x = c)). Qed.

Lemma split_nonempty c s : split c s <> [].
Proof. unfold split. intros E%map_eq_nil. by apply split_go_nonempty in E. Qed.

Lemma join_cons sep x l : l <> [] -> join sep (x :: l) = x +:+ sep +:+ join sep l.
Proof. by destruct l. Qed.

Lemma join_split_go c cur l : join (text [c]) (map text (split_go c cur l)) = text (reverse cur ++ l).
Proof.
  revert cur. induction l as [|x l IH]; intros cur; cbn [split_go]; [by rewrite app_nil_r|].
  destruct (decide (x = c)) as [->|Hne].
  - cbn [map]. rewrite join_cons by (intros E%map_eq_nil; by apply split_go_nonempty in E).
    rewrite IH, <- !text_app. f_equal.
  - rewrite IH. f_equal. by rewrite reverse_cons, <- (assoc_L (++)).
Qed.

Lemma join_split c s : join (text [c]) (split c s) = s.
Proof. unfold split. rewrite join_split_go. apply text_utf8. Qed.

Lemma split_join c l : l <> [] -> Forall (fun s => c ∉ utf8 s) l -> split c (join (text [c]) l) = l.
Proof.
  intros Hl H. induction H as [|s l Hs H IH]; [done|]. destruct l as [|t l]; [by apply split_none|].
  rewrite join_cons, split_app by done. by rewrite IH.
Qed.

Lemma split_segments c s : Forall (fun x => c ∉ utf8 x) (split c s).
Proof.
  unfold split. enough (forall cur l, c ∉ cur -> Forall (fun x => c ∉ utf8 x) (map text (split_go c cur l))) as Hg
    by (apply Hg; apply not_elem_of_nil).
  intros cur l. revert cur. induction l as [|x l IH]; intros cur Hc; cbn [split_go map].
  - constructor; [|done]. rewrite utf8_text. by rewrite elem_of_reverse.
  - destruct (decide (x = c)) as [->|Hne]; cbn [map].
    + constructor; [by rewrite utf8_text, elem_of_reverse|]. apply IH, not_elem_of_nil.
    + apply IH. by apply not_elem_of_cons.
Qed.

Lemma join_app sep a b : a <> [] -> b <> [] -> join sep (a ++ b) = join sep a +:+ sep +:+ join sep b.
Proof.
  intros Ha Hb. induction a as [|x a IH]; [done|]. destruct a as [|y a].
  - cbn [app]. by rewrite join_cons.
  - change ((x :: y :: a) ++ b) with (x :: ((y :: a) ++ b)). rewrite join_cons by done.
    rewrite IH by done. rewrite (join_cons sep x (y :: a)) by done.
    apply utf8_inj. by rewrite !utf8_app, <- !(assoc_L (++)).
Qed.

(** One hop of a trace. *)
Definition valid_hop (hop : string * string) : Prop :=
  (hop.1 <> "") /\ (x2f ∉ utf8 hop.1) /\ (is_channel_segment hop.2 = true) /\ (x2f ∉ utf8 hop.2).

Definition hop_texts (hops : list (string * string)) : list string := hops ≫= (fun h => [h.1; h.2]).

Lemma str_length_pos s : ((0 <? str_length s)%nat = true) <-> (s <> "").
Proof.
  rewrite Nat.ltb_lt. unfold str_length. destruct s as [|c s]; [by split; [cbn; lia|]|].
  rewrite utf8_cons. cbn. split; [done|lia].
Qed.

Lemma hop_segments_split segs :
  Forall (fun s => x2f ∉ utf8 s) segs ->
  exists hops, take (hop_segments segs) segs = hop_texts hops /\ Forall valid_hop hops /\
    hop_segments (drop (hop_segments segs) segs) = 0%nat.
Proof.
  revert segs. fix IH 1. intros [|p [|c rest]] H.
  - by exists [].
  - by exists [].
  - apply Forall_cons in H as [Hp H]. apply Forall_cons in H as [Hc H].
    destruct (looksLikePortId p && is_channel_segment c) eqn:E; cbn [hop_segments]; rewrite E.
    + destruct (IH rest H) as (hops & Ht & Hv & Hz). exists ((p, c) :: hops).
      cbn [take drop]. rewrite Ht. apply andb_true_iff in E as [Ep Ec].
      split_and!; [done| |done]. constructor; [|done]. split_and!; try done.
      by apply str_length_pos.
    + exists []. split_and!; [done|constructor|]. cbn [drop hop_segments]. by rewrite E.
Qed.

Lemma hop_segments_hops hops rest :
  Forall valid_hop hops -> hop_segments (hop_texts hops ++ rest) = (length (hop_texts hops) + hop_segments rest)%nat.
Proof.
  induction 1 as [|[p c] hops (Hp & _ & Hc & _) _ IH]; [done|]. cbn [fst snd] in *.
  change (hop_texts ((p, c) :: hops)) with ([p; c] ++ hop_texts hops). cbn [app hop_segments length].
  assert (looksLikePortId p = true) as -> by by apply str_length_pos. rewrite Hc. cbn [andb].
  by rewrite IH.
Qed.

(** A trace as text. *)
Definition trace_text (t : DenomTraceParts) : string :=
  if decide (path t = "") then baseDenom t else path t +:+ "/" +:+ baseDenom t.

Definition base_ok (base : string) : Prop :=
  hop_segments (split x2f base) = 0%nat /\ Forall (fun s => s <> "") (split x2f base).

Lemma hop_texts_facts hops : Forall valid_hop hops ->
  Forall (fun s => s <> "") (hop_texts hops) /\ Forall (fun s => x2f ∉ utf8 s) (hop_texts hops).
Proof.
  induction 1 as [|[p c] hops (Hp & Hps & Hc & Hcs) _ [IH1 IH2]]; [done|]. cbn [fst snd] in *.
  change (hop_texts ((p, c) :: hops)) with ([p; c] ++ hop_texts hops).
  split; apply Forall_app; (split; [|done]); repeat constructor; try done. by intros ->.
Qed.

Lemma join_hops_empty hops : Forall valid_hop hops -> (join "/" (hop_texts hops) = "" <-> hops = []).
Proof.
  intros H. split; [|by intros ->]. destruct H as [|[p c] hops (Hp & _) H]; [done|].
  change (hop_texts ((p, c) :: hops)) with (p :: (c :: hop_texts hops)). rewrite join_cons by done.
  intros E. exfalso. cbn [fst] in Hp. by destruct p.
Qed.

Lemma trace_text_join hops rest t : Forall valid_hop hops -> rest <> [] ->
  path t = join "/" (hop_texts hops) -> baseDenom t = join "/" rest ->
  trace_text t = join "/" (hop_texts hops ++ rest).
Proof.
  intros Hh Hr Hp Hb. unfold trace_text. rewrite Hp, Hb. case_decide as E.
  - apply join_hops_empty in E as ->; done.
  - rewrite join_app; [done| |done]. intros E'. by rewrite E' in E.
Qed.

Lemma existsb_empty segs :
  existsb (fun segment => (str_length segment =? 0)%nat) segs = false <-> Forall (fun s => s <> "") segs.
Proof.
  rewrite <- not_true_iff_false, existsb_exists, Forall_forall. split.
  - intros H x Hx ->. apply H. exists "". by rewrite <- list_elem_of_In.
  - intros H (x & Hx & E%Nat.eqb_eq). apply list_elem_of_In in Hx. apply (H x Hx).
    apply utf8_inj. by apply nil_length_inv.
Qed.

(** Splitting a trimmed trace returns exactly the decomposition
    into a maximal sequence of port/channel hops and a base denom with no empty
    segment: it succeeds on every such text and only on them, and the parts spell
    the text back. *)
Lemma splitFullDenomTrace_spec (s : string) (t : DenomTraceParts) :
  splitFullDenomTrace s = Ok t <->
  exists hops, Forall valid_hop hops /\ path t = join "/" (hop_texts hops) /\
    base_ok (baseDenom t) /\ trim s = trace_text t.
Proof.
  unfold splitFullDenomTrace. cbv zeta. split.
  - case_decide as Hs; [done|]. destruct (existsb _ _) eqn:Ee; [done|]. apply existsb_empty in Ee.
    destruct (hop_segments_split _ (split_segments x2f (trim s))) as (hops & Ht & Hv & Hz).
    destruct (drop (hop_segments (split x2f (trim s))) (split x2f (trim s))) as [|x r] eqn:Ed; [done|].
    intros H. apply Ok_inj in H as <-. exists hops. cbn [path baseDenom]. rewrite Ht. split_and!; try done.
    + unfold base_ok. change "/" with (text [x2f]). rewrite split_join; [| |].
      * split; [done|]. rewrite <- Ed. by apply Forall_drop.
      * done.
      * rewrite <- Ed. apply Forall_drop, split_segments.
    + erewrite (trace_text_join hops (x :: r)); [|done..]. rewrite <- Ht, <- Ed, take_drop.
      symmetry. apply (join_split x2f).
  - intros (hops & Hv & Hp & [Hz Hne] & Hs). destruct (hop_texts_facts hops Hv) as [Hf1 Hf2].
    assert (trim s = join (text [x2f]) (hop_texts hops ++ split x2f (baseDenom t))) as E.
    { rewrite Hs. apply trace_text_join; [done|apply split_nonempty|done|]. symmetry. apply (join_split x2f). }
    assert (split x2f (trim s) = hop_texts hops ++ split x2f (baseDenom t)) as ->.
    { rewrite E. apply split_join.
      - intros [_ ?]%app_nil. by apply (split_nonempty x2f (baseDenom t)).
      - apply Forall_app. split; [done|]. apply split_segments. }
    assert (Forall (fun s => s <> "") (hop_texts hops ++ split x2f (baseDenom t))) as Hall by by apply Forall_app.
    rewrite decide_False; [|].
    2:{ intros E0. rewrite E0 in E. symmetry in E.
        destruct (hop_texts hops ++ split x2f (baseDenom t)) as [|x l] eqn:El.
        - apply app_nil in El as [_ El]. by apply split_nonempty in El.
        - apply Forall_cons in Hall as [Hx _]. destruct x; [done|]. by destruct l. }
    rewrite (proj2 (existsb_empty _)) by done. rewrite hop_segments_hops, Hz, Nat.add_0_r by done.
    rewrite drop_app_length, take_app_length.
    destruct (split x2f (baseDenom t)) as [|x l] eqn:El; [by apply split_nonempty in El|].
    f_equal. rewrite <- El. destruct t as [p b]. cbn [path baseDenom] in *. rewrite Hp. f_equal. apply (join_split x2f).
Qed.

(** ** Metadata *)

(** Equality of Plutus data up to the order of map entries, which a canonical
    serialiser is free to choose. *)
Inductive same_data : pdata -> pdata -> Prop :=
| same_int z : same_data (PInt z) (PInt z)
| same_bytes h : same_data (PBytes h) (PBytes h)
| same_list xs ys : Forall2 same_data xs ys -> same_data (PList xs) (PList ys)
| same_constr i xs ys : Forall2 same_data xs ys -> same_data (PConstr i xs) (PConstr i ys)
| same_map es fs gs :
    Permutation es fs -> Forall2 (fun a b => same_data a.1 b.1 /\ same_data a.2 b.2) fs gs ->
    same_data (PMap es) (PMap gs).

(** Entries with text keys and leaf values. *)
Definition flat_entry (e : string * pdata) : pdata * pdata := (toDataKey e.1, e.2).
Definition is_leaf (d : pdata) : Prop := match d with PInt _ | PBytes _ => True | _ => False end.
Definition wf_text (s : string) : Prop := utf8_decode (utf8 s) = s.

Lemma same_leaf d d' : is_leaf d -> same_data d d' -> d' = d.
Proof. intros Hl H. by inversion H; subst. Qed.

Lemma flat_same es es' : Forall (fun e => is_leaf e.2) es ->
  Forall2 (fun a b => same_data a.1 b.1 /\ same_data a.2 b.2) (flat_entry <$> es) es' -> es' = flat_entry <$> es.
Proof.
  revert es'. induction es as [|e es IH]; intros es' Hl H; inversion H as [|x [k v] ? ys [H1 H2] H3]; subst; [done|].
  apply Forall_cons in Hl as [He Hl]. cbn [fst snd] in *. apply same_leaf in H1 as ->; [|done].
  apply same_leaf in H2 as ->; [|done]. cbn. f_equal. by apply IH.
Qed.

Lemma fromHexUtf8_key s : wf_text s -> fromHexUtf8 (hex_encode (utf8 s)) = s.
Proof. unfold fromHexUtf8. by rewrite hex_decode_encode. Qed.

Lemma foldR_add_entry es acc :
  Forall (fun e => wf_text e.1) es ->
  foldR add_entry acc (flat_entry <$> es) = Ok (fold_left (fun m kv => map_set m kv.1 kv.2) es acc).
Proof.
  revert acc. induction es as [|e es IH]; intros acc H; [done|]. apply Forall_cons in H as [He H].
  assert (add_entry acc (flat_entry e) = Ok (map_set acc e.1 e.2)) as E.
  { unfold add_entry, flat_entry, toDataKey. cbn [fst snd]. by rewrite fromHexUtf8_key. }
  cbn [fmap list_fmap foldR fold_left]. rewrite E. by apply IH.
Qed.

Lemma map_get_Permutation (es es' : jsmap string pdata) k :
  NoDup es.*1 -> Permutation es es' -> map_get es' k = map_get es k.
Proof.
  intros Hnd Hp. assert (NoDup es'.*1) as Hnd' by by rewrite <- Hp.
  destruct (map_get es k) as [v|] eqn:E.
  - apply map_In_get; [done|]. rewrite <- Hp. by apply map_get_In.
  - apply map_get_None. apply map_get_None in E. unfold map_keys in *. by rewrite <- Hp.
Qed.

(** Whatever order the entries come back in, every lookup finds its value. *)
Lemma toEntriesMap_flat es d :
  NoDup es.*1 -> Forall (fun e => wf_text e.1 /\ is_leaf e.2) es -> same_data (PMap (flat_entry <$> es)) d ->
  exists m, toEntriesMap (Some d) = Ok m /\ forall k, map_get m k = map_get es k.
Proof.
  intros Hnd Hf H. inversion H as [| | | |? fs gs Hp H2]; subst.
  symmetry in Hp. apply Permutation_map_inv in Hp as (es' & -> & Hp).
  assert (Forall (fun e => wf_text e.1 /\ is_leaf e.2) es') as Hf' by by rewrite <- Hp.
  apply flat_same in H2 as ->; [|eapply Forall_impl; [exact Hf'|]; by intros ? []].
  cbn [toEntriesMap]. rewrite foldR_add_entry by (eapply Forall_impl; [exact Hf'|]; by intros ? []).
  eexists. split; [done|]. intros k. change (fold_left _ _ _) with (map_of_entries es').
  rewrite map_of_entries_wf_id; [by apply map_get_Permutation|]. unfold map_wf, map_keys. by rewrite <- Hp.
Qed.

Definition metadata_entries (m : Cip68VoucherMetadata) : list (string * pdata) :=
  [("name", toDataBytes (vm_name m)); ("description", toDataBytes (vm_description m));
   ("ticker", toDataBytes (vm_ticker m))] ++
  match vm_decimals m with Some z => [("decimals", PInt z)] | None => [] end ++
  match vm_url m with Some v => [("url", toDataBytes v)] | None => [] end ++
  match vm_logo m with Some v => [("logo", toDataBytes v)] | None => [] end.

Definition extra_entries (x : VoucherExtra) : list (string * pdata) :=
  [("path", toDataBytes (vx_path x)); ("baseDenom", toDataBytes (vx_baseDenom x));
   ("fullDenom", toDataBytes (vx_fullDenom x)); ("voucherTokenName", toDataBytes (vx_voucherTokenName x));
   ("voucherPolicyId", toDataBytes (vx_voucherPolicyId x)); ("ibcDenomHash", toDataBytes (vx_ibcDenomHash x));
   ("traceVersion", PInt (vx_traceVersion x))].

(** Metadata the encoder represents in full: well-formed texts, no optional text
    that is present but empty, integers a JavaScript number holds exactly. *)
Record metadata_ok (m : Cip68VoucherMetadata) : Prop := {
  mo_texts : Forall wf_text [vm_name m; vm_description m; vm_ticker m; vx_path (vm_extra m);
    vx_baseDenom (vm_extra m); vx_fullDenom (vm_extra m); vx_voucherTokenName (vm_extra m);
    vx_voucherPolicyId (vm_extra m); vx_ibcDenomHash (vm_extra m)];
  mo_ticker : vm_ticker m <> "";
  mo_url v : vm_url m = Some v -> v <> "" /\ wf_text v;
  mo_logo v : vm_logo m = Some v -> v <> "" /\ wf_text v;
  mo_version : number_of_bigint (vm_version m) = vm_version m;
  mo_trace : number_of_bigint (vx_traceVersion (vm_extra m)) = vx_traceVersion (vm_extra m);
  mo_decimals z : vm_decimals m = Some z -> number_of_bigint z = z;
}.

Lemma metadata_map_flat m : metadata_ok m -> metadata_map m = flat_entry <$> metadata_entries m.
Proof.
  intros [_ Ht Hu Hl _ _ _]. unfold metadata_map, metadata_entries, text_entry. rewrite decide_False by done.
  destruct (vm_decimals m), (vm_url m) as [u|], (vm_logo m) as [l|];
    repeat match goal with
    | H : forall v, Some ?u = Some v -> _ |- _ => destruct (H u eq_refl) as [? ?]; clear H
    end; by rewrite ?decide_False.
Qed.

Lemma metadata_entries_ok m :
  NoDup (metadata_entries m).*1 /\ Forall (fun e => wf_text e.1 /\ is_leaf e.2) (metadata_entries m).
Proof.
  unfold metadata_entries. split.
  - destruct (vm_decimals m), (vm_url m), (vm_logo m); cbn; apply (bool_decide_unpack _); by vm_compute.
  - destruct (vm_decimals m), (vm_url m), (vm_logo m); repeat constructor.
Qed.

(** Evaluate a lookup with literal keys. *)
Ltac eval_get :=
  cbn [map_get app fst snd]; repeat first [rewrite decide_True by done | rewrite decide_False by done].

Lemma metadata_get m :
  map_get (metadata_entries m) "name" = Some (toDataBytes (vm_name m)) /\
  map_get (metadata_entries m) "description" = Some (toDataBytes (vm_description m)) /\
  map_get (metadata_entries m) "ticker" = Some (toDataBytes (vm_ticker m)) /\
  map_get (metadata_entries m) "decimals" = PInt <$> vm_decimals m /\
  map_get (metadata_entries m) "url" = toDataBytes <$> vm_url m /\
  map_get (metadata_entries m) "logo" = toDataBytes <$> vm_logo m.
Proof.
  unfold metadata_entries. split_and!; destruct (vm_decimals m), (vm_url m), (vm_logo m); by eval_get.
Qed.

Lemma decode_extra_ok x xm :
  Forall wf_text [vx_path x; vx_baseDenom x; vx_fullDenom x; vx_voucherTokenName x; vx_voucherPolicyId x;
                  vx_ibcDenomHash x] ->
  number_of_bigint (vx_traceVersion x) = vx_traceVersion x ->
  (forall k, map_get xm k = map_get (extra_entries x) k) -> decode_extra xm = Ok x.
Proof.
  intros Ht Hx Gx. repeat (apply Forall_cons in Ht as [? Ht]).
  unfold decode_extra, decodeRequiredBytes, decodeRequiredInteger. rewrite !Gx. unfold extra_entries, toDataBytes.
  eval_get. cbn [mbind result_bind]. rewrite !fromHexUtf8_key, Hx by done. by destruct x.
Qed.

Section roundtrip.
Context `{L : Lucid}.

(** Whenever Lucid's decoder returns the data that was encoded, up
    to the order of map entries, decoding a metadata datum returns the metadata it
    was built from: all nine texts, the optional fields and both version numbers. *)
Lemma voucher_metadata_roundtrip (m : Cip68VoucherMetadata) (h : string) (d : pdata) :
  metadata_ok m ->
  encodeVoucherCip68MetadataDatum m = Ok h -> Data_from h = Ok d -> same_data (metadata_data m) d ->
  decodeVoucherCip68MetadataDatum h = Ok m.
Proof.
  intros Hm _ Hd Hs. unfold decodeVoucherCip68MetadataDatum. rewrite Hd. unfold metadata_data in Hs.
  inversion Hs as [| | |? ? ys Hf|]; subst. inversion Hf as [|? d1 ? ? H1 Hf1]; subst.
  inversion Hf1 as [|? d2 ? ? H2 Hf2]; subst. inversion Hf2 as [|? d3 ? ? H3 Hf3]; subst.
  inversion Hf3; subst. inversion H2; subst. cbn [mbind result_bind expectMetadataConstr Z.eqb lookup list_lookup].
  rewrite metadata_map_flat in H1 by done.
  destruct (metadata_entries_ok m) as [Hnd Hall].
  destruct (toEntriesMap_flat _ _ Hnd Hall H1) as (mm & -> & Gm).
  change (extra_map (vm_extra m)) with (flat_entry <$> extra_entries (vm_extra m)) in H3.
  destruct (toEntriesMap_flat (extra_entries (vm_extra m)) d3) as (xm & -> & Gx); [| |done|].
  { apply (bool_decide_unpack _). by vm_compute. }
  { repeat constructor. }
  cbn [mbind result_bind]. destruct Hm as [Ht _ Hu Hl Hv Hx Hdec]. destruct (metadata_get m) as (E1 & E2 & E3 & E4 & E5 & E6).
  repeat (apply Forall_cons in Ht as [? Ht]).
  unfold decode_metadata, decodeRequiredBytes, decodeOptionalInteger, decodeOptionalUri.
  rewrite !Gm, E1, E2, E3, E4, E5, E6, (decode_extra_ok (vm_extra m)) by (done || by repeat constructor).
  unfold toDataBytes. destruct (vm_decimals m) as [z|] eqn:D1, (vm_url m) as [u|] eqn:D2, (vm_logo m) as [l|] eqn:D3;
    cbn [fmap option_fmap option_map mbind result_bind];
    rewrite Hv, !fromHexUtf8_key by (first [done | by apply Hu | by apply Hl]);
    try rewrite (Hdec z eq_refl); clear -D1 D2 D3; destruct m as [n1 n2 n3 n4 n5 n6 n7 n8];
    cbn [vm_name vm_description vm_ticker vm_decimals vm_url vm_logo vm_version vm_extra] in *; by subst.
Qed.

End roundtrip.

Definition toy_metadata : Cip68VoucherMetadata :=
  MkCip68VoucherMetadata "uosmo" "IBC voucher for transfer/channel-0/uosmo" "uosmo" (Some 6%Z) (Some "https://osmosis.zone") None 1
    (MkVoucherExtra "transfer/channel-0" "uosmo" "transfer/channel-0/uosmo" "0014df10aa" "bb" "cc" 1).

