(* ===== verification/Redeemers.v ===== *)
(** * Redeemers

    The redeemers a packet transaction carries and their schema translation into
    Plutus data: ICS-23 proofs ([isc-23/merkle.ts], [schema-fragments.ts]), the
    channel spend redeemer ([channel-redeemer.ts]), the proof-verification
    redeemer ([verify-proof-redeemer.ts]), the HostState redeemer (the
    [host_state_redeemer] case of [lucid.service.ts]), the module callbacks
    ([ibc_module_redeemer.ts]) and the voucher redeemer
    ([mint-voucher-redeemer.ts]).

    An enum variant with a record or a tuple argument becomes a constructor whose
    fields are the record's or the tuple's; a literal becomes a constructor
    without fields. *)

From S2P Require Import Prelude JsMap Hex Datum StateRoot PacketHelpers.

(** ** ICS-23 proofs *)

Record InnerOp := MkInnerOp { io_hash : Z; io_prefix : string; io_suffix : string }.
Record LeafOp := MkLeafOp {
  lo_hash : Z; lo_prehash_key : Z; lo_prehash_value : Z; lo_length : Z; lo_prefix : string
}.
Record ExistenceProof := MkExistenceProof {
  xp_key : string; xp_value : string; xp_leaf : LeafOp; xp_path : list InnerOp
}.
Record NonExistenceProof := MkNonExistenceProof {
  nxp_key : string; nxp_left : ExistenceProof; nxp_right : ExistenceProof
}.
Inductive CommitmentProof_Proof :=
| CommitmentProof_Exist (exist : ExistenceProof)
| CommitmentProof_Nonexist (non_exist : NonExistenceProof)
| CommitmentProof_Batch
| CommitmentProof_Compressed.
(** A commitment proof without any variant becomes [undefined] in the array. *)
Record MerkleProof := MkMerkleProof { proofs : list (option CommitmentProof_Proof) }.
Record MerklePath := MkMerklePath { key_path : list string }.

Definition leaf_op_data (o : LeafOp) : pdata :=
  p_object [PInt (lo_hash o); PInt (lo_prehash_key o); PInt (lo_prehash_value o); PInt (lo_length o);
            PBytes (lo_prefix o)].
Definition inner_op_data (o : InnerOp) : pdata :=
  p_object [PInt (io_hash o); PBytes (io_prefix o); PBytes (io_suffix o)].
Definition existence_data (p : ExistenceProof) : pdata :=
  p_object [PBytes (xp_key p); PBytes (xp_value p); leaf_op_data (xp_leaf p);
            PList (inner_op_data <$> xp_path p)].
Definition non_existence_data (p : NonExistenceProof) : pdata :=
  p_object [PBytes (nxp_key p); existence_data (nxp_left p); existence_data (nxp_right p)].
Definition commitment_proof_data (p : CommitmentProof_Proof) : pdata :=
  match p with
  | CommitmentProof_Exist e => PConstr 0 [existence_data e]
  | CommitmentProof_Nonexist n => PConstr 1 [non_existence_data n]
  | CommitmentProof_Batch => p_enum 2
  | CommitmentProof_Compressed => p_enum 3
  end.
Definition merkle_proof_data (p : MerkleProof) : pdata :=
  p_object [PList ((fun c => match c with Some c => p_object [commitment_proof_data c] | None => PUndefined end) <$> proofs p)].
Definition merkle_path_data (p : MerklePath) : pdata := p_object [PList (PBytes <$> key_path p)].
Definition packet_data (p : Packet) : pdata :=
  p_object [PInt (sequence p); PBytes (source_port p); PBytes (source_channel p); PBytes (destination_port p);
            PBytes (destination_channel p); PBytes (data p); height_data (timeout_height p);
            PInt (timeout_timestamp p)].

(** ** Channel *)

Inductive SpendChannelRedeemer :=
| ChanOpenAck (counterparty_version : string) (proof_try : MerkleProof) (proof_height : Height)
| ChanOpenConfirm (proof_ack : MerkleProof) (proof_height : Height)
| RecvPacket (packet : Packet) (proof_commitment : MerkleProof) (proof_height : Height)
| TimeoutPacket (packet : Packet) (proof_unreceived : MerkleProof) (proof_height : Height) (next_sequence_recv : Z)
| AcknowledgePacket (packet : Packet) (acknowledgement : string) (proof_acked : MerkleProof) (proof_height : Height)
| SendPacket (packet : Packet)
| ChanCloseInit
| ChanCloseConfirm (proof_init : MerkleProof) (proof_height : Height)
| PrunePacketHistory (sequence : Z) (proof_commitment_absence : MerkleProof) (proof_height : Height).

Definition spend_channel_data (r : SpendChannelRedeemer) : pdata :=
  match r with
  | ChanOpenAck v p h => PConstr 0 [PBytes v; merkle_proof_data p; height_data h]
  | ChanOpenConfirm p h => PConstr 1 [merkle_proof_data p; height_data h]
  | RecvPacket k p h => PConstr 2 [packet_data k; merkle_proof_data p; height_data h]
  | TimeoutPacket k p h n => PConstr 3 [packet_data k; merkle_proof_data p; height_data h; PInt n]
  | AcknowledgePacket k a p h => PConstr 4 [packet_data k; PBytes a; merkle_proof_data p; height_data h]
  | SendPacket k => PConstr 5 [packet_data k]
  | ChanCloseInit => p_enum 6
  | ChanCloseConfirm p h => PConstr 7 [merkle_proof_data p; height_data h]
  | PrunePacketHistory n p h => PConstr 8 [PInt n; merkle_proof_data p; height_data h]
  end.

(** ** Proof verification *)

Record VerifyParams := MkVerifyParams {
  vp_cs : ClientState;
  vp_cons_state : ConsensusState;
  vp_height : Height;
  vp_processed_time : Z;
  vp_processed_height : Z;
  vp_delay_time_period : Z;
  vp_delay_block_period : Z;
  vp_proof : MerkleProof;
  vp_path : MerklePath;
}.

Inductive VerifyProofRedeemer :=
| VerifyMembership (params : VerifyParams) (value : string)
| VerifyNonMembership (params : VerifyParams)
| BatchVerifyMembership (params : list (VerifyParams * string))
| VerifyOther.

Definition verify_params_data (v : VerifyParams) : list pdata :=
  [client_state_data (vp_cs v); consensus_state_data (vp_cons_state v); height_data (vp_height v);
   PInt (vp_processed_time v); PInt (vp_processed_height v); PInt (vp_delay_time_period v);
   PInt (vp_delay_block_period v); merkle_proof_data (vp_proof v); merkle_path_data (vp_path v)].

Definition verify_proof_data (r : VerifyProofRedeemer) : pdata :=
  match r with
  | VerifyMembership v value => PConstr 0 (verify_params_data v ++ [PBytes value])
  | VerifyNonMembership v => PConstr 1 (verify_params_data v)
  | BatchVerifyMembership l =>
      PConstr 2 [PList ((fun '(v, value) => p_object (verify_params_data v ++ [PBytes value])) <$> l)]
  | VerifyOther => p_enum 3
  end.

(** ** HostState *)

Inductive HostStateRedeemer :=
| CreateClient (w : CreateClientW)
| CreateConnection (connection_siblings : list string)
| CreateChannel (w : CreateChannelW)
| BindPort (port_id : string) (registration : ModuleRegistration) (port_siblings : list string)
| UpdateClient (w : UpdateClientW)
| UpdateConnection (connection_siblings : list string)
| UpdateChannel (channel_siblings : list string)
| HandlePacket (w : HandlePacketW)
| EnterShutdown (grace_period_end : Z)
| FinalizeShutdown
| Heartbeat.

Definition siblings_data (l : list string) : pdata := PList (PBytes <$> l).

Definition host_state_redeemer_data (r : HostStateRedeemer) : pdata :=
  match r with
  | CreateClient w =>
      PConstr 0 [siblings_data (cc_clientStateSiblings w); siblings_data (cc_consensusStateSiblings w)]
  | CreateConnection s => PConstr 1 [siblings_data s]
  | CreateChannel w =>
      PConstr 2 [siblings_data (cw_channelSiblings w); siblings_data (cw_nextSequenceSendSiblings w);
                 siblings_data (cw_nextSequenceRecvSiblings w); siblings_data (cw_nextSequenceAckSiblings w)]
  | BindPort p r s => PConstr 3 [PBytes p; module_registration_data r; siblings_data s]
  | UpdateClient w =>
      PConstr 4 [siblings_data (uc_clientStateSiblings w); siblings_data (uc_consensusStateSiblings w);
                 PList (siblings_data <$> uc_removedConsensusStateSiblings w)]
  | UpdateConnection s => PConstr 5 [siblings_data s]
  | UpdateChannel s => PConstr 6 [siblings_data s]
  | HandlePacket w =>
      PConstr 7 [siblings_data (hp_channelSiblings w); siblings_data (hp_nextSequenceSendSiblings w);
                 siblings_data (hp_nextSequenceRecvSiblings w); siblings_data (hp_nextSequenceAckSiblings w);
                 siblings_data (hp_packetCommitmentSiblings w); siblings_data (hp_packetReceiptSiblings w);
                 siblings_data (hp_packetAcknowledgementSiblings w)]
  | EnterShutdown g => PConstr 8 [PInt g]
  | FinalizeShutdown => p_enum 9
  | Heartbeat => p_enum 10
  end.

(** ** Modules *)

Record FungibleTokenPacketDatum := MkFungibleTokenPacketDatum {
  ft_denom : string; ft_amount : string; ft_sender : string; ft_receiver : string; ft_memo : string
}.
Definition fungible_data (d : FungibleTokenPacketDatum) : pdata :=
  p_object [PBytes (ft_denom d); PBytes (ft_amount d); PBytes (ft_sender d); PBytes (ft_receiver d);
            PBytes (ft_memo d)].

Definition acknowledgement_data (r : AcknowledgementResponse) : pdata :=
  p_object [match r with
            | AcknowledgementResult result => PConstr 0 [PBytes result]
            | AcknowledgementError err => PConstr 1 [PBytes err]
            end].

Inductive TransferModuleRedeemer :=
| Transfer (channel_id : string) (data : FungibleTokenPacketDatum)
| OtherTransferOp.
Definition transfer_op_data (r : TransferModuleRedeemer) : pdata :=
  match r with Transfer c d => PConstr 0 [PBytes c; fungible_data d] | OtherTransferOp => p_enum 1 end.

Inductive IBCModulePacketData (A : Type) := ModuleDataV1 (d : A) | OtherModuleData.
Arguments ModuleDataV1 {_} _.
Arguments OtherModuleData {_}.
Inductive IBCModuleOperator (B : Type) := ModuleOperatorV1 (op : B) | OtherModuleOperator.
Arguments ModuleOperatorV1 {_} _.
Arguments OtherModuleOperator {_}.

Inductive IBCModuleCallback (A : Type) :=
| OnChanOpenInit (channel_id : string)
| OnChanOpenTry (channel_id : string)
| OnChanOpenAck (channel_id : string)
| OnChanOpenConfirm (channel_id : string)
| OnRecvPacket (channel_id packet_data : string) (acknowledgement : AcknowledgementResponse) (d : IBCModulePacketData A)
| OnTimeoutPacket (channel_id packet_data : string) (d : IBCModulePacketData A)
| OnAcknowledgementPacket (channel_id packet_data : string) (acknowledgement : AcknowledgementResponse)
    (d : IBCModulePacketData A)
| OnChanCloseInit (channel_id : string)
| OnChanCloseConfirm (channel_id : string)
| OnSendPacket (channel_id packet_data packet_commitment : string) (d : IBCModulePacketData A).
Arguments OnChanOpenInit {_} _.
Arguments OnChanOpenTry {_} _.
Arguments OnChanOpenAck {_} _.
Arguments OnChanOpenConfirm {_} _.
Arguments OnRecvPacket {_} _ _ _ _.
Arguments OnTimeoutPacket {_} _ _ _.
Arguments OnAcknowledgementPacket {_} _ _ _ _.
Arguments OnChanCloseInit {_} _.
Arguments OnChanCloseConfirm {_} _.
Arguments OnSendPacket {_} _ _ _ _.

Inductive IBCModuleRedeemer (A B : Type) :=
| Callback (c : IBCModuleCallback A)
| Operator (o : IBCModuleOperator B).
Arguments Callback {_ _} _.
Arguments Operator {_ _} _.

Section module_data.
Context {A B : Type} (fa : A -> pdata) (fb : B -> pdata).

Definition module_packet_data (d : IBCModulePacketData A) : pdata :=
  match d with ModuleDataV1 x => PConstr 0 [fa x] | OtherModuleData => p_enum 1 end.

(** The schema lists the close callbacks before the packet callbacks. *)
Definition module_callback_data (c : IBCModuleCallback A) : pdata :=
  match c with
  | OnChanOpenInit i => PConstr 0 [PBytes i]
  | OnChanOpenTry i => PConstr 1 [PBytes i]
  | OnChanOpenAck i => PConstr 2 [PBytes i]
  | OnChanOpenConfirm i => PConstr 3 [PBytes i]
  | OnChanCloseInit i => PConstr 4 [PBytes i]
  | OnChanCloseConfirm i => PConstr 5 [PBytes i]
  | OnRecvPacket i p a d => PConstr 6 [PBytes i; PBytes p; acknowledgement_data a; module_packet_data d]
  | OnTimeoutPacket i p d => PConstr 7 [PBytes i; PBytes p; module_packet_data d]
  | OnAcknowledgementPacket i p a d => PConstr 8 [PBytes i; PBytes p; acknowledgement_data a; module_packet_data d]
  | OnSendPacket i p k d => PConstr 9 [PBytes i; PBytes p; PBytes k; module_packet_data d]
  end.

Definition module_redeemer_data (r : IBCModuleRedeemer A B) : pdata :=
  match r with
  | Callback c => PConstr 0 [module_callback_data c]
  | Operator o => PConstr 1 [match o with ModuleOperatorV1 x => PConstr 0 [fb x] | OtherModuleOperator => p_enum 1 end]
  end.
End module_data.

Inductive MintVoucherRedeemer :=
| MintVoucher (packet_source_port packet_source_channel packet_dest_port packet_dest_channel : string)
    (d : FungibleTokenPacketDatum)
| BurnVoucher (packet_source_port packet_source_channel : string) (d : FungibleTokenPacketDatum)
| RefundVoucher (packet_source_port packet_source_channel : string) (d : FungibleTokenPacketDatum)
    (acknowledgement : option AcknowledgementResponse).

Definition mint_voucher_data (r : MintVoucherRedeemer) : pdata :=
  match r with
  | MintVoucher sp sc dp dc d => PConstr 0 [PBytes sp; PBytes sc; PBytes dp; PBytes dc; fungible_data d]
  | BurnVoucher sp sc d => PConstr 1 [PBytes sp; PBytes sc; fungible_data d]
  | RefundVoucher sp sc d ack =>
      PConstr 2 [PBytes sp; PBytes sc; fungible_data d;
                 match ack with Some a => PConstr 0 [acknowledgement_data a] | None => PConstr 1 [] end]
  end.

(** ** Encoders.  [lucidService.encode] rewraps every exception; the proof
    redeemer is encoded directly. *)

Section encode.
Context `{L : Lucid}.

Definition encode_type {A} (type : string) (r : result A) : result A :=
  match r with
  | Ok a => Ok a
  | Err e => Err (GrpcInternal ("An unexpected error occurred when trying to encode " +:+ type +:+ ": " +:+
                                error_to_string e))
  end.

Definition encode_host_state (d : HostStateDatum) : result string :=
  encode_type "host_state" (encodeHostStateDatum d).
Definition encode_host_state_redeemer (r : HostStateRedeemer) : result string :=
  encode_type "host_state_redeemer" (Data_to true (host_state_redeemer_data r)).
Definition encode_channel (d : ChannelDatum) : result string := encode_type "channel" (Ok (encodeChannelDatum d)).
Definition encodeSpendChannelRedeemer (r : SpendChannelRedeemer) : result string :=
  Data_to true (spend_channel_data r).
Definition encode_spendChannelRedeemer (r : SpendChannelRedeemer) : result string :=
  encode_type "spendChannelRedeemer" (encodeSpendChannelRedeemer r).
Definition encode_iBCModuleRedeemer (r : IBCModuleRedeemer pdata pdata) : result string :=
  encode_type "iBCModuleRedeemer" (Data_to true (module_redeemer_data id id r)).
Definition encode_transferIBCModuleRedeemer
    (r : IBCModuleRedeemer FungibleTokenPacketDatum TransferModuleRedeemer) : result string :=
  encode_type "transferIBCModuleRedeemer" (Data_to true (module_redeemer_data fungible_data transfer_op_data r)).
Definition encode_mintVoucherRedeemer (r : MintVoucherRedeemer) : result string :=
  encode_type "mintVoucherRedeemer" (Data_to true (mint_voucher_data r)).
Definition encodeVerifyProofRedeemer (r : VerifyProofRedeemer) : result string := Data_to true (verify_proof_data r).

End encode.
