(* ===== verification/ProofMessages.v ===== *)
(** * Proofs as messages

    [ics23-proof-serialization.ts] wraps a tree proof in the protobuf [MerkleProof] that
    queries return; [merkle-proof.ts] turns a received [MerkleProof] into the hex form
    of the redeemers; [decodeMerkleProof] of [tx/helper/helper.ts] reads the bytes. *)

From Stdlib Require Import ZArith Lia.
From S2P Require Import Prelude JsMap JsString Varint Binary ProtoCodec ProtoMessages ProtoLaws Hex MerkleTree MerkleSpec MerkleRefine OnChainCommitment ToyHash MerkleTheorems Redeemers.

#[local] Open Scope Z_scope.

Definition HashOp_SHA256 : Z := 1.

(** ** Serializing a tree proof *)

Definition serialized_path (path : list ICS23InnerOp) : list PInnerOp :=
  (fun innerOp => MkPInnerOp HashOp_SHA256 (op_prefix innerOp) (op_suffix innerOp)) <$> path.

Definition serializeExistenceProofInner (proof : ICS23ExistenceProof) : PExistenceProof :=
  MkPExistenceProof (ep_key proof) (ep_value proof) None (serialized_path (ep_path proof)).

Definition serializeExistenceProof (proof : ICS23ExistenceProof) : bytes :=
  encodeMessage (MkPMerkleProof [MkPCommitmentProof
    (Some (MkPExistenceProof (ep_key proof) (ep_value proof) None (serialized_path (ep_path proof)))) None None None]).

Definition serializeNonExistenceProof (proof : ICS23NonExistenceProof) : bytes :=
  encodeMessage (MkPMerkleProof [MkPCommitmentProof None
    (Some (MkPNonExistenceProof (np_key proof) (serializeExistenceProofInner <$> np_left proof)
             (serializeExistenceProofInner <$> np_right proof))) None None]).

(** ** Reading a received proof *)

Definition decodeMerkleProof (value : bytes) : result PMerkleProof :=
  match decodeMessage value with
  | Ok m => Ok m
  | Err e => Err (GrpcInvalidArgument ("Error decoding merkle proof: " +:+ error_to_string e))
  end.

(** An absent leaf operation becomes zeros; an absent proof becomes an empty one. *)
Definition initialized_leaf (leaf : option PLeafOp) : LeafOp :=
  match leaf with
  | Some l => MkLeafOp (pl_hash l) (pl_prehash_key l) (pl_prehash_value l) (pl_length l) (toHex (pl_prefix l))
  | None => MkLeafOp 0 0 0 0 ""
  end.

Definition initializeExistenceProof (msg : option PExistenceProof) : ExistenceProof :=
  match msg with
  | Some m =>
      MkExistenceProof (toHex (pe_key m)) (toHex (pe_value m)) (initialized_leaf (pe_leaf m))
        ((fun innerOp => MkInnerOp (pi_hash innerOp) (toHex (pi_prefix innerOp)) (toHex (pi_suffix innerOp))) <$> pe_path m)
  | None => MkExistenceProof "" "" (initialized_leaf None) []
  end.

Definition initializeNonExistProof (m : PNonExistenceProof) : NonExistenceProof :=
  MkNonExistenceProof (toHex (pn_key m)) (initializeExistenceProof (pn_left m)) (initializeExistenceProof (pn_right m)).

Definition initialize_commitment (c : PCommitmentProof) : option CommitmentProof_Proof :=
  match pm_exist c, pm_nonexist c, pm_batch c, pm_compressed c with
  | Some e, _, _, _ => Some (CommitmentProof_Exist (initializeExistenceProof (Some e)))
  | None, Some n, _, _ => Some (CommitmentProof_Nonexist (initializeNonExistProof n))
  | None, None, Some _, _ => Some CommitmentProof_Batch
  | None, None, None, Some _ => Some CommitmentProof_Compressed
  | None, None, None, None => None
  end.

Definition initializeMerkleProof (m : PMerkleProof) : MerkleProof := MkMerkleProof (initialize_commitment <$> pm_proofs m).

(** ** Properties of proof messages

    A proof of the commitment tree survives the wire: what a query serializes decodes
    to a proof that the tree's own verifier accepts. *)

#[local] Open Scope Z_scope.

(** ** Sizes of wire images *)

Definition size (b : bytes) : Z := Z.of_nat (length b).

Lemma size_app a b : size (a ++ b) = size a + size b.
Proof. unfold size. rewrite length_app. lia. Qed.
Lemma size_nil : size [] = 0.
Proof. done. Qed.

Lemma size_leb128 f n : size (leb128 f n) <= Z.of_nat f.
Proof.
  unfold size. revert n. induction f as [|f IH]; intros n; cbn [leb128]; [cbn; lia|].
  destruct (_ <? _); cbn [length]; [lia|]. specialize (IH (n / 128)). lia.
Qed.
Lemma size_varint n : size (varint n) <= 10.
Proof. apply (size_leb128 10). Qed.

Lemma size_int tag v : size (wire_int tag v) <= 20.
Proof.
  unfold wire_int. case_decide; [rewrite size_nil; lia|]. rewrite size_app. pose proof (size_varint tag). pose proof (size_varint (u64 v)). lia.
Qed.
Lemma size_delimited tag b : size (wire_delimited tag b) <= 20 + size b.
Proof.
  unfold wire_delimited. rewrite !size_app. pose proof (size_varint tag). pose proof (size_varint (Z.of_nat (length b))). lia.
Qed.
Lemma size_bytes tag b : size (wire_bytes tag b) <= 20 + size b.
Proof. unfold wire_bytes. case_decide; [rewrite size_nil; unfold size; lia|apply size_delimited]. Qed.
Lemma size_opt {A} (f : Z -> A -> bytes) tag v n : 0 <= n -> from_option (fun x => size (f tag x) <= n) True v ->
  size (wire_opt f tag v) <= n.
Proof. intros Hn. destruct v; [done|]. intros _. exact Hn. Qed.
Lemma size_repeated {A} (f : Z -> A -> bytes) tag l n : Forall (fun x => size (f tag x) <= n) l ->
  size (wire_repeated f tag l) <= n * Z.of_nat (length l).
Proof.
  unfold wire_repeated. induction 1 as [|x l Hx _ IH]; [cbn [mbind list_bind length]; rewrite size_nil; lia|]. cbn [mbind list_bind length]. rewrite size_app. lia.
Qed.

(** ** What the receiver holds *)

Definition received_proof (e : PExistenceProof) : ICS23ExistenceProof :=
  MerkleTree.ExistenceProof (pe_key e) (pe_value e) default_leaf_op
    ((fun o => MerkleTree.InnerOp (pi_hash o) (pi_prefix o) (pi_suffix o)) <$> pe_path e).

Section served.
Context `{SHA : Sha256}.

Lemma path_of_ops i sibs : Forall (fun s => length s = 32%nat) sibs ->
  Forall (fun op => op_hash op = 1 /\ size (op_prefix op) + size (op_suffix op) = 33) (path_of i sibs).
Proof.
  intros Hs. revert i. induction Hs as [|s sibs Hs _ IH]; intros i; cbn [path_of]; constructor; [|apply IH].
  unfold size. destruct (N.land i 1 =? 0)%N; cbn [op_hash op_prefix op_suffix length app]; rewrite Hs; done.
Qed.

Lemma received_serialized key v sibs : Forall (fun s => length s = 32%nat) sibs ->
  received_proof (serializeExistenceProofInner (path_proof key v sibs)) = path_proof key v sibs.
Proof.
  intros Hs. unfold received_proof, serializeExistenceProofInner, path_proof, serialized_path. cbn. f_equal.
  rewrite <- list_fmap_compose. pose proof (path_of_ops (keyIndex64 key) sibs Hs) as H.
  induction H as [|op path [Hh _] _ IH]; cbn; [done|]. f_equal; [|exact IH]. destruct op. cbn in *. by rewrite Hh.
Qed.

Lemma length_path_of i sibs : length (path_of i sibs) = length sibs.
Proof. revert i. induction sibs; intros i; cbn; auto. Qed.

Lemma path_proof_wire key v sibs : path_siblings sibs -> 
  valid (serializeExistenceProofInner (path_proof key v sibs)) /\
  size (wire (serializeExistenceProofInner (path_proof key v sibs))) <= size (utf8 key) + size v + 10000.
Proof.
  intros [Hl Hs]. pose proof (path_of_ops (keyIndex64 key) sibs Hs) as Hops. split.
  - unfold valid; cbn. split; [done|]. unfold serialized_path. apply Forall_fmap. eapply Forall_impl; [exact Hops|].
    intros op _. cbv. done.
  - unfold wire; cbn. rewrite app_nil_r, !size_app.
    pose proof (size_bytes 10 (utf8 key)). pose proof (size_bytes 18 v).
    enough (size (wire_repeated wire_message 34 (serialized_path (path_of (keyIndex64 key) sibs))) <= 113 * 64).
    { unfold wire_opt, serialized_path in *. rewrite size_nil. lia. }
    etrans; [apply (size_repeated wire_message 34 _ 113)|].
    + unfold serialized_path. apply Forall_fmap. eapply Forall_impl; [exact Hops|]. intros op [_ Hop]. cbn.
      etrans; [apply size_delimited|]. unfold wire; cbn. rewrite app_nil_r, !size_app.
      pose proof (size_int 8 HashOp_SHA256). pose proof (size_bytes 18 (op_prefix op)). pose proof (size_bytes 26 (op_suffix op)). lia.
    + unfold serialized_path. rewrite length_fmap, length_path_of, Hl. done.
Qed.

(** ** The messages around it *)

Lemma merkle_proof_size c : size (wire (MkPMerkleProof [c])) <= 20 + size (wire c).
Proof. change (size ((wire_message 10 c ++ []) ++ []) <= 20 + size (wire c)). rewrite !app_nil_r. apply size_delimited. Qed.
Lemma exist_size e : size (wire (MkPCommitmentProof (Some e) None None None)) <= 20 + size (wire e).
Proof. change (size (wire_message 10 e ++ []) <= 20 + size (wire e)). rewrite !app_nil_r. apply size_delimited. Qed.
Lemma nonexist_size n : size (wire (MkPCommitmentProof None (Some n) None None)) <= 20 + size (wire n).
Proof. change (size (wire_message 18 n ++ []) <= 20 + size (wire n)). rewrite !app_nil_r. apply size_delimited. Qed.
Lemma left_size key e : size (wire (MkPNonExistenceProof key (Some e) None)) <= 40 + size key + size (wire e).
Proof.
  change (size (wire_bytes 10 key ++ wire_message 18 e ++ []) <= 40 + size key + size (wire e)).
  rewrite app_nil_r, size_app. pose proof (size_bytes 10 key). pose proof (size_delimited 18 (wire e)). unfold wire_message. lia.
Qed.

(** Keys and values far below the 32-bit lengths of the wire format. *)
Definition key_value_short (key : string) (v : bytes) : Prop := size (utf8 key) + size v < 2 ^ 30.

Lemma served_roundtrip key v sibs : path_siblings sibs -> key_value_short key v ->
  decodeMerkleProof (serializeExistenceProof (path_proof key v sibs)) =
  Ok (MkPMerkleProof [MkPCommitmentProof (Some (serializeExistenceProofInner (path_proof key v sibs))) None None None]).
Proof.
  intros Hs Hk. destruct (path_proof_wire key v sibs Hs) as [Hv Hz]. unfold decodeMerkleProof, serializeExistenceProof.
  fold (serializeExistenceProofInner (path_proof key v sibs)). set (e := serializeExistenceProofInner _) in *.
  rewrite decode_encode; [done| |].
  - constructor; [|constructor]. by split_and!.
  - pose proof (merkle_proof_size (MkPCommitmentProof (Some e) None None None)). pose proof (exist_size e).
    unfold key_value_short in Hk. unfold short, size in *. lia.
Qed.

Lemma served_absence_roundtrip key sibs : path_siblings sibs -> key_value_short key [] ->
  decodeMerkleProof (serializeNonExistenceProof (MerkleTree.NonExistenceProof (utf8 key) (Some (path_proof key [] sibs)) None)) =
  Ok (MkPMerkleProof [MkPCommitmentProof None
    (Some (MkPNonExistenceProof (utf8 key) (Some (serializeExistenceProofInner (path_proof key [] sibs))) None)) None None]).
Proof.
  intros Hs Hk. destruct (path_proof_wire key [] sibs Hs) as [Hv Hz]. unfold decodeMerkleProof, serializeNonExistenceProof.
  cbn [np_key np_left np_right fmap option_fmap option_map]. set (e := serializeExistenceProofInner _) in *.
  set (n := MkPNonExistenceProof _ _ _). rewrite decode_encode; [done| |].
  - constructor; [|constructor]. split_and!; [done|by split_and!|done|done].
  - pose proof (merkle_proof_size (MkPCommitmentProof None (Some n) None None)). pose proof (nonexist_size n).
    pose proof (left_size (utf8 key) e) as Hn. fold n in Hn. unfold key_value_short in Hk. unfold short, size in *. lia.
Qed.

(** ** Claims *)

(** C34 (refinement): a query for a stored key is answered with bytes that decode to an
    ICS-23 membership proof of exactly that key and value, and the tree's verifier
    accepts the decoded proof: nothing is lost between the tree, the protobuf encoder
    and the protobuf decoder. *)
Theorem served_membership_proof `{!Sha256Ok} t key v :
  tree_wf t -> index_free (leaves t) -> utf8_decode (utf8 key) = key -> tree_get key t = Some v -> key_value_short key v ->
  exists p e t1 t2, generateProof key t = (Ok p, t1) /\
    decodeMerkleProof (serializeExistenceProof p) = Ok (MkPMerkleProof [MkPCommitmentProof (Some e) None None None]) /\
    pe_key e = utf8 key /\ pe_value e = v /\ verifyProof (received_proof e) t1 = (Ok true, t2).
Proof.
  intros Hwf Hif Htext Hget Hk. destruct (generateProof_verifies t key v Hwf Hif Htext Hget) as (sibs & t1 & t2 & Hg & Hs & Hv).
  exists (path_proof key v sibs), (serializeExistenceProofInner (path_proof key v sibs)), t1, t2.
  split_and!; [done|by apply served_roundtrip|done|done|]. by rewrite received_serialized by apply Hs.
Qed.

(** A query for an absent key is answered with bytes that decode to a
    non-membership proof of that key whose left neighbour is the key's own path with the
    empty value, and the tree's verifier accepts that path. *)
Lemma served_absence_proof `{!Sha256Ok} t key :
  tree_wf t -> index_free (leaves t) -> key_free (leaves t) key -> utf8_decode (utf8 key) = key -> tree_get key t = None ->
  tree_size t <> 0%nat -> key_value_short key [] ->
  exists np e t1 t2, generateNonExistenceProof key t = (Ok np, t1) /\
    decodeMerkleProof (serializeNonExistenceProof np) =
      Ok (MkPMerkleProof [MkPCommitmentProof None (Some (MkPNonExistenceProof (utf8 key) (Some e) None)) None None]) /\
    pe_key e = utf8 key /\ pe_value e = [] /\ verifyProof (received_proof e) t1 = (Ok true, t2).
Proof.
  intros Hwf Hif Hkf Htext Hget Hsize Hk.
  destruct (generateNonExistenceProof_verifies t key Hwf Hif Hkf Htext Hget Hsize) as (sibs & t1 & t2 & Hg & Hs & Hv).
  do 2 eexists. exists t1, t2. split_and!; [exact Hg|by apply served_absence_roundtrip|done|done|].
  by rewrite received_serialized by apply Hs.
Qed.

End served.

(** ** Witnesses *)

Lemma served_membership_proof_witness :
  exists p e t1 t2, generateProof "ports/transfer" toy_tree = (Ok p, t1) /\
    decodeMerkleProof (serializeExistenceProof p) = Ok (MkPMerkleProof [MkPCommitmentProof (Some e) None None None]) /\
    pe_key e = utf8 "ports/transfer" /\ pe_value e = [x02] /\ verifyProof (received_proof e) t1 = (Ok true, t2).
Proof.
  apply (served_membership_proof toy_tree "ports/transfer" [x02] toy_tree_wf).
  - apply index_freeb_ok. vm_compute. reflexivity.
  - vm_compute. reflexivity.
  - vm_compute. reflexivity.
  - vm_compute. reflexivity.
Defined.
