(* ===== verification/PacketDenom.v ===== *)
(** * Denominations, token units and application modules

    The pure helpers of [tx/packet.service.ts] and [tx/helper/helper.ts] that
    translate between Cardano asset units and packet denoms, the voucher details
    of a mint, the authentication-token units of [lucid.service.ts] and the port
    table of [module-port.ts]. *)

From S2P Require Import Prelude JsMap JsString Hex MerkleTree ToyHash Datum PacketHelpers TreeRebuild EscrowShard Voucher.

Definition LOVELACE : string := "lovelace".

(** ** [tx/helper/helper.ts] *)

Definition normalizeDenomTokenTransfer (denom : string) : result string :=
  let normalizedDenom := trim denom in
  if decide (normalizedDenom = "")
  then Err (GrpcInvalidArgument ("Invalid argument: " +:+ quoted "token.denom" +:+ " is required"))
  else Ok normalizedDenom.

Inductive direction := asset_to_packet | packet_to_asset.

Definition mapLovelaceDenom (denom : string) (dir : direction) : result string :=
  normalizedDenom ← normalizeDenomTokenTransfer denom;
  let lowerDenom := toLowerCase normalizedDenom in
  let lovelacePacketDenom := hex_encode (utf8 LOVELACE) in
  Ok (match dir with
      | asset_to_packet => if decide (lowerDenom = LOVELACE) then lovelacePacketDenom else normalizedDenom
      | packet_to_asset =>
          if decide (lowerDenom = lovelacePacketDenom \/ lowerDenom = LOVELACE) then LOVELACE else normalizedDenom
      end).

Definition sumLovelaceFromUtxos (utxos : list UTxO) : Z :=
  fold_left (fun total u => match map_get (assets u) LOVELACE with Some l => (total + l)%Z | None => total end) utxos 0%Z.

(** ** Denoms ([packet.service.ts]) *)

Definition _hasVoucherPrefix (denom portId channelId : string) : bool :=
  startsWith (getDenomPrefix portId channelId) denom.

Definition _unwrapVoucherDenom (denom portId channelId : string) : result string :=
  let voucherPrefix := getDenomPrefix portId channelId in
  if negb (startsWith voucherPrefix denom) then Ok denom else
  let baseDenom := slice_from (str_length voucherPrefix) denom in
  if decide (baseDenom = "") then
    Err (GrpcInvalidArgument "Voucher denom is missing base denom after transfer/channel prefix")
  else Ok baseDenom.

Definition _tryResolveAssetUnitFromAssets (assets : jsmap string Z) (requestedDenomToken : string) : option string :=
  let normalized := trim requestedDenomToken in
  if decide (normalized = "") then None else
  if map_has assets normalized then Some normalized else
  let normalizedLower := toLowerCase normalized in
  list_find (fun unit => toLowerCase unit = normalizedLower) (map_keys assets) ≫= fun iu => Some iu.2.

Definition _resolveAssetUnitFromUtxoAssets (assets : jsmap string Z) (requestedDenomToken : string) : result string :=
  let normalized := trim requestedDenomToken in
  if decide (normalized = "") then
    Err (GrpcInvalidArgument "Denom token for transfer-module update cannot be empty") else
  match _tryResolveAssetUnitFromAssets assets normalized with
  | Some matchedUnit => Ok matchedUnit
  | None => Err (GrpcInvalidArgument ("Denom token " +:+ normalized +:+ " not found in transfer-module UTxO assets"))
  end.

Definition add_assets (summedAssets : jsmap string Z) (u : UTxO) : jsmap string Z :=
  fold_left (fun acc kv => map_set acc kv.1 (default 0%Z (map_get acc kv.1) + kv.2)%Z) (assets u) summedAssets.
Definition _sumAssetsFromUtxos (utxos : list UTxO) : jsmap string Z := fold_left add_assets utxos [].

Definition _resolveEscrowDenomToken (inputDenom resolvedDenom : string) (senderWalletUtxos : list UTxO) : result string :=
  let senderAssets := _sumAssetsFromUtxos senderWalletUtxos in
  match _tryResolveAssetUnitFromAssets senderAssets inputDenom with
  | Some u => Ok u
  | None =>
      match _tryResolveAssetUnitFromAssets senderAssets resolvedDenom with
      | Some u => Ok u
      | None => Err (GrpcInvalidArgument ("Escrow asset unit not found in sender wallet UTxOs for denom " +:+
                                          inputDenom +:+ " (resolved as " +:+ resolvedDenom +:+ ")"))
      end
  end.

(** [/^[0-9a-fA-F]{56}(?:[0-9a-fA-F]{0,64})$/] *)
Definition _isCardanoTokenUnitDenom (denom : string) : bool :=
  (56 <=? str_length denom)%nat && (str_length denom <=? 120)%nat && all_hex denom.
Definition _isHexDenom (denom : string) : bool := Nat.even (str_length denom) && is_hex_text denom.

Definition _normalizePacketDenom (denom portId channelId : string) : result string :=
  d ← normalizeDenomTokenTransfer denom;
  let normalizedDenom := trim d in
  packetMappedDenom ← mapLovelaceDenom normalizedDenom asset_to_packet;
  if decide (packetMappedDenom <> normalizedDenom) then Ok packetMappedDenom else
  if _hasVoucherPrefix normalizedDenom portId channelId then Ok normalizedDenom else
  if startsWith "ibc/" normalizedDenom then
    Err (GrpcInvalidArgument ("IBC hash denom " +:+ normalizedDenom +:+
      " must be reverse-resolved to a full denom trace before packet normalization")) else
  if _isCardanoTokenUnitDenom normalizedDenom then Ok normalizedDenom else
  if _isHexDenom normalizedDenom then
    Err (GrpcInvalidArgument "Denom appears to be already hex-encoded; refusing to hex-encode twice")
  else Ok (convertString2Hex normalizedDenom).

(** ** UTxO sets *)

(** Last occurrence wins, first occurrence decides the position. *)
Definition dedupeUtxos (utxos : list UTxO) : list UTxO :=
  (fold_left (fun m u => map_set m (toUtxoRef u) u) utxos ([] : jsmap string UTxO)).*2.

(** ** Deployment and token units *)

(** SHA-3, from [js-sha3]. *)
Class Sha3 := sha3_256 : bytes -> bytes.
Class Sha3Ok {S3 : Sha3} : Prop := { sha3_length b : length (sha3_256 b) = 32%nat }.

(** What the code reads from the deployment configuration. *)
Class Deployment := {
  mintClientPolicyId : string;
  mintConnectionPolicyId : string;
  mintChannelPolicyId : string;
  hostStateNFT : AuthToken;
  spendChannelAddress : string;
  recvPacketPolicyId : string;
  timeoutPacketPolicyId : string;
  ackPacketPolicyId : string;
  sendPacketPolicyId : string;
  prunePacketHistoryPolicyId : string;
  verifyProofPolicyId : string;
  voucherPolicyId : string;
  voucherMetadataAddress : option string;
  mockModule : option (string * string);
  icqModule : option (string * string);
  spendMockModule : bool;
}.

Definition CLIENT_PREFIX : string := "6962635f636c69656e74".
Definition CONNECTION_TOKEN_PREFIX : string := "636f6e6e656374696f6e".
Definition CHANNEL_TOKEN_PREFIX : string := "6368616e6e656c".

Section tokens.
Context `{S3 : Sha3} `{DP : Deployment}.

Definition hashSha3_256 (dataHex : string) : string := hex_encode (sha3_256 (hex_decode_prefix dataHex)).

Definition generateTokenName (baseToken : AuthToken) (prefix : string) (postfix : Z) : result string :=
  if (postfix <? 0)%Z then throw "sequence must be unsigned integer" else
  let postfixHex := convertString2Hex (pretty postfix) in
  if decide (16 < str_length postfixHex)%nat then throw "postfix size > 8 bytes" else
  let baseTokenPart := slice 0 40 (hashSha3_256 (policyId baseToken +:+ token_name baseToken)) in
  let prefixPart := slice 0 8 (hashSha3_256 prefix) in
  Ok (baseTokenPart +:+ prefixPart +:+ postfixHex).

Definition getClientTokenUnit (clientId : string) : result string :=
  id ← BigInt clientId;
  name ← generateTokenName hostStateNFT CLIENT_PREFIX id;
  Ok (mintClientPolicyId +:+ name).
Definition getConnectionTokenUnit (connectionId : Z) : result (string * string) :=
  name ← generateTokenName hostStateNFT CONNECTION_TOKEN_PREFIX connectionId; Ok (mintConnectionPolicyId, name).
Definition getChannelTokenUnit (channelId : Z) : result (string * string) :=
  name ← generateTokenName hostStateNFT CHANNEL_TOKEN_PREFIX channelId; Ok (mintChannelPolicyId, name).

(** ** Modules ([module-port.ts]) *)

Inductive GatewayModuleKey := key_transfer | key_mock | key_icq.
Inductive ModuleReferenceScript := ref_spendTransferModule | ref_spendMockModule.
Record GatewayModuleConfig := MkGatewayModuleConfig {
  module_key : GatewayModuleKey; canonicalPortId : string; module_identifier : string; module_address : string;
  referenceScript : ModuleReferenceScript
}.

Definition isSupportedGatewayPortId (portId : string) : bool :=
  bool_decide (portId = "transfer" \/ portId = "mock" \/ portId = "icqhost").

Definition getGatewayModuleConfigForPortId `{EV : EscrowEnv} (portId : string) : result GatewayModuleConfig :=
  if decide (portId = "transfer") then
    Ok (MkGatewayModuleConfig key_transfer "transfer" transferModuleIdentifier transferModuleAddress
          ref_spendTransferModule)
  else if decide (portId = "mock") then
    match mockModule with
    | None => throw "Deployment is missing modules.mock for the mock port"
    | Some (i, a) =>
        if spendMockModule then Ok (MkGatewayModuleConfig key_mock "mock" i a ref_spendMockModule)
        else throw "Deployment is missing validators.spendMockModule for the mock port"
    end
  else if decide (portId = "icqhost") then
    match icqModule with
    | None => throw "Deployment is missing modules.icq for the icqhost port"
    | Some (i, a) =>
        if spendMockModule then Ok (MkGatewayModuleConfig key_icq "icqhost" i a ref_spendMockModule)
        else throw "Deployment is missing validators.spendMockModule for the icqhost port"
    end
  else throw ("Unsupported IBC port: " +:+ portId).

(** ** Vouchers *)

Record VoucherMintDetails := MkVoucherMintDetails {
  md_voucherDenomHash : string;
  md_voucherTokenName : string;
  md_voucherTokenUnit : string;
  md_voucherReferenceTokenName : string;
  md_voucherReferenceTokenUnit : string;
  md_voucherMetadataAddress : string;
  md_encodedVoucherMetadataDatum : string;
}.

Context `{L : Lucid} `{BL : Blake2b} `{SHA : Sha256}.

Definition check_full_denom (fullDenom : string) : result unit :=
  if startsWith "ibc/" fullDenom then
    Err (GrpcInvalidArgument ("IBC hash denom " +:+ fullDenom +:+
                              " must be reverse-resolved before voucher token-name hashing")) else
  if _isHexDenom fullDenom then
    Err (GrpcInvalidArgument
      "Voucher denom appears to be already hex-encoded; refusing to hash a double-encoded denom")
  else Ok tt.

Definition _buildVoucherTokenName (denom : string) : result string :=
  _ ← check_full_denom denom;
  buildVoucherUserTokenNameFromDenomHash (buildVoucherDenomHashFromFullDenom denom).

(** The metadata datum is encoded by Lucid (its [Data.to] is always a function). *)
Definition buildVoucherMintDetails (fullDenom : string) : result VoucherMintDetails :=
  _ ← check_full_denom fullDenom;
  match voucherMetadataAddress with
  | None | Some "" =>
      Err (GrpcInternal "Voucher metadata validator address is missing from deployment config")
  | Some metadataAddress =>
      trace ← splitFullDenomTrace fullDenom;
      let hash := buildVoucherDenomHashFromFullDenom fullDenom in
      voucherTokenName ← buildVoucherUserTokenNameFromDenomHash hash;
      voucherReferenceTokenName ← buildVoucherReferenceTokenNameFromDenomHash hash;
      let metadata := buildVoucherCip68Metadata
        (MkBuildVoucherMetadataParams (path trace) (baseDenom trace) fullDenom voucherTokenName voucherPolicyId
           (buildIbcDenomHashFromFullDenom fullDenom)) in
      encoded ← encodeVoucherCip68MetadataDatum metadata;
      Ok (MkVoucherMintDetails hash voucherTokenName (voucherPolicyId +:+ voucherTokenName)
            voucherReferenceTokenName (voucherPolicyId +:+ voucherReferenceTokenName) metadataAddress encoded)
  end.

End tokens.

(** ** Authentication tokens and asset sums: what the helpers guarantee *)

Lemma length_hex_encode b : str_length (hex_encode b) = (length b * 2)%nat.
Proof. unfold str_length, hex_encode. by rewrite utf8_text, length_hex_bytes. Qed.

Lemma str_length_app a b : str_length (a +:+ b) = (str_length a + str_length b)%nat.
Proof. unfold str_length. by rewrite utf8_app, length_app. Qed.

Lemma append_assoc a b c : (a +:+ b) +:+ c = a +:+ b +:+ c.
Proof. induction a as [|x a IH]; [done|]. exact (f_equal (String x) IH). Qed.

Lemma str_length_slice n s : (n <= str_length s)%nat -> str_length (slice 0 n s) = n.
Proof. unfold str_length, slice. intros H. rewrite utf8_text, drop_0, length_take. lia. Qed.

Lemma slice_from_app n a b : str_length a = n -> slice_from n (a +:+ b) = b.
Proof. unfold str_length, slice_from. intros <-. rewrite utf8_app, drop_app_length. apply text_utf8. Qed.

Lemma digits_ascii s : is_digits s = true -> ascii_text s = true.
Proof.
  unfold is_digits, ascii_text. intros H.
  assert (forallb is_digit (utf8 s) = true) as Hd by (destruct (utf8 s); [done|exact H]). clear H.
  rewrite forallb_forall in *. intros b Hb. specialize (Hd b Hb). unfold is_digit, is_ascii in *.
  apply andb_true_iff in Hd as [_ Hd%N.leb_le]. apply N.leb_le. lia.
Qed.

Section tokens.
Context `{S3 : Sha3} `{S3OK : !Sha3Ok}.

Lemma token_name_parts token prefix n name : generateTokenName token prefix n = Ok name ->
  (0 <= n)%Z /\ (str_length (convertString2Hex (pretty n)) <= 16)%nat /\
  exists head, str_length head = 48%nat /\ name = head +:+ convertString2Hex (pretty n).
Proof.
  unfold generateTokenName. destruct (n <? 0)%Z eqn:En; [done|]. cbv zeta. case_decide as Hl; [done|].
  intros [= <-]. apply Z.ltb_ge in En. split_and!; [done|lia|].
  eexists (slice 0 40 _ +:+ slice 0 8 _). split; [|by rewrite append_assoc].
  rewrite str_length_app, !str_length_slice; [done|..];
    unfold hashSha3_256; rewrite length_hex_encode, sha3_length; lia.
Qed.

(** The name of an authentication token fits a Cardano asset name
    (32 bytes), and the sequence the state-tree rebuild reads back from a unit
    with that name is the sequence the name was generated for; so client,
    connection and channel tokens identify their object. *)
Lemma auth_token_roundtrip token prefix n policy name :
  str_length policy = 56%nat -> generateTokenName token prefix n = Ok name ->
  token_postfix (policy +:+ name) = pretty n /\ BigInt (token_postfix (policy +:+ name)) = Ok n /\
  (str_length name <= 64)%nat.
Proof.
  intros Hp H. apply token_name_parts in H as (Hn & Hl & head & Hh & ->).
  assert (token_postfix (policy +:+ head +:+ convertString2Hex (pretty n)) = pretty n) as Hpost.
  { unfold token_postfix. rewrite slice_from_app by done. rewrite slice_from_app by done.
    unfold convertString2Hex. case_decide as He; [by rewrite He|].
    rewrite hex_decode_encode. by apply utf8_decode_ascii, digits_ascii, pretty_Z_digits. }
  rewrite Hpost. split_and!; [done|by apply BigInt_pretty|]. rewrite str_length_app. lia.
Qed.

End tokens.

Definition toy_sha3 : Sha3 := toy_digest.
Lemma toy_sha3_ok : Sha3Ok (S3 := toy_sha3).
Proof. constructor. apply (sha256_length (SHA := toy_sha256)). Qed.
