(* ===== verification/PacketOps.v ===== *)
(** * Packet operations ([tx/packet.service.ts])

    The transaction builders of the packet service: receive, acknowledge, time
    out, send (application modules) and prune.  Each one loads the channel, the
    connection and the client through their authentication tokens, checks its
    guards, computes the channel's next datum, and asks for the HostState update
    whose witnesses prove the root transition.

    What a builder hands to [lucidService.createUnsigned...Tx] is a [PacketTx],
    the union of the DTO fragments of [dtos/packet/fragments.ts] (the addresses
    that are deployment constants are left out).  State is the module state of
    [ibc-state-root.ts]: the builders change nothing but its cached tree. *)

From S2P Require Import Prelude JsMap JsString JsJson Hex MerkleTree Datum StateRoot PacketHelpers TreeRebuild TreeServices EscrowShard Voucher Redeemers PacketDenom.

(** ** Operators *)

Record RecvPacketOperator := MkRecvPacketOperator {
  rp_channelId : string; rp_packetSequence : Z; rp_packetData : string; rp_proofCommitment : MerkleProof;
  rp_proofHeight : Height; rp_timeoutHeight : Height; rp_timeoutTimestamp : Z;
}.
Record AckPacketOperator := MkAckPacketOperator {
  ap_channelId : string; ap_packetSequence : Z; ap_packetData : string; ap_proofHeight : Height;
  ap_proofAcked : MerkleProof; ap_acknowledgement : string; ap_timeoutHeight : Height; ap_timeoutTimestamp : Z;
}.
Record TimeoutPacketOperator := MkTimeoutPacketOperator {
  tp_fungibleTokenPacketData : FungibleTokenPacketDatum; tp_proofUnreceived : MerkleProof;
  tp_proofHeight : Height; tp_nextSequenceRecv : Z; tp_packet : Packet;
}.
Record SendModulePacketOperator := MkSendModulePacketOperator {
  sp_sourcePort : string; sp_sourceChannel : string; sp_signer : string; sp_packetData : string;
  sp_timeoutHeight : Height; sp_timeoutTimestamp : Z;
}.
Record PrunePacketHistoryOperator := MkPrunePacketHistoryOperator {
  pp_portId : string; pp_channelId : string; pp_sequence : Z; pp_proofCommitmentAbsence : MerkleProof;
  pp_proofHeight : Height; pp_signer : string;
}.

(** ** Transaction plans *)

Inductive TraceRegistryInsertContext :=
| TraceExisting (mappingWitnessUtxos : list UTxO)
| TraceAppend (directoryUtxo shardUtxo : UTxO) (archivedShardWitnessUtxos : list UTxO)
    (encodedRedeemer encodedUpdatedDatum : string)
| TraceRollover (directoryUtxo shardUtxo : UTxO) (archivedShardWitnessUtxos : list UTxO) (mintNonceUtxo : UTxO)
    (encodedDirectoryRedeemer encodedUpdatedDirectoryDatum encodedRedeemer encodedArchivedDatum
     encodedNewActiveDatum newActiveShardTokenUnit encodedMintIdentifierRedeemer : string).

Inductive AppPart :=
| NoApp
| ModuleApp (moduleKey : GatewayModuleKey) (moduleUtxo : UTxO) (encodedSpendModuleRedeemer : string)
| SucceedApp (transferModuleReferenceUtxo : UTxO) (encodedSpendTransferModuleRedeemer constructedAddress : string)
| UnescrowApp (transferEscrowUtxo transferModuleReferenceUtxo : UTxO)
    (encodedSpendTransferModuleRedeemer encodedTransferEscrowDatum transferEscrowShardTokenUnit : string)
    (transferAmount : Z) (denomToken address constructedAddress : string)
| MintApp (transferModuleUtxo : UTxO) (encodedSpendTransferModuleRedeemer encodedMintVoucherRedeemer : string)
    (details : VoucherMintDetails) (transferAmount : Z) (address constructedAddress : string)
    (traceRegistryUpdate : option TraceRegistryInsertContext)
| BurnApp (transferModuleReferenceUtxo senderVoucherTokenUtxo : UTxO) (walletUtxos : list UTxO)
    (encodedSpendTransferModuleRedeemer encodedMintVoucherRedeemer voucherTokenUnit denomToken : string)
    (transferAmount : Z) (senderAddress receiverAddress constructedAddress : string)
| EscrowApp (transferModuleReferenceUtxo : UTxO) (transferEscrowUtxo : option UTxO) (walletUtxos : list UTxO)
    (encodedSpendTransferModuleRedeemer : string)
    (encodedMintTransferEscrowShardRedeemer encodedUpdatedTransferModuleDatum : option string)
    (encodedTransferEscrowDatum transferEscrowShardTokenUnit denomToken : string)
    (transferAmount : Z) (senderAddress receiverAddress constructedAddress : string).

Record PacketTx := MkPacketTx {
  tx_hostStateUtxo : UTxO;
  tx_encodedHostStateRedeemer : string;
  tx_encodedUpdatedHostStateDatum : string;
  tx_channelUtxo : UTxO;
  tx_connectionUtxo : UTxO;
  tx_clientUtxo : UTxO;
  tx_encodedSpendChannelRedeemer : string;
  tx_encodedUpdatedChannelDatum : string;
  tx_channelTokenUnit : string;
  tx_packetPolicyId : string;
  tx_channelToken : AuthToken;
  tx_verifyProof : option (string * string);
  tx_app : AppPart;
}.

(** What the builders use of the provider, the clock and the services they call:
    UTxO lookup by unit, bech32 addresses, the async-ICQ executor and the
    trace-registry planner. *)
Class PacketEnv := {
  findUtxoByUnit : string -> result UTxO;
  now : Z;
  credentialToAddress : string -> result string;
  isKeyAddress : string -> result bool;
  executePacket : bytes -> result AcknowledgementResponse;
  prepareOnChainInsert (voucherHash fullDenom : string) (forceRollover : bool) : result TraceRegistryInsertContext;
  shouldRolloverForUnsignedTx : PacketTx -> result bool;
}.

Definition ASYNC_ICQ_HOST_PORT : string := "icqhost".
Definition ACK_RESULT : string := "AQ==".
Definition TRANSFER_ACK_COMMITMENT : string := "08F7557ED51826FE18D84512BF24EC75001EDBAF2123A477DF72A0A9F3640A7C".
Definition DEFAULT_ASYNC_ICQ_TIMEOUT_HEIGHT_DELTA : Z := 1000.

(** [s.replaceAll(p, '')]: every step removes at least one byte. *)
Fixpoint remove_all (fuel : nat) (p l : bytes) : bytes :=
  match fuel with
  | O => l
  | S fuel' =>
      match strip_prefix p l with
      | Some r => remove_all fuel' p r
      | None => match l with [] => [] | x :: l' => x :: remove_all fuel' p l' end
      end
  end.
Definition channel_sequence (channelId : string) : result Z :=
  BigInt (text (remove_all (S (str_length channelId)) (utf8 "channel-") (utf8 channelId))).

Section packet_service.
Context `{SHA : Sha256} `{L : Lucid} `{CV : ChainView} `{BL : Blake2b} `{S3 : Sha3}.
Context `{EV : EscrowEnv} `{DP : Deployment} `{PE : PacketEnv}.

(** ** Loading the context *)

(** [decodeDatum(utxo.datum!)]: decoding an absent datum throws. *)
Definition decode_datum {A} (decode : string -> result A) (u : UTxO) : result A :=
  match datum u with
  | Some d => decode d
  | None => Err (GrpcInternal "An unexpected error occurred when trying to decode an absent datum")
  end.

Record ChannelContext := MkChannelContext {
  cx_channelToken : AuthToken; cx_channelTokenUnit : string; cx_channelUtxo : UTxO; cx_channelDatum : ChannelDatum
}.
Record ClientContext := MkClientContext {
  kx_connectionUtxo : UTxO; kx_connectionDatum : ConnectionDatum; kx_clientUtxo : UTxO; kx_clientDatum : ClientDatum
}.

Definition load_channel (channelSequence : Z) : result ChannelContext :=
  '(policy, name) ← getChannelTokenUnit channelSequence;
  let channelTokenUnit := policy +:+ name in
  channelUtxo ← findUtxoByUnit channelTokenUnit;
  channelDatum ← decode_datum decode_channel channelUtxo;
  Ok (MkChannelContext (MkAuthToken policy name) channelTokenUnit channelUtxo channelDatum).

Definition channel_end (d : ChannelDatum) : Channel := obj_val (channel (cd_state d)).

Definition load_client (d : ChannelDatum) : result ClientContext :=
  connectionSequence ← parseConnectionSequence (convertHex2String (default "" (head (ch_connection_hops (channel_end d)))));
  '(policy, name) ← getConnectionTokenUnit connectionSequence;
  connectionUtxo ← findUtxoByUnit (policy +:+ name);
  connectionDatum ← decode_datum decode_connection connectionUtxo;
  clientSequence ← parseClientSequence (convertHex2String (conn_client_id (cnd_state connectionDatum)));
  clientTokenUnit ← getClientTokenUnit clientSequence;
  clientUtxo ← findUtxoByUnit clientTokenUnit;
  clientDatum ← decode_datum decode_client clientUtxo;
  Ok (MkClientContext connectionUtxo connectionDatum clientUtxo clientDatum).

Definition height_text (h : Height) : string := pretty (revisionNumber h) +:+ "/" +:+ pretty (revisionHeight h).

(** The consensus state at the proof height and its processing metadata. *)
Definition consensus_at (clientDatum : ClientDatum) (proofHeight : Height) (missingState missingMeta : error)
  : result (ConsensusState * Z * Z) :=
  match list_find (fun kv => same_height kv.1 proofHeight = true) (consensusStates (cld_state clientDatum)) with
  | None => Err missingState
  | Some (_, (key, consensusState)) =>
      match getHeightMapValue (processedTimes (cld_state clientDatum)) key,
            getHeightMapValue (processedHeights (cld_state clientDatum)) key with
      | Some processedTime, Some processedHeight => Ok (consensusState, processedTime, processedHeight)
      | _, _ => Err missingMeta
      end
  end.

Definition verify_params (kx : ClientContext) (c : ConsensusState * Z * Z) (height : Height) (proof : MerkleProof)
    (path : string) : VerifyParams :=
  let '(consensusState, processedTime, processedHeight) := c in
  let conn := cnd_state (kx_connectionDatum kx) in
  MkVerifyParams (clientState (cld_state (kx_clientDatum kx))) consensusState height processedTime processedHeight
    (conn_delay_period conn) (getBlockDelay (conn_delay_period conn)) proof
    (MkMerklePath [cp_key_prefix (conn_counterparty conn); convertString2Hex path]).

Definition missing_state (h : Height) : error := GrpcInternal ("Missing consensus state at proof height " +:+ height_text h).
Definition missing_meta : error :=
  GrpcInternal "Missing processed delay metadata at proof height revisionNumber/revisionHeight".
Definition invalid_proof_height (h : Height) : error := GrpcInternal ("Invalid proof height: " +:+ height_text h).

(** ** The HostState update *)

Record HostStateUpdate := MkHostStateUpdate {
  hu_hostStateUtxo : UTxO; hu_encodedHostStateRedeemer : string; hu_encodedUpdatedHostStateDatum : string;
  hu_pending : PendingTreeUpdate;
}.

Definition ensureTreeAligned (onChainRoot : string) : M gstate unit :=
  aligned ← isTreeAligned onChainRoot;
  if aligned : bool then mret tt else alignTreeWithChain ;; mret tt.

(** [findUtxoAtHostStateNFT], the datum check and the decoding. *)
Definition load_host_state : M gstate (UTxO * HostStateDatum) :=
  found ← liftR findUtxoAtHostStateNFT;
  match found with
  | None => raise (JsError "Cannot read properties of undefined (reading 'datum')")
  | Some hostStateUtxo =>
      match datum_of hostStateUtxo with
      | None => raise (GrpcInternal "HostState UTXO has no datum")
      | Some d => hostStateDatum ← liftR (decode_host_state d); mret (hostStateUtxo, hostStateDatum)
      end
  end.

Definition updated_host_state (h : HostStateDatum) (newRoot : string) : HostStateDatum :=
  let st := hs_state h in
  MkHostStateDatum
    (MkHostState (version st + 1) newRoot (next_client_sequence st) (next_connection_sequence st)
       (next_channel_sequence st) (bound_port st) now)
    (nft_policy h) (deployer h) (shutdown h).

Definition package_host_update {W} (hostStateUtxo : UTxO) (h : HostStateDatum) (r : StateRootResult W)
    (redeemer : HandlePacketW) : M gstate HostStateUpdate :=
  encodedRedeemer ← liftR (encode_host_state_redeemer (HandlePacket redeemer));
  encodedDatum ← liftR (encode_host_state (updated_host_state h (newRoot r)));
  mret (MkHostStateUpdate hostStateUtxo encodedRedeemer encodedDatum (MkPending (newRoot r) (commitTree r))).

Definition buildHostStateUpdateForHandlePacket (inputChannelDatum outputChannelDatum : ChannelDatum)
    (channelIdForRoot : string) : M gstate HostStateUpdate :=
  '(hostStateUtxo, hostStateDatum) ← load_host_state;
  let root := ibc_state_root (hs_state hostStateDatum) in
  ensureTreeAligned root ;;
  r ← computeRootWithHandlePacketUpdate root (convertHex2String (cd_port inputChannelDatum)) channelIdForRoot
        inputChannelDatum outputChannelDatum;
  package_host_update hostStateUtxo hostStateDatum r (witness r).

Definition buildHostStateUpdateForPrunePacketHistory (inputChannelDatum : ChannelDatum) (channelId : string)
    (sequence : Z) : M gstate HostStateUpdate :=
  '(hostStateUtxo, hostStateDatum) ← load_host_state;
  let root := ibc_state_root (hs_state hostStateDatum) in
  ensureTreeAligned root ;;
  r ← computeRootWithPrunePacketHistoryUpdate root (convertHex2String (cd_port inputChannelDatum)) channelId sequence;
  package_host_update hostStateUtxo hostStateDatum r
    (MkHandlePacketW [] [] [] [] [] (pr_receiptSiblings (witness r)) (pr_acknowledgementSiblings (witness r))).

Definition make_tx (cx : ChannelContext) (kx : ClientContext) (hu : HostStateUpdate)
    (encodedSpendChannelRedeemer encodedUpdatedChannelDatum policy : string)
    (verifyProof : option (string * string)) (app : AppPart) : PacketTx :=
  MkPacketTx (hu_hostStateUtxo hu) (hu_encodedHostStateRedeemer hu) (hu_encodedUpdatedHostStateDatum hu)
    (cx_channelUtxo cx) (kx_connectionUtxo kx) (kx_clientUtxo kx) encodedSpendChannelRedeemer
    encodedUpdatedChannelDatum (cx_channelTokenUnit cx) policy (cx_channelToken cx) verifyProof app.

(** ** Prune *)

Definition pruned_channel_datum (d : ChannelDatum) (sequence : Z) (proofHeight : Height) : ChannelDatum :=
  let st := cd_state d in
  MkChannelDatum
    (MkChannelDatumState (channel st) (next_sequence_send st) (next_sequence_recv st) (next_sequence_ack st)
       (packet_commitment st) (deleteKeySortMap (packet_receipt st) sequence)
       (deleteKeySortMap (packet_acknowledgement st) sequence) proofHeight (maximum_receive_proof_height st))
    (cd_port d) (cd_token d).

Definition prune_guards (op : PrunePacketHistoryOperator) (d : ChannelDatum) : result unit :=
  let st := cd_state d in
  let portId := convertHex2String (cd_port d) in
  if decide (portId <> pp_portId op) then
    Err (GrpcFailedPrecondition ("Channel " +:+ pp_channelId op +:+ " belongs to port " +:+ portId +:+ ", not " +:+
                                 pp_portId op)) else
  if decide (ch_ordering (channel_end d) <> Unordered) then
    Err (GrpcFailedPrecondition "Packet history pruning is only valid for unordered channels") else
  if negb (map_has (packet_receipt st) (pp_sequence op)) then
    Err (GrpcFailedPrecondition ("Packet receipt " +:+ pretty (pp_sequence op) +:+ " does not exist on " +:+
                                 pp_channelId op)) else
  if negb (map_has (packet_acknowledgement st) (pp_sequence op)) then
    Err (GrpcFailedPrecondition ("Packet acknowledgement " +:+ pretty (pp_sequence op) +:+ " does not exist on " +:+
                                 pp_channelId op)) else
  if negb (isHeightAtLeast (pp_proofHeight op) (minimum_receive_proof_height st)) then
    Err (GrpcFailedPrecondition ("Prune proof height " +:+ height_text (pp_proofHeight op) +:+
      " is below the channel history floor " +:+ height_text (minimum_receive_proof_height st))) else
  if negb (isHeightAtLeast (pp_proofHeight op) (maximum_receive_proof_height st)) then
    Err (GrpcFailedPrecondition ("Prune proof height " +:+ height_text (pp_proofHeight op) +:+
      " is below the channel receive high-water mark " +:+ height_text (maximum_receive_proof_height st)))
  else Ok tt.

Definition buildUnsignedPrunePacketHistoryTx (op : PrunePacketHistoryOperator)
  : M gstate (PacketTx * PendingTreeUpdate) :=
  channelSequence ← liftR (parseChannelSequence (pp_channelId op));
  '(policy, name) ← liftR (getChannelTokenUnit channelSequence);
  channelUtxo ← liftR (findUtxoByUnit (policy +:+ name));
  match datum_of channelUtxo with
  | None => raise (GrpcInternal ("Channel " +:+ pp_channelId op +:+ " has no datum"))
  | Some dt =>
      channelDatum ← liftR (decode_channel dt);
      let cx := MkChannelContext (MkAuthToken policy name) (policy +:+ name) channelUtxo channelDatum in
      liftR (prune_guards op channelDatum) ;;
      kx ← liftR (load_client channelDatum);
      c ← liftR (consensus_at (kx_clientDatum kx) (pp_proofHeight op)
        (GrpcFailedPrecondition ("Missing consensus state at prune proof height " +:+ height_text (pp_proofHeight op)))
        (GrpcFailedPrecondition "Missing processed delay metadata at prune proof height"));
      let updated := pruned_channel_datum channelDatum (pp_sequence op) (pp_proofHeight op) in
      encodedSpendChannelRedeemer ← liftR (encode_spendChannelRedeemer
        (PrunePacketHistory (pp_sequence op) (pp_proofCommitmentAbsence op) (pp_proofHeight op)));
      encodedUpdatedChannelDatum ← liftR (encode_channel updated);
      hu ← buildHostStateUpdateForPrunePacketHistory channelDatum (pp_channelId op) (pp_sequence op);
      let cp := ch_counterparty (channel_end channelDatum) in
      encodedVerifyProofRedeemer ← liftR (encodeVerifyProofRedeemer (VerifyNonMembership
        (verify_params kx c (pp_proofHeight op) (pp_proofCommitmentAbsence op)
           (packetCommitmentPath (convertHex2String (cc_port_id cp)) (convertHex2String (cc_channel_id cp))
              (pp_sequence op)))));
      mret (make_tx cx kx hu encodedSpendChannelRedeemer encodedUpdatedChannelDatum prunePacketHistoryPolicyId
              (Some (verifyProofPolicyId, encodedVerifyProofRedeemer)) NoApp, hu_pending hu)
  end.

(** ** ICS-20 packet data as parsed JSON *)

(** A field of the parsed packet data; [None] is [undefined] or [null].  The
    fields are read as strings: any other JSON value is rejected here, where the
    code would throw from [Buffer.from] or a string method. *)
Definition not_a_string : error := JsError "The first argument must be of type string or an instance of Buffer".
Definition json_field (j : json) (name : string) : result (option string) :=
  match j with
  | JNull => throw ("Cannot read properties of null (reading '" +:+ name +:+ "')")
  | JObject fs =>
      match map_get fs name with
      | Some (JString s) => Ok (Some s)
      | Some JNull | None => Ok None
      | Some _ => Err not_a_string
      end
  | _ => Ok None
  end.

Record Ics20Data := MkIcs20Data {
  i_denom : option string; i_amount : option string; i_sender : option string; i_receiver : option string;
  i_memo : option string
}.
Definition ics20_of_json (j : json) : result Ics20Data :=
  d ← json_field j "denom";
  a ← json_field j "amount";
  s ← json_field j "sender";
  r ← json_field j "receiver";
  m ← json_field j "memo";
  Ok (MkIcs20Data d a s r m).

(** [convertString2Hex] of a missing field is the empty string. *)
Definition hex_fields (p : Ics20Data) : FungibleTokenPacketDatum :=
  let h o := convertString2Hex (default "" o) in
  MkFungibleTokenPacketDatum (h (i_denom p)) (h (i_amount p)) (h (i_sender p)) (h (i_receiver p)) (h (i_memo p)).

Definition required_text (o : option string) : result string :=
  match o with Some s => Ok s | None => throw "Cannot read properties of undefined" end.
(** [BigInt(undefined)] throws. *)
Definition bigint_field (o : option string) : result Z :=
  match o with Some s => BigInt s | None => throw "Cannot convert undefined to a BigInt" end.

(** ** Escrow and voucher branches shared by the operations *)

(** The escrow shard to release from, with the asset unit it holds. *)
Definition unescrow_source (channelId packetDenom requestedDenomToken : string) (transferAmount : Z) (notFound : string)
  : result (UTxO * UTxO * string * string * string) :=
  shard ← findTransferEscrowShard channelId packetDenom requestedDenomToken (Some transferAmount);
  match shard with
  | ShardMissing _ _ _ _ _ => Err (GrpcInvalidArgument notFound)
  | ShardExisting utxo encodedDatum shardTokenUnit transferModuleUtxo _ =>
      denomToken ← _resolveAssetUnitFromUtxoAssets (assets utxo) requestedDenomToken;
      let escrowedAmount := quantity utxo denomToken in
      if (escrowedAmount <? transferAmount)%Z then
        Err (GrpcInvalidArgument ("Insufficient escrowed amount for " +:+ denomToken +:+ ": have " +:+
                                  pretty escrowedAmount +:+ ", need " +:+ pretty transferAmount))
      else Ok (utxo, transferModuleUtxo, encodedDatum, shardTokenUnit, denomToken)
  end.

Definition not_found_text (channelId denom : string) : string :=
  "Transfer escrow shard not found for channel " +:+ channelId +:+ " and denom " +:+ denom.

(** Append when the transaction stays small enough, roll over otherwise. *)
Definition resolveTraceRegistryUpdate (voucherHash fullDenom : string)
    (buildCandidateTx : option TraceRegistryInsertContext -> result PacketTx) : result TraceRegistryInsertContext :=
  initialUpdate ← prepareOnChainInsert voucherHash fullDenom false;
  match initialUpdate with
  | TraceAppend _ _ _ _ _ =>
      candidateTx ← buildCandidateTx (Some initialUpdate);
      shouldRollover ← shouldRolloverForUnsignedTx candidateTx;
      if shouldRollover : bool then prepareOnChainInsert voucherHash fullDenom true else Ok initialUpdate
  | _ => Ok initialUpdate
  end.

Definition _resolveVoucherReceiverAddress (receiver : string) : result string :=
  let trimmed := trim receiver in
  if startsWith "addr" trimmed || startsWith "addr_test" trimmed then
    key ← isKeyAddress trimmed;
    if key : bool then Ok trimmed
    else Err (GrpcInvalidArgument "Voucher receiver must be a key address (no script/ref-script UTxO)")
  else credentialToAddress trimmed.

(** ** Receive *)

Definition is_ordered (d : ChannelDatum) : bool := bool_decide (ch_ordering (channel_end d) = Ordered).

(** The datum after a receive; the three branches differ in the acknowledgement
    commitment only. *)
Definition received_channel_datum (d : ChannelDatum) (op : RecvPacketOperator) (ackCommitment : string) : ChannelDatum :=
  let st := cd_state d in
  let nextSequenceRecv := if is_ordered d then (next_sequence_recv st + 1)%Z else next_sequence_recv st in
  let packetReceipt :=
    if is_ordered d then packet_receipt st else prependToMap (packet_receipt st) (rp_packetSequence op) "" in
  MkChannelDatum
    (MkChannelDatumState (channel st) (next_sequence_send st) nextSequenceRecv (next_sequence_ack st)
       (packet_commitment st) packetReceipt
       (insertSortMapWithNumberKey (packet_acknowledgement st) (rp_packetSequence op) ackCommitment)
       (minimum_receive_proof_height st)
       (maximumHeight (maximum_receive_proof_height st) (rp_proofHeight op)))
    (cd_port d) (cd_token d).

Definition recv_packet (op : RecvPacketOperator) (d : ChannelDatum) : Packet :=
  let cp := ch_counterparty (channel_end d) in
  MkPacket (rp_packetSequence op) (cc_port_id cp) (cc_channel_id cp) (cd_port d)
    (convertString2Hex (rp_channelId op)) (rp_packetData op) (rp_timeoutHeight op) (rp_timeoutTimestamp op).

(** The guards up to the client lookup, and the ones after it. *)
Definition recv_channel_guards (op : RecvPacketOperator) (d : ChannelDatum) : result unit :=
  _ ← validateRecvPacketHistoryCapacity d;
  if decide (ch_state (channel_end d) <> Open) then throw "SendPacket to channel not in Open state" else
  if is_ordered d && negb (rp_packetSequence op =? next_sequence_recv (cd_state d))%Z
  then throw "Invalid recv packet sequence" else Ok tt.

Definition recv_proof_guards (op : RecvPacketOperator) (d : ChannelDatum) (clientDatum : ClientDatum) : result unit :=
  if negb (isValidProofHeight (consensusStates (cld_state clientDatum)).*1 (rp_proofHeight op)) then
    Err (invalid_proof_height (rp_proofHeight op)) else
  if negb (isHeightAtLeast (rp_proofHeight op) (minimum_receive_proof_height (cd_state d))) then
    Err (GrpcFailedPrecondition ("RecvPacket proof height " +:+ height_text (rp_proofHeight op) +:+
      " is below the channel history floor " +:+ height_text (minimum_receive_proof_height (cd_state d)))) else
  if map_has (packet_receipt (cd_state d)) (rp_packetSequence op) then
    Err (GrpcInternal ("PacketReceivedException: Packet with sequence " +:+ pretty (rp_packetSequence op) +:+
                       " has recieved"))
  else Ok tt.

(** The common tail of every branch: encode the next datum, then the HostState
    update for it. *)
Definition commit_channel (d updated : ChannelDatum) (channelId : string) : M gstate (string * HostStateUpdate) :=
  encodedUpdatedChannelDatum ← liftR (encode_channel updated);
  hu ← buildHostStateUpdateForHandlePacket d updated channelId;
  mret (encodedUpdatedChannelDatum, hu).

Definition recv_icq (op : RecvPacketOperator) (cx : ChannelContext) (kx : ClientContext)
    (encodedSpendChannelRedeemer : string) (verifyProof : string * string) : M gstate (PacketTx * PendingTreeUpdate) :=
  let d := cx_channelDatum cx in
  let packet := recv_packet op d in
  moduleConfig ← liftR (getGatewayModuleConfigForPortId ASYNC_ICQ_HOST_PORT);
  moduleUtxo ← liftR (findUtxoByUnit (module_identifier moduleConfig));
  acknowledgementResponse ← liftR (executePacket (hex_decode_prefix (data packet)));
  encodedSpendModuleRedeemer ← liftR (encode_iBCModuleRedeemer (Callback
    (OnRecvPacket (convertString2Hex (rp_channelId op)) (data packet) acknowledgementResponse OtherModuleData)));
  ackCommitment ← liftR (acknowledgementCommitmentFromResponse acknowledgementResponse);
  '(encodedUpdatedChannelDatum, hu) ← commit_channel d (received_channel_datum d op ackCommitment) (rp_channelId op);
  mret (make_tx cx kx hu encodedSpendChannelRedeemer encodedUpdatedChannelDatum recvPacketPolicyId (Some verifyProof)
          (ModuleApp (module_key moduleConfig) moduleUtxo encodedSpendModuleRedeemer), hu_pending hu).

Definition recv_unescrow (op : RecvPacketOperator) (cx : ChannelContext) (kx : ClientContext) (p : Ics20Data)
    (denom encodedSpendChannelRedeemer encodedSpendTransferModuleRedeemer constructedAddress : string)
    (verifyProof : string * string) : M gstate (PacketTx * PendingTreeUpdate) :=
  let d := cx_channelDatum cx in
  let packet := recv_packet op d in
  '(encodedUpdatedChannelDatum, hu) ← commit_channel d (received_channel_datum d op TRANSFER_ACK_COMMITMENT) (rp_channelId op);
  app ← liftR (
    unescrowDenom ← _unwrapVoucherDenom denom (convertHex2String (source_port packet)) (convertHex2String (source_channel packet));
    transferAmount ← bigint_field (i_amount p);
    requestedDenomToken ← mapLovelaceDenom unescrowDenom packet_to_asset;
    '(utxo, moduleUtxo, encodedDatum, shardTokenUnit, denomToken) ←
      unescrow_source (convertString2Hex (rp_channelId op)) (convertString2Hex unescrowDenom) requestedDenomToken
        transferAmount (not_found_text (rp_channelId op) unescrowDenom);
    receiver ← required_text (i_receiver p);
    receiverAddress ← credentialToAddress receiver;
    Ok (UnescrowApp utxo moduleUtxo encodedSpendTransferModuleRedeemer encodedDatum shardTokenUnit transferAmount
          denomToken receiverAddress constructedAddress));
  mret (make_tx cx kx hu encodedSpendChannelRedeemer encodedUpdatedChannelDatum recvPacketPolicyId (Some verifyProof) app,
        hu_pending hu).

Definition recv_mint (op : RecvPacketOperator) (cx : ChannelContext) (kx : ClientContext) (p : Ics20Data)
    (transferModuleUtxo : UTxO)
    (denom encodedSpendChannelRedeemer encodedSpendTransferModuleRedeemer constructedAddress : string)
    (verifyProof : string * string) : M gstate (PacketTx * PendingTreeUpdate) :=
  let d := cx_channelDatum cx in
  let packet := recv_packet op d in
  encodedMintVoucherRedeemer ← liftR (encode_mintVoucherRedeemer
    (MintVoucher (source_port packet) (source_channel packet) (destination_port packet) (destination_channel packet)
       (hex_fields p)));
  let destPrefix := getDenomPrefix (convertHex2String (destination_port packet))
                      (convertHex2String (destination_channel packet)) in
  let fullDenomPath := destPrefix +:+ denom in
  voucherMintDetails ← liftR (buildVoucherMintDetails fullDenomPath);
  '(encodedUpdatedChannelDatum, hu) ← commit_channel d (received_channel_datum d op TRANSFER_ACK_COMMITMENT) (rp_channelId op);
  tx ← liftR (
    receiver ← required_text (i_receiver p);
    receiverAddress ← _resolveVoucherReceiverAddress receiver;
    let build trace :=
      transferAmount ← bigint_field (i_amount p);
      Ok (make_tx cx kx hu encodedSpendChannelRedeemer encodedUpdatedChannelDatum recvPacketPolicyId
        (Some verifyProof) (MintApp transferModuleUtxo encodedSpendTransferModuleRedeemer encodedMintVoucherRedeemer
          voucherMintDetails transferAmount receiverAddress constructedAddress trace)) in
    trace ← resolveTraceRegistryUpdate (md_voucherDenomHash voucherMintDetails) fullDenomPath build;
    build (Some trace));
  mret (tx, hu_pending hu).

Definition recv_transfer (op : RecvPacketOperator) (cx : ChannelContext) (kx : ClientContext) (j : json)
    (encodedSpendChannelRedeemer constructedAddress : string) (verifyProof : string * string)
  : M gstate (PacketTx * PendingTreeUpdate) :=
  let d := cx_channelDatum cx in
  let packet := recv_packet op d in
  p ← liftR (ics20_of_json j);
  encodedSpendTransferModuleRedeemer ← liftR (encode_transferIBCModuleRedeemer (Callback
    (OnRecvPacket (convertString2Hex (rp_channelId op)) (data packet)
       (AcknowledgementResult (convertString2Hex ACK_RESULT)) (ModuleDataV1 (hex_fields p)))));
  transferModuleUtxo ← liftR (findUtxoByUnit transferModuleIdentifier);
  denom ← liftR (required_text (i_denom p));
  if _hasVoucherPrefix denom (convertHex2String (source_port packet)) (convertHex2String (source_channel packet))
  then recv_unescrow op cx kx p denom encodedSpendChannelRedeemer encodedSpendTransferModuleRedeemer constructedAddress
         verifyProof
  else recv_mint op cx kx p transferModuleUtxo denom encodedSpendChannelRedeemer encodedSpendTransferModuleRedeemer
         constructedAddress verifyProof.

Definition ends_with_brace (s : string) : bool := bool_decide (last (utf8 s) = Some x7d).

Definition no_callback (d : ChannelDatum) : error :=
  GrpcInvalidArgument ("No application callback is available for receive packets on port " +:+
                       convertHex2String (cd_port d)).

Definition buildUnsignedRecvPacketTx (op : RecvPacketOperator) (constructedAddress : string)
  : M gstate (PacketTx * PendingTreeUpdate) :=
  cx ← liftR (channelSequence ← channel_sequence (rp_channelId op); load_channel channelSequence);
  let d := cx_channelDatum cx in
  liftR (recv_channel_guards op d) ;;
  kx ← liftR (load_client d);
  liftR (recv_proof_guards op d (kx_clientDatum kx)) ;;
  let packet := recv_packet op d in
  encodedSpendChannelRedeemer ← liftR (encode_spendChannelRedeemer
    (RecvPacket packet (rp_proofCommitment op) (rp_proofHeight op)));
  c ← liftR (consensus_at (kx_clientDatum kx) (rp_proofHeight op) (missing_state (rp_proofHeight op)) missing_meta);
  value ← liftR (commitPacket packet);
  encodedVerifyProofRedeemer ← liftR (encodeVerifyProofRedeemer (VerifyMembership
    (verify_params kx c (rp_proofHeight op) (rp_proofCommitment op)
       (packetCommitmentPath (convertHex2String (source_port packet)) (convertHex2String (source_channel packet))
          (sequence packet))) value));
  let verifyProof := (verifyProofPolicyId, encodedVerifyProofRedeemer) in
  if decide (convertHex2String (cd_port d) = ASYNC_ICQ_HOST_PORT) then
    recv_icq op cx kx encodedSpendChannelRedeemer verifyProof
  else
    let stringData := convertHex2String (rp_packetData op) in
    if startsWith "{" stringData && ends_with_brace stringData then
      match JSON_parse stringData with
      | Err e => raise (GrpcInvalidArgument ("Invalid JSON packet data: " +:+ error_message e))
      | Ok j =>
          match j with
          | JObject fs =>
              if map_has fs "denom" then
                recv_transfer op cx kx j encodedSpendChannelRedeemer constructedAddress verifyProof
              else raise (no_callback d)
          | _ => raise (no_callback d)
          end
      end
    else raise (no_callback d).

(** ** Removing a commitment: acknowledgement and timeout *)

Definition with_commitments (d : ChannelDatum) (m : jsmap Z string) : ChannelDatum :=
  let st := cd_state d in
  MkChannelDatum
    (MkChannelDatumState (channel st) (next_sequence_send st) (next_sequence_recv st) (next_sequence_ack st) m
       (packet_receipt st) (packet_acknowledgement st) (minimum_receive_proof_height st)
       (maximum_receive_proof_height st))
    (cd_port d) (cd_token d).

Definition acked_channel_datum (d : ChannelDatum) (sequence : Z) : ChannelDatum :=
  with_commitments d (deleteKeySortMap (packet_commitment (cd_state d)) sequence).
Definition timed_out_channel_datum (d : ChannelDatum) (sequence : Z) : ChannelDatum :=
  with_commitments d (deleteSortMap (packet_commitment (cd_state d)) sequence).

(** ** Acknowledge *)

(** [response.result] when it is a non-empty string. *)
Definition text_property (j : json) (name : string) : option string :=
  match j with
  | JObject fs => match map_get fs name with
                  | Some (JString s) => if decide (s = "") then None else Some s
                  | _ => None
                  end
  | _ => None
  end.
Definition extractAcknowledgementResult (j : json) : option string := text_property j "result".
Definition extractAcknowledgementError (j : json) : option string :=
  match text_property j "err" with Some e => Some e | None => text_property j "error" end.

Definition acknowledgement_keys (j : json) : string :=
  match j with
  | JObject fs => join "," (map_keys fs)
  | JArray items => join "," (pretty <$> seq 0 (length items))
  | _ => ""
  end.
Definition unknown_acknowledgement (j : json) : error :=
  GrpcInternal ("Acknowledgement Response invalid: unknown result (keys=" +:+ acknowledgement_keys j +:+ ")").

Definition normalizeAcknowledgementResponse (j : json) : result AcknowledgementResponse :=
  match extractAcknowledgementResult j with
  | Some r => Ok (AcknowledgementResult (convertString2Hex r))
  | None =>
      match extractAcknowledgementError j with
      | Some e => Ok (AcknowledgementError (convertString2Hex e))
      | None => Err (unknown_acknowledgement j)
      end
  end.

Record WalletSelection := MkWalletSelection { ws_context : string; ws_excludeAssetUnit : option string }.

Definition ack_packet (op : AckPacketOperator) (d : ChannelDatum) : Packet :=
  let cp := ch_counterparty (channel_end d) in
  MkPacket (ap_packetSequence op) (cd_port d) (convertString2Hex (ap_channelId op)) (cc_port_id cp) (cc_channel_id cp)
    (ap_packetData op) (ap_timeoutHeight op) (ap_timeoutTimestamp op).

Definition ack_proof_guards (op : AckPacketOperator) (d : ChannelDatum) (clientDatum : ClientDatum) : result unit :=
  if negb (isValidProofHeight (consensusStates (cld_state clientDatum)).*1 (ap_proofHeight op)) then
    Err (invalid_proof_height (ap_proofHeight op)) else
  if negb (map_has (packet_commitment (cd_state d)) (ap_packetSequence op)) then
    Err (GrpcInternal ("PacketAcknowledgedException: Packet with sequence " +:+ pretty (ap_packetSequence op) +:+
                       " not exists in the packet commitment map"))
  else Ok tt.

Definition ack_result : Type := PacketTx * PendingTreeUpdate * WalletSelection.
Definition ack_wallet : WalletSelection := MkWalletSelection "acknowledgementPacket" None.

Definition ack_icq (op : AckPacketOperator) (cx : ChannelContext) (kx : ClientContext) (response : json)
    (encodedSpendChannelRedeemer : string) (verifyProof : string * string) : M gstate ack_result :=
  let d := cx_channelDatum cx in
  moduleConfig ← liftR (getGatewayModuleConfigForPortId ASYNC_ICQ_HOST_PORT);
  moduleUtxo ← liftR (findUtxoByUnit (module_identifier moduleConfig));
  normalized ← liftR (normalizeAcknowledgementResponse response);
  encodedSpendModuleRedeemer ← liftR (encode_iBCModuleRedeemer (Callback
    (OnAcknowledgementPacket (convertString2Hex (ap_channelId op)) (ap_packetData op) normalized OtherModuleData)));
  '(encodedUpdatedChannelDatum, hu) ← commit_channel d (acked_channel_datum d (ap_packetSequence op)) (ap_channelId op);
  mret (make_tx cx kx hu encodedSpendChannelRedeemer encodedUpdatedChannelDatum ackPacketPolicyId (Some verifyProof)
          (ModuleApp (module_key moduleConfig) moduleUtxo encodedSpendModuleRedeemer), hu_pending hu, ack_wallet).

Definition ack_succeed (op : AckPacketOperator) (cx : ChannelContext) (kx : ClientContext)
    (transferModuleReferenceUtxo : UTxO)
    (encodedSpendChannelRedeemer encodedSpendTransferModuleRedeemer constructedAddress : string)
    (verifyProof : string * string) : M gstate ack_result :=
  let d := cx_channelDatum cx in
  '(encodedUpdatedChannelDatum, hu) ← commit_channel d (acked_channel_datum d (ap_packetSequence op)) (ap_channelId op);
  mret (make_tx cx kx hu encodedSpendChannelRedeemer encodedUpdatedChannelDatum ackPacketPolicyId (Some verifyProof)
          (SucceedApp transferModuleReferenceUtxo encodedSpendTransferModuleRedeemer constructedAddress),
        hu_pending hu, ack_wallet).

Definition ack_unescrow (op : AckPacketOperator) (cx : ChannelContext) (kx : ClientContext) (p : Ics20Data)
    (denom encodedSpendChannelRedeemer encodedSpendTransferModuleRedeemer constructedAddress : string)
    (verifyProof : string * string) : M gstate ack_result :=
  let d := cx_channelDatum cx in
  '(utxo, moduleUtxo, encodedDatum, shardTokenUnit, denomToken, transferAmount) ← liftR (
    requestedDenomToken ← mapLovelaceDenom denom packet_to_asset;
    transferAmount ← bigint_field (i_amount p);
    '(utxo, moduleUtxo, encodedDatum, shardTokenUnit, denomToken) ←
      unescrow_source (convertString2Hex (ap_channelId op)) (ft_denom (hex_fields p)) requestedDenomToken
        transferAmount (not_found_text (ap_channelId op) denom);
    Ok (utxo, moduleUtxo, encodedDatum, shardTokenUnit, denomToken, transferAmount));
  '(encodedUpdatedChannelDatum, hu) ← commit_channel d (acked_channel_datum d (ap_packetSequence op)) (ap_channelId op);
  senderAddress ← liftR (sender ← required_text (i_sender p); credentialToAddress sender);
  mret (make_tx cx kx hu encodedSpendChannelRedeemer encodedUpdatedChannelDatum ackPacketPolicyId (Some verifyProof)
          (UnescrowApp utxo moduleUtxo encodedSpendTransferModuleRedeemer encodedDatum shardTokenUnit transferAmount
             denomToken senderAddress constructedAddress),
        hu_pending hu,
        MkWalletSelection "acknowledgementPacket(unescrow)" (if decide (denomToken = LOVELACE) then None else Some denomToken)).

Definition ack_mint (op : AckPacketOperator) (cx : ChannelContext) (kx : ClientContext) (p : Ics20Data)
    (transferModuleReferenceUtxo : UTxO) (acknowledgementError : string)
    (denom encodedSpendChannelRedeemer encodedSpendTransferModuleRedeemer constructedAddress : string)
    (verifyProof : string * string) : M gstate ack_result :=
  let d := cx_channelDatum cx in
  let packet := ack_packet op d in
  encodedMintVoucherRedeemer ← liftR (encode_mintVoucherRedeemer
    (RefundVoucher (source_port packet) (source_channel packet) (hex_fields p)
       (Some (AcknowledgementError (convertString2Hex acknowledgementError)))));
  voucherMintDetails ← liftR (buildVoucherMintDetails denom);
  '(encodedUpdatedChannelDatum, hu) ← commit_channel d (acked_channel_datum d (ap_packetSequence op)) (ap_channelId op);
  tx ← liftR (
    let build trace :=
      transferAmount ← bigint_field (i_amount p);
      sender ← required_text (i_sender p);
      senderAddress ← credentialToAddress sender;
      Ok (make_tx cx kx hu encodedSpendChannelRedeemer encodedUpdatedChannelDatum ackPacketPolicyId (Some verifyProof)
        (MintApp transferModuleReferenceUtxo encodedSpendTransferModuleRedeemer encodedMintVoucherRedeemer
           voucherMintDetails transferAmount senderAddress constructedAddress trace)) in
    trace ← resolveTraceRegistryUpdate (md_voucherDenomHash voucherMintDetails) denom build;
    build (Some trace));
  mret (tx, hu_pending hu, ack_wallet).

Definition ack_transfer (op : AckPacketOperator) (cx : ChannelContext) (kx : ClientContext) (response : json)
    (encodedSpendChannelRedeemer constructedAddress : string) (verifyProof : string * string) : M gstate ack_result :=
  let d := cx_channelDatum cx in
  let packet := ack_packet op d in
  p ← liftR (j ← JSON_parse (convertHex2String (ap_packetData op)); ics20_of_json j);
  normalized ← liftR (normalizeAcknowledgementResponse response);
  encodedSpendTransferModuleRedeemer ← liftR (encode_transferIBCModuleRedeemer (Callback
    (OnAcknowledgementPacket (convertString2Hex (ap_channelId op)) (ap_packetData op) normalized
       (ModuleDataV1 (hex_fields p)))));
  transferModuleReferenceUtxo ← liftR (findUtxoByUnit transferModuleIdentifier);
  match extractAcknowledgementResult response with
  | Some _ =>
      ack_succeed op cx kx transferModuleReferenceUtxo encodedSpendChannelRedeemer encodedSpendTransferModuleRedeemer
        constructedAddress verifyProof
  | None =>
      match extractAcknowledgementError response with
      | None => raise (unknown_acknowledgement response)
      | Some acknowledgementError =>
          denom ← liftR (required_text (i_denom p));
          if negb (_hasVoucherPrefix denom (convertHex2String (source_port packet))
                     (convertHex2String (source_channel packet)))
          then ack_unescrow op cx kx p denom encodedSpendChannelRedeemer encodedSpendTransferModuleRedeemer
                 constructedAddress verifyProof
          else ack_mint op cx kx p transferModuleReferenceUtxo acknowledgementError denom encodedSpendChannelRedeemer
                 encodedSpendTransferModuleRedeemer constructedAddress verifyProof
      end
  end.

Definition buildUnsignedAcknowlegementPacketTx (op : AckPacketOperator) (constructedAddress : string)
  : M gstate ack_result :=
  cx ← liftR (channelSequence ← channel_sequence (ap_channelId op); load_channel channelSequence);
  let d := cx_channelDatum cx in
  if decide (ch_state (channel_end d) <> Open) then raise (JsError "SendPacket to channel not in Open state") else
  kx ← liftR (load_client d);
  liftR (ack_proof_guards op d (kx_clientDatum kx)) ;;
  let packet := ack_packet op d in
  encodedSpendChannelRedeemer ← liftR (encode_spendChannelRedeemer
    (AcknowledgePacket packet (ap_acknowledgement op) (ap_proofAcked op) (ap_proofHeight op)));
  response ← liftR (JSON_parse (convertHex2String (ap_acknowledgement op)));
  c ← liftR (consensus_at (kx_clientDatum kx) (ap_proofHeight op) (missing_state (ap_proofHeight op)) missing_meta);
  value ← liftR (hashSHA256 (ap_acknowledgement op));
  encodedVerifyProofRedeemer ← liftR (encodeVerifyProofRedeemer (VerifyMembership
    (verify_params kx c (ap_proofHeight op) (ap_proofAcked op)
       (packetAcknowledgementPath (convertHex2String (destination_port packet))
          (convertHex2String (destination_channel packet)) (sequence packet))) value));
  let verifyProof := (verifyProofPolicyId, encodedVerifyProofRedeemer) in
  if decide (convertHex2String (source_port packet) = ASYNC_ICQ_HOST_PORT)
  then ack_icq op cx kx response encodedSpendChannelRedeemer verifyProof
  else ack_transfer op cx kx response encodedSpendChannelRedeemer constructedAddress verifyProof.

(** ** Time out *)

Definition timeout_fields (f : FungibleTokenPacketDatum) : FungibleTokenPacketDatum :=
  MkFungibleTokenPacketDatum (convertString2Hex (ft_denom f)) (convertString2Hex (ft_amount f))
    (convertString2Hex (ft_sender f)) (convertString2Hex (ft_receiver f)) (convertString2Hex (ft_memo f)).

Definition timeout_unescrow (op : TimeoutPacketOperator) (cx : ChannelContext) (kx : ClientContext) (hu : HostStateUpdate)
    (denom : string) (transferAmount : Z)
    (encodedSpendChannelRedeemer encodedUpdatedChannelDatum encodedSpendTransferModuleRedeemer
     constructedAddress : string) (verifyProof : string * string) : result (PacketTx * PendingTreeUpdate) :=
  let packet := tp_packet op in
  let f := tp_fungibleTokenPacketData op in
  requestedDenomToken ← normalizeDenomTokenTransfer denom;
  '(utxo, moduleUtxo, encodedDatum, shardTokenUnit, denomToken) ←
    unescrow_source (source_channel packet) (convertString2Hex (ft_denom f)) requestedDenomToken transferAmount
      (not_found_text (convertHex2String (source_channel packet)) (ft_denom f));
  senderAddress ← credentialToAddress (ft_sender f);
  Ok (make_tx cx kx hu encodedSpendChannelRedeemer encodedUpdatedChannelDatum timeoutPacketPolicyId (Some verifyProof)
        (UnescrowApp utxo moduleUtxo encodedSpendTransferModuleRedeemer encodedDatum shardTokenUnit transferAmount
           denomToken senderAddress constructedAddress), hu_pending hu).

Definition timeout_mint (op : TimeoutPacketOperator) (cx : ChannelContext) (kx : ClientContext) (hu : HostStateUpdate)
    (transferModuleReferenceUtxo : UTxO) (denom : string) (transferAmount : Z)
    (encodedSpendChannelRedeemer encodedUpdatedChannelDatum encodedSpendTransferModuleRedeemer
     constructedAddress : string) (verifyProof : string * string) : result (PacketTx * PendingTreeUpdate) :=
  let packet := tp_packet op in
  let f := tp_fungibleTokenPacketData op in
  voucherMintDetails ← buildVoucherMintDetails denom;
  encodedMintVoucherRedeemer ← encode_mintVoucherRedeemer
    (RefundVoucher (source_port packet) (source_channel packet) (timeout_fields f) None);
  let build trace :=
    senderAddress ← credentialToAddress (ft_sender f);
    Ok (make_tx cx kx hu encodedSpendChannelRedeemer encodedUpdatedChannelDatum timeoutPacketPolicyId (Some verifyProof)
      (MintApp transferModuleReferenceUtxo encodedSpendTransferModuleRedeemer encodedMintVoucherRedeemer
         voucherMintDetails transferAmount senderAddress constructedAddress trace)) in
  trace ← resolveTraceRegistryUpdate (md_voucherDenomHash voucherMintDetails) denom build;
  tx ← build (Some trace);
  Ok (tx, hu_pending hu).

Definition buildUnsignedTimeoutPacketTx (op : TimeoutPacketOperator) (constructedAddress : string)
  : M gstate (PacketTx * PendingTreeUpdate) :=
  let packet := tp_packet op in
  let f := tp_fungibleTokenPacketData op in
  cx ← liftR (channelSequence ← parseChannelSequence (convertHex2String (source_channel packet));
              load_channel channelSequence);
  let d := cx_channelDatum cx in
  kx ← liftR (load_client d);
  if negb (isValidProofHeight (consensusStates (cld_state (kx_clientDatum kx))).*1 (tp_proofHeight op)) then
    raise (invalid_proof_height (tp_proofHeight op)) else
  let updated := timed_out_channel_datum d (sequence packet) in
  transferModuleReferenceUtxo ← liftR (findUtxoByUnit transferModuleIdentifier);
  transferAmount ← liftR (BigInt (ft_amount f));
  denom ← liftR (mapLovelaceDenom (ft_denom f) packet_to_asset);
  encodedSpendChannelRedeemer ← liftR (encode_spendChannelRedeemer
    (TimeoutPacket packet (tp_proofUnreceived op) (tp_proofHeight op) (tp_nextSequenceRecv op)));
  '(encodedUpdatedChannelDatum, hu) ← commit_channel d updated (convertHex2String (source_channel packet));
  encodedSpendTransferModuleRedeemer ← liftR (encode_transferIBCModuleRedeemer (Callback
    (OnTimeoutPacket (source_channel packet) (data packet) (ModuleDataV1 (timeout_fields f)))));
  let voucherHasPrefix := _hasVoucherPrefix (ft_denom f) (convertHex2String (source_port packet))
                            (convertHex2String (source_channel packet)) in
  c ← liftR (consensus_at (kx_clientDatum kx) (tp_proofHeight op) (missing_state (tp_proofHeight op)) missing_meta);
  encodedVerifyProofRedeemer ← liftR (encodeVerifyProofRedeemer (VerifyNonMembership
    (verify_params kx c (tp_proofHeight op) (tp_proofUnreceived op)
       (packetReceiptPath (convertHex2String (destination_port packet)) (convertHex2String (destination_channel packet))
          (sequence packet)))));
  let verifyProof := (verifyProofPolicyId, encodedVerifyProofRedeemer) in
  liftR (
    if negb voucherHasPrefix
    then timeout_unescrow op cx kx hu denom transferAmount encodedSpendChannelRedeemer encodedUpdatedChannelDatum
           encodedSpendTransferModuleRedeemer constructedAddress verifyProof
    else timeout_mint op cx kx hu transferModuleReferenceUtxo denom transferAmount encodedSpendChannelRedeemer
           encodedUpdatedChannelDatum encodedSpendTransferModuleRedeemer constructedAddress verifyProof).

(** ** Send (application modules) *)

Definition sent_channel_datum (d : ChannelDatum) (packetCommitment : string) : ChannelDatum :=
  let st := cd_state d in
  MkChannelDatum
    (MkChannelDatumState (channel st) (next_sequence_send st + 1) (next_sequence_recv st) (next_sequence_ack st)
       (insertSortMapWithNumberKey (packet_commitment st) (next_sequence_send st) packetCommitment)
       (packet_receipt st) (packet_acknowledgement st) (minimum_receive_proof_height st)
       (maximum_receive_proof_height st))
    (cd_port d) (cd_token d).

(** A zero height and timestamp become a height on the destination client. *)
Definition resolved_timeout_height (op : SendModulePacketOperator) (clientDatum : ClientDatum) : Height :=
  if ((revisionNumber (sp_timeoutHeight op) =? 0) && (revisionHeight (sp_timeoutHeight op) =? 0) &&
      (sp_timeoutTimestamp op =? 0))%Z
  then let latest := latestHeight (clientState (cld_state clientDatum)) in
       MkHeight (revisionNumber latest) (revisionHeight latest + DEFAULT_ASYNC_ICQ_TIMEOUT_HEIGHT_DELTA)
  else sp_timeoutHeight op.

Definition send_module_packet (op : SendModulePacketOperator) (d : ChannelDatum) (clientDatum : ClientDatum) : Packet :=
  let cp := ch_counterparty (channel_end d) in
  MkPacket (next_sequence_send (cd_state d)) (convertString2Hex (sp_sourcePort op))
    (convertString2Hex (sp_sourceChannel op)) (cc_port_id cp) (cc_channel_id cp) (sp_packetData op)
    (resolved_timeout_height op clientDatum) (sp_timeoutTimestamp op).

Definition buildUnsignedSendModulePacketTx (op : SendModulePacketOperator)
  : M gstate (PacketTx * PendingTreeUpdate * Z) :=
  if decide (sp_sourcePort op <> ASYNC_ICQ_HOST_PORT) then
    raise (GrpcInvalidArgument ("Invalid argument: " +:+ quoted "source_port" +:+ " " +:+ sp_sourcePort op +:+
                                " not supported for async-icq send")) else
  cx ← liftR (channelSequence ← channel_sequence (sp_sourceChannel op); load_channel channelSequence);
  let d := cx_channelDatum cx in
  liftR (validateSendPacketCommitmentCapacity d) ;;
  kx ← liftR (load_client d);
  moduleConfig ← liftR (getGatewayModuleConfigForPortId (sp_sourcePort op));
  match module_key moduleConfig with
  | key_transfer => raise (GrpcInvalidArgument "async-icq send must not use the transfer module")
  | _ =>
      moduleUtxo ← liftR (findUtxoByUnit (module_identifier moduleConfig));
      let packet := send_module_packet op d (kx_clientDatum kx) in
      packetCommitment ← liftR (commitPacket packet);
      encodedSpendChannelRedeemer ← liftR (encode_spendChannelRedeemer (SendPacket packet));
      encodedSpendModuleRedeemer ← liftR (encode_iBCModuleRedeemer (Callback
        (OnSendPacket (convertString2Hex (sp_sourceChannel op)) (data packet) packetCommitment OtherModuleData)));
      '(encodedUpdatedChannelDatum, hu) ← commit_channel d (sent_channel_datum d packetCommitment) (sp_sourceChannel op);
      mret (make_tx cx kx hu encodedSpendChannelRedeemer encodedUpdatedChannelDatum sendPacketPolicyId None
              (ModuleApp (module_key moduleConfig) moduleUtxo encodedSpendModuleRedeemer), hu_pending hu, sequence packet)
  end.

End packet_service.
