(* ===== verification/TxRunner.v ===== *)
(** * Completing transactions ([tx/tx-operation-runner.service.ts])

    Every handler hands its plan to one [TxOperationRunnerService], which completes
    plans one at a time behind a chain of promises, each attempt inside a wallet
    selection scope of the Lucid service, and then registers the pending tree update
    and the events of the transaction.

    The handlers run concurrently on one event loop: between two [await]s a handler
    runs alone.  The model is a labelled transition function: a step is what one
    handler does up to its next [await], and a label carries the answer the awaited
    call gave.  The selected wallet and the scope variables are shared by all of them. *)

From Stdlib Require Import ZArith Lia.
From S2P Require Import Prelude JsMap JsString Hex MerkleTree Datum StateRoot TreeRebuild TreeServices EscrowShard PacketOps.

(** ** The wallet of the Lucid service ([lucid.service.ts]) *)

Record LucidWallet := MkLucidWallet {
  walletSelectionScopeCounter : Z;
  activeWalletSelectionScopeId : option Z;
  explicitWalletSelectionForScopeId : option Z;
  explicitWalletSelectionAddress : option string;
  selected_wallet : option (string * list UTxO);
}.

Definition initial_wallet : LucidWallet := MkLucidWallet 0 None None None None.

Definition beginWalletSelectionScope (w : LucidWallet) : Z * LucidWallet :=
  let scopeId := (walletSelectionScopeCounter w + 1)%Z in
  (scopeId, MkLucidWallet scopeId (Some scopeId) None None (selected_wallet w)).

Definition no_wallet_selected (operationName : string) : error :=
  GrpcInternal (operationName +:+ " failed: no explicit address-backed wallet context was selected before complete()").

Definition assertWalletSelectionScopeSatisfied (scopeId : Z) (operationName : string) (w : LucidWallet) : result unit :=
  if decide (activeWalletSelectionScopeId w <> Some scopeId \/ explicitWalletSelectionForScopeId w <> Some scopeId \/
             default "" (explicitWalletSelectionAddress w) = "")
  then Err (no_wallet_selected operationName) else Ok tt.

Definition endWalletSelectionScope (scopeId : Z) (w : LucidWallet) : LucidWallet :=
  if decide (activeWalletSelectionScopeId w <> Some scopeId) then w
  else MkLucidWallet (walletSelectionScopeCounter w) None None None (selected_wallet w).

Section wallet.
Context `{PE : PacketEnv}.

Definition normalizeAddressOrCredential (addressOrCredential : string) : result string :=
  let normalized := trim addressOrCredential in
  if decide (normalized = "") then Ok normalized else
  let lowered := toLowerCase normalized in
  if startsWith "addr" lowered || startsWith "stake" lowered then Ok normalized else
  if negb (is_hex_text lowered) then Ok normalized else
  if decide (str_length lowered = 58%nat) then credentialToAddress (slice_from 2 lowered) else
  if decide (str_length lowered = 56%nat) then credentialToAddress lowered else
  Ok normalized.

Definition selectWalletFromAddress (addressOrCredential : string) (utxos : list UTxO) (w : LucidWallet) : result LucidWallet :=
  normalizedAddress ← normalizeAddressOrCredential addressOrCredential;
  let selected := Some (normalizedAddress, utxos) in
  Ok (match activeWalletSelectionScopeId w with
      | Some scope => MkLucidWallet (walletSelectionScopeCounter w) (Some scope) (Some scope) (Some normalizedAddress) selected
      | None => MkLucidWallet (walletSelectionScopeCounter w) None (explicitWalletSelectionForScopeId w)
                  (explicitWalletSelectionAddress w) selected
      end).
End wallet.

(** ** Events ([tx-events.service.ts]) *)

Record GatewayEvent := MkGatewayEvent { event_type : string; attributes : list (string * string) }.

Record TxEvents := MkTxEvents {
  eventsByTxHash : jsmap string (list GatewayEvent);
  eventsByExpectedRoot : jsmap string (list GatewayEvent);
}.

Definition register_events (txHash : string) (events : list GatewayEvent) : M TxEvents unit :=
  if decide (txHash = "") then mret tt
  else modify (fun e => MkTxEvents (map_set (eventsByTxHash e) (toLowerCase txHash) events) (eventsByExpectedRoot e)).

Definition registerByExpectedRoot (expectedRoot : string) (events : list GatewayEvent) : M TxEvents unit :=
  if decide (expectedRoot = "") then mret tt
  else modify (fun e => MkTxEvents (eventsByTxHash e) (map_set (eventsByExpectedRoot e) (toLowerCase expectedRoot) events)).

Definition take_events (txHash : string) : M TxEvents (option (list GatewayEvent)) :=
  let key := toLowerCase txHash in
  events ← gets (fun e => map_get (eventsByTxHash e) key);
  match events with
  | Some ev => modify (fun e => MkTxEvents (map_delete (eventsByTxHash e) key) (eventsByExpectedRoot e)) ;; mret (Some ev)
  | None => mret None
  end.

Definition take_events_by_root (expectedRoot : string) : M TxEvents (option (list GatewayEvent)) :=
  let key := toLowerCase expectedRoot in
  events ← gets (fun e => map_get (eventsByExpectedRoot e) key);
  match events with
  | Some ev => modify (fun e => MkTxEvents (eventsByTxHash e) (map_delete (eventsByExpectedRoot e) key)) ;; mret (Some ev)
  | None => mret None
  end.

(** ** Plans

    [Tx] stands for a built transaction, [CompletedTx] for a completed one. *)

Inductive TxWalletInstruction :=
| RefreshFromAddress (address context : string)
(** a custom instruction looks UTxOs up once and selects at most one wallet *)
| CustomBeforeComplete (run : list UTxO -> result (option (string * list UTxO))).

Record TxCompleteRetryPolicy := MkRetryPolicy { maxAttempts : Z; isRetryable : error -> bool }.

Record TxOperationPlan (Tx : Type) := MkPlan {
  operationName : string;
  unsignedTx : Tx;
  rebuildUnsignedTx : bool;
  validity : Tx -> result Tx;
  wallet : TxWalletInstruction;
  completeRetry : option TxCompleteRetryPolicy;
  (** the update, or the function that returns the one of the transaction built last *)
  pendingTreeUpdate : Tx -> option PendingTreeUpdate;
  syntheticEvents : list GatewayEvent;
}.
Arguments MkPlan {_}. Arguments operationName {_}. Arguments unsignedTx {_}. Arguments rebuildUnsignedTx {_}. Arguments validity {_}.
Arguments wallet {_}. Arguments completeRetry {_}. Arguments pendingTreeUpdate {_}. Arguments syntheticEvents {_}.

(** What an awaited call returns: the rebuilt transaction, with the wallet its builder
    selected; the UTxOs of the wallet; the completed transaction; the end of the wait
    between two attempts. *)
Inductive answer (Tx CompletedTx : Type) :=
| AnsRebuilt (selection : option (string * list UTxO)) (r : result Tx)
| AnsUtxos (utxos : list UTxO)
| AnsScheduled
| AnsCompleted (r : result CompletedTx)
| AnsWaited (r : result unit).
Arguments AnsRebuilt {_ _}. Arguments AnsUtxos {_ _}. Arguments AnsScheduled {_ _}. Arguments AnsCompleted {_ _}.
Arguments AnsWaited {_ _}.

(** Where [completeWithExplicitWalletSelection] stands: before an attempt, waiting for
    the wallet instruction's lookup, back in the loop after it, waiting for [complete]
    (called with the wallet [used]), or between two attempts. *)
Inductive progress (Tx : Type) :=
| Attempt (n : Z)
| AwaitWallet (n : Z) (tx built : Tx) (scope : Z)
| WalletApplied (n : Z) (tx built : Tx) (scope : Z)
| AwaitComplete (n : Z) (tx built : Tx) (scope : Z) (used : option (string * list UTxO))
| AwaitRetry (n scope : Z).
Arguments Attempt {_}. Arguments AwaitWallet {_}. Arguments WalletApplied {_}. Arguments AwaitComplete {_}. Arguments AwaitRetry {_}.

Section runner.
Context `{PE : PacketEnv} {Tx CompletedTx : Type} (toHash : CompletedTx -> string).

Abbreviation Plan := (TxOperationPlan Tx).

Definition plan_attempts (p : Plan) : Z := Z.max 1 (from_option maxAttempts 1%Z (completeRetry p)).

(** [applyWalletInstruction]: what is selected once the lookup has returned. *)
Definition wallet_selection (i : TxWalletInstruction) (utxos : list UTxO) : result (option (string * list UTxO)) :=
  match i with
  | RefreshFromAddress address context =>
      if decide (utxos = []) then Err (GrpcInternal (context +:+ " failed: no spendable UTxOs found for " +:+ address))
      else Ok (Some (address, utxos))
  | CustomBeforeComplete run => run utxos
  end.

Definition apply_selection (s : option (string * list UTxO)) (w : LucidWallet) : result LucidWallet :=
  match s with Some (a, utxos) => selectWalletFromAddress a utxos w | None => Ok w end.

(** A step of the loop ends in the next [progress], or returns or throws. *)
Abbreviation outcome := (LucidWallet * (progress Tx + result (CompletedTx * Tx)))%type.

(** The [catch] and [finally] blocks. *)
Definition attempt_failed (p : Plan) (n scope : Z) (e : error) (w : LucidWallet) : outcome :=
  if bool_decide (n < plan_attempts p)%Z && from_option (fun r => isRetryable r e) false (completeRetry p) && rebuildUnsignedTx p
  then (w, inl (AwaitRetry n scope))
  else (endWalletSelectionScope scope w, inr (Err e)).

(** The transaction of attempt [n], and the wallet its builder selected. *)
Definition attempt_tx (p : Plan) (n : Z) (selection : option (string * list UTxO)) (r : result Tx) (w : LucidWallet)
  : result Tx * LucidWallet :=
  if bool_decide (n = 1%Z) || negb (rebuildUnsignedTx p) then (Ok (unsignedTx p), w)
  else match apply_selection selection w with Err e => (Err e, w) | Ok w' => (r, w') end.

Definition body_step (p : Plan) (a : answer Tx CompletedTx) (w : LucidWallet) (b : progress Tx) : option outcome :=
  match b, a with
  | Attempt n, AnsRebuilt selection r =>
      let '(built, w') := attempt_tx p n selection r w in
      Some (match built with
            | Err e => (w', inr (Err e))
            | Ok tx => match validity p tx with
                       | Err e => (w', inr (Err e))
                       | Ok tx' => let '(scope, w'') := beginWalletSelectionScope w' in (w'', inl (AwaitWallet n tx' tx scope))
                       end
            end)
  | AwaitWallet n tx built scope, AnsUtxos utxos =>
      Some (match wallet_selection (wallet p) utxos with
            | Err e => attempt_failed p n scope e w
            | Ok s => match apply_selection s w with
                      | Err e => attempt_failed p n scope e w
                      | Ok w' => (w', inl (WalletApplied n tx built scope))
                      end
            end)
  | WalletApplied n tx built scope, AnsScheduled =>
      Some (match assertWalletSelectionScopeSatisfied scope (operationName p) w with
            | Err e => attempt_failed p n scope e w
            | Ok _ => (w, inl (AwaitComplete n tx built scope (selected_wallet w)))
            end)
  | AwaitComplete n tx built scope used, AnsCompleted r =>
      Some (match r with
            | Ok c => (endWalletSelectionScope scope w, inr (Ok (c, built)))
            | Err e => attempt_failed p n scope e w
            end)
  | AwaitRetry n scope, AnsWaited r =>
      Some (endWalletSelectionScope scope w,
            match r with Ok _ => inl (Attempt (n + 1)) | Err e => inr (Err e) end)
  | _, _ => None
  end.

(** ** After completion *)

Abbreviation registry := (pending * TxEvents)%type.

Definition on_pending {A} (m : M pending A) : M registry A := fun s => let '(r, p) := m s.1 in (r, (p, s.2)).
Definition on_events {A} (m : M TxEvents A) : M registry A := fun s => let '(r, e) := m s.2 in (r, (s.1, e)).

Definition register_completed (p : Plan) (c : CompletedTx) (built : Tx) : M registry unit :=
  let unsignedTxHash := toHash c in
  let update := pendingTreeUpdate p built in
  match update with Some u => on_pending (register unsignedTxHash u) | None => mret tt end ;;
  match syntheticEvents p with
  | [] => mret tt
  | events =>
      on_events (register_events unsignedTxHash events) ;;
      match update with
      | Some u => if decide (expectedNewRoot u = "") then mret tt else on_events (registerByExpectedRoot (expectedNewRoot u) events)
      | None => mret tt
      end
  end.

(** ** The concurrent handlers *)

(** A handler builds its transaction, waits in [withCompletionLock] for the promise
    [previous] (its own is [own]), holds the lock, has its result, has registered it. *)
Inductive stage :=
| Building
| Waiting (previous own : nat)
| Locked (own : nat) (b : progress Tx)
| Released (r : result (CompletedTx * Tx))
| Done (r : result CompletedTx).

Record system := MkSystem {
  tasks : list (Plan * stage);
  completionChain : nat;
  next_promise : nat;
  resolved : list nat;
  lucid_wallet : LucidWallet;
  registered : registry;
}.

(** The first promise of the chain is [Promise.resolve()]. *)
Definition start (plans : list Plan) : system :=
  MkSystem ((fun p => (p, Building)) <$> plans) 0 1 [0%nat] initial_wallet ([], MkTxEvents [] []).

Inductive label :=
| LSelect (i : nat) (address : string) (utxos : list UTxO)
| LEnter (i : nat)
| LAcquire (i : nat)
| LBody (i : nat) (a : answer Tx CompletedTx)
| LRegister (i : nat).

Definition set_task (s : system) (i : nat) (p : Plan) (st : stage) : list (Plan * stage) := <[i := (p, st)]> (tasks s).

Definition sys_step (l : label) (s : system) : option system :=
  match l with
  | LSelect i address utxos =>
      (** [refreshWalletContext] of a builder, outside the lock *)
      '(p, st) ← tasks s !! i;
      match st with
      | Building => match selectWalletFromAddress address utxos (lucid_wallet s) with
                    | Ok w => Some (MkSystem (tasks s) (completionChain s) (next_promise s) (resolved s) w (registered s))
                    | Err _ => None
                    end
      | _ => None
      end
  | LEnter i =>
      '(p, st) ← tasks s !! i;
      match st with
      | Building => Some (MkSystem (set_task s i p (Waiting (completionChain s) (next_promise s))) (next_promise s) (S (next_promise s))
                            (resolved s) (lucid_wallet s) (registered s))
      | _ => None
      end
  | LAcquire i =>
      '(p, st) ← tasks s !! i;
      match st with
      | Waiting previous own =>
          if decide (previous ∈ resolved s)
          then Some (MkSystem (set_task s i p (Locked own (Attempt 1))) (completionChain s) (next_promise s) (resolved s)
                       (lucid_wallet s) (registered s))
          else None
      | _ => None
      end
  | LBody i a =>
      '(p, st) ← tasks s !! i;
      match st with
      | Locked own b =>
          '(w, o) ← body_step p a (lucid_wallet s) b;
          Some (match o with
                | inl b' => MkSystem (set_task s i p (Locked own b')) (completionChain s) (next_promise s) (resolved s) w (registered s)
                | inr r => MkSystem (set_task s i p (Released r)) (completionChain s) (next_promise s) (own :: resolved s) w (registered s)
                end)
      | _ => None
      end
  | LRegister i =>
      '(p, st) ← tasks s !! i;
      match st with
      | Released (Ok (c, built)) =>
          Some (MkSystem (set_task s i p (Done (Ok c))) (completionChain s) (next_promise s) (resolved s) (lucid_wallet s)
                  (register_completed p c built (registered s)).2)
      | Released (Err e) =>
          Some (MkSystem (set_task s i p (Done (Err e))) (completionChain s) (next_promise s) (resolved s) (lucid_wallet s) (registered s))
      | _ => None
      end
  end.

Fixpoint exec (ls : list label) (s : system) : option system :=
  match ls with [] => Some s | l :: ls' => sys_step l s ≫= exec ls' end.

Definition reachable (plans : list Plan) (s : system) : Prop := exists ls, exec ls (start plans) = Some s.

End runner.
