(* ===== verification/TxBuilder.v ===== *)
(** * The ICS-20 send flow ([packages/cardano-ibc-tx-builder])

    The send builder is a package of its own, used by the Gateway and by the
    browser runtime: it is written against a record of dependencies (lookups,
    codecs, error constructors).  The record is the class
    [SendPacketBuildDependencies], over an arbitrary state, and the Gateway's
    instance of it is [gateway_deps] below, from [tx/packet.service.ts].

    The package has its own copies of the Gateway's denom helpers; those that are
    not the same text carry the suffix [_pkg]. *)

From S2P Require Import Prelude JsMap JsString JsJson Hex MerkleTree ToyHash Datum ToyLucid StateRoot PacketHelpers TreeRebuild EscrowShard EscrowShardTheorems Voucher VoucherTheorems TreeServices Redeemers PacketDenom PacketOps.

(** ** Data *)

Record SendPacketOperator := MkSendPacketOperator {
  so_sourcePort : string; so_sourceChannel : string; so_denom : string; so_amount : Z; so_sender : string;
  so_receiver : string; so_signer : string; so_timeoutHeight : Height; so_timeoutTimestamp : Z; so_memo : string;
}.

Record SendDeployment := MkSendDeployment {
  sd_sendPacketPolicyId : string; sd_mintVoucherScriptHash : string; sd_transferEscrowShardPolicyId : string;
  sd_spendChannelAddress : string; sd_transferModuleAddress : string;
}.

Record LoadedSendPacketContext := MkLoadedSendPacketContext {
  lc_channelUtxo : UTxO; lc_channelDatum : ChannelDatum; lc_connectionUtxo : UTxO; lc_connectionDatum : ConnectionDatum;
  lc_clientUtxo : UTxO; lc_transferModuleReferenceUtxo : UTxO; lc_channelTokenUnit : string; lc_channelToken : AuthToken;
  lc_deployment : SendDeployment;
}.

Record VoucherDenomTrace := MkVoucherDenomTrace { vt_path : string; vt_baseDenom : string }.

(** The redeemer that mints the token of a new escrow shard. *)
Record CreateEscrowShard := MkCreateEscrowShard {
  ce_channel_id : string; ce_denom : string; ce_data : FungibleTokenPacketDatum; ce_registry_siblings : list string;
}.

(** What [encode(value, kind)] is called with. *)
Inductive EncodeRequest :=
| EncSpendChannel (r : SpendChannelRedeemer)
| EncTransferModule (r : IBCModuleRedeemer FungibleTokenPacketDatum TransferModuleRedeemer)
| EncMintVoucher (r : MintVoucherRedeemer)
| EncEscrowShard (r : CreateEscrowShard)
| EncChannel (d : ChannelDatum).

Record SendPacketBuildResult := MkSendPacketBuildResult {
  sr_unsignedTx : PacketTx; sr_pendingTreeUpdate : PendingTreeUpdate; sr_walletOverride : string * list UTxO;
}.

Class SendPacketBuildDependencies (S : Type) := {
  loadContext : SendPacketOperator -> M S LoadedSendPacketContext;
  buildHostStateUpdate : ChannelDatum -> ChannelDatum -> string -> M S HostStateUpdate;
  resolveIbcDenomHash : string -> M S (option VoucherDenomTrace);
  dep_commitPacket : Packet -> result string;
  dep_encode : EncodeRequest -> M S string;
  findUtxoAtWithUnit : string -> string -> M S UTxO;
  tryFindUtxosAt : string -> M S (list UTxO);
  dep_findTransferEscrowShard : string -> string -> string -> M S TransferEscrowShardLookup;
  createUnsignedSendPacketBurnTx : PacketTx -> M S PacketTx;
  createUnsignedSendPacketEscrowTx : PacketTx -> M S PacketTx;
  invalidArgument : string -> error;
  failedPrecondition : option (string -> error);
  internalError : string -> error;
}.

(** ** Helpers of the package *)

Section helpers.
Context {S : Type} {DEPS : SendPacketBuildDependencies S} `{BL : Blake2b}.

Definition normalizeDenomTokenTransfer_pkg (denom : string) : result string :=
  let normalizedDenom := trim denom in
  if decide (normalizedDenom = "") then
    Err (invalidArgument ("Invalid argument: " +:+ quoted "token.denom" +:+ " is required"))
  else Ok normalizedDenom.

Definition mapLovelaceDenom_pkg (denom : string) (dir : direction) : string :=
  let normalizedDenom := trim denom in
  let lowerDenom := toLowerCase normalizedDenom in
  let lovelacePacketDenom := hex_encode (utf8 LOVELACE) in
  match dir with
  | asset_to_packet => if decide (lowerDenom = LOVELACE) then lovelacePacketDenom else normalizedDenom
  | packet_to_asset =>
      if decide (lowerDenom = lovelacePacketDenom \/ lowerDenom = LOVELACE) then LOVELACE else normalizedDenom
  end.

Definition hasVoucherPrefix (denom portId channelId : string) : bool :=
  startsWith (getDenomPrefix portId channelId) denom.

Definition convertStringToHex (value : string) : string :=
  if decide (value = "") then "" else hex_encode (utf8 value).

Definition isCardanoTokenUnitDenom (denom : string) : bool :=
  (56 <=? str_length denom)%nat && (str_length denom <=? 120)%nat && all_hex denom.
Definition isHexDenom (denom : string) : bool := Nat.even (str_length denom) && is_hex_text denom.

Definition buildVoucherTokenName (denom : string) : result string :=
  if startsWith "ibc/" denom then
    Err (invalidArgument ("IBC hash denom " +:+ denom +:+
                          " must be reverse-resolved before voucher token-name hashing")) else
  if isHexDenom denom then
    Err (invalidArgument
      "Voucher denom appears to be already hex-encoded; refusing to hash a double-encoded denom")
  else Ok (CIP67_FT_LABEL_HEX +:+ hex_encode (blake2b224 (utf8 denom))).

Definition resolvePacketDenomForSend (denom : string) : M S string :=
  if negb (startsWith "ibc/" denom) then mret denom else
  let denomHash := toLowerCase (slice_from 4 denom) in
  found ← resolveIbcDenomHash denomHash;
  match found with
  | None => raise (invalidArgument ("IBC denom " +:+ denom +:+
                                    " not found in denom traces; cannot derive voucher token name"))
  | Some t => mret (if decide (vt_path t = "") then vt_baseDenom t else vt_path t +:+ "/" +:+ vt_baseDenom t)
  end.

Definition normalizePacketDenom (denom portId channelId : string) : result string :=
  d ← normalizeDenomTokenTransfer_pkg denom;
  let normalizedDenom := trim d in
  let packetMappedDenom := mapLovelaceDenom_pkg normalizedDenom asset_to_packet in
  if decide (packetMappedDenom <> normalizedDenom) then Ok packetMappedDenom else
  if hasVoucherPrefix normalizedDenom portId channelId then Ok normalizedDenom else
  if startsWith "ibc/" normalizedDenom then
    Err (invalidArgument ("IBC hash denom " +:+ normalizedDenom +:+
      " must be reverse-resolved to a full denom trace before packet normalization")) else
  if isCardanoTokenUnitDenom normalizedDenom then Ok normalizedDenom else
  if isHexDenom normalizedDenom then
    Err (invalidArgument "Denom appears to be already hex-encoded; refusing to hex-encode twice")
  else Ok (convertStringToHex normalizedDenom).

Definition sumAssetsFromUtxos (utxos : list UTxO) : jsmap string Z :=
  fold_left (fun summed u =>
    fold_left (fun acc kv => map_set acc kv.1 (default 0%Z (map_get acc kv.1) + kv.2)%Z) (assets u) summed) utxos [].

Definition tryResolveAssetUnitFromAssets (assets : jsmap string Z) (requestedDenomToken : string) : option string :=
  let normalized := trim requestedDenomToken in
  if decide (normalized = "") then None else
  if map_has assets normalized then Some normalized else
  let normalizedLower := toLowerCase normalized in
  list_find (fun unit => toLowerCase unit = normalizedLower) (map_keys assets) ≫= fun iu => Some iu.2.

Definition resolveEscrowDenomToken (inputDenom resolvedDenom : string) (senderWalletUtxos : list UTxO) : result string :=
  let senderAssets := sumAssetsFromUtxos senderWalletUtxos in
  match tryResolveAssetUnitFromAssets senderAssets inputDenom with
  | Some u => Ok u
  | None =>
      match tryResolveAssetUnitFromAssets senderAssets resolvedDenom with
      | Some u => Ok u
      | None => Err (invalidArgument ("Escrow asset unit not found in sender wallet UTxOs for denom " +:+ inputDenom +:+
                                      " (resolved as " +:+ resolvedDenom +:+ ")"))
      end
  end.

(** The package keeps the order of first occurrences in an array of its own. *)
Definition dedupe_step (st : jsmap string UTxO * list string) (u : UTxO) : jsmap string UTxO * list string :=
  let key := toUtxoRef u in
  (map_set st.1 key u, if map_has st.1 key then st.2 else st.2 ++ [key]).
Definition dedupeUtxos_pkg (utxos : list UTxO) : list UTxO :=
  let st := fold_left dedupe_step utxos ([], []) in
  omap (fun key => map_get st.1 key) st.2.

(** ** The builder *)

Definition packet_capacity_error (op : SendPacketOperator) : error :=
  default invalidArgument failedPrecondition
    ("Channel " +:+ so_sourceChannel op +:+ " retained packet state capacity of " +:+
     pretty MAX_PACKET_ENTRIES_PER_CHANNEL +:+ " is exhausted").

Definition send_packet_data (op : SendPacketOperator) (packetDenom : string) : string :=
  stringifyIcs20PacketData (Some packetDenom) (Some (pretty (so_amount op))) (Some (so_sender op))
    (Some (so_receiver op)) (Some (so_memo op)).
Definition send_packet (op : SendPacketOperator) (d : ChannelDatum) (packetDenom : string) : Packet :=
  let cp := ch_counterparty (channel_end d) in
  MkPacket (next_sequence_send (cd_state d)) (convertStringToHex (so_sourcePort op))
    (convertStringToHex (so_sourceChannel op)) (cc_port_id cp) (cc_channel_id cp)
    (convertStringToHex (send_packet_data op packetDenom)) (so_timeoutHeight op) (so_timeoutTimestamp op).
Definition send_fungible_data (op : SendPacketOperator) (packetDenom : string) : FungibleTokenPacketDatum :=
  MkFungibleTokenPacketDatum (convertStringToHex packetDenom) (convertStringToHex (pretty (so_amount op)))
    (convertStringToHex (so_sender op)) (convertStringToHex (so_receiver op)) (convertStringToHex (so_memo op)).

Definition send_tx (ctx : LoadedSendPacketContext) (hu : HostStateUpdate)
    (encodedSpendChannelRedeemer encodedUpdatedChannelDatum : string) (app : AppPart) : PacketTx :=
  MkPacketTx (hu_hostStateUtxo hu) (hu_encodedHostStateRedeemer hu) (hu_encodedUpdatedHostStateDatum hu)
    (lc_channelUtxo ctx) (lc_connectionUtxo ctx) (lc_clientUtxo ctx) encodedSpendChannelRedeemer
    encodedUpdatedChannelDatum (lc_channelTokenUnit ctx) (sd_sendPacketPolicyId (lc_deployment ctx))
    (lc_channelToken ctx) None app.

Definition send_burn (op : SendPacketOperator) (ctx : LoadedSendPacketContext) (hu : HostStateUpdate)
    (inputDenom resolvedDenom : string) (packet : Packet) (f : FungibleTokenPacketDatum) (updated : ChannelDatum)
    (encodedSpendChannelRedeemer encodedSpendTransferModuleRedeemer : string) : M S SendPacketBuildResult :=
  encodedMintVoucherRedeemer ← dep_encode (EncMintVoucher (BurnVoucher (source_port packet) (source_channel packet) f));
  tokenName ← liftR (buildVoucherTokenName resolvedDenom);
  let voucherTokenUnit := sd_mintVoucherScriptHash (lc_deployment ctx) +:+ tokenName in
  senderVoucherTokenUtxo ← findUtxoAtWithUnit (so_signer op) voucherTokenUnit;
  senderWalletUtxos ← tryFindUtxosAt (so_signer op);
  let walletUtxos := dedupeUtxos_pkg (senderWalletUtxos ++ [senderVoucherTokenUtxo]) in
  encodedUpdatedChannelDatum ← dep_encode (EncChannel updated);
  tx ← createUnsignedSendPacketBurnTx
    (send_tx ctx hu encodedSpendChannelRedeemer encodedUpdatedChannelDatum
       (BurnApp (lc_transferModuleReferenceUtxo ctx) senderVoucherTokenUtxo walletUtxos
          encodedSpendTransferModuleRedeemer encodedMintVoucherRedeemer voucherTokenUnit inputDenom (so_amount op)
          (so_sender op) (so_receiver op) (so_signer op)));
  mret (MkSendPacketBuildResult tx (hu_pending hu) (so_signer op, walletUtxos)).

Definition shard_module_utxo (l : TransferEscrowShardLookup) : UTxO :=
  match l with ShardExisting _ _ _ m _ | ShardMissing _ _ m _ _ => m end.

Definition send_escrow (op : SendPacketOperator) (ctx : LoadedSendPacketContext) (hu : HostStateUpdate)
    (inputDenom resolvedDenom packetDenom : string) (f : FungibleTokenPacketDatum) (updated : ChannelDatum)
    (encodedSpendChannelRedeemer encodedSpendTransferModuleRedeemer : string) : M S SendPacketBuildResult :=
  senderWalletUtxos ← tryFindUtxosAt (so_signer op);
  if decide (senderWalletUtxos = []) then
    raise (internalError ("No spendable UTxOs found for signer " +:+ so_signer op)) else
  let walletUtxos := dedupeUtxos_pkg senderWalletUtxos in
  denomToken ← liftR (resolveEscrowDenomToken inputDenom resolvedDenom walletUtxos);
  let channelId := convertStringToHex (so_sourceChannel op) in
  let denomHex := convertStringToHex packetDenom in
  shard ← dep_findTransferEscrowShard channelId denomHex denomToken;
  '(existingUtxo, encodedShardDatum, shardTokenUnit, encodedMint, encodedModuleDatum) ←
    match shard with
    | ShardExisting utxo encodedDatum shardTokenUnit _ _ => mret (Some utxo, encodedDatum, shardTokenUnit, None, None)
    | ShardMissing encodedDatum shardTokenUnit _ registrySiblings encodedUpdatedTransferModuleDatum =>
        e ← dep_encode (EncEscrowShard (MkCreateEscrowShard channelId denomHex f registrySiblings));
        mret (None, encodedDatum, shardTokenUnit, Some e, Some encodedUpdatedTransferModuleDatum)
    end;
  encodedUpdatedChannelDatum ← dep_encode (EncChannel updated);
  tx ← createUnsignedSendPacketEscrowTx
    (send_tx ctx hu encodedSpendChannelRedeemer encodedUpdatedChannelDatum
       (EscrowApp (shard_module_utxo shard) existingUtxo walletUtxos encodedSpendTransferModuleRedeemer encodedMint
          encodedModuleDatum encodedShardDatum shardTokenUnit denomToken (so_amount op) (so_sender op)
          (so_receiver op) (so_signer op)));
  mret (MkSendPacketBuildResult tx (hu_pending hu) (so_signer op, walletUtxos)).

Definition buildUnsignedSendPacketTx_pkg (op : SendPacketOperator) : M S SendPacketBuildResult :=
  ctx ← loadContext op;
  let d := lc_channelDatum ctx in
  if decide (MAX_PACKET_ENTRIES_PER_CHANNEL <= packetEntryCount d)%nat then raise (packet_capacity_error op) else
  inputDenom ← liftR (normalizeDenomTokenTransfer_pkg (so_denom op));
  resolvedDenom ← resolvePacketDenomForSend inputDenom;
  packetDenom ← liftR (normalizePacketDenom resolvedDenom (so_sourcePort op) (so_sourceChannel op));
  let isVoucher := hasVoucherPrefix resolvedDenom (so_sourcePort op) (so_sourceChannel op) in
  let packet := send_packet op d packetDenom in
  let f := send_fungible_data op packetDenom in
  packetCommitment ← liftR (dep_commitPacket packet);
  encodedSpendChannelRedeemer ← dep_encode (EncSpendChannel (SendPacket packet));
  encodedSpendTransferModuleRedeemer ← dep_encode (EncTransferModule (Callback
    (OnSendPacket (convertStringToHex (so_sourceChannel op)) (data packet) packetCommitment (ModuleDataV1 f))));
  let updated := sent_channel_datum d packetCommitment in
  hu ← buildHostStateUpdate d updated (so_sourceChannel op);
  if isVoucher
  then send_burn op ctx hu inputDenom resolvedDenom packet f updated encodedSpendChannelRedeemer
         encodedSpendTransferModuleRedeemer
  else send_escrow op ctx hu inputDenom resolvedDenom packetDenom f updated encodedSpendChannelRedeemer
         encodedSpendTransferModuleRedeemer.

End helpers.

(** ** The Gateway's dependencies *)

(** The denom-trace service and the wallet lookups. *)
Class SendEnv := {
  findByIbcDenomHash : string -> result (option VoucherDenomTrace);
  lucid_findUtxoAtWithUnit : string -> string -> result UTxO;
  lucid_tryFindUtxosAt : string -> result (list UTxO);
}.

Section gateway.
Context `{SHA : Sha256} `{L : Lucid} `{CV : ChainView} `{BL : Blake2b} `{S3 : Sha3}.
Context `{EV : EscrowEnv} `{DP : Deployment} `{PE : PacketEnv} `{SE : SendEnv}.

(** The builder runs with one local variable of the closure,
    [transferEscrowShardLookup], beside the module state. *)
Definition send_state : Type := gstate * option TransferEscrowShardLookup.
Definition on_module {A} (m : M gstate A) : M send_state A :=
  fun st => let '(r, g) := m st.1 in (r, (g, st.2)).

Definition findTransferModuleRootByAddressScan : result UTxO :=
  utxos ← findUtxoAt transferModuleAddress; getTransferModuleRootFromAddressScan utxos.

Definition escrow_shard_redeemer_data (r : CreateEscrowShard) : pdata :=
  p_object [PBytes (ce_channel_id r); PBytes (ce_denom r); fungible_data (ce_data r);
            PList (PBytes <$> ce_registry_siblings r)].
Definition encodeTransferEscrowShardRedeemer (r : CreateEscrowShard) : result string :=
  Data_to true (escrow_shard_redeemer_data r).

(** [lucidService.encode], by kind. *)
Definition lucid_encode (v : EncodeRequest) : result string :=
  match v with
  | EncSpendChannel r => encode_spendChannelRedeemer r
  | EncTransferModule r => encode_transferIBCModuleRedeemer r
  | EncMintVoucher r => encode_mintVoucherRedeemer r
  | EncEscrowShard r => encode_type "transferEscrowShardRedeemer" (encodeTransferEscrowShardRedeemer r)
  | EncChannel d => encode_channel d
  end.

Definition gateway_loadContext (op : SendPacketOperator) : result LoadedSendPacketContext :=
  channelSequence ← channel_sequence (so_sourceChannel op);
  cx ← load_channel channelSequence;
  let channelDatum := cx_channelDatum cx in
  _ ← validateSendPacketCommitmentCapacity channelDatum;
  connectionSequence ←
    parseConnectionSequence (convertHex2String (default "" (head (ch_connection_hops (channel_end channelDatum)))));
  '(policy, name) ← getConnectionTokenUnit connectionSequence;
  connectionUtxo ← findUtxoByUnit (policy +:+ name);
  connectionDatum ← decode_datum decode_connection connectionUtxo;
  clientSequence ← parseClientSequence (convertHex2String (conn_client_id (cnd_state connectionDatum)));
  clientTokenUnit ← getClientTokenUnit clientSequence;
  clientUtxo ← findUtxoByUnit clientTokenUnit;
  transferModuleReferenceUtxo ← findTransferModuleRootByAddressScan;
  Ok (MkLoadedSendPacketContext (cx_channelUtxo cx) channelDatum connectionUtxo connectionDatum clientUtxo
        transferModuleReferenceUtxo (cx_channelTokenUnit cx) (cx_channelToken cx)
        (MkSendDeployment sendPacketPolicyId voucherPolicyId shardPolicyId spendChannelAddress transferModuleAddress)).

Definition gateway_findTransferEscrowShard (channelId packetDenom denomToken : string)
  : M send_state TransferEscrowShardLookup :=
  lookup ← liftR (findTransferEscrowShard channelId packetDenom denomToken None);
  modify (fun st => (st.1, Some lookup)) ;;
  mret lookup.

(** [{...dto, transferModuleReferenceUtxo: lookup.transferModuleUtxo}] *)
Definition with_module_utxo (u : UTxO) (tx : PacketTx) : PacketTx :=
  MkPacketTx (tx_hostStateUtxo tx) (tx_encodedHostStateRedeemer tx) (tx_encodedUpdatedHostStateDatum tx)
    (tx_channelUtxo tx) (tx_connectionUtxo tx) (tx_clientUtxo tx) (tx_encodedSpendChannelRedeemer tx)
    (tx_encodedUpdatedChannelDatum tx) (tx_channelTokenUnit tx) (tx_packetPolicyId tx) (tx_channelToken tx)
    (tx_verifyProof tx)
    match tx_app tx with
    | EscrowApp _ e w r m dt sd unit tok amt a b c => EscrowApp u e w r m dt sd unit tok amt a b c
    | app => app
    end.

Definition gateway_createEscrowTx (tx : PacketTx) : M send_state PacketTx :=
  st ← gets snd;
  match st with
  | None => raise (GrpcInternal "Transfer escrow shard lookup was not completed before transaction assembly")
  | Some lookup => mret (with_module_utxo (shard_module_utxo lookup) tx)
  end.

#[export] Instance gateway_deps : SendPacketBuildDependencies send_state := {|
  loadContext op := liftR (gateway_loadContext op);
  buildHostStateUpdate d d' c := on_module (buildHostStateUpdateForHandlePacket d d' c);
  resolveIbcDenomHash h := liftR (findByIbcDenomHash h);
  dep_commitPacket := commitPacket;
  dep_encode v := liftR (lucid_encode v);
  findUtxoAtWithUnit a u := liftR (lucid_findUtxoAtWithUnit a u);
  tryFindUtxosAt a := liftR (lucid_tryFindUtxosAt a);
  dep_findTransferEscrowShard := gateway_findTransferEscrowShard;
  createUnsignedSendPacketBurnTx tx := mret tx;
  createUnsignedSendPacketEscrowTx := gateway_createEscrowTx;
  invalidArgument := GrpcInvalidArgument;
  failedPrecondition := Some GrpcFailedPrecondition;
  internalError := GrpcInternal;
|}.

Definition buildUnsignedSendPacketTx (op : SendPacketOperator) : M gstate SendPacketBuildResult :=
  fun g => let '(r, st) := buildUnsignedSendPacketTx_pkg op (g, None) in (r, st.1).

End gateway.

(** ** The send package against the Gateway's own helpers

    The package repeats the denom and wallet helpers that [tx/packet.service.ts]
    still has.  With the Gateway's error constructors the two sets are the same
    functions. *)

Section agree.
Context {S : Type} {DEPS : SendPacketBuildDependencies S} `{BL : Blake2b} `{BLOK : !Blake2bOk}.

Lemma mapLovelaceDenom_agrees d dir : trim d <> "" -> mapLovelaceDenom d dir = Ok (mapLovelaceDenom_pkg d dir).
Proof.
  intros H. unfold mapLovelaceDenom, mapLovelaceDenom_pkg, normalizeDenomTokenTransfer.
  by rewrite decide_False by done.
Qed.

Lemma map_get_values {V} (m : jsmap string V) : map_wf m -> omap (fun k => map_get m k) (map_keys m) = m.*2.
Proof.
  unfold map_wf, map_keys. induction m as [|[k v] m IH]; [done|]. cbn. intros [Hk Hnd]%NoDup_cons.
  rewrite decide_True by done. f_equal. rewrite <- IH by done.
  apply list_omap_ext. apply Forall2_same_length_lookup_2; [done|]. intros i x y Hx Hy.
  assert (x = y) as <- by congruence. rewrite decide_False; [done|]. intros ->. apply Hk.
  by eapply list_elem_of_lookup_2.
Qed.

(** The array of first occurrences is the key order of the map. *)
Lemma dedupe_order (utxos : list UTxO) (m : jsmap string UTxO) : map_wf m ->
  fold_left dedupe_step utxos (m, map_keys m)
  = (fold_left (fun m u => map_set m (toUtxoRef u) u) utxos m,
     map_keys (fold_left (fun m u => map_set m (toUtxoRef u) u) utxos m)) /\
  map_wf (fold_left (fun m u => map_set m (toUtxoRef u) u) utxos m).
Proof.
  revert m. induction utxos as [|u utxos IH]; intros m Hm; [done|]. cbn [fold_left].
  assert (dedupe_step (m, map_keys m) u = (map_set m (toUtxoRef u) u, map_keys (map_set m (toUtxoRef u) u))) as ->.
  { unfold dedupe_step. cbn [fst snd]. f_equal.
    unfold map_has. destruct (map_get m (toUtxoRef u)) as [v|] eqn:E.
    - rewrite bool_decide_true by done. rewrite map_keys_set_in; [done|].
      apply map_get_In in E. by apply (list_elem_of_fmap_2 fst) in E.
    - rewrite bool_decide_false by (by intros [? ?]). rewrite map_keys_set_fresh; [done|]. by apply map_get_None. }
  apply IH. by apply map_wf_set.
Qed.

Lemma dedupeUtxos_agrees utxos : dedupeUtxos_pkg utxos = dedupeUtxos utxos.
Proof.
  unfold dedupeUtxos_pkg, dedupeUtxos. destruct (dedupe_order utxos [] (map_wf_nil)) as [E Hw].
  cbv zeta. transitivity (omap (fun key => map_get (fold_left (fun m u => map_set m (toUtxoRef u) u) utxos []) key)
    (map_keys (fold_left (fun m u => map_set m (toUtxoRef u) u) utxos []))); [|by apply map_get_values].
  exact (f_equal (fun st => omap (fun key => map_get st.1 key) st.2) E).
Qed.

Lemma normalizePacketDenom_agrees d portId channelId : invalidArgument = GrpcInvalidArgument ->
  normalizePacketDenom d portId channelId = _normalizePacketDenom d portId channelId.
Proof.
  intros He. unfold normalizePacketDenom, _normalizePacketDenom, normalizeDenomTokenTransfer_pkg.
  rewrite He. unfold normalizeDenomTokenTransfer at 1. cbv zeta. case_decide as Ht; [done|].
  cbn [mbind result_bind]. rewrite !trim_idem, mapLovelaceDenom_agrees by by rewrite trim_idem. done.
Qed.

Lemma buildVoucherTokenName_agrees d : invalidArgument = GrpcInvalidArgument ->
  buildVoucherTokenName d = _buildVoucherTokenName d.
Proof.
  intros He. unfold buildVoucherTokenName, _buildVoucherTokenName, check_full_denom, isHexDenom, _isHexDenom.
  rewrite He, user_token_name_hex. by repeat case_match.
Qed.

(** The denom and wallet helpers of the send package are the
    Gateway's: with the Gateway's error constructor, packet denoms are normalised
    to the same text or rejected with the same error, voucher token names, escrow
    asset units and deduplicated wallets are the same, although the package trims
    twice, hashes in one step and keeps its own array of first occurrences.  So a
    denom never yields another token at one entry point than at the other. *)
Lemma package_helpers_agree d portId channelId input resolved utxos :
  invalidArgument = GrpcInvalidArgument ->
  normalizePacketDenom d portId channelId = _normalizePacketDenom d portId channelId /\
  buildVoucherTokenName d = _buildVoucherTokenName d /\
  resolveEscrowDenomToken input resolved utxos = _resolveEscrowDenomToken input resolved utxos /\
  dedupeUtxos_pkg utxos = dedupeUtxos utxos.
Proof.
  intros He. split_and!.
  - by apply normalizePacketDenom_agrees.
  - by apply buildVoucherTokenName_agrees.
  - unfold resolveEscrowDenomToken, _resolveEscrowDenomToken. by rewrite He.
  - apply dedupeUtxos_agrees.
Qed.
End agree.
