(* ===== verification/ChannelLifecycle.v ===== *)
(** * The life of a channel datum

    The packet operations as a labelled transition system on channel datums: each
    step is the datum function of one builder of [tx/packet.service.ts] under that
    builder's guards.  Runs of the system give the packet-level guarantees: every
    packet is received once per proof epoch, commitments are resolved once, and
    the retained state stays within its bound. *)

From S2P Require Import Prelude JsMap Hex Datum PacketHelpers Redeemers PacketOps.

Inductive event :=
| EvRecv (sequence : Z) (proofHeight : Height)
| EvAck (sequence : Z)
| EvTimeout (sequence : Z) (removed : bool)
| EvSend (sequence : Z)
| EvPrune (sequence : Z) (proofHeight : Height).

Inductive channel_step : ChannelDatum -> event -> ChannelDatum -> Prop :=
| step_recv op d clientDatum ackCommitment :
    recv_channel_guards op d = Ok tt -> recv_proof_guards op d clientDatum = Ok tt ->
    channel_step d (EvRecv (rp_packetSequence op) (rp_proofHeight op)) (received_channel_datum d op ackCommitment)
| step_ack op d clientDatum :
    ch_state (channel_end d) = Open -> ack_proof_guards op d clientDatum = Ok tt ->
    channel_step d (EvAck (ap_packetSequence op)) (acked_channel_datum d (ap_packetSequence op))
| step_timeout d n :
    channel_step d (EvTimeout n (map_has (packet_commitment (cd_state d)) n)) (timed_out_channel_datum d n)
| step_send d packetCommitment :
    validateSendPacketCommitmentCapacity d = Ok tt ->
    channel_step d (EvSend (next_sequence_send (cd_state d))) (sent_channel_datum d packetCommitment)
| step_prune op d :
    prune_guards op d = Ok tt ->
    channel_step d (EvPrune (pp_sequence op) (pp_proofHeight op))
      (pruned_channel_datum d (pp_sequence op) (pp_proofHeight op)).

Inductive run : ChannelDatum -> list event -> ChannelDatum -> Prop :=
| run_nil d : run d [] d
| run_cons d e d' es d'' : channel_step d e d' -> run d' es d'' -> run d (e :: es) d''.

Lemma run_app d es fs d' : run d (es ++ fs) d' -> exists d1, run d es d1 /\ run d1 fs d'.
Proof.
  revert d. induction es as [|e es IH]; cbn; intros d H; [exists d; by split; [constructor|]|].
  inversion H as [|? ? d1 ? ? Hs Hr]; subst. destruct (IH _ Hr) as (d2 & H1 & H2).
  exists d2. split; [|done]. by econstructor.
Qed.

Lemma run_app_intro d es fs d1 d' : run d es d1 -> run d1 fs d' -> run d (es ++ fs) d'.
Proof. induction 1; cbn; [done|]. intros H2. econstructor; [done|auto]. Qed.

(** ** Guards *)

Lemma bool_decide_has {V} (m : jsmap Z V) k : map_has m k = true <-> map_get m k <> None.
Proof.
  unfold map_has. rewrite bool_decide_eq_true. destruct (map_get m k); by split.
Qed.
Lemma has_false {V} (m : jsmap Z V) k : map_has m k = false <-> map_get m k = None.
Proof. rewrite <- not_true_iff_false, bool_decide_has. destruct (map_get m k); intuition congruence. Qed.

(** What a successful receive has checked. *)
Record recv_checked (d : ChannelDatum) (n : Z) (h : Height) : Prop := {
  rc_capacity : (packetEntryCount d + (if decide (ch_ordering (channel_end d) = Unordered) then 2 else 1)
                 <= MAX_PACKET_ENTRIES_PER_CHANNEL)%nat;
  rc_open : ch_state (channel_end d) = Open;
  rc_ordered : ch_ordering (channel_end d) = Ordered -> n = next_sequence_recv (cd_state d);
  rc_floor : isHeightAtLeast h (minimum_receive_proof_height (cd_state d)) = true;
  rc_fresh : map_get (packet_receipt (cd_state d)) n = None;
}.

Lemma recv_guards_checked op d clientDatum :
  recv_channel_guards op d = Ok tt -> recv_proof_guards op d clientDatum = Ok tt ->
  recv_checked d (rp_packetSequence op) (rp_proofHeight op).
Proof.
  unfold recv_channel_guards, recv_proof_guards, validateRecvPacketHistoryCapacity. intros H1 H2.
  inv_bind H1. match type of E with (if decide ?P then _ else _) = _ => destruct (decide P) as [|Hcap]; [done|] end.
  destruct (decide (ch_state (channel_end d) <> Open)) as [|Ho] in H1; [done|].
  destruct (is_ordered d && _) eqn:Eo in H1; [done|].
  destruct (negb (isValidProofHeight _ _)) in H2; [done|].
  destruct (negb (isHeightAtLeast _ _)) eqn:Eh in H2; [done|].
  destruct (map_has _ _) eqn:Er in H2; [done|]. split.
  - apply Nat.nlt_ge in Hcap. exact Hcap.
  - by destruct (ch_state (channel_end d)); try (exfalso; apply Ho; discriminate).
  - intros Hord. unfold is_ordered in Eo. rewrite bool_decide_true in Eo by done. cbn in Eo.
    apply negb_false_iff, Z.eqb_eq in Eo. done.
  - by apply negb_false_iff in Eh.
  - by apply has_false.
Qed.

Lemma ack_guards_checked op d clientDatum :
  ack_proof_guards op d clientDatum = Ok tt -> map_get (packet_commitment (cd_state d)) (ap_packetSequence op) <> None.
Proof.
  unfold ack_proof_guards. destruct (negb (isValidProofHeight _ _)); [done|].
  destruct (negb (map_has _ _)) eqn:E; [done|]. intros _. by apply bool_decide_has, negb_false_iff.
Qed.

Record prune_checked (d : ChannelDatum) (n : Z) (h : Height) : Prop := {
  pc_unordered : ch_ordering (channel_end d) = Unordered;
  pc_receipt : map_get (packet_receipt (cd_state d)) n <> None;
  pc_ack : map_get (packet_acknowledgement (cd_state d)) n <> None;
  pc_floor : isHeightAtLeast h (minimum_receive_proof_height (cd_state d)) = true;
  pc_mark : isHeightAtLeast h (maximum_receive_proof_height (cd_state d)) = true;
}.

Lemma prune_guards_checked op d : prune_guards op d = Ok tt -> prune_checked d (pp_sequence op) (pp_proofHeight op).
Proof.
  unfold prune_guards. cbv zeta. destruct (decide (convertHex2String _ <> _)); [done|].
  destruct (decide (ch_ordering (channel_end d) <> Unordered)) as [|Ho]; [done|].
  destruct (negb (map_has (packet_receipt _) _)) eqn:E1; [done|].
  destruct (negb (map_has (packet_acknowledgement _) _)) eqn:E2; [done|].
  destruct (negb (isHeightAtLeast _ (minimum_receive_proof_height _))) eqn:E3; [done|].
  destruct (negb (isHeightAtLeast _ (maximum_receive_proof_height _))) eqn:E4; [done|].
  intros _. apply negb_false_iff in E1, E2, E3, E4. split; try done.
  - by destruct (ch_ordering (channel_end d)); try (exfalso; apply Ho; discriminate).
  - by apply bool_decide_has.
  - by apply bool_decide_has.
Qed.

(** ** The invariant *)

Record datum_wf (d : ChannelDatum) : Prop := {
  dw_commitment : map_wf (packet_commitment (cd_state d));
  dw_receipt : map_wf (packet_receipt (cd_state d));
  dw_ack : map_wf (packet_acknowledgement (cd_state d));
  dw_sent n : map_get (packet_commitment (cd_state d)) n <> None -> (n < next_sequence_send (cd_state d))%Z;
  dw_capacity : (packetEntryCount d <= MAX_PACKET_ENTRIES_PER_CHANNEL)%nat;
  dw_order : ch_ordering (channel_end d) <> OrderNone;
  dw_acked n : map_get (packet_acknowledgement (cd_state d)) n <> None ->
    (ch_ordering (channel_end d) = Ordered -> (n < next_sequence_recv (cd_state d))%Z) /\
    (ch_ordering (channel_end d) = Unordered -> map_get (packet_receipt (cd_state d)) n <> None);
}.

(** No acknowledgement is on record for a packet that passes the receive guards. *)
Lemma recv_no_ack d n h : datum_wf d -> recv_checked d n h -> map_get (packet_acknowledgement (cd_state d)) n = None.
Proof.
  intros Hw C. destruct (map_get (packet_acknowledgement (cd_state d)) n) eqn:E; [exfalso|done].
  destruct (dw_acked d Hw n ltac:(congruence)) as [A1 A2]. destruct (ch_ordering (channel_end d)) eqn:Eo.
  all: first [ by apply (dw_order d Hw) | by apply (A2 eq_refl), (rc_fresh _ _ _ C)
             | specialize (A1 eq_refl); pose proof (rc_ordered _ _ _ C Eo); lia ].
Qed.

Lemma map_size_perm_cons {V} (m : jsmap Z V) k v :
  map_wf m -> map_get m k = None -> map_size (prependToMap m k v) = S (map_size m).
Proof. intros Hw Hk. by rewrite prependToMap_fresh. Qed.

Lemma received_wf d op ack :
  datum_wf d -> recv_checked d (rp_packetSequence op) (rp_proofHeight op) -> datum_wf (received_channel_datum d op ack).
Proof.
  intros [W1 W2 W3 W4 W5 W6 W7] [C1 C2 C3 C4 C5]. unfold received_channel_datum, is_ordered.
  pose proof (insertSortMap_size_le (packet_acknowledgement (cd_state d)) (rp_packetSequence op) ack) as Hs.
  split; cbn [cd_state packet_commitment packet_receipt packet_acknowledgement next_sequence_send channel_end channel]; try done.
  - case_bool_decide; [done|]. rewrite prependToMap_fresh by done. unfold map_wf. cbn. constructor; [|done].
    by apply map_get_None.
  - by apply insertSortMap_wf.
  - unfold packetEntryCount in *. cbn [cd_state packet_commitment packet_receipt packet_acknowledgement].
    case_bool_decide as Ho.
    + rewrite decide_False in C1 by congruence. lia.
    + rewrite map_size_perm_cons by done. rewrite decide_True in C1; [lia|].
      by destruct (ch_ordering (channel_end d)).
  - intros n. rewrite insertSortMap_get by done. unfold channel_end in *.
    cbn [cd_state channel next_sequence_recv packet_receipt]. intros Hn. split; intros Ho.
    + rewrite bool_decide_true by done. specialize (C3 Ho). case_decide as E; [lia|]. apply W7 in Hn as [Hn _].
      specialize (Hn Ho). lia.
    + rewrite bool_decide_false by congruence. rewrite prependToMap_fresh by done. cbn [map_get].
      case_decide as E; [done|]. by apply W7.
Qed.

Lemma map_get_delete_some {V} (m : jsmap Z V) k n : map_wf m -> map_get (map_delete m k) n <> None -> map_get m n <> None /\ n <> k.
Proof. intros Hw. rewrite map_get_delete by done. case_decide as Hk; [done|]. intros Hn. split; congruence. Qed.

Lemma acked_wf d n : datum_wf d -> datum_wf (acked_channel_datum d n).
Proof.
  intros [W1 W2 W3 W4 W5 W6 W7]. unfold acked_channel_datum, with_commitments, deleteKeySortMap.
  pose proof (map_delete_size (packet_commitment (cd_state d)) n).
  split; cbn [cd_state packet_commitment packet_receipt packet_acknowledgement next_sequence_send]; try done.
  - by apply map_wf_delete.
  - intros k Hk. apply W4. by eapply map_get_delete_some.
  - unfold packetEntryCount in *. cbn [cd_state packet_commitment packet_receipt packet_acknowledgement]. lia.
Qed.

Lemma timed_out_acked d n : datum_wf d -> timed_out_channel_datum d n = acked_channel_datum d n.
Proof.
  intros [W1 _ _ _ _ _ _]. unfold timed_out_channel_datum, acked_channel_datum, deleteKeySortMap. by rewrite deleteSortMap_delete.
Qed.

Lemma fresh_send d : datum_wf d -> map_get (packet_commitment (cd_state d)) (next_sequence_send (cd_state d)) = None.
Proof. intros [_ _ _ W4 _ _ _]. apply eq_None_ne_Some_2. intros x E. pose proof (W4 (next_sequence_send (cd_state d))) as W. rewrite E in W. by lia || (specialize (W ltac:(done)); lia). Qed.

Lemma sent_wf d k : datum_wf d -> validateSendPacketCommitmentCapacity d = Ok tt -> datum_wf (sent_channel_datum d k).
Proof.
  intros Hd. pose proof (fresh_send d Hd) as Hf. destruct Hd as [W1 W2 W3 W4 W5 W6 W7].
  unfold validateSendPacketCommitmentCapacity. case_decide as Hc; [done|]. intros _.
  pose proof (insertSortMap_size (packet_commitment (cd_state d)) (next_sequence_send (cd_state d)) k Hf).
  split; cbn [sent_channel_datum cd_state packet_commitment packet_receipt packet_acknowledgement next_sequence_send]; try done.
  - by apply insertSortMap_wf.
  - intros n. rewrite insertSortMap_get by done. case_decide; [lia|]. intros Hn. specialize (W4 _ Hn). lia.
  - unfold packetEntryCount in *. cbn [sent_channel_datum cd_state packet_commitment packet_receipt packet_acknowledgement]. lia.
Qed.

Lemma pruned_wf d n h : datum_wf d -> ch_ordering (channel_end d) = Unordered -> datum_wf (pruned_channel_datum d n h).
Proof.
  intros [W1 W2 W3 W4 W5 W6 W7] Hu. unfold pruned_channel_datum, deleteKeySortMap.
  pose proof (map_delete_size (packet_receipt (cd_state d)) n).
  pose proof (map_delete_size (packet_acknowledgement (cd_state d)) n).
  split; cbn [cd_state packet_commitment packet_receipt packet_acknowledgement next_sequence_send]; try done;
    [by apply map_wf_delete..| |].
  - unfold packetEntryCount in *. cbn [cd_state packet_commitment packet_receipt packet_acknowledgement]. lia.
  - unfold channel_end in *. cbn [cd_state channel]. intros k Hk. split; [congruence|]. intros _.
    apply map_get_delete_some in Hk as [Hk Hne]; [|done]. rewrite map_get_delete_ne by done. by apply W7.
Qed.

Lemma step_wf d e d' : channel_step d e d' -> datum_wf d -> datum_wf d'.
Proof.
  intros [op ? cd ack H1 H2|op ? cd Ho H|? n|? k H|op ? H] Hw.
  - apply received_wf; [done|]. by eapply recv_guards_checked.
  - by apply acked_wf.
  - rewrite timed_out_acked by done. by apply acked_wf.
  - by apply sent_wf.
  - apply pruned_wf; [done|]. by apply prune_guards_checked in H as [].
Qed.
#[export] Hint Resolve step_wf : gateway.

Lemma run_wf d es d' : run d es d' -> datum_wf d -> datum_wf d'.
Proof. induction 1; eauto with gateway. Qed.

(** ** What every step keeps *)

Lemma step_frame d e d' : channel_step d e d' ->
  channel (cd_state d') = channel (cd_state d) /\ cd_port d' = cd_port d /\ cd_token d' = cd_token d /\
  (next_sequence_send (cd_state d) <= next_sequence_send (cd_state d'))%Z /\
  (next_sequence_recv (cd_state d) <= next_sequence_recv (cd_state d'))%Z /\
  next_sequence_ack (cd_state d') = next_sequence_ack (cd_state d) /\
  isHeightAtLeast (minimum_receive_proof_height (cd_state d')) (minimum_receive_proof_height (cd_state d)) = true /\
  isHeightAtLeast (maximum_receive_proof_height (cd_state d')) (maximum_receive_proof_height (cd_state d)) = true.
Proof.
  intros [op ? cd ack H1 H2|op ? cd Ho H|? n|? k H|op ? H];
    cbn [received_channel_datum acked_channel_datum timed_out_channel_datum with_commitments sent_channel_datum
         pruned_channel_datum cd_state cd_port cd_token channel next_sequence_send next_sequence_recv next_sequence_ack
         minimum_receive_proof_height maximum_receive_proof_height];
    split_and!; try done; try lia; try apply height_at_least_refl.
  - destruct (is_ordered _); lia.
  - apply maximumHeight_ge.
  - by apply prune_guards_checked.
Qed.

Record frame (d d' : ChannelDatum) : Prop := {
  fr_channel : channel (cd_state d') = channel (cd_state d);
  fr_port : cd_port d' = cd_port d;
  fr_send : (next_sequence_send (cd_state d) <= next_sequence_send (cd_state d'))%Z;
  fr_recv : (next_sequence_recv (cd_state d) <= next_sequence_recv (cd_state d'))%Z;
  fr_min : isHeightAtLeast (minimum_receive_proof_height (cd_state d')) (minimum_receive_proof_height (cd_state d)) = true;
  fr_max : isHeightAtLeast (maximum_receive_proof_height (cd_state d')) (maximum_receive_proof_height (cd_state d)) = true;
}.

Lemma run_frame d es d' : run d es d' -> frame d d'.
Proof.
  induction 1 as [d|d e d' es d'' Hs _ [F1 F2 F3 F4 F5 F6]].
  - by split; try apply height_at_least_refl.
  - apply step_frame in Hs as (S1 & S2 & S3 & S4 & S5 & S6 & S7 & S8).
    split; try congruence; try lia; by eapply height_at_least_trans.
Qed.

(** C27 (invariant): along every run of packet operations the three packet maps
    have no duplicate sequences and together hold at most 64 entries, every
    outstanding commitment has a sequence below the next one to send, the channel
    end and its port never change, and neither the send and receive counters nor
    the two proof-height marks ever go down. *)
Theorem channel_invariant d es d' :
  datum_wf d -> run d es d' ->
  datum_wf d' /\ (packetEntryCount d' <= MAX_PACKET_ENTRIES_PER_CHANNEL)%nat /\ frame d d'.
Proof.
  intros Hw Hr. pose proof (run_wf _ _ _ Hr Hw) as Hw'. split_and!; [done|apply Hw'|by eapply run_frame].
Qed.

(** ** Receives *)

Lemma step_receipt d e d' n : datum_wf d -> channel_step d e d' ->
  map_get (packet_receipt (cd_state d)) n <> None ->
  map_get (packet_receipt (cd_state d')) n <> None \/
  exists hp, e = EvPrune n hp /\ prune_checked d n hp /\ minimum_receive_proof_height (cd_state d') = hp.
Proof.
  intros Hw Hs. revert Hw. destruct Hs as [op ? cd ack H1 H2|op ? cd Ho H|? k|? k H|op ? H]; intros Hw Hn; try (by left).
  - left. cbn [received_channel_datum cd_state packet_receipt]. destruct (is_ordered _); [done|].
    pose proof (recv_guards_checked _ _ _ H1 H2) as C.
    rewrite prependToMap_fresh by (apply Hw || apply C). cbn [map_get]. by case_decide.
  - cbn [pruned_channel_datum cd_state packet_receipt minimum_receive_proof_height]. unfold deleteKeySortMap.
    rewrite map_get_delete by apply Hw. case_decide as E; [|by left]. right. subst n.
    eexists. split_and!; [done| |done]. by apply prune_guards_checked.
Qed.

Lemma receipt_until_prune d es d' n h : run d es d' -> datum_wf d ->
  map_get (packet_receipt (cd_state d)) n <> None ->
  isHeightAtLeast (maximum_receive_proof_height (cd_state d)) h = true ->
  map_get (packet_receipt (cd_state d')) n <> None \/
  exists hp, EvPrune n hp ∈ es /\ isHeightAtLeast hp h = true /\
    isHeightAtLeast (minimum_receive_proof_height (cd_state d')) hp = true.
Proof.
  induction 1 as [d|d e d' es d'' Hs Hr IH]; intros Hw Hn Hh; [by left|].
  destruct (step_receipt _ _ _ n Hw Hs Hn) as [Hn'|(hp & -> & Hp & Hm)].
  - destruct IH as [?|(hp & H1 & H2 & H3)]; try done.
    + by eapply step_wf.
    + eapply height_at_least_trans; [|exact Hh]. by apply step_frame in Hs as (_ & _ & _ & _ & _ & _ & _ & ?).
    + by left.
    + right. exists hp. split_and!; [by right|done..].
  - right. exists hp. split_and!; [by left| |].
    + eapply height_at_least_trans; [exact (pc_mark _ _ _ Hp) | exact Hh].
    + rewrite <- Hm. by apply (run_frame _ _ _ Hr).
Qed.

Definition is_recv (e : event) : bool := match e with EvRecv _ _ => true | _ => false end.
Definition receives (es : list event) : nat := length (filter (fun e => is_recv e = true) es).

Lemma run_ordered d es d' : run d es d' -> ch_ordering (channel_end d) = Ordered ->
  next_sequence_recv (cd_state d') = (next_sequence_recv (cd_state d) + Z.of_nat (receives es))%Z.
Proof.
  induction 1 as [d|d e d' es d'' Hs Hr IH]; intros Ho; [cbn; lia|].
  assert (channel (cd_state d') = channel (cd_state d)) as Ec by apply (step_frame _ _ _ Hs).
  rewrite IH by (unfold channel_end in *; by rewrite Ec). unfold receives. rewrite filter_cons.
  destruct Hs as [op ? cd ack H1 H2|op ? cd Ho' H|? n|? k H|op ? H]; cbn [is_recv]; try (rewrite decide_False by done; done).
  rewrite decide_True by done. cbn [length received_channel_datum cd_state next_sequence_recv].
  unfold is_ordered. rewrite bool_decide_true by done. lia.
Qed.

(** C21 (safety): a packet is never received twice from the same commitment.  On an
    unordered channel, two receives of the same sequence are separated by a prune
    of that sequence at a proof height at or above the first receive's, and the
    second receive's proof is at or above the prune's height, where the
    counterparty proved the commitment absent.  On an ordered channel the received
    sequences are consecutive, so none repeats. *)
Theorem received_once d0 l1 n h1 l2 m h2 l3 d :
  datum_wf d0 -> run d0 (l1 ++ EvRecv n h1 :: l2 ++ EvRecv m h2 :: l3) d ->
  (ch_ordering (channel_end d0) = Unordered -> m = n ->
   exists hp, EvPrune n hp ∈ l2 /\ isHeightAtLeast hp h1 = true /\ isHeightAtLeast h2 hp = true) /\
  (ch_ordering (channel_end d0) = Ordered -> m = (n + 1 + Z.of_nat (receives l2))%Z).
Proof.
  intros Hw Hr. apply run_app in Hr as (d1 & R1 & Hr). inversion Hr as [|? ? d2 ? ? S1 Hr2]; subst.
  apply run_app in Hr2 as (d3 & R2 & Hr2). inversion Hr2 as [|? ? d4 ? ? S2 _]; subst.
  pose proof (run_wf _ _ _ R1 Hw) as W1. pose proof (step_wf _ _ _ S1 W1) as W2.
  pose proof (fr_channel _ _ (run_frame _ _ _ R1)) as E1. pose proof (fr_channel _ _ (run_frame _ _ _ R2)) as E2.
  inversion S1 as [op1 ? cd1 ack1 A1 A2| | | |]; subst. inversion S2 as [op2 ? cd2 ack2 B1 B2| | | |]; subst.
  pose proof (recv_guards_checked _ _ _ A1 A2) as C1. pose proof (recv_guards_checked _ _ _ B1 B2) as C2. split.
  - intros Ho Hm. assert (is_ordered d1 = false) as Hno.
    { unfold is_ordered, channel_end in *. rewrite E1, Ho. done. }
    destruct (receipt_until_prune _ _ _ (rp_packetSequence op1) (rp_proofHeight op1) R2 W2) as [Hf|(hp & Hin & Hge & Hmin)].
    + cbn [received_channel_datum cd_state packet_receipt]. rewrite Hno, prependToMap_fresh by (apply W1 || apply C1).
      cbn [map_get]. by rewrite decide_True.
    + cbn [received_channel_datum cd_state maximum_receive_proof_height]. apply maximumHeight_ge.
    + exfalso. apply Hf. rewrite <- Hm. apply C2.
    + exists hp. split_and!; [done..|]. eapply height_at_least_trans; [exact (rc_floor _ _ _ C2) | exact Hmin].
  - intros Ho. assert (ch_ordering (channel_end d1) = Ordered) as Ho1 by (unfold channel_end in *; by rewrite E1).
    assert (ch_ordering (channel_end d3) = Ordered) as Ho3 by (unfold channel_end in *; by rewrite E2).
    rewrite (rc_ordered _ _ _ C2 Ho3), (run_ordered _ _ _ R2 Ho1), (rc_ordered _ _ _ C1 Ho1).
    cbn [received_channel_datum cd_state next_sequence_recv]. unfold is_ordered. rewrite bool_decide_true by done. lia.
Qed.

(** ** Commitments *)

Definition resolves (n : Z) (e : event) : Prop := e = EvAck n \/ e = EvTimeout n true.

Lemma step_commitment d e d' n : datum_wf d -> channel_step d e d' ->
  map_get (packet_commitment (cd_state d)) n = None -> (n < next_sequence_send (cd_state d))%Z ->
  map_get (packet_commitment (cd_state d')) n = None.
Proof.
  intros Hw Hs. revert Hw. destruct Hs as [op ? cd ack H1 H2|op ? cd Ho H|? k|? k H|op ? H]; intros Hw Hn Hlt; try done.
  - cbn [acked_channel_datum with_commitments cd_state packet_commitment]. unfold deleteKeySortMap.
    rewrite map_get_delete by apply Hw. by case_decide.
  - rewrite timed_out_acked by done. cbn [acked_channel_datum with_commitments cd_state packet_commitment].
    unfold deleteKeySortMap. rewrite map_get_delete by apply Hw. by case_decide.
  - cbn [sent_channel_datum cd_state packet_commitment]. rewrite insertSortMap_get by apply Hw.
    rewrite decide_False by lia. done.
Qed.

Lemma run_commitment d es d' n : run d es d' -> datum_wf d ->
  map_get (packet_commitment (cd_state d)) n = None -> (n < next_sequence_send (cd_state d))%Z ->
  map_get (packet_commitment (cd_state d')) n = None.
Proof.
  induction 1 as [d|d e d' es d'' Hs Hr IH]; intros Hw Hn Hlt; [done|]. apply IH.
  - by eapply step_wf.
  - by eapply step_commitment.
  - apply step_frame in Hs. lia.
Qed.

Lemma step_resolves d e d' n : datum_wf d -> channel_step d e d' -> resolves n e ->
  map_get (packet_commitment (cd_state d)) n <> None /\ map_get (packet_commitment (cd_state d')) n = None.
Proof.
  intros Hw Hs Hres. revert Hw Hres. destruct Hs as [op ? cd ack H1 H2|op ? cd Ho H|? k|? k H|op ? H]; intros Hw Hres;
    destruct Hres as [E|E]; try discriminate E.
  - injection E as <-. split; [by eapply ack_guards_checked|].
    cbn [acked_channel_datum with_commitments cd_state packet_commitment]. unfold deleteKeySortMap.
    by rewrite map_get_delete_eq by apply Hw.
  - injection E as <- E. split; [by apply bool_decide_has|]. rewrite timed_out_acked by done.
    cbn [acked_channel_datum with_commitments cd_state packet_commitment]. unfold deleteKeySortMap.
    by rewrite map_get_delete_eq by apply Hw.
Qed.

(** C22 (safety): an outstanding packet is resolved at most once: after it has been
    acknowledged, or timed out with its commitment removed, no later step of the
    run acknowledges it or removes its commitment again, and only packets that
    were sent (or outstanding at the start) are resolved. *)
Theorem resolved_once d0 l1 e1 l2 e2 l3 d n :
  datum_wf d0 -> run d0 (l1 ++ e1 :: l2 ++ e2 :: l3) d -> resolves n e1 ->
  ~ resolves n e2 /\ (n < next_sequence_send (cd_state d))%Z.
Proof.
  intros Hw Hr R1. apply run_app in Hr as (d1 & Ra & Hr). inversion Hr as [|? ? d2 ? ? S1 Hr2]; subst.
  pose proof (run_frame _ _ _ Hr2) as F2.
  apply run_app in Hr2 as (d3 & Rb & Hr2). inversion Hr2 as [|? ? d4 ? ? S2 _]; subst.
  pose proof (run_wf _ _ _ Ra Hw) as W1. pose proof (step_wf _ _ _ S1 W1) as W2. pose proof (run_wf _ _ _ Rb W2) as W3.
  destruct (step_resolves _ _ _ _ W1 S1 R1) as [P1 G1].
  assert (n < next_sequence_send (cd_state d2))%Z as Hlt.
  { pose proof (dw_sent _ W1 _ P1). apply step_frame in S1. lia. }
  split.
  - intros R2. destruct (step_resolves _ _ _ _ W3 S2 R2) as [P2 _]. apply P2. by eapply run_commitment.
  - pose proof (fr_send _ _ F2). lia.
Qed.

(** ** Witnesses *)

Definition life_height (n : Z) : Height := MkHeight 0 n.
Definition life_channel : Channel := MkChannel Open Unordered (MkChannelCounterparty "aa" "bb") ["cc"] "dd".
Definition life_datum : ChannelDatum :=
  MkChannelDatum (MkChannelDatumState (MkChannelObj 0 life_channel) 1 1 1 [] [] [] (life_height 0) (life_height 0)) "ee" (MkAuthToken "" "").
Definition life_client : ClientDatum :=
  MkClientDatum (MkClientDatumState (MkClientState "" (1, 3)%Z 1 1 1 (life_height 0) (life_height 9) [])
    [(life_height 5, MkConsensusState 1 "" ""); (life_height 9, MkConsensusState 1 "" "")] [] []) (MkAuthToken "" "").
Definition life_recv (n : Z) (height : Height) : RecvPacketOperator :=
  MkRecvPacketOperator "channel-0" n "" (MkMerkleProof []) height (life_height 0) 0.
Definition life_prune (n : Z) (height : Height) : PrunePacketHistoryOperator :=
  MkPrunePacketHistoryOperator (convertHex2String "ee") "channel-0" n (MkMerkleProof []) height "".
Definition life_ack (n : Z) : AckPacketOperator :=
  MkAckPacketOperator "channel-0" n "" (life_height 5) (MkMerkleProof []) "" (life_height 0) 0.

Lemma life_datum_wf : datum_wf life_datum.
Proof. split; try (by constructor); try done. cbn. lia. Qed.

(** Receive 3 at height 5, prune it at height 9, receive it again at height 9. *)
Definition life_received : list event := [EvRecv 3 (life_height 5); EvPrune 3 (life_height 9); EvRecv 3 (life_height 9)].
Definition life_after : ChannelDatum :=
  received_channel_datum (pruned_channel_datum (received_channel_datum life_datum (life_recv 3 (life_height 5)) "ff") 3 (life_height 9))
    (life_recv 3 (life_height 9)) "ff".
Lemma life_run : run life_datum life_received life_after.
Proof.
  eapply run_cons; [apply (step_recv (life_recv 3 (life_height 5)) _ life_client "ff"); vm_compute; reflexivity|].
  eapply run_cons; [apply (step_prune (life_prune 3 (life_height 9))); vm_compute; reflexivity|].
  eapply run_cons; [apply (step_recv (life_recv 3 (life_height 9)) _ life_client "ff"); vm_compute; reflexivity|].
  apply run_nil.
Qed.

(** Send, acknowledge, then a late timeout of the same packet. *)
Definition life_resolved : list event := [EvSend 1; EvAck 1; EvTimeout 1 false].
Definition life_resolved_datum : ChannelDatum :=
  timed_out_channel_datum (acked_channel_datum (sent_channel_datum life_datum "ff") 1) 1.
Lemma life_resolved_run : run life_datum life_resolved life_resolved_datum.
Proof.
  eapply run_cons; [apply (step_send life_datum "ff"); vm_compute; reflexivity|].
  eapply run_cons; [apply (step_ack (life_ack 1) _ life_client); vm_compute; reflexivity|].
  eapply run_cons; [apply (step_timeout (acked_channel_datum (sent_channel_datum life_datum "ff") 1) 1)|].
  apply run_nil.
Qed.

Lemma channel_invariant_witness :
  datum_wf life_after /\ (packetEntryCount life_after <= MAX_PACKET_ENTRIES_PER_CHANNEL)%nat /\ frame life_datum life_after.
Proof. exact (channel_invariant life_datum life_received life_after life_datum_wf life_run). Defined.

Lemma received_once_witness :
  exists hp, EvPrune 3 hp ∈ [EvPrune 3 (life_height 9)] /\ isHeightAtLeast hp (life_height 5) = true /\ isHeightAtLeast (life_height 9) hp = true.
Proof.
  apply (received_once life_datum [] 3 (life_height 5) [EvPrune 3 (life_height 9)] 3 (life_height 9) [] life_after).
  - apply life_datum_wf.
  - apply life_run.
  - reflexivity.
  - reflexivity.
Defined.

Lemma resolved_once_witness :
  ~ resolves 1 (EvTimeout 1 false) /\ (1 < next_sequence_send (cd_state life_resolved_datum))%Z.
Proof.
  apply (resolved_once life_datum [EvSend 1] (EvAck 1) [] (EvTimeout 1 false) [] life_resolved_datum 1).
  - apply life_datum_wf.
  - apply life_resolved_run.
  - left. reflexivity.
Defined.
