(* ===== verification/PacketOpsTheorems.v ===== *)
(** * Packet operations: what the builders guarantee

    Every successful builder takes one step of the channel's transition system,
    carries the encoding of the datum it steps to, and hands over a tree update
    whose tree holds exactly that datum. *)

From S2P Require Import Prelude JsMap JsString JsJson Hex MerkleTree MerkleSpec MerkleRefine OnChainCommitment MerkleTheorems Datum StateRoot PacketHelpers StateRootFacts StateRootTheorems TreeRebuild TreeServices EscrowShard Voucher Redeemers PacketDenom PacketOps TxBuilder ChannelLifecycle.

(** Run a successful program in [H] step by step: binds are split, pure steps keep
    the state, pairs bound by a pattern are taken apart. *)
Ltac inv_step H :=
  first
  [ progress cbv zeta in H
  | lazymatch type of H with
    | mbind _ _ _ = (Ok _, _) =>
        let a := fresh "a" in let s := fresh "s" in let E := fresh "E" in
        apply M_bind_ok in H as (a & s & E & H); try (apply liftR_ok in E as [E ->])
    | mbind _ _ = Ok _ => let a := fresh "a" in let E := fresh "E" in apply bind_ok in H as (a & E & H)
    | liftR _ _ = (Ok _, _) => apply liftR_ok in H as [H ->]
    | (let '(_, _) := ?x in _) _ = _ => destruct x
    | (let '(_, _) := ?x in _) = _ => destruct x
    end ].
Ltac inv_prog H := repeat inv_step H.

Section packet_service.
Context `{SHA : Sha256} `{L : Lucid} `{CV : ChainView} `{BL : Blake2b} `{S3 : Sha3}.
Context `{EV : EscrowEnv} `{DP : Deployment} `{PE : PacketEnv} `{SE : SendEnv}.

(** The HostState UTxO and datum a builder works against. *)
Definition host_state_is (u : UTxO) (h : HostStateDatum) : Prop :=
  exists d, findUtxoAtHostStateNFT = Ok (Some u) /\ datum_of u = Some d /\ decode_host_state d = Ok h.

(** The transaction and its pending update are the HostState update for the
    channel datum change from [d] to [d']. *)
Record tx_commits (s : gstate) (tx : PacketTx) (p : PendingTreeUpdate) (h : HostStateDatum) (d d' : ChannelDatum)
    (channelId : string) (s' : gstate) : Prop := {
  tc_channel : tx_encodedUpdatedChannelDatum tx = encodeChannelDatum d';
  tc_host : host_state_is (tx_hostStateUtxo tx) h;
  tc_root : exists s1 r,
    ensureTreeAligned (ibc_state_root (hs_state h)) s = (Ok tt, s1) /\
    computeRootWithHandlePacketUpdate (ibc_state_root (hs_state h)) (convertHex2String (cd_port d)) channelId d d' s1
      = (Ok r, s') /\
    encode_host_state_redeemer (HandlePacket (witness r)) = Ok (tx_encodedHostStateRedeemer tx) /\
    encode_host_state (updated_host_state h (newRoot r)) = Ok (tx_encodedUpdatedHostStateDatum tx) /\
    p = MkPending (newRoot r) (commitTree r);
}.

Lemma load_host_state_ok s u h s' : load_host_state s = (Ok (u, h), s') -> host_state_is u h /\ s' = s.
Proof.
  unfold load_host_state. intros H. inv_bind H. inv_ret E. destruct a as [u'|]; [|discriminate].
  destruct (datum_of u') as [d|] eqn:Ed; [|discriminate]. inv_bind H. inv_ret E0. apply mret_ok in H as [[= -> ->] ->].
  split; [|done]. by exists d.
Qed.

Lemma package_host_update_ok {W} u h (r : StateRootResult W) w s hu s' :
  package_host_update u h r w s = (Ok hu, s') ->
  hu_hostStateUtxo hu = u /\ encode_host_state_redeemer (HandlePacket w) = Ok (hu_encodedHostStateRedeemer hu) /\
  encode_host_state (updated_host_state h (newRoot r)) = Ok (hu_encodedUpdatedHostStateDatum hu) /\
  hu_pending hu = MkPending (newRoot r) (commitTree r) /\ s' = s.
Proof.
  unfold package_host_update. intros H. inv_bind H. inv_ret E. inv_ret E0. by apply mret_ok in H as [-> ->].
Qed.

Lemma buildHostState_ok d d' c s hu s' :
  buildHostStateUpdateForHandlePacket d d' c s = (Ok hu, s') ->
  exists h s1 r, host_state_is (hu_hostStateUtxo hu) h /\
    ensureTreeAligned (ibc_state_root (hs_state h)) s = (Ok tt, s1) /\
    computeRootWithHandlePacketUpdate (ibc_state_root (hs_state h)) (convertHex2String (cd_port d)) c d d' s1 = (Ok r, s') /\
    encode_host_state_redeemer (HandlePacket (witness r)) = Ok (hu_encodedHostStateRedeemer hu) /\
    encode_host_state (updated_host_state h (newRoot r)) = Ok (hu_encodedUpdatedHostStateDatum hu) /\
    hu_pending hu = MkPending (newRoot r) (commitTree r).
Proof.
  unfold buildHostStateUpdateForHandlePacket. intros H. inv_bind H. destruct a as [u h].
  apply load_host_state_ok in E as [Hh ->]. cbv zeta in H. apply M_bind_ok in H as ([] & s1 & Ea & H).
  apply M_bind_ok in H as (r & s2 & Er & H). apply package_host_update_ok in H as (-> & H1 & H2 & H3 & ->).
  by exists h, s1, r.
Qed.

Lemma commit_channel_ok d d' c s enc hu s' :
  commit_channel d d' c s = (Ok (enc, hu), s') ->
  enc = encodeChannelDatum d' /\ buildHostStateUpdateForHandlePacket d d' c s = (Ok hu, s').
Proof.
  unfold commit_channel. intros H. inv_bind H. inv_ret E. apply mret_ok in H as [[= -> ->] ->].
  unfold encode_channel in E. cbn in E. by injection E as <-.
Qed.

(** Any transaction made from a HostState update commits it. *)
Lemma make_tx_commits d d' c s enc hu s' cx kx r1 pol vp app :
  commit_channel d d' c s = (Ok (enc, hu), s') ->
  exists h, tx_commits s (make_tx cx kx hu r1 enc pol vp app) (hu_pending hu) h d d' c s'.
Proof.
  intros [-> (h & s1 & r & Hh & H1 & H2 & H3 & H4 & H5)%buildHostState_ok]%commit_channel_ok.
  exists h. split; [done|done|]. by exists s1, r.
Qed.

(** The transaction spends a channel UTxO with datum [d], by the channel's own
    authentication token, and moves the channel from [d] to [d'] with event [e]. *)
Definition tx_steps (s : gstate) (tx : PacketTx) (p : PendingTreeUpdate) (e : event) (channelId : string) (s' : gstate)
  : Prop :=
  exists h d d', decode_datum decode_channel (tx_channelUtxo tx) = Ok d /\
    findUtxoByUnit (tx_channelTokenUnit tx) = Ok (tx_channelUtxo tx) /\
    channel_step d e d' /\ tx_commits s tx p h d d' channelId s'.

Lemma load_channel_ok n cx : load_channel n = Ok cx ->
  decode_datum decode_channel (cx_channelUtxo cx) = Ok (cx_channelDatum cx) /\
  findUtxoByUnit (cx_channelTokenUnit cx) = Ok (cx_channelUtxo cx).
Proof.
  unfold load_channel. intros H. inv_bind H. destruct a as [policy name]. inv_bind H. injection H as <-.
  by split.
Qed.

(** Finish a branch: the transaction is [make_tx] of the loaded context. *)
Lemma branch_steps n cx s tx p e d' c s' :
  load_channel n = Ok cx -> channel_step (cx_channelDatum cx) e d' ->
  tx_channelUtxo tx = cx_channelUtxo cx -> tx_channelTokenUnit tx = cx_channelTokenUnit cx ->
  (exists h, tx_commits s tx p h (cx_channelDatum cx) d' c s') -> tx_steps s tx p e c s'.
Proof.
  intros [H1 H2]%load_channel_ok Hs E1 E2 [h Hc]. exists h, (cx_channelDatum cx), d'. by rewrite E1, E2.
Qed.

(** What a branch of a builder has produced for the next datum [d']. *)
Definition branch_ok (s : gstate) (cx : ChannelContext) (tx : PacketTx) (p : PendingTreeUpdate) (d' : ChannelDatum)
    (c : string) (s' : gstate) : Prop :=
  tx_channelUtxo tx = cx_channelUtxo cx /\ tx_channelTokenUnit tx = cx_channelTokenUnit cx /\
  exists h, tx_commits s tx p h (cx_channelDatum cx) d' c s'.

Lemma made_branch_ok s cx kx d' c enc hu s' r1 pol vp app :
  commit_channel (cx_channelDatum cx) d' c s = (Ok (enc, hu), s') ->
  branch_ok s cx (make_tx cx kx hu r1 enc pol vp app) (hu_pending hu) d' c s'.
Proof. intros H. split_and!; [done..|]. by apply make_tx_commits. Qed.

Lemma branch_ok_steps n s cx tx p e d' c s' :
  load_channel n = Ok cx -> channel_step (cx_channelDatum cx) e d' -> branch_ok s cx tx p d' c s' ->
  tx_steps s tx p e c s'.
Proof. intros H1 H2 (H3 & H4 & H5). by eapply branch_steps. Qed.

Lemma recv_icq_ok op cx kx r1 vp s tx p s' :
  recv_icq op cx kx r1 vp s = (Ok (tx, p), s') ->
  exists ack, branch_ok s cx tx p (received_channel_datum (cx_channelDatum cx) op ack) (rp_channelId op) s'.
Proof.
  unfold recv_icq. intros H. inv_prog H. apply mret_ok in H as [[= -> ->] ->].
  eexists. by eapply made_branch_ok.
Qed.

Lemma recv_unescrow_ok op cx kx i denom r1 r2 addr vp s tx p s' :
  recv_unescrow op cx kx i denom r1 r2 addr vp s = (Ok (tx, p), s') ->
  exists ack, branch_ok s cx tx p (received_channel_datum (cx_channelDatum cx) op ack) (rp_channelId op) s'.
Proof.
  unfold recv_unescrow. intros H. inv_prog H. apply mret_ok in H as [[= -> ->] ->].
  eexists. by eapply made_branch_ok.
Qed.

Lemma recv_mint_ok op cx kx i u denom r1 r2 addr vp s tx p s' :
  recv_mint op cx kx i u denom r1 r2 addr vp s = (Ok (tx, p), s') ->
  exists ack, branch_ok s cx tx p (received_channel_datum (cx_channelDatum cx) op ack) (rp_channelId op) s'.
Proof.
  unfold recv_mint. intros H. inv_prog H. apply mret_ok in H as [[= -> ->] ->].
  match goal with E : context [resolveTraceRegistryUpdate] |- _ => inv_prog E; apply Ok_inj in E as <- end.
  eexists. by eapply made_branch_ok.
Qed.

Lemma recv_transfer_ok op cx kx j r1 addr vp s tx p s' :
  recv_transfer op cx kx j r1 addr vp s = (Ok (tx, p), s') ->
  exists ack, branch_ok s cx tx p (received_channel_datum (cx_channelDatum cx) op ack) (rp_channelId op) s'.
Proof.
  unfold recv_transfer. intros H. inv_prog H.
  destruct (_hasVoucherPrefix _ _ _); [by eapply recv_unescrow_ok | by eapply recv_mint_ok].
Qed.

Lemma recv_steps op addr s tx p s' :
  buildUnsignedRecvPacketTx op addr s = (Ok (tx, p), s') ->
  tx_steps s tx p (EvRecv (rp_packetSequence op) (rp_proofHeight op)) (rp_channelId op) s'.
Proof.
  unfold buildUnsignedRecvPacketTx. intros H. inv_prog H. inv_bind E.
  repeat match goal with u : () |- _ => destruct u end.
  enough (exists ack, branch_ok s a tx p (received_channel_datum (cx_channelDatum a) op ack) (rp_channelId op) s') as [ack Hb].
  { eapply branch_ok_steps; [eassumption| |exact Hb]. by eapply step_recv. }
  destruct (decide _) in H; [by eapply recv_icq_ok|].
  destruct (_ && _) in H; [|discriminate]. destruct (JSON_parse _) as [j|] in H; [|discriminate].
  destruct j as [| | | | |fs]; try discriminate. destruct (map_has _ _) in H; [|discriminate]. by eapply recv_transfer_ok.
Qed.

(** *** Acknowledge *)

Lemma ack_icq_ok op cx kx j r1 vp s tx p w s' :
  ack_icq op cx kx j r1 vp s = (Ok (tx, p, w), s') ->
  branch_ok s cx tx p (acked_channel_datum (cx_channelDatum cx) (ap_packetSequence op)) (ap_channelId op) s'.
Proof. unfold ack_icq. intros H. inv_prog H. apply mret_ok in H as [[= -> -> ->] ->]. by eapply made_branch_ok. Qed.

Lemma ack_succeed_ok op cx kx u r1 r2 addr vp s tx p w s' :
  ack_succeed op cx kx u r1 r2 addr vp s = (Ok (tx, p, w), s') ->
  branch_ok s cx tx p (acked_channel_datum (cx_channelDatum cx) (ap_packetSequence op)) (ap_channelId op) s'.
Proof. unfold ack_succeed. intros H. inv_prog H. apply mret_ok in H as [[= -> -> ->] ->]. by eapply made_branch_ok. Qed.

Lemma ack_unescrow_ok op cx kx i denom r1 r2 addr vp s tx p w s' :
  ack_unescrow op cx kx i denom r1 r2 addr vp s = (Ok (tx, p, w), s') ->
  branch_ok s cx tx p (acked_channel_datum (cx_channelDatum cx) (ap_packetSequence op)) (ap_channelId op) s'.
Proof. unfold ack_unescrow. intros H. inv_prog H. apply mret_ok in H as [[= -> -> ->] ->]. by eapply made_branch_ok. Qed.

Lemma ack_mint_ok op cx kx i u err denom r1 r2 addr vp s tx p w s' :
  ack_mint op cx kx i u err denom r1 r2 addr vp s = (Ok (tx, p, w), s') ->
  branch_ok s cx tx p (acked_channel_datum (cx_channelDatum cx) (ap_packetSequence op)) (ap_channelId op) s'.
Proof.
  unfold ack_mint. intros H. inv_prog H. apply mret_ok in H as [[= -> -> ->] ->].
  match goal with E : context [resolveTraceRegistryUpdate] |- _ => inv_prog E; apply Ok_inj in E as <- end.
  by eapply made_branch_ok.
Qed.

Lemma ack_transfer_ok op cx kx j r1 addr vp s tx p w s' :
  ack_transfer op cx kx j r1 addr vp s = (Ok (tx, p, w), s') ->
  branch_ok s cx tx p (acked_channel_datum (cx_channelDatum cx) (ap_packetSequence op)) (ap_channelId op) s'.
Proof.
  unfold ack_transfer. intros H. inv_prog H. destruct (extractAcknowledgementResult _); [by eapply ack_succeed_ok|].
  destruct (extractAcknowledgementError _); [|discriminate]. inv_prog H.
  destruct (negb _) in H; [by eapply ack_unescrow_ok | by eapply ack_mint_ok].
Qed.

Lemma ack_steps op addr s tx p w s' :
  buildUnsignedAcknowlegementPacketTx op addr s = (Ok (tx, p, w), s') ->
  tx_steps s tx p (EvAck (ap_packetSequence op)) (ap_channelId op) s'.
Proof.
  unfold buildUnsignedAcknowlegementPacketTx. intros H. inv_prog H. inv_bind E.
  destruct (decide _) as [|Ho] in H; [discriminate|]. inv_prog H.
  repeat match goal with u : () |- _ => destruct u end.
  eapply branch_ok_steps; [eassumption| |].
  - eapply step_ack; [by destruct (decide (ch_state (channel_end (cx_channelDatum a)) = Open))|eassumption].
  - destruct (decide _) in H; [by eapply ack_icq_ok | by eapply ack_transfer_ok].
Qed.

(** *** Time out and send *)

Lemma timeout_unescrow_ok op cx kx hu denom amount r1 enc r2 addr vp tx p :
  timeout_unescrow op cx kx hu denom amount r1 enc r2 addr vp = Ok (tx, p) ->
  p = hu_pending hu /\ exists pol app, tx = make_tx cx kx hu r1 enc pol (Some vp) app.
Proof. unfold timeout_unescrow. intros H. inv_prog H. apply Ok_inj in H as [= <- <-]. eauto. Qed.

Lemma timeout_mint_ok op cx kx hu u denom amount r1 enc r2 addr vp tx p :
  timeout_mint op cx kx hu u denom amount r1 enc r2 addr vp = Ok (tx, p) ->
  p = hu_pending hu /\ exists pol app, tx = make_tx cx kx hu r1 enc pol (Some vp) app.
Proof.
  unfold timeout_mint. intros H. inv_prog H. apply Ok_inj in H as [= <- <-].
  split; [done|]. match goal with E : _ = Ok ?x |- exists _ _, ?x = _ => inv_prog E; apply Ok_inj in E as <- end. eauto.
Qed.

Lemma timeout_steps op addr s tx p s' :
  buildUnsignedTimeoutPacketTx op addr s = (Ok (tx, p), s') ->
  exists removed, tx_steps s tx p (EvTimeout (sequence (tp_packet op)) removed)
                    (convertHex2String (source_channel (tp_packet op))) s'.
Proof.
  unfold buildUnsignedTimeoutPacketTx. intros H. inv_prog H. inv_bind E.
  destruct (negb _) in H; [discriminate|]. inv_prog H. eexists.
  eapply branch_ok_steps; [eassumption|by apply step_timeout|].
  destruct (negb _) in H;
    [apply timeout_unescrow_ok in H as (-> & pol & app & ->) | apply timeout_mint_ok in H as (-> & pol & app & ->)];
    by eapply made_branch_ok.
Qed.

Lemma send_steps op s tx p n s' :
  buildUnsignedSendModulePacketTx op s = (Ok (tx, p, n), s') -> tx_steps s tx p (EvSend n) (sp_sourceChannel op) s'.
Proof.
  unfold buildUnsignedSendModulePacketTx. intros H. destruct (decide _) in H; [discriminate|]. inv_prog H. inv_bind E.
  repeat match goal with u : () |- _ => destruct u end.
  destruct (module_key _) eqn:Ek in H; [discriminate|..]; inv_prog H; apply mret_ok in H as [[= -> -> ->] ->];
    (eapply branch_ok_steps; [eassumption|by apply step_send|by eapply made_branch_ok]).
Qed.

(** *** Transfer send: the package with the Gateway's dependencies *)

Lemma on_module_ok {A} (m : M gstate A) st a st' :
  on_module m st = (Ok a, st') -> m st.1 = (Ok a, st'.1) /\ st'.2 = st.2.
Proof. unfold on_module. destruct (m st.1) as [r g]. by intros [= -> <-]. Qed.

Lemma loadContext_ok op ctx : gateway_loadContext op = Ok ctx ->
  decode_datum decode_channel (lc_channelUtxo ctx) = Ok (lc_channelDatum ctx) /\
  findUtxoByUnit (lc_channelTokenUnit ctx) = Ok (lc_channelUtxo ctx) /\
  validateSendPacketCommitmentCapacity (lc_channelDatum ctx) = Ok tt.
Proof.
  unfold gateway_loadContext. intros H. inv_prog H. apply Ok_inj in H as <-.
  repeat match goal with u : () |- _ => destruct u end.
  match goal with E : load_channel _ = Ok _ |- _ => apply load_channel_ok in E as [Hdec Hunit] end. by split_and!.
Qed.

(** What both branches of the send have in common. *)
Definition send_made (ctx : LoadedSendPacketContext) (hu : HostStateUpdate) (updated : ChannelDatum) (tx : PacketTx)
  (p : PendingTreeUpdate) : Prop :=
  p = hu_pending hu /\ tx_channelUtxo tx = lc_channelUtxo ctx /\ tx_channelTokenUnit tx = lc_channelTokenUnit ctx /\
  tx_hostStateUtxo tx = hu_hostStateUtxo hu /\ tx_encodedHostStateRedeemer tx = hu_encodedHostStateRedeemer hu /\
  tx_encodedUpdatedHostStateDatum tx = hu_encodedUpdatedHostStateDatum hu /\
  tx_encodedUpdatedChannelDatum tx = encodeChannelDatum updated.

Lemma send_burn_ok op ctx hu a b packet f updated r1 r2 st tx p w st' :
  send_burn op ctx hu a b packet f updated r1 r2 st = (Ok (MkSendPacketBuildResult tx p w), st') ->
  send_made ctx hu updated tx p /\ st'.1 = st.1.
Proof.
  unfold send_burn. cbn [dep_encode findUtxoAtWithUnit tryFindUtxosAt createUnsignedSendPacketBurnTx gateway_deps].
  intros H. inv_prog H. apply mret_ok in H as [[= -> -> ->] ->].
  match goal with E : Ok (send_tx _ _ _ _ _) = Ok _ |- _ => apply Ok_inj in E as <- end.
  match goal with E : lucid_encode (EncChannel _) = Ok _ |- _ => cbn in E; apply Ok_inj in E as <- end. done.
Qed.

Lemma escrow_shard_found_ok a b c st l st' : gateway_findTransferEscrowShard a b c st = (Ok l, st') -> st'.1 = st.1.
Proof.
  unfold gateway_findTransferEscrowShard. intros H. inv_prog H. apply mret_ok in H as [-> ->].
  done.
Qed.

Lemma createEscrow_ok tx st tx' st' : gateway_createEscrowTx tx st = (Ok tx', st') ->
  exists u, tx' = with_module_utxo u tx /\ st' = st.
Proof.
  unfold gateway_createEscrowTx. intros H. inv_bind H. inv_ret E. destruct (st.2) as [l|]; [|discriminate].
  apply mret_ok in H as [-> ->]. eauto.
Qed.

Lemma send_escrow_ok op ctx hu a b c f updated r1 r2 st tx p w st' :
  send_escrow op ctx hu a b c f updated r1 r2 st = (Ok (MkSendPacketBuildResult tx p w), st') ->
  send_made ctx hu updated tx p /\ st'.1 = st.1.
Proof.
  unfold send_escrow.
  cbn [dep_encode findUtxoAtWithUnit tryFindUtxosAt dep_findTransferEscrowShard createUnsignedSendPacketEscrowTx gateway_deps].
  intros H. inv_prog H. destruct (decide _) in H; [discriminate|]. inv_prog H.
  apply mret_ok in H as [[= -> -> ->] ->].
  match goal with E : gateway_findTransferEscrowShard _ _ _ _ = (Ok ?l, _) |- _ =>
    apply escrow_shard_found_ok in E; rename l into lk end.
  match goal with E : gateway_createEscrowTx _ _ = _ |- _ => apply createEscrow_ok in E as (u & -> & ->) end.
  match goal with E : lucid_encode (EncChannel _) = Ok _ |- _ => cbn in E; apply Ok_inj in E as <- end.
  split; [done|]. match goal with E : match lk with _ => _ end _ = _ |- _ => destruct lk; inv_prog E;
    apply mret_ok in E as [_ ->] end; congruence.
Qed.

Lemma resolvePacketDenom_ok denom st a st' : resolvePacketDenomForSend denom st = (Ok a, st') -> st' = st.
Proof.
  unfold resolvePacketDenomForSend. cbn [resolveIbcDenomHash gateway_deps]. destruct (negb _).
  - by intros [_ ->]%mret_ok.
  - intros H. inv_prog H. case_match; [|discriminate]. by apply mret_ok in H as [_ ->].
Qed.

Lemma send_made_commits ctx hu d d' c s tx p s' :
  send_made ctx hu d' tx p -> buildHostStateUpdateForHandlePacket d d' c s = (Ok hu, s') ->
  exists h, tx_commits s tx p h d d' c s'.
Proof.
  intros (-> & _ & _ & M1 & M2 & M3 & M4) (h & s1 & r & Hh & B1 & B2 & B3 & B4 & B5)%buildHostState_ok.
  exists h. split; [done|by rewrite M1|]. exists s1, r. by rewrite M2, M3.
Qed.

Lemma transfer_steps op s tx p w s' :
  buildUnsignedSendPacketTx op s = (Ok (MkSendPacketBuildResult tx p w), s') ->
  exists n, tx_steps s tx p (EvSend n) (so_sourceChannel op) s'.
Proof.
  unfold buildUnsignedSendPacketTx. destruct (buildUnsignedSendPacketTx_pkg op (s, None)) as [r st] eqn:H.
  intros [= -> <-]. unfold buildUnsignedSendPacketTx_pkg in H.
  cbn [loadContext dep_commitPacket dep_encode buildHostStateUpdate gateway_deps] in H.
  inv_prog H. destruct (decide _) in H; [discriminate|]. inv_prog H.
  match goal with E : resolvePacketDenomForSend _ _ = _ |- _ => apply resolvePacketDenom_ok in E as -> end.
  match goal with E : gateway_loadContext _ = Ok ?c |- _ => apply loadContext_ok in E as (Hdec & Hunit & Hcap); rename c into ctx end.
  match goal with E : on_module _ _ = (_, ?y) |- _ => rename y into sh; apply on_module_ok in E as [Hhu _]; cbn [fst] in Hhu end.
  assert (send_made ctx a6 (sent_channel_datum (lc_channelDatum ctx) a3) tx p /\ st.1 = sh.1) as [Hm Hst]
    by (destruct (hasVoucherPrefix _ _ _) in H; [by eapply send_burn_ok | by eapply send_escrow_ok]).
  rewrite <- Hst in Hhu. destruct (send_made_commits _ _ _ _ _ _ _ _ _ Hm Hhu) as [h Hc].
  destruct Hm as (_ & Hu1 & Hu2 & _). eexists. exists h, (lc_channelDatum ctx). eexists. rewrite Hu1, Hu2.
  split_and!; [exact Hdec | exact Hunit | by apply step_send | exact Hc].
Qed.

(** ** The builders as one relation *)

(** A builder called in state [s] returned the transaction [tx] with the pending
    tree update [p], for the event [e] on the channel [c]. *)
Inductive packet_tx (s : gstate) (tx : PacketTx) (p : PendingTreeUpdate) (s' : gstate) : event -> string -> Prop :=
| tx_recv op addr :
    buildUnsignedRecvPacketTx op addr s = (Ok (tx, p), s') ->
    packet_tx s tx p s' (EvRecv (rp_packetSequence op) (rp_proofHeight op)) (rp_channelId op)
| tx_ack op addr w :
    buildUnsignedAcknowlegementPacketTx op addr s = (Ok (tx, p, w), s') ->
    packet_tx s tx p s' (EvAck (ap_packetSequence op)) (ap_channelId op)
| tx_timeout op addr d :
    buildUnsignedTimeoutPacketTx op addr s = (Ok (tx, p), s') ->
    decode_datum decode_channel (tx_channelUtxo tx) = Ok d ->
    packet_tx s tx p s'
      (EvTimeout (sequence (tp_packet op)) (map_has (packet_commitment (cd_state d)) (sequence (tp_packet op))))
      (convertHex2String (source_channel (tp_packet op)))
| tx_send op n :
    buildUnsignedSendModulePacketTx op s = (Ok (tx, p, n), s') ->
    packet_tx s tx p s' (EvSend n) (sp_sourceChannel op)
| tx_transfer op w d :
    buildUnsignedSendPacketTx op s = (Ok (MkSendPacketBuildResult tx p w), s') ->
    decode_datum decode_channel (tx_channelUtxo tx) = Ok d ->
    packet_tx s tx p s' (EvSend (next_sequence_send (cd_state d))) (so_sourceChannel op).

Lemma packet_tx_steps s tx p s' e c : packet_tx s tx p s' e c -> tx_steps s tx p e c s'.
Proof.
  intros [op addr H|op addr w H|op addr d H Hd|op n H|op w d H Hd];
    [by eapply recv_steps|by eapply ack_steps| |by eapply send_steps|].
  - apply timeout_steps in H as (removed & h & d0 & d' & H1 & H2 & H3 & H4).
    rewrite Hd in H1. apply Ok_inj in H1 as <-. inversion H3; subst. by eexists h, d, _.
  - apply transfer_steps in H as (n & h & d0 & d' & H1 & H2 & H3 & H4).
    rewrite Hd in H1. apply Ok_inj in H1 as <-. inversion H3; subst. by eexists h, d, _.
Qed.

Lemma host_state_unique u h h' : host_state_is u h -> host_state_is u h' -> h = h'.
Proof. intros (d & _ & Hd & Hh) (d' & _ & Hd' & Hh'). rewrite Hd in Hd'. injection Hd' as <-. rewrite Hh in Hh'. by apply Ok_inj in Hh'. Qed.

(** ** A step keeps the value of every entry it keeps *)

Lemma keeps_refl (m : jsmap Z string) : keeps_values m m.
Proof. intros n v v' H1 H2. congruence. Qed.

Lemma keeps_delete (m : jsmap Z string) k : map_wf m -> keeps_values m (map_delete m k).
Proof. intros Hw n v v' H1. rewrite map_get_delete by done. case_decide; congruence. Qed.

Lemma keeps_insert (m : jsmap Z string) k x : map_wf m -> map_get m k = None -> keeps_values m (insertSortMapWithNumberKey m k x).
Proof. intros Hw Hk n v v' H1. rewrite insertSortMap_get by done. case_decide; congruence. Qed.

Lemma keeps_prepend (m : jsmap Z string) k x : map_wf m -> map_get m k = None -> keeps_values m (prependToMap m k x).
Proof. intros Hw Hk n v v' H1. rewrite prependToMap_fresh by done. cbn [map_get]. case_decide; congruence. Qed.

Lemma step_keeps d e d' : datum_wf d -> channel_step d e d' -> (forall n h, e <> EvPrune n h) ->
  keeps_values (packet_commitment (cd_state d)) (packet_commitment (cd_state d')) /\
  keeps_values (packet_receipt (cd_state d)) (packet_receipt (cd_state d')) /\
  keeps_values (packet_acknowledgement (cd_state d)) (packet_acknowledgement (cd_state d')).
Proof.
  intros Hw Hs He. revert Hw He. destruct Hs as [op ? cd ack H1 H2|op ? cd Ho H|? n|? k H|op ? H]; intros Hw He.
  - pose proof (recv_guards_checked _ _ _ H1 H2) as C.
    cbn [received_channel_datum cd_state packet_commitment packet_receipt packet_acknowledgement]. split_and!.
    + apply keeps_refl.
    + destruct (is_ordered _); [apply keeps_refl|]. apply keeps_prepend; [apply Hw | apply C].
    + apply keeps_insert; [apply Hw | by eapply recv_no_ack].
  - split_and!; [|apply keeps_refl..]. apply keeps_delete, Hw.
  - rewrite timed_out_acked by done. split_and!; [|apply keeps_refl..]. apply keeps_delete, Hw.
  - split_and!; [|apply keeps_refl..]. apply keeps_insert; [apply Hw | by apply fresh_send].
  - by destruct (He (pp_sequence op) (pp_proofHeight op)).
Qed.

(** ** Claims *)

(** C2 (refinement): every transaction a receive, acknowledge, timeout or send
    builder returns spends the channel UTxO found by the channel's token, takes
    one step of the channel's transition system from the datum of that UTxO, and
    carries the encoding of the datum stepped to together with the HostState
    update computed for exactly that change. *)
Theorem packet_tx_takes_step s tx p s' e c :
  packet_tx s tx p s' e c ->
  exists h d d', decode_datum decode_channel (tx_channelUtxo tx) = Ok d /\
    findUtxoByUnit (tx_channelTokenUnit tx) = Ok (tx_channelUtxo tx) /\
    channel_step d e d' /\ tx_commits s tx p h d d' c s'.
Proof. apply packet_tx_steps. Qed.

(** What the validator and the next builder see of a packet transaction: the
    redeemer's witness replays the HostState root from the committed one to the
    one in the new HostState datum, and the pending tree holds the new datum. *)
Definition tx_replayed (s1 : gstate) (tx : PacketTx) (p : PendingTreeUpdate) (h : HostStateDatum) (d d' : ChannelDatum)
    (c : string) (s' : gstate) : Prop :=
  let root := ibc_state_root (hs_state h) in
  let portId := convertHex2String (cd_port d) in
  exists r u, tx_encodedUpdatedChannelDatum tx = encodeChannelDatum d' /\
    encode_host_state_redeemer (HandlePacket (witness r)) = Ok (tx_encodedHostStateRedeemer tx) /\
    encode_host_state (updated_host_state h (newRoot r)) = Ok (tx_encodedUpdatedHostStateDatum tx) /\
    p = MkPending (newRoot r) (commitTree r) /\
    packet_updates_of portId c (cd_state d) (cd_state d') u /\
    (Forall (fun x => value_ok x.2) (pu_list u) ->
     root_transition s1 root (pu_list u) (pu_siblings u (witness r)) r s' /\
     channel_committed (commitTree r) portId c (cd_state d')).

Lemma tracked_present `{LOK : !LucidOk} (m : jsmap Z string) f n : tracks m f -> map_has m n = true -> f n <> [].
Proof.
  intros Ht Hn. specialize (Ht n). apply bool_decide_has in Hn. destruct (map_get m n); [|done].
  destruct Ht as (x & Hx & ->). by eapply Data_to_nonempty.
Qed.

Lemma packet_tx_replays `{LOK : !LucidOk} `{STD : !Sha256Std} s tx p s' e c h d s1 :
  packet_tx s tx p s' e c ->
  decode_datum decode_channel (tx_channelUtxo tx) = Ok d -> datum_wf d ->
  host_state_is (tx_hostStateUtxo tx) h ->
  ensureTreeAligned (ibc_state_root (hs_state h)) s = (Ok tt, s1) -> state_ok s1 ->
  channel_committed (base_tree s1 (ibc_state_root (hs_state h))) (convertHex2String (cd_port d)) c (cd_state d) ->
  exists d', channel_step d e d' /\ datum_wf d' /\ tx_replayed s1 tx p h d d' c s'.
Proof.
  intros Htx Hd Hw Hh Ha Hok Hcom.
  assert (forall n hp, e <> EvPrune n hp) as He by (by destruct Htx).
  apply packet_tx_steps in Htx as (h0 & d0 & d' & Hd0 & _ & Hs & [T1 T2 (s2 & r & T3 & T4 & T5 & T6 & T7)]).
  rewrite Hd in Hd0. apply Ok_inj in Hd0 as <-. rewrite <- (host_state_unique _ _ _ Hh T2) in *.
  rewrite Ha in T3. injection T3 as <-. destruct (step_keeps _ _ _ Hw Hs He) as (K1 & K2 & K3).
  exists d'. split_and!; [done|by eapply step_wf|].
  destruct (handlePacket_replays s1 _ _ _ _ _ _ _ Hok (fun n => tracked_present _ _ n (com_commitment _ _ _ _ Hcom)) T4)
    as (u & Hu & Hrt).
  exists r, u. split_and!; [done..|]. intros Hv. split; [by apply Hrt|].
  eapply (handlePacket_tracks s1 _ _ _ d); try done.
  - by intros _; rewrite (proj1 (step_frame _ _ _ Hs)).
  - intros u' Hu'. by rewrite (packet_updates_of_inj _ _ _ _ _ _ Hu' Hu).
Qed.

(** C1 (refinement): from an aligned tree that holds the channel's datum, the
    transaction of a receive, acknowledge, timeout or send builder carries the
    witnesses with which the validator replays exactly the keys in which the old
    and the new channel datum differ, from the HostState root on chain to the root
    in the new HostState datum; and the pending tree, installed once the
    transaction confirms, holds exactly the new channel datum and has that root. *)
Theorem packet_tx_replayed `{LOK : !LucidOk} `{STD : !Sha256Std} s tx p s' e c h d s1 :
  packet_tx s tx p s' e c ->
  decode_datum decode_channel (tx_channelUtxo tx) = Ok d -> datum_wf d ->
  host_state_is (tx_hostStateUtxo tx) h ->
  ensureTreeAligned (ibc_state_root (hs_state h)) s = (Ok tt, s1) -> state_ok s1 ->
  channel_committed (base_tree s1 (ibc_state_root (hs_state h))) (convertHex2String (cd_port d)) c (cd_state d) ->
  exists d', channel_step d e d' /\ datum_wf d' /\ tx_replayed s1 tx p h d d' c s'.
Proof. apply packet_tx_replays. Qed.

(** ** Prune *)

Lemma buildHostStatePrune_ok d c n s hu s' :
  buildHostStateUpdateForPrunePacketHistory d c n s = (Ok hu, s') ->
  exists h s1 r, host_state_is (hu_hostStateUtxo hu) h /\
    ensureTreeAligned (ibc_state_root (hs_state h)) s = (Ok tt, s1) /\
    computeRootWithPrunePacketHistoryUpdate (ibc_state_root (hs_state h)) (convertHex2String (cd_port d)) c n s1 = (Ok r, s') /\
    encode_host_state_redeemer (HandlePacket (MkHandlePacketW [] [] [] [] []
      (pr_receiptSiblings (witness r)) (pr_acknowledgementSiblings (witness r)))) = Ok (hu_encodedHostStateRedeemer hu) /\
    encode_host_state (updated_host_state h (newRoot r)) = Ok (hu_encodedUpdatedHostStateDatum hu) /\
    hu_pending hu = MkPending (newRoot r) (commitTree r).
Proof.
  unfold buildHostStateUpdateForPrunePacketHistory. intros H. inv_bind H. destruct a as [u h].
  apply load_host_state_ok in E as [Hh ->]. cbv zeta in H. apply M_bind_ok in H as ([] & s1 & Ea & H).
  apply M_bind_ok in H as (r & s2 & Er & H). apply package_host_update_ok in H as (-> & H1 & H2 & H3 & ->).
  by exists h, s1, r.
Qed.

Lemma tracks_delete (m : jsmap Z string) f f' k : map_wf m -> tracks m f ->
  (forall n, f' n = if decide (n = k) then [] else f n) -> tracks (map_delete m k) f'.
Proof.
  intros Hw Ht Hf n. rewrite Hf, map_get_delete by done. destruct (decide (n = k)) as [->|Hn].
  - by rewrite decide_True.
  - rewrite decide_False by congruence. apply Ht.
Qed.

(** Deleting a receipt and its acknowledgement leaves the pruned datum. *)
Lemma pruned_committed t p c d n hp : tree_wf t -> datum_wf d -> channel_committed t p c (cd_state d) ->
  channel_committed (set_all [(receiptPath p c n, []); (ackPath p c n, [])] t) p c
    (cd_state (pruned_channel_datum d n hp)).
Proof.
  intros Hwf Hw [C1 C2 C3 C4 C5 C6 C7].
  assert (forall k, tree_value (set_all [(receiptPath p c n, []); (ackPath p c n, [])] t) k =
            if decide (ackPath p c n = k) then [] else if decide (receiptPath p c n = k) then [] else tree_value t k) as Hv.
  { intros k. cbn [set_all fold_left foldl fst snd]. rewrite tree_value_set by (by apply tree_wf_set). by rewrite tree_value_set. }
  split; cbn [pruned_channel_datum cd_state channel next_sequence_send next_sequence_recv next_sequence_ack
              packet_commitment packet_receipt packet_acknowledgement].
  1-4: rewrite Hv, !decide_False by done; done.
  - intros k. rewrite Hv, !decide_False by done. apply C5.
  - apply (tracks_delete _ _ _ _ (dw_receipt _ Hw) C6). intros k. rewrite Hv, decide_False by done.
    destruct (decide (k = n)) as [->|Hk]; [by rewrite decide_True|].
    rewrite decide_False; [done|]. intros E. by apply Hk, (inj (receiptPath p c)).
  - apply (tracks_delete _ _ _ _ (dw_ack _ Hw) C7). intros k. rewrite Hv.
    destruct (decide (k = n)) as [->|Hk]; [by rewrite decide_True|].
    rewrite !decide_False; [done|done|]. intros E. by apply Hk, (inj (ackPath p c)).
Qed.

Lemma datum_of_decode {A} (f : string -> result A) u dt : datum_of u = Some dt -> decode_datum f u = f dt.
Proof. unfold datum_of, decode_datum. destruct (datum u); [|done]. case_decide; [done|]. by intros [= ->]. Qed.

(** A prune transaction takes the prune step of the channel's
    transition system from the datum of the channel UTxO it spends; its HandlePacket
    witness replays the deletion of the packet's receipt and acknowledgement, and
    nothing else, from the HostState root on chain to the new one; and when the
    aligned tree holds the channel's datum, the pending tree holds the pruned one. *)
Lemma prune_tx_replayed `{STD : !Sha256Std} op s tx p s' :
  buildUnsignedPrunePacketHistoryTx op s = (Ok (tx, p), s') ->
  let n := pp_sequence op in
  exists d h s1 r, decode_datum decode_channel (tx_channelUtxo tx) = Ok d /\
    host_state_is (tx_hostStateUtxo tx) h /\ ensureTreeAligned (ibc_state_root (hs_state h)) s = (Ok tt, s1) /\
    let d' := pruned_channel_datum d n (pp_proofHeight op) in
    let root := ibc_state_root (hs_state h) in
    channel_step d (EvPrune n (pp_proofHeight op)) d' /\ tx_encodedUpdatedChannelDatum tx = encodeChannelDatum d' /\
    encode_host_state_redeemer (HandlePacket (MkHandlePacketW [] [] [] [] []
      (pr_receiptSiblings (witness r)) (pr_acknowledgementSiblings (witness r)))) = Ok (tx_encodedHostStateRedeemer tx) /\
    encode_host_state (updated_host_state h (newRoot r)) = Ok (tx_encodedUpdatedHostStateDatum tx) /\
    p = MkPending (newRoot r) (commitTree r) /\
    (state_ok s1 ->
     root_transition s1 root
       [(receiptPath (pp_portId op) (pp_channelId op) n, []); (ackPath (pp_portId op) (pp_channelId op) n, [])]
       [pr_receiptSiblings (witness r); pr_acknowledgementSiblings (witness r)] r s' /\
     (datum_wf d -> channel_committed (base_tree s1 root) (pp_portId op) (pp_channelId op) (cd_state d) ->
      channel_committed (commitTree r) (pp_portId op) (pp_channelId op) (cd_state d'))).
Proof.
  unfold buildUnsignedPrunePacketHistoryTx. intros H. inv_prog H.
  destruct (datum_of _) as [dt|] eqn:Edt in H; [|discriminate]. inv_prog H. apply mret_ok in H as [[= -> ->] ->]. repeat match goal with u : () |- _ => destruct u end.
  match goal with E : buildHostStateUpdateForPrunePacketHistory _ _ _ _ = _ |- _ =>
    apply buildHostStatePrune_ok in E as (h & sa & r & Hh & Ha & Hr & H1 & H2 & Hp) end.
  match goal with E : prune_guards op ?d = _ |- _ => rename d into dd; pose proof E as Hg end.
  assert (convertHex2String (cd_port dd) = pp_portId op) as Hport.
  { revert Hg. unfold prune_guards. cbv zeta. destruct (decide (_ <> _)) as [|Hne]; [done|]. intros _. by apply dec_stable in Hne. }
  rewrite Hport in Hr. exists dd, h, sa, r. split_and!; try done.
  - cbn [tx_channelUtxo make_tx cx_channelUtxo]. by rewrite (datum_of_decode _ _ _ Edt).
  - by apply step_prune.
  - cbn [tx_encodedUpdatedChannelDatum make_tx].
    match goal with E : encode_channel _ = Ok ?x |- ?x = _ => by apply Ok_inj in E as <- end.
  - intros Hok. pose proof (prunePacketHistory_replays _ _ _ _ _ _ _ Hok Hr) as Hrt. split; [done|].
    intros Hw Hcom. eapply channel_committed_leaves; [symmetry; apply Hrt|]. apply pruned_committed; [|done..].
    unfold base_tree. case_decide; [apply tree_wf_new | apply Hok].
Qed.

End packet_service.
