(* ===== verification/PacketOpsWitnesses.v ===== *)
(** * Packet operations: evaluated instances

    A chain with one client, one connection and one interchain-query channel, on
    which the builders run to the end. *)

From S2P Require Import Prelude JsMap JsString JsJson Hex MerkleTree MerkleSpec MerkleRefine OnChainCommitment ToyHash MerkleTheorems Datum ToyLucid StateRoot PacketHelpers StateRootFacts StateRootTheorems TreeRebuild TreeServices EscrowShard EscrowShardTheorems Voucher Redeemers PacketDenom PacketOps TxBuilder ChannelLifecycle PacketOpsTheorems.

Definition demo_height (n : Z) : Height := MkHeight 0 n.
Definition demo_end : Channel :=
  MkChannel Open Unordered (MkChannelCounterparty (convertString2Hex "icqhost") (convertString2Hex "channel-7"))
    [convertString2Hex "connection-0"] "69".

(** One packet is outstanding, one has been received and acknowledged. *)
Definition demo_datum : ChannelDatum :=
  MkChannelDatum
    (MkChannelDatumState (MkChannelObj 0 demo_end) 2 1 1 [(1%Z, "aa01")] [(4%Z, "")] [(4%Z, "bb02")]
       (demo_height 0) (demo_height 5)) (convertString2Hex "icqhost") (MkAuthToken "aa" "bb").

Definition demo_client : ClientDatum :=
  MkClientDatum
    (MkClientDatumState (MkClientState "" (1, 3)%Z 1 1 1 (demo_height 0) (demo_height 9) [])
       [(demo_height 9, MkConsensusState 1 "" "")] [(demo_height 9, 5%Z)] [(demo_height 9, 6%Z)]) (MkAuthToken "" "").
Definition demo_connection : ConnectionDatum :=
  MkConnectionDatum
    (MkConnectionEnd (convertString2Hex "07-tendermint-0") [] ConnOpen (MkCounterparty "" "" "69") 0) (MkAuthToken "" "").

Definition demo_contents : list (string * bytes) :=
  let p := "icqhost" in let c := "channel-0" in
  [ (channelEndPath p c, bytes_of (encodeChannelEndValue demo_end));
    (nextSequenceSendPath p c, bytes_of (encodeIntegerValue 2));
    (nextSequenceRecvPath p c, bytes_of (encodeIntegerValue 1));
    (nextSequenceAckPath p c, bytes_of (encodeIntegerValue 1));
    (commitmentPath p c 1, bytes_of (encodeBytesValue "aa01"));
    (receiptPath p c 4, bytes_of (encodeBytesValue ""));
    (ackPath p c 4, bytes_of (encodeBytesValue "bb02")) ].

Definition demo_state : gstate := MkGState (set_all demo_contents new_tree) true.
Definition demo_root : string :=
  Eval vm_compute in match (getRoot (currentTree demo_state)).1 with Ok r => r | Err _ => "" end.
Definition demo_host : HostStateDatum := MkHostStateDatum (MkHostState 1 demo_root 1 1 1 [] 0) "ab" "cd" Active.

Definition demo_utxo (d : string) : UTxO := MkUTxO "aa" 0 [("lovelace", 2000000%Z)] (Some d).

(** The codec of the demonstration reads the root of a datum written by a packet
    transaction; ["d0"] is the datum of the HostState it spends. *)
Definition demo_next_host (root : string) : HostStateDatum := MkHostStateDatum (MkHostState 2 root 1 1 1 [] 100) "ab" "cd" Active.
Definition demo_decode_host (d : string) : result HostStateDatum :=
  if decide (d = "d0") then Ok demo_host else
  match Data_from d with
  | Ok (PConstr _ (PConstr _ (_ :: PBytes root :: _) :: _)) => Ok (demo_next_host root)
  | _ => throw "Invalid data"
  end.

#[local] Instance demo_view : ChainView := {|
  findUtxoAtHostStateNFT := Ok (Some (demo_utxo "d0"));
  queryAllClientUtxos := Ok [];
  queryAllConnectionUtxos := Ok [];
  queryAllChannelUtxos := Ok [];
  decode_host_state := demo_decode_host;
  decode_client _ := Ok demo_client;
  decode_connection _ := Ok demo_connection;
  decode_channel _ := Ok demo_datum;
|}.
#[local] Instance demo_sha3 : Sha3 := toy_digest.
#[local] Instance demo_escrow : EscrowEnv := {|
  transferModuleAddress := "addr_module"; transferModuleIdentifier := "e0"; shardPolicyId := "e1";
  findUtxoAt _ := Ok []; decode_transferModule d := Ok d; encode_transferModule d := Ok d;
  decode_transferEscrow _ := throw "no escrow"; encode_transferEscrow _ := Ok "";
|}.
#[local] Instance demo_deployment : Deployment := {|
  mintClientPolicyId := "c1"; mintConnectionPolicyId := "c2"; mintChannelPolicyId := "c3";
  hostStateNFT := MkAuthToken "ab" "cd"; spendChannelAddress := "addr_channel";
  recvPacketPolicyId := "d1"; timeoutPacketPolicyId := "d2"; ackPacketPolicyId := "d3"; sendPacketPolicyId := "d4";
  prunePacketHistoryPolicyId := "d5"; verifyProofPolicyId := "d6"; voucherPolicyId := "d7";
  voucherMetadataAddress := Some "addr_metadata"; mockModule := None; icqModule := Some ("e2", "addr_icq");
  spendMockModule := true;
|}.
#[local] Instance demo_env : PacketEnv := {|
  findUtxoByUnit unit := Ok (demo_utxo unit);
  now := 100;
  credentialToAddress c := Ok ("addr_" +:+ c);
  isKeyAddress _ := Ok true;
  executePacket b := Ok (AcknowledgementResult (hex_encode b));
  prepareOnChainInsert _ _ _ := Ok (TraceExisting []);
  shouldRolloverForUnsignedTx _ := Ok false;
|}.

#[local] Instance demo_send_env : SendEnv := {|
  findByIbcDenomHash _ := Ok None;
  lucid_findUtxoAtWithUnit _ unit := Ok (demo_utxo unit);
  lucid_tryFindUtxosAt _ := Ok [MkUTxO "bb" 1 [("lovelace", 9000000%Z)] None];
|}.

(** A query packet to send, one to receive, and the received one to prune. *)
Definition demo_send : SendModulePacketOperator :=
  MkSendModulePacketOperator "icqhost" "channel-0" "signer" "0a0b" (demo_height 0) 0.
Definition demo_recv : RecvPacketOperator :=
  MkRecvPacketOperator "channel-0" 6 "0c0d" (MkMerkleProof []) (demo_height 9) (demo_height 50) 0.
Definition demo_prune : PrunePacketHistoryOperator :=
  MkPrunePacketHistoryOperator "icqhost" "channel-0" 4 (MkMerkleProof []) (demo_height 9) "signer".

Lemma demo_datum_wf : datum_wf demo_datum.
Proof.
  split; try (apply (bool_decide_eq_true_1 _); vm_compute; reflexivity); try done.
  - intros n. cbn. case_decide; [lia|done].
  - intros n. cbn. case_decide; [|done]. intros _. split; [done|]. intros _. done.
Qed.

Lemma demo_state_ok : state_ok demo_state.
Proof.
  apply tree_ok_set_all; [apply tree_ok_new|].
  repeat first [apply Forall_nil_2 | apply Forall_cons_2; [split; [done | by_value_ok]|]].
Qed.

(** A one-entry map is tracked when its key is the only one with a stored path. *)
Lemma tracks_one t path k b : Inj (=) (=) path ->
  is_encoding (encodeBytesValue b) (tree_value t (path k)) ->
  (forall n, path n ∈ map_keys (leaves t) -> n = k) -> tracks [(k, b)] (fun n => tree_value t (path n)).
Proof.
  intros _ He Ho n. cbn [map_get]. case_decide as E; [by rewrite <- E|]. cbn [map_get].
  unfold tree_value. destruct (tree_get (path n) t) as [v|] eqn:Eg; [exfalso|done].
  apply E. symmetry. apply Ho. apply map_get_In, (list_elem_of_fmap_2 fst) in Eg. exact Eg.
Qed.

(** The sequence of a stored path of one kind, read off the list of keys. *)
Ltac stored_path path Hk Hn :=
  rewrite Hk in Hn; cbn -[path] in Hn; rewrite !elem_of_cons in Hn;
  repeat lazymatch type of Hn with _ \/ _ => destruct Hn as [Hn|Hn] end; try discriminate Hn;
  first [ by apply elem_of_nil in Hn | by apply (inj (path _ _)) in Hn ].

Lemma demo_committed : channel_committed (currentTree demo_state) "icqhost" "channel-0" (cd_state demo_datum).
Proof.
  assert (map_keys (leaves (currentTree demo_state)) = demo_contents.*1) as Hk by (vm_compute; reflexivity).
  split; try (eexists; split; vm_compute; reflexivity);
    (apply tracks_one; [apply _|eexists; split; vm_compute; reflexivity|]); intros n Hn.
  - stored_path commitmentPath Hk Hn.
  - stored_path receiptPath Hk Hn.
  - stored_path ackPath Hk Hn.
Qed.

Lemma packet_tx_takes_step_witness :
  exists tx p s' h d d', buildUnsignedRecvPacketTx demo_recv "addr" demo_state = (Ok (tx, p), s') /\
    decode_datum decode_channel (tx_channelUtxo tx) = Ok d /\
    findUtxoByUnit (tx_channelTokenUnit tx) = Ok (tx_channelUtxo tx) /\
    channel_step d (EvRecv 6 (demo_height 9)) d' /\ tx_commits demo_state tx p h d d' "channel-0" s'.
Proof.
  destruct (ok_exists (buildUnsignedRecvPacketTx demo_recv "addr") demo_state) as ([tx p] & s' & E);
    [vm_compute; reflexivity|].
  destruct (packet_tx_takes_step demo_state tx p s' (EvRecv 6 (demo_height 9)) "channel-0") as (h & d & d' & H).
  - exact (tx_recv demo_state tx p s' demo_recv "addr" E).
  - exists tx, p, s', h, d, d'. split; [exact E | exact H].
Defined.

Definition demo_aligned : gstate :=
  match ensureTreeAligned demo_root demo_state with (_, s1) => s1 end.

Lemma demo_align : ensureTreeAligned demo_root demo_state = (Ok tt, demo_aligned).
Proof.
  unfold demo_aligned. assert ((ensureTreeAligned demo_root demo_state).1 = Ok tt) as H by (vm_compute; reflexivity).
  destruct (ensureTreeAligned demo_root demo_state) as [x s1]. cbn in H. by rewrite H.
Qed.

Lemma demo_aligned_same : leaves (currentTree demo_aligned) = leaves (currentTree demo_state) /\ state_ok demo_aligned.
Proof.
  assert (leaves (currentTree demo_aligned) = leaves (currentTree demo_state)) as Hl by (vm_compute; reflexivity).
  split; [done|]. eapply tree_ok_leaves; [apply demo_state_ok| |exact Hl].
  unfold demo_aligned, ensureTreeAligned, isTreeAligned.
  destruct (on_current getRoot demo_state) as [r s1] eqn:E.
  pose proof (on_current_getRoot _ _ _ E) as [_ Hok].
  assert (r = Ok demo_root) as ->
    by (transitivity (on_current getRoot demo_state).1; [by rewrite E | vm_compute; reflexivity]).
  unfold mbind, M_bind. rewrite E. cbn. rewrite bool_decide_true by done. apply Hok, demo_state_ok.
Qed.

Definition send_outcome : Type := result (PacketTx * PendingTreeUpdate * Z) * gstate.
Definition sent_sequence (r : send_outcome) : Z := match r with (Ok (_, n), _) => n | _ => 0%Z end.
Definition spent_utxos (r : send_outcome) : UTxO * UTxO :=
  match r with (Ok (tx, _, _), _) => (tx_channelUtxo tx, tx_hostStateUtxo tx) | _ => (demo_utxo "", demo_utxo "") end.
Definition demo_channel_utxo : UTxO := Eval vm_compute in
  demo_utxo (match getChannelTokenUnit 0 with Ok (policy, name) => policy +:+ name | Err _ => "" end).

(** Sending the query: the send counter and one commitment are written. *)
Lemma packet_tx_replayed_witness :
  exists tx p s' d', buildUnsignedSendModulePacketTx demo_send demo_state = (Ok (tx, p, 2%Z), s') /\
    channel_step demo_datum (EvSend 2) d' /\ datum_wf d' /\
    tx_replayed demo_aligned tx p demo_host demo_datum d' "channel-0" s'.
Proof.
  destruct (ok_exists (buildUnsignedSendModulePacketTx demo_send) demo_state) as ([[tx p] n] & s' & E);
    [vm_compute; reflexivity|].
  assert (n = 2%Z) as -> by (transitivity (sent_sequence (buildUnsignedSendModulePacketTx demo_send demo_state));
    [symmetry; exact (f_equal sent_sequence E) | vm_compute; reflexivity]).
  assert (spent_utxos (Ok (tx, p, 2%Z), s') = (demo_channel_utxo, demo_utxo "d0")) as Hu
    by (transitivity (spent_utxos (buildUnsignedSendModulePacketTx demo_send demo_state));
        [symmetry; exact (f_equal spent_utxos E) | vm_compute; reflexivity]).
  injection Hu as Hu1 Hu2.
  destruct (packet_tx_replayed demo_state tx p s' (EvSend 2) "channel-0" demo_host demo_datum demo_aligned) as (d' & H).
  - exact (tx_send demo_state tx p s' demo_send 2 E).
  - rewrite Hu1. reflexivity.
  - apply demo_datum_wf.
  - rewrite Hu2. exists "d0". split_and!; reflexivity.
  - apply demo_align.
  - apply demo_aligned_same.
  - unfold base_tree. rewrite decide_False by (vm_compute; discriminate).
    eapply channel_committed_leaves; [symmetry; apply demo_aligned_same | apply demo_committed].
  - exists tx, p, s', d'. split; [exact E | exact H].
Defined.

