(* ===== verification/TxRunnerTheorems.v ===== *)
(** * Properties of the transaction runner

    The completion lock is exclusive and first come, first served; every handler gets
    its result; a wallet scope belongs to the holder of the lock.  A wallet selected by
    a builder outside the lock is the one behaviour the scopes do not exclude. *)

From Stdlib Require Import ZArith Lia.
From S2P Require Import Prelude JsMap JsString Hex MerkleTree Datum StateRoot TreeRebuild EscrowShard TreeServices PacketOps TxRunner PacketOpsWitnesses.

Section runner.
Context `{PE : PacketEnv} {Tx CompletedTx : Type} (toHash : CompletedTx -> string).

Abbreviation Plan := (TxOperationPlan Tx).
Abbreviation stage := (@stage Tx CompletedTx).
Abbreviation system := (@system Tx CompletedTx).
Abbreviation label := (@label Tx CompletedTx).
Abbreviation sys_step := (sys_step toHash).
Abbreviation exec := (exec toHash).
Abbreviation reachable := (reachable toHash).

(** ** Tickets *)

(** The promise a handler will resolve. *)
Definition ticket (st : stage) : option nat :=
  match st with Waiting _ own | Locked own _ => Some own | _ => None end.

Definition holds_lock (s : system) (i : nat) : Prop := exists p own b, tasks s !! i = Some (p, Locked own b).

(** The promises up to [k] are resolved; the next one belongs to the handler whose turn it is. *)
Definition stage_ok (k next : nat) (st : stage) : Prop :=
  match st with
  | Waiting previous own => own = S previous /\ k < own < next
  | Locked own _ => own = S k /\ own < next
  | _ => True
  end.

Record lock_inv (s : system) (k : nat) : Prop := {
  li_chain : S (completionChain s) = next_promise s;
  li_resolved x : x ∈ resolved s <-> x <= k;
  li_bound : k < next_promise s;
  li_stage i p st : tasks s !! i = Some (p, st) -> stage_ok k (next_promise s) st;
  li_unique i j p q st st' x : tasks s !! i = Some (p, st) -> tasks s !! j = Some (q, st') ->
    ticket st = Some x -> ticket st' = Some x -> i = j;
  li_cover x : k < x < next_promise s -> exists i p st, tasks s !! i = Some (p, st) /\ ticket st = Some x;
}.

Lemma lookup_set_task (s : system) i j p st q st' : tasks s !! i = Some (p, st) ->
  set_task s i p st' !! j = Some q -> (j = i /\ q = (p, st')) \/ (j <> i /\ tasks s !! j = Some q).
Proof.
  intros Hi. unfold set_task. destruct (decide (j = i)) as [->|Hne].
  - rewrite list_lookup_insert_eq by (by eapply lookup_lt_Some). intros [= <-]. by left.
  - rewrite list_lookup_insert_ne by done. by right.
Qed.

Lemma set_task_same (s : system) i p st st' : tasks s !! i = Some (p, st) -> set_task s i p st' !! i = Some (p, st').
Proof. intros Hi. unfold set_task. apply list_lookup_insert_eq. by eapply lookup_lt_Some. Qed.
Lemma set_task_other (s : system) i j p st' : j <> i -> set_task s i p st' !! j = tasks s !! j.
Proof. intros Hj. unfold set_task. by rewrite list_lookup_insert_ne. Qed.

(** A step of handler [i] that keeps its ticket, or has none before and after. *)
Lemma lock_inv_keep s k s' i p st st' :
  lock_inv s k -> tasks s !! i = Some (p, st) -> tasks s' = set_task s i p st' -> ticket st' = ticket st ->
  stage_ok k (next_promise s) st' -> completionChain s' = completionChain s -> next_promise s' = next_promise s ->
  resolved s' = resolved s -> lock_inv s' k.
Proof.
  intros [L1 L2 L3 L4 L5 L6] Hi Et Ek Hok E1 E2 E3. split; rewrite ?Et, ?E1, ?E2, ?E3; try done.
  - intros j q u Hj. destruct (lookup_set_task _ _ _ _ _ _ _ Hi Hj) as [[-> [= -> ->]]|[_ Hj']]; [done|by eapply L4].
  - intros a b pa pb sa sb x Ha Hb Ta Tb.
    destruct (lookup_set_task _ _ _ _ _ _ _ Hi Ha) as [[-> [= -> ->]]|[Na Ha']],
      (lookup_set_task _ _ _ _ _ _ _ Hi Hb) as [[-> [= -> ->]]|[Nb Hb']]; try done; rewrite ?Ek in *; by eapply L5.
  - intros x Hx. destruct (L6 x Hx) as (j & q & u & Hj & Tj). destruct (decide (j = i)) as [->|Hne].
    + rewrite Hi in Hj. injection Hj as <- <-. exists i, p, st'. rewrite (set_task_same s i p st) by done. by rewrite Ek.
    + exists j, q, u. by rewrite set_task_other.
Qed.

Lemma lock_inv_enter s k i p : lock_inv s k -> tasks s !! i = Some (p, Building) ->
  lock_inv (MkSystem (set_task s i p (Waiting (completionChain s) (next_promise s))) (next_promise s) (S (next_promise s))
    (resolved s) (lucid_wallet s) (registered s)) k.
Proof.
  intros [L1 L2 L3 L4 L5 L6] Hi. split; cbn; try done; try lia.
  - intros j q u Hj. destruct (lookup_set_task _ _ _ _ _ _ _ Hi Hj) as [[-> [= -> ->]]|[_ Hj']]; [cbn; lia|].
    apply L4 in Hj'. destruct u; cbn in *; lia || done.
  - assert (forall j q u x, tasks s !! j = Some (q, u) -> ticket u = Some x -> x < next_promise s) as Hlt.
    { intros j q u x Hj Hx. apply L4 in Hj. destruct u; cbn in *; simplify_eq; lia. }
    intros a b pa pb sa sb x Ha Hb Ta Tb.
    destruct (lookup_set_task _ _ _ _ _ _ _ Hi Ha) as [[-> [= -> ->]]|[Na Ha']],
      (lookup_set_task _ _ _ _ _ _ _ Hi Hb) as [[-> [= -> ->]]|[Nb Hb']]; [done| | |by eapply L5].
    + injection Ta as <-. specialize (Hlt _ _ _ _ Hb' Tb). lia.
    + injection Tb as <-. specialize (Hlt _ _ _ _ Ha' Ta). lia.
  - intros x Hx. destruct (decide (x = next_promise s)) as [->|Hne].
    + exists i, p. eexists. rewrite (set_task_same s i p Building) by done. done.
    + destruct (L6 x) as (j & q & u & Hj & Tj); [lia|]. exists j, q, u. rewrite set_task_other; [done|].
      intros ->. rewrite Hi in Hj. by injection Hj as <- <-.
Qed.

Lemma lock_inv_release s k i p own b r w : lock_inv s k -> tasks s !! i = Some (p, Locked own b) ->
  lock_inv (MkSystem (set_task s i p (Released r)) (completionChain s) (next_promise s) (own :: resolved s) w (registered s)) (S k).
Proof.
  intros [L1 L2 L3 L4 L5 L6] Hi. destruct (L4 _ _ _ Hi) as [-> Hlt]. split; cbn; try done.
  - intros x. rewrite elem_of_cons, L2. lia.
  - intros j q u Hj. destruct (lookup_set_task _ _ _ _ _ _ _ Hi Hj) as [[-> [= -> ->]]|[Hne Hj']]; [done|].
    assert (ticket u <> Some (S k)) as Ht by (intros Ht; apply Hne; by eapply (L5 j i)).
    apply L4 in Hj'. destruct u; cbn in *; try done; [|by destruct Hj' as [-> _]].
    split; [by apply Hj'|]. split; [|by apply Hj']. destruct (decide (own = S k)) as [->|]; [done|lia].
  - intros a c pa pb sa sb x Ha Hb Ta Tb.
    destruct (lookup_set_task _ _ _ _ _ _ _ Hi Ha) as [[-> [= -> ->]]|[Na Ha']]; [done|].
    destruct (lookup_set_task _ _ _ _ _ _ _ Hi Hb) as [[-> [= -> ->]]|[Nb Hb']]; [done|]. by eapply L5.
  - intros x Hx. destruct (L6 x) as (j & q & u & Hj & Tj); [lia|]. exists j, q, u. rewrite set_task_other; [done|].
    intros ->. rewrite Hi in Hj. injection Hj as <- <-. injection Tj as <-. lia.
Qed.

Lemma lock_inv_start plans : lock_inv (start plans) 0.
Proof.
  assert (forall i p st, (start plans : system).(tasks) !! i = Some (p, st) -> st = Building) as Hb.
  { intros i p st. cbn. rewrite list_lookup_fmap. destruct (plans !! i); cbn; [|done]. by intros [= _ <-]. }
  split; cbn; try done; try lia.
  - intros x. rewrite list_elem_of_singleton. lia.
  - intros i p st Hi. by rewrite (Hb _ _ _ Hi).
  - intros i j p q st st' x Hi _ Ht. by rewrite (Hb _ _ _ Hi) in Ht.
Qed.

(** ** Steps

    The transition function as a relation, one rule per kind of step. *)
Inductive step_to (s : system) : label -> system -> Prop :=
| to_select i p a us w : tasks s !! i = Some (p, Building) -> selectWalletFromAddress a us (lucid_wallet s) = Ok w ->
    step_to s (LSelect i a us) (MkSystem (tasks s) (completionChain s) (next_promise s) (resolved s) w (registered s))
| to_enter i p : tasks s !! i = Some (p, Building) ->
    step_to s (LEnter i) (MkSystem (set_task s i p (Waiting (completionChain s) (next_promise s))) (next_promise s)
      (S (next_promise s)) (resolved s) (lucid_wallet s) (registered s))
| to_acquire i p previous own : tasks s !! i = Some (p, Waiting previous own) -> previous ∈ resolved s ->
    step_to s (LAcquire i) (MkSystem (set_task s i p (Locked own (Attempt 1))) (completionChain s) (next_promise s) (resolved s)
      (lucid_wallet s) (registered s))
| to_body i a p own b w b' : tasks s !! i = Some (p, Locked own b) -> body_step p a (lucid_wallet s) b = Some (w, inl b') ->
    step_to s (LBody i a) (MkSystem (set_task s i p (Locked own b')) (completionChain s) (next_promise s) (resolved s) w (registered s))
| to_release i a p own b w r : tasks s !! i = Some (p, Locked own b) -> body_step p a (lucid_wallet s) b = Some (w, inr r) ->
    step_to s (LBody i a) (MkSystem (set_task s i p (Released r)) (completionChain s) (next_promise s) (own :: resolved s) w (registered s))
| to_register i p r g : tasks s !! i = Some (p, Released r) ->
    step_to s (LRegister i) (MkSystem (set_task s i p (Done (fst <$> r))) (completionChain s) (next_promise s) (resolved s)
      (lucid_wallet s) g).

Lemma sys_step_to l s s' : sys_step l s = Some s' -> step_to s l s'.
Proof.
  destruct l; cbn; destruct (tasks s !! i) as [[p st]|] eqn:Hi; cbn; try done; destruct st; cbn; try done.
  - destruct (selectWalletFromAddress _ _ _) eqn:E; [|done]. intros [= <-]. by eapply to_select.
  - intros [= <-]. by apply to_enter.
  - case_decide; [|done]. intros [= <-]. by eapply to_acquire.
  - destruct (body_step p a (lucid_wallet s) b) as [[w [b'|r]]|] eqn:E; cbn; [| |done]; intros [= <-]; [by eapply to_body|by eapply to_release].
  - destruct r as [[c t]|e]; intros [= <-]; by (eapply (to_register _ _ _ (Ok (c, t))) || eapply (to_register _ _ _ (Err e))).
Qed.

Lemma lock_inv_step s k l s' : lock_inv s k -> step_to s l s' -> exists k', lock_inv s' k'.
Proof.
  intros HI Hs. destruct Hs.
  - exists k. destruct HI. by split.
  - exists k. by apply lock_inv_enter.
  - exists k. eapply lock_inv_keep; try done. pose proof (li_stage _ _ HI _ _ _ H) as [-> Hb]. apply (li_resolved _ _ HI) in H0. cbn. lia.
  - exists k. eapply lock_inv_keep; try done. by pose proof (li_stage _ _ HI _ _ _ H).
  - exists (S k). by eapply lock_inv_release.
  - exists k. by eapply lock_inv_keep.
Qed.

(** Induction along an execution. *)
Lemma exec_inv (I : system -> Prop) : (forall s l s', I s -> step_to s l s' -> I s') ->
  forall ls s s', I s -> exec ls s = Some s' -> I s'.
Proof.
  intros Hstep ls. induction ls as [|l ls IH]; intros s s' Hs; cbn; [by intros [= <-]|].
  destruct (sys_step l s) as [s1|] eqn:E; cbn; [|done]. apply IH. by eapply Hstep, sys_step_to.
Qed.

Lemma reachable_inv (I : system -> Prop) plans : I (start plans) -> (forall s l s', I s -> step_to s l s' -> I s') ->
  forall s, reachable plans s -> I s.
Proof. intros H0 Hs s [ls Hls]. by eapply exec_inv. Qed.

Lemma reachable_lock plans s : reachable plans s -> exists k, lock_inv s k.
Proof.
  apply (reachable_inv (fun s => exists k, lock_inv s k)).
  - exists 0. apply lock_inv_start.
  - intros s0 l s' [k Hk]. by eapply lock_inv_step.
Qed.

Lemma lock_exclusive s k i j : lock_inv s k -> holds_lock s i -> holds_lock s j -> i = j.
Proof.
  intros HI (p & o & b & Hi) (q & o' & b' & Hj). pose proof (li_stage _ _ HI _ _ _ Hi) as [-> _].
  pose proof (li_stage _ _ HI _ _ _ Hj) as [-> _]. by eapply (li_unique _ _ HI i j).
Qed.

(** ** Wallet scopes *)

Definition scope_of (b : progress Tx) : option Z :=
  match b with
  | Attempt _ => None
  | AwaitWallet _ _ _ sc | WalletApplied _ _ _ sc | AwaitComplete _ _ _ sc _ | AwaitRetry _ sc => Some sc
  end.

(** The active scope is that of the handler that holds the lock. *)
Definition scope_inv (s : system) : Prop :=
  (forall i p own b, tasks s !! i = Some (p, Locked own b) -> activeWalletSelectionScopeId (lucid_wallet s) = scope_of b) /\
  ((forall i, ~ holds_lock s i) -> activeWalletSelectionScopeId (lucid_wallet s) = None).

Lemma select_scope a us w w' : selectWalletFromAddress a us w = Ok w' -> activeWalletSelectionScopeId w' = activeWalletSelectionScopeId w.
Proof.
  unfold selectWalletFromAddress. intros H. apply bind_ok in H as (n & _ & [= <-]). by destruct (activeWalletSelectionScopeId w) eqn:E.
Qed.
Lemma apply_selection_scope o w w' : apply_selection o w = Ok w' -> activeWalletSelectionScopeId w' = activeWalletSelectionScopeId w.
Proof. destruct o as [[a us]|]; cbn; [apply select_scope|by intros [= <-]]. Qed.
Lemma end_scope sc w : activeWalletSelectionScopeId w = Some sc -> activeWalletSelectionScopeId (endWalletSelectionScope sc w) = None.
Proof. intros H. unfold endWalletSelectionScope. by rewrite decide_False by (by rewrite H; intros []). Qed.

(** What a step of the loop leaves active: the scope of the next [progress], or none. *)
Definition scope_after (o : progress Tx + result (CompletedTx * Tx)) : option Z :=
  match o with inl b => scope_of b | inr _ => None end.

Lemma attempt_failed_scope p n sc e w w' o : attempt_failed p n sc e w = (w', o) -> activeWalletSelectionScopeId w = Some sc ->
  activeWalletSelectionScopeId w' = scope_after o.
Proof. unfold attempt_failed. destruct (_ && _); intros [= <- <-] Hw; [done|by apply end_scope]. Qed.

Lemma body_step_scope p a w b w' o : body_step p a w b = Some (w', o) -> activeWalletSelectionScopeId w = scope_of b ->
  activeWalletSelectionScopeId w' = scope_after o.
Proof.
  destruct b as [n|n tx bt sc|n tx bt sc|n tx bt sc u|n sc], a as [sel r|us| |r|r]; cbn; try done; intros H Hw.
  - destruct (attempt_tx p n sel r w) as [built w1] eqn:E.
    assert (activeWalletSelectionScopeId w1 = None) as Hw1.
    { unfold attempt_tx in E. destruct (_ || _); [by injection E as _ <-|]. destruct (apply_selection sel w) eqn:Es.
      - injection E as _ <-. by rewrite (apply_selection_scope _ _ _ Es).
      - by injection E as _ <-. }
    destruct built as [tx|e]; [destruct (validity p tx)|]; by injection H as <- <-.
  - destruct (wallet_selection _ us) as [o'|e]; [|by injection H as H; eapply attempt_failed_scope].
    destruct (apply_selection o' w) eqn:Es; [|by injection H as H; eapply attempt_failed_scope].
    injection H as <- <-. cbn. by rewrite (apply_selection_scope _ _ _ Es).
  - destruct (assertWalletSelectionScopeSatisfied _ _ _); [by injection H as <- <-|by injection H as H; eapply attempt_failed_scope].
  - destruct r; [injection H as <- <-; by apply end_scope|by injection H as H; eapply attempt_failed_scope].
  - injection H as <- <-. rewrite end_scope by done. by destruct r.
Qed.

(** A handler other than the one that moves keeps its lock. *)
Lemma other_locked (s : system) i j p st st' q own b : tasks s !! i = Some (p, st) -> j <> i ->
  set_task s i p st' !! j = Some (q, Locked own b) -> holds_lock s j.
Proof. intros Hi Hne. rewrite set_task_other by done. intros H. by exists q, own, b. Qed.

Lemma scope_inv_step k s l s' : lock_inv s k -> scope_inv s -> step_to s l s' -> scope_inv s'.
Proof.
  intros HL [S1 S2] Hs. destruct Hs as [i p a us w Hi Hw|i p Hi|i p pr own Hi Hr|i a p own b w b' Hi Hb|i a p own b w r Hi Hb|i p r g Hi].
  - split; cbn; rewrite (select_scope _ _ _ _ Hw); [done|]. intros Hn. apply S2. intros j (q & o & b & Hj). apply (Hn j). by exists q, o, b.
  - split; cbn; [intros j q o b Hj|intros Hn; apply S2].
    + destruct (lookup_set_task _ _ _ _ _ _ _ Hi Hj) as [[_ ?]|[_ Hj']]; [done|by eapply S1].
    + intros j (q & o & b & Hj). apply (Hn j). exists q, o, b. cbn. rewrite set_task_other; [done|]. intros ->. congruence.
  - assert (forall j, ~ holds_lock s j) as Hfree.
    { intros j (q & o & b & Hj). pose proof (li_stage _ _ HL _ _ _ Hj) as [-> _]. pose proof (li_stage _ _ HL _ _ _ Hi) as [-> Hk].
      apply (li_resolved _ _ HL) in Hr. assert (pr = k) as -> by lia.
      assert (j = i) as -> by (by eapply (li_unique _ _ HL j i)). congruence. }
    split; cbn; [intros j q o b Hj|intros Hn; by apply S2].
    destruct (lookup_set_task _ _ _ _ _ _ _ Hi Hj) as [[_ [= -> -> ->]]|[_ Hj']]; [by apply S2|]. exfalso. apply (Hfree j). by exists q, o, b.
  - assert (activeWalletSelectionScopeId w = scope_of b') as Hw by (by apply (body_step_scope _ _ _ _ _ _ Hb); eapply S1).
    split; cbn; [intros j q o c Hj|intros Hn].
    + destruct (lookup_set_task _ _ _ _ _ _ _ Hi Hj) as [[_ [= -> -> ->]]|[Hne Hj']]; [done|]. exfalso. apply Hne.
      eapply (lock_exclusive s k); [done|by exists q, o, c|by exists p, own, b].
    + exfalso. apply (Hn i). exists p, own, b'. by eapply set_task_same.
  - assert (activeWalletSelectionScopeId w = None) as Hw by (by apply (body_step_scope _ _ _ _ _ _ Hb); eapply S1).
    split; cbn; [intros j q o c Hj|by intros _].
    destruct (lookup_set_task _ _ _ _ _ _ _ Hi Hj) as [[_ ?]|[Hne Hj']]; [done|]. exfalso. apply Hne.
    eapply (lock_exclusive s k); [done|by exists q, o, c|by exists p, own, b].
  - split; cbn; [intros j q o b Hj|intros Hn; apply S2].
    + destruct (lookup_set_task _ _ _ _ _ _ _ Hi Hj) as [[_ ?]|[_ Hj']]; [done|by eapply S1].
    + intros j (q & o & b & Hj). apply (Hn j). exists q, o, b. cbn. rewrite set_task_other; [done|]. intros ->. congruence.
Qed.

Lemma reachable_scope plans s : reachable plans s -> exists k, lock_inv s k /\ scope_inv s.
Proof.
  apply (reachable_inv (fun s => exists k, lock_inv s k /\ scope_inv s)).
  - exists 0. split; [apply lock_inv_start|]. split; [|done]. intros i p own b. cbn. rewrite list_lookup_fmap. by destruct (plans !! i).
  - intros s0 l s' (k & Hk & Hc) Hs. destruct (lock_inv_step _ _ _ _ Hk Hs) as [k' Hk']. exists k'. split; [done|]. exact (scope_inv_step k s0 l s' Hk Hc Hs).
Qed.

(** However the handlers interleave, at most one of them is completing a
    transaction; it is the first that asked among those not yet served, all earlier ones
    having released the lock whether they returned or threw; and the active wallet
    selection scope is that handler's, so that no scope outlives its attempt. *)
Lemma completion_lock_fifo plans s : reachable plans s ->
  (forall i j, holds_lock s i -> holds_lock s j -> i = j) /\
  (forall i p own b, tasks s !! i = Some (p, Locked own b) ->
     activeWalletSelectionScopeId (lucid_wallet s) = scope_of b /\
     forall j q st x, tasks s !! j = Some (q, st) -> ticket st = Some x -> own <= x) /\
  ((forall j, ~ holds_lock s j) -> activeWalletSelectionScopeId (lucid_wallet s) = None).
Proof.
  intros (k & HL & HS)%reachable_scope. split_and!; [by intros i j; eapply lock_exclusive| |apply HS].
  intros i p own b Hi. split; [by eapply HS|]. intros j q st x Hj Hx.
  pose proof (li_stage _ _ HL _ _ _ Hi) as [-> _]. pose proof (li_stage _ _ HL _ _ _ Hj) as Hs.
  destruct st; cbn in *; try done; simplify_eq; lia.
Qed.

(** ** Termination *)

#[local] Arguments plan_attempts {_} _ : simpl never.
#[local] Arguments Nat.mul : simpl never.

(** The attempt a handler is at is one of its plan's. *)
Definition attempt_ok (p : Plan) (st : stage) : Prop :=
  match st with
  | Locked _ (Attempt n) | Locked _ (AwaitWallet n _ _ _) | Locked _ (WalletApplied n _ _ _) | Locked _ (AwaitComplete n _ _ _ _) =>
      (1 <= n <= plan_attempts p)%Z
  | Locked _ (AwaitRetry n _) => (1 <= n < plan_attempts p)%Z
  | _ => True
  end.
Definition attempts_inv (s : system) : Prop := forall i p st, tasks s !! i = Some (p, st) -> attempt_ok p st.

(** The steps a handler still has before it, at most. *)
Definition body_rank (p : Plan) (b : progress Tx) : nat :=
  let left n := Z.to_nat (plan_attempts p - n) in
  match b with
  | Attempt n => 5 * left n + 7
  | AwaitWallet n _ _ _ => 5 * left n + 6
  | WalletApplied n _ _ _ => 5 * left n + 5
  | AwaitComplete n _ _ _ _ => 5 * left n + 4
  | AwaitRetry n _ => 5 * left n + 3
  end.
Definition rank (t : Plan * stage) : nat :=
  let '(p, st) := t in
  match st with
  | Building => 5 * Z.to_nat (plan_attempts p) + 4
  | Waiting _ _ => 5 * Z.to_nat (plan_attempts p) + 3
  | Locked _ b => body_rank p b
  | Released _ => 1
  | Done _ => 0
  end.
Definition remaining (s : system) : nat := sum_list (rank <$> tasks s).

Lemma sum_insert (l : list (Plan * stage)) i t t' : l !! i = Some t ->
  sum_list (rank <$> <[i := t']> l) + rank t = sum_list (rank <$> l) + rank t'.
Proof.
  revert i. induction l as [|x l IH]; intros [|i] H; try done.
  - injection H as ->. cbn -[rank]. lia.
  - specialize (IH i H).
    change (rank x + sum_list (rank <$> <[i := t']> l) + rank t = rank x + sum_list (rank <$> l) + rank t'). lia.
Qed.

Definition is_progress (l : label) : bool := match l with LSelect _ _ _ => false | _ => true end.

Lemma attempt_failed_rank p n sc e w w' (o : progress Tx + result (CompletedTx * Tx)) own : attempt_failed p n sc e w = (w', o) -> (1 <= n <= plan_attempts p)%Z ->
  match o with
  | inl b => attempt_ok p (Locked own b) /\ body_rank p b < 5 * Z.to_nat (plan_attempts p - n) + 4
  | inr _ => True
  end.
Proof.
  unfold attempt_failed. intros H Hn. destruct (bool_decide (n < plan_attempts p)%Z) eqn:E; cbn in H.
  - apply bool_decide_eq_true in E. destruct (_ && _); injection H as <- <-; [|done]. cbn. lia.
  - by injection H as <- <-.
Qed.

Lemma body_step_rank p a w b w' (o : progress Tx + result (CompletedTx * Tx)) own : body_step p a w b = Some (w', o) -> attempt_ok p (Locked own b) ->
  match o with inl b' => attempt_ok p (Locked own b') /\ body_rank p b' < body_rank p b | inr _ => 1 < body_rank p b end.
Proof.
  assert (forall o' : progress Tx + result (CompletedTx * Tx), forall m n,
    match o' with inl b => attempt_ok p (Locked own b) /\ body_rank p b < m | inr _ => True end -> 1 < n -> m <= n ->
    match o' with inl b => attempt_ok p (Locked own b) /\ body_rank p b < n | inr _ => 1 < n end) as Hweak.
  { intros [b'|r] m n; [intros []; split; [done|lia]|done]. }
  destruct b as [n|n tx bt sc|n tx bt sc|n tx bt sc u|n sc], a as [sel r|us| |r|r]; cbn [body_step]; try done; intros H Hn; cbn in Hn.
  - destruct (attempt_tx p n sel r w) as [built w1]. destruct built as [tx|e]; [destruct (validity p tx)|]; injection H as <- <-; cbn; lia.
  - destruct (wallet_selection _ us) as [o'|e]; [destruct (apply_selection o' w)|]; apply (inj Some) in H;
      [injection H as <- <-; cbn; lia|eapply Hweak; [by eapply attempt_failed_rank|cbn; lia..]..].
  - destruct (assertWalletSelectionScopeSatisfied _ _ _); apply (inj Some) in H; [injection H as <- <-; cbn; lia|].
    eapply Hweak; [by eapply attempt_failed_rank|cbn; lia..].
  - destruct r; apply (inj Some) in H; [injection H as <- <-; cbn; lia|]. eapply Hweak; [by eapply attempt_failed_rank|cbn; lia..].
  - injection H as <- <-. destruct r; cbn; lia.
Qed.

Lemma attempts_inv_update s i p st st' s' : attempts_inv s -> tasks s !! i = Some (p, st) -> tasks s' = set_task s i p st' ->
  attempt_ok p st' -> attempts_inv s'.
Proof.
  intros HI Hi Et Hok j q u Hj. rewrite Et in Hj. destruct (lookup_set_task _ _ _ _ _ _ _ Hi Hj) as [[-> [= -> ->]]|[_ Hj']]; [done|by eapply HI].
Qed.

Lemma plan_attempts_pos (p : Plan) : (1 <= plan_attempts p)%Z.
Proof. unfold plan_attempts. lia. Qed.

(** Every step but a builder's wallet selection uses up one of the remaining ones. *)
Lemma step_remaining s l s' : attempts_inv s -> step_to s l s' ->
  attempts_inv s' /\ (if is_progress l then remaining s' < remaining s else remaining s' = remaining s).
Proof.
  assert (forall i p st st', tasks s !! i = Some (p, st) -> rank (p, st') < rank (p, st) ->
    sum_list (rank <$> set_task s i p st') < remaining s) as Hdec.
  { intros i p st st' Hi Hlt. pose proof (sum_insert _ _ _ (p, st') Hi) as Hsum. unfold remaining, set_task. lia. }
  intros HI Hs. destruct Hs as [i p a us w Hi Hw|i p Hi|i p pr own Hi Hr|i a p own b w b' Hi Hb|i a p own b w r Hi Hb|i p r g Hi].
  - done.
  - split; [by eapply attempts_inv_update|]. apply (Hdec _ _ _ _ Hi). cbn. lia.
  - split; [eapply attempts_inv_update; [done..|]; cbn; pose proof (plan_attempts_pos p); lia|]. apply (Hdec _ _ _ _ Hi). cbn.
    pose proof (plan_attempts_pos p). lia.
  - destruct (body_step_rank _ _ _ _ _ _ own Hb (HI _ _ _ Hi)). split; [by eapply attempts_inv_update|]. by apply (Hdec _ _ _ _ Hi).
  - pose proof (body_step_rank _ _ _ _ _ _ own Hb (HI _ _ _ Hi)). split; [by eapply attempts_inv_update|]. by apply (Hdec _ _ _ _ Hi).
  - split; [by eapply attempts_inv_update|]. apply (Hdec _ _ _ _ Hi). cbn. lia.
Qed.

Lemma attempts_inv_start plans : attempts_inv (start plans).
Proof. intros i p st. cbn. rewrite list_lookup_fmap. destruct (plans !! i); cbn; [|done]. by intros [= _ <-]. Qed.

Lemma exec_remaining ls s s' : attempts_inv s -> exec ls s = Some s' ->
  length (filter (fun l => is_progress l = true) ls) + remaining s' <= remaining s.
Proof.
  revert s. induction ls as [|l ls IH]; intros s HI; cbn [exec TxRunner.exec]; [by intros [= <-]|].
  destruct (sys_step l s) as [s1|] eqn:E; [|done]. cbn [mbind option_bind]. intros H. apply sys_step_to in E as [HI1 Hr]%step_remaining; [|done].
  specialize (IH s1 HI1 H). rewrite filter_cons. destruct (decide _) as [Hp|Hp].
  - rewrite Hp in Hr. cbn. lia.
  - apply not_true_is_false in Hp. rewrite Hp in Hr. lia.
Qed.

(** The answers the call awaited at [b] can give. *)
Definition answers (b : progress Tx) (a : answer Tx CompletedTx) : bool :=
  match b, a with
  | Attempt _, AnsRebuilt _ _ | AwaitWallet _ _ _ _, AnsUtxos _ | WalletApplied _ _ _ _, AnsScheduled
  | AwaitComplete _ _ _ _ _, AnsCompleted _ | AwaitRetry _ _, AnsWaited _ => true
  | _, _ => false
  end.

(** Handler [i] can take its next step, whatever the call it awaits answers. *)
Definition can_move (s : system) (i : nat) : Prop :=
  is_Some (sys_step (LEnter i) s) \/ is_Some (sys_step (LAcquire i) s) \/ is_Some (sys_step (LRegister i) s) \/
  exists p own b, tasks s !! i = Some (p, Locked own b) /\ forall a, answers b a = true -> is_Some (sys_step (LBody i a) s).

Lemma locked_can_move (s : system) i p own b : tasks s !! i = Some (p, Locked own b) -> can_move s i.
Proof.
  intros Hi. right; right; right. exists p, own, b. split; [done|]. intros a Ha. cbn. rewrite Hi. cbn.
  assert (is_Some (body_step p a (lucid_wallet s) b)) as [[w o] Hb].
  { destruct b, a; try done; cbn [body_step]; [|by eexists..]. by destruct (attempt_tx p n _ _ _). }
  rewrite Hb. cbn. by eexists.
Qed.

Lemma some_can_move (s : system) k : lock_inv s k -> (exists i p st, tasks s !! i = Some (p, st) /\ forall r, st <> Done r) ->
  exists i, can_move s i.
Proof.
  intros HL (i & p & st & Hi & Hd). destruct st as [|previous own|own b|r|r].
  - exists i. left. cbn. rewrite Hi. by eexists.
  - destruct (li_stage _ _ HL _ _ _ Hi) as [_ Ho]. destruct (li_cover _ _ HL (S k)) as (j & q & st & Hj & Tj); [lia|].
    destruct st as [|pr o|o b| |]; try done; injection Tj as ->.
    + exists j. right; left. cbn. rewrite Hj. cbn. destruct (li_stage _ _ HL _ _ _ Hj) as [[= ->] _].
      rewrite decide_True; [by eexists|]. by apply (li_resolved _ _ HL).
    + exists j. by eapply locked_can_move.
  - exists i. by eapply locked_can_move.
  - exists i. right; right; left. cbn. rewrite Hi. cbn. destruct r as [[c t]|e]; by eexists.
  - by destruct (Hd r).
Qed.

Definition is_done (st : stage) : bool := match st with Done _ => true | _ => false end.

(** C31 (liveness): every handler that starts gets its result.  From every reachable
    state an execution, however it interleaves and whatever the provider and the node
    answer, has at most [remaining] steps besides wallet selections (each plan is
    attempted at most [maxAttempts] times); and until every handler is done some handler
    can move, whatever the call it awaits returns: no failure leaves the lock taken. *)
Theorem runs_complete plans s ls s' : reachable plans s -> exec ls s = Some s' ->
  length (filter (fun l => is_progress l = true) ls) <= remaining s /\
  ((exists i, can_move s' i) \/ forall i p st, tasks s' !! i = Some (p, st) -> exists r, st = Done r).
Proof.
  intros Hr Hls. assert (attempts_inv s) as HA.
  { revert s Hr Hls. intros s Hr _. revert s Hr. apply reachable_inv; [apply attempts_inv_start|]. intros s0 l s1 H Hs. by eapply step_remaining. }
  pose proof (exec_remaining _ _ _ HA Hls). split; [lia|].
  assert (exists k, lock_inv s' k) as [k HL].
  { eapply (exec_inv (fun s => exists k, lock_inv s k)); [|by eapply reachable_lock|exact Hls]. intros s0 l s1 [k Hk]. by eapply lock_inv_step. }
  destruct (decide (Forall (fun t => is_done t.2 = true) (tasks s'))) as [Hall|Hn].
  - right. intros i p st Hi. apply (Forall_lookup_1 _ _ _ _ Hall) in Hi. destruct st; try done. by eexists.
  - left. apply (some_can_move s' k HL). apply not_Forall_Exists in Hn; [|apply _]. apply Exists_exists in Hn as ([p st] & Hin & Hx).
    apply list_elem_of_lookup in Hin as [i Hi]. exists i, p, st. split; [done|]. intros r ->. by apply Hx.
Qed.

(** ** Whose wallet *)

Definition lock_free (s : system) : bool := forallb (fun t => match t.2 with Locked _ _ => false | _ => true end) (tasks s).

(** The builders select wallets only while nobody is completing. *)
Fixpoint quiet (ls : list label) (s : system) : bool :=
  match ls with
  | [] => true
  | l :: ls' =>
      (is_progress l || lock_free s) && match sys_step l s with Some s1 => quiet ls' s1 | None => true end
  end.

(** The selected wallet is the one a plan's own instruction names. *)
Definition own_wallet (p : Plan) (used : option (string * list UTxO)) : Prop :=
  forall address context, wallet p = RefreshFromAddress address context ->
  exists n us, normalizeAddressOrCredential address = Ok n /\ us <> [] /\ used = Some (n, us).

Definition wallet_ok (s : system) (p : Plan) (b : progress Tx) : Prop :=
  match b with
  | WalletApplied _ _ _ _ => own_wallet p (selected_wallet (lucid_wallet s))
  | AwaitComplete _ _ _ _ used => own_wallet p used
  | _ => True
  end.
Definition wallet_inv (s : system) : Prop := forall i p own b, tasks s !! i = Some (p, Locked own b) -> wallet_ok s p b.

Lemma attempt_failed_wallet p n sc e w w' b (s : system) : attempt_failed (CompletedTx := CompletedTx) p n sc e w = (w', inl b) ->
  wallet_ok s p b.
Proof. unfold attempt_failed. destruct (_ && _); [|done]. by intros [= _ <-]. Qed.

Lemma body_step_wallet p a w b w' b' (s s' : system) : body_step (CompletedTx := CompletedTx) p a w b = Some (w', inl b') -> wallet_ok s p b ->
  lucid_wallet s = w -> lucid_wallet s' = w' -> wallet_ok s' p b'.
Proof.
  destruct b as [n|n tx bt sc|n tx bt sc|n tx bt sc u|n sc], a as [sel r|us| |r|r]; cbn [body_step]; try done; intros H Hw Ew Ew'.
  - destruct (attempt_tx p n sel r w) as [built w1]. destruct built as [tx|e]; [destruct (validity p tx)|]; cbn in H; simplify_eq; exact I.
  - destruct (wallet_selection _ us) as [o'|e] eqn:Eo; [destruct (apply_selection o' w) eqn:Es|]; apply (inj Some) in H;
      [|by eapply attempt_failed_wallet..].
    injection H as -> <-. cbn. rewrite Ew'. intros address context Hp. rewrite Hp in Eo. cbn in Eo.
    case_decide as Hus; [done|]. injection Eo as <-. cbn in Es. unfold selectWalletFromAddress in Es.
    apply bind_ok in Es as (nm & Hn & [= <-]). exists nm, us. split_and!; [done..|]. by destruct (activeWalletSelectionScopeId w).
  - destruct (assertWalletSelectionScopeSatisfied _ _ _); apply (inj Some) in H; [|by eapply attempt_failed_wallet].
    injection H as <- <-. cbn in *. by rewrite <- Ew.
  - destruct r; apply (inj Some) in H; [done|by eapply attempt_failed_wallet].
  - destruct r; simplify_eq; exact I.
Qed.

Lemma lock_free_none s i : lock_free s = true -> ~ holds_lock s i.
Proof. intros H (p & own & b & Hi). 
  assert (In (p, Locked own b) (tasks s)) as Hin by (apply list_elem_of_In; by eapply list_elem_of_lookup_2).
  by pose proof (proj1 (forallb_forall _ _) H _ Hin). Qed.

Lemma wallet_inv_other s i p st st' s' : wallet_inv s -> tasks s !! i = Some (p, st) -> tasks s' = set_task s i p st' ->
  lucid_wallet s' = lucid_wallet s -> (forall own b, st' = Locked own b -> wallet_ok s' p b) -> wallet_inv s'.
Proof.
  intros HW Hi Et Ew Hst j q own b Hj. rewrite Et in Hj.
  destruct (lookup_set_task _ _ _ _ _ _ _ Hi Hj) as [[-> [= -> <-]]|[_ Hj']]; [by eapply Hst|].
  specialize (HW _ _ _ _ Hj'). destruct b; cbn in *; by rewrite ?Ew.
Qed.

Lemma wallet_inv_step k s l s' : lock_inv s k -> wallet_inv s -> is_progress l || lock_free s = true -> step_to s l s' -> wallet_inv s'.
Proof.
  intros HL HW Hq Hs. destruct Hs as [i p a us w Hi Hw|i p Hi|i p pr own Hi Hr|i a p own b w b' Hi Hb|i a p own b w r Hi Hb|i p r g Hi].
  - cbn in Hq. intros j q own b Hj. exfalso. apply (lock_free_none s j Hq). by exists q, own, b.
  - by eapply wallet_inv_other.
  - eapply wallet_inv_other; [done..|]. by intros o b [= _ <-].
  - intros j q o c Hj. cbn in Hj. destruct (lookup_set_task _ _ _ _ _ _ _ Hi Hj) as [[-> [= -> -> ->]]|[Hne Hj']].
    + apply (body_step_wallet p a (lucid_wallet s) b w b' s _ Hb (HW _ _ _ _ Hi) eq_refl). reflexivity.
    + exfalso. apply Hne. eapply (lock_exclusive s k); [done|by exists q, o, c|by exists p, own, b].
  - intros j q o c Hj. cbn in Hj. destruct (lookup_set_task _ _ _ _ _ _ _ Hi Hj) as [[-> ?]|[Hne Hj']]; [done|].
    exfalso. apply Hne. eapply (lock_exclusive s k); [done|by exists q, o, c|by exists p, own, b].
  - by eapply wallet_inv_other.
Qed.

(** When no builder selects a wallet while another handler holds the
    completion lock, every transaction is completed with the wallet of its own plan:
    the UTxOs looked up for the plan's address in this very attempt. *)
Lemma completes_with_own_wallet plans ls s i p own n tx built scope used :
  exec ls (start plans) = Some s -> quiet ls (start plans) = true ->
  tasks s !! i = Some (p, Locked own (AwaitComplete n tx built scope used)) -> own_wallet p used.
Proof.
  intros Hls Hq Hi. enough (wallet_inv s) as HW by exact (HW _ _ _ _ Hi).
  assert (wallet_inv (start plans)) as H0.
  { intros j q o b. cbn. rewrite list_lookup_fmap. by destruct (plans !! j). }
  pose proof (lock_inv_start plans) as HL. clear Hi. revert Hls Hq H0 HL. generalize (start plans : system), 0. intros s0 k.
  revert s0 k. induction ls as [|l ls IH]; intros s0 k; cbn; [by intros [= ->]|].
  destruct (sys_step l s0) as [s1|] eqn:E; cbn; [|done]. intros Hls [Hq1 Hq2]%andb_prop H0 HL. apply sys_step_to in E.
  destruct (lock_inv_step _ _ _ _ HL E) as [k' HL']. apply (IH s1 k'); [done|done| |done].
  exact (wallet_inv_step k s0 l s1 HL H0 Hq1 E).
Qed.

Lemma exec_cons (l : label) ls s s1 s' : sys_step l s = Some s1 -> exec ls s1 = Some s' -> exec (l :: ls) s = Some s'.
Proof. intros H1 H2. cbn. by rewrite H1. Qed.
Lemma exec_body i a (ls : list label) s s' p own b w b' : tasks s !! i = Some (p, Locked own b) -> body_step p a (lucid_wallet s) b = Some (w, inl b') ->
  exec ls (MkSystem (set_task s i p (Locked own b')) (completionChain s) (next_promise s) (resolved s) w (registered s)) = Some s' ->
  exec (LBody i a :: ls) s = Some s'.
Proof. intros H1 H2. apply exec_cons. cbn. rewrite H1. cbn. by rewrite H2. Qed.

(** The wallet scope does not enforce this.  While handler 0 is between its
    wallet instruction and the call of [complete], the builder of any other handler may
    select its own wallet: the selection is recorded in handler 0's scope, the assertion
    holds, and handler 0's transaction is completed with the other handler's UTxOs. *)
Lemma completed_with_foreign_wallet (p q : Plan) tx a context (us us' : list UTxO) na b nb :
  wallet p = RefreshFromAddress a context -> validity p (unsignedTx p) = Ok tx -> us <> [] ->
  normalizeAddressOrCredential a = Ok na -> normalizeAddressOrCredential b = Ok nb -> nb <> "" -> na <> nb ->
  exists ls s, exec ls (start [p; q]) = Some s /\
    tasks s !! 0 = Some (p, Locked 1 (AwaitComplete 1 tx (unsignedTx p) 1 (Some (nb, us')))) /\ ~ own_wallet p (Some (nb, us')).
Proof.
  intros Hp Hv Hus Ha Hb Hnb Hne.
  exists [LEnter 0; LAcquire 0; LBody 0 (AnsRebuilt None (Ok tx)); LBody 0 (AnsUtxos us); LSelect 1 b us'; LBody 0 AnsScheduled].
  eexists. split; [|split].
  - eapply exec_cons; [reflexivity|]. eapply exec_cons; [cbn; by rewrite (decide_True (P := 0 ∈ [0])) by (by left)|].
    eapply exec_body; [reflexivity|cbn [body_step attempt_tx]; change (attempt_tx p 1 None (Ok tx) ?w) with (Ok (unsignedTx p), w);
      cbv iota beta; rewrite Hv; reflexivity|].
    eapply exec_body; [reflexivity|cbn [body_step]; rewrite Hp; cbn [wallet_selection]; rewrite decide_False by done;
      cbn [apply_selection]; unfold selectWalletFromAddress; rewrite Ha; reflexivity|].
    eapply exec_cons; [cbn; unfold selectWalletFromAddress; rewrite Hb; reflexivity|].
    eapply exec_body; [reflexivity|cbn [body_step]; unfold assertWalletSelectionScopeSatisfied; rewrite decide_False; [reflexivity|]|reflexivity].
    by intros [?|[?|?]].
  - reflexivity.
  - intros Ho. destruct (Ho a context Hp) as (n & us0 & Hn & _ & [= <- _]). congruence.
Qed.

End runner.

(** ** The transaction runner: evaluated instances

    Two handlers, one of which fails once and is retried. *)

#[local] Existing Instance demo_env.

Definition demo_plan (address : string) : TxOperationPlan string :=
  MkPlan "op" ("tx for " +:+ address) true Ok (RefreshFromAddress address "op") (Some (MkRetryPolicy 2 (fun _ => true))) (fun _ => None) [].
Definition demo_plans : list (TxOperationPlan string) := [demo_plan "addr_a"; demo_plan "addr_b"].
Definition demo_utxos : list UTxO := [demo_utxo "u"].

(** Both ask for the lock; the first one's first attempt fails in [complete]. *)
Definition demo_schedule : list (@label string string) :=
  [ LSelect 0 "addr_a" demo_utxos; LEnter 0; LEnter 1; LAcquire 0; LBody 0 (AnsRebuilt None (Ok "")); LBody 0 (AnsUtxos demo_utxos);
    LBody 0 AnsScheduled; LBody 0 (AnsCompleted (Err (JsError "missing input"))); LBody 0 (AnsWaited (Ok tt));
    LBody 0 (AnsRebuilt (Some ("addr_a", demo_utxos)) (Ok "rebuilt")); LBody 0 (AnsUtxos demo_utxos); LBody 0 AnsScheduled ].

Definition demo_final : @system string string :=
  match exec id demo_schedule (start demo_plans) with Some s => s | None => start demo_plans end.

Lemma demo_runs : exec id demo_schedule (start demo_plans) = Some demo_final.
Proof. vm_compute. reflexivity. Qed.

(** From the start the two plans have at most 28 steps. *)
Lemma runs_complete_witness :
  length (filter (fun l => is_progress l = true) demo_schedule) <= 28 /\ exists i, can_move id demo_final i.
Proof.
  destruct (runs_complete id demo_plans (start demo_plans) demo_schedule demo_final) as [H1 [H2|H2]].
  - exists []. reflexivity.
  - exact demo_runs.
  - split; [|exact H2]. exact H1.
  - exfalso. assert (exists p st, tasks demo_final !! 1 = Some (p, st) /\ forall r, st <> Done r) as (p & st & Hst & Hd).
    { do 2 eexists. split; [vm_compute; reflexivity|discriminate]. }
    destruct (H2 _ _ _ Hst) as [r Hr]. by destruct (Hd r).
Defined.

