(* ===== verification/OnChainDatum.v ===== *)
(** * The validator's channel-datum transitions ([ics-004/channel_datum.ak])

    The on-chain channel validator compares the output datum of a packet
    transaction with the datum it computes itself.  These are its packet
    transitions, over the same datum type as the Gateway's: a byte string is its
    hexadecimal text, and [Pairs] is the association list in datum order. *)

From S2P Require Import Prelude JsMap Datum PacketHelpers.

#[export] Instance ChannelObj_eq_dec : EqDecision ChannelObj.
Proof. solve_decision. Defined.
#[export] Instance ChannelDatumState_eq_dec : EqDecision ChannelDatumState.
Proof. solve_decision. Defined.
#[export] Instance ChannelDatum_eq_dec : EqDecision ChannelDatum.
Proof. solve_decision. Defined.

(** On chain a channel end is a value: object identities are forgotten. *)
Definition with_channel (d : ChannelDatum) (c : Channel) : ChannelDatum :=
  let st := cd_state d in
  MkChannelDatum
    (MkChannelDatumState (MkChannelObj 0 c) (next_sequence_send st) (next_sequence_recv st) (next_sequence_ack st)
       (packet_commitment st) (packet_receipt st) (packet_acknowledgement st) (minimum_receive_proof_height st)
       (maximum_receive_proof_height st))
    (cd_port d) (cd_token d).
Definition plain (d : ChannelDatum) : ChannelDatum := with_channel d (obj_val (channel (cd_state d))).
Definition same_datum (a b : ChannelDatum) : bool := bool_decide (plain a = plain b).

(** ** [aiken/collection/pairs] *)

Fixpoint insert_by_ascending_key {V} (m : list (Z * V)) (k : Z) (v : V) : list (Z * V) :=
  match m with
  | [] => [(k, v)]
  | (k', v') :: rest =>
      if (k <? k')%Z then (k, v) :: m
      else if (k =? k')%Z then (k, v) :: rest
      else (k', v') :: insert_by_ascending_key rest k v
  end.
Fixpoint delete_first {V} (m : list (Z * V)) (k : Z) : list (Z * V) :=
  match m with
  | [] => []
  | (k', v') :: rest => if (k =? k')%Z then rest else (k', v') :: delete_first rest k
  end.
Definition has_key {V} (m : list (Z * V)) (k : Z) : bool := existsb (fun kv => (kv.1 =? k)%Z) m.

(** [height_mod.compare] *)
Definition height_compare (h1 h2 : Height) : comparison :=
  if (revisionNumber h1 <? revisionNumber h2)%Z then Lt
  else if (revisionNumber h2 <? revisionNumber h1)%Z then Gt
  else if (revisionHeight h1 <? revisionHeight h2)%Z then Lt
  else if (revisionHeight h2 <? revisionHeight h1)%Z then Gt
  else Eq.
Definition not_less (c : comparison) : bool := match c with Lt => false | _ => true end.

Definition max_packet_entries_per_channel : nat := 64.
Definition packet_entry_count (st : ChannelDatumState) : nat :=
  length (packet_commitment st) + length (packet_receipt st) + length (packet_acknowledgement st).

(** ** Packet transitions *)

Definition validate_recv_packet (input_datum output_datum : ChannelDatum) (packet : Packet) (ack : string)
    (proof_height : Height) : bool :=
  let st := cd_state input_datum in
  let valid_sequence :=
    match ch_ordering (obj_val (channel st)) with
    | Ordered => (sequence packet =? next_sequence_recv st)%Z
    | Unordered => true
    | OrderNone => false
    end in
  match
    match ch_ordering (obj_val (channel st)) with
    | Ordered => Some (packet_receipt st, next_sequence_recv st + 1, 1%nat)%Z
    | Unordered => Some ((sequence packet, "") :: packet_receipt st, next_sequence_recv st, 2%nat)
    | OrderNone => None
    end
  with
  | None => false
  | Some (expected_packet_receipt, expected_next_sequence_recv, inserted_entries) =>
      let expected_datum :=
        MkChannelDatum
          (MkChannelDatumState (channel st) (next_sequence_send st) expected_next_sequence_recv (next_sequence_ack st)
             (packet_commitment st) expected_packet_receipt
             (insert_by_ascending_key (packet_acknowledgement st) (sequence packet) ack)
             (minimum_receive_proof_height st)
             (match height_compare proof_height (maximum_receive_proof_height st) with
              | Gt => proof_height
              | _ => maximum_receive_proof_height st
              end))
          (cd_port input_datum) (cd_token input_datum) in
      valid_sequence &&
      not_less (height_compare proof_height (minimum_receive_proof_height st)) &&
      (packet_entry_count st + inserted_entries <=? max_packet_entries_per_channel)%nat &&
      same_datum expected_datum output_datum
  end.

Definition validate_prune_packet_history (input_datum output_datum : ChannelDatum) (sequence : Z)
    (proof_height : Height) : bool :=
  let st := cd_state input_datum in
  let expected_datum :=
    MkChannelDatum
      (MkChannelDatumState (channel st) (next_sequence_send st) (next_sequence_recv st) (next_sequence_ack st)
         (packet_commitment st) (delete_first (packet_receipt st) sequence)
         (delete_first (packet_acknowledgement st) sequence) proof_height (maximum_receive_proof_height st))
      (cd_port input_datum) (cd_token input_datum) in
  bool_decide (ch_ordering (obj_val (channel st)) = Unordered) &&
  has_key (packet_receipt st) sequence && has_key (packet_acknowledgement st) sequence &&
  not_less (height_compare proof_height (minimum_receive_proof_height st)) &&
  not_less (height_compare proof_height (maximum_receive_proof_height st)) &&
  same_datum expected_datum output_datum.

Definition validate_send_packet (input_datum output_datum : ChannelDatum) (packet : Packet) (commitment : string) : bool :=
  let st := cd_state input_datum in
  let expected_datum :=
    MkChannelDatum
      (MkChannelDatumState (channel st) (next_sequence_send st + 1) (next_sequence_recv st) (next_sequence_ack st)
         (insert_by_ascending_key (packet_commitment st) (sequence packet) commitment) (packet_receipt st)
         (packet_acknowledgement st) (minimum_receive_proof_height st) (maximum_receive_proof_height st))
      (cd_port input_datum) (cd_token input_datum) in
  (packet_entry_count st <? max_packet_entries_per_channel)%nat && same_datum expected_datum output_datum.

Definition delete_commitment (d : ChannelDatum) (c : Channel) (next_ack : Z) (sequence : Z) : ChannelDatum :=
  let st := cd_state d in
  MkChannelDatum
    (MkChannelDatumState (MkChannelObj 0 c) (next_sequence_send st) (next_sequence_recv st) next_ack
       (delete_first (packet_commitment st) sequence) (packet_receipt st) (packet_acknowledgement st)
       (minimum_receive_proof_height st) (maximum_receive_proof_height st))
    (cd_port d) (cd_token d).

Definition validate_timeout_packet (input_datum output_datum : ChannelDatum) (packet : Packet) : bool :=
  let st := cd_state input_datum in
  let c := obj_val (channel st) in
  let expected_channel_state := if decide (ch_ordering c = Ordered) then Close else Open in
  same_datum
    (delete_commitment input_datum
       (MkChannel expected_channel_state (ch_ordering c) (ch_counterparty c) (ch_connection_hops c) (ch_version c))
       (next_sequence_ack st) (sequence packet)) output_datum.

Definition validate_acknowledge_packet (input_datum output_datum : ChannelDatum) (packet : Packet) : bool :=
  let st := cd_state input_datum in
  let c := obj_val (channel st) in
  let expected_next_seq_ack :=
    if decide (ch_ordering c = Ordered) then (next_sequence_ack st + 1)%Z else next_sequence_ack st in
  same_datum (delete_commitment input_datum c expected_next_seq_ack (sequence packet)) output_datum.
