(* ===== verification/OnChainChannel.v ===== *)
(** * The validator's channel handshake ([ics-004/channel_datum.ak], [spending_channel/*.ak])

    What the channel validators check of a handshake transaction: the datum
    transition, and the proof redeemer that must equal the one they compute from the
    connection, the client and the output datum.  As in [OnChainDatum] a byte string is
    its hexadecimal text; where a check looks at the bytes it decodes them. *)

From Stdlib Require Import ZArith Lia.
From S2P Require Import Prelude JsMap JsString Hex Datum OnChainProto PacketHelpers Redeemers OnChainDatum.

#[local] Open Scope Z_scope.

Abbreviation raw := hex_decode_prefix.

(** ** Identifiers ([ics-024-host-requirements/validate.ak], [keys.ak]) *)

Definition id_char (b : byte) : bool :=
  let c := Z.of_N (Byte.to_N b) in
  (0x61 <=? c) && (c <=? 0x7a) || (0x41 <=? c) && (c <=? 0x5a) || (0x30 <=? c) && (c <=? 0x39) ||
  bool_decide (c ∈ [0x2e; 0x5f; 0x2b; 0x2d; 0x23; 0x5b; 0x5d; 0x3c; 0x3e]).
Definition is_valid_id (id : bytes) : bool := forallb id_char id.

Fixpoint trim_left (l : bytes) : bytes := match l with x20 :: l' => trim_left l' | _ => l end.
Definition trim_space (l : bytes) : bytes := reverse (trim_left (reverse (trim_left l))).

Definition default_identifier_validator (id : bytes) (min max : Z) : bool :=
  negb (bool_decide (trim_space id = [])) && (min <=? blen id) && (blen id <=? max) && is_valid_id id.
Definition channel_identifier_validator (id : bytes) : bool := default_identifier_validator id 8 64.
Definition port_identifier_validator (id : bytes) : bool := default_identifier_validator id 2 128.
Definition is_valid_port_id (id : bytes) : bool := negb ((blen id <? 2) || (128 <? blen id)) && forallb id_char id.

Definition is_digit_byte (b : byte) : bool := let c := Z.of_N (Byte.to_N b) in (0x30 <=? c) && (c <=? 0x39).
(** No leading zero, except in "0" itself. *)
Definition is_uint_string (n : bytes) : bool :=
  match n with
  | [] => false
  | [x30] => true
  | x30 :: _ => false
  | _ => forallb is_digit_byte n
  end.
Definition is_valid_connection_id (id : bytes) : bool :=
  bool_decide (take 11 id = utf8 "connection-") && is_uint_string (drop 11 id).

Definition counterparty_validate_basic (c : ChannelCounterparty) : bool :=
  port_identifier_validator (raw (cc_port_id c)) &&
  (bool_decide (raw (cc_channel_id c) = []) || channel_identifier_validator (raw (cc_channel_id c))).

(** [channel.validate_basic] *)
Definition channel_validate_basic (c : Channel) : bool :=
  match ch_connection_hops c with
  | [connection_id] =>
      bool_decide (ch_ordering c = Ordered \/ ch_ordering c = Unordered) && is_valid_connection_id (raw connection_id) &&
      counterparty_validate_basic (ch_counterparty c)
  | _ => false
  end.

(** ** Datum transitions *)

Definition fresh_counters (st : ChannelDatumState) : bool :=
  (next_sequence_send st =? 1) && (next_sequence_recv st =? 1) && (next_sequence_ack st =? 1) &&
  bool_decide (minimum_receive_proof_height st = MkHeight 0 0) && bool_decide (maximum_receive_proof_height st = MkHeight 0 0) &&
  bool_decide (packet_commitment st = []) && bool_decide (packet_receipt st = []) && bool_decide (packet_acknowledgement st = []).

Definition validate_chan_open_init (datum : ChannelDatum) (auth_token : AuthToken) : bool :=
  let st := cd_state datum in let c := obj_val (channel st) in
  channel_validate_basic c && bool_decide (cd_token datum = auth_token) && bool_decide (ch_state c = Init) &&
  bool_decide (raw (cc_channel_id (ch_counterparty c)) = []) && fresh_counters st && is_valid_port_id (raw (cd_port datum)).

Definition validate_chan_open_try (datum : ChannelDatum) (auth_token : AuthToken) : bool :=
  let st := cd_state datum in let c := obj_val (channel st) in
  channel_validate_basic c && bool_decide (cd_token datum = auth_token) && bool_decide (ch_state c = TryOpen) &&
  negb (bool_decide (raw (cc_channel_id (ch_counterparty c)) = [])) && fresh_counters st && is_valid_port_id (raw (cd_port datum)).

Definition validate_chan_open_ack (input_datum output_datum : ChannelDatum) : bool :=
  let input_chan := obj_val (channel (cd_state input_datum)) in
  let id := cc_channel_id (ch_counterparty (obj_val (channel (cd_state output_datum)))) in
  bool_decide (ch_state input_chan = Init) && channel_identifier_validator (raw id) &&
  same_datum
    (with_channel input_datum
       (MkChannel Open (ch_ordering input_chan) (MkChannelCounterparty (cc_port_id (ch_counterparty input_chan)) id)
          (ch_connection_hops input_chan) (ch_version input_chan))) output_datum.

Definition with_chan_state (d : ChannelDatum) (s : ChannelState) : ChannelDatum :=
  let c := obj_val (channel (cd_state d)) in
  with_channel d (MkChannel s (ch_ordering c) (ch_counterparty c) (ch_connection_hops c) (ch_version c)).

Definition validate_chan_open_confirm (input_datum output_datum : ChannelDatum) : bool :=
  bool_decide (ch_state (obj_val (channel (cd_state input_datum))) = TryOpen) &&
  same_datum (with_chan_state input_datum Open) output_datum.

(** The close validators also check that the channel is not closed yet. *)
Definition validate_chan_close (input_datum output_datum : ChannelDatum) : bool :=
  negb (bool_decide (ch_state (obj_val (channel (cd_state input_datum))) = Close)) &&
  same_datum (with_chan_state input_datum Close) output_datum.

(** ** The expected proof *)

Definition max_expected_time_per_block : Z := 4000000000.
(** [get_block_delay]; [ceil_divide_uinteger] fails on a negative delay. *)
Definition get_block_delay (delay_period : Z) : option Z :=
  if delay_period <? 0 then None else
  let temp := delay_period / max_expected_time_per_block in
  Some (if temp * max_expected_time_per_block =? delay_period then temp else temp + 1).

Fixpoint get_first {A} (l : list (Height * A)) (h : Height) : option A :=
  match l with [] => None | (k, v) :: l' => if decide (k = h) then Some v else get_first l' h end.

(** [merkle.apply_prefix] refuses an empty prefix. *)
Definition apply_prefix (prefix : string) (path : bytes) : option MerklePath :=
  if decide (raw prefix = []) then None else Some (MkMerklePath [prefix; hex_encode path]).

Definition channel_path (port_id channel_id : bytes) : bytes :=
  utf8 "channelEnds" ++ utf8 "/" ++ utf8 "ports" ++ utf8 "/" ++ port_id ++ utf8 "/" ++ utf8 "channels" ++ utf8 "/" ++ channel_id.

Definition expected_proof (connection : ConnectionEnd) (client : ClientDatumState) (channel_datum : ChannelDatum)
    (expected_channel : pb_channel) (proof : MerkleProof) (proof_height : Height) : option VerifyProofRedeemer :=
  let cp := ch_counterparty (obj_val (channel (cd_state channel_datum))) in
  block_delay ← get_block_delay (conn_delay_period connection);
  merkle_path ← apply_prefix (cp_key_prefix (conn_counterparty connection))
                  (channel_path (raw (cc_port_id cp)) (raw (cc_channel_id cp)));
  consensus_state ← get_first (consensusStates client) proof_height;
  processed_time ← get_first (processedTimes client) proof_height;
  processed_height ← get_first (processedHeights client) proof_height;
  Some (VerifyMembership
    (MkVerifyParams (clientState client) consensus_state proof_height processed_time processed_height
       (conn_delay_period connection) block_delay proof merkle_path)
    (hex_encode (marshal_for_channel expected_channel).2)).

(** The counterparty's end in the given state, as the validators rebuild it. *)
Definition expected_channel (state : ChannelState) (connection : ConnectionEnd) (channel_datum : ChannelDatum) (channel_id version : bytes)
  : pb_channel :=
  MkPbChannel state (ch_ordering (obj_val (channel (cd_state channel_datum)))) (raw (cd_port channel_datum)) channel_id
    [raw (cp_connection_id (conn_counterparty connection))] version 0.

(** [validate_chan_open_try_proof], [..._ack_proof], [..._confirm_proof] and
    [validate_chan_close_confirm_proof]: the transaction's proof redeemer, if any, is
    the expected one. *)
Definition try_proof_ok (redeemer : option VerifyProofRedeemer) connection client d counterparty_version proof proof_height : Prop :=
  exists r, redeemer = Some r /\
    expected_proof connection client d (expected_channel Init connection d [] (raw counterparty_version)) proof proof_height = Some r.
Definition ack_proof_ok (redeemer : option VerifyProofRedeemer) connection client channel_id d counterparty_version proof proof_height : Prop :=
  exists r, redeemer = Some r /\
    expected_proof connection client d (expected_channel TryOpen connection d channel_id (raw counterparty_version)) proof proof_height = Some r.
Definition own_version (d : ChannelDatum) : bytes := raw (ch_version (obj_val (channel (cd_state d)))).
Definition confirm_proof_ok (redeemer : option VerifyProofRedeemer) connection client channel_id d proof proof_height : Prop :=
  exists r, redeemer = Some r /\
    expected_proof connection client d (expected_channel Open connection d channel_id (own_version d)) proof proof_height = Some r.
Definition close_proof_ok (redeemer : option VerifyProofRedeemer) connection client channel_id d proof proof_height : Prop :=
  exists r, redeemer = Some r /\
    expected_proof connection client d (expected_channel Close connection d channel_id (own_version d)) proof proof_height = Some r.
