(* ===== verification/MessageValidate.v ===== *)
(** * Message validation ([tx/helper/channel.validate.ts], [tx/helper/packet.validate.ts])

    Every request is checked and turned into an operator before a transaction is
    built: the signer, the identifiers, and the proof bytes decoded by
    [ProofMessages].  The operators of the packet service are those of [PacketOps]. *)

From Stdlib Require Import ZArith Lia.
From S2P Require Import Prelude JsMap JsString JsJson Hex Datum PacketHelpers Redeemers ProtoCodec ProtoMessages ProtoTx ProofMessages PacketDenom PacketOps TxBuilder.

#[local] Open Scope Z_scope.

Definition CHANNEL_ID_PREFIX : string := "channel".

(** ** Operators of the channel service *)

(** An unrecognised ordering leaves the operator's [ordering] undefined. *)
Record ChannelOpenInitOperator := MkChannelOpenInitOperator {
  coi_connectionId : string; coi_counterpartyPortId : string; coi_ordering : option Order; coi_version : string; coi_port_id : string;
}.
Record ChannelOpenTryOperator := MkChannelOpenTryOperator {
  cot_connectionId : string; cot_counterparty : PCounterparty; cot_ordering : Order; cot_version : string; cot_port_id : string;
  cot_counterpartyVersion : string; cot_proofInit : MerkleProof; cot_proofHeight : Height;
}.
Record ChannelOpenAckOperator := MkChannelOpenAckOperator {
  coa_channelSequence : string; coa_counterpartyChannelId : string; coa_counterpartyVersion : string; coa_proofTry : MerkleProof;
  coa_proofHeight : Height;
}.
Record ChannelOpenConfirmOperator := MkChannelOpenConfirmOperator {
  coc_channelSequence : string; coc_proofAck : MerkleProof; coc_proofHeight : Height;
}.
Record ChannelCloseInitOperator := MkChannelCloseInitOperator { cci_port_id : string; cci_channel_id : string; cci_signer : string }.
Record ChannelCloseConfirmOperator := MkChannelCloseConfirmOperator {
  ccc_port_id : string; ccc_channelSequence : string; ccc_proofInit : MerkleProof; ccc_proofHeight : Height;
}.

(** ** Shared checks *)

Definition check_signer (signer : string) : result unit :=
  if decide (signer = "") then Err (GrpcInvalidArgument "Invalid constructed address: Signer is not valid") else Ok tt.

Definition check_hops (hops : list string) : result unit :=
  if decide (length hops = 0%nat) then Err (GrpcInvalidArgument "Invalid connection id: Connection Id is not valid") else Ok tt.

Definition check_channel_id (field channelId : string) : result unit :=
  if negb (startsWith (CHANNEL_ID_PREFIX +:+ "-") channelId) then
    Err (GrpcInvalidArgument ("Invalid argument: " +:+ quoted field +:+ ". Please use the prefix " +:+ quoted (CHANNEL_ID_PREFIX +:+ "-")))
  else Ok tt.

(** [channel_id.replaceAll('channel-', '')] *)
Definition sequence_text (channelId : string) : string :=
  text (remove_all (S (str_length channelId)) (utf8 (CHANNEL_ID_PREFIX +:+ "-")) (utf8 channelId)).

Definition height_of (h : PHeight) : Height := MkHeight (ph_revision_number h) (ph_revision_height h).

Definition read_proof (b : bytes) : result MerkleProof := m ← decodeMerkleProof b; Ok (initializeMerkleProof m).

(** ** Channel messages *)

Definition order_of (ordering : Z) : option Order :=
  match ordering with 0 => Some OrderNone | 1 => Some Unordered | 2 => Some Ordered | _ => None end.

Definition validateAndFormatChannelOpenInitParams (data : PMsgChannelOpenInit) : result (string * ChannelOpenInitOperator) :=
  check_signer (oi_signer data) ≫= fun _ =>
  check_hops (pch_connection_hops (oi_channel data)) ≫= fun _ =>
  Ok (oi_signer data,
      MkChannelOpenInitOperator (default "" (head (pch_connection_hops (oi_channel data))))
        (pc_port_id (pch_counterparty (oi_channel data))) (order_of (pch_ordering (oi_channel data)))
        (pch_version (oi_channel data)) (oi_port_id data)).

Definition validateAndFormatChannelOpenTryParams (data : PMsgChannelOpenTry) : result (string * ChannelOpenTryOperator) :=
  check_signer (ot_signer data) ≫= fun _ =>
  check_hops (pch_connection_hops (ot_channel data)) ≫= fun _ =>
  proofInit ← read_proof (ot_proof_init data);
  Ok (ot_signer data,
      MkChannelOpenTryOperator (default "" (head (pch_connection_hops (ot_channel data))))
        (pch_counterparty (ot_channel data)) Unordered (pch_version (ot_channel data)) (ot_port_id data)
        (ot_counterparty_version data) proofInit (height_of (ot_proof_height data))).

Definition validateAndFormatChannelOpenAckParams (data : PMsgChannelOpenAck) : result (string * ChannelOpenAckOperator) :=
  check_signer (oa_signer data) ≫= fun _ =>
  check_channel_id "channel_id" (oa_channel_id data) ≫= fun _ =>
  proofTry ← read_proof (oa_proof_try data);
  Ok (oa_signer data,
      MkChannelOpenAckOperator (sequence_text (oa_channel_id data)) (oa_counterparty_channel_id data)
        (oa_counterparty_version data) proofTry (height_of (oa_proof_height data))).

Definition validateAndFormatChannelOpenConfirmParams (data : PMsgChannelOpenConfirm) : result (string * ChannelOpenConfirmOperator) :=
  check_signer (oc_signer data) ≫= fun _ =>
  check_channel_id "channel_id" (oc_channel_id data) ≫= fun _ =>
  proofAck ← read_proof (oc_proof_ack data);
  Ok (oc_signer data,
      MkChannelOpenConfirmOperator (sequence_text (oc_channel_id data)) proofAck (height_of (oc_proof_height data))).

Definition validateAndFormatChannelCloseInitParams (data : PMsgChannelCloseInit) : result (string * ChannelCloseInitOperator) :=
  check_signer (cli_signer data) ≫= fun _ =>
  Ok (cli_signer data, MkChannelCloseInitOperator (cli_port_id data) (sequence_text (cli_channel_id data)) (cli_signer data)).

Definition validateAndFormatChannelCloseConfirmParams (data : PMsgChannelCloseConfirm)
  : result (string * ChannelCloseConfirmOperator) :=
  check_signer (clc_signer data) ≫= fun _ =>
  check_channel_id "channel_id" (clc_channel_id data) ≫= fun _ =>
  proofInit ← read_proof (clc_proof_init data);
  Ok (clc_signer data,
      MkChannelCloseConfirmOperator (clc_port_id data) (sequence_text (clc_channel_id data)) proofInit
        (height_of (clc_proof_height data))).

(** ** Packet messages *)

Definition validateAndFormatRecvPacketParams (data : PMsgRecvPacket) : result (string * RecvPacketOperator) :=
  let packet := mr_packet data in
  check_signer (mr_signer data) ≫= fun _ =>
  check_channel_id "destination_channel" (ppk_destination_channel packet) ≫= fun _ =>
  if negb (isSupportedGatewayPortId (ppk_destination_port packet)) then
    Err (GrpcInvalidArgument ("Invalid argument: " +:+ quoted "destination_port" +:+ " " +:+ ppk_destination_port packet +:+
                              " not supported")) else
  let timeoutHeight := height_of (ppk_timeout_height packet) in
  if negb (revisionHeight timeoutHeight =? 0) || negb (revisionNumber timeoutHeight =? 0) then
    Err (GrpcInvalidArgument ("Invalid argument: " +:+ quoted "packet.timeout_height" +:+
      " is not supported for Cardano receive packets; use " +:+ quoted "packet.timeout_timestamp")) else
  proofCommitment ← read_proof (mr_proof_commitment data);
  Ok (mr_signer data,
      MkRecvPacketOperator (ppk_destination_channel packet) (ppk_sequence packet) (toHex (ppk_data packet)) proofCommitment
        (height_of (mr_proof_height data)) timeoutHeight (ppk_timeout_timestamp packet)).

Definition validateAndFormatAcknowledgementPacketParams (data : PMsgAcknowledgement) : result (string * AckPacketOperator) :=
  let packet := ma_packet data in
  check_signer (ma_signer data) ≫= fun _ =>
  check_channel_id "source_channel" (ppk_source_channel packet) ≫= fun _ =>
  if negb (isSupportedGatewayPortId (ppk_source_port packet)) then
    Err (GrpcInvalidArgument ("Invalid argument: " +:+ quoted "source_port" +:+ " " +:+ ppk_source_port packet +:+
                              " not supported")) else
  proofAcked ← read_proof (ma_proof_acked data);
  Ok (ma_signer data,
      MkAckPacketOperator (ppk_source_channel packet) (ppk_sequence packet) (toHex (ppk_data packet)) (height_of (ma_proof_height data))
        proofAcked (toHex (ma_acknowledgement data)) (height_of (ppk_timeout_height packet)) (ppk_timeout_timestamp packet)).

Definition validateAndFormatPrunePacketHistoryParams (data : PMsgPrunePacketHistory) : result PrunePacketHistoryOperator :=
  let required field := Err (GrpcInvalidArgument ("Invalid argument: " +:+ quoted field +:+ " is required")) in
  if decide (mp_signer data = "") then required "signer" else
  if decide (mp_port_id data = "") then required "port_id" else
  check_channel_id "channel_id" (mp_channel_id data) ≫= fun _ =>
  let proofHeight := height_of (default base_message (mp_proof_height data)) in
  if mp_sequence data <=? 0 then
    Err (GrpcInvalidArgument ("Invalid argument: " +:+ quoted "sequence" +:+ " must be positive")) else
  if revisionHeight proofHeight <=? 0 then
    Err (GrpcInvalidArgument ("Invalid argument: " +:+ quoted "proof_height.revision_height" +:+ " must be positive")) else
  if decide (length (mp_proof_commitment_absence data) = 0%nat) then required "proof_commitment_absence" else
  proof ← read_proof (mp_proof_commitment_absence data);
  Ok (MkPrunePacketHistoryOperator (mp_port_id data) (mp_channel_id data) (mp_sequence data) proof proofHeight (mp_signer data)).

(** [memo] is undefined when empty; the operator keeps the empty text. *)
Definition validateAndFormatSendPacketParams (data : PMsgTransfer) : result SendPacketOperator :=
  let invalid who := Err (GrpcInvalidArgument ("Invalid constructed address: " +:+ who +:+ " is not valid")) in
  if decide (mx_sender data = "") then invalid "sender" else
  if decide (mx_receiver data = "") then invalid "receiver" else
  check_channel_id "source_channel" (mx_source_channel data) ≫= fun _ =>
  if decide (mx_signer data = "") then invalid "signer" else
  let tokenDenom := trim (pco_denom (mx_token data)) in
  if decide (tokenDenom = "") then
    Err (GrpcInvalidArgument ("Invalid argument: " +:+ quoted "token.denom" +:+ " is required")) else
  match BigInt (pco_amount (mx_token data)) with
  | Err _ => Err (GrpcInvalidArgument ("Invalid argument: " +:+ quoted "token.amount" +:+ " must be an integer string"))
  | Ok tokenAmount =>
      Ok (MkSendPacketOperator (mx_source_port data) (mx_source_channel data) tokenDenom tokenAmount (mx_sender data)
            (mx_receiver data) (mx_signer data) (height_of (default base_message (mx_timeout_height data))) (mx_timeout_timestamp data) (mx_memo data))
  end.
