(* ===== verification/ChannelOps.v ===== *)
(** * Channel handshakes ([tx/channel.service.ts])

    The transaction builders of the channel service: open init, try, ack, confirm and
    close init, confirm.  The first two create a channel end; the others continue from
    the channel's datum.  Each computes the next datum, the HostState update with its
    root witnesses, and the callback of the port's module; ack, confirm and close
    confirm also the redeemer that proves the counterparty's channel end, whose value
    is the protobuf encoding of that end.

    What a builder hands to [lucidService.createUnsigned...Transaction] is a
    [ChannelTx], the union of the DTOs without the deployment's addresses. *)

From Stdlib Require Import ZArith Lia.
From S2P Require Import Prelude JsMap JsString JsJson Hex MerkleTree Datum StateRoot PacketHelpers TreeRebuild TreeServices EscrowShard Voucher Redeemers ProtoCodec ProtoMessages ProofMessages PacketDenom PacketOps MessageValidate.

#[local] Open Scope Z_scope.

(** ** Redeemers and plans *)

Inductive MintChannelRedeemer :=
| MintChanOpenInit
| MintChanOpenTry (counterparty_version : string) (proof_init : MerkleProof) (proof_height : Height).

Definition mint_channel_data (r : MintChannelRedeemer) : pdata :=
  match r with
  | MintChanOpenInit => p_enum 0
  | MintChanOpenTry v p h => PConstr 1 [PBytes v; merkle_proof_data p; height_data h]
  end.

Inductive ChannelPart :=
| MintChannel (encodedMintChannelRedeemer : string)
| SpendChannel (channelUtxo : UTxO) (encodedSpendChannelRedeemer operationPolicyId : string) (channelToken : AuthToken)
    (verifyProof : option (string * string)).

Record ChannelTx := MkChannelTx {
  ct_hostStateUtxo : UTxO;
  ct_encodedHostStateRedeemer : string;
  ct_encodedUpdatedHostStateDatum : string;
  ct_connectionUtxo : UTxO;
  ct_clientUtxo : UTxO;
  ct_moduleKey : GatewayModuleKey;
  ct_moduleUtxo : UTxO;
  ct_encodedSpendModuleRedeemer : string;
  ct_channelTokenUnit : string;
  ct_encodedChannelDatum : string;
  ct_part : ChannelPart;
}.

(** [validators.spendChannel.refValidator.*.scriptHash] *)
Class ChannelDeployment := {
  chanOpenAckPolicyId : string;
  chanOpenConfirmPolicyId : string;
  channelCloseInitPolicyId : string;
  channelCloseConfirmPolicyId : string;
}.

Record ChannelEvent := MkChannelEvent {
  ev_port_id : string; ev_channel_id : string; ev_connection_id : string; ev_counterparty_port_id : string;
  ev_counterparty_channel_id : string;
}.

(** ** [channel.ts] and [constant/channel.ts] *)

Definition channelPath (portId channelId : string) : string := "channelEnds" +:+ "/" +:+ channelPathForPacket portId channelId.

(** The numbers of the protobuf enums [State] and [Order]. *)
Definition STATE_TRYOPEN : Z := 2.
Definition STATE_OPEN : Z := 3.
Definition STATE_CLOSED : Z := 4.
Definition ORDER_MAPPING_CHANNEL (o : Order) : Z := match o with OrderNone => 0 | Ordered => 2 | Unordered => 1 end.
Definition orderFromJSON (n : Z) : Z := match n with 0 => 0 | 1 => 1 | 2 => 2 | _ => -1 end.

Section channel_service.
Context `{SHA : Sha256} `{L : Lucid} `{CV : ChainView} `{BL : Blake2b} `{S3 : Sha3}.
Context `{EV : EscrowEnv} `{DP : Deployment} `{PE : PacketEnv} `{CD : ChannelDeployment}.

Definition encode_mintChannelRedeemer (r : MintChannelRedeemer) : result string :=
  encode_type "mintChannelRedeemer" (Data_to true (mint_channel_data r)).

(** ** Root updates *)

(** [Buffer.from(await encodeChannelEndValue(...), 'hex')] *)
Definition channel_value (c : Channel) : result bytes := v ← encodeChannelEndValue c; Ok (hex_decode_prefix v).
Definition sequence_value (n : Z) : result bytes := v ← encodeIntegerValue n; Ok (hex_decode_prefix v).

Definition service_computeRootWithCreateChannelUpdate (oldRoot portId channelId : string) (d : ChannelDatum)
  : M gstate (StateRootResult CreateChannelW) :=
  channelValue ← liftR (channel_value (channel_end d));
  send ← liftR (sequence_value (next_sequence_send (cd_state d)));
  recv ← liftR (sequence_value (next_sequence_recv (cd_state d)));
  ack ← liftR (sequence_value (next_sequence_ack (cd_state d)));
  computeRootWithCreateChannelUpdate oldRoot portId channelId channelValue send recv ack.

Definition service_computeRootWithUpdateChannelUpdate (oldRoot portId channelId : string) (d : ChannelDatum)
  : M gstate (StateRootResult (list string)) :=
  channelValue ← liftR (channel_value (channel_end d));
  computeRootWithUpdateChannelUpdate oldRoot portId channelId channelValue.

(** ** Datums *)

Definition zero_height : Height := MkHeight 0 0.

Definition new_channel_datum (c : Channel) (portId : string) (token : AuthToken) : ChannelDatum :=
  MkChannelDatum (MkChannelDatumState (MkChannelObj 0 c) 1 1 1 [] [] [] zero_height zero_height) (convertString2Hex portId) token.

(** [{...channelDatum, state: {...channelDatum.state, channel: c}}]: a new object. *)
Definition set_channel (d : ChannelDatum) (c : Channel) : ChannelDatum :=
  let st := cd_state d in
  MkChannelDatum
    (MkChannelDatumState (MkChannelObj (S (obj_ref (channel st))) c) (next_sequence_send st) (next_sequence_recv st)
       (next_sequence_ack st) (packet_commitment st) (packet_receipt st) (packet_acknowledgement st)
       (minimum_receive_proof_height st) (maximum_receive_proof_height st))
    (cd_port d) (cd_token d).

Definition with_state (c : Channel) (s : ChannelState) : Channel :=
  MkChannel s (ch_ordering c) (ch_counterparty c) (ch_connection_hops c) (ch_version c).

Definition acked_channel (c : Channel) (counterpartyChannelId : string) : Channel :=
  MkChannel Open (ch_ordering c)
    (MkChannelCounterparty (cc_port_id (ch_counterparty c)) (convertString2Hex counterpartyChannelId))
    (ch_connection_hops c) (ch_version c).

Definition host_with_channel (h : HostStateDatum) (newRoot : string) : HostStateDatum :=
  let st := hs_state h in
  MkHostStateDatum
    (MkHostState (version st + 1) newRoot (next_client_sequence st) (next_connection_sequence st)
       (next_channel_sequence st + 1) (bound_port st) now)
    (nft_policy h) (deployer h) (shutdown h).

(** ** Loading *)

(** The connection and the client's UTxO; the client's datum is not decoded. *)
Definition load_connection (connectionId : string) : result (UTxO * ConnectionDatum * UTxO) :=
  connectionSequence ← parseConnectionSequence connectionId;
  '(policy, name) ← getConnectionTokenUnit connectionSequence;
  connectionUtxo ← findUtxoByUnit (policy +:+ name);
  connectionDatum ← decode_datum decode_connection connectionUtxo;
  clientSequence ← parseClientSequence (convertHex2String (conn_client_id (cnd_state connectionDatum)));
  clientTokenUnit ← getClientTokenUnit clientSequence;
  clientUtxo ← findUtxoByUnit clientTokenUnit;
  Ok (connectionUtxo, connectionDatum, clientUtxo).

Definition hop_text (d : ChannelDatum) : string := convertHex2String (default "" (head (ch_connection_hops (channel_end d)))).

Definition module_callback (portId : string) (c : IBCModuleCallback pdata) : result (GatewayModuleKey * UTxO * string) :=
  moduleConfig ← getGatewayModuleConfigForPortId portId;
  moduleUtxo ← findUtxoByUnit (module_identifier moduleConfig);
  encodedSpendModuleRedeemer ← encode_iBCModuleRedeemer (Callback c);
  Ok (module_key moduleConfig, moduleUtxo, encodedSpendModuleRedeemer).

(** ** Open init and open try *)

Definition create_channel (connectionId portId : string) (channelOf : Channel) (mintRedeemer : MintChannelRedeemer)
    (callback : string -> IBCModuleCallback pdata) : M gstate (ChannelTx * string * PendingTreeUpdate) :=
  '(hostStateUtxo, hostStateDatum) ← load_host_state;
  let root := ibc_state_root (hs_state hostStateDatum) in
  ensureTreeAligned root ;;
  '(connectionUtxo, _, clientUtxo) ← liftR (load_connection connectionId);
  let channelSequence := next_channel_sequence (hs_state hostStateDatum) in
  let channelId := "channel-" +:+ pretty channelSequence in
  '(policy, name) ← liftR (getChannelTokenUnit channelSequence);
  let channelDatum := new_channel_datum channelOf portId (MkAuthToken policy name) in
  r ← service_computeRootWithCreateChannelUpdate root portId channelId channelDatum;
  encodedMintChannelRedeemer ← liftR (encode_mintChannelRedeemer mintRedeemer);
  encodedHostStateRedeemer ← liftR (encode_host_state_redeemer (CreateChannel (witness r)));
  encodedUpdatedHostStateDatum ← liftR (encode_host_state (host_with_channel hostStateDatum (newRoot r)));
  encodedChannelDatum ← liftR (encode_channel channelDatum);
  '(moduleKey, moduleUtxo, encodedSpendModuleRedeemer) ← liftR (module_callback portId (callback (convertString2Hex channelId)));
  mret (MkChannelTx hostStateUtxo encodedHostStateRedeemer encodedUpdatedHostStateDatum connectionUtxo clientUtxo moduleKey
          moduleUtxo encodedSpendModuleRedeemer (policy +:+ name) encodedChannelDatum (MintChannel encodedMintChannelRedeemer),
        channelId, MkPending (newRoot r) (commitTree r)).

Definition init_channel (op : ChannelOpenInitOperator) (o : Order) : Channel :=
  MkChannel Init o (MkChannelCounterparty (convertString2Hex (coi_counterpartyPortId op)) (convertString2Hex ""))
    [convertString2Hex (coi_connectionId op)] (convertString2Hex (coi_version op)).

(** An undefined ordering reaches [encodeChannelEndValue] inside the channel end, and
    [Data.to] throws there. *)
Definition buildUnsignedChannelOpenInitTx (op : ChannelOpenInitOperator) : M gstate (ChannelTx * string * PendingTreeUpdate) :=
  match coi_ordering op with
  | Some o => create_channel (coi_connectionId op) (coi_port_id op) (init_channel op o) MintChanOpenInit OnChanOpenInit
  | None =>
      '(_, hostStateDatum) ← load_host_state;
      ensureTreeAligned (ibc_state_root (hs_state hostStateDatum)) ;;
      liftR (load_connection (coi_connectionId op)) ;;
      liftR (getChannelTokenUnit (next_channel_sequence (hs_state hostStateDatum))) ;;
      liftR (Data_to false PUndefined) ;;
      raise (JsError "ordering is undefined")
  end.

Definition try_channel (op : ChannelOpenTryOperator) : Channel :=
  MkChannel TryOpen (cot_ordering op)
    (MkChannelCounterparty (convertString2Hex (pc_port_id (cot_counterparty op)))
       (convertString2Hex (pc_channel_id (cot_counterparty op))))
    [convertString2Hex (cot_connectionId op)] (convertString2Hex (cot_version op)).

(** The result is only the transaction: the pending update is not returned. *)
Definition buildUnsignedChannelOpenTryTx (op : ChannelOpenTryOperator) : M gstate ChannelTx :=
  '(tx, _, _) ← create_channel (cot_connectionId op) (cot_port_id op) (try_channel op)
    (MintChanOpenTry (convertString2Hex (cot_counterpartyVersion op)) (cot_proofInit op) (cot_proofHeight op)) OnChanOpenTry;
  mret tx.

(** ** Open ack, open confirm and close confirm *)

(** The counterparty's channel end as the proof must show it. *)
Definition counterparty_end (state : Z) (d : ChannelDatum) (channelIdForRoot : string) (connectionDatum : ConnectionDatum)
    (version : string) : PChannel :=
  MkPChannel state (orderFromJSON (ORDER_MAPPING_CHANNEL (ch_ordering (channel_end d))))
    (MkPCounterparty (convertHex2String (cd_port d)) channelIdForRoot)
    [convertHex2String (cp_connection_id (conn_counterparty (cnd_state connectionDatum)))] version.

Definition counterparty_path (d : ChannelDatum) : string :=
  let cp := ch_counterparty (channel_end d) in channelPath (convertHex2String (cc_port_id cp)) (convertHex2String (cc_channel_id cp)).

Definition channel_proof (kx : ClientContext) (c : ConsensusState * Z * Z) (proofHeight : Height) (proof : MerkleProof)
    (updated : ChannelDatum) (expected : PChannel) : VerifyProofRedeemer :=
  VerifyMembership (verify_params kx c proofHeight proof (counterparty_path updated)) (toHex (encodeMessage expected)).


Record Continuation := MkContinuation {
  cn_updated : ChannelDatum; cn_redeemer : SpendChannelRedeemer; cn_policy : string; cn_proof : MerkleProof; cn_proofHeight : Height;
  cn_state : Z; cn_version : string; cn_callback : string -> IBCModuleCallback pdata;
}.

Definition continue_channel (cx : ChannelContext) (channelSequence : string) (n : Continuation)
  : M gstate (ChannelTx * PendingTreeUpdate) :=
  let d := cx_channelDatum cx in
  '(hostStateUtxo, hostStateDatum) ← load_host_state;
  let root := ibc_state_root (hs_state hostStateDatum) in
  ensureTreeAligned root ;;
  kx ← liftR (load_client d);
  if negb (isValidProofHeight (consensusStates (cld_state (kx_clientDatum kx))).*1 (cn_proofHeight n)) then
    raise (invalid_proof_height (cn_proofHeight n)) else
  let portId := convertHex2String (cd_port d) in
  let channelIdForRoot := CHANNEL_ID_PREFIX +:+ "-" +:+ channelSequence in
  r ← service_computeRootWithUpdateChannelUpdate root portId channelIdForRoot (cn_updated n);
  encodedSpendChannelRedeemer ← liftR (encode_spendChannelRedeemer (cn_redeemer n));
  encodedHostStateRedeemer ← liftR (encode_host_state_redeemer (UpdateChannel (witness r)));
  encodedUpdatedHostStateDatum ← liftR (encode_host_state (updated_host_state hostStateDatum (newRoot r)));
  encodedUpdatedChannelDatum ← liftR (encode_channel (cn_updated n));
  c ← liftR (consensus_at (kx_clientDatum kx) (cn_proofHeight n) (missing_state (cn_proofHeight n)) missing_meta);
  encodedVerifyProofRedeemer ← liftR (encodeVerifyProofRedeemer (channel_proof kx c (cn_proofHeight n) (cn_proof n) (cn_updated n)
    (counterparty_end (cn_state n) d channelIdForRoot (kx_connectionDatum kx) (cn_version n))));
  '(moduleKey, moduleUtxo, encodedSpendModuleRedeemer) ←
    liftR (module_callback portId (cn_callback n (convertString2Hex channelIdForRoot)));
  mret (MkChannelTx hostStateUtxo encodedHostStateRedeemer encodedUpdatedHostStateDatum (kx_connectionUtxo kx) (kx_clientUtxo kx)
          moduleKey moduleUtxo encodedSpendModuleRedeemer (cx_channelTokenUnit cx) encodedUpdatedChannelDatum
          (SpendChannel (cx_channelUtxo cx) encodedSpendChannelRedeemer (cn_policy n) (cx_channelToken cx)
             (Some (verifyProofPolicyId, encodedVerifyProofRedeemer))),
        MkPending (newRoot r) (commitTree r)).

Definition load_channel_text (channelSequence : string) : result ChannelContext := n ← BigInt channelSequence; load_channel n.

Definition ack_continuation (op : ChannelOpenAckOperator) (d : ChannelDatum) : Continuation :=
  MkContinuation (set_channel d (acked_channel (channel_end d) (coa_counterpartyChannelId op)))
    (ChanOpenAck (convertString2Hex (coa_counterpartyVersion op)) (coa_proofTry op) (coa_proofHeight op)) chanOpenAckPolicyId
    (coa_proofTry op) (coa_proofHeight op) STATE_TRYOPEN (coa_counterpartyVersion op) OnChanOpenAck.

Definition ack_event (op : ChannelOpenAckOperator) (d : ChannelDatum) : ChannelEvent :=
  MkChannelEvent (convertHex2String (cd_port d)) (CHANNEL_ID_PREFIX +:+ "-" +:+ coa_channelSequence op) (hop_text d)
    (convertHex2String (cc_port_id (ch_counterparty (channel_end d)))) (coa_counterpartyChannelId op).

Definition buildUnsignedChannelOpenAckTx (op : ChannelOpenAckOperator) : M gstate (ChannelTx * ChannelEvent * PendingTreeUpdate) :=
  cx ← liftR (load_channel_text (coa_channelSequence op));
  let d := cx_channelDatum cx in
  if decide (ch_state (channel_end d) <> Init) then raise (GrpcInternal "ChanOpenAck to channel not in Init state") else
  '(tx, pending) ← continue_channel cx (coa_channelSequence op) (ack_continuation op d);
  mret (tx, ack_event op d, pending).

Definition confirm_continuation (op : ChannelOpenConfirmOperator) (d : ChannelDatum) : Continuation :=
  MkContinuation (set_channel d (with_state (channel_end d) Open)) (ChanOpenConfirm (coc_proofAck op) (coc_proofHeight op))
    chanOpenConfirmPolicyId (coc_proofAck op) (coc_proofHeight op) STATE_OPEN
    (convertHex2String (ch_version (channel_end d))) OnChanOpenConfirm.

Definition buildUnsignedChannelOpenConfirmTx (op : ChannelOpenConfirmOperator) : M gstate (ChannelTx * PendingTreeUpdate) :=
  cx ← liftR (load_channel_text (coc_channelSequence op));
  let d := cx_channelDatum cx in
  if decide (ch_state (channel_end d) <> TryOpen) then
    raise (GrpcInternal "ChanOpenConfirm to channel not in TryOpen state")
  else continue_channel cx (coc_channelSequence op) (confirm_continuation op d).

Definition close_continuation (op : ChannelCloseConfirmOperator) (d : ChannelDatum) : Continuation :=
  MkContinuation (set_channel d (with_state (channel_end d) Close)) (ChanCloseConfirm (ccc_proofInit op) (ccc_proofHeight op))
    channelCloseConfirmPolicyId (ccc_proofInit op) (ccc_proofHeight op) STATE_CLOSED
    (convertHex2String (ch_version (channel_end d))) OnChanCloseConfirm.

Definition buildUnsignedChannelCloseConfirmTx (op : ChannelCloseConfirmOperator) : M gstate (ChannelTx * PendingTreeUpdate) :=
  cx ← liftR (load_channel_text (ccc_channelSequence op));
  let d := cx_channelDatum cx in
  if decide (ch_state (channel_end d) = Close) then
    raise (GrpcInternal "ChanCloseConfirm to channel already in Close state")
  else continue_channel cx (ccc_channelSequence op) (close_continuation op d).

(** ** Close init: no proof, and the state is checked after everything is loaded. *)

Definition buildUnsignedChannelCloseInitTx (op : ChannelCloseInitOperator) : M gstate (ChannelTx * PendingTreeUpdate) :=
  '(hostStateUtxo, hostStateDatum) ← load_host_state;
  let root := ibc_state_root (hs_state hostStateDatum) in
  ensureTreeAligned root ;;
  cx ← liftR (load_channel_text (cci_channel_id op));
  let d := cx_channelDatum cx in
  '(connectionUtxo, _, clientUtxo) ← liftR (load_connection (hop_text d));
  if decide (ch_state (channel_end d) = Close) then raise (GrpcInternal "Channel is in Close State") else
  let updated := set_channel d (with_state (channel_end d) Close) in
  let portId := convertHex2String (cd_port d) in
  let channelIdForRoot := CHANNEL_ID_PREFIX +:+ "-" +:+ cci_channel_id op in
  r ← service_computeRootWithUpdateChannelUpdate root portId channelIdForRoot updated;
  encodedHostStateRedeemer ← liftR (encode_host_state_redeemer (UpdateChannel (witness r)));
  encodedUpdatedHostStateDatum ← liftR (encode_host_state (updated_host_state hostStateDatum (newRoot r)));
  encodedUpdatedChannelDatum ← liftR (encode_channel updated);
  '(moduleKey, moduleUtxo, encodedSpendModuleRedeemer) ←
    liftR (module_callback portId (OnChanCloseInit (convertString2Hex channelIdForRoot)));
  encodedSpendChannelRedeemer ← liftR (encode_spendChannelRedeemer ChanCloseInit);
  mret (MkChannelTx hostStateUtxo encodedHostStateRedeemer encodedUpdatedHostStateDatum connectionUtxo clientUtxo moduleKey
          moduleUtxo encodedSpendModuleRedeemer (cx_channelTokenUnit cx) encodedUpdatedChannelDatum
          (SpendChannel (cx_channelUtxo cx) encodedSpendChannelRedeemer channelCloseInitPolicyId (cx_channelToken cx) None),
        MkPending (newRoot r) (commitTree r)).

End channel_service.
