(* ===== verification/ConnectionOps.v ===== *)
(** * Connection handshakes ([tx/connection.service.ts], [tx/helper/connection.validate.ts])

    The message checks and the transaction builders of the connection service.  Open
    init and open try create a connection end under the next identifier of the
    HostState; open ack and open confirm continue from the connection's datum.  Open
    ack also computes the redeemer that proves the counterparty's connection end,
    whose value is the protobuf encoding of that end.

    What a builder hands to [lucidService.createUnsignedConnection...Transaction] is a
    [ConnectionTx].  The lines that only log are left out; the reads of the tree's root
    among them stay, since [getRoot] rebuilds the tree's cache. *)

From Stdlib Require Import ZArith Lia.
From S2P Require Import Prelude JsMap JsString JsJson Hex MerkleTree Datum StateRoot PacketHelpers TreeRebuild TreeServices EscrowShard Voucher Redeemers ProtoCodec ProtoMessages ProtoTx ProtoConnection ProofMessages PacketDenom PacketOps MessageValidate ChannelOps.

#[local] Open Scope Z_scope.

(** ** Constants ([constant/*.ts]) *)

Definition CLIENT_ID_PREFIX : string := "07-tendermint".
Definition CONNECTION_ID_PREFIX : string := "connection".
Definition DEFAULT_IDENTIFIER_VERSION : string := "31".
Definition DEFAULT_FEATURES_VERSION_ORDER_ORDERED : string := "4f524445525f4f524445524544".
Definition DEFAULT_FEATURES_VERSION_ORDER_UNORDERED : string := "4f524445525f554e4f524445524544".
Definition DEFAULT_MERKLE_PREFIX : string := "696263".

Definition default_versions : list Version :=
  [MkVersion DEFAULT_IDENTIFIER_VERSION [DEFAULT_FEATURES_VERSION_ORDER_ORDERED; DEFAULT_FEATURES_VERSION_ORDER_UNORDERED]].

(** ** Operators *)

Record ConnectionOpenInitOperator := MkConnectionOpenInitOperator {
  ni_clientId : string; ni_counterparty : Counterparty; ni_versions : list Version; ni_delayPeriod : Z;
}.
Record ConnectionOpenTryOperator := MkConnectionOpenTryOperator {
  nt_clientId : string; nt_counterparty : Counterparty; nt_versions : list Version; nt_delayPeriod : Z;
  nt_counterpartyClientState : string; nt_proofInit : MerkleProof; nt_proofClient : MerkleProof; nt_proofHeight : Height;
}.
Record ConnectionOpenAckOperator := MkConnectionOpenAckOperator {
  na_connectionSequence : string; na_counterpartyClientState : string; na_counterpartyClientStateTypeUrl : string;
  na_counterpartyConnectionID : string; na_proofTry : MerkleProof; na_proofClient : MerkleProof; na_proofHeight : Height;
}.
Record ConnectionOpenConfirmOperator := MkConnectionOpenConfirmOperator {
  nc_connectionSequence : string; nc_proofAck : MerkleProof; nc_proofHeight : Height;
}.

(** ** Message checks *)

Definition parseDelayPeriod (delayPeriod : Z) : result Z :=
  if delayPeriod <? 0 then Err (GrpcInvalidArgument ("Invalid argument: " +:+ quoted "delay_period" +:+ " must be an unsigned integer"))
  else Ok delayPeriod.

Definition check_prefix (field prefix value : string) : result unit :=
  if negb (startsWith (prefix +:+ "-") value) then
    Err (GrpcInvalidArgument ("Invalid argument: " +:+ quoted field +:+ ". Please use the prefix " +:+ quoted (prefix +:+ "-")))
  else Ok tt.

(** [id.replaceAll(`${prefix}-`, '')] *)
Definition without_prefix (prefix value : string) : string :=
  text (remove_all (S (str_length value)) (utf8 (prefix +:+ "-")) (utf8 value)).

(** [Any.encode(data.client_state)] reads a field of the message. *)
Definition encode_any (a : option PAny) : result string :=
  match a with
  | Some a => Ok (hex_encode (encodeMessage a))
  | None => throw "Cannot read properties of undefined (reading 'type_url')"
  end.

(** The counterparty's connection identifier is taken as it comes. *)
Definition validateAndFormatConnectionOpenInitParams (data : PMsgConnectionOpenInit) : result (string * ConnectionOpenInitOperator) :=
  check_signer (ci_signer data) ≫= fun _ =>
  check_prefix "client_id" CLIENT_ID_PREFIX (ci_client_id data) ≫= fun _ =>
  delayPeriod ← parseDelayPeriod (ci_delay_period data);
  let cp := ci_counterparty data in
  Ok (ci_signer data,
      MkConnectionOpenInitOperator (without_prefix CLIENT_ID_PREFIX (ci_client_id data))
        (MkCounterparty (convertString2Hex (pcc_client_id cp)) (pcc_connection_id cp) (toHex (px_key_prefix (pcc_prefix cp))))
        default_versions delayPeriod).

Definition validateAndFormatConnectionOpenTryParams (data : PMsgConnectionOpenTry) : result (string * ConnectionOpenTryOperator) :=
  check_signer (cy_signer data) ≫= fun _ =>
  check_prefix "client_id" CLIENT_ID_PREFIX (cy_client_id data) ≫= fun _ =>
  proofInit ← decodeMessage (cy_proof_init data);
  proofClient ← decodeMessage (cy_proof_client data);
  clientStateAnyHex ← encode_any (cy_client_state data);
  delayPeriod ← parseDelayPeriod (cy_delay_period data);
  let cp := cy_counterparty data in
  Ok (cy_signer data,
      MkConnectionOpenTryOperator (without_prefix CLIENT_ID_PREFIX (cy_client_id data))
        (MkCounterparty (convertString2Hex (pcc_client_id cp)) (convertString2Hex (pcc_connection_id cp))
           (toHex (px_key_prefix (pcc_prefix cp))))
        default_versions delayPeriod clientStateAnyHex (initializeMerkleProof proofInit) (initializeMerkleProof proofClient)
        (height_of (cy_proof_height data))).

Definition validateAndFormatConnectionOpenAckParams (data : PMsgConnectionOpenAck) : result (string * ConnectionOpenAckOperator) :=
  check_signer (ck_signer data) ≫= fun _ =>
  check_prefix "connection_id" CONNECTION_ID_PREFIX (ck_connection_id data) ≫= fun _ =>
  proofTry ← read_proof (ck_proof_try data);
  proofClient ← read_proof (ck_proof_client data);
  let typeUrl := from_option any_type_url "" (ck_client_state data) in
  if decide (typeUrl = "") then
    Err (GrpcInvalidArgument ("Invalid argument: " +:+ quoted "client_state.type_url" +:+ " is required")) else
  clientStateAnyHex ← encode_any (ck_client_state data);
  Ok (ck_signer data,
      MkConnectionOpenAckOperator (without_prefix CONNECTION_ID_PREFIX (ck_connection_id data)) clientStateAnyHex typeUrl
        (convertString2Hex (ck_counterparty_connection_id data)) proofTry proofClient (height_of (ck_proof_height data))).

Definition validateAndFormatConnectionOpenConfirmParams (data : PMsgConnectionOpenConfirm)
  : result (string * ConnectionOpenConfirmOperator) :=
  check_signer (cf_signer data) ≫= fun _ =>
  check_prefix "connection_id" CONNECTION_ID_PREFIX (cf_connection_id data) ≫= fun _ =>
  proofAck ← read_proof (cf_proof_ack data);
  Ok (cf_signer data,
      MkConnectionOpenConfirmOperator (without_prefix CONNECTION_ID_PREFIX (cf_connection_id data)) proofAck
        (height_of (cf_proof_height data))).

(** ** Redeemers ([connection-redeemer.ts]) *)

Inductive MintConnectionRedeemer :=
| MintConnOpenInit
| MintConnOpenTry (client_state : string) (proof_init proof_client : MerkleProof) (proof_height : Height).

Inductive SpendConnectionRedeemer :=
| SpendConnOpenAck
| SpendConnOpenConfirm (proof_ack : MerkleProof) (proof_height : Height).

Definition mint_connection_data (r : MintConnectionRedeemer) : pdata :=
  match r with
  | MintConnOpenInit => p_enum 0
  | MintConnOpenTry c p q h => PConstr 1 [PBytes c; merkle_proof_data p; merkle_proof_data q; height_data h]
  end.

Definition spend_connection_data (r : SpendConnectionRedeemer) : pdata :=
  match r with
  | SpendConnOpenAck => p_enum 0
  | SpendConnOpenConfirm p h => PConstr 1 [merkle_proof_data p; height_data h]
  end.

(** ** What a builder hands over *)

Inductive ConnectionPart :=
| MintConnection (encodedMintConnectionRedeemer : string)
| SpendConnection (connectionUtxo : UTxO) (encodedSpendConnectionRedeemer : string) (verifyProof : option (string * string)).

Record ConnectionTx := MkConnectionTx {
  nx_hostStateUtxo : UTxO;
  nx_encodedHostStateRedeemer : string;
  nx_encodedUpdatedHostStateDatum : string;
  nx_connectionTokenUnit : string;
  nx_clientUtxo : UTxO;
  nx_encodedConnectionDatum : string;
  nx_part : ConnectionPart;
}.

Section connection_service.
Context `{SHA : Sha256} `{L : Lucid} `{CV : ChainView} `{BL : Blake2b} `{S3 : Sha3}.
Context `{EV : EscrowEnv} `{DP : Deployment} `{PE : PacketEnv}.

Definition encode_mintConnectionRedeemer (r : MintConnectionRedeemer) : result string :=
  encode_type "mintConnectionRedeemer" (Data_to true (mint_connection_data r)).
Definition encode_spendConnectionRedeemer (r : SpendConnectionRedeemer) : result string :=
  encode_type "spendConnectionRedeemer" (Data_to true (spend_connection_data r)).
Definition encode_connection (d : ConnectionDatum) : result string := encode_type "connection" (encodeConnectionDatum d).

(** [Buffer.from(await encodeConnectionEndValue(...), 'hex')] *)
Definition connection_value (c : ConnectionEnd) : result bytes := v ← encodeConnectionEndValue c; Ok (hex_decode_prefix v).

(** [decodeDatum(hostStateUtxo.datum!, 'host_state')]: no check that there is a datum. *)
Definition load_host_utxo : M gstate (UTxO * HostStateDatum) :=
  found ← liftR findUtxoAtHostStateNFT;
  match found with
  | None => raise (JsError "Cannot read properties of undefined (reading 'datum')")
  | Some hostStateUtxo => d ← liftR (decode_datum decode_host_state hostStateUtxo); mret (hostStateUtxo, d)
  end.

Definition host_with_connection (h : HostStateDatum) (newRoot : string) : HostStateDatum :=
  let st := hs_state h in
  MkHostStateDatum
    (MkHostState (version st + 1) newRoot (next_client_sequence st) (next_connection_sequence st + 1)
       (next_channel_sequence st) (bound_port st) now)
    (nft_policy h) (deployer h) (shutdown h).

(** ** Open init and open try *)

Record NewConnection := MkNewConnection {
  nn_hostStateUtxo : UTxO; nn_hostStateDatum : HostStateDatum; nn_clientUtxo : UTxO; nn_connectionId : string;
  nn_connectionTokenUnit : string; nn_datum : ConnectionDatum; nn_root : StateRootResult (list string);
}.

(** What both creating builders do up to the new root. *)
Definition new_connection (clientId : string) (connectionEnd : ConnectionEnd) : M gstate NewConnection :=
  '(hostStateUtxo, hostStateDatum) ← load_host_utxo;
  let root := ibc_state_root (hs_state hostStateDatum) in
  ensureTreeAligned root ;;
  clientTokenUnit ← liftR (getClientTokenUnit clientId);
  clientUtxo ← liftR (findUtxoByUnit clientTokenUnit);
  let connectionSequence := next_connection_sequence (hs_state hostStateDatum) in
  let connectionId := "connection-" +:+ pretty connectionSequence in
  '(policy, name) ← liftR (getConnectionTokenUnit connectionSequence);
  connectionEndValue ← liftR (connection_value connectionEnd);
  r ← computeRootWithCreateConnectionUpdate root connectionId connectionEndValue;
  mret (MkNewConnection hostStateUtxo hostStateDatum clientUtxo connectionId (policy +:+ name)
          (MkConnectionDatum connectionEnd (MkAuthToken policy name)) r).

Definition new_connection_tx (n : NewConnection) (mint host datum connection : string) : ConnectionTx :=
  MkConnectionTx (nn_hostStateUtxo n) host datum (nn_connectionTokenUnit n) (nn_clientUtxo n) connection (MintConnection mint).

Definition new_connection_pending (n : NewConnection) : PendingTreeUpdate := MkPending (newRoot (nn_root n)) (commitTree (nn_root n)).

Definition init_connection (op : ConnectionOpenInitOperator) : ConnectionEnd :=
  MkConnectionEnd (convertString2Hex (CLIENT_ID_PREFIX +:+ "-" +:+ ni_clientId op)) (ni_versions op) ConnInit (ni_counterparty op)
    (ni_delayPeriod op).

Definition buildUnsignedConnectionOpenInitTx (op : ConnectionOpenInitOperator) : M gstate (ConnectionTx * string * PendingTreeUpdate) :=
  n ← new_connection (ni_clientId op) (init_connection op);
  let r := nn_root n in
  encodedMintConnectionRedeemer ← liftR (encode_mintConnectionRedeemer MintConnOpenInit);
  encodedHostStateRedeemer ← liftR (encode_host_state_redeemer (CreateConnection (witness r)));
  encodedUpdatedHostStateDatum ← liftR (encode_host_state (host_with_connection (nn_hostStateDatum n) (newRoot r)));
  encodedConnectionDatum ← liftR (encode_connection (nn_datum n));
  mret (new_connection_tx n encodedMintConnectionRedeemer encodedHostStateRedeemer encodedUpdatedHostStateDatum encodedConnectionDatum,
        nn_connectionId n, new_connection_pending n).

Definition try_connection (op : ConnectionOpenTryOperator) : ConnectionEnd :=
  MkConnectionEnd (convertString2Hex (CLIENT_ID_PREFIX +:+ "-" +:+ nt_clientId op)) (nt_versions op) ConnTryOpen (nt_counterparty op)
    (nt_delayPeriod op).

Definition try_redeemer (op : ConnectionOpenTryOperator) : MintConnectionRedeemer :=
  MintConnOpenTry (nt_counterpartyClientState op) (nt_proofInit op) (nt_proofClient op) (nt_proofHeight op).

Definition buildUnsignedConnectionOpenTryTx (op : ConnectionOpenTryOperator) : M gstate (ConnectionTx * string * PendingTreeUpdate) :=
  n ← new_connection (nt_clientId op) (try_connection op);
  let r := nn_root n in
  encodedHostStateRedeemer ← liftR (encode_host_state_redeemer (CreateConnection (witness r)));
  encodedMintConnectionRedeemer ← liftR (encode_mintConnectionRedeemer (try_redeemer op));
  encodedUpdatedHostStateDatum ← liftR (encode_host_state (host_with_connection (nn_hostStateDatum n) (newRoot r)));
  encodedConnectionDatum ← liftR (encode_connection (nn_datum n));
  mret (new_connection_tx n encodedMintConnectionRedeemer encodedHostStateRedeemer encodedUpdatedHostStateDatum encodedConnectionDatum,
        nn_connectionId n, new_connection_pending n).

(** ** Open ack *)

Definition acked_connection (c : ConnectionEnd) (connectionId : string) : ConnectionEnd :=
  MkConnectionEnd (conn_client_id c) (conn_versions c) ConnOpen
    (MkCounterparty (cp_client_id (conn_counterparty c)) connectionId (cp_key_prefix (conn_counterparty c))) (conn_delay_period c).

Definition acked_datum (d : ConnectionDatum) (connectionId : string) : ConnectionDatum :=
  MkConnectionDatum (acked_connection (cnd_state d) connectionId) (cnd_token d).

(** The counterparty's connection end as the proof must show it. *)
Definition counterparty_connection (c : ConnectionEnd) (connectionSequence : string) : PConnectionEnd :=
  MkPConnectionEnd (convertHex2String (cp_client_id (conn_counterparty c)))
    ((fun v => MkPVersion (convertHex2String (identifier v)) (convertHex2String <$> features v)) <$> conn_versions c) STATE_TRYOPEN
    (MkPConnCounterparty (convertHex2String (conn_client_id c)) (CONNECTION_ID_PREFIX +:+ "-" +:+ connectionSequence)
       (MkPMerklePrefix (hex_decode_prefix DEFAULT_MERKLE_PREFIX)))
    (conn_delay_period c).

Definition available_heights (l : list Height) : string :=
  join ", " (height_text <$> take 8 l) +:+ (if bool_decide (8 < length l)%nat then ", ..." else "").
Definition missing_connection_state (l : list Height) (h : Height) : error :=
  GrpcInternal ("Missing consensus state at proof height " +:+ height_text h +:+ ". Available heights: " +:+ available_heights l).
Definition missing_connection_meta (h : Height) : error :=
  GrpcInternal ("Missing processed delay metadata at proof height " +:+ height_text h).

Definition connection_proof (kx : ClientContext) (c : ConsensusState * Z * Z) (op : ConnectionOpenAckOperator) (input : ConnectionDatum)
  : VerifyProofRedeemer :=
  let cp := conn_counterparty (cnd_state (kx_connectionDatum kx)) in
  VerifyMembership
    (verify_params kx c (na_proofHeight op) (na_proofTry op) (connectionPath (convertHex2String (cp_connection_id cp))))
    (toHex (encodeMessage (counterparty_connection (cnd_state input) (na_connectionSequence op)))).

Definition load_connection_datum (connectionSequence : string) : result (string * UTxO * ConnectionDatum) :=
  n ← BigInt connectionSequence;
  '(policy, name) ← getConnectionTokenUnit n;
  connectionUtxo ← findUtxoByUnit (policy +:+ name);
  connectionDatum ← decode_datum decode_connection connectionUtxo;
  Ok (policy +:+ name, connectionUtxo, connectionDatum).

Record OpenAckBuild := MkOpenAckBuild {
  ab_tx : ConnectionTx; ab_clientId : string; ab_counterpartyClientId : string; ab_pending : PendingTreeUpdate;
}.

Definition buildUnsignedConnectionOpenAckTx (op : ConnectionOpenAckOperator) : M gstate OpenAckBuild :=
  '(hostStateUtxo, hostStateDatum) ← load_host_utxo;
  let root := ibc_state_root (hs_state hostStateDatum) in
  ensureTreeAligned root ;;
  getCurrentRoot ;;
  '(connectionTokenUnit, connectionUtxo, connectionDatum) ← liftR (load_connection_datum (na_connectionSequence op));
  let conn := cnd_state connectionDatum in
  clientSequence ← liftR (parseClientSequence (convertHex2String (conn_client_id conn)));
  let updated := acked_datum connectionDatum (na_counterpartyConnectionID op) in
  let connectionId := CONNECTION_ID_PREFIX +:+ "-" +:+ na_connectionSequence op in
  liftR (connection_value conn) ;;
  updatedConnectionEndValue ← liftR (connection_value (cnd_state updated));
  r ← computeRootWithCreateConnectionUpdate root connectionId updatedConnectionEndValue;
  clientTokenUnit ← liftR (getClientTokenUnit clientSequence);
  clientUtxo ← liftR (findUtxoByUnit clientTokenUnit);
  clientDatum ← liftR (decode_datum decode_client clientUtxo);
  let heights := (consensusStates (cld_state clientDatum)).*1 in
  if negb (isValidProofHeight heights (na_proofHeight op)) then raise (invalid_proof_height (na_proofHeight op)) else
  encodedUpdatedConnectionDatum ← liftR (encode_connection updated);
  encodedHostStateRedeemer ← liftR (encode_host_state_redeemer (UpdateConnection (witness r)));
  encodedUpdatedHostStateDatum ← liftR (encode_host_state (updated_host_state hostStateDatum (newRoot r)));
  c ← liftR (consensus_at clientDatum (na_proofHeight op) (missing_connection_state heights (na_proofHeight op))
               (missing_connection_meta (na_proofHeight op)));
  let kx := MkClientContext connectionUtxo updated clientUtxo clientDatum in
  encodedVerifyProofRedeemer ← liftR (encodeVerifyProofRedeemer (connection_proof kx c op connectionDatum));
  encodedSpendConnectionRedeemer ← liftR (encode_spendConnectionRedeemer SpendConnOpenAck);
  mret (MkOpenAckBuild
    (MkConnectionTx hostStateUtxo encodedHostStateRedeemer encodedUpdatedHostStateDatum connectionTokenUnit clientUtxo
       encodedUpdatedConnectionDatum
       (SpendConnection connectionUtxo encodedSpendConnectionRedeemer (Some (verifyProofPolicyId, encodedVerifyProofRedeemer))))
    (convertHex2String (conn_client_id conn)) (convertHex2String (cp_client_id (conn_counterparty conn)))
    (MkPending (newRoot r) (commitTree r))).

(** ** Open confirm *)

Definition confirmed_datum (d : ConnectionDatum) : ConnectionDatum :=
  let c := cnd_state d in
  MkConnectionDatum (MkConnectionEnd (conn_client_id c) (conn_versions c) ConnOpen (conn_counterparty c) (conn_delay_period c)) (cnd_token d).

(** [/^[0-9a-fA-F]+$/.test(id) && id.length % 2 === 0 ? convertHex2String(id) : id] *)
Definition maybe_hex_text (id : string) : string :=
  if is_hex_text id && Nat.even (str_length id) then convertHex2String id else id.

Record OpenConfirmBuild := MkOpenConfirmBuild {
  cb_tx : ConnectionTx; cb_clientId : string; cb_counterpartyClientId : string; cb_counterpartyConnectionId : string;
  cb_pending : PendingTreeUpdate;
}.

Definition buildUnsignedConnectionOpenConfirmTx (op : ConnectionOpenConfirmOperator) : M gstate OpenConfirmBuild :=
  '(hostStateUtxo, hostStateDatum) ← load_host_utxo;
  let root := ibc_state_root (hs_state hostStateDatum) in
  ensureTreeAligned root ;;
  '(connectionTokenUnit, connectionUtxo, connectionDatum) ← liftR (load_connection_datum (nc_connectionSequence op));
  let conn := cnd_state connectionDatum in
  if decide (conn_state conn <> ConnInit) then
    raise (JsError "ConnOpenAck to a Connection not in Init state") else
  clientSequence ← liftR (parseClientSequence (convertHex2String (conn_client_id conn)));
  let updated := confirmed_datum connectionDatum in
  let connectionId := CONNECTION_ID_PREFIX +:+ "-" +:+ nc_connectionSequence op in
  updatedConnectionEndValue ← liftR (connection_value (cnd_state updated));
  r ← computeRootWithCreateConnectionUpdate root connectionId updatedConnectionEndValue;
  clientTokenUnit ← liftR (getClientTokenUnit clientSequence);
  clientUtxo ← liftR (findUtxoByUnit clientTokenUnit);
  encodedSpendConnectionRedeemer ← liftR (encode_spendConnectionRedeemer (SpendConnOpenConfirm (nc_proofAck op) (nc_proofHeight op)));
  encodedUpdatedConnectionDatum ← liftR (encode_connection updated);
  encodedHostStateRedeemer ← liftR (encode_host_state_redeemer (UpdateConnection (witness r)));
  encodedUpdatedHostStateDatum ← liftR (encode_host_state (updated_host_state hostStateDatum (newRoot r)));
  mret (MkOpenConfirmBuild
    (MkConnectionTx hostStateUtxo encodedHostStateRedeemer encodedUpdatedHostStateDatum connectionTokenUnit clientUtxo
       encodedUpdatedConnectionDatum (SpendConnection connectionUtxo encodedSpendConnectionRedeemer None))
    (convertHex2String (conn_client_id conn)) (convertHex2String (cp_client_id (conn_counterparty conn)))
    (maybe_hex_text (cp_connection_id (conn_counterparty conn))) (MkPending (newRoot r) (commitTree r))).

End connection_service.
