(* ===== verification/TxAssembly.v ===== *)
(** * Transaction assembly ([shared/modules/lucid/lucid.service.ts], [helpers/send-packet.helper.ts])

    Every builder of the services ends in a [createUnsigned...] method, which turns the
    record it is handed into a sequence of calls on a fresh Lucid transaction builder:
    reference inputs, spent inputs with their redeemers, minted assets, outputs.  The
    builder object is Lucid's; what the code contributes is the sequence of calls, so a
    [TxBuilder] is the list of calls made so far.  What the calls mean for the ledger is
    read off the list: [spent], [outputs], [minted].

    A UTxO of this model has no datum hash, so the copies the code makes to drop it
    ([hostStateUtxoWithRawDatum] and the like) are the UTxO itself. *)

From Stdlib Require Import ZArith Lia.
From S2P Require Import Prelude JsMap JsString Hex MerkleTree Datum StateRoot PacketHelpers TreeRebuild EscrowShard Voucher Redeemers PacketDenom PacketOps ProofMessages MessageValidate ChannelOps ConnectionOps.

#[local] Open Scope Z_scope.

Definition Assets : Type := jsmap string Z.

(** [assets[unit] ?? 0n] *)
Definition amount (a : Assets) (unit : string) : Z := default 0 (map_get a unit).

(** ** Calls on the transaction builder *)

Inductive TxCall :=
| ReadFrom (utxos : list UTxO)
| CollectFrom (utxos : list UTxO) (redeemer : option string)
| MintAssets (assets : Assets) (redeemer : string)
| PayToContract (address : string) (outputDatum : option string) (assets : Assets)
| PayToAddress (address : string) (assets : Assets)
| AddSignerKey (keyHash : string).

Definition TxBuilder : Type := list TxCall.
Definition newTxBuilder : TxBuilder := [].

Definition readFrom (utxos : list UTxO) (tx : TxBuilder) : TxBuilder := tx ++ [ReadFrom utxos].
Definition collectFrom (utxos : list UTxO) (redeemer : string) (tx : TxBuilder) : TxBuilder := tx ++ [CollectFrom utxos (Some redeemer)].
Definition collectPlain (utxos : list UTxO) (tx : TxBuilder) : TxBuilder := tx ++ [CollectFrom utxos None].
Definition mintAssets (a : Assets) (redeemer : string) (tx : TxBuilder) : TxBuilder := tx ++ [MintAssets a redeemer].
Definition payToContract (address : string) (outputDatum : option string) (a : Assets) (tx : TxBuilder) : TxBuilder :=
  tx ++ [PayToContract address outputDatum a].
Definition payToAddress (address : string) (a : Assets) (tx : TxBuilder) : TxBuilder := tx ++ [PayToAddress address a].
Definition addSignerKey (k : string) (tx : TxBuilder) : TxBuilder := tx ++ [AddSignerKey k].

(** Method chaining. *)
Declare Scope tx_scope.
Delimit Scope tx_scope with tx.
Notation "t '▷' f" := (f t) (at level 50, left associativity, only parsing) : tx_scope.
#[local] Open Scope tx_scope.

(** ** What the calls mean *)

Definition call_spent (c : TxCall) : list (UTxO * option string) :=
  match c with CollectFrom us r => (fun u => (u, r)) <$> us | _ => [] end.
Definition call_minted (c : TxCall) : list (Assets * string) :=
  match c with MintAssets a r => [(a, r)] | _ => [] end.

Record TxOutput := MkTxOutput { out_address : string; out_datum : option string; out_assets : Assets }.
Definition call_outputs (c : TxCall) : list TxOutput :=
  match c with
  | PayToContract a d v => [MkTxOutput a d v]
  | PayToAddress a v => [MkTxOutput a None v]
  | _ => []
  end.
Definition call_read (c : TxCall) : list UTxO := match c with ReadFrom us => us | _ => [] end.

Definition spent (tx : TxBuilder) : list (UTxO * option string) := tx ≫= call_spent.
Definition minted (tx : TxBuilder) : list (Assets * string) := tx ≫= call_minted.
Definition outputs (tx : TxBuilder) : list TxOutput := tx ≫= call_outputs.
Definition reference_inputs (tx : TxBuilder) : list UTxO := tx ≫= call_read.

(** ** Configuration: validator addresses and deployed reference scripts *)

Class AssemblyConfig := {
  hostStateSttAddress : string;
  spendClientAddress : string;
  spendConnectionAddress : string;
  traceRegistryAddress : option string;
  rs_hostStateStt : UTxO; rs_spendClient : UTxO; rs_mintClient : UTxO; rs_mintConnection : UTxO; rs_spendConnection : UTxO;
  rs_mintChannel : UTxO; rs_spendChannel : UTxO; rs_channelOpenAck : UTxO; rs_channelOpenConfirm : UTxO;
  rs_channelCloseInit : UTxO; rs_channelCloseConfirm : UTxO; rs_receivePacket : UTxO; rs_sendPacket : UTxO; rs_ackPacket : UTxO;
  rs_timeoutPacket : UTxO; rs_prunePacketHistory : UTxO; rs_verifyProof : UTxO; rs_spendTransferModule : UTxO;
  rs_spendMockModule : option UTxO; rs_mintVoucher : UTxO; rs_mintTransferEscrowShard : UTxO; rs_mintIdentifier : UTxO;
  rs_spendTraceRegistry : option UTxO;
}.

(** ** [send-packet.helper.ts] *)

Definition calculateTransferToken (a : Assets) (transferAmount : Z) (denom : string) : Z := amount a denom + transferAmount.

Definition updateTransferModuleAssets (a : Assets) (transferAmount : Z) (denom : string) : Assets :=
  List.filter (fun kv => negb (kv.2 =? 0)) (map_set a denom (calculateTransferToken a transferAmount denom)).

Section assembly.
Context `{L : Lucid} `{EV : EscrowEnv} `{DP : Deployment} `{AC : AssemblyConfig}.

(** [encodeAuthToken] *)
Definition encodeAuthToken (t : AuthToken) : result string := Data_to true (auth_token_data t).

Definition host_nft_unit : string := policyId hostStateNFT +:+ token_name hostStateNFT.

(** The two calls every transaction makes for the HostState. *)
Definition collect_host (u : UTxO) (redeemer : string) : TxBuilder -> TxBuilder := collectFrom [u] redeemer.
Definition pay_host (encodedUpdatedHostStateDatum : string) : TxBuilder -> TxBuilder :=
  payToContract hostStateSttAddress (Some encodedUpdatedHostStateDatum) [(host_nft_unit, 1)].

(** ** Clients and heartbeat *)

Definition createUnsignedUpdateClientTransaction (hostStateUtxo : UTxO) (encodedHostStateRedeemer : string) (currentClientUtxo : UTxO)
    (encodedSpendClientRedeemer encodedUpdatedHostStateDatum encodedNewClientDatum clientTokenUnit : string) : TxBuilder :=
  newTxBuilder ▷ readFrom [rs_hostStateStt; rs_spendClient]
    ▷ collect_host hostStateUtxo encodedHostStateRedeemer
    ▷ collectFrom [currentClientUtxo] encodedSpendClientRedeemer
    ▷ pay_host encodedUpdatedHostStateDatum
    ▷ payToContract spendClientAddress (Some encodedNewClientDatum) [(clientTokenUnit, 1)].

Definition createUnsignedHostStateHeartbeatTransaction (hostStateUtxo : UTxO)
    (encodedHostStateRedeemer encodedUpdatedHostStateDatum signerKeyHash : string) : TxBuilder :=
  newTxBuilder ▷ readFrom [rs_hostStateStt]
    ▷ collect_host hostStateUtxo encodedHostStateRedeemer
    ▷ pay_host encodedUpdatedHostStateDatum
    ▷ addSignerKey signerKeyHash.

Definition createUnsignedCreateClientTransaction (hostStateUtxo : UTxO)
    (encodedHostStateRedeemer clientAuthTokenUnit encodedMintClientRedeemer encodedUpdatedHostStateDatum encodedClientDatum : string)
  : TxBuilder :=
  newTxBuilder ▷ readFrom [rs_hostStateStt; rs_mintClient]
    ▷ collect_host hostStateUtxo encodedHostStateRedeemer
    ▷ mintAssets [(clientAuthTokenUnit, 1)] encodedMintClientRedeemer
    ▷ pay_host encodedUpdatedHostStateDatum
    ▷ payToContract spendClientAddress (Some encodedClientDatum) [(clientAuthTokenUnit, 1)].

(** ** Connections *)

Definition pay_connection (t : ConnectionTx) : TxBuilder -> TxBuilder :=
  payToContract spendConnectionAddress (Some (nx_encodedConnectionDatum t)) [(nx_connectionTokenUnit t, 1)].

Definition createUnsignedConnectionOpenInitTransaction (t : ConnectionTx) (encodedMintConnectionRedeemer : string) : TxBuilder :=
  newTxBuilder ▷ readFrom [rs_mintConnection; rs_hostStateStt]
    ▷ collect_host (nx_hostStateUtxo t) (nx_encodedHostStateRedeemer t)
    ▷ mintAssets [(nx_connectionTokenUnit t, 1)] encodedMintConnectionRedeemer
    ▷ readFrom [nx_clientUtxo t]
    ▷ pay_host (nx_encodedUpdatedHostStateDatum t)
    ▷ pay_connection t.

Definition createUnsignedConnectionOpenTryTransaction (t : ConnectionTx) (encodedMintConnectionRedeemer : string) : TxBuilder :=
  newTxBuilder ▷ readFrom [rs_mintConnection; rs_hostStateStt]
    ▷ collect_host (nx_hostStateUtxo t) (nx_encodedHostStateRedeemer t)
    ▷ mintAssets [(nx_connectionTokenUnit t, 1)] encodedMintConnectionRedeemer
    ▷ readFrom [nx_clientUtxo t]
    ▷ pay_host (nx_encodedUpdatedHostStateDatum t)
    ▷ pay_connection t.

Definition createUnsignedConnectionOpenAckTransaction (t : ConnectionTx) (connectionUtxo : UTxO)
    (encodedSpendConnectionRedeemer verifyProofPolicyId encodedVerifyProofRedeemer : string) : TxBuilder :=
  newTxBuilder ▷ readFrom [rs_spendConnection; rs_verifyProof; rs_hostStateStt]
    ▷ collect_host (nx_hostStateUtxo t) (nx_encodedHostStateRedeemer t)
    ▷ collectFrom [connectionUtxo] encodedSpendConnectionRedeemer
    ▷ readFrom [nx_clientUtxo t]
    ▷ pay_host (nx_encodedUpdatedHostStateDatum t)
    ▷ pay_connection t
    ▷ mintAssets [(verifyProofPolicyId, 1)] encodedVerifyProofRedeemer.

Definition createUnsignedConnectionOpenConfirmTransaction (t : ConnectionTx) (connectionUtxo : UTxO)
    (encodedSpendConnectionRedeemer : string) : TxBuilder :=
  newTxBuilder ▷ readFrom [rs_spendConnection; rs_hostStateStt]
    ▷ collect_host (nx_hostStateUtxo t) (nx_encodedHostStateRedeemer t)
    ▷ collectFrom [connectionUtxo] encodedSpendConnectionRedeemer
    ▷ readFrom [nx_clientUtxo t]
    ▷ pay_host (nx_encodedUpdatedHostStateDatum t)
    ▷ pay_connection t.

(** ** Modules and escrow shards *)

Definition module_key_text (k : GatewayModuleKey) : string :=
  match k with key_transfer => "transfer" | key_mock => "mock" | key_icq => "icq" end.

Definition getModuleReferenceScript (k : GatewayModuleKey) : result UTxO :=
  match k with
  | key_transfer => Ok rs_spendTransferModule
  | _ => match rs_spendMockModule with
         | Some u => Ok u
         | None => Err (GrpcInternal ("Missing reference script for module " +:+ module_key_text k))
         end
  end.

Definition getModuleAddress (k : GatewayModuleKey) : result string :=
  let missing := Err (GrpcInternal ("Missing deployment module for " +:+ module_key_text k)) in
  match k with
  | key_transfer => Ok transferModuleAddress
  | key_mock => match mockModule with Some (_, a) => Ok a | None => missing end
  | key_icq => match icqModule with Some (_, a) => Ok a | None => missing end
  end.

(** The empty text is no datum. *)
Definition present (o : option string) : option string := match o with Some "" => None | _ => o end.

Definition payModuleUtxo (k : GatewayModuleKey) (moduleUtxo : UTxO) (encodedUpdatedModuleDatum : option string) (tx : TxBuilder)
  : result TxBuilder :=
  moduleAddress ← getModuleAddress k;
  let outputDatum := match encodedUpdatedModuleDatum with Some d => Some d | None => datum moduleUtxo end in
  Ok (tx ▷ payToContract moduleAddress (present outputDatum) (assets moduleUtxo)).

Definition requireTransferEscrowDatum (encodedTransferEscrowDatum : option string) : result string :=
  match present encodedTransferEscrowDatum with
  | Some d => Ok d
  | None => Err (GrpcInternal "Transfer escrow datum is required for sharded escrow updates")
  end.

Definition requireTransferEscrowUtxo (transferEscrowUtxo : option UTxO) : result UTxO :=
  match transferEscrowUtxo with
  | Some u => Ok u
  | None => Err (GrpcInternal "Transfer escrow shard UTxO is required for native unescrow/refund")
  end.

(** The assets of the escrow shard after the transfer. *)
Definition escrow_delta_assets (transferAmount : Z) (denomToken : string) (transferEscrowUtxo : option UTxO)
    (transferEscrowShardTokenUnit : option string) : Assets :=
  let updated := updateTransferModuleAssets (from_option assets [] transferEscrowUtxo) transferAmount denomToken in
  match present transferEscrowShardTokenUnit, transferEscrowUtxo with
  | Some unit, None => map_set updated unit (amount updated unit + 1)
  | _, _ => updated
  end.

Definition payTransferEscrowDelta (moduleAddress encodedTransferEscrowDatum : string) (transferAmount : Z) (denomToken : string)
    (transferEscrowUtxo : option UTxO) (transferEscrowShardTokenUnit : option string) (tx : TxBuilder) : TxBuilder :=
  let updatedAssets := escrow_delta_assets transferAmount denomToken transferEscrowUtxo transferEscrowShardTokenUnit in
  let targetAmount := amount updatedAssets denomToken in
  let keepsNonLovelace := existsb (fun unit => negb (bool_decide (unit = "lovelace"))) (map_keys updatedAssets) in
  if (targetAmount <=? 0) && negb keepsNonLovelace then tx
  else tx ▷ payToContract moduleAddress (Some encodedTransferEscrowDatum) updatedAssets.

(** ** Channels *)

Definition pay_channel_end (t : ChannelTx) : TxBuilder -> TxBuilder :=
  payToContract spendChannelAddress (Some (ct_encodedChannelDatum t)) [(ct_channelTokenUnit t, 1)].

Definition createUnsignedChannelOpenInitTransaction (t : ChannelTx) (encodedMintChannelRedeemer : string) : result TxBuilder :=
  moduleScript ← getModuleReferenceScript (ct_moduleKey t);
  payModuleUtxo (ct_moduleKey t) (ct_moduleUtxo t) None
   (newTxBuilder ▷ readFrom [rs_mintChannel; moduleScript; rs_hostStateStt]
    ▷ collect_host (ct_hostStateUtxo t) (ct_encodedHostStateRedeemer t)
    ▷ collectFrom [ct_moduleUtxo t] (ct_encodedSpendModuleRedeemer t)
    ▷ mintAssets [(ct_channelTokenUnit t, 1)] encodedMintChannelRedeemer
    ▷ readFrom [ct_connectionUtxo t; ct_clientUtxo t]
    ▷ pay_host (ct_encodedUpdatedHostStateDatum t)
    ▷ pay_channel_end t).

Definition createUnsignedChannelOpenTryTransaction (t : ChannelTx) (encodedMintChannelRedeemer : string) : result TxBuilder :=
  moduleScript ← getModuleReferenceScript (ct_moduleKey t);
  payModuleUtxo (ct_moduleKey t) (ct_moduleUtxo t) None
   (newTxBuilder ▷ collect_host (ct_hostStateUtxo t) (ct_encodedHostStateRedeemer t)
    ▷ collectFrom [ct_moduleUtxo t] (ct_encodedSpendModuleRedeemer t)
    ▷ readFrom [rs_mintChannel; moduleScript; rs_hostStateStt]
    ▷ mintAssets [(ct_channelTokenUnit t, 1)] encodedMintChannelRedeemer
    ▷ readFrom [ct_connectionUtxo t; ct_clientUtxo t]
    ▷ pay_host (ct_encodedUpdatedHostStateDatum t)
    ▷ pay_channel_end t).

(** Open ack, open confirm and close confirm differ in the script of the operation. *)
Definition continue_channel_with_proof (operationScript : UTxO) (t : ChannelTx) (channelUtxo : UTxO)
    (encodedSpendChannelRedeemer operationPolicyId : string) (channelToken : AuthToken)
    (verifyProofPolicyId encodedVerifyProofRedeemer : string) : result TxBuilder :=
  moduleScript ← getModuleReferenceScript (ct_moduleKey t);
  encodedToken ← encodeAuthToken channelToken;
  payModuleUtxo (ct_moduleKey t) (ct_moduleUtxo t) None
   (newTxBuilder ▷ readFrom [rs_spendChannel; moduleScript; operationScript; rs_verifyProof; rs_hostStateStt]
    ▷ collect_host (ct_hostStateUtxo t) (ct_encodedHostStateRedeemer t)
    ▷ collectFrom [channelUtxo] encodedSpendChannelRedeemer
    ▷ collectFrom [ct_moduleUtxo t] (ct_encodedSpendModuleRedeemer t)
    ▷ readFrom [ct_connectionUtxo t; ct_clientUtxo t]
    ▷ pay_host (ct_encodedUpdatedHostStateDatum t)
    ▷ pay_channel_end t
    ▷ mintAssets [(operationPolicyId, 1)] encodedToken
    ▷ mintAssets [(verifyProofPolicyId, 1)] encodedVerifyProofRedeemer).

Definition createUnsignedChannelOpenAckTransaction := continue_channel_with_proof rs_channelOpenAck.
Definition createUnsignedChannelOpenConfirmTransaction := continue_channel_with_proof rs_channelOpenConfirm.
Definition createUnsignedChannelCloseConfirmTransaction := continue_channel_with_proof rs_channelCloseConfirm.

Definition createUnsignedChannelCloseInitTransaction (t : ChannelTx) (channelUtxo : UTxO)
    (encodedSpendChannelRedeemer operationPolicyId : string) (channelToken : AuthToken) : result TxBuilder :=
  moduleScript ← getModuleReferenceScript (ct_moduleKey t);
  encodedToken ← encodeAuthToken channelToken;
  payModuleUtxo (ct_moduleKey t) (ct_moduleUtxo t) None
   (newTxBuilder ▷ readFrom [rs_spendChannel; moduleScript; rs_channelCloseInit; rs_hostStateStt]
    ▷ collectFrom [ct_moduleUtxo t] (ct_encodedSpendModuleRedeemer t)
    ▷ collect_host (ct_hostStateUtxo t) (ct_encodedHostStateRedeemer t)
    ▷ collectFrom [channelUtxo] encodedSpendChannelRedeemer
    ▷ readFrom [ct_connectionUtxo t; ct_clientUtxo t]
    ▷ pay_host (ct_encodedUpdatedHostStateDatum t)
    ▷ pay_channel_end t
    ▷ mintAssets [(operationPolicyId, 1)] encodedToken).

(** ** Packets *)

Definition collect_channel (t : PacketTx) : TxBuilder -> TxBuilder := collectFrom [tx_channelUtxo t] (tx_encodedSpendChannelRedeemer t).
Definition pay_channel (t : PacketTx) : TxBuilder -> TxBuilder :=
  payToContract spendChannelAddress (Some (tx_encodedUpdatedChannelDatum t)) [(tx_channelTokenUnit t, 1)].
Definition collect_packet_host (t : PacketTx) : TxBuilder -> TxBuilder := collect_host (tx_hostStateUtxo t) (tx_encodedHostStateRedeemer t).
Definition pay_packet_host (t : PacketTx) : TxBuilder -> TxBuilder := pay_host (tx_encodedUpdatedHostStateDatum t).
Definition mint_operation (t : PacketTx) (encodedToken : string) : TxBuilder -> TxBuilder := mintAssets [(tx_packetPolicyId t, 1)] encodedToken.
Definition mint_proof (p : string * string) : TxBuilder -> TxBuilder := mintAssets [(p.1, 1)] p.2.
Definition read_connection (t : PacketTx) : TxBuilder -> TxBuilder := readFrom [tx_connectionUtxo t; tx_clientUtxo t].

Definition createUnsignedRecvPacketTx (t : PacketTx) (verifyProof : string * string) : result TxBuilder :=
  encodedToken ← encodeAuthToken (tx_channelToken t);
  Ok (newTxBuilder ▷ readFrom [rs_spendChannel; rs_receivePacket; rs_verifyProof; rs_hostStateStt]
    ▷ collect_packet_host t ▷ collect_channel t ▷ read_connection t ▷ pay_packet_host t ▷ pay_channel t
    ▷ mint_operation t encodedToken ▷ mint_proof verifyProof).

Definition createUnsignedPrunePacketHistoryTx (t : PacketTx) (verifyProof : string * string) : result TxBuilder :=
  encodedToken ← encodeAuthToken (tx_channelToken t);
  Ok (newTxBuilder ▷ readFrom [rs_spendChannel; rs_prunePacketHistory; rs_verifyProof; rs_hostStateStt]
    ▷ collect_packet_host t ▷ collect_channel t ▷ read_connection t ▷ pay_packet_host t ▷ pay_channel t
    ▷ mint_operation t encodedToken ▷ mint_proof verifyProof).

Definition createUnsignedRecvPacketModuleTx (t : PacketTx) (verifyProof : string * string) (moduleKey : GatewayModuleKey)
    (moduleUtxo : UTxO) (encodedSpendModuleRedeemer : string) : result TxBuilder :=
  moduleScript ← getModuleReferenceScript moduleKey;
  encodedToken ← encodeAuthToken (tx_channelToken t);
  payModuleUtxo moduleKey moduleUtxo None
   (newTxBuilder ▷ readFrom [rs_spendChannel; moduleScript; rs_receivePacket; rs_verifyProof; rs_hostStateStt]
    ▷ collect_packet_host t ▷ collect_channel t ▷ collectFrom [moduleUtxo] encodedSpendModuleRedeemer
    ▷ read_connection t ▷ pay_packet_host t ▷ pay_channel t
    ▷ mint_operation t encodedToken ▷ mint_proof verifyProof).

(** The only module transaction that pays the module's output itself, without a datum. *)
Definition createUnsignedAckPacketModuleTx (t : PacketTx) (verifyProof : string * string) (moduleKey : GatewayModuleKey)
    (moduleUtxo : UTxO) (encodedSpendModuleRedeemer : string) : result TxBuilder :=
  moduleScript ← getModuleReferenceScript moduleKey;
  moduleAddress ← getModuleAddress moduleKey;
  encodedToken ← encodeAuthToken (tx_channelToken t);
  Ok (newTxBuilder ▷ readFrom [rs_spendChannel; moduleScript; rs_ackPacket; rs_verifyProof; rs_hostStateStt]
    ▷ collect_packet_host t ▷ collect_channel t ▷ collectFrom [moduleUtxo] encodedSpendModuleRedeemer
    ▷ read_connection t ▷ pay_packet_host t ▷ pay_channel t
    ▷ payToContract moduleAddress None (assets moduleUtxo)
    ▷ mint_operation t encodedToken ▷ mint_proof verifyProof).

Definition createUnsignedSendPacketModuleTx (t : PacketTx) (moduleKey : GatewayModuleKey) (moduleUtxo : UTxO)
    (encodedSpendModuleRedeemer : string) : result TxBuilder :=
  moduleScript ← getModuleReferenceScript moduleKey;
  encodedToken ← encodeAuthToken (tx_channelToken t);
  payModuleUtxo moduleKey moduleUtxo None
   (newTxBuilder ▷ readFrom [rs_spendChannel; moduleScript; rs_sendPacket; rs_hostStateStt]
    ▷ collect_packet_host t ▷ collect_channel t ▷ collectFrom [moduleUtxo] encodedSpendModuleRedeemer
    ▷ read_connection t ▷ pay_packet_host t ▷ pay_channel t
    ▷ mint_operation t encodedToken).

Definition createUnsignedAckPacketSucceedTx (t : PacketTx) (verifyProof : string * string) (transferModuleReferenceUtxo : UTxO)
    (encodedSpendTransferModuleRedeemer : string) : result TxBuilder :=
  encodedToken ← encodeAuthToken (tx_channelToken t);
  payModuleUtxo key_transfer transferModuleReferenceUtxo None
   (newTxBuilder ▷ readFrom [rs_spendChannel; rs_spendTransferModule; rs_ackPacket; rs_verifyProof; rs_hostStateStt]
    ▷ collect_packet_host t ▷ collect_channel t
    ▷ collectFrom [transferModuleReferenceUtxo] encodedSpendTransferModuleRedeemer
    ▷ read_connection t ▷ pay_packet_host t ▷ pay_channel t
    ▷ mint_operation t encodedToken ▷ mint_proof verifyProof).

(** Releases from escrow: receive, acknowledgement and timeout differ in the script of
    the operation and in the order of the reference inputs. *)
Definition unescrow_tx (operationScript : UTxO) (references : list UTxO) (t : PacketTx) (verifyProof : string * string)
    (transferEscrowUtxo : option UTxO) (encodedSpendTransferModuleRedeemer : string) (encodedTransferEscrowDatum : option string)
    (transferEscrowShardTokenUnit : option string) (transferAmount : Z) (denomToken address : string) : result TxBuilder :=
  escrowUtxo ← requireTransferEscrowUtxo transferEscrowUtxo;
  encodedToken ← encodeAuthToken (tx_channelToken t);
  escrowDatum ← requireTransferEscrowDatum encodedTransferEscrowDatum;
  Ok (newTxBuilder ▷ readFrom [rs_spendChannel; rs_spendTransferModule; operationScript; rs_verifyProof; rs_hostStateStt]
    ▷ collect_packet_host t ▷ collect_channel t
    ▷ collectFrom [escrowUtxo] encodedSpendTransferModuleRedeemer
    ▷ readFrom references ▷ pay_packet_host t ▷ pay_channel t
    ▷ payToAddress address [(denomToken, transferAmount)]
    ▷ mint_operation t encodedToken ▷ mint_proof verifyProof
    ▷ payTransferEscrowDelta transferModuleAddress escrowDatum (- transferAmount) denomToken (Some escrowUtxo)
        transferEscrowShardTokenUnit).

Definition createUnsignedRecvPacketUnescrowTx (t : PacketTx) (moduleReferenceUtxo : UTxO) :=
  unescrow_tx rs_receivePacket [tx_connectionUtxo t; tx_clientUtxo t; moduleReferenceUtxo] t.
Definition createUnsignedAckPacketUnescrowTx (t : PacketTx) (moduleReferenceUtxo : UTxO) :=
  unescrow_tx rs_ackPacket [moduleReferenceUtxo; tx_connectionUtxo t; tx_clientUtxo t] t.
Definition createUnsignedTimeoutPacketUnescrowTx (t : PacketTx) (moduleReferenceUtxo : UTxO) :=
  unescrow_tx rs_timeoutPacket [moduleReferenceUtxo; tx_connectionUtxo t; tx_clientUtxo t] t.

(** ** Vouchers *)

Definition applyTraceRegistryUpdate (update : option TraceRegistryInsertContext) (tx : TxBuilder) : result TxBuilder :=
  match update with
  | None => Ok tx
  | Some (TraceExisting witnesses) => Ok (tx ▷ readFrom witnesses)
  | Some c =>
      match present traceRegistryAddress with
      | None => Err (GrpcInternal "Trace registry address is missing from deployment config")
      | Some address =>
          match rs_spendTraceRegistry with
          | None => Err (GrpcInternal "Trace registry reference script is missing from deployment config")
          | Some script =>
              Ok match c with
              | TraceExisting _ => tx
              | TraceAppend directoryUtxo shardUtxo archived encodedRedeemer encodedUpdatedDatum =>
                  tx ▷ readFrom (script :: directoryUtxo :: archived)
                     ▷ collectFrom [shardUtxo] encodedRedeemer
                     ▷ payToContract address (Some encodedUpdatedDatum) (assets shardUtxo)
              | TraceRollover directoryUtxo shardUtxo archived mintNonceUtxo encodedDirectoryRedeemer encodedUpdatedDirectoryDatum
                  encodedRedeemer encodedArchivedDatum encodedNewActiveDatum newActiveShardTokenUnit encodedMintIdentifierRedeemer =>
                  tx ▷ readFrom (script :: rs_mintIdentifier :: archived)
                     ▷ collectFrom [directoryUtxo] encodedDirectoryRedeemer
                     ▷ collectFrom [shardUtxo] encodedRedeemer
                     ▷ collectPlain [mintNonceUtxo]
                     ▷ mintAssets [(newActiveShardTokenUnit, 1)] encodedMintIdentifierRedeemer
                     ▷ payToContract address (Some encodedUpdatedDirectoryDatum) (assets directoryUtxo)
                     ▷ payToContract address (Some encodedArchivedDatum) (assets shardUtxo)
                     ▷ payToContract address (Some encodedNewActiveDatum) [(newActiveShardTokenUnit, 1)]
              end
          end
      end
  end.

Definition isFirstSeenVoucher (update : option TraceRegistryInsertContext) : bool :=
  match update with None | Some (TraceExisting _) => false | Some _ => true end.

Definition mintVoucherAssets (d : VoucherMintDetails) (transferAmount : Z) (firstSeen : bool) : Assets :=
  if firstSeen then map_of_entries [(md_voucherTokenUnit d, transferAmount); (md_voucherReferenceTokenUnit d, 1)]
  else [(md_voucherTokenUnit d, transferAmount)].

(** The CIP-68 reference output of a first mint. *)
Definition pay_metadata (d : VoucherMintDetails) (tx : TxBuilder) : result TxBuilder :=
  if bool_decide (md_voucherMetadataAddress d = "" \/ md_encodedVoucherMetadataDatum d = "" \/ md_voucherReferenceTokenUnit d = "")
  then Err (GrpcInternal "Missing CIP-68 voucher metadata output fields for first-seen voucher mint")
  else Ok (tx ▷ payToContract (md_voucherMetadataAddress d) (Some (md_encodedVoucherMetadataDatum d))
                  [(md_voucherReferenceTokenUnit d, 1)]).

(** Mints of vouchers: receive, acknowledgement and timeout differ in the script of the
    operation. *)
Definition mint_tx (operationScript : UTxO) (t : PacketTx) (verifyProof : string * string) (transferModuleUtxo : UTxO)
    (encodedSpendTransferModuleRedeemer encodedMintVoucherRedeemer : string) (d : VoucherMintDetails) (transferAmount : Z)
    (address : string) (update : option TraceRegistryInsertContext) : result TxBuilder :=
  let firstSeen := isFirstSeenVoucher update in
  tx ← applyTraceRegistryUpdate update
    (newTxBuilder ▷ readFrom [rs_spendChannel; rs_spendTransferModule; rs_mintVoucher; operationScript; rs_verifyProof; rs_hostStateStt]);
  encodedToken ← encodeAuthToken (tx_channelToken t);
  tx ← payModuleUtxo key_transfer transferModuleUtxo None
    (tx ▷ collect_packet_host t ▷ collect_channel t
      ▷ collectFrom [transferModuleUtxo] encodedSpendTransferModuleRedeemer
      ▷ read_connection t
      ▷ mintAssets (mintVoucherAssets d transferAmount firstSeen) encodedMintVoucherRedeemer
      ▷ pay_packet_host t ▷ pay_channel t
      ▷ payToAddress address [(md_voucherTokenUnit d, transferAmount)]
      ▷ mint_operation t encodedToken ▷ mint_proof verifyProof);
  if firstSeen then pay_metadata d tx else Ok tx.

Definition createUnsignedRecvPacketMintTx := mint_tx rs_receivePacket.
Definition createUnsignedAckPacketMintTx := mint_tx rs_ackPacket.
Definition createUnsignedTimeoutPacketMintTx := mint_tx rs_timeoutPacket.

Definition assembleSendPacketBurnTx (t : PacketTx) (transferModuleReferenceUtxo senderVoucherTokenUtxo : UTxO)
    (encodedSpendTransferModuleRedeemer encodedMintVoucherRedeemer voucherTokenUnit : string) (transferAmount : Z) : result TxBuilder :=
  encodedToken ← encodeAuthToken (tx_channelToken t);
  payModuleUtxo key_transfer transferModuleReferenceUtxo None
   (newTxBuilder ▷ readFrom [rs_spendChannel; rs_spendTransferModule; rs_mintVoucher; rs_sendPacket; rs_hostStateStt]
    ▷ collect_packet_host t ▷ collect_channel t
    ▷ collectFrom [transferModuleReferenceUtxo] encodedSpendTransferModuleRedeemer
    ▷ collectPlain [senderVoucherTokenUtxo]
    ▷ read_connection t
    ▷ mintAssets [(voucherTokenUnit, - transferAmount)] encodedMintVoucherRedeemer
    ▷ pay_packet_host t ▷ pay_channel t
    ▷ mint_operation t encodedToken).

(** ** Escrow *)

Definition shard_creation_required : error :=
  GrpcInternal "Transfer module reference UTxO, shard token, and shard mint redeemer are required to create an escrow shard".

(** The shard is spent, or created beside the spent module root. *)
Definition escrow_source (transferModuleReferenceUtxo : UTxO) (transferEscrowUtxo : option UTxO) (encodedSpendTransferModuleRedeemer : string)
    (encodedMintTransferEscrowShardRedeemer encodedUpdatedTransferModuleDatum transferEscrowShardTokenUnit : option string)
    (tx : TxBuilder) : result TxBuilder :=
  match transferEscrowUtxo with
  | Some escrowUtxo =>
      Ok (tx ▷ readFrom [transferModuleReferenceUtxo] ▷ collectFrom [escrowUtxo] encodedSpendTransferModuleRedeemer)
  | None =>
      match present transferEscrowShardTokenUnit, present encodedMintTransferEscrowShardRedeemer,
            present encodedUpdatedTransferModuleDatum with
      | Some unit, Some redeemer, Some newDatum =>
          payModuleUtxo key_transfer transferModuleReferenceUtxo (Some newDatum)
            (tx ▷ collectFrom [transferModuleReferenceUtxo] encodedSpendTransferModuleRedeemer
                ▷ mintAssets [(unit, 1)] redeemer)
      | _, _, _ => Err shard_creation_required
      end
  end.

Definition assembleSendPacketEscrowTx (t : PacketTx) (transferModuleReferenceUtxo : UTxO) (transferEscrowUtxo : option UTxO)
    (walletUtxos : list UTxO) (encodedSpendTransferModuleRedeemer : string)
    (encodedMintTransferEscrowShardRedeemer encodedUpdatedTransferModuleDatum : option string)
    (encodedTransferEscrowDatum transferEscrowShardTokenUnit : option string) (denomToken : string) (transferAmount : Z)
  : result TxBuilder :=
  if bool_decide (walletUtxos = []) then Err (GrpcInternal "Sender wallet UTxOs are required for escrow send packet") else
  encodedToken ← encodeAuthToken (tx_channelToken t);
  tx ← escrow_source transferModuleReferenceUtxo transferEscrowUtxo encodedSpendTransferModuleRedeemer
         encodedMintTransferEscrowShardRedeemer encodedUpdatedTransferModuleDatum transferEscrowShardTokenUnit
         (newTxBuilder ▷ readFrom [rs_spendChannel; rs_spendTransferModule; rs_mintTransferEscrowShard; rs_sendPacket; rs_hostStateStt]
          ▷ collect_packet_host t ▷ collect_channel t ▷ read_connection t
          ▷ pay_packet_host t ▷ pay_channel t
          ▷ mint_operation t encodedToken);
  escrowDatum ← requireTransferEscrowDatum encodedTransferEscrowDatum;
  Ok (tx ▷ payTransferEscrowDelta transferModuleAddress escrowDatum transferAmount denomToken transferEscrowUtxo
             transferEscrowShardTokenUnit).

(** ** Which assembler a builder calls *)

Definition undefined_call : error := JsError "no such transaction".

Inductive ConnectionOperation := ConnInitOp | ConnTryOp | ConnAckOp | ConnConfirmOp.

Definition assemble_connection (op : ConnectionOperation) (t : ConnectionTx) : result TxBuilder :=
  match op, nx_part t with
  | ConnInitOp, MintConnection r => Ok (createUnsignedConnectionOpenInitTransaction t r)
  | ConnTryOp, MintConnection r => Ok (createUnsignedConnectionOpenTryTransaction t r)
  | ConnAckOp, SpendConnection u r (Some (policy, proof)) => Ok (createUnsignedConnectionOpenAckTransaction t u r policy proof)
  | ConnConfirmOp, SpendConnection u r None => Ok (createUnsignedConnectionOpenConfirmTransaction t u r)
  | _, _ => Err undefined_call
  end.

Inductive ChannelOperation := OpenInitOp | OpenTryOp | OpenAckOp | OpenConfirmOp | CloseInitOp | CloseConfirmOp.

Definition assemble_channel (op : ChannelOperation) (t : ChannelTx) : result TxBuilder :=
  match op, ct_part t with
  | OpenInitOp, MintChannel r => createUnsignedChannelOpenInitTransaction t r
  | OpenTryOp, MintChannel r => createUnsignedChannelOpenTryTransaction t r
  | OpenAckOp, SpendChannel u r policy tok (Some (vp, proof)) => createUnsignedChannelOpenAckTransaction t u r policy tok vp proof
  | OpenConfirmOp, SpendChannel u r policy tok (Some (vp, proof)) => createUnsignedChannelOpenConfirmTransaction t u r policy tok vp proof
  | CloseConfirmOp, SpendChannel u r policy tok (Some (vp, proof)) => createUnsignedChannelCloseConfirmTransaction t u r policy tok vp proof
  | CloseInitOp, SpendChannel u r policy tok None => createUnsignedChannelCloseInitTransaction t u r policy tok
  | _, _ => Err undefined_call
  end.

Inductive PacketOperation := RecvOp | AckOp | TimeoutOp | SendOp | PruneOp.

Definition assemble_packet (op : PacketOperation) (t : PacketTx) : result TxBuilder :=
  match op, tx_app t, tx_verifyProof t with
  | RecvOp, NoApp, Some p => createUnsignedRecvPacketTx t p
  | PruneOp, NoApp, Some p => createUnsignedPrunePacketHistoryTx t p
  | RecvOp, ModuleApp k u r, Some p => createUnsignedRecvPacketModuleTx t p k u r
  | AckOp, ModuleApp k u r, Some p => createUnsignedAckPacketModuleTx t p k u r
  | SendOp, ModuleApp k u r, None => createUnsignedSendPacketModuleTx t k u r
  | AckOp, SucceedApp u r _, Some p => createUnsignedAckPacketSucceedTx t p u r
  | RecvOp, UnescrowApp e m r d unit n tok a _, Some p =>
      createUnsignedRecvPacketUnescrowTx t m p (Some e) r (Some d) (Some unit) n tok a
  | AckOp, UnescrowApp e m r d unit n tok a _, Some p =>
      createUnsignedAckPacketUnescrowTx t m p (Some e) r (Some d) (Some unit) n tok a
  | TimeoutOp, UnescrowApp e m r d unit n tok a _, Some p =>
      createUnsignedTimeoutPacketUnescrowTx t m p (Some e) r (Some d) (Some unit) n tok a
  | RecvOp, MintApp m r mr d n a _ tr, Some p => createUnsignedRecvPacketMintTx t p m r mr d n a tr
  | AckOp, MintApp m r mr d n a _ tr, Some p => createUnsignedAckPacketMintTx t p m r mr d n a tr
  | TimeoutOp, MintApp m r mr d n a _ tr, Some p => createUnsignedTimeoutPacketMintTx t p m r mr d n a tr
  | SendOp, BurnApp m v _ r mr unit _ n _ _ _, None => assembleSendPacketBurnTx t m v r mr unit n
  | SendOp, EscrowApp m e w r mr md d unit tok n _ _ _, None => assembleSendPacketEscrowTx t m e w r mr md (Some d) (Some unit) tok n
  | _, _, _ => Err undefined_call
  end.

End assembly.
