(* ===== verification/OnChainConnection.v ===== *)
(** * The validator's connection handshake ([ics-003-connection-semantics/*.ak], [minting_connection_stt.ak], [spending_connection.ak])

    What the connection validators check of a handshake transaction: the new or updated
    datum, and the proof redeemer minted beside it.  As in [OnChainDatum] a byte string
    is its hexadecimal text; where a check looks at the bytes it decodes them. *)

From Stdlib Require Import ZArith Lia.
From S2P Require Import Prelude JsMap JsString Hex Datum OnChainProto PacketHelpers Redeemers OnChainDatum OnChainChannel.

#[local] Open Scope Z_scope.

(** ** Identifiers and versions *)

Definition client_identifier_validator (id : bytes) : bool := default_identifier_validator id 9 64.
Definition connection_identifier_validator (id : bytes) : bool := default_identifier_validator id 10 64.

Definition is_valid_client_id (id : bytes) : bool :=
  bool_decide (take 14 id = utf8 "07-tendermint-") && is_uint_string (drop 14 id).

Definition validate_version (v : Version) : bool :=
  negb (bool_decide (trim_space (raw (identifier v)) = [])) &&
  forallb (fun f => negb (bool_decide (trim_space (raw f) = []))) (features v).

Definition get_supported_orderings : list bytes := [utf8 "ORDER_ORDERED"; utf8 "ORDER_UNORDERED"].
Definition get_compatible_versions : list (bytes * list bytes) := [(utf8 "1", get_supported_orderings)].

(** No identifier allows an empty feature set. *)
Definition verify_proposed_version (version : bytes * list bytes) (proposed : Version) : bool :=
  bool_decide (version.1 = raw (identifier proposed)) && negb (bool_decide (features proposed = [])) &&
  forallb (fun f => bool_decide (raw f ∈ version.2)) (features proposed).

Definition is_supported_version (supported : list (bytes * list bytes)) (proposed : Version) : bool :=
  match list_find (fun v => v.1 = raw (identifier proposed)) supported with
  | Some (_, v) => verify_proposed_version v proposed
  | None => false
  end.

(** ** Datums *)

Definition conn_counterparty_validate_basic (c : Counterparty) : bool :=
  (bool_decide (raw (cp_connection_id c) = []) || connection_identifier_validator (raw (cp_connection_id c))) &&
  client_identifier_validator (raw (cp_client_id c)) && negb (bool_decide (raw (cp_key_prefix c) = [])).

Definition connection_validate_basic (c : ConnectionEnd) : bool :=
  is_valid_client_id (raw (conn_client_id c)) && negb (bool_decide (conn_versions c = [])) &&
  forallb validate_version (conn_versions c) && conn_counterparty_validate_basic (conn_counterparty c).

Definition is_conn_open_init_valid (datum : ConnectionDatum) (auth_token : AuthToken) : bool :=
  let c := cnd_state datum in
  connection_validate_basic c && bool_decide (cnd_token datum = auth_token) &&
  forallb (is_supported_version get_compatible_versions) (conn_versions c) && bool_decide (conn_state c = ConnInit) &&
  bool_decide (raw (cp_connection_id (conn_counterparty c)) = []).

Definition is_conn_open_try_valid (datum : ConnectionDatum) (auth_token : AuthToken) : bool :=
  let c := cnd_state datum in
  connection_validate_basic c && bool_decide (cnd_token datum = auth_token) &&
  forallb (is_supported_version get_compatible_versions) (conn_versions c) && bool_decide (conn_state c = ConnTryOpen) &&
  negb (bool_decide (raw (cp_connection_id (conn_counterparty c)) = [])).

Fixpoint features_equal (output input : list string) : bool :=
  match output, input with
  | [], [] => true
  | o :: os, i :: rest => bool_decide (o = i) && features_equal os rest
  | _, _ => false
  end.
Definition version_equal (output input : Version) : bool :=
  bool_decide (identifier output = identifier input) && features_equal (features output) (features input).
Fixpoint versions_equal (output input : list Version) : bool :=
  match output, input with
  | [], [] => true
  | o :: os, i :: rest => version_equal o i && versions_equal os rest
  | _, _ => false
  end.
Definition counterparty_equal (output input : Counterparty) : bool :=
  bool_decide (cp_client_id output = cp_client_id input) && bool_decide (cp_connection_id output = cp_connection_id input) &&
  bool_decide (cp_key_prefix output = cp_key_prefix input).

Definition is_connection_open_ack_valid (input_datum output_datum : ConnectionDatum) : bool :=
  let i := cnd_state input_datum in let o := cnd_state output_datum in
  let ic := conn_counterparty i in let oc := conn_counterparty o in
  bool_decide (conn_state i = ConnInit) && connection_identifier_validator (raw (cp_connection_id oc)) &&
  bool_decide (cnd_token output_datum = cnd_token input_datum) && bool_decide (conn_client_id o = conn_client_id i) &&
  bool_decide (conn_state o = ConnOpen) && versions_equal (conn_versions o) (conn_versions i) &&
  bool_decide (conn_delay_period o = conn_delay_period i) && bool_decide (cp_client_id oc = cp_client_id ic) &&
  bool_decide (cp_key_prefix oc = cp_key_prefix ic).

Definition is_connection_open_confirm_valid (input_datum output_datum : ConnectionDatum) : bool :=
  let i := cnd_state input_datum in let o := cnd_state output_datum in
  bool_decide (conn_state i = ConnTryOpen) &&
  bool_decide (cnd_token output_datum = cnd_token input_datum) && bool_decide (conn_client_id o = conn_client_id i) &&
  bool_decide (conn_state o = ConnOpen) && versions_equal (conn_versions o) (conn_versions i) &&
  bool_decide (conn_delay_period o = conn_delay_period i) && counterparty_equal (conn_counterparty o) (conn_counterparty i).

(** ** The expected proofs *)

Definition default_merkle_prefix : bytes := utf8 "ibc".
Definition connection_path (connection_id : bytes) : bytes := utf8 "connections" ++ utf8 "/" ++ connection_id.
Definition full_client_state_path (client_id : bytes) : bytes := utf8 "clients" ++ utf8 "/" ++ client_id ++ utf8 "/" ++ utf8 "clientState".

(** The counterparty's end in the given state, as the validators rebuild it. *)
Definition expected_connection (state : ConnectionState) (connection : ConnectionEnd) (connection_id : bytes) : pb_connection :=
  MkPbConnection (raw (cp_client_id (conn_counterparty connection)))
    ((fun v => (raw (identifier v), raw <$> features v)) <$> conn_versions connection) state
    (raw (conn_client_id connection), connection_id, default_merkle_prefix) (conn_delay_period connection).

Definition expected_connection_params (connection : ConnectionEnd) (client : ClientDatumState) (path : bytes) (proof : MerkleProof)
    (proof_height : Height) : option VerifyParams :=
  block_delay ← get_block_delay (conn_delay_period connection);
  merkle_path ← apply_prefix (cp_key_prefix (conn_counterparty connection)) path;
  consensus_state ← get_first (consensusStates client) proof_height;
  processed_time ← get_first (processedTimes client) proof_height;
  processed_height ← get_first (processedHeights client) proof_height;
  Some (MkVerifyParams (clientState client) consensus_state proof_height processed_time processed_height
          (conn_delay_period connection) block_delay proof merkle_path).

Definition remote_connection_path (connection : ConnectionEnd) : bytes :=
  connection_path (raw (cp_connection_id (conn_counterparty connection))).

(** [validate_conn_open_ack_proof]: everything but the proof, at the height the redeemer
    names; the path must have two elements. *)
Definition conn_open_ack_proof_ok (redeemer : option VerifyProofRedeemer) (client : ClientDatumState) (connection_id : bytes)
    (connection : ConnectionEnd) : Prop :=
  exists v, redeemer = Some (VerifyMembership v (hex_encode (marshal_for_connection_end (expected_connection ConnTryOpen connection connection_id)))) /\
    expected_connection_params connection client (remote_connection_path connection) (vp_proof v) (vp_height v) = Some v.

(** [validate_conn_open_confirm_proof] *)
Definition conn_open_confirm_proof_ok (redeemer : option VerifyProofRedeemer) (client : ClientDatumState) (connection_id : bytes)
    (connection : ConnectionEnd) (proof_ack : MerkleProof) (proof_height : Height) : Prop :=
  exists v, redeemer = Some (VerifyMembership v (hex_encode (marshal_for_connection_end (expected_connection ConnOpen connection connection_id)))) /\
    expected_connection_params connection client (remote_connection_path connection) proof_ack proof_height = Some v.

(** [validate_conn_open_try_proof]: the connection end and the client state, in one
    batch redeemer. *)
Definition conn_open_try_proof_ok (redeemer : option VerifyProofRedeemer) (client : ClientDatumState) (connection : ConnectionEnd)
    (counterparty_client_state : string) (proof_init proof_client : MerkleProof) (proof_height : Height) : Prop :=
  exists v w, redeemer = Some (BatchVerifyMembership
      [(v, hex_encode (marshal_for_connection_end (expected_connection ConnInit connection []))); (w, counterparty_client_state)]) /\
    expected_connection_params connection client (remote_connection_path connection) proof_init proof_height = Some v /\
    expected_connection_params connection client
      (full_client_state_path (raw (cp_client_id (conn_counterparty connection)))) proof_client proof_height = Some w.
