(* ===== verification/OnChainHostState.v ===== *)
(** * The HostState validator ([ics-025-handler-interface/host_state.ak], [host_state_stt.ak])

    The rules a new HostState datum must meet against the one spent, one per redeemer;
    the root replay of the two connection redeemers; and the state machine the rules
    make of the chain of HostState datums.  Byte strings are their hexadecimal text. *)

From Stdlib Require Import ZArith Lia.
From S2P Require Import Prelude JsMap JsString Hex MerkleTree OnChainCommitment Datum OnChainProto StateRoot PacketHelpers Redeemers OnChainDatum OnChainChannel.

#[local] Open Scope Z_scope.

#[export] Instance ModuleRegistration_eq_dec : EqDecision ModuleRegistration.
Proof. solve_decision. Defined.
#[export] Instance Shutdown_eq_dec : EqDecision Shutdown.
Proof. solve_decision. Defined.

(** ** Datum rules *)

Definition empty_ibc_state_root : string := zero_root.
Definition max_bound_ports : Z := 10.

Definition is_active (s : Shutdown) : bool := match s with Active => true | ShuttingDown _ _ => false end.
Definition is_shutting_down (s : Shutdown) : bool := negb (is_active s).

Definition is_initialized_valid (datum : HostStateDatum) (expected_nft_policy : string) : bool :=
  let st := hs_state datum in
  (version st =? 0) && (next_client_sequence st =? 0) && (next_connection_sequence st =? 0) && (next_channel_sequence st =? 0) &&
  bool_decide (bound_port st = []) && bool_decide (ibc_state_root st = empty_ibc_state_root) &&
  bool_decide (shutdown datum = Active) && bool_decide (nft_policy datum = expected_nft_policy).

Definition validate_version_increment (old new : HostState) : bool := version new =? version old + 1.

(** The fields no rule but those of ports and shutdown may change. *)
Definition same_authority (old new : HostStateDatum) : bool :=
  bool_decide (nft_policy new = nft_policy old) && bool_decide (deployer new = deployer old).

Definition counters_step (client connection channel : Z) (old new : HostState) : bool :=
  validate_version_increment old new && (next_client_sequence new =? next_client_sequence old + client) &&
  (next_connection_sequence new =? next_connection_sequence old + connection) &&
  (next_channel_sequence new =? next_channel_sequence old + channel).

Definition validate_create (client connection channel : Z) (old new : HostStateDatum) : bool :=
  counters_step client connection channel (hs_state old) (hs_state new) &&
  bool_decide (bound_port (hs_state new) = bound_port (hs_state old)) && is_active (shutdown old) &&
  bool_decide (shutdown new = shutdown old) && same_authority old new.

Definition validate_create_client : HostStateDatum -> HostStateDatum -> bool := validate_create 1 0 0.
Definition validate_create_connection : HostStateDatum -> HostStateDatum -> bool := validate_create 0 1 0.
Definition validate_create_channel : HostStateDatum -> HostStateDatum -> bool := validate_create 0 0 1.

(** [builtin.less_than_bytearray] *)
Fixpoint bytes_lt (a b : bytes) : bool :=
  match a, b with
  | [], _ :: _ => true
  | x :: a', y :: b' => (Byte.to_N x <? Byte.to_N y)%N || bool_decide (x = y) && bytes_lt a' b'
  | _, [] => false
  end.
(** [compare_port_keys_for_insertion]: canonical CBOR orders byte strings by length, then
    by bytes; the length (at most 128) is pushed in front of the bytes. *)
Definition compare_port_keys_less (left right : bytes) : bool :=
  let keyed b := byte_of_N (N.of_nat (length b)) :: b in bytes_lt (keyed left) (keyed right).

(** [pairs.insert_by_ascending_key] *)
Fixpoint insert_by_ascending_key (l : jsmap string ModuleRegistration) (k : string) (v : ModuleRegistration) : jsmap string ModuleRegistration :=
  match l with
  | [] => [(k, v)]
  | (k2, v2) :: rest =>
      if compare_port_keys_less (raw k) (raw k2) then (k, v) :: l
      else if decide (k = k2) then (k, v) :: rest
      else (k2, v2) :: insert_by_ascending_key rest k v
  end.

Definition validate_bind_port (old new : HostStateDatum) (port_id : string) (registration : ModuleRegistration) : bool :=
  let ports := bound_port (hs_state old) in
  negb (bool_decide (port_id ∈ ports.*1)) && (2 <=? blen (raw port_id)) && (blen (raw port_id) <=? 128) &&
  (Z.of_nat (length ports) <? max_bound_ports) && counters_step 0 0 0 (hs_state old) (hs_state new) &&
  bool_decide (bound_port (hs_state new) = insert_by_ascending_key ports port_id registration) && is_active (shutdown old) &&
  bool_decide (shutdown new = shutdown old) && same_authority old new.

Definition validate_update_only_root (old new : HostStateDatum) : bool :=
  counters_step 0 0 0 (hs_state old) (hs_state new) && bool_decide (bound_port (hs_state new) = bound_port (hs_state old)) &&
  bool_decide (shutdown new = shutdown old) && same_authority old new.

Definition validate_heartbeat (old new : HostStateDatum) : bool :=
  validate_update_only_root old new && is_active (shutdown old) &&
  bool_decide (ibc_state_root (hs_state new) = ibc_state_root (hs_state old)) &&
  (last_update_time (hs_state old) <? last_update_time (hs_state new)).

Definition validate_enter_shutdown (old new : HostStateDatum) (grace_period_end : Z) : bool :=
  is_active (shutdown old) &&
  bool_decide (shutdown new = ShuttingDown (last_update_time (hs_state new)) grace_period_end) &&
  (last_update_time (hs_state new) <? grace_period_end) &&
  bool_decide (ibc_state_root (hs_state new) = ibc_state_root (hs_state old)) &&
  counters_step 0 0 0 (hs_state old) (hs_state new) && bool_decide (bound_port (hs_state new) = bound_port (hs_state old)) &&
  same_authority old new.

Definition validate_finalize_shutdown (datum : HostStateDatum) (valid_from : Z) : bool :=
  match shutdown datum with ShuttingDown _ grace_period_end => grace_period_end <=? valid_from | Active => false end.

(** The rule of a redeemer that leaves a new HostState behind, and whether it asks for
    the deployer's signature. *)
Definition host_datum_rule (r : HostStateRedeemer) (old new : HostStateDatum) : bool :=
  match r with
  | CreateClient _ => validate_create_client old new
  | CreateConnection _ => validate_create_connection old new
  | CreateChannel _ => validate_create_channel old new
  | BindPort p reg _ => validate_bind_port old new p reg
  | UpdateClient _ | UpdateConnection _ | UpdateChannel _ | HandlePacket _ => validate_update_only_root old new
  | EnterShutdown g => validate_enter_shutdown old new g
  | Heartbeat => validate_heartbeat old new
  | FinalizeShutdown => false
  end.

Definition needs_deployer (r : HostStateRedeemer) : bool :=
  match r with BindPort _ _ _ | EnterShutdown _ | Heartbeat | FinalizeShutdown => true | _ => false end.

(** ** Root replay *)

Section roots.
Context `{SHA : Sha256}.

(** [validate_create_connection_root]: the key was empty before. *)
Definition create_connection_root (old new : HostStateDatum) (connection_value : bytes) (siblings : list string) : bool :=
  let connection_id := utf8 "connection-" ++ utf8 (pretty (next_connection_sequence (hs_state old))) in
  bool_decide (apply_update (raw (ibc_state_root (hs_state old))) (utf8 "connections/" ++ connection_id) [] connection_value
    (raw <$> siblings) = Some (raw (ibc_state_root (hs_state new)))).

(** [validate_update_connection_root]: from the serialised end of the datum spent to
    that of the output datum; [serialise] is the ledger's [cbor.serialise]. *)
Definition update_connection_root (serialise : ConnectionEnd -> bytes) (old new : HostStateDatum) (connection_id : bytes)
    (input output : ConnectionDatum) (siblings : list string) : bool :=
  bool_decide (apply_update (raw (ibc_state_root (hs_state old))) (utf8 "connections/" ++ connection_id) (serialise (cnd_state input))
    (serialise (cnd_state output)) (raw <$> siblings) = Some (raw (ibc_state_root (hs_state new)))).
End roots.

(** ** The chain of HostState datums *)

Inductive host_step : HostStateDatum -> HostStateRedeemer -> HostStateDatum -> Prop :=
| HostStep old r new : host_datum_rule r old new = true -> host_step old r new.

Inductive host_chain (policy : string) : list HostStateRedeemer -> HostStateDatum -> Prop :=
| HostGenesis d : is_initialized_valid d policy = true -> host_chain policy [] d
| HostNext rs old r new : host_chain policy rs old -> host_step old r new -> host_chain policy (rs ++ [r]) new.

Definition count (p : HostStateRedeemer -> bool) (rs : list HostStateRedeemer) : Z := Z.of_nat (length (List.filter p rs)).
Definition creates_client (r : HostStateRedeemer) : bool := match r with CreateClient _ => true | _ => false end.
Definition creates_connection (r : HostStateRedeemer) : bool := match r with CreateConnection _ => true | _ => false end.
Definition creates_channel (r : HostStateRedeemer) : bool := match r with CreateChannel _ => true | _ => false end.
Definition binds_port (r : HostStateRedeemer) : bool := match r with BindPort _ _ _ => true | _ => false end.
Definition enters_shutdown (r : HostStateRedeemer) : bool := match r with EnterShutdown _ => true | _ => false end.

(** What holds of every HostState a chain of accepted transactions leads to. *)
Record host_invariant (policy : string) (rs : list HostStateRedeemer) (d : HostStateDatum) : Prop := {
  hi_version : version (hs_state d) = Z.of_nat (length rs);
  hi_clients : next_client_sequence (hs_state d) = count creates_client rs;
  hi_connections : next_connection_sequence (hs_state d) = count creates_connection rs;
  hi_channels : next_channel_sequence (hs_state d) = count creates_channel rs;
  hi_ports : NoDup (bound_port (hs_state d)).*1 /\ Z.of_nat (length (bound_port (hs_state d))) = count binds_port rs /\
             count binds_port rs <= max_bound_ports;
  hi_policy : nft_policy d = policy;
  hi_shutdown : is_shutting_down (shutdown d) = existsb enters_shutdown rs;
}.

(** ** The HostState as a state machine

    The rules of the HostState validator keep the invariant along every chain of
    accepted transactions, and the identifiers the gateway derives from the counters
    are given once. *)

#[local] Open Scope Z_scope.

(** Take a rule apart: conjunctions, comparisons and decisions become hypotheses. *)
Ltac split_rule H :=
  repeat match type of H with
  | (_ && _) = true => let H' := fresh "R" in apply andb_prop in H as [H H']; split_rule H'
  | bool_decide _ = true => apply bool_decide_eq_true in H
  | (_ =? _) = true => apply Z.eqb_eq in H
  | (_ <? _) = true => apply Z.ltb_lt in H
  | (_ <=? _) = true => apply Z.leb_le in H
  | negb _ = true => apply negb_true_iff in H
  end.

Lemma count_app p rs r : count p (rs ++ [r]) = count p rs + (if p r then 1 else 0).
Proof. unfold count. rewrite List.filter_app, length_app. cbn. destruct (p r); cbn; lia. Qed.

Lemma count_nonneg p rs : 0 <= count p rs.
Proof. unfold count. lia. Qed.

Lemma insert_by_ascending_key_perm l k v : k ∉ l.*1 -> insert_by_ascending_key l k v ≡ₚ (k, v) :: l.
Proof.
  induction l as [|[k2 v2] l IH]; intros Hk; [done|]. cbn [insert_by_ascending_key]. destruct (compare_port_keys_less _ _); [done|].
  cbn in Hk. apply not_elem_of_cons in Hk as [Hne Hk]. rewrite decide_False by done. rewrite IH by done. by rewrite Permutation_swap.
Qed.

(** What every rule says of the counters, by redeemer. *)
Record step_facts (r : HostStateRedeemer) (old new : HostStateDatum) : Prop := {
  sf_counters : counters_step (if creates_client r then 1 else 0) (if creates_connection r then 1 else 0) (if creates_channel r then 1 else 0)
                  (hs_state old) (hs_state new) = true;
  sf_policy : nft_policy new = nft_policy old;
  sf_deployer : deployer new = deployer old;
  sf_ports : (if binds_port r then False else bound_port (hs_state new) = bound_port (hs_state old)) \/
             exists p reg, p ∉ (bound_port (hs_state old)).*1 /\ Z.of_nat (length (bound_port (hs_state old))) < max_bound_ports /\
               bound_port (hs_state new) = insert_by_ascending_key (bound_port (hs_state old)) p reg /\ binds_port r = true;
  sf_shutdown : is_shutting_down (shutdown new) = is_shutting_down (shutdown old) || enters_shutdown r;
}.

Lemma host_step_facts old r new : host_step old r new -> step_facts r old new.
Proof.
  intros [o q n H].
  destruct q; cbn [host_datum_rule] in H; try discriminate H;
    unfold validate_create_client, validate_create_connection, validate_create_channel, validate_create, validate_bind_port,
      validate_update_only_root, validate_heartbeat, validate_enter_shutdown in H.
  all: try (unfold validate_update_only_root in H).
  all: unfold same_authority in H; split_rule H.
  all: constructor; cbn [creates_client creates_connection creates_channel binds_port enters_shutdown]; try done.
  all: try (by left); try (by rewrite orb_false_r; f_equal).
  - apply bool_decide_eq_false in H. right. by eexists _, _.
  - match goal with E : shutdown n = _ |- _ => rewrite E end. cbn. by rewrite orb_true_r.
Qed.

Lemma initialized_invariant policy d : is_initialized_valid d policy = true -> host_invariant policy [] d.
Proof.
  unfold is_initialized_valid. intros H. split_rule H. split; cbn; try done.
  - repeat match goal with E : bound_port _ = _ |- _ => rewrite E end. split_and!; [constructor|done|done].
  - by match goal with E : shutdown d = _ |- _ => rewrite E end.
Qed.

Lemma step_invariant policy rs old r new : host_invariant policy rs old -> host_step old r new -> host_invariant policy (rs ++ [r]) new.
Proof.
  intros [V C N K P Q S] [F FP _ Fports FS]%host_step_facts. unfold counters_step, validate_version_increment in F. split_rule F.
  split; rewrite ?count_app, ?existsb_app; cbn [existsb]; rewrite ?orb_false_r; try congruence.
  - rewrite length_app. cbn. lia.
  - destruct P as (Hnd & Hl & Hle). destruct Fports as [E|(p & reg & Hp & Hlt & E & Hb)].
    + destruct (binds_port r); [done|]. rewrite E, !Z.add_0_r. done.
    + rewrite E, Hb, (insert_by_ascending_key_perm _ p reg Hp). cbn [fmap list_fmap fst length]. split_and!; [by constructor|lia|lia].
Qed.

Lemma chain_invariant policy rs d : host_chain policy rs d -> host_invariant policy rs d.
Proof. induction 1; [by apply initialized_invariant|by eapply step_invariant]. Qed.

Lemma chain_prefix policy rs1 rs2 d : host_chain policy (rs1 ++ rs2) d -> exists d1, host_chain policy rs1 d1.
Proof.
  revert d. induction rs2 as [|r rs2 IH] using rev_ind; intros d H; [rewrite app_nil_r in H; by exists d|].
  rewrite app_assoc in H. inversion H as [d' Hi E|rs old r' new Hc Hs E]; [by destruct (rs1 ++ rs2)|].
  apply app_inj_tail in E as [-> ->]. by eapply IH.
Qed.

(** C30 (type): well-formedness of the HostState.  Along every chain of accepted
    HostState transactions from a freshly initialised datum the version counts the
    transactions, each sequence counter counts the creations of its kind, the bound
    ports are distinct and at most ten, the identifying policy never changes, and the
    bridge is shutting down exactly when a shutdown was entered.  An identifier is given
    once: the counter a creation used is below the counter of every later state. *)
Theorem host_state_invariant policy rs d : host_chain policy rs d ->
  host_invariant policy rs d /\
  (forall rs1 r rs2, rs = rs1 ++ r :: rs2 -> exists d1, host_chain policy rs1 d1 /\
     (creates_client r = true -> next_client_sequence (hs_state d1) < next_client_sequence (hs_state d)) /\
     (creates_connection r = true -> next_connection_sequence (hs_state d1) < next_connection_sequence (hs_state d)) /\
     (creates_channel r = true -> next_channel_sequence (hs_state d1) < next_channel_sequence (hs_state d))).
Proof.
  intros H. pose proof (chain_invariant _ _ _ H) as I. split; [done|]. intros rs1 r rs2 ->.
  destruct (chain_prefix _ _ _ _ H) as [d1 H1]. exists d1. split; [done|]. pose proof (chain_invariant _ _ _ H1) as I1.
  assert (forall p, p r = true -> count p rs1 < count p (rs1 ++ r :: rs2)) as Hlt.
  { intros p Hp. unfold count. rewrite List.filter_app, length_app. cbn. rewrite Hp. cbn. lia. }
  destruct I as [_ C N K _ _ _], I1 as [_ C1 N1 K1 _ _ _]. rewrite C, N, K, C1, N1, K1. auto.
Qed.

(** ** Witness *)

Definition genesis_datum : HostStateDatum := MkHostStateDatum (MkHostState 0 empty_ibc_state_root 0 0 0 [] 5) "aa" "bb" Active.
Definition with_one_connection : HostStateDatum := MkHostStateDatum (MkHostState 1 "cc" 0 1 0 [] 6) "aa" "bb" Active.

Lemma genesis_chain : host_chain "aa" [CreateConnection []] with_one_connection.
Proof. apply (HostNext "aa" [] genesis_datum); [by constructor|by constructor]. Qed.

Lemma host_state_invariant_witness : host_invariant "aa" [CreateConnection []] with_one_connection.
Proof. apply (host_state_invariant "aa" [CreateConnection []] with_one_connection). apply genesis_chain. Defined.
