(* ===== verification/OnChainTransfer.v ===== *)
(** * The transfer module's value checks ([ibc/apps/transfer/*.ak], [spending_mock_module.ak], [validator_utils.ak])

    What the transfer validators check of the assets of a transaction: the HostState
    thread, the module root, the escrow shard of a channel and denomination, which must
    change by exactly the amount of the packet, and what the receiver or sender of the
    packet is paid.  A value is an asset map; a script
    that fails ([expect]) does not accept, so a check that may fail is an [option] where
    the failure aborts a search and a boolean elsewhere.

    A transaction as the validators see it has the addresses of its inputs; in the
    Gateway's records they are implicit, so they come from [utxo_address]. *)

From Stdlib Require Import ZArith Lia.
From S2P Require Import Prelude JsMap JsString Hex MerkleTree Datum TreeRebuild EscrowShard TxAssembly OnChainHostState.

#[local] Open Scope Z_scope.

#[export] Instance TransferEscrowDatum_eq_dec : EqDecision TransferEscrowDatum.
Proof. solve_decision. Defined.

Class UtxoAddress := utxo_address : UTxO -> string.
Definition located `{UtxoAddress} (u : UTxO) : TxOutput := MkTxOutput (utxo_address u) (datum u) (assets u).

(** ** Values ([value_delta.ak]) *)

Definition lovelace_of (v : Assets) : Z := amount v "lovelace".

(** [assets.match_assets]: equal but for the lovelace. *)
Definition match_assets (left right : Assets) : bool :=
  forallb (fun unit => bool_decide (unit = "lovelace") || (amount left unit =? amount right unit)) (map_keys left ++ map_keys right).

(** [assets.merge] with a value of at most one asset. *)
Definition merge (v additional : Assets) : Assets :=
  fold_left (fun m kv => map_set m kv.1 (amount m kv.1 + kv.2)) additional v.

Definition validate_output_amount (locked_input output : TxOutput) (additional_value : Assets) : bool :=
  let expected_output := merge (out_assets locked_input) additional_value in
  (0 <=? lovelace_of (out_assets output) - lovelace_of expected_output) && match_assets (out_assets output) expected_output.

(** [assets.has_nft] *)
Definition has_nft (o : TxOutput) (unit : string) : bool := amount (out_assets o) unit =? 1.

(** ** Text helpers ([string.ak], [validator_utils.ak]) *)

Fixpoint do_hex_string_to_bytes (l : bytes) : option bytes :=
  match l with
  | [] => Some []
  | a :: b :: l' => msb ← hex_value a; lsb ← hex_value b; rest ← do_hex_string_to_bytes l'; Some (byte_of_N (msb * 16 + lsb)%N :: rest)
  | _ => None
  end.
Definition hex_string_to_bytes (str : bytes) : option bytes := if Nat.even (length str) then do_hex_string_to_bytes str else None.

(** [extract_token_unit]: the asset a unit names, as Lucid writes it. *)
Definition extract_token_unit (unit : bytes) : option string :=
  if decide (unit = utf8 "lovelace") then Some "lovelace"
  else if (28 <=? length unit)%nat && (length unit <=? 60)%nat then Some (hex_encode unit) else None.

(** ** The HostState thread and module continuations *)

Definition require_host_state_thread (inputs outputs : list TxOutput) (nft : string) : option (TxOutput * TxOutput) :=
  match List.filter (fun o => has_nft o nft) inputs, List.filter (fun o => has_nft o nft) outputs with
  | [host_input], [host_output] =>
      match out_datum host_input, out_datum host_output with
      | Some _, Some _ => if bool_decide (out_address host_output = out_address host_input) then Some (host_input, host_output) else None
      | _, _ => None
      end
  | _, _ => None
  end.

(** [spending_mock_module.ak]; the outputs of this model carry no reference script. *)
Definition output_is_exact_continuation (output spent_output : TxOutput) : bool :=
  bool_decide (out_address output = out_address spent_output) &&
  match_assets (out_assets output) (out_assets spent_output) &&
  (lovelace_of (out_assets output) =? lovelace_of (out_assets spent_output)) &&
  bool_decide (out_datum output = out_datum spent_output).

Definition mock_continuation (outputs : list TxOutput) (spent_output : TxOutput) : bool :=
  match List.filter (fun o => output_is_exact_continuation o spent_output) outputs with [_] => true | _ => false end.

(** ** Escrow shards ([transfer_escrow_shard.ak], [escrow.ak]) *)

Section escrow.
Context `{BL : Blake2b} `{EV : EscrowEnv} (shard_policy_id port_token module_token : string).

Definition shard_token_preimage (channel_id denom : bytes) : option bytes :=
  if (N.of_nat (length channel_id) <=? UINT32_MAX)%N && (N.of_nat (length denom) <=? UINT32_MAX)%N then
    Some (utf8 "cardano-ibc/transfer-escrow-shard/v1" ++ [x00] ++ be_of_N 4 (N.of_nat (length channel_id)) ++ channel_id ++
          be_of_N 4 (N.of_nat (length denom)) ++ denom)
  else None.
Definition shard_token_name (channel_id denom : bytes) : option bytes := blake2b224 <$> shard_token_preimage channel_id denom.

(** The unit of the shard token of a datum. *)
Definition escrow_shard_unit (d : TransferEscrowDatum) : option string :=
  name ← shard_token_name (hex_decode_prefix (channel_id d)) (hex_decode_prefix (denom d)); Some (shard_policy_id +:+ hex_encode name).

Definition escrow_shard_has_nft (output : TxOutput) (d : TransferEscrowDatum) : bool :=
  match escrow_shard_unit d with Some unit => has_nft output unit | None => false end.

(** An inline datum of another shape aborts the search. *)
Definition escrow_output_matches (output : TxOutput) (address : string) (d : TransferEscrowDatum) : option bool :=
  if negb (bool_decide (out_address output = address)) || negb (escrow_shard_has_nft output d) then Some false
  else match out_datum output with
       | Some data => match decode_transferEscrow data with Ok d' => Some (bool_decide (d' = d)) | Err _ => None end
       | None => Some false
       end.

Fixpoint filter_matches (l : list TxOutput) (address : string) (d : TransferEscrowDatum) : option (list TxOutput) :=
  match l with
  | [] => Some []
  | o :: l' => b ← escrow_output_matches o address d; rest ← filter_matches l' address d; Some (if b : bool then o :: rest else rest)
  end.

(** At most one match, or failure. *)
Definition find_escrow_output (l : list TxOutput) (address : string) (d : TransferEscrowDatum) : option (option TxOutput) :=
  match filter_matches l address d with
  | Some [] => Some None
  | Some [o] => Some (Some o)
  | _ => None
  end.

Inductive TransferModuleSpend :=
| ModuleState (updated_output : TxOutput) (datum_changed : bool)
| EscrowShardSpend (d : TransferEscrowDatum) (updated_output : option TxOutput).

Definition has_module_state_tokens (o : TxOutput) : bool := has_nft o port_token && has_nft o module_token.

Definition classify_transfer_module_spend (spent_output : TxOutput) (outputs : list TxOutput) : option TransferModuleSpend :=
  if has_module_state_tokens spent_output then
    match List.filter (fun o => bool_decide (out_address o = out_address spent_output) && has_module_state_tokens o) outputs with
    | [updated_output] => Some (ModuleState updated_output (negb (bool_decide (out_datum spent_output = out_datum updated_output))))
    | _ => None
    end
  else
    data ← out_datum spent_output;
    d ← match decode_transferEscrow data with Ok d => Some d | Err _ => None end;
    if escrow_shard_has_nft spent_output d then EscrowShardSpend d <$> find_escrow_output outputs (out_address spent_output) d else None.

(** [expect_module_state], with the value check every caller makes. *)
Definition module_state_preserved (spent_output : TxOutput) (spend : TransferModuleSpend) : bool :=
  match spend with
  | ModuleState updated_output false => validate_output_amount spent_output updated_output []
  | _ => false
  end.

Definition escrow_value_is_single_asset (output : TxOutput) (d : TransferEscrowDatum) (token : string) : bool :=
  match escrow_shard_unit d with
  | None => false
  | Some unit =>
      let expected := if decide (token = "lovelace") then [(unit, 1)] else merge [(unit, 1)] [(token, amount (out_assets output) token)] in
      match_assets (out_assets output) expected
  end.

Definition validate_created_escrow_shard (outputs : list TxOutput) (address : string) (d : TransferEscrowDatum) (mint : string -> Z)
    (transfer_amount : Z) (token : string) : bool :=
  match filter_matches outputs address d, escrow_shard_unit d with
  | Some [created_output], Some unit =>
      let created_quantity := amount (out_assets created_output) token in
      (mint unit =? 1) && escrow_value_is_single_asset created_output d token &&
      (if decide (token = "lovelace") then transfer_amount <=? created_quantity else created_quantity =? transfer_amount)
  | _, _ => false
  end.

Definition validate_escrow_shard_update (spent_output : TxOutput) (spend : TransferModuleSpend) (expected_datum : TransferEscrowDatum)
    (mint : string -> Z) (expected_value_difference : Assets) (token : string) : bool :=
  match spend, escrow_shard_unit expected_datum with
  | EscrowShardSpend d updated_output, Some unit =>
      bool_decide (d = expected_datum) && escrow_shard_has_nft spent_output expected_datum &&
      escrow_value_is_single_asset spent_output expected_datum token &&
      (0 <=? amount (merge (out_assets spent_output) expected_value_difference) token) &&
      match updated_output with
      | Some output => (mint unit =? 0) && validate_output_amount spent_output output expected_value_difference &&
                       escrow_value_is_single_asset output expected_datum token
      | None => false
      end
  | _, _ => false
  end.

Definition validate_module_escrow_transition (spent_output : TxOutput) (spend : TransferModuleSpend) (inputs outputs : list TxOutput)
    (d : TransferEscrowDatum) (mint : string -> Z) (transfer_amount : Z) (expected_value_difference : Assets) (token : string) : bool :=
  match spend with
  | ModuleState updated_output datum_changed =>
      match escrow_shard_unit d, find_escrow_output inputs (out_address spent_output) d with
      | Some unit, Some matching_escrow_input =>
          validate_output_amount spent_output updated_output [] &&
          (mint unit =? (if datum_changed then 1 else 0)) &&
          match matching_escrow_input with
          | Some escrow_input =>
              match find_escrow_output outputs (out_address escrow_input) d with
              | Some updated => validate_escrow_shard_update escrow_input (EscrowShardSpend d updated) d mint expected_value_difference token
              | None => false
              end
          | None => (0 <? transfer_amount) && validate_created_escrow_shard outputs (out_address spent_output) d mint transfer_amount token
          end
      | _, _ => false
      end
  | EscrowShardSpend _ _ => validate_escrow_shard_update spent_output spend d mint expected_value_difference token
  end.

(** ** What the callbacks check of values around the transition

    The amount, the asset, the shard and the addresses are those of the packet; that the
    packet is the channel's and that no voucher is minted are checks on redeemers. *)

(** [module_operator] of a native send: no new deposit while the bridge shuts down. *)
Definition native_send (host_state : HostStateDatum) (spent_output : TxOutput) (spend : TransferModuleSpend) (inputs outputs : list TxOutput)
    (d : TransferEscrowDatum) (mint : string -> Z) (transfer_amount : Z) (token : string) : bool :=
  is_active (shutdown host_state) &&
  validate_module_escrow_transition spent_output spend inputs outputs d mint transfer_amount [(token, transfer_amount)] token.

(** [OnRecvPacket] on the source chain: the first output at the receiver's address
    holds the amount. *)
Definition receive_release (spent_output : TxOutput) (spend : TransferModuleSpend) (inputs outputs : list TxOutput)
    (d : TransferEscrowDatum) (mint : string -> Z) (transfer_amount : Z) (token receiver_address : string) : bool :=
  match List.find (fun o => bool_decide (out_address o = receiver_address)) outputs with
  | Some payout_output =>
      validate_module_escrow_transition spent_output spend inputs outputs d mint (0 - transfer_amount) [(token, - transfer_amount)] token &&
      (transfer_amount <=? amount (out_assets payout_output) token)
  | None => false
  end.

(** The quantity of an asset over all outputs at an address. *)
Definition held_at (l : list TxOutput) (address token : string) : Z :=
  foldr (fun o acc => if bool_decide (out_address o = address) then acc + amount (out_assets o) token else acc) 0 l.

(** [validate_refund_packet_token] on the source chain: the balance of the sender's
    address over all inputs and outputs grows by the amount. *)
Definition refund_release (spent_output : TxOutput) (spend : TransferModuleSpend) (inputs outputs : list TxOutput)
    (d : TransferEscrowDatum) (mint : string -> Z) (transfer_amount : Z) (token receiver_address : string) : bool :=
  let receiver_delta := held_at outputs receiver_address token - held_at inputs receiver_address token in
  validate_module_escrow_transition spent_output spend inputs outputs d mint (0 - transfer_amount) [(token, - transfer_amount)] token &&
  (if decide (token = "lovelace") then transfer_amount <=? receiver_delta else receiver_delta =? transfer_amount).

End escrow.
