(* ===== verification/OnChainClient.v ===== *)
(** * The validators of a Tendermint client ([ics-007-tendermint-client], [spending_client.ak], [minting_client_stt.ak])

    What the client validators check of a creation and of an update: the client state,
    the client message, whether it proves a misbehaviour, the datum transition, and the
    replay of the changed keys from the old HostState root to the new one.  As in
    [OnChainDatum] a byte string is its hexadecimal text.  A failing [expect] is
    [false], as it is for the transaction.  The hashes of a header and of a validator
    set and the signature of a vote are parameters. *)

From Stdlib Require Import ZArith Lia.
From S2P Require Import Prelude JsMap JsString Hex MerkleTree OnChainCommitment Datum Tendermint OnChainProto PacketHelpers Redeemers OnChainDatum OnChainChannel OnChainConnection OnChainHostState.

#[local] Open Scope Z_scope.

#[export] Instance LeafSpec_eq_dec : EqDecision LeafSpec.
Proof. solve_decision. Defined.
#[export] Instance InnerSpec_eq_dec : EqDecision InnerSpec.
Proof. solve_decision. Defined.
#[export] Instance ProofSpec_eq_dec : EqDecision ProofSpec.
Proof. solve_decision. Defined.
#[export] Instance ClientState_eq_dec : EqDecision ClientState.
Proof. solve_decision. Defined.
#[export] Instance ClientDatumState_eq_dec : EqDecision ClientDatumState.
Proof. solve_decision. Defined.
#[export] Instance ClientDatum_eq_dec : EqDecision ClientDatum.
Proof. solve_decision. Defined.
#[export] Instance PartSetHeader_eq_dec : EqDecision PartSetHeader.
Proof. solve_decision. Defined.
#[export] Instance BlockID_eq_dec : EqDecision BlockID.
Proof. solve_decision. Defined.
#[export] Instance CommitSig_eq_dec : EqDecision CommitSig.
Proof. solve_decision. Defined.
#[export] Instance Commit_eq_dec : EqDecision Commit.
Proof. solve_decision. Defined.
#[export] Instance TmHeader_eq_dec : EqDecision TmHeader.
Proof. solve_decision. Defined.
#[export] Instance SignedHeader_eq_dec : EqDecision SignedHeader.
Proof. solve_decision. Defined.
#[export] Instance Validator_eq_dec : EqDecision Validator.
Proof. solve_decision. Defined.
#[export] Instance ValidatorSet_eq_dec : EqDecision ValidatorSet.
Proof. solve_decision. Defined.
#[export] Instance Header_eq_dec : EqDecision Header.
Proof. solve_decision. Defined.

(** ** Heights ([height.ak], [header.ak]) *)

(** [find_last_dash]: what follows the last dash, if there is one. *)
Fixpoint after_last_dash (l : bytes) : option bytes :=
  match l with
  | [] => None
  | b :: l' => match after_last_dash l' with Some s => Some s | None => if bool_decide (b = x2d) then Some l' else None end
  end.

(** [int.from_utf8] of a text of digits *)
Definition digits_value (l : bytes) : Z := fold_left (fun acc b => acc * 10 + (Z.of_N (Byte.to_N b) - 0x30)) l 0.

Definition parse_chain_id (chain_id : bytes) : Z :=
  match after_last_dash chain_id with
  | Some revision => if is_uint_string revision then digits_value revision else 0
  | None => 0
  end.

Definition is_zero (h : Height) : bool := (revisionNumber h =? 0) && (revisionHeight h =? 0).
Definition get_height (h : Header) : Height :=
  let header := sh_header (signedHeader h) in MkHeight (parse_chain_id (raw (hd_chainId header))) (hd_height header).
Definition header_consensus_state (h : Header) : ConsensusState :=
  let header := sh_header (signedHeader h) in MkConsensusState (hd_time header) (hd_nextValidatorsHash header) (hd_appHash header).

Definition greater (c : comparison) : bool := match c with Gt => true | _ => false end.

(** ** Client state ([client_state.ak]) *)

Definition max_chain_id_len : Z := 50.
Definition max_consensus_state_size : nat := 300.
Definition max_expected_time_per_block : Z := 4000000000.

(** [rational.new]: a positive denominator *)
Definition to_rational (r : Z * Z) : option (Z * Z) :=
  let '(n, d) := r in if d =? 0 then None else if 0 <? d then Some (n, d) else Some (- n, - d).

Definition sha256_leaf : LeafSpec := MkLeafSpec 1 0 1 1 "00".
Definition iavl_spec : ProofSpec := MkProofSpec sha256_leaf (MkInnerSpec [0; 1] 33 4 12 "" 1) 0 0 false.
Definition tendermint_spec : ProofSpec := MkProofSpec sha256_leaf (MkInnerSpec [0; 1] 32 1 1 "" 1) 0 0 false.
Definition validate_specs (specs : list ProofSpec) : bool := bool_decide (specs = [iavl_spec; tendermint_spec]).

Definition client_state_validate (cs : ClientState) : bool :=
  negb (bool_decide (trim_space (raw (chainId cs)) = [])) && (blen (raw (chainId cs)) <=? max_chain_id_len) &&
  match to_rational (trustLevel cs) with Some (n, d) => (d <=? n * 3) && (n <=? d) | None => false end &&
  (0 <? trustingPeriod cs) && (0 <? unbondingPeriod cs) && (0 <? maxClockDrift cs) && (0 <? revisionHeight (latestHeight cs)) &&
  (revisionNumber (latestHeight cs) =? parse_chain_id (raw (chainId cs))) && (trustingPeriod cs <? unbondingPeriod cs) &&
  validate_specs (proofSpecs cs).

Definition is_expired (cs : ClientState) (latest_timestamp now : Z) : bool := latest_timestamp + trustingPeriod cs <=? now.

(** [pairs.get_first] and [pairs.has_key] of the height maps *)
Definition get_first {V} (l : list (Height * V)) (h : Height) : option V := snd <$> List.find (fun kv => bool_decide (kv.1 = h)) l.
Definition has_height {V} (l : list (Height * V)) (h : Height) : bool := existsb (fun kv => bool_decide (kv.1 = h)) l.

Inductive Status := StatusActive | StatusExpired | StatusFrozen.
Definition status (cs : ClientState) (now : Z) (consensus_states : list (Height * ConsensusState)) : Status :=
  if negb (is_zero (frozenHeight cs)) then StatusFrozen else
  match get_first consensus_states (latestHeight cs) with
  | None => StatusExpired
  | Some c => if is_expired cs (cs_timestamp c) now then StatusExpired else StatusActive
  end.
Definition is_status_active (s : Status) : bool := match s with StatusActive => true | _ => false end.

(** ** Datum transitions ([client_datum.ak]) *)

Definition client_is_initialized_valid (d : ClientDatum) (auth_token : AuthToken) : bool :=
  let st := cld_state d in
  client_state_validate (clientState st) &&
  match consensusStates st with
  | [(h, _)] => bool_decide (h = latestHeight (clientState st)) && has_height (processedTimes st) (latestHeight (clientState st)) &&
                has_height (processedHeights st) (latestHeight (clientState st)) && bool_decide (cld_token d = auth_token)
  | _ => false
  end.

Definition processed_height_from_time (processed_time : Z) : Z := processed_time / max_expected_time_per_block.

Definition set_latest (cs : ClientState) (h : Height) : ClientState :=
  MkClientState (chainId cs) (trustLevel cs) (trustingPeriod cs) (unbondingPeriod cs) (maxClockDrift cs) (frozenHeight cs) h (proofSpecs cs).
Definition set_frozen (cs : ClientState) (h : Height) : ClientState :=
  MkClientState (chainId cs) (trustLevel cs) (trustingPeriod cs) (unbondingPeriod cs) (maxClockDrift cs) h (latestHeight cs) (proofSpecs cs).

(** The datum an update must leave: [list.slice] counts its upper end in. *)
Definition expected_client (input : ClientDatum) (header : Header) (tx_valid_from : Z) : ClientDatum :=
  let st := cld_state input in
  let h := get_height header in
  let kept := List.filter (fun kv => negb (is_expired (clientState st) (cs_timestamp kv.2) (tx_valid_from * 1000000))) (consensusStates st) in
  let keys := kept.*1 in
  let slice {V} (l : list (Height * V)) := take (S (Nat.min (max_consensus_state_size - 1) (length kept))) l in
  let processed (l : list (Height * Z)) := List.filter (fun kv => bool_decide (kv.1 ∈ keys)) l in
  MkClientDatum
    (MkClientDatumState (set_latest (clientState st) h) (slice ((h, header_consensus_state header) :: kept))
       (slice ((h, tx_valid_from * 1000000) :: processed (processedTimes st)))
       (slice ((h, processed_height_from_time (tx_valid_from * 1000000)) :: processed (processedHeights st))))
    (cld_token input).

Definition update_state (input output : ClientDatum) (header : Header) (tx_valid_from : Z) : bool :=
  let st := cld_state input in
  let h := get_height header in
  negb (has_height (consensusStates st) h) && greater (height_compare h (latestHeight (clientState st))) &&
  bool_decide (expected_client input header tx_valid_from = output).

Definition update_state_on_misbehaviour (input output : ClientDatum) : bool :=
  let st := cld_state input in
  bool_decide (MkClientDatum (MkClientDatumState (set_frozen (clientState st) (MkHeight 0 1)) (consensusStates st) (processedTimes st)
                                (processedHeights st)) (cld_token input) = output).

(** ** Misbehaviour ([misbehaviour_handle.ak], [store.ak]) *)

Definition height_lt (a b : Height) : bool := match height_compare a b with Lt => true | _ => false end.

(** [list.sort] *)
Fixpoint insert_height {V} (l : list (Height * V)) (e : Height * V) : list (Height * V) :=
  match l with [] => [e] | x :: l' => if height_lt e.1 x.1 then e :: l else x :: insert_height l' e end.
Fixpoint sort_heights {V} (l : list (Height * V)) : list (Height * V) :=
  match l with [] => [] | x :: l' => insert_height (sort_heights l') x end.

Definition get_next_consensus_state (l : list (Height * ConsensusState)) (h : Height) : option ConsensusState :=
  fold_left (fun acc kv => match acc with None => if height_lt h kv.1 then Some kv.2 else None | _ => acc end) l None.
Definition get_prev_consensus_state (l : list (Height * ConsensusState)) (h : Height) : option ConsensusState :=
  fold_right (fun kv acc => match acc with None => if height_lt kv.1 h then Some kv.2 else None | _ => acc end) None l.

Definition check_for_misbehaviour (msg : ClientMessage) (consensus_states : list (Height * ConsensusState)) : bool :=
  match msg with
  | HeaderCase h =>
      match get_first consensus_states (get_height h) with
      | Some existing => negb (bool_decide (existing = header_consensus_state h))
      | None =>
          let sorted := sort_heights consensus_states in
          from_option (fun p => header_time h <=? cs_timestamp p) false (get_prev_consensus_state sorted (get_height h)) ||
          from_option (fun n => cs_timestamp n <=? header_time h) false (get_next_consensus_state sorted (get_height h))
      end
  | MisbehaviourCase m =>
      let h1 := mb_header1 m in let h2 := mb_header2 m in
      match height_compare (get_height h1) (get_height h2) with
      | Eq => negb (bool_decide (bi_hash (cm_blockId (sh_commit (signedHeader h1))) = bi_hash (cm_blockId (sh_commit (signedHeader h2)))))
      | Gt => header_time h1 <=? header_time h2
      | Lt => header_time h2 <=? header_time h1
      end
  end.

(** ** Basic validation ([cometbft]) *)

Definition is_empty_or_size (h : string) (size : Z) : bool := (blen (raw h) =? 0) || (blen (raw h) =? size).

Definition block_id_validate_basic (b : BlockID) : bool :=
  is_empty_or_size (bi_hash b) 32 && is_empty_or_size (ps_hash (bi_partSetHeader b)) 32 && (0 <=? ps_total (bi_partSetHeader b)).

Definition tm_header_validate_basic (h : TmHeader) : bool :=
  ((hd_version h).1 =? 11) && (blen (raw (hd_chainId h)) <=? max_chain_id_len) && (0 <? hd_height h) &&
  block_id_validate_basic (hd_lastBlockId h) && is_empty_or_size (hd_lastCommitHash h) 32 && is_empty_or_size (hd_dataHash h) 32 &&
  is_empty_or_size (hd_evidenceHash h) 32 && is_empty_or_size (hd_nextValidatorsHash h) 32 && is_empty_or_size (hd_proposerAddress h) 20 &&
  is_empty_or_size (hd_validatorsHash h) 32 && is_empty_or_size (hd_consensusHash h) 32 && is_empty_or_size (hd_lastResultsHash h) 32 &&
  (0 <? hd_time h).

Definition commit_sig_validate_basic (c : CommitSig) : bool :=
  if sig_block_id_flag c =? 1 then
    (blen (raw (sig_validator_address c)) =? 0) && (sig_timestamp c =? 0) && (blen (raw (sig_signature c)) =? 0)
  else if (sig_block_id_flag c =? 2) || (sig_block_id_flag c =? 3) then
    (blen (raw (sig_validator_address c)) =? 20) && (0 <? blen (raw (sig_signature c))) && (blen (raw (sig_signature c)) <=? 64)
  else false.

Definition commit_validate_basic (c : Commit) : bool :=
  (0 <=? cm_height c) && (0 <=? cm_round c) &&
  (if 1 <=? cm_height c then
     negb (isZeroBlockId (cm_blockId c)) && negb (bool_decide (cm_signatures c = [])) && forallb commit_sig_validate_basic (cm_signatures c)
   else true).

Definition null_block_id : BlockID := MkBlockID "" (MkPartSetHeader 0 "").
Definition null_commit : Commit := MkCommit 0 0 null_block_id [].
Definition null_tm_header : TmHeader := MkTmHeader (0, 0) "" 0 0 null_block_id "" "" "" "" "" "" "" "" "".
Definition null_validator : Validator := MkValidator "" (Some "") 0 0.
Definition null_validator_set : ValidatorSet := MkValidatorSet [] null_validator 0.
Definition null_header : Header := MkHeader (MkSignedHeader null_tm_header null_commit) null_validator_set (MkHeight 0 0) null_validator_set.

(** ** Commits ([validation.ak]) *)

(** The hash of a validator set and of a header, and whether a signature by a key is
    one for the vote of the [n]-th entry of a commit of a chain. *)
Class TmCrypto := {
  validator_set_hash : ValidatorSet -> string;
  tm_header_hash : TmHeader -> string;
  vote_signed : Commit -> string -> nat -> string -> string -> bool;
}.

Record TxTime := MkTxTime { tx_from : Z; tx_to : Z }.

Section verification.
Context `{TC : TmCrypto}.

Definition total_voting_power (vals : ValidatorSet) : Z := fold_left (fun acc v => acc + va_votingPower v) (vs_validators vals) 0.

(** The power counted so far, the validators seen, and whether it sufficed. *)
Abbreviation tallied := (Z * list Validator * bool)%type.

Definition find_validator (by_index : bool) (vals : ValidatorSet) (idx : nat) (sig : CommitSig) (seen : list Validator)
  : option (option (Validator * list Validator)) :=
  if by_index then Some ((fun v => (v, seen)) <$> vs_validators vals !! idx)
  else match List.find (fun v => bool_decide (va_address v = sig_validator_address sig)) (vs_validators vals) with
       | Some v => if bool_decide (v ∈ seen) then None else Some (Some (v, v :: seen))
       | None => Some None
       end.

Definition tally_one (chain_id : string) (vals : ValidatorSet) (commit : Commit) (needed : Z) (by_index : bool) (idx : nat) (sig : CommitSig)
    (acc : tallied) : option tallied :=
  let '(power, seen, passed) := acc in
  if negb (sig_block_id_flag sig =? BLOCKID_FLAG_COMMIT) || passed then Some acc else
  found ← find_validator by_index vals idx sig seen;
  match found with
  | None => Some acc
  | Some (v, seen') =>
      if vote_signed commit chain_id idx (default "" (va_pubkey v)) (sig_signature sig) then
        let power' := power + va_votingPower v in Some (power', seen', needed <? power')
      else None
  end.

(** [list.indexed_foldr]: the last signature first *)
Fixpoint tally (chain_id : string) (vals : ValidatorSet) (commit : Commit) (needed : Z) (by_index : bool) (idx : nat) (sigs : list CommitSig)
  : option tallied :=
  match sigs with
  | [] => Some (0, [], false)
  | sig :: rest => acc ← tally chain_id vals commit needed by_index (S idx) rest; tally_one chain_id vals commit needed by_index idx sig acc
  end.

Definition verify_commit_single (chain_id : string) (vals : ValidatorSet) (commit : Commit) (needed : Z) (by_index : bool) : bool :=
  match tally chain_id vals commit needed by_index 0 (cm_signatures commit) with
  | Some (power, _, passed) => passed || (needed <? power)
  | None => false
  end.

Definition verify_commit_light (chain_id : string) (vals : ValidatorSet) (block_id : BlockID) (height : Z) (commit : Commit) : bool :=
  negb (bool_decide (vs_validators vals = [])) && negb (bool_decide (cm_signatures commit = [])) &&
  bool_decide (length (vs_validators vals) = length (cm_signatures commit)) && (height =? cm_height commit) &&
  bool_decide (block_id = cm_blockId commit) &&
  verify_commit_single chain_id vals commit (total_voting_power vals * 2 / 3) true.

Definition verify_commit_light_trusting (chain_id : string) (vals : ValidatorSet) (commit : Commit) (trust_level : Z * Z) : bool :=
  negb (bool_decide (vs_validators vals = [])) && negb (snd trust_level =? 0) && negb (bool_decide (cm_signatures commit = [])) &&
  verify_commit_single chain_id vals commit (total_voting_power vals * fst trust_level / snd trust_level) false.

(** ** Headers ([signed_header.ak], [verifier.ak], [header_handle.ak]) *)

Definition signed_header_validate_basic (sh : SignedHeader) (chain_id : string) : bool :=
  negb (bool_decide (sh_header sh = null_tm_header)) && negb (bool_decide (sh_commit sh = null_commit)) &&
  tm_header_validate_basic (sh_header sh) && commit_validate_basic (sh_commit sh) &&
  bool_decide (hd_chainId (sh_header sh) = chain_id) && (cm_height (sh_commit sh) =? hd_height (sh_header sh)) &&
  bool_decide (tm_header_hash (sh_header sh) = bi_hash (cm_blockId (sh_commit sh))).

Definition header_expired (h : TrustedHeader) (trusting_period now : Z) : bool := negb (now <? tr_time h + trusting_period).

Definition verify_new_header_and_vals (untrusted : SignedHeader) (vals : ValidatorSet) (trusted : TrustedHeader) (now max_clock_drift : Z) : bool :=
  signed_header_validate_basic untrusted (tr_chainId trusted) && (tr_height trusted <? hd_height (sh_header untrusted)) &&
  (tr_time trusted <? hd_time (sh_header untrusted)) && (hd_time (sh_header untrusted) <? now + max_clock_drift) &&
  bool_decide (hd_validatorsHash (sh_header untrusted) = validator_set_hash vals).

Definition verifier_verify (trusted : TrustedHeader) (trusted_vals : ValidatorSet) (untrusted : SignedHeader) (vals : ValidatorSet)
    (trusting_period : Z) (t : TxTime) (max_clock_drift : Z) (trust_level : Z * Z) : bool :=
  let commit := sh_commit untrusted in let height := hd_height (sh_header untrusted) in
  negb (header_expired trusted trusting_period (tx_to t)) && verify_new_header_and_vals untrusted vals trusted (tx_from t) max_clock_drift &&
  (if negb (height =? tr_height trusted + 1) then verify_commit_light_trusting (tr_chainId trusted) trusted_vals commit trust_level
   else bool_decide (hd_validatorsHash (sh_header untrusted) = tr_nextValidatorsHash trusted)) &&
  verify_commit_light (tr_chainId trusted) vals (cm_blockId commit) height commit.

Definition check_trusted_header (h : Header) (c : ConsensusState) : bool :=
  bool_decide (cs_next_validators_hash c = validator_set_hash (trustedValidators h)).

Definition verify_header (cs : ClientState) (t : TxTime) (states : list (Height * ConsensusState)) (header : Header) : bool :=
  match get_first states (trustedHeight header), to_rational (trustLevel cs) with
  | Some c, Some trust_level =>
      check_trusted_header header c && (revisionNumber (get_height header) =? revisionNumber (trustedHeight header)) &&
      greater (height_compare (get_height header) (trustedHeight header)) &&
      greater (height_compare (get_height header) (latestHeight cs)) &&
      verifier_verify (MkTrustedHeader (chainId cs) (revisionHeight (trustedHeight header)) (cs_timestamp c) (cs_next_validators_hash c))
        (trustedValidators header) (signedHeader header) (validatorSet header) (trustingPeriod cs) t (maxClockDrift cs) trust_level
  | _, _ => false
  end.

(** ** Misbehaviour messages ([misbehaviour.ak]) *)

Definition validate_header_basic (h : Header) (chain_id : string) : bool :=
  signed_header_validate_basic (signedHeader h) chain_id &&
  bool_decide (hd_validatorsHash (sh_header (signedHeader h)) = validator_set_hash (validatorSet h)) &&
  verify_commit_light chain_id (validatorSet h) (cm_blockId (sh_commit (signedHeader h))) (cm_height (sh_commit (signedHeader h)))
    (sh_commit (signedHeader h)).

Definition misbehaviour_validate_basic (m : Misbehaviour) : bool :=
  let h1 := mb_header1 m in let h2 := mb_header2 m in
  let chain_id := hd_chainId (sh_header (signedHeader h1)) in
  negb (bool_decide (h1 = null_header)) && negb (bool_decide (h2 = null_header)) &&
  negb (revisionHeight (trustedHeight h1) =? 0) && negb (revisionHeight (trustedHeight h2) =? 0) &&
  negb (bool_decide (trustedValidators h1 = null_validator_set)) && negb (bool_decide (trustedValidators h2 = null_validator_set)) &&
  bool_decide (chain_id = hd_chainId (sh_header (signedHeader h2))) && negb (height_lt (get_height h1) (get_height h2)) &&
  validate_header_basic h1 chain_id && validate_header_basic h2 chain_id.

Definition check_misbehaviour_header (cs : ClientState) (c : ConsensusState) (h : Header) (current_timestamp : Z) : bool :=
  check_trusted_header h c && (current_timestamp - cs_timestamp c <? trustingPeriod cs) &&
  match to_rational (trustLevel cs) with
  | Some trust_level => verify_commit_light_trusting (chainId cs) (trustedValidators h) (sh_commit (signedHeader h)) trust_level
  | None => false
  end.

Definition verify_misbehaviour (cs : ClientState) (t : TxTime) (states : list (Height * ConsensusState)) (m : Misbehaviour) : bool :=
  misbehaviour_validate_basic m &&
  match get_first states (trustedHeight (mb_header1 m)), get_first states (trustedHeight (mb_header2 m)) with
  | Some c1, Some c2 => check_misbehaviour_header cs c1 (mb_header1 m) (tx_to t) && check_misbehaviour_header cs c2 (mb_header2 m) (tx_to t)
  | _, _ => false
  end.

Definition verify_client_message (cs : ClientState) (t : TxTime) (states : list (Height * ConsensusState)) (msg : ClientMessage) : bool :=
  match msg with HeaderCase h => verify_header cs t states h | MisbehaviourCase m => verify_misbehaviour cs t states m end.

(** ** The validators *)

(** The checks of [spend_client] on the message and the two datums; times in milliseconds. *)
Definition message_accepted (d : ClientDatum) (msg : ClientMessage) (valid_from valid_to : Z) : bool :=
  let st := cld_state d in
  is_status_active (status (clientState st) (valid_to * 1000000) (consensusStates st)) &&
  verify_client_message (clientState st) (MkTxTime (valid_from * 1000000) (valid_to * 1000000)) (consensusStates st) msg.

Definition spend_client (d updated : ClientDatum) (msg : ClientMessage) (valid_from valid_to : Z) : bool :=
  message_accepted d msg valid_from valid_to &&
  (if check_for_misbehaviour msg (consensusStates (cld_state d)) then update_state_on_misbehaviour d updated
   else match msg with HeaderCase header => update_state d updated header valid_from | MisbehaviourCase _ => false end).

(** The checks of [mint_client_stt] on the new datum. *)
Definition mint_client (d : ClientDatum) (client_token : AuthToken) (valid_from valid_to : Z) : bool :=
  let st := cld_state d in let latest := latestHeight (clientState st) in
  client_is_initialized_valid d client_token &&
  bool_decide (get_first (processedTimes st) latest = Some (valid_from * 1000000)) &&
  bool_decide (get_first (processedHeights st) latest = Some (processed_height_from_time (valid_from * 1000000))) &&
  is_status_active (status (clientState st) (valid_to * 1000000) (consensusStates st)).
End verification.

(** ** Root replay ([host_state_stt.ak]) *)

Section roots.
Context `{SHA : Sha256} (serialise_client : ClientState -> bytes) (serialise_consensus : ConsensusState -> bytes).

Definition client_key (client_id : bytes) : bytes := utf8 "clients/" ++ client_id ++ utf8 "/clientState".
Definition consensus_key (client_id : bytes) (h : Height) : bytes :=
  utf8 "clients/" ++ client_id ++ utf8 "/consensusStates/" ++ utf8 (pretty (revisionHeight h)).

Definition create_client_root (old new : HostStateDatum) (d : ClientDatum) (client_siblings consensus_siblings : list string) : bool :=
  let client_id := utf8 "07-tendermint-" ++ utf8 (pretty (next_client_sequence (hs_state old))) in
  let st := cld_state d in
  let latest := latestHeight (clientState st) in
  match List.filter (fun kv => bool_decide (kv.1 = latest)) (consensusStates st) with
  | [(_, c)] =>
      bool_decide ((r ← apply_update (raw (ibc_state_root (hs_state old))) (client_key client_id) [] (serialise_client (clientState st))
                          (raw <$> client_siblings);
                    apply_update r (consensus_key client_id latest) [] (serialise_consensus c) (raw <$> consensus_siblings)) =
                   Some (raw (ibc_state_root (hs_state new))))
  | _ => false
  end.

Fixpoint apply_removed_consensus_state_updates (root client_id : bytes) (removed : list (Height * ConsensusState)) (siblings : list (list string))
  : option bytes :=
  match removed, siblings with
  | [], [] => Some root
  | (h, c) :: removed', s :: siblings' =>
      r ← apply_update root (consensus_key client_id h) (serialise_consensus c) [] (raw <$> s);
      apply_removed_consensus_state_updates r client_id removed' siblings'
  | _, _ => None
  end.

Definition update_client_root (old new : HostStateDatum) (client_id : bytes) (input output : ClientDatum)
    (client_siblings consensus_siblings : list string) (removed_siblings : list (list string)) : bool :=
  let inp := consensusStates (cld_state input) in let out := consensusStates (cld_state output) in
  let removed := List.filter (fun kv => negb (has_height out kv.1)) inp in
  let added := List.filter (fun kv => negb (has_height inp kv.1)) out in
  bool_decide (
    (r1 ← apply_update (raw (ibc_state_root (hs_state old))) (client_key client_id) (serialise_client (clientState (cld_state input)))
            (serialise_client (clientState (cld_state output))) (raw <$> client_siblings);
     r2 ← apply_removed_consensus_state_updates r1 client_id removed removed_siblings;
     match added with
     | [] => Some r2
     | [(h, c)] => apply_update r2 (consensus_key client_id h) [] (serialise_consensus c) (raw <$> consensus_siblings)
     | _ => None
     end) = Some (raw (ibc_state_root (hs_state new)))).
End roots.

(** ** Handshakes over a client

    The minting policy of a channel open init, the operation policy of a channel open ack
    and the connection script's branch for a connection open ack read the status of the
    client at the end of the validity interval.  Their arguments are the datums, redeemers and reference inputs they find
    in the transaction. *)

(** [order.string] *)
Definition order_string (o : Order) : bytes :=
  utf8 match o with OrderNone => "ORDER_NONE_UNSPECIFIED" | Unordered => "ORDER_UNORDERED" | Ordered => "ORDER_ORDERED" end.

(** [version.verify_supported_feature] *)
Definition verify_supported_feature (v : Version) (feature : bytes) : bool := bool_decide (feature ∈ raw <$> features v).

Definition client_active_at (client : ClientDatumState) (tx_valid_to : Z) : bool :=
  is_status_active (status (clientState client) (tx_valid_to * 1000000) (consensusStates client)).

(** [expect [connection_version] = versions] and the ordering's feature in it *)
Definition supports_ordering (connection : ConnectionEnd) (o : Order) : bool :=
  match conn_versions connection with [v] => verify_supported_feature v (order_string o) | _ => false end.

(** [minting_channel_stt.ak] on a channel open init. *)
Definition mint_channel_open_init {A} (datum : ChannelDatum) (channel_token : AuthToken) (channel_id : bytes) (connection : ConnectionEnd)
    (client : ClientDatumState) (tx_valid_to : Z) (callback : IBCModuleCallback A) : Prop :=
  (exists connection_id, ch_connection_hops (obj_val (channel (cd_state datum))) = [connection_id]) /\
  supports_ordering connection (ch_ordering (obj_val (channel (cd_state datum)))) = true /\
  client_active_at client tx_valid_to = true /\
  validate_chan_open_init datum channel_token = true /\ callback = OnChanOpenInit (hex_encode channel_id).

(** The mint handler of [chan_open_ack.ak]. *)
Definition chan_open_ack_mint {A} (redeemer : SpendChannelRedeemer) (callback : IBCModuleCallback A) (channel_id : bytes)
    (connection : ConnectionEnd) (client : ClientDatumState) (tx_valid_to : Z) (proof_redeemer : option VerifyProofRedeemer)
    (datum updated_datum : ChannelDatum) : Prop :=
  match redeemer, ch_connection_hops (obj_val (channel (cd_state datum))) with
  | ChanOpenAck counterparty_version proof_try proof_height, [_] =>
      conn_state connection = ConnOpen /\
      supports_ordering connection (ch_ordering (obj_val (channel (cd_state datum)))) = true /\
      client_active_at client tx_valid_to = true /\
      callback = OnChanOpenAck (hex_encode channel_id) /\
      validate_chan_open_ack datum updated_datum = true /\
      ack_proof_ok proof_redeemer connection client channel_id updated_datum counterparty_version proof_try proof_height
  | _, _ => False
  end.

(** The open-ack branch of [spending_connection.ak]. *)
Definition spend_connection_open_ack (datum updated_datum : ConnectionDatum) (client : ClientDatumState) (connection_id : bytes)
    (tx_valid_to : Z) (proof_redeemer : option VerifyProofRedeemer) : Prop :=
  conn_open_ack_proof_ok proof_redeemer client connection_id (cnd_state updated_datum) /\
  is_connection_open_ack_valid datum updated_datum = true /\ client_active_at client tx_valid_to = true.

(** ** The life of a client

    Created with any datum the mint validator accepts, then any number of datums the
    spend validator accepts. *)

Inductive client_chain `{TmCrypto} (token : AuthToken) : ClientDatum -> Prop :=
| ClientCreated d valid_from valid_to : mint_client d token valid_from valid_to = true -> client_chain token d
| ClientSpent d d' msg valid_from valid_to : client_chain token d -> spend_client d d' msg valid_from valid_to = true -> client_chain token d'.
