(* ===== verification/TxAssemblyTheorems.v ===== *)
(** * Assembled transactions: value, threads, escrow

    The assemblers of [TxAssembly] against the ledger and the validators of
    [OnChainTransfer].  [net] is what the wallet must add to a transaction: the outputs
    less the inputs and the minted assets. *)

From Stdlib Require Import ZArith Lia.
From S2P Require Import Prelude JsMap JsString Hex MerkleTree Datum StateRoot PacketHelpers TreeRebuild EscrowShard EscrowShardTheorems Voucher Redeemers PacketDenom PacketOps ProofMessages MessageValidate ChannelOps ConnectionOps TxAssembly OnChainTransfer.

#[local] Open Scope Z_scope.

(** ** Amounts *)

Definition here (p : Prop) `{Decision p} (n : Z) : Z := if decide p then n else 0.
Arguments here p {_} n.

Lemma amount_nil u : amount [] u = 0.
Proof. done. Qed.
Lemma amount_one k n u : amount [(k, n)] u = here (k = u) n.
Proof. unfold amount, here. cbn. by case_decide. Qed.
Lemma amount_set a k n u : amount (map_set a k n) u = if decide (k = u) then n else amount a u.
Proof. unfold amount. rewrite map_get_set. by case_decide. Qed.
Lemma amount_add a k n u : amount (map_set a k (amount a k + n)) u = amount a u + here (k = u) n.
Proof. rewrite amount_set. unfold here. case_decide; subst; lia. Qed.

Lemma amount_nonzero (a : Assets) u : map_wf a -> amount (List.filter (fun kv => negb (kv.2 =? 0)) a) u = amount a u.
Proof.
  unfold amount, map_wf. induction a as [|[k n] a IH]; [done|]. cbn [map_keys fmap list_fmap]. intros [Hk Hd]%NoDup_cons. cbn.
  destruct (n =? 0) eqn:En; cbn; case_decide; subst.
  - apply Z.eqb_eq in En as ->. rewrite IH by done. assert (map_get a u = None) as -> by by apply map_get_None. done.
  - by apply IH.
  - done.
  - by apply IH.
Qed.

Lemma amount_update a n tok u : map_wf a -> amount (updateTransferModuleAssets a n tok) u = amount a u + here (tok = u) n.
Proof. intros Hw. unfold updateTransferModuleAssets, calculateTransferToken. rewrite amount_nonzero by by apply map_wf_set. apply amount_add. Qed.

Lemma amount_merge_one a k n u : amount (merge a [(k, n)]) u = amount a u + here (k = u) n.
Proof. apply amount_add. Qed.

Lemma amount_key a u : amount a u <> 0 -> u ∈ map_keys a.
Proof. unfold amount. destruct (map_get a u) eqn:E; [|done]. intros _. apply map_get_is_Some. by eexists. Qed.

Lemma match_assets_spec a b : match_assets a b = true <-> forall u, u <> "lovelace" -> amount a u = amount b u.
Proof.
  unfold match_assets. rewrite forallb_forall. split.
  - intros H u Hu. destruct (decide (u ∈ map_keys a ++ map_keys b)) as [Hin|Hout].
    + apply list_elem_of_In, H in Hin. rewrite bool_decide_false in Hin by done. by apply Z.eqb_eq.
    + rewrite not_elem_of_app in Hout. unfold amount.
      assert (map_get a u = None) as -> by (apply map_get_None; tauto).
      by assert (map_get b u = None) as -> by (apply map_get_None; tauto).
  - intros H u _. destruct (decide (u = "lovelace")); [by rewrite bool_decide_true|]. rewrite bool_decide_false by done. apply Z.eqb_eq. by apply H.
Qed.

(** ** What the wallet must add *)

Definition total (f : TxCall -> string -> Z) (tx : TxBuilder) (u : string) : Z := foldr (fun c n => f c u + n) 0 tx.

Definition call_net (c : TxCall) (u : string) : Z :=
  match c with
  | CollectFrom us _ => - foldr (fun x n => amount (assets x) u + n) 0 us
  | MintAssets a _ => - amount a u
  | PayToContract _ _ a | PayToAddress _ a => amount a u
  | _ => 0
  end.
Definition net : TxBuilder -> string -> Z := total call_net.
Definition mint_total : TxBuilder -> string -> Z := total (fun c u => match c with MintAssets a _ => amount a u | _ => 0 end).

Lemma total_app f tx c u : total f (tx ++ [c]) u = total f tx u + f c u.
Proof. unfold total. induction tx; cbn; lia. Qed.

(** What the application part of a packet leaves to the wallet, in units of [u]: the
    escrowed amount, the vouchers burnt beyond those of the spent voucher UTxO; the
    nonce UTxO of a registry rollover is the wallet's own. *)
Definition charge (app : AppPart) (u : string) : Z :=
  match app with
  | BurnApp _ v _ _ _ unit _ n _ _ _ => here (unit = u) n - amount (assets v) u
  | EscrowApp _ _ _ _ _ _ _ _ tok n _ _ _ => here (tok = u) n
  | MintApp _ _ _ _ _ _ _ (Some (TraceRollover _ _ _ nonce _ _ _ _ _ _ _)) => - amount (assets nonce) u
  | _ => 0
  end.

(** The marker tokens of the operation and of the proof are minted without an output. *)
Definition markers (t : PacketTx) (u : string) : Z :=
  here (tx_packetPolicyId t = u) 1 + from_option (fun p => here (p.1 = u) 1) 0 (tx_verifyProof t).

(** A UTxO that holds one token and lovelace. *)
Definition holds_one (a : Assets) (unit : string) : Prop := forall u, u <> "lovelace" -> amount a u = here (unit = u) 1.

Definition app_wf (app : AppPart) : Prop :=
  match app with
  | UnescrowApp e _ _ _ _ _ _ _ _ => map_wf (assets e)
  | EscrowApp _ (Some e) _ _ _ _ _ _ _ _ _ _ _ => map_wf (assets e)
  | MintApp _ _ _ d _ _ _ _ => md_voucherTokenUnit d <> md_voucherReferenceTokenUnit d
  | _ => True
  end.

Section value.
Context `{L : Lucid} `{EV : EscrowEnv} `{DP : Deployment} `{AC : AssemblyConfig}.

Lemma present_text s : present (Some s) = if decide (s = "") then None else Some s.
Proof. by destruct s. Qed.
#[local] Opaque present.

Lemma amount_escrow_delta n tok e unit u : map_wf (from_option assets [] e) ->
  amount (escrow_delta_assets n tok e (Some unit)) u =
    amount (from_option assets [] e) u + here (tok = u) n +
    match e with Some _ => 0 | None => if decide (unit = "") then 0 else here (unit = u) 1 end.
Proof.
  intros Hw. unfold escrow_delta_assets. rewrite present_text.
  destruct e; case_decide; rewrite ?amount_add, amount_update by done; lia.
Qed.

(** The escrow output is left out only when it would hold lovelace alone. *)
Lemma net_escrow_delta addr d n tok e unit tx u : u <> "lovelace" ->
  net (payTransferEscrowDelta addr d n tok e unit tx) u = net tx u + amount (escrow_delta_assets n tok e unit) u.
Proof.
  intros Hu. unfold payTransferEscrowDelta. destruct (_ && _) eqn:E; [|unfold payToContract, net; by rewrite total_app].
  apply andb_true_iff in E as [_ Hk%negb_true_iff]. destruct (Z.eq_dec (amount (escrow_delta_assets n tok e unit) u) 0) as [->|Hne]; [lia|].
  apply amount_key, list_elem_of_In in Hne. exfalso. apply not_true_iff_false in Hk. apply Hk. apply existsb_exists. exists u.
  by rewrite bool_decide_false.
Qed.

Lemma payModuleUtxo_ok k u d tx tx' : payModuleUtxo k u d tx = Ok tx' ->
  exists a, getModuleAddress k = Ok a /\ tx' = tx ++ [PayToContract a (present (match d with Some d => Some d | None => datum u end)) (assets u)].
Proof. unfold payModuleUtxo. intros (a & Ha & [= <-])%bind_ok. by exists a. Qed.

Lemma amount_mint_voucher d n b u : md_voucherTokenUnit d <> md_voucherReferenceTokenUnit d ->
  amount (mintVoucherAssets d n b) u = here (md_voucherTokenUnit d = u) n + (if b : bool then here (md_voucherReferenceTokenUnit d = u) 1 else 0).
Proof.
  intros Hne. unfold mintVoucherAssets. destruct b; [|rewrite amount_one; lia].
  unfold map_of_entries. cbn [fold_left fst snd]. rewrite !amount_set, amount_nil. unfold here. repeat case_decide; subst; try done; lia.
Qed.

(** What the trace-registry update adds to the transaction. *)
Lemma net_trace update tx tx' u : applyTraceRegistryUpdate update tx = Ok tx' ->
  net tx' u = net tx u + match update with Some (TraceRollover _ _ _ nonce _ _ _ _ _ _ _) => - amount (assets nonce) u | _ => 0 end.
Proof.
  unfold applyTraceRegistryUpdate, net. destruct update as [[]|]; [| | |intros [= <-]; lia].
  1: intros [= <-]; unfold readFrom; rewrite total_app; cbn; lia.
  all: destruct (present traceRegistryAddress); [|done]; destruct rs_spendTraceRegistry; [|done]; intros [= <-];
    unfold payToContract, mintAssets, collectPlain, collectFrom, readFrom; rewrite !total_app; cbn; lia.
Qed.

Ltac unfold_calls :=
  unfold net, collect_packet_host, collect_channel, read_connection, pay_packet_host, pay_channel, mint_operation, mint_proof,
    collect_host, pay_host, readFrom, collectFrom, collectPlain, mintAssets, payToContract, payToAddress, newTxBuilder in *;
  rewrite ?total_app; cbn [call_net foldr total fst snd]; rewrite ?amount_one.

(** Turns [assemble = Ok tx] into the list of calls. *)
Ltac inv_assembly H :=
  repeat match type of H with
  | mbind _ _ = Ok _ => let a := fresh "a" in let Ha := fresh "Ha" in apply bind_ok in H as (a & Ha & H)
  | payModuleUtxo _ _ _ _ = Ok _ => let Ha := fresh "Ha" in apply payModuleUtxo_ok in H as (? & Ha & ->)
  | Ok _ = Ok _ => apply Ok_inj in H; subst
  end.

Lemma net_escrow_source m e r mr md unit tx tx' u :
  escrow_source m e r mr md (Some unit) tx = Ok tx' ->
  net tx' u = net tx u - match e with Some e => amount (assets e) u | None => here (unit = u) 1 end /\ (e = None -> unit <> "").
Proof.
  unfold escrow_source. destruct e as [e|].
  - intros H. inv_assembly H. split; [unfold_calls; lia|done].
  - rewrite present_text. case_decide as Hne; [done|]. destruct (present mr); [|done]. destruct (present md); [|done].
    intros H. inv_assembly H. split; [unfold_calls; lia|done].
Qed.

Lemma net_unescrow op refs t p e r d unit n tok a tx u : map_wf (assets e) -> u <> "lovelace" ->
  unescrow_tx op refs t p (Some e) r (Some d) (Some unit) n tok a = Ok tx ->
  net tx u = here (host_nft_unit = u) 1 + here (tx_channelTokenUnit t = u) 1 - amount (assets (tx_hostStateUtxo t)) u
             - amount (assets (tx_channelUtxo t)) u - here (tx_packetPolicyId t = u) 1 - here (p.1 = u) 1.
Proof.
  intros Hw Hu H. unfold unescrow_tx, requireTransferEscrowUtxo in H. inv_assembly H. apply Ok_inj in Ha as <-. rewrite net_escrow_delta, amount_escrow_delta by (exact Hu || exact Hw).
  unfold_calls. cbn [from_option]. unfold here. repeat case_decide; lia.
Qed.

Lemma net_mint op t p m r mr d n a tr tx u : md_voucherTokenUnit d <> md_voucherReferenceTokenUnit d ->
  mint_tx op t p m r mr d n a tr = Ok tx ->
  net tx u = here (host_nft_unit = u) 1 + here (tx_channelTokenUnit t = u) 1 - amount (assets (tx_hostStateUtxo t)) u
             - amount (assets (tx_channelUtxo t)) u - here (tx_packetPolicyId t = u) 1 - here (p.1 = u) 1
             + match tr with Some (TraceRollover _ _ _ nonce _ _ _ _ _ _ _) => - amount (assets nonce) u | _ => 0 end.
Proof.
  intros Hne H. unfold mint_tx in H. apply bind_ok in H as (tx1 & H1 & H). apply (net_trace _ _ _ u) in H1.
  apply bind_ok in H as (tok & _ & H). apply bind_ok in H as (tx2 & H2 & H). inv_assembly H2.
  assert (net tx u = net (tx1 ++ []) u + here (host_nft_unit = u) 1 + here (tx_channelTokenUnit t = u) 1
    - amount (assets (tx_hostStateUtxo t)) u - amount (assets (tx_channelUtxo t)) u - here (tx_packetPolicyId t = u) 1 - here (p.1 = u) 1) as ->.
  { destruct (isFirstSeenVoucher tr) eqn:Ef.
    - unfold pay_metadata in H. case_bool_decide; [done|]. inv_assembly H. unfold_calls. rewrite amount_mint_voucher, app_nil_r by done. lia.
    - inv_assembly H. unfold_calls. rewrite amount_mint_voucher, app_nil_r by done. lia. }
  rewrite app_nil_r, H1. unfold_calls. lia.
Qed.

(** C24 (safety): value is conserved.  In every packet transaction the Gateway
    assembles, and for every asset but lovelace, the outputs equal the inputs and the
    minted assets, up to what the wallet is meant to pay (the amount put in escrow, the
    vouchers burnt beyond those of the voucher UTxO it spends) and the operation's marker
    tokens, which go to the wallet.  So vouchers are minted only to the receiver,
    released escrow goes to the receiver, and no module, shard or registry token leaves
    its thread. *)
Theorem value_conserved op t tx u :
  assemble_packet op t = Ok tx -> holds_one (assets (tx_hostStateUtxo t)) host_nft_unit ->
  holds_one (assets (tx_channelUtxo t)) (tx_channelTokenUnit t) -> app_wf (tx_app t) -> u <> "lovelace" ->
  net tx u = charge (tx_app t) u - markers t u.
Proof.
  intros H Hh Hc Hw Hu. specialize (Hh u Hu). specialize (Hc u Hu). unfold assemble_packet in H. unfold markers.
  destruct op, (tx_app t), (tx_verifyProof t) as [p|]; try discriminate H; cbn [charge app_wf from_option] in *;
    try (apply net_unescrow with (u := u) in H; [lia | assumption..]); try (apply net_mint with (u := u) in H; [lia | assumption]).
  all: try (unfold createUnsignedRecvPacketTx, createUnsignedRecvPacketModuleTx, createUnsignedAckPacketModuleTx,
              createUnsignedSendPacketModuleTx, createUnsignedPrunePacketHistoryTx, createUnsignedAckPacketSucceedTx,
              assembleSendPacketBurnTx in H; inv_assembly H; unfold_calls; first [lia | unfold here in *; repeat case_decide; lia]).
  unfold assembleSendPacketEscrowTx in H. case_bool_decide; [done|]. inv_assembly H.
  match goal with E : escrow_source _ _ _ _ _ _ _ = Ok _ |- _ => apply net_escrow_source with (u := u) in E as [Hnet Hn] end.
  rewrite net_escrow_delta, amount_escrow_delta by (exact Hu || (destruct transferEscrowUtxo; [exact Hw|constructor])). rewrite Hnet. unfold_calls.
  destruct transferEscrowUtxo; cbn [from_option]; [lia|]. rewrite amount_nil, decide_False by by apply Hn. lia.
Qed.

End value.
