(* ===== verification/EscrowTxTheorems.v ===== *)
(** * Escrow transactions and the transfer validator

    The escrow shard a builder looked up, the transaction assembled for it, and the
    transfer validator's value checks of both ([escrow.ak], [refund.ak],
    [spending_transfer_module.ak]).  The ledger sees the transaction
    as completed by Lucid: wallet inputs and change outputs are added, and outputs are
    topped up with lovelace to the minimum they need ([completed]). *)

From Stdlib Require Import ZArith Lia.
From S2P Require Import Prelude JsMap JsString Hex MerkleTree OnChainCommitment Datum StateRoot PacketHelpers TreeRebuild EscrowShard EscrowShardTheorems Voucher Redeemers PacketDenom PacketOps ProofMessages MessageValidate ChannelOps ConnectionOps TxAssembly OnChainHostState OnChainTransfer TxAssemblyTheorems.

#[local] Open Scope Z_scope.

(** What the code relies on of the datum codec and of the UTxO provider. *)
Class EscrowCodecOk `{EV : EscrowEnv} : Prop := decode_encode_escrow d e : encode_transferEscrow d = Ok e -> decode_transferEscrow e = Ok d.
Class ModuleCodecOk `{EV : EscrowEnv} : Prop := decode_encode_module r e : encode_transferModule r = Ok e -> decode_transferModule e = Ok r.
Class ProviderOk `{EV : EscrowEnv} `{UA : UtxoAddress} : Prop :=
  provider_address a us u : findUtxoAt a = Ok us -> u ∈ us -> utxo_address u = a.

(** ** Completion by Lucid *)

Definition tops_up (o o' : TxOutput) : Prop :=
  out_address o' = out_address o /\ out_datum o' = out_datum o /\
  (forall u, u <> "lovelace" -> amount (out_assets o') u = amount (out_assets o) u) /\
  lovelace_of (out_assets o) <= lovelace_of (out_assets o').

(** [wallet] are the inputs and [change] the outputs that are added; [units] are tokens
    the wallet does not hold. *)
Definition completed_with `{UA : UtxoAddress} (wallet change : list TxOutput) (units : list string) (tx : TxBuilder)
    (ins outs : list TxOutput) : Prop :=
  exists tops, ins ≡ₚ ((fun ur => located ur.1) <$> spent tx) ++ wallet /\
    Forall2 tops_up (outputs tx) tops /\ outs = tops ++ change /\
    Forall (fun o => forall u, u ∈ units -> amount (out_assets o) u = 0) (wallet ++ change).
Definition completed `{UA : UtxoAddress} (units : list string) (tx : TxBuilder) (ins outs : list TxOutput) : Prop :=
  exists wallet change, completed_with wallet change units tx ins outs.

Lemma tops_up_amount o o' u : tops_up o o' -> amount (out_assets o) u <= amount (out_assets o') u.
Proof. intros (_ & _ & Hu & Hl). destruct (decide (u = "lovelace")) as [->|Hne]; [exact Hl|]. rewrite Hu by done. lia. Qed.

Lemma tops_up_nft o o' u : tops_up o o' -> u <> "lovelace" -> has_nft o' u = has_nft o u.
Proof. intros (_ & _ & Hu & _) Hne. unfold has_nft. by rewrite Hu. Qed.

Lemma tops_up_delta base o o' delta : tops_up o o' -> (forall u, amount (out_assets o) u = amount (merge (out_assets base) delta) u) ->
  validate_output_amount base o' delta = true.
Proof.
  intros Ht Ha. unfold validate_output_amount. apply andb_true_iff. split.
  - apply Z.leb_le. unfold lovelace_of. rewrite <- Ha. pose proof (tops_up_amount _ _ "lovelace" Ht). lia.
  - apply match_assets_spec. intros u Hu. rewrite <- Ha. by apply Ht.
Qed.

(** ** Names and units on both sides *)

Section agree.
Context `{BL : Blake2b}.

Lemma hex_value_fromHexChar b : hex_value b = match fromHexChar b with Ok n => Some n | Err _ => None end.
Proof. by destruct b. Qed.

Lemma hex_value_lt b n : hex_value b = Some n -> (n < 16)%N.
Proof. by destruct b; vm_compute; intros [= <-]. Qed.

Lemma join_nibbles x y : (x < 16)%N -> (y < 16)%N -> (x * 16 + y)%N = N.lor (N.shiftl x 4) y.
Proof.
  intros Hx Hy. set (range := N.of_nat <$> seq 0 16). assert (forall n, (n < 16)%N -> In n range) as Hin.
  { intros n Hn. apply list_elem_of_In, list_elem_of_fmap. exists (N.to_nat n). split; [lia|]. apply elem_of_seq. lia. }
  assert (forallb (fun x => forallb (fun y => (x * 16 + y =? N.lor (N.shiftl x 4) y)%N) range) range = true) as H by by vm_compute.
  rewrite forallb_forall in H. specialize (H x (Hin x Hx)). rewrite forallb_forall in H. by apply N.eqb_eq, H, Hin.
Qed.

Lemma hex_string_all l : Nat.even (length l) = true -> forallb is_hex_byte l = true ->
  hex_string_to_bytes l = Some (hex_decode_go l) /\ (2 * length (hex_decode_go l) = length l)%nat.
Proof.
  intros He Hh. unfold hex_string_to_bytes. rewrite He. revert l He Hh.
  assert (forall n l, (length l <= n)%nat -> Nat.even (length l) = true -> forallb is_hex_byte l = true ->
    do_hex_string_to_bytes l = Some (hex_decode_go l) /\ (2 * length (hex_decode_go l) = length l)%nat) as IH;
    [|intros l; by apply (IH (length l))].
  induction n as [|n IH]; intros [|a [|b l]] Hl He Hh; try done; cbn in Hl; try lia. cbn in He. cbn [forallb] in Hh.
  apply andb_true_iff in Hh as [Ha Hh]. apply andb_true_iff in Hh as [Hb Hh]. unfold is_hex_byte in Ha, Hb.
  apply bool_decide_eq_true in Ha as [x Hx]. apply bool_decide_eq_true in Hb as [y Hy].
  pose proof (hex_value_lt _ _ Hx) as Lx. pose proof (hex_value_lt _ _ Hy) as Ly.
  destruct (IH l) as [IH1 IH2]; [lia|done|done|].
  cbn [do_hex_string_to_bytes hex_decode_go]. rewrite Hx, Hy. cbn [mbind option_bind]. rewrite IH1. cbn [mbind option_bind].
  rewrite hex_value_fromHexChar in Hx, Hy. destruct (fromHexChar a); [|done]. destruct (fromHexChar b); [|done]. simplify_eq.
  rewrite join_nibbles by done. split; [done|]. cbn [length]. lia.
Qed.

(** The asset of a packet denomination. *)
Lemma token_agrees p tok : escrowDenomTokenFromPacketDenom p = Ok tok -> hex_string_to_bytes (hex_decode_prefix p) ≫= extract_token_unit = Some tok.
Proof.
  unfold escrowDenomTokenFromPacketDenom, decodeHexBytes. intros H. destruct (_ || _); [done|]. cbn [mbind result_bind] in H.
  case_decide as Hcan; [done|]. destruct (_ || _) eqn:Ehex; [done|].
  apply orb_false_iff in Ehex as [Hodd Hhex%negb_false_iff]. unfold is_hex_text, all_hex in Hhex. apply andb_true_iff in Hhex as [_ Hhex].
  unfold str_length in Hodd, H. rewrite <- Nat.negb_even in Hodd. apply negb_false_iff in Hodd.
  destruct (hex_string_all _ Hodd Hhex) as [Hs Hlen]. rewrite <- Hcan, Hs. cbn [mbind option_bind]. fold (hex_decode_prefix (utf8_decode (hex_decode_prefix p))) in *.
  set (d := hex_decode_prefix (utf8_decode (hex_decode_prefix p))) in *. unfold extract_token_unit. case_decide as Hl.
  - destruct Hl as [_ ->]. apply Ok_inj in H as <-. by rewrite decide_True.
  - rewrite decide_False by (intros Hd; apply Hl; rewrite Hd; split; [by vm_compute|done]). case_decide as Hb; [done|].
    apply Ok_inj in H as <-. assert (28 <= length d <= 60)%nat as [H1 H2] by lia.
    apply Nat.leb_le in H1, H2. by rewrite H1, H2.
Qed.

(** The token of a shard. *)
Lemma shard_unit_agrees policy c p name : transferEscrowShardTokenName c p = Ok name ->
  escrow_shard_unit policy (MkTransferEscrowDatum c p) = Some (policy +:+ name).
Proof.
  unfold transferEscrowShardTokenName, hashBlake2b224, shard_preimage. intros H. inv_bind H. apply bind_ok in E1 as (l1 & L1 & E1).
  apply bind_ok in E1 as (l2 & L2 & E1). apply Ok_inj in E1 as <-. rewrite <- toHex_hex_encode, fromHex_toHex in E2. apply Ok_inj in E2 as <-.
  apply Ok_inj in H as <-. unfold decodeHexBytes in E, E0. destruct (Nat.odd (str_length c) || negb (all_hex c)); [done|].
  destruct (Nat.odd (str_length p) || negb (all_hex p)); [done|]. apply Ok_inj in E as <-. apply Ok_inj in E0 as <-.
  unfold uint32BigEndian in L1, L2. destruct (_ <? _)%N eqn:E1 in L1; [done|]. destruct (_ <? _)%N eqn:E2 in L2; [done|].
  apply Ok_inj in L1 as <-. apply Ok_inj in L2 as <-.
  unfold escrow_shard_unit, shard_token_name, shard_token_preimage. cbn [channel_id denom].
  apply N.ltb_ge in E1, E2. apply N.leb_le in E1, E2. by rewrite E1, E2.
Qed.

End agree.

Section escrow.
Context `{SHA : Sha256} `{BL : Blake2b} `{L : Lucid} `{EV : EscrowEnv} `{DP : Deployment} `{AC : AssemblyConfig} `{UA : UtxoAddress}.
Context (port_token module_token : string).

Abbreviation classify := (classify_transfer_module_spend shardPolicyId port_token module_token).
Abbreviation transition_ok := (validate_module_escrow_transition shardPolicyId).

Lemma canonical_amounts e tok unit : escrowShardHasCanonicalAssets e tok unit = true ->
  amount (assets e) unit = 1 /\ forall u, u <> "lovelace" -> u <> tok -> amount (assets e) u = here (unit = u) 1.
Proof.
  intros [H1%Z.eqb_eq H2]%andb_true_iff. split; [exact H1|]. intros u Hl Ht. unfold here. case_decide as Hu; [by subst|].
  unfold amount. destruct (map_get (assets e) u) eqn:E; [|done]. rewrite forallb_forall in H2.
  assert (In u (map_keys (assets e))) as Hin by (apply list_elem_of_In, map_get_is_Some; by eexists).
  apply H2, bool_decide_eq_true in Hin as [|[|]]; congruence.
Qed.

Lemma single_asset o d tok unit : escrow_shard_unit shardPolicyId d = Some unit -> unit <> tok ->
  (forall u, u <> "lovelace" -> u <> tok -> amount (out_assets o) u = here (unit = u) 1) ->
  escrow_value_is_single_asset shardPolicyId o d tok = true.
Proof.
  intros Hd Hne Ho. unfold escrow_value_is_single_asset. rewrite Hd. apply match_assets_spec. intros u Hu. case_decide as Ht.
  - rewrite amount_one. apply Ho; congruence.
  - rewrite amount_merge_one, amount_one. destruct (decide (u = tok)) as [->|Hut].
    + unfold here. rewrite decide_False, decide_True by done. lia.
    + rewrite Ho by done. assert (here (tok = u) (amount (out_assets o) tok) = 0) as -> by (unfold here; by rewrite decide_False by done). lia.
Qed.

Lemma no_match o address d unit : escrow_shard_unit shardPolicyId d = Some unit -> has_nft o unit = false ->
  escrow_output_matches shardPolicyId o address d = Some false.
Proof. intros Hd Hn. unfold escrow_output_matches, escrow_shard_has_nft. rewrite Hd, Hn. by rewrite orb_true_r. Qed.

Lemma no_matches l address d unit : escrow_shard_unit shardPolicyId d = Some unit -> Forall (fun o => has_nft o unit = false) l ->
  filter_matches shardPolicyId l address d = Some [].
Proof. intros Hd. induction 1 as [|o l Ho _ IH]; [done|]. cbn [filter_matches]. erewrite no_match by done. cbn. by rewrite IH. Qed.

Lemma one_match l1 o l2 d unit data : escrow_shard_unit shardPolicyId d = Some unit ->
  Forall (fun o => has_nft o unit = false) (l1 ++ l2) -> has_nft o unit = true -> out_datum o = Some data -> decode_transferEscrow data = Ok d ->
  filter_matches shardPolicyId (l1 ++ o :: l2) (out_address o) d = Some [o].
Proof.
  intros Hd [H1 H2]%Forall_app Hn Ho Hdec. induction H1 as [|x l1 Hx _ IH]; cbn [filter_matches app].
  - unfold escrow_output_matches, escrow_shard_has_nft. rewrite Hd, Hn, Ho, Hdec, !bool_decide_true by done. cbn.
    by rewrite (no_matches _ _ _ _ Hd H2).
  - erewrite no_match by done. cbn. by rewrite IH.
Qed.

(** The shard of a lookup and its value. *)
Record shard_state (e : UTxO) (enc : string) (d : TransferEscrowDatum) (unit tok : string) : Prop := {
  sh_unit : escrow_shard_unit shardPolicyId d = Some unit;
  sh_datum : datum e = Some enc;
  sh_decode : decode_transferEscrow enc = Ok d;
  sh_assets : escrowShardHasCanonicalAssets e tok unit = true;
  sh_wf : map_wf (assets e);
  sh_address : utxo_address e = transferModuleAddress;
}.

(** The escrow output the assembler pays for a spent shard. *)
Definition shard_output (enc tok : string) (n : Z) (e : option UTxO) (unit : string) : TxOutput :=
  MkTxOutput transferModuleAddress (Some enc) (escrow_delta_assets n tok e (Some unit)).

Lemma shard_output_amount e enc d unit tok n u : shard_state e enc d unit tok ->
  amount (out_assets (shard_output enc tok n (Some e) unit)) u = amount (assets e) u + here (tok = u) n.
Proof. intros []. cbn [shard_output out_assets]. rewrite amount_escrow_delta by done. cbn [from_option]. lia. Qed.

(** Spending a shard and paying its successor is the transition the validator asks for,
    whatever else the transaction does. *)
Lemma shard_update_accepted e enc d unit tok n o pre post ins mint :
  shard_state e enc d unit tok -> unit <> tok -> unit <> "lovelace" -> module_token ∉ ["lovelace"; tok; unit] ->
  0 <= quantity e tok + n -> mint unit = 0 -> tops_up (shard_output enc tok n (Some e) unit) o ->
  Forall (fun o => has_nft o unit = false) (pre ++ post) ->
  exists spend, classify (located e) (pre ++ o :: post) = Some spend /\
    transition_ok (located e) spend ins (pre ++ o :: post) d mint n [(tok, n)] tok = true.
Proof.
  intros Hs Hut Hul Hm Hq Hmint Ht Hother. pose proof Hs as [Hd Hdat Hdec Hcan Hwf Haddr].
  destruct (canonical_amounts _ _ _ Hcan) as [H1 Hsingle].
  assert (has_nft o unit = true) as Hnft.
  { rewrite (tops_up_nft _ _ _ Ht Hul). unfold has_nft. rewrite (shard_output_amount _ _ _ _ _ _ _ Hs), H1. unfold here. by rewrite decide_False. }
  destruct Ht as (Ha & Hod & Hnon & Hlov) eqn:Ht'. clear Ht'.
  exists (EscrowShardSpend d (Some o)). split.
  - unfold classify_transfer_module_spend, has_module_state_tokens. assert (has_nft (located e) module_token = false) as ->.
    { unfold has_nft. cbn [located out_assets]. rewrite !not_elem_of_cons in Hm. rewrite Hsingle by tauto. unfold here. rewrite decide_False; [done|]. intros ->. tauto. }
    rewrite andb_false_r. cbn [located out_datum]. rewrite Hdat. cbn [mbind option_bind]. rewrite Hdec. cbn [mbind option_bind].
    assert (escrow_shard_has_nft shardPolicyId (located e) d = true) as ->.
    { unfold escrow_shard_has_nft. rewrite Hd. unfold has_nft. cbn [located out_assets]. by rewrite H1. }
    unfold find_escrow_output. cbn [located out_address]. rewrite Haddr. change transferModuleAddress with (out_address (shard_output enc tok n (Some e) unit)). rewrite <- Ha, (one_match _ _ _ _ _ enc Hd Hother Hnft); done.
  - cbn [validate_module_escrow_transition validate_escrow_shard_update]. rewrite Hd, bool_decide_true by done.
    assert (escrow_shard_has_nft shardPolicyId (located e) d = true) as ->.
    { unfold escrow_shard_has_nft. rewrite Hd. unfold has_nft. cbn [located out_assets]. by rewrite H1. }
    rewrite (single_asset (located e) d tok unit Hd Hut Hsingle), amount_merge_one. cbn [located out_assets]. unfold here. rewrite decide_True by done.
    change (amount (assets e) tok) with (quantity e tok). apply Z.leb_le in Hq. rewrite Hq, Hmint. cbn [andb Z.eqb]. apply andb_true_iff. split.
    + eapply tops_up_delta; [exact (conj Ha (conj Hod (conj Hnon Hlov)))|]. intros u. by rewrite (shard_output_amount _ _ _ _ _ _ _ Hs), amount_merge_one.
    + apply (single_asset o d tok unit Hd Hut). intros u Hl Htk. rewrite Hnon, (shard_output_amount _ _ _ _ _ _ _ Hs) by done.
      rewrite Hsingle by done. unfold here at 2. rewrite decide_False by congruence. lia.
Qed.

(** ** The lookup *)

Context `{COK : !EscrowCodecOk} `{PROV : !ProviderOk}.

Lemma requested_denom c p tok0 required tok res : escrowDenomTokenFromPacketDenom p = Ok tok ->
  findTransferEscrowShard c p tok0 required = Ok res -> toLowerCase (trim tok0) = tok /\ toLowerCase shardPolicyId = shardPolicyId.
Proof.
  intros Ht. unfold findTransferEscrowShard. intros H. inv_bind H. case_decide; [done|]. case_decide as Hp; [done|].
  split; [congruence|]. destruct Hp as [_ Hp]. unfold is_lower_hex_text in Hp. apply andb_true_iff in Hp as [_ Hp].
  by apply bool_decide_eq_true in Hp.
Qed.

Lemma existing_shard_state c p tok0 required e enc unit m sibs : map_wf (assets e) ->
  findTransferEscrowShard c p tok0 required = Ok (ShardExisting e enc unit m sibs) ->
  exists tok, escrowDenomTokenFromPacketDenom p = Ok tok /\ toLowerCase (trim tok0) = tok /\ toLowerCase unit = unit /\
    shard_state e enc (MkTransferEscrowDatum c p) unit tok.
Proof.
  intros Hwf H. pose proof H as (encd & unit' & name & tok & utxos & mu & root & t0 & t & shards & key & ss & t1 &
    H1 & H2 & -> & H3 & H4 & _ & _ & [_ Hok _ _ _] & _ & _ & _ & Hres)%findTransferEscrowShard_inv.
  cbn [fst snd] in *. destruct (map_get shards (shardPolicyId +:+ name)) as [u'|] eqn:Eg; [|destruct Hres as (? & ? & ? & _ & _ & ?); done].
  destruct Hres as (Hd & _ & [= -> -> -> -> ->]). destruct (Hok _ _ Eg) as [Hu Hcan].
  pose proof (decode_encode_escrow _ _ H1) as Hdec. exists tok. split; [done|]. destruct (requested_denom _ _ _ _ _ _ H3 H) as [Hlow Hpol]. split; [done|].
  destruct Hcan as (sd & name' & tok' & dd & Hdo & Hds & Htok & _ & _ & _ & Ha). unfold datum_of in Hdo. rewrite Hd in Hdo.
  case_decide; [done|]. apply Some_inj in Hdo as <-. rewrite Hdec in Hds. apply Ok_inj in Hds as <-. cbn [denom] in Htok.
  rewrite H3 in Htok. apply Ok_inj in Htok as <-. split.
  - rewrite toLowerCase_app, (tokenName_lower _ _ _ H2), Hpol. done.
  - split; try done; [by apply shard_unit_agrees | by eapply provider_address].
Qed.

(** The asset unit found in a UTxO is the requested one up to case. *)
Lemma resolved_unit a requested unit : _resolveAssetUnitFromUtxoAssets a requested = Ok unit ->
  unit ∈ map_keys a /\ toLowerCase unit = toLowerCase (trim requested).
Proof.
  unfold _resolveAssetUnitFromUtxoAssets, _tryResolveAssetUnitFromAssets. rewrite !trim_idem. case_decide; [done|].
  destruct (map_has a (trim requested)) eqn:Eh.
  - intros [= <-]. apply bool_decide_eq_true in Eh. split; [by apply map_get_is_Some|done].
  - destruct (list_find _ _) as [[i u]|] eqn:Ef; [|done]. intros [= <-]. apply list_find_Some in Ef as (Hi & Hl & _). split; [|done].
    by eapply list_elem_of_lookup_2.
Qed.

(** In a canonical shard the requested asset is spelled the canonical way. *)
Lemma unescrow_source_ok c p req n nf e m enc unit tok : map_wf (assets e) -> unescrow_source c p req n nf = Ok (e, m, enc, unit, tok) ->
  escrowDenomTokenFromPacketDenom p = Ok tok /\ shard_state e enc (MkTransferEscrowDatum c p) unit tok /\ n <= quantity e tok.
Proof.
  intros Hw. unfold unescrow_source. intros (sh & Hf & H)%bind_ok. destruct sh as [e' enc' unit' m' sibs|]; [|done].
  apply bind_ok in H as (tok' & Hr & H). destruct (_ <? _) eqn:Elt; [done|]. apply Z.ltb_ge in Elt. injection H as -> -> -> -> ->.
  destruct (existing_shard_state _ _ _ _ _ _ _ _ _ Hw Hf) as (tok2 & Ht & Hlow & Hul & Hs).
  apply resolved_unit in Hr as [Hk Hl]. rewrite Hlow in Hl. assert (tok2 = tok) as Heq; [symmetry|rewrite Heq in *; done].
  pose proof (sh_assets _ _ _ _ _ Hs) as [_ Hall]%andb_true_iff. rewrite forallb_forall in Hall.
  apply list_elem_of_In in Hk. specialize (Hall tok Hk). apply bool_decide_eq_true in Hall. destruct Hall as [Hc|[Hc|Hc]]; [|done|congruence]. rewrite Hc in Hl |- *. exact Hl.
Qed.

Lemma outputs_app tx c : outputs (tx ++ [c]) = outputs tx ++ call_outputs c.
Proof. unfold outputs. rewrite bind_app. cbn. by rewrite app_nil_r. Qed.

(** The escrow output is paid whenever it keeps the shard token. *)
Lemma escrow_paid addr enc n tok e unit tx : unit <> "lovelace" -> amount (escrow_delta_assets n tok e (Some unit)) unit <> 0 ->
  payTransferEscrowDelta addr enc n tok e (Some unit) tx = tx ++ [PayToContract addr (Some enc) (escrow_delta_assets n tok e (Some unit))].
Proof.
  intros Hu Hk%amount_key. unfold payTransferEscrowDelta. assert (existsb (fun u => negb (bool_decide (u = "lovelace"))) (map_keys (escrow_delta_assets n tok e (Some unit))) = true) as ->.
  { apply existsb_exists. exists unit. split; [by apply list_elem_of_In|]. by rewrite bool_decide_false. }
  by rewrite andb_false_r.
Qed.

Lemma has_nft_one a d k u : u <> k -> has_nft (MkTxOutput a d [(k, 1)]) u = false.
Proof. intros Hne. unfold has_nft. cbn [out_assets]. rewrite amount_one. unfold here. by rewrite decide_False. Qed.

Lemma foreign_nft u l : Forall (fun o => forall x, x ∈ [u] -> amount (out_assets o) x = 0) l -> Forall (fun o => has_nft o u = false) l.
Proof. intros H. eapply Forall_impl; [exact H|]. intros o Ho. unfold has_nft. rewrite (Ho u); [done|]. by apply list_elem_of_singleton. Qed.

Lemma require_datum enc d : requireTransferEscrowDatum (Some enc) = Ok d -> d = enc.
Proof. unfold requireTransferEscrowDatum. rewrite present_text. by case_decide; intros [= <-]. Qed.

(** The outputs every packet transaction starts with. *)
Definition thread_outputs (t : PacketTx) : list TxOutput :=
  [MkTxOutput hostStateSttAddress (Some (tx_encodedUpdatedHostStateDatum t)) [(host_nft_unit, 1)];
   MkTxOutput spendChannelAddress (Some (tx_encodedUpdatedChannelDatum t)) [(tx_channelTokenUnit t, 1)]].

Lemma thread_outputs_nft t unit : unit <> host_nft_unit -> unit <> tx_channelTokenUnit t -> Forall (fun o => has_nft o unit = false) (thread_outputs t).
Proof. intros H1 H2. repeat constructor; by apply has_nft_one. Qed.

Lemma unescrow_outputs script refs t p e r enc unit n tok a tx : unit <> "lovelace" ->
  amount (escrow_delta_assets (- n) tok (Some e) (Some unit)) unit <> 0 ->
  unescrow_tx script refs t p (Some e) r (Some enc) (Some unit) n tok a = Ok tx ->
  outputs tx = thread_outputs t ++ [MkTxOutput a None [(tok, n)]; shard_output enc tok (- n) (Some e) unit] /\
  forall u, mint_total tx u = here (tx_packetPolicyId t = u) 1 + here (p.1 = u) 1.
Proof.
  intros Hu Hk H. unfold unescrow_tx, requireTransferEscrowUtxo in H. apply bind_ok in H as (e' & [= <-] & H). apply bind_ok in H as (tk & _ & H).
  apply bind_ok in H as (d & ->%require_datum & H). apply Ok_inj in H as <-. rewrite escrow_paid by done. split.
  - rewrite outputs_app. reflexivity.
  - intros u. unfold mint_total. rewrite total_app. cbn -[amount here]. rewrite !amount_one. lia.
Qed.

Lemma tops_up_other l l' u : u <> "lovelace" -> Forall2 tops_up l l' -> Forall (fun o => has_nft o u = false) l -> Forall (fun o => has_nft o u = false) l'.
Proof.
  intros Hu. induction 1 as [|o o' l l' Ho _ IH]; intros Hl; [constructor|]. apply Forall_cons in Hl as [H1 H2].
  constructor; [by rewrite (tops_up_nft _ _ _ Ho Hu)|by apply IH].
Qed.

Lemma unescrow_spent script refs t p e r enc unit n tok a tx :
  unescrow_tx script refs t p (Some e) r (Some enc) (Some unit) n tok a = Ok tx -> (spent tx).*1 = [tx_hostStateUtxo t; tx_channelUtxo t; e].
Proof.
  intros H. unfold unescrow_tx, requireTransferEscrowUtxo in H. apply bind_ok in H as (e' & [= <-] & H). apply bind_ok in H as (tk & _ & H).
  apply bind_ok in H as (d & _ & H). apply Ok_inj in H as <-. unfold payTransferEscrowDelta. by destruct (_ && _).
Qed.

(** ** Balances of an address *)

Lemma held_at_app l1 l2 a u : held_at (l1 ++ l2) a u = held_at l1 a u + held_at l2 a u.
Proof. unfold held_at. induction l1 as [|o l IH]; [done|]. cbn [app foldr]. rewrite IH. case_bool_decide; lia. Qed.

Lemma held_at_perm l1 l2 a u : l1 ≡ₚ l2 -> held_at l1 a u = held_at l2 a u.
Proof. unfold held_at. induction 1; cbn [foldr]; repeat case_bool_decide; lia. Qed.

Lemma held_elsewhere l a u : Forall (fun o => out_address o <> a) l -> held_at l a u = 0.
Proof. induction 1 as [|o l Ho _ IH]; [done|]. unfold held_at in *. cbn [foldr]. by rewrite bool_decide_false. Qed.

(** What a release hands over: the shard's transition, the topped-up payout, and the
    balance of the receiver's address. *)
Lemma release_facts op t c p req n nf e m enc unit tok r a ca tx wallet change ins outs :
  unescrow_source c p req n nf = Ok (e, m, enc, unit, tok) -> map_wf (assets e) ->
  tx_app t = UnescrowApp e m r enc unit n tok a ca -> assemble_packet op t = Ok tx ->
  unit ∉ ["lovelace"; tok; host_nft_unit; tx_channelTokenUnit t; tx_packetPolicyId t] -> markers t unit = 0 ->
  module_token ∉ ["lovelace"; tok; unit] ->
  a ∉ [hostStateSttAddress; spendChannelAddress; transferModuleAddress; utxo_address (tx_hostStateUtxo t); utxo_address (tx_channelUtxo t)] ->
  completed_with wallet change [unit] tx ins outs ->
  exists spend pay, classify (located e) outs = Some spend /\ tops_up (MkTxOutput a None [(tok, n)]) pay /\
    transition_ok (located e) spend ins outs (MkTransferEscrowDatum c p) (mint_total tx) (0 - n) [(tok, - n)] tok = true /\
    List.find (fun o => bool_decide (out_address o = a)) outs = Some pay /\
    held_at outs a tok - held_at ins a tok = amount (out_assets pay) tok + held_at change a tok - held_at wallet a tok /\
    op ∈ [RecvOp; AckOp; TimeoutOp].
Proof.
  intros Hsrc Hw Happ Hasm Hunit Hmark Hmod Haddr (tops & Hins & Htops & -> & Hforeign).
  destruct (unescrow_source_ok _ _ _ _ _ _ _ _ _ _ Hw Hsrc) as (Htok & Hs & Hq). rewrite !not_elem_of_cons in Hunit. destruct Hunit as (U1 & U2 & U3 & U4 & U5 & _).
  assert (amount (escrow_delta_assets (- n) tok (Some e) (Some unit)) unit <> 0) as Hk.
  { change (escrow_delta_assets (- n) tok (Some e) (Some unit)) with (out_assets (shard_output enc tok (- n) (Some e) unit)).
    rewrite (shard_output_amount _ _ _ _ _ _ _ Hs). destruct (canonical_amounts _ _ _ (sh_assets _ _ _ _ _ Hs)) as [-> _].
    unfold here. by rewrite decide_False. }
  assert (outputs tx = thread_outputs t ++ [MkTxOutput a None [(tok, n)]; shard_output enc tok (- n) (Some e) unit] /\
    mint_total tx unit = markers t unit /\ (spent tx).*1 = [tx_hostStateUtxo t; tx_channelUtxo t; e] /\ op ∈ [RecvOp; AckOp; TimeoutOp])
    as (Hout & Hmint & Hsp & Hop).
  { unfold assemble_packet in Hasm. rewrite Happ in Hasm. unfold markers.
    destruct op, (tx_verifyProof t) as [pr|]; try done; pose proof Hasm as Hsp%unescrow_spent; apply unescrow_outputs in Hasm as [H1 H2];
      first [done | split_and!; [exact H1 | apply H2 | exact Hsp | rewrite !elem_of_cons; tauto]]. }
  rewrite Hout in Htops. apply Forall2_app_inv_l in Htops as (tt & to & Htt & Hto & ->).
  apply Forall2_cons_inv_l in Hto as (pay & to' & Hpay & Hto & ->). apply Forall2_cons_inv_l in Hto as (o & to'' & Ho & Hto & ->).
  apply Forall2_nil_inv_l in Hto as ->. apply Forall_app in Hforeign as [_ Hch%foreign_nft].
  rewrite !not_elem_of_cons in Haddr. destruct Haddr as (A1 & A2 & A3 & A4 & A5 & _).
  apply Forall2_cons_inv_l in Htt as (h & tt' & Hh & Htt & ->). apply Forall2_cons_inv_l in Htt as (ch & tt'' & Hc & Htt & ->). apply Forall2_nil_inv_l in Htt as ->.
  destruct (shard_update_accepted e enc (MkTransferEscrowDatum c p) unit tok (- n) o [h; ch; pay] change ins (mint_total tx)) as (spend & S1 & S2); try done; [lia|by rewrite Hmint| |].
  { cbn [app]. rewrite !Forall_cons. split_and!; [..|done].
    - rewrite (tops_up_nft _ _ _ Hh U1). by apply has_nft_one.
    - rewrite (tops_up_nft _ _ _ Hc U1). by apply has_nft_one.
    - rewrite (tops_up_nft _ _ _ Hpay U1). unfold has_nft. cbn [out_assets]. rewrite amount_one. unfold here. by rewrite decide_False by done. }
  pose proof Hh as (Eh & _). pose proof Hc as (Ec & _). pose proof Hpay as (Ep & _). pose proof Ho as (Eo & _). cbn [out_address shard_output] in Eh, Ec, Ep, Eo.
  exists spend, pay. split_and!; [exact S1|done|by rewrite Z.sub_0_l| | |done].
  - cbn [app List.find]. rewrite Eh, Ec, Ep, !bool_decide_false by congruence. by rewrite bool_decide_true.
  - change (([h; ch] ++ [pay; o]) ++ change) with ([h; ch] ++ [pay] ++ [o] ++ change). rewrite !held_at_app.
    rewrite (held_elsewhere [h; ch]), (held_elsewhere [o]) by (repeat constructor; congruence).
    rewrite (held_at_perm _ _ _ _ Hins), held_at_app, (held_elsewhere ((fun ur => located ur.1) <$> spent tx)).
    + unfold held_at at 1. cbn [foldr]. rewrite Ep, bool_decide_true by done. lia.
    + change ((fun ur => located ur.1) <$> spent tx) with (located ∘ fst <$> spent tx). rewrite list_fmap_compose, Hsp.
      repeat constructor; cbn [located out_address]; [congruence..|]. rewrite (sh_address _ _ _ _ _ Hs). congruence.
Qed.

(** C14 (refinement): released escrow.  For a receive, an error acknowledgement or a
    timeout that returns native tokens, take the shard the lookup chose, the transaction
    assembled for it, and whatever inputs, change and lovelace Lucid adds.  The spend is
    classified as that shard.  Of a receive, the transfer validator's value checks pass:
    the successor has the shard's datum and token and exactly the amount less, nothing
    is minted under the shard's token, and the first output at the receiver's address
    holds the amount.  Of an error acknowledgement or a timeout, whose payout is checked
    as the change of the address's balance over the whole transaction, they pass exactly
    when the added inputs at that address hold as much of the token as the change
    returned to it, or, for lovelace, no more than the change and the top-up of the
    payout.  A refund of lovelace paid for from the refunded address itself is thus
    refused. *)
Theorem escrow_release_accepted op t c p req n nf e m enc unit tok r a ca tx wallet change ins outs :
  unescrow_source c p req n nf = Ok (e, m, enc, unit, tok) -> map_wf (assets e) ->
  tx_app t = UnescrowApp e m r enc unit n tok a ca -> assemble_packet op t = Ok tx ->
  unit ∉ ["lovelace"; tok; host_nft_unit; tx_channelTokenUnit t; tx_packetPolicyId t] -> markers t unit = 0 ->
  module_token ∉ ["lovelace"; tok; unit] ->
  a ∉ [hostStateSttAddress; spendChannelAddress; transferModuleAddress; utxo_address (tx_hostStateUtxo t); utxo_address (tx_channelUtxo t)] ->
  completed_with wallet change [unit] tx ins outs ->
  let d := MkTransferEscrowDatum c p in
  hex_string_to_bytes (hex_decode_prefix p) ≫= extract_token_unit = Some tok /\
  exists spend pay, classify (located e) outs = Some spend /\ tops_up (MkTxOutput a None [(tok, n)]) pay /\ pay ∈ outs /\
    match op with
    | RecvOp => receive_release shardPolicyId (located e) spend ins outs d (mint_total tx) n tok a = true
    | _ => refund_release shardPolicyId (located e) spend ins outs d (mint_total tx) n tok a =
             if decide (tok = "lovelace") then held_at wallet a tok <=? held_at change a tok + (amount (out_assets pay) tok - n)
             else held_at wallet a tok =? held_at change a tok
    end.
Proof.
  intros Hsrc Hw Happ Hasm Hunit Hmark Hmod Haddr Hcomp d. split; [apply token_agrees; by eapply unescrow_source_ok|].
  destruct (release_facts _ _ _ _ _ _ _ _ _ _ _ _ _ _ _ _ _ _ _ _ Hsrc Hw Happ Hasm Hunit Hmark Hmod Haddr Hcomp)
    as (spend & pay & H1 & H2 & H3 & H4 & H5 & Hop). exists spend, pay. split; [done|]. split; [done|].
  pose proof (tops_up_amount _ _ tok H2) as Hge. cbn [out_assets] in Hge. rewrite amount_one in Hge. unfold here in Hge. rewrite decide_True in Hge by done.
  split; [apply List.find_some in H4 as [H4 _]; by apply list_elem_of_In|].
  assert (refund_release shardPolicyId (located e) spend ins outs d (mint_total tx) n tok a =
             if decide (tok = "lovelace") then held_at wallet a tok <=? held_at change a tok + (amount (out_assets pay) tok - n)
             else held_at wallet a tok =? held_at change a tok) as Href.
  { unfold refund_release, d. rewrite H3, H5. cbn [andb]. case_decide as Hl; apply eq_true_iff_eq; rewrite ?Z.leb_le, ?Z.eqb_eq; [lia|].
    destruct H2 as (_ & _ & -> & _); [|done]. cbn [out_assets]. rewrite amount_one. unfold here. rewrite decide_True by done. lia. }
  destruct op; try exact Href. unfold receive_release. rewrite H4. unfold d. rewrite H3. by apply Z.leb_le.
Qed.

(** ** Deposits *)

(** What the send builder makes of a lookup ([send_escrow]), and the UTxO whose spend
    witnesses the deposit: the shard, or the module root when the shard is created. *)
Definition escrow_app_of (l : TransferEscrowShardLookup) (w : list UTxO) (r mr tok : string) (n : Z) (sa ra ca : string) : AppPart :=
  match l with
  | ShardExisting e enc unit m _ => EscrowApp m (Some e) w r None None enc unit tok n sa ra ca
  | ShardMissing enc unit m _ md => EscrowApp m None w r (Some mr) (Some md) enc unit tok n sa ra ca
  end.
Definition witness_utxo (l : TransferEscrowShardLookup) : UTxO :=
  match l with ShardExisting e _ _ _ _ => e | ShardMissing _ _ m _ _ => m end.
Definition shard_unit_of (l : TransferEscrowShardLookup) : string :=
  match l with ShardExisting _ _ unit _ _ | ShardMissing _ unit _ _ _ => unit end.

(** The UTxO spent as the witness: the assets of a shard are a JavaScript object; a
    module root holds its two tokens. *)
Definition witness_ok (l : TransferEscrowShardLookup) : Prop :=
  match l with
  | ShardExisting e _ _ _ _ => map_wf (assets e)
  | ShardMissing _ _ m _ _ => has_module_state_tokens port_token module_token (located m) = true /\ port_token <> "lovelace"
  end.

(** No SHA-256 collision among the inputs hashed when a missing shard is registered. *)
Definition registration_binding (l : TransferEscrowShardLookup) : Prop :=
  match l with
  | ShardExisting _ _ _ _ _ => True
  | ShardMissing _ unit _ sibs _ =>
      let key := TRANSFER_ESCROW_SHARD_REGISTRY_PREFIX +:+ toLowerCase (slice_from (str_length shardPolicyId) unit) in
      binding (witness_queries key [] (hex_decode_prefix <$> sibs) ++
               witness_queries key TRANSFER_ESCROW_SHARD_REGISTERED_VALUE (hex_decode_prefix <$> sibs))
  end.

(** Registering a shard changes the module's registry datum. *)
Lemma registration_changes_datum `{STD : !Sha256Std} `{MOK : !ModuleCodecOk} c p tok required enc unit m sibs md :
  findTransferEscrowShard c p tok required = Ok (ShardMissing enc unit m sibs md) ->
  registration_binding (ShardMissing enc unit m sibs md) -> md <> "" -> datum m <> Some md.
Proof.
  intros Hf HQ Hne Hm. cbn [registration_binding] in HQ. set (key := _ +:+ _) in HQ.
  assert (value_ok TRANSFER_ESCROW_SHARD_REGISTERED_VALUE) as Hv.
  { intros _ E. apply (binding_inj _ _ _ HQ) in E; [done|..]; unfold witness_queries; rewrite elem_of_app, !elem_of_cons; auto. }
  destruct (escrowShard_missing_registers _ _ _ _ _ _ _ _ _ Hf Hv) as (utxos & key' & root & root' & _ & _ & Hroot & Henc & Hup & Hkey).
  fold key in Hkey. subst key'. apply decode_encode_module in Henc.
  unfold committed_registry_root, datum_of in Hroot. rewrite Hm, decide_False in Hroot by done. rewrite Henc in Hroot. cbn in Hroot.
  case_decide; [|done]. injection Hroot as <-. apply apply_update_fixed in Hup; [done|by intros ?|done|exact HQ].
Qed.

Lemma filter_out {A} (f : A -> bool) l : Forall (fun x => f x = false) l -> List.filter f l = [].
Proof. induction 1 as [|x l Hx _ IH]; [done|]. cbn. by rewrite Hx. Qed.

Lemma created_amount tok n unit u : unit <> "" -> amount (escrow_delta_assets n tok None (Some unit)) u = here (tok = u) n + here (unit = u) 1.
Proof. intros Hu. rewrite amount_escrow_delta by constructor. rewrite decide_False by done. cbn [from_option]. rewrite amount_nil. lia. Qed.

Lemma existing_outputs t m e w r enc unit tok n tx : unit <> "lovelace" -> amount (escrow_delta_assets n tok (Some e) (Some unit)) unit <> 0 ->
  assembleSendPacketEscrowTx t m (Some e) w r None None (Some enc) (Some unit) tok n = Ok tx ->
  outputs tx = thread_outputs t ++ [shard_output enc tok n (Some e) unit] /\ forall u, mint_total tx u = here (tx_packetPolicyId t = u) 1.
Proof.
  intros Hu Hk H. unfold assembleSendPacketEscrowTx, escrow_source in H. case_bool_decide; [done|]. apply bind_ok in H as (tk & _ & H).
  apply bind_ok in H as (tx1 & [= <-] & H). apply bind_ok in H as (d & ->%require_datum & H). apply Ok_inj in H as <-. rewrite escrow_paid by done. split.
  - rewrite outputs_app. reflexivity.
  - intros u. unfold mint_total. rewrite total_app. cbn -[amount here]. rewrite !amount_one. lia.
Qed.

Lemma missing_outputs t m w r mr md enc unit tok n tx : unit <> "lovelace" -> unit <> tok ->
  assembleSendPacketEscrowTx t m None w r (Some mr) (Some md) (Some enc) (Some unit) tok n = Ok tx ->
  outputs tx = thread_outputs t ++ [MkTxOutput transferModuleAddress (Some md) (assets m); shard_output enc tok n None unit] /\
  (spent tx).*1 = [tx_hostStateUtxo t; tx_channelUtxo t; m] /\ unit <> "" /\ md <> "" /\
  forall u, mint_total tx u = here (tx_packetPolicyId t = u) 1 + here (unit = u) 1.
Proof.
  intros Hu Ht H. unfold assembleSendPacketEscrowTx, escrow_source in H. case_bool_decide; [done|]. apply bind_ok in H as (tk & _ & H).
  rewrite !present_text in H. apply bind_ok in H as (tx1 & Hsrc & H). case_decide as Hne; [done|]. case_decide; [done|]. case_decide as Hmd; [done|].
  apply payModuleUtxo_ok in Hsrc as (a & [= <-] & ->). apply bind_ok in H as (d & ->%require_datum & H). apply Ok_inj in H as <-.
  rewrite escrow_paid by (done || (rewrite created_amount by done; unfold here; by rewrite decide_False, decide_True by congruence)).
  rewrite present_text, decide_False by done. split_and!; [by rewrite !outputs_app|reflexivity|done|done|].
  intros u. unfold mint_total. rewrite !total_app. cbn -[amount here]. rewrite !amount_one. lia.
Qed.

Lemma module_root_member us m : getTransferModuleRootFromAddressScan us = Ok m -> m ∈ us.
Proof.
  unfold getTransferModuleRootFromAddressScan. destruct (filter _ us) as [|u [|]] eqn:E; try done. destruct (_ =? _); [|done]. intros [= <-].
  assert (u ∈ filter (fun u => map_has (assets u) transferModuleIdentifier = true) us) as H by (rewrite E; by left).
  by apply list_elem_of_filter in H as [_ H].
Qed.

Lemma missing_shard_facts c p tok0 required enc unit m sibs md :
  findTransferEscrowShard c p tok0 required = Ok (ShardMissing enc unit m sibs md) ->
  exists tok, escrowDenomTokenFromPacketDenom p = Ok tok /\ toLowerCase (trim tok0) = tok /\
    escrow_shard_unit shardPolicyId (MkTransferEscrowDatum c p) = Some unit /\ decode_transferEscrow enc = Ok (MkTransferEscrowDatum c p) /\
    utxo_address m = transferModuleAddress /\ amount (assets m) unit = 0.
Proof.
  intros H. pose proof H as (encd & unit' & name & tok & utxos & mu & root & t0 & t & shards & key & ss & t1 &
    H1 & H2 & -> & H3 & H4 & H5 & _ & [_ _ Hall _ _] & _ & _ & _ & Hres)%findTransferEscrowShard_inv.
  cbn [fst snd] in *. destruct (map_get shards (shardPolicyId +:+ name)) as [u'|] eqn:Eg; [destruct Hres as (_ & _ & ?); done|].
  destruct Hres as (root' & e & t2 & _ & _ & [= -> -> -> -> ->]). exists tok. pose proof (module_root_member _ _ H5) as Hm.
  destruct (requested_denom _ _ _ _ _ _ H3 H) as [Hlow _].
  split_and!; [done|done|by apply shard_unit_agrees|by apply decode_encode_escrow|by eapply provider_address|].
  unfold amount. destruct (map_get (assets mu) (shardPolicyId +:+ name)) eqn:Ek; [|done]. rewrite (Hall mu) in Eg; [done|done| |apply prefix_app].
  apply map_get_is_Some. by eexists.
Qed.

(** Creating a shard beside the module root is the transition the validator asks for. *)
Lemma shard_creation_accepted m md enc d unit tok n mo o th change ins mint :
  escrow_shard_unit shardPolicyId d = Some unit -> decode_transferEscrow enc = Ok d -> utxo_address m = transferModuleAddress ->
  amount (assets m) unit = 0 -> unit <> tok -> unit <> "lovelace" -> unit <> "" -> module_token ∉ ["lovelace"; tok; unit] -> 0 < n -> mint unit = 1 ->
  has_module_state_tokens port_token module_token (located m) = true -> port_token <> "lovelace" -> datum m <> Some md ->
  tops_up (MkTxOutput transferModuleAddress (Some md) (assets m)) mo -> tops_up (shard_output enc tok n None unit) o ->
  Forall (fun o => has_nft o unit = false) (th ++ change) -> Forall (fun o => has_nft o module_token = false) (th ++ change) ->
  Forall (fun o => has_nft o unit = false) ins ->
  exists spend, classify (located m) (th ++ mo :: o :: change) = Some spend /\
    transition_ok (located m) spend ins (th ++ mo :: o :: change) d mint n [(tok, n)] tok = true.
Proof.
  intros Hd Hdec Haddr Hm0 Hut Hul Hue Hmod Hn Hmint Htok Hpl Hdat Hmo Ho Hun Hmn Hins. rewrite !not_elem_of_cons in Hmod. destruct Hmod as (M1 & M2 & M3 & _).
  apply andb_true_iff in Htok as [Hport Hmodt]. exists (ModuleState mo true).
  assert (has_nft mo module_token = true) as Hmo2 by by rewrite (tops_up_nft _ _ _ Hmo M1).
  assert (has_nft mo unit = false) as Hmo3 by (rewrite (tops_up_nft _ _ _ Hmo Hul); unfold has_nft; cbn [out_assets]; by rewrite Hm0).
  assert (has_nft mo port_token = true) as Hmo1 by by rewrite (tops_up_nft _ _ _ Hmo Hpl).
  assert (has_nft o module_token = false) as Ho2.
  { rewrite (tops_up_nft _ _ _ Ho M1). unfold has_nft. cbn [shard_output out_assets]. rewrite created_amount by done. unfold here.
    by rewrite !decide_False by congruence. }
  assert (has_nft o unit = true) as Ho3.
  { rewrite (tops_up_nft _ _ _ Ho Hul). unfold has_nft. cbn [shard_output out_assets]. rewrite created_amount by done. unfold here.
    by rewrite decide_False, decide_True by congruence. }
  pose proof Hmo as (Hma & Hmd & _). pose proof Ho as (Hoa & Hod & Hnon & _). split.
  - unfold classify_transfer_module_spend. unfold has_module_state_tokens at 1. rewrite Hport, Hmodt. cbn [andb].
    apply Forall_app in Hmn as [Hmn1 Hmn2]. rewrite List.filter_app, (filter_out _ th). 2:{ eapply Forall_impl; [exact Hmn1|]. intros x Hx. unfold has_module_state_tokens. by rewrite Hx, !andb_false_r. }
    cbn [List.filter app]. unfold has_module_state_tokens at 1 2. rewrite Hmo1, Hmo2, Ho2, !andb_false_r, Hma. cbn [located out_address].
    rewrite Haddr, bool_decide_true by done. cbn [andb]. rewrite (filter_out _ change). 2:{ eapply Forall_impl; [exact Hmn2|]. intros x Hx. unfold has_module_state_tokens. by rewrite Hx, !andb_false_r. }
    cbn [located out_datum]. rewrite Hmd. cbn [out_datum]. by rewrite bool_decide_false.
  - cbn [validate_module_escrow_transition]. rewrite Hd. unfold find_escrow_output at 1. rewrite (no_matches _ _ _ _ Hd Hins), Hmint. cbn [Z.eqb Pos.eqb].
    rewrite (tops_up_delta (located m) _ _ [] Hmo) by done. cbn [andb]. apply andb_true_iff. split; [by apply Z.ltb_lt|].
    unfold validate_created_escrow_shard. cbn [located out_address]. rewrite Haddr. change transferModuleAddress with (out_address (shard_output enc tok n None unit)).
    rewrite <- Hoa. assert (th ++ mo :: o :: change = (th ++ [mo]) ++ o :: change) as -> by by rewrite <- app_assoc.
    rewrite (one_match _ _ _ _ _ enc Hd); [|apply Forall_app in Hun as [Hun1 Hun2]; rewrite !Forall_app; split_and!; [done|by constructor|done]|done..].
    rewrite Hd, Hmint. cbn [Z.eqb Pos.eqb andb]. apply andb_true_iff. split.
    + apply (single_asset o d tok unit Hd Hut). intros u Hl Ht. rewrite Hnon by done. cbn [shard_output out_assets]. rewrite created_amount by done.
      unfold here at 1. rewrite decide_False by congruence. lia.
    + pose proof (tops_up_amount _ _ tok Ho) as Hge. cbn [shard_output out_assets] in Hge. rewrite created_amount in Hge by done. unfold here in Hge.
      rewrite decide_True, decide_False in Hge by done. case_decide as Hlv; [apply Z.leb_le; lia|]. apply Z.eqb_eq. rewrite Hnon by done.
      cbn [shard_output out_assets]. rewrite created_amount by done. unfold here. rewrite decide_True, decide_False by done. lia.
Qed.

Lemma holds_one_nft u k x : holds_one (assets u) k -> x <> "lovelace" -> x <> k -> has_nft (located u) x = false.
Proof. intros H Hl Hk. unfold has_nft. cbn [located out_assets]. rewrite (H x Hl). unfold here. by rewrite decide_False. Qed.

Lemma completed_inv units tx ins outs : completed units tx ins outs ->
  exists wallet change tops, ins ≡ₚ ((fun ur => located ur.1) <$> spent tx) ++ wallet /\ Forall2 tops_up (outputs tx) tops /\ outs = tops ++ change /\
    forall x, x ∈ units -> Forall (fun o => has_nft o x = false) wallet /\ Forall (fun o => has_nft o x = false) change.
Proof.
  intros (wallet & change & tops & H1 & H2 & H3 & H4). exists wallet, change, tops. split_and!; [done..|]. intros x Hx. apply Forall_app.
  eapply Forall_impl; [exact H4|]. intros o Ho. unfold has_nft. by rewrite (Ho x Hx).
Qed.

Lemma existing_deposit t c p tok required e enc unit m sibs w r n tx ins outs :
  findTransferEscrowShard c p tok required = Ok (ShardExisting e enc unit m sibs) -> toLowerCase (trim tok) = tok -> map_wf (assets e) ->
  0 <= quantity e tok + n -> assembleSendPacketEscrowTx t m (Some e) w r None None (Some enc) (Some unit) tok n = Ok tx ->
  unit ∉ ["lovelace"; tok; host_nft_unit; tx_channelTokenUnit t; tx_packetPolicyId t] ->
  module_token ∉ ["lovelace"; tok; unit] -> completed [unit; module_token] tx ins outs ->
  (exists spend, classify (located e) outs = Some spend /\
    transition_ok (located e) spend ins outs (MkTransferEscrowDatum c p) (mint_total tx) n [(tok, n)] tok = true) /\
  escrowDenomTokenFromPacketDenom p = Ok tok.
Proof.
  intros Hf Hlow Hwf Hq Hasm Hunit Hmod (wallet & change & tops & _ & Htops & -> & Hfo)%completed_inv.
  rewrite !not_elem_of_cons in Hunit. destruct Hunit as (U1 & U2 & U3 & U4 & U5 & _).
  destruct (Hfo unit) as [_ Hcu]; [by left|]. destruct (existing_shard_state _ _ _ _ _ _ _ _ _ Hwf Hf) as (tok' & Ht & Hl & _ & Hs).
  rewrite Hlow in Hl. subst tok'. split; [|done]. apply existing_outputs in Hasm as [Hout Hmint]; [|done|].
  - rewrite Hout in Htops. apply Forall2_app_inv_l in Htops as (th & to & Hth & Hto & ->). apply Forall2_cons_inv_l in Hto as (o & to' & Ho & Hto & ->).
    apply Forall2_nil_inv_l in Hto as ->. rewrite <- app_assoc. cbn [app]. apply (shard_update_accepted e enc _ unit tok n); try done.
    + rewrite Hmint. unfold here. by rewrite decide_False by congruence.
    + apply Forall_app. split; [|done]. eapply tops_up_other; [done|exact Hth|by apply thread_outputs_nft].
  - change (escrow_delta_assets n tok (Some e) (Some unit)) with (out_assets (shard_output enc tok n (Some e) unit)).
    rewrite (shard_output_amount _ _ _ _ _ _ _ Hs). destruct (canonical_amounts _ _ _ (sh_assets _ _ _ _ _ Hs)) as [-> _].
    unfold here. by rewrite decide_False by congruence.
Qed.

Lemma missing_deposit `{STD : !Sha256Std} `{MOK : !ModuleCodecOk} t c p tok required enc unit m sibs md w r mr n tx ins outs :
  findTransferEscrowShard c p tok required = Ok (ShardMissing enc unit m sibs md) -> toLowerCase (trim tok) = tok -> 0 < n ->
  witness_ok (ShardMissing enc unit m sibs md) -> registration_binding (ShardMissing enc unit m sibs md) ->
  assembleSendPacketEscrowTx t m None w r (Some mr) (Some md) (Some enc) (Some unit) tok n = Ok tx ->
  holds_one (assets (tx_hostStateUtxo t)) host_nft_unit -> holds_one (assets (tx_channelUtxo t)) (tx_channelTokenUnit t) ->
  unit ∉ ["lovelace"; tok; host_nft_unit; tx_channelTokenUnit t; tx_packetPolicyId t] ->
  module_token ∉ ["lovelace"; tok; unit] -> module_token <> host_nft_unit -> module_token <> tx_channelTokenUnit t ->
  completed [unit; module_token] tx ins outs ->
  (exists spend, classify (located m) outs = Some spend /\
    transition_ok (located m) spend ins outs (MkTransferEscrowDatum c p) (mint_total tx) n [(tok, n)] tok = true) /\
  escrowDenomTokenFromPacketDenom p = Ok tok.
Proof.
  intros Hf Hlow Hn (Hst & Hpl) HQ Hasm Hh Hc Hunit Hmod M4 M5 (wallet & change & tops & Hins & Htops & -> & Hfo)%completed_inv.
  rewrite !not_elem_of_cons in Hunit. destruct Hunit as (U1 & U2 & U3 & U4 & U5 & _).
  destruct (Hfo unit) as [Hwu Hcu]; [by left|]. destruct (Hfo module_token) as [_ Hcm]; [right; by left|].
  destruct (missing_shard_facts _ _ _ _ _ _ _ _ _ Hf) as (tok' & Ht & Hl & Hu & Hdec & Haddr & Hm0). rewrite Hlow in Hl. subst tok'. split; [|done].
  apply missing_outputs in Hasm as (Hout & Hsp & Hue & Hmd & Hmint); [|done..]. rewrite Hout in Htops.
  pose proof (registration_changes_datum _ _ _ _ _ _ _ _ _ Hf HQ Hmd) as Hdat.
  apply Forall2_app_inv_l in Htops as (th & to & Hth & Hto & ->). apply Forall2_cons_inv_l in Hto as (mo & to' & Hmo & Hto & ->).
  apply Forall2_cons_inv_l in Hto as (o & to'' & Ho & Hto & ->). apply Forall2_nil_inv_l in Hto as ->. rewrite <- app_assoc. cbn [app].
  pose proof Hmod as Hml. rewrite not_elem_of_cons in Hml. destruct Hml as [Hml _].
  eapply (shard_creation_accepted m md enc _ unit tok n); try done.
  - rewrite Hmint. unfold here. by rewrite decide_False, decide_True by congruence.
  - apply Forall_app. split; [|done]. eapply tops_up_other; [done|exact Hth|by apply thread_outputs_nft].
  - apply Forall_app. split; [|done]. eapply tops_up_other; [done|exact Hth|by apply thread_outputs_nft].
  - rewrite Hins, Forall_app. split; [|done]. change ((fun ur => located ur.1) <$> spent tx) with (located ∘ fst <$> spent tx). rewrite list_fmap_compose, Hsp.
    repeat constructor; [by eapply holds_one_nft..|]. unfold has_nft. cbn [located out_assets]. by rewrite Hm0.
Qed.

(** C15 (refinement): escrow deposits.  Take a send of native tokens, the asset in
    canonical spelling, from the shard lookup through the record the send builder makes
    of it to the assembled transaction, with whatever Lucid adds.  The transfer
    validator's shutdown guard and value checks of the deposit pass exactly when the
    HostState spent is not shutting down (which the Gateway does not check).  An
    existing shard is spent and grows by exactly the amount; a missing one is created
    beside the module root, with its datum, one freshly minted shard token and the
    amount, while the root keeps its assets and its registry datum changes, as the
    validator requires of a first mint: unless SHA-256 collides on the inputs hashed for
    the registration, the datum the Gateway computed is a new one. *)
Theorem escrow_deposit_accepted `{STD : !Sha256Std} `{MOK : !ModuleCodecOk} t c p tok required l w r mr n sa ra ca tx ins outs :
  findTransferEscrowShard c p tok required = Ok l -> toLowerCase (trim tok) = tok -> 0 < n -> witness_ok l -> registration_binding l ->
  0 <= quantity (witness_utxo l) tok -> tx_app t = escrow_app_of l w r mr tok n sa ra ca -> assemble_packet SendOp t = Ok tx ->
  holds_one (assets (tx_hostStateUtxo t)) host_nft_unit -> holds_one (assets (tx_channelUtxo t)) (tx_channelTokenUnit t) ->
  let unit := shard_unit_of l in
  unit ∉ ["lovelace"; tok; host_nft_unit; tx_channelTokenUnit t; tx_packetPolicyId t] ->
  module_token ∉ ["lovelace"; tok; unit] -> module_token <> host_nft_unit -> module_token <> tx_channelTokenUnit t ->
  completed [unit; module_token] tx ins outs ->
  (exists spend, classify (located (witness_utxo l)) outs = Some spend /\
    forall host_state, native_send shardPolicyId host_state (located (witness_utxo l)) spend ins outs (MkTransferEscrowDatum c p)
      (mint_total tx) n tok = is_active (shutdown host_state)) /\
  hex_string_to_bytes (hex_decode_prefix p) ≫= extract_token_unit = Some tok.
Proof.
  intros Hf Hlow Hn Hwit HQ Hq Happ Hasm Hh Hc unit Hunit Hmod M4 M5 Hcomp. unfold assemble_packet in Hasm. rewrite Happ in Hasm.
  destruct (tx_verifyProof t); destruct l as [e enc unit0 m sibs|enc unit0 m sibs md]; try done; cbn [escrow_app_of witness_utxo] in *; subst unit.
  - destruct (existing_deposit t c p tok required e enc unit0 m sibs w r n tx ins outs) as [(spend & H1 & H3) H2]; try done; [lia|].
    split; [|by apply token_agrees]. exists spend. split; [exact H1|]. intros host. unfold native_send. by rewrite H3, andb_true_r.
  - destruct (missing_deposit t c p tok required enc unit0 m sibs md w r mr n tx ins outs) as [(spend & H1 & H3) H2]; try done.
    split; [|by apply token_agrees]. exists spend. split; [exact H1|]. intros host. unfold native_send. by rewrite H3, andb_true_r.
Qed.

End escrow.
