(* ===== verification/TxThreadTheorems.v ===== *)
(** * Threads: the HostState, the channel and the module in assembled transactions

    Every IBC state lives in a UTxO marked by a token that exists once.  A transaction
    must spend that UTxO and recreate it: the validators look for exactly one input and
    one output with the token ([require_host_state_thread] and the like). *)

From Stdlib Require Import ZArith Lia.
From S2P Require Import Prelude JsMap JsString Hex MerkleTree Datum StateRoot PacketHelpers TreeRebuild EscrowShard EscrowShardTheorems Voucher Redeemers PacketDenom PacketOps ProofMessages MessageValidate ChannelOps ConnectionOps TxAssembly OnChainTransfer TxAssemblyTheorems EscrowTxTheorems.

#[local] Open Scope Z_scope.

(** No UTxO the application part spends, and no token it pays, is [x]. *)
Definition registry_free (x : string) (c : option TraceRegistryInsertContext) : Prop :=
  match c with
  | None | Some (TraceExisting _) => True
  | Some (TraceAppend _ s _ _ _) => amount (assets s) x = 0
  | Some (TraceRollover dir s _ nonce _ _ _ _ _ unit _) =>
      amount (assets dir) x = 0 /\ amount (assets s) x = 0 /\ amount (assets nonce) x = 0 /\ x <> unit
  end.
Definition app_free (x : string) (app : AppPart) : Prop :=
  match app with
  | NoApp => True
  | ModuleApp _ u _ | SucceedApp u _ _ => amount (assets u) x = 0
  | UnescrowApp e _ _ _ unit _ tok _ _ => amount (assets e) x = 0 /\ map_wf (assets e) /\ x <> tok
  | MintApp m _ _ d _ _ _ tr =>
      amount (assets m) x = 0 /\ x <> md_voucherTokenUnit d /\ x <> md_voucherReferenceTokenUnit d /\ registry_free x tr
  | BurnApp m v _ _ _ _ _ _ _ _ _ => amount (assets m) x = 0 /\ amount (assets v) x = 0
  | EscrowApp m e _ _ _ _ _ unit tok _ _ _ _ =>
      amount (assets m) x = 0 /\ from_option (fun e => amount (assets e) x = 0 /\ map_wf (assets e)) True e /\ x <> tok /\ x <> unit
  end.

(** ** The calls on a thread

    The inputs and outputs of a transaction that hold one token [x]. *)

Definition holds (x : string) (ur : UTxO * option string) : bool := amount (assets ur.1) x =? 1.
Definition thread_in (x : string) (tx : TxBuilder) : list (UTxO * option string) := List.filter (holds x) (spent tx).
Definition thread_out (x : string) (tx : TxBuilder) : list TxOutput := List.filter (fun o => has_nft o x) (outputs tx).

Lemma thread_in_app x tx c : thread_in x (tx ++ [c]) = thread_in x tx ++ List.filter (holds x) (call_spent c).
Proof. unfold thread_in, spent. rewrite bind_app, List.filter_app. cbn. by rewrite app_nil_r. Qed.
Lemma thread_out_app x tx c : thread_out x (tx ++ [c]) = thread_out x tx ++ List.filter (fun o => has_nft o x) (call_outputs c).
Proof. unfold thread_out, outputs. rewrite bind_app, List.filter_app. cbn. by rewrite app_nil_r. Qed.

Lemma no_hold x u r : amount (assets u) x = 0 -> holds x (u, r) = false.
Proof. unfold holds. cbn [fst]. by intros ->. Qed.
Lemma no_nft a d v x : amount v x = 0 -> has_nft (MkTxOutput a d v) x = false.
Proof. unfold has_nft. cbn [out_assets]. by intros ->. Qed.
Lemma amount_other k n x : x <> k -> amount [(k, n)] x = 0.
Proof. intros Hne. rewrite amount_one. unfold here. by rewrite decide_False. Qed.
Lemma amount_own k n : amount [(k, n)] k = n.
Proof. rewrite amount_one. unfold here. by rewrite decide_True. Qed.

Section threads.
Context `{L : Lucid} `{EV : EscrowEnv} `{DP : Deployment} `{AC : AssemblyConfig}.

Definition host_output (d : string) : TxOutput := MkTxOutput hostStateSttAddress (Some d) [(host_nft_unit, 1)].
Definition channel_output (unit d : string) : TxOutput := MkTxOutput spendChannelAddress (Some d) [(unit, 1)].
Definition connection_output (unit d : string) : TxOutput := MkTxOutput spendConnectionAddress (Some d) [(unit, 1)].

(** On the token [x] the transaction does no more than spend [ins] and pay [outs]. *)
Definition touches (x : string) (ins : list (UTxO * option string)) (outs : list TxOutput) (tx : TxBuilder) : Prop :=
  thread_in x tx = List.filter (holds x) ins /\ thread_out x tx = List.filter (fun o => has_nft o x) outs.

Ltac calls :=
  unfold touches, collect_packet_host, collect_channel, read_connection, pay_packet_host, pay_channel, mint_operation, mint_proof,
    collect_host, pay_host, pay_channel_end, pay_connection, readFrom, collectFrom, collectPlain, mintAssets, payToContract, payToAddress, newTxBuilder;
  rewrite ?thread_in_app, ?thread_out_app; cbn [call_spent call_outputs List.filter fmap list_fmap app].
Ltac quiet := repeat match goal with
  | |- context [holds ?x (?u, ?r)] => rewrite (no_hold x u r) by assumption
  | |- context [has_nft (MkTxOutput ?a ?d ?v) ?x] => rewrite (no_nft a d v x) by (first [assumption | apply amount_other; assumption])
  end.
Ltac settle := calls; quiet; cbn [app]; rewrite ?app_nil_r; split; unfold thread_in, thread_out, spent, outputs; cbn [mbind list_bind List.filter app fst];
  unfold host_output, channel_output, connection_output; repeat case_match; reflexivity.
Ltac inv_assembly H :=
  repeat match type of H with
  | mbind _ _ = Ok _ => let a := fresh "a" in let Ha := fresh "Ha" in apply bind_ok in H as (a & Ha & H)
  | payModuleUtxo _ _ _ _ = Ok _ => let Ha := fresh "Ha" in apply payModuleUtxo_ok in H as (? & Ha & ->)
  | Ok _ = Ok _ => apply Ok_inj in H; subst
  end.

(** *** Connections *)

Definition connection_inputs (t : ConnectionTx) : list (UTxO * option string) :=
  (nx_hostStateUtxo t, Some (nx_encodedHostStateRedeemer t)) ::
  match nx_part t with SpendConnection u r _ => [(u, Some r)] | MintConnection _ => [] end.
Definition connection_outputs (t : ConnectionTx) : list TxOutput :=
  [host_output (nx_encodedUpdatedHostStateDatum t); connection_output (nx_connectionTokenUnit t) (nx_encodedConnectionDatum t)].

Lemma connection_touches op t tx x : assemble_connection op t = Ok tx -> touches x (connection_inputs t) (connection_outputs t) tx.
Proof.
  intros H. unfold assemble_connection in H. unfold connection_inputs, connection_outputs.
  destruct op, (nx_part t) as [r|u r [[vp proof]|]]; try done; apply Ok_inj in H as <-;
    [unfold createUnsignedConnectionOpenInitTransaction|unfold createUnsignedConnectionOpenTryTransaction
    |unfold createUnsignedConnectionOpenAckTransaction|unfold createUnsignedConnectionOpenConfirmTransaction]; settle.
Qed.

(** *** Channels *)

Definition channel_inputs (t : ChannelTx) : list (UTxO * option string) :=
  (ct_hostStateUtxo t, Some (ct_encodedHostStateRedeemer t)) ::
  match ct_part t with SpendChannel u r _ _ _ => [(u, Some r)] | MintChannel _ => [] end.
Definition channel_outputs (t : ChannelTx) : list TxOutput :=
  [host_output (ct_encodedUpdatedHostStateDatum t); channel_output (ct_channelTokenUnit t) (ct_encodedChannelDatum t)].

Lemma channel_touches op t tx x : assemble_channel op t = Ok tx -> amount (assets (ct_moduleUtxo t)) x = 0 ->
  touches x (channel_inputs t) (channel_outputs t) tx.
Proof.
  intros H Hm. unfold assemble_channel in H. unfold channel_inputs, channel_outputs.
  destruct op, (ct_part t) as [r|u r policy tok [[vp proof]|]]; try done;
    unfold createUnsignedChannelOpenInitTransaction, createUnsignedChannelOpenTryTransaction, createUnsignedChannelOpenAckTransaction,
      createUnsignedChannelOpenConfirmTransaction, createUnsignedChannelCloseConfirmTransaction, createUnsignedChannelCloseInitTransaction,
      continue_channel_with_proof in H; inv_assembly H; settle.
Qed.

(** *** Packets *)

Definition packet_inputs (t : PacketTx) : list (UTxO * option string) :=
  [(tx_hostStateUtxo t, Some (tx_encodedHostStateRedeemer t)); (tx_channelUtxo t, Some (tx_encodedSpendChannelRedeemer t))].
Definition packet_outputs (t : PacketTx) : list TxOutput :=
  [host_output (tx_encodedUpdatedHostStateDatum t); channel_output (tx_channelTokenUnit t) (tx_encodedUpdatedChannelDatum t)].

Lemma escrow_delta_quiet addr d n tok e unit tx x : amount (escrow_delta_assets n tok e unit) x = 0 ->
  thread_in x (payTransferEscrowDelta addr d n tok e unit tx) = thread_in x tx /\
  thread_out x (payTransferEscrowDelta addr d n tok e unit tx) = thread_out x tx.
Proof. intros H. unfold payTransferEscrowDelta. case_match; [done|]. calls. quiet. by rewrite !app_nil_r. Qed.

Lemma trace_quiet update tx tx' x : applyTraceRegistryUpdate update tx = Ok tx' -> registry_free x update ->
  thread_in x tx' = thread_in x tx /\ thread_out x tx' = thread_out x tx.
Proof.
  unfold applyTraceRegistryUpdate. destruct update as [[]|]; cbn [registry_free]; [| | |intros H; inv_assembly H; done].
  1: intros H _; inv_assembly H; calls; by rewrite !app_nil_r.
  all: destruct (present traceRegistryAddress); [|done]; destruct rs_spendTraceRegistry; [|done]; intros H Hf; inv_assembly H; destruct_and?; calls; quiet;
    cbn [app]; by rewrite ?app_nil_r.
Qed.

Lemma unescrow_touches op refs t p e r d unit n tok a tx x :
  unescrow_tx op refs t p (Some e) r (Some d) (Some unit) n tok a = Ok tx -> amount (assets e) x = 0 -> map_wf (assets e) -> x <> tok ->
  touches x (packet_inputs t) (packet_outputs t) tx.
Proof.
  intros H He Hw Hx. unfold unescrow_tx, requireTransferEscrowUtxo in H. inv_assembly H. apply Ok_inj in Ha as <-. unfold touches.
  match goal with |- context [payTransferEscrowDelta ?a ?d ?n ?k ?e ?u ?tx] => destruct (escrow_delta_quiet a d n k e u tx x) as [-> ->] end.
  - rewrite amount_escrow_delta by done. cbn [from_option]. rewrite He. unfold here. by rewrite decide_False by congruence.
  - unfold packet_inputs, packet_outputs. settle.
Qed.

Lemma mint_touches op t p m r mr d n a tr tx x :
  mint_tx op t p m r mr d n a tr = Ok tx -> amount (assets m) x = 0 -> x <> md_voucherTokenUnit d -> x <> md_voucherReferenceTokenUnit d ->
  registry_free x tr -> touches x (packet_inputs t) (packet_outputs t) tx.
Proof.
  intros H Hm H1 H2 Hr. unfold mint_tx in H. apply bind_ok in H as (tx1 & Htr & H). apply (trace_quiet _ _ _ x) in Htr as [Hi Ho]; [|done].
  apply bind_ok in H as (tok & _ & H). apply bind_ok in H as (tx2 & H3 & H). inv_assembly H3.
  unfold packet_inputs, packet_outputs. destruct (isFirstSeenVoucher tr); [unfold pay_metadata in H; case_bool_decide; [done|]|]; inv_assembly H;
    calls; rewrite Hi, Ho; settle.
Qed.

Lemma escrow_source_touches m e r mr md unit tx tx' x : escrow_source m e r mr md (Some unit) tx = Ok tx' ->
  amount (assets m) x = 0 -> from_option (fun e => amount (assets e) x = 0 /\ map_wf (assets e)) True e ->
  thread_in x tx' = thread_in x tx /\ thread_out x tx' = thread_out x tx.
Proof.
  intros H Hm He. unfold escrow_source in H. destruct e as [e|]; cbn in He.
  - destruct He as [He _]. inv_assembly H. calls. quiet. by rewrite !app_nil_r.
  - destruct (present (Some unit)), (present mr), (present md); try done. inv_assembly H. calls. quiet. by rewrite !app_nil_r.
Qed.

Lemma deposit_touches t m e w r mr md enc unit tok n tx x :
  assembleSendPacketEscrowTx t m e w r mr md (Some enc) (Some unit) tok n = Ok tx -> amount (assets m) x = 0 ->
  from_option (fun e => amount (assets e) x = 0 /\ map_wf (assets e)) True e -> x <> tok -> x <> unit ->
  touches x (packet_inputs t) (packet_outputs t) tx.
Proof.
  intros H Hm He H1 H2. unfold assembleSendPacketEscrowTx in H. case_bool_decide; [done|]. inv_assembly H. unfold touches.
  match goal with |- context [payTransferEscrowDelta ?a ?d ?n ?k ?e ?u ?tx] => destruct (escrow_delta_quiet a d n k e u tx x) as [-> ->] end.
  - rewrite amount_escrow_delta by (destruct e; [apply He|constructor]). unfold here. rewrite decide_False by congruence.
    destruct e; cbn [from_option] in *; [destruct He as [-> _]; done|]. rewrite amount_nil. repeat case_decide; (done || congruence).
  - match goal with E : escrow_source _ _ _ _ _ _ _ = Ok _ |- _ => apply (escrow_source_touches _ _ _ _ _ _ _ _ x) in E as [-> ->]; [|done..] end.
    unfold packet_inputs, packet_outputs. settle.
Qed.

Lemma packet_touches op t tx x : assemble_packet op t = Ok tx -> app_free x (tx_app t) ->
  touches x (packet_inputs t) (packet_outputs t) tx.
Proof.
  intros H Hf. unfold assemble_packet in H.
  destruct op, (tx_app t), (tx_verifyProof t); try discriminate H; cbn [app_free] in Hf; destruct_and?;
    try (by eapply unescrow_touches); try (by eapply mint_touches); try (by eapply deposit_touches).
  all: unfold createUnsignedRecvPacketTx, createUnsignedRecvPacketModuleTx, createUnsignedAckPacketModuleTx,
         createUnsignedSendPacketModuleTx, createUnsignedPrunePacketHistoryTx, createUnsignedAckPacketSucceedTx,
         assembleSendPacketBurnTx in H; inv_assembly H; unfold packet_inputs, packet_outputs; settle.
Qed.

(** ** Every transaction of the protocol *)

Inductive IbcTx :=
| ConnectionStep (op : ConnectionOperation) (t : ConnectionTx)
| ChannelStep (op : ChannelOperation) (t : ChannelTx)
| PacketStep (op : PacketOperation) (t : PacketTx).

Definition assemble (i : IbcTx) : result TxBuilder :=
  match i with
  | ConnectionStep op t => assemble_connection op t
  | ChannelStep op t => assemble_channel op t
  | PacketStep op t => assemble_packet op t
  end.

(** The HostState UTxO it spends and the datum it gives it. *)
Definition host_of (i : IbcTx) : UTxO :=
  match i with ConnectionStep _ t => nx_hostStateUtxo t | ChannelStep _ t => ct_hostStateUtxo t | PacketStep _ t => tx_hostStateUtxo t end.
Definition host_datum_of (i : IbcTx) : string :=
  match i with
  | ConnectionStep _ t => nx_encodedUpdatedHostStateDatum t
  | ChannelStep _ t => ct_encodedUpdatedHostStateDatum t
  | PacketStep _ t => tx_encodedUpdatedHostStateDatum t
  end.

(** The connection or channel it is about: its token, its UTxO when it exists already,
    the output that continues it. *)
Definition object_unit (i : IbcTx) : string :=
  match i with ConnectionStep _ t => nx_connectionTokenUnit t | ChannelStep _ t => ct_channelTokenUnit t | PacketStep _ t => tx_channelTokenUnit t end.
Definition object_utxo (i : IbcTx) : option UTxO :=
  match i with
  | ConnectionStep _ t => match nx_part t with SpendConnection u _ _ => Some u | MintConnection _ => None end
  | ChannelStep _ t => match ct_part t with SpendChannel u _ _ _ _ => Some u | MintChannel _ => None end
  | PacketStep _ t => Some (tx_channelUtxo t)
  end.
Definition object_output (i : IbcTx) : TxOutput :=
  match i with
  | ConnectionStep _ t => connection_output (nx_connectionTokenUnit t) (nx_encodedConnectionDatum t)
  | ChannelStep _ t => channel_output (ct_channelTokenUnit t) (ct_encodedChannelDatum t)
  | PacketStep _ t => channel_output (tx_channelTokenUnit t) (tx_encodedUpdatedChannelDatum t)
  end.

(** The modules, escrow shards and registry entries it touches do not hold [x]. *)
Definition rest_free (x : string) (i : IbcTx) : Prop :=
  match i with
  | ConnectionStep _ _ => True
  | ChannelStep _ t => amount (assets (ct_moduleUtxo t)) x = 0
  | PacketStep _ t => app_free x (tx_app t)
  end.

Lemma ibc_touches i tx x : assemble i = Ok tx -> rest_free x i -> exists r r',
  touches x ((host_of i, r) :: from_option (fun u => [(u, r')]) [] (object_utxo i)) [host_output (host_datum_of i); object_output i] tx.
Proof.
  destruct i as [op t|op t|op t]; cbn [assemble rest_free host_of host_datum_of object_utxo object_output]; intros H Hf.
  - pose proof (connection_touches _ _ _ x H) as Ht. unfold connection_inputs, connection_outputs in Ht. case_match; repeat eexists; apply Ht.
  - pose proof (channel_touches _ _ _ x H Hf) as Ht. unfold channel_inputs, channel_outputs in Ht. case_match; repeat eexists; apply Ht.
  - pose proof (packet_touches _ _ _ x H Hf) as Ht. repeat eexists; apply Ht.
  Unshelve. all: exact None.
Qed.

Context `{UA : UtxoAddress}.

Lemma filter_tops l l' x : x <> "lovelace" -> Forall2 tops_up l l' ->
  Forall2 tops_up (List.filter (fun o => has_nft o x) l) (List.filter (fun o => has_nft o x) l').
Proof.
  intros Hx. induction 1 as [|y y' l l' Hy Hl IH]; [done|]. cbn. rewrite (tops_up_nft _ _ _ Hy Hx). destruct (has_nft y x); [by constructor|done].
Qed.

Lemma filter_located x l : List.filter (fun o => has_nft o x) ((fun ur => located ur.1) <$> l) = (fun ur => located ur.1) <$> List.filter (holds x) l.
Proof.
  induction l as [|ur l IH]; [done|]. rewrite fmap_cons. cbn [List.filter]. change (has_nft (located ur.1) x) with (holds x ur).
  destruct (holds x ur); [|done]. by rewrite fmap_cons, IH.
Qed.

Lemma filter_perm {A} (f : A -> bool) l l' : l ≡ₚ l' -> List.filter f l ≡ₚ List.filter f l'.
Proof. induction 1; cbn; repeat case_match; try done; try by constructor. by etrans. Qed.

Lemma holds_own u k r : holds_one (assets u) k -> k <> "lovelace" -> holds k (u, r) = true.
Proof. intros H Hl. unfold holds. cbn [fst]. rewrite (H k Hl). unfold here. by rewrite decide_True. Qed.
Lemma holds_not u k x r : holds_one (assets u) k -> x <> "lovelace" -> x <> k -> holds x (u, r) = false.
Proof. intros H Hl Hk. unfold holds. cbn [fst]. rewrite (H x Hl). unfold here. by rewrite decide_False. Qed.

Lemma nft_one o k x : out_assets o = [(k, 1)] -> has_nft o x = bool_decide (k = x).
Proof. intros H. unfold has_nft. rewrite H, amount_one. unfold here. by case_decide; case_bool_decide. Qed.

(** The thread of [x] in the completed transaction. *)
Lemma completed_thread x ins0 outs0 tx ins outs : touches x ins0 outs0 tx -> completed [x] tx ins outs -> x <> "lovelace" ->
  List.filter (fun o => has_nft o x) ins ≡ₚ ((fun ur => located ur.1) <$> List.filter (holds x) ins0) /\
  Forall2 tops_up (List.filter (fun o => has_nft o x) outs0) (List.filter (fun o => has_nft o x) outs).
Proof.
  intros [Hi Ho] (wallet & change & tops & H1 & H2 & -> & Hfo) Hx.
  assert (Forall (fun o => has_nft o x = false) (wallet ++ change)) as [Hw Hc]%Forall_app.
  { eapply Forall_impl; [exact Hfo|]. intros o Hn. unfold has_nft. by rewrite (Hn x) by by left. }
  split.
  - rewrite (filter_perm _ _ _ H1), List.filter_app, (filter_out _ wallet Hw), app_nil_r, filter_located. unfold thread_in in Hi. by rewrite Hi.
  - rewrite List.filter_app, (filter_out _ change Hc), app_nil_r. unfold thread_out in Ho. rewrite <- Ho. by apply filter_tops.
Qed.

(** C25 (safety): the threads are kept.  A completed connection, channel or packet
    transaction spends one HostState and recreates it at its address with the updated
    datum, so the validators' search for the HostState thread succeeds; and exactly one
    output continues the connection or the channel, at its validator's address with its
    new datum, in place of the one spent. *)
Theorem threads_kept i tx ins outs :
  assemble i = Ok tx -> host_nft_unit ∉ ["lovelace"; object_unit i] -> object_unit i <> "lovelace" ->
  rest_free host_nft_unit i -> rest_free (object_unit i) i ->
  holds_one (assets (host_of i)) host_nft_unit -> from_option (fun u => holds_one (assets u) (object_unit i)) True (object_utxo i) ->
  utxo_address (host_of i) = hostStateSttAddress -> is_Some (datum (host_of i)) ->
  completed [host_nft_unit] tx ins outs -> completed [object_unit i] tx ins outs ->
  (exists o, require_host_state_thread ins outs host_nft_unit = Some (located (host_of i), o) /\ out_datum o = Some (host_datum_of i)) /\
  List.filter (fun o => has_nft o (object_unit i)) ins = from_option (fun u => [located u]) [] (object_utxo i) /\
  (exists o, List.filter (fun o => has_nft o (object_unit i)) outs = [o] /\ out_address o = out_address (object_output i) /\
    out_datum o = out_datum (object_output i)).
Proof.
  intros Hasm Hne Hul Hfh Hfo Hh Hu Haddr [hd Hd] Hch Hco. rewrite !not_elem_of_cons in Hne. destruct Hne as (N1 & N2 & _).
  destruct (ibc_touches _ _ _ Hasm Hfh) as (r & r' & Hth). destruct (completed_thread _ _ _ _ _ _ Hth Hch N1) as [Hi Ho].
  destruct (ibc_touches _ _ _ Hasm Hfo) as (s & s' & Hto). destruct (completed_thread _ _ _ _ _ _ Hto Hco Hul) as [Hi' Ho'].
  assert (out_assets (object_output i) = [(object_unit i, 1)]) as Hobj by by destruct i.
  cbn [List.filter] in Hi, Hi', Ho, Ho'. rewrite (holds_own _ _ _ Hh N1) in Hi. rewrite (holds_not _ _ _ _ Hh Hul) in Hi' by congruence.
  rewrite (nft_one _ _ _ Hobj), (nft_one (host_output _) host_nft_unit _ eq_refl), bool_decide_true, bool_decide_false in Ho by congruence.
  rewrite (nft_one _ _ _ Hobj), (nft_one (host_output _) host_nft_unit _ eq_refl), bool_decide_false, bool_decide_true in Ho' by congruence.
  apply Forall2_cons_inv_l in Ho as (o & os & Ht & ->%Forall2_nil_inv_l & Ho). apply Forall2_cons_inv_l in Ho' as (o' & os & Ht' & ->%Forall2_nil_inv_l & Ho').
  destruct Ht as (Hoa & Hod & _), Ht' as (Hoa' & Hod' & _). rewrite Ho'. split_and!; [|clear Hi|by exists o'].
  - exists o. split; [|done]. unfold require_host_state_thread. rewrite Ho.
    assert (List.filter (fun o => has_nft o host_nft_unit) ins = [located (host_of i)]) as ->.
    { apply Permutation_singleton_r. rewrite Hi. destruct (object_utxo i); cbn [from_option List.filter]; [|done]. by rewrite (holds_not _ _ _ _ Hu N1 N2). }
    cbn [located out_datum out_address]. by rewrite Hd, Hod, Hoa, Haddr, bool_decide_true.
  - destruct (object_utxo i); cbn [from_option List.filter] in *; [rewrite (holds_own _ _ _ Hu Hul) in Hi'|]; cbn in Hi';
      [by apply Permutation_singleton_r|by apply Permutation_nil_r].
Qed.
(** ** Modules other than transfer *)

#[global] Instance PacketOperation_eq_dec : EqDecision PacketOperation.
Proof. solve_decision. Defined.

Lemma continues_itself a d v : output_is_exact_continuation (MkTxOutput a d v) (MkTxOutput a d v) = true.
Proof.
  unfold output_is_exact_continuation. cbn [out_address out_datum out_assets]. rewrite !bool_decide_true, Z.eqb_refl by done.
  by assert (match_assets v v = true) as -> by by apply match_assets_spec.
Qed.
Lemma continuation_address o o' : out_address o <> out_address o' -> output_is_exact_continuation o o' = false.
Proof. intros H. unfold output_is_exact_continuation. by rewrite bool_decide_false. Qed.
Lemma continuation_datum o o' : out_datum o <> out_datum o' -> output_is_exact_continuation o o' = false.
Proof. intros H. unfold output_is_exact_continuation. by rewrite (bool_decide_false (out_datum o = _)), andb_false_r. Qed.

Lemma module_outputs op t tx k u r : assemble_packet op t = Ok tx -> tx_app t = ModuleApp k u r ->
  exists a, getModuleAddress k = Ok a /\
    outputs tx = packet_outputs t ++ [MkTxOutput a (if bool_decide (op = AckOp) then None else present (datum u)) (assets u)].
Proof.
  intros H Happ. unfold assemble_packet in H. rewrite Happ in H. destruct op, (tx_verifyProof t); try discriminate H;
    unfold createUnsignedRecvPacketModuleTx, createUnsignedAckPacketModuleTx, createUnsignedSendPacketModuleTx in H; inv_assembly H; eexists; (split; [eassumption|done]).
Qed.

(** Module outputs.  A packet transaction for the mock or the
    interchain-query module pays the module's UTxO back with its assets.  It is the exact
    continuation the module's validator asks for, except that the transaction of an
    acknowledgement leaves the datum out, so it is one only for a module without datum. *)
Lemma module_continuation op t tx k u r :
  assemble_packet op t = Ok tx -> tx_app t = ModuleApp k u r -> getModuleAddress k = Ok (utxo_address u) ->
  utxo_address u ∉ [hostStateSttAddress; spendChannelAddress] -> datum u <> Some "" ->
  mock_continuation (outputs tx) (located u) = true <-> (op = AckOp -> datum u = None).
Proof.
  intros H Happ Ha Hne Hd. destruct (module_outputs _ _ _ _ _ _ H Happ) as (a & Ha' & ->). rewrite Ha in Ha'. injection Ha' as <-.
  rewrite !not_elem_of_cons in Hne. destruct Hne as (N1 & N2 & _). unfold mock_continuation, packet_outputs.
  cbn [app List.filter]. rewrite !(continuation_address (host_output _)), !(continuation_address (channel_output _ _)) by (cbn; congruence).
  assert (present (datum u) = datum u) as -> by by destruct (datum u) as [[]|].
  unfold located. case_bool_decide as Hop; [destruct (datum u) as [d|] eqn:Ed|].
  - rewrite continuation_datum by done. split; [done|]. intros Hn. by specialize (Hn Hop).
  - by rewrite continues_itself.
  - rewrite continues_itself. by split.
Qed.

End threads.
