(* ===== verification/TxAssemblyWitnesses.v ===== *)
(** * Assembled transactions: evaluated instances

    A deployment with one escrow shard, and transactions assembled for it. *)

From Stdlib Require Import ZArith Lia.
From S2P Require Import Prelude JsMap JsString Hex MerkleTree OnChainCommitment ToyHash Datum ToyLucid StateRoot PacketHelpers TreeRebuild EscrowShard EscrowShardTheorems Voucher Redeemers PacketDenom PacketOps ProofMessages MessageValidate ChannelOps ConnectionOps TxAssembly OnChainHostState OnChainTransfer TxAssemblyTheorems EscrowTxTheorems TxThreadTheorems.

#[local] Open Scope Z_scope.

Definition shop_datum : TransferEscrowDatum := MkTransferEscrowDatum "6330" toy_denom_hex.
(** The module's datum is its registry root. *)
Definition shop_module (root : string) : UTxO := MkUTxO "01" 0 [("lovelace", 5000000); ("mod", 1); ("port", 1)] (Some root).
Definition shop_host : UTxO := MkUTxO "03" 0 [("lovelace", 3000000); ("abcd", 1)] (Some "h0").
Definition shop_channel : UTxO := MkUTxO "04" 0 [("lovelace", 3000000); ("c3cc", 1)] (Some "c0").
Definition shop_script : UTxO := MkUTxO "05" 0 [("lovelace", 9000000)] None.
Definition shop_wallet : UTxO := MkUTxO "06" 0 [("lovelace", 90000000)] None.
Definition shop_icq : UTxO := MkUTxO "07" 0 [("lovelace", 2000000); ("e2", 1)] (Some "q0").

Definition shop_env (utxos : list UTxO) : EscrowEnv := {|
  transferModuleAddress := "addr"; transferModuleIdentifier := "mod"; shardPolicyId := toy_policy;
  findUtxoAt a := if bool_decide (a = "addr") then Ok utxos else Ok [];
  decode_transferModule d := Ok d; encode_transferModule r := Ok r;
  decode_transferEscrow e := if bool_decide (e = "dd") then Ok shop_datum else throw "not an escrow datum";
  encode_transferEscrow d :=
    if bool_decide (channel_id d = channel_id shop_datum /\ denom d = denom shop_datum) then Ok "dd" else throw "another shard";
|}.

(** UTxOs of transaction 07 are the query module's, 03 the HostState's. *)
#[local] Instance shop_address : UtxoAddress := fun u =>
  if bool_decide (txHash u = "07") then "addr_icq" else if bool_decide (txHash u = "03") then "addr_host" else "addr".
#[local] Instance shop_deployment : Deployment := {|
  mintClientPolicyId := "c1"; mintConnectionPolicyId := "c2"; mintChannelPolicyId := "c3";
  hostStateNFT := MkAuthToken "ab" "cd"; spendChannelAddress := "addr_channel";
  recvPacketPolicyId := "d1"; timeoutPacketPolicyId := "d2"; ackPacketPolicyId := "d3"; sendPacketPolicyId := "d4";
  prunePacketHistoryPolicyId := "d5"; verifyProofPolicyId := "d6"; voucherPolicyId := "d7";
  voucherMetadataAddress := Some "addr_metadata"; mockModule := None; icqModule := Some ("e2", "addr_icq");
  spendMockModule := true;
|}.
#[local] Instance shop_config : AssemblyConfig := {|
  hostStateSttAddress := "addr_host"; spendClientAddress := "addr_client"; spendConnectionAddress := "addr_connection";
  traceRegistryAddress := None; rs_hostStateStt := shop_script; rs_spendClient := shop_script; rs_mintClient := shop_script;
  rs_mintConnection := shop_script; rs_spendConnection := shop_script; rs_mintChannel := shop_script; rs_spendChannel := shop_script;
  rs_channelOpenAck := shop_script; rs_channelOpenConfirm := shop_script; rs_channelCloseInit := shop_script;
  rs_channelCloseConfirm := shop_script; rs_receivePacket := shop_script; rs_sendPacket := shop_script; rs_ackPacket := shop_script;
  rs_timeoutPacket := shop_script; rs_prunePacketHistory := shop_script; rs_verifyProof := shop_script;
  rs_spendTransferModule := shop_script; rs_spendMockModule := Some shop_script; rs_mintVoucher := shop_script;
  rs_mintTransferEscrowShard := shop_script; rs_mintIdentifier := shop_script; rs_spendTraceRegistry := None;
|}.

Definition packet_of (policy : string) (proof : option (string * string)) (app : AppPart) : PacketTx :=
  MkPacketTx shop_host "hr" "h1" shop_channel (MkUTxO "08" 0 [] None) (MkUTxO "09" 0 [] None) "cr" "c1" "c3cc" policy
    (MkAuthToken "c3" "cc") proof app.

Lemma shop_codec utxos : EscrowCodecOk (EV := shop_env utxos).
Proof.
  intros d e. cbn. case_bool_decide as H; [|done]. destruct d as [c p], H as [Hc Hp]. cbn in Hc, Hp. subst. by intros [= <-].
Qed.
Lemma shop_module_codec utxos : ModuleCodecOk (EV := shop_env utxos).
Proof. by intros r e [= <-]. Qed.
Lemma shop_provider utxos : Forall (fun u => utxo_address u = "addr") utxos -> ProviderOk (EV := shop_env utxos).
Proof. intros Hu a us u. cbn. case_bool_decide; intros [= <-]; [subst; rewrite Forall_forall in Hu; apply Hu|intros []%not_elem_of_nil]. Qed.

Lemma at_module_address utxos : forallb (fun u => bool_decide (utxo_address u = "addr")) utxos = true -> ProviderOk (EV := shop_env utxos).
Proof. intros H. apply shop_provider. apply Forall_forall. intros u Hu. rewrite forallb_forall in H. apply list_elem_of_In, H in Hu. by apply bool_decide_eq_true in Hu. Qed.

(** The transaction as assembled is a completion: no wallet input, no change. *)
Lemma completed_self units tx : completed units tx ((fun ur => located ur.1) <$> spent tx) (outputs tx).
Proof.
  exists [], [], (outputs tx). rewrite !app_nil_r. split_and!; [done| |done|constructor].
  induction (outputs tx); constructor; [|done]. split_and!; (done || lia).
Qed.

Lemma holds_one_pair n k : k <> "lovelace" -> holds_one [("lovelace", n); (k, 1)] k.
Proof. intros Hk u Hu. unfold amount, here. cbn. rewrite decide_False by congruence. cbn. by case_decide. Qed.

Ltac evaluated := apply (bool_decide_eq_true_1 _); vm_compute; reflexivity.

Definition release_module : UTxO := shop_module toy_registry_root.
Definition release_env : EscrowEnv := shop_env [release_module; toy_shard_utxo].
Lemma release_env_codec : EscrowCodecOk (EV := release_env).
Proof. apply shop_codec. Qed.
Lemma release_env_provider : ProviderOk (EV := release_env).
Proof. by apply at_module_address. Qed.
Definition release_tx : PacketTx :=
  packet_of "d1" (Some ("d6", "vp")) (UnescrowApp toy_shard_utxo release_module "mr" "dd" toy_shard_unit 400 "lovelace" "addr_bob" "addr_fee").

Lemma value_conserved_witness : exists tx, assemble_packet (EV := release_env) RecvOp release_tx = Ok tx /\ net tx "d1" = -1 /\ net tx toy_shard_unit = 0.
Proof.
  destruct (assemble_packet (EV := release_env) RecvOp release_tx) as [tx|] eqn:E; [|vm_compute in E; discriminate].
  assert (map_wf (assets toy_shard_utxo)) as Hw by evaluated.
  exists tx. split; [done|]. split.
  - rewrite (value_conserved (EV := release_env) RecvOp release_tx tx "d1" E); [reflexivity|by apply holds_one_pair|by apply holds_one_pair|exact Hw|done].
  - rewrite (value_conserved (EV := release_env) RecvOp release_tx tx toy_shard_unit E);
      [reflexivity|by apply holds_one_pair|by apply holds_one_pair|exact Hw|done].
Defined.

(** A release with a wallet input and change, both at [addr_fee]. *)
Definition fee_wallet : TxOutput := MkTxOutput "addr_fee" None [("lovelace", 90000000)].
Definition fee_change : TxOutput := MkTxOutput "addr_fee" None [("lovelace", 89800000)].
Lemma completed_fee tx units : "lovelace" ∉ units ->
  completed_with [fee_wallet] [fee_change] units tx (((fun ur => located ur.1) <$> spent tx) ++ [fee_wallet]) (outputs tx ++ [fee_change]).
Proof.
  intros Hu. exists (outputs tx). split_and!; [done| |done|].
  - induction (outputs tx); constructor; [|done]. split_and!; (done || lia).
  - repeat constructor; intros u Hin; unfold amount; cbn; (destruct (decide ("lovelace" = u)) as [<-|]; [done|reflexivity]).
Qed.

Lemma escrow_release_accepted_witness : exists tx spend rtx rspend,
  let wallet := [fee_wallet] in let change := [fee_change] in
  assemble_packet (EV := release_env) RecvOp release_tx = Ok tx /\
  receive_release (EV := release_env) toy_policy (located toy_shard_utxo) spend (((fun ur => located ur.1) <$> spent tx) ++ wallet)
    (outputs tx ++ change) shop_datum (mint_total tx) 400 "lovelace" "addr_bob" = true /\
  assemble_packet (EV := release_env) TimeoutOp release_tx = Ok rtx /\
  refund_release (EV := release_env) toy_policy (located toy_shard_utxo) rspend (((fun ur => located ur.1) <$> spent rtx) ++ wallet)
    (outputs rtx ++ change) shop_datum (mint_total rtx) 400 "lovelace" "addr_bob" = true.
Proof.
  destruct (assemble_packet (EV := release_env) RecvOp release_tx) as [tx|] eqn:E; [|vm_compute in E; discriminate].
  destruct (assemble_packet (EV := release_env) TimeoutOp release_tx) as [rtx|] eqn:R; [|vm_compute in R; discriminate].
  assert (unescrow_source (EV := release_env) "6330" toy_denom_hex "lovelace" 400 "" = Ok (toy_shard_utxo, release_module, "dd", toy_shard_unit, "lovelace")) as Hs
    by (vm_compute; reflexivity).
  destruct (escrow_release_accepted (EV := release_env) (COK := release_env_codec) (PROV := release_env_provider) "port" "mod" RecvOp release_tx "6330" toy_denom_hex "lovelace" 400 "" toy_shard_utxo
    release_module "dd" toy_shard_unit "lovelace" "mr" "addr_bob" "addr_fee" tx [fee_wallet] [fee_change] (((fun ur => located ur.1) <$> spent tx) ++ [fee_wallet]) (outputs tx ++ [fee_change]) Hs) as (_ & spend & pay & _ & _ & _ & H1);
    [evaluated|reflexivity|exact E|evaluated|reflexivity|evaluated|evaluated|apply completed_fee; evaluated|].
  destruct (escrow_release_accepted (EV := release_env) (COK := release_env_codec) (PROV := release_env_provider) "port" "mod" TimeoutOp release_tx "6330" toy_denom_hex "lovelace" 400 "" toy_shard_utxo
    release_module "dd" toy_shard_unit "lovelace" "mr" "addr_bob" "addr_fee" rtx [fee_wallet] [fee_change] (((fun ur => located ur.1) <$> spent rtx) ++ [fee_wallet]) (outputs rtx ++ [fee_change]) Hs) as (_ & rspend & rpay & _ & Ht & _ & H2);
    [evaluated|reflexivity|exact R|evaluated|reflexivity|evaluated|evaluated|apply completed_fee; evaluated|].
  exists tx, spend, rtx, rspend. split; [reflexivity|]. split; [exact H1|]. split; [reflexivity|]. etransitivity; [exact H2|].
  pose proof (tops_up_amount _ _ "lovelace" Ht) as Hge. apply Z.leb_le. change (held_at [fee_wallet] "addr_bob" "lovelace") with 0.
  change (held_at [fee_change] "addr_bob" "lovelace") with 0. change (amount (out_assets (MkTxOutput "addr_bob" None [("lovelace", 400)])) "lovelace") with 400 in Hge. lia.
Defined.

Definition deposit_module : UTxO := shop_module zero_root64.
Definition deposit_env : EscrowEnv := shop_env [deposit_module].
Lemma deposit_env_codec : EscrowCodecOk (EV := deposit_env).
Proof. apply shop_codec. Qed.
Lemma deposit_env_module_codec : ModuleCodecOk (EV := deposit_env).
Proof. apply shop_module_codec. Qed.
Lemma deposit_env_provider : ProviderOk (EV := deposit_env).
Proof. by apply at_module_address. Qed.
Definition deposit_lookup : TransferEscrowShardLookup :=
  Eval vm_compute in
  match findTransferEscrowShard (EV := deposit_env) "6330" toy_denom_hex "lovelace" None with
  | Ok l => l | Err _ => ShardMissing "" "" deposit_module [] ""
  end.
Definition deposit_tx : PacketTx :=
  packet_of "d4" None (escrow_app_of deposit_lookup [shop_wallet] "mr" "sr" "lovelace" 250 "addr_alice" "addr_bob" "addr_fee").

Definition shop_host_datum : HostStateDatum := MkHostStateDatum (MkHostState 1 zero_root64 1 1 1 [] 0) "ab" "cd" Active.

(** The shard does not exist yet: the transaction creates it beside the module root. *)
Lemma escrow_deposit_accepted_witness : exists tx spend,
  assemble_packet (EV := deposit_env) SendOp deposit_tx = Ok tx /\
  classify_transfer_module_spend (EV := deposit_env) toy_policy "port" "mod" (located deposit_module) (outputs tx) = Some spend /\
  native_send (EV := deposit_env) toy_policy shop_host_datum (located deposit_module) spend
    ((fun ur => located ur.1) <$> spent tx) (outputs tx) shop_datum (mint_total tx) 250 "lovelace" = true.
Proof.
  destruct (assemble_packet (EV := deposit_env) SendOp deposit_tx) as [tx|] eqn:E; [|vm_compute in E; discriminate].
  assert (findTransferEscrowShard (EV := deposit_env) "6330" toy_denom_hex "lovelace" None = Ok deposit_lookup) as Hs by (vm_compute; reflexivity).
  assert (witness_utxo deposit_lookup = deposit_module) as Hw by (vm_compute; reflexivity).
  destruct (escrow_deposit_accepted (EV := deposit_env) (COK := deposit_env_codec) (MOK := deposit_env_module_codec) (PROV := deposit_env_provider) "port" "mod" deposit_tx "6330" toy_denom_hex "lovelace" None deposit_lookup [shop_wallet]
    "mr" "sr" 250 "addr_alice" "addr_bob" "addr_fee" tx ((fun ur => located ur.1) <$> spent tx) (outputs tx) Hs eq_refl eq_refl) as ((spend & H1 & H2) & _).
  - split; [reflexivity|discriminate].
  - apply bindingb_ok. vm_compute. reflexivity.
  - rewrite Hw. evaluated.
  - reflexivity.
  - exact E.
  - by apply holds_one_pair.
  - by apply holds_one_pair.
  - evaluated.
  - evaluated.
  - evaluated.
  - evaluated.
  - apply completed_self.
  - rewrite Hw in H1, H2. exists tx, spend. exact (conj eq_refl (conj H1 (H2 shop_host_datum))).
Defined.

Lemma threads_kept_witness : exists tx o,
  assemble_packet (EV := release_env) RecvOp release_tx = Ok tx /\
  require_host_state_thread ((fun ur => located ur.1) <$> spent tx) (outputs tx) "abcd" = Some (located shop_host, o) /\ out_datum o = Some "h1".
Proof.
  destruct (assemble_packet (EV := release_env) RecvOp release_tx) as [tx|] eqn:E; [|vm_compute in E; discriminate].
  assert (map_wf (assets toy_shard_utxo)) as Hw by evaluated.
  destruct (threads_kept (EV := release_env) (PacketStep RecvOp release_tx) tx ((fun ur => located ur.1) <$> spent tx) (outputs tx) E)
    as ((o & H1 & H2) & _); 
    first [by apply holds_one_pair | apply completed_self | evaluated | by eexists | split; [reflexivity|split; [exact Hw|discriminate]] | idtac].
  - exists tx, o. exact (conj eq_refl (conj H1 H2)).
Defined.

