(* ===== verification/ChannelOpsFacts.v ===== *)
(** * The handshake builders step by step

    What a successful run of [continue_channel] and [create_channel] has loaded,
    computed and encoded, and the agreement of the proof redeemer with the one the
    validator expects. *)

From Stdlib Require Import ZArith Lia.
From S2P Require Import Prelude JsMap JsString JsJson Hex MerkleTree Datum StateRoot PacketHelpers TreeRebuild TreeServices EscrowShard Voucher Redeemers JsNumber Varint Utf8 Binary ProtoCodec ProtoMessages ProtoLaws ProtoTheorems OnChainProto MerkleTheorems ProofMessages PacketDenom PacketOps PacketOpsTheorems MessageValidate ChannelOps OnChainDatum OnChainChannel.

#[local] Open Scope Z_scope.

(** ** Heights and delays *)

Lemma get_first_height {A} (l : list (Height * A)) h : getHeightMapValue l h = get_first l h.
Proof.
  induction l as [|[k v] l IH]; [done|]. cbn [getHeightMapValue get_first]. destruct (same_height k h) eqn:E.
  - apply same_height_eq in E as ->. by rewrite decide_True.
  - rewrite decide_False; [done|]. intros ->. destruct (same_height h h) eqn:E'; [done|].
    by rewrite (proj2 (same_height_eq h h) eq_refl) in E'.
Qed.

Lemma find_first {A} (l : list (Height * A)) h i k v :
  list_find (fun kv => same_height kv.1 h = true) l = Some (i, (k, v)) -> k = h /\ get_first l h = Some v.
Proof.
  revert i. induction l as [|[k' v'] l IH]; intros i; [done|]. cbn [list_find get_first fst].
  destruct (decide (same_height k' h = true)) as [E|E].
  - intros [= <- <- <-]. apply same_height_eq in E as ->. by rewrite decide_True.
  - destruct (list_find _ l) as [[j kv]|] eqn:Ef; [|done]. cbn. intros [= <- ->]. destruct (IH j eq_refl) as [-> Hf].
    rewrite decide_False; [done|]. intros ->. by rewrite (proj2 (same_height_eq h h) eq_refl) in E.
Qed.

Lemma consensus_at_first cd h e1 e2 c t ph : consensus_at cd h e1 e2 = Ok (c, t, ph) ->
  get_first (consensusStates (cld_state cd)) h = Some c /\ get_first (processedTimes (cld_state cd)) h = Some t /\
  get_first (processedHeights (cld_state cd)) h = Some ph.
Proof.
  unfold consensus_at. destruct (list_find _ _) as [[i [k cs]]|] eqn:E; [|done]. apply find_first in E as [-> Hc].
  rewrite !get_first_height. destruct (get_first (processedTimes _) h); [|done].
  destruct (get_first (processedHeights _) h); [|done]. by intros [= <- <- <-].
Qed.

Lemma block_delay_agrees d : 0 <= d -> get_block_delay d = Some (getBlockDelay d).
Proof.
  intros Hd. unfold get_block_delay, getBlockDelay, max_expected_time_per_block, MAX_EXPECTED_TIME_PER_BLOCK.
  destruct (Z.ltb_spec d 0); [lia|]. f_equal. destruct (Z.leb_spec d 0).
  - by replace d with 0 by lia.
  - change (4000000000 <=? 0) with false. cbv iota.
    rewrite Z.quot_div_nonneg, Z.rem_mod_nonneg by lia. pose proof (Z.div_mod d 4000000000).
    destruct (Z.eqb_spec (d mod 4000000000) 0); destruct (Z.eqb_spec (d / 4000000000 * 4000000000) d); lia.
Qed.

(** ** ASCII texts in hexadecimal *)

(** An identifier of ordinary size in hexadecimal. *)
Definition ascii_hex (h s : string) : Prop := h = convertString2Hex s /\ ascii_text s = true /\ blen (utf8 s) < 4000.

Lemma raw_convert s : raw (convertString2Hex s) = utf8 s.
Proof. unfold convertString2Hex. case_decide as H; [by subst|]. apply hex_decode_encode. Qed.

Lemma ascii_hex_text h s : ascii_hex h s -> convertHex2String h = s.
Proof. intros (-> & Ha & _). by apply hex_text_roundtrip. Qed.
Lemma ascii_hex_raw h s : ascii_hex h s -> raw h = utf8 s.
Proof. intros (-> & _). apply raw_convert. Qed.

Lemma ascii_hex_js h s : ascii_hex h s -> js_string s.
Proof.
  intros (_ & Ha & Hl). apply ascii_js_string. unfold ascii_string. apply andb_true_intro. unfold blen in Hl. split; [|apply Z.ltb_lt; lia].
  unfold ascii_text in Ha. apply forallb_forall. intros b Hb. apply (proj1 (forallb_forall _ _) Ha) in Hb.
  unfold is_ascii in Hb. apply N.leb_le in Hb. apply Z.ltb_lt. unfold byte_to_Z. lia.
Qed.

Lemma hex_encode_utf8 s : hex_encode (utf8 s) = convertString2Hex s.
Proof. unfold convertString2Hex. case_decide as H; [by subst|done]. Qed.


Lemma path_agrees p ps c cs : ascii_hex p ps -> ascii_hex c cs ->
  convertString2Hex (channelPath (convertHex2String p) (convertHex2String c)) = hex_encode (channel_path (raw p) (raw c)).
Proof.
  intros Hp Hc. rewrite (ascii_hex_text _ _ Hp), (ascii_hex_text _ _ Hc), (ascii_hex_raw _ _ Hp), (ascii_hex_raw _ _ Hc).
  rewrite <- hex_encode_utf8. unfold channelPath, channelPathForPacket, channel_path. by rewrite !utf8_app.
Qed.

(** ** The proof redeemer *)

Section proof.
Context `{SHA : Sha256} `{L : Lucid} `{CV : ChainView} `{BL : Blake2b} `{S3 : Sha3}.
Context `{EV : EscrowEnv} `{DP : Deployment} `{PE : PacketEnv} `{CD : ChannelDeployment}.

(** The connection's own data is in order. *)
Record connection_sound (c : ConnectionEnd) : Prop := {
  cs_delay : 0 <= conn_delay_period c;
  cs_prefix : raw (cp_key_prefix (conn_counterparty c)) <> [];
  cs_remote : exists s, ascii_hex (cp_connection_id (conn_counterparty c)) s;
}.

(** The texts of a channel datum are identifiers. *)
Record channel_sound (d : ChannelDatum) : Prop := {
  chs_port : exists s, ascii_hex (cd_port d) s;
  chs_remote_port : exists s, ascii_hex (cc_port_id (ch_counterparty (channel_end d))) s;
  chs_remote_channel : exists s, ascii_hex (cc_channel_id (ch_counterparty (channel_end d))) s;
  chs_version : exists s, ascii_hex (ch_version (channel_end d)) s;
}.

Lemma channel_size s o p c h v : size (wire (MkPChannel s o (MkPCounterparty p c) [h] v)) <=
  200 + size (utf8 p) + size (utf8 c) + size (utf8 h) + size (utf8 v).
Proof.
  assert (forall tag x, size (wire_string tag x) <= 20 + size (utf8 x)) as Hs.
  { intros tag x. unfold wire_string. case_decide; [rewrite size_nil; unfold size; lia|apply size_delimited]. }
  unfold wire; cbn [PChannel_ok concat pch_state pch_ordering pch_counterparty pch_connection_hops pch_version].
  unfold wire_repeated; cbn [mbind list_bind]. rewrite !app_nil_r, !size_app.
  pose proof (size_int 8 s). pose proof (size_int 16 o). pose proof (Hs 42 v). pose proof (size_delimited 34 (utf8 h)).
  pose proof (size_delimited 26 (wire (MkPCounterparty p c))) as Hc. unfold wire in Hc; cbn [PCounterparty_ok concat pc_port_id pc_channel_id] in Hc.
  rewrite app_nil_r, size_app in Hc. pose proof (Hs 10 p). pose proof (Hs 18 c). unfold wire_message, wire_text, wire; cbn [PCounterparty_ok concat pc_port_id pc_channel_id]. rewrite app_nil_r. lia.
Qed.

Definition ascii_id (s : string) : Prop := ascii_hex (convertString2Hex s) s.

Lemma end_bytes_agree st d conn channelId version :
  channel_sound d -> connection_sound (cnd_state conn) -> ascii_id channelId -> ascii_id version ->
  toHex (encodeMessage (counterparty_end (state_to_int32 st) d channelId conn version)) =
  hex_encode (marshal_for_channel (expected_channel st (cnd_state conn) d (utf8 channelId) (utf8 version))).2.
Proof.
  intros [[p Hp] _ _ _] [_ _ [k Hk]] Hc Hv. rewrite toHex_hex_encode. f_equal.
  assert (counterparty_end (state_to_int32 st) d channelId conn version =
    proto_channel (expected_channel st (cnd_state conn) d (utf8 channelId) (utf8 version))) as E.
  { unfold counterparty_end, proto_channel, expected_channel.
    cbn [pb_state pb_ordering pb_port_id pb_channel_id pb_connection_hops pb_version fmap list_fmap].
    rewrite (ascii_hex_text _ _ Hp), (ascii_hex_raw _ _ Hp), (ascii_hex_text _ _ Hk), (ascii_hex_raw _ _ Hk), !text_utf8.
    f_equal. unfold channel_end. by destruct (ch_ordering _). }
  assert (small_channel (expected_channel st (cnd_state conn) d (utf8 channelId) (utf8 version))) as Hsmall.
  { destruct Hp as (Hp & _ & Hpl), Hk as (Hk & _ & Hkl), Hc as (_ & _ & Hcl), Hv as (_ & _ & Hvl).
    unfold small_channel, expected_channel. cbn [pb_port_id pb_channel_id pb_connection_hops pb_version pb_upgrade_sequence].
    rewrite Hp, Hk, !raw_convert. unfold small_bytes, small. split_and!; try (unfold blen in *; lia).
    constructor; [unfold blen in *; lia|done]. }
  rewrite marshal_for_channel_wire, <- E by done. apply encode_is_wire.
  - rewrite E. unfold proto_channel, expected_channel.
    cbn [pb_state pb_ordering pb_port_id pb_channel_id pb_connection_hops pb_version fmap list_fmap].
    rewrite (ascii_hex_raw _ _ Hp), (ascii_hex_raw _ _ Hk), !text_utf8. split_and!.
    + by destruct st.
    + by destruct (ch_ordering _).
    + split; [by eapply ascii_hex_js|by eapply ascii_hex_js].
    + constructor; [by eapply ascii_hex_js|done].
    + by eapply ascii_hex_js.
  - unfold counterparty_end, short. fold (size (wire (MkPChannel (state_to_int32 st)
      (orderFromJSON (ORDER_MAPPING_CHANNEL (ch_ordering (channel_end d)))) (MkPCounterparty (convertHex2String (cd_port d)) channelId)
      [convertHex2String (cp_connection_id (conn_counterparty (cnd_state conn)))] version))).
    rewrite (ascii_hex_text _ _ Hp), (ascii_hex_text _ _ Hk). eapply Z.le_lt_trans; [apply channel_size|].
    destruct Hp as (_ & _ & Hp), Hk as (_ & _ & Hk), Hc as (_ & _ & Hc), Hv as (_ & _ & Hv). unfold size, blen in *. lia.
Qed.

(** The redeemer the service computes is the one the validator computes from the
    output datum. *)
Lemma proof_agrees st d updated kx c channelId version proof h :
  channel_sound updated -> connection_sound (cnd_state (kx_connectionDatum kx)) -> ascii_id channelId -> ascii_id version ->
  cd_port updated = cd_port d -> ch_ordering (channel_end updated) = ch_ordering (channel_end d) ->
  consensus_at (kx_clientDatum kx) h (missing_state h) missing_meta = Ok c ->
  let connection := cnd_state (kx_connectionDatum kx) in
  expected_proof connection (cld_state (kx_clientDatum kx)) updated
    (expected_channel st connection updated (utf8 channelId) (utf8 version)) proof h =
  Some (channel_proof kx c h proof updated (counterparty_end (state_to_int32 st) d channelId (kx_connectionDatum kx) version)).
Proof.
  intros Hs Hc Hi Hv Hport Hord Hcons connection. subst connection. destruct c as [[cons t] ph]. apply consensus_at_first in Hcons as (H1 & H2 & H3).
  replace (counterparty_end (state_to_int32 st) d channelId (kx_connectionDatum kx) version)
    with (counterparty_end (state_to_int32 st) updated channelId (kx_connectionDatum kx) version)
    by (unfold counterparty_end; by rewrite Hport, Hord).
  unfold channel_proof. rewrite end_bytes_agree by done. destruct Hs as [_ [rp Hrp] [rc Hrc] _], Hc as [Hd Hp _].
  unfold expected_proof, apply_prefix. rewrite (block_delay_agrees _ Hd). cbn [mbind option_bind].
  rewrite decide_False by done. cbn [mbind option_bind]. rewrite H1, H2, H3. cbn [mbind option_bind].
  unfold verify_params, counterparty_path. rewrite (path_agrees _ _ _ _ Hrp Hrc). done.
Qed.

(** ** The continuing builders *)

(** What [continue_channel] has loaded and encoded. *)
Record continued (s : gstate) (cx : ChannelContext) (kx : ClientContext) (channelSequence : string) (n : Continuation) (tx : ChannelTx)
    (p : PendingTreeUpdate) (s' : gstate) : Prop := {
  ct_ok_datum : ct_encodedChannelDatum tx = encodeChannelDatum (cn_updated n);
  ct_ok_part : exists enc c vp,
    encode_spendChannelRedeemer (cn_redeemer n) = Ok enc /\
    consensus_at (kx_clientDatum kx) (cn_proofHeight n) (missing_state (cn_proofHeight n)) missing_meta = Ok c /\
    encodeVerifyProofRedeemer (channel_proof kx c (cn_proofHeight n) (cn_proof n) (cn_updated n)
      (counterparty_end (cn_state n) (cx_channelDatum cx) (CHANNEL_ID_PREFIX +:+ "-" +:+ channelSequence) (kx_connectionDatum kx)
         (cn_version n))) = Ok vp /\
    ct_part tx = SpendChannel (cx_channelUtxo cx) enc (cn_policy n) (cx_channelToken cx) (Some (verifyProofPolicyId, vp));
  ct_ok_module : module_callback (convertHex2String (cd_port (cx_channelDatum cx)))
    (cn_callback n (convertString2Hex (CHANNEL_ID_PREFIX +:+ "-" +:+ channelSequence))) =
    Ok (ct_moduleKey tx, ct_moduleUtxo tx, ct_encodedSpendModuleRedeemer tx);
  ct_ok_refs : ct_connectionUtxo tx = kx_connectionUtxo kx /\ ct_clientUtxo tx = kx_clientUtxo kx;
}.

(** The HostState side of a transaction that moves a channel end to [d']. *)
Definition channel_root_update (s : gstate) (portId channelId : string) (d' : ChannelDatum) (tx : ChannelTx) (p : PendingTreeUpdate)
    (s' : gstate) : Prop :=
  exists h s1 value r,
    host_state_is (ct_hostStateUtxo tx) h /\ ensureTreeAligned (ibc_state_root (hs_state h)) s = (Ok tt, s1) /\
    encodeChannelEndValue (channel_end d') = Ok value /\
    computeRootWithUpdateChannelUpdate (ibc_state_root (hs_state h)) portId channelId (hex_decode_prefix value) s1 = (Ok r, s') /\
    encode_host_state_redeemer (UpdateChannel (witness r)) = Ok (ct_encodedHostStateRedeemer tx) /\
    encode_host_state (updated_host_state h (newRoot r)) = Ok (ct_encodedUpdatedHostStateDatum tx) /\
    p = MkPending (newRoot r) (commitTree r).

Lemma update_channel_ok root portId channelId d s r s' :
  service_computeRootWithUpdateChannelUpdate root portId channelId d s = (Ok r, s') ->
  exists value, encodeChannelEndValue (channel_end d) = Ok value /\
    computeRootWithUpdateChannelUpdate root portId channelId (hex_decode_prefix value) s = (Ok r, s').
Proof.
  unfold service_computeRootWithUpdateChannelUpdate, channel_value. intros H. inv_prog H. inv_prog E. apply Ok_inj in E as <-. eauto.
Qed.

Lemma encode_channel_ok d enc : encode_channel d = Ok enc -> enc = encodeChannelDatum d.
Proof. unfold encode_channel. cbn. by intros [= <-]. Qed.

Lemma continue_channel_ok cx seq n s tx p s' :
  continue_channel cx seq n s = (Ok (tx, p), s') ->
  exists kx, load_client (cx_channelDatum cx) = Ok kx /\ continued s cx kx seq n tx p s' /\
    channel_root_update s (convertHex2String (cd_port (cx_channelDatum cx))) (CHANNEL_ID_PREFIX +:+ "-" +:+ seq) (cn_updated n) tx p s'.
Proof.
  unfold continue_channel. intros H. inv_prog H. destruct (negb _); [discriminate|]. inv_prog H.
  apply mret_ok in H as [[= -> ->] ->]. repeat match goal with u : () |- _ => destruct u end.
  match goal with E : load_host_state _ = _ |- _ => apply load_host_state_ok in E as [Hh ->] end.
  match goal with E : service_computeRootWithUpdateChannelUpdate _ _ _ _ _ = _ |- _ => apply update_channel_ok in E as (value & Hv & Hr) end.
  match goal with E : encode_channel _ = _ |- _ => apply encode_channel_ok in E as -> end.
  eexists. split; [eassumption|]. split; [split|].
  - done.
  - do 3 eexists. split; [eassumption|]. split; [eassumption|]. split; [eassumption|]. done.
  - done.
  - done.
  - do 4 eexists. split_and!; [exact Hh|eassumption|exact Hv|exact Hr|eassumption|eassumption|done].
Qed.

End proof.
