(* ===== verification/ConnectionOpsTheorems.v ===== *)
(** * The connection handshake: what the builders guarantee

    An open-init transaction creates the connection end the mint validator expects; an
    open-ack transaction from an end in state Init makes the transition the spend
    validator expects and carries exactly the proof it recomputes.  The open-confirm and
    open-try builders hand over transactions no validator accepts. *)

From Stdlib Require Import ZArith Lia.
From S2P Require Import Prelude JsMap JsString JsJson Hex MerkleTree MerkleSpec MerkleRefine OnChainCommitment MerkleTheorems Datum StateRoot PacketHelpers StateRootFacts StateRootTheorems TreeRebuild TreeServices EscrowShard Voucher Redeemers JsNumber Varint Utf8 Binary ProtoCodec ProtoMessages ProtoLaws ProtoTheorems ProtoConnection OnChainProto ProofMessages PacketDenom PacketOps PacketOpsTheorems MessageValidate ChannelOps ConnectionOps OnChainDatum OnChainChannel OnChainConnection OnChainHostState OnChainClient ChannelOpsFacts.

#[local] Open Scope Z_scope.

(** ** The counterparty's end, byte for byte *)

(** A connection end of this gateway: its identifiers are ASCII, its versions the ones
    every message check puts in. *)
Record end_sound (c : ConnectionEnd) : Prop := {
  es_client : exists s, ascii_hex (conn_client_id c) s;
  es_remote_client : exists s, ascii_hex (cp_client_id (conn_counterparty c)) s;
  es_versions : conn_versions c = default_versions;
  es_delay : uint64_ok (conn_delay_period c);
  es_prefix : raw (cp_key_prefix (conn_counterparty c)) <> [];
}.

Definition default_proto_versions : list PVersion := [MkPVersion "1" ["ORDER_ORDERED"; "ORDER_UNORDERED"]].

Lemma connection_wire_size a vs st b i p d :
  size (wire (MkPConnectionEnd a vs st (MkPConnCounterparty b i (MkPMerklePrefix p)) d)) <=
  300 + size (utf8 a) + size (wire_repeated wire_message 18 vs) + size (utf8 b) + size (utf8 i) + size p.
Proof.
  assert (forall tag x, size (wire_string tag x) <= 20 + size (utf8 x)) as Hs.
  { intros tag x. unfold wire_string. case_decide; [rewrite size_nil; unfold size; lia|apply size_delimited]. }
  unfold wire; cbn [PConnectionEnd_ok concat pce_client_id pce_versions pce_state pce_counterparty pce_delay_period].
  rewrite app_nil_r, !size_app. pose proof (Hs 10 a). pose proof (size_int 24 st). pose proof (size_int 40 d).
  pose proof (size_delimited 34 (wire (MkPConnCounterparty b i (MkPMerklePrefix p)))) as Hc.
  unfold wire in Hc at 2; cbn [PConnCounterparty_ok concat pcc_client_id pcc_connection_id pcc_prefix] in Hc.
  rewrite app_nil_r, !size_app in Hc. pose proof (Hs 10 b). pose proof (Hs 18 i).
  pose proof (size_delimited 26 (wire (MkPMerklePrefix p))) as Hp. unfold wire in Hp at 2; cbn [PMerklePrefix_ok concat px_key_prefix] in Hp.
  rewrite app_nil_r in Hp. pose proof (size_bytes 10 p). unfold wire_message in *. lia.
Qed.

Lemma connection_end_bytes c seq : end_sound c -> ascii_id (CONNECTION_ID_PREFIX +:+ "-" +:+ seq) ->
  toHex (encodeMessage (counterparty_connection c seq)) =
  hex_encode (marshal_for_connection_end (expected_connection ConnTryOpen c (utf8 (CONNECTION_ID_PREFIX +:+ "-" +:+ seq)))).
Proof.
  intros [[a Ha] [b Hb] Hv Hd _] Hi. rewrite toHex_hex_encode. f_equal. set (id := CONNECTION_ID_PREFIX +:+ "-" +:+ seq) in *.
  assert (counterparty_connection c seq = MkPConnectionEnd b default_proto_versions STATE_TRYOPEN
    (MkPConnCounterparty a id (MkPMerklePrefix (utf8 "ibc"))) (conn_delay_period c)) as E.
  { unfold counterparty_connection. rewrite Hv, (ascii_hex_text _ _ Ha), (ascii_hex_text _ _ Hb). done. }
  assert (proto_connection (expected_connection ConnTryOpen c (utf8 id)) = counterparty_connection c seq) as E'.
  { rewrite E. unfold expected_connection, proto_connection.
    cbn [pbn_counterparty pbn_client_id pbn_versions pbn_state pbn_delay_period conn_state_to_int32].
    rewrite Hv, (ascii_hex_raw _ _ Ha), (ascii_hex_raw _ _ Hb), !text_utf8. done. }
  pose proof Ha as (_ & _ & Hla). pose proof Hb as (_ & _ & Hlb). pose proof Hi as (_ & _ & Hli).
  rewrite marshal_for_connection_wire.
  - rewrite E'. apply encode_is_wire; rewrite E.
    + split_and!; [by eapply ascii_hex_js| |done| |done].
      * repeat constructor; by apply ascii_js_string.
      * split_and!; [by eapply ascii_hex_js|by eapply ascii_hex_js|done].
    + unfold short. fold (size (wire (MkPConnectionEnd b default_proto_versions STATE_TRYOPEN
        (MkPConnCounterparty a id (MkPMerklePrefix (utf8 "ibc"))) (conn_delay_period c)))).
      eapply Z.le_lt_trans; [apply connection_wire_size|].
      change (size (wire_repeated wire_message 18 default_proto_versions)) with 37. change (size (utf8 "ibc")) with 3.
      unfold size, blen in *. lia.
  - unfold small_connection, expected_connection. cbn [pbn_counterparty pbn_client_id pbn_versions pbn_delay_period].
    rewrite Hv, (ascii_hex_raw _ _ Ha), (ascii_hex_raw _ _ Hb). split_and!; [|repeat constructor; done| |done].
    + unfold small_bytes, small. unfold blen in *. lia.
    + change (blen default_merkle_prefix) with 3. lia.
Qed.

Section connection.
Context `{SHA : Sha256} `{L : Lucid} `{CV : ChainView} `{BL : Blake2b} `{S3 : Sha3}.
Context `{EV : EscrowEnv} `{DP : Deployment} `{PE : PacketEnv}.

(** ** The HostState side *)

Definition host_utxo_is (u : UTxO) (h : HostStateDatum) : Prop :=
  findUtxoAtHostStateNFT = Ok (Some u) /\ decode_datum decode_host_state u = Ok h.

Lemma load_host_utxo_ok s u h s' : load_host_utxo s = (Ok (u, h), s') -> host_utxo_is u h /\ s' = s.
Proof.
  unfold load_host_utxo. intros H. inv_prog H. destruct a as [u'|]; [|discriminate]. inv_prog H. by apply mret_ok in H as [[= -> ->] ->].
Qed.

(** The tree is aligned with the root; its cache may have been rebuilt since. *)
Definition aligned_to (root : string) (s s1 : gstate) : Prop :=
  exists s0, ensureTreeAligned root s = (Ok tt, s0) /\ (s1 = s0 \/ exists r, getCurrentRoot s0 = (Ok r, s1)).

(** The key of connection [connectionId] is set to the encoding of [c]. *)
Record connection_root_update (s : gstate) (connectionId : string) (c : ConnectionEnd) (tx : ConnectionTx) (h : HostStateDatum)
    (s1 : gstate) (value : bytes) (r : StateRootResult (list string)) (s' : gstate) : Prop := {
  cu_host : host_utxo_is (nx_hostStateUtxo tx) h;
  cu_aligned : aligned_to (ibc_state_root (hs_state h)) s s1;
  cu_value : exists enc, encodeConnectionEndValue c = Ok enc /\ value = hex_decode_prefix enc;
  cu_root : computeRootWithCreateConnectionUpdate (ibc_state_root (hs_state h)) connectionId value s1 = (Ok r, s');
}.

Lemma connection_value_ok c v : connection_value c = Ok v -> exists enc, encodeConnectionEndValue c = Ok enc /\ v = hex_decode_prefix enc.
Proof. unfold connection_value. intros (enc & -> & [= <-])%bind_ok. by exists enc. Qed.

Lemma encode_type_ok {A} type (r : result A) a : encode_type type r = Ok a -> r = Ok a.
Proof. unfold encode_type. by destruct r. Qed.

(** The replay of one connection key, as the HostState validator does it. *)
Lemma connection_replayed `{LOK : !LucidOk} `{STD : !Sha256Std} s connectionId c tx h s1 value r s' :
  connection_root_update s connectionId c tx h s1 value r s' -> state_ok s1 -> value_ok value ->
  let root := ibc_state_root (hs_state h) in
  apply_update (raw root) (utf8 (connectionPath connectionId)) (tree_value (base_tree s1 root) (connectionPath connectionId)) value
    (raw <$> witness r) = Some (raw (newRoot r)) /\
  tree_value (commitTree r) (connectionPath connectionId) = value /\
  (forall k, k <> connectionPath connectionId -> tree_value (commitTree r) k = tree_value (base_tree s1 root) k).
Proof.
  intros [_ _ (enc & He & ->) Hr] Hok Hv root.
  assert (root_transition s1 root [(connectionPath connectionId, hex_decode_prefix enc)] [witness r] r s') as Hrt.
  { eapply single_key_transition; [reflexivity|done|done| |done|exact Hr]. by eapply Data_to_nonempty. }
  assert (tree_wf (base_tree s1 root)) as Hwf by (unfold base_tree; case_decide; [apply tree_wf_new|apply Hok]).
  assert (forall k, tree_value (commitTree r) k = if decide (connectionPath connectionId = k) then hex_decode_prefix enc else tree_value (base_tree s1 root) k) as Hg.
  { intros k. rewrite (tree_value_leaves _ (set_all [(connectionPath connectionId, hex_decode_prefix enc)] (base_tree s1 root))) by apply Hrt.
    cbn [set_all]. by rewrite tree_value_set. }
  split_and!.
  - pose proof (rt_replay _ _ _ _ _ _ Hrt) as H. cbn [updates_of apply_updates ku_key ku_old ku_new ku_siblings] in H.
    apply bind_Some in H as (x & Hx & [= ->]). exact Hx.
  - by rewrite Hg, decide_True.
  - intros k Hk. rewrite Hg, decide_False; [done|congruence].
Qed.

(** ** Creating a connection end *)

Record connection_created (s : gstate) (clientId : string) (c : ConnectionEnd) (m : MintConnectionRedeemer) (tx : ConnectionTx)
    (h : HostStateDatum) (d : ConnectionDatum) (s1 : gstate) (value : bytes) (r : StateRootResult (list string)) (s' : gstate) : Prop := {
  nc_token : getConnectionTokenUnit (next_connection_sequence (hs_state h)) = Ok (policyId (cnd_token d), token_name (cnd_token d)) /\
    nx_connectionTokenUnit tx = policyId (cnd_token d) +:+ token_name (cnd_token d);
  nc_client : exists unit, getClientTokenUnit clientId = Ok unit /\ findUtxoByUnit unit = Ok (nx_clientUtxo tx);
  nc_datum : cnd_state d = c /\ encodeConnectionDatum d = Ok (nx_encodedConnectionDatum tx);
  nc_mint : exists enc, encode_mintConnectionRedeemer m = Ok enc /\ nx_part tx = MintConnection enc;
  nc_redeemer : encode_host_state_redeemer (CreateConnection (witness r)) = Ok (nx_encodedHostStateRedeemer tx);
  nc_host_datum : encode_host_state (host_with_connection h (newRoot r)) = Ok (nx_encodedUpdatedHostStateDatum tx);
  nc_root : connection_root_update s ("connection-" +:+ pretty (next_connection_sequence (hs_state h))) c tx h s1 value r s';
}.

Lemma new_connection_ok clientId c s n s' : new_connection clientId c s = (Ok n, s') ->
  exists s1 value enc unit,
    host_utxo_is (nn_hostStateUtxo n) (nn_hostStateDatum n) /\
    ensureTreeAligned (ibc_state_root (hs_state (nn_hostStateDatum n))) s = (Ok tt, s1) /\
    encodeConnectionEndValue c = Ok enc /\ value = hex_decode_prefix enc /\
    computeRootWithCreateConnectionUpdate (ibc_state_root (hs_state (nn_hostStateDatum n))) (nn_connectionId n) value s1 = (Ok (nn_root n), s') /\
    getClientTokenUnit clientId = Ok unit /\ findUtxoByUnit unit = Ok (nn_clientUtxo n) /\
    cnd_state (nn_datum n) = c /\
    getConnectionTokenUnit (next_connection_sequence (hs_state (nn_hostStateDatum n))) =
      Ok (policyId (cnd_token (nn_datum n)), token_name (cnd_token (nn_datum n))) /\
    nn_connectionTokenUnit n = policyId (cnd_token (nn_datum n)) +:+ token_name (cnd_token (nn_datum n)) /\
    nn_connectionId n = "connection-" +:+ pretty (next_connection_sequence (hs_state (nn_hostStateDatum n))).
Proof.
  unfold new_connection. intros H. inv_prog H. apply mret_ok in H as [-> ->].
  repeat match goal with u : () |- _ => destruct u end.
  match goal with E : load_host_utxo _ = _ |- _ => apply load_host_utxo_ok in E as [Hh ->] end.
  match goal with E : connection_value _ = _ |- _ => apply connection_value_ok in E as (enc & He & ->) end.
  do 4 eexists. cbn [nn_hostStateUtxo nn_hostStateDatum nn_clientUtxo nn_connectionId nn_connectionTokenUnit nn_datum nn_root cnd_state cnd_token policyId token_name].
  split_and!; try done; eassumption.
Qed.


Lemma open_try_ok op s tx id p s' : buildUnsignedConnectionOpenTryTx op s = (Ok (tx, id, p), s') ->
  exists h d s1 value r, connection_created s (nt_clientId op) (try_connection op) (try_redeemer op) tx h d s1 value r s' /\
    id = "connection-" +:+ pretty (next_connection_sequence (hs_state h)) /\ p = MkPending (newRoot r) (commitTree r).
Proof.
  unfold buildUnsignedConnectionOpenTryTx. intros H. inv_prog H. apply mret_ok in H as [[= -> -> ->] ->].
  match goal with E : new_connection _ _ _ = _ |- _ =>
    apply new_connection_ok in E as (s1 & value & enc & unit & Hh & Ha & He & -> & Hr & Hc & Hu & Hs & Ht & Hn & Hid) end.
  match goal with E : encode_connection _ = _ |- _ => apply encode_type_ok in E end.
  exists (nn_hostStateDatum a), (nn_datum a), s1, (hex_decode_prefix enc), (nn_root a). split; [|done].
  split; cbn; try done; [by eexists|by eexists|]. rewrite <- Hid. split; cbn; try done; [by exists s1; auto|by exists enc].
Qed.



Lemma updated_host_state_rule h root : validate_update_only_root h (updated_host_state h root) = true.
Proof.
  unfold validate_update_only_root, counters_step, validate_version_increment, same_authority, updated_host_state.
  cbn [hs_state version next_client_sequence next_connection_sequence next_channel_sequence bound_port shutdown nft_policy deployer].
  by rewrite !Z.add_0_r, !Z.eqb_refl, !bool_decide_true.
Qed.


(** ** Open init *)


Lemma remove_all_digits_gen p fuel l : forallb is_digit p = false -> forallb is_digit l = true -> (length l < fuel)%nat -> remove_all fuel p l = l.
Proof.
  intros Hp. revert fuel. induction l as [|b l IH]; intros [|fuel] Hd Hf; cbn [length] in Hf; try lia; cbn [remove_all].
  - destruct (strip_prefix p []) as [r|] eqn:E; [|done]. apply strip_prefix_app in E. by destruct p.
  - destruct (strip_prefix p (b :: l)) as [r|] eqn:E.
    + apply strip_prefix_app in E. rewrite E, forallb_app, Hp in Hd. done.
    + cbn [forallb] in Hd. apply andb_prop in Hd as [_ Hd]. f_equal. apply IH; [done|lia].
Qed.

Lemma without_prefix_digits prefix n : 0 <= n -> without_prefix prefix (prefix +:+ "-" +:+ pretty n) = pretty n.
Proof.
  intros Hn. pose proof (pretty_Z_digits n Hn) as Hd. unfold is_digits in Hd.
  assert (forallb is_digit (utf8 (pretty n)) = true) as Hd' by (by destruct (utf8 (pretty n))). clear Hd.
  assert (utf8 (prefix +:+ "-" +:+ pretty n) = utf8 (prefix +:+ "-") ++ utf8 (pretty n)) as E by (rewrite !utf8_app; by rewrite app_assoc).
  unfold without_prefix. rewrite E. cbn [remove_all]. rewrite (proj2 (strip_prefix_app _ _ _) eq_refl).
  rewrite remove_all_digits_gen; [apply text_utf8| |done|].
  - rewrite utf8_app, forallb_app. cbn. apply andb_false_r.
  - unfold str_length. rewrite E, length_app, utf8_app, length_app. cbn. lia.
Qed.





(** ** Open ack *)

Lemma versions_equal_refl l : versions_equal l l = true.
Proof.
  assert (forall fs, features_equal fs fs = true) as Hf by (induction fs as [|f fs IH]; [done|cbn; by rewrite bool_decide_true]).
  induction l as [|v l IH]; [done|]. cbn. unfold version_equal. by rewrite bool_decide_true, Hf, IH.
Qed.

Lemma acked_transition d id :
  is_connection_open_ack_valid d (acked_datum d id) =
  bool_decide (conn_state (cnd_state d) = ConnInit) && connection_identifier_validator (raw id).
Proof.
  unfold is_connection_open_ack_valid, acked_datum, acked_connection.
  cbn [cnd_state cnd_token conn_state conn_client_id conn_versions conn_counterparty conn_delay_period cp_connection_id cp_client_id cp_key_prefix].
  rewrite versions_equal_refl. repeat match goal with |- context [bool_decide (?x = ?x)] => rewrite (bool_decide_true (x = x)) by done end.
  by rewrite !andb_true_r.
Qed.

Lemma connection_path_hex h i : ascii_hex h i ->
  convertString2Hex (connectionPath (convertHex2String h)) = hex_encode (connection_path (raw h)).
Proof.
  intros Hi. rewrite (ascii_hex_text _ _ Hi), (ascii_hex_raw _ _ Hi), <- hex_encode_utf8. unfold connectionPath, connection_path.
  by rewrite utf8_app.
Qed.

(** The proof redeemer of an open ack is the one the validator recomputes from the
    output datum. *)
Lemma connection_proof_agrees d op i client u uc c e1 e2 :
  let d' := acked_datum d (na_counterpartyConnectionID op) in
  let connectionId := CONNECTION_ID_PREFIX +:+ "-" +:+ na_connectionSequence op in
  end_sound (cnd_state d) -> ascii_id connectionId -> ascii_hex (na_counterpartyConnectionID op) i ->
  consensus_at client (na_proofHeight op) e1 e2 = Ok c ->
  conn_open_ack_proof_ok (Some (connection_proof (MkClientContext u d' uc client) c op d)) (cld_state client) (utf8 connectionId) (cnd_state d').
Proof.
  intros d' connectionId Hs Hid Hi Hc. pose proof Hs as [_ _ _ Hd Hp]. destruct c as [[cons t] ph]. apply consensus_at_first in Hc as (H1 & H2 & H3).
  unfold connection_proof, conn_open_ack_proof_ok. eexists. split.
  - f_equal. f_equal. rewrite connection_end_bytes by done. reflexivity.
  - unfold expected_connection_params, verify_params. cbn [kx_connectionDatum kx_clientDatum vp_proof vp_height].
    unfold d', acked_datum, acked_connection, remote_connection_path.
    cbn [cnd_state conn_delay_period conn_counterparty cp_key_prefix cp_connection_id].
    rewrite block_delay_agrees by (unfold uint64_ok in Hd; lia). cbn [mbind option_bind]. unfold apply_prefix. rewrite decide_False by done.
    cbn [mbind option_bind]. rewrite H1, H2, H3. cbn [mbind option_bind]. by rewrite (connection_path_hex _ _ Hi).
Qed.

Record connection_acked (s : gstate) (op : ConnectionOpenAckOperator) (d : ConnectionDatum) (client : ClientDatum) (u : UTxO) (tx : ConnectionTx)
    (h : HostStateDatum) (s1 : gstate) (value : bytes) (r : StateRootResult (list string)) (redeemer : VerifyProofRedeemer) (s' : gstate) : Prop := {
  ak_client : exists sequence unit, parseClientSequence (convertHex2String (conn_client_id (cnd_state d))) = Ok sequence /\
    getClientTokenUnit sequence = Ok unit /\ findUtxoByUnit unit = Ok (nx_clientUtxo tx) /\ decode_datum decode_client (nx_clientUtxo tx) = Ok client;
  ak_datum : encodeConnectionDatum (acked_datum d (na_counterpartyConnectionID op)) = Ok (nx_encodedConnectionDatum tx);
  ak_part : exists enc vp, encode_spendConnectionRedeemer SpendConnOpenAck = Ok enc /\ encodeVerifyProofRedeemer redeemer = Ok vp /\
    nx_part tx = SpendConnection u enc (Some (verifyProofPolicyId, vp));
  ak_proof : exists c, consensus_at client (na_proofHeight op)
      (missing_connection_state (consensusStates (cld_state client)).*1 (na_proofHeight op)) (missing_connection_meta (na_proofHeight op)) = Ok c /\
    redeemer = connection_proof (MkClientContext u (acked_datum d (na_counterpartyConnectionID op)) (nx_clientUtxo tx) client) c op d;
  ak_redeemer : encode_host_state_redeemer (UpdateConnection (witness r)) = Ok (nx_encodedHostStateRedeemer tx);
  ak_host_datum : encode_host_state (updated_host_state h (newRoot r)) = Ok (nx_encodedUpdatedHostStateDatum tx);
  ak_root : connection_root_update s (CONNECTION_ID_PREFIX +:+ "-" +:+ na_connectionSequence op)
    (cnd_state (acked_datum d (na_counterpartyConnectionID op))) tx h s1 value r s';
}.

Lemma open_ack_ok op unit u d s b s' : load_connection_datum (na_connectionSequence op) = Ok (unit, u, d) ->
  buildUnsignedConnectionOpenAckTx op s = (Ok b, s') ->
  exists client h s1 value r redeemer, connection_acked s op d client u (ab_tx b) h s1 value r redeemer s' /\
    nx_connectionTokenUnit (ab_tx b) = unit /\ ab_pending b = MkPending (newRoot r) (commitTree r).
Proof.
  intros Hl. unfold buildUnsignedConnectionOpenAckTx. rewrite Hl. intros H. inv_prog H.
  match goal with E : Ok _ = Ok _ |- _ => injection E as -> -> -> end.
  destruct (negb _); [discriminate|]. inv_prog H. apply mret_ok in H as [-> ->].
  repeat match goal with u : () |- _ => destruct u end.
  match goal with E : load_host_utxo _ = _ |- _ => apply load_host_utxo_ok in E as [Hh ->] end.
  match goal with E : encode_connection _ = _ |- _ => apply encode_type_ok in E end.
  match goal with E : connection_value (cnd_state (acked_datum _ _)) = _ |- _ => apply connection_value_ok in E as (enc & He & ->) end.
  cbn [ab_tx ab_pending]. do 6 eexists. split; [|by split]. split; cbn [nx_clientUtxo nx_encodedConnectionDatum nx_part nx_encodedHostStateRedeemer nx_encodedUpdatedHostStateDatum].
  - do 2 eexists. split_and!; eassumption.
  - eassumption.
  - do 2 eexists. split_and!; [eassumption|eassumption|reflexivity].
  - eexists. split; [eassumption|reflexivity].
  - eassumption.
  - eassumption.
  - split; cbn [nx_hostStateUtxo]; [exact Hh| |by exists enc|eassumption]. eexists. split; [eassumption|right; eexists; eassumption].
Qed.

(** The ledger's [cbor.serialise] of a connection end and the Gateway's
    [encodeConnectionEndValue] agree, as both sides document. *)
Definition serialises_ends (serialise : ConnectionEnd -> bytes) : Prop :=
  forall c enc, encodeConnectionEndValue c = Ok enc -> serialise c = hex_decode_prefix enc.

(** C9 (refinement): connection open ack, from message to transaction.  The builder
    changes nothing of the connection's datum but its state and the counterparty's
    connection identifier, and mints the proof redeemer the validator recomputes, down
    to the protobuf bytes of the counterparty's connection end.  The connection script's
    checks of the datums, the proof and the client pass exactly when the connection is
    in state Init and the identifier is well formed (the builder checks neither) and the
    client it references is active at the end of the validity interval.  The new
    HostState passes the datum rule; and where the Gateway's aligned tree holds the end
    that is spent, the HostState validator's root check, from the serialised end of the
    spent datum to that of the new one, passes, and the pending tree holds the new end. *)
Theorem connection_open_ack_accepted `{LOK : !LucidOk} `{STD : !Sha256Std} serialise data n address op unit u d s b s' :
  let connectionId := CONNECTION_ID_PREFIX +:+ "-" +:+ pretty n in
  let remote := convertString2Hex (ck_counterparty_connection_id data) in
  let d' := acked_datum d remote in
  serialises_ends serialise ->
  0 <= n -> ck_connection_id data = connectionId -> validateAndFormatConnectionOpenAckParams data = Ok (address, op) ->
  load_connection_datum (pretty n) = Ok (unit, u, d) -> end_sound (cnd_state d) -> ascii_id connectionId ->
  ascii_id (ck_counterparty_connection_id data) ->
  buildUnsignedConnectionOpenAckTx op s = (Ok b, s') ->
  exists client h s1 value r redeemer,
    connection_acked s op d client u (ab_tx b) h s1 value r redeemer s' /\
    address = ck_signer data /\ ab_pending b = MkPending (newRoot r) (commitTree r) /\
    encodeConnectionDatum d' = Ok (nx_encodedConnectionDatum (ab_tx b)) /\
    (forall vt, spend_connection_open_ack d d' (cld_state client) (utf8 connectionId) vt (Some redeemer) <->
       conn_state (cnd_state d) = ConnInit /\ connection_identifier_validator (utf8 (ck_counterparty_connection_id data)) = true /\
       client_active_at (cld_state client) vt = true) /\
    validate_update_only_root h (updated_host_state h (newRoot r)) = true /\
    (state_ok s1 -> value_ok value ->
     tree_value (base_tree s1 (ibc_state_root (hs_state h))) (connectionPath connectionId) = serialise (cnd_state d) ->
     update_connection_root serialise h (updated_host_state h (newRoot r)) (utf8 connectionId) d d' (witness r) = true /\
     tree_value (commitTree r) (connectionPath connectionId) = serialise (cnd_state d')).
Proof.
  intros connectionId remote d' Hser Hn Hid Hf Hl Hs Hasc Hrem Hb. unfold validateAndFormatConnectionOpenAckParams in Hf.
  repeat (apply bind_ok in Hf as (? & ? & Hf)). case_decide; [done|]. apply bind_ok in Hf as (any & _ & Hf).
  injection Hf as <- <-. rewrite Hid in *. unfold connectionId in *. rewrite (without_prefix_digits CONNECTION_ID_PREFIX n Hn) in *.
  match type of Hb with buildUnsignedConnectionOpenAckTx ?op _ = _ => destruct (open_ack_ok op _ _ _ _ _ _ Hl Hb) as (client & h & s1 & value & r & redeemer & Ha & Hu & Hp) end. exists client, h, s1, value, r, redeemer.
  destruct (ak_proof _ _ _ _ _ _ _ _ _ _ _ _ Ha) as (c & Hc & Hred). split_and!; try done.
  - apply (ak_datum _ _ _ _ _ _ _ _ _ _ _ _ Ha).
  - intros vt. unfold spend_connection_open_ack, d', remote. rewrite acked_transition, raw_convert, andb_true_iff, bool_decide_eq_true.
    enough (conn_open_ack_proof_ok (Some redeemer) (cld_state client) (utf8 (CONNECTION_ID_PREFIX +:+ "-" +:+ pretty n))
      (cnd_state (acked_datum d (convertString2Hex (ck_counterparty_connection_id data))))) by tauto.
    rewrite Hred. eapply connection_proof_agrees; [done|done|exact Hrem|exact Hc].
  - apply updated_host_state_rule.
  - intros Hok Hv Hold. pose proof (ak_root _ _ _ _ _ _ _ _ _ _ _ _ Ha) as Hroot.
    destruct (connection_replayed _ _ _ _ _ _ _ _ _ Hroot Hok Hv) as (Hr1 & Hr2 & _).
    destruct Hroot as [_ _ (enc & He & Hval) _]. rewrite Hval, <- (Hser _ _ He) in Hr1, Hr2.
    split; [|exact Hr2]. unfold update_connection_root. apply bool_decide_eq_true. rewrite <- Hold. exact Hr1.
Qed.

(** ** Open try and open confirm *)

(** The connection-open-try builder creates an end in state TryOpen and puts
    the proofs in the mint redeemer, but the transaction mints no proof redeemer, so the
    mint validator's proof check fails on every one of them. *)
Lemma connection_open_try_carries_no_proof op s tx connectionId p s' client proof_init proof_client proof_height :
  buildUnsignedConnectionOpenTryTx op s = (Ok (tx, connectionId, p), s') ->
  exists h d s1 value r, connection_created s (nt_clientId op) (try_connection op) (try_redeemer op) tx h d s1 value r s' /\
    conn_state (cnd_state d) = ConnTryOpen /\
    (forall u enc vp, nx_part tx <> SpendConnection u enc (Some vp)) /\
    ~ conn_open_try_proof_ok None client (cnd_state d) (nt_counterpartyClientState op) proof_init proof_client proof_height.
Proof.
  intros (h & d & s1 & value & r & Hc & _ & _)%open_try_ok. exists h, d, s1, value, r. split; [exact Hc|].
  destruct (nc_datum _ _ _ _ _ _ _ _ _ _ _ Hc) as [-> _]. destruct (nc_mint _ _ _ _ _ _ _ _ _ _ _ Hc) as (enc & _ & Hp).
  split_and!; [done|by rewrite Hp|]. by intros (v & w & ? & _).
Qed.

(** The connection-open-confirm builder asks for the wrong state.  It
    refuses a connection in state TryOpen, the only state the spend validator lets an
    open confirm start from; and every transaction it does build, from state Init, is
    refused: the datum transition is invalid whatever datum is put in the output, and no
    proof redeemer is minted. *)
Lemma connection_open_confirm_never_accepted op unit u d s :
  load_connection_datum (nc_connectionSequence op) = Ok (unit, u, d) ->
  (conn_state (cnd_state d) = ConnTryOpen -> forall b s', buildUnsignedConnectionOpenConfirmTx op s <> (Ok b, s')) /\
  (forall b s', buildUnsignedConnectionOpenConfirmTx op s = (Ok b, s') ->
     conn_state (cnd_state d) = ConnInit /\
     encodeConnectionDatum (confirmed_datum d) = Ok (nx_encodedConnectionDatum (cb_tx b)) /\
     (exists enc, nx_part (cb_tx b) = SpendConnection u enc None) /\
     (forall d', is_connection_open_confirm_valid d d' = false) /\
     (forall client id c proof height, ~ conn_open_confirm_proof_ok None client id c proof height)).
Proof.
  intros Hl. assert (forall b s', buildUnsignedConnectionOpenConfirmTx op s = (Ok b, s') ->
    conn_state (cnd_state d) = ConnInit /\ encodeConnectionDatum (confirmed_datum d) = Ok (nx_encodedConnectionDatum (cb_tx b)) /\
    exists enc, nx_part (cb_tx b) = SpendConnection u enc None) as Hb.
  { intros b s'. unfold buildUnsignedConnectionOpenConfirmTx. rewrite Hl. intros H. inv_prog H.
    match goal with E : Ok _ = Ok _ |- _ => injection E as <- <- <- end.
    case_decide as Hst; [discriminate|]. inv_prog H. apply mret_ok in H as [-> ->].
    match goal with E : encode_connection _ = _ |- _ => apply encode_type_ok in E end.
    split_and!; [exact Hst|done|by eexists]. }
  split.
  - intros Hst b s' H. destruct (Hb b s' H) as [Hi _]. congruence.
  - intros b s' H. destruct (Hb b s' H) as (Hi & He & Hp). split_and!; try done.
    + intros d'. unfold is_connection_open_confirm_valid. rewrite Hi. done.
    + by intros client id c proof height (v & ? & _).
Qed.

End connection.
