(* ===== verification/ChannelOpsTheorems.v ===== *)
(** * The channel handshake: what the builders guarantee

    A successful handshake builder hands over a transaction with the datum transition
    and the HostState root the channel validators expect and, where the counterparty is
    to be proved, exactly the proof redeemer they recompute.  The open-try builder is the
    exception. *)

From Stdlib Require Import ZArith Lia.
From S2P Require Import Prelude JsMap JsString JsJson Hex MerkleTree MerkleSpec MerkleRefine OnChainCommitment MerkleTheorems Datum StateRoot PacketHelpers StateRootFacts StateRootTheorems TreeRebuild TreeServices EscrowShard Voucher Redeemers JsNumber Varint Binary ProtoCodec ProtoMessages OnChainProto PacketDenom PacketOps PacketOpsTheorems MessageValidate ChannelOps OnChainDatum OnChainChannel OnChainHostState OnChainClient ChannelOpsFacts.

#[local] Open Scope Z_scope.

(** The builders that continue an existing channel with a proof. *)
Inductive HandshakeOp :=
| OpenAck (op : ChannelOpenAckOperator)
| OpenConfirm (op : ChannelOpenConfirmOperator)
| CloseConfirm (op : ChannelCloseConfirmOperator).

Definition handshake_sequence (o : HandshakeOp) : string :=
  match o with OpenAck op => coa_channelSequence op | OpenConfirm op => coc_channelSequence op | CloseConfirm op => ccc_channelSequence op end.

(** The texts of the message are ASCII and short enough for the encoders compared. *)
Definition message_sound (o : HandshakeOp) : Prop :=
  match o with
  | OpenAck op => ascii_id (coa_counterpartyChannelId op) /\ ascii_id (coa_counterpartyVersion op)
  | _ => True
  end.

(** What the scripts check of the message itself: the counterparty's channel identifier. *)
Definition message_checked (o : HandshakeOp) : bool :=
  match o with OpenAck op => channel_identifier_validator (utf8 (coa_counterpartyChannelId op)) | _ => true end.

(** The validator's check of the datum. *)
Definition transition_ok (o : HandshakeOp) (d d' : ChannelDatum) : bool :=
  match o with
  | OpenAck _ => validate_chan_open_ack d d'
  | OpenConfirm _ => validate_chan_open_confirm d d'
  | CloseConfirm _ => validate_chan_close d d'
  end.

(** The validator's check of the proof redeemer [r]. *)
Definition proof_ok (o : HandshakeOp) (r : VerifyProofRedeemer) connection client channel_id (d' : ChannelDatum) : Prop :=
  match o with
  | OpenAck op => ack_proof_ok (Some r) connection client channel_id d' (convertString2Hex (coa_counterpartyVersion op))
                    (coa_proofTry op) (coa_proofHeight op)
  | OpenConfirm op => confirm_proof_ok (Some r) connection client channel_id d' (coc_proofAck op) (coc_proofHeight op)
  | CloseConfirm op => close_proof_ok (Some r) connection client channel_id d' (ccc_proofInit op) (ccc_proofHeight op)
  end.

Section handshake.
Context `{SHA : Sha256} `{L : Lucid} `{CV : ChainView} `{BL : Blake2b} `{S3 : Sha3}.
Context `{EV : EscrowEnv} `{DP : Deployment} `{PE : PacketEnv} `{CD : ChannelDeployment}.

Definition run_handshake (o : HandshakeOp) : M gstate (ChannelTx * PendingTreeUpdate) :=
  match o with
  | OpenAck op => '(tx, _, p) ← buildUnsignedChannelOpenAckTx op; mret (tx, p)
  | OpenConfirm op => buildUnsignedChannelOpenConfirmTx op
  | CloseConfirm op => buildUnsignedChannelCloseConfirmTx op
  end.

Definition continuation (o : HandshakeOp) (d : ChannelDatum) : Continuation :=
  match o with
  | OpenAck op => ack_continuation op d
  | OpenConfirm op => confirm_continuation op d
  | CloseConfirm op => close_continuation op d
  end.

(** The guard each builder puts on the state of the channel end. *)
Definition state_guard (o : HandshakeOp) (d : ChannelDatum) : Prop :=
  match o with
  | OpenAck _ => ch_state (channel_end d) = Init
  | OpenConfirm _ => ch_state (channel_end d) = TryOpen
  | CloseConfirm _ => ch_state (channel_end d) <> Close
  end.

Lemma load_channel_text_pretty n : load_channel_text (pretty n) = load_channel n.
Proof. unfold load_channel_text. by rewrite Varint.BigInt_pretty_Z. Qed.

Lemma run_handshake_ok o n cx s tx p s' :
  handshake_sequence o = pretty n -> load_channel n = Ok cx -> run_handshake o s = (Ok (tx, p), s') ->
  state_guard o (cx_channelDatum cx) /\
  continue_channel cx (pretty n) (continuation o (cx_channelDatum cx)) s = (Ok (tx, p), s').
Proof.
  intros Hn Hcx H. destruct o as [op|op|op]; cbn in Hn; cbn [run_handshake state_guard continuation] in *.
  - inv_prog H. unfold buildUnsignedChannelOpenAckTx in E. inv_prog E. rewrite Hn, load_channel_text_pretty, Hcx in E0.
    apply Ok_inj in E0 as <-. destruct (decide _) as [|Hs] in E; [discriminate|]. apply dec_stable in Hs. inv_prog E.
    apply mret_ok in E as [[= -> -> ->] ->]. apply mret_ok in H as [[= -> ->] ->]. by rewrite <- Hn.
  - unfold buildUnsignedChannelOpenConfirmTx in H. inv_prog H. rewrite Hn, load_channel_text_pretty, Hcx in E.
    apply Ok_inj in E as <-. destruct (decide _) as [|Hs] in H; [discriminate|]. apply dec_stable in Hs. by rewrite <- Hn.
  - unfold buildUnsignedChannelCloseConfirmTx in H. inv_prog H. rewrite Hn, load_channel_text_pretty, Hcx in E.
    apply Ok_inj in E as <-. destruct (decide _) as [|Hs] in H; [discriminate|]. by rewrite <- Hn.
Qed.

Lemma continuation_accepted o d : state_guard o d -> transition_ok o d (cn_updated (continuation o d)) = message_checked o.
Proof.
  destruct o as [op|op|op]; cbn [state_guard message_checked transition_ok continuation]; unfold channel_end.
  - intros Hs. unfold validate_chan_open_ack.
    cbn [cn_updated ack_continuation set_channel acked_channel cd_state channel obj_val ch_counterparty cc_channel_id].
    rewrite Hs, raw_convert, (bool_decide_true (Init = Init)) by done. cbn [andb]. etransitivity; [|apply andb_true_r]. f_equal. by apply bool_decide_true.
  - intros Hs. unfold validate_chan_open_confirm. cbn. rewrite Hs. by apply bool_decide_true.
  - intros Hs. unfold validate_chan_close. rewrite (bool_decide_false _ Hs). cbn. by apply bool_decide_true.
Qed.

Lemma continuation_frame o d : cd_port (cn_updated (continuation o d)) = cd_port d /\
  ch_ordering (channel_end (cn_updated (continuation o d))) = ch_ordering (channel_end d).
Proof. by destruct o. Qed.

Lemma continuation_sound o d : channel_sound d -> message_sound o -> channel_sound (cn_updated (continuation o d)).
Proof.
  intros [H1 H2 H3 H4] Hm. destruct o as [op|op|op]; split; try done. destruct Hm as (Hid & _). by eexists.
Qed.

(** A redeemer built from the continuation passes the validator's proof check. *)
Lemma continuation_proof_ok o d kx c channelId :
  let n := continuation o d in
  channel_sound d -> connection_sound (cnd_state (kx_connectionDatum kx)) -> message_sound o -> ascii_id channelId ->
  consensus_at (kx_clientDatum kx) (cn_proofHeight n) (missing_state (cn_proofHeight n)) missing_meta = Ok c ->
  proof_ok o (channel_proof kx c (cn_proofHeight n) (cn_proof n) (cn_updated n)
      (counterparty_end (cn_state n) d channelId (kx_connectionDatum kx) (cn_version n)))
    (cnd_state (kx_connectionDatum kx)) (cld_state (kx_clientDatum kx)) (utf8 channelId) (cn_updated n).
Proof.
  intros n Hd Hk Hm Hi Hc. destruct (continuation_frame o d) as [Hp Ho].
  pose proof (continuation_sound o d Hd Hm) as Hs.
  assert (forall st v, cn_state n = state_to_int32 st -> ascii_id v -> cn_version n = v ->
    expected_proof (cnd_state (kx_connectionDatum kx)) (cld_state (kx_clientDatum kx)) (cn_updated n)
      (expected_channel st (cnd_state (kx_connectionDatum kx)) (cn_updated n) (utf8 channelId) (utf8 v)) (cn_proof n) (cn_proofHeight n) =
    Some (channel_proof kx c (cn_proofHeight n) (cn_proof n) (cn_updated n)
      (counterparty_end (cn_state n) d channelId (kx_connectionDatum kx) (cn_version n)))) as Hx.
  { intros st v Est Hv Ev. rewrite Est, Ev. by apply proof_agrees. }
  destruct (chs_version _ Hd) as [v Hv].
  assert (ascii_id v) as Hav by (destruct Hv as (_ & ? & ?); done).
  destruct o as [op|op|op]; subst n; cbn [proof_ok continuation] in *; eexists; (split; [reflexivity|]).
  - rewrite raw_convert. apply (Hx TryOpen); [done| |done]. apply Hm.
  - unfold own_version. cbn [cn_updated confirm_continuation set_channel with_state cd_state channel obj_val ch_version].
    change (ch_version (obj_val (channel (cd_state d)))) with (ch_version (channel_end d)). rewrite (ascii_hex_raw _ _ Hv).
    apply (Hx Open); [done..|]. by apply ascii_hex_text.
  - unfold own_version. cbn [cn_updated close_continuation set_channel with_state cd_state channel obj_val ch_version].
    change (ch_version (obj_val (channel (cd_state d)))) with (ch_version (channel_end d)). rewrite (ascii_hex_raw _ _ Hv).
    apply (Hx Close); [done..|]. by apply ascii_hex_text.
Qed.

(** A successful open-ack, open-confirm or close-confirm builder
    yields a transaction with what the message's script expects: the output datum is the
    transition it expects of the datum spent; the spend redeemer and the callback to the
    port's module are encoded for this message and channel; and the proof redeemer
    minted is the very one the validator recomputes from the connection, the client's
    consensus state at the proof height and the output datum, down to the protobuf bytes
    of the counterparty's channel end. *)
Lemma handshake_tx_accepted o n cx kx s tx p s' :
  let d := cx_channelDatum cx in
  let channelId := "channel-" +:+ pretty n in
  handshake_sequence o = pretty n -> load_channel n = Ok cx -> load_client d = Ok kx ->
  channel_sound d -> connection_sound (cnd_state (kx_connectionDatum kx)) -> message_sound o -> ascii_id channelId ->
  run_handshake o s = (Ok (tx, p), s') ->
  exists d' enc r vp,
    transition_ok o d d' = message_checked o /\ ct_encodedChannelDatum tx = encodeChannelDatum d' /\
    encode_spendChannelRedeemer (cn_redeemer (continuation o d)) = Ok enc /\
    proof_ok o r (cnd_state (kx_connectionDatum kx)) (cld_state (kx_clientDatum kx)) (utf8 channelId) d' /\
    encodeVerifyProofRedeemer r = Ok vp /\
    ct_part tx = SpendChannel (cx_channelUtxo cx) enc (cn_policy (continuation o d)) (cx_channelToken cx) (Some (verifyProofPolicyId, vp)) /\
    module_callback (convertHex2String (cd_port d)) (cn_callback (continuation o d) (convertString2Hex channelId)) =
      Ok (ct_moduleKey tx, ct_moduleUtxo tx, ct_encodedSpendModuleRedeemer tx).
Proof.
  intros d channelId Hn Hcx Hkx Hd Hk Hm Hi H. subst d channelId. apply (run_handshake_ok _ _ _ _ _ _ _ Hn Hcx) in H as [Hg H].
  apply continue_channel_ok in H as (kx' & Hkx' & [T1 (enc & c & vp & P1 & P2 & P3 & P4) T3 _] & _).
  rewrite Hkx in Hkx'. apply Ok_inj in Hkx' as <-.
  eexists (cn_updated (continuation o (cx_channelDatum cx))), enc, _, vp. split_and!; [by apply continuation_accepted|done|done| |exact P3|done|exact T3].
  by apply continuation_proof_ok.
Qed.

(** ** The HostState root *)

(** Every builder that replaces the end of an existing channel. *)
Inductive channel_end_tx (s : gstate) (tx : ChannelTx) (p : PendingTreeUpdate) (s' : gstate) : Z -> ChannelState -> Prop :=
| end_handshake o n :
    handshake_sequence o = pretty n -> run_handshake o s = (Ok (tx, p), s') ->
    channel_end_tx s tx p s' n (match o with CloseConfirm _ => Close | _ => Open end)
| end_close_init op n :
    cci_channel_id op = pretty n -> buildUnsignedChannelCloseInitTx op s = (Ok (tx, p), s') -> channel_end_tx s tx p s' n Close.

(** The datum differs from [d] only in its channel end, now in state [st]. *)
Definition channel_end_moved (d d' : ChannelDatum) (st : ChannelState) : Prop :=
  exists c, d' = set_channel d c /\ ch_state c = st /\ ch_state (channel_end d) <> Close /\
    ch_ordering c = ch_ordering (channel_end d) /\ ch_connection_hops c = ch_connection_hops (channel_end d) /\
    ch_version c = ch_version (channel_end d) /\ cc_port_id (ch_counterparty c) = cc_port_id (ch_counterparty (channel_end d)).

Lemma close_init_ok op n s tx p s' cx :
  cci_channel_id op = pretty n -> load_channel n = Ok cx -> buildUnsignedChannelCloseInitTx op s = (Ok (tx, p), s') ->
  let d' := set_channel (cx_channelDatum cx) (with_state (channel_end (cx_channelDatum cx)) Close) in
  ch_state (channel_end (cx_channelDatum cx)) <> Close /\ ct_encodedChannelDatum tx = encodeChannelDatum d' /\
  (exists enc, encode_spendChannelRedeemer ChanCloseInit = Ok enc /\
     ct_part tx = SpendChannel (cx_channelUtxo cx) enc channelCloseInitPolicyId (cx_channelToken cx) None) /\
  channel_root_update s (convertHex2String (cd_port (cx_channelDatum cx))) ("channel-" +:+ pretty n) d' tx p s'.
Proof.
  intros Hn Hcx H. unfold buildUnsignedChannelCloseInitTx in H. inv_prog H.
  match goal with E : load_channel_text _ = _ |- _ => rewrite Hn, load_channel_text_pretty, Hcx in E; apply Ok_inj in E as <- end.
  destruct (decide _) as [|Hs] in H; [discriminate|]. inv_prog H. apply mret_ok in H as [[= -> ->] ->].
  repeat match goal with u : () |- _ => destruct u end.
  match goal with E : load_host_state _ = _ |- _ => apply load_host_state_ok in E as [Hh ->] end.
  match goal with E : service_computeRootWithUpdateChannelUpdate _ _ _ _ _ = _ |- _ => apply update_channel_ok in E as (value & Hv & Hr) end.
  match goal with E : encode_channel _ = _ |- _ => apply encode_channel_ok in E as -> end.
  rewrite Hn in Hr. split_and!; [done|done|by eexists|].
  do 4 eexists. split_and!; [exact Hh|eassumption|exact Hv|exact Hr|eassumption|eassumption|done].
Qed.

Lemma channel_end_tx_ok s tx p s' n st cx : channel_end_tx s tx p s' n st -> load_channel n = Ok cx ->
  exists d', channel_end_moved (cx_channelDatum cx) d' st /\ ct_encodedChannelDatum tx = encodeChannelDatum d' /\
    channel_root_update s (convertHex2String (cd_port (cx_channelDatum cx))) ("channel-" +:+ pretty n) d' tx p s'.
Proof.
  intros [o k Hn H|op k Hn H] Hcx.
  - apply (run_handshake_ok _ _ _ _ _ _ _ Hn Hcx) in H as [Hg H]. apply continue_channel_ok in H as (kx & _ & [T1 _ _ _] & Hr).
    eexists. split; [|split; [exact T1|exact Hr]].
    destruct o; cbn [state_guard continuation] in *; eexists; (split; [reflexivity|]); cbn; rewrite ?Hg; repeat split; done.
  - apply (close_init_ok _ _ _ _ _ _ _ Hn Hcx) in H as (Hg & H1 & _ & H2). eexists. split; [|by split].
    eexists. split; [reflexivity|]. done.
Qed.

(** Setting the channel end of a committed channel commits the new datum. *)
Lemma set_channel_committed t pt c d ch value : tree_wf t -> encodeChannelEndValue ch = Ok value ->
  channel_committed t pt c (cd_state d) ->
  channel_committed (set_all [(channelEndPath pt c, hex_decode_prefix value)] t) pt c (cd_state (set_channel d ch)).
Proof.
  intros Hwf Hv [C1 C2 C3 C4 C5 C6 C7].
  assert (forall k, tree_value (set_all [(channelEndPath pt c, hex_decode_prefix value)] t) k =
            if decide (channelEndPath pt c = k) then hex_decode_prefix value else tree_value t k) as Hg.
  { intros k. cbn [set_all fold_left foldl fst snd]. by rewrite tree_value_set. }
  split; cbn [set_channel cd_state channel obj_val next_sequence_send next_sequence_recv next_sequence_ack
              packet_commitment packet_receipt packet_acknowledgement].
  1: rewrite Hg, decide_True by done; by exists value.
  1-3: rewrite Hg, decide_False by done; done.
  - intros k. rewrite Hg, decide_False by done. apply C5.
  - intros k. rewrite Hg, decide_False by done. apply C6.
  - intros k. rewrite Hg, decide_False by done. apply C7.
Qed.

(** An open-ack, open-confirm, close-init or close-confirm builder
    changes nothing of the channel's datum but its end, moves that end from a state that
    is not closed to the state of the message, and its UpdateChannel witness replays
    exactly that one key from the HostState root on chain to the new one; the pending
    tree holds the new datum whenever the aligned tree holds the old one. *)
Lemma channel_end_tx_replayed `{LOK : !LucidOk} `{STD : !Sha256Std} s tx p s' n st cx :
  channel_end_tx s tx p s' n st -> load_channel n = Ok cx ->
  let d := cx_channelDatum cx in
  let portId := convertHex2String (cd_port d) in
  let channelId := "channel-" +:+ pretty n in
  exists d' h s1 value r, channel_end_moved d d' st /\ ct_encodedChannelDatum tx = encodeChannelDatum d' /\
    host_state_is (ct_hostStateUtxo tx) h /\ ensureTreeAligned (ibc_state_root (hs_state h)) s = (Ok tt, s1) /\
    encode_host_state_redeemer (UpdateChannel (witness r)) = Ok (ct_encodedHostStateRedeemer tx) /\
    encode_host_state (updated_host_state h (newRoot r)) = Ok (ct_encodedUpdatedHostStateDatum tx) /\
    p = MkPending (newRoot r) (commitTree r) /\ encodeChannelEndValue (channel_end d') = Ok value /\
    let root := ibc_state_root (hs_state h) in
    (state_ok s1 -> value_ok (hex_decode_prefix value) ->
     root_transition s1 root [(channelEndPath portId channelId, hex_decode_prefix value)] [witness r] r s' /\
     (channel_committed (base_tree s1 root) portId channelId (cd_state d) ->
      channel_committed (commitTree r) portId channelId (cd_state d'))).
Proof.
  intros Htx Hcx d portId channelId. subst d portId channelId.
  destruct (channel_end_tx_ok _ _ _ _ _ _ _ Htx Hcx) as (d' & Hm & H1 & h & s1 & value & r & Hh & Ha & Hv & Hr & H2 & H3 & H4).
  exists d', h, s1, value, r. split_and!; [done..|]. intros root Hok Hval.
  assert (root_transition s1 root [(channelEndPath (convertHex2String (cd_port (cx_channelDatum cx))) ("channel-" +:+ pretty n),
    hex_decode_prefix value)] [witness r] r s') as Hrt.
  { eapply single_key_transition; [reflexivity|done|done| |done|exact Hr]. by eapply Data_to_nonempty. }
  split; [done|]. intros Hcom. destruct Hm as (c & -> & _). eapply channel_committed_leaves; [symmetry; apply Hrt|].
  apply set_channel_committed; [|exact Hv|done]. unfold root, base_tree. case_decide; [apply tree_wf_new|apply Hok].
Qed.

(** ** Creating a channel end *)

(** The HostState side of a transaction that creates the channel [d]. *)
Definition create_root_update (s : gstate) (portId channelId : string) (d : ChannelDatum) (h : HostStateDatum) (s1 : gstate)
    (vs : list bytes) (r : StateRootResult CreateChannelW) (s' : gstate) : Prop :=
  exists ve vsend vrecv vack, vs = [ve; vsend; vrecv; vack] /\
    is_encoding (encodeChannelEndValue (channel_end d)) ve /\
    is_encoding (encodeIntegerValue (next_sequence_send (cd_state d))) vsend /\
    is_encoding (encodeIntegerValue (next_sequence_recv (cd_state d))) vrecv /\
    is_encoding (encodeIntegerValue (next_sequence_ack (cd_state d))) vack /\
    computeRootWithCreateChannelUpdate (ibc_state_root (hs_state h)) portId channelId ve vsend vrecv vack s1 = (Ok r, s').

Record created (s : gstate) (portId : string) (c : Channel) (mintRedeemer : MintChannelRedeemer)
    (tx : ChannelTx) (h : HostStateDatum) (d : ChannelDatum) (s1 : gstate) (vs : list bytes) (r : StateRootResult CreateChannelW)
    (s' : gstate) : Prop := {
  cr_host : host_state_is (ct_hostStateUtxo tx) h;
  cr_aligned : ensureTreeAligned (ibc_state_root (hs_state h)) s = (Ok tt, s1);
  cr_token : getChannelTokenUnit (next_channel_sequence (hs_state h)) = Ok (policyId (cd_token d), token_name (cd_token d)) /\
    ct_channelTokenUnit tx = policyId (cd_token d) +:+ token_name (cd_token d);
  cr_datum : d = new_channel_datum c portId (cd_token d) /\ ct_encodedChannelDatum tx = encodeChannelDatum d;
  cr_mint : exists enc, encode_mintChannelRedeemer mintRedeemer = Ok enc /\ ct_part tx = MintChannel enc;
  cr_redeemer : encode_host_state_redeemer (CreateChannel (witness r)) = Ok (ct_encodedHostStateRedeemer tx);
  cr_host_datum : encode_host_state (host_with_channel h (newRoot r)) = Ok (ct_encodedUpdatedHostStateDatum tx);
  cr_root : create_root_update s portId ("channel-" +:+ pretty (next_channel_sequence (hs_state h))) d h s1 vs r s';
}.

Lemma create_update_ok root portId channelId d s r s' :
  service_computeRootWithCreateChannelUpdate root portId channelId d s = (Ok r, s') ->
  exists ve vsend vrecv vack,
    is_encoding (encodeChannelEndValue (channel_end d)) ve /\
    is_encoding (encodeIntegerValue (next_sequence_send (cd_state d))) vsend /\
    is_encoding (encodeIntegerValue (next_sequence_recv (cd_state d))) vrecv /\
    is_encoding (encodeIntegerValue (next_sequence_ack (cd_state d))) vack /\
    computeRootWithCreateChannelUpdate root portId channelId ve vsend vrecv vack s = (Ok r, s').
Proof.
  unfold service_computeRootWithCreateChannelUpdate, channel_value, sequence_value. intros H. inv_prog H.
  assert (forall (x : result string) b, (v ← x; Ok (hex_decode_prefix v)) = Ok b -> is_encoding x b) as Henc.
  { intros x b Hx. apply bind_ok in Hx as (v & -> & [= <-]). by exists v. }
  do 4 eexists. split_and!; [by apply Henc..|eassumption].
Qed.

Lemma create_channel_ok connectionId portId c m cb s tx channelId p s' :
  create_channel connectionId portId c m cb s = (Ok (tx, channelId, p), s') ->
  exists h d s1 vs r, created s portId c m tx h d s1 vs r s' /\
    channelId = "channel-" +:+ pretty (next_channel_sequence (hs_state h)) /\ p = MkPending (newRoot r) (commitTree r) /\
    (exists k, load_connection connectionId = Ok (ct_connectionUtxo tx, k, ct_clientUtxo tx)) /\
    module_callback portId (cb (convertString2Hex channelId)) = Ok (ct_moduleKey tx, ct_moduleUtxo tx, ct_encodedSpendModuleRedeemer tx).
Proof.
  unfold create_channel. intros H. inv_prog H. apply mret_ok in H as [[= -> -> ->] ->].
  repeat match goal with u : () |- _ => destruct u end.
  match goal with E : load_host_state _ = _ |- _ => apply load_host_state_ok in E as [Hh ->] end.
  match goal with E : service_computeRootWithCreateChannelUpdate _ _ _ _ _ = _ |- _ =>
    apply create_update_ok in E as (ve & v1 & v2 & v3 & Hr) end.
  match goal with E : encode_channel ?d = _ |- _ => apply encode_channel_ok in E as ->; exists h, d end.
  do 3 eexists. split; [|split_and!; [done..|by eexists|done]]. split; try done; [by eexists|]. do 4 eexists. split; [reflexivity|]. exact Hr.
Qed.

(** Nothing of the channel's packets is stored yet. *)
Definition no_packets (t : ICS23MerkleTree) (portId channelId : string) : Prop :=
  forall n, tree_value t (commitmentPath portId channelId n) = [] /\ tree_value t (receiptPath portId channelId n) = [] /\
    tree_value t (ackPath portId channelId n) = [].

(** The four keys a creation sets. *)
Definition creation_updates (portId channelId : string) (vs : list bytes) : list (string * bytes) :=
  zip [channelEndPath portId channelId; nextSequenceSendPath portId channelId; nextSequenceRecvPath portId channelId;
       nextSequenceAckPath portId channelId] vs.
Definition creation_siblings (w : CreateChannelW) : list (list string) :=
  [cw_channelSiblings w; cw_nextSequenceSendSiblings w; cw_nextSequenceRecvSiblings w; cw_nextSequenceAckSiblings w].

Lemma creation_committed t portId channelId d vs r s s1 h s' :
  tree_wf t -> create_root_update s portId channelId d h s1 vs r s' ->
  packet_commitment (cd_state d) = [] -> packet_receipt (cd_state d) = [] -> packet_acknowledgement (cd_state d) = [] ->
  no_packets t portId channelId ->
  channel_committed (set_all (creation_updates portId channelId vs) t) portId channelId (cd_state d).
Proof.
  intros Hwf (ve & v1 & v2 & v3 & -> & He & H1 & H2 & H3 & _) P1 P2 P3 Hn.
  assert (forall k, tree_value (set_all (creation_updates portId channelId [ve; v1; v2; v3]) t) k =
            if decide (nextSequenceAckPath portId channelId = k) then v3 else
            if decide (nextSequenceRecvPath portId channelId = k) then v2 else
            if decide (nextSequenceSendPath portId channelId = k) then v1 else
            if decide (channelEndPath portId channelId = k) then ve else tree_value t k) as Hg.
  { intros k. cbn [creation_updates zip zip_with set_all fold_left foldl fst snd]. rewrite !tree_value_set; [done|..]; repeat apply tree_wf_set; done. }
  split.
  1-4: rewrite Hg; repeat case_decide; done.
  - intros k. rewrite P1, Hg, !decide_False by done. apply Hn.
  - intros k. rewrite P2, Hg, !decide_False by done. apply Hn.
  - intros k. rewrite P3, Hg, !decide_False by done. apply Hn.
Qed.

(** The replay of a creation. *)
Lemma creation_replayed `{LOK : !LucidOk} `{STD : !Sha256Std} portId channelId d h s s1 vs r s' :
  create_root_update s portId channelId d h s1 vs r s' -> state_ok s1 -> Forall value_ok vs ->
  root_transition s1 (ibc_state_root (hs_state h)) (creation_updates portId channelId vs) (creation_siblings (witness r)) r s'.
Proof.
  intros (ve & v1 & v2 & v3 & -> & He & H1 & H2 & H3 & Hr) Hok Hv. rewrite !Forall_cons in Hv. destruct Hv as (? & ? & ? & ? & _).
  assert (forall c x b, is_encoding (Data_to c x) b -> b <> []) as Hne.
  { intros c x b (e & Hx & ->). by eapply Data_to_nonempty. }
  apply Hne in He, H1, H2, H3. eapply speculate_transition; [done|exact Hr|by_updates_ok|].
  intros t t1 _ _ Hb. inv_bind Hb. apply mret_ok in Hb as [-> ->]. split.
  - by repeat (eapply run_updates_cons; [eassumption|]).
  - apply deletions_present_values. by repeat constructor.
Qed.

(** The fields of an open-init message are well formed: an ordering, a connection
    identifier and two port identifiers. *)
Definition init_message_sound (op : ChannelOpenInitOperator) (o : Order) : Prop :=
  o <> OrderNone /\ is_valid_connection_id (utf8 (coi_connectionId op)) = true /\
  port_identifier_validator (utf8 (coi_counterpartyPortId op)) = true /\ is_valid_port_id (utf8 (coi_port_id op)) = true.

Lemma init_datum_checked op o token :
  validate_chan_open_init (new_channel_datum (init_channel op o) (coi_port_id op) token) token = true <-> init_message_sound op o.
Proof.
  unfold validate_chan_open_init, channel_validate_basic, counterparty_validate_basic, init_channel, init_message_sound.
  cbn [new_channel_datum cd_state channel obj_val ch_connection_hops ch_ordering ch_counterparty cc_port_id cc_channel_id ch_state cd_token cd_port].
  rewrite !raw_convert, (bool_decide_true (token = token)), (bool_decide_true (Init = Init)), (bool_decide_true (utf8 "" = [])) by done.
  change (fresh_counters _) with true. cbn [orb]. rewrite !andb_true_r, !andb_true_iff, bool_decide_eq_true. destruct o; naive_solver.
Qed.

(** The transaction of an open init against the channel's minting policy. *)
Lemma init_mint_checked op o token connection client channelId vt :
  mint_channel_open_init (new_channel_datum (init_channel op o) (coi_port_id op) token) token (utf8 channelId) connection client vt
    (OnChanOpenInit (A := pdata) (convertString2Hex channelId)) <->
  init_message_sound op o /\ supports_ordering connection o = true /\ client_active_at client vt = true.
Proof.
  unfold mint_channel_open_init. rewrite init_datum_checked. cbn [new_channel_datum cd_state channel obj_val ch_connection_hops ch_ordering init_channel].
  assert (convertString2Hex channelId = hex_encode (utf8 channelId)) as -> by (unfold convertString2Hex; by case_decide as E; [rewrite E|]).
  naive_solver.
Qed.

Lemma host_with_channel_rule h root : validate_create_channel h (host_with_channel h root) = is_active (shutdown h).
Proof.
  unfold validate_create_channel, validate_create, counters_step, validate_version_increment, same_authority, host_with_channel.
  cbn [hs_state version next_client_sequence next_connection_sequence next_channel_sequence bound_port shutdown nft_policy deployer].
  rewrite !Z.add_0_r, !Z.eqb_refl, !bool_decide_true by done. cbn. by rewrite !andb_true_r.
Qed.

(** C8 (refinement): a successful open-init builder creates a channel end in state Init
    under the next channel identifier and its token, with the callback to the port's
    module.  The channel's minting policy's checks of the datum, the callback, the
    connection and the client pass exactly when the message's ordering, connection
    identifier and two port identifiers are well formed (the Gateway checks neither the
    ordering nor the ports), the connection has one version that supports the ordering
    and the client is active at the end of the validity interval.  The HostState
    validator accepts the new HostState, which counts the channel, so that the
    identifier is never given again, unless the bridge is shutting down.  The
    CreateChannel witness replays exactly the channel end and its three counters to the
    new root, after which the pending tree holds the whole new channel datum. *)
Theorem open_init_creates_channel `{LOK : !LucidOk} `{STD : !Sha256Std} op o s tx channelId p s' :
  coi_ordering op = Some o ->
  buildUnsignedChannelOpenInitTx op s = (Ok (tx, channelId, p), s') ->
  exists h d k s1 vs r,
    created s (coi_port_id op) (init_channel op o) MintChanOpenInit tx h d s1 vs r s' /\
    channelId = "channel-" +:+ pretty (next_channel_sequence (hs_state h)) /\ p = MkPending (newRoot r) (commitTree r) /\
    load_connection (coi_connectionId op) = Ok (ct_connectionUtxo tx, k, ct_clientUtxo tx) /\
    module_callback (coi_port_id op) (OnChanOpenInit (convertString2Hex channelId)) =
      Ok (ct_moduleKey tx, ct_moduleUtxo tx, ct_encodedSpendModuleRedeemer tx) /\
    (forall client vt,
       mint_channel_open_init d (cd_token d) (utf8 channelId) (cnd_state k) client vt (OnChanOpenInit (A := pdata) (convertString2Hex channelId)) <->
       init_message_sound op o /\ supports_ordering (cnd_state k) o = true /\ client_active_at client vt = true) /\
    validate_create_channel h (host_with_channel h (newRoot r)) = is_active (shutdown h) /\
    next_channel_sequence (hs_state (host_with_channel h (newRoot r))) = next_channel_sequence (hs_state h) + 1 /\
    let root := ibc_state_root (hs_state h) in
    (state_ok s1 -> Forall value_ok vs ->
     root_transition s1 root (creation_updates (coi_port_id op) channelId vs) (creation_siblings (witness r)) r s' /\
     (no_packets (base_tree s1 root) (coi_port_id op) channelId ->
      channel_committed (commitTree r) (coi_port_id op) channelId (cd_state d))).
Proof.
  intros Ho H. unfold buildUnsignedChannelOpenInitTx in H. rewrite Ho in H.
  apply create_channel_ok in H as (h & d & s1 & vs & r & Hc & -> & -> & [k Hk] & Hcb). exists h, d, k, s1, vs, r.
  pose proof Hc as [_ _ _ [Hd _] _ _ _ Hr]. split_and!; [done..| |apply host_with_channel_rule|done|].
  { intros client vt. rewrite Hd. apply init_mint_checked. }
  intros root Hok Hv. pose proof (creation_replayed _ _ _ _ _ _ _ _ _ Hr Hok Hv) as Hrt. split; [exact Hrt|].
  intros Hn. eapply channel_committed_leaves; [symmetry; apply Hrt|].
  eapply creation_committed; [|exact Hr|by rewrite Hd..|exact Hn]. unfold root, base_tree. case_decide; [apply tree_wf_new|apply Hok].
Qed.

(** ** Open try *)

(** The transaction mints the encoding of proof redeemer [r]. *)
Definition carries_proof (tx : ChannelTx) (r : VerifyProofRedeemer) : Prop :=
  exists u enc pol tok vp, ct_part tx = SpendChannel u enc pol tok (Some (verifyProofPolicyId, vp)) /\ encodeVerifyProofRedeemer r = Ok vp.

(** An open-try transaction creates a channel end in state TryOpen but
    never carries a proof redeemer, so the mint validator's proof check fails on every
    one of them, whatever connection, client and proof it is given. *)
Lemma open_try_carries_no_proof op s tx s' connection client d version proof height :
  buildUnsignedChannelOpenTryTx op s = (Ok tx, s') ->
  (exists h d' s1 vs r m, created s (cot_port_id op) (try_channel op) m tx h d' s1 vs r s' /\ ch_state (channel_end d') = TryOpen) /\
  ~ (exists r, carries_proof tx r /\ try_proof_ok (Some r) connection client d version proof height) /\
  ~ try_proof_ok None connection client d version proof height.
Proof.
  unfold buildUnsignedChannelOpenTryTx. intros H. inv_prog H. apply mret_ok in H as [-> ->].
  apply create_channel_ok in E as (h & d' & sa & vs & r & Hc & _). pose proof Hc as [_ _ _ [Hd _] (enc & _ & Hp) _ _ _].
  split_and!.
  - exists h, d', sa, vs, r. eexists. split; [exact Hc|]. by rewrite Hd.
  - intros (r' & (u & e & pol & tok & vp & Hp' & _) & _). congruence.
  - by intros (r' & ? & _).
Qed.

End handshake.
