(* ===== verification/ChannelHandlers.v ===== *)
(** * Channel request handlers ([tx/channel.service.ts], [shared/helpers/time.ts])

    A handler validates its message, selects the signer's wallet, builds the
    transaction, anchors its validity window at the ledger's tip and hands a plan to the
    transaction runner.  The runner is a parameter here ([run]); [TxRunner] models it
    together with the other handlers. *)

From Stdlib Require Import ZArith Lia.
From S2P Require Import Prelude JsMap JsString JsJson Hex MerkleTree Datum StateRoot PacketHelpers TreeRebuild TreeServices EscrowShard Voucher Redeemers ProtoCodec ProtoMessages ProtoTx ProofMessages PacketDenom PacketOps TxRunner MessageValidate ChannelOps.

#[local] Open Scope Z_scope.

(** ** The validity window ([computeLedgerAnchoredValidityWindow]) *)

Record SlotConfig := MkSlotConfig { zeroTime : Z; zeroSlot : Z; slotLength : Z }.
Record ValidityWindow := MkValidityWindow {
  currentSlot : Z; currentLedgerTime : Z; validFromTime : Z; validToSlot : Z; validToTime : Z;
}.

(** [Math.ceil(a / b)] for a positive [b] *)
Definition ceil_div (a b : Z) : Z := - (- a / b).

(** [tip] is the slot of [queryNetwork/tip], 0 at the origin. *)
Definition validity_window (c : SlotConfig) (tip ttlMs backdateMs : Z) : ValidityWindow :=
  let ledgerTime := zeroTime c + (tip - zeroSlot c) * slotLength c in
  let ttlSlots := Z.max 1 (ceil_div ttlMs (slotLength c)) in
  let toSlot := tip + ttlSlots in
  MkValidityWindow tip ledgerTime (Z.max (zeroTime c) (ledgerTime - Z.max 0 backdateMs)) toSlot
    (zeroTime c + (toSlot + 1 - zeroSlot c) * slotLength c - 1).

Definition computeLedgerAnchoredValidityWindow (c : SlotConfig) (tip : result Z) (ttlMs backdateMs : Z) : result ValidityWindow :=
  if slotLength c <=? 0 then Err (JsError "Invalid Cardano slot configuration") else
  t ← tip; Ok (validity_window c t ttlMs backdateMs).

Definition TRANSACTION_TIME_TO_LIVE : Z := 120000.

(** ** What a handler hands over *)

(** The slot configuration of the network, if Lucid knows it, and the tip Ogmios reports. *)
Class Ledger := { cardanoNetwork : string; slotConfig : option SlotConfig; network_tip : result Z; wallet_utxos : string -> list UTxO }.

Record BuiltTx := MkBuiltTx { built_tx : ChannelTx; valid_from : option Z; valid_to : option Z; built_pending : option PendingTreeUpdate }.

Definition with_validity (from : option Z) (to : Z) (t : BuiltTx) : result BuiltTx :=
  Ok (MkBuiltTx (built_tx t) from (Some to) (built_pending t)).

Record MsgResponse := MkMsgResponse { resp_channel_id : option string; resp_version : option string; unsigned_tx : bytes }.

(** The canonical tree and the wallet of the Lucid service. *)
Abbreviation hstate := (gstate * LucidWallet)%type.
Definition on_tree_state {A} (m : M gstate A) : M hstate A := fun s => let '(r, g) := m s.1 in (r, (g, s.2)).
Definition on_wallet (f : LucidWallet -> result LucidWallet) : M hstate unit :=
  fun s => match f s.2 with Ok w => (Ok tt, (s.1, w)) | Err e => (Err e, s) end.

Definition handler_error {A} (m : M hstate A) : M hstate A :=
  try_catch m (fun e => match e with
                        | JsError _ | OutOfFuel => raise (GrpcInternal ("An unexpected error occurred. " +:+ error_to_string e))
                        | _ => raise e
                        end).

Section handlers.
Context `{SHA : Sha256} `{L : Lucid} `{CV : ChainView} `{BL : Blake2b} `{S3 : Sha3}.
Context `{EV : EscrowEnv} `{DP : Deployment} `{PE : PacketEnv} `{CD : ChannelDeployment} `{LG : Ledger}.
Context (run : TxOperationPlan BuiltTx -> M hstate bytes).

Definition refreshWalletContext (address context : string) : M hstate unit :=
  match wallet_utxos address with
  | [] => raise (GrpcInternal (context +:+ " failed: no spendable UTxOs found for " +:+ address))
  | utxos => on_wallet (selectWalletFromAddress address utxos)
  end.

Definition computeTxValidityWindow : result ValidityWindow :=
  match slotConfig with
  | Some c => if slotLength c <=? 0 then Err (GrpcInternal ("channel tx failed: invalid slot configuration for network " +:+ cardanoNetwork))
              else computeLedgerAnchoredValidityWindow c network_tip TRANSACTION_TIME_TO_LIVE 0
  | None => Err (GrpcInternal ("channel tx failed: invalid slot configuration for network " +:+ cardanoNetwork))
  end.

Definition channel_plan (name address : string) (tx : ChannelTx) (validFrom : option Z) (validTo : Z) (update : option PendingTreeUpdate)
    (events : list GatewayEvent) : TxOperationPlan BuiltTx :=
  MkPlan name (MkBuiltTx tx None None update) false (with_validity validFrom validTo) (RefreshFromAddress address name) None built_pending events.

Definition check_not_past (w : ValidityWindow) : result unit :=
  if validToSlot w <? currentSlot w then Err (GrpcInternal "channel init failed: tx time invalid") else Ok tt.

Definition channel_event (kind : string) (e : ChannelEvent) : GatewayEvent :=
  MkGatewayEvent kind
    [("port_id", ev_port_id e); ("channel_id", ev_channel_id e); ("connection_id", ev_connection_id e);
     ("counterparty_port_id", ev_counterparty_port_id e); ("counterparty_channel_id", ev_counterparty_channel_id e)].

Definition channelOpenInit (data : PMsgChannelOpenInit) : M hstate MsgResponse := handler_error (
  '(constructedAddress, op) ← liftR (validateAndFormatChannelOpenInitParams data);
  refreshWalletContext constructedAddress "channelOpenInitBuilder" ;;
  '(tx, channelId, update) ← on_tree_state (buildUnsignedChannelOpenInitTx op);
  w ← liftR computeTxValidityWindow;
  liftR (check_not_past w) ;;
  cbor ← run (channel_plan "channelOpenInit" constructedAddress tx None (validToTime w) (Some update)
    [channel_event "channel_open_init" (MkChannelEvent (coi_port_id op) channelId (coi_connectionId op) (coi_counterpartyPortId op) "")]);
  mret (MkMsgResponse (Some channelId) (Some (pch_version (oi_channel data))) cbor)).

Definition channelOpenTry (data : PMsgChannelOpenTry) : M hstate MsgResponse := handler_error (
  '(constructedAddress, op) ← liftR (validateAndFormatChannelOpenTryParams data);
  refreshWalletContext constructedAddress "channelOpenTryBuilder" ;;
  tx ← on_tree_state (buildUnsignedChannelOpenTryTx op);
  w ← liftR computeTxValidityWindow;
  cbor ← run (channel_plan "channelOpenTry" constructedAddress tx (Some (validFromTime w)) (validToTime w) None []);
  mret (MkMsgResponse None (Some (cot_version op)) cbor)).

Definition channelOpenAck (data : PMsgChannelOpenAck) : M hstate MsgResponse := handler_error (
  '(constructedAddress, op) ← liftR (validateAndFormatChannelOpenAckParams data);
  refreshWalletContext constructedAddress "channelOpenAckBuilder" ;;
  '(tx, event, update) ← on_tree_state (buildUnsignedChannelOpenAckTx op);
  w ← liftR computeTxValidityWindow;
  liftR (check_not_past w) ;;
  cbor ← run (channel_plan "channelOpenAck" constructedAddress tx (Some (validFromTime w)) (validToTime w) (Some update)
    [channel_event "channel_open_ack" event]);
  mret (MkMsgResponse None None cbor)).

Definition channelOpenConfirm (data : PMsgChannelOpenConfirm) : M hstate MsgResponse := handler_error (
  '(constructedAddress, op) ← liftR (validateAndFormatChannelOpenConfirmParams data);
  refreshWalletContext constructedAddress "channelOpenConfirmBuilder" ;;
  '(tx, update) ← on_tree_state (buildUnsignedChannelOpenConfirmTx op);
  w ← liftR computeTxValidityWindow;
  cbor ← run (channel_plan "channelOpenConfirm" constructedAddress tx (Some (validFromTime w)) (validToTime w) (Some update) []);
  mret (MkMsgResponse None None cbor)).

Definition channelCloseInit (data : PMsgChannelCloseInit) : M hstate MsgResponse := handler_error (
  '(constructedAddress, op) ← liftR (validateAndFormatChannelCloseInitParams data);
  refreshWalletContext constructedAddress "channelCloseInitBuilder" ;;
  '(tx, update) ← on_tree_state (buildUnsignedChannelCloseInitTx op);
  w ← liftR computeTxValidityWindow;
  cbor ← run (channel_plan "channelCloseInit" constructedAddress tx None (validToTime w) (Some update) []);
  mret (MkMsgResponse None None cbor)).

(** The only handler that does not select the wallet before it builds. *)
Definition channelCloseConfirm (data : PMsgChannelCloseConfirm) : M hstate MsgResponse := handler_error (
  '(constructedAddress, op) ← liftR (validateAndFormatChannelCloseConfirmParams data);
  '(tx, update) ← on_tree_state (buildUnsignedChannelCloseConfirmTx op);
  w ← liftR computeTxValidityWindow;
  cbor ← run (channel_plan "channelCloseConfirm" constructedAddress tx (Some (validFromTime w)) (validToTime w) (Some update) []);
  mret (MkMsgResponse None None cbor)).

End handlers.
