(* ===== verification/ClientOps.v ===== *)
(** * Clients and heartbeats ([tx/client.service.ts], [tx/host-state-heartbeat.service.ts])

    The client messages and their checks ([helper/client.validate.ts],
    [helpers/client-state.ts], [helpers/consensus-state.ts]), the builders that create
    and update a light client or freeze it, the request handlers, and the heartbeat that
    anchors the HostState in a new epoch. *)

From Stdlib Require Import ZArith Lia.
From S2P Require Import Prelude JsMap JsString JsNumber Utf8 ProtoCodec ProtoMessages ProtoTx ProtoConnection ProtoClient JsJson Hex MerkleTree Datum Tendermint StateRoot PacketHelpers TreeRebuild EscrowShard Voucher TreeServices Redeemers ProofMessages PacketDenom PacketOps TxRunner MessageValidate ChannelOps ConnectionOps ChannelHandlers TxAssembly.

#[local] Open Scope Z_scope.

(** ** Client and consensus states from protobuf *)

Definition nanos_of (d : PDuration) : Z := du_seconds d * 10 ^ 9.
Definition lc_height_of (h : PHeight) : Height := MkHeight (ph_revision_number h) (ph_revision_height h).

(** [convertToProofType]: numbers become integers, byte arrays hex. *)
Definition leaf_spec_of (l : PLeafOp) : LeafSpec :=
  MkLeafSpec (pl_hash l) (pl_prehash_key l) (pl_prehash_value l) (pl_length l) (toHex (pl_prefix l)).
Definition inner_spec_of (i : PInnerSpec) : InnerSpec :=
  MkInnerSpec (isp_child_order i) (isp_child_size i) (isp_min_prefix_length i) (isp_max_prefix_length i) (toHex (isp_empty_child i)) (isp_hash i).

(** A specification without its leaf or inner part is noticed when it is encoded. *)
Definition proof_spec_of (p : PProofSpec) : result ProofSpec :=
  l ← of_undefined "hash" (psp_leaf_spec p);
  i ← of_undefined "child_order" (psp_inner_spec p);
  Ok (MkProofSpec (leaf_spec_of l) (inner_spec_of i) (psp_max_depth p) (psp_min_depth p) false).
Fixpoint convertToProofType (l : list PProofSpec) : result (list ProofSpec) :=
  match l with [] => Ok [] | p :: l' => s ← proof_spec_of p; ss ← convertToProofType l'; Ok (s :: ss) end.

(** The client state of a message; its proof specifications beside it. *)
Record NewClientState := MkNewClientState { ncs_state : list ProofSpec -> ClientState; ncs_specs : result (list ProofSpec) }.

Definition initializeClientState (m : PClientState) : NewClientState :=
  MkNewClientState
    (MkClientState (convertString2Hex (pcs_chain_id m)) (fr_numerator (pcs_trust_level m), fr_denominator (pcs_trust_level m))
       (nanos_of (pcs_trusting_period m)) (nanos_of (pcs_unbonding_period m)) (nanos_of (pcs_max_clock_drift m))
       (lc_height_of (pcs_frozen_height m)) (lc_height_of (pcs_latest_height m)))
    (convertToProofType (pcs_proof_specs m)).

Definition last_segment (s : string) : string := default "" (last (split x2d s)).

Definition validateClientState (c : ClientState) : result unit :=
  let chainIdUtf8 := convertHex2String (chainId c) in
  let len := length (code_units chainIdUtf8) in
  let '(num, den) := trustLevel c in
  if bool_decide (chainId c = "") then invalid "chain id cannot be empty string"
  else if bool_decide (50 < len)%nat then invalid ("chainID is too long; got: " +:+ pretty len +:+ ", max: 50")
  else if (num * 3 <? den) || (den <? num) || (den =? 0) then invalid "trustLevel must be within [1/3, 1]"
  else if trustingPeriod c <=? 0 then invalid "trusting period must be greater than zero"
  else if unbondingPeriod c <=? 0 then invalid "unbonding period must be greater than zero"
  else if maxClockDrift c <=? 0 then invalid "max clock drift must be greater than zero"
  else if bool_decide (x2d ∈ utf8 chainIdUtf8) && negb (bool_decide (last_segment chainIdUtf8 = "")) &&
          negb (bool_decide (pretty (revisionNumber (latestHeight c)) = last_segment chainIdUtf8)) then
    invalid "Latest height revision number must match chain ID revision number"
  else if revisionHeight (latestHeight c) =? 0 then invalid "tendermint clients latest height revision height cannot be zero"
  else if unbondingPeriod c <=? trustingPeriod c then
    invalid ("trusting period " +:+ pretty (trustingPeriod c) +:+ " should be < unbonding period " +:+ pretty (unbondingPeriod c))
  else Ok tt.

Definition isExpired (cs : ClientState) (latestTimestamp now : Z) : bool := latestTimestamp + trustingPeriod cs <? now.

Definition initializeConsensusState (m : PConsensusState) : result ConsensusState :=
  let timestamp := nanoseconds (pco_timestamp m) in
  if timestamp <=? 0 then invalid "consensus_state.timestamp must be a positive Unix time"
  else Ok (MkConsensusState timestamp (toHex (pco_next_validators_hash m)) (toHex (pr_hash (pco_root m)))).

Definition validateConsensusState (c : ConsensusState) : result unit :=
  if bool_decide (cs_root_hash c = "") then invalid "root cannot be empty"
  else if cs_timestamp c <=? 0 then invalid "timestamp must be a positive Unix time"
  else Ok tt.

(** ** Message checks ([client.validate.ts]) *)

Definition decodeClientState (value : bytes) : result PClientState :=
  match decodeMessage value with
  | Ok m => Ok m
  | Err e => Err (GrpcInvalidArgument ("Error decoding client state: " +:+ error_to_string e))
  end.
Definition decodeConsensusState (value : bytes) : result PConsensusState :=
  match decodeMessage value with
  | Ok m => Ok m
  | Err e => Err (GrpcInvalidArgument ("Error decoding consensus state: " +:+ error_to_string e))
  end.

Definition check_client_signer (signer : string) : result unit :=
  if bool_decide (signer = "") then invalid "Invalid constructed address: Signer is not valid" else Ok tt.

Definition validateAndFormatCreateClientParams (data : PMsgCreateClient) : result (string * NewClientState * ConsensusState) :=
  a ← of_undefined "value" (mcc_client_state data);
  clientMsg ← decodeClientState (any_value a);
  b ← of_undefined "value" (mcc_consensus_state data);
  consensusMsg ← decodeConsensusState (any_value b);
  _ ← check_client_signer (mcc_signer data);
  let clientState := initializeClientState clientMsg in
  _ ← validateClientState (ncs_state clientState []);
  consensusState ← initializeConsensusState consensusMsg;
  _ ← validateConsensusState consensusState;
  Ok (mcc_signer data, clientState, consensusState).

Definition validateAndFormatUpdateClientParams (data : PMsgUpdateClient) : result (string * string) :=
  if bool_decide (muc_client_id data = "") then invalid "Invalid clientId" else
  _ ← check_prefix "client_id" CLIENT_ID_PREFIX (muc_client_id data);
  let clientId := slice_from (str_length (CLIENT_ID_PREFIX +:+ "-")) (muc_client_id data) in
  _ ← check_client_signer (muc_signer data);
  Ok (muc_signer data, clientId).

Definition validateUpdateHeaderAdvancesLatestHeight (headerHeight : Z) (latest : Height) : result unit :=
  if headerHeight <=? revisionHeight latest then
    invalid ("Update header height " +:+ pretty headerHeight +:+ " must be greater than client latest height " +:+ pretty (revisionHeight latest))
  else Ok tt.

(** ** Datums *)

Definition MAX_CONSENSUS_STATE_SIZE : nat := 300.

Definition with_latest (c : ClientState) (h : Height) : ClientState :=
  MkClientState (chainId c) (trustLevel c) (trustingPeriod c) (unbondingPeriod c) (maxClockDrift c) (frozenHeight c) h (proofSpecs c).
Definition with_frozen (c : ClientState) (h : Height) : ClientState :=
  MkClientState (chainId c) (trustLevel c) (trustingPeriod c) (unbondingPeriod c) (maxClockDrift c) h (latestHeight c) (proofSpecs c).

Definition frozen_height : Height := MkHeight 0 1.

(** The datum of a client frozen for misbehaviour. *)
Definition frozen_datum (d : ClientDatum) : ClientDatum :=
  let st := cld_state d in
  MkClientDatum (MkClientDatumState (with_frozen (clientState st) frozen_height) (consensusStates st) (processedTimes st) (processedHeights st))
    (cld_token d).

(** The new revision height under the client's revision number. *)
Definition new_height (c : ClientState) (h : Header) : Height := MkHeight (revisionNumber (latestHeight c)) (header_height h).

(** The consensus states kept, the new one in front. *)
Definition next_consensus_states (st : ClientDatumState) (h : Header) (txValidFrom : Z) : result (list (Height * ConsensusState)) :=
  let newHeight := new_height (clientState st) h in
  let newClientState := with_latest (clientState st) newHeight in
  let current := List.filter (fun kv => negb (isExpired newClientState (cs_timestamp kv.2) txValidFrom)) (consensusStates st) in
  if existsb (fun kv => header_height h =? revisionHeight kv.1) current then
    Err (GrpcInternal ("Client already created at height: " +:+ pretty (header_height h)))
  else Ok (take MAX_CONSENSUS_STATE_SIZE ((newHeight, getConsensusStateFromTmHeader (sh_header (signedHeader h))) :: current)).

(** The processed time or height of a kept consensus state, that of the new one given. *)
Definition next_processed (heights : list Height) (newHeight : Height) (value : Z) (old : list (Height * Z)) : list (Height * Z) :=
  (fun h => (h, if (revisionHeight h =? revisionHeight newHeight) && (revisionNumber h =? revisionNumber newHeight) then value
                else default 0 (getHeightMapValue old h))) <$> heights.

Definition updated_client (d : ClientDatum) (h : Header) (txValidFrom : Z) : result ClientDatum :=
  let st := cld_state d in
  _ ← validateUpdateHeaderAdvancesLatestHeight (header_height h) (latestHeight (clientState st));
  let newHeight := new_height (clientState st) h in
  states ← next_consensus_states st h txValidFrom;
  Ok (MkClientDatum
        (MkClientDatumState (with_latest (clientState st) newHeight) states
           (next_processed states.*1 newHeight txValidFrom (processedTimes st))
           (next_processed states.*1 newHeight (getProcessedHeight txValidFrom) (processedHeights st)))
        (cld_token d)).

(** The heights whose consensus states the new datum drops, as the keys of the tree
    name them; entries are compared by revision number and height. *)
Definition removed_heights (old new : list (Height * ConsensusState)) : list string :=
  (fun kv => pretty (revisionHeight kv.1)) <$> List.filter (fun kv => negb (bool_decide (kv.1 ∈ new.*1))) old.

Definition added_states (old new : list (Height * ConsensusState)) : list (Height * ConsensusState) :=
  List.filter (fun kv => negb (bool_decide (kv.1 ∈ old.*1))) new.

Definition created_client (cs : ClientState) (c : ConsensusState) (token : AuthToken) (txValidFromNs : Z) : ClientDatum :=
  MkClientDatum
    (MkClientDatumState cs [(latestHeight cs, c)] [(latestHeight cs, txValidFromNs)] [(latestHeight cs, getProcessedHeight txValidFromNs)]) token.

(** ** Builders *)

(** What the assemblers are handed for an update and for a creation. *)
Record UpdateClientTx := MkUpdateClientTx {
  ut_hostStateUtxo : UTxO; ut_encodedHostStateRedeemer : string; ut_currentClientUtxo : UTxO; ut_encodedSpendClientRedeemer : string;
  ut_encodedUpdatedHostStateDatum : string; ut_encodedNewClientDatum : string; ut_clientTokenUnit : string;
}.
Record CreateClientTx := MkCreateClientTx {
  kt_hostStateUtxo : UTxO; kt_encodedHostStateRedeemer : string; kt_clientAuthTokenUnit : string; kt_encodedMintClientRedeemer : string;
  kt_encodedUpdatedHostStateDatum : string; kt_encodedClientDatum : string;
}.

(** [UpdateClientOperatorDto] and [UpdateOnMisbehaviourOperatorDto] share these fields. *)
Record ClientOperator := MkClientOperator {
  co_clientId : string; co_clientDatum : ClientDatum; co_clientTokenUnit : string; co_currentClientUtxo : UTxO;
}.

Section builders.
Context `{SHA : Sha256} `{L : Lucid} `{CV : ChainView} `{BL : Blake2b} `{S3 : Sha3}.
Context `{EV : EscrowEnv} `{DP : Deployment} `{PE : PacketEnv}.

Definition encode_spendClientRedeemer (r : SpendClientRedeemer) : result string :=
  encode_type "spendClientRedeemer" (encodeSpendClientRedeemer r).
Definition encode_mintClientRedeemer : result string := encode_type "mintClientRedeemer" encodeMintClientRedeemer.
Definition encode_client (d : ClientDatum) : result string := encode_type "client" (Ok (encodeClientDatum d)).

(** [Buffer.from(await encode...Value(...), 'hex')] *)
Definition client_state_value (c : ClientState) : result bytes := v ← encodeClientStateValue c; Ok (hex_decode_prefix v).
Definition consensus_state_value (c : ConsensusState) : result bytes := v ← encodeConsensusStateValue c; Ok (hex_decode_prefix v).

Definition ibc_client_id (clientId : string) : string := "07-tendermint-" +:+ clientId.

(** The tail of both updates: the root for the change of datum, the host datum and the
    encodings.  [added] is the consensus state to insert. *)
Definition commit_client (op : ClientOperator) (host : UTxO * HostStateDatum) (new : ClientDatum) (msg : ClientMessage)
    (added : option (string * bytes)) : M gstate (UpdateClientTx * PendingTreeUpdate) :=
  let '(hostStateUtxo, hostStateDatum) := host in
  let root := ibc_state_root (hs_state hostStateDatum) in
  newClientStateValue ← liftR (client_state_value (clientState (cld_state new)));
  r ← computeRootWithUpdateClientUpdate root (ibc_client_id (co_clientId op)) newClientStateValue
        (removed_heights (consensusStates (cld_state (co_clientDatum op))) (consensusStates (cld_state new))) added;
  encodedSpendClientRedeemer ← liftR (encode_spendClientRedeemer (SpendUpdateClient msg));
  encodedNewClientDatum ← liftR (encode_client new);
  encodedHostStateRedeemer ← liftR (encode_host_state_redeemer (UpdateClient (witness r)));
  encodedUpdatedHostStateDatum ← liftR (encode_host_state (updated_host_state hostStateDatum (newRoot r)));
  mret (MkUpdateClientTx hostStateUtxo encodedHostStateRedeemer (co_currentClientUtxo op) encodedSpendClientRedeemer
          encodedUpdatedHostStateDatum encodedNewClientDatum (co_clientTokenUnit op), MkPending (newRoot r) (commitTree r)).

(** A message of another type leaves [null] in the redeemer, which no schema accepts. *)
Definition buildUnsignedUpdateOnMisbehaviour (op : ClientOperator) (clientMessage : PAny) : M gstate (UpdateClientTx * PendingTreeUpdate) :=
  msg ← liftR (getClientMessageFromTendermint clientMessage);
  host ← load_host_state;
  ensureTreeAligned (ibc_state_root (hs_state host.2)) ;;
  match msg with
  | Some m => commit_client op host (frozen_datum (co_clientDatum op)) m None
  | None =>
      newClientStateValue ← liftR (client_state_value (clientState (cld_state (frozen_datum (co_clientDatum op)))));
      computeRootWithUpdateClientUpdate (ibc_state_root (hs_state host.2)) (ibc_client_id (co_clientId op)) newClientStateValue [] None ;;
      liftR (encode_type "spendClientRedeemer" (throw "null is not a client message"))
  end.

Definition added_value (l : list (Height * ConsensusState)) : result (option (string * bytes)) :=
  match l with
  | [] => Ok None
  | [(h, c)] => v ← consensus_state_value c; Ok (Some (pretty (revisionHeight h), v))
  | (h, c) :: _ => _ ← consensus_state_value c; Err (GrpcInternal "UpdateClient should add at most one consensus state")
  end.

Definition buildUnsignedUpdateClientTx (op : ClientOperator) (header : Header) (txValidFrom : Z) : M gstate (UpdateClientTx * PendingTreeUpdate) :=
  new ← liftR (updated_client (co_clientDatum op) header txValidFrom);
  host ← load_host_state;
  ensureTreeAligned (ibc_state_root (hs_state host.2)) ;;
  added ← liftR (added_value (added_states (consensusStates (cld_state (co_clientDatum op))) (consensusStates (cld_state new))));
  commit_client op host new (HeaderCase header) added.

Definition load_host_for_creation : M gstate (UTxO * HostStateDatum) :=
  found ← liftR findUtxoAtHostStateNFT;
  match found with
  | None => raise (JsError "Cannot read properties of undefined (reading 'txHash')")
  | Some hostStateUtxo =>
      match datum_of hostStateUtxo with
      | None => raise (GrpcInternal "HostState UTXO has no inline datum! This indicates a deployment issue.")
      | Some d => hostStateDatum ← liftR (decode_host_state d); mret (hostStateUtxo, hostStateDatum)
      end
  end.

Definition host_with_client (h : HostStateDatum) (newRoot : string) : HostStateDatum :=
  let st := hs_state h in
  MkHostStateDatum
    (MkHostState (version st + 1) newRoot (next_client_sequence st + 1) (next_connection_sequence st) (next_channel_sequence st)
       (bound_port st) now)
    (nft_policy h) (deployer h) (shutdown h).

Definition buildUnsignedCreateClientTx (cs : NewClientState) (consensusState : ConsensusState) (txValidFromNs : Z)
  : M gstate (CreateClientTx * Z * PendingTreeUpdate) :=
  '(hostStateUtxo, hostStateDatum) ← load_host_for_creation;
  let root := ibc_state_root (hs_state hostStateDatum) in
  ensureTreeAligned root ;;
  let sequence := next_client_sequence (hs_state hostStateDatum) in
  specs ← liftR (ncs_specs cs);
  let clientState := ncs_state cs specs in
  clientStateValue ← liftR (client_state_value clientState);
  consensusStateValue ← liftR (consensus_state_value consensusState);
  r ← computeRootWithCreateClientUpdate root ("07-tendermint-" +:+ pretty sequence) clientStateValue consensusStateValue
        (pretty (revisionHeight (latestHeight clientState)));
  clientTokenName ← liftR (generateTokenName hostStateNFT CLIENT_PREFIX sequence);
  let clientDatum := created_client clientState consensusState (MkAuthToken mintClientPolicyId clientTokenName) txValidFromNs in
  encodedMintClientRedeemer ← liftR encode_mintClientRedeemer;
  encodedHostStateRedeemer ← liftR (encode_host_state_redeemer (CreateClient (witness r)));
  encodedUpdatedHostStateDatum ← liftR (encode_host_state (host_with_client hostStateDatum (newRoot r)));
  encodedClientDatum ← liftR (encode_client clientDatum);
  mret (MkCreateClientTx hostStateUtxo encodedHostStateRedeemer (mintClientPolicyId +:+ clientTokenName) encodedMintClientRedeemer
          encodedUpdatedHostStateDatum encodedClientDatum, sequence, MkPending (newRoot r) (commitTree r)).

(** ** Heartbeat *)

(** The indexed history: the epoch of the latest block, the block of a transaction, the
    epoch of a block; and the payment credential of an address. *)
Class HistoryView := {
  findLatestBlock : result (option Z);
  findTransactionEvidenceByHash : string -> result (option Z);
  findBlockByHeight : Z -> result (option Z);
  getPublicKeyHash : string -> result (option string);
}.
Context `{HV : HistoryView}.

Record HeartbeatContext := MkHeartbeatContext {
  hb_hostStateUtxo : UTxO; hb_hostStateDatum : HostStateDatum; hb_currentEpoch : Z; hb_hostStateEpoch : Z;
}.
Record HeartbeatTx := MkHeartbeatTx {
  ht_hostStateUtxo : UTxO; ht_encodedHostStateRedeemer : string; ht_encodedUpdatedHostStateDatum : string; ht_signerKeyHash : string;
}.

Definition precondition {A} (s : string) : result A := Err (GrpcFailedPrecondition s).

Definition resolveHeartbeatContext : result HeartbeatContext :=
  found ← findUtxoAtHostStateNFT;
  latestBlock ← findLatestBlock;
  match latestBlock with
  | None => precondition "Cannot evaluate HostState heartbeat before Cardano block history is ready"
  | Some currentEpoch =>
      hostStateUtxo ← of_undefined "datum" found;
      match datum_of hostStateUtxo with
      | None => Err (GrpcInternal "HostState UTxO has no inline datum")
      | Some d =>
          evidence ← findTransactionEvidenceByHash (txHash hostStateUtxo);
          match evidence with
          | None => precondition ("HostState transaction " +:+ txHash hostStateUtxo +:+ " is not indexed yet")
          | Some blockNo =>
              block ← findBlockByHeight blockNo;
              match block with
              | None => precondition ("Block " +:+ pretty blockNo +:+ " for HostState transaction " +:+ txHash hostStateUtxo +:+ " is not indexed yet")
              | Some epoch =>
                  if currentEpoch <? epoch then
                    precondition ("History tip epoch " +:+ pretty currentEpoch +:+ " is behind HostState epoch " +:+ pretty epoch)
                  else hostStateDatum ← decode_host_state d; Ok (MkHeartbeatContext hostStateUtxo hostStateDatum currentEpoch epoch)
              end
          end
      end
  end.

Definition nextUpdateTime (previous currentLedgerTime : Z) : Z := if previous <? currentLedgerTime then currentLedgerTime else previous + 1.

Definition beaten_host (h : HostStateDatum) (ledgerTime : Z) : HostStateDatum :=
  let st := hs_state h in
  MkHostStateDatum
    (MkHostState (version st + 1) (ibc_state_root st) (next_client_sequence st) (next_connection_sequence st) (next_channel_sequence st)
       (bound_port st) (nextUpdateTime (last_update_time st) ledgerTime))
    (nft_policy h) (deployer h) (shutdown h).

Definition heartbeat_signer (signer : string) (h : HostStateDatum) : result string :=
  key ← match getPublicKeyHash signer with
        | Ok k => Ok k
        | Err _ => invalid "HostState heartbeat signer is not a valid Cardano address"
        end;
  match key with
  | None | Some "" => invalid "HostState heartbeat signer must use a key payment credential"
  | Some k =>
      if negb (bool_decide (toLowerCase k = toLowerCase (deployer h))) then
        precondition "HostState heartbeat signer does not match the deployment heartbeat authority"
      else Ok k
  end.

(** The transaction, or [None] when the current epoch has its anchor already. *)
Definition heartbeat_tx (signer : string) (validity : result ValidityWindow)
  : M gstate (HeartbeatContext * option (HeartbeatTx * ValidityWindow * string)) :=
  if bool_decide (trim signer = "") then raise (GrpcInvalidArgument "HostState heartbeat signer is required") else
  context ← liftR resolveHeartbeatContext;
  let h := hb_hostStateDatum context in
  let root := ibc_state_root (hs_state h) in
  signerKeyHash ← liftR (heartbeat_signer signer h);
  if hb_hostStateEpoch context =? hb_currentEpoch context then mret (context, None) else
  match shutdown h with
  | ShuttingDown _ _ => raise (GrpcFailedPrecondition "HostState heartbeat is disabled while the bridge is shutting down")
  | Active =>
      aligned ← isTreeAligned root;
      (if aligned : bool then mret tt
       else alignTreeWithChain ;; again ← isTreeAligned root;
            if again : bool then mret tt else raise (GrpcFailedPrecondition "IBC tree could not be aligned with HostState before heartbeat")) ;;
      w ← liftR validity;
      encodedHostStateRedeemer ← liftR (encode_host_state_redeemer Heartbeat);
      encodedUpdatedHostStateDatum ← liftR (encode_host_state (beaten_host h (currentLedgerTime w)));
      mret (context, Some (MkHeartbeatTx (hb_hostStateUtxo context) encodedHostStateRedeemer encodedUpdatedHostStateDatum signerKeyHash, w, root))
  end.
End builders.

(** ** Request handlers *)

Definition EVENT_UPDATE_CLIENT : string := "update_client".
Definition EVENT_CLIENT_MISBEHAVIOUR : string := "client_misbehaviour".

Definition height_attribute (h : Height) : string := pretty (revisionNumber h) +:+ "-" +:+ pretty (revisionHeight h).

(** The message of the event is the one received, encoded again. *)
Definition buildUpdateClientSyntheticEvent (eventType clientId : string) (consensusHeight : Height) (clientMessage : PAny) : GatewayEvent :=
  let hex := toHex (encodeMessage clientMessage) in
  MkGatewayEvent eventType
    [("client_id", CLIENT_ID_PREFIX +:+ "-" +:+ clientId); ("client_type", CLIENT_ID_PREFIX); ("consensus_height", height_attribute consensusHeight);
     ("client_message_any_hex", hex); ("header", if bool_decide (eventType = EVENT_UPDATE_CLIENT) then hex else "")].

Definition create_client_event (createdClientId : string) (h : Height) : GatewayEvent :=
  MkGatewayEvent "create_client"
    [("client_id", createdClientId); ("client_type", "07-tendermint"); ("consensus_height", height_attribute h)].

(** How far the start of the validity interval may lie in the past: within the clock
    drift the client tolerates, less a second, and a minute at most. *)
Definition safeBackdateMs (cs : ClientState) : Z :=
  let maxClockDriftMs := Z.quot (maxClockDrift cs) 1000000 in
  let allowed := if 1000 <? maxClockDriftMs then maxClockDriftMs - 1000 else 0 in
  if allowed <? 60000 then allowed else 60000.

(** A built client transaction with its validity interval. *)
Inductive ClientTx := CreateTx (tx : CreateClientTx) | UpdateTx (tx : UpdateClientTx).
Record BuiltClient := MkBuiltClient { bl_tx : ClientTx; bl_from : option Z; bl_to : option Z; bl_update : PendingTreeUpdate }.

Definition client_plan (name address : string) (tx : ClientTx) (update : PendingTreeUpdate) (w : ValidityWindow) (event : GatewayEvent)
  : TxOperationPlan BuiltClient :=
  MkPlan name (MkBuiltClient tx None None update) false
    (fun t => Ok (MkBuiltClient (bl_tx t) (Some (validFromTime w)) (Some (validToTime w)) (bl_update t)))
    (RefreshFromAddress address name) None (fun t => Some (bl_update t)) [event].

(** A heartbeat expects the root it found and commits nothing. *)
Record BuiltHeartbeat := MkBuiltHeartbeat { bh_tx : HeartbeatTx; bh_from : option Z; bh_to : option Z }.

Definition heartbeat_plan (signer : string) (tx : HeartbeatTx) (w : ValidityWindow) (root : string) : TxOperationPlan BuiltHeartbeat :=
  MkPlan "hostStateHeartbeat" (MkBuiltHeartbeat tx None None) false
    (fun t => Ok (MkBuiltHeartbeat (bh_tx t) (Some (validFromTime w)) (Some (validToTime w))))
    (RefreshFromAddress signer "hostStateHeartbeat") None (fun _ => Some (MkPendingUpdate root None)) [].

Section handlers.
Context `{SHA : Sha256} `{L : Lucid} `{CV : ChainView} `{BL : Blake2b} `{S3 : Sha3}.
Context `{EV : EscrowEnv} `{DP : Deployment} `{PE : PacketEnv} `{LG : Ledger} `{HV : HistoryView}.
Context (run : TxOperationPlan BuiltClient -> M hstate bytes).

Definition client_computeTxValidityWindow (backdateMs : Z) : result ValidityWindow :=
  match slotConfig with
  | Some c => if slotLength c <=? 0 then Err (GrpcInternal ("client tx failed: invalid slot configuration for network " +:+ cardanoNetwork))
              else computeLedgerAnchoredValidityWindow c network_tip TRANSACTION_TIME_TO_LIVE backdateMs
  | None => Err (GrpcInternal ("client tx failed: invalid slot configuration for network " +:+ cardanoNetwork))
  end.

(** The response: the transaction, and the identifier of the client. *)
Definition createClient (data : PMsgCreateClient) : M hstate (bytes * string) := handler_error (
  '(constructedAddress, cs, consensusState) ← liftR (validateAndFormatCreateClientParams data);
  refreshWalletContext constructedAddress "createClientBuilder" ;;
  w ← liftR (client_computeTxValidityWindow 60000);
  '(tx, clientId, update) ← on_tree_state (buildUnsignedCreateClientTx cs consensusState (validFromTime w * 1000000));
  let createdClientId := CLIENT_ID_PREFIX +:+ "-" +:+ pretty clientId in
  cbor ← run (client_plan "createClient" constructedAddress (CreateTx tx) update w
                (create_client_event createdClientId (latestHeight (ncs_state cs []))));
  mret (cbor, createdClientId)).

(** The client a message names, with its datum. *)
Definition load_client_operator (clientId : string) : result ClientOperator :=
  clientTokenUnit ← getClientTokenUnit clientId;
  currentClientUtxo ← findUtxoByUnit clientTokenUnit;
  currentClientDatum ← decode_datum decode_client currentClientUtxo;
  Ok (MkClientOperator clientId currentClientDatum clientTokenUnit currentClientUtxo).

Definition update_on_misbehaviour (constructedAddress : string) (op : ClientOperator) (message : PAny) : M hstate bytes :=
  refreshWalletContext constructedAddress "updateClientOnMisbehaviourBuilder" ;;
  '(tx, update) ← on_tree_state (buildUnsignedUpdateOnMisbehaviour op message);
  w ← liftR (client_computeTxValidityWindow (safeBackdateMs (clientState (cld_state (co_clientDatum op)))));
  run (client_plan "updateClientOnMisbehaviour" constructedAddress (UpdateTx tx) update w
         (buildUpdateClientSyntheticEvent EVENT_CLIENT_MISBEHAVIOUR (co_clientId op) frozen_height message)).

Definition update_on_header (constructedAddress : string) (op : ClientOperator) (message : PAny) : M hstate bytes :=
  header ← liftR (header_of_any message);
  let updateConsensusHeight := MkHeight (revisionNumber (trustedHeight header)) (header_height header) in
  w ← liftR (client_computeTxValidityWindow (safeBackdateMs (clientState (cld_state (co_clientDatum op)))));
  refreshWalletContext constructedAddress "updateClientBuilder" ;;
  '(tx, update) ← on_tree_state (buildUnsignedUpdateClientTx op header (validFromTime w * 1000000));
  run (client_plan "updateClient" constructedAddress (UpdateTx tx) update w
         (buildUpdateClientSyntheticEvent EVENT_UPDATE_CLIENT (co_clientId op) updateConsensusHeight message)).

Definition updateClient (data : PMsgUpdateClient) : M hstate bytes := handler_error (
  '(constructedAddress, clientId) ← liftR (validateAndFormatUpdateClientParams data);
  op ← liftR (load_client_operator clientId);
  message ← liftR (of_undefined "type_url" (muc_client_message data));
  verified ← liftR (verifyClientMessage message (co_clientDatum op));
  if negb verified then raise (GrpcInvalidArgument "Invalid client message") else
  foundMisbehaviour ← liftR (checkForMisbehaviour message (co_clientDatum op));
  if foundMisbehaviour : bool then update_on_misbehaviour constructedAddress op message
  else if bool_decide (any_type_url message = TENDERMINT_MISBEHAVIOUR_TYPE_URL) then
    raise (GrpcInvalidArgument "submitted Tendermint misbehaviour does not prove a conflict")
  else update_on_header constructedAddress op message).

Context (run_heartbeat : TxOperationPlan BuiltHeartbeat -> M hstate bytes).

Definition heartbeat_validity : result ValidityWindow :=
  match slotConfig with
  | Some c => if slotLength c <=? 0 then Err (GrpcInternal ("HostState heartbeat has no valid Ogmios/slot configuration for " +:+ cardanoNetwork))
              else computeLedgerAnchoredValidityWindow c network_tip TRANSACTION_TIME_TO_LIVE 0
  | None => Err (GrpcInternal ("HostState heartbeat has no valid Ogmios/slot configuration for " +:+ cardanoNetwork))
  end.

(** Whether a heartbeat was required, the current epoch and that of the HostState, and the transaction. *)
Definition buildHeartbeat (signer : string) : M hstate (bool * Z * Z * option bytes) :=
  '(context, planned) ← on_tree_state (heartbeat_tx signer heartbeat_validity);
  match planned with
  | None => mret (false, hb_currentEpoch context, hb_hostStateEpoch context, None)
  | Some (tx, w, root) => cbor ← run_heartbeat (heartbeat_plan signer tx w root); mret (true, hb_currentEpoch context, hb_hostStateEpoch context, Some cbor)
  end.
End handlers.
