(* ===== verification/ClientOpsTheorems.v ===== *)
(** * Light clients: what the builders guarantee

    Every datum a client's life can lead to is in order: its consensus states lie in one
    revision, newest first, at most three hundred of them, with their processed times
    and heights.  On such a datum the update builder computes the datum the spend
    validator expects, and creation, freezing and the heartbeat are accepted; the
    replays of the HostState validator reach the new root.  Headers adjacent to their
    trusted height never get that far, and a header that proves a misbehaviour is not
    reported as one. *)

From Stdlib Require Import ZArith Lia Sorted.
From S2P Require Import Prelude JsMap JsString JsJson Hex MerkleTree MerkleSpec MerkleRefine OnChainCommitment MerkleTheorems Datum Tendermint StateRoot PacketHelpers StateRootFacts StateRootTheorems TreeRebuild TreeServices EscrowShard Voucher Redeemers JsNumber ProtoCodec ProtoMessages ProtoTx ProtoConnection ProtoClient OnChainProto ProofMessages PacketDenom PacketOps PacketOpsTheorems MessageValidate ChannelOps ConnectionOps ChannelHandlers ClientOps OnChainDatum OnChainChannel OnChainConnection OnChainHostState OnChainClient ChannelOpsFacts ConnectionOpsTheorems.

#[local] Open Scope Z_scope.

(** ** Height maps *)

Lemma height_gt h1 h2 : revisionNumber h1 = revisionNumber h2 -> greater (height_compare h1 h2) = true <-> revisionHeight h2 < revisionHeight h1.
Proof. intros E. unfold height_compare. rewrite E, Z.ltb_irrefl. destruct (Z.ltb_spec (revisionHeight h1) (revisionHeight h2)), (Z.ltb_spec (revisionHeight h2) (revisionHeight h1)); cbn; split; (done || lia). Qed.

Lemma height_lt_rev h1 h2 : revisionNumber h1 = revisionNumber h2 -> height_lt h1 h2 = (revisionHeight h1 <? revisionHeight h2).
Proof. intros E. unfold height_lt, height_compare. rewrite E, Z.ltb_irrefl. by destruct (revisionHeight h1 <? revisionHeight h2), (revisionHeight h2 <? revisionHeight h1). Qed.

Lemma get_first_in {V} (l : list (Height * V)) h v : get_first l h = Some v -> (h, v) ∈ l.
Proof.
  unfold get_first. destruct (List.find _ l) as [[h' v']|] eqn:E; [|done]. intros [= ->]. apply List.find_some in E as [Hin Hb].
  apply bool_decide_eq_true in Hb. cbn in Hb. subst h'. by apply list_elem_of_In.
Qed.

Lemma has_height_elem {V} (l : list (Height * V)) h : has_height l h = bool_decide (h ∈ l.*1).
Proof.
  unfold has_height. apply eq_true_iff_eq. rewrite existsb_exists, bool_decide_eq_true, list_elem_of_fmap. split.
  - intros ([h' v] & Hin & Hb). apply bool_decide_eq_true in Hb. exists (h', v). split; [done|by apply list_elem_of_In].
  - intros ([h' v] & -> & Hin). exists (h', v). split; [by apply list_elem_of_In|by apply bool_decide_eq_true].
Qed.

Lemma filter_sub {A} (p : A -> bool) l x : x ∈ List.filter p l -> x ∈ l /\ p x = true.
Proof. rewrite list_elem_of_In, filter_In, <- list_elem_of_In. done. Qed.

Lemma filter_keys_sub {V} (p : Height * V -> bool) (l : list (Height * V)) h : h ∈ (List.filter p l).*1 -> h ∈ l.*1.
Proof. rewrite !list_elem_of_fmap. intros (kv & -> & [Hin _]%filter_sub). by exists kv. Qed.

(** The entries of one map under the keys another map keeps. *)
Lemma filter_keys {V W} (p : Height * V -> bool) (l1 : list (Height * V)) (l2 : list (Height * W)) :
  l2.*1 = l1.*1 -> NoDup l1.*1 ->
  (List.filter (fun kv => bool_decide (kv.1 ∈ (List.filter p l1).*1)) l2).*1 = (List.filter p l1).*1.
Proof.
  revert l2. induction l1 as [|[h v] l1 IH]; intros [|[h2 w] l2]; try done. cbn. intros [= -> El] [Hn Hd]%NoDup_cons.
  destruct (p (h, v)) eqn:Ep; cbn.
  - rewrite bool_decide_true by left. cbn. f_equal. etransitivity; [|by apply (IH l2)]. f_equal. apply filter_ext_in. intros [k x] Hk.
    apply bool_decide_ext. cbn. rewrite elem_of_cons. split; [|by intros; right]. intros [->|]; [|done]. exfalso. apply Hn. rewrite <- El.
    apply list_elem_of_fmap. exists (h, x). split; [done|by apply list_elem_of_In].
  - rewrite bool_decide_false; [by apply IH|]. intros Hin%filter_keys_sub. done.
Qed.

Lemma get_height_map {V} (l : list (Height * V)) h v : NoDup l.*1 -> (h, v) ∈ l -> getHeightMapValue l h = Some v.
Proof.
  induction l as [|[h' v'] l IH]; [by intros _ ?%elem_of_nil|]. cbn. intros [Hn Hd]%NoDup_cons Hin. unfold same_height.
  destruct (decide (h' = h)) as [->|Hne].
  - rewrite !Z.eqb_refl. cbn. apply elem_of_cons in Hin as [[= ->]|Hin]; [done|]. exfalso. apply Hn. apply list_elem_of_fmap. by exists (h, v).
  - apply elem_of_cons in Hin as [[= -> _]|Hin]; [done|]. rewrite <- (IH Hd Hin). destruct (_ && _) eqn:E; [|done].
    apply andb_true_iff in E as [E1%Z.eqb_eq E2%Z.eqb_eq]. destruct h', h. cbn in *. congruence.
Qed.

(** What the Gateway looks up for each kept height is what the validator keeps. *)
Lemma kept_values {V} (keys : list Height) (old : list (Height * Z)) (p : Height * V -> bool) (l : list (Height * V)) :
  old.*1 = l.*1 -> NoDup l.*1 -> keys = (List.filter p l).*1 ->
  (fun h => (h, default 0 (getHeightMapValue old h))) <$> keys = List.filter (fun kv => bool_decide (kv.1 ∈ keys)) old.
Proof.
  intros El Hd ->. rewrite <- (filter_keys p l old) at 1 by done. set (keep := List.filter _ old).
  rewrite <- list_fmap_compose. rewrite <- (list_fmap_id keep) at 2. apply list_fmap_ext. intros i [h z] Hi. cbn.
  rewrite (get_height_map _ h z); [done|by rewrite El|]. by apply list_elem_of_lookup_2, filter_sub in Hi as [? _].
Qed.

(** The heights a map of processed times or heights records for the stored states: the
    same in the same order; or, for a single state, its height among others. *)
Definition recorded (old : list (Height * Z)) (keys : list Height) : Prop := old.*1 = keys \/ exists h, keys = [h] /\ h ∈ old.*1.

(** The first entry under a height. *)
Lemma first_entry (old : list (Height * Z)) h : h ∈ old.*1 -> exists v rest,
  List.filter (fun kv => bool_decide (kv.1 ∈ [h])) old = (h, v) :: rest /\ getHeightMapValue old h = Some v.
Proof.
  induction old as [|[k v] old IH]; [by intros ?%elem_of_nil|]. cbn. unfold same_height. intros [->|Hin]%elem_of_cons.
  - rewrite bool_decide_true by left. rewrite !Z.eqb_refl. cbn. by exists v, (List.filter (fun kv => bool_decide (kv.1 ∈ [k])) old).
  - destruct (decide (k = h)) as [->|Hne].
    + rewrite bool_decide_true by left. rewrite !Z.eqb_refl. cbn. by exists v, (List.filter (fun kv => bool_decide (kv.1 ∈ [h])) old).
    + rewrite bool_decide_false by (rewrite list_elem_of_singleton; done). destruct (IH Hin) as (w & rest & -> & E). exists w, rest. split; [done|].
      destruct (_ && _) eqn:Ek; [|done]. apply andb_true_iff in Ek as [E1%Z.eqb_eq E2%Z.eqb_eq]. destruct k, h. cbn in *. congruence.
Qed.

(** What the Gateway looks up for each kept height is what the validator keeps first. *)
Lemma recorded_values {V} (old : list (Height * Z)) (p : Height * V -> bool) (l : list (Height * V)) : recorded old l.*1 -> NoDup l.*1 ->
  let keys := (List.filter p l).*1 in
  (fun h => (h, default 0 (getHeightMapValue old h))) <$> keys = take (length keys) (List.filter (fun kv => bool_decide (kv.1 ∈ keys)) old).
Proof.
  intros [El|(h & El & Hin)] Hd keys.
  - rewrite (kept_values keys old p l El Hd eq_refl). rewrite take_ge; [done|]. rewrite <- (length_fmap fst). unfold keys. by rewrite filter_keys.
  - destruct l as [|[h' c] [|? ?]]; try done. injection El as ->. unfold keys. cbn [List.filter]. destruct (p (h, c)); [|done]. cbn [fmap list_fmap fst length].
    destruct (first_entry old h Hin) as (v & rest & -> & ->). done.
Qed.

Lemma recorded_kept {V} (old : list (Height * Z)) (p : Height * V -> bool) (l : list (Height * V)) n : recorded old l.*1 -> NoDup l.*1 ->
  let keys := (List.filter p l).*1 in (n <= length keys)%nat ->
  (take n (List.filter (fun kv => bool_decide (kv.1 ∈ keys)) old)).*1 = take n keys.
Proof.
  intros Hr Hd keys Hn. pose proof (recorded_values old p l Hr Hd) as E. cbv zeta in E. fold keys in E.
  assert (take n (List.filter (fun kv => bool_decide (kv.1 ∈ keys)) old) = take n ((fun h => (h, default 0 (getHeightMapValue old h))) <$> keys)) as ->.
  { rewrite E, take_take. f_equal. lia. }
  rewrite fmap_take. f_equal. rewrite <- list_fmap_compose. apply list_fmap_id.
Qed.

(** ** The state of a client *)

Definition newer (a b : Height) : Prop := revisionHeight b < revisionHeight a.

Record client_inv (d : ClientDatum) : Prop := {
  inv_latest : head (consensusStates (cld_state d)).*1 = Some (latestHeight (clientState (cld_state d)));
  inv_sorted : StronglySorted newer (consensusStates (cld_state d)).*1;
  inv_revision : Forall (fun h => revisionNumber h = parse_chain_id (raw (chainId (clientState (cld_state d))))) (consensusStates (cld_state d)).*1;
  inv_times : recorded (processedTimes (cld_state d)) (consensusStates (cld_state d)).*1;
  inv_heights : recorded (processedHeights (cld_state d)) (consensusStates (cld_state d)).*1;
  inv_bound : (length (consensusStates (cld_state d)) <= 300)%nat;
}.

(** Every stored state has exactly one processed time and one processed height. *)
Definition metadata_aligned (d : ClientDatum) : Prop :=
  (processedTimes (cld_state d)).*1 = (consensusStates (cld_state d)).*1 /\
  (processedHeights (cld_state d)).*1 = (consensusStates (cld_state d)).*1.

Lemma newer_nodup l : StronglySorted newer l -> NoDup l.
Proof. induction 1 as [|a l _ IH Hf]; constructor; [|done]. intros Hin. rewrite Forall_forall in Hf. specialize (Hf _ Hin). unfold newer in Hf. lia. Qed.

Lemma newer_filter {V} (p : Height * V -> bool) l : StronglySorted newer l.*1 -> StronglySorted newer (List.filter p l).*1.
Proof.
  induction l as [|kv l IH]; cbn; [done|]. intros [Hs Hf]%StronglySorted_inv. destruct (p kv); [|by apply IH]. constructor; [by apply IH|].
  rewrite Forall_forall in *. intros h Hh. apply Hf. by eapply filter_keys_sub.
Qed.

Lemma newer_take n l : StronglySorted newer l -> StronglySorted newer (take n l).
Proof.
  revert n. induction l as [|a l IH]; intros [|n] H; cbn; try constructor; apply StronglySorted_inv in H as [Hs Hf]; [by apply IH|by apply Forall_take].
Qed.

(** Every stored height is at most the latest one. *)
Lemma inv_at_most d h : client_inv d -> h ∈ (consensusStates (cld_state d)).*1 ->
  revisionHeight h <= revisionHeight (latestHeight (clientState (cld_state d))) /\
  revisionNumber h = revisionNumber (latestHeight (clientState (cld_state d))).
Proof.
  intros [Hl Hs Hr _ _ _] Hin. destruct ((consensusStates (cld_state d)).*1) as [|h0 l]; [done|]. injection Hl as ->.
  rewrite Forall_forall in Hr. split; [|rewrite !Hr; [done|left|done]].
  apply StronglySorted_inv in Hs as [_ Hf]. apply elem_of_cons in Hin as [->|Hin]; [lia|]. rewrite Forall_forall in Hf. specialize (Hf _ Hin). unfold newer in Hf. lia.
Qed.

(** ** Updates

    What the validator expects after a header, and what the Gateway builds. *)

Section updates.
Context `{TC : TmCrypto}.

(** What an accepted header says of its heights. *)
Lemma verified_height cs t states header : verify_header cs t states header = true ->
  exists c, get_first states (trustedHeight header) = Some c /\ revisionNumber (get_height header) = revisionNumber (trustedHeight header) /\
  greater (height_compare (get_height header) (latestHeight cs)) = true /\ hd_chainId (sh_header (signedHeader header)) = chainId cs /\
  cs_timestamp c < header_time header.
Proof.
  unfold verify_header. destruct (get_first states _) as [c|]; [|done]. destruct (to_rational _); [|done].
  unfold verifier_verify, verify_new_header_and_vals, signed_header_validate_basic. rewrite !andb_true_iff, !bool_decide_eq_true.
  cbn [tr_chainId tr_time]. intros H. exists c. unfold header_time. destruct_and!. split_and!; [done|by apply Z.eqb_eq|done|done|by apply Z.ltb_lt].
Qed.

Lemma new_head d header t : client_inv d -> verify_header (clientState (cld_state d)) t (consensusStates (cld_state d)) header = true ->
  get_height header = new_height (clientState (cld_state d)) header /\
  revisionNumber (get_height header) = parse_chain_id (raw (chainId (clientState (cld_state d)))) /\
  revisionHeight (latestHeight (clientState (cld_state d))) < revisionHeight (get_height header).
Proof.
  intros Hinv (c & Hc & Hrev & Hgt & Hid & _)%verified_height.
  apply get_first_in in Hc. assert (trustedHeight header ∈ (consensusStates (cld_state d)).*1) as Hin
    by (apply list_elem_of_fmap; by exists (trustedHeight header, c)).
  destruct (inv_at_most d _ Hinv Hin) as [_ Hr]. split_and!.
  - unfold get_height, new_height. rewrite Hid. f_equal. rewrite <- Hr, <- Hrev. unfold get_height. by rewrite Hid.
  - unfold get_height. cbn. by rewrite Hid.
  - apply height_gt; [congruence|done].
Qed.

Lemma expected_aligned d header vf : client_inv d -> metadata_aligned (expected_client d header vf).
Proof.
  intros [_ Hs _ Ht Hh _]. apply newer_nodup in Hs.
  split; cbn [expected_client cld_state consensusStates processedTimes processedHeights take fmap list_fmap fst]; f_equal;
    rewrite recorded_kept by (done || (rewrite length_fmap; lia)); by rewrite fmap_take.
Qed.

Lemma expected_inv d header vf t : client_inv d ->
  verify_header (clientState (cld_state d)) t (consensusStates (cld_state d)) header = true -> client_inv (expected_client d header vf).
Proof.
  intros Hinv Hv. destruct (new_head d header t Hinv Hv) as (_ & Hrev & Hgt). destruct (expected_aligned d header vf Hinv) as [Ha1 Ha2].
  pose proof (inv_at_most d) as Hmost. pose proof Hinv as [Hl Hs Hr _ _ Hb].
  assert (Hkept := newer_filter (fun kv => negb (is_expired (clientState (cld_state d)) (cs_timestamp kv.2) (vf * 1000000))) _ Hs).
  split; [| | |by left|by left|];
    cbn [expected_client cld_state clientState consensusStates set_latest latestHeight chainId take fmap list_fmap fst head].
  - done.
  - constructor; [rewrite fmap_take; by apply newer_take|]. rewrite fmap_take. apply Forall_take. rewrite Forall_forall. intros h Hin%filter_keys_sub.
    destruct (Hmost h Hinv Hin). unfold newer. lia.
  - constructor; [done|]. rewrite fmap_take. apply Forall_take. rewrite Forall_forall in Hr |- *. intros h Hin%filter_keys_sub. by apply Hr.
  - cbn [length]. rewrite length_take. unfold max_consensus_state_size. lia.
Qed.

Lemma spend_inv d d' msg vf vt : client_inv d -> spend_client d d' msg vf vt = true -> client_inv d' /\ cld_token d' = cld_token d.
Proof.
  intros Hinv. unfold spend_client, message_accepted. rewrite !andb_true_iff. intros [[_ Hv] Hm]. destruct (check_for_misbehaviour _ _).
  - unfold update_state_on_misbehaviour in Hm. apply bool_decide_eq_true in Hm as <-. split; [|done]. by destruct Hinv; split.
  - destruct msg as [header|]; [|done]. unfold update_state in Hm. rewrite !andb_true_iff, bool_decide_eq_true in Hm. destruct Hm as [_ <-].
    split; [by eapply expected_inv|done].
Qed.

(** A consensus state that expires at the very start of the validity interval: the
    Gateway keeps it, the validator does not. *)
Definition expires_at (cs : ClientState) (now : Z) (kv : Height * ConsensusState) : bool := cs_timestamp kv.2 + trustingPeriod cs =? now.

Definition gateway_kept (d : ClientDatum) (now : Z) : list (Height * ConsensusState) :=
  List.filter (fun kv => negb (isExpired (clientState (cld_state d)) (cs_timestamp kv.2) now)) (consensusStates (cld_state d)).

(** The states the Gateway keeps, when the header is newer than the latest one. *)
Lemma gateway_states d header now : client_inv d -> revisionHeight (latestHeight (clientState (cld_state d))) < header_height header ->
  next_consensus_states (cld_state d) header now =
  Ok (take 300 ((new_height (clientState (cld_state d)) header, header_consensus_state header) :: gateway_kept d now)).
Proof.
  intros Hinv Hgt. unfold next_consensus_states. cbv zeta. destruct (existsb _ _) eqn:E; [|done].
  apply existsb_exists in E as ([h c] & Hin & Heq%Z.eqb_eq). cbn in Heq. apply list_elem_of_In, filter_sub in Hin as [Hin _].
  destruct (inv_at_most d h Hinv); [|lia]. apply list_elem_of_fmap. by exists (h, c).
Qed.

Lemma updated_ok d header now : client_inv d -> revisionHeight (latestHeight (clientState (cld_state d))) < header_height header ->
  exists d', updated_client d header now = Ok d'.
Proof.
  intros Hinv Hgt. unfold updated_client, validateUpdateHeaderAdvancesLatestHeight. rewrite (proj2 (Z.leb_gt _ _)) by done. cbn [mbind result_bind].
  rewrite gateway_states by done. by eexists.
Qed.

Lemma filter_filter {A} (p q r : A -> bool) l : (forall x, r x = p x && q x) -> List.filter r l = List.filter q (List.filter p l).
Proof. intros H. induction l as [|x l IH]; [done|]. cbn. rewrite H, IH. destruct (p x); cbn; [by destruct (q x)|done]. Qed.

(** The validator's states are the Gateway's without those. *)
Lemma kept_agree d vf :
  List.filter (fun kv => negb (is_expired (clientState (cld_state d)) (cs_timestamp kv.2) (vf * 1000000))) (consensusStates (cld_state d)) =
  List.filter (fun kv => negb (expires_at (clientState (cld_state d)) (vf * 1000000) kv)) (gateway_kept d (vf * 1000000)).
Proof.
  apply filter_filter. intros kv. unfold isExpired, is_expired, expires_at.
  destruct (Z.ltb_spec (cs_timestamp kv.2 + trustingPeriod (clientState (cld_state d))) (vf * 1000000)),
    (Z.leb_spec (cs_timestamp kv.2 + trustingPeriod (clientState (cld_state d))) (vf * 1000000)),
    (Z.eqb_spec (cs_timestamp kv.2 + trustingPeriod (clientState (cld_state d))) (vf * 1000000)); cbn; (done || lia).
Qed.

(** The first [n] of a list are the first [n] of the filtered one exactly when none of
    them is dropped. *)
Lemma take_filter {A} (p : A -> bool) n l : take n (List.filter p l) = take n l <-> Forall (fun x => p x = true) (take n l).
Proof.
  split; [intros <-; apply Forall_take, Forall_forall; by intros x [_ Hx]%filter_sub|].
  revert n. induction l as [|x l IH]; intros [|n]; cbn [take List.filter]; try done. intros [Hx Hl]%Forall_cons. rewrite Hx. cbn [take]. by rewrite IH.
Qed.

Lemma take_min_length {A} n (l : list A) : take (Nat.min n (length l)) l = take n l.
Proof. destruct (Nat.le_gt_cases (length l) n); [rewrite Nat.min_r by done; by rewrite !take_ge by lia|by rewrite Nat.min_l by lia]. Qed.

(** The Gateway's processed times and heights are the validator's. *)
Lemma processed_agree {V} (h : Height) (value : Z) (old : list (Height * Z)) (p : Height * V -> bool) (l : list (Height * V)) n :
  recorded old l.*1 -> NoDup l.*1 -> h ∉ l.*1 -> (n <= length (List.filter p l))%nat ->
  next_processed (h :: take n (List.filter p l).*1) h value old =
  (h, value) :: take n (List.filter (fun kv => bool_decide (kv.1 ∈ (List.filter p l).*1)) old).
Proof.
  intros El Hd Hn Hlen. unfold next_processed. cbn. rewrite !Z.eqb_refl. cbn. f_equal.
  pose proof (recorded_values old p l El Hd) as E. cbv zeta in E. rewrite length_fmap in E.
  transitivity (take n (take (length (List.filter p l)) (List.filter (fun kv => bool_decide (kv.1 ∈ (List.filter p l).*1)) old))); [|rewrite take_take; f_equal; lia].
  rewrite <- E. rewrite fmap_take. f_equal. apply list_fmap_ext. intros i k Hi. f_equal. clear E.
  destruct (_ && _) eqn:E; [|done]. apply andb_true_iff in E as [E1%Z.eqb_eq E2%Z.eqb_eq]. exfalso. apply Hn.
  assert (k = h) as <- by (destruct k, h; cbn in *; congruence). apply list_elem_of_lookup_2 in Hi. by eapply filter_keys_sub.
Qed.

Lemma getProcessedHeight_agree t : 0 <= t -> getProcessedHeight t = processed_height_from_time t.
Proof. intros Ht. unfold getProcessedHeight, processed_height_from_time. by rewrite Z.quot_div_nonneg. Qed.

Lemma fresh_height d header t : client_inv d -> verify_header (clientState (cld_state d)) t (consensusStates (cld_state d)) header = true ->
  get_height header ∉ (consensusStates (cld_state d)).*1.
Proof. intros Hinv Hv Hin. destruct (new_head d header t Hinv Hv) as (_ & _ & Hgt). destruct (inv_at_most d _ Hinv Hin). lia. Qed.

(** The Gateway's datum is the validator's exactly when none of the states it keeps
    expires at the start of the interval. *)
Lemma updated_expected d header t vf d' : client_inv d -> 0 <= vf ->
  verify_header (clientState (cld_state d)) t (consensusStates (cld_state d)) header = true -> updated_client d header (vf * 1000000) = Ok d' ->
  expected_client d header vf = d' <->
  Forall (fun kv => expires_at (clientState (cld_state d)) (vf * 1000000) kv = false) (take 299 (gateway_kept d (vf * 1000000))).
Proof.
  intros Hinv Hvf Hv Hu. destruct (new_head d header t Hinv Hv) as (Hh & _ & Hgt). pose proof (fresh_height d header t Hinv Hv) as Hn.
  unfold updated_client in Hu. apply bind_ok in Hu as (_ & _ & Hu). rewrite gateway_states in Hu by done. cbn [mbind result_bind] in Hu.
  assert (take 299 (List.filter (fun kv => negb (is_expired (clientState (cld_state d)) (cs_timestamp kv.2) (vf * 1000000))) (consensusStates (cld_state d))) =
    take 299 (gateway_kept d (vf * 1000000)) <->
    Forall (fun kv => expires_at (clientState (cld_state d)) (vf * 1000000) kv = false) (take 299 (gateway_kept d (vf * 1000000)))) as <-.
  { rewrite kept_agree, take_filter. apply Forall_iff. intros kv. by destruct (expires_at _ _ _). }
  apply Ok_inj in Hu as <-. split.
  - intros Heq. apply (f_equal (fun x => tail (consensusStates (cld_state x)))) in Heq. cbn [cld_state consensusStates expected_client take tail] in Heq.
    change (max_consensus_state_size - 1)%nat with 299%nat in Heq. by rewrite take_min_length in Heq.
  - intros Heq. cbn [take]. rewrite <- Heq, <- take_min_length. rewrite <- Hh. unfold expected_client, with_latest, set_latest. cbn [fmap list_fmap fst]. rewrite !fmap_take.
    rewrite !processed_agree; [|apply Hinv|by apply newer_nodup, Hinv|done|lia|apply Hinv|by apply newer_nodup, Hinv|done|lia].
    rewrite getProcessedHeight_agree by lia. reflexivity.
Qed.

(** ** The life of a client *)

Lemma mint_inv d token vf vt : mint_client d token vf vt = true -> client_inv d /\ cld_token d = token.
Proof.
  unfold mint_client, client_is_initialized_valid, client_state_validate. intros H. rewrite !andb_true_iff in H. destruct_and!.
  match goal with E : (revisionNumber _ =? _) = true |- _ => apply Z.eqb_eq in E end.
  destruct (consensusStates (cld_state d)) as [|[h c] [|? ?]] eqn:Ec; try done.
  match goal with E : _ && _ = true |- _ => rewrite !andb_true_iff, !bool_decide_eq_true, !has_height_elem, !bool_decide_eq_true in E;
    destruct E as [[[-> Ht] Hh] Hk] end.
  split; [|done]. split; rewrite ?Ec; cbn; try done; [by repeat constructor|by repeat constructor| | |lia]; right; by eexists.
Qed.

Lemma chain_inv token d : client_chain token d -> client_inv d /\ cld_token d = token.
Proof.
  induction 1 as [d vf vt H|d d' msg vf vt _ [IH It] H]; [by eapply mint_inv|]. destruct (spend_inv d d' msg vf vt IH H) as [? ->]. done.
Qed.


(** C23 (refinement): client updates.  Take any datum of a client's life and any header
    the spend validator verifies against it and does not take for a misbehaviour.  The
    update builder computes a datum, and the spend validator accepts it exactly when
    none of the consensus states that datum keeps of the old ones (the newest 299 at
    most) expires exactly at the start of the validity interval: such a state the
    Gateway keeps and the validator drops. *)
Theorem client_update_accepted token d header vf vt : client_chain token d -> 0 <= vf ->
  message_accepted d (HeaderCase header) vf vt = true -> check_for_misbehaviour (HeaderCase header) (consensusStates (cld_state d)) = false ->
  exists d', updated_client d header (vf * 1000000) = Ok d' /\
    consensusStates (cld_state d') =
      (new_height (clientState (cld_state d)) header, header_consensus_state header) :: take 299 (gateway_kept d (vf * 1000000)) /\
    (spend_client d d' (HeaderCase header) vf vt = true <->
     Forall (fun kv => expires_at (clientState (cld_state d)) (vf * 1000000) kv = false) (take 299 (gateway_kept d (vf * 1000000)))).
Proof.
  intros [Hinv _]%chain_inv Hvf Hm Hn. pose proof Hm as Hv. unfold message_accepted in Hv. rewrite andb_true_iff in Hv. destruct Hv as [_ Hv].
  destruct (new_head d header _ Hinv Hv) as (Hh & Hrev & Hgt). pose proof (fresh_height d header _ Hinv Hv) as Hf.
  assert (forall d', spend_client d d' (HeaderCase header) vf vt = bool_decide (expected_client d header vf = d')) as Hs.
  { intros d'. unfold spend_client, update_state. rewrite Hm, Hn, has_height_elem, bool_decide_false by done.
    apply verified_height in Hv as (c & _ & _ & -> & _). done. }
  destruct (updated_ok d header (vf * 1000000) Hinv Hgt) as [d' Hu]. exists d'. split; [done|]. split.
  - unfold updated_client in Hu. apply bind_ok in Hu as (_ & _ & Hu). rewrite gateway_states in Hu by done. by injection Hu as <-.
  - rewrite Hs, bool_decide_eq_true. by eapply updated_expected.
Qed.

(** ** Misbehaviour *)

(** Newest first sorts to oldest first. *)
Lemma sort_newest_first {V} n (l : list (Height * V)) : StronglySorted newer l.*1 -> Forall (fun h => revisionNumber h = n) l.*1 ->
  sort_heights l = reverse l.
Proof.
  induction l as [|x l IH]; [done|]. cbn [fmap list_fmap sort_heights]. intros [Hs Hf]%StronglySorted_inv [Hx Hr]%Forall_cons. rewrite IH by done. rewrite reverse_cons.
  assert (Forall (fun kv : Height * V => height_lt x.1 kv.1 = false) (reverse l)) as Hlt.
  { apply Forall_reverse, Forall_forall. intros kv Hin. assert (kv.1 ∈ l.*1) as Hk by (apply list_elem_of_fmap; by exists kv).
    rewrite Forall_forall in Hf, Hr. rewrite height_lt_rev by (rewrite Hx; symmetry; by apply Hr). specialize (Hf _ Hk). unfold newer in Hf. apply Z.ltb_ge. lia. }
  revert Hlt. generalize (reverse l) as k. induction k as [|y k IHk]; intros Hlt; [done|]. apply Forall_cons in Hlt as [Hy Hk]. cbn. rewrite Hy. by rewrite IHk.
Qed.

Lemma get_prev_below l x h : height_lt x.1 h = true -> get_prev_consensus_state (l ++ [x]) h = Some x.2.
Proof.
  intros Hx. unfold get_prev_consensus_state. rewrite foldr_app. cbn. rewrite Hx. induction l as [|y l IH]; [done|]. cbn. by rewrite IH.
Qed.

Lemma get_next_none l h : Forall (fun kv => height_lt h kv.1 = false) l -> get_next_consensus_state l h = None.
Proof. unfold get_next_consensus_state. induction 1 as [|y l Hy _ IH]; [done|]. cbn. by rewrite Hy. Qed.

(** Above the latest height, the validator compares the header's time with the time of
    the latest consensus state. *)
Lemma header_misbehaviour d header t : client_inv d ->
  verify_header (clientState (cld_state d)) t (consensusStates (cld_state d)) header = true ->
  exists c, get_first (consensusStates (cld_state d)) (latestHeight (clientState (cld_state d))) = Some c /\
    check_for_misbehaviour (HeaderCase header) (consensusStates (cld_state d)) = (header_time header <=? cs_timestamp c).
Proof.
  intros Hinv Hv. destruct (new_head d header t Hinv Hv) as (_ & Hrev & Hgt). pose proof (fresh_height d header t Hinv Hv) as Hn.
  pose proof (inv_at_most d) as Hmost. pose proof (inv_latest _ Hinv) as Hl. pose proof (inv_sorted _ Hinv) as Hs. pose proof (inv_revision _ Hinv) as Hr.
  cbn [check_for_misbehaviour]. assert (get_first (consensusStates (cld_state d)) (get_height header) = None) as ->.
  { destruct (get_first _ _) as [c|] eqn:E; [|done]. exfalso. apply Hn, list_elem_of_fmap. exists (get_height header, c). split; [done|by apply get_first_in]. }
  rewrite (sort_newest_first _ _ Hs Hr). rewrite Forall_forall in Hr. destruct (consensusStates (cld_state d)) as [|[h c] l] eqn:El; [done|].
  injection Hl as ->. exists c. split; [unfold get_first; cbn; by rewrite bool_decide_true|]. rewrite reverse_cons, get_prev_below, get_next_none.
  - cbn. by rewrite orb_false_r.
  - rewrite <- reverse_cons. apply Forall_reverse, Forall_forall. intros kv Hin. assert (kv.1 ∈ ((latestHeight (clientState (cld_state d)), c) :: l).*1) as Hk.
    { apply list_elem_of_fmap. by exists kv. }
    rewrite height_lt_rev by (rewrite Hrev; symmetry; by apply Hr). destruct (Hmost kv.1 Hinv Hk). apply Z.ltb_ge. lia.
  - cbn. rewrite height_lt_rev; [by apply Z.ltb_lt|]. rewrite Hrev. apply Hr. left.
Qed.

Lemma consensus_at_some l height h c : consensus_at_height l height = Some (h, c) -> (h, c) ∈ l /\ revisionHeight h = height.
Proof. unfold consensus_at_height. intros [Hin He]%List.find_some. split; [by apply list_elem_of_In|]. by apply Z.eqb_eq in He. Qed.

(** For a height that is not stored the lookups of the neighbours find nothing. *)
Lemma header_conflicts_stored header l : header_conflicts header l = true -> exists h c, (h, c) ∈ l /\ revisionHeight h = header_height header.
Proof.
  unfold header_conflicts, getPreviousConsensusState, getNextConsensusState. destruct (consensus_at_height _ _) as [[h c]|] eqn:E; [|done].
  intros _. exists h, c. by apply consensus_at_some.
Qed.

(** A header never freezes a client.  When the Gateway takes a header for a
    misbehaviour, the spend validator refuses that header (its height is stored, so it
    is not above the latest one).  A header the validator does accept proves a
    misbehaviour exactly when its time is not after that of the latest consensus state;
    the Gateway never notices (its look-up of the neighbouring states is dead code for a
    height that is not stored) and every update it builds for such a header is refused. *)
Lemma header_misbehaviour_unreported token d header vf vt : client_chain token d ->
  (header_conflicts header (consensusStates (cld_state d)) = true -> message_accepted d (HeaderCase header) vf vt = false) /\
  (message_accepted d (HeaderCase header) vf vt = true ->
   exists c, get_first (consensusStates (cld_state d)) (latestHeight (clientState (cld_state d))) = Some c /\
     check_for_misbehaviour (HeaderCase header) (consensusStates (cld_state d)) = (header_time header <=? cs_timestamp c) /\
     (header_time header <= cs_timestamp c ->
      header_conflicts header (consensusStates (cld_state d)) = false /\
      forall now d', updated_client d header now = Ok d' -> spend_client d d' (HeaderCase header) vf vt = false)).
Proof.
  intros [Hinv _]%chain_inv. assert (header_conflicts header (consensusStates (cld_state d)) = true -> message_accepted d (HeaderCase header) vf vt = false) as Ha.
  { intros (h & c & Hin & Hh)%header_conflicts_stored. apply not_true_iff_false. intros Hm. unfold message_accepted in Hm. rewrite andb_true_iff in Hm. destruct Hm as [_ Hv].
    destruct (new_head d header _ Hinv Hv) as (_ & _ & Hgt). destruct (inv_at_most d h Hinv); [apply list_elem_of_fmap; by exists (h, c)|]. cbn in Hgt. unfold header_height in Hh. lia. }
  split; [done|]. intros Hm. pose proof Hm as Hv. unfold message_accepted in Hv. rewrite andb_true_iff in Hv. destruct Hv as [Hst Hv].
  destruct (header_misbehaviour d header _ Hinv Hv) as (c & Hc & Hck). exists c. split_and!; [done|done|]. intros Ht. split.
  - destruct (header_conflicts _ _); [|done]. rewrite Ha in Hm by done. done.
  - intros now d' Hu. unfold spend_client. rewrite Hm, Hck, (proj2 (Z.leb_le _ _)) by done. apply bool_decide_eq_false. intros Heq.
    unfold updated_client in Hu. apply bind_ok in Hu as (_ & _ & Hu). apply bind_ok in Hu as (states & _ & Hu). injection Hu as <-.
    apply (f_equal (fun x => frozenHeight (clientState (cld_state x)))) in Heq. cbn in Heq. unfold status in Hst. by rewrite <- Heq in Hst.
Qed.

Lemma misbehaviour_agree m states : hd_chainId (sh_header (signedHeader (mb_header1 m))) = hd_chainId (sh_header (signedHeader (mb_header2 m))) ->
  check_for_misbehaviour (MisbehaviourCase m) states = headers_conflict m.
Proof.
  intros He. unfold check_for_misbehaviour, headers_conflict, get_height, height_compare. cbn [revisionNumber revisionHeight]. rewrite He, Z.ltb_irrefl.
  unfold header_height. destruct (Z.eqb_spec (hd_height (sh_header (signedHeader (mb_header1 m)))) (hd_height (sh_header (signedHeader (mb_header2 m))))) as [->|Hne].
  - by rewrite Z.ltb_irrefl.
  - destruct (Z.ltb_spec (hd_height (sh_header (signedHeader (mb_header1 m)))) (hd_height (sh_header (signedHeader (mb_header2 m))))),
      (Z.ltb_spec (hd_height (sh_header (signedHeader (mb_header2 m)))) (hd_height (sh_header (signedHeader (mb_header1 m))))); (done || lia).
Qed.

(** C12 (refinement): two conflicting headers freeze the client.  On a misbehaviour message
    the spend validator verifies, its verdict and the Gateway's are the same; if it is a
    conflict the validator accepts the frozen datum the Gateway builds and no other, and
    if it is not the validator accepts no datum at all. *)
Theorem misbehaviour_freezes d m vf vt : message_accepted d (MisbehaviourCase m) vf vt = true ->
  check_for_misbehaviour (MisbehaviourCase m) (consensusStates (cld_state d)) = headers_conflict m /\
  forall d', spend_client d d' (MisbehaviourCase m) vf vt = headers_conflict m && bool_decide (frozen_datum d = d').
Proof.
  intros Hm. assert (hd_chainId (sh_header (signedHeader (mb_header1 m))) = hd_chainId (sh_header (signedHeader (mb_header2 m)))) as He.
  { unfold message_accepted, verify_client_message, verify_misbehaviour, misbehaviour_validate_basic in Hm. rewrite !andb_true_iff in Hm.
    destruct_and!. by match goal with H : bool_decide (_ = _) = true |- _ => apply bool_decide_eq_true in H end. }
  split; [by apply misbehaviour_agree|]. intros d'. unfold spend_client. rewrite Hm, (misbehaviour_agree m _ He). by destruct (headers_conflict m).
Qed.

End updates.

(** ** Headers the Gateway refuses *)

Lemma hex_decode_length s : (2 * length (hex_decode_prefix s) <= str_length s)%nat.
Proof.
  unfold hex_decode_prefix, str_length. generalize (utf8 s) as l. fix IH 1. intros [|a [|b l]]; cbn [hex_decode_go length]; [lia..|].
  destruct (fromHexChar a), (fromHexChar b); cbn [length]; try lia. specialize (IH l). lia.
Qed.

Section handlers.
Context `{SHA : Sha256} `{L : Lucid} `{CV : ChainView} `{BL : Blake2b} `{S3 : Sha3}.
Context `{EV : EscrowEnv} `{DP : Deployment} `{PE : PacketEnv} `{LG : Ledger} `{TC : TmCrypto}.

Lemma adjacent_refused trusted untrusted tp now drift : hd_height (sh_header untrusted) = tr_height trusted + 1 ->
  verify trusted untrusted tp now drift <> Ok true.
Proof.
  intros He. unfold verify, verifyAdjacent. rewrite He, Z.eqb_refl. cbn. destruct (verifyNewHeaderAndVals _ _ _ _); cbn; [|done]. by case_bool_decide.
Qed.

Lemma long_chain_id_refused trusted untrusted tp now drift : (50 < str_length (hd_chainId (sh_header untrusted)))%nat ->
  verify trusted untrusted tp now drift <> Ok true.
Proof.
  intros Hl. assert (exists e, verifyNewHeaderAndVals untrusted trusted now drift = Err e) as [e He].
  { unfold verifyNewHeaderAndVals, signed_header_validateBasic, header_validateBasic. rewrite (bool_decide_true (MAX_CHAIN_ID_LENGTH < _)%nat) by exact Hl. by eexists. }
  unfold verify, verifyNonAdjacent, verifyAdjacent. intros H.
  destruct (hd_height (sh_header untrusted) =? tr_height trusted + 1); cbn in H; [by rewrite He in H|]. destruct (headerExpired _ _ _); [done|]. by rewrite He in H.
Qed.

Lemma verifyHeader_refused msg d : (forall c tp now drift,
    verify (MkTrustedHeader (chainId (clientState (cld_state d))) (revisionHeight (trustedHeight msg)) (cs_timestamp c) (cs_next_validators_hash c))
      (signedHeader msg) tp now drift <> Ok true) -> exists e, verifyHeader msg d = Err e.
Proof.
  intros Hn. destruct (verifyHeader msg d) as [b|e] eqn:E; [|by exists e]. exfalso. unfold verifyHeader in E.
  destruct (consensus_at_height _ _) as [[h c]|]; [|done]. inv_bind E. case_match; [done|]. inv_bind E.
  match goal with H : verify _ _ _ _ _ = Ok ?a |- _ => destruct a; [by eapply Hn|done] end.
Qed.

(** C37 (error): sound headers are turned away.  A header the spend validator verifies is
    nevertheless refused by the update handler, whatever the state of the Gateway, when
    it directly follows its trusted height (the adjacent check returns [false] when
    every check passed), and when the client's chain identifier is longer than 25 bytes
    (the length of its hexadecimal text is compared with 50): such a client, which can
    be created, can never be updated. *)
Theorem sound_headers_refused run data address clientId op message header vf vt s :
  validateAndFormatUpdateClientParams data = Ok (address, clientId) -> load_client_operator clientId = Ok op ->
  muc_client_message data = Some message -> any_type_url message = TENDERMINT_HEADER_TYPE_URL -> header_of_any message = Ok header ->
  message_accepted (co_clientDatum op) (HeaderCase header) vf vt = true ->
  header_height header = revisionHeight (trustedHeight header) + 1 \/
    (25 < length (raw (chainId (clientState (cld_state (co_clientDatum op))))))%nat ->
  exists e, updateClient run data s = (Err e, s).
Proof.
  intros Hf Hl Hmsg Hurl Hh Hm Hcase. unfold message_accepted in Hm. rewrite andb_true_iff in Hm. destruct Hm as [_ Hv].
  apply verified_height in Hv as (_ & _ & _ & _ & Hid & _). assert (exists e, verifyClientMessage message (co_clientDatum op) = Err e) as [e He].
  { unfold verifyClientMessage. rewrite Hurl, bool_decide_true, Hh by done. cbn [mbind result_bind]. apply verifyHeader_refused. intros c tp now drift.
    destruct Hcase as [Ha|Hlen]; [by apply adjacent_refused|]. apply long_chain_id_refused. rewrite Hid.
    pose proof (hex_decode_length (chainId (clientState (cld_state (co_clientDatum op))))). lia. }
  unfold updateClient, handler_error, try_catch. unfold mbind, M_bind, liftR. rewrite Hf. cbn beta iota zeta. rewrite Hl, Hmsg.
  cbn beta iota zeta. cbn [of_undefined]. rewrite He. destruct e; by eexists.
Qed.
End handlers.

(** ** The tree of a client

    The commitment tree holds a client when the key of its state and the keys of its
    consensus states, one per revision height, hold the encodings of its datum. *)

Section roots.
Context `{SHA : Sha256} `{L : Lucid} `{STD : !Sha256Std} `{LOK : !LucidOk} `{CV : ChainView} `{BL : Blake2b} `{S3 : Sha3}.
Context `{EV : EscrowEnv} `{DP : Deployment} `{PE : PacketEnv}.

Definition client_bytes (c : ClientState) : bytes := match encodeClientStateValue c with Ok v => hex_decode_prefix v | Err _ => [] end.
Definition consensus_bytes (c : ConsensusState) : bytes := match encodeConsensusStateValue c with Ok v => hex_decode_prefix v | Err _ => [] end.

Abbreviation state_key id z := (consensusStatePath id (pretty (z : Z))).

Definition client_held (t : ICS23MerkleTree) (id : string) (d : ClientDatum) : Prop :=
  tree_value t (clientStatePath id) = client_bytes (clientState (cld_state d)) /\
  forall z, tree_value t (state_key id z) =
    match consensus_at_height (consensusStates (cld_state d)) z with Some (_, c) => consensus_bytes c | None => [] end.

Lemma state_key_inj id a b : state_key id a = state_key id b -> a = b.
Proof. unfold consensusStatePath. intros H. do 3 apply (inj (String.append _)) in H. by apply (inj pretty) in H. Qed.

Lemma client_key_other id z : clientStatePath id <> state_key id z.
Proof. unfold clientStatePath, consensusStatePath. intros H. do 2 apply (inj (String.append _)) in H. done. Qed.

(** One consensus state per revision height. *)
Definition heights_apart (l : list (Height * ConsensusState)) : Prop := NoDup (revisionHeight <$> l.*1).

Lemma at_height_in l h c : heights_apart l -> (h, c) ∈ l -> consensus_at_height l (revisionHeight h) = Some (h, c).
Proof.
  unfold heights_apart, consensus_at_height. induction l as [|[h' c'] l IH]; [by intros _ ?%elem_of_nil|]. cbn. intros [Hn Hd]%NoDup_cons Hin.
  apply elem_of_cons in Hin as [[= <- <-]|Hin]; [by rewrite Z.eqb_refl|]. destruct (Z.eqb_spec (revisionHeight h) (revisionHeight h')) as [E|_]; [|by apply IH].
  exfalso. apply Hn. rewrite <- E. apply list_elem_of_fmap. exists h. split; [done|]. apply list_elem_of_fmap. by exists (h, c).
Qed.

Lemma at_height_none l z : consensus_at_height l z = None -> forall h c, (h, c) ∈ l -> revisionHeight h <> z.
Proof.
  unfold consensus_at_height. intros Hn h c Hin <-. apply list_elem_of_In in Hin. pose proof (List.find_none _ _ Hn _ Hin) as He. cbn in He.
  by rewrite Z.eqb_refl in He.
Qed.

Lemma set_all_other us t k : tree_wf t -> k ∉ us.*1 -> tree_value (set_all us t) k = tree_value t k.
Proof.
  revert t. induction us as [|[k' v] us IH]; intros t Hwf Hk; [done|]. cbn. apply not_elem_of_cons in Hk as [Hne Hk].
  rewrite IH by (done || by apply tree_wf_set). rewrite tree_value_set, decide_False by done. done.
Qed.

Lemma removals_fst id hs : (removals id hs).*1 = consensusStatePath id <$> hs.
Proof. induction hs as [|h hs IH]; [done|]. cbn [removals map fmap list_fmap fst]. f_equal. exact IH. Qed.

Lemma removals_keys id hs k : k ∈ (removals id (pretty <$> hs)).*1 -> exists z, z ∈ hs /\ k = state_key id z.
Proof. rewrite removals_fst. intros (p & -> & (z & -> & Hz)%list_elem_of_fmap)%list_elem_of_fmap. by exists z. Qed.

Lemma set_all_removed id hs t z : tree_wf t -> z ∈ hs -> tree_value (set_all (removals id (pretty <$> hs)) t) (state_key id z) = [].
Proof.
  revert t. induction hs as [|y hs IH]; intros t Hwf Hin; [by apply elem_of_nil in Hin|]. cbn [fmap list_fmap removals map set_all].
  destruct (decide (z ∈ hs)) as [Hz|Hz]; [apply IH; [by apply tree_wf_set|done]|].
  apply elem_of_cons in Hin as [<-|]; [|done]. rewrite set_all_other; [by rewrite tree_value_set, decide_True|by apply tree_wf_set|].
  intros (x & Hx & ->%state_key_inj)%removals_keys. done.
Qed.

Abbreviation heights l := (revisionHeight <$> (l : list (Height * ConsensusState)).*1).

(** The validator's deletions, one witness each, and what is left of the replay. *)
Lemma removed_replayed id (removed : list (Height * ConsensusState)) t root ss rest restss r : tree_wf t -> heights_apart removed ->
  (forall h c, (h, c) ∈ removed -> tree_value t (state_key id (revisionHeight h)) = consensus_bytes c) -> length ss = length removed ->
  apply_updates root (updates_of t (removals id (pretty <$> heights removed) ++ rest) (ss ++ restss)) = Some r ->
  exists r2, apply_removed_consensus_state_updates consensus_bytes root (utf8 id) removed ss = Some r2 /\
    apply_updates r2 (updates_of (set_all (removals id (pretty <$> heights removed)) t) rest restss) = Some r.
Proof.
  revert t root ss. induction removed as [|[h c] removed IH]; intros t root [|s0 ss] Hwf Hap Hold Hlen Hr; try done; [by exists root|].
  unfold heights_apart in Hap. cbn [fmap list_fmap removals map app updates_of apply_updates fst ku_key ku_old ku_new ku_siblings] in Hr, Hap. apply NoDup_cons in Hap as [Hn Hap]. apply bind_Some in Hr as (r1 & H1 & Hr).
  rewrite (Hold h c) in H1 by left. cbn [apply_removed_consensus_state_updates]. unfold consensus_key.
  unfold consensusStatePath in H1 at 1. rewrite !utf8_app in H1. rewrite H1. cbn [mbind option_bind fmap list_fmap removals map set_all fst].
  apply IH; [by apply tree_wf_set|done| |by injection Hlen|done]. intros h' c' Hin. rewrite tree_value_set by done. rewrite decide_False.
  - apply Hold. by right.
  - intros Heq%state_key_inj. apply Hn. rewrite Heq. apply list_elem_of_fmap. exists h'. split; [done|]. apply list_elem_of_fmap. by exists (h', c').
Qed.
Lemma removed_witnesses root id v removed added s res s' : computeRootWithUpdateClientUpdate root id v removed added s = (Ok res, s') ->
  length (uc_removedConsensusStateSiblings (witness res)) = length removed.
Proof.
  assert (forall {S A B} (f : A -> M S B) l t ys t', mapM_ f l t = (Ok ys, t') -> length ys = length l) as Hmap.
  { intros S A B f l. induction l as [|x l IH]; intros t ys t' H; cbn [mapM_] in H; [by apply mret_ok in H as [-> ->]|].
    inv_bind H. apply mret_ok in H as [-> ->]. cbn. f_equal. by eapply IH. }
  intros H. apply speculate_ok in H as (t & s1 & t1 & _ & Hb & _). cbv zeta in Hb. inv_bind Hb. inv_ret E. destruct (tree_get _ t); [|discriminate].
  inv_bind Hb. apply mret_ok in Hb as [-> _]. by eapply Hmap.
Qed.

(** What a change of the consensus states keeps: the revision, one state per height,
    and the states it does not add. *)
Record change_ok (old new : list (Height * ConsensusState)) : Prop := {
  chg_old : heights_apart old;
  chg_new : heights_apart new;
  chg_revision : exists n, forall h, h ∈ old.*1 \/ h ∈ new.*1 -> revisionNumber h = n;
  chg_kept : forall kv, kv ∈ new -> kv ∈ old \/ kv.1 ∉ old.*1;
}.

Abbreviation removed_states old new := (List.filter (fun kv => negb (has_height (new : list (Height * ConsensusState)) kv.1)) old).

Lemma removed_heights_eq old new : removed_heights old new = pretty <$> heights (removed_states old new).
Proof.
  unfold removed_heights. rewrite <- !list_fmap_compose. replace (removed_states old new) with (List.filter (fun kv => negb (bool_decide (kv.1 ∈ new.*1))) old); [done|].
  apply filter_ext. intros kv. by rewrite has_height_elem.
Qed.

Lemma added_states_eq old new : added_states old new = removed_states new old.
Proof. apply filter_ext. intros kv. by rewrite has_height_elem. Qed.

Lemma apart_filter p l : heights_apart l -> heights_apart (List.filter p l).
Proof.
  unfold heights_apart. induction l as [|kv l IH]; [done|]. cbn. intros [Hn Hd]%NoDup_cons. destruct (p kv); [|by apply IH]. cbn. apply NoDup_cons.
  split; [|by apply IH]. intros (h & Hh & Hin)%list_elem_of_fmap. apply Hn, list_elem_of_fmap. exists h. split; [done|]. by eapply filter_keys_sub.
Qed.

Lemma change_same old new h h' : change_ok old new -> h ∈ old.*1 \/ h ∈ new.*1 -> h' ∈ old.*1 \/ h' ∈ new.*1 ->
  revisionHeight h = revisionHeight h' -> h = h'.
Proof. intros [_ _ [rev Hr] _] H H' He. apply Hr in H, H'. destruct h, h'. cbn in *. congruence. Qed.

Lemma key_of (l : list (Height * ConsensusState)) h c : (h, c) ∈ l -> h ∈ l.*1.
Proof. intros Hin. apply list_elem_of_fmap. by exists (h, c). Qed.

Lemma in_removed (old new : list (Height * ConsensusState)) h c : (h, c) ∈ removed_states old new <-> (h, c) ∈ old /\ h ∉ new.*1.
Proof. rewrite list_elem_of_In, filter_In, <- list_elem_of_In, has_height_elem. cbn. case_bool_decide; cbn; [split; [by intros [_ ?]|by intros [_ ?]]|split; intros [? _]; by split]. Qed.

Lemma in_removed_heights (old new : list (Height * ConsensusState)) z : z ∈ heights (removed_states old new) <-> exists h c, (h, c) ∈ old /\ (h ∉ new.*1) /\ revisionHeight h = z.
Proof.
  split.
  - intros (h & -> & ([h' c] & -> & [Hin Hn]%in_removed)%list_elem_of_fmap)%list_elem_of_fmap. by exists h', c.
  - intros (h & c & Hin & Hn & <-). apply list_elem_of_fmap. exists h. split; [done|]. apply (key_of _ h c). by apply in_removed.
Qed.

Definition added_list (id : string) (added : list (Height * ConsensusState)) : list (string * bytes) :=
  (fun kv => (state_key id (revisionHeight kv.1), consensus_bytes kv.2)) <$> added.

Lemma added_list_keys id added k : k ∈ (added_list id added).*1 -> exists h c, (h, c) ∈ added /\ k = state_key id (revisionHeight h).
Proof. unfold added_list. rewrite <- list_fmap_compose. intros ([h c] & -> & Hin)%list_elem_of_fmap. by exists h, c. Qed.

(** After the replay the tree holds the new datum. *)
Lemma held_after id old new t : tree_wf t -> client_held t id old ->
  let o := consensusStates (cld_state old) in let n := consensusStates (cld_state new) in
  change_ok o n -> (length (added_states o n) <= 1)%nat ->
  client_held (set_all ((clientStatePath id, client_bytes (clientState (cld_state new))) :: removals id (removed_heights o n) ++
                        added_list id (added_states o n)) t) id new.
Proof.
  intros Hwf [Hc Hs] o n Hchg Hlen. rewrite removed_heights_eq, added_states_eq in *. cbn [set_all]. rewrite set_all_app.
  set (t1 := tree_set _ _ t). assert (tree_wf t1) as Hwf1 by (by apply tree_wf_set). set (t2 := set_all _ t1).
  assert (tree_wf t2) as Hwf2 by (by apply tree_wf_set_all).
  assert (forall z, z ∉ heights (removed_states o n) -> tree_value t2 (state_key id z) = tree_value t (state_key id z)) as Hkeep.
  { intros z Hz. unfold t2. rewrite set_all_other; [|done|by intros (x & Hx & ->%state_key_inj)%removals_keys].
    unfold t1. rewrite tree_value_set by done. rewrite decide_False; [done|apply client_key_other]. }
  split.
  - rewrite set_all_other; [|done|intros (h & c & _ & He)%added_list_keys; by eapply client_key_other]. unfold t2.
    rewrite set_all_other; [|done|intros (x & _ & He)%removals_keys; by eapply client_key_other]. unfold t1. by rewrite tree_value_set, decide_True.
  - intros z. fold n. assert (forall h c, (h, c) ∈ removed_states n o -> revisionHeight h = z -> tree_value (set_all (added_list id (removed_states n o)) t2) (state_key id z) = consensus_bytes c) as Hset.
    { intros h c Hin <-. destruct (removed_states n o) as [|[h' c'] [|? l]]; [by apply elem_of_nil in Hin| |cbn in Hlen; lia].
      apply list_elem_of_singleton in Hin as [= -> ->]. cbn [added_list fmap list_fmap set_all fst snd]. by rewrite tree_value_set, decide_True. }
    assert ((forall h c, (h, c) ∈ removed_states n o -> revisionHeight h <> z) ->
            tree_value (set_all (added_list id (removed_states n o)) t2) (state_key id z) = tree_value t2 (state_key id z)) as Hoth.
    { intros Hno. apply set_all_other; [done|]. intros (h & c & Hin & He)%added_list_keys.
      apply state_key_inj in He. by eapply Hno. }
    destruct (consensus_at_height n z) as [[h c]|] eqn:En.
    + apply consensus_at_some in En as [Hin Hz]. destruct (decide (h ∈ o.*1)) as [Ho|Ho].
      * destruct (chg_kept _ _ Hchg (h, c) Hin) as [Hold|Hno]; [|done]. rewrite Hoth, Hkeep.
        -- rewrite Hs. fold o. rewrite <- Hz, (at_height_in o h c); [done|apply Hchg|done].
        -- intros (h' & c' & Hin' & Hn' & Hz')%in_removed_heights. apply Hn'. rewrite (change_same o n h' h Hchg); [by eapply key_of|left; by eapply key_of|by left|congruence].
        -- intros h' c' [Hin' Hn']%in_removed Hz'. apply Hn'. rewrite (change_same o n h' h Hchg); [done|right; by eapply key_of|by left|congruence].
      * apply (Hset h c); [by apply in_removed|done].
    + pose proof (at_height_none _ _ En) as Hno. rewrite Hoth by (intros h c [Hin _]%in_removed; by eapply Hno).
      destruct (decide (z ∈ heights (removed_states o n))) as [Hz|Hz]; [unfold t2; by rewrite set_all_removed|]. rewrite Hkeep, Hs by done. fold o.
      destruct (consensus_at_height o z) as [[h c]|] eqn:Eo; [|done]. exfalso. apply consensus_at_some in Eo as [Hin <-]. apply Hz, in_removed_heights.
      exists h, c. split_and!; [done| |done]. intros ([h' c'] & -> & Hn')%list_elem_of_fmap. by eapply Hno.
Qed.

Definition added_option (l : list (Height * ConsensusState)) : option (string * bytes) :=
  match l with (h, c) :: _ => Some (pretty (revisionHeight h), consensus_bytes c) | [] => None end.

Lemma added_value_option l a : added_value l = Ok a -> a = added_option l /\ (length l <= 1)%nat /\ (forall kv, kv ∈ l -> consensus_bytes kv.2 <> []).
Proof.
  assert (forall c v, consensus_state_value c = Ok v -> v = consensus_bytes c /\ consensus_bytes c <> []) as Hv.
  { intros c v (enc & E & [= <-])%bind_ok. unfold consensus_bytes. rewrite E. split; [done|]. by eapply Data_to_nonempty. }
  destruct l as [|[h c] [|? l]]; cbn [added_value]; intros H.
  - injection H as <-. split_and!; [done|cbn; lia|]. by intros kv ?%elem_of_nil.
  - apply bind_ok in H as (v & Hc & [= <-]). destruct (Hv c v Hc) as [-> Hne]. split_and!; [done|cbn; lia|]. by intros kv ->%list_elem_of_singleton.
  - by apply bind_ok in H as (v & _ & H).
Qed.

Lemma added_updates_list id l : (length l <= 1)%nat -> added_updates id (added_option l) = added_list id l.
Proof. destruct l as [|[h c] [|? l]]; cbn; intros; [done|done|lia]. Qed.

(** The values the change stores hash to something of their own. *)
Definition values_ok (d : ClientDatum) : Prop :=
  value_ok (client_bytes (clientState (cld_state d))) /\ forall h c, (h, c) ∈ consensusStates (cld_state d) -> value_ok (consensus_bytes c).

(** The validator's replay of a change of datum. *)
Lemma client_replayed id old new (h : HostStateDatum) s1 added r s' :
  let root := ibc_state_root (hs_state h) in
  let o := consensusStates (cld_state old) in let n := consensusStates (cld_state new) in
  state_ok s1 -> values_ok new -> client_bytes (clientState (cld_state new)) <> [] -> change_ok o n -> added_value (added_states o n) = Ok added ->
  client_held (base_tree s1 root) id old ->
  computeRootWithUpdateClientUpdate root id (client_bytes (clientState (cld_state new))) (removed_heights o n) added s1 = (Ok r, s') ->
  update_client_root client_bytes consensus_bytes h (updated_host_state h (newRoot r)) (utf8 id) old new
    (uc_clientStateSiblings (witness r)) (uc_consensusStateSiblings (witness r)) (uc_removedConsensusStateSiblings (witness r)) = true /\
  client_held (commitTree r) id new.
Proof.
  intros root o n Hok [Hv1 Hv2] Hne Hchg (-> & Hlen & Hnz)%added_value_option Hheld Hr.
  assert (Ha : forall k, k ∈ added_states o n -> k ∈ n) by (intros k Hk; by apply filter_sub in Hk as [? _]).
  pose proof (removed_witnesses _ _ _ _ _ _ _ _ Hr) as Hlr.
  assert (forall ht v, added_option (added_states o n) = Some (ht, v) -> v <> [] /\ value_ok v) as Hadd.
  { intros ht v. destruct (added_states o n) as [|[ha ca] l]; [done|]. intros [= <- <-]. split; [apply (Hnz (ha, ca)); left|eapply (Hv2 ha), Ha; left]. }
  pose proof (updateClient_transition _ _ _ _ _ _ _ _ Hok Hne Hv1 Hadd Hr) as Hrt.
  assert (tree_wf (base_tree s1 root)) as Hwf by (unfold base_tree; case_decide; [apply tree_wf_new|apply Hok]).
  rewrite added_updates_list in Hrt by done. destruct Hrt as [_ Hrep _ [Hlv _] _]. split.
  - cbn [updates_of apply_updates ku_key ku_old ku_new ku_siblings] in Hrep. apply bind_Some in Hrep as (r1 & H1 & Hrep).
    rewrite removed_heights_eq in Hrep, Hlr. rewrite !length_fmap in Hlr.
    apply removed_replayed in Hrep as (r2 & H2 & Hrep); [|by apply tree_wf_set|by apply apart_filter, Hchg| |done].
    + unfold update_client_root. cbv zeta. apply bool_decide_eq_true. fold o n. destruct Hheld as [Hc Hs].
      rewrite Hc in H1. unfold clientStatePath in H1. rewrite !utf8_app in H1. unfold client_key. unfold root in H1. rewrite H1. cbn [mbind option_bind].
      rewrite H2. cbn [mbind option_bind]. rewrite <- added_states_eq. change (ibc_state_root (hs_state (updated_host_state h (newRoot r)))) with (newRoot r).
      destruct (added_states o n) as [|[ha ca] [|? l]] eqn:Ea; [exact Hrep| |cbn in Hlen; lia].
      assert ((ha, ca) ∈ removed_states n o) as [Hin Hno]%in_removed by (rewrite <- added_states_eq, Ea; left).
      cbn [added_list added_option opt_list fmap list_fmap fst snd updates_of apply_updates ku_key ku_old ku_new ku_siblings] in Hrep.
      apply bind_Some in Hrep as (r3 & H3 & [= <-]). rewrite set_all_other, tree_value_set, decide_False, Hs in H3.
      * fold o in H3. destruct (consensus_at_height o (revisionHeight ha)) as [[hb cb]|] eqn:Eo.
        -- exfalso. apply consensus_at_some in Eo as [Hb He]. apply Hno. rewrite (change_same o n ha hb Hchg); [by eapply key_of|right; by eapply key_of|left; by eapply key_of|done].
        -- unfold consensus_key. unfold consensusStatePath in H3. by rewrite !utf8_app in H3.
      * apply client_key_other.
      * done.
      * by apply tree_wf_set.
      * intros (z & (hb & cb & Hb & _ & Hz)%in_removed_heights & He%state_key_inj)%removals_keys. apply Hno.
        rewrite (change_same o n ha hb Hchg); [by eapply key_of|right; by eapply key_of|left; by eapply key_of|congruence].
    + intros hb cb [Hb _]%in_removed. rewrite tree_value_set by done. rewrite decide_False by apply client_key_other. destruct Hheld as [_ Hs]. rewrite Hs. fold o.
      rewrite (at_height_in o hb cb); [done|apply Hchg|done].
  - destruct (held_after id old new (base_tree s1 root) Hwf Hheld Hchg Hlen) as [H1 H2]. split.
    + by rewrite (tree_value_leaves _ _ _ Hlv).
    + intros z. by rewrite (tree_value_leaves _ _ _ Hlv).
Qed.

(** ** The builders *)

Lemma newer_apart (l : list (Height * ConsensusState)) : StronglySorted newer l.*1 -> heights_apart l.
Proof.
  unfold heights_apart. induction l as [|[h c] l IH]; cbn; [constructor|]. intros [Hs Hf]%StronglySorted_inv. apply NoDup_cons. split; [|by apply IH].
  intros (h' & He & Hin)%list_elem_of_fmap. rewrite Forall_forall in Hf. specialize (Hf _ Hin). unfold newer in Hf. lia.
Qed.

Lemma updated_change d header now d' : client_inv d -> updated_client d header now = Ok d' ->
  change_ok (consensusStates (cld_state d)) (consensusStates (cld_state d')).
Proof.
  intros Hinv Hu. unfold updated_client, validateUpdateHeaderAdvancesLatestHeight in Hu. destruct (Z.leb_spec (header_height header) (revisionHeight (latestHeight (clientState (cld_state d))))); [done|].
  cbn [mbind result_bind] in Hu. rewrite gateway_states in Hu by done. injection Hu as <-. cbn [cld_state consensusStates take].
  set (nh := new_height _ _). pose proof (inv_at_most d) as Hmost. assert (Hsub : forall h, h ∈ (take 299 (gateway_kept d now)).*1 -> h ∈ (consensusStates (cld_state d)).*1).
  { intros h. rewrite fmap_take. intros (i & Hi & _)%elem_of_take. apply list_elem_of_lookup_2 in Hi. by eapply filter_keys_sub. }
  split.
  - apply newer_apart, Hinv.
  - apply newer_apart. cbn. constructor; [rewrite fmap_take; apply newer_take, newer_filter, Hinv|]. rewrite Forall_forall. intros h Hh%Hsub. destruct (Hmost h Hinv Hh). unfold newer, nh. cbn. lia.
  - exists (revisionNumber (latestHeight (clientState (cld_state d)))). intros h [Hh|Hh]; [by apply Hmost|]. cbn in Hh. apply elem_of_cons in Hh as [->|Hh]; [done|by apply Hmost, Hsub].
  - intros [h c] [[= -> ->]|Hin]%elem_of_cons.
    + right. intros Hh. destruct (Hmost _ Hinv Hh) as [Hle _]. cbn in Hle. lia.
    + left. apply elem_of_take in Hin as (i & Hi & _). by apply list_elem_of_lookup_2, filter_sub in Hi as [? _].
Qed.

Lemma frozen_change d : client_inv d -> change_ok (consensusStates (cld_state d)) (consensusStates (cld_state (frozen_datum d))).
Proof.
  intros Hinv. split; [by apply newer_apart, Hinv..| |]; cbn.
  - exists (parse_chain_id (raw (chainId (clientState (cld_state d))))). pose proof (inv_revision _ Hinv) as Hr. rewrite Forall_forall in Hr. intros h [Hh|Hh]; by apply Hr.
  - intros kv Hin. by left.
Qed.

Lemma added_none l : added_value (added_states l l) = Ok None.
Proof.
  destruct (added_states l l) as [|kv ks] eqn:E; [done|]. exfalso. assert (kv ∈ added_states l l) as [Hin Hn]%filter_sub by (rewrite E; left).
  rewrite bool_decide_true in Hn; [done|]. destruct kv as [h c]. by eapply key_of.
Qed.

(** A transaction that replaces a client's datum, with the HostState that goes with it. *)
Record client_committed (s : gstate) (op : ClientOperator) (new : ClientDatum) (msg : ClientMessage) (tx : UpdateClientTx) (p : PendingTreeUpdate)
    (h : HostStateDatum) (s1 : gstate) (r : StateRootResult UpdateClientW) : Prop := {
  cm_host : host_state_is (ut_hostStateUtxo tx) h;
  cm_aligned : ensureTreeAligned (ibc_state_root (hs_state h)) s = (Ok tt, s1);
  cm_datum : encode_client new = Ok (ut_encodedNewClientDatum tx);
  cm_client : ut_currentClientUtxo tx = co_currentClientUtxo op /\ ut_clientTokenUnit tx = co_clientTokenUnit op;
  cm_message : encode_spendClientRedeemer (SpendUpdateClient msg) = Ok (ut_encodedSpendClientRedeemer tx);
  cm_redeemer : encode_host_state_redeemer (UpdateClient (witness r)) = Ok (ut_encodedHostStateRedeemer tx);
  cm_host_datum : encode_host_state (updated_host_state h (newRoot r)) = Ok (ut_encodedUpdatedHostStateDatum tx);
  cm_pending : p = MkPending (newRoot r) (commitTree r);
  cm_rule : validate_update_only_root h (updated_host_state h (newRoot r)) = true;
  cm_replay : let id := ibc_client_id (co_clientId op) in
    state_ok s1 -> values_ok new -> client_held (base_tree s1 (ibc_state_root (hs_state h))) id (co_clientDatum op) ->
    update_client_root client_bytes consensus_bytes h (updated_host_state h (newRoot r)) (utf8 id) (co_clientDatum op) new
      (uc_clientStateSiblings (witness r)) (uc_consensusStateSiblings (witness r)) (uc_removedConsensusStateSiblings (witness r)) = true /\
    client_held (commitTree r) id new;
}.

Lemma commit_client_ok op u h new msg added s s1 tx p s' :
  let o := consensusStates (cld_state (co_clientDatum op)) in let n := consensusStates (cld_state new) in
  host_state_is u h -> ensureTreeAligned (ibc_state_root (hs_state h)) s = (Ok tt, s1) -> change_ok o n -> added_value (added_states o n) = Ok added ->
  commit_client op (u, h) new msg added s1 = (Ok (tx, p), s') ->
  exists r, client_committed s op new msg tx p h s1 r.
Proof.
  intros o n Hh Ha Hchg Hadd H. unfold commit_client in H. inv_prog H. apply mret_ok in H as [[= -> ->] ->].
  match goal with E : client_state_value _ = Ok ?v |- _ => apply bind_ok in E as (enc & Henc & [= <-]) end.
  assert (client_bytes (clientState (cld_state new)) = hex_decode_prefix enc) as Hb by (unfold client_bytes; by rewrite Henc).
  eexists. split; cbn; try done; [apply updated_host_state_rule|]. intros Hok Hv Hheld.
  assert (client_bytes (clientState (cld_state new)) <> []) as Hne by (rewrite Hb; by eapply Data_to_nonempty).
  match goal with E : computeRootWithUpdateClientUpdate _ _ _ _ _ _ = _ |- _ => rewrite <- Hb in E; by eapply client_replayed end.
Qed.

(** The root of an update.  A transaction the update builder or the
    misbehaviour builder hands over carries the encodings of the updated or frozen datum,
    of the client message, and of a HostState the HostState validator's rule accepts.
    Where the tree holds the client's datum, the validator's replay (the new client
    state, the deletion of every consensus state that is gone, the insertion of the new
    one) reaches the new root, and the tree to be committed holds the new datum, with
    no key of a dropped state left behind. *)
Lemma client_update_replayed `{TC : TmCrypto} token op s s' tx p : client_chain token (co_clientDatum op) ->
  (forall header now, buildUnsignedUpdateClientTx op header now s = (Ok (tx, p), s') ->
     exists d' h s1 r, updated_client (co_clientDatum op) header now = Ok d' /\ client_committed s op d' (HeaderCase header) tx p h s1 r) /\
  (forall message, buildUnsignedUpdateOnMisbehaviour op message s = (Ok (tx, p), s') ->
     exists msg h s1 r, getClientMessageFromTendermint message = Ok (Some msg) /\
       client_committed s op (frozen_datum (co_clientDatum op)) msg tx p h s1 r).
Proof.
  intros [Hinv _]%chain_inv. split.
  - intros header now H. unfold buildUnsignedUpdateClientTx in H. inv_prog H. destruct a1.
    match goal with E : load_host_state _ = (Ok ?x, _) |- _ => destruct x as [u h]; apply load_host_state_ok in E as [Hh ->] end.
    match goal with E : updated_client _ _ _ = Ok ?d |- _ => pose proof (updated_change _ _ _ _ Hinv E) as Hchg; exists d, h end.
    match goal with E : ensureTreeAligned _ _ = _ |- _ => destruct (commit_client_ok _ _ _ _ _ _ _ _ _ _ _ Hh E Hchg ltac:(eassumption) H) as [r Hr] end.
    by eexists _, r.
  - intros message H. unfold buildUnsignedUpdateOnMisbehaviour in H. inv_prog H. destruct a1.
    match goal with E : load_host_state _ = (Ok ?x, _) |- _ => destruct x as [u h]; apply load_host_state_ok in E as [Hh ->] end.
    match goal with E : getClientMessageFromTendermint _ = Ok ?m |- _ => destruct m as [msg|] end; [|inv_prog H; by apply encode_type_ok in H].
    match goal with E : ensureTreeAligned _ _ = _ |- _ => destruct (commit_client_ok _ _ _ _ _ None _ _ _ _ _ Hh E (frozen_change _ Hinv) (added_none _) H) as [r Hr] end.
    by eexists msg, h, _, r.
Qed.

(** ** Creation *)

(** What the mint validator asks of a new client and the message check does not. *)
Definition creation_gap (d : ClientDatum) (c : ConsensusState) (vt : Z) : bool :=
  let cs := clientState (cld_state d) in
  negb (bool_decide (trim_space (raw (chainId cs)) = [])) && (blen (raw (chainId cs)) <=? max_chain_id_len) && (0 <? (trustLevel cs).2) &&
  (0 <? revisionHeight (latestHeight cs)) && (revisionNumber (latestHeight cs) =? parse_chain_id (raw (chainId cs))) &&
  validate_specs (proofSpecs cs) && is_zero (frozenHeight cs) && negb (is_expired cs (cs_timestamp c) (vt * 1000000)).

Lemma trust_level_agrees (r : Z * Z) : (r.1 * 3 <? r.2) || (r.2 <? r.1) || (r.2 =? 0) = false ->
  match to_rational r with Some (n, d) => (d <=? n * 3) && (n <=? d) | None => false end = (0 <? r.2).
Proof.
  destruct r as [n d]. cbn [fst snd to_rational]. rewrite !orb_false_iff, !Z.ltb_ge, Z.eqb_neq. intros [[H1 H2] H3].
  rewrite (proj2 (Z.eqb_neq d 0)) by done. destruct (Z.ltb_spec 0 d).
  - apply andb_true_iff. rewrite !Z.leb_le. lia.
  - apply andb_false_iff. rewrite !Z.leb_gt. lia.
Qed.

Lemma mint_client_gap `{TC : TmCrypto} cs c token vf vt : 0 <= vf -> validateClientState cs = Ok tt ->
  let d := created_client cs c token (vf * 1000000) in mint_client d token vf vt = creation_gap d c vt.
Proof.
  intros Hvf Hv d. unfold validateClientState in Hv. pose proof (trust_level_agrees (trustLevel cs)) as Htl. destruct (trustLevel cs) as [num den] eqn:Etl.
  repeat match type of Hv with (if ?b then _ else _) = _ => destruct b eqn:?; [done|] end.
  repeat match goal with H : (_ <=? _) = false |- _ => apply Z.leb_gt in H end.
  unfold mint_client, client_is_initialized_valid, client_state_validate, creation_gap, status, get_first, has_height.
  cbn [d cld_state created_client clientState consensusStates processedTimes processedHeights cld_token existsb List.find fst snd].
  rewrite (bool_decide_true (latestHeight cs = latestHeight cs)), (bool_decide_true (token = token)) by done.
  rewrite getProcessedHeight_agree by lia. cbn [andb orb fmap option_fmap option_map snd].
  rewrite !(bool_decide_true (Some _ = Some _)) by done. rewrite Etl, Htl by done. cbn [snd].
  rewrite (proj2 (Z.ltb_lt 0 (trustingPeriod cs))), (proj2 (Z.ltb_lt 0 (unbondingPeriod cs))), (proj2 (Z.ltb_lt 0 (maxClockDrift cs))),
    (proj2 (Z.ltb_lt (trustingPeriod cs) (unbondingPeriod cs))) by done. rewrite !andb_true_r.
  rewrite <- !andb_assoc. do 6 f_equal. destruct (is_zero _); [|done]. by destruct (is_expired _ _ _).
Qed.

Lemma host_with_client_rule h root : validate_create_client h (host_with_client h root) = is_active (shutdown h).
Proof.
  unfold validate_create_client, validate_create, counters_step, validate_version_increment, same_authority, host_with_client.
  cbn [hs_state version next_client_sequence next_connection_sequence next_channel_sequence bound_port shutdown nft_policy deployer].
  rewrite !Z.add_0_r, !Z.eqb_refl, !bool_decide_true by done. cbn. by rewrite !andb_true_r.
Qed.

(** The replay of the two keys of a new client. *)
Lemma client_creation_replayed id (d : ClientDatum) cs c token now h s1 r s' : d = created_client cs c token now ->
  id = "07-tendermint-" +:+ pretty (next_client_sequence (hs_state h)) ->
  let root := ibc_state_root (hs_state h) in let height := pretty (revisionHeight (latestHeight cs)) in
  state_ok s1 -> values_ok d -> client_bytes cs <> [] -> consensus_bytes c <> [] ->
  tree_value (base_tree s1 root) (clientStatePath id) = [] -> (forall z, tree_value (base_tree s1 root) (state_key id z) = []) ->
  computeRootWithCreateClientUpdate root id (client_bytes cs) (consensus_bytes c) height s1 = (Ok r, s') ->
  create_client_root client_bytes consensus_bytes h (host_with_client h (newRoot r)) d (cc_clientStateSiblings (witness r))
    (cc_consensusStateSiblings (witness r)) = true /\ client_held (commitTree r) id d.
Proof.
  intros -> Hid root height Hok [Hv1 Hv2] Hn1 Hn2 Hf1 Hf2 Hr. cbn [created_client cld_state clientState consensusStates] in Hv1, Hv2.
  assert (value_ok (consensus_bytes c)) as Hv by (eapply (Hv2 (latestHeight cs)); left).
  destruct (createClient_transition _ _ _ _ _ _ _ _ Hok Hn1 Hn2 Hv1 Hv Hr) as [_ Hrep _ [Hlv _] _].
  assert (tree_wf (base_tree s1 root)) as Hwf by (unfold base_tree; case_decide; [apply tree_wf_new|apply Hok]).
  assert (forall k, tree_value (commitTree r) k = if decide (consensusStatePath id height = k) then consensus_bytes c else
            if decide (clientStatePath id = k) then client_bytes cs else tree_value (base_tree s1 root) k) as Hg.
  { intros k. rewrite (tree_value_leaves _ _ _ Hlv). cbn [set_all]. rewrite tree_value_set by (by apply tree_wf_set). by rewrite tree_value_set. }
  split.
  - cbn [updates_of apply_updates ku_key ku_old ku_new ku_siblings] in Hrep. apply bind_Some in Hrep as (r1 & H1 & Hrep).
    apply bind_Some in Hrep as (r2 & H2 & [= ->]). rewrite Hf1 in H1. rewrite tree_value_set in H2 by done. unfold height in H2. rewrite decide_False, Hf2 in H2 by apply client_key_other.
    unfold create_client_root. cbn [created_client cld_state clientState consensusStates List.filter fst]. rewrite (bool_decide_true (latestHeight cs = latestHeight cs)) by done.
    apply bool_decide_eq_true. unfold client_key, consensus_key. unfold clientStatePath in H1. unfold consensusStatePath in H2. rewrite !utf8_app in H1, H2.
    rewrite Hid, utf8_app in H1, H2. unfold root in H1. rewrite H1. exact H2.
  - split; cbn [created_client cld_state clientState consensusStates].
    + rewrite Hg, decide_False, decide_True by (done || (intros He; by eapply client_key_other)). done.
    + intros z. rewrite Hg. unfold consensus_at_height. cbn [List.find fst]. destruct (Z.eqb_spec z (revisionHeight (latestHeight cs))) as [->|Hz].
      * by rewrite decide_True.
      * rewrite decide_False, decide_False, Hf2; [done|apply client_key_other|]. intros He%state_key_inj. by apply Hz.
Qed.

Lemma load_host_for_creation_ok s u h s' : load_host_for_creation s = (Ok (u, h), s') -> host_state_is u h /\ s' = s.
Proof.
  unfold load_host_for_creation. intros H. inv_prog H. destruct a as [u'|]; [|discriminate]. destruct (datum_of u') as [d|] eqn:Ed; [|discriminate].
  inv_prog H. apply mret_ok in H as [[= -> ->] ->]. split; [|done]. by exists d.
Qed.

(** A transaction that creates a client. *)
Record client_created (s : gstate) (d : ClientDatum) (tx : CreateClientTx) (p : PendingTreeUpdate) (h : HostStateDatum) (s1 : gstate)
    (r : StateRootResult CreateClientW) : Prop := {
  kc_host : host_state_is (kt_hostStateUtxo tx) h;
  kc_aligned : ensureTreeAligned (ibc_state_root (hs_state h)) s = (Ok tt, s1);
  kc_token : generateTokenName hostStateNFT CLIENT_PREFIX (next_client_sequence (hs_state h)) = Ok (token_name (cld_token d)) /\
    policyId (cld_token d) = mintClientPolicyId /\ kt_clientAuthTokenUnit tx = policyId (cld_token d) +:+ token_name (cld_token d);
  kc_datum : encode_client d = Ok (kt_encodedClientDatum tx);
  kc_redeemer : encode_host_state_redeemer (CreateClient (witness r)) = Ok (kt_encodedHostStateRedeemer tx);
  kc_host_datum : encode_host_state (host_with_client h (newRoot r)) = Ok (kt_encodedUpdatedHostStateDatum tx);
  kc_pending : p = MkPending (newRoot r) (commitTree r);
}.

(** C11 (refinement): a new client, from message to accepted transaction.  The creation
    builder gives the client the next sequence number and one consensus state, at its
    latest height, processed at the start of the validity interval.  The mint validator
    accepts that datum exactly when what the message check leaves open holds: the chain
    identifier is at most fifty bytes and not blank and names the revision of the latest
    height, the proof specifications are the two of Cosmos, the client is not frozen and
    its consensus state outlives the transaction.  The HostState validator accepts the
    new HostState unless the bridge is shutting down, and its replay of the two new keys
    reaches the new root. *)
Theorem client_create_accepted `{TC : TmCrypto} data address cs c vf s tx n p s' :
  0 <= vf -> validateAndFormatCreateClientParams data = Ok (address, cs, c) ->
  buildUnsignedCreateClientTx cs c (vf * 1000000) s = (Ok (tx, n, p), s') ->
  exists specs d h s1 r, ncs_specs cs = Ok specs /\ d = created_client (ncs_state cs specs) c (cld_token d) (vf * 1000000) /\
    client_created s d tx p h s1 r /\ address = mcc_signer data /\ n = next_client_sequence (hs_state h) /\
    (forall vt, mint_client d (cld_token d) vf vt = creation_gap d c vt) /\
    validate_create_client h (host_with_client h (newRoot r)) = is_active (shutdown h) /\
    let id := "07-tendermint-" +:+ pretty n in let t := base_tree s1 (ibc_state_root (hs_state h)) in
    (state_ok s1 -> values_ok d -> tree_value t (clientStatePath id) = [] -> (forall z, tree_value t (state_key id z) = []) ->
     create_client_root client_bytes consensus_bytes h (host_with_client h (newRoot r)) d (cc_clientStateSiblings (witness r))
       (cc_consensusStateSiblings (witness r)) = true /\ client_held (commitTree r) id d).
Proof.
  intros Hvf Hf H. unfold validateAndFormatCreateClientParams in Hf. repeat (apply bind_ok in Hf as (? & ? & Hf)). injection Hf as <- <- <-.
  unfold buildUnsignedCreateClientTx in H. inv_prog H. apply mret_ok in H as [[= -> -> ->] ->].
  match goal with u : () |- _ => destruct u end. match goal with E : load_host_for_creation _ = _ |- _ => apply load_host_for_creation_ok in E as [Hh ->] end.
  match goal with E : client_state_value _ = _ |- _ => apply bind_ok in E as (enc1 & He1 & [= <-]) end.
  match goal with E : consensus_state_value _ = _ |- _ => apply bind_ok in E as (enc2 & He2 & [= <-]) end.
  match goal with E : ncs_specs _ = Ok ?sp |- _ => exists sp end. eexists (created_client _ _ (MkAuthToken mintClientPolicyId _) _), _, _, _.
  split_and!; [done|reflexivity|split; try done; try eassumption; by split_and!|done|done| |apply host_with_client_rule|].
  - intros vt. apply mint_client_gap; [done|]. match goal with E : validateClientState _ = Ok ?u |- _ => destruct u; exact E end.
  - intros id t Hok Hv Hf1 Hf2. eapply client_creation_replayed; [reflexivity|reflexivity|done|exact Hv| | |done|done|].
    + unfold client_bytes. rewrite He1. by eapply Data_to_nonempty.
    + unfold consensus_bytes. rewrite He2. by eapply Data_to_nonempty.
    + unfold client_bytes, consensus_bytes. rewrite He1, He2. eassumption.
Qed.

(** ** Heartbeat *)

Lemma beaten_host_rule h t : shutdown h = Active -> host_datum_rule Heartbeat h (beaten_host h t) = true.
Proof.
  intros Hs. unfold host_datum_rule, validate_heartbeat, validate_update_only_root, counters_step, validate_version_increment, same_authority, beaten_host.
  cbn [hs_state version next_client_sequence next_connection_sequence next_channel_sequence bound_port shutdown nft_policy deployer ibc_state_root last_update_time].
  rewrite Hs, !Z.add_0_r, !Z.eqb_refl, !bool_decide_true by done. cbn. unfold nextUpdateTime. apply Z.ltb_lt. destruct (Z.ltb_spec (last_update_time (hs_state h)) t); lia.
Qed.

Lemma heartbeat_context_ok `{HV : HistoryView} ctx : resolveHeartbeatContext = Ok ctx ->
  host_state_is (hb_hostStateUtxo ctx) (hb_hostStateDatum ctx) /\ hb_hostStateEpoch ctx <= hb_currentEpoch ctx.
Proof.
  unfold resolveHeartbeatContext. intros H. apply bind_ok in H as (found & Hf & H). apply bind_ok in H as ([epoch|] & _ & H); [|done].
  apply bind_ok in H as (u & Hu & H). destruct found as [u'|]; [|done]. injection Hu as ->. destruct (datum_of u) as [d|] eqn:Ed; [|done].
  apply bind_ok in H as ([blockNo|] & _ & H); [|done]. apply bind_ok in H as ([e|] & _ & H); [|done]. destruct (Z.ltb_spec epoch e); [done|].
  apply bind_ok in H as (datum & Hd & [= <-]). split; [by exists d|done].
Qed.

Lemma heartbeat_signer_ok `{HV : HistoryView} signer h k : heartbeat_signer signer h = Ok k ->
  getPublicKeyHash signer = Ok (Some k) /\ toLowerCase k = toLowerCase (deployer h).
Proof.
  unfold heartbeat_signer. destruct (getPublicKeyHash signer) as [[[|a l]|]|]; cbn [mbind result_bind]; try done. case_bool_decide; [|done]. by intros [= <-].
Qed.

(** C13 (refinement): a heartbeat the HostState validator accepts.  A transaction the
    heartbeat builder hands over is for a HostState of an earlier epoch, signed by the
    key of its deployer (up to the case of the hexadecimal text), and passes the
    validator's heartbeat rule: one version more, a later update time, and nothing else
    of the HostState changed.  No transaction is built while the bridge shuts down or
    when the current epoch has its anchor already. *)
Theorem heartbeat_accepted `{HV : HistoryView} signer validity s ctx tx w root s' :
  heartbeat_tx signer validity s = (Ok (ctx, Some (tx, w, root)), s') ->
  let h := hb_hostStateDatum ctx in let h' := beaten_host h (currentLedgerTime w) in
  host_datum_rule Heartbeat h h' = true /\ encode_host_state h' = Ok (ht_encodedUpdatedHostStateDatum tx) /\
  encode_host_state_redeemer Heartbeat = Ok (ht_encodedHostStateRedeemer tx) /\ ht_hostStateUtxo tx = hb_hostStateUtxo ctx /\
  host_state_is (ht_hostStateUtxo tx) h /\ hb_hostStateEpoch ctx < hb_currentEpoch ctx /\
  getPublicKeyHash signer = Ok (Some (ht_signerKeyHash tx)) /\ toLowerCase (ht_signerKeyHash tx) = toLowerCase (deployer h) /\
  validity = Ok w /\ root = ibc_state_root (hs_state h) /\ ibc_state_root (hs_state h') = root.
Proof.
  intros H h h'. unfold heartbeat_tx in H. case_bool_decide; [discriminate|]. inv_prog H.
  destruct (Z.eqb_spec (hb_hostStateEpoch a) (hb_currentEpoch a)) as [|Hne]; [by apply mret_ok in H as [? _]|].
  destruct (shutdown (hb_hostStateDatum a)) as [|] eqn:Esh; [|discriminate]. inv_prog H. apply mret_ok in H as [[= -> -> -> ->] ->].
  match goal with E : resolveHeartbeatContext = _ |- _ => apply heartbeat_context_ok in E as [Hh Hle] end.
  match goal with E : heartbeat_signer _ _ = _ |- _ => apply heartbeat_signer_ok in E as [Hk Hd] end.
  split_and!; try done; [by apply beaten_host_rule|lia].
Qed.

End roots.

(** ** Commits

    Who stands behind a header the validator verifies. *)

Section commits.
Context `{TC : TmCrypto}.

Definition power_of (l : list (nat * Validator)) : Z := foldr (fun iv acc => acc + va_votingPower iv.2) 0 l.

(** Validator [v] signed the vote of entry [i] of the commit: the validator at that
    index, or the first one with the address of the entry. *)
Definition signed_vote (by_index : bool) (vals : ValidatorSet) (commit : Commit) (chain_id : string) (i : nat) (v : Validator) : Prop :=
  exists sig, cm_signatures commit !! i = Some sig /\ sig_block_id_flag sig = BLOCKID_FLAG_COMMIT /\
    vote_signed commit chain_id i (default "" (va_pubkey v)) (sig_signature sig) = true /\
    (if by_index then vs_validators vals !! i = Some v else v ∈ vs_validators vals /\ va_address v = sig_validator_address sig).

Record signers (by_index : bool) (vals : ValidatorSet) (commit : Commit) (chain_id : string) (l : list (nat * Validator)) : Prop := {
  sg_signed : Forall (fun iv => signed_vote by_index vals commit chain_id iv.1 iv.2) l;
  sg_once : NoDup l.*1;
  sg_distinct : by_index = false -> NoDup l.*2;
}.

Lemma tally_signers chain_id vals commit needed by_index idx sigs power seen passed :
  (forall j sig, sigs !! j = Some sig -> cm_signatures commit !! (idx + j)%nat = Some sig) ->
  tally chain_id vals commit needed by_index idx sigs = Some (power, seen, passed) ->
  exists l, signers by_index vals commit chain_id l /\ power = power_of l /\ (by_index = false -> seen = l.*2) /\
    (forall i, i ∈ l.*1 -> (idx <= i)%nat) /\ (passed = true -> needed < power).
Proof.
  revert idx power seen passed. induction sigs as [|sig sigs IH]; intros idx power seen passed Hsub H; cbn [tally] in H.
  { injection H as <- <- <-. exists []. split_and!; try done; [by split; constructor|by intros i ?%elem_of_nil]. }
  apply bind_Some in H as ([[power0 seen0] passed0] & H0 & H). destruct (IH (S idx) _ _ _ ltac:(intros j x Hj; rewrite Nat.add_succ_comm; by apply (Hsub (S j))) H0)
    as (l & [Hs Ho Hd] & -> & Hseen & Hmin & Hp). unfold tally_one in H.
  assert (power = power_of l /\ seen = seen0 /\ passed = passed0 -> exists l', signers by_index vals commit chain_id l' /\ power = power_of l' /\
    (by_index = false -> seen = l'.*2) /\ (forall i, i ∈ l'.*1 -> (idx <= i)%nat) /\ (passed = true -> needed < power)) as Hkeep.
  { intros (-> & -> & ->). exists l. split_and!; try done. intros i Hi%Hmin. lia. }
  destruct (negb _ || passed0) eqn:Eflag; [apply Hkeep; by injection H|]. apply orb_false_iff in Eflag as [Eflag _]. apply negb_false_iff, Z.eqb_eq in Eflag.
  apply bind_Some in H as (found & Hf & H). destruct found as [[v seen']|]; [|apply Hkeep; by injection H]. destruct (vote_signed _ _ _ _ _) eqn:Ev; [|done].
  injection H as <- <- <-. exists ((idx, v) :: l). assert (cm_signatures commit !! idx = Some sig) as Hi by (rewrite <- (Nat.add_0_r idx); by apply (Hsub 0%nat)).
  assert (idx ∉ l.*1) as Hnew by (intros Hin%Hmin; lia).
  assert (signed_vote by_index vals commit chain_id idx v /\ (by_index = false -> seen' = v :: l.*2 /\ v ∉ l.*2)) as [Hvote Hv].
  { unfold find_validator in Hf. destruct by_index.
    - injection Hf as Hf. apply fmap_Some in Hf as (v' & Hl & [= -> ->]). split; [|done]. by exists sig.
    - destruct (List.find _ _) as [v'|] eqn:Efind; [|done]. apply List.find_some in Efind as [Hin%list_elem_of_In Ha%bool_decide_eq_true]. case_bool_decide as Hsn; [done|].
      injection Hf as -> <-. rewrite Hseen in Hsn |- * by done. split; [by exists sig|done]. }
  split_and!.
  - split; cbn; [by constructor|by apply NoDup_cons|]. intros Hb. apply NoDup_cons. split; [by apply Hv|by apply Hd].
  - done.
  - intros Hb. by apply Hv.
  - cbn. intros i [->|Hj%Hmin]%elem_of_cons; lia.
  - apply Z.ltb_lt.
Qed.

Lemma floor_bound x d p : 0 < d -> x / d < p -> x < d * p.
Proof. intros Hd Hlt. pose proof (Z.mul_succ_div_gt x d Hd). nia. Qed.

Lemma commit_signers chain_id vals commit n d by_index : 0 < d ->
  verify_commit_single chain_id vals commit (total_voting_power vals * n / d) by_index = true ->
  exists l, signers by_index vals commit chain_id l /\ total_voting_power vals * n < d * power_of l.
Proof.
  intros Hd. unfold verify_commit_single. destruct (tally _ _ _ _ _ _ _) as [[[power seen] passed]|] eqn:E; [|done].
  apply tally_signers in E as (l & Hl & -> & _ & _ & Hp); [|done]. intros H. exists l. split; [done|]. apply floor_bound; [done|].
  apply orb_true_iff in H as [->|H%Z.ltb_lt]; auto.
Qed.

(** C29 (safety): what stands behind a verified header.  The validator verifies a header
    only if the commit is for that very header, the header names its validator set by
    hash, and distinct members of that set with more than two thirds of its power have
    signed the commit; if the header directly follows its trusted height, that set is the
    one the stored consensus state announces; otherwise distinct members of the trusted
    set, which is the announced one, with more than the client's trust level of its
    power, have signed it too. *)
Theorem verified_header_signed cs t states header : verify_header cs t states header = true ->
  let sh := signedHeader header in let vals := validatorSet header in let trusted := trustedValidators header in
  exists c n d, get_first states (trustedHeight header) = Some c /\ to_rational (trustLevel cs) = Some (n, d) /\
    tm_header_hash (sh_header sh) = bi_hash (cm_blockId (sh_commit sh)) /\ hd_validatorsHash (sh_header sh) = validator_set_hash vals /\
    cs_next_validators_hash c = validator_set_hash trusted /\
    (exists l, signers true vals (sh_commit sh) (chainId cs) l /\ total_voting_power vals * 2 < 3 * power_of l) /\
    (if bool_decide (header_height header = revisionHeight (trustedHeight header) + 1) then hd_validatorsHash (sh_header sh) = cs_next_validators_hash c
     else exists l, signers false trusted (sh_commit sh) (chainId cs) l /\ total_voting_power trusted * n < d * power_of l).
Proof.
  unfold verify_header. destruct (get_first states _) as [c|]; [|done]. destruct (to_rational (trustLevel cs)) as [[n d]|] eqn:Er; [|done].
  unfold verifier_verify, verify_new_header_and_vals, signed_header_validate_basic, check_trusted_header, verify_commit_light. rewrite !andb_true_iff, !bool_decide_eq_true.
  cbn [tr_chainId tr_height tr_nextValidatorsHash]. intros H. exists c, n, d. destruct_and!. split_and!; try done.
  - by apply (commit_signers _ _ _ 2 3).
  - assert (0 < d) as Hd by (unfold to_rational in Er; destruct (trustLevel cs) as [a b]; destruct (Z.eqb_spec b 0); [done|]; destruct (Z.ltb_spec 0 b); injection Er; lia).
    unfold header_height. match goal with E : (if negb ?b then _ else _) = true |- _ => destruct b eqn:Eb end; cbn [negb] in *.
    + apply Z.eqb_eq in Eb. rewrite bool_decide_true by done. by match goal with E : bool_decide (_ = cs_next_validators_hash c) = true |- _ => apply bool_decide_eq_true in E end.
    + apply Z.eqb_neq in Eb. rewrite bool_decide_false by done. apply commit_signers; [done|].
      match goal with E : verify_commit_light_trusting _ _ _ _ = true |- _ => unfold verify_commit_light_trusting in E; rewrite !andb_true_iff in E; by destruct E as [_ E] end.
Qed.
End commits.

(** ** Replayed headers

    The header of an update is replayed as an event: converted from protobuf for the
    redeemer, and back. *)

#[local] Instance PTimestamp_eq_dec : EqDecision PTimestamp.
Proof. solve_decision. Defined.

Definition timestamp_ok (t : PTimestamp) : Prop := 0 <= ts_seconds t /\ 0 <= ts_nanos t < 10 ^ 9.
(** Go's zero time, which an absent vote carries. *)
Definition go_zero_time : PTimestamp := MkPTimestamp (- 62135596800) 0.

Definition canonical_key (k : PPublicKey) : PPublicKey :=
  MkPPublicKey (Some (match pk_ed25519 k with Some (b :: l) => b :: l | _ => default [] (pk_secp256k1 k) end)) None.
Definition canonical_validator (v : PValidator) : PValidator :=
  MkPValidator (vld_address v) (canonical_key (vld_pub_key v)) (vld_voting_power v) (vld_proposer_priority v).
Definition canonical_set (s : PValidatorSet) : PValidatorSet :=
  MkPValidatorSet (canonical_validator <$> vls_validators s) (canonical_validator <$> vls_proposer s)
    (match getTotalVotingPowerFromTendermint s with Ok t => t | Err _ => 0 end).
Definition canonical_sig (s : PCommitSig) : PCommitSig :=
  MkPCommitSig (csg_block_id_flag s) (csg_validator_address s) (if bool_decide (csg_timestamp s = go_zero_time) then MkPTimestamp 0 0 else csg_timestamp s)
    (csg_signature s).
Definition canonical_commit (c : PCommit) : PCommit :=
  MkPCommit (cmt_height c) (cmt_round c) (cmt_block_id c) (canonical_sig <$> cmt_signatures c).
Definition canonical_header (m : PLcHeader) : PLcHeader :=
  MkPLcHeader ((fun sh => MkPSignedHeader (sgh_header sh) (canonical_commit <$> sgh_commit sh)) <$> lch_signed_header m)
    (canonical_set <$> lch_validator_set m) (lch_trusted_height m) (canonical_set <$> lch_trusted_validators m).

(** The text of the chain identifier is ASCII, the times are since 1970 (but for Go's
    zero time in a vote), the flags those of the enumeration. *)
Definition sig_wire_ok (s : PCommitSig) : Prop :=
  0 <= csg_block_id_flag s <= 3 /\ (timestamp_ok (csg_timestamp s) \/ csg_timestamp s = go_zero_time).
Record header_wire_ok (m : PLcHeader) : Prop := {
  hw_header : forall sh h, lch_signed_header m = Some sh -> sgh_header sh = Some h -> ascii_text (tmh_chain_id h) = true /\ timestamp_ok (tmh_time h);
  hw_commit : forall sh c, lch_signed_header m = Some sh -> sgh_commit sh = Some c -> Forall sig_wire_ok (cmt_signatures c);
}.

(** Nothing is lost when every key is an Ed25519 key, the totals are the sums and no
    vote is absent. *)
Definition set_plain (s : PValidatorSet) : Prop :=
  (forall v, v ∈ vls_validators s \/ vls_proposer s = Some v -> exists b l, vld_pub_key v = MkPPublicKey (Some (b :: l)) None) /\
  getTotalVotingPowerFromTendermint s = Ok (vls_total_voting_power s).
Record header_plain (m : PLcHeader) : Prop := {
  hp_sets : forall s, lch_validator_set m = Some s \/ lch_trusted_validators m = Some s -> set_plain s;
  hp_votes : forall sh c v, lch_signed_header m = Some sh -> sgh_commit sh = Some c -> v ∈ cmt_signatures c -> csg_timestamp v <> go_zero_time;
}.

Lemma timestamp_back t : timestamp_ok t -> timestamp_to (nanoseconds t) = t.
Proof.
  destruct t as [s n]. intros [Hs Hn]. unfold timestamp_to, nanoseconds. cbn [ts_seconds ts_nanos] in *. f_equal.
  - rewrite Z.quot_div_nonneg by lia. rewrite Z.div_add_l by lia. rewrite Z.div_small by lia. lia.
  - rewrite Z.rem_mod_nonneg by lia. rewrite Z.add_comm, Z.mod_add by lia. by apply Z.mod_small.
Qed.

Lemma block_id_back b : block_id_to (block_id_of b) = Ok b.
Proof. destruct b as [h [t p]]. unfold block_id_to, block_id_of. cbn -[toHex fromHex]. by repeat (rewrite fromHex_toHex; cbn -[toHex fromHex]). Qed.

Lemma tm_header_back h : ascii_text (tmh_chain_id h) = true -> timestamp_ok (tmh_time h) -> tm_header_to (tm_header_of h) = Ok h.
Proof.
  intros Ha Ht. destruct h as [[vb va] ch hh ti lb a1 a2 a3 a4 a5 a6 a7 a8 a9]. unfold tm_header_to, tm_header_of.
  cbn -[toHex fromHex utf8 utf8_decode block_id_to block_id_of nanoseconds timestamp_to ascii_text timestamp_ok] in Ha, Ht |- *. rewrite block_id_back.
  repeat (rewrite fromHex_toHex; cbn -[toHex fromHex utf8 utf8_decode nanoseconds timestamp_to]). by rewrite utf8_decode_ascii, timestamp_back.
Qed.

Lemma hex_or_empty_back b : hex_or_empty (toHex b) = Ok b.
Proof.
  unfold hex_or_empty. case_bool_decide as E; [|apply fromHex_toHex]. pose proof (fromHex_toHex b) as H. rewrite E in H. by injection H as <-.
Qed.

Lemma commit_sig_back s : sig_wire_ok s -> commit_sig_to (commit_sig_of s) = Ok (canonical_sig s).
Proof.
  intros [Hf Ht]. unfold commit_sig_to, commit_sig_of, canonical_sig, toTendermintBlockIdFlag. cbn [sig_validator_address sig_signature sig_block_id_flag sig_timestamp].
  rewrite !hex_or_empty_back. cbn [mbind result_bind]. rewrite (proj2 (Z.leb_le 0 _)), (proj2 (Z.leb_le _ 3)) by lia. cbn [andb]. do 2 f_equal. case_bool_decide as Hz.
  - by rewrite Hz.
  - destruct Ht as [Ht|]; [|done]. destruct (Z.ltb_spec (nanoseconds (csg_timestamp s)) 0) as [Hl|_]; [|by apply timestamp_back].
    exfalso. destruct Ht. unfold nanoseconds in Hl. nia.
Qed.

Lemma mapR_back {A B C} (f : A -> B) (g : B -> result C) (k : A -> C) l : Forall (fun x => g (f x) = Ok (k x)) l -> mapR g (f <$> l) = Ok (k <$> l).
Proof. induction 1 as [|x l Hx _ IH]; [done|]. cbn. by rewrite Hx, IH. Qed.

Lemma commit_back c : Forall sig_wire_ok (cmt_signatures c) -> commit_to (commit_of c) = Ok (canonical_commit c).
Proof.
  intros Hs. unfold commit_to, commit_of. cbn [cm_blockId cm_signatures cm_height cm_round]. rewrite block_id_back. cbn [mbind result_bind].
  rewrite (mapR_back _ _ canonical_sig); [done|]. eapply Forall_impl; [exact Hs|]. apply commit_sig_back.
Qed.

Lemma validator_back v : validator_to (validator_of v) = Ok (canonical_validator v).
Proof.
  destruct v as [a [ed secp] p q]. unfold validator_to, validator_of, pubkey_of, canonical_validator, canonical_key. cbn [va_address va_pubkey vld_address vld_pub_key pk_ed25519 pk_secp256k1 va_votingPower va_proposerPriority].
  rewrite fromHex_toHex. cbn [mbind result_bind]. destruct ed as [[|b l]|]; cbn [fmap option_fmap option_map].
  - change (toHex []) with "". destruct secp as [s|]; cbn [fmap option_fmap option_map default]; [by rewrite fromHex_toHex|done].
  - destruct (toHex (b :: l)) as [|ch hex] eqn:E; [pose proof (fromHex_toHex (b :: l)) as H; by rewrite E in H|]. rewrite <- E, fromHex_toHex. done.
  - destruct secp as [s|]; cbn [fmap option_fmap option_map default]; [by rewrite fromHex_toHex|done].
Qed.

Lemma validator_set_back o s : validator_set_of o = Ok s -> exists vp, o = Some vp /\ validator_set_to s = Ok (canonical_set vp).
Proof.
  unfold validator_set_of. intros H. apply bind_ok in H as (vp & Ho & H). destruct o as [x|]; [|done]. injection Ho as ->.
  apply bind_ok in H as (pr & Hp & H). apply bind_ok in H as (total & Ht & [= <-]). exists vp. split; [done|]. unfold validator_set_to, canonical_set.
  cbn [vs_validators vs_proposer vs_totalVotingPower]. rewrite (mapR_back _ _ canonical_validator) by (apply Forall_true, validator_back). cbn [mbind result_bind].
  rewrite validator_back, Ht. cbn [mbind result_bind]. destruct (vls_proposer vp) as [y|]; [|done]. injection Hp as ->. done.
Qed.

Lemma canonical_set_plain s : set_plain s -> canonical_set s = s.
Proof.
  intros [Hk Ht]. unfold canonical_set. rewrite Ht. destruct s as [vs pr total]. cbn [vls_validators vls_proposer vls_total_voting_power] in *.
  assert (forall v, v ∈ vs \/ pr = Some v -> canonical_validator v = v) as Hv.
  { intros v (b & l & Hb)%Hk. destruct v as [a k p q]. cbn in Hb. subst k. done. }
  f_equal; [|destruct pr; cbn; [f_equal; apply Hv; by right|done]]. rewrite <- (list_fmap_id vs) at 2. apply list_fmap_ext. intros i v Hi. apply Hv. left. by eapply list_elem_of_lookup_2.
Qed.

(** Headers are replayed.  A header converted from protobuf and back is
    the message in canonical form, and the message itself when every key is an Ed25519
    key, the declared totals are the sums of the powers and no vote carries Go's zero
    time.  Otherwise a secp256k1 key comes back as an Ed25519 key, a total as the sum,
    and the zero time of an absent vote as the year 1970. *)
Lemma header_replayed m h : header_wire_ok m -> initializeHeader m = Ok h ->
  convertHeaderToTendermint h = Ok (canonical_header m) /\ (header_plain m -> canonical_header m = m).
Proof.
  intros [Hw1 Hw2] H. unfold initializeHeader in H. apply bind_ok in H as (sh & Hsh & H). apply bind_ok in H as (hd & Hhd & H). apply bind_ok in H as (c & Hc & H).
  apply bind_ok in H as (vals & (vp & Evp & Hv)%validator_set_back & H). apply bind_ok in H as (tr & (tp & Etp & Ht)%validator_set_back & [= <-]).
  destruct m as [osh ovs th ots]. cbn in Hsh, Hw1, Hw2, Evp, Etp |- *. subst ovs ots. destruct osh as [x|]; [|done]. injection Hsh as ->.
  destruct sh as [ohd oc]. cbn in Hhd, Hc. destruct ohd as [y|]; [|done]. injection Hhd as ->. destruct oc as [z|]; [|done]. injection Hc as ->.
  destruct (Hw1 _ _ eq_refl eq_refl) as [Ha Hti]. specialize (Hw2 _ _ eq_refl eq_refl). split.
  - unfold convertHeaderToTendermint. cbn [signedHeader sh_header sh_commit validatorSet trustedValidators trustedHeight]. rewrite tm_header_back by done.
    cbn [mbind result_bind]. rewrite commit_back by done. cbn [mbind result_bind]. rewrite Hv, Ht. cbn [mbind result_bind revisionNumber revisionHeight]. by destruct th.
  - intros [Hs Hvote]. unfold canonical_header. cbn in Hs |- *. rewrite !canonical_set_plain by (apply Hs; auto). do 4 f_equal. destruct c as [ht rd bid sigs]. unfold canonical_commit. cbn.
    f_equal. rewrite <- (list_fmap_id sigs) at 2. apply list_fmap_ext. intros i v Hi. unfold canonical_sig. rewrite bool_decide_false; [by destruct v|].
    eapply Hvote; [reflexivity|reflexivity|]. cbn. by eapply list_elem_of_lookup_2.
Qed.
