(* ===== verification/ChannelHandlersTheorems.v ===== *)
(** * The channel handlers from message to plan

    What a handler that returns has handed to the transaction runner, and what leaves a
    handler that throws. *)

From Stdlib Require Import ZArith Lia.
From S2P Require Import Prelude JsMap JsString JsJson Hex MerkleTree Datum StateRoot PacketHelpers TreeRebuild TreeServices EscrowShard Voucher Redeemers Varint ProtoCodec ProtoMessages ProtoTx ProofMessages PacketDenom PacketOps PacketOpsTheorems TxRunner MessageValidate ChannelOps OnChainDatum OnChainChannel OnChainClient ChannelOpsFacts ChannelOpsTheorems ChannelHandlers.

#[local] Open Scope Z_scope.

(** ** The validity window *)

Lemma ceil_div_spec a b : 0 < b -> a <= ceil_div a b * b < a + b.
Proof. intros Hb. unfold ceil_div. pose proof (Z.div_mod (- a) b). pose proof (Z.mod_pos_bound (- a) b Hb). lia. Qed.

(** The validity window starts at the ledger time of the tip (or up to
    [backdateMs] before it, never before the ledger's start), ends with the last
    millisecond of the slot [validToSlot], gives the transaction at least its time to
    live and at most two slots more, and never lies in the past: the handlers' check that
    it does cannot fail. *)
Lemma validity_window_bounds c tip ttl backdate : 0 < slotLength c -> 0 < ttl -> zeroSlot c <= tip ->
  let w := validity_window c tip ttl backdate in
  validFromTime w <= currentLedgerTime w <= validToTime w /\
  zeroTime c <= validFromTime w /\ currentLedgerTime w - Z.max 0 backdate <= validFromTime w /\
  zeroSlot c + (validToTime w - zeroTime c) / slotLength c = validToSlot w /\
  (validToTime w + 1 - zeroTime c) mod slotLength c = 0 /\
  ttl <= validToTime w + 1 - currentLedgerTime w < ttl + 2 * slotLength c /\ check_not_past w = Ok tt.
Proof.
  intros Hs Ht Htip w. pose proof (ceil_div_spec ttl (slotLength c) Hs) as Hc.
  assert (0 < ceil_div ttl (slotLength c)) as Hpos by nia.
  unfold w, validity_window, check_not_past; cbn. rewrite (Z.max_r 1) by lia. set (k := ceil_div ttl (slotLength c)) in *.
  assert (0 <= (tip - zeroSlot c) * slotLength c) by nia. split_and!; try nia.
  - replace (zeroTime c + (tip + k + 1 - zeroSlot c) * slotLength c - 1 - zeroTime c)
      with ((tip + k - zeroSlot c) * slotLength c + (slotLength c - 1)) by lia.
    rewrite Z.div_add_l by lia. rewrite (Z.div_small (slotLength c - 1)) by lia. lia.
  - replace (zeroTime c + (tip + k + 1 - zeroSlot c) * slotLength c - 1 + 1 - zeroTime c)
      with ((tip + k + 1 - zeroSlot c) * slotLength c) by lia. apply Z.mod_mul. lia.
  - by rewrite (proj2 (Z.ltb_ge _ _)) by lia.
Qed.

(** ** Identifiers in messages *)

Lemma remove_all_digits fuel l : forallb is_digit l = true -> (length l < fuel)%nat ->
  remove_all fuel (utf8 "channel-") l = l.
Proof.
  revert fuel. induction l as [|b l IH]; intros [|fuel] Hd Hf; cbn in Hf; try lia; [done|].
  apply andb_prop in Hd as [Hb Hd]. cbn [remove_all]. 
  assert (strip_prefix (utf8 "channel-") (b :: l) = None) as ->.
  { cbn. destruct (decide _) as [<-|]; [done|done]. }
  f_equal. apply IH; [done|lia].
Qed.

Lemma sequence_text_channel n : 0 <= n -> sequence_text ("channel-" +:+ pretty n) = pretty n.
Proof.
  intros Hn. pose proof (pretty_Z_digits n Hn) as Hd. unfold is_digits in Hd.
  assert (forallb is_digit (utf8 (pretty n)) = true) as Hd' by (by destruct (utf8 (pretty n))). clear Hd; rename Hd' into Hd.
  unfold sequence_text, CHANNEL_ID_PREFIX. change ("channel" +:+ "-") with "channel-". rewrite utf8_app.
  assert (forall fuel p l, remove_all (S fuel) p (p ++ l) = remove_all fuel p l) as Hstrip.
  { intros fuel p l. cbn [remove_all]. by rewrite (proj2 (strip_prefix_app p (p ++ l) l) eq_refl). }
  rewrite Hstrip, remove_all_digits; [apply text_utf8|done|]. unfold str_length. rewrite utf8_app, length_app. cbn. lia.
Qed.

(** ** The handshake handlers *)

Inductive handshake_msg :=
| MsgAck (m : PMsgChannelOpenAck)
| MsgConfirm (m : PMsgChannelOpenConfirm)
| MsgCloseConfirm (m : PMsgChannelCloseConfirm).

Definition msg_channel (m : handshake_msg) : string :=
  match m with MsgAck m => oa_channel_id m | MsgConfirm m => oc_channel_id m | MsgCloseConfirm m => clc_channel_id m end.
Definition msg_signer (m : handshake_msg) : string :=
  match m with MsgAck m => oa_signer m | MsgConfirm m => oc_signer m | MsgCloseConfirm m => clc_signer m end.

(** The operator the validation turns a message into. *)
Definition formatted (m : handshake_msg) : result (string * HandshakeOp) :=
  match m with
  | MsgAck m => '(a, op) ← validateAndFormatChannelOpenAckParams m; Ok (a, OpenAck op)
  | MsgConfirm m => '(a, op) ← validateAndFormatChannelOpenConfirmParams m; Ok (a, OpenConfirm op)
  | MsgCloseConfirm m => '(a, op) ← validateAndFormatChannelCloseConfirmParams m; Ok (a, CloseConfirm op)
  end.

Lemma formatted_ok m a o n : 0 <= n -> msg_channel m = "channel-" +:+ pretty n -> formatted m = Ok (a, o) ->
  a = msg_signer m /\ handshake_sequence o = pretty n.
Proof.
  intros Hn Hc H. pose proof (sequence_text_channel n Hn) as Hs.
  destruct m as [m|m|m]; cbn [formatted msg_channel msg_signer] in *; apply bind_ok in H as ([a' op] & E & H); injection H as <- <-;
    [unfold validateAndFormatChannelOpenAckParams in E|unfold validateAndFormatChannelOpenConfirmParams in E|
     unfold validateAndFormatChannelCloseConfirmParams in E];
    repeat (apply bind_ok in E as (? & _ & E)); injection E as <- <-; cbn; by rewrite Hc.
Qed.

(** ** The operation policies

    The channel script requires a mint of the message's operation policy.
    [chan_open_ack.ak] has a mint handler; [chan_open_confirm.ak] and
    [chan_close_confirm.ak] have a spend handler and [else(_) { fail }]. *)
Definition operation_policy_mint {A} (o : HandshakeOp) (redeemer : SpendChannelRedeemer) (callback : IBCModuleCallback A) (channel_id : bytes)
    (connection : ConnectionEnd) (client : ClientDatumState) (tx_valid_to : Z) (proof_redeemer : option VerifyProofRedeemer)
    (d d' : ChannelDatum) : Prop :=
  match o with
  | OpenAck _ => chan_open_ack_mint redeemer callback channel_id connection client tx_valid_to proof_redeemer d d'
  | OpenConfirm _ | CloseConfirm _ => False
  end.

(** What the policy asks beyond the datums, the proof and the callback. *)
Definition ack_ready (o : HandshakeOp) (d : ChannelDatum) (connection : ConnectionEnd) (client : ClientDatumState) (tx_valid_to : Z) : Prop :=
  (exists op, o = OpenAck op) /\ message_checked o = true /\ (exists hop, ch_connection_hops (channel_end d) = [hop]) /\
  conn_state connection = ConnOpen /\ supports_ordering connection (ch_ordering (channel_end d)) = true /\
  client_active_at client tx_valid_to = true.

Lemma operation_policy_ready `{CD : ChannelDeployment} o d d' connection client channelId r vt :
  transition_ok o d d' = message_checked o -> proof_ok o r connection client (utf8 channelId) d' ->
  operation_policy_mint o (cn_redeemer (continuation o d)) (cn_callback (continuation o d) (convertString2Hex channelId))
    (utf8 channelId) connection client vt (Some r) d d' <-> ack_ready o d connection client vt.
Proof.
  unfold ack_ready, channel_end. destruct o as [op|op|op]; cbn [transition_ok proof_ok operation_policy_mint];
    intros Ht Hp; [|split; [done|]; by intros [[? ?] _]..].
  assert (convertString2Hex channelId = hex_encode (utf8 channelId)) as Hx by (unfold convertString2Hex; by case_decide as E; [rewrite E|]).
  cbn [continuation ack_continuation cn_redeemer cn_callback]. unfold chan_open_ack_mint. rewrite Ht, Hx. destruct (ch_connection_hops _) as [|hop [|? ?]].
  - split; [done|]. by intros (_ & _ & [? ?] & _).
  - split; [intros (? & ? & ? & _ & ? & _); eauto 8|by intros (_ & ? & _ & ? & ? & ?)].
  - split; [done|]. by intros (_ & _ & [? ?] & _).
Qed.

Section handlers.
Context `{SHA : Sha256} `{L : Lucid} `{CV : ChainView} `{BL : Blake2b} `{S3 : Sha3}.
Context `{EV : EscrowEnv} `{DP : Deployment} `{PE : PacketEnv} `{CD : ChannelDeployment} `{LG : Ledger}.
Context (run : TxOperationPlan BuiltTx -> M hstate bytes).

Definition handle (m : handshake_msg) : M hstate MsgResponse :=
  match m with MsgAck m => channelOpenAck run m | MsgConfirm m => channelOpenConfirm run m | MsgCloseConfirm m => channelCloseConfirm run m end.

Lemma handler_error_ok {A} (m : M hstate A) s a s' : handler_error m s = (Ok a, s') -> m s = (Ok a, s').
Proof. unfold handler_error, try_catch. destruct (m s) as [[x|e] s1]; [done|]. by destruct e. Qed.

Lemma on_tree_state_ok {A} (m : M gstate A) s a s' : on_tree_state m s = (Ok a, s') -> m s.1 = (Ok a, s'.1) /\ s'.2 = s.2.
Proof. unfold on_tree_state. destruct (m s.1) as [r g]. by intros [= -> <-]. Qed.

Lemma refresh_ok address context s u s' : refreshWalletContext address context s = (Ok u, s') -> s'.1 = s.1.
Proof.
  unfold refreshWalletContext, on_wallet. destruct (wallet_utxos address); [done|]. destruct (selectWalletFromAddress _ _ _); [|done].
  by intros [= _ <-].
Qed.

Lemma window_ok w : computeTxValidityWindow = Ok w -> exists c t, slotConfig = Some c /\ 0 < slotLength c /\ network_tip = Ok t /\
  w = validity_window c t TRANSACTION_TIME_TO_LIVE 0.
Proof.
  unfold computeTxValidityWindow. destruct slotConfig as [c|]; [|done]. destruct (Z.leb_spec (slotLength c) 0); [done|].
  unfold computeLedgerAnchoredValidityWindow. rewrite (proj2 (Z.leb_gt _ _)) by done. intros (t & Ht & [= <-])%bind_ok. by exists c, t.
Qed.

(** A handler that returns has run this plan. *)
Definition plan_of (addr : string) (tx : ChannelTx) (p : PendingTreeUpdate) (plan : TxOperationPlan BuiltTx) : Prop :=
  exists name w events, computeTxValidityWindow = Ok w /\
    plan = channel_plan name addr tx (Some (validFromTime w)) (validToTime w) (Some p) events.

Lemma handle_ok m s resp s' : handle m s = (Ok resp, s') ->
  exists addr o tx p plan s1, formatted m = Ok (addr, o) /\ run_handshake o s.1 = (Ok (tx, p), s1.1) /\ plan_of addr tx p plan /\
    run plan s1 = (Ok (unsigned_tx resp), s').
Proof.
  destruct m as [m|m|m]; cbn [handle formatted]; unfold channelOpenAck, channelOpenConfirm, channelCloseConfirm; intros H%handler_error_ok;
    inv_prog H; apply mret_ok in H as [-> ->]; cbn [unsigned_tx].
  all: repeat match goal with
    | E : validateAndFormatChannelOpenAckParams _ = _ |- _ => rewrite E; clear E
    | E : validateAndFormatChannelOpenConfirmParams _ = _ |- _ => rewrite E; clear E
    | E : validateAndFormatChannelCloseConfirmParams _ = _ |- _ => rewrite E; clear E
    | E : refreshWalletContext _ _ _ = _ |- _ => apply refresh_ok in E
    | E : on_tree_state _ _ = _ |- _ => apply on_tree_state_ok in E as [E _]
    end.
  all: do 6 eexists; (split; [reflexivity|]); (split; [|split; [by do 3 eexists|eassumption]]); cbn [run_handshake].
  - unfold mbind at 1, M_bind at 1. 
    match goal with E : buildUnsignedChannelOpenAckTx _ _ = _, E' : _.1 = s.1 |- _ => rewrite <- E', E end. reflexivity.
  - match goal with E : _.1 = s.1 |- _ => by rewrite <- E end.
  - done.
Qed.

(** C7 (refinement): from message to transaction.  When the handler of an open-ack,
    open-confirm or close-confirm message for channel [n] returns, it has run a plan for
    the signer's wallet whose transaction carries: an output datum that is the
    transition the message's script expects of the datum spent (of an open ack, exactly
    when the counterparty's channel identifier is well formed, which the Gateway does
    not check), the spend redeemer and the module callback of the message, and the very
    proof redeemer that script recomputes from the connection, the client's consensus
    state at the proof height and the output datum, down to the protobuf bytes of the
    counterparty's channel end.  The plan's pending tree update is the one computed for
    that transaction.  The checks which the policy whose mint the channel script
    requires makes of the datums, the redeemers, the connection and the client pass
    exactly when the message is an open ack with a well-formed identifier, the channel
    has one hop, its connection is open with one version that supports the ordering, and
    the client is active at the end of the validity interval: the policies of the two
    confirms have no mint handler and refuse every transaction. *)
Theorem handshake_message_accepted msg n cx kx s resp s' :
  let d := cx_channelDatum cx in
  let channelId := "channel-" +:+ pretty n in
  let connection := cnd_state (kx_connectionDatum kx) in
  let client := cld_state (kx_clientDatum kx) in
  0 <= n -> msg_channel msg = channelId -> load_channel n = Ok cx -> load_client d = Ok kx ->
  channel_sound d -> connection_sound connection -> ascii_id channelId ->
  (forall a o, formatted msg = Ok (a, o) -> message_sound o) ->
  handle msg s = (Ok resp, s') ->
  exists o tx p plan s1 d' enc r vp,
    formatted msg = Ok (msg_signer msg, o) /\ plan_of (msg_signer msg) tx p plan /\ run plan s1 = (Ok (unsigned_tx resp), s') /\
    run_handshake o s.1 = (Ok (tx, p), s1.1) /\ pendingTreeUpdate plan (unsignedTx plan) = Some p /\
    transition_ok o d d' = message_checked o /\ ct_encodedChannelDatum tx = encodeChannelDatum d' /\
    encode_spendChannelRedeemer (cn_redeemer (continuation o d)) = Ok enc /\
    proof_ok o r connection client (utf8 channelId) d' /\
    encodeVerifyProofRedeemer r = Ok vp /\
    ct_part tx = SpendChannel (cx_channelUtxo cx) enc (cn_policy (continuation o d)) (cx_channelToken cx) (Some (verifyProofPolicyId, vp)) /\
    module_callback (convertHex2String (cd_port d)) (cn_callback (continuation o d) (convertString2Hex channelId)) =
      Ok (ct_moduleKey tx, ct_moduleUtxo tx, ct_encodedSpendModuleRedeemer tx) /\
    (forall vt, operation_policy_mint o (cn_redeemer (continuation o d)) (cn_callback (continuation o d) (convertString2Hex channelId))
       (utf8 channelId) connection client vt (Some r) d d' <-> ack_ready o d connection client vt).
Proof.
  intros d channelId connection client Hn Hc Hcx Hkx Hd Hk Hi Hm H. apply handle_ok in H as (addr & o & tx & p & plan & s1 & Hf & Hrun & Hplan & Hr).
  destruct (formatted_ok _ _ _ _ Hn Hc Hf) as [-> Hseq].
  destruct (handshake_tx_accepted o n cx kx s.1 tx p s1.1 Hseq Hcx Hkx Hd Hk (Hm _ _ Hf) Hi Hrun)
    as (d' & enc & r & vp & A1 & A2 & A3 & A4 & A5 & A6 & A7).
  exists o, tx, p, plan, s1, d', enc, r, vp. split_and!; try done; [by destruct Hplan as (? & ? & ? & _ & ->)|].
  intros vt. by apply operation_policy_ready.
Qed.

(** The exceptions that leave a handler. *)
Definition rpc_exception (e : error) : Prop := match e with JsError _ | OutOfFuel => False | _ => True end.

Lemma handler_error_rpc {A} (m : M hstate A) s e s' : handler_error m s = (Err e, s') -> rpc_exception e.
Proof. unfold handler_error, try_catch. destruct (m s) as [[x|e1] s1]; [done|]. by destruct e1; intros [= <- _]. Qed.

End handlers.
