(* ===== verification/ConnectionHandlers.v ===== *)
(** * Connection request handlers ([tx/connection.service.ts])

    A handler validates its message, selects the signer's wallet, builds the
    transaction, computes its validity window and hands a plan to the transaction
    runner.  Open ack is the only handshake that lets the runner retry: its plan has a
    builder for the next attempt and a predicate for the errors worth retrying. *)

From Stdlib Require Import ZArith Lia.
From S2P Require Import Prelude JsMap JsString ProtoCodec ProtoMessages ProtoTx ProtoConnection JsJson Hex MerkleTree Datum StateRoot PacketHelpers TreeRebuild EscrowShard Voucher TreeServices Redeemers ProofMessages PacketDenom PacketOps TxRunner MessageValidate ChannelOps ConnectionOps ChannelHandlers.

#[local] Open Scope Z_scope.

(** ** Which errors are retried ([lucid.provider.ts], [isTransientKupmiosTransportError]) *)

(** What can be read of an exception: Node's rendering of it, and the texts found in it
    and in the errors it wraps ([collectErrorSignals]). *)
Class ErrorView := { inspect : error -> string; collectErrorSignals : error -> list string }.

Fixpoint contains_bytes (l p : bytes) : bool :=
  match strip_prefix p l with
  | Some _ => true
  | None => match l with [] => false | _ :: l' => contains_bytes l' p end
  end.
(** [s.includes(p)] *)
Definition includes (s p : string) : bool := contains_bytes (utf8 s) (utf8 p).

Definition NON_RETRYABLE_RUNTIME_PROVIDER_ERROR_MARKERS : list string :=
  ["(400 post"; "http 400"; text (utf8 (quoted "code") ++ utf8 ":3010"); text (utf8 (quoted "code") ++ utf8 ":3012");
   "some scripts of the transactions terminated"; "failed to evaluate to a positive outcome"; "validationerror";
   "validator returned false"].

Definition transientMarkers : list string :=
  ["kupmioserror"; "transport error"; "requesterror"; "etimedout"; "econnreset"; "econnrefused"; "socket hang up"; "fetch failed";
   "kupo"; "/matches/"].

(** The text of a line feed. *)
Definition newline : string := text [x0a].

Section retry.
Context `{VW : ErrorView}.

Definition isNonRetryableRuntimeProviderError (e : error) : bool :=
  let normalized := join newline (toLowerCase <$> collectErrorSignals e) in
  if decide (normalized = "") then false else existsb (includes normalized) NON_RETRYABLE_RUNTIME_PROVIDER_ERROR_MARKERS.

Definition isTransientKupmiosTransportError (e : error) : bool :=
  if isNonRetryableRuntimeProviderError e then false
  else existsb (includes (toLowerCase (inspect e))) transientMarkers.
End retry.

Definition CONN_OPEN_ACK_COMPLETE_MAX_ATTEMPTS : Z := 5.
Definition CONN_OPEN_ACK_COMPLETE_BASE_DELAY_MS : Z := 1000.
Definition computeRetryDelayMs (attempt : Z) : Z := CONN_OPEN_ACK_COMPLETE_BASE_DELAY_MS * 2 ^ Z.max 0 (attempt - 1).

(** ** What a handler hands over *)

(** A built transaction with the tree update computed for it. *)
Record BuiltConnection := MkBuiltConnection {
  bc_tx : ConnectionTx; bc_from : option Z; bc_to : option Z; bc_update : PendingTreeUpdate;
}.

Definition conn_validity (from : option Z) (to : Z) (t : BuiltConnection) : result BuiltConnection :=
  Ok (MkBuiltConnection (bc_tx t) from (Some to) (bc_update t)).

Definition connection_plan (name address : string) (tx : ConnectionTx) (update : PendingTreeUpdate) (validFrom : option Z) (validTo : Z)
    (rebuild : bool) (retry : option TxCompleteRetryPolicy) (events : list GatewayEvent) : TxOperationPlan BuiltConnection :=
  MkPlan name (MkBuiltConnection tx None None update) rebuild (conn_validity validFrom validTo) (RefreshFromAddress address name) retry
    (fun _ => Some update) events.

Definition connection_event (kind connectionId clientId counterpartyClientId counterpartyConnectionId : string) : GatewayEvent :=
  MkGatewayEvent kind
    [("connection_id", connectionId); ("client_id", clientId); ("counterparty_client_id", counterpartyClientId);
     ("counterparty_connection_id", counterpartyConnectionId)].

Section handlers.
Context `{SHA : Sha256} `{L : Lucid} `{CV : ChainView} `{BL : Blake2b} `{S3 : Sha3}.
Context `{EV : EscrowEnv} `{DP : Deployment} `{PE : PacketEnv} `{LG : Ledger} `{VW : ErrorView}.
Context (run : TxOperationPlan BuiltConnection -> M hstate bytes).

Definition conn_computeTxValidityWindow : result ValidityWindow :=
  match slotConfig with
  | Some c => if slotLength c <=? 0 then Err (GrpcInternal ("connection tx failed: invalid slot configuration for network " +:+ cardanoNetwork))
              else computeLedgerAnchoredValidityWindow c network_tip TRANSACTION_TIME_TO_LIVE 0
  | None => Err (GrpcInternal ("connection tx failed: invalid slot configuration for network " +:+ cardanoNetwork))
  end.

Definition connectionOpenInit (data : PMsgConnectionOpenInit) : M hstate bytes := handler_error (
  '(constructedAddress, op) ← liftR (validateAndFormatConnectionOpenInitParams data);
  refreshWalletContext constructedAddress "connectionOpenInitBuilder" ;;
  '(tx, connectionId, update) ← on_tree_state (buildUnsignedConnectionOpenInitTx op);
  w ← liftR conn_computeTxValidityWindow;
  let cp := ci_counterparty data in
  run (connection_plan "connectionOpenInit" constructedAddress tx update None (validToTime w) false None
    [connection_event "connection_open_init" connectionId (ci_client_id data) (pcc_client_id cp) (pcc_connection_id cp)])).

Definition connectionOpenTry (data : PMsgConnectionOpenTry) : M hstate bytes := handler_error (
  '(constructedAddress, op) ← liftR (validateAndFormatConnectionOpenTryParams data);
  refreshWalletContext constructedAddress "connectionOpenTryBuilder" ;;
  '(tx, connectionId, update) ← on_tree_state (buildUnsignedConnectionOpenTryTx op);
  w ← liftR conn_computeTxValidityWindow;
  let cp := cy_counterparty data in
  run (connection_plan "connectionOpenTry" constructedAddress tx update None (validToTime w) false None
    [connection_event "connection_open_try" connectionId (cy_client_id data) (pcc_client_id cp) (pcc_connection_id cp)])).

(** [buildConnectionOpenAckAttempt]: the first attempt's window and update are kept, a
    rebuilt attempt gives only its transaction to the runner. *)
Definition buildConnectionOpenAckAttempt (op : ConnectionOpenAckOperator) : M hstate (OpenAckBuild * ValidityWindow) :=
  built ← on_tree_state (buildUnsignedConnectionOpenAckTx op);
  w ← liftR conn_computeTxValidityWindow;
  mret (built, w).

Definition open_ack_plan (address connectionId counterpartyConnectionId : string) (built : OpenAckBuild) (w : ValidityWindow)
  : TxOperationPlan BuiltConnection :=
  connection_plan "connectionOpenAck" address (ab_tx built) (ab_pending built) (Some (validFromTime w)) (validToTime w) true
    (Some (MkRetryPolicy CONN_OPEN_ACK_COMPLETE_MAX_ATTEMPTS isTransientKupmiosTransportError))
    [connection_event "connection_open_ack" connectionId (ab_clientId built) (ab_counterpartyClientId built) counterpartyConnectionId].

Definition connectionOpenAck (data : PMsgConnectionOpenAck) : M hstate bytes := handler_error (
  '(constructedAddress, op) ← liftR (validateAndFormatConnectionOpenAckParams data);
  refreshWalletContext constructedAddress "connectionOpenAckBuilder" ;;
  '(built, w) ← buildConnectionOpenAckAttempt op;
  run (open_ack_plan constructedAddress (ck_connection_id data) (ck_counterparty_connection_id data) built w)).

Definition connectionOpenConfirm (data : PMsgConnectionOpenConfirm) : M hstate bytes := handler_error (
  '(constructedAddress, op) ← liftR (validateAndFormatConnectionOpenConfirmParams data);
  refreshWalletContext constructedAddress "connectionOpenConfirmBuilder" ;;
  b ← on_tree_state (buildUnsignedConnectionOpenConfirmTx op);
  w ← liftR conn_computeTxValidityWindow;
  run (connection_plan "connectionOpenConfirm" constructedAddress (cb_tx b) (cb_pending b) None (validToTime w) false None
    [connection_event "connection_open_confirm" (cf_connection_id data) (cb_clientId b) (cb_counterpartyClientId b)
       (cb_counterpartyConnectionId b)])).

End handlers.

(** ** The connection handlers: retries

    The delays between the attempts of an open ack, and the tree update its plan
    registers when an attempt was retried. *)

#[local] Open Scope Z_scope.

Section retry.
Context `{PE : PacketEnv} `{VW : ErrorView} {CompletedTx : Type} (toHash : CompletedTx -> string).

(** The handler enters the lock, its first attempt fails with [e] in [complete], and the
    rebuilt transaction [tx2] is completed as [c]. *)
Definition retried_schedule (utxos : list UTxO) (e : error) (tx2 : BuiltConnection) (c : CompletedTx) : list (@label BuiltConnection CompletedTx) :=
  [ LEnter 0; LAcquire 0; LBody 0 (AnsRebuilt None (Ok tx2)); LBody 0 (AnsUtxos utxos); LBody 0 AnsScheduled;
    LBody 0 (AnsCompleted (Err e)); LBody 0 (AnsWaited (Ok tt)); LBody 0 (AnsRebuilt None (Ok tx2)); LBody 0 (AnsUtxos utxos);
    LBody 0 AnsScheduled; LBody 0 (AnsCompleted (Ok c)) ].

Lemma select_in_scope address a utxos n scope x y w : normalizeAddressOrCredential address = Ok a ->
  selectWalletFromAddress address utxos (MkLucidWallet n (Some scope) x y w) =
  Ok (MkLucidWallet n (Some scope) (Some scope) (Some a) (Some (a, utxos))).
Proof. intros H. unfold selectWalletFromAddress. by rewrite H. Qed.

Lemma open_ack_retries address a connectionId remoteId built w utxos e tx2 c :
  normalizeAddressOrCredential address = Ok a -> a <> "" -> utxos <> [] -> isTransientKupmiosTransportError e = true ->
  exec toHash (retried_schedule utxos e tx2 c) (start [open_ack_plan address connectionId remoteId built w]) =
  Some (MkSystem [(open_ack_plan address connectionId remoteId built w, Released (Ok (c, tx2)))] 1 2 [1; 0]%nat
          (MkLucidWallet 2 None None None (Some (a, utxos))) ([], MkTxEvents [] [])).
Proof.
  intros Ha Hne Hu He. unfold retried_schedule. destruct utxos as [|u utxos]; [done|]. destruct a as [|ch a]; [done|].
  repeat (progress (lazy -[normalizeAddressOrCredential isTransientKupmiosTransportError]; rewrite ?Ha, ?He)). reflexivity.
Qed.
(** A retried open ack registers the wrong tree update.  Whenever
    completing an open-ack transaction fails with a transport error, the runner may
    rebuild it against a newer HostState ([tx2]) and complete that; what it then
    registers under the hash of the completed transaction is the update computed for
    the first attempt, whatever update belongs to the transaction completed. *)
Lemma open_ack_retry_registers_stale_update address a connectionId remoteId built w utxos e tx2 c :
  normalizeAddressOrCredential address = Ok a -> a <> "" -> utxos <> [] -> isTransientKupmiosTransportError e = true -> toHash c <> "" ->
  let plan := open_ack_plan address connectionId remoteId built w in
  exists s1 s2, exec toHash (retried_schedule utxos e tx2 c) (start [plan]) = Some s1 /\
    tasks s1 !! 0%nat = Some (plan, Released (Ok (c, tx2))) /\
    sys_step toHash (LRegister 0) s1 = Some s2 /\ tasks s2 !! 0%nat = Some (plan, Done (Ok c)) /\
    map_get (registered s2).1 (toLowerCase (toHash c)) = Some (ab_pending built).
Proof.
  intros Ha Hne Hu He Hh plan. eexists _, _. split; [exact (open_ack_retries address a connectionId remoteId built w utxos e tx2 c Ha Hne Hu He)|].
  split_and!; [done|done|done|]. cbn [sys_step tasks lookup list_lookup mbind option_bind registered].
  unfold register_completed, plan, open_ack_plan, connection_plan. cbn [pendingTreeUpdate syntheticEvents].
  unfold register, register_events, registerByExpectedRoot. destruct (decide (toHash c = "")) as [|_]; [done|].
  destruct (decide (expectedNewRoot (ab_pending built) = "")) as [_|_]; apply map_get_set_eq.
Qed.

End retry.

(** The four waits of an open ack last fifteen seconds together. *)
Lemma retry_delays : computeRetryDelayMs <$> [1; 2; 3; 4] = [1000; 2000; 4000; 8000] /\ plan_attempts
  (MkPlan (Tx := unit) "connectionOpenAck" tt true Ok (RefreshFromAddress "" "")
     (Some (MkRetryPolicy CONN_OPEN_ACK_COMPLETE_MAX_ATTEMPTS (fun _ => true))) (fun _ => None) []) = 5.
Proof. done. Qed.
