(* ===== verification/TraceRegistry.v ===== *)
(** * The trace registry ([shared/types/trace-registry.ts], [query/services/denom-trace.service.ts])

    The registry keeps, on chain, the full denomination of every voucher: a directory
    UTxO names, for each of sixteen buckets, the shard UTxO that accepts new entries and
    the archived ones.  The Gateway reads it to answer queries and plans the insertion of
    a voucher it mints for the first time: a proof that the mapping exists, an append to
    the active shard, or a rollover to a fresh one.

    The provider, the wallet, the deployment and the collation of the host are the
    interface [RegistryEnv].  Requests that the code issues together ([Promise.all]) are
    made in order and the first failure is the one reported. *)

From Stdlib Require Import ZArith Lia.
From S2P Require Import Prelude JsMap JsString Hex MerkleTree Datum PacketHelpers TreeRebuild EscrowShard Voucher PacketDenom PacketOps ConnectionHandlers.

#[local] Open Scope Z_scope.

(** ** Data ([trace-registry.ts]) *)

Definition bucketCount : Z := 16.
Definition maxFullDenomBytes : Z := 256.
Definition maxTraceHops : Z := 8.
Definition maxEntriesPerShard : Z := 32.
Definition maxShardDatumBytes : Z := 3072.
Definition maxArchivedShardsPerBucket : Z := 8.
Definition maxDirectoryDatumBytes : Z := 6144.

Record TraceRegistryEntry := MkTraceRegistryEntry { voucher_hash : string; full_denom : string }.
Record TraceRegistryShardDatum := MkTraceRegistryShardDatum { shard_bucket_index : Z; entries : list TraceRegistryEntry }.
Record TraceRegistryDirectoryBucket := MkTraceRegistryDirectoryBucket {
  bucket_index : Z; active_shard_name : string; archived_shard_names : list string;
}.
Definition TraceRegistryDirectoryDatum : Type := list TraceRegistryDirectoryBucket.
Inductive TraceRegistryDatum := Shard (d : TraceRegistryShardDatum) | Directory (buckets : TraceRegistryDirectoryDatum).
Inductive TraceRegistryRedeemer :=
| InsertTrace (voucher_hash full_denom : string)
| RolloverInsertTrace (voucher_hash full_denom new_active_shard_name : string)
| AdvanceDirectory (bucket_index : Z) (voucher_hash full_denom previous_active_shard_name new_active_shard_name : string).

#[export] Instance TraceRegistryEntry_eq_dec : EqDecision TraceRegistryEntry.
Proof. solve_decision. Defined.
#[export] Instance TraceRegistryDirectoryBucket_eq_dec : EqDecision TraceRegistryDirectoryBucket.
Proof. solve_decision. Defined.

(** ** Codec *)

Definition expectConstr (value : option pdata) (expectedIndex : option Z) : result (Z * list pdata) :=
  match value with
  | Some (PConstr index fields) =>
      match expectedIndex with
      | Some i => if index =? i then Ok (index, fields)
                  else throw ("Unexpected trace-registry constructor index " +:+ pretty index +:+ ", expected " +:+ pretty i)
      | None => Ok (index, fields)
      end
  | _ => throw "Expected trace-registry constructor data"
  end.

Definition encodeEntry (e : TraceRegistryEntry) : pdata :=
  PConstr 0 [PBytes (voucher_hash e); PBytes (convertString2Hex (full_denom e))].
Definition decodeEntry (value : pdata) : result TraceRegistryEntry :=
  '(_, fields) ← expectConstr (Some value) (Some 0);
  match fields !! 0%nat, fields !! 1%nat with
  | Some (PBytes hash), Some (PBytes denom) => Ok (MkTraceRegistryEntry hash (convertHex2String denom))
  | _, _ => throw "Invalid trace-registry entry fields"
  end.

Definition encodeShardDatum (d : TraceRegistryShardDatum) : pdata :=
  PConstr 0 [PInt (shard_bucket_index d); PList (encodeEntry <$> entries d)].
Definition decodeShardDatum (value : option pdata) : result TraceRegistryShardDatum :=
  '(_, fields) ← expectConstr value (Some 0);
  match fields !! 0%nat, fields !! 1%nat with
  | Some (PInt i), Some (PList es) => es' ← mapR decodeEntry es; Ok (MkTraceRegistryShardDatum i es')
  | _, _ => throw "Invalid trace-registry shard datum fields"
  end.

Definition encodeDirectoryBucket (b : TraceRegistryDirectoryBucket) : pdata :=
  PConstr 0 [PInt (bucket_index b); PBytes (active_shard_name b); PList (PBytes <$> archived_shard_names b)].

(** [archived_shard_names.every((name) => typeof name === 'string')] *)
Fixpoint all_strings (l : list pdata) : option (list string) :=
  match l with
  | [] => Some []
  | PBytes s :: l' => ss ← all_strings l'; Some (s :: ss)
  | _ => None
  end.
Definition decodeDirectoryBucket (value : pdata) : result TraceRegistryDirectoryBucket :=
  '(_, fields) ← expectConstr (Some value) (Some 0);
  match fields !! 0%nat, fields !! 1%nat, fields !! 2%nat with
  | Some (PInt i), Some (PBytes active), Some (PList names) =>
      match all_strings names with
      | Some archived => Ok (MkTraceRegistryDirectoryBucket i active archived)
      | None => throw "Invalid trace-registry directory bucket fields"
      end
  | _, _, _ => throw "Invalid trace-registry directory bucket fields"
  end.

Definition encodeDirectoryDatum (d : TraceRegistryDirectoryDatum) : pdata := PConstr 0 [PList (encodeDirectoryBucket <$> d)].
Definition decodeDirectoryDatum (value : option pdata) : result TraceRegistryDirectoryDatum :=
  '(_, fields) ← expectConstr value (Some 0);
  match fields !! 0%nat with
  | Some (PList buckets) => mapR decodeDirectoryBucket buckets
  | _ => throw "Invalid trace-registry directory datum buckets"
  end.

Definition registry_datum_data (d : TraceRegistryDatum) : pdata :=
  match d with Shard s => PConstr 0 [encodeShardDatum s] | Directory b => PConstr 1 [encodeDirectoryDatum b] end.
Definition registry_redeemer_data (r : TraceRegistryRedeemer) : pdata :=
  match r with
  | InsertTrace hash denom => PConstr 0 [PBytes hash; PBytes (convertString2Hex denom)]
  | RolloverInsertTrace hash denom name => PConstr 1 [PBytes hash; PBytes (convertString2Hex denom); PBytes name]
  | AdvanceDirectory i hash denom previous name =>
      PConstr 2 [PInt i; PBytes hash; PBytes (convertString2Hex denom); PBytes previous; PBytes name]
  end.

(** ** The service's environment *)

Record TraceRegistryConfig := MkTraceRegistryConfig {
  rc_address : string; rc_shardPolicyId : string; rc_directory : option AuthToken;
}.
Record TxBudget := MkTxBudget { unsignedSizeBytes : Z; ex_memory : Z; ex_cpu : Z }.

Class RegistryEnv := {
  traceRegistry : option TraceRegistryConfig;
  mintVoucherScriptHash : string;
  utxoByUnit : string -> result UTxO;
  walletUtxos : result (list UTxO);
  maxTxSize : option Z;
  maxTxExMem : option Z;
  maxTxExSteps : option Z;
  estimateUnsignedTxBudget : PacketTx -> result TxBudget;
  localeCompare : string -> string -> Z;
}.

Record OnChainTraceEntry := MkOnChainTraceEntry {
  ot_hash : string; ot_fullDenom : string; ot_bucketIndex : Z; ot_shard : option (UTxO * string);
}.
Record LoadedBucketShard := MkLoadedBucketShard {
  ls_tokenName : string; ls_tokenUnit : string; ls_utxo : UTxO; ls_datum : TraceRegistryShardDatum;
}.
Record ResolvedDenomTrace := MkResolvedDenomTrace {
  rd_hash : string; rd_path : string; rd_base_denom : string; rd_full_denom : string; rd_voucher_token_name : string;
  rd_voucher_reference_token_name : string; rd_voucher_policy_id : string; rd_ibc_denom_hash : string;
  rd_cip68_reference_asset_id : string; rd_name : string; rd_description : string; rd_ticker : string;
  rd_metadata_version : option Z; rd_decimals : option Z; rd_url : option string; rd_logo : option string;
}.

(** [/^[0-9a-f]{56}$/i] *)
Definition is_denom_hash (s : string) : bool := (str_length s =? VOUCHER_DENOM_HASH_HEX_LENGTH)%nat && all_hex s.

Definition getBucketIndexForHash (hash : string) : result Z :=
  if is_denom_hash hash then
    match utf8 hash with
    | c :: _ => Ok (Z.of_N (default 0%N (hex_value c)))
    | [] => Ok 0
    end
  else throw ("Invalid voucher hash for trace-registry lookup: " +:+ hash).

Definition normalizeVoucherDenomHash (hashOrTokenName : string) : result string :=
  let normalized := toLowerCase (trim hashOrTokenName) in
  if decide (normalized = "") then throw "Voucher hash cannot be empty" else
  if is_denom_hash normalized then Ok normalized
  else p ← expectVoucherAssetName normalized; Ok (voucherDenomHash p).

Definition getDirectoryBucket (directory : TraceRegistryDirectoryDatum) (i : Z) : result TraceRegistryDirectoryBucket :=
  match List.find (fun b => number_of_bigint (bucket_index b) =? i) directory with
  | Some b => Ok b
  | None => throw ("Missing trace-registry directory bucket " +:+ pretty i)
  end.

Definition shard_names (b : TraceRegistryDirectoryBucket) : list string := active_shard_name b :: archived_shard_names b.

Definition isLikelyTxExecutionBudgetError (e : error) : bool :=
  existsb (includes (error_message e)) ["maximumExecutionUnits"; "providedExecutionUnits"; "execution budget"; "ExUnits"].
Definition isLikelyTxSizeError (e : error) : bool :=
  existsb (includes (toLowerCase (error_message e)))
    ["max transaction size"; "maximum transaction size"; "transaction too large"; "max tx size"; "tx too large";
     "maximum transaction size exceeded"].

Definition TRACE_REGISTRY_TX_SIZE_HEADROOM_BYTES : Z := 1024.

Section service.
Context `{L : Lucid} `{BL : Blake2b} `{SHA : Sha256} `{S3 : Sha3} `{RE : RegistryEnv}.

Definition encodeTraceRegistryDatum (d : TraceRegistryDatum) : result string := Data_to true (registry_datum_data d).
Definition decodeTraceRegistryDatum (encodedDatum : string) : result TraceRegistryDatum :=
  decoded ← Data_from encodedDatum;
  '(index, fields) ← expectConstr (Some decoded) None;
  if index =? 0 then d ← decodeShardDatum (fields !! 0%nat); Ok (Shard d)
  else if index =? 1 then d ← decodeDirectoryDatum (fields !! 0%nat); Ok (Directory d)
  else throw ("Unknown trace-registry datum constructor " +:+ pretty index).
Definition encodeTraceRegistryRedeemer (r : TraceRegistryRedeemer) : result string := Data_to true (registry_redeemer_data r).

(** ** Configuration and loading *)

Definition getTraceRegistryConfig : option (TraceRegistryConfig * AuthToken) :=
  match traceRegistry with
  | Some c => if decide (rc_address c = "") then None else directory ← rc_directory c; Some (c, directory)
  | None => None
  end.
Definition getRequiredTraceRegistryConfig : result (TraceRegistryConfig * AuthToken) :=
  match getTraceRegistryConfig with Some c => Ok c | None => throw "Trace registry deployment config is missing" end.

Definition loadDirectoryState (registry : TraceRegistryConfig * AuthToken) : result (UTxO * TraceRegistryDirectoryDatum) :=
  directoryUtxo ← utxoByUnit (policyId registry.2 +:+ token_name registry.2);
  match datum directoryUtxo with
  | None | Some "" => throw "Trace-registry directory is missing inline datum"
  | Some data =>
      decoded ← decodeTraceRegistryDatum data;
      match decoded with
      | Directory d => Ok (directoryUtxo, d)
      | Shard _ => throw "Trace-registry directory UTxO does not carry a directory datum"
      end
  end.
Definition loadDirectoryDatum (registry : TraceRegistryConfig * AuthToken) : result TraceRegistryDirectoryDatum :=
  snd <$> loadDirectoryState registry.

Definition loadShardDatumFromUtxo (shardUtxo : UTxO) (expectedBucketIndex : Z) (unit : string) : result TraceRegistryShardDatum :=
  match datum shardUtxo with
  | None | Some "" => throw ("Trace-registry shard " +:+ unit +:+ " is missing inline datum")
  | Some data =>
      decoded ← decodeTraceRegistryDatum data;
      match decoded with
      | Shard s =>
          if number_of_bigint (shard_bucket_index s) =? expectedBucketIndex then Ok s
          else throw ("Trace-registry shard datum mismatch: expected bucket " +:+ pretty expectedBucketIndex +:+
                      ", found " +:+ pretty (shard_bucket_index s))
      | Directory _ => throw ("Trace-registry shard " +:+ unit +:+ " does not carry a shard datum")
      end
  end.
Definition loadShardDatumByUnit (unit : string) (expectedBucketIndex : Z) : result TraceRegistryShardDatum :=
  shardUtxo ← utxoByUnit unit; loadShardDatumFromUtxo shardUtxo expectedBucketIndex unit.

(** The body of [loadBucketShardStates]' map. *)
Definition load_bucket_shard (registry : TraceRegistryConfig * AuthToken) (i : Z) (tokenName : string) : result LoadedBucketShard :=
  let tokenUnit := rc_shardPolicyId registry.1 +:+ tokenName in
  utxo ← utxoByUnit tokenUnit;
  datum ← loadShardDatumFromUtxo utxo i tokenUnit;
  Ok (MkLoadedBucketShard tokenName tokenUnit utxo datum).
Definition loadBucketShardStates (registry : TraceRegistryConfig * AuthToken) (i : Z) (bucket : TraceRegistryDirectoryBucket)
  : result (list LoadedBucketShard) :=
  mapR (load_bucket_shard registry i) (set_of_list (shard_names bucket)).
Definition loadBucketEntries (registry : TraceRegistryConfig * AuthToken) (bucket : TraceRegistryDirectoryBucket)
  : result (list TraceRegistryEntry) :=
  shards ← mapR (fun n => loadShardDatumByUnit (rc_shardPolicyId registry.1 +:+ n) (number_of_bigint (bucket_index bucket)))
             (set_of_list (shard_names bucket));
  Ok (shards ≫= entries).

(** ** Lookups *)

(** The entries of the loaded shards whose hash is the one asked for, with their shard. *)
Definition hash_matches (hash : string) (shards : list LoadedBucketShard) : list (TraceRegistryEntry * LoadedBucketShard) :=
  shards ≫= fun shard =>
    (fun e => (e, shard)) <$> List.filter (fun e => bool_decide (toLowerCase (voucher_hash e) = toLowerCase hash)) (entries (ls_datum shard)).

Definition find_in_directory (hash : string) (registry : TraceRegistryConfig * AuthToken) (directory : TraceRegistryDirectoryDatum)
  : result (option OnChainTraceEntry) :=
  i ← getBucketIndexForHash hash;
  bucket ← getDirectoryBucket directory i;
  bucketShards ← loadBucketShardStates registry i bucket;
  match hash_matches hash bucketShards with
  | [] => Ok None
  | [(e, shard)] => Ok (Some (MkOnChainTraceEntry (toLowerCase (voucher_hash e)) (full_denom e) i (Some (ls_utxo shard, ls_tokenName shard))))
  | _ => throw ("Duplicate trace-registry entries detected for hash " +:+ toLowerCase hash +:+ " in bucket " +:+ pretty i)
  end.
Definition findOnChainEntryByHash (hash : string) : result (option OnChainTraceEntry) :=
  registry ← getRequiredTraceRegistryConfig;
  directory ← loadDirectoryDatum registry;
  find_in_directory hash registry directory.

(** The loop over a [Set] of hashes seen. *)
Fixpoint reject_duplicates (msg : string -> string) (seen : list string) (hashes : list string) : result unit :=
  match hashes with
  | [] => Ok tt
  | h :: l => if decide (h ∈ seen) then throw (msg h) else reject_duplicates msg (set_add seen h) l
  end.

Definition bucket_entries (registry : TraceRegistryConfig * AuthToken) (bucket : TraceRegistryDirectoryBucket)
  : result (list OnChainTraceEntry) :=
  let i := number_of_bigint (bucket_index bucket) in
  shards ← loadBucketShardStates registry i bucket;
  Ok (shards ≫= fun shard => (fun e => MkOnChainTraceEntry (toLowerCase (voucher_hash e)) (full_denom e) i None) <$> entries (ls_datum shard)).
Definition findAllOnChainEntries : result (list OnChainTraceEntry) :=
  registry ← getRequiredTraceRegistryConfig;
  directory ← loadDirectoryDatum registry;
  shardEntries ← mapR (bucket_entries registry) directory;
  let all := mjoin shardEntries in
  _ ← reject_duplicates (fun h => "Duplicate trace-registry entries detected for hash " +:+ h) [] (ot_hash <$> all);
  Ok all.

(** ** Metadata of an entry *)

Definition computeIbcDenomHashFromFullDenom (fullDenom : string) : string := buildIbcDenomHashFromFullDenom fullDenom.
Definition computeVoucherHashFromFullDenom (fullDenom : string) : string := toLowerCase (buildVoucherDenomHashFromFullDenom fullDenom).
Definition getVoucherPolicyId : string := mintVoucherScriptHash.

Definition metadata_params (trace : DenomTraceParts) (hash fullDenom : string) : result BuildVoucherMetadataParams :=
  voucherTokenName ← buildVoucherUserTokenNameFromDenomHash hash;
  Ok (MkBuildVoucherMetadataParams (path trace) (baseDenom trace) fullDenom voucherTokenName getVoucherPolicyId
        (computeIbcDenomHashFromFullDenom fullDenom)).

(** [Error(message)] with the message of the error caught. *)
Definition rethrow {A} (r : result A) (msg : string -> string) : result A :=
  match r with Ok a => Ok a | Err e => throw (msg (error_message e)) end.

Definition loadExistingMappingWitness (hash fullDenom : string) : result UTxO :=
  referenceAssetId ← deriveVoucherReferenceAssetId getVoucherPolicyId hash;
  utxo ← rethrow (utxoByUnit referenceAssetId) (fun m =>
    "Existing trace-registry mapping " +:+ hash +:+ " is missing its immutable CIP-68 reference NFT " +:+ referenceAssetId +:+ ": " +:+ m);
  match datum utxo with
  | None | Some "" => throw ("Existing trace-registry mapping " +:+ hash +:+ " has no CIP-68 metadata datum")
  | Some data =>
      trace ← splitFullDenomTrace fullDenom;
      _ ← rethrow (params ← metadata_params trace hash fullDenom; decodeVerifiedVoucherCip68MetadataDatum data params)
            (fun m => "Existing trace-registry mapping " +:+ hash +:+ " has invalid CIP-68 metadata: " +:+ m);
      Ok utxo
  end.

(** The [try] block of [resolveVoucherMetadata]; every error in it is logged and dropped. *)
Definition resolveVoucherMetadata (hash fullDenom : string) : result (option Cip68VoucherMetadata) :=
  trace ← splitFullDenomTrace fullDenom;
  referenceAssetId ← deriveVoucherReferenceAssetId getVoucherPolicyId hash;
  Ok match (utxo ← utxoByUnit referenceAssetId;
            match datum utxo with
            | None | Some "" => Ok None
            | Some data => params ← metadata_params trace hash fullDenom; Some <$> decodeVerifiedVoucherCip68MetadataDatum data params
            end) with
     | Ok m => m
     | Err _ => None
     end.

Definition nonempty (o : option string) : option string := match o with Some "" => None | _ => o end.
Definition materializeTrace (hash fullDenom : string) : result ResolvedDenomTrace :=
  trace ← splitFullDenomTrace fullDenom;
  voucherTokenName ← buildVoucherUserTokenNameFromDenomHash hash;
  voucherReferenceTokenName ← buildVoucherReferenceTokenNameFromDenomHash hash;
  referenceAssetId ← deriveVoucherReferenceAssetId getVoucherPolicyId hash;
  let presentation := deriveVoucherPresentation fullDenom (baseDenom trace) in
  metadata ← resolveVoucherMetadata hash fullDenom;
  Ok {| rd_hash := toLowerCase hash; rd_path := path trace; rd_base_denom := baseDenom trace; rd_full_denom := fullDenom;
        rd_voucher_token_name := voucherTokenName; rd_voucher_reference_token_name := voucherReferenceTokenName;
        rd_voucher_policy_id := getVoucherPolicyId; rd_ibc_denom_hash := computeIbcDenomHashFromFullDenom fullDenom;
        rd_cip68_reference_asset_id := referenceAssetId;
        rd_name := default (displayName presentation) (vm_name <$> metadata);
        rd_description := default (displayDescription presentation) (vm_description <$> metadata);
        rd_ticker := default (displaySymbol presentation) (vm_ticker <$> metadata);
        rd_metadata_version := vm_version <$> metadata; rd_decimals := metadata ≫= vm_decimals;
        rd_url := nonempty (metadata ≫= vm_url); rd_logo := nonempty (metadata ≫= vm_logo) |}.

(** ** Queries *)

Definition findByHash (hash : string) : result (option ResolvedDenomTrace) :=
  normalizedHash ← normalizeVoucherDenomHash hash;
  onChainEntry ← findOnChainEntryByHash normalizedHash;
  match onChainEntry with
  | None => Ok None
  | Some e => Some <$> materializeTrace (ot_hash e) (ot_fullDenom e)
  end.

(** [Array.prototype.sort] is stable. *)
Definition trace_le (left right : ResolvedDenomTrace) : bool :=
  let c := localeCompare (rd_full_denom left) (rd_full_denom right) in
  (if c =? 0 then localeCompare (rd_hash left) (rd_hash right) else c) <=? 0.
Fixpoint insert_trace (t : ResolvedDenomTrace) (l : list ResolvedDenomTrace) : list ResolvedDenomTrace :=
  match l with
  | [] => [t]
  | t' :: l' => if trace_le t t' then t :: l else t' :: insert_trace t l'
  end.
Definition findAll (offset : option nat) : result (list ResolvedDenomTrace) :=
  es ← findAllOnChainEntries;
  traces ← mapR (fun e => materializeTrace (ot_hash e) (ot_fullDenom e)) es;
  Ok (take 100 (drop (default 0%nat offset) (foldr insert_trace [] traces))).

Definition findByIbcDenomHash (denomHash : string) : result (option ResolvedDenomTrace) :=
  onChainEntries ← findAllOnChainEntries;
  match List.find (fun e => bool_decide (computeIbcDenomHashFromFullDenom (ot_fullDenom e) = toLowerCase denomHash)) onChainEntries with
  | None => Ok None
  | Some e => Some <$> materializeTrace (ot_hash e) (ot_fullDenom e)
  end.
Definition findByBaseDenom (base : string) : result (list ResolvedDenomTrace) :=
  traces ← findAll None; Ok (List.filter (fun t => bool_decide (rd_base_denom t = base)) traces).
Definition getCount : result nat := length <$> findAllOnChainEntries.

(** ** Capacity *)

(** [encoded.length / 2] *)
Definition encoded_size (h : string) : Z := Z.of_nat (str_length h) / 2.
Definition measureShardDatumBytes (s : TraceRegistryShardDatum) : result Z := encoded_size <$> encodeTraceRegistryDatum (Shard s).
Definition measureDirectoryDatumBytes (d : TraceRegistryDirectoryDatum) : result Z := encoded_size <$> encodeTraceRegistryDatum (Directory d).

Definition count {A} (l : list A) : Z := Z.of_nat (length l).

Definition assertNewDenomWithinLimits (fullDenom : string) : result unit :=
  let fullDenomBytes := Z.of_nat (str_length fullDenom) in
  if (fullDenomBytes =? 0) || (maxFullDenomBytes <? fullDenomBytes) then
    throw ("New voucher denomination is " +:+ pretty fullDenomBytes +:+ " UTF-8 bytes; the trace-registry limit is " +:+ pretty maxFullDenomBytes)
  else
  trace ← splitFullDenomTrace fullDenom;
  let segments := if decide (path trace = "") then 0 else count (split x2f (path trace)) in
  if 2 * maxTraceHops <? segments then
    throw ("New voucher denomination has " +:+ pretty (segments / 2) +:+ " trace hops; the trace-registry limit is " +:+ pretty maxTraceHops)
  else Ok tt.

(** [/^[0-9a-f]+$/i], an even length and at most 32 bytes. *)
Definition valid_token_name (name : string) : bool :=
  is_hex_text name && Nat.even (str_length name) && (str_length name <=? 64)%nat.

(** One round of [assertDirectoryWithinCapacity]'s loop, over the indices seen. *)
Definition check_bucket (seen : list Z) (b : TraceRegistryDirectoryBucket) : result (list Z) :=
  let i := number_of_bigint (bucket_index b) in
  if (i <? 0) || (bucketCount <=? i) || bool_decide (i ∈ seen) then
    throw ("Trace-registry directory contains an invalid or duplicate bucket index " +:+ pretty i) else
  if maxArchivedShardsPerBucket <? count (archived_shard_names b) then
    throw ("Trace-registry bucket " +:+ pretty i +:+ " has " +:+ pretty (count (archived_shard_names b)) +:+
           " archived shards; the protocol limit is " +:+ pretty maxArchivedShardsPerBucket) else
  let normalizedNames := toLowerCase <$> shard_names b in
  if negb (length (set_of_list normalizedNames) =? length normalizedNames)%nat then
    throw ("Trace-registry bucket " +:+ pretty i +:+ " contains duplicate shard token names") else
  if forallb valid_token_name (shard_names b) then Ok (set_add seen i)
  else throw ("Trace-registry bucket " +:+ pretty i +:+ " contains an invalid shard token name").

Definition assertDirectoryWithinCapacity (directory : TraceRegistryDirectoryDatum) : result unit :=
  directoryBytes ← measureDirectoryDatumBytes directory;
  if bucketCount <? count directory then
    throw ("Trace-registry directory has " +:+ pretty (count directory) +:+ " buckets; the protocol limit is " +:+ pretty bucketCount) else
  if maxDirectoryDatumBytes <? directoryBytes then
    throw ("Trace-registry directory datum is " +:+ pretty directoryBytes +:+ " bytes; the protocol limit is " +:+ pretty maxDirectoryDatumBytes) else
  _ ← foldR check_bucket [] directory; Ok tt.

(** [a && b]: the size is measured only when the count fits. *)
Definition shardFitsCapacity (s : TraceRegistryShardDatum) : result bool :=
  if count (entries s) <=? maxEntriesPerShard then bytes ← measureShardDatumBytes s; Ok (bytes <=? maxShardDatumBytes) else Ok false.

Definition assertShardWithinCapacity (s : TraceRegistryShardDatum) : result unit :=
  let i := number_of_bigint (shard_bucket_index s) in
  if (i <? 0) || (bucketCount <=? i) then throw ("Trace-registry shard has invalid bucket index " +:+ pretty i) else
  datumBytes ← measureShardDatumBytes s;
  if (maxEntriesPerShard <? count (entries s)) || (maxShardDatumBytes <? datumBytes) then
    throw ("Trace-registry shard " +:+ pretty i +:+ " exceeds protocol capacity (entries=" +:+ pretty (count (entries s)) +:+ "/" +:+
           pretty maxEntriesPerShard +:+ ", datumBytes=" +:+ pretty datumBytes +:+ "/" +:+ pretty maxShardDatumBytes +:+ ")")
  else Ok tt.

(** ** Insertion *)

(** The out-ref as Plutus data, in Lucid's default encoding. *)
Definition encodeIdentifierMintRedeemer (u : UTxO) : result string :=
  Data_to false (PConstr 0 [PBytes (txHash u); PInt (outputIndex u)]).
Definition generateIdentifierTokenName (u : UTxO) : result string := hashSha3_256 <$> encodeIdentifierMintRedeemer u.

(** [walletUtxos.find(...)]: the first whose identifier is not taken; an encoding that throws ends the search. *)
Fixpoint first_fresh (reserved : list string) (l : list UTxO) : result (option UTxO) :=
  match l with
  | [] => Ok None
  | u :: l' => name ← generateIdentifierTokenName u; if decide (toLowerCase name ∈ reserved) then first_fresh reserved l' else Ok (Some u)
  end.
Definition selectUniqueIdentifierNonce (bucket : TraceRegistryDirectoryBucket) : result UTxO :=
  utxos ← walletUtxos;
  match utxos with
  | [] => throw "Trace-registry rollover requires a selected wallet with at least one spendable UTxO"
  | _ =>
      candidate ← first_fresh (toLowerCase <$> shard_names bucket) utxos;
      match candidate with
      | Some u => Ok u
      | None => throw "Unable to derive a fresh trace-registry shard identifier from the selected wallet UTxOs"
      end
  end.

Definition append_plan (directoryUtxo : UTxO) (activeShard : LoadedBucketShard) (archived : list UTxO) (hash fullDenom : string)
    (updated : TraceRegistryShardDatum) : result TraceRegistryInsertContext :=
  redeemer ← encodeTraceRegistryRedeemer (InsertTrace hash fullDenom);
  updatedDatum ← encodeTraceRegistryDatum (Shard updated);
  Ok (TraceAppend directoryUtxo (ls_utxo activeShard) archived redeemer updatedDatum).

Definition advance_bucket (i : Z) (newActive : string) (b : TraceRegistryDirectoryBucket) : TraceRegistryDirectoryBucket :=
  if number_of_bigint (bucket_index b) =? i
  then MkTraceRegistryDirectoryBucket (bucket_index b) newActive (archived_shard_names b ++ [active_shard_name b]) else b.

Definition rollover_plan (registry : TraceRegistryConfig * AuthToken) (directoryUtxo : UTxO) (directory : TraceRegistryDirectoryDatum)
    (bucket : TraceRegistryDirectoryBucket) (i : Z) (activeShard : LoadedBucketShard) (archived : list UTxO) (hash fullDenom : string)
  : result TraceRegistryInsertContext :=
  if maxArchivedShardsPerBucket <=? count (archived_shard_names bucket) then
    throw ("Trace-registry bucket " +:+ pretty i +:+ " has reached its admission limit (" +:+ pretty maxArchivedShardsPerBucket +:+
           " archived shards); new denominations in this bucket cannot be registered, but existing vouchers remain usable") else
  nonceUtxo ← selectUniqueIdentifierNonce bucket;
  newActiveShardName ← generateIdentifierTokenName nonceUtxo;
  let updatedDirectory := advance_bucket i newActiveShardName <$> directory in
  _ ← assertDirectoryWithinCapacity updatedDirectory;
  let newActiveDatum := MkTraceRegistryShardDatum i [MkTraceRegistryEntry hash fullDenom] in
  _ ← assertShardWithinCapacity newActiveDatum;
  directoryRedeemer ← encodeTraceRegistryRedeemer (AdvanceDirectory i hash fullDenom (active_shard_name bucket) newActiveShardName);
  updatedDirectoryDatum ← encodeTraceRegistryDatum (Directory updatedDirectory);
  redeemer ← encodeTraceRegistryRedeemer (RolloverInsertTrace hash fullDenom newActiveShardName);
  archivedDatum ← encodeTraceRegistryDatum (Shard (ls_datum activeShard));
  newDatum ← encodeTraceRegistryDatum (Shard newActiveDatum);
  mintRedeemer ← encodeIdentifierMintRedeemer nonceUtxo;
  Ok (TraceRollover directoryUtxo (ls_utxo activeShard) archived nonceUtxo directoryRedeemer updatedDirectoryDatum redeemer archivedDatum
        newDatum (rc_shardPolicyId registry.1 +:+ newActiveShardName) mintRedeemer).

Definition rollover_too_early : string :=
  "Trace-registry rollover was requested before the active shard reached its protocol capacity; the append transaction exceeded a ledger budget below the configured safe bound".

(** A hash with no entry. *)
Definition insert_new (registry : TraceRegistryConfig * AuthToken) (directoryUtxo : UTxO) (directory : TraceRegistryDirectoryDatum)
    (hash fullDenom : string) (forceRollover : bool) : result TraceRegistryInsertContext :=
  _ ← assertNewDenomWithinLimits fullDenom;
  _ ← assertDirectoryWithinCapacity directory;
  i ← getBucketIndexForHash hash;
  bucket ← getDirectoryBucket directory i;
  bucketShards ← loadBucketShardStates registry i bucket;
  match List.find (fun s => bool_decide (ls_tokenName s = active_shard_name bucket)) bucketShards with
  | None => throw ("Active trace-registry shard " +:+ active_shard_name bucket +:+ " is missing for bucket " +:+ pretty i)
  | Some activeShard =>
      _ ← mapR (fun s => assertShardWithinCapacity (ls_datum s)) bucketShards;
      let archived := ls_utxo <$> List.filter (fun s => negb (bool_decide (ls_tokenName s = active_shard_name bucket))) bucketShards in
      let updated := MkTraceRegistryShardDatum (shard_bucket_index (ls_datum activeShard))
                       (entries (ls_datum activeShard) ++ [MkTraceRegistryEntry hash fullDenom]) in
      fits ← shardFitsCapacity updated;
      if fits : bool then
        if forceRollover then throw rollover_too_early
        else append_plan directoryUtxo activeShard archived hash fullDenom updated
      else rollover_plan registry directoryUtxo directory bucket i activeShard archived hash fullDenom
  end.

Definition prepareOnChainInsert (hash fullDenom : string) (forceRollover : bool) : result TraceRegistryInsertContext :=
  let normalizedHash := toLowerCase hash in
  registry ← getRequiredTraceRegistryConfig;
  '(directoryUtxo, directory) ← loadDirectoryState registry;
  existing ← find_in_directory normalizedHash registry directory;
  match existing with
  | Some e =>
      if decide (ot_fullDenom e <> fullDenom) then
        throw ("Conflicting on-chain denom trace for hash " +:+ normalizedHash +:+ ": existing=" +:+ ot_fullDenom e +:+ ", incoming=" +:+ fullDenom)
      else mappingWitness ← loadExistingMappingWitness normalizedHash fullDenom; Ok (TraceExisting [mappingWitness])
  | None => insert_new registry directoryUtxo directory normalizedHash fullDenom forceRollover
  end.

Definition getMaxTxSize : Z := default 16384 maxTxSize.

Definition shouldRolloverForUnsignedTx (unsignedTx : PacketTx) : result bool :=
  let mem := number_of_bigint (default 0 maxTxExMem) in
  let steps := number_of_bigint (default 0 maxTxExSteps) in
  match estimateUnsignedTxBudget unsignedTx with
  | Ok budget =>
      let exceedsTxSize := getMaxTxSize - TRACE_REGISTRY_TX_SIZE_HEADROOM_BYTES <=? unsignedSizeBytes budget in
      let exceedsExecutionUnits := ((0 <? mem) && (mem <=? ex_memory budget)) || ((0 <? steps) && (steps <=? ex_cpu budget)) in
      Ok (exceedsTxSize || exceedsExecutionUnits)
  | Err e => if isLikelyTxSizeError e || isLikelyTxExecutionBudgetError e then Ok true else Err e
  end.

(** ** Statistics and the growth simulation *)

Record TraceRegistryShardStats := MkShardStats {
  st_tokenName : string; st_tokenUnit : string; st_entryCount : Z; st_datumBytes : Z; st_isActive : bool;
}.
Record TraceRegistryBucketStats := MkBucketStats {
  bs_bucketIndex : Z; bs_activeShardName : string; bs_shardCount : Z; bs_rolloverCount : Z; bs_totalEntries : Z;
  bs_activeShardEntryCount : Z; bs_activeShardDatumBytes : Z; bs_shards : list TraceRegistryShardStats;
}.
Record TraceRegistrySummary := MkSummary {
  sm_maxTxSize : Z; sm_txHeadroomBytes : Z; sm_projectedMaxShardDatumBytesUpperBound : Z; sm_totalEntries : Z;
  sm_buckets : list TraceRegistryBucketStats;
}.
Record TraceRegistrySimulationSample := MkSample {
  sa_step : Z; sa_voucherHash : string; sa_fullDenom : string; sa_rolledOver : bool; sa_activeShardSequence : Z;
  sa_activeShardEntryCount : Z; sa_activeShardDatumBytes : Z;
}.

Definition sum_of {A} (f : A -> Z) (l : list A) : Z := fold_left (fun sum a => sum + f a) l 0.

Definition shard_stats (bucket : TraceRegistryDirectoryBucket) (s : LoadedBucketShard) : result TraceRegistryShardStats :=
  datumBytes ← measureShardDatumBytes (ls_datum s);
  Ok (MkShardStats (ls_tokenName s) (ls_tokenUnit s) (count (entries (ls_datum s))) datumBytes
        (bool_decide (ls_tokenName s = active_shard_name bucket))).
Definition buildBucketStats (registry : TraceRegistryConfig * AuthToken) (bucket : TraceRegistryDirectoryBucket) : result TraceRegistryBucketStats :=
  let i := number_of_bigint (bucket_index bucket) in
  loadedShards ← loadBucketShardStates registry i bucket;
  _ ← reject_duplicates (fun h => "Duplicate trace-registry entries detected for hash " +:+ h +:+ " in bucket " +:+ pretty i) []
        (loadedShards ≫= fun s => (fun e => toLowerCase (voucher_hash e)) <$> entries (ls_datum s));
  shards ← mapR (shard_stats bucket) loadedShards;
  match List.find st_isActive shards with
  | None => throw ("Missing active trace-registry shard for bucket " +:+ pretty (bucket_index bucket))
  | Some activeShard =>
      Ok (MkBucketStats i (active_shard_name bucket) (count loadedShards) (count (archived_shard_names bucket)) (sum_of st_entryCount shards)
            (st_entryCount activeShard) (st_datumBytes activeShard) shards)
  end.

Fixpoint insert_stats (b : TraceRegistryBucketStats) (l : list TraceRegistryBucketStats) : list TraceRegistryBucketStats :=
  match l with
  | [] => [b]
  | b' :: l' => if bs_bucketIndex b - bs_bucketIndex b' <=? 0 then b :: l else b' :: insert_stats b l'
  end.
Definition getProjectedMaxShardDatumBytesUpperBound : Z := maxShardDatumBytes.
Definition getSummary : result TraceRegistrySummary :=
  match getTraceRegistryConfig with
  | None => throw "Trace registry is not configured in deployment config"
  | Some registry =>
      directory ← loadDirectoryDatum registry;
      buckets ← mapR (buildBucketStats registry) directory;
      Ok (MkSummary getMaxTxSize TRACE_REGISTRY_TX_SIZE_HEADROOM_BYTES getProjectedMaxShardDatumBytesUpperBound
            (sum_of bs_totalEntries buckets) (foldr insert_stats [] buckets))
  end.

(** The [while (true)] search for a denomination of the bucket; [None] when [fuel] attempts find none. *)
Fixpoint synthetic_search (fuel : nat) (i step attempt : Z) (seen : list string) : result (option (string * string)) :=
  match fuel with
  | O => Ok None
  | S fuel' =>
      let fullDenom := "transfer/channel-" +:+ pretty i +:+ "/denom-registry-benchmark-" +:+ pretty step +:+ "-" +:+ pretty attempt in
      let voucherHash := computeVoucherHashFromFullDenom fullDenom in
      j ← getBucketIndexForHash voucherHash;
      if (j =? i) && negb (bool_decide (voucherHash ∈ seen)) then Ok (Some (voucherHash, fullDenom))
      else synthetic_search fuel' i step (attempt + 1) seen
  end.
Definition buildSyntheticTraceForBucket (fuel : nat) (i step : Z) (seen : list string) : result (option (string * string)) :=
  synthetic_search fuel i step 0 seen.

Record growth := MkGrowth {
  gr_rollovers : Z; gr_admitted : Z; gr_exhausted : option Z; gr_entries : list TraceRegistryEntry; gr_seen : list string;
  gr_samples : list TraceRegistrySimulationSample;
}.

(** One insertion of the simulation; [None] as above. *)
Definition growth_step (fuel : nat) (i simulatedInserts rolloverCount : Z) (g : growth) (step : Z) : result (option growth) :=
  synthetic ← buildSyntheticTraceForBucket fuel i step (gr_seen g);
  match synthetic with
  | None => Ok None
  | Some (hash, denom) =>
      let e := MkTraceRegistryEntry hash denom in
      let appended := gr_entries g ++ [e] in
      appendedBytes ← measureShardDatumBytes (MkTraceRegistryShardDatum i appended);
      let overflows := (maxEntriesPerShard <? count appended) || (getProjectedMaxShardDatumBytesUpperBound <? appendedBytes) in
      if overflows && (maxArchivedShardsPerBucket <=? rolloverCount + gr_rollovers g) then
        Ok (Some (MkGrowth (gr_rollovers g) (gr_admitted g) (Some step) (gr_entries g) (gr_seen g) (gr_samples g)))
      else
        let rolledOver := overflows in
        let rollovers := if rolledOver then gr_rollovers g + 1 else gr_rollovers g in
        let active := if rolledOver then [e] else appended in
        bytes ← (if rolledOver then measureShardDatumBytes (MkTraceRegistryShardDatum i active) else Ok appendedBytes);
        let samples :=
          if (count (gr_samples g) <? 5) || rolledOver || (step =? simulatedInserts)
          then gr_samples g ++ [MkSample step hash denom rolledOver rollovers (count active) bytes] else gr_samples g in
        Ok (Some (MkGrowth rollovers (gr_admitted g + 1) None active (set_add (gr_seen g) hash) samples))
  end.

(** The [for] loop, from [step] on, until the bucket admits no more. *)
Fixpoint growth_loop (fuel n : nat) (i simulatedInserts rolloverCount : Z) (g : growth) (step : Z) : result (option growth) :=
  match n with
  | O => Ok (Some g)
  | S n' =>
      o ← growth_step fuel i simulatedInserts rolloverCount g step;
      match o with
      | None => Ok None
      | Some g' => match gr_exhausted g' with Some _ => Ok (Some g') | None => growth_loop fuel n' i simulatedInserts rolloverCount g' (step + 1) end
      end
  end.

Record TraceRegistryBucketGrowthSimulation := MkSimulation {
  si_bucketIndex : Z; si_simulatedInserts : Z; si_admittedInserts : Z; si_firstRejectedStep : option Z; si_projectedRollovers : Z;
  si_initialBucket : TraceRegistryBucketStats; si_totalEntries : Z; si_shardCount : Z; si_rolloverCount : Z; si_activeShardSequence : Z;
  si_activeShardEntryCount : Z; si_activeShardDatumBytes : Z; si_sampleInserts : list TraceRegistrySimulationSample; si_maxTxSize : Z;
}.

(** [admissionExhausted] holds exactly when there is a first rejected step, and the sequence of the active
    shard counts the projected rollovers.  Arguments that are no integers are refused with the others. *)
Definition simulateBucketGrowth (fuel : nat) (i simulatedInserts : Z) : result (option TraceRegistryBucketGrowthSimulation) :=
  if (i <? 0) || (15 <? i) then throw ("Trace-registry bucket index must be between 0 and 15, received " +:+ pretty i) else
  if simulatedInserts <? 0 then throw ("simulatedInserts must be a non-negative integer, received " +:+ pretty simulatedInserts) else
  match getTraceRegistryConfig with
  | None => throw "Trace registry is not configured in deployment config"
  | Some registry =>
      summary ← getSummary;
      match List.find (fun b => bs_bucketIndex b =? i) (sm_buckets summary) with
      | None => throw ("Missing trace-registry bucket " +:+ pretty i)
      | Some initialBucket =>
          directory ← loadDirectoryDatum registry;
          bucket ← getDirectoryBucket directory i;
          activeShard ← loadShardDatumByUnit (rc_shardPolicyId registry.1 +:+ active_shard_name bucket) i;
          allEntries ← loadBucketEntries registry bucket;
          o ← growth_loop fuel (Z.to_nat simulatedInserts) i simulatedInserts (bs_rolloverCount initialBucket)
                (MkGrowth 0 0 None (entries activeShard) (set_of_list ((fun e => toLowerCase (voucher_hash e)) <$> allEntries)) []) 1;
          match o with
          | None => Ok None
          | Some g =>
              bytes ← measureShardDatumBytes (MkTraceRegistryShardDatum i (gr_entries g));
              Ok (Some (MkSimulation i simulatedInserts (gr_admitted g) (gr_exhausted g) (gr_rollovers g) initialBucket
                          (bs_totalEntries initialBucket + gr_admitted g) (bs_shardCount initialBucket + gr_rollovers g)
                          (bs_rolloverCount initialBucket + gr_rollovers g) (gr_rollovers g) (count (gr_entries g)) bytes (gr_samples g)
                          (sm_maxTxSize summary)))
          end
      end
  end.

End service.
