(* ===== verification/OnChainRegistry.v ===== *)
(** * The registry's validator ([lib/ibc/apps/transfer/trace_registry.ak], [validators/trace_registry.ak])

    What the chain checks of a transaction that spends a shard or the directory of the
    trace registry, and the ledger it runs on.  As in the other on-chain files a byte
    string is its hexadecimal text, decoded where a check looks at the bytes; a script
    that fails does not accept, so failure is [None] where it aborts a search and [false]
    inside a conjunction.  [cbor.serialise] is Plutus' [serialiseData], written out
    below: lists and constructor fields of indefinite length unless empty, byte strings
    over 64 bytes in chunks. *)

From Stdlib Require Import ZArith Lia.
From stdpp Require Import sets.
From S2P Require Import Prelude JsMap JsString Hex MerkleTree Datum PacketHelpers OnChainProto TreeRebuild EscrowShard Voucher PacketDenom PacketOps TxAssembly OnChainChannel OnChainTransfer TraceRegistry.

#[local] Open Scope Z_scope.

(** ** [serialiseData] *)

Definition cbor_head (major n : N) : bytes :=
  let m := (32 * major)%N in
  if (n <? 24)%N then [byte_of_N (m + n)]
  else if (n <? 256)%N then byte_of_N (m + 24) :: be_of_N 1 n
  else if (n <? 65536)%N then byte_of_N (m + 25) :: be_of_N 2 n
  else if (n <? 4294967296)%N then byte_of_N (m + 26) :: be_of_N 4 n
  else byte_of_N (m + 27) :: be_of_N 8 n.

Fixpoint chunks (fuel : nat) (b : bytes) : bytes :=
  match fuel, b with
  | S fuel', _ :: _ => cbor_head 2 (N.of_nat (length (take 64 b))) ++ take 64 b ++ chunks fuel' (drop 64 b)
  | _, _ => []
  end.
Definition serialise_bytes (b : bytes) : bytes :=
  if (length b <=? 64)%nat then cbor_head 2 (N.of_nat (length b)) ++ b else x5f :: chunks (length b) b ++ [xff].

(** The bytes of a natural number, without leading zeros. *)
Definition nat_bytes (n : N) : bytes := be_of_N (N.to_nat ((N.size n + 7) / 8)) n.
Definition serialise_int (z : Z) : bytes :=
  if (0 <=? z) && (z <? 2 ^ 64) then cbor_head 0 (Z.to_N z)
  else if (z <? 0) && (- 2 ^ 64 <=? z) then cbor_head 1 (Z.to_N (- 1 - z))
  else if 0 <=? z then xc2 :: serialise_bytes (nat_bytes (Z.to_N z))
  else xc3 :: serialise_bytes (nat_bytes (Z.to_N (- 1 - z))).

Definition serialise_list (l : list bytes) : bytes := match l with [] => [x80] | _ => x9f :: mjoin l ++ [xff] end.

Fixpoint serialise (d : pdata) : bytes :=
  match d with
  | PInt z => serialise_int z
  | PBytes h => serialise_bytes (raw h)
  | PList l => serialise_list (serialise <$> l)
  | PConstr i l =>
      let fields := serialise_list (serialise <$> l) in
      if (0 <=? i) && (i <? 7) then cbor_head 6 (Z.to_N (121 + i)) ++ fields
      else if (7 <=? i) && (i <? 128) then cbor_head 6 (Z.to_N (1280 + (i - 7))) ++ fields
      else cbor_head 6 102 ++ cbor_head 4 2 ++ serialise_int i ++ fields
  | PMap l => cbor_head 5 (N.of_nat (length l)) ++ mjoin ((fun kv => serialise kv.1 ++ serialise kv.2) <$> l)
  | PUndefined => []
  end.

(** ** Data ([trace_registry.ak]); a directory is the Gateway's *)

Record registry_entry := MkEntry { e_hash : string; e_denom : string }.
Record registry_shard := MkShard { s_bucket_index : Z; s_entries : list registry_entry }.
Inductive registry_datum := RShard (s : registry_shard) | RDirectory (d : TraceRegistryDirectoryDatum).
Inductive registry_redeemer :=
| RInsertTrace (voucher_hash full_denom : string)
| RRolloverInsertTrace (voucher_hash full_denom new_active_shard_name : string)
| RAdvanceDirectory (bucket_index : Z) (voucher_hash full_denom previous_active_shard_name new_active_shard_name : string).

#[export] Instance registry_entry_eq_dec : EqDecision registry_entry.
Proof. solve_decision. Defined.
#[export] Instance registry_shard_eq_dec : EqDecision registry_shard.
Proof. solve_decision. Defined.

(** Casting data to a type: constructor and number of fields must match. *)
Definition as_entry (d : pdata) : option registry_entry :=
  match d with PConstr 0 [PBytes h; PBytes f] => Some (MkEntry h f) | _ => None end.
Definition as_shard (d : pdata) : option registry_shard :=
  match d with PConstr 0 [PInt i; PList l] => es ← mapM as_entry l; Some (MkShard i es) | _ => None end.
Definition as_bucket (d : pdata) : option TraceRegistryDirectoryBucket :=
  match d with
  | PConstr 0 [PInt i; PBytes a; PList l] => names ← all_strings l; Some (MkTraceRegistryDirectoryBucket i a names)
  | _ => None
  end.
Definition as_directory (d : pdata) : option TraceRegistryDirectoryDatum :=
  match d with PConstr 0 [PList l] => mapM as_bucket l | _ => None end.
Definition as_registry_datum (d : pdata) : option registry_datum :=
  match d with
  | PConstr 0 [s] => RShard <$> as_shard s
  | PConstr 1 [b] => RDirectory <$> as_directory b
  | _ => None
  end.
Definition as_registry_redeemer (d : pdata) : option registry_redeemer :=
  match d with
  | PConstr 0 [PBytes h; PBytes f] => Some (RInsertTrace h f)
  | PConstr 1 [PBytes h; PBytes f; PBytes n] => Some (RRolloverInsertTrace h f n)
  | PConstr 2 [PInt i; PBytes h; PBytes f; PBytes p; PBytes n] => Some (RAdvanceDirectory i h f p n)
  | _ => None
  end.

Definition entry_data (e : registry_entry) : pdata := PConstr 0 [PBytes (e_hash e); PBytes (e_denom e)].
Definition shard_data (s : registry_shard) : pdata := PConstr 0 [PInt (s_bucket_index s); PList (entry_data <$> s_entries s)].

(** ** Limits *)

Definition bucket_index_for_hash (voucher_hash : string) : option Z :=
  match raw voucher_hash with b :: _ => Some (Z.of_N (Byte.to_N b) / 16) | [] => None end.

Definition is_valid_channel_id (id : bytes) : bool := bool_decide (take 8 id = utf8 "channel-") && is_uint_string (drop 8 id).

Definition join_segments (segments : list bytes) : bytes :=
  fold_left (fun acc segment => match acc with [] => segment | _ => acc ++ [x2f] ++ segment end) segments [].

Fixpoint do_split_full_denom_trace (segments reversed_path_segments : list bytes) : option (bytes * bytes) :=
  match segments with
  | [] => None
  | [base_denom] => Some (join_segments (reverse reversed_path_segments), base_denom)
  | maybe_port :: maybe_channel :: rest =>
      if is_valid_channel_id maybe_channel then do_split_full_denom_trace rest (maybe_channel :: maybe_port :: reversed_path_segments)
      else Some (join_segments (reverse reversed_path_segments), join_segments segments)
  end.
Definition split_full_denom_trace (full_denom : bytes) : option (bytes * bytes) :=
  let normalized := trim_space full_denom in
  if decide (normalized = []) then None else
  let segments := split_go x2f [] normalized in
  if decide ([] ∈ segments) then None else do_split_full_denom_trace segments [].

Definition full_denom_is_within_limits (full_denom : string) : bool :=
  let n := blen (raw full_denom) in
  if (n =? 0) || (maxFullDenomBytes <? n) then false else
  match split_full_denom_trace (raw full_denom) with
  | Some (path, _) => (if decide (path = []) then 0 else count (split_go x2f [] path) / 2) <=? maxTraceHops
  | None => false
  end.

Definition valid_shard_name (name : string) : bool := (0 <? blen (raw name)) && (blen (raw name) <=? 32).

Fixpoint bytearrays_are_unique (values : list string) : bool :=
  match values with [] => true | v :: rest => negb (bool_decide (v ∈ rest)) && bytearrays_are_unique rest end.

Definition directory_bucket_is_within_capacity (b : TraceRegistryDirectoryBucket) : bool :=
  (0 <=? bucket_index b) && (bucket_index b <? bucketCount) && valid_shard_name (active_shard_name b) &&
  (count (archived_shard_names b) <=? maxArchivedShardsPerBucket) && forallb valid_shard_name (archived_shard_names b) &&
  negb (bool_decide (active_shard_name b ∈ archived_shard_names b)) && bytearrays_are_unique (archived_shard_names b).

Definition find_bucket (buckets : TraceRegistryDirectoryDatum) (i : Z) : option TraceRegistryDirectoryBucket :=
  List.find (fun b => bucket_index b =? i) buckets.

Fixpoint bucket_indices_are_unique (buckets : TraceRegistryDirectoryDatum) : bool :=
  match buckets with
  | [] => true
  | b :: rest => match find_bucket rest (bucket_index b) with None => bucket_indices_are_unique rest | Some _ => false end
  end.

Definition shard_is_within_capacity (s : registry_shard) : bool :=
  (0 <=? s_bucket_index s) && (s_bucket_index s <? bucketCount) && (count (s_entries s) <=? maxEntriesPerShard) &&
  (blen (serialise (PConstr 0 [shard_data s])) <=? maxShardDatumBytes).
Definition directory_is_within_capacity (d : TraceRegistryDirectoryDatum) : bool :=
  (count d <=? bucketCount) && (blen (serialise (registry_datum_data (Directory d))) <=? maxDirectoryDatumBytes) &&
  forallb directory_bucket_is_within_capacity d && bucket_indices_are_unique d.

(** ** The transaction a script sees *)

Record ScriptTx := MkScriptTx {
  stx_inputs : list (UTxO * option string);
  stx_reference_inputs : list UTxO;
  stx_outputs : list TxOutput;
  stx_mint : string -> Z;
}.

(** The registered names of a policy in a value ([dict.keys(assets.tokens(value, policy))]). *)
Definition tokens (v : Assets) (policy : string) : list string :=
  omap (fun unit => if amount v unit =? 0 then None else text <$> strip_prefix (utf8 policy) (utf8 unit)) (map_keys v).

(** [assets.without_lovelace(value) == assets.from_asset(policy, name, 1)] *)
Definition has_only_token (v : Assets) (unit : string) : bool :=
  (amount v unit =? 1) && forallb (fun u => bool_decide (u = unit) || bool_decide (u = "lovelace") || (amount v u =? 0)) (map_keys v).

(** [expect [x] = list.filter(l, p)] with a predicate that may fail. *)
Fixpoint filterO {A} (p : A -> option bool) (l : list A) : option (list A) :=
  match l with
  | [] => Some []
  | a :: l' => b ← p a; rest ← filterO p l'; Some (if b : bool then a :: rest else rest)
  end.
Definition find_unique {A} (p : A -> option bool) (l : list A) : option A :=
  match filterO p l with Some [a] => Some a | _ => None end.

Section validator.
Context `{L : Lucid} `{BL : Blake2b} `{UA : UtxoAddress}.
Context (shard_nft_policy_id : string) (directory_auth_token : AuthToken) (voucher_minting_policy_id benchmark_voucher_minting_policy_id : string).

Definition voucher_denom_hash (full_denom : string) : string := hex_encode (blake2b224 (raw full_denom)).

Definition entry_is_admissible (e : registry_entry) : bool :=
  (blen (raw (e_hash e)) =? 28) && full_denom_is_within_limits (e_denom e) && bool_decide (voucher_denom_hash (e_denom e) = e_hash e).

(** The inline datum of an output, cast to the registry's type. *)
Definition registry_datum_of (o : TxOutput) : option registry_datum :=
  data ← out_datum o;
  match Data_from data with Ok d => as_registry_datum d | Err _ => None end.
Definition shard_of (o : TxOutput) : option registry_shard := d ← registry_datum_of o; match d with RShard s => Some s | RDirectory _ => None end.
Definition directory_of (o : TxOutput) : option TraceRegistryDirectoryDatum :=
  d ← registry_datum_of o; match d with RDirectory b => Some b | RShard _ => None end.

Definition shard_unit (name : string) : string := shard_nft_policy_id +:+ name.
Definition directory_unit : string := policyId directory_auth_token +:+ token_name directory_auth_token.

Definition expect_single_registry_token (o : TxOutput) : option string :=
  match tokens (out_assets o) shard_nft_policy_id with [name] => Some name | _ => None end.

(** Whether an output at the address carries the token only; when it does its datum must cast. *)
Definition output_matches (address unit : string) (o : TxOutput) : bool :=
  bool_decide (out_address o = address) && has_only_token (out_assets o) unit.
Definition is_directory_output (address : string) (o : TxOutput) : option bool :=
  if output_matches address directory_unit o then
    d ← registry_datum_of o; Some match d with RDirectory _ => true | RShard _ => false end
  else Some false.
Definition is_shard_output (address unit : string) (o : TxOutput) : option bool :=
  if output_matches address unit o then
    d ← registry_datum_of o; Some match d with RShard _ => true | RDirectory _ => false end
  else Some false.

Definition find_unique_directory_input (inputs : list UTxO) (address : string) : option TraceRegistryDirectoryDatum :=
  i ← find_unique (fun u => is_directory_output address (located u)) inputs; directory_of (located i).
Definition find_unique_shard_input (inputs : list UTxO) (address unit : string) : option registry_shard :=
  i ← find_unique (fun u => is_shard_output address unit (located u)) inputs; shard_of (located i).
Definition find_shard_output (outputs : list TxOutput) (address unit : string) : option registry_shard :=
  o ← find_unique (fun o => Some (output_matches address unit o)) outputs; shard_of o.
Definition find_directory_output (outputs : list TxOutput) (address : string) : option TraceRegistryDirectoryDatum :=
  o ← find_unique (is_directory_output address) outputs; directory_of o.

Definition matching_voucher_mint_present (mint : string -> Z) (voucher_hash : string) : bool :=
  ((blen (raw voucher_hash) =? 28) && (0 <? mint (voucher_minting_policy_id +:+ CIP67_FT_LABEL_HEX +:+ voucher_hash))) ||
  ((0 <? blen (raw benchmark_voucher_minting_policy_id)) && (0 <? mint (benchmark_voucher_minting_policy_id +:+ voucher_hash))).

Definition lacks_hash (voucher_hash : string) (l : list registry_entry) : bool :=
  match List.find (fun e => bool_decide (e_hash e = voucher_hash)) l with None => true | Some _ => false end.

Definition bucket_shards_do_not_contain_hash (reference_inputs : list UTxO) (address : string) (names : list string) (voucher_hash : string) : bool :=
  (count names <=? maxArchivedShardsPerBucket) &&
  forallb (fun name =>
    match find_unique_shard_input reference_inputs address (shard_unit name) with
    | Some s => bool_decide (bucket_index_for_hash voucher_hash = Some (s_bucket_index s)) && shard_is_within_capacity s &&
                lacks_hash voucher_hash (s_entries s)
    | None => false
    end) names.

Definition bucket_has_active_shard (d : TraceRegistryDirectoryDatum) (i : Z) (name : string) : bool :=
  match find_bucket d i with Some b => bool_decide (active_shard_name b = name) | None => false end.

Fixpoint do_bucket_indices_are_unique (remaining : TraceRegistryDirectoryDatum) (seen : list Z) : bool :=
  match remaining with
  | [] => true
  | b :: rest => negb (bool_decide (bucket_index b ∈ seen)) && do_bucket_indices_are_unique rest (bucket_index b :: seen)
  end.

Definition directory_rollover_matches (old updated : TraceRegistryDirectoryDatum) (i : Z) (previous new : string) : bool :=
  do_bucket_indices_are_unique old [] && do_bucket_indices_are_unique updated [] && (length old =? length updated)%nat &&
  forallb (fun ob =>
    match find_bucket updated (bucket_index ob) with
    | Some ub =>
        if bucket_index ob =? i then
          bool_decide (active_shard_name ob = previous) && bool_decide (active_shard_name ub = new) &&
          bool_decide (archived_shard_names ub = archived_shard_names ob ++ [previous])
        else bool_decide (ub = ob)
    | None => false
    end) old &&
  forallb (fun ub => match find_bucket old (bucket_index ub) with Some _ => true | None => false end) updated.

(** The part of a conjunction that may also fail. *)
Definition accepts (b : option bool) : bool := match b with Some true => true | _ => false end.

Definition validate_insert_trace (old : registry_shard) (voucher_hash full_denom : string) (spent_output : TxOutput) (tx : ScriptTx) : bool :=
  accepts (
    let entry := MkEntry voucher_hash full_denom in
    if negb ((blen (raw voucher_hash) =? 28) && full_denom_is_within_limits full_denom && entry_is_admissible entry) then None else
    name ← expect_single_registry_token spent_output;
    directory ← find_unique_directory_input (stx_reference_inputs tx) (out_address spent_output);
    if negb (directory_is_within_capacity directory) then None else
    bucket ← find_bucket directory (s_bucket_index old);
    updated ← find_shard_output (stx_outputs tx) (out_address spent_output) (shard_unit name);
    Some ((s_bucket_index updated =? s_bucket_index old) &&
          bool_decide (bucket_index_for_hash voucher_hash = Some (s_bucket_index old)) &&
          bucket_has_active_shard directory (s_bucket_index old) name &&
          bool_decide (voucher_denom_hash full_denom = voucher_hash) &&
          matching_voucher_mint_present (stx_mint tx) voucher_hash &&
          lacks_hash voucher_hash (s_entries old) &&
          bucket_shards_do_not_contain_hash (stx_reference_inputs tx) (out_address spent_output) (archived_shard_names bucket) voucher_hash &&
          bool_decide (s_entries updated = s_entries old ++ [entry]) &&
          shard_is_within_capacity updated)).

Definition validate_rollover_insert_trace (old : registry_shard) (voucher_hash full_denom new_active_shard_name : string)
    (spent_output : TxOutput) (tx : ScriptTx) : bool :=
  accepts (
    let entry := MkEntry voucher_hash full_denom in
    if negb ((blen (raw voucher_hash) =? 28) && full_denom_is_within_limits full_denom && (0 <? blen (raw new_active_shard_name)) &&
             entry_is_admissible entry) then None else
    name ← expect_single_registry_token spent_output;
    old_directory ← find_unique_directory_input ((stx_inputs tx).*1) (out_address spent_output);
    if negb (directory_is_within_capacity old_directory) then None else
    bucket ← find_bucket old_directory (s_bucket_index old);
    archived ← find_shard_output (stx_outputs tx) (out_address spent_output) (shard_unit name);
    new_active ← find_shard_output (stx_outputs tx) (out_address spent_output) (shard_unit new_active_shard_name);
    updated_directory ← find_directory_output (stx_outputs tx) (out_address spent_output);
    if negb (directory_is_within_capacity updated_directory) then None else
    Some (bool_decide (bucket_index_for_hash voucher_hash = Some (s_bucket_index old)) &&
          bucket_has_active_shard old_directory (s_bucket_index old) name &&
          bool_decide (voucher_denom_hash full_denom = voucher_hash) &&
          matching_voucher_mint_present (stx_mint tx) voucher_hash &&
          (stx_mint tx (shard_unit new_active_shard_name) =? 1) &&
          lacks_hash voucher_hash (s_entries old) &&
          shard_is_within_capacity old &&
          negb (shard_is_within_capacity (MkShard (s_bucket_index old) (s_entries old ++ [entry]))) &&
          bucket_shards_do_not_contain_hash (stx_reference_inputs tx) (out_address spent_output) (archived_shard_names bucket) voucher_hash &&
          bool_decide (archived = old) &&
          bool_decide (new_active = MkShard (s_bucket_index old) [entry]) &&
          shard_is_within_capacity new_active &&
          directory_rollover_matches old_directory updated_directory (s_bucket_index old) name new_active_shard_name)).

Definition validate_advance_directory (old_directory : TraceRegistryDirectoryDatum) (i : Z)
    (voucher_hash full_denom previous new : string) (spent_output : TxOutput) (tx : ScriptTx) : bool :=
  accepts (
    let entry := MkEntry voucher_hash full_denom in
    if negb ((blen (raw voucher_hash) =? 28) && full_denom_is_within_limits full_denom && (0 <? blen (raw previous)) && (0 <? blen (raw new)))
    then None else
    updated_directory ← find_directory_output (stx_outputs tx) (out_address spent_output);
    if negb (directory_is_within_capacity old_directory && directory_is_within_capacity updated_directory) then None else
    archived ← find_shard_output (stx_outputs tx) (out_address spent_output) (shard_unit previous);
    new_active ← find_shard_output (stx_outputs tx) (out_address spent_output) (shard_unit new);
    if negb (entry_is_admissible entry) then None else
    bucket ← find_bucket old_directory i;
    Some (has_only_token (out_assets spent_output) directory_unit &&
          bool_decide (bucket_index_for_hash voucher_hash = Some i) &&
          bool_decide (voucher_denom_hash full_denom = voucher_hash) &&
          matching_voucher_mint_present (stx_mint tx) voucher_hash &&
          (stx_mint tx (shard_unit new) =? 1) &&
          directory_rollover_matches old_directory updated_directory i previous new &&
          (s_bucket_index archived =? i) &&
          lacks_hash voucher_hash (s_entries archived) &&
          shard_is_within_capacity archived &&
          negb (shard_is_within_capacity (MkShard i (s_entries archived ++ [entry]))) &&
          bucket_shards_do_not_contain_hash (stx_reference_inputs tx) (out_address spent_output) (archived_shard_names bucket) voucher_hash &&
          bool_decide (new_active = MkShard i [entry]) &&
          shard_is_within_capacity new_active)).

(** [spend]: the datum and the redeemer cast to their types. *)
Definition spend_trace_registry (u : UTxO) (redeemer : option string) (tx : ScriptTx) : bool :=
  accepts (
    d ← registry_datum_of (located u);
    data ← redeemer;
    r ← match Data_from data with Ok d => as_registry_redeemer d | Err _ => None end;
    Some match d, r with
         | RShard old, RInsertTrace hash denom => validate_insert_trace old hash denom (located u) tx
         | RShard old, RRolloverInsertTrace hash denom new => validate_rollover_insert_trace old hash denom new (located u) tx
         | RDirectory old, RAdvanceDirectory i hash denom previous new => validate_advance_directory old i hash denom previous new (located u) tx
         | _, _ => false
         end).

End validator.

(** ** The ledger

    A ledger is its unspent outputs and the out-refs spent so far.  A transaction
    replaces its inputs by outputs with fresh out-refs; its reference inputs are unspent
    outputs it does not spend; every input at the registry's address runs the registry's
    script; tokens of the shard policy are minted only by [minting_identifier.ak], one at
    a time, under the hash of an out-ref the transaction spends. *)

Definition out_ref : Type := (string * Z)%type.
Definition ref_of (u : UTxO) : out_ref := (txHash u, outputIndex u).

Record ledger := MkLedger { live : list UTxO; retired : list out_ref }.

Definition held (unit : string) (l : list UTxO) : Z := foldr (fun u n => amount (assets u) unit + n) 0 l.

Section ledger.
Context `{L : Lucid} `{BL : Blake2b} `{S3 : Sha3} `{UA : UtxoAddress}.
Context (registry_address shard_nft_policy_id directory_name voucher_minting_policy_id benchmark_voucher_minting_policy_id : string).

Definition identifier (r : out_ref) : string := hex_encode (sha3_256 (serialise (PConstr 0 [PBytes r.1; PInt r.2]))).

Definition spend := spend_trace_registry shard_nft_policy_id (MkAuthToken shard_nft_policy_id directory_name)
  voucher_minting_policy_id benchmark_voucher_minting_policy_id.
Definition unit_of (name : string) : string := shard_unit shard_nft_policy_id name.

(** [mint_auth_token]: the policy's minted tokens are one token of one name. *)
Definition mint_identifier (r : out_ref) (mint : string -> Z) : Prop :=
  forall name, mint (unit_of name) = if decide (name = identifier r) then 1 else 0.

Inductive ledger_step (G : ledger) (tx : ScriptTx) (G' : ledger) : Prop :=
| Ledger_step (rest created : list UTxO)
    (Hlive : live G ≡ₚ (stx_inputs tx).*1 ++ rest)
    (Hrefs : forall u, u ∈ stx_reference_inputs tx -> u ∈ rest)
    (Houtputs : stx_outputs tx = located <$> created)
    (Hfresh : NoDup (ref_of <$> created))
    (Hnew : forall u, u ∈ created -> ref_of u ∉ ref_of <$> live G /\ ref_of u ∉ retired G)
    (Hpositive : forall u x, u ∈ created -> 0 <= amount (assets u) x)
    (Hbalance : forall name, held (unit_of name) created = held (unit_of name) (stx_inputs tx).*1 + stx_mint tx (unit_of name))
    (Hscripts : forall u r, (u, r) ∈ stx_inputs tx -> utxo_address u = registry_address -> spend u r tx = true)
    (Hmint : (forall name, stx_mint tx (unit_of name) = 0) \/
             exists nonce, nonce ∈ (stx_inputs tx).*1 /\ mint_identifier (ref_of nonce) (stx_mint tx) /\
                           forall r, r ∈ retired G -> identifier r = identifier (ref_of nonce) -> r = ref_of nonce)
    (Hlive' : live G' = created ++ rest)
    (Hretired : retired G' = (ref_of <$> (stx_inputs tx).*1) ++ retired G).

Inductive ledger_steps (G : ledger) : ledger -> Prop :=
| steps_refl : ledger_steps G G
| steps_step G1 tx G2 : ledger_steps G G1 -> ledger_step G1 tx G2 -> ledger_steps G G2.

(** ** What the registry holds *)

Definition holds (G : ledger) (name : string) (s : registry_shard) : Prop :=
  exists u, u ∈ live G /\ output_matches registry_address (unit_of name) (located u) = true /\ shard_of (located u) = Some s.
Definition directory_at (G : ledger) (d : TraceRegistryDirectoryDatum) : Prop :=
  exists u, u ∈ live G /\ output_matches registry_address (unit_of directory_name) (located u) = true /\ directory_of (located u) = Some d.
Definition registered (G : ledger) (e : registry_entry) : Prop :=
  exists d b name s, directory_at G d /\ b ∈ d /\ name ∈ shard_names b /\ holds G name s /\ e ∈ s_entries s.

(** The ledger's own invariant: out-refs are used once, quantities are not negative, a
    shard token exists at most once and comes from a spent out-ref. *)
Record ledger_ok (G : ledger) : Prop := {
  lo_refs : NoDup (ref_of <$> live G);
  lo_retired u : u ∈ live G -> ref_of u ∉ retired G;
  lo_positive u x : u ∈ live G -> 0 <= amount (assets u) x;
  lo_single name : held (unit_of name) (live G) <= 1;
  lo_minted name : 0 < held (unit_of name) (live G) -> exists r, r ∈ retired G /\ name = identifier r;
}.

(** The shards of a bucket, in the order of its names. *)
Record bucket_ok (G : ledger) (b : TraceRegistryDirectoryBucket) (ss : list registry_shard) : Prop := {
  bo_holds : Forall2 (holds G) (shard_names b) ss;
  bo_shards s : s ∈ ss -> s_bucket_index s = bucket_index b /\ shard_is_within_capacity s = true;
  bo_unique : NoDup (e_hash <$> (ss ≫= s_entries));
  bo_entries e : e ∈ ss ≫= s_entries -> entry_is_admissible e = true /\ bucket_index_for_hash (e_hash e) = Some (bucket_index b);
}.
Record registry_ok (G : ledger) : Prop := {
  ro_ledger : ledger_ok G;
  ro_directory : exists d, directory_at G d /\ directory_is_within_capacity d = true /\ forall b, b ∈ d -> exists ss, bucket_ok G b ss;
}.

End ledger.

(** ** Counting tokens *)

Lemma held_cons x u l : held x (u :: l) = amount (assets u) x + held x l.
Proof. done. Qed.
Lemma held_app x l1 l2 : held x (l1 ++ l2) = held x l1 + held x l2.
Proof. induction l1 as [|u l1 IH]; cbn [app]; rewrite ?held_cons; [done|lia]. Qed.
#[export] Instance held_perm x : Proper ((≡ₚ) ==> (=)) (held x).
Proof. induction 1; rewrite ?held_cons in *; lia. Qed.
Lemma held_nonneg x l : (forall u, u ∈ l -> 0 <= amount (assets u) x) -> 0 <= held x l.
Proof. induction l as [|u l IH]; [done|]. rewrite held_cons. intros H. pose proof (H u ltac:(set_solver)). specialize (IH ltac:(set_solver)). lia. Qed.
Lemma held_member x l u : (forall v, v ∈ l -> 0 <= amount (assets v) x) -> u ∈ l -> amount (assets u) x <= held x l.
Proof.
  intros Hp (l1 & l2 & ->)%list_elem_of_split. rewrite held_app, held_cons.
  pose proof (held_nonneg x l1 ltac:(set_solver)). pose proof (held_nonneg x l2 ltac:(set_solver)). lia.
Qed.

(** One token has one holder. *)
Lemma one_holder x l u v : (forall w, w ∈ l -> 0 <= amount (assets w) x) -> held x l <= 1 ->
  u ∈ l -> v ∈ l -> amount (assets u) x = 1 -> amount (assets v) x = 1 -> u = v.
Proof.
  intros Hp Hone (l1 & l2 & ->)%list_elem_of_split Hv Eu Ev. rewrite held_app, held_cons in Hone.
  assert (v = u \/ v ∈ l1 ++ l2) as [->|Hv'] by set_solver; [done|].
  pose proof (held_member x (l1 ++ l2) v ltac:(set_solver) Hv'). rewrite held_app in *. lia.
Qed.

Lemma find_unique_spec {A} (p : A -> option bool) l a : find_unique p l = Some a -> a ∈ l /\ p a = Some true.
Proof.
  unfold find_unique. destruct (filterO p l) as [[|b [|]]|] eqn:E; try done. intros [= ->].
  cut (forall k, filterO p l = Some k -> forall b, b ∈ k -> b ∈ l /\ p b = Some true); [intros H; apply (H _ E); set_solver|].
  clear E. induction l as [|c l IH]; cbn.
  { intros k [= <-] b Hb. set_solver. }
  intros k H b Hb. destruct (p c) as [v|] eqn:Ec; [|done]. cbn in H. destruct (filterO p l) as [k'|]; [|done]. cbn in H.
  injection H as <-. specialize (IH _ eq_refl). destruct v; [|set_solver]. apply elem_of_cons in Hb as [->|Hb]; [set_solver|]. set_solver.
Qed.

Lemma accepts_true o : accepts o = true -> o = Some true.
Proof. by destruct o as [[]|]. Qed.

Section facts.
Context `{L : Lucid} `{BL : Blake2b} `{S3 : Sha3} `{UA : UtxoAddress}.
Context (registry_address shard_nft_policy_id directory_name voucher_minting_policy_id benchmark_voucher_minting_policy_id : string).

#[local] Abbreviation A := registry_address.
#[local] Abbreviation token := (unit_of shard_nft_policy_id).
#[local] Abbreviation step := (ledger_step A shard_nft_policy_id directory_name voucher_minting_policy_id benchmark_voucher_minting_policy_id).
#[local] Abbreviation ok := (registry_ok A shard_nft_policy_id directory_name).
#[local] Abbreviation holds := (holds A shard_nft_policy_id).
#[local] Abbreviation directory_at := (directory_at A shard_nft_policy_id directory_name).
#[local] Abbreviation registered := (registered A shard_nft_policy_id directory_name).
#[local] Abbreviation dir_token := (MkAuthToken shard_nft_policy_id directory_name).

Lemma matches_spec x o : output_matches A x o = true -> out_address o = A /\ amount (out_assets o) x = 1.
Proof. unfold output_matches, has_only_token. rewrite !andb_true_iff, bool_decide_eq_true, Z.eqb_eq. tauto. Qed.

(** The single shard token of an output that holds a shard token is that token. *)
Lemma single_token o name name' : expect_single_registry_token shard_nft_policy_id o = Some name ->
  amount (out_assets o) (token name') = 1 -> name' = name.
Proof.
  unfold expect_single_registry_token. intros H Ha.
  assert (name' ∈ tokens (out_assets o) shard_nft_policy_id) as Hin.
  { unfold tokens. apply list_elem_of_omap. exists (token name'). split.
    - apply map_get_is_Some. unfold amount in Ha. destruct (map_get _ _); [eauto|done].
    - rewrite Ha. cbn. unfold unit_of, shard_unit. rewrite utf8_app, (proj2 (strip_prefix_app _ _ _) eq_refl). cbn. by rewrite text_utf8. }
  destruct (tokens _ _) as [|n [|]]; try done. injection H as <-. set_solver.
Qed.

Lemma find_bucket_spec d i b : find_bucket d i = Some b -> b ∈ d /\ bucket_index b = i.
Proof. intros [H1 H2%Z.eqb_eq]%find_some. by rewrite list_elem_of_In. Qed.

Lemma find_bucket_in d b : bucket_indices_are_unique d = true -> b ∈ d -> find_bucket d (bucket_index b) = Some b.
Proof.
  unfold find_bucket. induction d as [|c d IH]; cbn [bucket_indices_are_unique List.find]; [set_solver|]. unfold find_bucket.
  destruct (List.find (fun b0 => bucket_index b0 =? bucket_index c) d) eqn:E; [done|]. intros Hu [->|Hb]%elem_of_cons; [by rewrite Z.eqb_refl|].
  destruct (bucket_index c =? bucket_index b) eqn:Ec; [|auto]. exfalso. apply Z.eqb_eq in Ec.
  eapply List.find_none in E; [|by apply list_elem_of_In, Hb]. cbn in E. lia.
Qed.

Lemma capacity_unique d : directory_is_within_capacity d = true -> bucket_indices_are_unique d = true.
Proof. unfold directory_is_within_capacity. rewrite !andb_true_iff. tauto. Qed.

(** What [directory_rollover_matches] says of the bucket it changes and of the others. *)
Lemma rollover_bucket d d2 i p n b : directory_rollover_matches d d2 i p n = true -> b ∈ d -> bucket_index b = i ->
  active_shard_name b = p /\ exists ub, find_bucket d2 i = Some ub /\ active_shard_name ub = n /\ archived_shard_names ub = archived_shard_names b ++ [p].
Proof.
  unfold directory_rollover_matches. rewrite !andb_true_iff. intros [[_ H] _] Hb <-.
  rewrite forallb_forall in H. specialize (H b ltac:(by apply list_elem_of_In)). destruct (find_bucket d2 _) as [ub|]; [|done].
  rewrite Z.eqb_refl, !andb_true_iff, !bool_decide_eq_true in H. destruct H as [[H1 H2] H3]. eauto.
Qed.
Lemma rollover_other d d2 i p n b : directory_rollover_matches d d2 i p n = true -> b ∈ d -> bucket_index b <> i ->
  find_bucket d2 (bucket_index b) = Some b.
Proof.
  unfold directory_rollover_matches. rewrite !andb_true_iff. intros [[_ H] _] Hb Hne.
  rewrite forallb_forall in H. specialize (H b ltac:(by apply list_elem_of_In)). destruct (find_bucket d2 _) as [ub|]; [|done].
  apply Z.eqb_neq in Hne. rewrite Hne, bool_decide_eq_true in H. by subst.
Qed.
Lemma rollover_back d d2 i p n ub : directory_rollover_matches d d2 i p n = true -> ub ∈ d2 -> exists b, find_bucket d (bucket_index ub) = Some b.
Proof.
  unfold directory_rollover_matches. rewrite !andb_true_iff. intros [_ H] Hb.
  rewrite forallb_forall in H. specialize (H ub ltac:(by apply list_elem_of_In)). destruct (find_bucket d _); [eauto|done].
Qed.

End facts.

(** ** What an accepted spend says *)

Ltac inv_accepts H :=
  apply accepts_true in H; cbn zeta in H;
  repeat match type of H with
  | (if negb ?b then None else _) = Some _ => let E := fresh "Hguard" in destruct b eqn:E; [cbn [negb] in H|discriminate H]
  | mbind _ ?o = Some _ => let x := fresh "x" in let E := fresh "Hread" in destruct o as [x|] eqn:E; [cbn [mbind option_bind] in H|discriminate H]
  end; apply (inj Some) in H.

Section accepted.
Context `{L : Lucid} `{BL : Blake2b} `{UA : UtxoAddress} (policy : string) (dir : AuthToken) (voucher benchmark : string).

Record insert_accepted (old : registry_shard) (h f : string) (o : TxOutput) (tx : ScriptTx) (name : string)
    (d : TraceRegistryDirectoryDatum) (b : TraceRegistryDirectoryBucket) (s : registry_shard) : Prop := {
  ia_entry : entry_is_admissible (MkEntry h f) = true;
  ia_name : expect_single_registry_token policy o = Some name;
  ia_directory : find_unique_directory_input dir (stx_reference_inputs tx) (out_address o) = Some d;
  ia_bucket : find_bucket d (s_bucket_index old) = Some b;
  ia_output : find_shard_output (stx_outputs tx) (out_address o) (shard_unit policy name) = Some s;
  ia_index : s_bucket_index s = s_bucket_index old;
  ia_hash : bucket_index_for_hash h = Some (s_bucket_index old);
  ia_active : active_shard_name b = name;
  ia_new : lacks_hash h (s_entries old) = true;
  ia_archived : bucket_shards_do_not_contain_hash policy (stx_reference_inputs tx) (out_address o) (archived_shard_names b) h = true;
  ia_entries : s_entries s = s_entries old ++ [MkEntry h f];
  ia_capacity : shard_is_within_capacity s = true;
}.
Lemma insert_inv old h f o tx : validate_insert_trace policy dir voucher benchmark old h f o tx = true ->
  exists name d b s, insert_accepted old h f o tx name d b s.
Proof.
  unfold validate_insert_trace. intros H. inv_accepts H.
  rewrite !andb_true_iff, ?bool_decide_eq_true, ?Z.eqb_eq in *. destruct_and!.
  match goal with Hb : bucket_has_active_shard _ _ _ = true |- _ => unfold bucket_has_active_shard in Hb end.
  case_match; simplify_eq. rewrite bool_decide_eq_true in *. do 4 eexists. split; eassumption.
Qed.

Record rollover_accepted (old : registry_shard) (h f new : string) (o : TxOutput) (tx : ScriptTx) (name : string)
    (d d2 : TraceRegistryDirectoryDatum) (b : TraceRegistryDirectoryBucket) : Prop := {
  ra_name : expect_single_registry_token policy o = Some name;
  ra_directory : find_unique_directory_input dir (stx_inputs tx).*1 (out_address o) = Some d;
  ra_updated : find_directory_output dir (stx_outputs tx) (out_address o) = Some d2;
  ra_bucket : find_bucket d (s_bucket_index old) = Some b;
  ra_active : active_shard_name b = name;
  ra_archived : find_shard_output (stx_outputs tx) (out_address o) (shard_unit policy name) = Some old;
  ra_matches : directory_rollover_matches d d2 (s_bucket_index old) name new = true;
}.
Lemma rollover_inv old h f new o tx : validate_rollover_insert_trace policy dir voucher benchmark old h f new o tx = true ->
  exists name d d2 b, rollover_accepted old h f new o tx name d d2 b.
Proof.
  unfold validate_rollover_insert_trace. intros H. inv_accepts H.
  rewrite !andb_true_iff, ?bool_decide_eq_true, ?Z.eqb_eq in *. destruct_and!. subst.
  match goal with Hb : bucket_has_active_shard _ _ _ = true |- _ => unfold bucket_has_active_shard in Hb end.
  case_match; simplify_eq. rewrite bool_decide_eq_true in *. do 4 eexists. split; eassumption.
Qed.

Record advance_accepted (d : TraceRegistryDirectoryDatum) (i : Z) (h f prev new : string) (o : TxOutput) (tx : ScriptTx)
    (d2 : TraceRegistryDirectoryDatum) (b : TraceRegistryDirectoryBucket) (s : registry_shard) : Prop := {
  aa_entry : entry_is_admissible (MkEntry h f) = true;
  aa_updated : find_directory_output dir (stx_outputs tx) (out_address o) = Some d2;
  aa_capacity : directory_is_within_capacity d2 = true;
  aa_archived : find_shard_output (stx_outputs tx) (out_address o) (shard_unit policy prev) = Some s;
  aa_new : find_shard_output (stx_outputs tx) (out_address o) (shard_unit policy new) = Some (MkShard i [MkEntry h f]);
  aa_bucket : find_bucket d i = Some b;
  aa_hash : bucket_index_for_hash h = Some i;
  aa_matches : directory_rollover_matches d d2 i prev new = true;
  aa_fresh : lacks_hash h (s_entries s) = true;
  aa_clean : bucket_shards_do_not_contain_hash policy (stx_reference_inputs tx) (out_address o) (archived_shard_names b) h = true;
  aa_fits : shard_is_within_capacity (MkShard i [MkEntry h f]) = true;
}.
Lemma advance_inv d i h f prev new o tx : validate_advance_directory policy dir voucher benchmark d i h f prev new o tx = true ->
  exists d2 b s, advance_accepted d i h f prev new o tx d2 b s.
Proof.
  unfold validate_advance_directory. intros H. inv_accepts H.
  rewrite !andb_true_iff, ?bool_decide_eq_true, ?Z.eqb_eq in *. destruct_and!. subst.
  do 3 eexists. split; eassumption.
Qed.

(** A spend is one of the three. *)
Lemma spend_shard_inv u r tx s : spend_trace_registry policy dir voucher benchmark u r tx = true -> shard_of (located u) = Some s ->
  (exists h f name d b s', insert_accepted s h f (located u) tx name d b s') \/
  (exists h f new name d d2 b, rollover_accepted s h f new (located u) tx name d d2 b).
Proof.
  unfold spend_trace_registry, shard_of. intros H Hs. inv_accepts H. cbn in Hs. destruct x as [old|]; [|done]. injection Hs as <-.
  destruct x1; [left|right|done].
  - apply insert_inv in H. naive_solver.
  - apply rollover_inv in H. naive_solver.
Qed.
Lemma spend_directory_inv u r tx d : spend_trace_registry policy dir voucher benchmark u r tx = true -> directory_of (located u) = Some d ->
  exists i h f prev new d2 b s, advance_accepted d i h f prev new (located u) tx d2 b s.
Proof.
  unfold spend_trace_registry, directory_of. intros H Hs. inv_accepts H. cbn in Hs. destruct x as [|old]; [done|]. injection Hs as <-.
  destruct x1; [done|done|]. apply advance_inv in H. naive_solver.
Qed.

End accepted.

(** ** One step *)

Lemma lacks_hash_spec h l : lacks_hash h l = true -> h ∉ e_hash <$> l.
Proof.
  unfold lacks_hash. destruct (List.find _ l) eqn:E; [done|]. intros _ (e & -> & He)%list_elem_of_fmap.
  apply list_elem_of_In in He. pose proof (List.find_none _ _ E e He) as Hn. by rewrite bool_decide_eq_false in Hn.
Qed.

Section step.
Context `{L : Lucid} `{BL : Blake2b} `{S3 : Sha3} `{UA : UtxoAddress}.
Context (A policy directory_name voucher benchmark : string).

#[local] Abbreviation token := (unit_of policy).
#[local] Abbreviation dir := (MkAuthToken policy directory_name).
#[local] Abbreviation holds := (holds A policy).
#[local] Abbreviation directory_at := (directory_at A policy directory_name).
#[local] Abbreviation bucket_ok := (bucket_ok A policy).

Context (G G' : ledger) (tx : ScriptTx) (rest created : list UTxO).
#[local] Abbreviation ins := ((stx_inputs tx).*1).
Context (OK : ledger_ok policy G)
    (Hlive : live G ≡ₚ ins ++ rest)
    (Hrefs : forall u, u ∈ stx_reference_inputs tx -> u ∈ rest)
    (Houtputs : stx_outputs tx = located <$> created)
    (Hfresh : NoDup (ref_of <$> created))
    (Hnew : forall u, u ∈ created -> ref_of u ∉ ref_of <$> live G /\ ref_of u ∉ retired G)
    (Hpositive : forall u x, u ∈ created -> 0 <= amount (assets u) x)
    (Hbalance : forall name, held (token name) created = held (token name) ins + stx_mint tx (token name))
    (Hscripts : forall u r, (u, r) ∈ stx_inputs tx -> utxo_address u = A -> spend policy directory_name voucher benchmark u r tx = true)
    (Hmint : (forall name, stx_mint tx (token name) = 0) \/
             exists nonce, nonce ∈ ins /\ mint_identifier policy (ref_of nonce) (stx_mint tx) /\
                           forall r, r ∈ retired G -> identifier r = identifier (ref_of nonce) -> r = ref_of nonce)
    (Hlive' : live G' = created ++ rest)
    (Hretired : retired G' = (ref_of <$> ins) ++ retired G).

Lemma live_split u : u ∈ live G <-> u ∈ ins \/ u ∈ rest.
Proof. rewrite Hlive. apply elem_of_app. Qed.

Lemma held_after_step name : held (token name) (live G') = held (token name) (live G) + stx_mint tx (token name).
Proof. rewrite Hlive', Hlive, !held_app, Hbalance. lia. Qed.

Lemma step_single name : held (token name) (live G') <= 1.
Proof.
  rewrite held_after_step. pose proof (lo_single _ _ OK name) as H1. destruct Hmint as [Hz|(nonce & Hn & Hi & Hc)]; [rewrite Hz; lia|].
  rewrite Hi. case_decide as E; [|lia].
  destruct (decide (0 < held (token name) (live G))) as [Hpos|]; [exfalso|lia].
  destruct (lo_minted _ _ OK name Hpos) as (r & Hr & Er). rewrite (Hc r Hr) in Hr by congruence.
  eapply (lo_retired _ _ OK nonce); [|exact Hr]. apply live_split. by left.
Qed.

Lemma step_ledger_ok : ledger_ok policy G'.
Proof.
  assert (NoDup (ref_of <$> ins ++ rest)) as Hnd by (rewrite <- Hlive; apply (lo_refs _ _ OK)).
  rewrite fmap_app in Hnd. apply NoDup_app in Hnd as (_ & Hdisj & Hrest).
  split.
  - rewrite Hlive', fmap_app. apply NoDup_app. split; [done|]. split; [|done]. intros r (u & -> & Hu)%list_elem_of_fmap Hr.
    apply (proj1 (Hnew u Hu)). rewrite Hlive, fmap_app. apply elem_of_app. by right.
  - intros u. rewrite Hlive', Hretired, elem_of_app, elem_of_app. intros [Hu|Hu] [Hr|Hr].
    + apply (proj1 (Hnew u Hu)). rewrite Hlive, fmap_app. apply elem_of_app. by left.
    + by apply (proj2 (Hnew u Hu)).
    + apply (Hdisj _ Hr). by apply list_elem_of_fmap_2.
    + eapply (lo_retired _ _ OK u); [|exact Hr]. apply live_split. by right.
  - intros u x. rewrite Hlive', elem_of_app. intros [Hu|Hu]; [by apply Hpositive|]. apply (lo_positive _ _ OK), live_split. by right.
  - apply step_single.
  - intros name. rewrite held_after_step, Hretired. intros Hpos. destruct (decide (0 < held (token name) (live G))) as [Ho|Ho].
    { destruct (lo_minted _ _ OK name Ho) as (r & Hr & ->). exists r. split; [|done]. apply elem_of_app. by right. }
    destruct Hmint as [Hz|(nonce & Hn & Hi & Hc)]; [rewrite Hz in Hpos; lia|]. rewrite Hi in Hpos. case_decide as E; [|lia].
    exists (ref_of nonce). split; [|done]. apply elem_of_app. left. by apply list_elem_of_fmap_2.
Qed.

(** A token has one holder before the step, and one place after it. *)
Lemma same_live name u v : u ∈ live G -> v ∈ live G -> amount (assets u) (token name) = 1 -> amount (assets v) (token name) = 1 -> u = v.
Proof. apply one_holder; [intros w; apply (lo_positive _ _ OK)|apply (lo_single _ _ OK)]. Qed.

Lemma not_both name u v : u ∈ ins -> v ∈ rest -> amount (assets u) (token name) = 1 -> amount (assets v) (token name) = 1 -> False.
Proof.
  intros Hu Hv Eu Ev. pose proof (lo_single _ _ OK name) as H1. rewrite Hlive, held_app in H1.
  pose proof (held_member (token name) ins u) as Hm. pose proof (held_member (token name) rest v) as Hm2.
  pose proof (lo_positive _ _ OK) as Hp.
  specialize (Hm ltac:(intros w Hw; apply Hp, live_split; by left) Hu). specialize (Hm2 ltac:(intros w Hw; apply Hp, live_split; by right) Hv). lia.
Qed.

(** What the transaction reads of the registry is what the ledger holds. *)
Lemma read_directory l d d' : (forall u, u ∈ l -> u ∈ live G) -> find_unique_directory_input dir l A = Some d' -> directory_at G d -> d' = d.
Proof.
  unfold find_unique_directory_input. intros Hl H (u & Hu & Hm & Hd). destruct (find_unique _ l) as [v|] eqn:E; [|done]. cbn [mbind option_bind] in H.
  apply find_unique_spec in E as [Hv Hp]. unfold is_directory_output in Hp. destruct (output_matches _ _ _) eqn:Em; [|done].
  apply matches_spec in Em as [_ Em], Hm as [_ Hm]. assert (v = u) as -> by (eapply same_live; eauto). congruence.
Qed.
Lemma read_directory_in l d : find_unique_directory_input dir l A = Some d -> exists u, u ∈ l /\ amount (assets u) (token directory_name) = 1.
Proof.
  unfold find_unique_directory_input. intros H. destruct (find_unique _ l) as [v|] eqn:E; [|done].
  apply find_unique_spec in E as [Hv Hp]. unfold is_directory_output in Hp. destruct (output_matches _ _ _) eqn:Em; [|done].
  apply matches_spec in Em as [_ Em]. eauto.
Qed.
Lemma read_shard name s s' : find_unique_shard_input (stx_reference_inputs tx) A (token name) = Some s' -> holds G name s -> s' = s.
Proof.
  unfold find_unique_shard_input. intros H (u & Hu & Hm & Hd). destruct (find_unique _ _) as [v|] eqn:E; [|done]. cbn [mbind option_bind] in H.
  apply find_unique_spec in E as [Hv Hp]. unfold is_shard_output in Hp. destruct (output_matches _ _ _) eqn:Em; [|done].
  apply matches_spec in Em as [_ Em], Hm as [_ Hm].
  assert (v = u) as -> by (eapply same_live; eauto; apply live_split; right; by apply Hrefs). congruence.
Qed.

Lemma archived_clean names ss h :
  bucket_shards_do_not_contain_hash policy (stx_reference_inputs tx) A names h = true -> Forall2 (holds G) names ss ->
  h ∉ e_hash <$> (ss ≫= s_entries).
Proof.
  unfold bucket_shards_do_not_contain_hash. rewrite andb_true_iff. intros [_ H] HF. revert H.
  induction HF as [|n s names ss Hn HF IH]; cbn [forallb mbind list_bind]; [intros _; by apply not_elem_of_nil|].
  destruct (find_unique_shard_input _ _ _) as [s'|] eqn:E; [|done]. rewrite !andb_true_iff. intros [[_ Hl] Hr].
  rewrite (read_shard n s s' E Hn) in Hl. apply lacks_hash_spec in Hl. rewrite fmap_app, not_elem_of_app. auto.
Qed.

(** What the transaction writes is what the ledger holds next. *)
Lemma written_shard name s : find_shard_output (stx_outputs tx) A (token name) = Some s ->
  holds G' name s /\ forall u, u ∈ rest -> amount (assets u) (token name) <> 1.
Proof.
  unfold find_shard_output. rewrite Houtputs. intros H. destruct (find_unique _ _) as [o|] eqn:E; [|done]. cbn [mbind option_bind] in H.
  apply find_unique_spec in E as [(u & -> & Hu)%list_elem_of_fmap [= Hm]]. split.
  - exists u. rewrite Hlive', elem_of_app. auto.
  - intros v Hv Ev. apply matches_spec in Hm as [_ Hm]. pose proof (step_single name) as H1. rewrite Hlive', held_app in H1.
    pose proof (held_member (token name) created u ltac:(auto) Hu).
    pose proof (held_member (token name) rest v ltac:(intros w Hw; apply (lo_positive _ _ OK), live_split; by right) Hv). change (amount (assets u) (token name) = 1) in Hm. lia.
Qed.

Lemma written_directory d : find_directory_output dir (stx_outputs tx) A = Some d -> directory_at G' d.
Proof.
  unfold find_directory_output. rewrite Houtputs. intros H. destruct (find_unique _ _) as [o|] eqn:E; [|done]. cbn [mbind option_bind] in H.
  apply find_unique_spec in E as [(u & -> & Hu)%list_elem_of_fmap Hp]. unfold is_directory_output in Hp.
  destruct (output_matches _ _ _) eqn:Em; [|done]. exists u. rewrite Hlive', elem_of_app. auto.
Qed.

(** Spent with its script's consent, or kept. *)
Lemma spent_or_kept name u s : u ∈ live G -> output_matches A (token name) (located u) = true -> shard_of (located u) = Some s ->
  (u ∈ ins /\ exists r, spend policy directory_name voucher benchmark u r tx = true) \/ (u ∈ rest /\ holds G' name s).
Proof.
  intros Hu Hm Hs. apply live_split in Hu as [Hu|Hu].
  - left. split; [done|]. apply list_elem_of_fmap in Hu as ([u' r] & -> & Hu). exists r. eapply Hscripts; [exact Hu|].
    by apply matches_spec in Hm as [Hm _].
  - right. split; [done|]. exists u. rewrite Hlive', elem_of_app. auto.
Qed.

Lemma Forall2_holds names ss : Forall2 (holds G) names ss -> (forall n s, n ∈ names -> s ∈ ss -> holds G n s -> holds G' n s) ->
  Forall2 (holds G') names ss.
Proof. induction 1 as [|n s names ss Hn HF IH]; intros H; constructor; [apply H; [left..|done]|]. apply IH. intros n' s' H1 H2. apply H; by right. Qed.

(** A bucket keeps its shards, or gains one entry. *)
Lemma bucket_kept b ss : bucket_ok G b ss -> (forall n s, n ∈ shard_names b -> s ∈ ss -> holds G n s -> holds G' n s) -> bucket_ok G' b ss.
Proof. intros [H1 H2 H3 H4] H. split; [|done..]. by apply Forall2_holds. Qed.

Lemma bucket_extended b b' ss ss' h f : bucket_ok G b ss -> bucket_index b' = bucket_index b ->
  Forall2 (holds G') (shard_names b') ss' -> (forall s, s ∈ ss' -> s_bucket_index s = bucket_index b /\ shard_is_within_capacity s = true) ->
  ss' ≫= s_entries ≡ₚ MkEntry h f :: (ss ≫= s_entries) -> h ∉ e_hash <$> (ss ≫= s_entries) ->
  entry_is_admissible (MkEntry h f) = true -> bucket_index_for_hash h = Some (bucket_index b) -> bucket_ok G' b' ss'.
Proof.
  intros [H1 H2 H3 H4] Hi HF Hs Hp Hh Ha Hb. split; [done| | |].
  - intros s Hin. rewrite Hi. auto.
  - rewrite Hp. cbn. constructor; auto.
  - intros e. rewrite Hp, Hi. intros [->|He]%elem_of_cons; auto.
Qed.

Lemma bucket_lookup b ss n : bucket_ok G b ss -> n ∈ shard_names b -> exists s u, s ∈ ss /\ u ∈ live G /\
  output_matches A (token n) (located u) = true /\ shard_of (located u) = Some s /\ s_bucket_index s = bucket_index b.
Proof.
  intros [H1 H2 _ _] Hn. apply list_elem_of_lookup in Hn as (k & Hk). destruct (Forall2_lookup_l _ _ _ _ _ H1 Hk) as (s & Hs & u & Hu & Hm & Hd).
  apply list_elem_of_lookup_2 in Hs. exists s, u. repeat split; auto. by apply H2.
Qed.

(** [holds] is functional: the shard of a name is the one the bucket lists. *)
Lemma holds_unique n s s' : holds G n s -> holds G n s' -> s = s'.
Proof.
  intros (u & Hu & Hm & Hs) (v & Hv & Hm' & Hs'). apply matches_spec in Hm as [_ Hm], Hm' as [_ Hm'].
  assert (u = v) as -> by (eapply same_live; eauto). congruence.
Qed.

Section directory.
Context (d : TraceRegistryDirectoryDatum) (du : UTxO) (Hdu : du ∈ live G)
  (Hdm : output_matches A (token directory_name) (located du) = true) (Hdd : directory_of (located du) = Some d)
  (Hcap : directory_is_within_capacity d = true).

Lemma du_token : amount (assets du) (token directory_name) = 1.
Proof. by apply matches_spec in Hdm as [_ H]. Qed.
Lemma d_at : directory_at G d.
Proof. by exists du. Qed.

(** An insert reads the directory; a rollover spends it. *)
Lemma insert_keeps_directory s h f u name d' b s' : out_address (located u) = A ->
  insert_accepted policy dir s h f (located u) tx name d' b s' -> du ∈ rest /\ d' = d.
Proof.
  intros Ha Hi. pose proof (ia_directory _ _ _ _ _ _ _ _ _ _ _ Hi) as Hd. rewrite Ha in Hd. split.
  - apply live_split in Hdu as [Hin|]; [exfalso|done]. destruct (read_directory_in _ _ Hd) as (v & Hv & Ev).
    eapply (not_both directory_name du v); eauto using du_token.
  - eapply read_directory; [|exact Hd|apply d_at]. intros v Hv. apply live_split. right. by apply Hrefs.
Qed.
Lemma rollover_spends_directory s h f new u name d' d2 b : out_address (located u) = A ->
  rollover_accepted policy dir s h f new (located u) tx name d' d2 b -> du ∈ ins /\ d' = d.
Proof.
  intros Ha Hi. pose proof (ra_directory _ _ _ _ _ _ _ _ _ _ _ _ Hi) as Hd. rewrite Ha in Hd. split.
  - apply live_split in Hdu as [|Hin]; [done|exfalso]. destruct (read_directory_in _ _ Hd) as (v & Hv & Ev).
    eapply (not_both directory_name v du); eauto using du_token.
  - eapply read_directory; [|exact Hd|apply d_at]. intros v Hv. apply live_split. by left.
Qed.

Lemma archived_not_active b n : b ∈ d -> n ∈ archived_shard_names b -> n <> active_shard_name b.
Proof.
  intros Hb Hn ->. unfold directory_is_within_capacity in Hcap. rewrite !andb_true_iff, forallb_forall in Hcap.
  destruct Hcap as [[_ H] _]. specialize (H b ltac:(by apply list_elem_of_In)). unfold directory_bucket_is_within_capacity in H.
  rewrite !andb_true_iff, negb_true_iff, bool_decide_eq_false in H. tauto.
Qed.

(** The directory stays: a bucket's active shard may gain an entry. *)
Lemma bucket_step_kept b ss : du ∈ rest -> b ∈ d -> bucket_ok G b ss ->
  exists ss', bucket_ok G' b ss' /\ forall e, e ∈ ss ≫= s_entries -> e ∈ ss' ≫= s_entries.
Proof.
  intros Hr Hb Hok. pose proof (bo_holds _ _ _ _ _ Hok) as HF. unfold shard_names in HF. inversion HF as [|? s0 ? sa Ha Hsa]; subst.
  assert (forall n s, n ∈ shard_names b -> s ∈ s0 :: sa -> holds G n s -> holds G' n s \/
    (n = active_shard_name b /\ exists h f s', s_bucket_index s' = bucket_index b /\ shard_is_within_capacity s' = true /\
       s_entries s' = s_entries s ++ [MkEntry h f] /\ holds G' n s' /\ lacks_hash h (s_entries s) = true /\
       bucket_shards_do_not_contain_hash policy (stx_reference_inputs tx) A (archived_shard_names b) h = true /\
       entry_is_admissible (MkEntry h f) = true /\ bucket_index_for_hash h = Some (bucket_index b))) as Hcase.
  { intros n s Hn Hs (u & Hu & Hm & Hd). destruct (bo_shards _ _ _ _ _ Hok s Hs) as [Hidx _].
    destruct (spent_or_kept n u s Hu Hm Hd) as [[Hui [r Hsp]]|[_ Hk]]; [right|by left]. apply matches_spec in Hm as [Haddr Htok].
    destruct (spend_shard_inv _ _ _ _ _ _ _ _ Hsp Hd) as [(h & f & name & d' & b' & s' & Hi)|(h & f & new & name & d' & d2 & b' & Hi)].
    - destruct (insert_keeps_directory _ _ _ _ _ _ _ _ Haddr Hi) as [_ ->]. destruct Hi as [I1 I2 I3 I4 I5 I6 I7 I8 I9 I10 I11 I12].
      rewrite Haddr in *. rewrite Hidx, (find_bucket_in d b) in I4 by auto using capacity_unique. injection I4 as <-.
      rewrite <- (single_token _ _ _ _ I2 Htok) in *. destruct (written_shard _ _ I5) as [Hw _]. subst n. split; [done|].
      exists h, f, s'. rewrite I6, I7, Hidx. auto 10.
    - destruct (rollover_spends_directory _ _ _ _ _ _ _ _ _ Haddr Hi) as [Hin _]. exfalso. eapply (not_both directory_name du du); eauto using du_token. }
  assert (Forall2 (holds G') (archived_shard_names b) sa) as Hsa'.
  { apply Forall2_holds; [done|]. intros n s Hn Hs Hh. destruct (Hcase n s) as [|[-> _]]; [by right..|done|done|].
    by destruct (archived_not_active _ _ Hb Hn). }
  destruct (Hcase _ s0 ltac:(left) ltac:(left) Ha) as [Hk|(_ & h & f & s' & H1 & H2 & H3 & H4 & H5 & H6 & H7 & H8)].
  - exists (s0 :: sa). split; [|done]. destruct Hok as [_ K2 K3 K4]. split; [by constructor|done..].
  - exists (s' :: sa). split.
    + eapply (bucket_extended b b (s0 :: sa) (s' :: sa) h f); auto.
      * by constructor.
      * intros s [->|Hs]%elem_of_cons; [done|]. apply (bo_shards _ _ _ _ _ Hok). by right.
      * cbn. rewrite H3, <- app_assoc. symmetry. apply Permutation_middle.
      * cbn. rewrite fmap_app, not_elem_of_app. split; [by apply lacks_hash_spec|]. by eapply archived_clean.
    + intros e. cbn. rewrite H3, !elem_of_app. tauto.
Qed.

(** The directory advances: one bucket gets a fresh shard, everything else stays. *)
Section advance.
Context (i : Z) (h f prev new : string) (d2 : TraceRegistryDirectoryDatum) (bb : TraceRegistryDirectoryBucket) (ar : registry_shard)
  (Hin : du ∈ ins) (Hadv : advance_accepted policy dir d i h f prev new (located du) tx d2 bb ar)
  (Hall : forall b, b ∈ d -> exists ss, bucket_ok G b ss).

Lemma bb_facts : bb ∈ d /\ bucket_index bb = i /\ active_shard_name bb = prev.
Proof.
  destruct (find_bucket_spec _ _ _ (aa_bucket _ _ _ _ _ _ _ _ _ _ _ _ _ Hadv)) as [Hb Hi]. split_and!; [done..|].
  by destruct (rollover_bucket _ _ _ _ _ _ (aa_matches _ _ _ _ _ _ _ _ _ _ _ _ _ Hadv) Hb Hi).
Qed.

Lemma du_address : out_address (located du) = A.
Proof. by apply matches_spec in Hdm as [H _]. Qed.

(** Only the active shard of the advanced bucket is spent. *)
Lemma advance_spends b n u s : b ∈ d -> u ∈ live G -> output_matches A (token n) (located u) = true -> shard_of (located u) = Some s ->
  s_bucket_index s = bucket_index b -> (u ∈ rest /\ holds G' n s) \/ (n = prev /\ find_shard_output (stx_outputs tx) A (token n) = Some s).
Proof.
  intros Hb Hu Hm Hd Hidx. destruct (spent_or_kept n u s Hu Hm Hd) as [[Hui [r Hsp]]|]; [right|by left].
  apply matches_spec in Hm as [Haddr Htok].
  destruct (spend_shard_inv _ _ _ _ _ _ _ _ Hsp Hd) as [(h' & f' & name & d' & b' & s' & Hi)|(h' & f' & new' & name & d' & d2' & b' & Hi)].
  { exfalso. destruct (insert_keeps_directory _ _ _ _ _ _ _ _ Haddr Hi) as [Hr _]. eapply (not_both directory_name du du); eauto using du_token. }
  destruct (rollover_spends_directory _ _ _ _ _ _ _ _ _ Haddr Hi) as [_ ->]. destruct Hi as [I1 I2 I3 I4 I5 I6 I7]. rewrite Haddr in *.
  pose proof (aa_updated _ _ _ _ _ _ _ _ _ _ _ _ _ Hadv) as Hup. rewrite du_address, I3 in Hup. injection Hup as ->.
  rewrite Hidx, (find_bucket_in d b) in I4 by auto using capacity_unique. injection I4 as <-.
  rewrite <- (single_token _ _ _ _ I1 Htok) in *. destruct bb_facts as (Hbb & Hbi & Hba).
  destruct (decide (bucket_index b = i)) as [E|E].
  - assert (b = bb) as ->; [|by subst].
    pose proof (find_bucket_in d b (capacity_unique _ Hcap) Hb) as F1. pose proof (find_bucket_in d bb (capacity_unique _ Hcap) Hbb) as F2. congruence.
  - exfalso. rewrite Hidx in I7. pose proof (rollover_other _ _ _ _ _ bb I7 Hbb ltac:(congruence)) as F.
    destruct (rollover_bucket _ _ _ _ _ _ (aa_matches _ _ _ _ _ _ _ _ _ _ _ _ _ Hadv) Hbb Hbi) as (_ & ub & Fu & _ & Far).
    rewrite Hbi, Fu in F. injection F as ->. apply (f_equal length) in Far. rewrite length_app in Far. cbn in Far. lia.
Qed.

(** A listed shard other than the previous active one is kept as it is. *)
Lemma advance_keeps b ss n s : b ∈ d -> bucket_ok G b ss -> s ∈ ss -> holds G n s -> n <> prev -> holds G' n s.
Proof.
  intros Hb Hok Hs (u & Hu & Hm & Hd) Hne. destruct (advance_spends b n u s) as [[_ Hk]|[-> _]]; auto; [|done]. by apply (bo_shards _ _ _ _ _ Hok).
Qed.
Lemma advance_archives ss s : bucket_ok G bb ss -> s ∈ ss -> holds G prev s -> ar = s.
Proof.
  intros Hok Hs (u & Hu & Hm & Hd). destruct bb_facts as (Hbb & _).
  pose proof (aa_archived _ _ _ _ _ _ _ _ _ _ _ _ _ Hadv) as Har. rewrite du_address in Har.
  destruct (advance_spends bb prev u s) as [[Hr _]|[_ Hw]]; auto; [by apply (bo_shards _ _ _ _ _ Hok)| |].
  - destruct (written_shard _ _ Har) as [_ Hw]. apply matches_spec in Hm as [_ Htok]. by destruct (Hw u Hr).
  - unfold unit_of in Hw. congruence.
Qed.

Lemma advanced_bucket ss : bucket_ok G bb ss -> exists ub ss', ub ∈ d2 /\ find_bucket d2 i = Some ub /\ bucket_ok G' ub ss' /\
  forall e, e ∈ ss ≫= s_entries -> e ∈ ss' ≫= s_entries.
Proof.
  intros Hok. destruct bb_facts as (Hbb & Hbi & Hba). pose proof Hadv as [A1 A2 A3 A4 A5 A6 A7 A8 A9 A10 A11]. rewrite du_address in A2, A4, A5, A10.
  destruct (rollover_bucket _ _ _ _ _ _ A8 Hbb Hbi) as (_ & ub & Fu & Ha & Har). destruct (find_bucket_spec _ _ _ Fu) as [Hub Hui].
  pose proof (bo_holds _ _ _ _ _ Hok) as HF. unfold shard_names in HF. inversion HF as [|? s0 ? sa Hs0 Hsa]; subst ss.
  rewrite Hba in Hs0. pose proof (advance_archives _ s0 Hok ltac:(left) Hs0) as Ear. rewrite Ear in A4, A9.
  assert (Forall2 (holds G') (archived_shard_names bb) sa) as Hsa'.
  { apply Forall2_holds; [done|]. intros n s Hn Hs Hh. eapply advance_keeps; eauto; [by right|].
    rewrite <- Hba. by apply archived_not_active. }
  assert (holds G' prev s0) as Hp by by apply written_shard. assert (holds G' new (MkShard i [MkEntry h f])) as Hn by by apply written_shard.
  exists ub, (MkShard i [MkEntry h f] :: sa ++ [s0]).
  assert ((MkShard i [MkEntry h f] :: sa ++ [s0]) ≫= s_entries ≡ₚ MkEntry h f :: ((s0 :: sa) ≫= s_entries)) as Hperm.
  { cbn. rewrite bind_app. cbn. rewrite app_nil_r. by rewrite Permutation_app_comm. }
  split_and!; [done..| |].
  - eapply (bucket_extended bb ub (s0 :: sa) _ h f); [done|congruence| | |exact Hperm| |done|congruence].
    + unfold shard_names. rewrite Ha, Har. constructor; [done|]. apply Forall2_app; [done|]. by repeat constructor.
    + intros s [->|[Hs| ->%list_elem_of_singleton]%elem_of_app]%elem_of_cons; [done| |]; apply (bo_shards _ _ _ _ _ Hok); [by right|left].
    + cbn. rewrite fmap_app, not_elem_of_app. split; [by apply lacks_hash_spec|]. by eapply archived_clean.
  - intros e He. rewrite Hperm. by right.
Qed.

(** The directory after the rollover and its buckets. *)
Lemma directory_advanced : directory_at G' d2 /\ directory_is_within_capacity d2 = true /\ (forall ub, ub ∈ d2 -> exists ss, bucket_ok G' ub ss) /\
  forall b ss, b ∈ d -> bucket_ok G b ss -> exists ub ss', ub ∈ d2 /\ bucket_ok G' ub ss' /\ forall e, e ∈ ss ≫= s_entries -> e ∈ ss' ≫= s_entries.
Proof.
  assert (forall b ss, b ∈ d -> bucket_ok G b ss -> exists ub ss', ub ∈ d2 /\ find_bucket d2 (bucket_index b) = Some ub /\ bucket_ok G' ub ss' /\
    forall e, e ∈ ss ≫= s_entries -> e ∈ ss' ≫= s_entries) as Hfwd.
  { intros b ss Hb Hok. destruct bb_facts as (Hbb & Hbi & Hba). destruct (decide (bucket_index b = i)) as [E|E].
    - assert (b = bb) as ->.
      { pose proof (find_bucket_in d b (capacity_unique _ Hcap) Hb) as F1. pose proof (find_bucket_in d bb (capacity_unique _ Hcap) Hbb) as F2. congruence. }
      rewrite E. by apply advanced_bucket.
    - pose proof (rollover_other _ _ _ _ _ b (aa_matches _ _ _ _ _ _ _ _ _ _ _ _ _ Hadv) Hb E) as F. destruct (find_bucket_spec _ _ _ F) as [Hub _].
      exists b, ss. split_and!; auto. apply bucket_kept; [done|]. intros n s Hn Hs Hh. apply (advance_keeps b ss); [done..|]. intros ->.
      destruct (Hall _ Hbb) as [ssb Hokb]. destruct (bucket_lookup _ _ prev Hokb) as (s2 & u2 & Hs2 & Hu2 & Hm2 & Hd2 & Hi2).
      { unfold shard_names. rewrite Hba. left. }
      assert (s = s2) as ->. { eapply holds_unique; [done|]. by exists u2. }
      destruct (bo_shards _ _ _ _ _ Hok s2 Hs) as [Hx _]. congruence. }
  pose proof Hadv as [A1 A2 A3 A4 A5 A6 A7 A8 A9 A10 A11]. rewrite du_address in A2, A4, A5, A10. split_and!; [by apply written_directory|done| |].
  - intros ub Hub. destruct (rollover_back _ _ _ _ _ _ A8 Hub) as [b Fb]. destruct (find_bucket_spec _ _ _ Fb) as [Hb Hbi].
    destruct (Hall b Hb) as [ss Hok]. destruct (Hfwd b ss Hb Hok) as (ub' & ss' & Hub' & Fu & Hok' & _).
    rewrite Hbi, (find_bucket_in d2 ub) in Fu by auto using capacity_unique. injection Fu as ->. eauto.
  - intros b ss Hb Hok. destruct (Hfwd b ss Hb Hok) as (ub & ss' & ? & _ & ? & ?). eauto.
Qed.

End advance.

End directory.

End step.

(** ** Every reachable ledger *)

Lemma NoDup_keys {A B} (f : A -> B) l x y : NoDup (f <$> l) -> x ∈ l -> y ∈ l -> f x = f y -> x = y.
Proof.
  induction l as [|a l IH]; [by intros _ ?%not_elem_of_nil|]. cbn. intros [Ha Hl]%NoDup_cons Hx Hy E.
  apply elem_of_cons in Hx as [->|Hx], Hy as [->|Hy]; auto; exfalso; apply Ha; [rewrite E|rewrite <- E]; by apply list_elem_of_fmap_2.
Qed.

Section reachable.
Context `{L : Lucid} `{BL : Blake2b} `{S3 : Sha3} `{UA : UtxoAddress}.
Context (A policy directory_name voucher benchmark : string).

#[local] Abbreviation holds := (holds A policy).
#[local] Abbreviation directory_at := (directory_at A policy directory_name).
#[local] Abbreviation registered := (registered A policy directory_name).
#[local] Abbreviation bucket_ok := (bucket_ok A policy).
#[local] Abbreviation registry_ok := (registry_ok A policy directory_name).
#[local] Abbreviation steps := (ledger_steps A policy directory_name voucher benchmark).

Lemma directory_unique G d d' : ledger_ok policy G -> directory_at G d -> directory_at G d' -> d = d'.
Proof.
  intros OK (u & Hu & Hm & Hd) (v & Hv & Hm' & Hd'). apply matches_spec in Hm as [_ Hm], Hm' as [_ Hm'].
  assert (u = v) as -> by (eapply (same_live policy G OK); eauto). congruence.
Qed.
Lemma bucket_shards_unique G b ss ss' : ledger_ok policy G -> bucket_ok G b ss -> bucket_ok G b ss' -> ss = ss'.
Proof.
  intros OK [H1 _ _ _] [H2 _ _ _]. revert ss' H2. induction H1 as [|n s names ss Hn HF IH]; intros ss' H2; inversion H2; subst; [done|].
  f_equal; [|auto]. by eapply holds_unique.
Qed.

Lemma registered_bucket G e : registry_ok G -> registered G e <->
  exists d b ss, directory_at G d /\ b ∈ d /\ bucket_ok G b ss /\ e ∈ ss ≫= s_entries.
Proof.
  intros [OK (d & Hd & Hc & Hall)]. split.
  - intros (d' & b & n & s & Hd' & Hb & Hn & Hh & He). rewrite (directory_unique G d' d) in Hb by done.
    destruct (Hall b Hb) as [ss Hok]. exists d, b, ss. split_and!; auto. destruct (bucket_lookup A policy G b ss n Hok Hn) as (s' & u & Hs & Hu & Hm & Hs' & _).
    assert (s = s') as -> by (eapply holds_unique; [exact OK|exact Hh|by exists u]). apply list_elem_of_bind. eauto.
  - intros (d' & b & ss & Hd' & Hb & Hok & (s & Hs & He)%list_elem_of_bind). pose proof (bo_holds _ _ _ _ _ Hok) as HF.
    apply list_elem_of_lookup in He as [k Hk]. destruct (Forall2_lookup_r _ _ _ _ _ HF Hk) as (n & Hn & Hh).
    exists d', b, n, s. split_and!; auto. by eapply list_elem_of_lookup_2.
Qed.

Lemma step_registry_ok G tx G' : registry_ok G -> ledger_step A policy directory_name voucher benchmark G tx G' ->
  registry_ok G' /\ forall e, registered G e -> registered G' e.
Proof.
  intros Hok [rest created S1 S2 S3' S4 S5 S6 S7 S8 S9 S10 S11]. pose proof Hok as [OK (d & Hdir & Hc & Hall)]. pose proof Hdir as (du & Hdu & Hdm & Hdd).
  assert (ledger_ok policy G') as OK' by (eapply step_ledger_ok; eauto).
  cut (exists d2, directory_at G' d2 /\ directory_is_within_capacity d2 = true /\ (forall ub, ub ∈ d2 -> exists ss, bucket_ok G' ub ss) /\
    forall b ss, b ∈ d -> bucket_ok G b ss -> exists ub ss', ub ∈ d2 /\ bucket_ok G' ub ss' /\ forall e, e ∈ ss ≫= s_entries -> e ∈ ss' ≫= s_entries).
  { intros (d2 & D1 & D2 & D3 & D4). assert (registry_ok G') as Hok' by (split; [done|eauto]). split; [done|]. intros e He.
    apply registered_bucket; [done|]. apply registered_bucket in He as (d' & b & ss & Hd' & Hb & Hbok & He); [|done].
    rewrite (directory_unique G d' d) in Hb by done. destruct (D4 b ss Hb Hbok) as (ub & ss' & ? & ? & ?). exists d2, ub, ss'. auto. }
  pose proof Hdu as Hwhere. rewrite S1, elem_of_app in Hwhere. destruct Hwhere as [Hin|Hr].
  - pose proof Hin as Hin'. apply list_elem_of_fmap in Hin as ([u r] & -> & Hur). cbn [fst] in *.
    assert (spend policy directory_name voucher benchmark u r tx = true) as Hsp by (apply S8; [done|]; by apply matches_spec in Hdm as [? _]).
    destruct (spend_directory_inv _ _ _ _ _ _ _ _ Hsp Hdd) as (i & h & f & prev & new & d2 & bb & ar & Hadv). exists d2.
    eapply (directory_advanced A policy directory_name voucher benchmark G G' tx rest created); eauto.
  - exists d. assert (forall b ss, b ∈ d -> bucket_ok G b ss -> exists ss', bucket_ok G' b ss' /\ forall e, e ∈ ss ≫= s_entries -> e ∈ ss' ≫= s_entries) as Hk.
    { intros b ss Hb Hbok. eapply (bucket_step_kept A policy directory_name voucher benchmark G G' tx rest created); eauto. }
    split_and!; [|done| |].
    + exists du. rewrite S10, elem_of_app. auto.
    + intros b Hb. destruct (Hall b Hb) as [ss Hbok]. destruct (Hk b ss Hb Hbok) as (ss' & ? & _). eauto.
    + intros b ss Hb Hbok. destruct (Hk b ss Hb Hbok) as (ss' & ? & ?). eauto.
Qed.

Lemma registered_unique G e1 e2 : registry_ok G -> registered G e1 -> registered G e2 -> e_hash e1 = e_hash e2 -> e1 = e2.
Proof.
  intros Hok H1 H2 E. apply registered_bucket in H1 as (d & b & ss & Hd & Hb & Hbok & He), H2 as (d' & b' & ss' & Hd' & Hb' & Hbok' & He'); [|done..].
  pose proof Hok as [OK (d0 & Hd0 & Hc & _)]. rewrite (directory_unique G d d0) in Hb by done. rewrite (directory_unique G d' d0) in Hb' by done.
  destruct (bo_entries _ _ _ _ _ Hbok e1 He) as [_ I1], (bo_entries _ _ _ _ _ Hbok' e2 He') as [_ I2].
  assert (b = b') as <-.
  { pose proof (find_bucket_in d0 b (capacity_unique _ Hc) Hb) as F1. pose proof (find_bucket_in d0 b' (capacity_unique _ Hc) Hb') as F2. congruence. }
  rewrite (bucket_shards_unique G b ss' ss) in He' by done. eapply (NoDup_keys e_hash); eauto. apply (bo_unique _ _ _ _ _ Hbok).
Qed.

Lemma bucket_size G b ss : bucket_ok G b ss -> directory_bucket_is_within_capacity b = true -> count (ss ≫= s_entries) <= 288.
Proof.
  intros Hok Hc. unfold directory_bucket_is_within_capacity in Hc. rewrite !andb_true_iff, !Z.leb_le in Hc.
  assert (count ss <= 9) as Hss. { unfold count. rewrite <- (Forall2_length _ _ _ (bo_holds _ _ _ _ _ Hok)). unfold shard_names, count, maxArchivedShardsPerBucket in *. cbn [length]. lia. }
  assert (forall l, (forall s, s ∈ l -> count (s_entries s) <= 32) -> count (l ≫= s_entries) <= 32 * count l) as Hsum.
  { unfold count. induction l as [|s l IH]; intros H; [done|]. cbn [mbind list_bind length]. rewrite length_app.
    pose proof (H s ltac:(left)). specialize (IH ltac:(intros; apply H; by right)). lia. }
  assert (count (ss ≫= s_entries) <= 32 * count ss); [|lia]. apply Hsum. intros s Hs. destruct (bo_shards _ _ _ _ _ Hok s Hs) as [_ Hcap].
  unfold shard_is_within_capacity in Hcap. rewrite !andb_true_iff, !Z.leb_le in Hcap. unfold maxEntriesPerShard in Hcap. lia.
Qed.

Lemma reachable_ok G0 G : registry_ok G0 -> steps G0 G -> registry_ok G /\ forall e, registered G0 e -> registered G e.
Proof. intros H0 Hs. induction Hs as [|G1 tx G2 Hs [IH1 IH2] Hst]; [done|]. destruct (step_registry_ok _ _ _ IH1 Hst) as [K1 K2]. auto. Qed.

(** C16 (invariant): Whatever transactions the ledger accepts, from a ledger on which the registry is well formed: the
    directory, the shards it names and their capacities stay well formed, no registered
    mapping is ever lost, every registered mapping is admissible (its hash is the hash of
    its denomination, which is within the limits), a hash has at most one mapping across
    all shards, active or archived, and a bucket never holds more than 288 mappings. *)
Theorem registry_invariant G0 G : registry_ok G0 -> steps G0 G ->
  registry_ok G /\ (forall e, registered G0 e -> registered G e) /\
  (forall e, registered G e -> entry_is_admissible e = true) /\
  (forall e1 e2, registered G e1 -> registered G e2 -> e_hash e1 = e_hash e2 -> e1 = e2) /\
  forall d b, directory_at G d -> b ∈ d -> exists ss, Forall2 (holds G) (shard_names b) ss /\ count (ss ≫= s_entries) <= 288.
Proof.
  intros H0 Hs. destruct (reachable_ok G0 G H0 Hs) as [Hok Hmono].
  split_and!; [done..| | |].
  - intros e (d & b & ss & _ & _ & Hb & He)%registered_bucket; [|done]. by apply (bo_entries _ _ _ _ _ Hb).
  - intros e1 e2. by apply registered_unique.
  - intros d b Hd Hb. destruct Hok as [OK (d0 & Hd0 & Hc & Hall)]. rewrite (directory_unique G d d0) in Hb by done. destruct (Hall b Hb) as [ss Hbok].
    exists ss. split; [apply (bo_holds _ _ _ _ _ Hbok)|]. eapply bucket_size; [done|]. unfold directory_is_within_capacity in Hc.
    rewrite !andb_true_iff, forallb_forall in Hc. apply Hc. by apply list_elem_of_In.
Qed.

End reachable.
