(* ===== verification/Submission.v ===== *)
(** * Submitting transactions ([tx/submission.service.ts])

    A relayer hands back the transaction it signed.  The service submits it to the node,
    retrying while the node says it is too early, waits until the history indexes it,
    takes the pending tree update of the transaction, checks its root against the
    HostState output of the confirmed transaction, commits the update, persists the tree
    and returns the events.

    What the node, the history and the transaction library answer is the interface
    [SubmissionEnv]; a wait is the number of milliseconds it lasts. *)

From Stdlib Require Import ZArith Lia.
From S2P Require Import Prelude JsMap JsString JsJson Hex MerkleTree Datum Tendermint StateRoot TreeRebuild TreeServices EscrowShard PacketDenom PacketOps TxRunner ConnectionHandlers.

#[local] Open Scope Z_scope.

(** [error.message]: a gRPC exception carries its argument in a JSON object
    ([exception/grpc_exceptions.ts]). *)
Definition exception_message (e : error) : string :=
  match e with
  | GrpcInvalidArgument m | GrpcFailedPrecondition m | GrpcNotFound m | GrpcInternal m =>
      stringify_object [("error", m); ("type", "string"); ("exceptionName", "RpcException")]
  | JsError m => m
  | OutOfFuel => ""
  end.

(** An output of a parsed transaction: its native assets and its inline datum. *)
Record CmlOutput := MkCmlOutput { out_multi_asset : list ((string * string) * Z); out_datum : option string }.

Class SubmissionEnv := {
  (** the answer of the node to submission number [n] of a transaction *)
  submitTx : nat -> string -> result string;
  (** the answers of the history to the polls made before the deadline *)
  history_polls : string -> list (result (option Z));
  queryPacketEventsByTxHash : string -> result (list GatewayEvent);
  (** [CML.Transaction.from_cbor_hex(cbor).body().outputs()] *)
  transaction_outputs : string -> result (list CmlOutput);
  (** [CML.ScriptHash.from_hex] and [CML.AssetName.from_hex] *)
  script_hash_from_hex : string -> result string;
  asset_name_from_hex : string -> result string;
  (** [CML.hash_transaction(CML.Transaction.from_cbor_hex(cbor).body()).to_hex()] *)
  transaction_body_hash : string -> result string;
}.

(** ** Too early *)

(** What follows the first occurrence of [p]. *)
Fixpoint after_token (p l : bytes) : option bytes :=
  match strip_prefix p l with
  | Some rest => Some rest
  | None => match l with [] => None | _ :: l' => after_token p l' end
  end.
Fixpoint drop_nondigits (l : bytes) : bytes := match l with b :: l' => if is_digit b then l else drop_nondigits l' | [] => [] end.

(** A match of [token[^0-9]*([0-9]+)], as a finite number. *)
Definition extractNumberAfterToken (message token : string) : option Z :=
  rest ← after_token (utf8 token) (utf8 message);
  match (span_digits (drop_nondigits rest)).1 with
  | [] => None
  | digits => v ← parse_literal 10 digits; let value := to_double v in if value <? 2 ^ 1024 then Some value else None
  end.

Record TooEarly := MkTooEarly { currentSlot : Z; invalidBefore : Z; invalidAfter : option Z }.

Definition validity_interval_markers : list string :=
  ["outside of its validity interval"; text (utf8 (quoted "code") ++ utf8 ":3118"); text (utf8 (text [x22]) ++ utf8 "code" ++ [x5c; x22] ++ utf8 ":3118")].

Definition parseTxSubmittedTooEarlyError (e : error) : option TooEarly :=
  let message := exception_message e in
  if negb (existsb (includes message) validity_interval_markers) then None else
  slot ← extractNumberAfterToken message "currentSlot";
  before ← extractNumberAfterToken message "invalidBefore";
  if before <=? slot then None else Some (MkTooEarly slot before (extractNumberAfterToken message "invalidAfter")).

(** ** Submission *)

Definition maxRetries : nat := 5.
Definition slotLengthMs : Z := 1000.
Definition retryBackoffMs : Z := 250.

(** The slots and the wait are doubles. *)
Definition wait_ms (t : TooEarly) : Z :=
  to_double (to_double (Z.max 1 (to_double (invalidBefore t - currentSlot t)) * slotLengthMs) + retryBackoffMs).

(** [setTimeout] takes a delay of more than 31 bits for 1 ms. *)
Definition timer_ms (delay : Z) : Z := if 2 ^ 31 - 1 <? delay then 1 else delay.

Definition submission_failed (e : error) : error := GrpcInternal ("Cardano submission failed: " +:+ exception_message e).

Section submission.
Context `{SV : SubmissionEnv}.

(** Submission number [attempt], with [left] retries left: the outcome and the waits. *)
Fixpoint submit_attempts (left attempt : nat) (signedTxCbor : string) : result string * list Z :=
  match submitTx attempt signedTxCbor with
  | Ok txHash => (Ok txHash, [])
  | Err e =>
      match parseTxSubmittedTooEarlyError e with
      | None => (Err (submission_failed e), [])
      | Some t =>
          if match invalidAfter t with Some after => after <? currentSlot t | None => false end then (Err (submission_failed e), []) else
          match left with
          | O => (Err (submission_failed e), [])
          | S left' => let '(r, waits) := submit_attempts left' (S attempt) signedTxCbor in (r, timer_ms (wait_ms t) :: waits)
          end
      end
  end.

Definition submitToCardano (signedTxCbor : string) : result string := (submit_attempts maxRetries 0 signedTxCbor).1.

(** The first poll that names a block; block 0 counts as none. *)
Fixpoint first_height (polls : list (result (option Z))) : option Z :=
  match polls with
  | Ok (Some height) :: rest => if height =? 0 then first_height rest else Some height
  | _ :: rest => first_height rest
  | [] => None
  end.

Definition waitForIndexedConfirmation (txHash : string) : result Z :=
  match first_height (history_polls txHash) with
  | Some height => Ok height
  | None => Err (GrpcInternal ("Transaction " +:+ txHash +:+ " history indexing timeout after 180000ms"))
  end.

(** ** The HostState of the confirmed transaction *)

Section confirmed.
Context `{L : Lucid} `{CV : ChainView} `{DP : Deployment}.

Definition asset_quantity (policyId tokenName : string) (o : CmlOutput) : option Z :=
  snd <$> List.find (fun a => bool_decide (a.1 = (policyId, tokenName))) (out_multi_asset o).

Definition holds_nft (policyId tokenName : string) (o : CmlOutput) : bool :=
  match out_multi_asset o with
  | [] => false
  | _ => match asset_quantity policyId tokenName o with Some quantity => 0 <? quantity | None => false end
  end.

Definition findHostStateOutputInSignedTx (signedTxCbor txHash : string) : result CmlOutput :=
  outputs ← transaction_outputs signedTxCbor;
  policy ← script_hash_from_hex (policyId hostStateNFT);
  name ← asset_name_from_hex (token_name hostStateNFT);
  match List.find (holds_nft policy name) outputs with
  | Some output => Ok output
  | None => throw ("Confirmed tx " +:+ txHash +:+ " does not contain a HostState output")
  end.

Definition extractHostStateDatumCborFromSignedTx (signedTxCbor txHash : string) : result string :=
  hostStateOutput ← findHostStateOutputInSignedTx signedTxCbor txHash;
  match out_datum hostStateOutput with
  | Some plutusDatum => Ok plutusDatum
  | None => throw ("Missing inline HostState datum in confirmed tx " +:+ txHash)
  end.

Definition readConfirmedTxRoot (signedTxCbor txHash : string) : result string :=
  match (hostStateDatumCbor ← extractHostStateDatumCborFromSignedTx signedTxCbor txHash;
         hostStateDatumAtTx ← decode_host_state hostStateDatumCbor;
         Ok (ibc_state_root (hs_state hostStateDatumAtTx))) with
  | Ok root => Ok root
  | Err e => Err (GrpcInternal ("Failed to resolve HostState root for tx " +:+ txHash +:+ " from the confirmed transaction: " +:+ exception_message e))
  end.

(** ** Committing the pending update *)

(** The canonical tree with the database, and the registries of updates and events. *)
Record sstate := MkSState { ss_node : node_state; ss_registry : pending * TxEvents }.

Definition on_node {A} (m : M node_state A) : M sstate A := fun s => let '(r, n) := m (ss_node s) in (r, MkSState n (ss_registry s)).
Definition on_registry {A} (m : M (pending * TxEvents) A) : M sstate A :=
  fun s => let '(r, g) := m (ss_registry s) in (r, MkSState (ss_node s) g).

Definition commit_pending (u : PendingTreeUpdate) : M gstate unit :=
  match pendingTree u with Some t => modify (set_tree t) | None => mret tt end.

(** [null] when the transaction cannot be parsed or the library does not hash. *)
Definition computeTxBodyHashHex (txCborHex : string) : option string :=
  match transaction_body_hash txCborHex with Ok hash => Some hash | Err _ => None end.

Definition take_by_body_hash (signedTxCbor txHash : string) : M sstate (option PendingTreeUpdate) :=
  match computeTxBodyHashHex signedTxCbor with
  | Some fallbackHash =>
      if bool_decide (fallbackHash = "") || bool_decide (toLowerCase fallbackHash = toLowerCase txHash) then mret None
      else on_registry (on_pending (take_update fallbackHash))
  | None => mret None
  end.

Definition root_mismatch (txHash expected confirmed : string) : error :=
  GrpcInternal ("Confirmed tx root mismatch for tx " +:+ txHash +:+ ": expected " +:+ sub16 expected +:+ "..., got " +:+ sub16 confirmed +:+ "...").

(** The update of the transaction: by its hash, by the hash of its body, or by the root
    it leads to; and the root, once it has been read. *)
Definition resolve_pending (signedTxCbor txHash : string) : M sstate (option PendingTreeUpdate * option string) :=
  byHash ← on_registry (on_pending (take_update txHash));
  match byHash with
  | Some u => mret (Some u, None)
  | None =>
      byBody ← take_by_body_hash signedTxCbor txHash;
      match byBody with
      | Some u => mret (Some u, None)
      | None =>
          root ← liftR (readConfirmedTxRoot signedTxCbor txHash);
          byRoot ← on_registry (on_pending (takeByExpectedRoot root));
          mret (byRoot, Some root)
      end
  end.

Context `{SHA : Sha256} `{TC : TreeCodec}.

Definition persist_tree (cacheEnabled : bool) (confirmedRoot : string) (confirmedBlockNo : Z) : M sstate unit :=
  if cacheEnabled then
    try_catch
      (on_node (on_current_db (saveAliases [CURRENT_IBC_TREE_CACHE_ID; ibcTreeCacheIdForRoot confirmedRoot; ibcTreeCacheIdForHeight confirmedBlockNo])) ;;
       mret tt)
      (fun _ => mret tt)
  else mret tt.

Definition applyPendingIbcTreeUpdate (cacheEnabled : bool) (signedTxCbor txHash : string) (confirmedBlockNo : Z) : M sstate string :=
  '(found, read) ← resolve_pending signedTxCbor txHash;
  match found with
  | None => raise (GrpcInternal ("Missing pending IBC update for confirmed tx " +:+ txHash +:+ "; refusing to skip state-tree finalization"))
  | Some u =>
      confirmedRoot ← match read with
                      | Some "" | None => liftR (readConfirmedTxRoot signedTxCbor txHash)
                      | Some root => mret root
                      end;
      if negb (bool_decide (confirmedRoot = expectedNewRoot u)) then raise (root_mismatch txHash (expectedNewRoot u) confirmedRoot) else
      on_node (on_g (commit_pending u)) ;;
      persist_tree cacheEnabled confirmedRoot confirmedBlockNo ;;
      mret confirmedRoot
  end.

(** ** The request *)

Record SubmitSignedTxResponse := MkSubmitResponse { tx_hash : string; height : string; events : list GatewayEvent }.

Definition findIndexedPacketEvents (txHash : string) : list GatewayEvent :=
  match queryPacketEventsByTxHash txHash with Ok evs => evs | Err _ => [] end.

Definition events_of (txHash confirmedRoot : string) : M sstate (list GatewayEvent) :=
  byHash ← on_registry (on_events (take_events txHash));
  evs ← match byHash with
        | Some evs => mret evs
        | None => byRoot ← on_registry (on_events (take_events_by_root confirmedRoot)); mret (default [] byRoot)
        end;
  mret (match evs with [] => findIndexedPacketEvents txHash | _ => evs end).

Definition submitSignedTransaction (cacheEnabled : bool) (signedTxCbor : string) : M sstate SubmitSignedTxResponse :=
  try_catch (
    if bool_decide (signedTxCbor = "") then raise (GrpcInternal "Signed transaction CBOR is empty") else
    txHash ← liftR (submitToCardano signedTxCbor);
    confirmedBlockNo ← liftR (waitForIndexedConfirmation txHash);
    confirmedRoot ← applyPendingIbcTreeUpdate cacheEnabled signedTxCbor txHash confirmedBlockNo;
    evs ← events_of txHash confirmedRoot;
    mret (MkSubmitResponse txHash ("0-" +:+ pretty confirmedBlockNo) evs))
  (fun e => raise (GrpcInternal ("Failed to submit signed transaction: " +:+ exception_message e))).

End confirmed.
End submission.
