(* ===== verification/SubmissionTheorems.v ===== *)
(** * Submitting transactions: what is committed, when, and what is not *)

From Stdlib Require Import ZArith Lia.
From S2P Require Import Prelude JsMap JsString JsJson Hex MerkleTree MerkleSpec MerkleRefine OnChainCommitment MerkleTheorems Datum Tendermint StateRoot PacketHelpers StateRootFacts StateRootTheorems TreeRebuild TreeServices TreeServicesTheorems EscrowShard EscrowShardTheorems Voucher Redeemers PacketDenom PacketOps TxRunner TxBuilder ChannelLifecycle PacketOpsTheorems ToyHash ToyLucid PacketOpsWitnesses ConnectionHandlers Submission.

#[local] Open Scope Z_scope.

Section submission.
Context `{SV : SubmissionEnv} `{L : Lucid} `{CV : ChainView} `{DP : Deployment} `{SHA : Sha256} `{TC : TreeCodec}.

Abbreviation pendings s := ((ss_registry s).1).
Abbreviation tree_of s := (ns_tree (ss_node s)).

(** An update whose tree has been asked for its root, as every builder leaves it. *)
Definition settled (u : PendingTreeUpdate) : Prop :=
  match pendingTree u with Some t => getRoot t = (Ok (expectedNewRoot u), t) | None => True end.

(** The canonical tree has the root [r], and its cache is fresh. *)
Definition aligned_at (r : string) (g : gstate) : Prop := getRoot (currentTree g) = (Ok r, currentTree g).

Definition with_pending (s : sstate) (p : pending) : sstate := MkSState (ss_node s) (p, (ss_registry s).2).

(** ** Taking the update *)

Lemma on_pending_take {A} (m : M pending A) s : on_registry (on_pending m) s = ((m (pendings s)).1, with_pending s (m (pendings s)).2).
Proof. unfold on_registry, on_pending, with_pending. destruct s as [n [p e]]. cbn. by destruct (m p). Qed.

Lemma take_update_cases h (p : pending) :
  take_update h p = (Ok None, p) \/ exists u, map_get p (toLowerCase h) = Some u /\ take_update h p = (Ok (Some u), map_delete p (toLowerCase h)).
Proof.
  unfold take_update. case_decide; [by left|]. unfold mbind, M_bind, gets. cbn.
  destruct (map_get p (toLowerCase h)) as [u|] eqn:E; cbn; [right; by exists u | by left].
Qed.

Lemma take_root_cases r (p : pending) : map_wf p ->
  takeByExpectedRoot r p = (Ok None, p) \/
  exists k u, map_get p k = Some u /\ expectedNewRoot u = r /\ r <> "" /\ takeByExpectedRoot r p = (Ok (Some u), map_delete p k).
Proof.
  intros Hwf. unfold takeByExpectedRoot. case_decide; [by left|]. unfold mbind, M_bind, gets. cbn.
  pose proof (find_root_spec r p) as Hf. destruct (find_root r p) as [[k u]|] eqn:E; cbn; [|by left].
  destruct Hf as [Hr Hg]. right. exists k, u. split_and!; [by apply Hg | done..].
Qed.

Lemma with_pending_id s : with_pending s (pendings s) = s.
Proof. by destruct s as [n [p e]]. Qed.

(** Either one update is taken out, or nothing happens to the state. *)
Lemma resolve_cases cbor h s : map_wf (pendings s) ->
  match resolve_pending cbor h s with
  | (Ok (Some u, read), s') => exists k, map_get (pendings s) k = Some u /\ s' = with_pending s (map_delete (pendings s) k) /\
      match read with Some r => readConfirmedTxRoot cbor h = Ok r /\ r <> "" | None => True end
  | (_, s') => s' = s
  end.
Proof.
  intros Hwf. unfold resolve_pending, mbind, M_bind. rewrite on_pending_take.
  destruct (take_update_cases h (pendings s)) as [->|(u & Hg & ->)]; cbn [fst snd]; [|cbn; by exists (toLowerCase h)].
  rewrite with_pending_id. assert (take_by_body_hash cbor h s = (Ok None, s) \/
    exists k u, map_get (pendings s) k = Some u /\ take_by_body_hash cbor h s = (Ok (Some u), with_pending s (map_delete (pendings s) k))) as [->|(k & u & Hg & ->)].
  { unfold take_by_body_hash. destruct (computeTxBodyHashHex cbor) as [f|]; [|by left]. destruct (_ || _); [by left|]. rewrite on_pending_take.
    destruct (take_update_cases f (pendings s)) as [->|(u & Hg & ->)]; cbn [fst snd]; [left; by rewrite with_pending_id | right; by exists (toLowerCase f), u]. }
  2: { cbn. by exists k. }
  unfold liftR. destruct (readConfirmedTxRoot cbor h) as [r|e] eqn:Er; [|done]. cbn [fst snd]. rewrite on_pending_take.
  destruct (take_root_cases r (pendings s) Hwf) as [->|(k & u & Hg & Hr & Hne & ->)]; cbn; [apply with_pending_id | by exists k].
Qed.

(** ** Committing it *)

Lemma persist_registry b r n s : exists s', persist_tree b r n s = (Ok tt, s') /\ ss_registry s' = ss_registry s.
Proof.
  unfold persist_tree. destruct b; [|by exists s]. unfold try_catch, mbind, M_bind, on_node.
  destruct (on_current_db _ (ss_node s)) as [[x|e] n']; cbn; by eexists.
Qed.

Lemma persist_aligned b r n s s' : aligned_at r (tree_of s) -> persist_tree b r n s = (Ok tt, s') -> tree_of s' = tree_of s.
Proof.
  intros Hr. unfold persist_tree. destruct b; [|by intros [= <-]]. unfold try_catch, mbind, M_bind, on_node, on_current_db.
  pose proof (saveAliases_tree [CURRENT_IBC_TREE_CACHE_ID; ibcTreeCacheIdForRoot r; ibcTreeCacheIdForHeight n] r _ (ns_db (ss_node s)) Hr) as Hs.
  destruct (saveAliases _ _) as [[x|e] [t d]]; cbn [fst snd] in Hs; subst t; intros [= <-]; cbn; by destruct (ns_tree (ss_node s)).
Qed.

Lemma apply_cases b cbor h n s : map_wf (pendings s) ->
  match applyPendingIbcTreeUpdate b cbor h n s with
  | (Ok root, s') => exists k u, map_get (pendings s) k = Some u /\ expectedNewRoot u = root /\ readConfirmedTxRoot cbor h = Ok root /\
      persist_tree b root n (MkSState (MkNode (commit_pending u (tree_of s)).2 (ns_db (ss_node s))) (map_delete (pendings s) k, (ss_registry s).2)) = (Ok tt, s')
  | (Err _, s') => s' = s \/ exists k u, map_get (pendings s) k = Some u /\ s' = with_pending s (map_delete (pendings s) k) /\
      forall root, readConfirmedTxRoot cbor h = Ok root -> root <> expectedNewRoot u
  end.
Proof.
  intros Hwf. unfold applyPendingIbcTreeUpdate, mbind, M_bind. pose proof (resolve_cases cbor h s Hwf) as Hc.
  destruct (resolve_pending cbor h s) as [[[[u|] read]|e] s1]; [|subst s1; by left..]. destruct Hc as (k & Hg & -> & Hread).
  assert ((match read with Some "" | None => liftR (readConfirmedTxRoot cbor h) | Some root => mret root end) (with_pending s (map_delete (pendings s) k))
          = (readConfirmedTxRoot cbor h, with_pending s (map_delete (pendings s) k))) as ->.
  { destruct read as [[|c r]|]; [by destruct Hread | by destruct Hread as [-> _] | done]. }
  destruct (readConfirmedTxRoot cbor h) as [root|e] eqn:Er; [|right; exists k, u; by split_and!]. case_bool_decide as Hroot; cbn [negb].
  - unfold on_node at 1, on_g. assert (exists g', commit_pending u (tree_of s) = (Ok tt, g')) as [g' Hg'].
    { unfold commit_pending. destruct (pendingTree u); by eexists. }
    unfold with_pending. cbn [ss_node ss_registry]. rewrite Hg'. cbn [fst snd ss_registry ss_node ns_db].
    destruct (persist_registry b root n (MkSState (MkNode g' (ns_db (ss_node s))) (map_delete (pendings s) k, (ss_registry s).2))) as (s' & Hp & _).
    rewrite Hp. exists k, u. split_and!; [done | by symmetry | done|]. rewrite Hg'. exact Hp.
  - right. exists k, u. split_and!; [done..|]. by intros ? [= <-].
Qed.

(** ** The request *)

Lemma take_events_reg {A} (m : M TxEvents A) s : ss_node (on_registry (on_events m) s).2 = ss_node s /\ pendings (on_registry (on_events m) s).2 = pendings s.
Proof. unfold on_registry, on_events. destruct s as [n [p e]]. cbn. by destruct (m e). Qed.

Lemma take_events_ok h e : exists r, (take_events h e).1 = Ok r.
Proof. unfold take_events, mbind, M_bind, gets. cbn. destruct (map_get _ _); by eexists. Qed.
Lemma take_events_by_root_ok h e : exists r, (take_events_by_root h e).1 = Ok r.
Proof. unfold take_events_by_root, mbind, M_bind, gets. cbn. destruct (map_get _ _); by eexists. Qed.
Lemma on_events_fst {A} (m : M TxEvents A) s : (on_registry (on_events m) s).1 = (m (ss_registry s).2).1.
Proof. unfold on_registry, on_events. destruct s as [n [p e]]. cbn. by destruct (m e). Qed.

Lemma events_of_ok h root s : exists evs s', events_of h root s = (Ok evs, s') /\ ss_node s' = ss_node s /\ pendings s' = pendings s.
Proof.
  unfold events_of, mbind, M_bind. pose proof (take_events_reg (take_events h) s) as [N1 P1]. pose proof (on_events_fst (take_events h) s) as F1.
  destruct (take_events_ok h (ss_registry s).2) as [r1 R1]. rewrite R1 in F1. destruct (on_registry (on_events (take_events h)) s) as [x s1]. cbn [fst snd] in *. subst x.
  destruct r1 as [evs|]; [cbn; by eauto 10|].
  pose proof (take_events_reg (take_events_by_root root) s1) as [N2 P2]. pose proof (on_events_fst (take_events_by_root root) s1) as F2.
  destruct (take_events_by_root_ok root (ss_registry s1).2) as [r2 R2]. rewrite R2 in F2.
  destruct (on_registry (on_events (take_events_by_root root)) s1) as [x s2]. cbn [fst snd] in *. subst x. cbn.
  do 2 eexists. split_and!; [reflexivity | congruence..].
Qed.

(** After a successful finalisation: which update it was and what the tree is. *)
Lemma apply_tree b cbor h n s root s' : map_wf (pendings s) -> (forall k u, map_get (pendings s) k = Some u -> settled u) ->
  applyPendingIbcTreeUpdate b cbor h n s = (Ok root, s') ->
  exists k u, map_get (pendings s) k = Some u /\ expectedNewRoot u = root /\ readConfirmedTxRoot cbor h = Ok root /\
    pendings s' = map_delete (pendings s) k /\ (ss_registry s').2 = (ss_registry s).2 /\
    match pendingTree u with
    | Some t => currentTree (tree_of s') = t /\ aligned_at root (tree_of s')
    | None => aligned_at root (tree_of s) -> tree_of s' = tree_of s
    end.
Proof.
  intros Hwf Hset H. pose proof (apply_cases b cbor h n s Hwf) as Hc. rewrite H in Hc. destruct Hc as (k & u & Hg & Hr & Hread & Hp).
  exists k, u. pose proof (Hset _ _ Hg) as Hs. destruct (persist_registry b root n (MkSState (MkNode (commit_pending u (tree_of s)).2 (ns_db (ss_node s)))
    (map_delete (pendings s) k, (ss_registry s).2))) as (s1 & Hp1 & Hreg). rewrite Hp in Hp1. injection Hp1 as <-. rewrite Hreg. cbn [ss_registry fst snd].
  split_and!; [done..|]. unfold settled in Hs. unfold commit_pending in Hp. destruct (pendingTree u) as [t|]; [|by intros Ha; apply persist_aligned in Hp; [|exact Ha]].
  rewrite Hr in Hs. assert (aligned_at root (set_tree t (tree_of s))) as Ha by exact Hs. apply persist_aligned in Hp; [|exact Ha]. by rewrite Hp.
Qed.

(** C4 (safety): the tree follows the chain.  When a submission returns, the node has taken
    the transaction and the history has indexed it in the block of the response, one
    registered update has been taken out of the registry, its root is the one in the
    HostState output of that very transaction, and the canonical tree is the update's, at
    that root (a heartbeat leaves the tree as it was).  When it throws, the tree and the
    database are untouched; the registry is too, unless an update was found whose root the
    confirmed transaction does not have, which is dropped. *)
Theorem submission_finalizes b cbor s : map_wf (pendings s) -> (forall k u, map_get (pendings s) k = Some u -> settled u) ->
  match submitSignedTransaction b cbor s with
  | (Ok resp, s') => exists block root k u,
      submitToCardano cbor = Ok (tx_hash resp) /\ waitForIndexedConfirmation (tx_hash resp) = Ok block /\ height resp = "0-" +:+ pretty block /\
      readConfirmedTxRoot cbor (tx_hash resp) = Ok root /\ map_get (pendings s) k = Some u /\ expectedNewRoot u = root /\
      pendings s' = map_delete (pendings s) k /\
      match pendingTree u with
      | Some t => currentTree (tree_of s') = t /\ aligned_at root (tree_of s')
      | None => aligned_at root (tree_of s) -> tree_of s' = tree_of s
      end
  | (Err e, s') => (exists m, e = GrpcInternal ("Failed to submit signed transaction: " +:+ m)) /\ ss_node s' = ss_node s /\
      (s' = s \/ exists h k u, submitToCardano cbor = Ok h /\ map_get (pendings s) k = Some u /\ pendings s' = map_delete (pendings s) k /\
        forall root, readConfirmedTxRoot cbor h = Ok root -> root <> expectedNewRoot u)
  end.
Proof.
  intros Hwf Hset. unfold submitSignedTransaction, try_catch. case_bool_decide; [cbn; split_and!; [by eauto | done | by left]|].
  unfold mbind, M_bind, liftR. destruct (submitToCardano cbor) as [h|e]; [|cbn; split_and!; [by eauto | done | by left]].
  destruct (waitForIndexedConfirmation h) as [n|e] eqn:En; [|cbn; split_and!; [by eauto | done | by left]].
  destruct (applyPendingIbcTreeUpdate b cbor h n s) as [[root|e] s1] eqn:Ea.
  - destruct (apply_tree _ _ _ _ _ _ _ Hwf Hset Ea) as (k & u & Hg & Hr & Hread & Hp & _ & Ht).
    destruct (events_of_ok h root s1) as (evs & s2 & -> & Hn & Hpe). cbn [mret M_ret tx_hash height]. rewrite Hpe, Hn.
    exists n, root, k, u. by split_and!.
  - pose proof (apply_cases b cbor h n s Hwf) as Hc. rewrite Ea in Hc. cbn. split_and!; [by eauto | by destruct Hc as [->|(k & u & _ & -> & _)] |].
    destruct Hc as [->|(k & u & Hg & -> & Hne)]; [by left | right; by exists h, k, u].
Qed.

(** ** Retries *)

Lemma to_double_exact z : Z.abs z < 2 ^ 53 -> to_double z = z.
Proof.
  intros Hz. unfold to_double. assert (Z.log2 (Z.abs z) <= 52) as Hl.
  { destruct (decide (z = 0)) as [->|Hz0]; [done|]. apply Z.lt_succ_r. change (Z.succ 52) with 53. apply Z.log2_lt_pow2; lia. }
  replace (Z.log2 (Z.abs z) - 52 <=? 0) with true by (symmetry; apply Z.leb_le; lia). done.
Qed.

(** What is rounded stays at least as large as a safe integer. *)
Lemma to_double_ge z : 2 ^ 53 <= z -> 2 ^ 53 <= to_double z.
Proof.
  intros Hz. unfold to_double. rewrite Z.abs_eq by lia. assert (53 <= Z.log2 z) as Hl by (apply Z.log2_le_pow2; lia).
  replace (Z.log2 z - 52 <=? 0) with false by (symmetry; apply Z.leb_gt; lia). rewrite Z.sgn_pos, Z.mul_1_l by lia.
  set (e := Z.log2 z - 52). assert (2 ^ 52 <= z / 2 ^ e) as Hq.
  { apply Z.div_le_lower_bound; [apply Z.pow_pos_nonneg; lia|]. rewrite <- Z.pow_add_r by lia. replace (e + 52) with (Z.log2 z) by lia. apply Z.log2_spec. lia. }
  assert (2 <= 2 ^ e) as He by (change 2 with (2 ^ 1) at 1; apply Z.pow_le_mono_r; lia).
  destruct (_ || _); nia.
Qed.

Lemma timer_bounds t : currentSlot t < invalidBefore t ->
  timer_ms (wait_ms t) = if invalidBefore t - currentSlot t <=? 2147483 then (invalidBefore t - currentSlot t) * 1000 + 250 else 1.
Proof.
  intros Ht. unfold timer_ms, wait_ms, slotLengthMs, retryBackoffMs. set (d := invalidBefore t - currentSlot t). assert (1 <= d) as Hd by lia.
  destruct (Z.leb_spec d 2147483) as [Hs|Hs].
  - rewrite (to_double_exact d), Z.max_r, (to_double_exact (d * 1000)), to_double_exact by lia. by replace (2 ^ 31 - 1 <? d * 1000 + 250) with false by (symmetry; apply Z.ltb_ge; lia).
  - assert (forall z, 2 ^ 31 <= z -> 2 ^ 31 <= to_double z) as Hmono.
    { intros z Hz. destruct (Z.lt_ge_cases z (2 ^ 53)); [rewrite to_double_exact; lia|]. pose proof (to_double_ge z). lia. }
    assert (2147483 < to_double d) as Hdd.
    { destruct (Z.lt_ge_cases d (2 ^ 53)); [rewrite to_double_exact; lia|]. pose proof (to_double_ge d). lia. }
    assert (2 ^ 31 <= to_double (Z.max 1 (to_double d) * 1000)) as H1 by (apply Hmono; lia).
    assert (2 ^ 31 <= to_double (to_double (Z.max 1 (to_double d) * 1000) + 250)) as H2 by (apply Hmono; lia).
    by replace (2 ^ 31 - 1 <? to_double (to_double (Z.max 1 (to_double d) * 1000) + 250)) with true by (symmetry; apply Z.ltb_lt; lia).
Qed.

(** Why an attempt is the last one. *)
Definition final_refusal (left : nat) (e : error) : Prop :=
  match parseTxSubmittedTooEarlyError e with
  | None => True
  | Some t => left = 0%nat \/ exists after, invalidAfter t = Some after /\ after < currentSlot t
  end.

Lemma too_early_slots e t : parseTxSubmittedTooEarlyError e = Some t -> currentSlot t < invalidBefore t.
Proof.
  unfold parseTxSubmittedTooEarlyError. destruct (negb _); [done|]. cbn.
  destruct (extractNumberAfterToken _ "currentSlot") as [a|]; [|done]. cbn. destruct (extractNumberAfterToken _ "invalidBefore") as [b|]; [|done]. cbn.
  destruct (Z.leb_spec b a); [done|]. by intros [= <-].
Qed.

Lemma submit_attempts_spec left attempt cbor :
  let '(r, waits) := submit_attempts left attempt cbor in
  (length waits <= left)%nat /\
  (forall i w, waits !! i = Some w -> exists e t, submitTx (attempt + i) cbor = Err e /\ parseTxSubmittedTooEarlyError e = Some t /\ w = timer_ms (wait_ms t)) /\
  match r with
  | Ok h => submitTx (attempt + length waits) cbor = Ok h
  | Err x => exists e, submitTx (attempt + length waits) cbor = Err e /\ x = submission_failed e /\ final_refusal (left - length waits) e
  end.
Proof.
  revert attempt. induction left as [|left IH]; intros attempt; cbn [submit_attempts]; destruct (submitTx attempt cbor) as [h|e] eqn:Es;
    try (cbn; rewrite ?Nat.add_0_r; split_and!; [lia | by intros [] | done]).
  all: destruct (parseTxSubmittedTooEarlyError e) as [t|] eqn:Ep;
    [|cbn; rewrite Nat.add_0_r; split_and!; [lia | by intros [] |]; exists e; split_and!; [done | done | by unfold final_refusal; rewrite Ep]].
  all: destruct (match invalidAfter t with Some after => after <? currentSlot t | None => false end) eqn:El.
  1, 3: cbn; rewrite Nat.add_0_r; split_and!; [lia | by intros [] |]; exists e; split_and!; [done | done |]; unfold final_refusal; rewrite Ep;
    destruct (invalidAfter t) as [after|]; [|done]; right; exists after; split; [done | by apply Z.ltb_lt].
  - cbn. rewrite Nat.add_0_r. split_and!; [lia | by intros [] |]. exists e. split_and!; [done | done |]. unfold final_refusal. rewrite Ep. by left.
  - specialize (IH (S attempt)). destruct (submit_attempts left (S attempt) cbor) as [r waits]. destruct IH as (Hlen & Hw & Hr). cbn [length].
    split_and!; [lia| |by rewrite Nat.add_succ_r, Nat.sub_succ].
    intros [|i] w; cbn; [intros [= <-]; rewrite Nat.add_0_r; by eauto | rewrite Nat.add_succ_r; apply Hw].
Qed.

(** C38 (bounds): retries of a submission.  A transaction goes to the node at most six times.
    Between two attempts lies a refusal as too early, and the wait after it lasts until
    the first slot of the validity interval and 250 ms, so that a slot later than
    [invalidBefore] has come; from 2147484 missing slots on (24.8 days) the delay
    overflows the timer and the wait is 1 ms.  The outcome is that of the last attempt:
    a hash, or its refusal, which was not for coming too early, or named an interval
    that had ended, or was the sixth. *)
Theorem submission_retries cbor :
  let '(r, waits) := submit_attempts maxRetries 0 cbor in
  (length waits <= 5)%nat /\ submitToCardano cbor = r /\
  (forall i w, waits !! i = Some w -> exists e t, submitTx i cbor = Err e /\ parseTxSubmittedTooEarlyError e = Some t /\
     let missing := invalidBefore t - currentSlot t in
     1 <= missing /\ w = (if missing <=? 2147483 then missing * 1000 + 250 else 1)) /\
  match r with
  | Ok h => submitTx (length waits) cbor = Ok h
  | Err x => exists e, submitTx (length waits) cbor = Err e /\ x = submission_failed e /\ final_refusal (5 - length waits) e
  end.
Proof.
  pose proof (submit_attempts_spec maxRetries 0 cbor) as H. unfold submitToCardano. destruct (submit_attempts maxRetries 0 cbor) as [r waits].
  destruct H as (Hlen & Hw & Hr). split_and!; [done | done | | exact Hr]. intros i w Hi. destruct (Hw i w Hi) as (e & t & He & Ht & ->).
  pose proof (too_early_slots _ _ Ht). exists e, t. split_and!; [done | done | lia | by apply timer_bounds].
Qed.

(** ** Closing the loop *)

Lemma speculate_settled {W} oldRoot (body : M ICS23MerkleTree W) g r g' :
  speculate oldRoot body g = (Ok r, g') -> settled (MkPending (newRoot r) (commitTree r)).
Proof. intros (t & s1 & t1 & _ & _ & Hr)%speculate_ok. unfold settled. cbn. by eapply getRoot_again. Qed.

Lemma take_registered h (p : pending) u : h <> "" -> map_get p (toLowerCase h) = Some u -> take_update h p = (Ok (Some u), map_delete p (toLowerCase h)).
Proof. intros Hne Hg. unfold take_update. rewrite decide_False by done. unfold mbind, M_bind, gets. cbn. by rewrite Hg. Qed.

(** An update registered under the transaction's hash is the one that is committed. *)
Lemma apply_registered b cbor h n s u : map_wf (pendings s) -> h <> "" -> map_get (pendings s) (toLowerCase h) = Some u ->
  readConfirmedTxRoot cbor h = Ok (expectedNewRoot u) ->
  exists s', applyPendingIbcTreeUpdate b cbor h n s = (Ok (expectedNewRoot u), s') /\
    (forall t, pendingTree u = Some t -> settled u -> currentTree (tree_of s') = t /\ aligned_at (expectedNewRoot u) (tree_of s')) /\
    pendings s' = map_delete (pendings s) (toLowerCase h).
Proof.
  intros Hwf Hne Hg Hr. unfold applyPendingIbcTreeUpdate, resolve_pending, mbind, M_bind. rewrite on_pending_take, (take_registered _ _ _ Hne Hg). cbn [fst snd].
  cbn [mret M_ret]. unfold liftR. rewrite Hr. rewrite bool_decide_eq_true_2 by done. cbn [negb]. unfold on_node, on_g.
  assert (exists g', commit_pending u (tree_of s) = (Ok tt, g') /\ forall t, pendingTree u = Some t -> g' = set_tree t (tree_of s)) as (g' & Hc & Hg').
  { unfold commit_pending. destruct (pendingTree u); eexists; (split; [reflexivity|]); naive_solver. }
  unfold with_pending. cbn [ss_node ss_registry]. rewrite Hc. cbn [fst snd ss_node ss_registry ns_db].
  destruct (persist_registry b (expectedNewRoot u) n (MkSState (MkNode g' (ns_db (ss_node s))) (map_delete (pendings s) (toLowerCase h), (ss_registry s).2)))
    as (s' & Hp & Hreg). rewrite Hp. exists s'. split_and!; [done| |by rewrite Hreg].
  intros t Ht Hs. pose proof (Hg' t Ht) as ->. unfold settled in Hs. rewrite Ht in Hs.
  assert (aligned_at (expectedNewRoot u) (set_tree t (tree_of s))) as Ha by exact Hs. apply persist_aligned in Hp; [|exact Ha]. by rewrite Hp.
Qed.

(** C39 (error): finalising out of order.  Two requests wait for two transactions of which the
    second spends the HostState the first one made; the history is polled by each on its
    own, so the second may be finalised first.  Both finalisations succeed, and the tree
    is then back at the first one's: it does not have the root now on chain. *)
Theorem late_finalization b cbor1 cbor2 h1 h2 n1 n2 s u1 u2 t1 t2 : map_wf (pendings s) -> h1 <> "" -> h2 <> "" -> toLowerCase h1 <> toLowerCase h2 ->
  map_get (pendings s) (toLowerCase h1) = Some u1 -> map_get (pendings s) (toLowerCase h2) = Some u2 ->
  pendingTree u1 = Some t1 -> pendingTree u2 = Some t2 -> settled u1 -> settled u2 -> expectedNewRoot u1 <> expectedNewRoot u2 ->
  readConfirmedTxRoot cbor1 h1 = Ok (expectedNewRoot u1) -> readConfirmedTxRoot cbor2 h2 = Ok (expectedNewRoot u2) ->
  exists s1 s2, applyPendingIbcTreeUpdate b cbor2 h2 n2 s = (Ok (expectedNewRoot u2), s1) /\ currentTree (tree_of s1) = t2 /\
    applyPendingIbcTreeUpdate b cbor1 h1 n1 s1 = (Ok (expectedNewRoot u1), s2) /\ currentTree (tree_of s2) = t1 /\
    isTreeAligned (expectedNewRoot u2) (tree_of s2) = (Ok false, tree_of s2).
Proof.
  intros Hwf Hn1 Hn2 Hne G1 G2 T1 T2 S1 S2 Hr R1 R2.
  destruct (apply_registered b cbor2 h2 n2 s u2 Hwf Hn2 G2 R2) as (s1 & A1 & F1 & P1). destruct (F1 _ T2 S2) as [E1 _].
  assert (map_wf (pendings s1)) as Hwf1 by (rewrite P1; by apply map_wf_delete).
  assert (map_get (pendings s1) (toLowerCase h1) = Some u1) as G1' by (rewrite P1, map_get_delete by done; by rewrite decide_False by done).
  destruct (apply_registered b cbor1 h1 n1 s1 u1 Hwf1 Hn1 G1' R1) as (s2 & A2 & F2 & _). destruct (F2 _ T1 S1) as [E2 Ha].
  exists s1, s2. split_and!; [done..|]. unfold isTreeAligned, mbind, M_bind, on_current. rewrite Ha. cbn [fst snd].
  rewrite bool_decide_eq_false_2 by done. cbn. by destruct (tree_of s2).
Qed.

Context `{BL : Blake2b} `{S3 : Sha3} `{EV : EscrowEnv} `{PE : PacketEnv} `{SE : SendEnv}.

(** C3 (refinement): from packet to tree.  Take a packet transaction built against a tree that
    holds the channel's datum, its update registered under the hash of the transaction.
    If the node takes the signed transaction, the history indexes it, and its HostState
    output carries the datum the transaction was built with, then the submission returns;
    the canonical tree holds the channel's next datum and has the root now on chain, so
    the next builder finds it aligned; and the update is gone from the registry. *)
Theorem packet_update_submitted `{LOK : !LucidOk} `{STD : !Sha256Std} tx p g g' e c h d g1 b cbor txHash block o s :
  (encode_host_state (updated_host_state h (expectedNewRoot p)) = Ok (tx_encodedUpdatedHostStateDatum tx) ->
   decode_host_state (tx_encodedUpdatedHostStateDatum tx) = Ok (updated_host_state h (expectedNewRoot p))) ->
  packet_tx g tx p g' e c -> decode_datum decode_channel (tx_channelUtxo tx) = Ok d -> datum_wf d ->
  host_state_is (tx_hostStateUtxo tx) h -> ensureTreeAligned (ibc_state_root (hs_state h)) g = (Ok tt, g1) -> state_ok g1 ->
  channel_committed (base_tree g1 (ibc_state_root (hs_state h))) (convertHex2String (cd_port d)) c (cd_state d) ->
  map_wf (pendings s) -> map_get (pendings s) (toLowerCase txHash) = Some p -> txHash <> "" -> cbor <> "" ->
  submitToCardano cbor = Ok txHash -> waitForIndexedConfirmation txHash = Ok block ->
  findHostStateOutputInSignedTx cbor txHash = Ok o -> out_datum o = Some (tx_encodedUpdatedHostStateDatum tx) ->
  exists d' u resp s', channel_step d e d' /\ packet_updates_of (convertHex2String (cd_port d)) c (cd_state d) (cd_state d') u /\
    submitSignedTransaction b cbor s = (Ok resp, s') /\ tx_hash resp = txHash /\
    ensureTreeAligned (ibc_state_root (hs_state (updated_host_state h (expectedNewRoot p)))) (tree_of s') = (Ok tt, tree_of s') /\
    (Forall (fun x => value_ok x.2) (pu_list u) -> channel_committed (currentTree (tree_of s')) (convertHex2String (cd_port d)) c (cd_state d')) /\
    pendings s' = map_delete (pendings s) (toLowerCase txHash).
Proof.
  intros Hrt Htx Hd Hw Hh Ha Hok Hcom Hwf Hg Hne Hc Hsub Hwait Ho Hdat.
  destruct (packet_tx_replays _ _ _ _ _ _ _ _ _ Htx Hd Hw Hh Ha Hok Hcom) as (d' & Hstep & _ & r & u & _ & _ & Henc & -> & Hu & Hcommit).
  pose proof Htx as (h0 & d0 & d1 & _ & _ & _ & [_ _ (s2 & r0 & _ & Hcomp & _ & _ & Hp)])%packet_tx_steps.
  assert (settled (MkPending (newRoot r) (commitTree r))) as Hset by (rewrite Hp; by eapply speculate_settled).
  assert (readConfirmedTxRoot cbor txHash = Ok (expectedNewRoot (MkPending (newRoot r) (commitTree r)))) as Hread.
  { unfold readConfirmedTxRoot, extractHostStateDatumCborFromSignedTx. rewrite Ho. cbn. rewrite Hdat. cbn. by rewrite (Hrt Henc). }
  destruct (apply_registered b cbor txHash block s _ Hwf Hne Hg Hread) as (s1 & Happ & Htree & Hpend).
  destruct (Htree _ eq_refl Hset) as [Ht Hal]. destruct (events_of_ok txHash (newRoot r) s1) as (evs & s' & Hev & Hn & Hpe).
  exists d', u, (MkSubmitResponse txHash ("0-" +:+ pretty block) evs), s'. split_and!; [done | done | | done | | by rewrite Hn, Ht; apply Hcommit | by rewrite Hpe].
  - unfold submitSignedTransaction, try_catch. rewrite bool_decide_eq_false_2 by done. unfold mbind, M_bind, liftR.
    rewrite Hsub, Hwait, Happ. cbn [expectedNewRoot MkPending]. by rewrite Hev.
  - rewrite Hn. unfold ensureTreeAligned, isTreeAligned, mbind, M_bind, on_current. cbn [updated_host_state hs_state ibc_state_root]. rewrite Hal.
    rewrite bool_decide_eq_true_2 by done. cbn. by destruct (tree_of s1).
Qed.

End submission.

(** * An evaluated submission

    The query packet of [PacketOpsWitnesses], sent: the node first answers that it is too
    early, and the history indexes the transaction at the second poll. *)

#[local] Existing Instances demo_view demo_sha3 demo_escrow demo_deployment demo_env demo_send_env.

Definition demo_too_early : error :=
  JsError "The transaction is outside of its validity interval: currentSlot = 40, invalidBefore = 42".

Definition demo_built : option (PacketTx * PendingTreeUpdate) :=
  match buildUnsignedSendModulePacketTx demo_send demo_state with (Ok (tx, p, _), _) => Some (tx, p) | _ => None end.
Definition output_of (o : option (PacketTx * PendingTreeUpdate)) : string :=
  match o with Some (tx, _) => tx_encodedUpdatedHostStateDatum tx | None => "" end.
Definition pending_of (o : option (PacketTx * PendingTreeUpdate)) : PendingTreeUpdate :=
  match o with Some (_, p) => p | None => MkPending "" new_tree end.
Definition demo_output : string := output_of demo_built.
Definition demo_pending : PendingTreeUpdate := pending_of demo_built.
(** An update that another transaction leads to: the tree as it is. *)
Definition demo_other : PendingTreeUpdate := MkPending demo_root (currentTree demo_aligned).
Definition demo_other_output : string := match encode_host_state demo_host with Ok d => d | Err _ => "" end.

#[local] Instance demo_submission : SubmissionEnv := {|
  submitTx n _ := match n with O => Err demo_too_early | _ => Ok "AA11" end;
  history_polls _ := [Ok None; Ok (Some 7)];
  queryPacketEventsByTxHash _ := Ok [];
  transaction_outputs cbor :=
    Ok [MkCmlOutput [] None; MkCmlOutput [("ab", "cd", 1)] (Some (if decide (cbor = "84a0") then demo_output else demo_other_output))];
  script_hash_from_hex h := Ok h; asset_name_from_hex h := Ok h; transaction_body_hash _ := throw "not hashed";
|}.

Definition demo_node : sstate :=
  MkSState (MkNode demo_state (MkDb true [])) ([("aa11", demo_pending); ("bb22", demo_other)], MkTxEvents [] []).

Lemma demo_pending_settled : settled demo_pending.
Proof. vm_compute. reflexivity. Qed.
Lemma demo_other_settled : settled demo_other.
Proof. vm_compute. reflexivity. Qed.
Lemma demo_node_wf : map_wf ((ss_registry demo_node).1).
Proof. apply (bool_decide_eq_true_1 _). vm_compute. reflexivity. Qed.
Lemma ok_inj {A} (a b : A) : Ok a = Ok b -> a = b.
Proof. by intros [= ->]. Qed.
Lemma two_entries (P : PendingTreeUpdate -> Prop) (k1 k2 : string) u1 u2 : P u1 -> P u2 -> forall k u, map_get (V := PendingTreeUpdate) [(k1, u1); (k2, u2)] k = Some u -> P u.
Proof. intros H1 H2 k u. cbn [map_get]. repeat case_decide; [| |done]; by intros [= <-]. Qed.
Lemma demo_node_settled k u : map_get (ss_registry demo_node).1 k = Some u -> settled u.
Proof. exact (two_entries settled "aa11" "bb22" demo_pending demo_other demo_pending_settled demo_other_settled k u). Qed.
Lemma demo_confirmed : readConfirmedTxRoot "84a0" "AA11" = Ok (expectedNewRoot demo_pending).
Proof. vm_compute. reflexivity. Qed.

Lemma submission_finalizes_witness : exists resp s',
  submitSignedTransaction true "84a0" demo_node = (Ok resp, s') /\ tx_hash resp = "AA11" /\ height resp = "0-7" /\
  (exists k u, map_get (ss_registry demo_node).1 k = Some u /\ expectedNewRoot u = expectedNewRoot demo_pending /\ (ss_registry s').1 = map_delete (ss_registry demo_node).1 k).
Proof.
  assert ((submitSignedTransaction true "84a0" demo_node).1 = Ok (MkSubmitResponse "AA11" "0-7" [])) as Hr by (vm_compute; reflexivity).
  pose proof (submission_finalizes true "84a0" demo_node demo_node_wf demo_node_settled) as H.
  destruct (submitSignedTransaction true "84a0" demo_node) as [r s'] eqn:E. cbn [fst] in Hr. subst r.
  destruct H as (block & root & k & u & Hs & Hw & Hh & Hread & Hg & Hroot & Hp & _). cbn [tx_hash] in Hread. pose proof (ok_inj _ _ (eq_trans (eq_sym demo_confirmed) Hread)) as Heq.
  do 2 eexists. split_and!; [reflexivity | reflexivity | reflexivity |].
  exists k, u. split; [exact Hg|]. split; [exact (eq_trans Hroot (eq_sym Heq)) | exact Hp].
Defined.

Lemma late_finalization_witness : exists s1 s2,
  applyPendingIbcTreeUpdate true "84a0" "AA11" 7 demo_node = (Ok (expectedNewRoot demo_pending), s1) /\
  applyPendingIbcTreeUpdate true "84a1" "BB22" 6 s1 = (Ok demo_root, s2) /\
  (isTreeAligned (expectedNewRoot demo_pending) (ns_tree (ss_node s2))).1 = Ok false.
Proof.
  assert (readConfirmedTxRoot "84a1" "BB22" = Ok (expectedNewRoot demo_other)) as R1 by (vm_compute; reflexivity).
  assert (pendingTree demo_pending = Some (default new_tree (pendingTree demo_pending))) as T2 by (vm_compute; reflexivity).
  assert (expectedNewRoot demo_other <> expectedNewRoot demo_pending) as Hne by (vm_compute; discriminate).
  destruct (late_finalization true "84a1" "84a0" "BB22" "AA11" 6 7 demo_node demo_other demo_pending (currentTree demo_aligned) _
    demo_node_wf ltac:(discriminate) ltac:(discriminate) ltac:(vm_compute; discriminate) eq_refl eq_refl eq_refl T2 demo_other_settled demo_pending_settled Hne R1 demo_confirmed)
    as (s1 & s2 & A1 & _ & A2 & _ & Hal).
  exists s1, s2. split_and!; [exact A1 | exact A2 | by rewrite Hal].
Defined.

Lemma packet_update_submitted_witness : exists tx p resp s' d',
  demo_built = Some (tx, p) /\ channel_step demo_datum (EvSend 2) d' /\
  submitSignedTransaction true "84a0" demo_node = (Ok resp, s') /\ tx_hash resp = "AA11" /\
  (ensureTreeAligned (expectedNewRoot p) (ns_tree (ss_node s'))).1 = Ok tt.
Proof.
  destruct (ok_exists (buildUnsignedSendModulePacketTx demo_send) demo_state) as ([[tx p] n] & g' & E); [vm_compute; reflexivity|].
  assert (n = 2) as -> by (transitivity (sent_sequence (buildUnsignedSendModulePacketTx demo_send demo_state));
    [symmetry; exact (f_equal sent_sequence E) | vm_compute; reflexivity]).
  assert (spent_utxos (Ok (tx, p, 2), g') = (demo_channel_utxo, demo_utxo "d0")) as Hu
    by (transitivity (spent_utxos (buildUnsignedSendModulePacketTx demo_send demo_state)); [symmetry; exact (f_equal spent_utxos E) | vm_compute; reflexivity]).
  injection Hu as Hu1 Hu2.
  assert (demo_built = Some (tx, p)) as Hb by (unfold demo_built; by rewrite E).
  assert (demo_pending = p) as Hp by (unfold demo_pending; by rewrite Hb).
  assert (demo_output = tx_encodedUpdatedHostStateDatum tx) as Ho by (unfold demo_output; by rewrite Hb).
  assert (decode_host_state demo_output = Ok (updated_host_state demo_host (expectedNewRoot demo_pending))) as Hrt by (vm_compute; reflexivity).
  destruct (packet_update_submitted tx p demo_state g' (EvSend 2) "channel-0" demo_host demo_datum demo_aligned true "84a0" "AA11" 7
    (MkCmlOutput [("ab", "cd", 1)] (Some demo_output)) demo_node) as (d' & u & resp & s' & Hstep & _ & Hsub & Hh & Hal & _).
  - intros _. rewrite <- Ho, <- Hp. exact Hrt.
  - exact (tx_send demo_state tx p g' demo_send 2 E).
  - rewrite Hu1. reflexivity.
  - apply demo_datum_wf.
  - rewrite Hu2. exists "d0". split_and!; reflexivity.
  - apply demo_align.
  - apply demo_aligned_same.
  - unfold base_tree. rewrite decide_False by (vm_compute; discriminate).
    eapply channel_committed_leaves; [symmetry; apply demo_aligned_same | apply demo_committed].
  - apply demo_node_wf.
  - rewrite <- Hp. reflexivity.
  - discriminate.
  - discriminate.
  - vm_compute; reflexivity.
  - vm_compute; reflexivity.
  - reflexivity.
  - cbn [out_datum]. by rewrite Ho.
  - exists tx, p, resp, s', d'. split_and!; [exact Hb | exact Hstep | exact Hsub | exact Hh | exact (f_equal fst Hal)].
Defined.
