(* ===== verification/Runtime.v ===== *)
(** * The browser runtime ([packages/cardano-ibc-tx-builder-runtime/src])

    A wallet builds ICS-20 sends without a Gateway.  The runtime carries its own copies of
    the commitment tree ([ics23MerkleTree.ts]), of the root computation and the rebuild
    ([ibcStateRoot.ts]) and of the escrow shard lookup ([transferEscrowShard.ts]), each
    written anew.  This file models the copies; the fields of the tree, the module state
    and the services are those of [MerkleTree], [StateRoot], [TreeRebuild] and
    [EscrowShard].  Names are the source's, so a name of this file hides the Gateway's. *)

From S2P Require Import Prelude JsMap JsString Hex MerkleTree Datum StateRoot TreeRebuild EscrowShard.

(** ** The tree *)

Section tree.
Context `{SHA : Sha256}.

Definition leafHash (key : string) (value : bytes) : bytes :=
  if decide (value = []) then EMPTY_HASH else
  let keyHash := sha256 (utf8 key) in
  let valueHash := sha256 value in
  sha256 ([x00] ++ keyHash ++ valueHash).

Definition innerHash (left right : bytes) : bytes :=
  if decide (left = EMPTY_HASH /\ right = EMPTY_HASH) then EMPTY_HASH else sha256 ([x01] ++ left ++ right).

Definition keyIndex64 (key : string) : N := be_to_N (take 8 (sha256 (utf8 key))).

Definition clone (t : ICS23MerkleTree) : ICS23MerkleTree :=
  MkTree (fold_left (fun m kv => map_set m kv.1 kv.2) (leaves t) []) EMPTY_HASH true None.

Definition set (key : string) (value : bytes) (t : ICS23MerkleTree) : ICS23MerkleTree :=
  MkTree (if decide (value = []) then map_delete (leaves t) key else map_set (leaves t) key value) (root t) true (nodesByHeight t).

Definition path_collision (previousKey key : string) : error :=
  JsError ("Merkle path collision between '" +:+ previousKey +:+ "' and '" +:+ key +:+ "'").

(** One leaf: its hash is stored whatever it is. *)
Definition rebuild_leaf (st : jsmap N string * level) (kv : string * bytes) : result (jsmap N string * level) :=
  let '(indexToKey, m) := st in
  let '(key, value) := kv in
  let index := keyIndex64 key in
  let stored := Ok (map_set indexToKey index key, map_set m index (leafHash key value)) in
  match map_get indexToKey index with
  | Some previousKey => if decide (previousKey <> "" /\ previousKey <> key) then Err (path_collision previousKey key) else stored
  | None => stored
  end.

Definition rebuild_parent (currentLevel parentLevel : level) (parentIndex : N) : level :=
  let left := node_at currentLevel (N.shiftl parentIndex 1) in
  let right := node_at currentLevel (N.lor (N.shiftl parentIndex 1) 1) in
  let parentHash := innerHash left right in
  if decide (parentHash = EMPTY_HASH) then parentLevel else map_set parentLevel parentIndex parentHash.

Definition rebuild_level (currentLevel : level) : level :=
  fold_left (rebuild_parent currentLevel) (set_of_list (map (fun index => N.shiftr index 1) (map_keys currentLevel))) [].

Fixpoint rebuild_levels (n : nat) (m : level) : list level :=
  match n with O => [m] | S n' => m :: rebuild_levels n' (rebuild_level m) end.

Definition ensureRebuilt : M ICS23MerkleTree unit := fun t =>
  if negb (dirty t) then (Ok tt, t) else
  match foldR rebuild_leaf ([], []) (leaves t) with
  | Ok (_, m0) =>
      let ns := rebuild_levels MERKLE_DEPTH_BITS m0 in
      (Ok tt, MkTree (leaves t) (node_at (level_at ns MERKLE_DEPTH_BITS) 0) false (Some ns))
  | Err e => (Err e, t)
  end.

Definition getRoot : M ICS23MerkleTree string := ensureRebuilt ;; gets (fun t => hex_encode (root t)).

Fixpoint siblings_from (ns : list level) (height fuel : nat) (index : N) : list bytes :=
  match fuel with
  | O => []
  | S fuel' => node_at (level_at ns height) (N.lxor index 1) :: siblings_from ns (S height) fuel' (N.shiftr index 1)
  end.

Definition getSiblings (key : string) : M ICS23MerkleTree (list bytes) :=
  ensureRebuilt ;;
  nodes ← gets nodesByHeight;
  match nodes with
  | Some ns => mret (siblings_from ns 0 MERKLE_DEPTH_BITS (keyIndex64 key))
  | None => raise (JsError "Cannot read properties of null (reading '0')")
  end.

(** ** Roots *)

Context `{L : Lucid}.

Definition isTreeAligned (onChainRoot : string) : M gstate bool :=
  r ← on_current getRoot; mret (bool_decide (r = onChainRoot)).

Definition getClonedTreeFromRoot (rootHash : string) : M gstate ICS23MerkleTree :=
  if decide (rootHash = zero_root) then mret new_tree else
  currentRoot ← on_current getRoot;
  if decide (currentRoot = rootHash) then gets (fun s => clone (currentTree s)) else raise (out_of_sync rootHash currentRoot).

(** The schemas are the Gateway's; no option is passed to [Data.to]. *)
Definition encodeClientStateValue (c : ClientState) : result string := Data_to false (client_state_data c).
Definition encodeConsensusStateValue (c : ConsensusState) : result string := Data_to false (consensus_state_data c).
Definition encodeConnectionEndValue (c : ConnectionEnd) : result string := Data_to false (connection_end_data c).
Definition encodeChannelEndValue (c : Channel) : result string := Data_to false (channel_data c).
Definition encodePacketStoreValue (bytesHex : string) : result bytes := hex_decode_prefix <$> Data_to false (PBytes bytesHex).

(** [getSiblings(path)], then [set(path, value)]; in the packet stores the value is
    encoded between the two. *)
Definition store_at (path : string) (value : result bytes) : M ICS23MerkleTree (list string) :=
  siblings ← getSiblings path;
  v ← liftR value;
  modify (set path v) ;;
  mret (hex_encode <$> siblings).

Definition update_changed (changed : bool) (path : string) (value : result string) : M ICS23MerkleTree (list string) :=
  if changed then v ← liftR value; store_at path (Ok (hex_decode_prefix v)) else mret [].

Definition update_commitments (p c : string) (input output : jsmap Z string) : M ICS23MerkleTree (list string) :=
  let inserted := entries_not_in output input in
  let removed := entries_not_in input output in
  match inserted, removed with
  | (sequence, commitmentBytes) :: _, _ =>
      if decide (length removed <> 0%nat \/ length inserted <> 1%nat) then
        raise (JsError ("HandlePacket root update expects exactly one commitment insertion and no deletions; got " +:+ counts inserted removed))
      else store_at (commitmentPath p c sequence) (encodePacketStoreValue commitmentBytes)
  | [], (sequence, _) :: _ =>
      if decide (length removed <> 1%nat) then
        raise (JsError ("HandlePacket root update expects exactly one commitment deletion; got " +:+ pretty (length removed)))
      else store_at (commitmentPath p c sequence) (Ok [])
  | [], [] => mret []
  end.

Definition update_inserted (what : string) (path : Z -> string) (input output : jsmap Z string) : M ICS23MerkleTree (list string) :=
  let inserted := entries_not_in output input in
  let removed := entries_not_in input output in
  match inserted, removed with
  | (sequence, valueBytes) :: _, _ =>
      if decide (length removed <> 0%nat \/ length inserted <> 1%nat) then
        raise (JsError ("HandlePacket root update expects " +:+ what +:+ "s to only ever insert a single entry; got " +:+ counts inserted removed))
      else store_at (path sequence) (encodePacketStoreValue valueBytes)
  | [], _ :: _ => raise (JsError ("HandlePacket root update does not allow " +:+ what +:+ " deletions"))
  | [], [] => mret []
  end.

Definition update_packet_state (p c : string) (input output : ChannelDatumState) : M ICS23MerkleTree HandlePacketW :=
  channelSiblings ← update_changed (negb (obj_ref (channel input) =? obj_ref (channel output))%nat)
    (channelEndPath p c) (encodeChannelEndValue (obj_val (channel output)));
  sendSiblings ← update_changed (negb (next_sequence_send input =? next_sequence_send output)%Z)
    (nextSequenceSendPath p c) (Data_to false (PInt (next_sequence_send output)));
  recvSiblings ← update_changed (negb (next_sequence_recv input =? next_sequence_recv output)%Z)
    (nextSequenceRecvPath p c) (Data_to false (PInt (next_sequence_recv output)));
  ackSiblings ← update_changed (negb (next_sequence_ack input =? next_sequence_ack output)%Z)
    (nextSequenceAckPath p c) (Data_to false (PInt (next_sequence_ack output)));
  commitmentSiblings ← update_commitments p c (packet_commitment input) (packet_commitment output);
  receiptSiblings ← update_inserted "receipt" (receiptPath p c) (packet_receipt input) (packet_receipt output);
  acknowledgementSiblings ← update_inserted "acknowledgement" (ackPath p c) (packet_acknowledgement input) (packet_acknowledgement output);
  mret (MkHandlePacketW channelSiblings sendSiblings recvSiblings ackSiblings commitmentSiblings receiptSiblings acknowledgementSiblings).

Definition computeRootWithHandlePacketUpdate (oldRoot portId channelId : string) (inputChannelDatum outputChannelDatum : ChannelDatum)
  : M gstate (StateRootResult HandlePacketW) :=
  tree ← getClonedTreeFromRoot oldRoot;
  '((w, newRoot), speculativeTree) ←
    on_local tree (w ← update_packet_state portId channelId (cd_state inputChannelDatum) (cd_state outputChannelDatum); r ← getRoot; mret (w, r));
  mret (MkResult newRoot w speculativeTree).

(** ** Rebuilding the tree *)

Context `{CV : ChainView}.

(** [tree.set(path, Buffer.from(value, 'hex'))] *)
Definition set_value (path : string) (value : result string) (tree : ICS23MerkleTree) : result ICS23MerkleTree :=
  v ← value; Ok (set path (hex_decode_prefix v) tree).

Definition add_port (tree : ICS23MerkleTree) (entry : string * ModuleRegistration) : result ICS23MerkleTree :=
  let portId := utf8_decode (hex_decode_prefix entry.1) in
  set_value (portPath portId) (Data_to false (module_registration_data entry.2)) tree.

Definition add_consensus (clientId : string) (tree : ICS23MerkleTree) (entry : Height * ConsensusState) : result ICS23MerkleTree :=
  set_value (consensusStatePath clientId (pretty (revisionHeight entry.1))) (encodeConsensusStateValue entry.2) tree.

Definition add_client (tree : ICS23MerkleTree) (clientUtxo : UTxO) : result ICS23MerkleTree :=
  match datum_of clientUtxo with
  | None => Ok tree
  | Some d =>
      clientDatum ← decode_client d;
      match first_unit clientUtxo with
      | None => Ok tree
      | Some clientUnit =>
          if decide (str_length clientUnit < 56 + 48 + 2)%nat then Ok tree else
          clientSequence ← BigInt (token_postfix clientUnit);
          let clientId := "07-tendermint-" +:+ pretty clientSequence in
          tree ← set_value (clientStatePath clientId) (encodeClientStateValue (clientState (cld_state clientDatum))) tree;
          foldR (add_consensus clientId) tree (consensusStates (cld_state clientDatum))
      end
  end.

Definition add_connection (tree : ICS23MerkleTree) (connectionUtxo : UTxO) : result ICS23MerkleTree :=
  match datum_of connectionUtxo with
  | None => Ok tree
  | Some d =>
      connectionDatum ← decode_connection d;
      match token_sequence connectionUtxo with
      | None => Ok tree
      | Some connectionSequenceStr =>
          set_value (connectionPath ("connection-" +:+ connectionSequenceStr)) (encodeConnectionEndValue (cnd_state connectionDatum)) tree
      end
  end.

Definition add_packet_entry (path : Z -> string) (tree : ICS23MerkleTree) (entry : Z * string) : result ICS23MerkleTree :=
  set_value (path entry.1) (Data_to false (PBytes entry.2)) tree.

Definition add_channel (tree : ICS23MerkleTree) (channelUtxo : UTxO) : result ICS23MerkleTree :=
  match datum_of channelUtxo with
  | None => Ok tree
  | Some dt =>
      channelDatum ← decode_channel dt;
      match token_sequence channelUtxo with
      | None => Ok tree
      | Some channelSequenceStr =>
          let c := "channel-" +:+ channelSequenceStr in
          let p := if decide (cd_port channelDatum = "") then "transfer" else utf8_decode (hex_decode_prefix (cd_port channelDatum)) in
          let st := cd_state channelDatum in
          tree ← set_value (channelEndPath p c) (encodeChannelEndValue (obj_val (channel st))) tree;
          tree ← set_value (nextSequenceSendPath p c) (Data_to false (PInt (next_sequence_send st))) tree;
          tree ← set_value (nextSequenceRecvPath p c) (Data_to false (PInt (next_sequence_recv st))) tree;
          tree ← set_value (nextSequenceAckPath p c) (Data_to false (PInt (next_sequence_ack st))) tree;
          tree ← foldR (add_packet_entry (commitmentPath p c)) tree (packet_commitment st);
          tree ← foldR (add_packet_entry (receiptPath p c)) tree (packet_receipt st);
          foldR (add_packet_entry (ackPath p c)) tree (packet_acknowledgement st)
      end
  end.

Definition collect (host : HostState) : result ICS23MerkleTree :=
  tree ← foldR add_port new_tree (bound_port host);
  clientUtxos ← queryAllClientUtxos;
  tree ← foldR add_client tree clientUtxos;
  connectionUtxos ← queryAllConnectionUtxos;
  tree ← foldR add_connection tree connectionUtxos;
  channelUtxos ← queryAllChannelUtxos;
  foldR add_channel tree channelUtxos.

Definition rebuildTreeFromChain : M gstate (ICS23MerkleTree * string) :=
  hostStateUtxo ← liftR findUtxoAtHostStateNFT;
  match hostStateUtxo ≫= datum_of with
  | None => raise (JsError "HostState UTXO has no datum")
  | Some d =>
      hostStateDatum ← liftR (decode_host_state d);
      let expectedRoot := ibc_state_root (hs_state hostStateDatum) in
      tree ← liftR (collect (hs_state hostStateDatum));
      '(computedRoot, tree) ← on_local tree getRoot;
      if decide (computedRoot = expectedRoot) then modify (set_tree tree) ;; mret (tree, computedRoot)
      else raise (JsError ("Tree rebuild failed: expected " +:+ expectedRoot +:+ " but computed " +:+ computedRoot))
  end.

Definition alignTreeWithChain : M gstate string :=
  ready ← gets servicesReady;
  if ready : bool then result ← rebuildTreeFromChain; mret result.2
  else raise (JsError "Tree services not initialized. Call initTreeServices() first.").

End tree.

(** ** Escrow shards *)

Section shard.
Context `{BL : Blake2b}.

Definition TRANSFER_ESCROW_SHARD_NAME_DOMAIN : bytes := utf8 "cardano-ibc/transfer-escrow-shard/v1".
Definition REGISTERED_ESCROW_SHARD_VALUE : bytes := [x01].
Definition EMPTY_REGISTRY_ROOT : string := text (replicate 64 x30).

Definition utxoRef (u : UTxO) : string := txHash u +:+ "#" +:+ pretty (outputIndex u).

Definition decodeHexBytes (value label : string) : result bytes :=
  if Nat.odd (str_length value) || negb (all_hex value) then throw (label +:+ " must be an even-length hexadecimal string")
  else Ok (hex_decode_prefix value).

Definition uint32BigEndian (value : N) : result bytes :=
  if (0xffffffff <? value)%N then throw ("Escrow shard framing length " +:+ pretty value +:+ " exceeds uint32") else Ok (be_of_N 4 value).

Definition transferEscrowShardTokenName (channelId packetDenom : string) : result string :=
  channelBytes ← decodeHexBytes channelId "channelId";
  denomBytes ← decodeHexBytes packetDenom "packetDenom";
  channelLength ← uint32BigEndian (N.of_nat (length channelBytes));
  denomLength ← uint32BigEndian (N.of_nat (length denomBytes));
  Ok (hex_encode (blake2b224 (TRANSFER_ESCROW_SHARD_NAME_DOMAIN ++ [x00] ++ channelLength ++ channelBytes ++ denomLength ++ denomBytes))).

(** [/^[0-9a-f]{n}$/] *)
Definition is_lower_hex (n : nat) (s : string) : bool := bool_decide (str_length s = n) && is_lower_hex_text s.

Definition transferEscrowShardRegistryKey (tokenName : string) : result string :=
  if is_lower_hex 56 tokenName then Ok ("escrowShards/" +:+ tokenName)
  else throw "Transfer escrow shard token name must be 28 lowercase hexadecimal bytes".

Definition escrowDatumDenomToken (encodedDenom : string) : result string :=
  packetDenomBytes ← decodeHexBytes encodedDenom "transfer escrow shard datum denom";
  let packetDenom := utf8_decode packetDenomBytes in
  if decide (utf8 packetDenom <> packetDenomBytes) then throw "Transfer escrow shard datum denom is not canonical UTF-8" else
  if decide (toLowerCase packetDenom = hex_encode (utf8 "lovelace")) then Ok "lovelace" else
  if Nat.odd (str_length packetDenom) || negb (is_hex_text packetDenom) then throw "Transfer escrow shard datum contains a non-hex denomination" else
  if decide (str_length packetDenom < 56 \/ 120 < str_length packetDenom)%nat then
    throw "Transfer escrow shard datum contains an invalid Cardano asset unit"
  else Ok (toLowerCase packetDenom).

Inductive ShardLookup :=
| LookupExisting (transferModuleUtxo utxo : UTxO) (encodedDatum shardTokenUnit : string)
| LookupMissing (transferModuleUtxo : UTxO) (encodedDatum shardTokenUnit : string) (registrySiblings : list string)
    (encodedUpdatedTransferModuleDatum : string).

Context `{SHA : Sha256} `{EV : EscrowEnv}.

Definition catch_error {A} (message : string) (r : result A) : result A :=
  match r with Ok a => Ok a | Err e => throw (message +:+ error_to_string e) end.

Definition registry_collision : string := "Transfer escrow shard registry Merkle path collision: ".

(** [try { return tree.getRoot() } catch ...], with the tree as the call leaves it. *)
Definition registryRoot (tree : ICS23MerkleTree) : result (string * ICS23MerkleTree) :=
  let '(r, t) := getRoot tree in catch_error registry_collision (root ← r; Ok (root, t)).

Definition registrySiblings (tree : ICS23MerkleTree) (key : string) : result (list string * ICS23MerkleTree) :=
  let '(r, t) := getSiblings key tree in catch_error registry_collision (siblings ← r; Ok (map hex_encode siblings, t)).

Fixpoint check_seen (seenOutRefs : list string) (moduleUtxos : list UTxO) : result unit :=
  match moduleUtxos with
  | [] => Ok tt
  | utxo :: rest =>
      if decide (utxoRef utxo ∈ seenOutRefs) then throw ("Transfer module address scan returned duplicate output " +:+ utxoRef utxo)
      else check_seen (utxoRef utxo :: seenOutRefs) rest
  end.

Definition find_module_root (moduleUtxos : list UTxO) : result UTxO :=
  let moduleRoots := filter (fun utxo => map_has (assets utxo) transferModuleIdentifier = true) moduleUtxos in
  let failure := throw ("Expected exactly one transfer module root, found " +:+ pretty (length moduleRoots)) in
  match moduleRoots with
  | [utxo] => if (quantity utxo transferModuleIdentifier =? 1)%Z then Ok utxo else failure
  | _ => failure
  end.

Definition read_registry_root (transferModuleUtxo : UTxO) : result string :=
  onChainRoot ← match datum_of transferModuleUtxo with
                | None => Ok EMPTY_REGISTRY_ROOT
                | Some d => catch_error "Malformed transfer module registry datum: " (decode_transferModule d)
                end;
  if is_lower_hex 64 onChainRoot then Ok onChainRoot
  else throw "Transfer module escrow shard registry root must be 32 lowercase hexadecimal bytes".

(** One candidate of the scan. *)
Definition scan_candidate (st : ICS23MerkleTree * jsmap string UTxO) (candidate : UTxO) : result (ICS23MerkleTree * jsmap string UTxO) :=
  let '(tree, canonicalShards) := st in
  let malformed : result (ICS23MerkleTree * jsmap string UTxO) := throw ("Malformed transfer escrow shard at " +:+ utxoRef candidate) in
  match filter (fun kv => startsWith shardPolicyId kv.1 = true) (assets candidate), datum_of candidate with
  | [], _ => Ok st
  | [(shardUnit, shardQuantity)], Some d =>
      if negb (str_length shardUnit =? str_length shardPolicyId + 56)%nat || negb (is_lower_hex_text shardUnit) || negb (shardQuantity =? 1)%Z
      then malformed else
      '(shardDatum, canonicalDenomToken) ←
        catch_error ("Malformed transfer escrow shard datum at " +:+ utxoRef candidate +:+ ": ")
          (shardDatum ← decode_transferEscrow d; token ← escrowDatumDenomToken (denom shardDatum); Ok (shardDatum, token));
      tokenName ← transferEscrowShardTokenName (channel_id shardDatum) (denom shardDatum);
      let unit := shardPolicyId +:+ tokenName in
      if negb (bool_decide (shardUnit = unit)) ||
         existsb (fun assetUnit => negb (bool_decide (assetUnit = "lovelace" \/ assetUnit = canonicalDenomToken \/ assetUnit = unit))) (map_keys (assets candidate))
      then throw ("Non-canonical transfer escrow shard at " +:+ utxoRef candidate) else
      if map_has canonicalShards unit then throw ("Duplicate transfer escrow shard " +:+ unit) else
      key ← transferEscrowShardRegistryKey tokenName;
      Ok (set key REGISTERED_ESCROW_SHARD_VALUE tree, map_set canonicalShards unit candidate)
  | _, _ => malformed
  end.

Definition findTransferEscrowShard (channelId packetDenom denomToken : string) (requiredAmount : option Z) : result ShardLookup :=
  if negb (is_lower_hex 56 shardPolicyId) then throw "Transfer escrow shard policy id must be 28 lowercase hexadecimal bytes" else
  canonicalRequestedDenom ← escrowDatumDenomToken packetDenom;
  if decide (denomToken <> canonicalRequestedDenom) then
    throw ("Requested asset " +:+ denomToken +:+ " does not match escrow shard denom " +:+ canonicalRequestedDenom) else
  encodedDatum ← encode_transferEscrow (MkTransferEscrowDatum channelId packetDenom);
  shardTokenName ← transferEscrowShardTokenName channelId packetDenom;
  let shardTokenUnit := shardPolicyId +:+ shardTokenName in
  moduleUtxos ← findUtxoAt transferModuleAddress;
  _ ← check_seen [] moduleUtxos;
  transferModuleUtxo ← find_module_root moduleUtxos;
  onChainRoot ← read_registry_root transferModuleUtxo;
  '(tree, canonicalShards) ← foldR scan_candidate (new_tree, []) moduleUtxos;
  '(liveRoot, tree) ← registryRoot tree;
  if decide (liveRoot <> onChainRoot) then throw "Transfer escrow shard registry root does not match live shards" else
  match map_get canonicalShards shardTokenUnit with
  | Some matchingUtxo =>
      if decide (datum matchingUtxo <> Some encodedDatum) then throw ("Transfer escrow shard " +:+ shardTokenUnit +:+ " has a non-canonical datum") else
      if match requiredAmount with Some required => (quantity matchingUtxo canonicalRequestedDenom <? required)%Z | None => false end
      then throw ("Transfer escrow shard " +:+ shardTokenUnit +:+ " has insufficient funds")
      else Ok (LookupExisting transferModuleUtxo matchingUtxo encodedDatum shardTokenUnit)
  | None =>
      registryKey ← transferEscrowShardRegistryKey shardTokenName;
      '(siblings, tree) ← registrySiblings tree registryKey;
      '(updatedRoot, _) ← registryRoot (set registryKey REGISTERED_ESCROW_SHARD_VALUE tree);
      encodedUpdated ← encode_transferModule updatedRoot;
      Ok (LookupMissing transferModuleUtxo encodedDatum shardTokenUnit siblings encodedUpdated)
  end.

End shard.
