(* ===== verification/RuntimeTheorems.v ===== *)
(** * The browser runtime agrees with the Gateway

    The runtime's tree holds, level by level, the nodes of the dense tree of [MerkleSpec],
    as the Gateway's does; a program of one that is followed step by step by a program of
    the other ([agree]) ends with the same result.  From there: the same roots and
    witnesses for a packet, the same tree after a rebuild, the same escrow shard. *)

From S2P Require Import Prelude JsMap JsString Hex MerkleTree MerkleSpec MerkleRefine OnChainCommitment ToyHash MerkleTheorems Datum ToyLucid StateRoot StateRootFacts StateRootTheorems TreeRebuild TreeServices TreeServicesTheorems EscrowShard EscrowShardTheorems Voucher Redeemers PacketDenom PacketOps PacketOpsTheorems PacketOpsWitnesses Runtime.

Section agreement.
Context `{SHA : Sha256}.

(** ** The levels *)

Lemma lor_1 p : N.lor (N.shiftl p 1) 1 = (N.shiftl p 1 + 1)%N.
Proof. by destruct p as [|[]]. Qed.

Lemma rebuild_level_same c : rebuild_level c = MerkleTree.rebuild_level c.
Proof.
  unfold rebuild_level, MerkleTree.rebuild_level, parents_of. generalize (@nil (N * bytes)). induction (set_of_list _) as [|p ps IH]; intros pm; [done|].
  cbn [fold_left]. replace (rebuild_parent c pm p) with (MerkleTree.rebuild_parent c pm p); [apply IH|].
  unfold rebuild_parent, MerkleTree.rebuild_parent. by rewrite lor_1.
Qed.

Lemma rebuild_levels_same n m : rebuild_levels n m = MerkleTree.rebuild_levels n m.
Proof. revert m. induction n as [|n IH]; intros m; cbn; [done|]. by rewrite rebuild_level_same, IH. Qed.

(** Where the runtime's leaf loop succeeds, so does the Gateway's. *)
Lemma leaf_loop_gateway ls itk m m2 itk' m' :
  foldR rebuild_leaf (itk, m) ls = Ok (itk', m') -> exists m2', foldR MerkleTree.rebuild_leaf (itk, m2) ls = Ok (itk', m2').
Proof.
  revert itk m m2. induction ls as [|[k v] ls IH]; intros itk m m2; [intros [= <- <-]; by exists m2|].
  cbn [foldR rebuild_leaf MerkleTree.rebuild_leaf]. change (MerkleTree.keyIndex64 k) with (keyIndex64 k).
  destruct (map_get itk (keyIndex64 k)) as [pk|]; [case_decide|]; cbn [mbind result_bind]; [by intros | apply IH | apply IH].
Qed.

Lemma leaf_loop_spec ls : index_free ls ->
  exists itk m, foldR rebuild_leaf ([], []) ls = Ok (itk, m) /\ index_known itk ls /\ forall i, node_at m i = leaf_of ls i.
Proof.
  induction ls as [|[k v] ls IH] using rev_ind; intros Hif.
  - destruct (rebuild_leaves_fold [] Hif) as (itk & m & H & Hrest). exists itk, m. by split.
  - apply index_free_snoc in Hif as [Hif Hfresh]. destruct (IH Hif) as (itk & m & Hf & Hk & Hm). rewrite foldR_snoc, Hf. cbn [mbind result_bind]. unfold rebuild_leaf.
    change (keyIndex64 k) with (MerkleTree.keyIndex64 k).
    destruct (map_get itk (MerkleTree.keyIndex64 k)) as [pk|] eqn:E.
    { exfalso. destruct (proj1 (Hk _) (ex_intro _ pk E)) as (k' & Hin & Heq). by apply (Hfresh k'). }
    do 2 eexists. split_and!; [reflexivity | by apply index_known_snoc|]. intros i. rewrite leaf_of_snoc, node_at_set by done.
    change (leafHash k v) with (MerkleTree.leafHash k v). repeat case_decide; congruence || apply Hm.
Qed.

(** ** The invariant of the runtime's tree *)

Record runtime_wf (t : ICS23MerkleTree) : Prop := {
  rw_keys : map_wf (leaves t);
  rw_values : Forall (fun kv => kv.2 <> []) (leaves t);
  rw_names : "" ∉ map_keys (leaves t);
  rw_cache : dirty t = false -> index_free (leaves t) /\ exists ns, tree_synced t ns;
}.

(** A tree of the Gateway and one of the runtime with the same contents. *)
Record same_tree (g t : ICS23MerkleTree) : Prop := {
  st_gateway : tree_sane g;
  st_runtime : runtime_wf t;
  st_leaves : leaves g = leaves t;
}.

Lemma runtime_wf_new : runtime_wf new_tree.
Proof. split; cbn; [apply map_wf_nil | constructor | by intros ?%elem_of_nil | done]. Qed.
Lemma same_tree_new : same_tree new_tree new_tree.
Proof. split; [apply tree_sane_new | apply runtime_wf_new | done]. Qed.

Lemma runtime_ensure t : runtime_wf t ->
  (index_free (leaves t) /\ exists t' ns, ensureRebuilt t = (Ok tt, t') /\ leaves t' = leaves t /\ runtime_wf t' /\ tree_synced t' ns) \/
  (~ index_free (leaves t) /\ exists e, ensureRebuilt t = (Err e, t)).
Proof.
  intros Hwf. unfold ensureRebuilt. destruct (dirty t) eqn:Hd; cbn [negb]; [|left; destruct (rw_cache _ Hwf Hd) as [Hif [ns Hs]]; split; [done|]; by exists t, ns].
  destruct (decide (index_free (leaves t))) as [Hif|Hif]; [left | right]; (split; [done|]).
  - destruct (leaf_loop_spec _ Hif) as (itk & m & -> & _ & Hm). do 2 eexists. split; [reflexivity|]. split; [reflexivity|].
    assert (forall h i, (h <= MERKLE_DEPTH_BITS)%nat -> node_at (level_at (rebuild_levels MERKLE_DEPTH_BITS m) h) i = node (leaf_of (leaves t)) h i) as Hl.
    { intros h i Hh. rewrite rebuild_levels_same, rebuild_levels_at by done. by apply node_ext. }
    assert (forall ns r, ns = rebuild_levels MERKLE_DEPTH_BITS m -> r = node_at (level_at ns MERKLE_DEPTH_BITS) 0 -> tree_synced (MkTree (leaves t) r false (Some ns)) ns) as Hs.
    { intros ns r -> ->. split; [done|]. split; [done|]. split; [exact (Hl _ _ (le_n _)) | exact Hl]. }
    split; [|by apply Hs]. split; [apply Hwf..|]. intros _. split; [done|]. eexists. by apply Hs.
  - destruct (foldR rebuild_leaf ([], []) (leaves t)) as [[itk m]|e] eqn:E; [|by exists e]. exfalso. apply Hif.
    destruct (leaf_loop_gateway _ _ _ [] _ _ E) as [m2 E2]. eapply rebuild_leaves_fold_inv; [apply Hwf | apply Hwf | exact E2].
Qed.

Lemma gateway_ensure g : tree_sane g ->
  (index_free (leaves g) /\ exists g' ns, MerkleTree.ensureRebuilt g = (Ok tt, g') /\ leaves g' = leaves g /\ tree_sane g' /\ tree_synced g' ns) \/
  (~ index_free (leaves g) /\ exists e g', MerkleTree.ensureRebuilt g = (Err e, g') /\ leaves g' = leaves g /\ tree_sane g').
Proof.
  intros [Hwf Hne]. destruct (decide (index_free (leaves g))) as [Hif|Hif]; [left | right]; (split; [done|]).
  - destruct (ensureRebuilt_spec g Hwf Hif) as (g' & ns & He & Hl & Hwf' & Hs). exists g', ns. split_and!; [done | done | | done]. split; [done | by rewrite Hl].
  - destruct (MerkleTree.ensureRebuilt g) as [[[]|e] g'] eqn:E; [exfalso; by eapply Hif, ensureRebuilt_ok|]. exists e, g'.
    pose proof (ensureRebuilt_leaves _ _ _ E) as Hl. split_and!; [done | done|]. split; [by eapply ensureRebuilt_wf, E | by rewrite Hl].
Qed.

(** ** Programs that agree *)

(** The same result from trees with the same contents, or a refusal by both; the trees
    have the same contents again. *)
Definition agree_on {S A B} (E : S -> S -> Prop) (R : A -> B -> Prop) (m : M S A) (m' : M S B) (s s' : S) : Prop :=
  match m s, m' s' with
  | (Ok a, g), (Ok b, t) => R a b /\ E g t
  | (Err _, g), (Err _, t) => E g t
  | _, _ => False
  end.
Definition agree {S A B} (E : S -> S -> Prop) (R : A -> B -> Prop) (m : M S A) (m' : M S B) : Prop := forall s s', E s s' -> agree_on E R m m' s s'.

Abbreviation agree_tree := (agree same_tree eq).

Lemma agree_ret {S A B} (E : S -> S -> Prop) (R : A -> B -> Prop) a b : R a b -> agree E R (mret a) (mret b).
Proof. by intros HR s s' HE. Qed.
Lemma agree_raise {S A B} (E : S -> S -> Prop) (R : A -> B -> Prop) e e' : agree E R (raise e) (raise e').
Proof. by intros s s' HE. Qed.
Lemma agree_bind {S A B A' B'} (E : S -> S -> Prop) (R : A -> B -> Prop) (R' : A' -> B' -> Prop) m m' k k' :
  agree E R m m' -> (forall a b, R a b -> agree E R' (k a) (k' b)) -> agree E R' (m ≫= k) (m' ≫= k').
Proof.
  intros Hm Hk s s' HE. specialize (Hm s s' HE). unfold agree_on, mbind, M_bind in *. destruct (m s) as [[a|e] g], (m' s') as [[b|e'] t]; try done.
  destruct Hm as [HR HE']. by apply Hk.
Qed.
Lemma agree_liftR {S A} (E : S -> S -> Prop) (r : result A) : agree E eq (liftR r) (liftR r).
Proof. intros s s' HE. unfold agree_on, liftR. by destruct r. Qed.

Lemma agree_getRoot : agree_tree MerkleTree.getRoot getRoot.
Proof.
  intros g t [Hg Ht Hl]. unfold agree_on, MerkleTree.getRoot, getRoot, mbind, M_bind, gets.
  destruct (gateway_ensure g Hg) as [(Hif & g' & ns & -> & Hlg & Hg' & Hs)|(Hif & e & g' & -> & Hlg & Hg')],
    (runtime_ensure t Ht) as [(Hif' & t' & ns' & -> & Hlt & Ht' & Hs')|(Hif' & e' & ->)]; try (exfalso; rewrite Hl in Hif; tauto).
  - destruct Hs as (_ & _ & -> & _), Hs' as (_ & _ & -> & _). split; [congruence | split; [done | done | congruence]].
  - split; [done | done | congruence].
Qed.

Lemma siblings_from_same ns h n i : siblings_from ns h n i = MerkleTree.siblings_from ns h n i.
Proof. revert h i. induction n as [|n IH]; intros h i; cbn; [done | by rewrite IH]. Qed.

Lemma agree_getSiblings key : agree_tree (MerkleTree.getSiblings key) (getSiblings key).
Proof.
  intros g t [Hg Ht Hl]. unfold agree_on, MerkleTree.getSiblings, getSiblings, mbind, M_bind, gets.
  destruct (gateway_ensure g Hg) as [(Hif & g' & ns & -> & Hlg & Hg' & Hs)|(Hif & e & g' & -> & Hlg & Hg')],
    (runtime_ensure t Ht) as [(Hif' & t' & ns' & -> & Hlt & Ht' & Hs')|(Hif' & e' & ->)]; try (exfalso; rewrite Hl in Hif; tauto).
  - destruct Hs as (-> & _ & _ & Hat), Hs' as (-> & _ & _ & Hat'). cbn [default mret M_ret]. split; [|split; [done | done | congruence]].
    transitivity (MerkleTree.siblings_from ns' 0 MERKLE_DEPTH_BITS (MerkleTree.keyIndex64 key)); [|symmetry; apply siblings_from_same].
    rewrite (siblings_from_spec _ _ _ _ _ Hat), (siblings_from_spec _ _ _ _ _ Hat') by (cbn; lia). congruence.
  - split; [done | done | congruence].
Qed.

Lemma set_same key value t : set key value t = tree_set key value t.
Proof. unfold set, tree_set, set_leaves. by case_decide. Qed.

Lemma runtime_wf_set key value t : runtime_wf t -> key <> "" -> runtime_wf (set key value t).
Proof.
  intros [Hk Hv Hn _] Hne. split; cbn [leaves dirty set]; [..|done]; case_decide; auto with gateway.
  - by apply Forall_map_delete.
  - by apply Forall_map_set.
  - intros (kv & Hin)%list_elem_of_fmap. apply Hn. apply list_elem_of_fmap. exists kv. split; [apply Hin|]. by eapply elem_of_map_delete, Hin.
  - intros Hin. assert ("" ∈ map_keys (leaves (tree_set key value t))) as Hin2 by (unfold tree_set; by rewrite decide_False). apply tree_set_keys in Hin2 as [Hin2|Hin2]; congruence.
Qed.

Lemma same_tree_set key value g t : same_tree g t -> key <> "" -> same_tree (tree_set key value g) (set key value t).
Proof.
  intros [[Hwf Hne] Ht Hl] Hk. split; [split; [by apply tree_wf_set | by intros [E|E]%tree_set_keys; congruence] | by apply runtime_wf_set |].
  rewrite set_same. by apply leaves_set.
Qed.

Lemma same_tree_clone g t : same_tree g t -> same_tree (MerkleTree.clone g) (clone t).
Proof.
  intros [[Hwf Hne] [Hk Hv Hn _] Hl]. assert (leaves (MerkleTree.clone g) = leaves g) as Hc by apply clone_leaves, Hwf.
  split; [split; [by apply tree_wf_clone | by rewrite Hc] | | by cbn; rewrite Hl]. change (clone t) with (MerkleTree.clone t).
  assert (leaves (MerkleTree.clone t) = leaves t) as Hc' by (by apply clone_leaves). split; rewrite ?Hc'; done.
Qed.

Lemma gateway_siblings_leaves path g : leaves (MerkleTree.getSiblings path g).2 = leaves g.
Proof.
  unfold MerkleTree.getSiblings, mbind, M_bind, gets. destruct (MerkleTree.ensureRebuilt g) as [[x|e] g'] eqn:E; by eapply ensureRebuilt_leaves.
Qed.

(** Encoding before or after the siblings are read makes no difference. *)
Lemma agree_store path (value : result bytes) : path <> "" -> agree_tree (v ← liftR value; update_key path v) (store_at path value).
Proof.
  intros Hp g t HE. pose proof (agree_getSiblings path g t HE) as Hs. pose proof (gateway_siblings_leaves path g) as Hl. unfold agree_on, store_at, update_key, mbind, M_bind, liftR, modify in *.
  destruct value as [v|e]; destruct (MerkleTree.getSiblings path g) as [[a|e1] g1], (getSiblings path t) as [[b|e2] t1]; try done.
  - destruct Hs as [<- Hs]. split; [done | by apply same_tree_set].
  - destruct Hs as [_ [_ Hr Hl1]]. split; [apply HE | done | cbn in Hl; congruence].
  - destruct Hs as [_ Hr Hl1]. split; [apply HE | done | cbn in Hl; congruence].
Qed.

Lemma agree_update path v : path <> "" -> agree_tree (update_key path v) (store_at path (Ok v)).
Proof. intros Hp g t HE. exact (agree_store path (Ok v) Hp g t HE). Qed.

(** ** The root of a packet *)

Section roots.
Context `{L : Lucid}.

Lemma agree_changed changed path value : path <> "" -> agree_tree (update_if changed path value) (update_changed changed path value).
Proof.
  intros Hp. unfold update_if, update_changed. destruct changed; [|by apply agree_ret].
  eapply agree_bind; [apply agree_liftR|]. intros v ? <-. by apply agree_update.
Qed.

Lemma agree_packet_value path b : path <> "" ->
  agree_tree (newValue ← liftR (encodeBytesValue b); update_key path (hex_decode_prefix newValue)) (store_at path (encodePacketStoreValue b)).
Proof.
  intros Hp g t HE. pose proof (agree_store path (encodePacketStoreValue b) Hp g t HE) as H. unfold encodePacketStoreValue, encodeBytesValue in *.
  by destruct (Data_to false (PBytes b)) as [v|e].
Qed.

Lemma agree_commitments p c input output : agree_tree (handle_packet_commitments p c input output) (update_commitments p c input output).
Proof.
  unfold handle_packet_commitments, update_commitments. destruct (entries_not_in output input) as [|[n b] ins], (entries_not_in input output) as [|[n' b'] rem];
    repeat case_decide; first [by apply agree_ret | apply agree_raise | by apply agree_packet_value | by apply agree_update].
Qed.

Lemma agree_inserted what path input output : (forall n, path n <> "") ->
  agree_tree (handle_packet_inserts what path input output) (update_inserted what path input output).
Proof.
  intros Hp. unfold handle_packet_inserts, update_inserted. destruct (entries_not_in output input) as [|[n b] ins], (entries_not_in input output) as [|[n' b'] rem];
    repeat case_decide; first [by apply agree_ret | apply agree_raise | by apply agree_packet_value].
Qed.

Lemma agree_packet p c input output : agree_tree (handle_packet_body p c input output) (update_packet_state p c input output).
Proof.
  unfold handle_packet_body, update_packet_state.
  do 4 (eapply agree_bind; [by apply agree_changed|]; intros ? ? <-).
  eapply agree_bind; [apply agree_commitments|]. intros ? ? <-.
  do 2 (eapply agree_bind; [by apply agree_inserted|]; intros ? ? <-). by apply agree_ret.
Qed.

(** ** The module state *)

Record same_state (s s' : gstate) : Prop := { ss_tree : same_tree (currentTree s) (currentTree s'); ss_ready : servicesReady s = servicesReady s' }.

Lemma agree_current {A B} (R : A -> B -> Prop) m m' : agree same_tree R m m' -> agree same_state R (on_current m) (on_current m').
Proof.
  intros H s s' [Ht Hr]. specialize (H _ _ Ht). unfold agree_on, on_current in *. destruct (m (currentTree s)) as [[a|e] g], (m' (currentTree s')) as [[b|e'] t]; try done.
  - by destruct H.
Qed.

Lemma agree_cloned rootHash : agree same_state same_tree (StateRoot.getClonedTreeFromRoot rootHash) (getClonedTreeFromRoot rootHash).
Proof.
  unfold StateRoot.getClonedTreeFromRoot, getClonedTreeFromRoot. case_decide; [apply agree_ret, same_tree_new|].
  eapply agree_bind; [apply agree_current, agree_getRoot|]. intros r ? <-. case_decide; [|apply agree_raise].
  intros s s' Hs. unfold agree_on, gets. split; [|done]. apply same_tree_clone, Hs.
Qed.

Lemma agree_local {A B} (R : A -> B -> Prop) m m' g t : agree same_tree R m m' -> same_tree g t ->
  agree same_state (fun x y => R x.1 y.1 /\ same_tree x.2 y.2) (on_local g m) (on_local t m').
Proof.
  intros H Ht s s' Hs. specialize (H g t Ht). unfold agree_on, on_local in *. by destruct (m g) as [[a|e] g'], (m' t) as [[b|e'] t'].
Qed.

(** The same root, the same siblings for every key, and trees with the same contents to commit. *)
Definition same_result {W} (r r' : StateRootResult W) : Prop :=
  newRoot r = newRoot r' /\ witness r = witness r' /\ same_tree (commitTree r) (commitTree r').

Lemma agree_roots oldRoot portId channelId input output :
  agree same_state same_result (StateRoot.computeRootWithHandlePacketUpdate oldRoot portId channelId input output)
    (computeRootWithHandlePacketUpdate oldRoot portId channelId input output).
Proof.
  unfold StateRoot.computeRootWithHandlePacketUpdate, speculate, computeRootWithHandlePacketUpdate.
  eapply agree_bind; [apply agree_cloned|]. intros g t Ht. eapply agree_bind.
  - apply (agree_local eq); [|exact Ht]. eapply agree_bind; [apply agree_packet|]. intros w ? <-.
    eapply agree_bind; [apply agree_getRoot|]. intros r ? <-. by apply agree_ret.
  - intros [[w r] t1] [[w' r'] t2] [[= <- <-] Hs]. by apply agree_ret.
Qed.

(** C5 (equivalence): the root of a packet in the browser.  From canonical trees with the same
    contents and for every pair of channel datums, the runtime's root computation and the
    Gateway's agree: both refuse, or both return the same root and the same siblings for
    every key, with trees of the same contents to commit; and the canonical trees keep
    the same contents.  So a send built in the browser carries the witnesses the Gateway
    would have put there. *)
Theorem runtime_roots_agree oldRoot portId channelId input output s s' : same_state s s' ->
  match StateRoot.computeRootWithHandlePacketUpdate oldRoot portId channelId input output s,
        computeRootWithHandlePacketUpdate oldRoot portId channelId input output s' with
  | (Ok r, g), (Ok r', t) => same_result r r' /\ same_state g t
  | (Err _, g), (Err _, t) => same_state g t
  | _, _ => False
  end.
Proof.
  apply agree_roots.
Qed.

(** ** Rebuilding *)

Context `{CV : ChainView}.

Lemma foldR_ext {A B} (f f' : A -> B -> result A) l a : (forall a x, x ∈ l -> f a x = f' a x) -> foldR f a l = foldR f' a l.
Proof.
  revert a. induction l as [|x l IH]; intros a H; cbn; [done|]. rewrite (H a x) by left. destruct (f' a x); cbn; [|done].
  apply IH. intros; apply H; by right.
Qed.

Lemma set_value_same path value t : set_value path value t = set_encoded path value t.
Proof. unfold set_value, set_encoded. destruct value; cbn; [|done]. by rewrite set_same. Qed.

Lemma add_client_same t u : add_client t u = TreeRebuild.add_client t u.
Proof.
  unfold add_client, TreeRebuild.add_client. destruct (datum_of u); [|done]. destruct (decode_client _); cbn; [|done]. destruct (first_unit u); [|done].
  case_decide; [done|]. destruct (BigInt _); cbn; [|done]. rewrite set_value_same. destruct (set_encoded _ _ _); cbn; [|done].
  apply foldR_ext. intros t1 x _. apply set_value_same.
Qed.

Lemma add_connection_same t u : add_connection t u = TreeRebuild.add_connection t u.
Proof.
  unfold add_connection, TreeRebuild.add_connection. destruct (datum_of u); [|done]. destruct (decode_connection _); cbn; [|done].
  destruct (token_sequence u); [|done]. apply set_value_same.
Qed.

Lemma add_entries_same path t m : foldR (add_packet_entry path) t m = foldR (add_sequence path) t m.
Proof. apply foldR_ext. intros t1 x _. apply set_value_same. Qed.

Lemma add_channel_same t u : add_channel t u = TreeRebuild.add_channel t u.
Proof.
  unfold add_channel, TreeRebuild.add_channel, add_channel_state. destruct (datum_of u); [|done]. destruct (decode_channel _) as [d|]; cbn [mbind result_bind]; [|done].
  destruct (token_sequence u); [|done]. unfold channel_port. rewrite set_value_same.
  do 4 (first [destruct (set_encoded _ _ _); cbn [mbind result_bind]; [|done]; rewrite ?set_value_same]).
  do 2 (rewrite add_entries_same; destruct (foldR _ _ _); cbn [mbind result_bind]; [|done]). apply add_entries_same.
Qed.

(** The keys of the bound ports are byte strings of the datum. *)
Definition ports_hex (host : HostState) : Prop := Forall (fun e => exists b, e.1 = hex_encode b) (bound_port host).

Lemma add_port_same t e : (exists b, e.1 = hex_encode b) -> add_port t e = TreeRebuild.add_port t e.
Proof.
  intros [b Hb]. unfold add_port, TreeRebuild.add_port, convertHex2String. rewrite set_value_same, Hb. f_equal. f_equal. rewrite hex_decode_encode.
  case_decide as E; [|by rewrite hexToBytes_encode]. assert (b = []) as -> by (rewrite <- (hex_decode_encode b), E; done). done.
Qed.

Lemma collect_same host : ports_hex host -> collect host = collect_tree host.
Proof.
  intros Hp. unfold collect, collect_tree. rewrite (foldR_ext add_port TreeRebuild.add_port).
  2: { intros t e He. unfold ports_hex in Hp. rewrite Forall_forall in Hp. by apply add_port_same, Hp. }
  destruct (foldR _ _ _); cbn [mbind result_bind]; [|done]. destruct queryAllClientUtxos; cbn [mbind result_bind]; [|done].
  rewrite (foldR_ext add_client TreeRebuild.add_client) by (intros; apply add_client_same). destruct (foldR _ _ _); cbn [mbind result_bind]; [|done].
  destruct queryAllConnectionUtxos; cbn [mbind result_bind]; [|done].
  rewrite (foldR_ext add_connection TreeRebuild.add_connection) by (intros; apply add_connection_same). destruct (foldR _ _ _); cbn [mbind result_bind]; [|done].
  destruct queryAllChannelUtxos; cbn [mbind result_bind]; [|done]. apply foldR_ext. intros; apply add_channel_same.
Qed.

Lemma same_tree_writes t t' : same_tree t t -> writes (fun k => k <> "") t t' -> same_tree t' t'.
Proof.
  intros Ht (us & Hus & ->). revert t Ht. induction Hus as [|[k v] us Hk _ IH]; intros t Ht; [done|].
  cbn. apply IH. pose proof (same_tree_set k v t t Ht Hk) as Hs. by rewrite set_same in Hs.
Qed.

(** C6 (equivalence): rebuilding in the browser.  From the same answers of the chain, whose
    bound ports are byte strings, the runtime's rebuild and the Gateway's agree, whatever
    each had in memory before: both return the same root with trees of the same contents,
    and then their root computations agree on every packet from every root; or both
    refuse, and each keeps its tree. *)
Theorem runtime_rebuild_agrees s s' : servicesReady s = servicesReady s' ->
  (forall u d h, findUtxoAtHostStateNFT = Ok (Some u) -> datum_of u = Some d -> decode_host_state d = Ok h -> ports_hex (hs_state h)) ->
  match TreeRebuild.rebuildTreeFromChain s, rebuildTreeFromChain s' with
  | (Ok (t, r), g), (Ok (t', r'), g') => r = r' /\ same_tree t t' /\ same_state g g' /\
      forall oldRoot portId channelId input output,
        agree_on same_state same_result (StateRoot.computeRootWithHandlePacketUpdate oldRoot portId channelId input output)
          (computeRootWithHandlePacketUpdate oldRoot portId channelId input output) g g'
  | (Err _, g), (Err _, g') => g = s /\ g' = s'
  | _, _ => False
  end.
Proof.
  intros Hready Hports. unfold TreeRebuild.rebuildTreeFromChain, rebuildTreeFromChain, mbind, M_bind, liftR.
  destruct findUtxoAtHostStateNFT as [u|e]; [|done]. destruct u as [u|]; cbn [option_bind]; [|done].
  destruct (datum_of u) as [d|] eqn:Ed; [|done]. destruct (decode_host_state d) as [h|e] eqn:Eh; [|done]. unfold try_catch. rewrite (collect_same _ (Hports _ _ _ eq_refl Ed Eh)).
  destruct (collect_tree (hs_state h)) as [t0|e] eqn:Ec; [|done]. unfold on_local.
  pose proof (agree_getRoot t0 t0 (same_tree_writes _ _ same_tree_new (collect_tree_writes _ _ Ec))) as Hr. unfold agree_on in Hr.
  destruct (MerkleTree.getRoot t0) as [[r|e] t], (getRoot t0) as [[r'|e'] t']; try done. destruct Hr as [<- Ht].
  case_decide; [|done]. cbn [modify mret M_ret]. assert (same_state (set_tree t s) (set_tree t' s')) as Hs by done.
  split_and!; [done..|]. intros oldRoot portId channelId input output. by apply agree_roots.
Qed.

End roots.
End agreement.

(** ** Escrow shards *)

Section shards.
Context `{SHA : Sha256} `{BL : Blake2b} `{EV : EscrowEnv}.

Lemma hex_value_lower a b : is_hex_byte a = true -> is_hex_byte b = true ->
  exists x, hex_decode_go [a; b] = [x] /\ hex_byte x = [lower_byte a; lower_byte b].
Proof.
  assert (forall c, is_hex_byte c = true -> exists n, fromHexChar c = Ok n) as Hc by (intros c Hc; destruct c; first [eexists; reflexivity | vm_compute in Hc; discriminate Hc]).
  intros (x & Hx)%Hc (y & Hy)%Hc. cbn. rewrite Hx, Hy. eexists. split; [reflexivity|]. apply decode_pair_lower. unfold decode_pair. cbn. by rewrite Hx, Hy.
Qed.

Lemma hex_lower_go n l : (length l <= n)%nat -> Nat.odd (length l) = false -> forallb is_hex_byte l = true -> hex_decode_go l ≫= hex_byte = map lower_byte l.
Proof.
  revert l. induction n as [|n IH]; intros [|a [|b l]] Hn Ho Hh; try done; [cbn in Hn; lia|].
  cbn [forallb] in Hh. apply andb_true_iff in Hh as [Ha [Hb Hl]%andb_true_iff]. destruct (hex_value_lower a b Ha Hb) as (x & Hx & Hlow).
  cbn [hex_decode_go] in Hx |- *. destruct (fromHexChar a); [|done]. destruct (fromHexChar b); [|done]. injection Hx as <-.
  change ((?x :: ?y) ≫= hex_byte) with (hex_byte x ++ (y ≫= hex_byte)). rewrite Hlow, IH; [done | cbn in Hn; lia | done | done].
Qed.

(** An even hexadecimal text and its bytes. *)
Lemma hex_lower s : Nat.odd (str_length s) = false -> all_hex s = true -> hex_encode (hex_decode_prefix s) = toLowerCase s.
Proof. intros Ho Hh. unfold hex_encode, toLowerCase, hex_decode_prefix. f_equal. by apply (hex_lower_go (length (utf8 s))). Qed.

Lemma denom_token_same d tok : escrowDenomTokenFromPacketDenom d = Ok tok -> escrowDatumDenomToken d = Ok tok.
Proof.
  unfold escrowDenomTokenFromPacketDenom, escrowDatumDenomToken, decodeHexBytes, EscrowShard.decodeHexBytes. destruct (_ || _); [done|]. cbn [mbind result_bind].
  set (s := utf8_decode _). case_decide; [done|]. destruct (_ || _) eqn:E; [done|]. apply orb_false_iff in E as [Ho [_ Hh]%negb_false_iff%andb_true_iff].
  pose proof (hex_lower s Ho Hh) as Hl. destruct (decide (toLowerCase s = hex_encode (utf8 "lovelace"))) as [E|E].
  - rewrite <- Hl in E. apply (inj hex_encode) in E. rewrite E. rewrite decide_True by (split; [vm_compute; reflexivity | done]). done.
  - rewrite decide_False by (intros [_ E2]; apply E; by rewrite <- Hl, E2). case_decide; [done|]. by rewrite Hl.
Qed.

Lemma token_name_same c d : transferEscrowShardTokenName c d = EscrowShard.transferEscrowShardTokenName c d.
Proof.
  unfold transferEscrowShardTokenName, EscrowShard.transferEscrowShardTokenName, shard_preimage, hashBlake2b224.
  change decodeHexBytes with EscrowShard.decodeHexBytes. change uint32BigEndian with EscrowShard.uint32BigEndian.
  destruct (EscrowShard.decodeHexBytes c _) as [cb|]; cbn [mbind result_bind]; [|reflexivity].
  destruct (EscrowShard.decodeHexBytes d _) as [db|]; cbn [mbind result_bind]; [|reflexivity].
  destruct (EscrowShard.uint32BigEndian (N.of_nat (length cb))); cbn [mbind result_bind]; [|reflexivity].
  destruct (EscrowShard.uint32BigEndian (N.of_nat (length db))); cbn [mbind result_bind]; [|reflexivity].
  by rewrite <- (toHex_hex_encode (utf8 _ ++ _)), fromHex_toHex.
Qed.

Lemma registry_key_same c d name key : EscrowShard.transferEscrowShardTokenName c d = Ok name ->
  EscrowShard.transferEscrowShardRegistryKey name = Ok key -> transferEscrowShardRegistryKey name = Ok key.
Proof.
  intros Hlow%tokenName_lower. unfold EscrowShard.transferEscrowShardRegistryKey, transferEscrowShardRegistryKey, is_lower_hex, is_lower_hex_text, is_hex_text.
  case_decide as H; [|done]. destruct H as [Hn Hh]. intros [= <-]. rewrite Hlow, Hh, (bool_decide_eq_true_2 _ Hn), (bool_decide_eq_true_2 _ eq_refl).
  rewrite bool_decide_eq_false_2; [done|]. intros ->. done.
Qed.

Lemma check_seen_same seen us : check_duplicates seen us = Ok tt -> check_seen seen us = Ok tt.
Proof.
  revert seen. induction us as [|u us IH]; intros seen; cbn; [done|]. change (utxoRef u) with (toUtxoRef u). case_decide; [done | apply IH].
Qed.

Lemma module_root_same us u : getTransferModuleRootFromAddressScan us = Ok u -> find_module_root us = Ok u.
Proof. unfold getTransferModuleRootFromAddressScan, find_module_root. destruct (filter _ us) as [|x [|]]; [done | | done]. by destruct (quantity x _ =? 1)%Z. Qed.

Lemma read_root_same u r : committed_registry_root u = Ok r -> read_registry_root u = Ok r.
Proof.
  unfold committed_registry_root, read_registry_root, is_lower_hex. change EMPTY_REGISTRY_ROOT with zero_root64.
  intros H. destruct (datum_of u) as [d|]; [destruct (decode_transferModule d)|]; cbn in *; try done;
    case_decide as Hd; try done; destruct Hd as [Hn Hh]; by rewrite (bool_decide_eq_true_2 _ Hn), Hh.
Qed.

Lemma scan_same st u st' : scan_utxo st u = Ok st' -> scan_candidate st u = Ok st' /\ (same_tree st.1 st.1 -> same_tree st'.1 st'.1).
Proof.
  destruct st as [tree shards]. unfold scan_utxo, scan_candidate. destruct (filter _ (assets u)) as [|[cand q] [|]]; [by intros [= <-] | |by destruct (datum_of u)].
  destruct (datum_of u) as [d|]; [|done]. case_decide as Hlen; [done|]. destruct (negb (is_lower_hex_text cand)); [done|]. destruct (negb (q =? 1)%Z); [done|].
  rewrite (proj2 (Nat.eqb_eq _ _) Hlen). cbn [negb orb].
  destruct (map_has shards cand) eqn:Eh; [done|]. destruct (decode_transferEscrow d) as [sd|]; cbn [mbind result_bind catch_precondition]; [|done].
  destruct (escrowDenomTokenFromPacketDenom (denom sd)) as [tok|] eqn:Et; cbn [mbind result_bind catch_precondition]; [|done]. rewrite (denom_token_same _ _ Et).
  cbn [mbind result_bind catch_error]. rewrite token_name_same. destruct (EscrowShard.transferEscrowShardTokenName _ _) as [name|] eqn:En; cbn [mbind result_bind]; [|done].
  destruct (encodeTransferEscrowDatum _ _) as [canon|]; cbn [mbind result_bind]; [|done]. case_decide as Hc; [|done]. destruct Hc as (-> & _ & Ha).
  rewrite (bool_decide_eq_true_2 _ eq_refl). cbn [negb orb]. rewrite Eh. destruct (EscrowShard.transferEscrowShardRegistryKey name) as [key|] eqn:Ek; cbn [mbind result_bind]; [|done].
  rewrite (registry_key_same _ _ _ _ En Ek). apply andb_true_iff in Ha as [_ Ha].
  replace (existsb _ (map_keys (assets u))) with false.
  - cbn [mbind result_bind]. intros [= <-]. rewrite set_same. split; [done|]. intros Ht. cbn.
    pose proof (same_tree_set key [x01] tree tree Ht (registry_key_nonempty _ _ Ek)) as Hs. by rewrite set_same in Hs.
  - symmetry. apply not_true_is_false. intros (x & Hx & Hn)%existsb_exists. rewrite forallb_forall in Ha. specialize (Ha x Hx). cbn in Ha. by rewrite Ha in Hn.
Qed.

Lemma scan_all_same us st st' : foldR scan_utxo st us = Ok st' -> foldR scan_candidate st us = Ok st' /\ (same_tree st.1 st.1 -> same_tree st'.1 st'.1).
Proof.
  revert st. induction us as [|u us IH]; intros st; cbn [foldR]; [by intros [= <-]|]. intros H. inv_bind H.
  destruct (scan_same _ _ _ E) as [-> H1]. cbn [mbind result_bind]. destruct (IH _ H) as [-> H2]. split; [done | intros Ht; by apply H2, H1].
Qed.

Lemma registry_root_same g t r g' : same_tree g t -> getTransferEscrowRegistryRoot g = Ok (r, g') -> exists t', registryRoot t = Ok (r, t') /\ same_tree g' t'.
Proof.
  intros Ht. pose proof (agree_getRoot g t Ht) as H. unfold agree_on, getTransferEscrowRegistryRoot, registryRoot in *.
  destruct (MerkleTree.getRoot g) as [[a|e] g1], (getRoot t) as [[b|e'] t1]; try done. destruct H as [<- Hs]. intros [= <- <-]. by exists t1.
Qed.

(** The answer without the siblings that the Gateway adds to an existing shard. *)
Definition lookup_of (l : TransferEscrowShardLookup) : ShardLookup :=
  match l with
  | ShardExisting utxo encodedDatum unit moduleUtxo _ => LookupExisting moduleUtxo utxo encodedDatum unit
  | ShardMissing encodedDatum unit moduleUtxo siblings encodedModule => LookupMissing moduleUtxo encodedDatum unit siblings encodedModule
  end.

(** The end of the lookup, from the scanned tree on. *)
Lemma lookup_missing_same g t key (sibs : list bytes) root' g2 : same_tree g t -> key <> "" -> (MerkleTree.getSiblings key g).1 = Ok sibs ->
  getTransferEscrowRegistryRoot (tree_set key [x01] (MerkleTree.clone (MerkleTree.getSiblings key g).2)) = Ok (root', g2) ->
  exists t1 t2, registrySiblings t key = Ok (hex_encode <$> sibs, t1) /\ registryRoot (set key [x01] t1) = Ok (root', t2).
Proof.
  intros Ht Hk Hs Hr. pose proof (agree_getSiblings key g t Ht) as H. unfold agree_on, registrySiblings in *.
  destruct (MerkleTree.getSiblings key g) as [a g1], (getSiblings key t) as [b t1]. cbn [fst snd] in *. subst a. destruct b as [b|]; [|done]. destruct H as [<- H1].
  assert (same_tree (MerkleTree.clone g1) t1) as Hc.
  { destruct (same_tree_clone _ _ H1) as [Hg _ _]. split; [done | apply H1|]. rewrite clone_leaves by apply H1. apply H1. }
  destruct (registry_root_same _ _ _ _ (same_tree_set key [x01] _ _ Hc Hk) Hr) as (t2 & Hr2 & _). exists t1, t2. by split.
Qed.

(** With the asset in canonical spelling the runtime answers as the Gateway does. *)
Lemma canonical_shard_agrees channelId packetDenom denomToken required l :
  EscrowShard.findTransferEscrowShard channelId packetDenom denomToken required = Ok l ->
  findTransferEscrowShard channelId packetDenom (toLowerCase (trim denomToken)) required = Ok (lookup_of l).
Proof.
  unfold EscrowShard.findTransferEscrowShard, findTransferEscrowShard, getTransferEscrowShardTokenUnit, encodeTransferEscrowDatum. intros H. inv_bind H.
  destruct (EscrowShard.transferEscrowShardTokenName channelId packetDenom) as [name|] eqn:En; [|done]. injection E0 as <-.
  case_decide as Htok; [done|]. case_decide as Hpol; [done|]. inv_bind H. destruct a5 as [tree0 shards].
  destruct (getTransferEscrowRegistryRoot tree0) as [[root tree]|] eqn:Er; [|done]. cbn [mbind result_bind] in H. case_decide as Hroot; [done|].
  assert (slice_from (str_length shardPolicyId) (shardPolicyId +:+ name) = name) as Hslice by (unfold slice_from, str_length; by rewrite utf8_app, drop_app_length, text_utf8).
  rewrite Hslice in H. destruct (EscrowShard.transferEscrowShardRegistryKey name) as [key|] eqn:Ek; [|done]. cbn [mbind result_bind] in H.
  destruct ((MerkleTree.getSiblings key tree).1) as [sibs|] eqn:Es; [|done]. cbn [mbind result_bind] in H.
  assert (is_lower_hex 56 shardPolicyId = true) as -> by (unfold is_lower_hex; apply andb_true_iff; destruct Hpol as [Hp1 Hp2]; split; [by apply bool_decide_eq_true_2 | done]).
  cbn [negb]. rewrite (denom_token_same _ _ E1). cbn [mbind result_bind]. rewrite decide_False by (intros Hc; by apply Hc). rewrite E. cbn [mbind result_bind].
  rewrite token_name_same, En. cbn [mbind result_bind]. rewrite E0. cbn [mbind result_bind]. destruct a2. rewrite (check_seen_same _ _ E2). cbn [mbind result_bind].
  rewrite (module_root_same _ _ E3). cbn [mbind result_bind]. rewrite (read_root_same _ _ E4). cbn [mbind result_bind].
  destruct (scan_all_same _ _ _ E5) as [-> Hst]. cbn [mbind result_bind]. destruct (registry_root_same tree0 tree0 _ _ (Hst same_tree_new) Er) as (t & -> & Ht). cbn [mbind result_bind].
  rewrite decide_False by (intros Hc; by apply Hc). destruct (map_get shards (shardPolicyId +:+ name)) as [u|].
  - destruct (decide (datum u <> Some a)); [done|]. destruct (match required with Some r => _ | None => false end); [done|]. by apply Ok_inj in H as <-.
  - rewrite (registry_key_same _ _ _ _ En Ek). cbn [mbind result_bind].
    destruct (getTransferEscrowRegistryRoot (tree_set _ _ _)) as [[root' g2]|] eqn:Er2; [|done]. cbn [mbind result_bind] in H. inv_bind H. apply Ok_inj in H as <-.
    destruct (lookup_missing_same _ _ _ _ _ _ Ht (registry_key_nonempty _ _ Ek) Es Er2) as (t1 & t2 & -> & Hr2). cbn [mbind result_bind].
    unfold REGISTERED_ESCROW_SHARD_VALUE. rewrite Hr2. cbn [mbind result_bind]. by rewrite E6.
Qed.

(** Any other spelling is refused before the outputs are read. *)
Lemma spelled_otherwise channelId packetDenom denomToken denomToken' required l : denomToken <> denomToken' ->
  findTransferEscrowShard channelId packetDenom denomToken' required = Ok l ->
  findTransferEscrowShard channelId packetDenom denomToken required =
    throw ("Requested asset " +:+ denomToken +:+ " does not match escrow shard denom " +:+ denomToken').
Proof.
  intros Hne. unfold findTransferEscrowShard. destruct (negb _); [done|]. intros H. inv_bind H. rewrite E. cbn [mbind result_bind].
  case_decide as Hd; [done|]. rewrite <- Hd. by rewrite decide_True by done.
Qed.

(** C20 (refinement): the escrow shard in the browser.  Whenever the Gateway's lookup of
    a shard answers, the runtime's lookup for the same channel, denomination, asset and
    amount, from the same outputs, is determined.  When the asset is spelled in lower
    case without surrounding blanks, it gives the same answer: the same existing shard,
    or the same missing one with the same registry siblings and the same updated module
    datum.  Otherwise it throws, naming both spellings: the Gateway trims and lowers the
    asset before comparing it with the denomination's, the runtime compares it as it
    is. *)
Theorem runtime_shard_agrees channelId packetDenom denomToken required l :
  EscrowShard.findTransferEscrowShard channelId packetDenom denomToken required = Ok l ->
  findTransferEscrowShard channelId packetDenom denomToken required =
    let canonical := toLowerCase (trim denomToken) in
    if decide (denomToken = canonical) then Ok (lookup_of l)
    else throw ("Requested asset " +:+ denomToken +:+ " does not match escrow shard denom " +:+ canonical).
Proof.
  intros H%canonical_shard_agrees. cbn zeta. case_decide as E; [by rewrite <- E in H|]. by eapply spelled_otherwise.
Qed.

End shards.

(** ** Evaluated instances *)

(** One tree on both sides: that of [PacketOpsWitnesses]. *)
Lemma demo_same_state : same_state demo_state demo_state.
Proof.
  split; [|done]. apply (same_tree_writes new_tree); [apply same_tree_new|]. exists demo_contents. split; [|done].
  repeat first [apply Forall_nil_2 | apply Forall_cons_2; [done|]].
Qed.

Definition demo_sent_datum : ChannelDatum :=
  MkChannelDatum
    (MkChannelDatumState (MkChannelObj 0 demo_end) 3 1 1 [(1%Z, "aa01"); (2%Z, "cc03")] [(4%Z, "")] [(4%Z, "bb02")]
       (demo_height 0) (demo_height 5)) (convertString2Hex "icqhost") (MkAuthToken "aa" "bb").

Lemma runtime_roots_agree_witness : exists r g r' t,
  StateRoot.computeRootWithHandlePacketUpdate demo_root "icqhost" "channel-0" demo_datum demo_sent_datum demo_state = (Ok r, g) /\
  computeRootWithHandlePacketUpdate demo_root "icqhost" "channel-0" demo_datum demo_sent_datum demo_state = (Ok r', t) /\
  newRoot r = newRoot r' /\ witness r = witness r'.
Proof.
  destruct (ok_exists (StateRoot.computeRootWithHandlePacketUpdate demo_root "icqhost" "channel-0" demo_datum demo_sent_datum) demo_state) as (r & g & E);
    [vm_compute; reflexivity|].
  pose proof (runtime_roots_agree demo_root "icqhost" "channel-0" demo_datum demo_sent_datum demo_state demo_state demo_same_state) as H. rewrite E in H.
  destruct (computeRootWithHandlePacketUpdate demo_root "icqhost" "channel-0" demo_datum demo_sent_datum demo_state) as [[r'|e] t]; [|destruct H].
  destruct H as [(Hr & Hw & _) _]. exists r, g, r', t. split_and!; [exact E | reflexivity | exact Hr | exact Hw].
Defined.

Lemma runtime_rebuild_agrees_witness : exists t r g t' g',
  TreeRebuild.rebuildTreeFromChain (CV := toy_view toy_view_root) toy_state = (Ok (t, r), g) /\
  rebuildTreeFromChain (CV := toy_view toy_view_root) toy_state = (Ok (t', r), g') /\ leaves t = leaves t'.
Proof.
  destruct (ok_exists (TreeRebuild.rebuildTreeFromChain (CV := toy_view toy_view_root)) toy_state) as ([t r] & g & E); [vm_compute; reflexivity|].
  assert (forall u d h, findUtxoAtHostStateNFT (ChainView := toy_view toy_view_root) = Ok (Some u) -> datum_of u = Some d ->
    decode_host_state (ChainView := toy_view toy_view_root) d = Ok h -> ports_hex (hs_state h)) as Hp by (intros u d h _ _ [= <-]; apply Forall_nil_2).
  pose proof (runtime_rebuild_agrees (CV := toy_view toy_view_root) toy_state toy_state eq_refl Hp) as H. rewrite E in H.
  destruct (rebuildTreeFromChain (CV := toy_view toy_view_root) toy_state) as [[[t' r']|e] g']; [|destruct H].
  destruct H as (Hr & Ht & _). subst r'. exists t, r, g, t', g'. split_and!; [exact E | reflexivity | apply Ht].
Defined.

Definition toy_siblings : list string :=
  Eval vm_compute in
  match EscrowShard.findTransferEscrowShard (EV := toy_env toy_registry_root [toy_module_utxo; toy_shard_utxo]) "6330" toy_denom_hex "lovelace" None with
  | Ok (ShardExisting _ _ _ _ siblings) => siblings
  | _ => []
  end.

Lemma runtime_shard_agrees_witness :
  let env := toy_env toy_registry_root [toy_module_utxo; toy_shard_utxo] in
  findTransferEscrowShard (EV := env) "6330" toy_denom_hex "lovelace" (Some 100%Z) = Ok (LookupExisting toy_module_utxo toy_shard_utxo "dd" toy_shard_unit) /\
  findTransferEscrowShard (EV := env) "6330" toy_denom_hex " Lovelace" (Some 100%Z) =
    throw "Requested asset  Lovelace does not match escrow shard denom lovelace".
Proof.
  set (env := toy_env toy_registry_root [toy_module_utxo; toy_shard_utxo]).
  set (answer := ShardExisting toy_shard_utxo "dd" toy_shard_unit toy_module_utxo toy_siblings).
  assert (EscrowShard.findTransferEscrowShard (EV := env) "6330" toy_denom_hex "lovelace" (Some 100%Z) = Ok answer) as E1 by (vm_compute; reflexivity).
  assert (EscrowShard.findTransferEscrowShard (EV := env) "6330" toy_denom_hex " Lovelace" (Some 100%Z) = Ok answer) as E2 by (vm_compute; reflexivity).
  split.
  - exact (runtime_shard_agrees (EV := env) "6330" toy_denom_hex "lovelace" (Some 100%Z) answer E1).
  - etransitivity; [exact (runtime_shard_agrees (EV := env) "6330" toy_denom_hex " Lovelace" (Some 100%Z) answer E2)|]. vm_compute. reflexivity.
Defined.
