(* ===== verification/HandshakeWitnesses.v ===== *)
(** * The channel handshake: evaluated instances

    The chain of [PacketOpsWitnesses] with the channel in state [Init], on which the
    handshake builders run to the end. *)

From Stdlib Require Import ZArith Lia.
From S2P Require Import Prelude JsMap JsString ProtoCodec ProtoMessages ProtoTx ProtoConnection JsJson Hex MerkleTree MerkleSpec MerkleRefine OnChainCommitment ToyHash MerkleTheorems Datum ToyLucid OnChainProto StateRoot PacketHelpers StateRootFacts StateRootTheorems TreeRebuild EscrowShard Voucher TreeServices Redeemers PacketDenom PacketOps TxRunner PacketOpsTheorems PacketOpsWitnesses OnChainDatum OnChainChannel MessageValidate ChannelOps ConnectionOps OnChainConnection OnChainHostState OnChainClient ChannelOpsFacts ConnectionOpsTheorems ChannelOpsTheorems ChannelHandlers ChannelHandlersTheorems ConnectionHandlers.

#[local] Existing Instances demo_sha3 demo_escrow demo_deployment demo_env.

#[local] Instance demo_channel_deployment : ChannelDeployment := {|
  chanOpenAckPolicyId := "f1"; chanOpenConfirmPolicyId := "f2"; channelCloseInitPolicyId := "f3"; channelCloseConfirmPolicyId := "f4";
|}.

Definition fresh_end : Channel :=
  MkChannel Init Unordered (MkChannelCounterparty (convertString2Hex "icqhost") (convertString2Hex "")) [convertString2Hex "connection-0"]
    (convertString2Hex "icq-1").
Definition fresh_datum : ChannelDatum := new_channel_datum fresh_end "icqhost" (MkAuthToken "aa" "bb").
Definition sound_connection : ConnectionDatum :=
  MkConnectionDatum
    (MkConnectionEnd (convertString2Hex "07-tendermint-0") default_versions ConnOpen
       (MkCounterparty "" (convertString2Hex "connection-3") (convertString2Hex "ibc")) 5000000000) (MkAuthToken "" "").

#[local] Instance fresh_view : ChainView := {|
  findUtxoAtHostStateNFT := Ok (Some (demo_utxo "d0"));
  queryAllClientUtxos := Ok [];
  queryAllConnectionUtxos := Ok [];
  queryAllChannelUtxos := Ok [];
  decode_host_state _ := Ok demo_host;
  decode_client _ := Ok demo_client;
  decode_connection _ := Ok sound_connection;
  decode_channel _ := Ok fresh_datum;
|}.

Definition demo_ack : ChannelOpenAckOperator :=
  MkChannelOpenAckOperator "0" "channel-42" "icq-1" (MkMerkleProof []) (demo_height 9).
Definition demo_close : ChannelCloseInitOperator := MkChannelCloseInitOperator "icqhost" "0" "signer".
Definition demo_init : ChannelOpenInitOperator := MkChannelOpenInitOperator "connection-0" "icqhost" (Some Unordered) "icq-1" "icqhost".
Definition demo_try : ChannelOpenTryOperator :=
  MkChannelOpenTryOperator "connection-0" (MkPCounterparty "icqhost" "channel-42") Unordered "icq-1" "icqhost" "icq-1" (MkMerkleProof [])
    (demo_height 9).

Lemma ascii_hex_convert s : ascii_text s = true -> (blen (utf8 s) <? 4000)%Z = true -> ascii_hex (convertString2Hex s) s.
Proof. intros H1 H2%Z.ltb_lt. done. Qed.
Ltac by_ascii := apply ascii_hex_convert; vm_compute; reflexivity.

Lemma fresh_sound : channel_sound fresh_datum.
Proof.
  split; eexists; [instantiate (1 := "icqhost")|instantiate (1 := "icqhost")|instantiate (1 := "")|instantiate (1 := "icq-1")]; by_ascii.
Qed.
Lemma sound_connection_sound : connection_sound (cnd_state sound_connection).
Proof. split; [done|done|]. exists "connection-3". by_ascii. Qed.

Lemma open_init_creates_channel_witness : exists tx channelId p s' h d k s1 vs r,
  buildUnsignedChannelOpenInitTx demo_init demo_state = (Ok (tx, channelId, p), s') /\
  created demo_state "icqhost" (init_channel demo_init Unordered) MintChanOpenInit tx h d s1 vs r s' /\
  mint_channel_open_init d (cd_token d) (utf8 channelId) (cnd_state k) (cld_state demo_client) 0 (OnChanOpenInit (A := pdata) (convertString2Hex channelId)).
Proof.
  destruct (ok_exists (buildUnsignedChannelOpenInitTx demo_init) demo_state) as ([[tx channelId] p] & s' & E); [vm_compute; reflexivity|].
  destruct (open_init_creates_channel demo_init Unordered demo_state tx channelId p s') as (h & d & k & s1 & vs & r & H1 & _ & _ & Hk & _ & H2 & _).
  - reflexivity.
  - exact E.
  - exists tx, channelId, p, s', h, d, k, s1, vs, r. split_and!; [exact E|exact H1|]. apply H2.
    assert (k = sound_connection) as ->.
    { assert ((fun x => x.1.2) <$> load_connection "connection-0" = Ok sound_connection) as Hl by (vm_compute; reflexivity).
      change (coi_connectionId demo_init) with "connection-0" in Hk. rewrite Hk in Hl. by injection Hl. }
    split; [split; [discriminate|split_and!; vm_compute; reflexivity]|split; vm_compute; reflexivity].
Defined.

(** ** The channel handlers: an evaluated instance

    An open-ack message handled from its fields to the accepted transaction. *)

#[local] Existing Instances demo_sha3 demo_escrow demo_deployment demo_env demo_channel_deployment fresh_view.

#[local] Instance demo_ledger : Ledger := {|
  cardanoNetwork := "Preprod";
  slotConfig := Some (MkSlotConfig 0 0 1000); network_tip := Ok 5%Z; wallet_utxos a := [demo_utxo a];
|}.

(** A runner that completes every plan. *)
Definition demo_runner (plan : TxOperationPlan BuiltTx) : M hstate bytes := mret (utf8 (operationName plan)).

(** The proof bytes are an empty [MerkleProof]. *)
Definition ack_message : PMsgChannelOpenAck :=
  MkPMsgChannelOpenAck "icqhost" "channel-0" "channel-42" "icq-1" [] (MkPHeight 0 9) "addr_signer".

Lemma handshake_message_accepted_witness : exists cx resp s' o tx p plan s1 d' r,
  load_channel 0 = Ok cx /\ handle demo_runner (MsgAck ack_message) (demo_state, initial_wallet) = (Ok resp, s') /\
  plan_of "addr_signer" tx p plan /\ demo_runner plan s1 = (Ok (unsigned_tx resp), s') /\
  transition_ok o (cx_channelDatum cx) d' = true /\ ct_encodedChannelDatum tx = encodeChannelDatum d' /\
  proof_ok o r (cnd_state sound_connection) (cld_state demo_client) (utf8 "channel-0") d' /\
  operation_policy_mint o (cn_redeemer (continuation o (cx_channelDatum cx)))
    (cn_callback (continuation o (cx_channelDatum cx)) (convertString2Hex "channel-0")) (utf8 "channel-0")
    (cnd_state sound_connection) (cld_state demo_client) 0 (Some r) (cx_channelDatum cx) d'.
Proof.
  destruct (ok_exists (handle demo_runner (MsgAck ack_message)) (demo_state, initial_wallet)) as (resp & s' & E); [vm_compute; reflexivity|].
  destruct (load_channel 0) as [cx|e] eqn:Ec; [|by vm_compute in Ec].
  assert (cx_channelDatum cx = fresh_datum) as Ed.
  { transitivity (match load_channel 0 with Ok c => cx_channelDatum c | Err _ => fresh_datum end); [by rewrite Ec|vm_compute; reflexivity]. }
  destruct (load_client (cx_channelDatum cx)) as [kx|e] eqn:Ek; [|by rewrite Ed in Ek; vm_compute in Ek].
  assert (kx_connectionDatum kx = sound_connection /\ kx_clientDatum kx = demo_client) as [Ex Ey].
  { split; [transitivity (match load_client fresh_datum with Ok k => kx_connectionDatum k | Err _ => sound_connection end)|
            transitivity (match load_client fresh_datum with Ok k => kx_clientDatum k | Err _ => demo_client end)];
      try (vm_compute; reflexivity); by rewrite <- Ed, Ek. }
  destruct (handshake_message_accepted demo_runner (MsgAck ack_message) 0 cx kx (demo_state, initial_wallet) resp s')
    as (o & tx & p & plan & s1 & d' & enc & r & vp & Hf & H1 & H2 & _ & _ & H3 & H4 & _ & H5 & _ & _ & _ & H6).
  - discriminate.
  - reflexivity.
  - exact Ec.
  - exact Ek.
  - rewrite Ed. exact fresh_sound.
  - rewrite Ex. exact sound_connection_sound.
  - by_ascii.
  - intros a o Ho. vm_compute in Ho. injection Ho as _ <-. split; by_ascii.
  - exact E.
  - assert (message_checked o = true) as Hck by (pose proof Hf as Hf'; vm_compute in Hf'; injection Hf' as <-; vm_compute; reflexivity).
    exists cx, resp, s', o, tx, p, plan, s1, d', r. rewrite <- Ex, <- Ey.
    split_and!; [reflexivity|exact E|exact H1|exact H2|exact (eq_trans H3 Hck)|exact H4|exact H5|]. apply H6.
    assert (exists op, o = OpenAck op) as Ho.
    { cbn [formatted] in Hf. apply bind_ok in Hf as ([a' op] & _ & Hf). injection Hf as _ <-. by exists op. }
    rewrite Ex, Ey, Ed. split_and!; [exact Ho|exact Hck|by eexists|reflexivity|vm_compute; reflexivity|vm_compute; reflexivity].
Defined.

(** ** The connection handshake: evaluated instances

    The chain of [PacketOpsWitnesses] with a connection in state [Init], on which the
    connection builders run to the end. *)

#[local] Open Scope Z_scope.

#[local] Existing Instances demo_sha3 demo_escrow demo_deployment demo_env.

Definition init_end : ConnectionEnd :=
  MkConnectionEnd (convertString2Hex "07-tendermint-0") default_versions ConnInit
    (MkCounterparty (convertString2Hex "07-tendermint-5") "" (convertString2Hex "ibc")) 5000000000.
Definition init_datum : ConnectionDatum := MkConnectionDatum init_end (MkAuthToken "c2" "bb").

#[local] Instance init_view : ChainView := {|
  findUtxoAtHostStateNFT := Ok (Some (demo_utxo "d0"));
  queryAllClientUtxos := Ok [];
  queryAllConnectionUtxos := Ok [];
  queryAllChannelUtxos := Ok [];
  decode_host_state _ := Ok demo_host;
  decode_client _ := Ok demo_client;
  decode_connection _ := Ok init_datum;
  decode_channel _ := Ok fresh_datum;
|}.

(** The proofs are empty [MerkleProof]s. *)
Definition conn_ack_message : PMsgConnectionOpenAck :=
  MkPMsgConnectionOpenAck "connection-0" "connection-3" None (Some (MkPAny "/ibc.lightclients" [])) (MkPHeight 0 9) [] [] [] (MkPHeight 0 0)
    "addr_signer" [].
Definition conn_try_operator : ConnectionOpenTryOperator :=
  MkConnectionOpenTryOperator "0" (MkCounterparty (convertString2Hex "07-tendermint-5") (convertString2Hex "connection-3") (convertString2Hex "ibc"))
    default_versions 7 "aa" (MkMerkleProof []) (MkMerkleProof []) (demo_height 9).
Definition conn_confirm_operator : ConnectionOpenConfirmOperator := MkConnectionOpenConfirmOperator "0" (MkMerkleProof []) (demo_height 9).

Lemma result_exists {A} (r : result A) : is_ok r = true -> exists a, r = Ok a.
Proof. destruct r; [eauto|done]. Qed.


Lemma init_end_sound : end_sound init_end.
Proof. split; [exists "07-tendermint-0"; by_ascii|exists "07-tendermint-5"; by_ascii|reflexivity|by vm_compute|discriminate]. Qed.

(** Aligning a tree that has the HostState root leaves what it holds. *)
Lemma aligned_kept `{CV : ChainView} root s s1 : ensureTreeAligned root s = (Ok tt, s1) -> (getRoot (currentTree s)).1 = Ok root -> state_ok s ->
  leaves (currentTree s1) = leaves (currentTree s) /\ state_ok s1.
Proof.
  intros H Hr Hok. unfold ensureTreeAligned, isTreeAligned in H. destruct (on_current getRoot s) as [r s2] eqn:E.
  pose proof (on_current_getRoot _ _ _ E) as [[Hl _] Hok2].
  assert (r = Ok root) as -> by (unfold on_current in E; destruct (getRoot (currentTree s)) as [x t]; cbn in Hr; congruence).
  unfold mbind, M_bind in H. rewrite E in H. cbn in H. rewrite bool_decide_true in H by done. injection H as <-. by split; [|apply Hok2].
Qed.

(** A Gateway whose tree holds the connection, under the HostState root of the chain. *)
Definition toy_serialise (c : ConnectionEnd) : bytes := bytes_of (encodeConnectionEndValue c).
Definition conn_gateway : gstate := MkGState (set_all [(connectionPath "connection-0", toy_serialise init_end)] new_tree) true.
Definition conn_root : string := Eval vm_compute in match (getRoot (currentTree conn_gateway)).1 with Ok r => r | Err _ => "" end.
Definition conn_host : HostStateDatum := MkHostStateDatum (MkHostState 3 conn_root 1 1 1 [] 50) "ab" "cd" Active.

#[local] Instance conn_view : ChainView := {|
  findUtxoAtHostStateNFT := Ok (Some (demo_utxo "d0"));
  queryAllClientUtxos := Ok [];
  queryAllConnectionUtxos := Ok [];
  queryAllChannelUtxos := Ok [];
  decode_host_state _ := Ok conn_host;
  decode_client _ := Ok demo_client;
  decode_connection _ := Ok init_datum;
  decode_channel _ := Ok fresh_datum;
|}.

Lemma toy_serialises : serialises_ends toy_serialise.
Proof. intros c enc H. unfold toy_serialise. by rewrite H. Qed.
Lemma conn_gateway_ok : state_ok conn_gateway.
Proof.
  apply tree_ok_set_all; [apply tree_ok_new|].
  repeat first [apply Forall_nil_2 | apply Forall_cons_2; [split; [done | by_value_ok]|]].
Qed.

Lemma acked_facts op client u tx h s1 value r redeemer s' :
  connection_acked conn_gateway op init_datum client u tx h s1 value r redeemer s' ->
  na_counterpartyConnectionID op = convertString2Hex "connection-3" ->
  client = demo_client /\ state_ok s1 /\ value_ok value /\
  tree_value (base_tree s1 (ibc_state_root (hs_state h))) (connectionPath "connection-0") = toy_serialise init_end.
Proof.
  intros Ha Hop. destruct (ak_client _ _ _ _ _ _ _ _ _ _ _ _ Ha) as (? & ? & _ & _ & _ & Hc).
  destruct (ak_root _ _ _ _ _ _ _ _ _ _ _ _ Ha) as [Hh Hal (enc & He & ->) _]. rewrite Hop in He.
  assert (client = demo_client) as ->.
  { unfold decode_datum in Hc. destruct (datum _); [|discriminate]. by injection Hc. }
  assert (h = conn_host) as ->.
  { destruct Hh as [_ Hd]. unfold decode_datum in Hd. destruct (datum _); [|discriminate]. by injection Hd. }
  assert ((getRoot (currentTree conn_gateway)).1 = Ok conn_root) as Hr by (vm_compute; reflexivity).
  destruct Hal as (s2 & Hal & Hs). change (ibc_state_root (hs_state conn_host)) with conn_root in Hal |- *. destruct (aligned_kept _ _ _ Hal Hr conn_gateway_ok) as [Hl Hok].
  assert (leaves (currentTree s1) = leaves (currentTree conn_gateway) /\ state_ok s1) as [Hl1 Hok1].
  { destruct Hs as [Hs|[x' Hx]]; [rewrite Hs; split; [exact Hl|exact Hok]|]. apply on_current_getRoot in Hx as [[Hl2 _] Hok2]. split; [exact (eq_trans Hl2 Hl)|exact (Hok2 Hok)]. }
  split_and!; [reflexivity|exact Hok1| |].
  - assert (value_ok (toy_serialise (cnd_state (acked_datum init_datum (convertString2Hex "connection-3"))))) as Hv by by_value_ok.
    unfold toy_serialise in Hv. rewrite He in Hv. exact Hv.
  - unfold base_tree. rewrite decide_False by discriminate. rewrite (tree_value_leaves _ _ _ Hl1). vm_compute. reflexivity.
Qed.

Lemma connection_open_ack_accepted_witness : exists op b s' u unit client h s1 value r redeemer,
  let d' := acked_datum init_datum (convertString2Hex "connection-3") in
  load_connection_datum "0" = Ok (unit, u, init_datum) /\ buildUnsignedConnectionOpenAckTx op conn_gateway = (Ok b, s') /\
  connection_acked conn_gateway op init_datum client u (ab_tx b) h s1 value r redeemer s' /\
  spend_connection_open_ack init_datum d' (cld_state client) (utf8 "connection-0") 0 (Some redeemer) /\
  update_connection_root toy_serialise h (updated_host_state h (newRoot r)) (utf8 "connection-0") init_datum d' (witness r) = true /\
  tree_value (commitTree r) (connectionPath "connection-0") = toy_serialise (cnd_state d').
Proof.
  destruct (result_exists (validateAndFormatConnectionOpenAckParams conn_ack_message)) as ([address op] & Ef); [vm_compute; reflexivity|].
  assert (is_ok (buildUnsignedConnectionOpenAckTx op conn_gateway).1 = true /\ na_counterpartyConnectionID op = convertString2Hex "connection-3") as [Ho Hop].
  { pose proof Ef as Ef'. vm_compute in Ef'. injection Ef' as _ <-. split; vm_compute; reflexivity. }
  destruct (ok_exists (buildUnsignedConnectionOpenAckTx op) conn_gateway Ho) as (b & s' & E).
  assert (exists unit u, load_connection_datum "0" = Ok (unit, u, init_datum)) as (unit & u & El) by (do 2 eexists; vm_compute; reflexivity).
  destruct (connection_open_ack_accepted toy_serialise conn_ack_message 0 address op unit u init_datum conn_gateway b s')
    as (client & h & s1 & value & r & redeemer & H1 & _ & _ & _ & H2 & _ & H3).
  - exact toy_serialises.
  - discriminate.
  - reflexivity.
  - exact Ef.
  - exact El.
  - exact init_end_sound.
  - by_ascii.
  - by_ascii.
  - exact E.
  - exists op, b, s', u, unit, client, h, s1, value, r, redeemer. pose proof (acked_facts _ _ _ _ _ _ _ _ _ _ H1 Hop) as (-> & Hok & Hv & Ht).
    split_and!; [exact El|exact E|exact H1|apply H2; split_and!; vm_compute; reflexivity|apply H3; [exact Hok|exact Hv|exact Ht]..].
Defined.

(** A timeout, and the update of another root. *)
#[local] Instance demo_errors : ErrorView := {| inspect e := error_to_string e; collectErrorSignals e := [error_to_string e] |}.
Definition timeout_error : error := JsError "KupmiosError: ETIMEDOUT".
Definition empty_tx : ConnectionTx := MkConnectionTx (demo_utxo "") "" "" "" (demo_utxo "") "" (MintConnection "").
Definition first_build : OpenAckBuild := MkOpenAckBuild empty_tx "" "" (MkPending "aa" new_tree).
Definition second_build : BuiltConnection := MkBuiltConnection empty_tx None None (MkPending "bb" new_tree).

