(* ===== verification/ClientWitnesses.v ===== *)
(** * Light clients: evaluated instances

    A client of chain [test-1], created from a message, updated by a header, with
    headers the validator verifies under a toy hash and signature scheme. *)

From Stdlib Require Import ZArith Lia.
From S2P Require Import Prelude JsMap JsString JsJson Hex MerkleTree MerkleSpec MerkleRefine OnChainCommitment ToyHash MerkleTheorems Datum ToyLucid Tendermint StateRoot PacketHelpers StateRootFacts StateRootTheorems TreeRebuild TreeServices EscrowShard Voucher Redeemers ProtoCodec ProtoMessages ProtoTx ProtoConnection ProtoClient PacketDenom PacketOps PacketOpsTheorems PacketOpsWitnesses TxRunner MessageValidate ChannelOps ConnectionOps ChannelHandlers ClientOps OnChainDatum OnChainChannel OnChainHostState OnChainClient HandshakeWitnesses ClientOpsTheorems.

#[local] Open Scope Z_scope.

#[local] Existing Instances demo_sha3 demo_escrow demo_deployment demo_env demo_ledger.

(** Every validator set and every header has one digest; every signature is good. *)
Definition set_digest : bytes := replicate 32 xaa.
Definition header_digest : bytes := replicate 32 xbb.
#[local] Instance toy_crypto : TmCrypto := {|
  validator_set_hash _ := toHex set_digest; tm_header_hash _ := toHex header_digest; vote_signed _ _ _ _ _ := true;
|}.

(** ** Messages *)

Definition wire_block : PBlockID := MkPBlockID header_digest (MkPPartSetHeader 1 header_digest).
Definition wire_header (chain : string) (height seconds : Z) : PTmHeader :=
  MkPTmHeader (MkPConsensus 11 0) chain height (MkPTimestamp seconds 0) wire_block set_digest set_digest set_digest set_digest set_digest
    set_digest set_digest set_digest (replicate 20 x01).
Definition wire_commit (height : Z) : PCommit :=
  MkPCommit height 0 wire_block [MkPCommitSig 2 (replicate 20 x01) (MkPTimestamp 1 0) (replicate 64 x02)].
Definition wire_validator : PValidator := MkPValidator (replicate 20 x01) (MkPPublicKey (Some (replicate 32 x03)) None) 10 0.
Definition wire_set : PValidatorSet := MkPValidatorSet [wire_validator] (Some wire_validator) 10.
Definition wire_message (chain : string) (trusted height seconds : Z) : PLcHeader :=
  MkPLcHeader (Some (MkPSignedHeader (Some (wire_header chain height seconds)) (Some (wire_commit height)))) (Some wire_set)
    (MkPHeight 1 trusted) (Some wire_set).
Definition header_any (chain : string) (trusted height seconds : Z) : PAny :=
  MkPAny TENDERMINT_HEADER_TYPE_URL (encodeMessage (wire_message chain trusted height seconds)).

Definition get_ok {A} (r : result A) (fallback : A) : A := match r with Ok a => a | Err _ => fallback end.
Definition demo_header (trusted height seconds : Z) : Header := get_ok (header_of_any (header_any "test-1" trusted height seconds)) null_header.

Definition wire_leaf : PLeafOp := MkPLeafOp 1 0 1 1 [x00].
Definition wire_specs : list PProofSpec :=
  [MkPProofSpec (Some wire_leaf) (Some (MkPInnerSpec [0; 1] 33 4 12 [] 1)) 0 0; MkPProofSpec (Some wire_leaf) (Some (MkPInnerSpec [0; 1] 32 1 1 [] 1)) 0 0].
Definition wire_client : PClientState :=
  MkPClientState "test-1" (MkPFraction 1 3) (MkPDuration 100 0) (MkPDuration 200 0) (MkPDuration 10 0) (MkPHeight 0 0) (MkPHeight 1 10) wire_specs [] false false.
Definition wire_consensus : PConsensusState := MkPConsensusState (MkPTimestamp 1000 0) (MkPMerkleRoot set_digest) set_digest.
Definition create_message : PMsgCreateClient :=
  MkPMsgCreateClient (Some (MkPAny "" (encodeMessage wire_client))) (Some (MkPAny "" (encodeMessage wire_consensus))) "addr_signer".

(** ** The client *)

Definition toy_new_client : NewClientState := initializeClientState wire_client.
Definition toy_client_state : ClientState := ncs_state toy_new_client (get_ok (ncs_specs toy_new_client) []).
Definition toy_consensus : ConsensusState := MkConsensusState 1000000000000 (toHex set_digest) (toHex set_digest).
Definition toy_token : AuthToken := MkAuthToken "c1" "cafe".
Definition client0 : ClientDatum := created_client toy_client_state toy_consensus toy_token (1010000 * 1000000).
Definition client1 : ClientDatum := get_ok (updated_client client0 (demo_header 10 12 1005) (1010000 * 1000000)) client0.

Definition demo_misbehaviour : Misbehaviour := MkMisbehaviour "07-tendermint-0" (demo_header 10 14 1004) (demo_header 10 12 1005).

Lemma client0_chain : client_chain toy_token client0.
Proof. apply (ClientCreated toy_token _ 1010000 1020000). vm_compute. reflexivity. Qed.


(** ** Updates *)



Lemma client_update_accepted_witness : exists d', updated_client client0 (demo_header 10 12 1005) (1010000 * 1000000) = Ok d' /\
  spend_client client0 d' (HeaderCase (demo_header 10 12 1005)) 1010000 1020000 = true.
Proof.
  assert (message_accepted client0 (HeaderCase (demo_header 10 12 1005)) 1010000 1020000 = true) as Hm by (vm_compute; reflexivity).
  assert (check_for_misbehaviour (HeaderCase (demo_header 10 12 1005)) (consensusStates (cld_state client0)) = false) as Hc by (vm_compute; reflexivity).
  destruct (client_update_accepted toy_token client0 (demo_header 10 12 1005) 1010000 1020000 client0_chain) as (d' & H1 & _ & H2);
    [discriminate|exact Hm|exact Hc|]. exists d'. split; [exact H1|]. apply H2.
  assert (gateway_kept client0 (1010000 * 1000000) = consensusStates (cld_state client0)) as -> by (vm_compute; reflexivity).
  repeat constructor.
Defined.

Lemma misbehaviour_freezes_witness : spend_client client0 (frozen_datum client0) (MisbehaviourCase demo_misbehaviour) 1010000 1020000 = true.
Proof.
  assert (message_accepted client0 (MisbehaviourCase demo_misbehaviour) 1010000 1020000 = true) as Hm by (vm_compute; reflexivity).
  destruct (misbehaviour_freezes client0 demo_misbehaviour 1010000 1020000 Hm) as [_ H]. rewrite H. vm_compute. reflexivity.
Defined.

Lemma verified_header_signed_witness : exists l, signers true (validatorSet (demo_header 10 12 1005)) (sh_commit (signedHeader (demo_header 10 12 1005)))
  (chainId toy_client_state) l /\ 20 < 3 * power_of l.
Proof.
  assert (verify_header toy_client_state (MkTxTime (1010000 * 1000000) (1020000 * 1000000)) (consensusStates (cld_state client0)) (demo_header 10 12 1005) = true)
    as Hv by (vm_compute; reflexivity).
  destruct (verified_header_signed _ _ _ _ Hv) as (c & n & d & _ & _ & _ & _ & _ & (l & Hl & Hp) & _). exists l. split; [exact Hl|].
  assert (total_voting_power (validatorSet (demo_header 10 12 1005)) = 10) as Ht by (vm_compute; reflexivity). rewrite Ht in Hp. exact Hp.
Defined.

(** ** The Gateway *)

Definition client_contents : list (string * bytes) :=
  [ (clientStatePath "07-tendermint-0", client_bytes toy_client_state);
    (consensusStatePath "07-tendermint-0" "10", consensus_bytes toy_consensus) ].
Definition client_gateway : gstate := MkGState (set_all client_contents new_tree) true.
Definition client_root : string := Eval vm_compute in match (getRoot (currentTree client_gateway)).1 with Ok r => r | Err _ => "" end.
Definition client_host : HostStateDatum := MkHostStateDatum (MkHostState 3 client_root 1 1 1 [] 50) "ab" "cd" Active.

#[local] Instance client_view : ChainView := {|
  findUtxoAtHostStateNFT := Ok (Some (demo_utxo "d0"));
  queryAllClientUtxos := Ok [];
  queryAllConnectionUtxos := Ok [];
  queryAllChannelUtxos := Ok [];
  decode_host_state _ := Ok client_host;
  decode_client _ := Ok client0;
  decode_connection _ := throw "none";
  decode_channel _ := throw "none";
|}.

Definition client_operator : ClientOperator := MkClientOperator "0" client0 "c1cafe" (demo_utxo "c1cafe").

(** The tree that holds the client, and the values that go into it. *)
Lemma client_gateway_holds : client_held (currentTree client_gateway) "07-tendermint-0" client0.
Proof.
  split; [vm_compute; reflexivity|]. intros z. unfold consensus_at_height. cbn [client0 created_client cld_state consensusStates List.find fst].
  change (revisionHeight (latestHeight toy_client_state)) with 10. destruct (Z.eqb_spec z 10) as [->|Hz]; [vm_compute; reflexivity|].
  unfold client_gateway, client_contents. cbn [currentTree set_all]. rewrite !tree_value_set by auto with gateway. rewrite decide_False, decide_False; [done|..].
  - apply client_key_other.
  - change "10" with (pretty 10). intros He%state_key_inj. by apply Hz.
Qed.

Lemma client_gateway_ok : state_ok client_gateway.
Proof.
  apply tree_ok_set_all; [apply tree_ok_new|].
  repeat first [apply Forall_nil_2 | apply Forall_cons_2; [split; [done | by_value_ok]|]].
Qed.

Lemma client1_values : values_ok client1.
Proof.
  assert (consensusStates (cld_state client1) = [(MkHeight 1 12, MkConsensusState 1005000000000 (toHex set_digest) (toHex set_digest)); (MkHeight 1 10, toy_consensus)])
    as Hs by (vm_compute; reflexivity).
  split; [by_value_ok|]. intros k c Hin. rewrite Hs, !elem_of_cons in Hin.
  destruct Hin as [E|[E|E]]; [apply (f_equal snd) in E; cbn [snd] in E; subst c; by_value_ok..|apply elem_of_nil in E; destruct E].
Qed.

(** Aligning the tree leaves what it holds. *)
Lemma client_aligned s1 : ensureTreeAligned client_root client_gateway = (Ok tt, s1) ->
  leaves (currentTree s1) = leaves (currentTree client_gateway) /\ state_ok s1.
Proof.
  intros H. assert (leaves (currentTree (ensureTreeAligned client_root client_gateway).2) = leaves (currentTree client_gateway)) as Hl by (vm_compute; reflexivity).
  rewrite H in Hl. split; [exact Hl|]. eapply tree_ok_leaves; [apply client_gateway_ok| |exact Hl].
  unfold ensureTreeAligned, isTreeAligned in H. destruct (on_current getRoot client_gateway) as [r s2] eqn:E.
  pose proof (on_current_getRoot _ _ _ E) as [_ Hok].
  assert (r = Ok client_root) as -> by (transitivity (on_current getRoot client_gateway).1; [by rewrite E | vm_compute; reflexivity]).
  unfold mbind, M_bind in H. rewrite E in H. cbn in H. rewrite bool_decide_true in H by done. injection H as <-. apply Hok, client_gateway_ok.
Qed.

Lemma client_create_accepted_witness : exists address cs c tx n p s' d h s1 r,
  validateAndFormatCreateClientParams create_message = Ok (address, cs, c) /\
  buildUnsignedCreateClientTx cs c (1010000 * 1000000) client_gateway = (Ok (tx, n, p), s') /\
  client_created client_gateway d tx p h s1 r /\ mint_client d (cld_token d) 1010000 1020000 = creation_gap d c 1020000.
Proof.
  destruct (result_exists (validateAndFormatCreateClientParams create_message)) as ([[address cs] c] & Ef); [vm_compute; reflexivity|].
  assert (is_ok (buildUnsignedCreateClientTx cs c (1010000 * 1000000) client_gateway).1 = true) as Ho.
  { pose proof Ef as Ef'. vm_compute in Ef'. injection Ef' as _ <- <-. vm_compute. reflexivity. }
  destruct (ok_exists (buildUnsignedCreateClientTx cs c (1010000 * 1000000)) client_gateway Ho) as ([[tx n] p] & s' & E).
  destruct (client_create_accepted create_message address cs c 1010000 client_gateway tx n p s') as (specs & d & h & s1 & r & _ & _ & H1 & _ & _ & H2 & _);
    [discriminate|exact Ef|exact E|]. exists address, cs, c, tx, n, p, s', d, h, s1, r. split_and!; [exact Ef|exact E|exact H1|apply H2].
Defined.

(** The gap is closed for the message: the mint validator accepts. *)
Lemma creation_closes : creation_gap client0 toy_consensus 1020000 = true.
Proof. vm_compute. reflexivity. Qed.

Definition adjacent_update : PMsgUpdateClient := MkPMsgUpdateClient "07-tendermint-0" (Some (header_any "test-1" 10 11 1005)) "addr_signer".
Definition client_runner (plan : TxOperationPlan BuiltClient) : M hstate bytes := mret (utf8 (operationName plan)).

Lemma sound_headers_refused_witness : message_accepted client0 (HeaderCase (demo_header 10 11 1005)) 1010000 1020000 = true /\
  forall s, exists e, updateClient client_runner adjacent_update s = (Err e, s).
Proof.
  assert (message_accepted client0 (HeaderCase (demo_header 10 11 1005)) 1010000 1020000 = true) as Hm by (vm_compute; reflexivity).
  split; [exact Hm|]. intros s.
  assert (validateAndFormatUpdateClientParams adjacent_update = Ok ("addr_signer", "0")) as Hf by (vm_compute; reflexivity).
  destruct (result_exists (load_client_operator "0")) as (op & Hl); [vm_compute; reflexivity|].
  assert (co_clientDatum op = client0) as Hd.
  { unfold load_client_operator in Hl. repeat (apply bind_ok in Hl as (? & ? & Hl)). injection Hl as <-. cbn [co_clientDatum]. 
    match goal with H : decode_datum decode_client ?u = Ok _ |- _ => unfold decode_datum in H; destruct (datum u); [|discriminate H]; injection H as <- end. reflexivity. }
  assert (header_of_any (header_any "test-1" 10 11 1005) = Ok (demo_header 10 11 1005)) as Hh by (vm_compute; reflexivity).
  apply (sound_headers_refused client_runner adjacent_update "addr_signer" "0" op (header_any "test-1" 10 11 1005) (demo_header 10 11 1005) 1010000 1020000 s).
  - exact Hf.
  - exact Hl.
  - reflexivity.
  - reflexivity.
  - exact Hh.
  - rewrite Hd. exact Hm.
  - left. vm_compute. reflexivity.
Defined.

(** The HostState was last anchored in epoch 7. *)
#[local] Instance toy_history : HistoryView := {|
  findLatestBlock := Ok (Some 8); findTransactionEvidenceByHash _ := Ok (Some 100); findBlockByHeight _ := Ok (Some 7);
  getPublicKeyHash _ := Ok (Some "cd");
|}.

Lemma heartbeat_accepted_witness : exists ctx tx w root s',
  heartbeat_tx "addr_deployer" heartbeat_validity client_gateway = (Ok (ctx, Some (tx, w, root)), s') /\
  host_datum_rule Heartbeat (hb_hostStateDatum ctx) (beaten_host (hb_hostStateDatum ctx) (currentLedgerTime w)) = true.
Proof.
  assert (exists ctx tx w root, (heartbeat_tx "addr_deployer" heartbeat_validity client_gateway).1 = Ok (ctx, Some (tx, w, root))) as (ctx & tx & w & root & E)
    by (do 4 eexists; vm_compute; reflexivity).
  destruct (heartbeat_tx "addr_deployer" heartbeat_validity client_gateway) as [res s'] eqn:Eh. cbn [fst] in E. subst res.
  exists ctx, tx, w, root, s'. destruct (heartbeat_accepted _ _ _ _ _ _ _ _ Eh) as [H _]. split; [reflexivity|exact H].
Defined.
