(* ===== verification/OnChainDatumTheorems.v ===== *)
(** * The Gateway's datums against the validator's

    A packet transaction is accepted on chain only if its output channel datum is
    the one the validator computes.  On unordered channels every step of the
    Gateway's transition system is accepted; on ordered channels acknowledgements
    and timeouts are not. *)

From S2P Require Import Prelude JsMap Datum PacketHelpers Redeemers PacketOps ChannelLifecycle OnChainDatum.

(** ** Ascending maps *)

(** Sequences are kept as [bigint]s and sorted as [number]s: the two orders agree
    on safe integers. *)
Definition safe_integer (z : Z) : Prop := (0 <= z < 2 ^ 53)%Z.

Lemma number_of_safe z : safe_integer z -> number_of_bigint z = z.
Proof.
  intros [H0 H1]. unfold number_of_bigint. destruct (N.log2 (Z.abs_N z) <? 53)%N eqn:E; [done|].
  apply N.ltb_ge in E. exfalso. destruct (decide (Z.abs_N z = 0%N)) as [Hz|Hz]; [rewrite Hz in E; cbn in E; lia|].
  apply N.log2_le_pow2 in E; [|lia]. change (2 ^ 53)%N with 9007199254740992%N in E.
  change (2 ^ 53)%Z with 9007199254740992%Z in H1. lia.
Qed.

Inductive ascending {V} : list (Z * V) -> Prop :=
| asc_nil : ascending []
| asc_cons k v m : safe_integer k -> Forall (fun kv => (k < kv.1)%Z) m -> ascending m -> ascending ((k, v) :: m).
#[local] Hint Constructors ascending : core.

Lemma ascending_safe {V} (m : list (Z * V)) : ascending m -> Forall (fun kv => safe_integer kv.1) m.
Proof. induction 1; by constructor. Qed.

Lemma insert_sorted_least {V} (k : Z) (v : V) m :
  safe_integer k -> Forall (fun kv => safe_integer kv.1) m -> Forall (fun kv => (k < kv.1)%Z) m ->
  insert_sorted (k, v) m = (k, v) :: m.
Proof.
  intros Hk Hs Hm. destruct m as [|[k' v'] m]; [done|]. cbn [insert_sorted fst].
  apply Forall_inv in Hs. apply Forall_inv in Hm. cbn [fst] in *. rewrite !number_of_safe by done.
  by rewrite (proj2 (Z.leb_le _ _)) by lia.
Qed.

Lemma insert_ascending_below {V} k (v : V) m :
  Forall (fun kv => (k < kv.1)%Z) m -> insert_by_ascending_key m k v = (k, v) :: m.
Proof. destruct m as [|[k' v'] m]; [done|]. intros H%Forall_inv. cbn in *. by rewrite (proj2 (Z.ltb_lt _ _)). Qed.

Lemma insert_ascending_elem {V} (m : list (Z * V)) k v kv :
  kv ∈ insert_by_ascending_key m k v -> kv = (k, v) \/ kv ∈ m.
Proof.
  induction m as [|[k' v'] m IH]; cbn; [by intros ->%list_elem_of_singleton; left|].
  destruct (k <? k')%Z; [rewrite elem_of_cons; tauto|]. destruct (k =? k')%Z.
  - rewrite !elem_of_cons. tauto.
  - rewrite !elem_of_cons. intros [->|H]; [auto|]. destruct (IH H); auto.
Qed.

Lemma insert_ascending_ascending {V} (m : list (Z * V)) k v :
  ascending m -> safe_integer k -> ascending (insert_by_ascending_key m k v).
Proof.
  intros Hm Hk. induction Hm as [|k' v' m Hk' Hlt Hm IH]; cbn; [by auto|].
  destruct (k <? k')%Z eqn:E; [apply Z.ltb_lt in E | apply Z.ltb_ge in E; destruct (k =? k')%Z eqn:E2].
  - constructor; [done| |by constructor]. constructor; [done|]. eapply Forall_impl; [exact Hlt|]. cbn. lia.
  - apply Z.eqb_eq in E2 as ->. by constructor.
  - apply Z.eqb_neq in E2. constructor; [done| |done]. apply Forall_forall. intros kv [->|Hin]%insert_ascending_elem; [cbn; lia|].
    by eapply Forall_forall in Hlt.
Qed.

Lemma delete_first_ascending {V} (m : list (Z * V)) k : ascending m -> ascending (delete_first m k).
Proof.
  induction 1 as [|k' v' m Hk' Hlt Hm IH]; cbn; [done|]. destruct (k =? k')%Z; [done|]. constructor; [done| |done].
  clear -Hlt. induction m as [|[j w] m IH]; cbn; [done|]. apply Forall_cons in Hlt as [H1 H2].
  destruct (k =? j)%Z; [done|]. constructor; auto.
Qed.

(** Sorting after appending a fresh key is insertion at its place. *)
Lemma sort_app_fresh {V} (m : list (Z * V)) k v :
  ascending m -> safe_integer k -> k ∉ m.*1 -> sortByNumberKey (m ++ [(k, v)]) = insert_by_ascending_key m k v.
Proof.
  intros Hm Hk. unfold sortByNumberKey. rewrite foldr_app. cbn [foldr insert_sorted].
  induction Hm as [|k' v' m Hk' Hlt Hm IH]; intros Hin; [done|]. cbn [foldr fmap list_fmap fst] in *.
  rewrite IH by (intros ?; apply Hin; by right). cbn [insert_by_ascending_key].
  destruct (k <? k')%Z eqn:E; [apply Z.ltb_lt in E | apply Z.ltb_ge in E].
  - rewrite insert_ascending_below by (eapply Forall_impl; [exact Hlt|]; cbn; lia).
    cbn [insert_sorted fst]. rewrite !number_of_safe by done. rewrite (proj2 (Z.leb_gt _ _)) by lia. f_equal.
    by apply insert_sorted_least, Hlt; [|apply ascending_safe].
  - assert (k <> k') as Hne by (intros ->; apply Hin; by left). rewrite (proj2 (Z.eqb_neq _ _)) by done.
    apply insert_sorted_least; [done|..].
    + by apply ascending_safe, insert_ascending_ascending.
    + apply Forall_forall. intros kv [->|Hkv]%insert_ascending_elem; [cbn; lia|]. by eapply Forall_forall in Hlt.
Qed.

Lemma insertSortMap_ascending {V} (m : jsmap Z V) k v :
  ascending m -> safe_integer k -> map_get m k = None ->
  insertSortMapWithNumberKey m k v = insert_by_ascending_key m k v.
Proof.
  intros Hm Hk Hn%map_get_None. unfold insertSortMapWithNumberKey. rewrite map_set_fresh by done.
  by apply sort_app_fresh.
Qed.

Lemma delete_first_delete {V} (m : jsmap Z V) k : delete_first m k = map_delete m k.
Proof.
  induction m as [|[k' v'] m IH]; cbn; [done|]. destruct (k =? k')%Z eqn:E.
  - apply Z.eqb_eq in E as ->. by rewrite decide_True.
  - apply Z.eqb_neq in E. rewrite decide_False by congruence. by rewrite IH.
Qed.

Lemma has_key_has {V} (m : jsmap Z V) k : map_get m k <> None -> has_key m k = true.
Proof.
  unfold has_key. induction m as [|[k' v'] m IH]; cbn; [done|]. case_decide as E; [by rewrite E, Z.eqb_refl|].
  intros H. rewrite IH by done. by rewrite orb_true_r.
Qed.

(** ** Heights *)

Lemma not_less_at_least h floor : not_less (height_compare h floor) = isHeightAtLeast h floor.
Proof.
  unfold height_compare, isHeightAtLeast. destruct h as [a b], floor as [c d]. cbn [revisionNumber revisionHeight].
  destruct (Z.ltb_spec a c), (Z.ltb_spec c a), (Z.eqb_spec a c), (Z.ltb_spec b d), (Z.ltb_spec d b), (Z.leb_spec d b);
    cbn; lia || done.
Qed.

Lemma greater_is_maximum m h :
  (match height_compare h m with Gt => h | _ => m end) = maximumHeight m h.
Proof.
  unfold maximumHeight, height_compare, isHeightAtLeast. destruct h as [a b], m as [c d]. cbn [revisionNumber revisionHeight].
  destruct (Z.ltb_spec a c), (Z.ltb_spec c a), (Z.eqb_spec c a), (Z.ltb_spec b d), (Z.ltb_spec d b), (Z.leb_spec b d);
    cbn; first [done | lia | f_equal; lia].
Qed.

(** ** Acceptance *)

(** The maps the validator keeps by ascending key, and the sequence still to be
    assigned, within the range in which sequences survive [Number]. *)
Record datum_ascending (d : ChannelDatum) : Prop := {
  da_commitment : ascending (packet_commitment (cd_state d));
  da_acknowledgement : ascending (packet_acknowledgement (cd_state d));
  da_send : safe_integer (next_sequence_send (cd_state d));
}.

Definition event_sequence (e : event) : Z :=
  match e with EvRecv n _ | EvAck n | EvTimeout n _ | EvSend n | EvPrune n _ => n end.

(** The validator's datum check for a packet transaction with event [e]. *)
Definition validator_accepts (d : ChannelDatum) (e : event) (d' : ChannelDatum) (packet : Packet) : Prop :=
  match e with
  | EvRecv _ h => exists ack, validate_recv_packet d d' packet ack h = true
  | EvAck _ => validate_acknowledge_packet d d' packet = true
  | EvTimeout _ _ => validate_timeout_packet d d' packet = true
  | EvSend _ => exists commitment, validate_send_packet d d' packet commitment = true
  | EvPrune n h => validate_prune_packet_history d d' n h = true
  end.

Lemma same_datum_plain a b : plain a = plain b -> same_datum a b = true.
Proof. apply bool_decide_eq_true_2. Qed.

Lemma entry_count_agrees d : packet_entry_count (cd_state d) = packetEntryCount d.
Proof. done. Qed.

Lemma recv_accepted op d ack packet :
  datum_wf d -> datum_ascending d -> recv_checked d (rp_packetSequence op) (rp_proofHeight op) ->
  map_get (packet_acknowledgement (cd_state d)) (rp_packetSequence op) = None ->
  safe_integer (rp_packetSequence op) -> sequence packet = rp_packetSequence op ->
  validate_recv_packet d (received_channel_datum d op ack) packet ack (rp_proofHeight op) = true.
Proof.
  intros Hw Ha [C1 C2 C3 C4 C5] Hnone Hsafe Hp. unfold validate_recv_packet. cbv zeta. rewrite not_less_at_least, C4, Hp.
  rewrite entry_count_agrees, <- (insertSortMap_ascending _ _ ack (da_acknowledgement _ Ha) Hsafe Hnone), greater_is_maximum.
  unfold received_channel_datum, is_ordered, channel_end in *.
  pose proof (dw_order _ Hw) as Hno. unfold channel_end in Hno.
  destruct (ch_ordering (obj_val (channel (cd_state d)))) eqn:Eo; [done|..];
    [rewrite bool_decide_false by done | rewrite bool_decide_true by done; rewrite C3, Z.eqb_refl by done];
    (rewrite (proj2 (Nat.leb_le _ _)) by (first [rewrite decide_True in C1 by done | rewrite decide_False in C1 by done]; exact C1)); cbn [andb];
    apply same_datum_plain; [|done].
  by rewrite prependToMap_fresh by (done || apply Hw).
Qed.

Lemma send_accepted d k packet :
  datum_wf d -> datum_ascending d -> validateSendPacketCommitmentCapacity d = Ok tt ->
  sequence packet = next_sequence_send (cd_state d) ->
  validate_send_packet d (sent_channel_datum d k) packet k = true.
Proof.
  intros Hw Ha Hc Hp. unfold validate_send_packet. cbv zeta. rewrite Hp, entry_count_agrees.
  rewrite <- (insertSortMap_ascending _ _ k (da_commitment _ Ha) (da_send _ Ha) (fresh_send _ Hw)).
  unfold validateSendPacketCommitmentCapacity in Hc. case_decide as Hcap; [done|].
  rewrite (proj2 (Nat.ltb_lt _ _)) by (apply Nat.nle_gt; exact Hcap). cbn [andb]. by apply same_datum_plain.
Qed.

Lemma prune_accepted op d :
  prune_guards op d = Ok tt ->
  validate_prune_packet_history d (pruned_channel_datum d (pp_sequence op) (pp_proofHeight op)) (pp_sequence op)
    (pp_proofHeight op) = true.
Proof.
  intros [P1 P2 P3 P4 P5]%prune_guards_checked. unfold validate_prune_packet_history. cbv zeta.
  rewrite !not_less_at_least, P4, P5, !has_key_has, !delete_first_delete by done. unfold channel_end in P1.
  rewrite bool_decide_true by done. cbn [andb]. by apply same_datum_plain.
Qed.

Lemma removal_accepted d n packet :
  ch_ordering (channel_end d) = Unordered -> sequence packet = n ->
  validate_acknowledge_packet d (acked_channel_datum d n) packet = true /\
  (ch_state (channel_end d) = Open -> validate_timeout_packet d (acked_channel_datum d n) packet = true).
Proof.
  unfold validate_acknowledge_packet, validate_timeout_packet, channel_end. intros Ho <-. cbv zeta. rewrite Ho.
  rewrite !decide_False by done. split; [|intros Hs]; apply same_datum_plain; unfold delete_commitment; rewrite delete_first_delete;
    [done|]. unfold plain, with_channel. cbn. unfold deleteKeySortMap. repeat f_equal.
  destruct (obj_val (channel (cd_state d))). cbn in *. congruence.
Qed.

Lemma step_ascending d e d' :
  datum_wf d -> datum_ascending d -> channel_step d e d' -> ch_ordering (channel_end d) = Unordered ->
  safe_integer (event_sequence e) -> safe_integer (next_sequence_send (cd_state d')) -> datum_ascending d'.
Proof.
  intros Hw Ha Hs. revert Hw Ha. destruct Hs as [op ? cd ack H1 H2|op ? cd Ho H|? n|? k H|op ? H]; intros Hw [A1 A2 A3] Hu He Hn;
    split; try done; cbn [event_sequence] in He.
  - pose proof (recv_guards_checked _ _ _ H1 H2) as C. cbn [received_channel_datum cd_state packet_acknowledgement].
    rewrite insertSortMap_ascending by (done || by eapply recv_no_ack). by apply insert_ascending_ascending.
  - cbn. unfold deleteKeySortMap. rewrite <- delete_first_delete. by apply delete_first_ascending.
  - rewrite timed_out_acked by done. cbn. unfold deleteKeySortMap. rewrite <- delete_first_delete. by apply delete_first_ascending.
  - cbn [sent_channel_datum cd_state packet_commitment]. rewrite insertSortMap_ascending by (done || by apply fresh_send).
    by apply insert_ascending_ascending.
  - cbn. unfold deleteKeySortMap. rewrite <- delete_first_delete. by apply delete_first_ascending.
Qed.

(** C26 (refinement): on an open unordered channel, every step a packet builder
    takes is accepted by the channel validator's datum check for that operation:
    the Gateway's output datum is the one the validator computes, entry order
    included, and the builder's guards imply the validator's; and the next datum
    is again of the form required here, so the claim applies step after step. *)
Theorem packet_steps_accepted d e d' packet :
  datum_wf d -> datum_ascending d -> ch_ordering (channel_end d) = Unordered -> ch_state (channel_end d) = Open ->
  channel_step d e d' -> safe_integer (event_sequence e) -> safe_integer (next_sequence_send (cd_state d')) ->
  sequence packet = event_sequence e ->
  validator_accepts d e d' packet /\ datum_wf d' /\ datum_ascending d' /\
  ch_ordering (channel_end d') = Unordered /\ ch_state (channel_end d') = Open.
Proof.
  intros Hw Ha Hu Ho Hs He Hn Hp.
  assert (channel (cd_state d') = channel (cd_state d)) as Hc by apply (step_frame _ _ _ Hs).
  unfold channel_end in *. rewrite Hc. split_and!; [|by eapply step_wf|by eapply step_ascending|done..].
  revert Hw Ha Hu Ho He Hp. clear Hn Hc. destruct Hs as [op ? cd ack H1 H2|op ? cd Hop H|? n|? k H|op ? H]; cbn [event_sequence validator_accepts];
    intros Hw Ha Hu Ho He Hp.
  - pose proof (recv_guards_checked _ _ _ H1 H2) as C. exists ack. apply recv_accepted; try done. by eapply recv_no_ack.
  - by apply removal_accepted.
  - rewrite timed_out_acked by done. by apply removal_accepted.
  - exists k. by apply send_accepted.
  - by apply prune_accepted.
Qed.

(** On an ordered channel the validator rejects what the Gateway builds
    for an acknowledgement (it expects the acknowledgement counter to advance) and,
    unless the channel is closed already, for a timeout (it expects the channel to
    be closed). *)
Lemma ordered_removals_rejected d n packet :
  ch_ordering (channel_end d) = Ordered ->
  validate_acknowledge_packet d (acked_channel_datum d n) packet = false /\
  (ch_state (channel_end d) <> Close -> validate_timeout_packet d (timed_out_channel_datum d n) packet = false).
Proof.
  unfold validate_acknowledge_packet, validate_timeout_packet, channel_end. intros Ho. cbv zeta. rewrite Ho.
  rewrite !decide_True by done. split; [|intros Hc]; apply bool_decide_eq_false_2; intros E.
  - apply (f_equal (fun x => next_sequence_ack (cd_state x))) in E. cbn in E. lia.
  - apply (f_equal (fun x => ch_state (obj_val (channel (cd_state x))))) in E. cbn in E. by apply Hc.
Qed.

(** ** Witnesses *)

Definition any_packet (n : Z) : Packet := MkPacket n "" "" "" "" "" (life_height 0) 0.

Lemma life_ascending : datum_ascending life_datum.
Proof. split; [constructor..|]. cbn. unfold safe_integer. lia. Qed.

Lemma packet_steps_accepted_witness :
  let d' := received_channel_datum life_datum (life_recv 3 (life_height 5)) "ff" in
  validator_accepts life_datum (EvRecv 3 (life_height 5)) d' (any_packet 3) /\ datum_wf d' /\ datum_ascending d' /\
  ch_ordering (channel_end d') = Unordered /\ ch_state (channel_end d') = Open.
Proof.
  apply (packet_steps_accepted life_datum (EvRecv 3 (life_height 5))).
  - apply life_datum_wf.
  - apply life_ascending.
  - reflexivity.
  - reflexivity.
  - apply (step_recv (life_recv 3 (life_height 5)) _ life_client "ff"); vm_compute; reflexivity.
  - cbn. unfold safe_integer. lia.
  - cbn. unfold safe_integer. lia.
  - reflexivity.
Defined.

Definition ordered_datum : ChannelDatum :=
  MkChannelDatum
    (MkChannelDatumState (MkChannelObj 0 (MkChannel Open Ordered (MkChannelCounterparty "aa" "bb") ["cc"] "dd")) 2 1 1
       [(1%Z, "ff")] [] [] (life_height 0) (life_height 0)) "ee" (MkAuthToken "" "").

