(* ===== verification/TraceRegistryTheorems.v ===== *)
(** * The trace registry: the Gateway against the chain

    The Gateway's lookups and insertion plans ([TraceRegistry]) on the ledgers of
    [OnChainRegistry]: a lookup finds exactly what is registered, and the transaction of
    a plan is one the validators accept, up to the difference between the size the
    Gateway measures and the size the validator measures. *)

From Stdlib Require Import ZArith Lia.
From stdpp Require Import sets.
From S2P Require Import Prelude JsMap JsString Hex MerkleTree Datum PacketHelpers OnChainProto TreeRebuild EscrowShard EscrowShardTheorems Voucher VoucherTheorems PacketDenom PacketOps TxAssembly OnChainChannel OnChainTransfer TraceRegistry OnChainRegistry OnChainDatumTheorems ToyHash.

#[local] Open Scope Z_scope.

(** ** Reading a datum *)

(** An entry and a shard as the Gateway decodes them. *)
Definition view_entry (e : registry_entry) : TraceRegistryEntry := MkTraceRegistryEntry (e_hash e) (convertHex2String (e_denom e)).
Definition view_shard (s : registry_shard) : TraceRegistryShardDatum := MkTraceRegistryShardDatum (s_bucket_index s) (view_entry <$> s_entries s).

Lemma mapM_mapR {A B C} (f : A -> option B) (g : A -> result C) (v : B -> C) l k :
  (forall a b, f a = Some b -> g a = Ok (v b)) -> mapM f l = Some k -> mapR g l = Ok (v <$> k).
Proof. intros Hfg H%mapM_Some. apply mapR_ok_forall2, Forall2_fmap_r. eapply Forall2_impl; [exact H|]. auto. Qed.

Lemma decode_entry_view d e : as_entry d = Some e -> decodeEntry d = Ok (view_entry e).
Proof. destruct d as [[] [|[] [|[] [|]]]| | | | |]; try done. by intros [= <-]. Qed.
Lemma decode_bucket_view d b : as_bucket d = Some b -> decodeDirectoryBucket d = Ok b.
Proof.
  destruct d as [[] [|[] [|[] [|[] [|]]]]| | | | |]; try done. cbn. unfold decodeDirectoryBucket. cbn.
  destruct (all_strings _); [|done]. by intros [= <-].
Qed.

Section read.
Context `{L : Lucid}.

Lemma decode_datum_view data d v : Data_from data = Ok d -> as_registry_datum d = Some v ->
  decodeTraceRegistryDatum data = Ok match v with RShard s => Shard (view_shard s) | RDirectory b => Directory b end.
Proof.
  intros Hd Hv. unfold decodeTraceRegistryDatum. rewrite Hd. cbn [mbind result_bind].
  destruct d as [i fields| | | | |]; try done. cbn [expectConstr mbind result_bind].
  destruct i as [|[]|]; try done; cbn in Hv; destruct fields as [|x [|]]; try done; cbn.
  - destruct (as_shard x) as [s|] eqn:E; [|done]. injection Hv as <-. destruct x as [j fs| | | | |]; try done.
    cbn in E. destruct j; try done. destruct fs as [|[] [|[] [|]]]; try done. destruct (mapM as_entry _) as [es|] eqn:Em; [|done].
    injection E as <-. cbn. by rewrite (mapM_mapR _ _ view_entry _ _ decode_entry_view Em).
  - destruct (as_directory x) as [b|] eqn:E; [|done]. injection Hv as <-. destruct x as [j fs| | | | |]; try done.
    cbn in E. destruct j; try done. destruct fs as [|[] [|]]; try done. cbn.
    rewrite (mapM_mapR _ _ id _ _ decode_bucket_view E). cbn. by rewrite list_fmap_id.
Qed.

End read.

(** ** Loading a bucket *)

Lemma set_of_list_id `{EqDecision T} (l : list T) : NoDup l -> set_of_list l = l.
Proof.
  intros Hn. unfold set_of_list. cut (forall k, NoDup (k ++ l) -> fold_left set_add l k = k ++ l); [intros H; by apply (H [])|]. clear Hn.
  induction l as [|x l IH]; intros k Hk; cbn; [by rewrite app_nil_r|].
  assert (k ++ x :: l = (k ++ [x]) ++ l) as E by by rewrite <- app_assoc. unfold set_add. rewrite decide_False.
  - rewrite IH; [done|]. by rewrite <- E.
  - apply NoDup_app in Hk as (_ & Hd & _). intros Hx. apply (Hd x Hx). left.
Qed.

Lemma unique_NoDup l : bytearrays_are_unique l = true -> NoDup l.
Proof.
  induction l as [|x l IH]; cbn; [constructor|]. rewrite andb_true_iff, negb_true_iff, bool_decide_eq_false. intros [Hx Hl]. constructor; auto.
Qed.

(** What a bucket within capacity has. *)
Lemma bucket_capacity b : directory_bucket_is_within_capacity b = true ->
  0 <= bucket_index b < 16 /\ NoDup (shard_names b) /\ (forall n, n ∈ shard_names b -> valid_shard_name n = true) /\
  count (archived_shard_names b) <= 8.
Proof.
  unfold directory_bucket_is_within_capacity. rewrite !andb_true_iff, negb_true_iff, bool_decide_eq_false, Z.leb_le, Z.ltb_lt, Z.leb_le, forallb_forall.
  intros [[[[[[H1 H2] H3] H4] H5] H6] H7]. unfold bucketCount, maxArchivedShardsPerBucket in *. split_and!; [done..| | |done].
  - constructor; [done|]. by apply unique_NoDup.
  - unfold shard_names. intros n [->|Hn]%elem_of_cons; [done|]. by apply H5, list_elem_of_In.
Qed.
Lemma directory_capacity d b : directory_is_within_capacity d = true -> b ∈ d -> directory_bucket_is_within_capacity b = true.
Proof. unfold directory_is_within_capacity. rewrite !andb_true_iff, forallb_forall. intros [[_ H] _] Hb. by apply H, list_elem_of_In. Qed.

Lemma number_of_bucket z : 0 <= z < 16 -> number_of_bigint z = z.
Proof. intros H. apply number_of_safe. split; [lia|]. change (2 ^ 53) with 9007199254740992. lia. Qed.

(** ** Hexadecimal digits *)

Lemma hex_digit_value b : is_hex_byte b = true -> exists x, fromHexChar (lower_byte b) = Ok x /\ hex_value b = Some x /\ (x < 16)%N.
Proof. destruct b; intros H; try discriminate H; by eexists. Qed.

Lemma toLowerCase_idem s : toLowerCase (toLowerCase s) = toLowerCase s.
Proof. unfold toLowerCase. rewrite utf8_text, map_map. f_equal. apply map_ext. by intros []. Qed.

Lemma high_nibble_of x y : (x < 16)%N -> (y < 16)%N -> Z.of_N (Byte.to_N (byte_of_N (N.lor (N.shiftl x 4) y))) / 16 = Z.of_N x.
Proof.
  intros Hx Hy.
  assert (forallb (fun x => forallb (fun y => Z.of_N (Byte.to_N (byte_of_N (N.lor (N.shiftl x 4) y))) / 16 =? Z.of_N x) (N.of_nat <$> seq 0 16)) (N.of_nat <$> seq 0 16) = true) as H by done.
  rewrite forallb_forall in H. assert (forall z, (z < 16)%N -> In z (N.of_nat <$> seq 0 16)) as Hin.
  { intros z Hz. apply list_elem_of_In, list_elem_of_fmap. exists (N.to_nat z). split; [lia|]. apply elem_of_seq. lia. }
  specialize (H x (Hin x Hx)). rewrite forallb_forall in H. apply Z.eqb_eq, (H y (Hin y Hy)).
Qed.

Section gateway.
Context `{L : Lucid} `{BL : Blake2b} `{SHA : Sha256} `{S3 : Sha3} `{RE : RegistryEnv} `{UA : UtxoAddress}.
Context (A policy directory_name : string) (G : ledger).

#[local] Abbreviation token := (unit_of policy).
#[local] Abbreviation holds := (holds A policy).
#[local] Abbreviation directory_at := (directory_at A policy directory_name).
#[local] Abbreviation registered := (registered A policy directory_name).
#[local] Abbreviation bucket_ok := (bucket_ok A policy).
#[local] Abbreviation registry := (MkTraceRegistryConfig A policy (Some (MkAuthToken policy directory_name)), MkAuthToken policy directory_name).

(** The deployment names this registry, and the provider answers with the unspent output
    that holds the token asked for; an inline datum is not empty. *)
Record provider_ok : Prop := {
  po_config : traceRegistry = Some (MkTraceRegistryConfig A policy (Some (MkAuthToken policy directory_name)));
  po_address : A <> "";
  po_find name u : u ∈ live G -> amount (assets u) (token name) = 1 -> utxoByUnit (token name) = Ok u;
  po_datum u : u ∈ live G -> datum u <> Some "";
}.

Context (OK : registry_ok A policy directory_name G) (PO : provider_ok).

Lemma config_ok : getRequiredTraceRegistryConfig = Ok registry.
Proof. unfold getRequiredTraceRegistryConfig, getTraceRegistryConfig. rewrite (po_config PO). cbn. rewrite decide_False; [done|apply (po_address PO)]. Qed.

Lemma datum_view u v : u ∈ live G -> registry_datum_of (located u) = Some v -> exists data, datum u = Some data /\ data <> "" /\
  decodeTraceRegistryDatum data = Ok match v with RShard s => Shard (view_shard s) | RDirectory b => Directory b end.
Proof.
  intros Hu. unfold registry_datum_of. cbn [out_datum located]. destruct (datum u) as [data|] eqn:E; [|done]. cbn [mbind option_bind].
  destruct (Data_from data) as [d|] eqn:Ed; [|done]. intros Hv. exists data. split_and!; [done| |by eapply decode_datum_view].
  intros ->. by apply (po_datum PO u Hu).
Qed.

Lemma load_directory d : directory_at G d -> exists u, loadDirectoryState registry = Ok (u, d) /\ u ∈ live G /\
  output_matches A (token directory_name) (located u) = true /\ directory_of (located u) = Some d.
Proof.
  intros (u & Hu & Hm & Hd). exists u. split_and!; [|done..]. pose proof Hm as [_ Ht]%matches_spec.
  unfold loadDirectoryState. cbn [snd policyId token_name].
  change (utxoByUnit (policy +:+ directory_name)) with (utxoByUnit (token directory_name)). rewrite (po_find PO _ u Hu Ht). cbn [mbind result_bind].
  unfold directory_of in Hd. destruct (registry_datum_of (located u)) as [v|] eqn:Ev; [|done]. destruct v as [|b]; [done|]. injection Hd as ->.
  destruct (datum_view u _ Hu Ev) as (data & -> & Hne & Hdec). destruct data; [done|]. by rewrite Hdec.
Qed.

Record loaded (name : string) (s : registry_shard) (l : LoadedBucketShard) : Prop := {
  ld_name : ls_tokenName l = name;
  ld_datum : ls_datum l = view_shard s;
  ld_live : ls_utxo l ∈ live G;
  ld_matches : output_matches A (token name) (located (ls_utxo l)) = true;
  ld_shard : shard_of (located (ls_utxo l)) = Some s;
}.

Lemma load_shard name s i : holds G name s -> s_bucket_index s = i -> 0 <= i < 16 -> exists l, load_bucket_shard registry i name = Ok l /\ loaded name s l.
Proof.
  intros (u & Hu & Hm & Hs) Hi Hr. exists (MkLoadedBucketShard name (token name) u (view_shard s)). split; [|done].
  pose proof Hm as [_ Ht]%matches_spec. unfold load_bucket_shard. cbn [fst rc_shardPolicyId].
  change (utxoByUnit (policy +:+ name)) with (utxoByUnit (token name)). rewrite (po_find PO _ u Hu Ht). cbn [mbind result_bind].
  unfold shard_of in Hs. destruct (registry_datum_of (located u)) as [v|] eqn:Ev; [|done]. destruct v as [s'|]; [|done]. injection Hs as ->.
  destruct (datum_view u _ Hu Ev) as (data & Hd & Hne & Hdec). unfold loadShardDatumFromUtxo. rewrite Hd. destruct data; [done|]. rewrite Hdec. cbn [mbind result_bind].
  cbn [shard_bucket_index view_shard]. rewrite Hi, number_of_bucket, Z.eqb_refl by done. done.
Qed.

Lemma load_shards i names ss : Forall2 (holds G) names ss -> (forall s, s ∈ ss -> s_bucket_index s = i) -> 0 <= i < 16 ->
  exists ls, mapR (load_bucket_shard registry i) names = Ok ls /\ Forall3 loaded names ss ls.
Proof.
  intros HF Hi Hr. induction HF as [|n s names ss Hn HF IH]; [exists []; by repeat constructor|].
  destruct (load_shard n s i Hn ltac:(apply Hi; left) Hr) as (l & Hl & Hld). destruct IH as (ls & Hls & H3); [intros; apply Hi; by right|].
  exists (l :: ls). split; [|by constructor]. cbn. rewrite Hl. cbn. by rewrite Hls.
Qed.

Lemma load_bucket b ss : bucket_ok G b ss -> directory_bucket_is_within_capacity b = true ->
  exists ls, loadBucketShardStates registry (bucket_index b) b = Ok ls /\ Forall3 loaded (shard_names b) ss ls.
Proof.
  intros Hok (Hi & Hn & _ & _)%bucket_capacity. unfold loadBucketShardStates. rewrite set_of_list_id by done.
  apply load_shards; [apply (bo_holds _ _ _ _ _ Hok)| |done]. intros s Hs. by apply (bo_shards _ _ _ _ _ Hok).
Qed.

(** ** The entry of a hash *)

Lemma admissible_lower e : entry_is_admissible e = true -> toLowerCase (e_hash e) = e_hash e.
Proof. unfold entry_is_admissible. rewrite !andb_true_iff, bool_decide_eq_true. intros [_ <-]. apply toLowerCase_hex. Qed.

Lemma matches_view h names ss ls : Forall3 loaded names ss ls -> (forall e, e ∈ ss ≫= s_entries -> toLowerCase (e_hash e) = e_hash e) ->
  (hash_matches h ls).*1 = view_entry <$> List.filter (fun e => bool_decide (e_hash e = toLowerCase h)) (ss ≫= s_entries).
Proof.
  intros H3 Hlow. induction H3 as [|n s l names ss ls Hl H3 IH]; [done|]. unfold hash_matches in *. cbn [mbind list_bind] in *.
  rewrite List.filter_app, !fmap_app, IH by (intros; apply Hlow, elem_of_app; by right). f_equal.
  rewrite (ld_datum _ _ _ Hl). cbn [entries view_shard]. assert (forall e, e ∈ s_entries s -> toLowerCase (e_hash e) = e_hash e) as Hs.
  { intros e He. apply Hlow, elem_of_app. by left. }
  clear -Hs. induction (s_entries s) as [|e es IHe]; [done|]. rewrite fmap_cons. cbn [List.filter voucher_hash view_entry].
  rewrite (Hs e ltac:(left)). case_bool_decide; rewrite ?fmap_cons; [f_equal|]; apply IHe; intros; apply Hs; by right.
Qed.

Lemma hash_filter h (es : list registry_entry) : NoDup (e_hash <$> es) ->
  (exists e, List.filter (fun e => bool_decide (e_hash e = h)) es = [e] /\ e ∈ es /\ e_hash e = h) \/
  (List.filter (fun e => bool_decide (e_hash e = h)) es = [] /\ forall e, e ∈ es -> e_hash e <> h).
Proof.
  induction es as [|e es IH]; [right; split; [done|]; by intros e ?%not_elem_of_nil|]. cbn. intros [Hn Hd]%NoDup_cons.
  destruct (IH Hd) as [(x & Hx & Hin & Hh)|[Hx Hno]]; case_bool_decide as E.
  - exfalso. apply Hn. rewrite E, <- Hh. by apply list_elem_of_fmap_2.
  - left. exists x. split_and!; [done|by right|done].
  - left. exists e. rewrite Hx. split_and!; [done|left|done].
  - right. split; [done|]. intros y [->|Hy]%elem_of_cons; auto.
Qed.

(** The Gateway's bucket of a hash is the chain's. *)
Lemma bucket_of_hash h : is_denom_hash h = true -> exists i, getBucketIndexForHash h = Ok i /\ bucket_index_for_hash (toLowerCase h) = Some i /\ 0 <= i < 16.
Proof.
  intros Hh. unfold getBucketIndexForHash. rewrite Hh. unfold is_denom_hash, all_hex in Hh. apply andb_true_iff in Hh as [Hlen Hhex].
  apply Nat.eqb_eq in Hlen. unfold str_length, VOUCHER_DENOM_HASH_HEX_LENGTH in Hlen.
  unfold bucket_index_for_hash, hex_decode_prefix, toLowerCase. rewrite utf8_text.
  destruct (utf8 h) as [|a [|b l]]; [done|done|]. cbn [map hex_decode_go forallb] in *. apply andb_true_iff in Hhex as [Ha Hhex]. apply andb_true_iff in Hhex as [Hb _].
  destruct (hex_digit_value a Ha) as (x & -> & -> & Hx), (hex_digit_value b Hb) as (y & -> & _ & Hy). cbn [default].
  exists (Z.of_N x). rewrite high_nibble_of by done. split_and!; [done..|lia|lia].
Qed.

(** ** Lookups *)

Definition found (i : Z) (e : registry_entry) (o : OnChainTraceEntry) : Prop :=
  ot_hash o = e_hash e /\ ot_fullDenom o = convertHex2String (e_denom e) /\ ot_bucketIndex o = i.

Lemma find_in_directory_spec h d b ss : is_denom_hash h = true -> directory_is_within_capacity d = true -> b ∈ d -> bucket_ok G b ss ->
  bucket_index_for_hash (toLowerCase h) = Some (bucket_index b) ->
  (exists e o, find_in_directory h registry d = Ok (Some o) /\ found (bucket_index b) e o /\ e ∈ ss ≫= s_entries /\ e_hash e = toLowerCase h) \/
  (find_in_directory h registry d = Ok None /\ forall e, e ∈ ss ≫= s_entries -> e_hash e <> toLowerCase h).
Proof.
  intros Hh Hc Hb Hok Hbi. destruct (bucket_of_hash h Hh) as (i & Hi & Hbi' & Hr). rewrite Hbi in Hbi'. injection Hbi' as <-.
  unfold find_in_directory. rewrite Hi. cbn [mbind result_bind]. pose proof (directory_capacity d b Hc Hb) as Hcap.
  assert (getDirectoryBucket d (bucket_index b) = Ok b) as ->.
  { unfold getDirectoryBucket. pose proof (find_bucket_in d b (capacity_unique _ Hc) Hb) as F. unfold find_bucket in F.
    assert (forall l, (forall c, c ∈ l -> c ∈ d) -> List.find (fun c => number_of_bigint (bucket_index c) =? bucket_index b) l = List.find (fun c => bucket_index c =? bucket_index b) l) as ->; [|by rewrite F|done].
    induction l as [|c l IH]; intros Hl; [done|]. cbn [List.find]. rewrite number_of_bucket, IH; [done|intros; apply Hl; by right|].
    apply (bucket_capacity c), (directory_capacity d); [done|]. apply Hl. left. }
  cbn [mbind result_bind]. destruct (load_bucket b ss Hok Hcap) as (ls & -> & H3). cbn [mbind result_bind].
  pose proof (matches_view h _ _ _ H3 ltac:(intros e He; apply admissible_lower; by apply (bo_entries _ _ _ _ _ Hok))) as Hm.
  destruct (hash_filter (toLowerCase h) _ (bo_unique _ _ _ _ _ Hok)) as [(e & He & Hin & Heh)|[He Hno]]; rewrite He in Hm.
  - destruct (hash_matches h ls) as [|[x shard] [|]]; try done. injection Hm as ->. left. eexists e, _. split_and!; [done| |done|done].
    split_and!; try done. cbn. apply admissible_lower. by apply (bo_entries _ _ _ _ _ Hok).
  - destruct (hash_matches h ls); [|done]. by right.
Qed.

Definition listed (i : Z) (e : registry_entry) : OnChainTraceEntry := MkOnChainTraceEntry (e_hash e) (convertHex2String (e_denom e)) i None.

Lemma bucket_entries_spec b ss : bucket_ok G b ss -> directory_bucket_is_within_capacity b = true ->
  bucket_entries registry b = Ok (listed (bucket_index b) <$> (ss ≫= s_entries)).
Proof.
  intros Hok Hcap. unfold bucket_entries. rewrite number_of_bucket by (by apply bucket_capacity). destruct (load_bucket b ss Hok Hcap) as (ls & -> & H3).
  cbn [mbind result_bind]. f_equal. assert (forall e, e ∈ ss ≫= s_entries -> toLowerCase (e_hash e) = e_hash e) as Hlow.
  { intros e He. apply admissible_lower. by apply (bo_entries _ _ _ _ _ Hok). }
  clear Hok. induction H3 as [|n s l names ss ls Hl H3 IH]; [done|]. cbn [mbind list_bind] in *. rewrite fmap_app, IH by (intros; apply Hlow, elem_of_app; by right). f_equal.
  rewrite (ld_datum _ _ _ Hl). cbn [entries view_shard]. rewrite <- list_fmap_compose. apply list_fmap_ext. intros k e Hk%list_elem_of_lookup_2. unfold listed.
  cbn [compose view_entry voucher_hash full_denom]. rewrite Hlow; [done|]. apply elem_of_app. by left.
Qed.

Lemma reject_duplicates_ok msg l : forall seen, NoDup l -> (forall x, x ∈ l -> x ∉ seen) -> reject_duplicates msg seen l = Ok tt.
Proof.
  induction l as [|x l IH]; intros seen Hn Hs; [done|]. apply NoDup_cons in Hn as [Hx Hn]. cbn. rewrite decide_False by (apply Hs; left). apply IH; [done|].
  intros y Hy. rewrite elem_of_set_add. intros [H| ->]; [|done]. revert H. apply Hs. by right.
Qed.

Lemma buckets_of d : (forall b, b ∈ d -> exists ss, bucket_ok G b ss) -> exists sss, Forall2 (bucket_ok G) d sss.
Proof.
  induction d as [|b d IH]; intros H; [exists []; constructor|]. destruct (H b ltac:(left)) as [ss Hss]. destruct IH as [sss Hd]; [intros; apply H; by right|].
  exists (ss :: sss). by constructor.
Qed.

(** The hashes of the whole registry are distinct: a hash determines its bucket. *)
Lemma all_hashes_distinct d sss : bucket_indices_are_unique d = true -> Forall2 (bucket_ok G) d sss ->
  NoDup (e_hash <$> (sss ≫= fun ss => ss ≫= s_entries)).
Proof.
  intros Hu HF. induction HF as [|b ss d sss Hb HF IH]; [constructor|]. cbn [bucket_indices_are_unique mbind list_bind] in *.
  destruct (find_bucket d (bucket_index b)) eqn:E; [done|]. rewrite fmap_app. apply NoDup_app. split_and!; [apply (bo_unique _ _ _ _ _ Hb)| |by apply IH].
  intros h (e & -> & He)%list_elem_of_fmap (e' & Hh & He')%list_elem_of_fmap. apply list_elem_of_bind in He' as (ss' & He' & Hss').
  apply list_elem_of_lookup in Hss' as [k Hk]. destruct (Forall2_lookup_r _ _ _ _ _ HF Hk) as (b' & Hb' & Hok').
  destruct (bo_entries _ _ _ _ _ Hb e He) as [_ I1], (bo_entries _ _ _ _ _ Hok' e' He') as [_ I2].
  apply list_elem_of_lookup_2, list_elem_of_In in Hb'. pose proof (List.find_none _ _ E b' Hb') as Hne. cbn in Hne. rewrite Hh in I1. rewrite I1 in I2. injection I2 as I2. lia.
Qed.

Lemma all_entries d : directory_at G d -> directory_is_within_capacity d = true -> (forall b, b ∈ d -> exists ss, bucket_ok G b ss) ->
  exists l, findAllOnChainEntries = Ok l /\ NoDup (ot_hash <$> l) /\
    forall o, o ∈ l <-> exists b ss e, b ∈ d /\ bucket_ok G b ss /\ e ∈ ss ≫= s_entries /\ o = listed (bucket_index b) e.
Proof.
  intros Hd Hc Hall. destruct (buckets_of d Hall) as [sss HF]. destruct (load_directory d Hd) as (u & Hload & _).
  unfold findAllOnChainEntries. rewrite config_ok. cbn [mbind result_bind]. unfold loadDirectoryDatum. rewrite Hload. cbn [fmap result_fmap mbind result_bind snd].
  set (per := zip_with (fun b ss => listed (bucket_index b) <$> (ss ≫= s_entries)) d sss).
  assert (mapR (bucket_entries registry) d = Ok per) as ->.
  { apply mapR_ok_forall2. subst per. assert (forall b, b ∈ d -> directory_bucket_is_within_capacity b = true) as Hcap by (intros; by eapply directory_capacity).
    clear -HF Hcap OK PO. induction HF as [|b ss d sss Hb HF IH]; cbn; constructor; [|apply IH; intros; apply Hcap; by right].
    apply bucket_entries_spec; [done|]. apply Hcap. left. }
  assert (ot_hash <$> mjoin per = e_hash <$> (sss ≫= fun ss => ss ≫= s_entries)) as Hhash.
  { subst per. clear -HF. induction HF as [|b ss d sss Hb HF IH]; [done|].
    change (ot_hash <$> (listed (bucket_index b) <$> (ss ≫= s_entries)) ++ mjoin (zip_with (fun b ss => listed (bucket_index b) <$> (ss ≫= s_entries)) d sss) =
            e_hash <$> (ss ≫= s_entries) ++ (sss ≫= fun ss => ss ≫= s_entries)).
    rewrite !fmap_app, IH. f_equal. by rewrite <- list_fmap_compose. }
  pose proof (all_hashes_distinct d sss (capacity_unique _ Hc) HF) as Hn. rewrite <- Hhash in Hn.
  cbn [mbind result_bind]. rewrite reject_duplicates_ok; [|done|intros x _; apply not_elem_of_nil]. cbn [mbind result_bind].
  exists (mjoin per). split_and!; [done..|]. intros o. rewrite list_elem_of_join. subst per. split.
  - intros (x & Hx & (k & Hk)%list_elem_of_lookup). apply lookup_zip_with_Some in Hk as (b & ss & -> & Hb & Hss).
    pose proof (Forall2_lookup_lr _ _ _ _ _ _ HF Hb Hss) as Hok. apply list_elem_of_fmap in Hx as (e & -> & He).
    exists b, ss, e. split_and!; [by eapply list_elem_of_lookup_2|done..].
  - intros (b & ss & e & (k & Hk)%list_elem_of_lookup & Hok & He & ->). destruct (Forall2_lookup_l _ _ _ _ _ HF Hk) as (ss' & Hss & Hok').
    assert (ss' = ss) as -> by (eapply bucket_shards_unique; [apply (ro_ledger _ _ _ _ OK)|done..]).
    exists (listed (bucket_index b) <$> (ss ≫= s_entries)). split; [by apply list_elem_of_fmap_2|]. apply list_elem_of_lookup. exists k.
    apply lookup_zip_with_Some. eauto.
Qed.

End gateway.

Section lookup.
Context `{L : Lucid} `{BL : Blake2b} `{SHA : Sha256} `{S3 : Sha3} `{RE : RegistryEnv} `{UA : UtxoAddress}.

(** C19 (functional): On every ledger the registry's validators can lead to, with a provider that answers from
    it: the Gateway's lookup of a voucher hash finds the registered mapping, with its
    denomination as text, and answers that there is none exactly when none is registered;
    its list of all entries succeeds, has every registered mapping, nothing else, and no
    hash twice.  The checks for duplicates never fire. *)
Theorem registry_lookup_complete A policy directory_name voucher benchmark G0 G :
  registry_ok A policy directory_name G0 -> ledger_steps A policy directory_name voucher benchmark G0 G -> provider_ok A policy directory_name G ->
  (forall h d b, is_denom_hash h = true -> directory_at A policy directory_name G d -> b ∈ d ->
     bucket_index_for_hash (toLowerCase h) = Some (bucket_index b) ->
     exists r, findOnChainEntryByHash h = Ok r /\
       match r with
       | Some o => exists e, registered A policy directory_name G e /\ e_hash e = toLowerCase h /\ found (bucket_index b) e o
       | None => forall e, registered A policy directory_name G e -> e_hash e <> toLowerCase h
       end) /\
  exists l, findAllOnChainEntries = Ok l /\ NoDup (ot_hash <$> l) /\
    (forall e, registered A policy directory_name G e -> exists i, listed i e ∈ l) /\
    (forall o, o ∈ l -> exists i e, registered A policy directory_name G e /\ o = listed i e).
Proof.
  intros H0 Hs PO. destruct (reachable_ok _ _ _ _ _ _ _ H0 Hs) as [OK _]. pose proof OK as [LO (d & Hd & Hc & Hall)]. split.
  - intros h d' b Hh Hd' Hb Hi. rewrite (directory_unique A policy directory_name G d' d) in Hb by done. destruct (Hall b Hb) as [ss Hok].
    unfold findOnChainEntryByHash. rewrite (config_ok _ _ _ _ PO). cbn [mbind result_bind]. unfold loadDirectoryDatum.
    destruct (load_directory _ _ _ _ PO d Hd) as (u & -> & _). cbn [fmap result_fmap mbind result_bind snd].
    destruct (find_in_directory_spec A policy directory_name G PO h d b ss) as [(e & o & -> & Hf & He & Hh')|[-> Hno]]; auto.
    + exists (Some o). split; [done|]. exists e. split_and!; [|done..]. apply registered_bucket; [done|]. eauto 10.
    + exists None. split; [done|]. intros e (d2 & b2 & ss2 & Hd2 & Hb2 & Hok2 & He)%registered_bucket E; [|done].
      rewrite (directory_unique A policy directory_name G d2 d) in Hb2 by done.
      destruct (bo_entries _ _ _ _ _ Hok2 e He) as [_ I]. rewrite E, Hi in I. injection I as I.
      assert (b2 = b) as ->.
      { pose proof (find_bucket_in d b (capacity_unique _ Hc) Hb) as F1. pose proof (find_bucket_in d b2 (capacity_unique _ Hc) Hb2) as F2. congruence. }
      rewrite (bucket_shards_unique A policy G b ss2 ss) in He by done. by eapply Hno.
  - destruct (all_entries A policy directory_name G OK PO d Hd Hc Hall) as (l & Hl & Hn & Hmem). exists l. split_and!; [done..| |].
    + intros e (d' & b & ss & Hd' & Hb & Hok & He)%registered_bucket; [|done]. rewrite (directory_unique A policy directory_name G d' d) in Hb by done.
      exists (bucket_index b). apply Hmem. eauto 10.
    + intros o (b & ss & e & Hb & Hok & He & ->)%Hmem. exists (bucket_index b), e. split; [|done]. apply registered_bucket; [done|]. eauto 10.
Qed.

End lookup.

(** ** The two readings of a denomination's limits

    The Gateway trims every white space, the chain only spaces; the Gateway takes any
    digits after [channel-], the chain no leading zeros.  What the Gateway admits the
    chain admits. *)

Definition margin (b : byte) : Prop := b <> x2f /\ is_digit_byte b = false.

Lemma strip_all_margin fuel ws l : Forall (Forall margin) ws -> exists p, l = p ++ strip_all fuel ws l /\ Forall margin p.
Proof.
  intros Hws. revert l. induction fuel as [|fuel IH]; intros l; [by exists []|]. cbn [strip_all].
  destruct (strip_any ws l) as [r|] eqn:E; [|by exists []].
  apply strip_any_inv in E as (w & Hw & ->%strip_prefix_app). destruct (IH r) as (p & Hp & Hm).
  exists (w ++ p). rewrite <- app_assoc, <- Hp. split; [done|]. apply Forall_app. split; [|done].
  rewrite Forall_forall in Hws. by apply Hws, list_elem_of_In.
Qed.

Lemma trim_bytes_margins l : exists a b, l = a ++ trim_bytes l ++ b /\ Forall margin a /\ Forall margin b.
Proof.
  unfold trim_bytes. set (l1 := strip_all (length l) white_space l).
  destruct (strip_all_margin (length l) white_space l) as (a & Ha & Hma); [by repeat constructor|]. fold l1 in Ha.
  destruct (strip_all_margin (length l1) (map reverse white_space) (reverse l1)) as (p & Hp & Hmp); [by repeat constructor|].
  exists a, (reverse p). apply (f_equal reverse) in Hp. rewrite reverse_involutive, reverse_app in Hp. rewrite <- Hp. split_and!; [done..|]. by apply Forall_reverse.
Qed.

Lemma trim_bytes_head l r : trim_bytes l <> x20 :: r.
Proof.
  intros E. pose proof (trim_bytes_idem l) as Hi. rewrite E in Hi. apply (f_equal length) in Hi. unfold trim_bytes in Hi. rewrite length_reverse in Hi.
  set (l1 := strip_all (length (x20 :: r)) white_space (x20 :: r)) in *.
  destruct (strip_all_suffix (length l1) (map reverse white_space) (reverse l1)) as [p Hp]. apply (f_equal length) in Hp. rewrite length_reverse, length_app in Hp.
  assert (length l1 <= length r)%nat; [|cbn [length] in Hi; lia].
  subst l1. cbn [length strip_all]. assert (exists r', strip_any white_space (x20 :: r) = Some r' /\ (length r' <= length r)%nat) as (r' & -> & Hr').
  { destruct (strip_any white_space (x20 :: r)) as [r'|] eqn:Es.
    - apply strip_any_inv in Es as (w & Hw & Ew%strip_prefix_app). exists r'. split; [done|]. apply (f_equal length) in Ew. rewrite length_app in Ew. cbn in Ew.
      assert (Forall (fun w => w <> []) white_space) as Hws by by repeat constructor. rewrite Forall_forall in Hws. apply list_elem_of_In, Hws in Hw. destruct w; [done|]. cbn in Ew. lia.
    - exfalso. apply (strip_any_ext white_space [x20] (x20 :: r) r) in Es; [done| |done]. cbn. tauto. }
  destruct (strip_all_suffix (length r) white_space r') as [q Hq]. apply (f_equal length) in Hq. rewrite length_app in Hq. lia.
Qed.
Lemma trim_bytes_last l r : reverse (trim_bytes l) <> x20 :: r.
Proof.
  unfold trim_bytes. rewrite reverse_involutive. intros E.
  assert (strip_any (map reverse white_space) (x20 :: r) = None) as Hn by (rewrite <- E; apply strip_all_done; [by repeat constructor|by rewrite length_reverse]).
  apply (strip_any_ext (map reverse white_space) [x20] (x20 :: r) r) in Hn; [done| |done]. cbn. tauto.
Qed.

Lemma trim_left_app a t : Forall margin a -> t <> [] -> (forall r, t <> x20 :: r) -> exists a', trim_left (a ++ t) = a' ++ t /\ Forall margin a'.
Proof.
  intros Ha Ht Hs. induction Ha as [|x a Hx Ha IH]; [exists []; split; [|done]; destruct t as [|[]]; try done; by destruct (Hs t)|].
  destruct (decide (x = x20)) as [->|Hne]; [exact IH|]. exists (x :: a). split; [by destruct x|]. by constructor.
Qed.

Lemma trim_space_margins l : trim_bytes l <> [] -> exists a b, trim_space l = a ++ trim_bytes l ++ b /\ Forall margin a /\ Forall margin b.
Proof.
  intros Hne. destruct (trim_bytes_margins l) as (a & b & Hl & Ha & Hb). remember (trim_bytes l) as t eqn:Et0. unfold trim_space.
  destruct (trim_left_app a (t ++ b)) as (a' & Ea & Ha'); [done|by destruct t|intros r E; destruct t as [|y t']; [done|]; injection E as -> E; by apply (trim_bytes_head l t')|].
  rewrite Hl, Ea, !reverse_app, <- app_assoc.
  destruct (trim_left_app (reverse b) (reverse t ++ reverse a')) as (b' & Eb & Hb'); [by apply Forall_reverse| | |].
  - intros E. apply app_eq_nil in E as [E _]. apply (f_equal reverse) in E. by rewrite reverse_involutive in E.
  - intros r E. destruct (reverse t) as [|y t'] eqn:Et; [apply (f_equal reverse) in Et; by rewrite reverse_involutive in Et|]. injection E as -> E. apply (trim_bytes_last l t'). by rewrite <- Et0.
  - exists a', (reverse b'). rewrite Eb, !reverse_app, !reverse_involutive, <- app_assoc. split_and!; [done..|]. by apply Forall_reverse.
Qed.

Lemma margin_slash p : Forall margin p -> x2f ∉ p.
Proof. rewrite Forall_forall. intros H Hin. by destruct (H _ Hin). Qed.

(** The chain's segments are the Gateway's, with white space at the two ends. *)
Inductive frayed (q : bytes) : list bytes -> list bytes -> Prop :=
| frayed_last z : frayed q [z] [z ++ q]
| frayed_cons x l l' : frayed q l l' -> frayed q (x :: l) (x :: l').

Lemma split_go_cur c cur t : exists x r, split_go c [] t = x :: r /\ split_go c cur t = (reverse cur ++ x) :: r.
Proof.
  assert (forall k, exists x r, split_go c [] t = x :: r /\ split_go c k t = (reverse k ++ x) :: r) as H; [|apply H].
  induction t as [|y t IH]; intros k; cbn; [exists [], []; by rewrite app_nil_r|]. case_decide; [exists [], (split_go c [] t); by rewrite app_nil_r|].
  destruct (IH [y]) as (x & r & E1 & E2), (IH (y :: k)) as (x' & r' & E1' & E2'). rewrite E1 in E1'. injection E1' as <- <-.
  exists (y :: x), r. split; [by rewrite E2|by rewrite E2', reverse_cons, <- app_assoc].
Qed.
Lemma split_go_frayed q t : x2f ∉ q -> forall cur, frayed q (split_go x2f cur t) (split_go x2f cur (t ++ q)).
Proof.
  intros Hq. induction t as [|y t IH]; intros cur; cbn [app split_go].
  - rewrite split_go_none by done. constructor.
  - case_decide; [by constructor|]. apply IH.
Qed.

Fixpoint chain_cursor (segments : list bytes) : nat :=
  match segments with
  | _ :: channel :: rest => if is_valid_channel_id channel then S (S (chain_cursor rest)) else 0
  | _ => 0
  end.

Lemma channel_id_segment c : is_valid_channel_id c = true -> is_channel_segment (text c) = true.
Proof.
  unfold is_valid_channel_id, is_channel_segment. rewrite andb_true_iff, bool_decide_eq_true. intros [Hp Hd]. apply andb_true_iff. split.
  - rewrite <- (take_drop 8 c), Hp, text_app, text_utf8. apply prefix_app.
  - unfold is_digits, slice_from. rewrite !utf8_text. destruct (drop 8 c) as [|x l]; [done|]. cbn in Hd. 
    assert (forallb is_digit_byte (x :: l) = true) as Hall. { destruct x; try exact Hd; destruct l; done. }
    clear -Hall. revert Hall. generalize (x :: l). intros k. rewrite !forallb_forall. intros H y Hy. specialize (H y Hy). by destruct y.
Qed.
Lemma margin_no_channel z q : q <> [] -> Forall margin q -> is_valid_channel_id (z ++ q) = false.
Proof.
  intros Hq Hm. destruct (is_valid_channel_id _) eqn:E; [exfalso|done]. unfold is_valid_channel_id in E. rewrite andb_true_iff, bool_decide_eq_true in E. destruct E as [Hp Hu].
  assert (exists y q', q = q' ++ [y] /\ is_digit_byte y = false) as (y & q' & -> & Hy).
  { destruct (exists_last Hq) as (q' & y & ->). apply Forall_app in Hm as [_ Hm]. apply Forall_cons in Hm as [Hm _]. exists y, q'. split; [done|apply Hm]. }
  assert (8 <= length (z ++ q') )%nat as Hlen.
  { destruct (decide (8 <= length (z ++ q'))%nat) as [|Hn]; [done|exfalso]. apply (f_equal length) in Hp as Hl. rewrite length_take in Hl. cbn in Hl. rewrite app_assoc, length_app in Hl. cbn in Hl.
    rewrite app_assoc, drop_ge in Hu; [done|]. rewrite length_app. cbn. lia. }
  rewrite app_assoc, drop_app_le in Hu by done. destruct (drop 8 (z ++ q')) as [|x l].
  - cbn in Hu. destruct y; try discriminate Hy; discriminate Hu.
  - assert (forallb is_digit_byte ((x :: l) ++ [y]) = true) as Hall.
    { cbn in Hu |- *. destruct x; try exact Hu; destruct l; discriminate Hu. }
    rewrite forallb_app in Hall. cbn in Hall. rewrite Hy in Hall. by rewrite !andb_false_r in Hall.
Qed.

Lemma cursor_le q n : Forall margin q -> forall segs segs', (length segs <= n)%nat -> frayed q segs segs' -> Forall (fun s => s <> []) segs ->
  drop (hop_segments (map text segs)) segs <> [] -> drop (chain_cursor segs') segs' <> [] /\ (chain_cursor segs' <= hop_segments (map text segs))%nat.
Proof.
  intros Hq. induction n as [|n IH]; intros segs segs' Hn HF Hne Hd; [destruct HF; cbn in Hn; lia|].
  destruct HF as [z|a l l' HF]; [by split|]. destruct HF as [b|b l l' HF].
  - cbn [map hop_segments chain_cursor] in *. assert (is_channel_segment (text b) = false) as Hc.
    { destruct (is_channel_segment (text b)) eqn:E; [exfalso|done]. apply Hd. apply Forall_cons in Hne as [Ha _].
      assert (looksLikePortId (text a) = true) as ->; [|done]. apply Nat.ltb_lt. unfold str_length. rewrite utf8_text. destruct a; [done|]. cbn. lia. }
    assert (is_valid_channel_id (b ++ q) = false) as ->; [|split; [done|lia]].
    destruct (decide (q = [])) as [->|Hqn]; [|by apply margin_no_channel]. rewrite app_nil_r.
    destruct (is_valid_channel_id b) eqn:E; [|done]. by rewrite channel_id_segment in Hc.
  - cbn [map hop_segments chain_cursor] in *. destruct (is_valid_channel_id b) eqn:Eb; [|split; [done|lia]].
    rewrite (channel_id_segment _ Eb) in *. apply Forall_cons in Hne as [Ha Hne]. apply Forall_cons in Hne as [_ Hne].
    assert (looksLikePortId (text a) = true) as Hp. { apply Nat.ltb_lt. unfold str_length. rewrite utf8_text. destruct a; [done|]. cbn. lia. }
    rewrite Hp in *. cbn [andb drop] in *. cbn in Hn. destruct (IH l l' ltac:(lia) HF Hne Hd) as [H1 H2]. split; [done|lia].
Qed.

Lemma do_split_spec n : forall segs acc, (length segs <= n)%nat -> drop (chain_cursor segs) segs <> [] ->
  exists base, do_split_full_denom_trace segs acc = Some (join_segments (reverse acc ++ take (chain_cursor segs) segs), base).
Proof.
  induction n as [|n IH]; intros segs acc Hn Hd; [destruct segs; [done|cbn in Hn; lia]|].
  destruct segs as [|a [|b rest]]; [done|cbn; rewrite app_nil_r; eauto|]. cbn [chain_cursor do_split_full_denom_trace] in *.
  destruct (is_valid_channel_id b); [|cbn; rewrite app_nil_r; eauto]. cbn [drop take] in *.
  destruct (IH rest (b :: a :: acc)) as [base ->]; [cbn in Hn; lia|done|]. exists base. rewrite !reverse_cons, <- !app_assoc. done.
Qed.

Lemma join_segments_split l : l <> [] -> Forall (fun s => s <> []) l -> Forall (fun s => x2f ∉ s) l -> split_go x2f [] (join_segments l) = l.
Proof.
  intros Hl Hne Hs. destruct l as [|a l]; [done|]. apply Forall_cons in Hne as [Ha Hne]. apply Forall_cons in Hs as [Has Hs].
  assert (forall acc, acc <> [] -> fold_left (fun acc segment => match acc with [] => segment | _ => acc ++ [x2f] ++ segment end) l acc =
          acc ++ (l ≫= fun s => x2f :: s)) as Hfold.
  { clear -l. induction l as [|s l IH]; intros acc Hacc; [by rewrite app_nil_r|]. cbn [fold_left]. destruct acc as [|x acc]; [done|].
    rewrite IH by done. cbn. by rewrite <- app_assoc. }
  unfold join_segments. cbn [fold_left]. rewrite Hfold by done. clear -Has Hs. revert a Has. induction Hs as [|s l Hsl Hs IH]; intros a Ha.
  - rewrite app_nil_r. by rewrite split_go_none.
  - cbn [mbind list_bind app]. rewrite split_go_app by done. f_equal. by apply IH.
Qed.

Lemma split_go_slash cur t : x2f ∉ cur -> Forall (fun s => x2f ∉ s) (split_go x2f cur t).
Proof.
  revert cur. induction t as [|y t IH]; intros cur Hc; cbn.
  - constructor; [|done]. by rewrite elem_of_reverse.
  - case_decide; [constructor; [by rewrite elem_of_reverse|]; apply IH, not_elem_of_nil|]. apply IH. by apply not_elem_of_cons.
Qed.

Lemma split_go_pre c a : c ∉ a -> forall cur t, split_go c cur (a ++ t) = split_go c (reverse a ++ cur) t.
Proof.
  intros Ha. induction a as [|x a IH]; intros cur t; [done|]. apply not_elem_of_cons in Ha as [Hx Ha]. cbn [app split_go].
  rewrite decide_False, IH, reverse_cons, <- app_assoc by done. done.
Qed.
Lemma frayed_nonempty q l l' : frayed q l l' -> Forall (fun s => s <> []) l -> Forall (fun s => s <> []) l'.
Proof.
  induction 1 as [z|x l l' HF IH]; intros H; apply Forall_cons in H as [Hx H]; constructor; auto. by intros [? _]%app_eq_nil.
Qed.

(** The Gateway's count of the path's segments is its cursor. *)
Lemma path_hops segs trace msg : match drop (hop_segments segs) segs with
    | [] => throw msg
    | baseSegments => Ok (MkDenomTraceParts (join "/" (take (hop_segments segs) segs)) (join "/" baseSegments))
    end = Ok trace ->
  Forall (fun s => x2f ∉ utf8 s) segs -> Forall (fun s => s <> "") segs ->
  (if decide (path trace = "") then 0 else count (split x2f (path trace))) <= 16 -> (hop_segments segs <= 16)%nat.
Proof.
  destruct (drop _ _) as [|y l] eqn:Ed; [done|]. intros [= <-] Hs Hne. cbn [path].
  destruct (take (hop_segments segs) segs) as [|u us] eqn:Et.
  - intros _. apply (f_equal length) in Et. rewrite length_take in Et. apply (f_equal length) in Ed. rewrite length_drop in Ed. cbn in *. lia.
  - rewrite decide_False.
    + change "/" with (text [x2f]). rewrite split_join; [|done|rewrite <- Et; by apply Forall_take]. unfold count. rewrite <- Et, length_take.
      apply (f_equal length) in Ed. rewrite length_drop in Ed. cbn in Ed. lia.
    + assert (u <> "") as Hu. { assert (Forall (fun s => s <> "") (u :: us)) as Hf by (rewrite <- Et; by apply Forall_take). by apply Forall_cons in Hf as [? _]. }
      destruct us; [done|]. intros E. apply (f_equal utf8) in E. rewrite join_cons, utf8_app in E by done. apply app_eq_nil in E as [E _]. by apply (utf8_inj u "") in E.
Qed.

Lemma limits_agree denom : assertNewDenomWithinLimits denom = Ok tt -> full_denom_is_within_limits (hex_encode (utf8 denom)) = true.
Proof.
  unfold assertNewDenomWithinLimits. set (n := Z.of_nat (str_length denom)). destruct ((n =? 0) || _) eqn:En; [done|].
  intros (trace & Ht & H)%bind_ok. destruct (2 * maxTraceHops <? _) eqn:Eh; [done|]. clear H. apply Z.ltb_ge in Eh.
  unfold full_denom_is_within_limits. rewrite hex_decode_encode. change (blen (utf8 denom)) with n. rewrite En.
  unfold splitFullDenomTrace in Ht. cbn zeta in Ht. destruct (decide (trim denom = "")) as [|Hne]; [done|]. unfold trim, split in Ht, Hne. rewrite utf8_text in Ht.
  set (t := trim_bytes (utf8 denom)) in *. set (segs := split_go x2f [] t) in *.
  destruct (existsb _ _) eqn:Ex; [done|].
  assert (Forall (fun s => s <> []) segs) as Hsegs.
  { apply Forall_forall. intros s Hs ->. enough (existsb (fun segment => (str_length segment =? 0)%nat) (map text segs) = true) by congruence.
    apply existsb_exists. exists (text []). split; [|done]. apply in_map. by apply list_elem_of_In. }
  assert (drop (hop_segments (map text segs)) segs <> []) as Hdrop. { intros E. by rewrite skipn_map, E in Ht. }
  assert (t <> []) as Htne. { intros E. apply Hne. by rewrite E. }
  destruct (trim_space_margins (utf8 denom) Htne) as (a & b & Hts & Ha & Hb). fold t in Hts.
  unfold split_full_denom_trace. rewrite decide_False by (rewrite Hts; destruct a; [by destruct t|done]).
  pose proof (split_go_frayed b t (margin_slash b Hb) []) as HF. fold segs in HF.
  destruct (split_go_cur x2f (reverse a) (t ++ b)) as (x & r & E1 & E2). rewrite reverse_involutive in E2.
  assert (split_go x2f [] (trim_space (utf8 denom)) = (a ++ x) :: r) as Hchain. { rewrite Hts, split_go_pre, app_nil_r by (by apply margin_slash). exact E2. }
  rewrite E1 in HF. rewrite Hchain. pose proof (frayed_nonempty b segs (x :: r) HF Hsegs) as Hr. apply Forall_cons in Hr as [Hx Hr].
  assert (Forall (fun s => s <> []) ((a ++ x) :: r)) as Hall by (constructor; [by intros [_ ?]%app_eq_nil|done]).
  rewrite decide_False by (intros Hin; rewrite Forall_forall in Hall; by apply (Hall _ Hin)).
  destruct (cursor_le b (length segs) Hb segs (x :: r) ltac:(lia) HF Hsegs Hdrop) as [Hcd Hcl].
  assert (chain_cursor ((a ++ x) :: r) = chain_cursor (x :: r)) as Hcur by done.
  destruct (do_split_spec (length ((a ++ x) :: r)) ((a ++ x) :: r) []) as [base ->]; [lia| |].
  { rewrite Hcur. destruct (chain_cursor (x :: r)); [done|]. exact Hcd. }
  rewrite Hcur. rewrite reverse_nil, app_nil_l. set (k := chain_cursor (x :: r)) in *. apply Z.leb_le.
  destruct (decide (join_segments _ = [])) as [|Hp]; [by unfold maxTraceHops|]. rewrite join_segments_split.
  - assert (count (take k ((a ++ x) :: r)) <= 2 * maxTraceHops) as Hb16.
    { assert (k <= 16)%nat; [|unfold count, maxTraceHops; rewrite length_take; lia].
      enough (hop_segments (map text segs) <= 16)%nat by lia. eapply path_hops; [exact Ht| | |exact Eh]; apply Forall_map; [|].
      - eapply Forall_impl; [exact (split_go_slash [] t (not_elem_of_nil _))|]. intros s Hs. by rewrite utf8_text.
      - eapply Forall_impl; [exact Hsegs|]. intros s Hs E. apply Hs. apply (f_equal utf8) in E. by rewrite utf8_text in E. }
    unfold maxTraceHops in *. apply Z.div_le_upper_bound; lia.
  - intros E. by rewrite E in Hp.
  - by apply Forall_take.
  - apply Forall_take. rewrite <- Hchain. apply split_go_slash, not_elem_of_nil.
Qed.

(** ** Sizes *)

Definition sum_blen (l : list bytes) : Z := foldr (fun b n => blen b + n) 0 l.

Lemma sum_blen_cons b l : sum_blen (b :: l) = blen b + sum_blen l.
Proof. done. Qed.
Lemma blen_cons x b : blen (x :: b) = 1 + blen b.
Proof. unfold blen. cbn [length]. lia. Qed.
Lemma blen_nonneg b : 0 <= blen b.
Proof. unfold blen. lia. Qed.
Lemma blen_join l : blen (mjoin l) = sum_blen l.
Proof. induction l as [|b l IH]; [done|]. change (mjoin (b :: l)) with (b ++ mjoin l). rewrite blen_app, IH. done. Qed.
Lemma blen_head m n : (n < 256)%N -> blen (cbor_head m n) = if (n <? 24)%N then 1 else 2.
Proof. intros Hn. unfold cbor_head. destruct (n <? 24)%N eqn:E; [done|]. apply N.ltb_lt in Hn. by rewrite Hn. Qed.
Lemma blen_list l : blen (serialise_list l) = match l with [] => 1 | _ => 2 + sum_blen l end.
Proof. destruct l as [|b l]; [done|]. unfold serialise_list. rewrite blen_cons, blen_app, blen_join. change (blen [xff]) with 1. lia. Qed.

Lemma blen_chunks fuel b : blen (chunks fuel b) <= 3 * blen b.
Proof.
  revert b. induction fuel as [|fuel IH]; intros b; [pose proof (blen_nonneg b); cbn; unfold blen at 1; cbn; lia|].
  destruct b as [|x b]; [done|]. cbn [chunks]. set (c := x :: b). rewrite !blen_app, blen_head.
  2:{ rewrite length_take. lia. }
  specialize (IH (drop 64 c)). assert (blen (take 64 c) + blen (drop 64 c) = blen c) by (rewrite <- blen_app; by rewrite take_drop).
  assert (1 <= blen (take 64 c)) by (unfold blen, c; cbn; lia). destruct (_ <? 24)%N; lia.
Qed.
Lemma blen_bytes b : blen (serialise_bytes b) <= 3 * blen b + 2.
Proof.
  unfold serialise_bytes. destruct (length b <=? 64)%nat eqn:E.
  - apply Nat.leb_le in E. rewrite blen_app, blen_head by lia. pose proof (blen_nonneg b). destruct (_ <? 24)%N; lia.
  - rewrite blen_cons, blen_app. pose proof (blen_chunks (length b) b). change (blen [xff]) with 1. lia.
Qed.
Lemma blen_bytes_short b : blen b <= 64 -> blen (serialise_bytes b) <= blen b + 2.
Proof.
  intros H. unfold serialise_bytes. unfold blen in H. destruct (length b <=? 64)%nat eqn:E; [|apply Nat.leb_gt in E; lia].
  apply Nat.leb_le in E. rewrite blen_app, blen_head by lia. destruct (_ <? 24)%N; lia.
Qed.
Lemma blen_int z : 0 <= z < 24 -> blen (serialise_int z) = 1.
Proof.
  intros H. unfold serialise_int. assert ((0 <=? z) && (z <? 2 ^ 64) = true) as ->.
  { apply andb_true_iff. split; [apply Z.leb_le|apply Z.ltb_lt]; [lia|]. change (2 ^ 64) with 18446744073709551616. lia. }
  rewrite blen_head by lia. destruct (N.ltb_spec (Z.to_N z) 24); [done|lia].
Qed.

Lemma sum_blen_bound (l : list bytes) k : (forall b, b ∈ l -> blen b <= k) -> sum_blen l <= k * count l.
Proof.
  unfold count. induction l as [|b l IH]; intros H; [cbn; lia|]. cbn [sum_blen foldr length]. fold (sum_blen l).
  pose proof (H b ltac:(left)). specialize (IH ltac:(intros; apply H; by right)). lia.
Qed.
Lemma blen_list_bound (l : list bytes) k : (forall b, b ∈ l -> blen b <= k) -> blen (serialise_list l) <= 2 + k * count l.
Proof.
  intros H. pose proof (sum_blen_bound l k H) as Hs. rewrite blen_list. destruct l as [|b l]; [unfold count; cbn; lia|]. lia.
Qed.

Lemma blen_constr i l : 0 <= i < 7 -> blen (serialise (PConstr i l)) = 2 + blen (serialise_list (serialise <$> l)).
Proof.
  intros H. cbn [serialise]. assert ((0 <=? i) && (i <? 7) = true) as -> by (apply andb_true_iff; split; [apply Z.leb_le|apply Z.ltb_lt]; lia).
  rewrite blen_app, blen_head by lia. destruct (N.ltb_spec (Z.to_N (121 + i)) 24); lia.
Qed.
Lemma blen_one x : blen (serialise_list [x]) = 2 + blen x.
Proof. rewrite blen_list. unfold sum_blen. cbn [foldr]. lia. Qed.

(** A directory whose buckets are within capacity is never too large. *)
Lemma bucket_bytes b : directory_bucket_is_within_capacity b = true -> blen (serialise (encodeDirectoryBucket b)) <= 313.
Proof.
  intros Hb. destruct (bucket_capacity b Hb) as (Hi & _ & Hv & Hc).
  assert (forall n, n ∈ shard_names b -> blen (serialise (PBytes n)) <= 34) as Hname.
  { intros n Hn'. specialize (Hv n Hn'). unfold valid_shard_name in Hv. apply andb_true_iff in Hv as [_ Hv%Z.leb_le].
    pose proof (blen_bytes_short (raw n) ltac:(lia)). cbn [serialise]. lia. }
  unfold encodeDirectoryBucket. rewrite blen_constr, blen_list by lia. cbn [fmap list_fmap sum_blen foldr].
  change (serialise (PInt (bucket_index b))) with (serialise_int (bucket_index b)). rewrite blen_int by lia.
  pose proof (Hname (active_shard_name b) ltac:(left)).
  change (serialise (PList (PBytes <$> archived_shard_names b))) with (serialise_list (serialise <$> (PBytes <$> archived_shard_names b))).
  pose proof (blen_list_bound (serialise <$> (PBytes <$> archived_shard_names b)) 34) as Ha. unfold count in Ha, Hc. rewrite !length_fmap in Ha.
  specialize (Ha ltac:(intros z (w & -> & (n & -> & Hz)%list_elem_of_fmap)%list_elem_of_fmap; apply Hname; by right)). lia.
Qed.
Lemma directory_size d : (forall b, b ∈ d -> directory_bucket_is_within_capacity b = true) -> count d <= 16 ->
  blen (serialise (registry_datum_data (Directory d))) <= 6144.
Proof.
  intros Hb Hn. unfold registry_datum_data, encodeDirectoryDatum. rewrite blen_constr by lia. cbn [fmap list_fmap]. rewrite blen_one, blen_constr by lia.
  cbn [fmap list_fmap]. rewrite blen_one. change (serialise (PList (encodeDirectoryBucket <$> d))) with (serialise_list (serialise <$> (encodeDirectoryBucket <$> d))).
  pose proof (blen_list_bound (serialise <$> (encodeDirectoryBucket <$> d)) 313) as Hl. unfold count in *. rewrite !length_fmap in Hl.
  specialize (Hl ltac:(intros x (y & -> & (b & -> & Hin)%list_elem_of_fmap)%list_elem_of_fmap; by apply bucket_bytes, Hb)). lia.
Qed.

(** The bytes of a shard datum: a fixed part and its entries. *)
Definition entry_size (e : registry_entry) : Z := 4 + blen (serialise_bytes (raw (e_hash e))) + blen (serialise_bytes (raw (e_denom e))).
Lemma entry_bytes e : blen (serialise (entry_data e)) = entry_size e.
Proof. unfold entry_data, entry_size. rewrite blen_constr, blen_list by lia. cbn [fmap list_fmap sum_blen foldr serialise]. lia. Qed.
Lemma shard_bytes s : 0 <= s_bucket_index s < 24 ->
  blen (serialise (PConstr 0 [shard_data s])) = 9 + match s_entries s with [] => 1 | l => 2 + foldr (fun e n => entry_size e + n) 0 l end.
Proof.
  intros Hi. unfold shard_data. rewrite blen_constr by lia. cbn [fmap list_fmap]. rewrite blen_one, blen_constr, blen_list by lia. cbn [fmap list_fmap sum_blen foldr].
  change (serialise (PInt (s_bucket_index s))) with (serialise_int (s_bucket_index s)). rewrite blen_int by lia.
  change (serialise (PList (entry_data <$> s_entries s))) with (serialise_list (serialise <$> (entry_data <$> s_entries s))). rewrite blen_list.
  destruct (s_entries s) as [|e l]; [done|]. assert (forall l, sum_blen (serialise <$> (entry_data <$> l)) = foldr (fun e n => entry_size e + n) 0 l) as H.
  { induction l0 as [|x l0 IH]; [done|]. rewrite !fmap_cons. cbn [sum_blen foldr]. fold (sum_blen (serialise <$> (entry_data <$> l0))). by rewrite IH, entry_bytes. }
  rewrite <- H, !fmap_cons. cbv iota. rewrite sum_blen_cons, entry_bytes. lia.
Qed.

(** A fresh shard with one admissible entry is within capacity. *)
Lemma single_entry_size `{BL : Blake2b} i e : 0 <= i < 16 -> entry_is_admissible e = true -> shard_is_within_capacity (MkShard i [e]) = true.
Proof.
  unfold entry_is_admissible. rewrite !andb_true_iff, Z.eqb_eq. intros Hi [[Hh Hd] _]. unfold shard_is_within_capacity. cbn [s_bucket_index s_entries].
  rewrite shard_bytes by (cbn; lia). cbn [s_entries foldr]. unfold entry_size. pose proof (blen_bytes (raw (e_hash e))). pose proof (blen_bytes (raw (e_denom e))).
  unfold full_denom_is_within_limits in Hd. destruct (_ || _) eqn:E; [done|]. apply orb_false_iff in E as [_ E%Z.ltb_ge]. unfold maxFullDenomBytes in E.
  unfold bucketCount, maxEntriesPerShard, maxShardDatumBytes, count. cbn [length].
  rewrite !andb_true_iff, !Z.leb_le, Z.ltb_lt. lia.
Qed.

(** ** Advancing a directory *)

Lemma unique_indices d : bucket_indices_are_unique d = true <-> NoDup (bucket_index <$> d).
Proof.
  induction d as [|b d IH]; cbn; [split; [constructor|done]|]. rewrite NoDup_cons, <- IH.
  destruct (find_bucket d (bucket_index b)) as [c|] eqn:E.
  - split; [done|]. intros [H _]. destruct H. destruct (find_bucket_spec _ _ _ E) as [Hc <-]. by apply list_elem_of_fmap_2.
  - split; [|tauto]. intros H. split; [|done]. intros (c & Hi & Hc)%list_elem_of_fmap. apply list_elem_of_In in Hc.
    pose proof (List.find_none _ _ E c Hc) as Hn. cbn in Hn. lia.
Qed.
Lemma unique_indices_seen d seen : NoDup (bucket_index <$> d) -> (forall i, i ∈ bucket_index <$> d -> i ∉ seen) -> do_bucket_indices_are_unique d seen = true.
Proof.
  revert seen. induction d as [|b d IH]; intros seen Hn Hs; [done|]. rewrite fmap_cons in *. apply NoDup_cons in Hn as [Hb Hn]. cbn.
  rewrite bool_decide_false by (apply Hs; left). cbn. apply IH; [done|]. intros i Hi [->|Hin]%elem_of_cons; [done|]. revert Hin. apply Hs. by right.
Qed.
Lemma NoDup_unique l : NoDup l -> bytearrays_are_unique l = true.
Proof. induction 1 as [|x l Hx Hl IH]; [done|]. cbn. rewrite bool_decide_false, IH by done. done. Qed.

Section advancing.
Context (d : TraceRegistryDirectoryDatum) (b : TraceRegistryDirectoryBucket) (new : string).
Context (Hcap : directory_is_within_capacity d = true) (Hb : b ∈ d) (Hroom : count (archived_shard_names b) < 8)
  (Hvalid : valid_shard_name new = true) (Hfresh : new ∉ shard_names b).

#[local] Abbreviation d2 := (advance_bucket (bucket_index b) new <$> d).

Lemma same_bucket c : c ∈ d -> bucket_index c = bucket_index b -> c = b.
Proof.
  intros Hc E. pose proof (find_bucket_in d c (capacity_unique _ Hcap) Hc) as F1. pose proof (find_bucket_in d b (capacity_unique _ Hcap) Hb) as F2. congruence.
Qed.
Lemma advance_here : advance_bucket (bucket_index b) new b = MkTraceRegistryDirectoryBucket (bucket_index b) new (archived_shard_names b ++ [active_shard_name b]).
Proof. unfold advance_bucket. rewrite number_of_bucket, Z.eqb_refl by (apply bucket_capacity; by eapply directory_capacity). done. Qed.
Lemma advance_elsewhere c : c ∈ d -> bucket_index c <> bucket_index b -> advance_bucket (bucket_index b) new c = c.
Proof.
  intros Hc Hne. unfold advance_bucket. rewrite number_of_bucket by (apply bucket_capacity; by eapply directory_capacity).
  destruct (Z.eqb_spec (bucket_index c) (bucket_index b)); done.
Qed.
Lemma advance_index c : bucket_index (advance_bucket (bucket_index b) new c) = bucket_index c.
Proof. unfold advance_bucket. by destruct (_ =? _). Qed.
Lemma advance_indices : bucket_index <$> d2 = bucket_index <$> d.
Proof. rewrite <- list_fmap_compose. apply list_fmap_ext. intros i c _. apply advance_index. Qed.
Lemma indices_NoDup : NoDup (bucket_index <$> d).
Proof. by apply unique_indices, capacity_unique. Qed.

Lemma advanced_within c : c ∈ d -> directory_bucket_is_within_capacity (advance_bucket (bucket_index b) new c) = true.
Proof.
  intros Hc. pose proof (directory_capacity d c Hcap Hc) as Hcc. destruct (decide (bucket_index c = bucket_index b)) as [E|E]; [|by rewrite advance_elsewhere].
  rewrite (same_bucket c Hc E) in *. rewrite advance_here. destruct (bucket_capacity b Hcc) as (Hi & Hn & Hv & _).
  unfold directory_bucket_is_within_capacity. cbn [bucket_index active_shard_name archived_shard_names]. unfold bucketCount, maxArchivedShardsPerBucket.
  apply NoDup_cons in Hn as [Ha Hn].
  rewrite !andb_true_iff, negb_true_iff, bool_decide_eq_false, !Z.leb_le, Z.ltb_lt, forallb_forall. split_and!; [lia|lia|done| | | |].
  - unfold count in *. rewrite length_app. cbn. lia.
  - intros n [Hin| ->%list_elem_of_singleton]%list_elem_of_In%elem_of_app; apply Hv; [by right|left].
  - unfold shard_names in Hfresh. rewrite elem_of_app, list_elem_of_singleton. intros [Hin| ->]; apply Hfresh; [by right|left].
  - apply NoDup_unique, NoDup_app. split_and!; [done| |apply NoDup_singleton]. by intros n Hin ->%list_elem_of_singleton.
Qed.

Lemma advanced_capacity : directory_is_within_capacity d2 = true.
Proof.
  assert (forall c, c ∈ d2 -> directory_bucket_is_within_capacity c = true) as Hall by (intros c (x & -> & Hx)%list_elem_of_fmap; by apply advanced_within).
  assert (count d2 <= 16) as Hn.
  { unfold directory_is_within_capacity in Hcap. rewrite !andb_true_iff, Z.leb_le in Hcap. unfold count, bucketCount in *. rewrite length_fmap. tauto. }
  unfold directory_is_within_capacity. rewrite !andb_true_iff, !Z.leb_le, forallb_forall. split_and!; [done|by apply directory_size| |].
  - intros c Hc%list_elem_of_In. auto.
  - apply unique_indices. rewrite advance_indices. apply indices_NoDup.
Qed.

Lemma advanced_matches : directory_rollover_matches d d2 (bucket_index b) (active_shard_name b) new = true.
Proof.
  pose proof indices_NoDup as Hn. pose proof Hn as Hn2. rewrite <- advance_indices in Hn2. unfold directory_rollover_matches.
  rewrite (unique_indices_seen d []), (unique_indices_seen d2 []), length_fmap, Nat.eqb_refl by (done || (intros i _; apply not_elem_of_nil)). cbn [andb].
  apply andb_true_iff. split; apply forallb_forall.
  - intros c Hc%list_elem_of_In. rewrite <- (advance_index c). rewrite (find_bucket_in d2).
    2:{ by apply unique_indices. } 2:{ by apply list_elem_of_fmap_2. }
    rewrite advance_index. destruct (Z.eqb_spec (bucket_index c) (bucket_index b)) as [E|E].
    + rewrite (same_bucket c Hc E), advance_here. cbn. by rewrite !bool_decide_true.
    + rewrite advance_elsewhere by done. by rewrite bool_decide_true.
  - intros u (c & -> & Hc)%list_elem_of_In%list_elem_of_fmap. rewrite advance_index, (find_bucket_in d c) by (done || by apply capacity_unique). done.
Qed.

End advancing.

(** ** Reading a transaction that the Gateway builds *)

Lemma find_unique_split {T} (p : T -> option bool) l1 a l2 : (forall x, x ∈ l1 -> p x = Some false) -> p a = Some true ->
  (forall x, x ∈ l2 -> p x = Some false) -> find_unique p (l1 ++ a :: l2) = Some a.
Proof.
  intros H1 Ha H2. assert (forall l, (forall x, x ∈ l -> p x = Some false) -> filterO p l = Some []) as Hnil.
  { induction l as [|x l IH]; intros H; [done|]. cbn. rewrite (H x ltac:(left)). cbn. rewrite IH; [done|]. intros; apply H; by right. }
  unfold find_unique. assert (filterO p (l1 ++ a :: l2) = Some [a]) as ->; [|done].
  induction l1 as [|x l1 IH]; cbn [app filterO].
  - rewrite Ha. cbn. by rewrite Hnil.
  - rewrite (H1 x ltac:(left)). cbn. rewrite IH; [done|]. intros; apply H1; by right.
Qed.

Lemma omap_single {T U} (f : T -> option U) l x y : NoDup l -> x ∈ l -> f x = Some y -> (forall z, z ∈ l -> z <> x -> f z = None) -> omap f l = [y].
Proof.
  intros Hn (l1 & l2 & ->)%list_elem_of_split Hx Hz. apply NoDup_app in Hn as (_ & Hd & [Hx2 _]%NoDup_cons).
  assert (forall l, (forall z, z ∈ l -> f z = None) -> omap f l = []) as Hnil.
  { induction l as [|z l IH]; intros H; [done|]. cbn. rewrite (H z ltac:(left)). apply IH. intros; apply H; by right. }
  rewrite omap_app. cbn. rewrite Hx, !Hnil; [done| |].
  - intros z Hin. apply Hz; [apply elem_of_app; right; by right|]. by intros ->.
  - intros z Hin. apply Hz; [apply elem_of_app; by left|]. intros ->. apply (Hd x Hin). left.
Qed.

(** The transaction the scripts see. *)
Definition mint_of (tx : TxBuilder) (x : string) : Z := foldr (fun m n => amount m.1 x + n) 0 (minted tx).
Definition script_tx (tx : TxBuilder) : ScriptTx := MkScriptTx (spent tx) (reference_inputs tx) (outputs tx) (mint_of tx).

Lemma mint_of_app a b x : mint_of (a ++ b) x = mint_of a x + mint_of b x.
Proof.
  unfold mint_of, minted. rewrite bind_app. induction (a ≫= call_minted) as [|m l IH]; [done|]. cbn [app foldr]. rewrite IH. lia.
Qed.

Section accept.
Context `{L : Lucid} `{BL : Blake2b} `{BO : !Blake2bOk} `{SHA : Sha256} `{S3 : Sha3} `{RE : RegistryEnv} `{UA : UtxoAddress} `{AC : AssemblyConfig}.
Context (A policy directory_name voucher benchmark : string) (G : ledger).

#[local] Abbreviation token := (unit_of policy).
#[local] Abbreviation dir := (MkAuthToken policy directory_name).
#[local] Abbreviation holds := (holds A policy).
#[local] Abbreviation directory_at := (directory_at A policy directory_name).
#[local] Abbreviation bucket_ok := (bucket_ok A policy).
#[local] Abbreviation registry := (MkTraceRegistryConfig A policy (Some (MkAuthToken policy directory_name)), MkAuthToken policy directory_name).

(** A policy id is 28 bytes and the assets of an output have one quantity per unit. *)
Context (Hpolicy : str_length policy = 56%nat) (Hassets : forall u, u ∈ live G -> map_wf (assets u)).

Lemma token_not_lovelace n : token n <> "lovelace".
Proof. intros E. apply (f_equal str_length) in E. unfold unit_of, shard_unit in E. rewrite str_length_app, Hpolicy in E. cbn in E. lia. Qed.
Lemma token_inj n m : token n = token m -> n = m.
Proof. unfold unit_of, shard_unit. intros E. apply (f_equal utf8) in E. rewrite !utf8_app in E. apply app_inv_head in E. by apply utf8_inj. Qed.

Lemma only_token x n o : output_matches A x o = true -> token n <> x -> output_matches A (token n) o = false.
Proof.
  intros Hx Hne. destruct (output_matches A (token n) o) eqn:E; [exfalso|done]. apply matches_spec in E as [_ E].
  unfold output_matches, has_only_token in Hx. rewrite !andb_true_iff, forallb_forall in Hx. destruct Hx as [_ [_ H]].
  assert (token n ∈ map_keys (out_assets o)) as Hk. { apply map_get_is_Some. unfold amount in E. destruct (map_get _ _); [eauto|done]. }
  specialize (H _ (proj1 (list_elem_of_In _ _) Hk)). rewrite !orb_true_iff, !bool_decide_eq_true, E in H. destruct H as [[H|H]|H]; [done| |done].
  by apply (token_not_lovelace n).
Qed.

Lemma single_registry_token n u : u ∈ live G -> output_matches A (token n) (located u) = true ->
  expect_single_registry_token policy (located u) = Some n.
Proof.
  intros Hu Hm. unfold expect_single_registry_token, tokens. erewrite (omap_single _ _ (token n) n); [done|apply (Hassets u Hu)| | |].
  - apply map_get_is_Some. apply matches_spec in Hm as [_ Hm]. unfold amount in Hm. destruct (map_get _ _); [eauto|done].
  - apply matches_spec in Hm as [_ Hm]. rewrite Hm. cbn. unfold unit_of, shard_unit. rewrite utf8_app, (proj2 (strip_prefix_app _ _ _) eq_refl). cbn. by rewrite text_utf8.
  - intros z Hz Hne. unfold output_matches, has_only_token in Hm. rewrite !andb_true_iff, forallb_forall in Hm. destruct Hm as [_ [_ H]].
    specialize (H z (proj1 (list_elem_of_In _ _) Hz)). rewrite !orb_true_iff, !bool_decide_eq_true in H. destruct H as [[H|H]|H]; [done| |by rewrite H].
    destruct (_ =? 0); [done|]. subst z. destruct (strip_prefix _ _) as [r|] eqn:E; [|done]. apply strip_prefix_app in E. apply (f_equal length) in E.
    rewrite length_app in E. unfold str_length in Hpolicy. rewrite Hpolicy in E. cbn in E. lia.
Qed.

(** Calls that stay away from the registry. *)
Record quiet (tx : TxBuilder) : Prop := {
  qt_outputs o : o ∈ outputs tx -> out_address o <> A;
  qt_reads u : u ∈ reference_inputs tx -> utxo_address u <> A;
  qt_spends u r : (u, r) ∈ spent tx -> utxo_address u <> A;
  qt_mints a r n : (a, r) ∈ minted tx -> amount a (token n) = 0;
}.

Lemma away x o : out_address o <> A -> output_matches A x o = false.
Proof. intros H. unfold output_matches. by rewrite bool_decide_false. Qed.
Lemma away_directory u : utxo_address u <> A -> is_directory_output dir A (located u) = Some false.
Proof. intros H. unfold is_directory_output. by rewrite away. Qed.
Lemma away_shard x u : utxo_address u <> A -> is_shard_output A x (located u) = Some false.
Proof. intros H. unfold is_shard_output. by rewrite away. Qed.

(** Holders of the directory and of the shards, told apart by their token. *)
Lemma directory_holder u d : output_matches A (token directory_name) (located u) = true -> directory_of (located u) = Some d ->
  is_directory_output dir A (located u) = Some true.
Proof.
  intros Hm Hd. unfold is_directory_output. change (directory_unit dir) with (token directory_name). rewrite Hm. unfold directory_of in Hd.
  destruct (registry_datum_of (located u)) as [[]|]; done.
Qed.
Lemma shard_holder u n s : output_matches A (token n) (located u) = true -> shard_of (located u) = Some s -> is_shard_output A (token n) (located u) = Some true.
Proof. intros Hm Hd. unfold is_shard_output. rewrite Hm. unfold shard_of in Hd. destruct (registry_datum_of (located u)) as [[]|]; done. Qed.
Lemma other_directory u n : output_matches A (token n) (located u) = true -> n <> directory_name -> is_directory_output dir A (located u) = Some false.
Proof.
  intros Hm Hn. unfold is_directory_output. change (directory_unit dir) with (token directory_name). erewrite only_token; [done|exact Hm|]. by intros E%token_inj.
Qed.
Lemma other_shard u n m : output_matches A (token n) (located u) = true -> n <> m -> is_shard_output A (token m) (located u) = Some false.
Proof. intros Hm Hn. unfold is_shard_output. erewrite only_token; [done|exact Hm|]. by intros E%token_inj. Qed.

Context (OK : registry_ok A policy directory_name G).

Lemma shard_not_directory n s d : holds G n s -> directory_at G d -> n <> directory_name.
Proof.
  intros (u & Hu & Hm & Hs) (v & Hv & Hm' & Hd) ->. apply matches_spec in Hm as [_ Hm], Hm' as [_ Hm'].
  assert (u = v) as -> by (eapply (same_live policy G (ro_ledger _ _ _ _ OK)); eauto). unfold shard_of, directory_of in *. destruct (registry_datum_of (located v)) as [[]|]; done.
Qed.

(** A list of holders, one per name. *)
Definition holders (names : list string) (ss : list registry_shard) (us : list UTxO) : Prop :=
  Forall3 (fun n s u => u ∈ live G /\ output_matches A (token n) (located u) = true /\ shard_of (located u) = Some s) names ss us.

Lemma find_holder names ss us n s (l1 l2 : list UTxO) : holders names ss us -> NoDup names -> (n, s) ∈ zip names ss ->
  (forall u, u ∈ l1 -> is_shard_output A (token n) (located u) = Some false) -> (forall u, u ∈ l2 -> is_shard_output A (token n) (located u) = Some false) ->
  find_unique_shard_input (l1 ++ us ++ l2) A (token n) = Some s.
Proof.
  intros H3. revert l1. induction H3 as [|m s' u names ss us (Hu & Hm & Hs) H3 IH]; intros l1 Hn Hin H1 H2; [by apply not_elem_of_nil in Hin|].
  apply NoDup_cons in Hn as [Hmn Hn]. cbn [zip zip_with] in Hin. apply elem_of_cons in Hin as [[= -> ->]|Hin].
  - unfold find_unique_shard_input. cbn [app]. rewrite (find_unique_split _ l1 u (us ++ l2)); [done|done|by eapply shard_holder|].
    intros v [Hv|Hv]%elem_of_app; [|auto]. clear -H3 Hmn Hv Hpolicy. induction H3 as [|k s2 w names ss us (Hw & Hk & Hk') H3 IH]; [by apply not_elem_of_nil in Hv|].
    apply not_elem_of_cons in Hmn as [Hne Hmn]. apply elem_of_cons in Hv as [->|Hv]; [by eapply other_shard|auto].
  - cbn [app]. change (l1 ++ u :: us ++ l2) with (l1 ++ [u] ++ us ++ l2). rewrite app_assoc. apply IH; [done..| |done].
    intros v [Hv| ->%list_elem_of_singleton]%elem_of_app; [auto|]. eapply other_shard; [exact Hm|]. intros ->.
    apply Hmn. apply elem_of_zip_l in Hin. done.
Qed.

(** ** What an insertion plan is made of *)

Context (PO : provider_ok A policy directory_name G).

(** The new hash, its bucket in the directory, the active shard and the archived ones. *)
Record prepared (h denom : string) (du : UTxO) (d : TraceRegistryDirectoryDatum) (b : TraceRegistryDirectoryBucket)
    (s0 : registry_shard) (sa : list registry_shard) (su : UTxO) (arch : list UTxO) : Prop := {
  pr_du : du ∈ live G /\ output_matches A (token directory_name) (located du) = true /\ directory_of (located du) = Some d;
  pr_capacity : directory_is_within_capacity d = true;
  pr_bucket : b ∈ d;
  pr_hash : bucket_index_for_hash h = Some (bucket_index b);
  pr_ok : bucket_ok G b (s0 :: sa);
  pr_su : su ∈ live G /\ output_matches A (token (active_shard_name b)) (located su) = true /\ shard_of (located su) = Some s0;
  pr_arch : holders (archived_shard_names b) sa arch;
  pr_new e : e ∈ (s0 :: sa) ≫= s_entries -> e_hash e <> h;
  pr_limits : assertNewDenomWithinLimits denom = Ok tt;
}.

Definition appended (h denom : string) (s : registry_shard) : TraceRegistryShardDatum :=
  MkTraceRegistryShardDatum (s_bucket_index s) ((view_entry <$> s_entries s) ++ [MkTraceRegistryEntry h denom]).

Lemma prepare_new hash denom force ctx : prepareOnChainInsert hash denom force = Ok ctx -> (forall w, ctx <> TraceExisting w) ->
  exists du d b s0 sa l0 arch fits, prepared (toLowerCase hash) denom du d b s0 sa (ls_utxo l0) arch /\ ls_datum l0 = view_shard s0 /\
    shardFitsCapacity (appended (toLowerCase hash) denom s0) = Ok fits /\
    if fits : bool then force = false /\ append_plan du l0 arch (toLowerCase hash) denom (appended (toLowerCase hash) denom s0) = Ok ctx
    else rollover_plan registry du d b (bucket_index b) l0 arch (toLowerCase hash) denom = Ok ctx.
Proof.
  set (h := toLowerCase hash). unfold prepareOnChainInsert. fold h. rewrite (config_ok _ _ _ _ PO). cbn [mbind result_bind].
  pose proof OK as [LO (d & Hd & Hc & Hall)]. destruct (load_directory _ _ _ _ PO d Hd) as (du & -> & Hdu). cbn [mbind result_bind].
  intros Hp Hne. apply bind_ok in Hp as (existing & Hfind & Hp). destruct existing as [e|].
  { case_decide; [done|]. apply bind_ok in Hp as (w & _ & [= <-]). by destruct (Hne [w]). }
  unfold insert_new in Hp. apply bind_ok in Hp as ([] & Hlim & Hp). apply bind_ok in Hp as ([] & _ & Hp). apply bind_ok in Hp as (i & Hi & Hp).
  assert (is_denom_hash h = true) as Hh. { unfold getBucketIndexForHash in Hi. by destruct (is_denom_hash h). }
  destruct (bucket_of_hash h Hh) as (i' & Hi' & Hbi & Hr). rewrite Hi in Hi'. injection Hi' as <-.
  assert (toLowerCase h = h) as Hlow by apply toLowerCase_idem. rewrite Hlow in Hbi.
  apply bind_ok in Hp as (b & Hb & Hp). unfold getDirectoryBucket in Hb. destruct (List.find _ d) as [b'|] eqn:Ef; [|done]. injection Hb as ->.
  apply List.find_some in Ef as [Hb Eb%Z.eqb_eq]. apply list_elem_of_In in Hb.
  pose proof (directory_capacity d b Hc Hb) as Hbc. pose proof (bucket_capacity b Hbc) as (Hbr & Hnd & _ & _). rewrite number_of_bucket in Eb by done. subst i.
  destruct (Hall b Hb) as [ss Hok]. destruct (load_bucket _ _ _ _ PO b ss Hok Hbc) as (ls & Hls & H3).
  rewrite Hls in Hp. cbn [mbind result_bind] in Hp. unfold shard_names in H3, Hnd. inversion H3 as [|? s0 l0 ? sa la Hl0 H3a]; subst ss ls.
  pose proof (ld_name _ _ _ _ _ _ Hl0) as Hn0. cbn [List.find List.filter] in Hp. rewrite Hn0, bool_decide_true in Hp by done. cbn [negb] in Hp.
  assert (List.filter (fun s => negb (bool_decide (ls_tokenName s = active_shard_name b))) la = la) as Hfl.
  { apply NoDup_cons in Hnd as [Hact _]. clear -H3a Hact. induction H3a as [|n s l names ss ls Hl H3a IH]; [done|]. apply not_elem_of_cons in Hact as [Hne Hact].
    cbn [List.filter]. rewrite (ld_name _ _ _ _ _ _ Hl), bool_decide_false by congruence. cbn [negb]. by rewrite IH. }
  rewrite Hfl in Hp. apply bind_ok in Hp as (caps & _ & Hp). rewrite (ld_datum _ _ _ _ _ _ Hl0) in Hp. cbn [shard_bucket_index entries view_shard] in Hp.
  fold (appended h denom s0) in Hp. apply bind_ok in Hp as (fits & Hfits & Hp).
  exists du, d, b, s0, sa, l0, (ls_utxo <$> la), fits. split_and!; [|apply (ld_datum _ _ _ _ _ _ Hl0)|done|].
  - split; try done.
    + split_and!; [apply (ld_live _ _ _ _ _ _ Hl0)|apply (ld_matches _ _ _ _ _ _ Hl0)|apply (ld_shard _ _ _ _ _ _ Hl0)].
    + unfold holders. clear -H3a. induction H3a as [|n s l names ss ls Hl H3a IH]; cbn; constructor; [|done].
      split_and!; [apply (ld_live _ _ _ _ _ _ Hl)|apply (ld_matches _ _ _ _ _ _ Hl)|apply (ld_shard _ _ _ _ _ _ Hl)].
    + destruct (find_in_directory_spec A policy directory_name G PO h d b (s0 :: sa)) as [(e & o & Hf & _)|[_ Hno]]; try done; [by rewrite Hlow|congruence|].
      rewrite Hlow in Hno. exact Hno.
  - destruct fits; [|done]. destruct force; [done|]. done.
Qed.

(** ** What the scripts read *)

Lemma prepared_hash h denom : h = buildVoucherDenomHashFromFullDenom denom -> blen (raw h) = 28 /\ voucher_denom_hash (convertString2Hex denom) = h /\ raw (convertString2Hex denom) = utf8 denom.
Proof.
  intros Hhash. assert (convertString2Hex denom = hex_encode (utf8 denom)) as E.
  { unfold convertString2Hex. case_decide; [by subst|done]. }
  rewrite E. unfold voucher_denom_hash. rewrite hex_decode_encode, Hhash. unfold buildVoucherDenomHashFromFullDenom. rewrite toLowerCase_hex, hex_decode_encode.
  split_and!; [|done..]. unfold blen. by rewrite blake2b224_length.
Qed.
Section reads.
Context (h denom : string) (du : UTxO) (d : TraceRegistryDirectoryDatum) (b : TraceRegistryDirectoryBucket)
  (s0 : registry_shard) (sa : list registry_shard) (su : UTxO) (arch : list UTxO) (P : prepared h denom du d b s0 sa su arch)
  (Hhash : h = buildVoucherDenomHashFromFullDenom denom).

Lemma prepared_names : NoDup (shard_names b) /\ 0 <= bucket_index b < 16 /\ count (archived_shard_names b) <= 8.
Proof. destruct (bucket_capacity b) as (? & ? & _ & ?); [|done]. eapply directory_capacity; [apply (pr_capacity _ _ _ _ _ _ _ _ _ P)|apply (pr_bucket _ _ _ _ _ _ _ _ _ P)]. Qed.

Lemma prepared_directory_at : directory_at G d.
Proof. exists du. apply (pr_du _ _ _ _ _ _ _ _ _ P). Qed.

Lemma prepared_admissible : full_denom_is_within_limits (convertString2Hex denom) = true /\ entry_is_admissible (MkEntry h (convertString2Hex denom)) = true.
Proof.
  destruct (prepared_hash h denom Hhash) as (H1 & H2 & H3). assert (full_denom_is_within_limits (convertString2Hex denom) = true) as Hl.
  { pose proof (limits_agree denom (pr_limits _ _ _ _ _ _ _ _ _ P)) as Hl. unfold convertString2Hex. case_decide; [by subst|done]. }
  split; [done|]. unfold entry_is_admissible. cbn [e_hash e_denom]. rewrite H1, Hl, H2, bool_decide_true by done. done.
Qed.

Lemma holders_member names ss us u : holders names ss us -> u ∈ us -> exists n s, n ∈ names /\ s ∈ ss /\ u ∈ live G /\ output_matches A (token n) (located u) = true /\ shard_of (located u) = Some s.
Proof.
  induction 1 as [|n s v names ss us H H3 IH]; [by intros ?%not_elem_of_nil|]. intros [->|Hu]%elem_of_cons; [exists n, s; split_and!; [left|left|apply H..]|].
  destruct (IH Hu) as (n' & s' & ? & ? & ?). exists n', s'. split_and!; [by right|by right|naive_solver..].
Qed.

(** The witnesses of an insertion: archived shards among outputs that are not at the
    registry's address. *)
Lemma archived_reads l1 l2 : (forall u, u ∈ l1 -> utxo_address u <> A \/ u = du) -> (forall u, u ∈ l2 -> utxo_address u <> A) ->
  bucket_shards_do_not_contain_hash policy (l1 ++ arch ++ l2) A (archived_shard_names b) h = true.
Proof.
  intros H1 H2. destruct prepared_names as (Hn & _ & Hc). unfold bucket_shards_do_not_contain_hash. apply andb_true_iff. split; [by apply Z.leb_le|].
  apply forallb_forall. intros n Hin%list_elem_of_In. pose proof (pr_arch _ _ _ _ _ _ _ _ _ P) as Hh. apply NoDup_cons in Hn as [_ Hn].
  assert (exists s, s ∈ sa /\ (n, s) ∈ zip (archived_shard_names b) sa /\ holds G n s) as (s & Hs & Hz & Hhold).
  { clear -Hh Hin. induction Hh as [|m s u names ss us H Hh IH]; [by apply not_elem_of_nil in Hin|]. apply elem_of_cons in Hin as [->|Hin].
    - exists s. split_and!; [left|left|exists u; apply H].
    - destruct (IH Hin) as (s' & ? & ? & ?). exists s'. split_and!; [by right|by right|done]. }
  change (shard_unit policy n) with (token n). rewrite (find_holder (archived_shard_names b) sa arch n s l1 l2 Hh Hn Hz).
  - pose proof (pr_ok _ _ _ _ _ _ _ _ _ P) as Hok. destruct (bo_shards _ _ _ _ _ Hok s) as [Hi Hcap]; [by right|]. rewrite Hcap, Hi.
    rewrite bool_decide_true by apply (pr_hash _ _ _ _ _ _ _ _ _ P). cbn [andb]. unfold lacks_hash. destruct (List.find _ _) as [e|] eqn:E; [|done]. exfalso.
    apply List.find_some in E as [He%list_elem_of_In Eh]. rewrite bool_decide_eq_true in Eh. apply (pr_new _ _ _ _ _ _ _ _ _ P e); [|done].
    apply list_elem_of_bind. exists s. split; [done|by right].
  - intros u Hu. destruct (H1 u Hu) as [| ->]; [by apply away_shard|]. eapply other_shard; [apply (pr_du _ _ _ _ _ _ _ _ _ P)|].
    intros <-. eapply shard_not_directory; [exact Hhold|apply prepared_directory_at|done].
  - intros u Hu. by apply away_shard, H2.
Qed.

Lemma archived_not_directory u : u ∈ arch -> is_directory_output dir A (located u) = Some false.
Proof.
  intros Hu. destruct (holders_member _ _ _ _ (pr_arch _ _ _ _ _ _ _ _ _ P) Hu) as (n & s & _ & _ & Hl & Hm & Hs).
  eapply other_directory; [exact Hm|]. eapply shard_not_directory; [by exists u|apply prepared_directory_at].
Qed.

Lemma directory_reads l1 l2 : (forall u, u ∈ l1 -> is_directory_output dir A (located u) = Some false) ->
  (forall u, u ∈ l2 -> is_directory_output dir A (located u) = Some false) -> find_unique_directory_input dir (l1 ++ du :: l2) A = Some d.
Proof.
  intros H1 H2. destruct (pr_du _ _ _ _ _ _ _ _ _ P) as (_ & Hm & Hd). unfold find_unique_directory_input.
  rewrite (find_unique_split _ l1 du l2); [done|done|by eapply directory_holder|done].
Qed.

End reads.

(** ** Encodings that read back *)

Definition reads_back (x : pdata) : Prop := forall c, Data_to true x = Ok c -> Data_from c = Ok x.

(** The denomination of an entry is text. *)
Definition text_entry (e : registry_entry) : Prop := convertString2Hex (convertHex2String (e_denom e)) = e_denom e.

Lemma as_entries (es : list TraceRegistryEntry) :
  mapM as_entry (encodeEntry <$> es) = Some ((fun e => MkEntry (voucher_hash e) (convertString2Hex (full_denom e))) <$> es).
Proof. induction es as [|e es IH]; [done|]. rewrite fmap_cons. cbn [mapM]. cbn. by rewrite IH. Qed.

Lemma view_back es : Forall text_entry es ->
  (fun e => MkEntry (voucher_hash e) (convertString2Hex (full_denom e))) <$> (view_entry <$> es) = es.
Proof. induction 1 as [|[h f] es He _ IH]; [done|]. rewrite !fmap_cons, IH. unfold text_entry in He. cbn in *. by rewrite He. Qed.

Lemma written_shard_of a (d : TraceRegistryShardDatum) c v : reads_back (registry_datum_data (Shard d)) -> encodeTraceRegistryDatum (Shard d) = Ok c ->
  shard_of (MkTxOutput a (Some c) v) = Some (MkShard (shard_bucket_index d) ((fun e => MkEntry (voucher_hash e) (convertString2Hex (full_denom e))) <$> entries d)).
Proof.
  intros Hb Hc. unfold shard_of, registry_datum_of. cbn [out_datum mbind option_bind]. rewrite (Hb c Hc). cbn. by rewrite as_entries.
Qed.

Lemma appended_back h denom s : Forall text_entry (s_entries s) ->
  (fun e => MkEntry (voucher_hash e) (convertString2Hex (full_denom e))) <$> entries (appended h denom s) = s_entries s ++ [MkEntry h (convertString2Hex denom)].
Proof. intros Ht. cbn [entries appended]. by rewrite fmap_app, view_back. Qed.

(** The calls around the registry's own. *)
Lemma builder_reads pre calls post : reference_inputs (pre ++ calls ++ post) = reference_inputs pre ++ reference_inputs calls ++ reference_inputs post.
Proof. unfold reference_inputs. by rewrite !bind_app. Qed.
Lemma builder_outputs pre calls post : outputs (pre ++ calls ++ post) = outputs pre ++ outputs calls ++ outputs post.
Proof. unfold outputs. by rewrite !bind_app. Qed.
Lemma builder_spent pre calls post : spent (pre ++ calls ++ post) = spent pre ++ spent calls ++ spent post.
Proof. unfold spent. by rewrite !bind_app. Qed.

Lemma find_written (a b : list TxOutput) o n s : (forall x, x ∈ a -> output_matches A (token n) x = false) -> (forall x, x ∈ b -> output_matches A (token n) x = false) ->
  output_matches A (token n) o = true -> shard_of o = Some s -> find_shard_output (a ++ o :: b) A (token n) = Some s.
Proof.
  intros Ha Hb Ho Hs. unfold find_shard_output. rewrite (find_unique_split _ a o b); [done|intros x Hx; by rewrite Ha|by rewrite Ho|intros x Hx; by rewrite Hb].
Qed.

Lemma spend_insert u s red h f tx : shard_of (located u) = Some s -> Data_from red = Ok (PConstr 0 [PBytes h; PBytes f]) ->
  spend policy directory_name voucher benchmark u (Some red) tx = validate_insert_trace policy dir voucher benchmark s h f (located u) tx.
Proof.
  intros Hs Hr. unfold spend, spend_trace_registry. unfold shard_of in Hs. destruct (registry_datum_of (located u)) as [[x|]|]; try done. injection Hs as ->.
  cbn [mbind option_bind]. rewrite Hr. cbn. by destruct (validate_insert_trace _ _ _ _ _ _ _ _ _).
Qed.

Context (Haddress : traceRegistryAddress = Some A) (Hscript : forall u, rs_spendTraceRegistry = Some u -> utxo_address u <> A)
  (Hidentifier : utxo_address rs_mintIdentifier <> A).

Lemma append_calls du su arch red dat pre mid : applyTraceRegistryUpdate (Some (TraceAppend du su arch red dat)) pre = Ok mid ->
  exists script, utxo_address script <> A /\
    mid = pre ++ [ReadFrom (script :: du :: arch); CollectFrom [su] (Some red); PayToContract A (Some dat) (assets su)].
Proof.
  unfold applyTraceRegistryUpdate. rewrite Haddress. unfold present. destruct A as [|c A'] eqn:EA; [by destruct (po_address _ _ _ _ PO)|].
  destruct rs_spendTraceRegistry as [script|] eqn:Es; [|done]. intros [= <-]. exists script. split; [by apply Hscript|].
  unfold payToContract, collectFrom, readFrom. by rewrite <- !app_assoc.
Qed.

Lemma append_accepted h denom du d b s0 sa su arch red dat pre mid post :
  prepared h denom du d b s0 sa su arch -> h = buildVoucherDenomHashFromFullDenom denom -> Forall text_entry (s_entries s0) ->
  encodeTraceRegistryRedeemer (InsertTrace h denom) = Ok red -> reads_back (registry_redeemer_data (InsertTrace h denom)) ->
  encodeTraceRegistryDatum (Shard (appended h denom s0)) = Ok dat -> reads_back (registry_datum_data (Shard (appended h denom s0))) ->
  applyTraceRegistryUpdate (Some (TraceAppend du su arch red dat)) pre = Ok mid -> quiet pre -> quiet post ->
  matching_voucher_mint_present voucher benchmark (mint_of (mid ++ post)) h = true ->
  spend policy directory_name voucher benchmark su (Some red) (script_tx (mid ++ post)) =
    shard_is_within_capacity (MkShard (s_bucket_index s0) (s_entries s0 ++ [MkEntry h (convertString2Hex denom)])).
Proof.
  intros P Hh Ht Hred Hredb Hdat Hdatb Hmid Qpre Qpost Hmint. destruct (append_calls _ _ _ _ _ _ _ Hmid) as (script & Hsc & ->). clear Hmid.
  destruct (pr_su _ _ _ _ _ _ _ _ _ P) as (Hsu & Hsm & Hss). destruct (matches_spec _ _ _ Hsm) as [Hsa _].
  rewrite (spend_insert su s0 red h (convertString2Hex denom) _ Hss) by (apply Hredb, Hred).
  destruct (prepared_hash h denom Hh) as (Hlen & Hvh & _). destruct (prepared_admissible _ _ _ _ _ _ _ _ _ P Hh) as [Hlim Hadm].
  unfold validate_insert_trace, script_tx. cbn [stx_reference_inputs stx_outputs stx_mint]. rewrite <- !app_assoc, builder_reads, builder_outputs.
  rewrite Hlen, Hlim, Hadm, Hsa. cbn [Z.eqb Pos.eqb andb negb].
  rewrite (single_registry_token _ su Hsu Hsm). cbn [mbind option_bind].
  change (reference_inputs [ReadFrom (script :: du :: arch); CollectFrom [su] (Some red); PayToContract A (Some dat) (assets su)]) with (script :: du :: arch ++ []).
  change (outputs [ReadFrom (script :: du :: arch); CollectFrom [su] (Some red); PayToContract A (Some dat) (assets su)]) with [MkTxOutput A (Some dat) (assets su)].
  rewrite app_nil_r. replace (reference_inputs pre ++ (script :: du :: arch) ++ reference_inputs post) with
    ((reference_inputs pre ++ [script]) ++ du :: arch ++ reference_inputs post) by (by rewrite <- app_assoc).
  rewrite (directory_reads _ _ _ _ _ _ _ _ _ P).
  2:{ intros u [Hu| ->%list_elem_of_singleton]%elem_of_app; apply away_directory; [by apply (qt_reads _ Qpre)|done]. }
  2:{ intros u [Hu|Hu]%elem_of_app; [by eapply archived_not_directory|]. apply away_directory. by apply (qt_reads _ Qpost). }
  cbn [mbind option_bind]. rewrite (pr_capacity _ _ _ _ _ _ _ _ _ P). cbn [negb].
  destruct (bo_shards _ _ _ _ _ (pr_ok _ _ _ _ _ _ _ _ _ P) s0) as [Hi _]; [left|]. rewrite Hi.
  rewrite (find_bucket_in d b) by (first [apply capacity_unique, (pr_capacity _ _ _ _ _ _ _ _ _ P)|apply (pr_bucket _ _ _ _ _ _ _ _ _ P)]). cbn [mbind option_bind].
  change (shard_unit policy (active_shard_name b)) with (token (active_shard_name b)).
  pose proof (written_shard_of A _ _ (assets su) Hdatb Hdat) as Hw. rewrite appended_back in Hw by done. cbn [shard_bucket_index appended] in Hw.
  rewrite (find_written (outputs pre) (outputs post) (MkTxOutput A (Some dat) (assets su)) _ _) with (4 := Hw).
  2-3: intros o Ho; apply away; first [by apply (qt_outputs _ Qpre)|by apply (qt_outputs _ Qpost)].
  2:{ unfold output_matches in Hsm |- *. cbn [out_address out_assets located] in *. rewrite bool_decide_true by done. by apply andb_true_iff in Hsm as [_ Hsm]. }
  cbn [mbind option_bind s_bucket_index s_entries]. rewrite <- Hi. rewrite Z.eqb_refl.
  rewrite bool_decide_true by (rewrite Hi; apply (pr_hash _ _ _ _ _ _ _ _ _ P)). rewrite Hi.
  unfold bucket_has_active_shard. rewrite (find_bucket_in d b) by (first [apply capacity_unique, (pr_capacity _ _ _ _ _ _ _ _ _ P)|apply (pr_bucket _ _ _ _ _ _ _ _ _ P)]).
  rewrite !bool_decide_true by done. cbn [andb]. rewrite <- !app_assoc in Hmint. rewrite Hmint.
  assert (lacks_hash h (s_entries s0) = true) as ->.
  { unfold lacks_hash. destruct (List.find _ _) as [e|] eqn:E; [exfalso|done]. apply List.find_some in E as [He%list_elem_of_In Eh]. rewrite bool_decide_eq_true in Eh.
    apply (pr_new _ _ _ _ _ _ _ _ _ P e); [|done]. apply list_elem_of_bind. exists s0. split; [done|left]. }
  replace ((reference_inputs pre ++ [script]) ++ du :: arch ++ reference_inputs post) with
    ((reference_inputs pre ++ [script; du]) ++ arch ++ reference_inputs post) by (by rewrite <- !app_assoc).
  rewrite (archived_reads _ _ _ _ _ _ _ _ _ P).
  - cbn [andb]. by destruct (shard_is_within_capacity _).
  - intros u [Hu|Hu]%elem_of_app; [left; by apply (qt_reads _ Qpre)|]. apply elem_of_cons in Hu as [->|Hu]; [by left|]. right. by apply list_elem_of_singleton in Hu.
  - intros u Hu. by apply (qt_reads _ Qpost).
Qed.

(** ** Rollovers *)

Lemma rollover_calls du su arch nonce dred ddat red adat ndat unit mred pre mid :
  applyTraceRegistryUpdate (Some (TraceRollover du su arch nonce dred ddat red adat ndat unit mred)) pre = Ok mid ->
  exists script, utxo_address script <> A /\
    mid = pre ++ [ReadFrom (script :: rs_mintIdentifier :: arch); CollectFrom [du] (Some dred); CollectFrom [su] (Some red); CollectFrom [nonce] None;
                  MintAssets [(unit, 1)] mred; PayToContract A (Some ddat) (assets du); PayToContract A (Some adat) (assets su);
                  PayToContract A (Some ndat) [(unit, 1)]].
Proof.
  unfold applyTraceRegistryUpdate. rewrite Haddress. unfold present. destruct A as [|c A'] eqn:EA; [by destruct (po_address _ _ _ _ PO)|].
  destruct rs_spendTraceRegistry as [script|] eqn:Es; [|done]. intros [= <-]. exists script. split; [by apply Hscript|].
  unfold payToContract, collectFrom, collectPlain, mintAssets, readFrom. by rewrite <- !app_assoc.
Qed.

Lemma written_directory_of a (x : TraceRegistryDirectoryDatum) c v : reads_back (registry_datum_data (Directory x)) -> encodeTraceRegistryDatum (Directory x) = Ok c ->
  registry_datum_of (MkTxOutput a (Some c) v) = Some (RDirectory x).
Proof.
  intros Hb Hc. unfold registry_datum_of. cbn [out_datum mbind option_bind]. rewrite (Hb c Hc). cbn.
  assert (forall l, mapM as_bucket (encodeDirectoryBucket <$> l) = Some l) as ->; [|done]. induction l as [|y l IH]; [done|].
  rewrite fmap_cons. cbn [mapM]. rewrite IH. destruct y as [i act arch]. cbn.
  assert (all_strings (PBytes <$> arch) = Some arch) as ->; [|done]. induction arch as [|z arch IHa]; [done|]. rewrite fmap_cons. cbn. by rewrite IHa.
Qed.

Lemma matches_copy x u dat : output_matches A x (located u) = true -> output_matches A x (MkTxOutput A dat (assets u)) = true.
Proof. unfold output_matches. cbn [out_address out_assets located]. intros [_ H]%andb_true_iff. by rewrite bool_decide_true, H. Qed.
Lemma matches_single n dat : output_matches A (token n) (MkTxOutput A dat [(token n, 1)]) = true.
Proof.
  unfold output_matches, has_only_token, amount. cbn [out_address out_assets map_get map_keys fmap list_fmap forallb fst default]. rewrite decide_True by done.
  by rewrite (bool_decide_true (A = A)), (bool_decide_true (token n = token n)).
Qed.

Lemma quiet_mint tx n : quiet tx -> mint_of tx (token n) = 0.
Proof.
  intros Q. unfold mint_of. pose proof (qt_mints _ Q) as Hm. induction (minted tx) as [|[m r] l IH]; [done|]. cbn [foldr fst].
  rewrite (Hm m r n ltac:(left)), IH; [done|]. intros a r' n' Hin. eapply Hm. by right.
Qed.

Section rollover.
Context (h denom : string) (du : UTxO) (d : TraceRegistryDirectoryDatum) (b : TraceRegistryDirectoryBucket)
  (s0 : registry_shard) (sa : list registry_shard) (su : UTxO) (arch : list UTxO) (P : prepared h denom du d b s0 sa su arch)
  (Hhash : h = buildVoucherDenomHashFromFullDenom denom) (Htext : Forall text_entry (s_entries s0)).
Context (nonce : UTxO) (new dred ddat red adat ndat mred : string) (pre mid post : TxBuilder).
Context (Hroom : count (archived_shard_names b) < 8) (Hvalid : valid_shard_name new = true)
  (Hfresh : forall u, u ∈ live G -> amount (assets u) (token new) = 0) (Hnonce : utxo_address nonce <> A).

#[local] Abbreviation d2 := (advance_bucket (bucket_index b) new <$> d).
#[local] Abbreviation fresh_shard := (MkTraceRegistryShardDatum (bucket_index b) [MkTraceRegistryEntry h denom]).

Context (Hddat : encodeTraceRegistryDatum (Directory d2) = Ok ddat) (Hddatb : reads_back (registry_datum_data (Directory d2)))
  (Hadat : encodeTraceRegistryDatum (Shard (view_shard s0)) = Ok adat) (Hadatb : reads_back (registry_datum_data (Shard (view_shard s0))))
  (Hndat : encodeTraceRegistryDatum (Shard fresh_shard) = Ok ndat) (Hndatb : reads_back (registry_datum_data (Shard fresh_shard)))
  (Hmid : applyTraceRegistryUpdate (Some (TraceRollover du su arch nonce dred ddat red adat ndat (token new) mred)) pre = Ok mid)
  (Qpre : quiet pre) (Qpost : quiet post)
  (Hmint : matching_voucher_mint_present voucher benchmark (mint_of (mid ++ post)) h = true).

#[local] Abbreviation tx := (script_tx (mid ++ post)).
#[local] Abbreviation prev := (active_shard_name b).

Lemma new_not_held n s : holds G n s -> n <> new.
Proof. intros (u & Hu & Hm & _) ->. apply matches_spec in Hm as [_ Hm]. pose proof (Hfresh u Hu) as Hz. cbn in Hm. change (amount (assets u) (token new) = 1) in Hm. lia. Qed.
Lemma new_not_listed : new ∉ shard_names b.
Proof.
  intros Hin. destruct (bucket_lookup _ _ _ _ _ _ (pr_ok _ _ _ _ _ _ _ _ _ P) Hin) as (s & u & _ & Hu & Hm & Hs & _).
  eapply (new_not_held new s); [by exists u|done].
Qed.
Lemma new_not_directory : new <> directory_name.
Proof. intros ->. destruct (pr_du _ _ _ _ _ _ _ _ _ P) as (Hu & Hm & _). apply matches_spec in Hm as [_ Hm]. pose proof (Hfresh du Hu). change (amount (assets du) (token directory_name) = 1) in Hm. lia. Qed.
Lemma prev_held : holds G prev s0.
Proof. exists su. apply (pr_su _ _ _ _ _ _ _ _ _ P). Qed.
Lemma prev_not_directory : prev <> directory_name.
Proof. eapply shard_not_directory; [apply prev_held|]. eapply prepared_directory_at, P. Qed.

(** What each script finds. *)
Lemma ro_inputs : exists script, utxo_address script <> A /\
  (stx_inputs tx).*1 = (spent pre).*1 ++ [du; su; nonce] ++ (spent post).*1 /\
  stx_reference_inputs tx = (reference_inputs pre ++ [script; rs_mintIdentifier]) ++ arch ++ reference_inputs post /\
  stx_outputs tx = outputs pre ++ [MkTxOutput A (Some ddat) (assets du); MkTxOutput A (Some adat) (assets su); MkTxOutput A (Some ndat) [(token new, 1)]] ++ outputs post /\
  stx_mint tx (token new) = 1.
Proof.
  destruct (rollover_calls _ _ _ _ _ _ _ _ _ _ _ _ _ Hmid) as (script & Hsc & E). exists script. unfold script_tx. cbn [stx_inputs stx_reference_inputs stx_outputs stx_mint].
  rewrite E, <- !app_assoc. rewrite builder_spent, builder_reads, builder_outputs. split_and!; [done| | |done|].
  - by rewrite !fmap_app.
  - cbn [reference_inputs mbind list_bind call_read app]. by rewrite app_nil_r.
  - rewrite !mint_of_app, (quiet_mint pre), (quiet_mint post) by done. unfold mint_of, minted, amount. cbn. by rewrite decide_True.
Qed.

Lemma out_of_quiet n q : quiet q -> forall o, o ∈ outputs q -> output_matches A (token n) o = false.
Proof. intros Q o Ho. apply away. by apply (qt_outputs _ Q). Qed.

Lemma ro_archived : find_shard_output (stx_outputs tx) A (token prev) = Some s0.
Proof.
  destruct ro_inputs as (script & _ & _ & _ & -> & _). destruct (pr_su _ _ _ _ _ _ _ _ _ P) as (_ & Hm & _). destruct (pr_du _ _ _ _ _ _ _ _ _ P) as (_ & Hdm & _).
  pose proof (written_shard_of A _ _ (assets su) Hadatb Hadat) as Hw. cbn [shard_bucket_index view_shard entries] in Hw. rewrite view_back in Hw by done.
  replace (MkShard (s_bucket_index s0) (s_entries s0)) with s0 in Hw by by destruct s0.
  change (outputs pre ++ [?a; ?b; ?c] ++ outputs post) with (outputs pre ++ [a] ++ b :: c :: outputs post). rewrite app_assoc. apply find_written; [| |by apply matches_copy|done].
  - intros o [Ho| ->%list_elem_of_singleton]%elem_of_app; [by apply (out_of_quiet _ _ Qpre)|]. eapply only_token; [by apply matches_copy|]. intros E%token_inj. by apply prev_not_directory.
  - intros o [->|Ho]%elem_of_cons; [|by apply (out_of_quiet _ _ Qpost)]. eapply only_token; [apply matches_single|]. intros E%token_inj. eapply new_not_held; [apply prev_held|done].
Qed.
Lemma ro_new : find_shard_output (stx_outputs tx) A (token new) = Some (MkShard (bucket_index b) [MkEntry h (convertString2Hex denom)]).
Proof.
  destruct ro_inputs as (script & _ & _ & _ & -> & _). destruct (pr_su _ _ _ _ _ _ _ _ _ P) as (_ & Hm & _). destruct (pr_du _ _ _ _ _ _ _ _ _ P) as (_ & Hdm & _).
  pose proof (written_shard_of A _ _ [(token new, 1)] Hndatb Hndat) as Hw.
  change (outputs pre ++ [?a; ?b; ?c] ++ outputs post) with (outputs pre ++ [a; b] ++ c :: outputs post). rewrite app_assoc. apply find_written; [| |apply matches_single|done].
  - intros o [Ho|Ho]%elem_of_app; [by apply (out_of_quiet _ _ Qpre)|]. apply elem_of_cons in Ho as [->|Ho%list_elem_of_singleton].
    + eapply only_token; [by apply matches_copy|]. intros E%token_inj. by apply new_not_directory.
    + subst o. eapply only_token; [by apply matches_copy|]. intros E%token_inj. eapply new_not_held; [apply prev_held|done].
  - intros o Ho. by apply (out_of_quiet _ _ Qpost).
Qed.
Lemma ro_directory : find_directory_output dir (stx_outputs tx) A = Some d2.
Proof.
  destruct ro_inputs as (script & _ & _ & _ & -> & _). destruct (pr_su _ _ _ _ _ _ _ _ _ P) as (_ & Hm & _). destruct (pr_du _ _ _ _ _ _ _ _ _ P) as (_ & Hdm & _).
  pose proof (written_directory_of A _ _ (assets du) Hddatb Hddat) as Hw. unfold find_directory_output. cbn [app]. rewrite (find_unique_split _ (outputs pre)).
  - cbn [mbind option_bind]. unfold directory_of. by rewrite Hw.
  - intros o Ho. unfold is_directory_output. change (directory_unit dir) with (token directory_name). by rewrite (out_of_quiet _ _ Qpre).
  - unfold is_directory_output. change (directory_unit dir) with (token directory_name). rewrite (matches_copy _ _ _ Hdm), Hw. done.
  - intros o Ho. unfold is_directory_output. change (directory_unit dir) with (token directory_name).
    assert (output_matches A (token directory_name) o = false) as ->; [|done]. apply elem_of_cons in Ho as [->|Ho]; [|apply elem_of_cons in Ho as [->|Ho]].
    + eapply only_token; [by apply matches_copy|]. intros E%token_inj. by apply prev_not_directory.
    + eapply only_token; [apply matches_single|]. intros E%token_inj. by apply new_not_directory.
    + by apply (out_of_quiet _ _ Qpost).
Qed.
Lemma ro_spent_directory : find_unique_directory_input dir (stx_inputs tx).*1 A = Some d.
Proof.
  destruct ro_inputs as (script & _ & -> & _). cbn [app]. apply (directory_reads _ _ _ _ _ _ _ _ _ P).
  - intros u ([u' r] & -> & Hu)%list_elem_of_fmap. apply away_directory. by eapply (qt_spends _ Qpre).
  - intros u Hu. apply elem_of_cons in Hu as [->|Hu].
    + eapply other_directory; [apply (pr_su _ _ _ _ _ _ _ _ _ P)|apply prev_not_directory].
    + apply elem_of_cons in Hu as [->|([u' r] & -> & Hu)%list_elem_of_fmap]; apply away_directory; [done|]. by eapply (qt_spends _ Qpost).
Qed.
Lemma ro_clean : bucket_shards_do_not_contain_hash policy (stx_reference_inputs tx) A (archived_shard_names b) h = true.
Proof.
  destruct ro_inputs as (script & Hsc & _ & -> & _). apply (archived_reads _ _ _ _ _ _ _ _ _ P).
  - intros u [Hu|Hu]%elem_of_app; left; [by apply (qt_reads _ Qpre)|]. apply elem_of_cons in Hu as [->|Hu%list_elem_of_singleton]; [done|by subst].
  - intros u Hu. by apply (qt_reads _ Qpost).
Qed.

#[local] Abbreviation overflow := (MkShard (s_bucket_index s0) (s_entries s0 ++ [MkEntry h (convertString2Hex denom)])).

Lemma ro_lacks : lacks_hash h (s_entries s0) = true.
Proof.
  unfold lacks_hash. destruct (List.find _ _) as [e|] eqn:E; [exfalso|done]. apply List.find_some in E as [He%list_elem_of_In Eh]. rewrite bool_decide_eq_true in Eh.
  apply (pr_new _ _ _ _ _ _ _ _ _ P e); [|done]. apply list_elem_of_bind. exists s0. split; [done|left].
Qed.
Lemma ro_mint : stx_mint tx (token new) = 1.
Proof. by destruct ro_inputs as (_ & _ & _ & _ & _ & H). Qed.
Lemma ro_capacity : directory_is_within_capacity d2 = true.
Proof. apply advanced_capacity; [apply (pr_capacity _ _ _ _ _ _ _ _ _ P)|apply (pr_bucket _ _ _ _ _ _ _ _ _ P)|exact Hroom|exact Hvalid|apply new_not_listed]. Qed.
Lemma ro_advance : directory_rollover_matches d d2 (bucket_index b) prev new = true.
Proof. apply advanced_matches; first [apply (pr_capacity _ _ _ _ _ _ _ _ _ P)|apply (pr_bucket _ _ _ _ _ _ _ _ _ P)]. Qed.
Lemma ro_bucket : find_bucket d (bucket_index b) = Some b.
Proof. apply find_bucket_in; [apply capacity_unique, (pr_capacity _ _ _ _ _ _ _ _ _ P)|apply (pr_bucket _ _ _ _ _ _ _ _ _ P)]. Qed.
Lemma ro_positive n : valid_shard_name n = true -> 0 <? blen (raw n) = true.
Proof. unfold valid_shard_name. by intros [H _]%andb_true_iff. Qed.
Lemma ro_single : shard_is_within_capacity (MkShard (bucket_index b) [MkEntry h (convertString2Hex denom)]) = true.
Proof. apply single_entry_size; [eapply prepared_names, P|by eapply prepared_admissible]. Qed.

Lemma rollover_shard_accepted : Data_from red = Ok (registry_redeemer_data (RolloverInsertTrace h denom new)) ->
  spend policy directory_name voucher benchmark su (Some red) tx = negb (shard_is_within_capacity overflow).
Proof.
  intros Hred. destruct (pr_su _ _ _ _ _ _ _ _ _ P) as (Hsu & Hsm & Hss). destruct (matches_spec _ _ _ Hsm) as [Hsa _].
  destruct (prepared_hash h denom Hhash) as (Hlen & Hvh & _). destruct (prepared_admissible _ _ _ _ _ _ _ _ _ P Hhash) as [Hlim Hadm].
  destruct (bo_shards _ _ _ _ _ (pr_ok _ _ _ _ _ _ _ _ _ P) s0) as [Hi Hc0]; [left|].
  unfold spend, spend_trace_registry. unfold shard_of in Hss. destruct (registry_datum_of (located su)) as [[x|]|]; try done. injection Hss as ->.
  cbn [mbind option_bind]. rewrite Hred. cbn [as_registry_redeemer registry_redeemer_data mbind option_bind]. rewrite ?Hi.
  unfold validate_rollover_insert_trace. rewrite Hlen, Hlim, Hadm, (ro_positive _ Hvalid), Hsa. cbn [Z.eqb Pos.eqb andb negb].
  rewrite (single_registry_token _ su Hsu Hsm). cbn [mbind option_bind]. rewrite ro_spent_directory. cbn [mbind option_bind].
  rewrite (pr_capacity _ _ _ _ _ _ _ _ _ P), Hi, ro_bucket. cbn [negb mbind option_bind].
  change (shard_unit policy ?n) with (token n). rewrite ro_archived, ro_new, ro_directory. cbn [mbind option_bind]. rewrite ro_capacity. cbn [negb].
  unfold bucket_has_active_shard. rewrite ro_bucket, ro_mint, Hc0, ro_clean, ro_lacks, ro_single, ro_advance.
  change (stx_mint tx) with (mint_of (mid ++ post)). rewrite Hmint, !bool_decide_true by (done || apply (pr_hash _ _ _ _ _ _ _ _ _ P)).
  cbn. by destruct (shard_is_within_capacity (MkShard _ _)).
Qed.

Lemma rollover_directory_accepted : Data_from dred = Ok (registry_redeemer_data (AdvanceDirectory (bucket_index b) h denom prev new)) ->
  spend policy directory_name voucher benchmark du (Some dred) tx = negb (shard_is_within_capacity overflow).
Proof.
  intros Hred. destruct (pr_du _ _ _ _ _ _ _ _ _ P) as (Hdu & Hdm & Hds). destruct (matches_spec _ _ _ Hdm) as [Hda _].
  destruct (prepared_hash h denom Hhash) as (Hlen & Hvh & _). destruct (prepared_admissible _ _ _ _ _ _ _ _ _ P Hhash) as [Hlim Hadm].
  destruct (bo_shards _ _ _ _ _ (pr_ok _ _ _ _ _ _ _ _ _ P) s0) as [Hi Hc0]; [left|].
  unfold spend, spend_trace_registry. unfold directory_of in Hds. destruct (registry_datum_of (located du)) as [[|x]|]; try done. injection Hds as ->.
  cbn [mbind option_bind]. rewrite Hred. cbn [as_registry_redeemer registry_redeemer_data mbind option_bind]. rewrite ?Hi.
  assert (valid_shard_name prev = true) as Hprev.
  { apply (bucket_capacity b); [|left]. eapply directory_capacity; [apply (pr_capacity _ _ _ _ _ _ _ _ _ P)|apply (pr_bucket _ _ _ _ _ _ _ _ _ P)]. }
  unfold validate_advance_directory.
  rewrite Hlen, Hlim, (ro_positive _ Hvalid), (ro_positive _ Hprev), Hda, ro_directory. cbn [Z.eqb Pos.eqb andb negb mbind option_bind].
  rewrite (pr_capacity _ _ _ _ _ _ _ _ _ P), ro_capacity. cbn [negb andb]. change (shard_unit policy ?n) with (token n).
  rewrite ro_archived, ro_new, Hadm, ro_bucket. cbn [negb mbind option_bind]. rewrite ro_mint, Hc0, ro_clean, ro_lacks, ro_single, ro_advance.
  change (stx_mint tx) with (mint_of (mid ++ post)). rewrite Hmint, !bool_decide_true by (done || apply (pr_hash _ _ _ _ _ _ _ _ _ P)).
  rewrite ?Hi, !Z.eqb_refl. change (directory_unit dir) with (token directory_name). unfold output_matches in Hdm. apply andb_true_iff in Hdm as [_ ->].
  cbn. by destruct (shard_is_within_capacity (MkShard _ _)).
Qed.

End rollover.

End accept.

(** ** The plans of the Gateway *)

(** The text of a byte string as the chain's data has it. *)
Definition lower_hex (s : string) : bool := bool_decide (hex_encode (hex_decode_prefix s) = s).
(** Data whose byte strings are such texts; [maps] says whether maps are allowed. *)
Fixpoint plain (maps : bool) (d : pdata) : bool :=
  match d with
  | PInt _ => true
  | PBytes h => lower_hex h
  | PList l | PConstr _ l => forallb (plain maps) l
  | PMap l => maps && forallb (fun kv => plain maps kv.1 && plain maps kv.2) l
  | PUndefined => false
  end.

(** Lucid reads byte strings as lower-case hexadecimal and reads back the data without
    maps it wrote.  Its default encoding of an out-ref is the one of [serialiseData]. *)
Class LucidReads {L : Lucid} : Prop := {
  reads_plain c x : Data_from c = Ok x -> plain true x = true;
  reads_written x c : plain false x = true -> Data_to true x = Ok c -> Data_from c = Ok x;
  writes_out_ref (r : out_ref) : lower_hex r.1 = true -> 0 <= r.2 ->
    Data_to false (PConstr 0 [PBytes r.1; PInt r.2]) = Ok (hex_encode (serialise (PConstr 0 [PBytes r.1; PInt r.2])));
}.

Lemma lower_hex_encode b : lower_hex (hex_encode b) = true.
Proof. unfold lower_hex. rewrite hex_decode_encode. by apply bool_decide_eq_true. Qed.
Lemma lower_convert s : lower_hex (convertString2Hex s) = true.
Proof. unfold convertString2Hex. case_decide; [done|apply lower_hex_encode]. Qed.
Lemma lower_voucher_hash `{BL : Blake2b} denom : lower_hex (buildVoucherDenomHashFromFullDenom denom) = true.
Proof. unfold buildVoucherDenomHashFromFullDenom. rewrite toLowerCase_hex. apply lower_hex_encode. Qed.

Lemma plain_entries es : forallb (fun e => lower_hex (voucher_hash e)) es = true -> forallb (plain false) (encodeEntry <$> es) = true.
Proof.
  induction es as [|e es IH]; [done|]. rewrite fmap_cons. cbn [forallb]. intros [He Hes]%andb_true_iff. rewrite IH by done.
  cbn [plain encodeEntry forallb]. by rewrite He, lower_convert.
Qed.
Lemma plain_shard s : forallb (fun e => lower_hex (voucher_hash e)) (entries s) = true -> plain false (registry_datum_data (Shard s)) = true.
Proof. intros H. cbn [registry_datum_data plain forallb encodeShardDatum]. by rewrite plain_entries. Qed.
Lemma plain_directory (d : TraceRegistryDirectoryDatum) : (forall b n, b ∈ d -> n ∈ shard_names b -> lower_hex n = true) ->
  plain false (registry_datum_data (Directory d)) = true.
Proof.
  intros H. cbn [registry_datum_data plain forallb encodeDirectoryDatum]. rewrite !andb_true_r. apply forallb_forall.
  intros x (b & -> & Hb)%list_elem_of_In%list_elem_of_fmap. cbn [plain forallb encodeDirectoryBucket]. rewrite (H b) by (done || left). cbn. rewrite andb_true_r.
  apply forallb_forall. intros y (n & -> & Hn)%list_elem_of_In%list_elem_of_fmap. cbn. apply (H b); [done|by right].
Qed.

Section written.
Context `{LR : LucidReads}.

Lemma shard_lower o s : shard_of o = Some s -> forallb (fun e => lower_hex (e_hash e)) (s_entries s) = true.
Proof.
  unfold shard_of, registry_datum_of. destruct (out_datum o) as [c|]; [|done]. cbn [mbind option_bind]. destruct (Data_from c) as [x|] eqn:E; [|done].
  apply reads_plain in E. destruct x as [[|[]|] [|y [|]]| | | | |]; try done; cbn; [|by destruct (as_directory y)]. destruct (as_shard y) as [s'|] eqn:Es; [|done]. cbn. intros [= ->].
  destruct y as [[] [|[] [|[] [|]]]| | | | |]; try done. cbn in Es, E. destruct (mapM as_entry _) as [es|] eqn:Em; [|done]. injection Es as <-. cbn [s_entries].
  rewrite !andb_true_r in E. clear -E Em. apply mapM_Some in Em. induction Em as [|y e l es He Em IH]; [done|]. cbn [forallb] in *. apply andb_true_iff in E as [Hy E].
  rewrite (IH E). destruct y as [[] [|[] [|[] [|]]]| | | | |]; try done. injection He as <-. cbn in Hy |- *. by apply andb_true_iff in Hy as [-> _].
Qed.

Lemma names_plain l names : all_strings l = Some names -> forallb (plain true) l = true -> forall n, n ∈ names -> lower_hex n = true.
Proof.
  revert names. induction l as [|x l IH]; intros names; [intros [= <-] _ n Hn; by apply not_elem_of_nil in Hn|]. destruct x; try done. cbn.
  destruct (all_strings l) as [k|]; [|done]. intros [= <-] [Hx Hl]%andb_true_iff n [->|Hn]%elem_of_cons; [done|]. by eapply IH.
Qed.
Lemma directory_lower o d : directory_of o = Some d -> forall b n, b ∈ d -> n ∈ shard_names b -> lower_hex n = true.
Proof.
  unfold directory_of, registry_datum_of. destruct (out_datum o) as [c|]; [|done]. cbn [mbind option_bind]. destruct (Data_from c) as [x|] eqn:E; [|done].
  apply reads_plain in E. destruct x as [[|[]|] [|y [|]]| | | | |]; try done; cbn; [by destruct (as_shard y)|]. destruct (as_directory y) as [d'|] eqn:Ed; [|done]. cbn. intros [= ->].
  destruct y as [[] [|[] [|]]| | | | |]; try done. cbn in Ed, E. rewrite !andb_true_r in E. apply mapM_Some in Ed. intros b n Hb Hn.
  apply list_elem_of_lookup in Hb as [k Hk]. destruct (Forall2_lookup_r _ _ _ _ _ Ed Hk) as (y & Hy & Eb). rewrite forallb_forall in E.
  apply list_elem_of_lookup_2, list_elem_of_In, E in Hy. destruct y as [[] [|[] [|[] [|[] [|]]]]| | | | |]; try done. cbn in Eb.
  destruct (all_strings _) as [names|] eqn:En; [|done]. injection Eb as <-. cbn in Hy. rewrite !andb_true_r, andb_true_iff in Hy. destruct Hy as [Ha Hr].
  apply elem_of_cons in Hn as [->|Hn]; [done|]. by eapply names_plain.
Qed.

Lemma reads_back_plain x : plain false x = true -> reads_back x.
Proof. intros H c. by apply reads_written. Qed.

End written.

(** ** The size that the Gateway measures *)

(** Deterministic CBOR (RFC 8949, 4.2): definite lengths everywhere. *)
Fixpoint canonical (d : pdata) : bytes :=
  match d with
  | PInt z => serialise_int z
  | PBytes h => cbor_head 2 (N.of_nat (length (raw h))) ++ raw h
  | PList l => cbor_head 4 (N.of_nat (length l)) ++ mjoin (canonical <$> l)
  | PConstr i l =>
      let fields := cbor_head 4 (N.of_nat (length l)) ++ mjoin (canonical <$> l) in
      if (0 <=? i) && (i <? 7) then cbor_head 6 (Z.to_N (121 + i)) ++ fields
      else if (7 <=? i) && (i <? 128) then cbor_head 6 (Z.to_N (1280 + (i - 7))) ++ fields
      else cbor_head 6 102 ++ cbor_head 4 2 ++ serialise_int i ++ fields
  | PMap l => cbor_head 5 (N.of_nat (length l)) ++ mjoin ((fun kv => canonical kv.1 ++ canonical kv.2) <$> l)
  | PUndefined => []
  end.

(** The byte strings of the data that need no chunks. *)
Fixpoint unchunked (d : pdata) : bool :=
  match d with
  | PBytes h => (length (raw h) <=? 64)%nat
  | PList l | PConstr _ l => forallb unchunked l
  | _ => true
  end.

(** Lucid's [canonical: true]. *)
Class LucidCanonical {L : Lucid} : Prop :=
  writes_canonical x c : plain false x = true -> unchunked x = true -> Data_to true x = Ok c -> c = hex_encode (canonical x).

Definition short_entry (e : registry_entry) : Prop := (length (raw (e_hash e)) <= 64 /\ length (raw (e_denom e)) <= 64)%nat.

(** What indefinite lengths cost: one byte per constructor and per short list. *)
Definition framing (n : Z) : Z := 2 + n + if n <? 24 then 1 else 0.

Lemma entry_canonical e : short_entry e -> blen (serialise (entry_data e)) = blen (canonical (entry_data e)) + 1.
Proof.
  intros [H1%Nat.leb_le H2%Nat.leb_le]. unfold entry_data. rewrite blen_constr, blen_list by lia. cbn [fmap list_fmap sum_blen foldr serialise].
  unfold serialise_bytes. rewrite H1, H2. cbn [canonical fmap list_fmap mjoin list_join length andb Z.leb Z.ltb Z.compare Pos.compare Pos.compare_cont].
  apply Nat.leb_le in H1, H2. rewrite !blen_app, !blen_head by lia. change (blen []) with 0.
  change (N.of_nat 2 <? 24)%N with true. change (Z.to_N (121 + 0) <? 24)%N with false. cbv iota. lia.
Qed.

Lemma entries_canonical es : Forall short_entry es ->
  sum_blen (serialise <$> (entry_data <$> es)) = blen (mjoin (canonical <$> (entry_data <$> es))) + count es.
Proof.
  induction 1 as [|e es He _ IH]; [done|]. rewrite !fmap_cons, sum_blen_cons. change (mjoin (?x :: ?l)) with (x ++ mjoin l). rewrite blen_app, IH, entry_canonical by done.
  unfold count. cbn [length]. lia.
Qed.

Lemma shard_canonical s : 0 <= s_bucket_index s < 24 -> s_entries s <> [] -> count (s_entries s) < 256 -> Forall short_entry (s_entries s) ->
  blen (serialise (PConstr 0 [shard_data s])) = blen (canonical (PConstr 0 [shard_data s])) + framing (count (s_entries s)).
Proof.
  intros Hi Hne Hn Hs. pose proof (entries_canonical _ Hs) as He. unfold shard_data, framing. rewrite blen_constr by lia. cbn [fmap list_fmap]. rewrite blen_one, blen_constr, blen_list by lia.
  cbn [fmap list_fmap sum_blen foldr]. change (serialise (PInt ?z)) with (serialise_int z).
  change (serialise (PList (entry_data <$> s_entries s))) with (serialise_list (serialise <$> (entry_data <$> s_entries s))).
  cbn [canonical fmap list_fmap mjoin list_join length andb Z.leb Z.ltb Z.compare Pos.compare Pos.compare_cont]. change (list_fmap ?A ?B ?f ?l) with (f <$> l).
  rewrite blen_list, !blen_app, !blen_head by (rewrite ?length_fmap; unfold count in Hn; cbn; lia). rewrite length_fmap. change (blen []) with 0.
  destruct (serialise <$> (entry_data <$> s_entries s)) as [|x l] eqn:E; [by destruct (s_entries s)|]. rewrite <- E in *. rewrite He. unfold count.
  change (N.of_nat 1 <? 24)%N with true. change (N.of_nat 2 <? 24)%N with true. change (Z.to_N (121 + 0) <? 24)%N with false. cbv iota.
  destruct (N.ltb_spec (N.of_nat (length (s_entries s))) 24), (Z.ltb_spec (Z.of_nat (length (s_entries s))) 24); lia.
Qed.

Section claims.
Context `{L : Lucid} `{LR : !LucidReads} `{BL : Blake2b} `{BO : !Blake2bOk} `{SHA : Sha256} `{S3 : Sha3} `{RE : RegistryEnv} `{UA : UtxoAddress} `{AC : AssemblyConfig}.
Context (A policy directory_name voucher benchmark : string) (G0 G : ledger).

(** The registry in its deployment: a policy id is 28 bytes, an output has one quantity
    per unit, and the reference scripts live elsewhere. *)
Record deployed : Prop := {
  dp_policy : str_length policy = 56%nat;
  dp_assets u : u ∈ live G -> map_wf (assets u);
  dp_address : traceRegistryAddress = Some A;
  dp_script u : rs_spendTraceRegistry = Some u -> utxo_address u <> A;
  dp_identifier : utxo_address rs_mintIdentifier <> A;
}.

#[local] Abbreviation holds := (holds A policy).
#[local] Abbreviation hash denom := (buildVoucherDenomHashFromFullDenom denom).
#[local] Abbreviation with_entry s denom := (MkShard (s_bucket_index s) (s_entries s ++ [MkEntry (hash denom) (convertString2Hex denom)])).

Lemma hash_lower denom : toLowerCase (hash denom) = hash denom.
Proof. unfold buildVoucherDenomHashFromFullDenom. by rewrite !toLowerCase_hex. Qed.

Lemma plan_entries_text denom du d b s0 sa su arch : registry_ok A policy directory_name G -> prepared A policy directory_name G (hash denom) denom du d b s0 sa su arch ->
  (forall e, registered A policy directory_name G e -> text_entry e) -> Forall text_entry (s_entries s0).
Proof.
  intros OK P Ht. apply Forall_forall. intros e He. apply Ht. exists d, b, (active_shard_name b), s0.
  split_and!; [by eapply prepared_directory_at|apply (pr_bucket _ _ _ _ _ _ _ _ _ _ _ _ _ P)|left|exists su; apply (pr_su _ _ _ _ _ _ _ _ _ _ _ _ _ P)|done].
Qed.

Lemma append_reads denom s : forallb (fun e => lower_hex (e_hash e)) (s_entries s) = true ->
  forallb (fun e => lower_hex (voucher_hash e)) (entries (appended (hash denom) denom s)) = true.
Proof.
  intros H. cbn [entries appended]. rewrite forallb_app. cbn [forallb voucher_hash]. rewrite lower_voucher_hash, andb_true_r.
  rewrite forallb_forall in *. intros x (e & -> & He)%list_elem_of_In%list_elem_of_fmap. cbn. apply H. by apply list_elem_of_In.
Qed.
Lemma view_reads s : forallb (fun e => lower_hex (e_hash e)) (s_entries s) = true -> forallb (fun e => lower_hex (voucher_hash e)) (entries (view_shard s)) = true.
Proof. cbn [entries view_shard]. rewrite !forallb_forall. intros H x (e & -> & He)%list_elem_of_In%list_elem_of_fmap. cbn. apply H. by apply list_elem_of_In. Qed.

(** C17 (refinement): On every ledger the registry's validators can lead to, where the
    registered denominations are valid text (as the Gateway reads them), the transaction
    the Gateway builds from an append plan, among calls that stay away from the registry
    and mint the voucher, satisfies every check of the validator of the shard it spends,
    except one: the script accepts exactly when the shard with the new entry is within
    capacity by the size that the script measures. *)
Theorem registry_append_accepted denom du su arch red dat pre mid post :
  registry_ok A policy directory_name G0 -> ledger_steps A policy directory_name voucher benchmark G0 G -> provider_ok A policy directory_name G -> deployed ->
  (forall e, registered A policy directory_name G e -> text_entry e) ->
  prepareOnChainInsert (hash denom) denom false = Ok (TraceAppend du su arch red dat) ->
  applyTraceRegistryUpdate (Some (TraceAppend du su arch red dat)) pre = Ok mid -> quiet A policy pre -> quiet A policy post ->
  matching_voucher_mint_present voucher benchmark (mint_of (mid ++ post)) (hash denom) = true ->
  exists name s, holds G name s /\ shard_of (located su) = Some s /\
    spend policy directory_name voucher benchmark su (Some red) (script_tx (mid ++ post)) = shard_is_within_capacity (with_entry s denom).
Proof.
  intros H0 Hs PO DP Ht Hp Hmid Qpre Qpost Hm. destruct (reachable_ok _ _ _ _ _ _ _ H0 Hs) as [OK _].
  destruct (prepare_new A policy directory_name G OK PO _ _ _ _ Hp) as (du' & d & b & s0 & sa & l0 & arch' & fits & P & Hl & _ & Hplan); [done|].
  rewrite hash_lower in P, Hplan. destruct fits; [destruct Hplan as [_ Hplan]|by unfold rollover_plan in Hplan; case_match; [done|]; repeat (apply bind_ok in Hplan as (? & _ & Hplan))].
  unfold append_plan in Hplan. apply bind_ok in Hplan as (red' & Hred & Hplan). apply bind_ok in Hplan as (dat' & Hdat & [= -> <- -> -> ->]).
  destruct (pr_su _ _ _ _ _ _ _ _ _ _ _ _ _ P) as (Hsu & Hsm & Hss). exists (active_shard_name b), s0. split_and!; [by exists (ls_utxo l0)|done|].
  pose proof (shard_lower _ _ Hss) as Hlow.
  eapply append_accepted; try (exact P || eassumption || done); first [apply (dp_policy DP)|apply (dp_assets DP)|apply (dp_address DP)|apply (dp_identifier DP)|apply (dp_script DP)|by eapply plan_entries_text|idtac].
  - apply reads_back_plain. cbn [registry_redeemer_data plain forallb]. by rewrite lower_voucher_hash, lower_convert.
  - by apply reads_back_plain, plain_shard, append_reads.
Qed.

Lemma nonce_identifier `{S3O : !Sha3Ok} u name : lower_hex (txHash u) = true -> 0 <= outputIndex u -> generateIdentifierTokenName u = Ok name ->
  name = identifier (ref_of u) /\ valid_shard_name name = true.
Proof.
  intros Hx Hi. unfold generateIdentifierTokenName, encodeIdentifierMintRedeemer. change (txHash u) with (ref_of u).1 in *. change (outputIndex u) with (ref_of u).2 in *.
  rewrite writes_out_ref by done. cbn [fmap result_fmap]. intros [= <-]. unfold hashSha3_256, identifier. rewrite hex_decode_encode. split; [done|].
  unfold valid_shard_name. rewrite hex_decode_encode. unfold blen. by rewrite sha3_length.
Qed.

(** An identifier that no spent out-ref has names no token. *)
Lemma identifier_fresh nonce : registry_ok A policy directory_name G -> nonce ∈ live G ->
  (forall r, r ∈ retired G -> identifier r = identifier (ref_of nonce) -> r = ref_of nonce) ->
  forall u, u ∈ live G -> amount (assets u) (unit_of policy (identifier (ref_of nonce))) = 0.
Proof.
  intros OK Hn Hc u Hu. pose proof (ro_ledger _ _ _ _ OK) as LO. pose proof (lo_positive _ _ LO u (unit_of policy (identifier (ref_of nonce))) Hu) as Hp.
  destruct (decide (amount (assets u) (unit_of policy (identifier (ref_of nonce))) = 0)) as [|Hne]; [done|exfalso].
  destruct (lo_minted _ _ LO (identifier (ref_of nonce))) as (r & Hr & E).
  { pose proof (held_member (unit_of policy (identifier (ref_of nonce))) _ u (fun v Hv => lo_positive _ _ LO v _ Hv) Hu). lia. }
  apply (lo_retired _ _ LO nonce Hn). by rewrite <- (Hc r).
Qed.

Lemma rollover_parts denom du su arch nonce dred ddat red adat ndat unit mred d b i l0 du' arch' :
  rollover_plan (MkTraceRegistryConfig A policy (Some (MkAuthToken policy directory_name)), MkAuthToken policy directory_name) du' d b i l0 arch' (hash denom) denom =
    Ok (TraceRollover du su arch nonce dred ddat red adat ndat unit mred) ->
  exists new, [du; su] = [du'; ls_utxo l0] /\ arch = arch' /\ count (archived_shard_names b) < 8 /\ generateIdentifierTokenName nonce = Ok new /\ unit = unit_of policy new /\
    encodeTraceRegistryDatum (Directory (advance_bucket i new <$> d)) = Ok ddat /\ encodeTraceRegistryDatum (Shard (ls_datum l0)) = Ok adat /\
    encodeTraceRegistryDatum (Shard (MkTraceRegistryShardDatum i [MkTraceRegistryEntry (hash denom) denom])) = Ok ndat /\
    encodeTraceRegistryRedeemer (AdvanceDirectory i (hash denom) denom (active_shard_name b) new) = Ok dred /\
    encodeTraceRegistryRedeemer (RolloverInsertTrace (hash denom) denom new) = Ok red.
Proof.
  unfold rollover_plan. destruct (Z.leb_spec maxArchivedShardsPerBucket (count (archived_shard_names b))); [done|]. intros Hp.
  apply bind_ok in Hp as (n & _ & Hp). apply bind_ok in Hp as (new & Hnew & Hp). cbv zeta in Hp.
  do 2 apply bind_ok in Hp as ([] & _ & Hp). apply bind_ok in Hp as (x1 & H1 & Hp). apply bind_ok in Hp as (x2 & H2 & Hp). apply bind_ok in Hp as (x3 & H3 & Hp).
  apply bind_ok in Hp as (x4 & H4 & Hp). apply bind_ok in Hp as (x5 & H5 & Hp). apply bind_ok in Hp as (x6 & H6 & Hp).
  injection Hp as -> -> -> -> -> -> -> -> -> <- ->. exists new. unfold maxArchivedShardsPerBucket in *. by split_and!.
Qed.

Lemma advanced_lower (d : TraceRegistryDirectoryDatum) i new : (forall b n, b ∈ d -> n ∈ shard_names b -> lower_hex n = true) -> lower_hex new = true ->
  forall b n, b ∈ (advance_bucket i new <$> d) -> n ∈ shard_names b -> lower_hex n = true.
Proof.
  intros H Hnew b n (c & -> & Hc)%list_elem_of_fmap. unfold advance_bucket. destruct (_ =? _); [|by apply H]. unfold shard_names at 1. cbn [active_shard_name archived_shard_names].
  rewrite elem_of_cons, elem_of_app, list_elem_of_singleton. intros [->|[Hn| ->]]; [done| |]; apply (H c); [done|by right|done|left].
Qed.

Lemma rollover_mint du su arch nonce dred ddat red adat ndat new mred pre mid post : traceRegistryAddress = Some A -> A <> "" ->
  applyTraceRegistryUpdate (Some (TraceRollover du su arch nonce dred ddat red adat ndat (unit_of policy new) mred)) pre = Ok mid ->
  quiet A policy pre -> quiet A policy post -> nonce ∈ (stx_inputs (script_tx (mid ++ post))).*1 /\
  forall name, mint_of (mid ++ post) (unit_of policy name) = if decide (name = new) then 1 else 0.
Proof.
  intros Ha Hne Hmid Qpre Qpost. unfold applyTraceRegistryUpdate in Hmid. rewrite Ha in Hmid. unfold present in Hmid. destruct A as [|c A'] eqn:EA; [done|].
  destruct rs_spendTraceRegistry as [script|]; [|done]. injection Hmid as <-. unfold payToContract, collectFrom, collectPlain, mintAssets, readFrom. rewrite <- !app_assoc. split.
  - cbn [stx_inputs script_tx]. unfold spent. rewrite bind_app, fmap_app, elem_of_app. right. cbn. do 2 right. left.
  - intros name. rewrite !mint_of_app, (quiet_mint _ policy pre _ Qpre), (quiet_mint _ policy post _ Qpost). unfold mint_of, minted, amount. cbn.
    destruct (decide (unit_of policy new = unit_of policy name)) as [E|E].
    + apply token_inj in E as ->. by rewrite decide_True.
    + rewrite decide_False; [done|]. by intros ->.
Qed.

(** C18 (refinement): On every ledger the registry's validators can lead to, where the
    registered denominations are valid text (as the Gateway reads them), the transaction
    the Gateway builds from a rollover plan, among calls that stay away from the
    registry and mint the voucher, spends the nonce and mints exactly the identifier of
    the nonce, as the minting policy asks; and the scripts of the shard and of the
    directory both accept it exactly when the old shard with the new entry would be over
    capacity by the size they measure. *)
Theorem registry_rollover_accepted `{S3O : !Sha3Ok} denom force du su arch nonce dred ddat red adat ndat unit mred pre mid post :
  registry_ok A policy directory_name G0 -> ledger_steps A policy directory_name voucher benchmark G0 G -> provider_ok A policy directory_name G -> deployed ->
  (forall e, registered A policy directory_name G e -> text_entry e) ->
  prepareOnChainInsert (hash denom) denom force = Ok (TraceRollover du su arch nonce dred ddat red adat ndat unit mred) ->
  nonce ∈ live G -> utxo_address nonce <> A -> lower_hex (txHash nonce) = true -> 0 <= outputIndex nonce ->
  (forall r, r ∈ retired G -> identifier r = identifier (ref_of nonce) -> r = ref_of nonce) ->
  applyTraceRegistryUpdate (Some (TraceRollover du su arch nonce dred ddat red adat ndat unit mred)) pre = Ok mid -> quiet A policy pre -> quiet A policy post ->
  matching_voucher_mint_present voucher benchmark (mint_of (mid ++ post)) (hash denom) = true ->
  let tx := script_tx (mid ++ post) in
  nonce ∈ (stx_inputs tx).*1 /\ mint_identifier policy (ref_of nonce) (stx_mint tx) /\
  exists name s, holds G name s /\ shard_of (located su) = Some s /\
    spend policy directory_name voucher benchmark su (Some red) tx = negb (shard_is_within_capacity (with_entry s denom)) /\
    spend policy directory_name voucher benchmark du (Some dred) tx = negb (shard_is_within_capacity (with_entry s denom)).
Proof.
  intros H0 Hs PO DP Ht Hp Hn Hna Hnx Hni Hnc Hmid Qpre Qpost Hm tx. destruct (reachable_ok _ _ _ _ _ _ _ H0 Hs) as [OK _].
  destruct (prepare_new A policy directory_name G OK PO _ _ _ _ Hp) as (du' & d & b & s0 & sa & l0 & arch' & fits & P & Hl & _ & Hplan); [done|].
  rewrite hash_lower in P, Hplan.
  destruct fits; [by destruct Hplan as [_ Hplan]; unfold append_plan in Hplan; do 2 apply bind_ok in Hplan as (? & _ & Hplan)|].
  destruct (rollover_parts _ _ _ _ _ _ _ _ _ _ _ _ _ _ _ _ _ _ Hplan) as (new & [= -> ->] & -> & Hroom & Hnew & -> & Hddat & Hadat & Hndat & Hdred & Hred).
  destruct (nonce_identifier _ _ Hnx Hni Hnew) as [-> Hvalid].
  destruct (rollover_mint _ _ _ _ _ _ _ _ _ _ _ _ _ _ (dp_address DP) (po_address _ _ _ _ PO) Hmid Qpre Qpost) as [Hspent Hmints].
  destruct (pr_su _ _ _ _ _ _ _ _ _ _ _ _ _ P) as (Hsu & Hsm & Hss). destruct (pr_du _ _ _ _ _ _ _ _ _ _ _ _ _ P) as (Hdu & Hdm & Hds).
  pose proof (shard_lower _ _ Hss) as Hlow. pose proof (directory_lower _ _ Hds) as Hnames. assert (lower_hex (identifier (ref_of nonce)) = true) as Hnl by apply lower_hex_encode.
  assert (lower_hex (active_shard_name b) = true) as Hal by (apply (Hnames b); [apply (pr_bucket _ _ _ _ _ _ _ _ _ _ _ _ _ P)|left]).
  pose proof (reads_back_plain _ (plain_directory _ (advanced_lower d (bucket_index b) _ Hnames Hnl))) as Bd.
  pose proof (reads_back_plain _ (plain_shard _ (view_reads _ Hlow))) as Ba. rewrite Hl in Hadat.
  assert (reads_back (registry_datum_data (Shard (MkTraceRegistryShardDatum (bucket_index b) [MkTraceRegistryEntry (hash denom) denom])))) as Bn.
  { apply reads_back_plain, plain_shard. cbn. by rewrite lower_voucher_hash. }
  assert (Data_from red = Ok (registry_redeemer_data (RolloverInsertTrace (hash denom) denom (identifier (ref_of nonce))))) as Rr.
  { eapply reads_written, Hred. cbn. by rewrite lower_voucher_hash, lower_convert, Hnl. }
  assert (Data_from dred = Ok (registry_redeemer_data (AdvanceDirectory (bucket_index b) (hash denom) denom (active_shard_name b) (identifier (ref_of nonce))))) as Rd.
  { eapply reads_written, Hdred. cbn. by rewrite lower_voucher_hash, lower_convert, Hal, Hnl. }
  pose proof (plan_entries_text _ _ _ _ _ _ _ _ OK P Ht) as Htx. pose proof (identifier_fresh nonce OK Hn Hnc) as Hfresh. destruct DP as [D1 D2 D3 D4 D5].
  split_and!; [done|exact Hmints|]. exists (active_shard_name b), s0. split_and!; [by exists (ls_utxo l0)|done|..].
  - eapply rollover_shard_accepted; first [exact P|exact Hmid|eassumption|done].
  - eapply rollover_directory_accepted; first [exact P|exact Hmid|eassumption|done].
Qed.

(** One call that two runs share. *)
Ltac shared Hp := let x := fresh "x" in let E := fresh in apply bind_ok in Hp as (x & E & Hp); rewrite E; clear E; cbn [mbind result_bind].

Lemma forced_append denom du su arch red dat : prepareOnChainInsert (hash denom) denom false = Ok (TraceAppend du su arch red dat) ->
  prepareOnChainInsert (hash denom) denom true = throw rollover_too_early.
Proof.
  unfold prepareOnChainInsert. intros Hp. shared Hp. shared Hp. destruct x0 as [u d]. shared Hp. destruct x0 as [e|]; [case_decide; [done|]; by apply bind_ok in Hp as (w & _ & Hp)|].
  unfold insert_new in *. do 5 shared Hp. destruct (List.find _ _) as [l0|]; [|done]. shared Hp. cbv zeta in *. shared Hp. destruct x6; [done|].
  unfold rollover_plan in Hp. case_match; [done|]. cbv zeta in Hp. repeat (apply bind_ok in Hp as (? & _ & Hp)). done.
Qed.

(** The datum of an append plan is the shard with the new entry. *)
Lemma appended_data denom s : Forall text_entry (s_entries s) -> registry_datum_data (Shard (appended (hash denom) denom s)) = PConstr 0 [shard_data (with_entry s denom)].
Proof.
  intros Ht. pose proof (appended_back (hash denom) denom s Ht) as E. cbn [registry_datum_data encodeShardDatum appended shard_bucket_index]. unfold shard_data. cbn [s_bucket_index s_entries].
  rewrite <- E, <- list_fmap_compose. done.
Qed.

Lemma short_unchunked s : Forall short_entry (s_entries s) -> unchunked (PConstr 0 [shard_data s]) = true.
Proof.
  intros Hs. cbn [unchunked forallb shard_data]. rewrite !andb_true_r. apply forallb_forall. intros x (e & -> & He)%list_elem_of_In%list_elem_of_fmap.
  rewrite Forall_forall in Hs. destruct (Hs e He) as [H1%Nat.leb_le H2%Nat.leb_le]. cbn [unchunked forallb entry_data]. by rewrite H1, H2.
Qed.

(** C40 (error): The Gateway measures a shard in its canonical encoding, which is
    shorter than the one the script measures by the framing of lists of indefinite
    length.  So when it plans an append and the measured size is within that framing of
    the limit, no transaction whatever makes the script of the shard accept the planned
    redeemer; and a rollover cannot be forced either, since the same measure says there
    is room: the denomination cannot be registered.  (Stated for denominations that are
    valid text of at most 64 bytes, which need no chunks.) *)
Theorem registry_capacity_gap `{LC : !LucidCanonical} denom du su arch red dat s :
  registry_ok A policy directory_name G0 -> ledger_steps A policy directory_name voucher benchmark G0 G -> provider_ok A policy directory_name G ->
  (forall e, registered A policy directory_name G e -> text_entry e) ->
  prepareOnChainInsert (hash denom) denom false = Ok (TraceAppend du su arch red dat) ->
  shard_of (located su) = Some s -> Forall short_entry (s_entries (with_entry s denom)) ->
  maxShardDatumBytes < encoded_size dat + framing (count (s_entries s) + 1) ->
  encoded_size dat <= maxShardDatumBytes /\
  (forall tx, spend policy directory_name voucher benchmark su (Some red) tx = false) /\
  prepareOnChainInsert (hash denom) denom true = throw rollover_too_early.
Proof.
  intros H0 Hs PO Ht Hp Hss Hshort Hgap. destruct (reachable_ok _ _ _ _ _ _ _ H0 Hs) as [OK _].
  destruct (prepare_new A policy directory_name G OK PO _ _ _ _ Hp) as (du' & d & b & s0 & sa & l0 & arch' & fits & P & Hl & Hfits & Hplan); [done|].
  rewrite hash_lower in P, Hplan, Hfits. destruct fits; [destruct Hplan as [_ Hplan]|by unfold rollover_plan in Hplan; case_match; [done|]; repeat (apply bind_ok in Hplan as (? & _ & Hplan))].
  unfold append_plan in Hplan. apply bind_ok in Hplan as (red' & Hred & Hplan). apply bind_ok in Hplan as (dat' & Hdat & [= -> <- -> -> ->]).
  destruct (pr_su _ _ _ _ _ _ _ _ _ _ _ _ _ P) as (Hsu & Hsm & Hss'). rewrite Hss in Hss'. injection Hss' as <-.
  pose proof (plan_entries_text _ _ _ _ _ _ _ _ OK P Ht) as Htx. pose proof (shard_lower _ _ Hss) as Hlow.
  destruct (bo_shards _ _ _ _ _ (pr_ok _ _ _ _ _ _ _ _ _ _ _ _ _ P) s) as [Hi Hc0]; [left|]. destruct (prepared_names _ _ _ _ _ _ _ _ _ _ _ _ _ P) as (_ & Hir & _).
  unfold shardFitsCapacity, measureShardDatumBytes in Hfits. rewrite Hdat in Hfits. cbn [fmap result_fmap mbind result_bind] in Hfits.
  destruct (Z.leb_spec (count (entries (appended (hash denom) denom s))) maxEntriesPerShard) as [Hn|]; [|done]. injection Hfits as Hfits%Z.leb_le.
  cbn [entries appended] in Hn. unfold count, maxEntriesPerShard in Hn. rewrite length_app, length_fmap in Hn. cbn [length] in Hn.
  assert (shard_is_within_capacity (with_entry s denom) = false) as Hover.
  { unfold shard_is_within_capacity. apply andb_false_iff. right. apply Z.leb_gt. rewrite shard_canonical by (cbn [s_entries s_bucket_index]; unfold count; rewrite ?length_app; cbn; first [done|lia|by destruct (s_entries s)]).
    pose proof (writes_canonical _ _ (plain_shard _ (append_reads denom s Hlow)) ltac:(rewrite appended_data by done; by apply short_unchunked) Hdat) as Ed.
    rewrite appended_data in Ed by done. rewrite Ed in Hgap. unfold encoded_size in Hgap. rewrite length_hex_encode, Nat2Z.inj_mul, Z.div_mul in Hgap by done. cbn [s_entries]. unfold count in *. rewrite length_app. cbn [length].
    unfold blen. replace (Z.of_nat (length (s_entries s) + 1)) with (Z.of_nat (length (s_entries s)) + 1) by lia. lia. }
  split_and!; [done| |by eapply forced_append].
  intros tx. destruct (spend _ _ _ _ _ _ _) eqn:E; [exfalso|done]. rewrite (spend_insert policy directory_name voucher benchmark _ s red (hash denom) (convertString2Hex denom) tx Hss) in E.
  2:{ eapply reads_written, Hred. cbn. by rewrite lower_voucher_hash, lower_convert. }
  apply insert_inv in E as (name & d' & b' & s' & I). pose proof (ia_capacity _ _ _ _ _ _ _ _ _ _ _ I) as Hc. rewrite <- not_true_iff_false in Hover. apply Hover. rewrite <- Hc. f_equal.
  destruct s' as [i' es']. pose proof (ia_index _ _ _ _ _ _ _ _ _ _ _ I) as Ei. pose proof (ia_entries _ _ _ _ _ _ _ _ _ _ _ I) as Ee. cbn in Ei, Ee. by subst.
Qed.

End claims.

(** ** A concrete registry

    Lucid by the canonical encoder and a decoder of what it writes, checked on every
    encoding; toy hashes; a directory of one bucket. *)

Fixpoint same_plutus (x y : pdata) : bool :=
  let all := (fix all l k := match l, k with
                             | [], [] => true
                             | a :: l', b :: k' => same_plutus a b && all l' k'
                             | _, _ => false
                             end) in
  match x, y with
  | PInt a, PInt b => a =? b
  | PBytes a, PBytes b => bool_decide (a = b)
  | PList l, PList k => all l k
  | PConstr i l, PConstr j k => (i =? j) && all l k
  | _, _ => false
  end.

Lemma same_plutus_sound : forall x y, same_plutus x y = true -> x = y.
Proof.
  fix IH 1. intros x y. assert (forall l k, (fix all l k := match l, k with [], [] => true | a :: l', b :: k' => same_plutus a b && all l' k' | _, _ => false end) l k = true ->
    (forall a, a ∈ l -> forall b, same_plutus a b = true -> a = b) -> l = k) as Hall.
  { clear. induction l as [|a l IHl]; intros [|b k]; try done. intros [H1 H2]%andb_true_iff Hin. f_equal; [apply Hin; [left|done]|]. apply IHl; [done|]. intros c Hc. apply Hin. by right. }
  assert (forall l : list pdata, (fix F l := match l with [] => True | a :: l' => (forall b, same_plutus a b = true -> a = b) /\ F l' end) l -> forall a, a ∈ l -> forall b, same_plutus a b = true -> a = b) as Hin.
  { clear. induction l as [|a l IHl]; [intros _ a Ha; by apply not_elem_of_nil in Ha|]. intros [H1 H2] c [->|Hc]%elem_of_cons; [done|by apply IHl]. }
  destruct x as [i l|l|l|z|h|], y as [j k|k|k|w|g|]; try done; cbn [same_plutus].
  - intros [->%Z.eqb_eq H]%andb_true_iff. f_equal. apply (Hall _ _ H), Hin. clear -IH. induction l as [|a l IHl]; [exact I|]. split; [exact (IH a)|exact IHl].
  - intros H. f_equal. apply (Hall _ _ H), Hin. clear -IH. induction l as [|a l IHl]; [exact I|]. split; [exact (IH a)|exact IHl].
  - by intros ->%Z.eqb_eq.
  - by intros ->%bool_decide_eq_true.
Qed.

(** The head of an item: major type, argument, what follows. *)
Definition cbor_read_head (l : bytes) : option (N * N * bytes) :=
  match l with
  | [] => None
  | b :: r =>
      let major := (Byte.to_N b / 32)%N in let low := (Byte.to_N b mod 32)%N in
      let wide k := Some (major, be_to_N (take k r), drop k r) in
      if (low <? 24)%N then Some (major, low, r)
      else match low with 24%N => wide 1%nat | 25%N => wide 2%nat | 26%N => wide 4%nat | 27%N => wide 8%nat | _ => None end
  end.
Fixpoint cbor_read (fuel : nat) (l : bytes) : option (pdata * bytes) :=
  match fuel with
  | O => None
  | S fuel' =>
      let many := (fix many n l := match n with
                                   | O => Some ([], l)
                                   | S n' => '(x, r) ← cbor_read fuel' l; '(xs, r') ← many n' r; Some (x :: xs, r')
                                   end) in
      '(major, n, r) ← cbor_read_head l;
      match major with
      | 0%N => Some (PInt (Z.of_N n), r)
      | 2%N => Some (PBytes (hex_encode (take (N.to_nat n) r)), drop (N.to_nat n) r)
      | 4%N => '(xs, r') ← many (N.to_nat n) r; Some (PList xs, r')
      | 6%N => '(major', m, r') ← cbor_read_head r;
               if ((121 <=? n) && (n <? 128) && (major' =? 4))%N
               then '(xs, r'') ← many (N.to_nat m) r'; Some (PConstr (Z.of_N n - 121) xs, r'') else None
      | _ => None
      end
  end.
Definition cbor_decode (b : bytes) : option pdata := match cbor_read (S (length b)) b with Some (d, []) => Some d | _ => None end.

Definition registry_lucid : Lucid := {|
  Data_to c x :=
    if c then match cbor_decode (canonical x) with
              | Some y => if same_plutus x y && plain true x then Ok (hex_encode (canonical x)) else throw "Invalid data"
              | None => throw "Invalid data"
              end
    else Ok (hex_encode (serialise x));
  Data_from h := match cbor_decode (hex_decode_prefix h) with
                 | Some d => if plain true d then Ok d else throw "Invalid data"
                 | None => throw "Invalid data"
                 end;
  CML_to_cbor_hex x := hex_encode (canonical x);
|}.
#[local] Existing Instance registry_lucid.

#[local] Instance registry_lucid_reads : LucidReads.
Proof.
  split.
  - intros c x. cbn. destruct (cbor_decode _) as [d|]; [|done]. destruct (plain true d) eqn:E; [|done]. by intros [= <-].
  - intros x c _. cbn. destruct (cbor_decode (canonical x)) as [y|] eqn:E; [|done]. destruct (same_plutus x y && plain true x) eqn:Es; [|done].
    intros [= <-]. apply andb_true_iff in Es as [<-%same_plutus_sound Hp]. by rewrite hex_decode_encode, E, Hp.
  - done.
Qed.
#[local] Instance registry_lucid_canonical : LucidCanonical.
Proof. intros x c _ _. cbn. destruct (cbor_decode (canonical x)) as [y|]; [|done]. destruct (_ && _); [|done]. by intros [= <-]. Qed.

#[local] Instance registry_blake2b : Blake2b := fun b => x00 :: be_of_N 8 (toy_fold b) ++ replicate 19 x01.
#[local] Instance registry_blake2b_ok : Blake2bOk.
Proof. constructor. intros b. unfold blake2b224, registry_blake2b. cbn [length]. rewrite length_app, length_be_of_N. reflexivity. Qed.
#[local] Existing Instance toy_sha3.
#[local] Existing Instance toy_sha3_ok.

(** Outputs below index 10 are the registry's. *)
#[local] Instance registry_addresses : UtxoAddress := fun u => if outputIndex u <? 10 then "registry" else "wallet".

Definition demo_policy : string := hex_encode (replicate 28 x07).
Definition demo_voucher : string := hex_encode (replicate 28 x08).
Definition demo_refs : list out_ref := [("00", 0); ("01", 0)].
Definition demo_directory_name : string := Eval vm_compute in identifier ("00", 0).
Definition demo_shard_name : string := Eval vm_compute in identifier ("01", 0).
Definition demo_directory : TraceRegistryDirectoryDatum := [MkTraceRegistryDirectoryBucket 0 demo_shard_name []].
Definition demo_entry (denom : string) : registry_entry := MkEntry (buildVoucherDenomHashFromFullDenom denom) (convertString2Hex denom).
Definition demo_shard (denoms : list string) : registry_shard := MkShard 0 (demo_entry <$> denoms).
Definition demo_datum (d : TraceRegistryDatum) : option string := match encodeTraceRegistryDatum d with Ok c => Some c | Err _ => None end.

Definition demo_du : UTxO := MkUTxO "02" 0 [(unit_of demo_policy demo_directory_name, 1)] (demo_datum (Directory demo_directory)).
Definition demo_su (denoms : list string) (ref : string) : UTxO :=
  MkUTxO ref 1 [(unit_of demo_policy demo_shard_name, 1)] (demo_datum (Shard (view_shard (demo_shard denoms)))).
Definition demo_nonce : UTxO := MkUTxO "03" 10 [("lovelace", 5000000)] None.
Definition demo_script : UTxO := MkUTxO "04" 11 [] None.
Definition demo_live (denoms : list string) (ref : string) : list UTxO := [demo_su denoms ref; demo_du; demo_nonce; demo_script].
Definition demo_ledger (denoms : list string) : ledger := MkLedger (demo_live denoms "02") demo_refs.

(** A provider that answers from a list of unspent outputs. *)
Definition demo_env (l : list UTxO) : RegistryEnv := {|
  traceRegistry := Some (MkTraceRegistryConfig "registry" demo_policy (Some (MkAuthToken demo_policy demo_directory_name)));
  mintVoucherScriptHash := demo_voucher;
  utxoByUnit unit := match List.find (fun u => amount (assets u) unit =? 1) l with Some u => Ok u | None => throw "Unable to find UTxO" end;
  walletUtxos := Ok [demo_nonce];
  maxTxSize := None; maxTxExMem := None; maxTxExSteps := None;
  estimateUnsignedTxBudget _ := throw "not asked";
  localeCompare _ _ := 0;
|}.
#[local] Instance demo_config : AssemblyConfig := {|
  hostStateSttAddress := ""; spendClientAddress := ""; spendConnectionAddress := ""; traceRegistryAddress := Some "registry";
  rs_hostStateStt := demo_script; rs_spendClient := demo_script; rs_mintClient := demo_script; rs_mintConnection := demo_script; rs_spendConnection := demo_script;
  rs_mintChannel := demo_script; rs_spendChannel := demo_script; rs_channelOpenAck := demo_script; rs_channelOpenConfirm := demo_script;
  rs_channelCloseInit := demo_script; rs_channelCloseConfirm := demo_script; rs_receivePacket := demo_script; rs_sendPacket := demo_script; rs_ackPacket := demo_script;
  rs_timeoutPacket := demo_script; rs_prunePacketHistory := demo_script; rs_verifyProof := demo_script; rs_spendTransferModule := demo_script;
  rs_spendMockModule := None; rs_mintVoucher := demo_script; rs_mintTransferEscrowShard := demo_script; rs_mintIdentifier := demo_script;
  rs_spendTraceRegistry := Some demo_script;
|}.

(** What has to be evaluated of a list of denominations. *)
Definition demo_check (denoms : list string) : bool :=
  let s := demo_shard denoms in
  bool_decide (shard_of (located (demo_su denoms "02")) = Some s) && shard_is_within_capacity s && bool_decide (NoDup (e_hash <$> s_entries s)) &&
  forallb (fun e => entry_is_admissible e && bool_decide (bucket_index_for_hash (e_hash e) = Some 0) && bool_decide (convertString2Hex (convertHex2String (e_denom e)) = e_denom e)) (s_entries s).

Definition demo_few : list string := ["transfer/channel-7/uatom"].
Definition digits2 (n : nat) : string := pretty (N.of_nat (10 + n)).
Definition demo_many : list string :=
  (fun n => "transfer/channel-7/" +:+ digits2 n +:+ "aaaaaaaaaaaaaaaaaaaaaaaaaaaaaaaaaaaaaaaaaaa") <$> List.seq 0 30.
Lemma demo_few_check : demo_check demo_few = true.
Proof. vm_compute. reflexivity. Qed.
Lemma demo_many_check : demo_check demo_many = true.
Proof. vm_compute. reflexivity. Qed.

#[local] Abbreviation demo_ok := (registry_ok "registry" demo_policy demo_directory_name).

Lemma demo_unit_inj n m : unit_of demo_policy n = unit_of demo_policy m -> n = m.
Proof. apply token_inj. Qed.
Lemma demo_amount x q n : amount [(unit_of demo_policy x, q)] (unit_of demo_policy n) = if decide (x = n) then q else 0.
Proof.
  unfold amount, map_get. destruct (decide (unit_of demo_policy x = unit_of demo_policy n)) as [E|E].
  - apply demo_unit_inj in E as ->. by rewrite decide_True.
  - rewrite decide_False by (by intros ->). done.
Qed.
Lemma demo_lovelace q n : amount [("lovelace", q)] (unit_of demo_policy n) = 0.
Proof. unfold amount, map_get. rewrite decide_False; [done|]. intros E. symmetry in E. by apply token_not_lovelace in E. Qed.
Lemma demo_names : demo_directory_name <> demo_shard_name.
Proof. apply (bool_decide_unpack _). vm_compute. reflexivity. Qed.

Lemma demo_held denoms ref n : held (unit_of demo_policy n) (demo_live denoms ref) =
  if decide (n = demo_shard_name) then 1 else if decide (n = demo_directory_name) then 1 else 0.
Proof.
  unfold demo_live. rewrite !held_cons. change (held _ []) with 0. cbn [assets demo_su demo_du demo_nonce demo_script]. rewrite !demo_amount, demo_lovelace. change (amount [] _) with 0.
  pose proof demo_names. repeat case_decide; subst; congruence || lia.
Qed.
Lemma demo_assets u denoms ref : u ∈ demo_live denoms ref ->
  assets u = [(unit_of demo_policy demo_shard_name, 1)] \/ assets u = [(unit_of demo_policy demo_directory_name, 1)] \/ assets u = [("lovelace", 5000000)] \/ assets u = [].
Proof.
  intros [->|[->|[->| ->%list_elem_of_singleton]%elem_of_cons]%elem_of_cons]%elem_of_cons; [by left|right; by left|do 2 right; by left|by do 3 right].
Qed.
Lemma demo_positive u denoms ref x : u ∈ demo_live denoms ref -> 0 <= amount (assets u) x.
Proof. intros [->|[->|[->| ->]]]%demo_assets; unfold amount, map_get; try case_decide; cbn; lia. Qed.

Lemma demo_ledger_ok denoms ref used : NoDup (ref_of <$> demo_live denoms ref) -> (forall u, u ∈ demo_live denoms ref -> ref_of u ∉ used) -> demo_refs ⊆ used ->
  ledger_ok demo_policy (MkLedger (demo_live denoms ref) used).
Proof.
  intros Hn Hr Hsub. split; cbn [live retired]; [done|done| | |].
  - intros u x Hu. by eapply demo_positive.
  - intros n. rewrite demo_held. repeat case_decide; lia.
  - intros n. rewrite demo_held. case_decide as E1; [|case_decide as E2; [|lia]]; intros _; subst n.
    + exists ("01", 0). split; [apply Hsub; right; left|]. vm_compute. reflexivity.
    + exists ("00", 0). split; [apply Hsub; left|]. vm_compute. reflexivity.
Qed.

Lemma demo_check_parts denoms ref : demo_check denoms = true -> shard_of (located (demo_su denoms ref)) = Some (demo_shard denoms) /\
  shard_is_within_capacity (demo_shard denoms) = true /\ NoDup (e_hash <$> s_entries (demo_shard denoms)) /\
  forall e, e ∈ s_entries (demo_shard denoms) -> entry_is_admissible e = true /\ bucket_index_for_hash (e_hash e) = Some 0 /\ text_entry e.
Proof.
  unfold demo_check. rewrite !andb_true_iff, !bool_decide_eq_true, forallb_forall. intros [[[Hs Hc] Hn] He]. split_and!; [exact Hs|done..|].
  intros e Hin%list_elem_of_In. specialize (He e Hin). rewrite !andb_true_iff, !bool_decide_eq_true in He. tauto.
Qed.

Lemma demo_directory_held : output_matches "registry" (unit_of demo_policy demo_directory_name) (located demo_du) = true /\ directory_of (located demo_du) = Some demo_directory /\
  directory_is_within_capacity demo_directory = true.
Proof. vm_compute. split_and!; reflexivity. Qed.
Lemma demo_shard_held denoms ref : output_matches "registry" (unit_of demo_policy demo_shard_name) (located (demo_su denoms ref)) = true.
Proof. vm_compute. reflexivity. Qed.

Lemma demo_registry_ok denoms ref used : demo_check denoms = true -> NoDup (ref_of <$> demo_live denoms ref) -> (forall u, u ∈ demo_live denoms ref -> ref_of u ∉ used) ->
  demo_refs ⊆ used -> demo_ok (MkLedger (demo_live denoms ref) used).
Proof.
  intros (Hs & Hc & Hn & He)%(demo_check_parts _ ref) Hr Hu Hsub. destruct demo_directory_held as (Dm & Dd & Dc). split; [by apply demo_ledger_ok|].
  exists demo_directory. split_and!; [|done|].
  - exists demo_du. split_and!; [right; left|done|done].
  - intros b ->%list_elem_of_singleton. exists [demo_shard denoms]. split; cbn [shard_names active_shard_name archived_shard_names bucket_index].
    + constructor; [|constructor]. exists (demo_su denoms ref). split_and!; [left|apply demo_shard_held|done].
    + intros s ->%list_elem_of_singleton. split; [reflexivity|exact Hc].
    + cbn [mbind list_bind]. by rewrite app_nil_r.
    + cbn [mbind list_bind]. rewrite app_nil_r. intros e (H1 & H2 & _)%He. exact (conj H1 H2).
Qed.

Lemma demo_registered denoms ref used e : demo_check denoms = true -> demo_ok (MkLedger (demo_live denoms ref) used) ->
  registered "registry" demo_policy demo_directory_name (MkLedger (demo_live denoms ref) used) e <-> e ∈ s_entries (demo_shard denoms).
Proof.
  intros Hk OK. destruct (demo_check_parts _ ref Hk) as (Hs & _ & _). destruct demo_directory_held as (Dm & Dd & _). pose proof (ro_ledger _ _ _ _ OK) as LO. split.
  - intros (d & b & name & s & Hd & Hb & Hname & Hh & He). rewrite (directory_unique _ _ _ _ d demo_directory LO Hd) in Hb; [|exists demo_du; split_and!; [right; left|done|done]].
    apply list_elem_of_singleton in Hb as ->. cbn in Hname. apply list_elem_of_singleton in Hname as ->.
    destruct Hh as (u & Hu & Hm & Hus). apply matches_spec in Hm as [_ Hm]. cbn [out_assets located] in Hm.
    assert (u = demo_su denoms ref) as ->; [|congruence].
    pose proof (demo_shard_held denoms ref) as [_ Hm']%matches_spec. eapply (same_live _ _ LO); eauto. left.
  - intros He. exists demo_directory, (MkTraceRegistryDirectoryBucket 0 demo_shard_name []), demo_shard_name, (demo_shard denoms).
    split_and!; [exists demo_du; split_and!; [right; left|done|done]|left|left|exists (demo_su denoms ref); split_and!; [left|apply demo_shard_held|done]|done].
Qed.

Lemma demo_datum_text d : demo_datum d <> Some "".
Proof.
  unfold demo_datum. destruct (encodeTraceRegistryDatum d) as [c|] eqn:E; [|done]. intros [= ->]. cbn in E.
  destruct (cbor_decode _); [|done]. destruct (_ && _); [|done]. injection E as E. apply (f_equal hex_decode_prefix) in E. rewrite hex_decode_encode in E. by destruct d.
Qed.
Lemma demo_provider denoms ref used : provider_ok (RE := demo_env (demo_live denoms ref)) "registry" demo_policy demo_directory_name (MkLedger (demo_live denoms ref) used).
Proof.
  split; [done|done| |].
  - intros n u Hu Ha. cbn [utxoByUnit demo_env live] in *. destruct (List.find _ _) as [v|] eqn:E.
    + apply List.find_some in E as [Hv%list_elem_of_In Ev%Z.eqb_eq]. f_equal. eapply one_holder; try done; [intros w Hw; by eapply demo_positive|]. rewrite demo_held. repeat case_decide; lia.
    + exfalso. pose proof (List.find_none _ _ E u (proj1 (list_elem_of_In _ _) Hu)) as Hn. cbv beta in Hn. lia.
  - intros u [->|[->|[->| ->%list_elem_of_singleton]%elem_of_cons]%elem_of_cons]%elem_of_cons; cbn [datum demo_su demo_du demo_nonce demo_script]; [apply demo_datum_text..|done|done].
Qed.
Lemma demo_deployed denoms ref used : deployed "registry" demo_policy (MkLedger (demo_live denoms ref) used).
Proof.
  split; [vm_compute; reflexivity| |done|by intros u [= <-]|done].
  intros u [->|[->|[->| ->]]]%demo_assets; [apply NoDup_singleton..|apply NoDup_nil_2].
Qed.

(** *** An append, and the ledger after it *)

Definition demo_text (r : result string) : string := match r with Ok c => c | Err _ => "" end.
Definition demo_calls (r : result TxBuilder) : TxBuilder := match r with Ok c => c | Err _ => [] end.
Definition demo_mints (denom : string) : TxBuilder :=
  [MintAssets [(demo_voucher +:+ CIP67_FT_LABEL_HEX +:+ buildVoucherDenomHashFromFullDenom denom, 1)] "00"].
Definition demo_append_plan (denoms : list string) (denom : string) : TraceRegistryInsertContext :=
  TraceAppend demo_du (demo_su denoms "02") [] (demo_text (encodeTraceRegistryRedeemer (InsertTrace (buildVoucherDenomHashFromFullDenom denom) denom)))
    (demo_text (encodeTraceRegistryDatum (Shard (view_shard (demo_shard (denoms ++ [denom])))))).
Definition demo_append_red (denom : string) : string := demo_text (encodeTraceRegistryRedeemer (InsertTrace (buildVoucherDenomHashFromFullDenom denom) denom)).

Lemma demo_quiet_nil : quiet "registry" demo_policy [].
Proof. split; intros; by apply not_elem_of_nil in H. Qed.
Lemma demo_quiet denom : quiet "registry" demo_policy (demo_mints denom).
Proof.
  split; try (intros; by apply not_elem_of_nil in H). intros a r n Hin. apply list_elem_of_singleton, (f_equal fst) in Hin. cbn [fst] in Hin. rewrite Hin.
  unfold amount, map_get. rewrite decide_False; [done|]. intros E. apply (f_equal (String.substring 0 2)) in E. vm_compute in E. discriminate.
Qed.
Lemma demo_texts denoms ref used : demo_check denoms = true -> demo_ok (MkLedger (demo_live denoms ref) used) ->
  forall e, registered "registry" demo_policy demo_directory_name (MkLedger (demo_live denoms ref) used) e -> text_entry e.
Proof. intros Hk OK e He%demo_registered; [|done..]. by apply (demo_check_parts _ ref Hk). Qed.

Lemma demo_fresh_refs denoms ref : ref <> "00" -> ref <> "01" -> (forall u, u ∈ demo_live denoms ref -> ref_of u ∉ demo_refs).
Proof.
  intros H0 H1 u [->|[->|[->| ->%list_elem_of_singleton]%elem_of_cons]%elem_of_cons]%elem_of_cons; unfold demo_refs; rewrite elem_of_cons, list_elem_of_singleton; intros [E|E]; injection E; done.
Qed.
Lemma demo_distinct_refs denoms ref : NoDup (ref_of <$> demo_live denoms ref).
Proof.
  change (NoDup [(ref, 1); ("02", 0); ("03", 10); ("04", 11)]). apply NoDup_cons. split.
  - rewrite !elem_of_cons, elem_of_nil. intros [E|[E|[E|E]]]; [injection E; done..|done].
  - apply (bool_decide_unpack _). vm_compute. exact I.
Qed.
Lemma demo_ledger_registry denoms : demo_check denoms = true -> demo_ok (demo_ledger denoms).
Proof. intros Hk. exact (demo_registry_ok denoms "02" demo_refs Hk (demo_distinct_refs denoms "02") (demo_fresh_refs denoms "02" ltac:(discriminate) ltac:(discriminate)) (fun _ H => H)). Qed.

Definition demo_osmo : string := "transfer/channel-7/uosmo".
Definition demo_tx : TxBuilder := demo_calls (applyTraceRegistryUpdate (Some (demo_append_plan demo_few demo_osmo)) []) ++ demo_mints demo_osmo.
Definition demo_after : ledger := MkLedger (demo_live (demo_few ++ [demo_osmo]) "05") (("02", 1) :: demo_refs).

#[local] Abbreviation demo_spend := (spend demo_policy demo_directory_name demo_voucher "").

(** The append of the Gateway is accepted: the capacity is not reached. *)
Lemma registry_append_accepted_witness : demo_spend (demo_su demo_few "02") (Some (demo_append_red demo_osmo)) (script_tx demo_tx) = true.
Proof.
  pose proof (demo_ledger_registry _ demo_few_check) as OK.
  destruct (registry_append_accepted (RE := demo_env (demo_live demo_few "02")) "registry" demo_policy demo_directory_name demo_voucher "" (demo_ledger demo_few) (demo_ledger demo_few)
    demo_osmo demo_du (demo_su demo_few "02") [] (demo_append_red demo_osmo) (demo_text (encodeTraceRegistryDatum (Shard (view_shard (demo_shard (demo_few ++ [demo_osmo]))))))
    [] (demo_calls (applyTraceRegistryUpdate (Some (demo_append_plan demo_few demo_osmo)) [])) (demo_mints demo_osmo) OK (steps_refl _ _ _ _ _ _))
    as (name & s & _ & Hs & E).
  - exact (demo_provider demo_few "02" demo_refs).
  - exact (demo_deployed demo_few "02" demo_refs).
  - exact (demo_texts demo_few "02" demo_refs demo_few_check OK).
  - vm_compute. reflexivity.
  - vm_compute. reflexivity.
  - apply demo_quiet_nil.
  - apply demo_quiet.
  - vm_compute. reflexivity.
  - unfold demo_tx. rewrite E. rewrite (proj1 (demo_check_parts _ "02" demo_few_check)) in Hs. assert (s = demo_shard demo_few) as -> by congruence. vm_compute. reflexivity.
Defined.

Lemma demo_few_after_check : demo_check (demo_few ++ [demo_osmo]) = true.
Proof. vm_compute. reflexivity. Qed.
Lemma demo_spent : stx_inputs (script_tx demo_tx) = [(demo_su demo_few "02", Some (demo_append_red demo_osmo))].
Proof. vm_compute. reflexivity. Qed.
Lemma demo_paid : stx_outputs (script_tx demo_tx) = [located (demo_su (demo_few ++ [demo_osmo]) "05")].
Proof. vm_compute. reflexivity. Qed.
Lemma demo_read : stx_reference_inputs (script_tx demo_tx) = [demo_script; demo_du].
Proof. vm_compute. reflexivity. Qed.
Lemma demo_minted n : stx_mint (script_tx demo_tx) (unit_of demo_policy n) = 0.
Proof.
  cbn [stx_mint script_tx]. unfold demo_tx. rewrite mint_of_app, (quiet_mint _ demo_policy (demo_mints demo_osmo) n (demo_quiet demo_osmo)).
  replace (mint_of (demo_calls _) (unit_of demo_policy n)) with 0; [done|]. unfold mint_of.
  replace (minted (demo_calls (applyTraceRegistryUpdate (Some (demo_append_plan demo_few demo_osmo)) []))) with (@nil (Assets * string)); [done|]. vm_compute. reflexivity.
Qed.
Lemma demo_accepted : demo_spend (demo_su demo_few "02") (Some (demo_append_red demo_osmo)) (script_tx demo_tx) = true.
Proof. vm_compute. reflexivity. Qed.

Lemma demo_step : ledger_step "registry" demo_policy demo_directory_name demo_voucher "" (demo_ledger demo_few) (script_tx demo_tx) demo_after.
Proof.
  apply (Ledger_step _ _ _ _ _ _ _ _ [demo_du; demo_nonce; demo_script] [demo_su (demo_few ++ [demo_osmo]) "05"]); rewrite ?demo_spent, ?demo_paid, ?demo_read.
  - reflexivity.
  - intros u [->| ->%list_elem_of_singleton]%elem_of_cons; [do 2 right; left|left].
  - reflexivity.
  - apply NoDup_singleton.
  - intros u ->%list_elem_of_singleton. split; apply (bool_decide_unpack _); vm_compute; exact I.
  - intros u x ->%list_elem_of_singleton. by apply (demo_positive _ (demo_few ++ [demo_osmo]) "05"); left.
  - intros n. rewrite demo_minted, Z.add_0_r. reflexivity.
  - intros u r [= -> ->]%list_elem_of_singleton _. apply demo_accepted.
  - left. exact demo_minted.
  - reflexivity.
  - reflexivity.
Qed.

Definition demo_steps : ledger_steps "registry" demo_policy demo_directory_name demo_voucher "" (demo_ledger demo_few) demo_after :=
  steps_step _ _ _ _ _ _ _ _ _ (steps_refl _ _ _ _ _ _) demo_step.

Lemma registry_invariant_witness : demo_ok demo_after /\
  registered "registry" demo_policy demo_directory_name demo_after (demo_entry "transfer/channel-7/uatom").
Proof.
  pose proof (demo_ledger_registry _ demo_few_check) as OK.
  destruct (registry_invariant "registry" demo_policy demo_directory_name demo_voucher "" (demo_ledger demo_few) demo_after OK demo_steps) as (H1 & H2 & _).
  split; [exact H1|]. apply H2. apply (demo_registered demo_few "02" demo_refs _ demo_few_check OK). left.
Defined.

Lemma demo_after_ok : demo_ok demo_after.
Proof. exact (proj1 (reachable_ok _ _ _ _ _ _ _ (demo_ledger_registry _ demo_few_check) demo_steps)). Qed.
Lemma demo_osmo_registered : registered "registry" demo_policy demo_directory_name demo_after (demo_entry demo_osmo).
Proof. apply (demo_registered (demo_few ++ [demo_osmo]) "05" _ _ demo_few_after_check demo_after_ok). right. left. Qed.

(** The Gateway finds the mapping that the append registered. *)
Lemma registry_lookup_complete_witness : exists o,
  findOnChainEntryByHash (RE := demo_env (live demo_after)) (buildVoucherDenomHashFromFullDenom demo_osmo) = Ok (Some o).
Proof.
  destruct (registry_lookup_complete (RE := demo_env (live demo_after)) "registry" demo_policy demo_directory_name demo_voucher "" (demo_ledger demo_few) demo_after
    (demo_ledger_registry _ demo_few_check) demo_steps (demo_provider (demo_few ++ [demo_osmo]) "05" _)) as [Hfind _].
  destruct (Hfind (buildVoucherDenomHashFromFullDenom demo_osmo) demo_directory (MkTraceRegistryDirectoryBucket 0 demo_shard_name [])) as (r & Hr & Hm).
  - vm_compute. reflexivity.
  - exists demo_du. split; [right; left|]. exact (conj (proj1 demo_directory_held) (proj1 (proj2 demo_directory_held))).
  - left.
  - vm_compute. reflexivity.
  - destruct r as [o|]; [exists o; exact Hr|]. exfalso. apply (Hm _ demo_osmo_registered). vm_compute. reflexivity.
Defined.

(** *** A full shard: a rollover, and the gap below the limit *)

Definition demo_long : string := "transfer/channel-7/zzaaaaaaaaaaaaaaaaaaaaaaaaaaaaaaaaaaaaaaaaaaa".
Definition demo_short : string := "transfer/channel-7/zzaaaaaaaaaaaaaaaaaaaaaaaaaaaaaaaaaaaaa".
Definition demo_new_name : string := identifier (ref_of demo_nonce).
Definition demo_advanced : TraceRegistryDirectoryDatum := [MkTraceRegistryDirectoryBucket 0 demo_new_name [demo_shard_name]].
Definition demo_dred : string :=
  demo_text (encodeTraceRegistryRedeemer (AdvanceDirectory 0 (buildVoucherDenomHashFromFullDenom demo_long) demo_long demo_shard_name demo_new_name)).
Definition demo_red : string := demo_text (encodeTraceRegistryRedeemer (RolloverInsertTrace (buildVoucherDenomHashFromFullDenom demo_long) demo_long demo_new_name)).
Definition demo_ddat : string := demo_text (encodeTraceRegistryDatum (Directory demo_advanced)).
Definition demo_adat : string := demo_text (encodeTraceRegistryDatum (Shard (view_shard (demo_shard demo_many)))).
Definition demo_ndat : string := demo_text (encodeTraceRegistryDatum (Shard (view_shard (demo_shard [demo_long])))).
Definition demo_mred : string := demo_text (encodeIdentifierMintRedeemer demo_nonce).
Definition demo_rollover : TraceRegistryInsertContext :=
  TraceRollover demo_du (demo_su demo_many "02") [] demo_nonce demo_dred demo_ddat demo_red demo_adat demo_ndat (unit_of demo_policy demo_new_name) demo_mred.
Definition demo_rollover_calls : TxBuilder := demo_calls (applyTraceRegistryUpdate (Some demo_rollover) []).

Lemma registry_rollover_accepted_witness :
  demo_spend (demo_su demo_many "02") (Some demo_red) (script_tx (demo_rollover_calls ++ demo_mints demo_long)) = true /\
  demo_spend demo_du (Some demo_dred) (script_tx (demo_rollover_calls ++ demo_mints demo_long)) = true.
Proof.
  pose proof (demo_ledger_registry _ demo_many_check) as OK.
  destruct (registry_rollover_accepted (RE := demo_env (demo_live demo_many "02")) "registry" demo_policy demo_directory_name demo_voucher "" (demo_ledger demo_many) (demo_ledger demo_many)
    demo_long false demo_du (demo_su demo_many "02") [] demo_nonce demo_dred demo_ddat demo_red demo_adat demo_ndat (unit_of demo_policy demo_new_name) demo_mred
    [] demo_rollover_calls (demo_mints demo_long) OK (steps_refl _ _ _ _ _ _) (demo_provider demo_many "02" demo_refs) (demo_deployed demo_many "02" demo_refs)
    (demo_texts demo_many "02" demo_refs demo_many_check OK)) as (_ & _ & name & s & _ & Hs & E1 & E2).
  - vm_compute. reflexivity.
  - do 2 right. left.
  - discriminate.
  - vm_compute. reflexivity.
  - discriminate.
  - intros r [->| ->%list_elem_of_singleton]%elem_of_cons Hr; vm_compute in Hr; discriminate.
  - vm_compute. reflexivity.
  - apply demo_quiet_nil.
  - apply demo_quiet.
  - vm_compute. reflexivity.
  - rewrite (proj1 (demo_check_parts _ "02" demo_many_check)) in Hs. assert (s = demo_shard demo_many) as -> by congruence.
    rewrite E1, E2. split; vm_compute; reflexivity.
Defined.

Lemma demo_short_entries : Forall short_entry (s_entries (demo_shard (demo_many ++ [demo_short]))).
Proof.
  assert (forallb (fun e => (length (raw (e_hash e)) <=? 64)%nat && (length (raw (e_denom e)) <=? 64)%nat) (s_entries (demo_shard (demo_many ++ [demo_short]))) = true) as H by (vm_compute; reflexivity).
  apply Forall_forall. intros e He%list_elem_of_In. rewrite forallb_forall in H. specialize (H e He). apply andb_true_iff in H as [H1%Nat.leb_le H2%Nat.leb_le]. exact (conj H1 H2).
Qed.

(** Thirty mappings and a denomination of 58 bytes: 3072 bytes measured, over the limit on chain. *)
Lemma registry_capacity_gap_witness :
  (forall tx, demo_spend (demo_su demo_many "02") (Some (demo_append_red demo_short)) tx = false) /\
  prepareOnChainInsert (RE := demo_env (demo_live demo_many "02")) (buildVoucherDenomHashFromFullDenom demo_short) demo_short true = throw rollover_too_early.
Proof.
  pose proof (demo_ledger_registry _ demo_many_check) as OK.
  destruct (registry_capacity_gap (RE := demo_env (demo_live demo_many "02")) "registry" demo_policy demo_directory_name demo_voucher "" (demo_ledger demo_many) (demo_ledger demo_many)
    demo_short demo_du (demo_su demo_many "02") [] (demo_append_red demo_short) (demo_text (encodeTraceRegistryDatum (Shard (view_shard (demo_shard (demo_many ++ [demo_short]))))))
    (demo_shard demo_many) OK (steps_refl _ _ _ _ _ _) (demo_provider demo_many "02" demo_refs) (demo_texts demo_many "02" demo_refs demo_many_check OK)) as (_ & H1 & H2).
  - vm_compute. reflexivity.
  - exact (proj1 (demo_check_parts _ "02" demo_many_check)).
  - exact demo_short_entries.
  - vm_compute. reflexivity.
  - exact (conj H1 H2).
Defined.
